(* ===== verification/_CoqProject ===== *)
-Q . S2P
Prelude.v
Capnp.v
TryLock.v
Kernel.v
MemMgr.v
Objects.v
Cluster.v
ClusterInv.v
ClusterReach.v
ClusterPick.v
ClusterTrace.v
ClusterRace.v
ClusterBind.v
ClusterResults.v
ClusterMembers.v
ClusterMutex.v
ClusterMemory.v
ClusterLimits.v
Fdt.v
FdtTree.v
FdtSafe.v
FdtRoundtrip.v
FdtLimits.v
Client.v
ClientSpec.v
JobMemory.v
JobExec.v
PageTable.v
PageFault.v
PageFaultArm.v
JobFault.v
NetworkRpc.v
NetworkEther.v
Proxy.v
MutexMgr.v
UserIpc.v
Securinit.v
Bytes.v
StageLoader.v
Acpi.v
Topology.v
NetworkDevice.v
VirtioSpec.v
GemSpec.v
GuestMap.v
SecurinitProbe.v
BootAlloc.v
Smp.v
SmpSpec.v
SmpX86.v
Bits.v
StateM.v
IrqArm.v
IrqArmSpec.v
IrqArmEnable.v
IrqX86.v
IrqX86Spec.v
Serial.v
SerialSpec.v
SerialArm.v
SerialX86.v
SerialLine.v
Console.v
FreestandingMem.v
Pci.v
Ata.v
Services.v
ServicesSpec.v
SelfTest.v
Boot.v
Demos.v
