(* ===== verification/Prelude.v ===== *)
(** * A verification library for coreinit

    otos-coreinit is the user-level kernel runtime that every core ("node") of
    an OTOS machine runs on top of a capability kernel (saski, another
    repository): it schedules jobs over the cluster, owns memory and
    resources, carries capability calls between machines, reads the device
    tree, and starts a second stage, securinit, that isolates guests.  This
    library models those parts as Rocq functions, file by file, and proves
    what makes them correct.

    ** How the parts interact

    Objects (cluster scheduler, resources, nodes, mutexes, jobs, memory
    manager, mutex manager, securinit's Gate and Admin, ...) are handlers
    called through the kernel's [kernel_invoke] with a handle, a method and a
    flat message.  Jobs reach the scheduler through the client of
    scheduler.c; a call to another machine goes through a proxy, a network
    session and an Ethernet frame to that machine's own kernel.

    ** Files

    - Prelude: machine integers ([u64], [u32], [to_int]), arrays ([!!?],
      [first_index]), selection by priority ([best]), masks, tactics.
    - Capnp (capnp_build.h, capnp_list.h, boot_protocol_decode.h): messages
      as bytes and as words.  The exact reader accepts precisely what the
      builder writes; the list reader stays inside any message.
    - TryLock (try_lock.h, the acquire loops): mutual exclusion in every
      interleaving; the loop ends when it finds the lock free.
    - Kernel: the interface of the capability kernel ([Kernel],
      [KernelLaws]) and an implementation of it.
    - MemMgr (mem_mgr.c): the ledger of claims; first fit; refinement of an
      exact contract on an abstract ledger of regions.
    - Objects, Cluster (cluster_scheduler.c): the four object handlers, and
      the scheduler's state ([cstate]) with one definition per request
      handler.  Each handler is one step, and its own storage lock is part of
      the state; what overlapping requests can do is the subject of
      ClusterRace.
      ClusterInv (invariant and its preservation by every handler),
      ClusterReach (executions, reachable states), ClusterPick (which job is
      handed out), ClusterTrace (dispatches in executions of whole requests),
      ClusterRace (GET_NEXT_JOB cut into its steps, which cores interleave: the
      compare-and-swap claims a job once; and what a stale scan and two
      overlapping joins do), ClusterBind (reservations), ClusterResults (completions), ClusterMembers (join,
      leave, declare), ClusterMutex (priority inheritance), ClusterMemory
      (slices), ClusterLimits (where the code falls short of its comments).
    - Fdt (lib/fdt.c): every function of the device-tree reader on a blob of
      bytes, where a read outside of the blob is an explicit result.
      FdtTree: device trees and their flattening; FdtSafe: the walks end,
      and stay inside a blob that is valid and padded; FdtRoundtrip: the walks,
      properties and paths of a flattened tree; FdtLimits: blobs on which
      the reader leaves the blob or does not end.
    - Client, ClientSpec (scheduler.c): the client of a node and a round of
      its worker loop; against the scheduler, a job's value is delivered.
    - JobMemory (job_memory.c): slices of memory for jobs, and mapping in a
      remote resource against the page-fault interface [PageFaults].
    - JobExec (job_exec.c, job_exec_x86_64.c, job_exec_aarch64.c): the jobs
      resident on a core, the driver that enters them and that they leave
      for; contexts are resumed once, by priority.
    - PageTable, PageFault (pagefault_x86_64.c), PageFaultArm
      (arch_mmu_aarch64.c, pagefault_aarch64.c): the tables of a core as words
      of memory, the handlers that resolve streamed and copy-on-write pages,
      and the processor's walk that they are judged by.  On AArch64 an
      invariant of every reachable core gives what each address translates
      to.  JobFault: both backends implement [PageFaults], and what acquiring
      a resource then guarantees on each.
    - NetworkRpc (network_rpc.c), NetworkEther (network_ether.c), Proxy
      (proxy.c, kinv.c): capability calls between machines, end to end.
    - MutexMgr (mutex_mgr.c, hw_mutex_lock of coreinit.c).
    - UserIpc (securinit/user_ipc.c and the exception handlers of
      arm_wrapper.c and x86_wrapper.c): what an isolated guest can do.
      GuestMap (the two probes): the page tables a guest runs on give it its
      region only, and are taken back.
    - Securinit (securinit/securinit.c): the Gate's policy and start-up, for
      any probe of the guest.  SecurinitProbe: the start-up with the probes of
      GuestMap in it, and the AArch64 program that enters the guest
      (arm_wrapper_aarch64.S).
    - Bytes, StageLoader (stage_loader.c): loading a Mach-O stage; whatever
      the image, only the reserved region is written.
    - Acpi (acpi_x86_64.c and the ACPI half of topology_aarch64.c), Topology
      (its device-tree half): the cores and devices found, on tables that
      encode them, and that discovery ends on any memory.
    - BootAlloc (boot_allocator_aarch64.S, core_state.c), Smp
      (smp_aarch64.c, smp_x86_64.c), SmpSpec (AArch64), SmpX86: the start of
      the other cores, what each finds in memory and in RAM when it starts,
      and that only claimed memory is written.
    - NetworkDevice (network_device_aarch64.c): the virtio-net and Cadence GEM
      drivers.  VirtioSpec, GemSpec: the devices as step relations, and that
      frames are received once and in order in every interleaving, and sent so
      as long as no virtio sending is given up.
    - Bits (fields of a word), StateM (code that acts on a state and may not
      return): what the files below share.
    - IrqArm (irq_aarch64.c, timer_aarch64.c, cross_core_signal_aarch64.c),
      IrqX86 (irq_x86_64.c, lapic_timer_x86_64.c,
      cross_core_signal_x86_64.c): interrupts, timers and signals between
      cores, as the sequence of device accesses the code makes.  IrqArmSpec,
      IrqArmEnable, IrqX86Spec: acknowledged interrupts are completed once
      and in order, an interrupt that can reach a core has a handler, and the
      CPU reads from the descriptor table what was installed.
    - Serial (the formatter [kvprintf]), SerialArm (serial_aarch64.c),
      SerialX86 (serial_x86_64.c): serial output over a UART that drains in
      its own time.  SerialSpec reads a format as pieces and states what a
      driver promises ([Transmits]); SerialLine shows that both drivers keep
      it, and so what a format puts on the line.
    - Console (job_kprintf of coreinit.c): jobs of several cores that print
      through a reservation of the serial line; in every interleaving their
      lines do not mix.
    - FreestandingMem (lib/freestanding_mem.c): memset, memcpy, memmove and
      memcmp on a memory of bytes, overlapping blocks included.
    - Pci (pci_x86_64.c): the scan reports each function of bus 0 once, in
      order.  Ata (ata_x86_64.c, disk_handler): a sector is read as the drive
      holds it, or the read fails with the status the drive ends in.
    - Services (coreinit.c): the objects that coreinit.c implements (the tick
      counter, the network executor, securinit's exception routers, the
      network service's poll), the types of jobs it registers, the jobs it
      submits at boot and the bodies of those that are not demonstrations of
      the hardware.  ServicesSpec: the regions claimed for securinit
      belong to it alone, the remote sum comes back from the other machine,
      the nodes' ids differ.  SelfTest: the two tests of job_exec that
      coreinit_main runs at boot, run on the model of JobExec.
    - Boot (coreinit_main of coreinit.c): the set-up of a core from its first
      proxy to the serial line.  A core other than the boot core reaches the
      boot core's services and is a member of its cluster afterwards.
    - Demos (the demonstration jobs of coreinit.c): page faults on AArch64,
      the executor of another machine, and the start of the timer.

    ** Conventions

    A [uint64_t] is a [Z] with the wrap-around written out where the code can
    wrap.  A handler takes a request's words, the size of the reply buffer
    and the state, and returns the state and the reply ([None]: no reply was
    written).  Logging ([kprintf]) has no effect in the model, but in the files
    whose subject it is (Serial, Console).  A C array is
    a list of its length; an index out of range is a result of its own
    wherever the code can reach it (Fdt, JobExec).

    ** Fuel

    Loops over arrays are structural.  The walks of Fdt take the size of the
    blob as fuel, which [FdtSafe] shows to be enough on every blob; the
    search for a compatible node has none that is enough
    ([FdtLimits.compatible_search_diverges]), so [topology_discover] takes
    that fuel as an argument.  The loops over a MADT take its length, which
    [Acpi.discovery_returns] shows to be enough.  [each_block] of JobMemory gets
    the number of blocks.  [stage_invoke] of Securinit counts nested kernel
    calls: four are enough for all of [securinit_main], which the theorem
    states.  The polling loops of NetworkEther run their real 10^8 rounds,
    by recursion on a binary number, and so do the 10^6 of Ata.  Waiting for
    a UART has no bound in the code: the model takes one, and the theorems
    hold for every bound that is large enough.  The runs of SelfTest are 40
    segments long at most, and their theorem states that both end; an access
    of Demos enters the fault handler twice at most, once in its theorem.

    ** Not modelled

    The kernel (another repository) is an interface.  Left out because their
    meaning is the hardware's: the assembly of boot, of the context switches
    and of the x86-64 guest, the translation caches, and the files that hold one
    instruction each (reading and setting the per-core pointer, the id of a
    core).  Of coreinit.c, the first lines of coreinit_main, which set up
    serial output, core_state and the MMU, and job_stream_cow_verify are left
    out: the operations they call are modelled with their components.  The
    GRUB loader under tools/ derives from third-party code and is not part of
    the runtime.  Weak memory is not modelled: an atomic operation is one
    step, and of the scheduler's requests only GET_NEXT_JOB and JOIN_NODE are
    cut into several.

    ** Plan

    Next: the boot core's own set-up against the kernel interface, and the
    shared image, where the statics of Boot belong to all cores at once. *)

From stdpp Require Export base list list_numbers numbers relations.
From Stdlib Require Export ZArith Lia.


Declare Scope c_scope.
Delimit Scope c_scope with C.
#[global] Open Scope Z_scope.

(** ** Machine integers

    A [uint64_t], [uint32_t] or [int] is a [Z]; arithmetic that can leave the
    width is reduced explicitly with these functions. *)

Definition W64 : Z := 18446744073709551616.
Definition u64 (x : Z) : Z := x mod W64.
Definition u32 (x : Z) : Z := x mod 4294967296.
Definition u16 (x : Z) : Z := x mod 65536.

(** Conversion to [int]: the low 32 bits read as two's complement. *)
Definition to_int (x : Z) : Z :=
  let y := u32 x in if y <? 2147483648 then y else y - 4294967296.

Definition is_u64 (x : Z) : Prop := 0 <= x < W64.
Definition is_int (x : Z) : Prop := -2147483648 <= x < 2147483648.

Notation "a +64 b" := (u64 (a + b)) (at level 50, left associativity) : c_scope.
Notation "a -64 b" := (u64 (a - b)) (at level 50, left associativity) : c_scope.
#[global] Open Scope c_scope.

#[global] Instance is_u64_dec x : Decision (is_u64 x).
Proof. unfold is_u64. apply _. Defined.

Lemma W64_pos : 0 < W64.
Proof. reflexivity. Qed.

Lemma u64_range x : is_u64 (u64 x).
Proof. apply Z.mod_pos_bound, W64_pos. Qed.

Lemma u64_small x : is_u64 x -> u64 x = x.
Proof. intros H. apply Z.mod_small, H. Qed.

Lemma u64_idem x : u64 (u64 x) = u64 x.
Proof. apply u64_small, u64_range. Qed.

Lemma to_int_range x : is_int (to_int x).
Proof.
  unfold is_int, to_int, u32.
  pose proof (Z.mod_pos_bound x 4294967296 ltac:(lia)).
  case_match eqn:E; rewrite ?Z.ltb_lt, ?Z.ltb_ge in E; lia.
Qed.

(** An [int] survives the trip through a [uint64_t] message word: C
    sign-extends on the way out and truncates on the way back. *)
Lemma to_int_u64 i : is_int i -> to_int (u64 i) = i.
Proof.
  unfold is_int, to_int, u32, u64, W64. intros H.
  replace ((i mod 18446744073709551616) mod 4294967296) with (i mod 4294967296).
  - destruct (decide (0 <= i)).
    + rewrite Z.mod_small by lia. case_match eqn:E; [done|].
      rewrite Z.ltb_ge in E. lia.
    + replace (i mod 4294967296) with (i + 4294967296).
      * case_match eqn:E; rewrite ?Z.ltb_lt, ?Z.ltb_ge in E; lia.
      * apply (Z.mod_unique_pos _ _ (-1)); lia.
  - rewrite Z.mod_mod_divide; [done|]. by exists 4294967296.
Qed.

(** ** Boolean tests

    The model writes the code's conditions as [bool]s; [bool_simp] turns the
    ones in the context and the goal into propositions. *)

Ltac bool_simp :=
  repeat match goal with
  | H : context [bool_decide _] |- _ => progress rewrite ?bool_decide_eq_true, ?bool_decide_eq_false in H
  | H : (_ && _) = true |- _ => apply andb_true_iff in H; destruct H
  | H : (_ || _) = false |- _ => apply orb_false_iff in H; destruct H
  | H : negb _ = true |- _ => apply negb_true_iff in H
  | H : negb _ = false |- _ => apply negb_false_iff in H
  | H : (_ =? _) = true |- _ => apply Z.eqb_eq in H
  | H : (_ =? _) = false |- _ => apply Z.eqb_neq in H
  | H : (_ <? _) = true |- _ => apply Z.ltb_lt in H
  | H : (_ <? _) = false |- _ => apply Z.ltb_ge in H
  | H : (_ <=? _) = true |- _ => apply Z.leb_le in H
  | H : (_ <=? _) = false |- _ => apply Z.leb_gt in H
  end.

(** Split on the scrutinee of the outermost [if] or [match] of the goal,
    keeping its equation. *)
Ltac case_cond :=
  match goal with
  | |- context [if ?b then _ else _] =>
      lazymatch type of b with bool => destruct b eqn:?; bool_simp end
  | _ => case_match; bool_simp
  end.

Create HintDb coreinit.
#[export] Hint Resolve u64_range to_int_range : coreinit.

(** ** Message words

    [words !!! i] of a message: reading past the end of a validated flat
    message does not happen; the model reads 0 there. *)

Definition word (ws : list Z) (i : nat) : Z := nth i ws 0.

(** [ok ? 1u : 0u]. *)
Definition bool_word (b : bool) : Z := if b then 1 else 0.

(** ** Arrays

    The static arrays of the program are lists of a fixed length, read with
    [!!] and written with [<[ := ]>].  [first_free p l] is the index a
    "claim the first free slot" loop stops at. *)

Definition first_index {A} (p : A -> bool) (l : list A) : option nat :=
  fst <$> list_find (fun a => p a = true) l.

Section first_index.
Context {A : Type} (p : A -> bool).

Lemma first_index_Some l i :
  first_index p l = Some i ->
  exists a, l !! i = Some a /\ p a = true /\
    forall j b, l !! j = Some b -> (j < i)%nat -> p b = false.
Proof.
  unfold first_index. intros H.
  apply fmap_Some in H as [[k a] [H ->]]. simpl.
  apply list_find_Some in H as (Hk & Hp & Hlt).
  exists a. split_and!; [done..|].
  intros j b Hj Hji. specialize (Hlt j b Hj Hji).
  by destruct (p b).
Qed.

Lemma first_index_None l :
  first_index p l = None <-> forall j b, l !! j = Some b -> p b = false.
Proof.
  unfold first_index. rewrite fmap_None, list_find_None, Forall_lookup.
  split; intros H j b Hb; specialize (H j b Hb); destruct (p b); naive_solver.
Qed.

Lemma first_index_exists l j b :
  l !! j = Some b -> p b = true -> exists i, first_index p l = Some i /\ (i <= j)%nat.
Proof.
  intros Hb Hp. destruct (first_index p l) as [i|] eqn:E.
  - exists i. split; [done|]. apply first_index_Some in E as (a & Ha & Hpa & Hlt).
    destruct (decide (i <= j)%nat); [done|].
    rewrite (Hlt j b Hb) in Hp by lia. done.
  - rewrite first_index_None in E. by rewrite (E j b Hb) in Hp.
Qed.

Lemma first_index_lt l i : first_index p l = Some i -> (i < length l)%nat.
Proof. intros H. apply first_index_Some in H as (a & Ha & _). by eapply lookup_lt_Some. Qed.
End first_index.

(** Reading an array the way C does, with a default where the index is out of
    range (never the case for the indices the code uses). *)
#[global] Arguments inhabitant {_ _} : simpl never.
Notation "l !!? i" := (nth i l inhabitant) (at level 20) : c_scope.

Lemma nth_lookup_Some_inh {A} `{Inhabited A} (l : list A) i a :
  l !! i = Some a -> l !!? i = a.
Proof. intros Hl. by apply nth_lookup_Some. Qed.

Lemma lookup_nth_inh {A} `{Inhabited A} (l : list A) i :
  (i < length l)%nat -> l !! i = Some (l !!? i).
Proof.
  intros Hi. destruct (lookup_lt_is_Some_2 l i Hi) as [a Ha].
  by rewrite (nth_lookup_Some_inh l i a Ha).
Qed.

Lemma nth_insert_eq {A} `{Inhabited A} (l : list A) i a :
  (i < length l)%nat -> <[i:=a]> l !!? i = a.
Proof. intros Hi. apply nth_lookup_Some_inh. by rewrite list_lookup_insert_eq. Qed.

Lemma nth_insert_ne {A} `{Inhabited A} (l : list A) i j a :
  i <> j -> <[i:=a]> l !!? j = l !!? j.
Proof.
  intros Hij. rewrite !nth_lookup. by rewrite list_lookup_insert_ne.
Qed.

(** The cases of a lookup in an updated array. *)
Lemma lookup_insert_cases {A} (l : list A) i j (a b : A) :
  <[i:=a]> l !! j = Some b -> (i = j /\ b = a /\ (i < length l)%nat) \/ (i <> j /\ l !! j = Some b).
Proof.
  intros H. destruct (decide (i = j)) as [->|Hne].
  - left. assert (j < length l)%nat as Hlt.
    { apply lookup_lt_Some in H. by rewrite length_insert in H. }
    rewrite list_lookup_insert_eq in H by done. naive_solver.
  - right. by rewrite list_lookup_insert_ne in H.
Qed.

(** The greatest element of a list below a bound. *)
Lemma list_greatest_below (l : list Z) (b z : Z) :
  z ∈ l -> z <= b ->
  exists x, x ∈ l /\ x <= b /\ forall c, c ∈ l -> c <= b -> c <= x.
Proof.
  revert z. induction l as [|y l IH]; intros z Hz Hb; [by apply not_elem_of_nil in Hz|].
  destruct (decide (Exists (fun z' => z' <= b /\ y <= z') l)) as [(z' & Hz' & Hb' & Hy)%Exists_exists|Hno].
  - destruct (IH z' Hz' Hb') as (x & Hx & Hxb & Hall). exists x.
    split_and!; [apply elem_of_cons; by right|done|].
    intros c [->|Hc]%elem_of_cons Hcb; [|auto]. specialize (Hall z' Hz' Hb'). lia.
  - destruct (decide (y <= b)) as [Hyb|Hyb].
    + exists y. split_and!; [apply elem_of_cons; by left|done|].
      intros c [->|Hc]%elem_of_cons Hcb; [done|].
      destruct (decide (c <= y)); [done|]. exfalso. apply Hno, Exists_exists. exists c. split_and!; [done..|lia].
    + apply elem_of_cons in Hz as [->|Hz]; [lia|].
      destruct (IH z Hz Hb) as (x & Hx & Hxb & Hall). exists x.
      split_and!; [apply elem_of_cons; by right|done|].
      intros c [->|Hc]%elem_of_cons Hcb; [lia|auto].
Qed.

(** Choosing an element for every position of a list. *)
Lemma list_choose {A B} (P : A -> B -> Prop) (l : list A) :
  (forall x, x ∈ l -> exists y, P x y) -> exists l', Forall2 P l l'.
Proof.
  induction l as [|x l IH]; intros H; [by exists []|].
  destruct (H x) as [y Hy]; [apply list_elem_of_here|].
  destruct IH as [l' Hl']; [intros z Hz; apply H; by apply list_elem_of_further|].
  exists (y :: l'). by constructor.
Qed.

(** A duplicate-free list of numbers below [n] has at most [n] elements. *)
Lemma NoDup_bounded_length (l : list nat) n :
  NoDup l -> Forall (fun x => x < n)%nat l -> (length l <= n)%nat.
Proof.
  intros Hnd Hall. rewrite <- (length_seq n 0). apply submseteq_length, NoDup_submseteq; [done|].
  intros x Hx. rewrite Forall_forall in Hall. specialize (Hall x Hx). apply elem_of_seq. lia.
Qed.

(** ** Selection by priority *)

(** [r] is the slot below [n] that satisfies [P], of the highest priority,
    the lowest such slot among equals; [None] when no slot does. *)
Definition best (P : nat -> bool) (p : nat -> Z) (n : nat) (r : option nat) : Prop :=
  match r with
  | None => forall i, (i < n)%nat -> P i = false
  | Some b => (b < n)%nat /\ P b = true /\
      forall i, (i < n)%nat -> P i = true -> p i < p b \/ (p i = p b /\ (b <= i)%nat)
  end.

Lemma best_skip P p n r : P n = false -> best P p n r -> best P p (S n) r.
Proof.
  intros Hn. destruct r as [b|]; simpl.
  - intros (Hb & HP & Hall). split_and!; [lia|done|]. intros i Hi HPi. apply Hall; [|done].
    destruct (decide (i = n)) as [->|]; [congruence|lia].
  - intros Hall i Hi. destruct (decide (i = n)) as [->|]; [done|]. apply Hall. lia.
Qed.

Lemma best_take P p n r :
  P n = true -> best P p n r ->
  best P p (S n) (if match r with None => true | Some b => p b <? p n end then Some n else r).
Proof.
  intros Hn. destruct r as [b|]; simpl.
  - intros (Hb & HP & Hall). case_cond; split_and!; try lia; try done; intros i Hi HPi;
    destruct (decide (i = n)) as [->|]; try lia;
    specialize (Hall i ltac:(lia) HPi); lia.
  - intros Hall. split_and!; [lia|done|]. intros i Hi HPi.
    destruct (decide (i = n)) as [->|]; [lia|]. rewrite Hall in HPi by lia. done.
Qed.

Lemma best_ext P p p' n r : (forall i, p i = p' i) -> best P p n r -> best P p' n r.
Proof.
  intros E. destruct r as [b|]; simpl; [|done]. intros (? & ? & Hall). split_and!; [done..|].
  intros i Hi HPi. rewrite <- !E. auto.
Qed.

Lemma best_unique P p n a b : best P p n a -> best P p n b -> a = b.
Proof.
  destruct a as [a|], b as [b|]; simpl; try done.
  - intros (? & Pa & Ha) (? & Pb & Hb). f_equal. specialize (Ha b). specialize (Hb a). intuition lia.
  - intros (? & Pa & _) Hb. by rewrite Hb in Pa.
  - intros Ha (? & Pb & _). by rewrite Ha in Pb.
Qed.

(** ** Masks *)

Lemma land_high x m k : 0 <= k ->
  Z.land x (Z.shiftl (Z.ones m) k) = Z.shiftl (Z.land (Z.shiftr x k) (Z.ones m)) k.
Proof.
  intros Hk. apply Z.bits_inj'. intros i Hi.
  rewrite Z.land_spec, !Z.shiftl_spec by done. destruct (Z.ltb_spec i k).
  - rewrite !(Z.testbit_neg_r _ (i - k)) by lia. apply andb_false_r.
  - rewrite Z.land_spec, Z.shiftr_spec by lia. by replace (i - k + k) with i by lia.
Qed.

(** Clearing the low [k] bits of an [m + k]-bit number. *)
Lemma align_down x m k : 0 <= m -> 0 <= k -> 0 <= x < 2 ^ (m + k) ->
  Z.land x (Z.shiftl (Z.ones m) k) = 2 ^ k * (x / 2 ^ k).
Proof.
  intros Hm Hk Hx. rewrite land_high, Z.land_ones, Z.shiftl_mul_pow2, Z.shiftr_div_pow2 by done.
  rewrite Z.mod_small; [lia|]. rewrite Z.pow_add_r in Hx by done.
  split; [apply Z.div_pos; lia|]. apply Z.div_lt_upper_bound; lia.
Qed.
