(* ===== verification/Capnp.v ===== *)
(** * Flat Cap'n Proto messages (coreinit/capnp_build.h, include/capnp_list.h)

    Messages at the level of bytes: a byte is a [Z] in [0, 256), a message a
    list of bytes, a [uint64_t] access reads eight bytes in little-endian
    order (both ports are little-endian).  [capnp_build_flat] and
    [capnp_read_flat_exact] are shown inverse to one another in both
    directions, the composite-list reader never reads outside its message,
    and it recovers what the builder wrote.

    The last section is the view the object handlers of the other files use:
    a flat message that passed the kernel's validation is the list of its
    data words, and a reply is present only when the caller's buffer holds
    it. *)

From S2P Require Import Prelude.

(** ** Bytes and words *)

Definition is_byte (b : Z) : Prop := 0 <= b < 256.

Definition word_bytes (w : Z) : list Z := Z_to_little_endian 8 8 w.
Definition half_bytes (w : Z) : list Z := Z_to_little_endian 4 8 w.
Definition word_of_bytes (bs : list Z) : Z := little_endian_to_Z 8 bs.

#[global] Arguments word_bytes : simpl never.
#[global] Arguments half_bytes : simpl never.

Definition bytes_of_words (ws : list Z) : list Z := ws ≫= word_bytes.

(** [((const uint64_t * )b)[i]] for i < n. *)
Fixpoint words_of_bytes (n : nat) (bs : list Z) : list Z :=
  match n with
  | O => []
  | S n => word_of_bytes (take 8 bs) :: words_of_bytes n (drop 8 bs)
  end.

(** ** The flat encoder and its readers *)

Definition capnp_build_flat (buf_cap : Z) (data_words : list Z) : list Z :=
  let n_words := Z.of_nat (length data_words) in
  let total := 8 + 8 + n_words * 8 in
  if buf_cap <? total then []
  else
    let seg_words := u32 (1 + n_words) in
    [0; 0; 0; 0] ++
    [Z.land seg_words 0xFF;
     Z.land (Z.shiftr seg_words 8) 0xFF;
     Z.land (Z.shiftr seg_words 16) 0xFF;
     Z.land (Z.shiftr seg_words 24) 0xFF] ++
    word_bytes (Z.shiftl n_words 32) ++
    bytes_of_words data_words.

Definition capnp_read_flat (n : nat) (msg : list Z) : list Z :=
  words_of_bytes n (drop 16 msg).

Definition capnp_read_flat_exact (msg : list Z) (len : Z) (n_words : nat) : option (list Z) :=
  if negb (len =? 16 + Z.of_nat n_words * 8) then None
  else if negb ((msg !!? 0 =? 0) && (msg !!? 1 =? 0) && (msg !!? 2 =? 0) && (msg !!? 3 =? 0))
  then None
  else
    let segment_words :=
      Z.lor (Z.lor (Z.lor (msg !!? 4) (Z.shiftl (msg !!? 5) 8))
                   (Z.shiftl (msg !!? 6) 16))
            (Z.shiftl (msg !!? 7) 24) in
    if negb (segment_words =? 1 + Z.of_nat n_words) then None
    else
      let wire0 := word_of_bytes (take 8 (drop 8 msg)) in
      if negb (wire0 =? Z.shiftl (Z.of_nat n_words) 32) then None
      else Some (words_of_bytes n_words (drop 16 msg)).

(** *** Lemmas on the byte layer *)

Lemma length_word_bytes w : length (word_bytes w) = 8%nat.
Proof. done. Qed.

Lemma word_bytes_byte w : Forall is_byte (word_bytes w).
Proof.
  apply Forall_forall. intros b Hb. unfold word_bytes in Hb.
  pose proof (Z_to_little_endian_bound 8 8 w) as H.
  rewrite Forall_forall in H; [|lia..]. by apply H.
Qed.

Lemma word_of_word_bytes w : is_u64 w -> word_of_bytes (word_bytes w) = w.
Proof.
  intros H. unfold word_of_bytes, word_bytes.
  rewrite little_endian_to_Z_to_little_endian by lia.
  apply Z.mod_small, H.
Qed.

Lemma word_bytes_of_bytes bs :
  length bs = 8%nat -> Forall is_byte bs -> word_bytes (word_of_bytes bs) = bs.
Proof.
  intros Hlen Hb. unfold word_of_bytes, word_bytes.
  apply Z_to_little_endian_to_Z; [by rewrite Hlen | lia | done].
Qed.

Lemma word_of_bytes_u64 bs :
  length bs = 8%nat -> Forall is_byte bs -> is_u64 (word_of_bytes bs).
Proof.
  intros Hlen Hb. unfold word_of_bytes, is_u64.
  pose proof (little_endian_to_Z_bound 8 bs ltac:(lia) Hb) as H.
  by rewrite Hlen in H.
Qed.

Lemma length_bytes_of_words ws : length (bytes_of_words ws) = (8 * length ws)%nat.
Proof.
  induction ws as [|w ws IH]; [done|].
  unfold bytes_of_words in *. rewrite bind_cons, length_app, IH, length_word_bytes. simpl. lia.
Qed.

Lemma bytes_of_words_byte ws : Forall is_byte (bytes_of_words ws).
Proof.
  induction ws as [|w ws IH]; [constructor|].
  apply Forall_app_2; [apply word_bytes_byte | apply IH].
Qed.

Lemma words_of_bytes_of_words ws rest :
  Forall is_u64 ws -> words_of_bytes (length ws) (bytes_of_words ws ++ rest) = ws.
Proof.
  induction 1 as [|w ws Hw _ IH]; [done|].
  change (bytes_of_words (w :: ws)) with (word_bytes w ++ bytes_of_words ws).
  rewrite <- (assoc_L app). simpl length.
  cbn [words_of_bytes]. rewrite take_app_length', drop_app_length' by done.
  by rewrite IH, word_of_word_bytes.
Qed.

Lemma bytes_of_words_of_bytes n bs :
  Forall is_byte bs -> length bs = (8 * n)%nat -> bytes_of_words (words_of_bytes n bs) = bs.
Proof.
  revert bs. induction n as [|n IH]; intros bs Hb Hlen.
  - by destruct bs.
  - cbn [words_of_bytes].
    change (bytes_of_words (?w :: ?ws)) with (word_bytes w ++ bytes_of_words ws).
    rewrite IH, word_bytes_of_bytes.
    + apply take_drop.
    + rewrite length_take. lia.
    + by apply Forall_take.
    + by apply Forall_drop.
    + rewrite length_drop. lia.
Qed.

Lemma length_words_of_bytes n bs : length (words_of_bytes n bs) = n.
Proof. revert bs. induction n; intros bs; simpl; auto. Qed.

Lemma words_of_bytes_u64 n bs :
  Forall is_byte bs -> length bs = (8 * n)%nat -> Forall is_u64 (words_of_bytes n bs).
Proof.
  revert bs. induction n as [|n IH]; intros bs Hb Hlen; constructor.
  - apply word_of_bytes_u64; [rewrite length_take; lia | by apply Forall_take].
  - apply IH; [by apply Forall_drop | rewrite length_drop; lia].
Qed.

(** The four header bytes written one by one are the little-endian bytes of
    the segment size, and reassembling them gives it back. *)
Lemma header_bytes_half s :
  [Z.land s 0xFF; Z.land (Z.shiftr s 8) 0xFF; Z.land (Z.shiftr s 16) 0xFF;
   Z.land (Z.shiftr s 24) 0xFF] = half_bytes s.
Proof.
  unfold half_bytes, Z_to_little_endian. simpl.
  by rewrite !Z.shiftr_shiftr by lia.
Qed.

Lemma header_word_of_bytes a b c d :
  Z.lor (Z.lor (Z.lor a (Z.shiftl b 8)) (Z.shiftl c 16)) (Z.shiftl d 24)
  = little_endian_to_Z 8 [a; b; c; d].
Proof.
  simpl. rewrite Z.shiftl_0_l, Z.lor_0_r, !Z.shiftl_lor, !Z.shiftl_shiftl by lia.
  by rewrite !Z.lor_assoc.
Qed.

Definition flat_total (n : nat) : Z := 16 + 8 * Z.of_nat n.

(** The layout of a message that fits. *)
Lemma capnp_build_flat_fits cap ws :
  Z.of_nat (length ws) < 65536 -> flat_total (length ws) <= cap ->
  capnp_build_flat cap ws =
  [0; 0; 0; 0] ++ half_bytes (1 + Z.of_nat (length ws)) ++
  word_bytes (Z.shiftl (Z.of_nat (length ws)) 32) ++ bytes_of_words ws.
Proof.
  unfold flat_total. intros Hn Hcap. unfold capnp_build_flat.
  case_cond; [lia|]. rewrite header_bytes_half.
  unfold u32. by rewrite Z.mod_small by lia.
Qed.

Lemma length_capnp_build_flat cap ws :
  Z.of_nat (length ws) < 65536 -> flat_total (length ws) <= cap ->
  Z.of_nat (length (capnp_build_flat cap ws)) = flat_total (length ws).
Proof.
  intros. rewrite capnp_build_flat_fits, !length_app by done.
  rewrite length_bytes_of_words, length_word_bytes. unfold flat_total.
  change (length (half_bytes _)) with 4%nat. simpl. lia.
Qed.

Lemma root_word_u64 n : 0 <= n < 65536 -> is_u64 (Z.shiftl n 32).
Proof. intros H. rewrite Z.shiftl_mul_pow2 by lia. unfold is_u64, W64. lia. Qed.

Lemma half_of_half_bytes s :
  0 <= s < 4294967296 -> little_endian_to_Z 8 (half_bytes s) = s.
Proof.
  intros H. unfold half_bytes. rewrite little_endian_to_Z_to_little_endian by lia.
  by apply Z.mod_small.
Qed.

Lemma read_flat_exact_build cap ws :
  Z.of_nat (length ws) < 65536 -> flat_total (length ws) <= cap -> Forall is_u64 ws ->
  capnp_read_flat_exact (capnp_build_flat cap ws) (flat_total (length ws)) (length ws) = Some ws.
Proof.
  intros Hn Hcap Hws. rewrite capnp_build_flat_fits by done.
  unfold capnp_read_flat_exact. set (n := Z.of_nat (length ws)) in *.
  case_cond; [unfold flat_total in *; lia|].
  simpl app at 1. unfold half_bytes at 1 2 3 4. unfold Z_to_little_endian at 1 2 3 4. simpl.
  case_cond.
  { exfalso. match goal with H : _ <> 1 + n |- _ => rename H into Hs end.
    rewrite header_word_of_bytes in Hs.
    change (little_endian_to_Z 8 (half_bytes (1 + n)) <> 1 + n) in Hs.
    apply Hs, half_of_half_bytes. lia. }
  case_cond.
  { exfalso. match goal with H : _ <> Z.shiftl n 32 |- _ => apply H end.
    change (word_of_bytes (word_bytes (n ≪ 32)) = n ≪ 32).
    apply word_of_word_bytes, root_word_u64. lia. }
  f_equal. rewrite drop_0.
  rewrite <- (app_nil_r (bytes_of_words ws)). by apply words_of_bytes_of_words.
Qed.

(** The sixteen bytes of header and root pointer are determined by the
    reader's four tests. *)
Lemma read_flat_exact_header msg n ws :
  Z.of_nat n < 65536 -> Forall is_byte msg ->
  capnp_read_flat_exact msg (Z.of_nat (length msg)) n = Some ws ->
  ws = words_of_bytes n (drop 16 msg) /\ length (drop 16 msg) = (8 * n)%nat /\
  take 16 msg = [0; 0; 0; 0] ++ half_bytes (1 + Z.of_nat n) ++ word_bytes (Z.shiftl (Z.of_nat n) 32).
Proof.
  intros Hn Hb. unfold capnp_read_flat_exact.
  case_cond; [done|].
  assert (length msg = 16 + 8 * n)%nat as Hlen by lia.
  do 16 (destruct msg as [|? msg]; [simpl in Hlen; lia|]).
  simpl nth. simpl drop. simpl take. rewrite header_word_of_bytes.
  repeat (case_cond; [done|]). intros [= <-]. subst.
  split_and!; [done | rewrite ?drop_0; simpl in Hlen; lia |].
  rewrite ?take_0 in *.
  match goal with H : little_endian_to_Z _ _ = _ |- _ => rename H into Hseg end.
  match goal with H : word_of_bytes _ = _ |- _ => rename H into Hroot end.
  rewrite <- Hseg, <- Hroot, word_bytes_of_bytes; [|done|].
  - unfold half_bytes. rewrite (Z_to_little_endian_to_Z 4 8); [done..|].
    exact (Forall_take _ 4 _ (Forall_drop _ 4 _ Hb)).
  - exact (Forall_take _ 8 _ (Forall_drop _ 8 _ Hb)).
Qed.

(** C40: the exact reader accepts precisely the builder's output: it returns
    [ws] on a message exactly when the message is [capnp_build_flat] of [ws],
    byte for byte, and of that length. *)
Theorem capnp_read_flat_exact_iff msg n ws :
  Z.of_nat n < 65536 -> Forall is_byte msg ->
  capnp_read_flat_exact msg (Z.of_nat (length msg)) n = Some ws <->
  length ws = n /\ Forall is_u64 ws /\ msg = capnp_build_flat (Z.of_nat (length msg)) ws /\
  Z.of_nat (length msg) = flat_total n.
Proof.
  intros Hn Hb. split.
  - intros H. apply read_flat_exact_header in H as (-> & Hlen & Htake); [|done..].
    assert (Z.of_nat (length msg) = flat_total n) as Hm.
    { unfold flat_total. assert (length (take 16 msg) = 16%nat) as H16 by by rewrite Htake.
      rewrite length_take in H16. rewrite length_drop in Hlen. lia. }
    split_and!; [apply length_words_of_bytes | | | done].
    + apply words_of_bytes_u64; [by apply Forall_drop | done].
    + rewrite capnp_build_flat_fits; rewrite length_words_of_bytes; [|done|lia].
      rewrite bytes_of_words_of_bytes, !(assoc_L app), <- (assoc_L app _ (half_bytes _)), <- Htake; [|by apply Forall_drop|done].
      by rewrite take_drop.
  - intros (<- & Hws & Hmsg & Hlen). rewrite Hmsg at 1. rewrite Hlen.
    apply read_flat_exact_build; [done | lia | done].
Qed.

Lemma capnp_read_flat_exact_iff_witness :
  let msg := capnp_build_flat 32 [7; 4294967301] in
  capnp_read_flat_exact msg (Z.of_nat (length msg)) 2 = Some [7; 4294967301] /\
  (capnp_read_flat_exact msg (Z.of_nat (length msg)) 2 = Some [7; 4294967301] <->
   length [7; 4294967301] = 2%nat /\ Forall is_u64 [7; 4294967301] /\
   msg = capnp_build_flat (Z.of_nat (length msg)) [7; 4294967301] /\
   Z.of_nat (length msg) = flat_total 2).
Proof.
  intros msg. split; [vm_compute; reflexivity|].
  apply (capnp_read_flat_exact_iff msg 2 [7; 4294967301]); [reflexivity|].
  apply (Forall_impl (fun b => (0 <=? b) && (b <? 256) = true)); [vm_compute; repeat constructor|].
  intros b Hb. bool_simp. by split.
Defined.

(** ** The composite-list encoder and reader (include/capnp_list.h)

    [elements] is the flattened list of [n_elements] elements of
    [elem_data_words] words each. *)

Definition list_root_words (data_words elements : list Z)
    (n_elements elem_data_words : Z) : list Z :=
  let element_words := u64 (n_elements * elem_data_words) in
  let list_body_words := 1 +64 element_words in
  [Z.lor (u64 (Z.shiftl (Z.of_nat (length data_words)) 32)) (Z.shiftl 1 48)] ++
  data_words ++
  [Z.lor (Z.lor 1 (Z.shiftl 7 32)) (u64 (Z.shiftl list_body_words 35))] ++
  [Z.lor (u64 (Z.shiftl n_elements 2)) (u64 (Z.shiftl elem_data_words 32))] ++
  take (Z.to_nat element_words) elements.

Definition capnp_build_list_root (buf_cap : Z) (data_words elements : list Z)
    (n_elements elem_data_words : Z) : list Z :=
  let element_words := u64 (n_elements * elem_data_words) in
  let list_body_words := 1 +64 element_words in
  let seg_words := 1 + Z.of_nat (length data_words) + 1 +64 list_body_words in
  let total := 8 +64 seg_words * 8 in
  if buf_cap <? total then []
  else
    [0; 0; 0; 0] ++
    [Z.land seg_words 0xFF;
     Z.land (Z.shiftr seg_words 8) 0xFF;
     Z.land (Z.shiftr seg_words 16) 0xFF;
     Z.land (Z.shiftr seg_words 24) 0xFF] ++
    bytes_of_words (list_root_words data_words elements n_elements elem_data_words).

(** What the reader does: an access outside the message, NULL, or the indices
    (in words after the 8-byte header) of the data section and of the first
    element, with the element count. *)
Inductive read_result :=
| ReadOutOfBounds
| ReadNull
| ReadOk (data first_element count : Z).

Definition read_word (w : list Z) (i : Z) (k : Z -> read_result) : read_result :=
  match w !! Z.to_nat i with
  | Some v => k v
  | None => ReadOutOfBounds
  end.

(** [w] is what lies at [msg + 8]. *)
Definition read_list_words (w : list Z) (seg_words_avail data_words elem_data_words : Z) : read_result :=
  if seg_words_avail <=? 1 + data_words then ReadNull else
  read_word w 0 (fun root =>
  if negb (Z.land root 0x3 =? 0) then ReadNull else
  let root_data_words := Z.land (Z.shiftr root 32) 0xFFFF in
  let root_ptr_words := Z.land (Z.shiftr root 48) 0xFFFF in
  if negb (root_data_words =? data_words) || (root_ptr_words <? 1) then ReadNull else
  let list_ptr_index := 1 + data_words in
  read_word w list_ptr_index (fun list_ptr =>
  if negb (Z.land list_ptr 0x3 =? 1) then ReadNull else
  let element_size := Z.land (Z.shiftr list_ptr 32) 0x7 in
  if negb (element_size =? 7) then ReadNull else
  let list_body_words := Z.land (Z.shiftr list_ptr 35) 0x1FFFFFFF in
  let tag_index := list_ptr_index + 1 in
  if (seg_words_avail <=? tag_index) || (seg_words_avail - tag_index <? list_body_words)
  then ReadNull else
  read_word w tag_index (fun tag =>
  if negb (Z.land tag 0x3 =? 0) then ReadNull else
  let count := Z.land (Z.shiftr tag 2) 0x3FFFFFFF in
  let tag_data_words := Z.land (Z.shiftr tag 32) 0xFFFF in
  let tag_ptr_words := Z.land (Z.shiftr tag 48) 0xFFFF in
  if negb (tag_data_words =? elem_data_words) || negb (tag_ptr_words =? 0) then ReadNull else
  if negb (elem_data_words =? 0) && ((list_body_words -64 1) / elem_data_words <? count)
  then ReadNull else
  if list_body_words <? 1 +64 count * elem_data_words then ReadNull else
  ReadOk 1 (tag_index + 1) count))).

Definition capnp_read_list_root (msg : list Z) (msg_len data_words elem_data_words : Z) : read_result :=
  if (msg_len <? 8) || negb ((msg_len - 8) mod 8 =? 0) then ReadNull
  else
    let seg_words_avail := (msg_len - 8) / 8 in
    read_list_words (words_of_bytes (Z.to_nat seg_words_avail) (drop 8 msg))
      seg_words_avail data_words elem_data_words.

(** Field extraction from the pointer words. *)
Lemma land_mask_mod x k m : m = Z.ones k -> 0 <= k -> Z.land x m = x mod 2 ^ k.
Proof. intros -> Hk. by apply Z.land_ones. Qed.

Ltac mask_to_mod :=
  rewrite ?(land_mask_mod _ 2 0x3), ?(land_mask_mod _ 3 0x7), ?(land_mask_mod _ 16 0xFFFF),
    ?(land_mask_mod _ 29 0x1FFFFFFF), ?(land_mask_mod _ 30 0x3FFFFFFF) in * by done;
  rewrite ?Z.shiftr_div_pow2, ?Z.shiftl_mul_pow2 in * by lia.

Lemma lor_add_low a b k : 0 <= k -> 0 <= a < 2 ^ k -> Z.lor a (b * 2 ^ k) = a + b * 2 ^ k.
Proof.
  intros Hk Ha. rewrite Z.add_nocarry_lxor, Z.lxor_lor; [done| |].
  all: apply Z.bits_inj'; intros n Hn; rewrite Z.land_spec, Z.bits_0;
    destruct (decide (n < k));
    [ rewrite Z.mul_pow2_bits_low by lia; by rewrite andb_false_r
    | rewrite <- (Z.mod_small a (2 ^ k)), Z.mod_pow2_bits_high by lia; done ].
Qed.

Lemma read_word_in_bounds w i k :
  0 <= i < Z.of_nat (length w) -> exists v, w !! Z.to_nat i = Some v /\ read_word w i k = k v.
Proof.
  intros H. unfold read_word.
  destruct (lookup_lt_is_Some_2 w (Z.to_nat i) ltac:(lia)) as [v Hv].
  exists v. by rewrite Hv.
Qed.

(** The reader over an array of [avail] words: no access outside it, and an
    accepted list lies inside it. *)
Lemma read_list_words_safe w dw ew :
  0 <= dw -> 0 <= ew < 65536 ->
  match read_list_words w (Z.of_nat (length w)) dw ew with
  | ReadOutOfBounds => False
  | ReadNull => True
  | ReadOk d e c =>
      0 <= c /\ d + dw <= Z.of_nat (length w) /\ 0 <= e /\ e + c * ew <= Z.of_nat (length w)
  end.
Proof.
  intros Hdw Hew. unfold read_list_words.
  case_cond; [done|].
  destruct (read_word_in_bounds w 0) with (k := fun _ : Z => ReadNull) as (root & Hroot & _); [lia|].
  unfold read_word at 1. rewrite Hroot. do 2 (case_cond; [done|]).
  unfold read_word at 1.
  destruct (lookup_lt_is_Some_2 w (Z.to_nat (1 + dw)) ltac:(lia)) as [lp ->].
  do 3 (case_cond; [done|]).
  unfold read_word.
  destruct (lookup_lt_is_Some_2 w (Z.to_nat (1 + dw + 1)) ltac:(lia)) as [tag ->].
  mask_to_mod.
  do 4 (case_cond; [done|]).
  pose proof (Z.mod_pos_bound (tag / 2 ^ 2) (2 ^ 30) ltac:(lia)).
  set (c := (tag / 2 ^ 2) mod 2 ^ 30) in *.
  rewrite u64_small in * by (unfold is_u64, W64; nia).
  nia.
Qed.

Section list_roundtrip.
Context (data elements : list Z) (n_elements ew : Z).
Hypothesis Hdata : Z.of_nat (length data) < 65536.
Hypothesis Hew : 0 <= ew < 65536.
Hypothesis Hn : 0 <= n_elements < 2 ^ 30.
Hypothesis Hbody : 1 + n_elements * ew < 2 ^ 29.
Hypothesis Helements : Z.of_nat (length elements) = n_elements * ew.

Let dw := Z.of_nat (length data).
Let root := dw * 2 ^ 32 + 1 * 2 ^ 48.
Let lptr := 1 + 7 * 2 ^ 32 + (1 + n_elements * ew) * 2 ^ 35.
Let tag := n_elements * 2 ^ 2 + ew * 2 ^ 32.

Lemma list_root_words_eq :
  list_root_words data elements n_elements ew = [root] ++ data ++ [lptr; tag] ++ elements.
Proof.
  unfold list_root_words.
  rewrite (u64_small (n_elements * ew)), (u64_small (1 + n_elements * ew)) by (unfold is_u64, W64; nia).
  rewrite !Z.shiftl_mul_pow2 by lia.
  rewrite !u64_small by (unfold is_u64, W64; nia).
  rewrite take_ge by lia. rewrite (lor_add_low 1 7 32), !lor_add_low by lia.
  unfold root, lptr, tag, dw. repeat f_equal; lia.
Qed.

Let w := list_root_words data elements n_elements ew.

Lemma length_list_root_words : Z.of_nat (length w) = dw + 3 + n_elements * ew.
Proof. unfold w. rewrite list_root_words_eq, !length_app. simpl. unfold dw. lia. Qed.

Lemma lookup_root : w !! 0%nat = Some root.
Proof. unfold w. by rewrite list_root_words_eq. Qed.

Lemma lookup_lptr : w !! Z.to_nat (1 + dw) = Some lptr.
Proof.
  unfold w. rewrite list_root_words_eq, lookup_app_r by (simpl; lia). simpl.
  rewrite lookup_app_r by (unfold dw; lia).
  by replace (Z.to_nat (1 + dw) - 1 - length data)%nat with 0%nat by (unfold dw; lia).
Qed.

Lemma lookup_tag : w !! Z.to_nat (1 + dw + 1) = Some tag.
Proof.
  unfold w. rewrite list_root_words_eq, lookup_app_r by (simpl; lia). simpl.
  rewrite lookup_app_r by (unfold dw; lia).
  by replace (Z.to_nat (1 + dw + 1) - 1 - length data)%nat with 1%nat by (unfold dw; lia).
Qed.

Lemma field_mod q m d r : 0 < d -> 0 <= r < d -> 0 <= q < m -> ((q * d + r) / d) mod m = q.
Proof. intros. rewrite Z.div_add_l, (Z.div_small r), Z.add_0_r by lia. by apply Z.mod_small. Qed.

Lemma read_list_words_build :
  read_list_words w (Z.of_nat (length w)) dw ew = ReadOk 1 (dw + 3) n_elements.
Proof.
  rewrite length_list_root_words. unfold read_list_words, read_word.
  case_cond; [nia|]. change (Z.to_nat 0) with 0%nat. rewrite lookup_root. mask_to_mod.
  assert (root mod 2 ^ 2 = 0) as -> by (unfold root; Z.to_euclidean_division_equations; lia).
  assert ((root / 2 ^ 32) mod 2 ^ 16 = dw) as -> by (unfold root, dw; Z.to_euclidean_division_equations; lia).
  assert ((root / 2 ^ 48) mod 2 ^ 16 = 1) as -> by (unfold root, dw; Z.to_euclidean_division_equations; lia).
  rewrite ?Z.eqb_refl, ?Z.ltb_irrefl. cbn [negb orb andb]. rewrite lookup_lptr. mask_to_mod.
  assert (lptr mod 2 ^ 2 = 1) as -> by (unfold lptr; Z.to_euclidean_division_equations; lia).
  assert ((lptr / 2 ^ 32) mod 2 ^ 3 = 7) as -> by (unfold lptr; Z.to_euclidean_division_equations; lia).
  assert ((lptr / 2 ^ 35) mod 2 ^ 29 = 1 + n_elements * ew) as ->.
  { unfold lptr. set (b := 1 + n_elements * ew) in *. rewrite Z.add_comm.
    apply field_mod; lia || (unfold b; nia). }
  rewrite ?Z.eqb_refl. cbn [negb orb andb].
  case_cond; [destruct (orb_prop _ _ Heqb0); bool_simp; nia|].
  rewrite lookup_tag. mask_to_mod.
  assert (tag mod 2 ^ 2 = 0) as -> by (unfold tag; Z.to_euclidean_division_equations; lia).
  assert ((tag / 2 ^ 2) mod 2 ^ 30 = n_elements) as ->
    by (unfold tag; Z.to_euclidean_division_equations; lia).
  assert ((tag / 2 ^ 32) mod 2 ^ 16 = ew) as -> by (unfold tag; Z.to_euclidean_division_equations; lia).
  assert ((tag / 2 ^ 48) mod 2 ^ 16 = 0) as -> by (unfold tag; Z.to_euclidean_division_equations; lia).
  rewrite ?Z.eqb_refl. cbn [negb orb andb].
  rewrite (u64_small (1 + n_elements * ew)) by (unfold is_u64, W64; nia).
  rewrite Z.ltb_irrefl.
  replace (dw + 3) with (1 + dw + 1 + 1) by lia.
  case_cond; [|done].
  rewrite u64_small in * by (unfold is_u64, W64; nia).
  replace (1 + n_elements * ew - 1) with (n_elements * ew) in * by lia.
  rewrite Z.div_mul in * by done. lia.
Qed.
End list_roundtrip.

(** The segment as the reader sees it. *)
Definition segment_words (msg : list Z) : list Z :=
  words_of_bytes (Z.to_nat ((Z.of_nat (length msg) - 8) / 8)) (drop 8 msg).

Lemma length_segment_words msg :
  Z.of_nat (length (segment_words msg)) = Z.max 0 ((Z.of_nat (length msg) - 8) / 8).
Proof. unfold segment_words. rewrite length_words_of_bytes. lia. Qed.

(** the list reader stays inside its message, for any bytes an attacker
    may send: it never reads a word past [msg_len], and the data section and
    the elements it reports lie within the message as a whole. *)
Theorem capnp_read_list_root_safe msg dw ew :
  0 <= dw -> 0 <= ew < 65536 ->
  let len := Z.of_nat (length msg) in
  match capnp_read_list_root msg len dw ew with
  | ReadOutOfBounds => False
  | ReadNull => True
  | ReadOk d e c => 0 <= c /\ 0 <= e /\ 8 + 8 * (d + dw) <= len /\ 8 + 8 * (e + c * ew) <= len
  end.
Proof.
  intros Hdw Hew len. unfold capnp_read_list_root.
  case_cond; [done|].
  pose proof (read_list_words_safe (segment_words msg) dw ew Hdw Hew) as Hs.
  rewrite length_segment_words in Hs.
  replace (Z.max 0 ((Z.of_nat (length msg) - 8) / 8)) with ((len - 8) / 8) in Hs
    by (unfold len in *; Z.to_euclidean_division_equations; lia).
  unfold segment_words in Hs. fold len in Hs.
  destruct (read_list_words _ _ _ _) as [| |d e c]; [done..|].
  Z.to_euclidean_division_equations. lia.
Qed.

(** A truncated list message is refused. *)
Lemma capnp_read_list_root_safe_witness :
  let msg := take 48 (capnp_build_list_root 96 [5; 6] [1; 2; 3; 4] 2 2) in
  capnp_read_list_root msg 48 2 2 = ReadNull /\
  let len := Z.of_nat (length msg) in
  match capnp_read_list_root msg len 2 2 with
  | ReadOutOfBounds => False
  | ReadNull => True
  | ReadOk d e c => 0 <= c /\ 0 <= e /\ 8 + 8 * (d + 2) <= len /\ 8 + 8 * (e + c * 2) <= len
  end.
Proof.
  intros msg. split; [vm_compute; reflexivity|].
  apply (capnp_read_list_root_safe msg 2 2); [lia|lia].
Defined.

Lemma capnp_build_list_root_fits cap data elements n ew :
  Z.of_nat (length data) < 65536 -> 0 <= ew < 65536 -> 0 <= n < 2 ^ 30 ->
  1 + n * ew < 2 ^ 29 -> Z.of_nat (length elements) = n * ew ->
  32 + 8 * (Z.of_nat (length data) + n * ew) <= cap ->
  exists hdr, length hdr = 8%nat /\
    capnp_build_list_root cap data elements n ew = hdr ++ bytes_of_words (list_root_words data elements n ew).
Proof.
  intros Hd Hew Hn Hb Hl Hcap. unfold capnp_build_list_root.
  assert (is_u64 (n * ew)) as H1 by (unfold is_u64, W64; nia).
  rewrite (u64_small _ H1).
  rewrite (u64_small (1 + n * ew)) by (unfold is_u64, W64; nia).
  rewrite (u64_small (1 + Z.of_nat (length data) + 1 + (1 + n * ew))) by (unfold is_u64, W64; nia).
  rewrite u64_small by (unfold is_u64, W64; nia).
  case_cond; [lia|].
  eexists (_ :: _ :: _ :: _ :: _ :: _ :: _ :: _ :: []). split; [done|]. reflexivity.
Qed.

(** what [capnp_build_list_root] wrote into a buffer large enough,
    [capnp_read_list_root] finds: the element count, the data words and the
    elements. *)
Theorem capnp_list_roundtrip cap data elements n ew :
  Z.of_nat (length data) < 65536 -> 0 <= ew < 65536 -> 0 <= n < 2 ^ 30 ->
  1 + n * ew < 2 ^ 29 -> Z.of_nat (length elements) = n * ew ->
  Forall is_u64 data -> Forall is_u64 elements ->
  32 + 8 * (Z.of_nat (length data) + n * ew) <= cap ->
  let msg := capnp_build_list_root cap data elements n ew in
  let dw := Z.of_nat (length data) in
  capnp_read_list_root msg (Z.of_nat (length msg)) dw ew = ReadOk 1 (dw + 3) n /\
  take (length data) (drop 1 (segment_words msg)) = data /\
  drop (length data + 3) (segment_words msg) = elements.
Proof.
  intros Hd Hew Hn Hb Hl Hdata Hels Hcap msg dw.
  destruct (capnp_build_list_root_fits cap data elements n ew) as (hdr & Hh & Hm); [done..|].
  assert (Forall is_u64 (list_root_words data elements n ew)) as Hw.
  { rewrite list_root_words_eq by done.
    repeat (apply Forall_app_2 || constructor || done); unfold is_u64, W64; nia. }
  pose proof (length_list_root_words data elements n ew Hd Hew Hn Hb Hl) as Hlen.
  assert (Z.of_nat (length msg) = 8 + 8 * (dw + 3 + n * ew)) as Hmsg.
  { unfold msg. rewrite Hm, length_app, length_bytes_of_words, Hh. unfold dw. lia. }
  assert (segment_words msg = list_root_words data elements n ew) as Hseg.
  { unfold segment_words. replace (Z.to_nat _) with (length (list_root_words data elements n ew)).
    - unfold msg. rewrite Hm, drop_app_length' by done.
      rewrite <- (app_nil_r (bytes_of_words _)). by apply words_of_bytes_of_words.
    - rewrite Hmsg. Z.to_euclidean_division_equations. lia. }
  split_and!.
  - unfold capnp_read_list_root. case_cond.
    { exfalso. destruct (orb_prop _ _ Heqb); bool_simp; [lia|].
      rewrite Hmsg in *. Z.to_euclidean_division_equations. lia. }
    change (words_of_bytes _ _) with (segment_words msg). rewrite Hseg.
    replace ((Z.of_nat (length msg) - 8) / 8) with (Z.of_nat (length (list_root_words data elements n ew)))
      by (rewrite Hmsg; Z.to_euclidean_division_equations; lia).
    by apply read_list_words_build.
  - rewrite Hseg, list_root_words_eq by done. simpl. rewrite drop_0. by apply take_app_length'.
  - rewrite Hseg, list_root_words_eq by done.
    replace (length data + 3)%nat with (1 + length data + 2)%nat by lia.
    rewrite <- !drop_drop. simpl drop at 3. rewrite drop_0, drop_app_length' by done. done.
Qed.

Lemma capnp_list_roundtrip_witness :
  let msg := capnp_build_list_root 80 [5; 6] [1; 2; 3; 4] 2 2 in
  length msg = 80%nat /\
  capnp_read_list_root msg (Z.of_nat (length msg)) 2 2 = ReadOk 1 5 2 /\
  take 2 (drop 1 (segment_words msg)) = [5; 6] /\
  drop 5 (segment_words msg) = [1; 2; 3; 4].
Proof.
  intros msg. split; [vm_compute; reflexivity|].
  apply (capnp_list_roundtrip 80 [5; 6] [1; 2; 3; 4] 2 2);
    first [reflexivity | lia | repeat constructor; lia].
Defined.

(** the reader never looks at the offset field of the root pointer
    (bits 2 to 31): it gives the same answer on a message whose root claims to
    start elsewhere, although capnp_list.h says the offset must be 0. *)
Theorem capnp_read_list_root_ignores_offset w root off avail dw ew :
  w !! 0%nat = Some root -> (root / 4) mod 2 ^ 30 = 0 -> 0 <= off < 2 ^ 30 -> 0 <= dw ->
  read_list_words (<[0%nat := root + 4 * off]> w) avail dw ew = read_list_words w avail dw ew.
Proof.
  intros Hroot Hoff Hr Hdw. unfold read_list_words.
  case_cond; [done|]. unfold read_word. change (Z.to_nat 0) with 0%nat.
  rewrite list_lookup_insert_eq by by eapply lookup_lt_Some. rewrite Hroot.
  rewrite !list_lookup_insert_ne by lia. mask_to_mod.
  assert ((root + 4 * off) mod 2 ^ 2 = root mod 2 ^ 2) as ->
    by (Z.to_euclidean_division_equations; lia).
  assert ((root + 4 * off) / 2 ^ 32 = root / 2 ^ 32) as ->
    by (Z.to_euclidean_division_equations; lia).
  assert ((root + 4 * off) / 2 ^ 48 = root / 2 ^ 48) as ->
    by (Z.to_euclidean_division_equations; lia).
  done.
Qed.

Lemma capnp_read_list_root_ignores_offset_witness :
  let w := list_root_words [5; 6] [1; 2; 3; 4] 2 2 in
  <[0%nat := w !!? 0 + 4 * 77]> w <> w /\
  read_list_words (<[0%nat := w !!? 0 + 4 * 77]> w) 9 2 2 = read_list_words w 9 2 2.
Proof.
  intros w. split; [vm_compute; discriminate|].
  apply (capnp_read_list_root_ignores_offset w (w !!? 0) 77 9 2 2); [reflexivity|reflexivity|lia|lia].
Defined.

(** ** InitDescription (coreinit/boot_protocol_decode.h) *)

Definition INIT_DESCRIPTION_MAGIC : Z := 0x494e495444455343.
Definition BOOT_PROTO_ID_DATA_WORDS : Z := 2.
Definition BOOT_PROTO_INIT_VARIANT_WORDS : Z := 5.

(** [Some (out_data, out_variants, out_variant_count)] or the 0 return, whose
    outputs are NULL, NULL and 0. *)
Definition boot_protocol_read_init_description (msg : list Z) (msg_len : Z) : option (Z * Z * Z) :=
  match capnp_read_list_root msg msg_len BOOT_PROTO_ID_DATA_WORDS BOOT_PROTO_INIT_VARIANT_WORDS with
  | ReadOk data elements count =>
      if negb (word_of_bytes (take 8 (drop (8 + 8 * Z.to_nat data) msg)) =? INIT_DESCRIPTION_MAGIC)
      then None else Some (data, elements, count)
  | _ => None
  end.

(** ** Flat messages between objects

    [reply cap ws] is the outcome of [capnp_build_flat(response, cap, ws, n)]
    as the caller observes it: nothing when the buffer is too small (length
    0), the data words otherwise. *)
Definition reply (cap : Z) (ws : list Z) : option (list Z) :=
  if cap <? flat_total (length ws) then None else Some ws.

(** [*out_response_len]. *)
Definition response_len (r : option (list Z)) : Z :=
  match r with
  | Some ws => flat_total (length ws)
  | None => 0
  end.

Definition response_words (r : option (list Z)) : list Z := default [] r.

(** [reply] is the byte encoder followed by the byte reader. *)
Lemma reply_build_read cap ws :
  Z.of_nat (length ws) < 65536 -> Forall is_u64 ws ->
  match reply cap ws with
  | Some out => capnp_read_flat (length ws) (capnp_build_flat cap ws) = out /\
                Z.of_nat (length (capnp_build_flat cap ws)) = response_len (reply cap ws)
  | None => capnp_build_flat cap ws = []
  end.
Proof.
  intros Hn Hws. unfold reply, response_len. case_cond; rewrite ?Heqb.
  - unfold capnp_build_flat. case_cond; [done|]. unfold flat_total in *. lia.
  - split; [|by apply length_capnp_build_flat].
    unfold capnp_read_flat. rewrite capnp_build_flat_fits by done.
    rewrite !(assoc_L app), drop_app_length' by done.
    rewrite <- (app_nil_r (bytes_of_words ws)). by apply words_of_bytes_of_words.
Qed.

Lemma reply_fits cap ws : flat_total (length ws) <= cap -> reply cap ws = Some ws.
Proof. intros H. unfold reply. case_cond; [lia|done]. Qed.
