(* ===== verification/TryLock.v ===== *)
(** * The try-only lock (coreinit/try_lock.h) and its waiting loops

    [trylock_t] is one flag; [trylock_try_acquire] is an atomic test-and-set.
    [acquire_wait] is the loop of [mem_lock_acquire_wait] and
    [storage_lock_acquire_wait]: try, and on failure wait for an interrupt,
    during which other cores may change the flag.  The interleaved system at
    the end shows that the flag gives mutual exclusion. *)

From S2P Require Import Prelude.

Record trylock_t := { locked : bool }.

Definition trylock_init : trylock_t := {| locked := false |}.

(** [__sync_lock_test_and_set(&lock->locked, 1) == 0]. *)
Definition trylock_try_acquire (l : trylock_t) : trylock_t * bool :=
  ({| locked := true |}, negb (locked l)).

Definition trylock_release (l : trylock_t) : trylock_t := {| locked := false |}.

(** [env n] is what the rest of the system does to the flag while this core
    waits for its [n]-th interrupt; [None] when [fuel] attempts all failed. *)
Fixpoint acquire_wait (env : nat -> trylock_t -> trylock_t) (fuel n : nat)
    (l : trylock_t) : option (nat * trylock_t) :=
  match fuel with
  | O => None
  | S fuel =>
      let '(l', ok) := trylock_try_acquire l in
      if ok then Some (n, l') else acquire_wait env fuel (S n) (env n l')
  end.

(** The flag at the start of each attempt. *)
Fixpoint flag_at (env : nat -> trylock_t -> trylock_t) (n : nat) (l : trylock_t) : trylock_t :=
  match n with
  | O => l
  | S n => env n (fst (trylock_try_acquire (flag_at env n l)))
  end.

Lemma acquire_wait_from env k m l n l' :
  acquire_wait env m k (flag_at env k l) = Some (n, l') ->
  (k <= n)%nat /\ locked (flag_at env n l) = false /\ locked l' = true /\
  forall j, (k <= j < n)%nat -> locked (flag_at env j l) = true.
Proof.
  revert k. induction m as [|m IH]; intros k; [done|]. simpl.
  destruct (locked (flag_at env k l)) eqn:E; simpl.
  - intros H. apply (IH (S k)) in H as (Hle & Hn & Hl' & Hlt).
    split_and!; [lia | done | done |].
    intros j Hj. destruct (decide (j = k)) as [->|]; [done|]. apply Hlt. lia.
  - intros [= <- <-]. split_and!; [lia | done | done |]. lia.
Qed.

Lemma acquire_wait_reaches env k m l :
  locked (flag_at env (k + m) l) = false ->
  exists r, acquire_wait env (S m) k (flag_at env k l) = Some r.
Proof.
  revert k. induction m as [|m IH]; intros k Hfree.
  - rewrite Nat.add_0_r in Hfree. simpl. rewrite Hfree. simpl. eauto.
  - change (exists r, (let '(l', ok) := trylock_try_acquire (flag_at env k l) in
      if ok then Some (k, l') else acquire_wait env (S m) (S k) (env k l')) = Some r).
    destruct (trylock_try_acquire (flag_at env k l)) as [l' ok] eqn:E.
    destruct ok; [eauto|].
    replace (env k l') with (flag_at env (S k) l) by (cbn [flag_at]; by rewrite E).
    apply IH. by replace (S k + m)%nat with (k + S m)%nat by lia.
Qed.

(** the waiting loop ends as soon as some attempt finds the lock free: it
    then holds it, after exactly the failed attempts before. *)
Theorem acquire_wait_terminates env n l :
  locked (flag_at env n l) = false ->
  exists k l', acquire_wait env (S n) 0 l = Some (k, l') /\ (k <= n)%nat /\
    locked l' = true /\ locked (flag_at env k l) = false /\
    forall j, (j < k)%nat -> locked (flag_at env j l) = true.
Proof.
  intros Hfree. destruct (acquire_wait_reaches env 0 n l Hfree) as [[k l'] H].
  exists k, l'. pose proof (acquire_wait_from env 0 (S n) l k l' H) as (_ & Hk & Hl' & Hlt).
  split_and!; [done | | done | done | intros j Hj; apply Hlt; lia].
  destruct (decide (k <= n)%nat); [done|]. by rewrite (Hlt n) in Hfree by lia.
Qed.

Lemma acquire_wait_terminates_witness :
  locked (flag_at (fun _ => trylock_release) 1 {| locked := true |}) = false /\
  exists k l', acquire_wait (fun _ => trylock_release) 2 0 {| locked := true |} = Some (k, l') /\ (k <= 1)%nat /\
    locked l' = true /\ locked (flag_at (fun _ => trylock_release) k {| locked := true |}) = false /\
    forall j, (j < k)%nat -> locked (flag_at (fun _ => trylock_release) j {| locked := true |}) = true.
Proof.
  split; [reflexivity|].
  apply (acquire_wait_terminates (fun _ => trylock_release) 1 {| locked := true |}).
  reflexivity.
Defined.

(** ** Mutual exclusion

    Cores share one lock.  [holds s c] is set when core [c]'s test-and-set
    returned 0 and cleared by its release; a core that does not hold the
    lock never releases it. *)

Record lock_system := { sys_lock : trylock_t; holds : list bool }.

Inductive lock_step : lock_system -> lock_system -> Prop :=
| step_try s c (Hc : holds s !! c = Some false) l' ok :
    trylock_try_acquire (sys_lock s) = (l', ok) ->
    lock_step s {| sys_lock := l'; holds := <[c := ok]> (holds s) |}
| step_release s c (Hc : holds s !! c = Some true) :
    lock_step s {| sys_lock := trylock_release (sys_lock s); holds := <[c := false]> (holds s) |}.

Definition lock_start (n : nat) : lock_system :=
  {| sys_lock := trylock_init; holds := replicate n false |}.

Definition lock_inv (s : lock_system) : Prop :=
  (forall c, holds s !! c = Some true -> locked (sys_lock s) = true) /\
  (forall c d, holds s !! c = Some true -> holds s !! d = Some true -> c = d).

Lemma lock_inv_step s s' : lock_step s s' -> lock_inv s -> lock_inv s'.
Proof.
  intros Hs [Hl Hu]. destruct Hs as [s c Hc l' ok Hacq | s c Hc]; simplify_eq/=.
  - injection Hacq as <- <-. split; simpl; [done|].
    intros x y Hx Hy.
    apply lookup_insert_cases in Hx as [(<- & Hx & _)|[_ Hx]];
    apply lookup_insert_cases in Hy as [(<- & Hy & _)|[_ Hy]]; [done| | |by apply Hu].
    + rewrite (Hl y Hy) in Hx. done.
    + rewrite (Hl x Hx) in Hy. done.
  - split; simpl; intros x Hx.
    + exfalso. apply lookup_insert_cases in Hx as [(_ & ? & _)|[Hne Hx]]; [done|].
      apply Hne. by apply Hu.
    + intros Hy Hy'. apply lookup_insert_cases in Hy as [(_ & ? & _)|[_ Hy]]; [done|].
      apply lookup_insert_cases in Hy' as [(_ & ? & _)|[_ Hy']]; [done|]. by apply Hu.
Qed.

(** in every interleaving of the cores' test-and-sets and releases at most one of them holds the lock. *)
Theorem trylock_mutual_exclusion n s c d :
  rtc lock_step (lock_start n) s ->
  holds s !! c = Some true -> holds s !! d = Some true -> c = d.
Proof.
  intros Hr. assert (lock_inv s) as [_ Hu]; [|by apply Hu].
  assert (lock_inv (lock_start n)) as Hinv.
  { split; simpl; [intros c' H | intros c' d' H _]; by apply lookup_replicate in H as [? _]. }
  revert Hinv. induction Hr; [done|]. intros Hinv. eauto using lock_inv_step.
Qed.

(** Core 1 takes the lock, core 0 tries in vain. *)
Lemma trylock_mutual_exclusion_witness :
  let s := {| sys_lock := {| locked := true |}; holds := [false; true] |} in
  rtc lock_step (lock_start 2) s /\ 1%nat = 1%nat.
Proof.
  intros s.
  assert (rtc lock_step (lock_start 2) s) as Hr.
  { eapply rtc_l; [by eapply (step_try (lock_start 2) 1)|].
    eapply rtc_l; [|apply rtc_refl]. by eapply (step_try s 0). }
  split; [exact Hr|]. exact (trylock_mutual_exclusion 2 s 1 1 Hr eq_refl eq_refl).
Defined.
