(* ===== verification/Kernel.v ===== *)
(** * The capability kernel, as its clients see it

    The kernel (the saski repository: cap.h, schema.h, capnp_validate.c) is
    not part of this program.  What coreinit relies on is the interface
    below: a factory that creates and destroys objects, and an invoke that
    runs the handler of the object a handle names, on a request its schema
    accepts.  [KernelLaws] states the documented behaviour:
    - "capability handles are monotonically allocated and never reused"
      (cluster_scheduler.c, destroy_job_object), and handle 0 is no object;
    - "kernel_invoke validates a request against the LOCAL object's schema
      before ever calling this [...] handler" (proxy.h), and a request of
      exactly the schema's shape passes;
    - a handle names one object, and a destroyed handle none.
    [counter_kernel] is an implementation of the interface that satisfies the
    laws; the witnesses run on it. *)

From stdpp Require Import gmap.
From S2P Require Import Prelude.

(** The objects coreinit creates, each with the slot of the static array its
    data pointer points into. *)
Inductive objref :=
| OResource (slot : nat)
| ONode (slot : nat)
| OMutex (slot : nat)
| OJob (slot : nat)
| OMemoryManager
| OOther (id : nat).   (* an object of another file *)

#[global] Instance objref_eq_dec : EqDecision objref.
Proof. solve_decision. Defined.

(** Objects of other files that are modelled elsewhere in this library, and
    the shapes of their requests in data words (schemas/coreinit.capnp and
    schemas/securinit.capnp). *)
Definition STATUS : nat := 1.
Definition GATE : nat := 2.
Definition ADMIN : nat := 3.
Definition WRAPPER_FACTORY : nat := 4.
Definition WRAPPED_OBJECT : nat := 5.
Definition MUTEX_MANAGER : nat := 6.
Definition STATUS_SINK : nat := 7.   (* coreinit's receiver of securinit's reports *)

Definition other_words (id : nat) (method_id : Z) : option nat :=
  match id with
  | 1%nat | 3%nat | 4%nat | 5%nat | 7%nat => if method_id =? 0 then Some 1%nat else None
  | 2%nat => if (0 <=? method_id) && (method_id <=? 1) then Some 1%nat else None   (* invoke, getStats *)
  | 6%nat => if (0 <=? method_id) && (method_id <=? 2) then Some 1%nat else None   (* create, lock, unlock *)
  | _ => Some 0%nat   (* nothing is known of its schema *)
  end.

(** Request shapes, in data words (schemas/coreinit.capnp). *)
Definition request_words (o : objref) (method_id : Z) : option nat :=
  match o with
  | OResource _ =>          (* getInfo, reserve, releaseReservation, reassign *)
      if (0 <=? method_id) && (method_id <=? 3) then Some 1%nat else None
  | ONode _ =>              (* getInfo, signal *)
      if (0 <=? method_id) && (method_id <=? 1) then Some 1%nat else None
  | OMutex _ =>             (* tryLock, unlock *)
      if (0 <=? method_id) && (method_id <=? 1) then Some 1%nat else None
  | OJob _ =>               (* getInfo, updateSchedulingState *)
      if method_id =? 0 then Some 1%nat else if method_id =? 1 then Some 6%nat else None
  | OMemoryManager =>       (* claim, alloc, free *)
      if method_id =? 0 then Some 3%nat else if method_id =? 1 then Some 2%nat
      else if method_id =? 2 then Some 1%nat else None
  | OOther id => other_words id method_id
  end.

Class Kernel (K : Type) := {
  (** The object whose handler [kernel_invoke(h, method, msg)] runs, for a
      message of the given number of data words; [None] when it returns 0. *)
  k_invoke : K -> Z -> Z -> nat -> option objref;
  (** CREATE on the factory: the handle of its reply, if it replied. *)
  k_create : objref -> K -> K * option Z;
  (** DESTROY on the factory. *)
  k_destroy : Z -> K -> K
}.

(** [h] is a handle of [o] and of nothing else. *)
Definition names `{Kernel K} (k : K) (h : Z) (o : objref) : Prop :=
  (forall m n, request_words o m = Some n -> k_invoke k h m n = Some o) /\
  (forall m n o', k_invoke k h m n = Some o' -> o' = o).

Class KernelLaws (K : Type) `{Kernel K} := {
  (** The handles handed out so far. *)
  k_issued : K -> Z -> Prop;
  k_null : forall k m n, k_invoke k 0 m n = None;
  k_invoke_issued : forall k h m n o, k_invoke k h m n = Some o -> k_issued k h;
  k_functional : forall k h m n m' n' o o',
    k_invoke k h m n = Some o -> k_invoke k h m' n' = Some o' -> o = o';
  k_validates : forall k h m n o, k_invoke k h m n = Some o ->
    exists w, request_words o m = Some w /\ (w <= n)%nat;
  k_create_fresh : forall k o k' h, k_create o k = (k', Some h) -> h <> 0 ->
    is_u64 h /\ ~ k_issued k h /\ names k' h o;
  k_create_others : forall k o k' r, k_create o k = (k', r) ->
    (forall h, k_issued k' h <-> k_issued k h \/ (r = Some h /\ h <> 0)) /\
    (forall h m n, r <> Some h \/ h = 0 -> k_invoke k' h m n = k_invoke k h m n);
  k_destroy_gone : forall k h m n, k_invoke (k_destroy h k) h m n = None;
  k_destroy_others : forall k h h' m n, h' <> h -> k_invoke (k_destroy h k) h' m n = k_invoke k h' m n;
  k_destroy_issued : forall k h h', k_issued (k_destroy h k) h' <-> k_issued k h'
}.

Section laws.
Context `{KernelLaws K}.
Implicit Types (k : K) (h : Z) (o : objref).

Lemma names_ext k k' h o :
  (forall m n, k_invoke k' h m n = k_invoke k h m n) -> names k h o -> names k' h o.
Proof.
  intros E [H1 H2]. split; [intros m n Hr; rewrite E; auto | intros m n o'; rewrite E; eauto].
Qed.

Lemma names_nonzero k h o m n : names k h o -> request_words o m = Some n -> h <> 0.
Proof. intros [H1 _] Hr ->. specialize (H1 m n Hr). by rewrite k_null in H1. Qed.

Lemma names_issued k h o m n : names k h o -> request_words o m = Some n -> k_issued k h.
Proof. intros [H1 _] Hr. eapply k_invoke_issued, H1, Hr. Qed.

Lemma names_inj k h o o' m n : names k h o -> request_words o m = Some n -> names k h o' -> o = o'.
Proof. intros [H1 _] Hr [_ H2]. eapply H2, H1, Hr. Qed.

Lemma names_create k o k' r h o' m n :
  k_create o k = (k', r) -> names k h o' -> request_words o' m = Some n -> names k' h o'.
Proof.
  intros Hc Hn Hr. apply k_create_others in Hc as Hc2. destruct Hc2 as [_ Hinv].
  eapply names_ext; [|exact Hn]. intros m' n'. apply Hinv.
  destruct r as [h'|]; [|by left]. destruct (decide (h = 0)) as [->|Hnz]; [by right|left].
  intros [= ->]. apply k_create_fresh in Hc as (_ & Hf & _); [|done].
  apply Hf. by eapply names_issued.
Qed.

Lemma names_destroy k h h' o : h <> h' -> names k h o -> names (k_destroy h' k) h o.
Proof. intros Hne. apply names_ext. intros m n. by apply k_destroy_others. Qed.
End laws.

(** ** A kernel *)

Record counter_kernel := { ck_objects : gmap Z objref; ck_next : Z }.

#[global] Instance counter_kernel_ops : Kernel counter_kernel := {|
  k_invoke k h m n :=
    o ← ck_objects k !! h;
    w ← request_words o m;
    if (decide (w = n)) then (if decide (0 < h < ck_next k) then Some o else None) else None;
  k_create o k :=
    if decide (0 < ck_next k < W64)
    then ({| ck_objects := <[ck_next k := o]> (ck_objects k); ck_next := ck_next k + 1 |}, Some (ck_next k))
    else (k, None);
  k_destroy h k := {| ck_objects := delete h (ck_objects k); ck_next := ck_next k |}
|}.

#[global] Instance counter_kernel_laws : KernelLaws counter_kernel.
Proof.
  refine {| k_issued := fun (k : counter_kernel) h => 0 < h < ck_next k |}.
  - intros k m n. simpl. destruct (ck_objects k !! 0); simpl; [|done].
    destruct (request_words _ _); simpl; [|done]. by repeat case_decide.
  - intros k h m n o. simpl. destruct (ck_objects k !! h); simpl; [|done].
    destruct (request_words _ _); simpl; [|done]. by repeat case_decide.
  - intros k h m n m' n' o o'. simpl. destruct (ck_objects k !! h); simpl; [|done].
    destruct (request_words _ m); simpl; [|done]. destruct (request_words _ m'); simpl; [|done].
    repeat case_decide; congruence.
  - intros k h m n o. simpl. destruct (ck_objects k !! h) as [o'|] eqn:E; simpl; [|done].
    destruct (request_words o' m) as [w|] eqn:Ew; simpl; [|done].
    repeat case_decide; intros [= <-]; eauto with lia.
  - intros k o k' h. simpl. case_decide as Hn; intros [= <- <-] Hh. split; [unfold is_u64; lia|split; [simpl; lia|]].
    split; simpl.
    + intros m n Hr. rewrite lookup_insert_eq. simpl. rewrite Hr. simpl. by rewrite !decide_True by lia.
    + intros m n o'. rewrite lookup_insert_eq. simpl. destruct (request_words o m); simpl; [|done].
      by repeat case_decide; intros [= ->].
  - intros k o k' r. simpl. case_decide as Hn; intros [= <- <-]; simpl.
    + split; [intros h; split; [intros Hh | intros [Hh|[[= <-] _]]]; try lia|].
      { destruct (decide (h = ck_next k)) as [->|]; [right; split; [done|lia]|left; lia]. }
      intros h m n Hne. destruct (decide (h = ck_next k)) as [->|Hh]; [by destruct Hne; [congruence|lia]|].
      rewrite lookup_insert_ne by done. destruct (ck_objects k !! h); simpl; [|done].
      destruct (request_words _ _); simpl; [|done].
      destruct (decide (n0 = n)); [|done]. by repeat case_decide; try lia.
    + split; [|done]. intros h. split; [by left|]. by intros [?|[? _]].
  - intros k h m n. simpl. by rewrite lookup_delete_eq.
  - intros k h h' m n Hne. simpl. by rewrite lookup_delete_ne.
  - done.
Defined.
