(* ===== verification/MemMgr.v ===== *)
(** * The memory manager (coreinit/mem_mgr.c, include/smp_layout.h)

    The claim ledger of physical memory: [claim_locked], [alloc_locked],
    [free_locked], the boot-time pre-claims and the message handler, with the
    selection sort of the candidate addresses as the code writes it.

    The theorems: live claims stay pairwise disjoint; [alloc_locked] is a
    complete first-fit (it returns the lowest address of the window at which
    the request fits, and fails only when there is none or the table is
    full); [free_locked] gives the region back.  Two behaviours the code does
    not announce are stated as theorems too: the ledger's slots are never
    reused, and a claim whose end wraps around escapes the overlap test. *)

From S2P Require Import Prelude Capnp TryLock.

Definition MAX_CLAIMS : nat := 64.

Definition MEM_KIND_MMIO : Z := 0.
Definition MEM_KIND_KERNEL_RESERVED : Z := 1.
Definition MEM_KIND_CORE_REGION : Z := 2.
Definition MEM_KIND_JOB_SLICE : Z := 3.

(** ** The physical layout of the two ports (include/smp_layout.h) *)

Record layout := {
  is_aarch64 : bool;
  KERNEL_LOAD_BASE : Z;
  BSP_MAILBOX_REGION_BASE : Z;
  BSP_INIT_LOAD_BASE : Z;
  ALLOC_MIN : Z;
  ALLOC_MAX : Z
}.

Definition CORE_MAILBOX_OFFSET : Z := 0x380000.
Definition CORE_MAILBOX_SIZE : Z := 0x080000.

Definition layout_x86_64 : layout := {|
  is_aarch64 := false;
  KERNEL_LOAD_BASE := 0x1000000;
  BSP_MAILBOX_REGION_BASE := 0x1200000 - CORE_MAILBOX_OFFSET;
  BSP_INIT_LOAD_BASE := 0x1800000;
  ALLOC_MIN := 0x1C00000;
  ALLOC_MAX := 0x4000000 (* CORE_REGION_BASE *)
|}.

(** [AARCH64_RAM_BASE] is set by the build; QEMU virt's is 0x40000000. *)
Definition layout_aarch64 (AARCH64_RAM_BASE : Z) : layout := {|
  is_aarch64 := true;
  KERNEL_LOAD_BASE := AARCH64_RAM_BASE + 0x01000000;
  BSP_MAILBOX_REGION_BASE := AARCH64_RAM_BASE + 0x01800000 - CORE_MAILBOX_OFFSET;
  BSP_INIT_LOAD_BASE := AARCH64_RAM_BASE + 0x00200000;
  ALLOC_MIN := AARCH64_RAM_BASE + 0x14000000;
  ALLOC_MAX := AARCH64_RAM_BASE + 0x18000000
|}.

(** ** State *)

Record claim_t := { c_base : Z; c_size : Z; c_kind : Z; c_used : bool }.

#[global] Instance claim_inhabited : Inhabited claim_t :=
  populate {| c_base := 0; c_size := 0; c_kind := 0; c_used := false |}.

Record mem_mgr := {
  g_claims : list claim_t;     (* static claim_t g_claims[MAX_CLAIMS] *)
  g_claim_count : nat;
  g_lock : trylock_t
}.

(** The entries the loops [for (i = 0; i < g_claim_count; i++)] visit. *)
Definition claims (m : mem_mgr) : list claim_t := take (g_claim_count m) (g_claims m).

Definition set_lock (l : trylock_t) (m : mem_mgr) : mem_mgr :=
  {| g_claims := g_claims m; g_claim_count := g_claim_count m; g_lock := l |}.

(** The state in which [mem_lock_acquire_wait] returns (its loop is
    [TryLock.acquire_wait]: it ends when a test-and-set found the flag clear,
    and leaves it set). *)
Definition mem_lock_acquire_wait (m : mem_mgr) : mem_mgr :=
  set_lock {| locked := true |} m.

Definition mem_lock_release (m : mem_mgr) : mem_mgr :=
  set_lock (trylock_release (g_lock m)) m.

(** ** Operations *)

(** [base < existing_end && g_claims[i].base < end] for a used entry. *)
Definition overlaps_claim (base end_ : Z) (c : claim_t) : bool :=
  c_used c &&
  ((base <? c_base c +64 c_size c) && (c_base c <? end_)).

Definition claim_locked (base size kind : Z) (m : mem_mgr) : mem_mgr * bool :=
  let end_ := base +64 size in
  if existsb (overlaps_claim base end_) (claims m) then (m, false)
  else if (MAX_CLAIMS <=? g_claim_count m)%nat then (m, false)
  else
    ({| g_claims := <[g_claim_count m := {| c_base := base; c_size := size;
                                            c_kind := kind; c_used := true |}]> (g_claims m);
        g_claim_count := S (g_claim_count m);
        g_lock := g_lock m |}, true).

(** The candidate starts, in the order the code collects them. *)
Definition alloc_candidates (L : layout) (m : mem_mgr) : list Z :=
  ALLOC_MIN L ::
  ((fun c => c_base c +64 c_size c) <$> filter (fun c => c_used c = true) (claims m)).

(** The inner loop: the index of the smallest entry at or after [i]. *)
Definition min_index (c : list Z) (i : nat) : nat :=
  fold_left (fun min_idx j => if c !!? j <? c !!? min_idx then j else min_idx)
    (seq (S i) (length c - S i)) i.

Definition swap_entries (c : list Z) (i j : nat) : list Z :=
  <[j := c !!? i]> (<[i := c !!? j]> c).

Definition sort_candidates (c : list Z) : list Z :=
  fold_left (fun c i => swap_entries c i (min_index c i)) (seq 0 (length c)) c.

Definition alloc_start (L : layout) (cand : Z) : Z :=
  if cand <? ALLOC_MIN L then ALLOC_MIN L else cand.

(** The search loop over the sorted candidates. *)
Fixpoint alloc_search (L : layout) (size kind : Z) (candidates : list Z) (m : mem_mgr)
    : mem_mgr * option Z :=
  match candidates with
  | [] => (m, None)
  | cand :: rest =>
      let start := alloc_start L cand in
      let end_ := start +64 size in
      if (ALLOC_MAX L <? end_) || (end_ <? start) then alloc_search L size kind rest m
      else if existsb (overlaps_claim start end_) (claims m)
      then alloc_search L size kind rest m
      else
        let '(m', ok) := claim_locked start size kind m in
        if ok then (m', Some start) else alloc_search L size kind rest m
  end.

Definition alloc_locked (L : layout) (size kind : Z) (m : mem_mgr) : mem_mgr * option Z :=
  alloc_search L size kind (sort_candidates (alloc_candidates L m)) m.

Definition release_claim (c : claim_t) : claim_t :=
  {| c_base := c_base c; c_size := c_size c; c_kind := c_kind c; c_used := false |}.

Definition free_locked (base : Z) (m : mem_mgr) : mem_mgr * bool :=
  match first_index (fun c => c_used c && (c_base c =? base)) (claims m) with
  | Some i =>
      ({| g_claims := alter release_claim i (g_claims m);
          g_claim_count := g_claim_count m; g_lock := g_lock m |}, true)
  | None => (m, false)
  end.

(** ** The message handler *)

Definition METHOD_CLAIM : Z := 0.
Definition METHOD_ALLOC : Z := 1.
Definition METHOD_FREE : Z := 2.

Definition memory_manager_handler (L : layout) (method_id : Z) (words : list Z)
    (response_cap : Z) (m : mem_mgr) : mem_mgr * option (list Z) :=
  if method_id =? METHOD_ALLOC then
    let size := word words 0 in let kind := word words 1 in
    let '(m, r) := alloc_locked L size kind (mem_lock_acquire_wait m) in
    let m := mem_lock_release m in
    (m, reply response_cap [bool_word (bool_decide (is_Some r)); default 0 r])
  else if method_id =? METHOD_FREE then
    let base := word words 0 in
    let '(m, ok) := free_locked base (mem_lock_acquire_wait m) in
    let m := mem_lock_release m in
    (m, reply response_cap [bool_word ok])
  else
    let base := word words 0 in let size := word words 1 in let kind := word words 2 in
    let '(m, ok) := claim_locked base size kind (mem_lock_acquire_wait m) in
    let m := mem_lock_release m in
    (m, reply response_cap [bool_word ok]).

(** ** Boot

    [boot_region] is the extent [memory_manager_init_schema] reads through
    InitDescription and the boot allocator: [phys a] is the 64-bit word at
    physical address [a]; both structures start 16 bytes into their
    messages. *)

Definition BOOT_ALLOCATOR_MAGIC : Z := 0x424f4f54414c4f43.

Definition boot_region (phys : Z -> Z) (init_description_phys : Z) : option (Z * Z) :=
  if init_description_phys =? 0 then None
  else
    let description := init_description_phys + 16 in
    let magic := phys description in
    let coreinit_allocator_phys := phys (description + 8) in
    if (magic =? INIT_DESCRIPTION_MAGIC) && negb (coreinit_allocator_phys =? 0) then
      let allocator := coreinit_allocator_phys + 16 in
      let amagic := phys allocator in
      let region_base := phys (allocator + 24) in
      let region_len := phys (allocator + 32) in
      if (amagic =? BOOT_ALLOCATOR_MAGIC) && negb (region_base =? 0) && negb (region_len =? 0)
      then Some (region_base, region_len) else None
    else None.

Definition claim_ (base size kind : Z) (m : mem_mgr) : mem_mgr :=
  fst (claim_locked base size kind m).

(** [info] is NULL, or gives [info->init_description_phys]. *)
Definition memory_manager_init_schema (L : layout) (phys : Z -> Z) (info : option Z)
    (m : mem_mgr) : mem_mgr :=
  let m := {| g_claims := g_claims m; g_claim_count := 0; g_lock := trylock_init |} in
  let m := mem_lock_acquire_wait m in
  let m := if is_aarch64 L then m
           else claim_ 0xFEC00000 0x1000 MEM_KIND_MMIO (claim_ 0xFEE00000 0x1000 MEM_KIND_MMIO m) in
  let m := claim_ (KERNEL_LOAD_BASE L) 0x400000 MEM_KIND_KERNEL_RESERVED m in
  let m := if is_aarch64 L
           then claim_ (BSP_MAILBOX_REGION_BASE L + CORE_MAILBOX_OFFSET) CORE_MAILBOX_SIZE
                  MEM_KIND_KERNEL_RESERVED m
           else claim_ 0x8000 0x1000 MEM_KIND_KERNEL_RESERVED m in
  let m := match info with
           | None => m
           | Some init_description_phys =>
               match boot_region phys init_description_phys with
               | Some (region_base, region_len) =>
                   claim_ region_base region_len MEM_KIND_KERNEL_RESERVED m
               | None => m
               end
           end in
  let m := claim_ (BSP_INIT_LOAD_BASE L) 0x400000 MEM_KIND_KERNEL_RESERVED m in
  mem_lock_release m.

(** ** The selection sort *)

Section sorting.
Implicit Types (c : list Z) (i j : nat).

Lemma min_index_fold c l i k :
  (i <= k < length c)%nat -> Forall (fun j => i <= j < length c)%nat l ->
  let r := fold_left (fun mi j => if c !!? j <? c !!? mi then j else mi) l k in
  (i <= r < length c)%nat /\ c !!? r <= c !!? k /\ Forall (fun j => c !!? r <= c !!? j) l.
Proof.
  revert k. induction l as [|j l IH]; intros k Hk Hl r; unfold r; cbn [fold_left]; [split_and!; [lia..|lia|constructor]|].
  inversion Hl as [|?? Hj Hl']; subst.
  case_cond.
  - destruct (IH j) as (Hr & Hle & Hall); [lia|done|].
    split_and!; [lia..| lia |]. by constructor.
  - destruct (IH k) as (Hr & Hle & Hall); [lia|done|].
    split_and!; [lia..| lia |]. constructor; [lia|done].
Qed.

Lemma min_index_spec c i :
  (i < length c)%nat ->
  (i <= min_index c i < length c)%nat /\
  forall j, (i <= j < length c)%nat -> c !!? min_index c i <= c !!? j.
Proof.
  intros Hi. unfold min_index.
  destruct (min_index_fold c (seq (S i) (length c - S i)) i i) as (Hr & Hle & Hall); [lia| |].
  - apply Forall_forall. intros j Hj%elem_of_seq. lia.
  - split; [done|]. intros j Hj. destruct (decide (j = i)) as [->|]; [done|].
    rewrite Forall_forall in Hall. apply Hall, elem_of_seq. lia.
Qed.

Lemma length_swap_entries c i j : length (swap_entries c i j) = length c.
Proof. unfold swap_entries. by rewrite !length_insert. Qed.

Lemma swap_entries_perm c i j :
  (i < length c)%nat -> (j < length c)%nat -> swap_entries c i j ≡ₚ c.
Proof. intros Hi Hj. apply Permutation_insert_swap; by apply lookup_nth_inh. Qed.

Lemma swap_entries_nth c i j k :
  (i < length c)%nat -> (j < length c)%nat ->
  swap_entries c i j !!? k =
  if decide (k = j) then c !!? i else if decide (k = i) then c !!? j else c !!? k.
Proof.
  intros Hi Hj. unfold swap_entries. case_decide as Hkj; [subst|].
  - apply nth_insert_eq. by rewrite length_insert.
  - rewrite nth_insert_ne by done. case_decide as Hki; [subst|].
    + by apply nth_insert_eq.
    + by apply nth_insert_ne.
Qed.

(** After [i] rounds the first [i] entries are in place. *)
Definition sorted_upto i c : Prop :=
  forall a b, (a < i)%nat -> (a <= b < length c)%nat -> c !!? a <= c !!? b.

Lemma selection_round c i :
  (i < length c)%nat -> sorted_upto i c ->
  sorted_upto (S i) (swap_entries c i (min_index c i)).
Proof.
  intros Hi Hs a b Ha Hb. rewrite length_swap_entries in Hb.
  destruct (min_index_spec c i Hi) as [Hm Hmin].
  rewrite !swap_entries_nth by lia.
  destruct (decide (a < i)%nat) as [Hai|Hai].
  - repeat case_decide; subst; try lia; apply Hs; lia.
  - assert (a = i) as -> by lia.
    replace (if decide (i = min_index c i) then _ else _) with (c !!? min_index c i).
    + repeat case_decide; apply Hmin; lia.
    + repeat case_decide; congruence.
Qed.

Lemma selection_loop c i n :
  (i + n = length c)%nat -> sorted_upto i c ->
  let r := fold_left (fun c i => swap_entries c i (min_index c i)) (seq i n) c in
  length r = length c /\ r ≡ₚ c /\ sorted_upto (i + n) r.
Proof.
  revert c i. induction n as [|n IH]; intros c i Hn Hs; simpl.
  - by rewrite Nat.add_0_r.
  - destruct (min_index_spec c i ltac:(lia)) as [Hm _].
    destruct (IH (swap_entries c i (min_index c i)) (S i)) as (Hl & Hp & Hr).
    + rewrite length_swap_entries. lia.
    + apply selection_round; [lia|done].
    + rewrite length_swap_entries in Hl. split_and!; [done| |].
      * rewrite Hp. apply swap_entries_perm; lia.
      * by replace (i + S n)%nat with (S i + n)%nat by lia.
Qed.

Lemma sort_candidates_perm c : sort_candidates c ≡ₚ c.
Proof.
  destruct (selection_loop c 0 (length c)) as (_ & Hp & _); [done | | exact Hp].
  intros a b Ha. lia.
Qed.

Lemma sort_candidates_sorted c i j :
  (i <= j < length c)%nat -> sort_candidates c !!? i <= sort_candidates c !!? j.
Proof.
  intros Hij. destruct (selection_loop c 0 (length c)) as (Hl & _ & Hs); [done | |].
  - intros a b Ha. lia.
  - apply Hs; [lia|]. unfold sort_candidates in *. lia.
Qed.
End sorting.

(** ** Regions *)

Definition c_end (c : claim_t) : Z := c_base c + c_size c.

(** No byte in common. *)
Definition apart (a asize b bsize : Z) : Prop := a + asize <= b \/ b + bsize <= a.

Definition live (m : mem_mgr) (c : claim_t) : Prop := c ∈ claims m /\ c_used c = true.

(** The address range of a claim does not wrap. *)
Definition claim_ok (c : claim_t) : Prop :=
  0 <= c_base c /\ 0 <= c_size c /\ c_end c < W64.

Definition mem_wf (m : mem_mgr) : Prop :=
  length (g_claims m) = MAX_CLAIMS /\ (g_claim_count m <= MAX_CLAIMS)%nat /\
  (forall c, live m c -> claim_ok c) /\
  (forall i j c d, claims m !! i = Some c -> claims m !! j = Some d -> i <> j ->
     c_used c = true -> c_used d = true -> apart (c_base c) (c_size c) (c_base d) (c_size d)).

(** [[base, base + size)] meets no live claim. *)
Definition fits (m : mem_mgr) (base size : Z) : Prop :=
  forall c, live m c -> apart base size (c_base c) (c_size c).

Lemma existsb_overlaps m base size :
  mem_wf m -> 0 <= base -> 0 <= size -> base + size < W64 ->
  existsb (overlaps_claim base (base +64 size)) (claims m) = false <-> fits m base size.
Proof.
  intros (_ & _ & Hok & _) Hb Hs He. rewrite u64_small by (unfold is_u64; lia).
  split.
  - intros H c [Hin Hu]. apply not_true_iff_false in H.
    destruct (Hok c) as (? & ? & ?); [by split|]. unfold c_end in *.
    unfold apart. destruct (decide (base + size <= c_base c)); [by left|right].
    destruct (decide (c_end c <= base)) as [|Hn]; [done|]. exfalso. apply H.
    apply existsb_exists. exists c. split; [by apply list_elem_of_In|].
    unfold overlaps_claim. rewrite Hu, u64_small by (unfold is_u64; lia). unfold c_end in *.
    apply andb_true_iff. split; [done|]. apply andb_true_iff. split; apply Z.ltb_lt; lia.
  - intros H. apply not_true_iff_false. intros Ht.
    apply existsb_exists in Ht as (c & Hin%list_elem_of_In & Ho). unfold overlaps_claim in Ho.
    destruct (c_used c) eqn:Hu; [|done]. simpl in Ho. bool_simp.
    destruct (Hok c) as (? & ? & ?); [by split|]. unfold c_end in *.
    rewrite u64_small in * by (unfold is_u64; lia).
    destruct (H c); [by split|lia|lia].
Qed.

Lemma claims_after m base size kind :
  mem_wf m -> (g_claim_count m < MAX_CLAIMS)%nat ->
  let c := {| c_base := base; c_size := size; c_kind := kind; c_used := true |} in
  claims {| g_claims := <[g_claim_count m := c]> (g_claims m);
            g_claim_count := S (g_claim_count m); g_lock := g_lock m |} = claims m ++ [c].
Proof.
  intros (Hl & _) Hc c. unfold claims. simpl.
  assert (<[g_claim_count m:=c]> (g_claims m) !! g_claim_count m = Some c) as Hlk
    by (apply list_lookup_insert_eq; lia).
  rewrite (take_S_r _ _ c Hlk). by rewrite take_insert_ge.
Qed.

Lemma live_snoc m m' c d :
  claims m' = claims m ++ [c] -> c_used c = true -> live m' d <-> live m d \/ d = c.
Proof.
  intros H Hu. unfold live. rewrite H, elem_of_app, list_elem_of_singleton.
  split; [intros [[?|?] ?]; auto | intros [[? ?]| ->]; auto].
Qed.

Lemma mem_wf_snoc m base size kind :
  mem_wf m -> (g_claim_count m < MAX_CLAIMS)%nat ->
  0 <= base -> 0 <= size -> base + size < W64 -> fits m base size ->
  mem_wf {| g_claims := <[g_claim_count m := {| c_base := base; c_size := size;
                                                c_kind := kind; c_used := true |}]> (g_claims m);
            g_claim_count := S (g_claim_count m); g_lock := g_lock m |}.
Proof.
  intros Hwf Hc Hb Hs He Hf. pose proof (claims_after m base size kind Hwf Hc) as Hcl.
  cbv zeta in Hcl. destruct Hwf as (Hl & Hcnt & Hok & Hdis).
  set (c := {| c_base := base |}) in *. set (m' := {| g_claims := _ |}) in *.
  split_and!; [by rewrite <- Hl; apply length_insert | simpl; lia | |].
  - intros d Hd. rewrite (live_snoc m m' c) in Hd by done. destruct Hd as [Hd| ->]; [by apply Hok|done].
  - intros i j x y Hx Hy Hij Hux Huy. rewrite Hcl in Hx, Hy.
    apply lookup_app_Some in Hx as [Hx|[Hix Hx]]; apply lookup_app_Some in Hy as [Hy|[Hjy Hy]].
    + by apply (Hdis i j).
    + apply list_lookup_singleton_Some in Hy as [? <-].
      destruct (Hf x); [split; [by eapply list_elem_of_lookup_2|done]| right | left]; done.
    + apply list_lookup_singleton_Some in Hx as [? <-].
      destruct (Hf y); [split; [by eapply list_elem_of_lookup_2|done]| left | right]; done.
    + apply list_lookup_singleton_Some in Hx as [? <-].
      apply list_lookup_singleton_Some in Hy as [? <-]. lia.
Qed.

(** [claim_locked] on a range that does not wrap. *)
Lemma claim_locked_spec m base size kind :
  mem_wf m -> 0 <= base -> 0 <= size -> base + size < W64 ->
  let '(m', ok) := claim_locked base size kind m in
  mem_wf m' /\ g_lock m' = g_lock m /\
  if ok
  then fits m base size /\ (g_claim_count m < MAX_CLAIMS)%nat /\
       claims m' = claims m ++ [{| c_base := base; c_size := size; c_kind := kind; c_used := true |}]
  else m' = m /\ (~ fits m base size \/ g_claim_count m = MAX_CLAIMS).
Proof.
  intros Hwf Hb Hs He. unfold claim_locked.
  destruct (existsb _ _) eqn:Ho.
  - split_and!; [done..|]. left. intros Hf.
    by rewrite (proj2 (existsb_overlaps m base size Hwf Hb Hs He) Hf) in Ho.
  - apply (existsb_overlaps m base size Hwf Hb Hs He) in Ho.
    destruct (_ <=? _)%nat eqn:Hc.
    + apply Nat.leb_le in Hc. split; [done|split; [done|split; [done|right]]].
      destruct Hwf as (_ & Hcnt & _). lia.
    + apply Nat.leb_gt in Hc. split; [by apply mem_wf_snoc | split; [done|]].
      split; [done | split; [done|]]. by apply claims_after.
Qed.

(** ** First fit *)

Definition layout_ok (L : layout) : Prop := 0 <= ALLOC_MIN L <= ALLOC_MAX L /\ ALLOC_MAX L < W64.

(** The request can be placed at [start]. *)
Definition feasible (L : layout) (m : mem_mgr) (size start : Z) : Prop :=
  ALLOC_MIN L <= start /\ start + size <= ALLOC_MAX L /\ fits m start size.

Section first_fit.
Context (L : layout) (HL : layout_ok L).

Lemma alloc_start_max cand : alloc_start L cand = Z.max (ALLOC_MIN L) cand.
Proof. unfold alloc_start. case_cond; lia. Qed.

(** The window test of the loop decides the arithmetic part of [feasible]. *)
Lemma window_test start size :
  is_u64 start -> is_u64 size ->
  (ALLOC_MAX L <? start +64 size) || (start +64 size <? start) = false <->
  start + size <= ALLOC_MAX L.
Proof.
  intros Hst Hsz. destruct HL as [_ HM]. unfold is_u64 in *.
  rewrite orb_false_iff, !Z.ltb_ge. split.
  - intros [H1 H2]. destruct (decide (start + size < W64)).
    + by rewrite u64_small in H1 by (unfold is_u64; lia).
    + assert (u64 (start + size) = start + size - W64); [|lia].
      unfold u64. symmetry. apply (Z.mod_unique_pos _ _ 1); lia.
  - intros H. rewrite u64_small by (unfold is_u64; lia). lia.
Qed.

Lemma alloc_search_spec m size kind cs :
  mem_wf m -> is_u64 size -> Forall is_u64 cs ->
  let '(m', r) := alloc_search L size kind cs m in
  match r with
  | Some b =>
      (m', true) = claim_locked b size kind m /\ feasible L m size b /\
      exists pre cand post, cs = pre ++ cand :: post /\ b = alloc_start L cand /\
        forall p, p ∈ pre -> ~ feasible L m size (alloc_start L p)
  | None =>
      m' = m /\ (g_claim_count m = MAX_CLAIMS \/ forall p, p ∈ cs -> ~ feasible L m size (alloc_start L p))
  end.
Proof.
  intros Hwf Hsz. induction cs as [|cand cs IH]; intros Hcs; cbn [alloc_search].
  { split; [done|]. right. intros p Hp. by apply not_elem_of_nil in Hp. }
  inversion Hcs as [|?? Hcand Hcs']; subst.
  specialize (IH Hcs').
  assert (is_u64 (alloc_start L cand)) as Hst.
  { rewrite alloc_start_max. destruct HL. unfold is_u64 in *. lia. }
  assert (ALLOC_MIN L <= alloc_start L cand) as Hmin by (rewrite alloc_start_max; lia).
  (* a rejected candidate leaves the conclusion to the rest *)
  assert (~ feasible L m size (alloc_start L cand) ->
    let '(m', r) := alloc_search L size kind cs m in
    match r with
    | Some b => (m', true) = claim_locked b size kind m /\ feasible L m size b /\
        exists pre c post, cand :: cs = pre ++ c :: post /\ b = alloc_start L c /\
          forall p, p ∈ pre -> ~ feasible L m size (alloc_start L p)
    | None => m' = m /\ (g_claim_count m = MAX_CLAIMS \/
        forall p, p ∈ cand :: cs -> ~ feasible L m size (alloc_start L p))
    end) as Hskip.
  { intros Hno. destruct (alloc_search L size kind cs m) as [m' [b|]].
    - destruct IH as (H1 & H2 & pre & c & post & -> & -> & Hpre).
      split_and!; [done..|]. exists (cand :: pre), c, post. split_and!; [done..|].
      intros p [->|Hp]%elem_of_cons; auto.
    - destruct IH as (-> & [Hfull|IH]); split; [done|by left|done|right].
      intros p [->|Hp]%elem_of_cons; auto. }
  destruct ((ALLOC_MAX L <? _) || _) eqn:Hwin.
  { apply Hskip. intros (_ & Hw & _). apply (window_test _ _ Hst Hsz) in Hw. congruence. }
  apply (window_test _ _ Hst Hsz) in Hwin.
  assert (alloc_start L cand + size < W64) as Hnw by (destruct HL; lia).
  unfold is_u64 in *.
  destruct (existsb _ _) eqn:Ho.
  { apply Hskip. intros (_ & _ & Hf).
    apply (existsb_overlaps m) in Hf; [congruence|done|lia..]. }
  apply (existsb_overlaps m) in Ho; [|done|lia..].
  pose proof (claim_locked_spec m (alloc_start L cand) size kind Hwf ltac:(lia) ltac:(lia) Hnw) as Hcl.
  destruct (claim_locked (alloc_start L cand) size kind m) as [m1 [|]] eqn:Hm1.
  - split_and!; [done | done | ]. exists [], cand, cs. split_and!; [done..|].
    intros p Hp. by apply not_elem_of_nil in Hp.
  - destruct Hcl as (_ & _ & _ & [?|Hfull]); [done|].
    destruct (alloc_search L size kind cs m) as [m' [b|]]; [|by destruct IH; split; [|left]].
    destruct IH as (H1 & H2 & H3). exfalso.
    unfold claim_locked in H1. rewrite Hfull in H1.
    replace (MAX_CLAIMS <=? MAX_CLAIMS)%nat with true in H1 by done.
    destruct (existsb _ _); congruence.
Qed.
End first_fit.

Lemma candidates_u64 L m : layout_ok L -> Forall is_u64 (alloc_candidates L m).
Proof.
  intros [HL HM]. constructor; [unfold is_u64; lia|].
  apply Forall_fmap, Forall_forall. intros c _. simpl. apply u64_range.
Qed.

Lemma candidate_end L m c :
  mem_wf m -> live m c -> c_end c ∈ alloc_candidates L m.
Proof.
  intros (_ & _ & Hok & _) Hc. destruct (Hok c Hc) as (? & ? & ?). destruct Hc as [Hin Hu].
  apply elem_of_cons. right. apply list_elem_of_fmap. exists c. split.
  - unfold c_end in *. rewrite u64_small; [done|]. unfold is_u64. lia.
  - by apply list_elem_of_filter.
Qed.

(** Sliding a feasible placement down to the nearest candidate below it. *)
Lemma feasible_candidate L m size b :
  layout_ok L -> mem_wf m -> 0 <= size -> feasible L m size b ->
  exists cand, cand ∈ alloc_candidates L m /\
    Z.max (ALLOC_MIN L) cand <= b /\ feasible L m size (Z.max (ALLOC_MIN L) cand).
Proof.
  intros HL Hwf Hsz (Hmin & Hmax & Hf).
  assert (exists cand, cand ∈ alloc_candidates L m /\ cand <= b /\
            forall c, c ∈ alloc_candidates L m -> c <= b -> c <= cand) as (cand & Hin & Hle & Hbest).
  { apply (list_greatest_below _ b (ALLOC_MIN L)); [apply elem_of_cons; by left|done]. }
  exists cand. split_and!; [done|lia|].
  set (s := Z.max (ALLOC_MIN L) cand). split_and!; [lia|lia|].
  intros c Hc. destruct (Hf c Hc) as [Hr|Hl].
  - left. lia.
  - right. pose proof (Hbest (c_end c) (candidate_end L m c Hwf Hc)). unfold c_end in *. lia.
Qed.

(** First fit, as one exchange. *)
Lemma alloc_locked_spec L m size kind :
  layout_ok L -> mem_wf m -> is_u64 size ->
  let '(m', r) := alloc_locked L size kind m in
  mem_wf m' /\
  match r with
  | Some b =>
      feasible L m size b /\ (forall b', feasible L m size b' -> b <= b') /\
      claims m' = claims m ++ [{| c_base := b; c_size := size; c_kind := kind; c_used := true |}]
  | None =>
      m' = m /\ (g_claim_count m = MAX_CLAIMS \/ forall b', ~ feasible L m size b')
  end.
Proof.
  intros HL Hwf Hsz. unfold alloc_locked.
  set (cs := sort_candidates (alloc_candidates L m)).
  assert (cs ≡ₚ alloc_candidates L m) as Hperm by apply sort_candidates_perm.
  pose proof (alloc_search_spec L HL m size kind cs Hwf Hsz) as Hs.
  rewrite Hperm in Hs at 1. specialize (Hs (candidates_u64 L m HL)).
  destruct (alloc_search L size kind cs m) as [m' [b|]].
  - destruct Hs as (Hcl & Hfe & pre & cand & post & Hcs & -> & Hpre).
    pose proof (claim_locked_spec m (alloc_start L cand) size kind Hwf) as Hspec. rewrite <- Hcl in Hspec.
    pose proof Hfe as (Hmin & Hmax & _). destruct HL as [HL0 HM]. unfold is_u64 in Hsz.
    destruct Hspec as (Hwf' & _ & _ & _ & Hclaims); [lia..|].
    split; [done|]. split; [done|]. split; [|done].
    intros b' Hb'. destruct (feasible_candidate L m size b') as (c & Hc & Hle & Hfc);
      [by split|done|lia|done|].
    rewrite <- Hperm, Hcs, elem_of_app, elem_of_cons in Hc.
    rewrite alloc_start_max. destruct Hc as [Hc|[->|Hc]]; [|done|].
    + exfalso. apply (Hpre c Hc). by rewrite alloc_start_max.
    + apply list_elem_of_lookup in Hc as [k Hk].
      pose proof (sort_candidates_sorted (alloc_candidates L m) (length pre) (length pre + S k)) as Hsort.
      fold cs in Hsort. rewrite Hcs in Hsort.
      rewrite (nth_lookup_Some_inh _ _ cand), (nth_lookup_Some_inh _ _ c) in Hsort.
      * assert (length pre + S k < length (alloc_candidates L m))%nat; [|lia].
        rewrite <- Hperm, Hcs, length_app. simpl. apply lookup_lt_Some in Hk. lia.
      * rewrite lookup_app_r by lia. by replace (_ - _)%nat with (S k) by lia.
      * by apply list_lookup_middle.
  - destruct Hs as (-> & [Hfull|Hno]); split; [done|by split; [|left]|done|split; [done|right]].
    intros b' Hb'. unfold is_u64 in Hsz.
    destruct (feasible_candidate L m size b') as (c & Hc & Hle & Hfc); [done|done|lia|done|].
    rewrite <- Hperm in Hc. apply (Hno c Hc). by rewrite alloc_start_max.
Qed.

(** ** Free *)

Lemma free_locked_spec m base :
  mem_wf m ->
  let '(m', ok) := free_locked base m in
  mem_wf m' /\ g_lock m' = g_lock m /\ g_claim_count m' = g_claim_count m /\
  if ok
  then exists i c, claims m !! i = Some c /\ c_used c = true /\ c_base c = base /\
         claims m' = <[i := release_claim c]> (claims m) /\
         forall j d, claims m !! j = Some d -> (j < i)%nat -> c_used d = true -> c_base d <> base
  else m' = m /\ forall c, live m c -> c_base c <> base.
Proof.
  intros Hwf. unfold free_locked. destruct (first_index _ _) as [i|] eqn:Hi.
  - pose proof Hi as Hlt. apply first_index_lt in Hlt.
    apply first_index_Some in Hi as (c & Hc & Hp & Hfirst). bool_simp.
    set (m' := {| g_claims := _ |}).
    assert (claims m' = <[i := release_claim c]> (claims m)) as Hcl.
    { unfold claims in *. simpl.
      assert (i < g_claim_count m)%nat as Hic by (rewrite length_take in Hlt; lia).
      rewrite lookup_take_lt in Hc by lia.
      rewrite <- take_insert_lt by done. f_equal.
      apply list_eq. intros j. destruct (decide (j = i)) as [->|Hne].
      - rewrite list_lookup_alter_eq, Hc, list_lookup_insert_eq by (by eapply lookup_lt_Some). done.
      - by rewrite list_lookup_alter_ne, list_lookup_insert_ne by done. }
    split; [|split_and!; [done..|exists i, c; split_and!; [done..|]]].
    + destruct Hwf as (Hl & Hcnt & Hok & Hdis). split_and!.
      * simpl. by rewrite length_alter.
      * done.
      * intros d [Hd Hu]. apply Hok. split; [|done].
        rewrite Hcl in Hd. apply list_elem_of_lookup in Hd as [j Hj].
        apply lookup_insert_cases in Hj as [(_ & -> & _)|[_ Hj]]; [done|by eapply list_elem_of_lookup_2].
      * intros j k x y Hx Hy Hjk Hux Huy. rewrite Hcl in Hx, Hy.
        apply lookup_insert_cases in Hx as [(_ & -> & _)|[_ Hx]]; [done|].
        apply lookup_insert_cases in Hy as [(_ & -> & _)|[_ Hy]]; [done|]. by apply (Hdis j k).
    + intros j d Hd Hji Hu Hb. specialize (Hfirst j d Hd Hji). simpl in Hfirst.
      rewrite Hu, Hb, Z.eqb_refl in Hfirst. done.
  - split; [done|split_and!; [done..|]]. intros c [Hc Hu] Hb.
    apply list_elem_of_lookup in Hc as [j Hj].
    rewrite first_index_None in Hi. specialize (Hi j c Hj). simpl in Hi.
    rewrite Hu, Hb, Z.eqb_refl in Hi. done.
Qed.

Lemma insert_snoc_last {A} (l : list A) (a b : A) : <[length l := b]> (l ++ [a]) = l ++ [b].
Proof. rewrite insert_app_r_alt by lia. by rewrite Nat.sub_diag. Qed.

Lemma alloc_then_free L m size kind m' b :
  layout_ok L -> mem_wf m -> is_u64 size -> 0 < size -> (forall c, live m c -> 0 < c_size c) ->
  alloc_locked L size kind m = (m', Some b) ->
  let '(m'', ok) := free_locked b m' in
  ok = true /\ forall c, live m'' c <-> live m c.
Proof.
  intros HL Hwf Hsz Hpos Hne Halloc.
  pose proof (alloc_locked_spec L m size kind HL Hwf Hsz) as Ha. rewrite Halloc in Ha.
  destruct Ha as (Hwf' & (_ & _ & Hfit) & _ & Hcl).
  pose proof (free_locked_spec m' b Hwf') as Hf. destruct (free_locked b m') as [m'' [|]].
  - split; [done|]. destruct Hf as (_ & _ & _ & i & c & Hi & Hu & Hb & Hcl'' & _).
    assert (i = length (claims m)) as ->.
    { rewrite Hcl in Hi. apply lookup_app_Some in Hi as [Hi|[Hge Hi]].
      - exfalso. assert (live m c) as Hlive by (split; [by eapply list_elem_of_lookup_2|done]).
        specialize (Hne c Hlive). destruct (Hfit c Hlive); lia.
      - apply list_lookup_singleton_Some in Hi as [? _]. lia. }
    rewrite Hcl, insert_snoc_last in Hcl''. intros d. unfold live.
    rewrite Hcl'', elem_of_app, list_elem_of_singleton.
    split; [intros [[?| ->] Hd]; [done|done] | intros [? ?]; auto].
  - exfalso. destruct Hf as (_ & _ & _ & _ & Hno).
    apply (Hno {| c_base := b; c_size := size; c_kind := kind; c_used := true |}); [|done].
    split; [|done]. rewrite Hcl. apply elem_of_app. right. by apply list_elem_of_singleton.
Qed.

(** [free_locked] does not look at the lock. *)
Lemma free_locked_relock b l m :
  free_locked b (set_lock l m) = (set_lock l (fst (free_locked b m)), snd (free_locked b m)).
Proof. unfold free_locked. change (claims (set_lock l m)) with (claims m). by destruct (first_index _ _). Qed.

(** ** The ledger never shrinks *)

Lemma alloc_search_full L size kind cs m :
  g_claim_count m = MAX_CLAIMS -> alloc_search L size kind cs m = (m, None).
Proof.
  intros Hfull. induction cs as [|c cs IH]; [done|]. cbn [alloc_search].
  case_cond; [done|]. destruct (existsb _ _) eqn:Ho; [done|].
  unfold claim_locked. rewrite Ho, Hfull. done.
Qed.

(** ** The contract *)

(** The byte belongs to a live claim. *)
Definition owned (m : mem_mgr) (a : Z) : Prop :=
  exists c, live m c /\ c_base c <= a < c_end c.

(** A request whose claimed range does not wrap around. *)
Definition request_ok (method_id : Z) (words : list Z) : Prop :=
  Forall is_u64 words /\
  (method_id <> METHOD_ALLOC -> method_id <> METHOD_FREE -> word words 0 + word words 1 < W64).

(** The abstract ledger: the regions held, oldest first, and how many more the
    table has room for. *)
Record extent := { r_base : Z; r_size : Z; r_kind : Z }.
Record ledger := { l_regions : list extent; l_left : nat }.

Definition extent_of (c : claim_t) : extent := {| r_base := c_base c; r_size := c_size c; r_kind := c_kind c |}.

Definition abs (m : mem_mgr) : ledger :=
  {| l_regions := extent_of <$> filter (fun c => c_used c = true) (claims m);
     l_left := MAX_CLAIMS - g_claim_count m |}.

(** No region held has a byte of [[base, base + size)]. *)
Definition clear (l : ledger) (base size : Z) : Prop :=
  Forall (fun r => apart base size (r_base r) (r_size r)) (l_regions l).

Definition placeable (L : layout) (l : ledger) (size base : Z) : Prop :=
  ALLOC_MIN L <= base /\ base + size <= ALLOC_MAX L /\ clear l base size.

(** The ledger with one more region. *)
Definition enter (r : extent) (l : ledger) : ledger :=
  {| l_regions := l_regions l ++ [r]; l_left := l_left l - 1 |}.

(** What the object promises.  ALLOC takes the lowest place of the window that
    is clear and is refused exactly when there is none or the table is full;
    FREE drops the oldest region with that base (its room in the table does not
    come back) and is refused exactly when there is none; CLAIM takes the range
    asked for and is refused exactly when it is not clear or the table is full.
    What is refused changes nothing. *)
Inductive promise (L : layout) (l : ledger) : Z -> list Z -> list Z -> ledger -> Prop :=
| p_alloc words b :
    (0 < l_left l)%nat -> placeable L l (word words 0) b ->
    (forall b', placeable L l (word words 0) b' -> b <= b') ->
    promise L l METHOD_ALLOC words [1; b]
      (enter {| r_base := b; r_size := word words 0; r_kind := word words 1 |} l)
| p_alloc_refused words :
    l_left l = 0%nat \/ (forall b, ~ placeable L l (word words 0) b) ->
    promise L l METHOD_ALLOC words [0; 0] l
| p_free words pre r post :
    l_regions l = pre ++ r :: post -> r_base r = word words 0 ->
    Forall (fun r => r_base r <> word words 0) pre ->
    promise L l METHOD_FREE words [1] {| l_regions := pre ++ post; l_left := l_left l |}
| p_free_refused words :
    Forall (fun r => r_base r <> word words 0) (l_regions l) ->
    promise L l METHOD_FREE words [0] l
| p_claim meth words :
    meth <> METHOD_ALLOC -> meth <> METHOD_FREE ->
    (0 < l_left l)%nat -> clear l (word words 0) (word words 1) ->
    promise L l meth words [1]
      (enter {| r_base := word words 0; r_size := word words 1; r_kind := word words 2 |} l)
| p_claim_refused meth words :
    meth <> METHOD_ALLOC -> meth <> METHOD_FREE ->
    l_left l = 0%nat \/ ~ clear l (word words 0) (word words 1) ->
    promise L l meth words [0] l.

Lemma clear_fits m base size : clear (abs m) base size <-> fits m base size.
Proof.
  unfold clear, fits, live. simpl. rewrite Forall_fmap, Forall_forall. split.
  - intros H c [Hc Hu]. apply (H c). by apply list_elem_of_filter.
  - intros H c [Hu Hc]%list_elem_of_filter. by apply H.
Qed.

Lemma placeable_feasible L m size base : placeable L (abs m) size base <-> feasible L m size base.
Proof. unfold placeable, feasible. by rewrite clear_fits. Qed.

Lemma length_claims m : mem_wf m -> length (claims m) = g_claim_count m.
Proof. intros (Hl & Hc & _). unfold claims. rewrite length_take. lia. Qed.

Lemma left_full m : mem_wf m -> l_left (abs m) = 0%nat <-> g_claim_count m = MAX_CLAIMS.
Proof. intros (_ & Hc & _). simpl. lia. Qed.

Lemma abs_enter m m' c :
  mem_wf m -> mem_wf m' -> claims m' = claims m ++ [c] -> c_used c = true ->
  (0 < l_left (abs m))%nat /\ abs m' = enter (extent_of c) (abs m).
Proof.
  intros Hwf Hwf' Hcl Hu. pose proof (length_claims m Hwf) as H1. pose proof (length_claims m' Hwf') as H2.
  rewrite Hcl, length_app in H2. simpl in H2. destruct Hwf' as (_ & Hc' & _).
  split; [simpl; lia|]. unfold abs, enter. rewrite Hcl, filter_app, fmap_app, filter_cons_True by done.
  simpl. f_equal. lia.
Qed.

(** Releasing the entry at [i] takes its region out and leaves the others. *)
Lemma abs_release m m' i c :
  claims m !! i = Some c -> c_used c = true -> claims m' = <[i := release_claim c]> (claims m) ->
  g_claim_count m' = g_claim_count m ->
  let pre := extent_of <$> filter (fun c => c_used c = true) (take i (claims m)) in
  let post := extent_of <$> filter (fun c => c_used c = true) (drop (S i) (claims m)) in
  l_regions (abs m) = pre ++ extent_of c :: post /\
  abs m' = {| l_regions := pre ++ post; l_left := l_left (abs m) |}.
Proof.
  intros Hi Hu Hcl Hcnt. cbv zeta. split.
  - simpl. rewrite <- (take_drop_middle (claims m) i c Hi) at 1.
    by rewrite filter_app, filter_cons_True, fmap_app by done.
  - unfold abs. rewrite Hcl, Hcnt. f_equal.
    rewrite insert_take_drop by (by eapply lookup_lt_Some).
    by rewrite filter_app, filter_cons_False, fmap_app by done.
Qed.

Lemma owned_snoc m m' c a :
  claims m' = claims m ++ [c] -> c_used c = true ->
  owned m' a <-> owned m a \/ c_base c <= a < c_end c.
Proof.
  intros Hcl Hu. unfold owned. split.
  - intros (d & Hd & Ha). apply (live_snoc m m' c) in Hd as [Hd| ->]; eauto.
  - intros [(d & Hd & Ha)|Ha].
    + exists d. split; [|done]. apply (live_snoc m m' c); auto.
    + exists c. split; [|done]. apply (live_snoc m m' c); auto.
Qed.

Lemma fits_unowned m base size a : fits m base size -> base <= a < base + size -> ~ owned m a.
Proof. intros Hf Ha (c & Hc & Hin). unfold c_end in *. destruct (Hf c Hc); lia. Qed.

Lemma word_u64 words i : Forall is_u64 words -> is_u64 (word words i).
Proof.
  intros Hw. unfold word. destruct (decide (i < length words)%nat) as [Hi|Hi].
  - rewrite Forall_forall in Hw. apply Hw, list_elem_of_In, nth_In, Hi.
  - rewrite nth_overflow by lia. done.
Qed.
#[export] Hint Resolve word_u64 : coreinit.

(** The lock operations do not touch the ledger. *)
Lemma mem_wf_lock l m : mem_wf (set_lock l m) <-> mem_wf m.
Proof. done. Qed.

Section exchange.
Context (L : layout) (m : mem_mgr) (HL : layout_ok L) (Hwf : mem_wf m).

Lemma alloc_keeps_promise words :
  Forall is_u64 words ->
  let '(m', r) := alloc_locked L (word words 0) (word words 1) (mem_lock_acquire_wait m) in
  mem_wf m' /\ promise L (abs m) METHOD_ALLOC words [bool_word (bool_decide (is_Some r)); default 0 r] (abs m').
Proof.
  intros Hw. pose proof (word_u64 words 0 Hw) as H0.
  pose proof (alloc_locked_spec L (mem_lock_acquire_wait m) (word words 0) (word words 1) HL Hwf H0) as Ha.
  destruct (alloc_locked _ _ _ _) as [m1 [b|]]; destruct Ha as [Hwf' Ha]; (split; [done|]).
  - destruct Ha as (Hfe & Hleast & Hcl). destruct (abs_enter m m1 _ Hwf Hwf' Hcl eq_refl) as [Hleft ->].
    apply p_alloc; [done|by apply placeable_feasible|]. intros b' Hb'. by apply Hleast, placeable_feasible.
  - destruct Ha as [-> Hno]. apply p_alloc_refused. destruct Hno as [Hfull|Hno].
    + left. by apply left_full.
    + right. intros b' Hb'%placeable_feasible. by apply (Hno b').
Qed.

Lemma free_keeps_promise words :
  let '(m', ok) := free_locked (word words 0) (mem_lock_acquire_wait m) in
  mem_wf m' /\ promise L (abs m) METHOD_FREE words [bool_word ok] (abs m').
Proof.
  pose proof (free_locked_spec (mem_lock_acquire_wait m) (word words 0) Hwf) as Hf.
  destruct (free_locked _ _) as [m1 [|]]; destruct Hf as (Hwf' & _ & Hcnt & Hf); (split; [done|]).
  - destruct Hf as (i & c & Hi & Hu & Hb & Hcl & Hfirst).
    destruct (abs_release m m1 i c Hi Hu Hcl Hcnt) as [Hr ->]. apply (p_free _ _ _ _ (extent_of c)); [done..|].
    apply Forall_fmap, Forall_forall. intros d [Hud Hd]%list_elem_of_filter.
    apply list_elem_of_lookup in Hd as [j Hj]. apply lookup_take_Some in Hj as [Hj Hlt].
    by apply (Hfirst j d).
  - destruct Hf as [-> Hno]. apply p_free_refused, Forall_fmap, Forall_forall.
    intros d [Hud Hd]%list_elem_of_filter. by apply (Hno d).
Qed.

Lemma claim_keeps_promise method_id words :
  Forall is_u64 words -> method_id <> METHOD_ALLOC -> method_id <> METHOD_FREE ->
  word words 0 + word words 1 < W64 ->
  let '(m', ok) := claim_locked (word words 0) (word words 1) (word words 2) (mem_lock_acquire_wait m) in
  mem_wf m' /\ promise L (abs m) method_id words [bool_word ok] (abs m').
Proof.
  intros Hw Ha Hf Hn. pose proof (word_u64 words 0 Hw) as H0. pose proof (word_u64 words 1 Hw) as H1.
  unfold is_u64 in *.
  pose proof (claim_locked_spec (mem_lock_acquire_wait m) (word words 0) (word words 1) (word words 2)
    Hwf ltac:(lia) ltac:(lia) Hn) as Hc.
  destruct (claim_locked _ _ _ _) as [m1 [|]]; destruct Hc as (Hwf' & _ & Hc); (split; [done|]).
  - destruct Hc as (Hfit & _ & Hcl). destruct (abs_enter m m1 _ Hwf Hwf' Hcl eq_refl) as [Hleft ->].
    apply p_claim; [done..|]. by apply clear_fits.
  - destruct Hc as [-> Hno]. apply p_claim_refused; [done..|]. destruct Hno as [Hno|Hfull].
    + right. by intros ?%clear_fits.
    + left. by apply left_full.
Qed.
End exchange.

(** C7: every exchange with the memory manager, whether or not its answer fits
    the response buffer, is the one its contract [promise] prescribes on the
    abstract ledger: what is granted, where, what is refused and when, and the
    regions and the room that are left.  For claims whose end stays below
    2^64. *)
Theorem memory_manager_refines L method_id words cap m :
  layout_ok L -> mem_wf m -> request_ok method_id words ->
  let '(m', r) := memory_manager_handler L method_id words cap m in
  mem_wf m' /\ locked (g_lock m') = false /\
  exists resp, r = reply cap resp /\ promise L (abs m) method_id words resp (abs m').
Proof.
  intros HL Hwf [Hw Hnowrap]. unfold memory_manager_handler.
  destruct (method_id =? METHOD_ALLOC) eqn:Ea; bool_simp; [subst|].
  { pose proof (alloc_keeps_promise L m HL Hwf words Hw) as H.
    destruct (alloc_locked _ _ _ _) as [m1 r]. destruct H as [Hwf' Hp]. split_and!; [done..|]. by eexists. }
  destruct (method_id =? METHOD_FREE) eqn:Ef; bool_simp; [subst|].
  { pose proof (free_keeps_promise L m Hwf words) as H.
    destruct (free_locked _ _) as [m1 r]. destruct H as [Hwf' Hp]. split_and!; [done..|]. by eexists. }
  pose proof (claim_keeps_promise L m Hwf method_id words Hw Ea Ef (Hnowrap Ea Ef)) as H.
  destruct (claim_locked _ _ _ _) as [m1 r]. destruct H as [Hwf' Hp]. split_and!; [done..|]. by eexists.
Qed.

(** ** Boot *)

(** One pre-claim: well-formedness is kept, and so is the freedom of any
    range the new region stays clear of. *)
Lemma claim__spec base size kind m :
  mem_wf m -> 0 <= base -> 0 <= size -> base + size < W64 ->
  mem_wf (claim_ base size kind m) /\
  forall x n, fits m x n -> apart x n base size -> fits (claim_ base size kind m) x n.
Proof.
  intros Hwf Hb Hs He. unfold claim_.
  pose proof (claim_locked_spec m base size kind Hwf Hb Hs He) as Hc.
  destruct (claim_locked _ _ _ _) as [m1 [|]]; destruct Hc as (Hwf' & _ & Hc); (split; [done|]).
  - destruct Hc as (_ & _ & Hcl). intros x n Hf Ha c Hlive.
    apply (live_snoc m m1 _ c Hcl eq_refl) in Hlive as [Hlive| ->]; [by apply Hf|done].
  - destruct Hc as [-> _]. auto.
Qed.

Definition boot_layout (L : layout) : Prop :=
  L = layout_x86_64 \/ exists ram, 0 <= ram /\ ram + 0x20000000 < W64 /\ L = layout_aarch64 ram.

Lemma boot_layout_ok L : boot_layout L -> layout_ok L.
Proof. intros [->|(ram & ? & ? & ->)]; unfold layout_ok, W64 in *; simpl; lia. Qed.

Lemma mem_wf_empty m :
  length (g_claims m) = MAX_CLAIMS -> g_claim_count m = 0%nat -> mem_wf m /\ forall x n, fits m x n.
Proof.
  intros Hl Hc. assert (claims m = []) as Hnil by (unfold claims; by rewrite Hc).
  split.
  - split_and!; [done|lia| |].
    + intros c [Hin _]. rewrite Hnil in Hin. by apply not_elem_of_nil in Hin.
    + intros i j c d Hi. by rewrite Hnil in Hi.
  - intros x n c [Hin _]. rewrite Hnil in Hin. by apply not_elem_of_nil in Hin.
Qed.

Lemma init_ok L phys info m :
  boot_layout L -> length (g_claims m) = MAX_CLAIMS ->
  (forall d base len, info = Some d -> boot_region phys d = Some (base, len) ->
     0 <= base /\ 0 <= len /\ base + len < W64 /\
     apart (ALLOC_MIN L) (ALLOC_MAX L - ALLOC_MIN L) base len) ->
  let m' := memory_manager_init_schema L phys info m in
  mem_wf m' /\ locked (g_lock m') = false /\
  fits m' (ALLOC_MIN L) (ALLOC_MAX L - ALLOC_MIN L).
Proof.
  intros HL Hlen Hinfo. unfold memory_manager_init_schema.
  set (m0 := mem_lock_acquire_wait _).
  destruct (mem_wf_empty m0 Hlen eq_refl) as [Hwf Hfits].
  set (win := fun m => mem_wf m /\ fits m (ALLOC_MIN L) (ALLOC_MAX L - ALLOC_MIN L)).
  assert (win m0) as Hwin by (split; auto). clear Hwf Hfits. clearbody m0.
  assert (forall b s k m, 0 <= b -> 0 <= s -> b + s < W64 ->
    apart (ALLOC_MIN L) (ALLOC_MAX L - ALLOC_MIN L) b s -> win m -> win (claim_ b s k m)) as Hstep.
  { intros b s k m1 ? ? ? ? [Hw Hf]. destruct (claim__spec b s k m1 Hw) as [? ?]; [done..|].
    split; auto. }
  enough (forall m1, win m1 -> mem_wf (mem_lock_release m1) /\ locked (g_lock (mem_lock_release m1)) = false /\
    fits (mem_lock_release m1) (ALLOC_MIN L) (ALLOC_MAX L - ALLOC_MIN L)) as Hend.
  { apply Hend.
    destruct HL as [->|(ram & Hr & HR & ->)]; unfold apart, W64, CORE_MAILBOX_OFFSET, CORE_MAILBOX_SIZE in *;
      simpl in *; repeat (apply Hstep; [simpl; lia..|]).
    all: destruct info as [d|]; [destruct (boot_region phys d) as [[base len]|] eqn:Hb|];
      [destruct (Hinfo d base len) as (? & ? & ? & ?); [done..|]; apply Hstep; [simpl in *; lia..|] | |].
    all: repeat (apply Hstep; [unfold CORE_MAILBOX_OFFSET; simpl; lia..|]); done. }
  intros m1 [Hw Hf]. by split_and!.
Qed.

(** after boot the ledger is well formed, its lock is free and the
    allocatable window is entirely free. *)
Theorem memory_manager_init_ok L phys info m :
  boot_layout L -> length (g_claims m) = MAX_CLAIMS ->
  (forall d base len, info = Some d -> boot_region phys d = Some (base, len) ->
     0 <= base /\ 0 <= len /\ base + len < W64 /\
     apart (ALLOC_MIN L) (ALLOC_MAX L - ALLOC_MIN L) base len) ->
  let m' := memory_manager_init_schema L phys info m in
  mem_wf m' /\ locked (g_lock m') = false /\
  forall size, 0 <= size <= ALLOC_MAX L - ALLOC_MIN L -> feasible L m' size (ALLOC_MIN L).
Proof.
  intros HL Hlen Hinfo m'. destruct (init_ok L phys info m HL Hlen Hinfo) as (Hwf & Hlock & Hf).
  split; [done|split; [done|]]. intros size Hs. split_and!; [lia|lia|].
  intros c Hc. specialize (Hf c Hc). unfold apart in *.
  destruct Hwf as (_ & _ & Hok & _). destruct (Hok c Hc) as (? & ? & _). lia.
Qed.

(** The state the x86-64 port boots into when the loader passes no
    InitDescription. *)
Definition mem_boot : mem_mgr :=
  memory_manager_init_schema layout_x86_64 (fun _ => 0) None
    {| g_claims := replicate MAX_CLAIMS inhabitant; g_claim_count := 0; g_lock := trylock_init |}.

Lemma mem_boot_wf : mem_wf mem_boot.
Proof. apply init_ok; [by left|done|done]. Qed.

Lemma x86_layout_ok : layout_ok layout_x86_64.
Proof. apply boot_layout_ok. by left. Qed.

Lemma mem_boot_nonempty c : live mem_boot c -> 0 < c_size c.
Proof.
  intros [Hc _]. revert c Hc. apply Forall_forall.
  assert (forallb (fun c => 0 <? c_size c) (claims mem_boot) = true) as H by (vm_compute; reflexivity).
  apply Forall_forall. intros c Hc. apply list_elem_of_In in Hc.
  by apply Z.ltb_lt, (proj1 (forallb_forall _ _) H).
Qed.

Lemma memory_manager_init_ok_witness :
  let m' := memory_manager_init_schema (layout_aarch64 0x40000000) (fun _ => 0) (Some 0x41880000)
    {| g_claims := replicate MAX_CLAIMS inhabitant; g_claim_count := 0; g_lock := trylock_init |} in
  mem_wf m' /\ locked (g_lock m') = false /\
  forall size, 0 <= size <= 0x4000000 -> feasible (layout_aarch64 0x40000000) m' size 0x54000000.
Proof.
  apply (memory_manager_init_ok (layout_aarch64 0x40000000)).
  - right. exists 0x40000000. split_and!; done.
  - reflexivity.
  - intros d base len [= <-] H. vm_compute in H. discriminate H.
Defined.

Lemma memory_manager_refines_witness :
  let words := [0x5000000; 0x400000; MEM_KIND_CORE_REGION] in
  let '(m', r) := memory_manager_handler layout_x86_64 METHOD_CLAIM words 24 mem_boot in
  mem_wf m' /\ locked (g_lock m') = false /\
  exists resp, r = reply 24 resp /\ promise layout_x86_64 (abs mem_boot) METHOD_CLAIM words resp (abs m').
Proof.
  apply (memory_manager_refines layout_x86_64 METHOD_CLAIM [0x5000000; 0x400000; MEM_KIND_CORE_REGION] 24 mem_boot
    x86_layout_ok mem_boot_wf).
  split; [|reflexivity]. repeat constructor; discriminate.
Defined.

(** ** First fit and round trip, as the clients see them *)

(** [alloc_locked] returns [b] exactly when the ledger has a slot left and
    [b] is the lowest address of the window at which the request fits. *)
Theorem alloc_locked_first_fit L m size kind b :
  layout_ok L -> mem_wf m -> is_u64 size ->
  snd (alloc_locked L size kind m) = Some b <->
  (g_claim_count m < MAX_CLAIMS)%nat /\ feasible L m size b /\
  forall b', feasible L m size b' -> b <= b'.
Proof.
  intros HL Hwf Hsz. pose proof (alloc_locked_spec L m size kind HL Hwf Hsz) as Ha.
  pose proof (alloc_search_full L size kind (sort_candidates (alloc_candidates L m)) m) as Hfull.
  unfold alloc_locked in *. destruct (alloc_search _ _ _ _ _) as [m' [b0|]]; simpl.
  - destruct Ha as (_ & Hfe & Hleast & _). split.
    + intros [= <-]. split; [|done]. destruct Hwf as (_ & Hcnt & _).
      destruct (decide (g_claim_count m = MAX_CLAIMS)) as [E|]; [by specialize (Hfull E)|lia].
    + intros (_ & Hfb & Hlb). f_equal. apply Z.le_antisymm; auto.
  - destruct Ha as (_ & -> & [E|Hno]); (split; [done|]); intros (? & Hfb & _); [lia|].
    by apply Hno in Hfb.
Qed.

Lemma alloc_locked_first_fit_witness :
  snd (alloc_locked layout_x86_64 0x1000 MEM_KIND_JOB_SLICE mem_boot) = Some 0x1C00000 /\
  (g_claim_count mem_boot < MAX_CLAIMS)%nat /\ feasible layout_x86_64 mem_boot 0x1000 0x1C00000 /\
  forall b', feasible layout_x86_64 mem_boot 0x1000 b' -> 0x1C00000 <= b'.
Proof.
  assert (snd (alloc_locked layout_x86_64 0x1000 MEM_KIND_JOB_SLICE mem_boot) = Some 0x1C00000) as Hr
    by (vm_compute; reflexivity).
  split; [exact Hr|].
  apply (alloc_locked_first_fit layout_x86_64 mem_boot 0x1000 MEM_KIND_JOB_SLICE 0x1C00000
    x86_layout_ok mem_boot_wf ltac:(by split)). exact Hr.
Defined.

(** an ALLOC message answered with a base, followed by a FREE message for
    that base, is answered with success and leaves the live claims as they
    were. *)
Theorem alloc_free_roundtrip L m size kind m' b :
  layout_ok L -> mem_wf m -> is_u64 size -> 0 < size -> (forall c, live m c -> 0 < c_size c) ->
  memory_manager_handler L METHOD_ALLOC [size; kind] 40 m = (m', Some [1; b]) ->
  let '(m'', r) := memory_manager_handler L METHOD_FREE [b] 24 m' in
  r = Some [1] /\ forall c, live m'' c <-> live m c.
Proof.
  intros HL Hwf Hsz Hpos Hne. unfold memory_manager_handler. cbn [Z.eqb METHOD_ALLOC METHOD_FREE Pos.eqb].
  change (word [size; kind] 0) with size. change (word [size; kind] 1) with kind.
  destruct (alloc_locked L size kind (mem_lock_acquire_wait m)) as [m1 [b1|]] eqn:Ha; [|done].
  intros [= <- ->]. change (word [b] 0) with b.
  pose proof (alloc_then_free L (mem_lock_acquire_wait m) size kind m1 b HL Hwf Hsz Hpos Hne Ha) as H.
  unfold mem_lock_acquire_wait, mem_lock_release. rewrite !free_locked_relock.
  destruct (free_locked b m1) as [m2 ok]. destruct H as [-> Hl]. split; [done|]. exact Hl.
Qed.

Lemma alloc_free_roundtrip_witness :
  let '(m', r) := memory_manager_handler layout_x86_64 METHOD_ALLOC [0x1000; MEM_KIND_JOB_SLICE] 40 mem_boot in
  let '(m'', r') := memory_manager_handler layout_x86_64 METHOD_FREE [0x1C00000] 24 m' in
  r' = Some [1] /\ forall c, live m'' c <-> live mem_boot c.
Proof.
  assert (snd (memory_manager_handler layout_x86_64 METHOD_ALLOC [0x1000; MEM_KIND_JOB_SLICE] 40 mem_boot)
    = Some [1; 0x1C00000]) as Hr by (vm_compute; reflexivity).
  destruct (memory_manager_handler _ METHOD_ALLOC _ _ _) as [m' r] eqn:Ha. simpl in Hr. subst r.
  exact (alloc_free_roundtrip layout_x86_64 mem_boot 0x1000 MEM_KIND_JOB_SLICE m' 0x1C00000
    x86_layout_ok mem_boot_wf ltac:(by split) ltac:(reflexivity) mem_boot_nonempty Ha).
Defined.

(** ** Two limits of the ledger *)

(** Allocate a page, free it again. *)
Definition churn (L : layout) (m : mem_mgr) : mem_mgr :=
  match alloc_locked L 0x1000 MEM_KIND_JOB_SLICE m with
  | (m, Some b) => fst (free_locked b m)
  | (m, None) => m
  end.

(** freeing clears a slot's flag but never gives the slot back. *)
Theorem freed_slots_are_never_reused :
  let m := Nat.iter 59 (churn layout_x86_64) mem_boot in
  mem_wf m /\ (forall c, live m c <-> live mem_boot c) /\
  feasible layout_x86_64 m 0x1000 (ALLOC_MIN layout_x86_64) /\
  alloc_locked layout_x86_64 0x1000 MEM_KIND_JOB_SLICE m = (m, None).
Proof.
  set (P := fun m => mem_wf m /\ forall c, live m c <-> live mem_boot c).
  assert (forall n, P (Nat.iter n (churn layout_x86_64) mem_boot)) as HP.
  { intros n. induction n as [|n [Hwf Hl]]; [split; [apply mem_boot_wf|done]|].
    cbn [Nat.iter nat_rect]. set (m := Nat.iter n (churn layout_x86_64) mem_boot) in *.
    change (P (churn layout_x86_64 m)). unfold churn.
    pose proof (alloc_locked_spec layout_x86_64 m 0x1000 MEM_KIND_JOB_SLICE x86_layout_ok Hwf ltac:(by split)) as Ha.
    destruct (alloc_locked _ _ _ _) as [m1 [b|]] eqn:Hm1; [|by destruct Ha as (? & -> & _)].
    pose proof (alloc_then_free layout_x86_64 m 0x1000 MEM_KIND_JOB_SLICE m1 b x86_layout_ok Hwf
      ltac:(by split) ltac:(done) (fun c Hc => mem_boot_nonempty c (proj1 (Hl c) Hc)) Hm1) as Hrt.
    pose proof (free_locked_spec m1 b (proj1 Ha)) as Hf.
    destruct (free_locked b m1) as [m2 ok]. destruct Hrt as [-> Hrt]. split; [apply Hf|].
    intros c. simpl. by rewrite Hrt. }
  intros m. destruct (HP 59%nat) as [Hwf Hl]. fold m in Hwf, Hl. clear HP.
  split; [done|split; [done|split]].
  - split; [done|split; [done|]]. intros c Hc%Hl. revert c Hc.
    intros c Hc. destruct (init_ok layout_x86_64 (fun _ => 0) None
      {| g_claims := replicate MAX_CLAIMS inhabitant; g_claim_count := 0; g_lock := trylock_init |}) as (_ & _ & Hf);
      [by left|done|done|]. specialize (Hf c Hc). unfold apart in *. simpl in *.
    destruct mem_boot_wf as (_ & _ & Hok & _). destruct (Hok c Hc) as (? & ? & _). lia.
  - apply alloc_search_full. vm_compute. reflexivity.
Qed.

(** the overlap test of [claim_locked] compares wrapped ends: a range
    that ends exactly at 2^64 passes it whatever is live. *)
Theorem claim_to_the_top_always_accepted m base kind :
  mem_wf m -> 0 < base < W64 -> (g_claim_count m < MAX_CLAIMS)%nat ->
  exists m', claim_locked base (W64 - base) kind m = (m', true) /\
    forall c, live m c -> base <= c_base c -> 0 < c_size c ->
      ~ apart base (W64 - base) (c_base c) (c_size c) /\ live m' c.
Proof.
  intros Hwf Hb Hcnt. unfold claim_locked.
  replace (base +64 (W64 - base)) with 0 by (unfold u64; by rewrite Zplus_minus, Z.mod_same).
  assert (existsb (overlaps_claim base 0) (claims m) = false) as ->.
  { apply not_true_iff_false. intros (c & Hc%list_elem_of_In & Ho)%existsb_exists.
    unfold overlaps_claim in Ho. bool_simp.
    destruct Hwf as (_ & _ & Hok & _). destruct (Hok c) as (? & _); [by split|]. lia. }
  apply Nat.leb_gt in Hcnt as Hc'. rewrite Hc'. eexists. split; [reflexivity|].
  intros c Hc Hge Hpos. split.
  - destruct Hwf as (_ & _ & Hok & _). destruct (Hok c Hc) as (? & ? & ?). unfold apart, c_end in *. lia.
  - apply (live_snoc m _ {| c_base := base; c_size := W64 - base; c_kind := kind; c_used := true |});
      [by apply claims_after | done | by left].
Qed.

Lemma claim_to_the_top_always_accepted_witness :
  exists m', claim_locked 0xFEC00000 (W64 - 0xFEC00000) MEM_KIND_CORE_REGION mem_boot = (m', true) /\
    let lapic := {| c_base := 0xFEE00000; c_size := 0x1000; c_kind := MEM_KIND_MMIO; c_used := true |} in
    ~ apart 0xFEC00000 (W64 - 0xFEC00000) 0xFEE00000 0x1000 /\ live m' lapic.
Proof.
  destruct (claim_to_the_top_always_accepted mem_boot 0xFEC00000 MEM_KIND_CORE_REGION
    mem_boot_wf ltac:(by split) ltac:(apply Nat.ltb_lt; vm_compute; reflexivity)) as (m' & Hm & Hlive).
  exists m'. split; [exact Hm|]. intros lapic.
  apply (Hlive lapic); [|discriminate|reflexivity].
  split; [|reflexivity]. left.
Defined.
