(* ===== verification/Objects.v ===== *)
(** * The scheduler's objects (coreinit/cluster_scheduler.c)

    The four kinds of objects cluster_scheduler.c creates, each with its data
    record and its message handler: resources, nodes, mutexes, jobs.  A
    handler maps the object's data, a method and the request's data words to
    the new data and the reply ([None] when [*out_response_len] stays 0).
    [__sync_bool_compare_and_swap] is a test and a store in one step, so a
    handler call is one atomic step of the object, and a list of calls is an
    interleaving of the requests of all cores. *)

From S2P Require Import Prelude Capnp Kernel.

(** ** Resources *)

Definition RESOURCE_KIND_NONE : Z := 0xFFFFFFFFFFFFFFFF.
Definition RESOURCE_KIND_MEMORY : Z := 0.
Definition RESOURCE_KIND_CPU_CORE : Z := 1.
Definition RESOURCE_KIND_PERIPHERAL : Z := 2.
Definition RESOURCE_KIND_MMU : Z := 3.

Definition RESOURCE_SYNC_TRANSFER : Z := 0.
Definition RESOURCE_SYNC_STREAM : Z := 1.
Definition RESOURCE_SYNC_COW : Z := 2.

Definition NODE_AFFINITY_ANY : Z := 0xFFFFFFFFFFFFFFFF.

Definition RESOURCE_METHOD_GET_INFO : Z := 0.
Definition RESOURCE_METHOD_RESERVE : Z := 1.
Definition RESOURCE_METHOD_RELEASE_RESERVATION : Z := 2.
Definition RESOURCE_METHOD_REASSIGN : Z := 3.

Record resource_data_t := {
  r_owner_node : Z;
  r_kind : Z;
  r_descriptor : Z;
  r_capacity : Z;
  r_reserved_by : Z;
  r_sync_kind : Z
}.

#[global] Instance resource_inhabited : Inhabited resource_data_t :=
  populate {| r_owner_node := 0; r_kind := 0; r_descriptor := 0; r_capacity := 0;
              r_reserved_by := 0; r_sync_kind := 0 |}.

Definition set_reserved_by (j : Z) (r : resource_data_t) : resource_data_t :=
  {| r_owner_node := r_owner_node r; r_kind := r_kind r; r_descriptor := r_descriptor r;
     r_capacity := r_capacity r; r_reserved_by := j; r_sync_kind := r_sync_kind r |}.

Definition set_owner_node (n : Z) (r : resource_data_t) : resource_data_t :=
  {| r_owner_node := n; r_kind := r_kind r; r_descriptor := r_descriptor r;
     r_capacity := r_capacity r; r_reserved_by := r_reserved_by r; r_sync_kind := r_sync_kind r |}.

Definition resource_handler (r : resource_data_t) (method_id : Z) (words : list Z)
    (response_cap : Z) : resource_data_t * option (list Z) :=
  if method_id =? RESOURCE_METHOD_GET_INFO then
    (r, reply response_cap [r_owner_node r; r_kind r; r_descriptor r;
                            r_capacity r; r_sync_kind r; r_reserved_by r])
  else if method_id =? RESOURCE_METHOD_RESERVE then
    let requesting_job := word words 0 in
    if r_reserved_by r =? requesting_job then (r, reply response_cap [1])
    else if r_reserved_by r =? 0   (* compare-and-swap 0 -> requesting_job *)
    then (set_reserved_by requesting_job r, reply response_cap [1])
    else (r, reply response_cap [0])
  else if method_id =? RESOURCE_METHOD_RELEASE_RESERVATION then
    let requesting_job := word words 0 in
    if r_reserved_by r =? requesting_job   (* compare-and-swap requesting_job -> 0 *)
    then (set_reserved_by 0 r, reply response_cap [1])
    else (r, reply response_cap [0])
  else if method_id =? RESOURCE_METHOD_REASSIGN then
    let new_owner_node := word words 0 in
    if r_reserved_by r =? 0
    then (set_owner_node new_owner_node r, reply response_cap [1])
    else (r, reply response_cap [0])
  else (r, None).

(** ** Nodes *)

Definition NODE_METHOD_GET_INFO : Z := 0.
Definition NODE_METHOD_SIGNAL : Z := 1.

Record node_data_t := { n_node_id : Z; n_arch : Z; n_signal_target : Z }.

#[global] Instance node_inhabited : Inhabited node_data_t :=
  populate {| n_node_id := 0; n_arch := 0; n_signal_target := 0 |}.

(** The second component is the target of a [cross_core_signal_send], if the
    call makes one. *)
Definition node_handler (n : node_data_t) (method_id : Z) (response_cap : Z)
    : option (list Z) * option Z :=
  if method_id =? NODE_METHOD_GET_INFO then (reply response_cap [n_node_id n; n_arch n], None)
  else if method_id =? NODE_METHOD_SIGNAL then (None, Some (n_signal_target n))
  else (None, None).

(** ** Mutexes *)

Definition MUTEX_METHOD_TRY_LOCK : Z := 0.
Definition MUTEX_METHOD_UNLOCK : Z := 1.

Record mutex_data_t := { m_locked : bool; m_holder_job_id : Z }.

#[global] Instance mutex_inhabited : Inhabited mutex_data_t :=
  populate {| m_locked := false; m_holder_job_id := 0 |}.

Definition mutex_handler (m : mutex_data_t) (method_id : Z) (words : list Z)
    (response_cap : Z) : mutex_data_t * option (list Z) :=
  if method_id =? MUTEX_METHOD_TRY_LOCK then
    let requesting_job_id := word words 0 in
    if negb (m_locked m)
    then ({| m_locked := true; m_holder_job_id := requesting_job_id |},
          reply response_cap [1; requesting_job_id])
    else (m, reply response_cap [0; m_holder_job_id m])
  else if method_id =? MUTEX_METHOD_UNLOCK then
    let requesting_job_id := word words 0 in
    if m_locked m && (m_holder_job_id m =? requesting_job_id)
    then ({| m_locked := false; m_holder_job_id := m_holder_job_id m |}, reply response_cap [1])
    else (m, reply response_cap [0])
  else (m, None).

(** ** Jobs *)

(** [block_kind_t] *)
Definition BLOCK_NONE : Z := 0.
Definition BLOCK_MUTEX : Z := 1.
Definition BLOCK_JOB : Z := 2.

Definition JOB_METHOD_GET_INFO : Z := 0.
Definition JOB_METHOD_UPDATE_SCHEDULING_STATE : Z := 1.

Record job_data_t := {
  j_type : Z;                    (* job_type_t *)
  j_arg0 : Z;
  j_arg1 : Z;
  j_base_priority : Z;           (* int *)
  j_effective_priority : Z;      (* int *)
  j_node_affinity : Z;
  j_assigned_node : Z;
  j_resource_id : Z;
  j_resource_kind : Z;
  j_resource_min_capacity : Z;
  j_bound_resource_id : Z;
  j_blocked : Z;                 (* int *)
  j_block_kind : Z;              (* block_kind_t *)
  j_block_id : Z;
  j_dispatched : bool
}.

#[global] Instance job_inhabited : Inhabited job_data_t :=
  populate {| j_type := 0; j_arg0 := 0; j_arg1 := 0; j_base_priority := 0;
    j_effective_priority := 0; j_node_affinity := 0; j_assigned_node := 0;
    j_resource_id := 0; j_resource_kind := 0; j_resource_min_capacity := 0;
    j_bound_resource_id := 0; j_blocked := 0; j_block_kind := 0; j_block_id := 0;
    j_dispatched := false |}.

(** The scheduling fields of a job change together or one at a time; [with_sched]
    rewrites them and keeps the rest. *)
Definition with_sched (assigned bound blocked block_kind block_id prio : Z) (dispatched : bool)
    (j : job_data_t) : job_data_t :=
  {| j_type := j_type j; j_arg0 := j_arg0 j; j_arg1 := j_arg1 j;
     j_base_priority := j_base_priority j; j_effective_priority := prio;
     j_node_affinity := j_node_affinity j; j_assigned_node := assigned;
     j_resource_id := j_resource_id j; j_resource_kind := j_resource_kind j;
     j_resource_min_capacity := j_resource_min_capacity j;
     j_bound_resource_id := bound; j_blocked := blocked; j_block_kind := block_kind;
     j_block_id := block_id; j_dispatched := dispatched |}.

Definition set_assigned_node (n : Z) (j : job_data_t) : job_data_t :=
  with_sched n (j_bound_resource_id j) (j_blocked j) (j_block_kind j) (j_block_id j)
    (j_effective_priority j) (j_dispatched j) j.
Definition set_bound_resource (b : Z) (j : job_data_t) : job_data_t :=
  with_sched (j_assigned_node j) b (j_blocked j) (j_block_kind j) (j_block_id j)
    (j_effective_priority j) (j_dispatched j) j.
Definition set_block (blocked kind id : Z) (j : job_data_t) : job_data_t :=
  with_sched (j_assigned_node j) (j_bound_resource_id j) blocked kind id
    (j_effective_priority j) (j_dispatched j) j.
Definition set_effective_priority (p : Z) (j : job_data_t) : job_data_t :=
  with_sched (j_assigned_node j) (j_bound_resource_id j) (j_blocked j) (j_block_kind j) (j_block_id j)
    p (j_dispatched j) j.
Definition set_dispatched (d : bool) (j : job_data_t) : job_data_t :=
  with_sched (j_assigned_node j) (j_bound_resource_id j) (j_blocked j) (j_block_kind j) (j_block_id j)
    (j_effective_priority j) d j.

Definition job_handler (j : job_data_t) (method_id : Z) (words : list Z)
    (response_cap : Z) : job_data_t * option (list Z) :=
  if method_id =? JOB_METHOD_GET_INFO then
    (j, reply response_cap
          [j_type j; j_arg0 j; j_arg1 j; u64 (j_base_priority j); u64 (j_effective_priority j);
           j_node_affinity j; j_assigned_node j; j_resource_id j; j_resource_kind j;
           j_resource_min_capacity j; j_bound_resource_id j; u64 (j_blocked j);
           j_block_kind j; j_block_id j])
  else if method_id =? JOB_METHOD_UPDATE_SCHEDULING_STATE then
    (with_sched (word words 0) (word words 1) (to_int (word words 2)) (u32 (word words 3))
       (word words 4) (to_int (word words 5)) (j_dispatched j) j,
     reply response_cap [1])
  else (j, None).

(** ** A resource is an owner lock

    Runs of requests against one resource or mutex, in the order the atomic
    steps take effect. *)

Fixpoint resource_run (r : resource_data_t) (reqs : list (Z * list Z)) : resource_data_t * list (option (list Z)) :=
  match reqs with
  | [] => (r, [])
  | (m, ws) :: reqs =>
      let '(r1, a) := resource_handler r m ws 64 in
      let '(r2, rest) := resource_run r1 reqs in (r2, a :: rest)
  end.

(** While job [j] holds the resource and does not release it. *)
Definition not_released_by (j : Z) (req : Z * list Z) : Prop :=
  ~ (req.1 = RESOURCE_METHOD_RELEASE_RESERVATION /\ word req.2 0 = j).

Lemma resource_step_held r j m ws cap :
  r_reserved_by r = j -> j <> 0 -> not_released_by j (m, ws) ->
  let '(r', a) := resource_handler r m ws cap in
  r_reserved_by r' = j /\ r_owner_node r' = r_owner_node r /\
  (m = RESOURCE_METHOD_RESERVE -> word ws 0 <> j -> a = reply cap [0]) /\
  (m = RESOURCE_METHOD_REASSIGN -> a = reply cap [0]).
Proof.
  intros Hr Hj Hn. unfold resource_handler, not_released_by in *. simpl in Hn.
  unfold RESOURCE_METHOD_GET_INFO, RESOURCE_METHOD_RESERVE,
    RESOURCE_METHOD_RELEASE_RESERVATION, RESOURCE_METHOD_REASSIGN in *.
  repeat case_cond; simpl; subst; split_and!; intros; try done; try lia; tauto.
Qed.

(** mutual exclusion on a resource.  Whatever requests arrive, in whatever
    order, from the moment job [j] holds a resource until [j] itself releases
    it: [j] stays the holder, the owner node does not change, every
    reservation by another job and every reassignment is refused. *)
Theorem resource_reservation_exclusive r j reqs :
  r_reserved_by r = j -> j <> 0 -> Forall (not_released_by j) reqs ->
  let '(r', answers) := resource_run r reqs in
  r_reserved_by r' = j /\ r_owner_node r' = r_owner_node r /\
  Forall2 (fun req a =>
    (req.1 = RESOURCE_METHOD_RESERVE /\ word req.2 0 <> j \/ req.1 = RESOURCE_METHOD_REASSIGN) ->
    a = Some [0]) reqs answers.
Proof.
  intros Hr Hj Hall. revert r Hr. induction Hall as [|[m ws] reqs Hn _ IH]; intros r Hr; simpl.
  - split_and!; [done..|constructor].
  - pose proof (resource_step_held r j m ws 64 Hr Hj Hn) as Hs.
    destruct (resource_handler r m ws 64) as [r1 a]. destruct Hs as (Hr1 & Ho & Hres & Hre).
    specialize (IH r1 Hr1). destruct (resource_run r1 reqs) as [r2 rest].
    destruct IH as (? & ? & ?). split_and!; [done|congruence|]. constructor; [|done].
    simpl. intros [[-> ?]| ->]; [by apply Hres|by apply Hre].
Qed.

Lemma resource_reservation_exclusive_witness :
  let r := {| r_owner_node := 1; r_kind := RESOURCE_KIND_PERIPHERAL; r_descriptor := 9; r_capacity := 0;
              r_reserved_by := 77; r_sync_kind := RESOURCE_SYNC_TRANSFER |} in
  let reqs := [(RESOURCE_METHOD_RESERVE, [78]); (RESOURCE_METHOD_RELEASE_RESERVATION, [78]);
               (RESOURCE_METHOD_REASSIGN, [2]); (RESOURCE_METHOD_RESERVE, [77])] in
  snd (resource_run r reqs) = [Some [0]; Some [0]; Some [0]; Some [1]] /\
  let '(r', answers) := resource_run r reqs in
  r_reserved_by r' = 77 /\ r_owner_node r' = 1 /\
  Forall2 (fun req a =>
    (req.1 = RESOURCE_METHOD_RESERVE /\ word req.2 0 <> 77 \/ req.1 = RESOURCE_METHOD_REASSIGN) ->
    a = Some [0]) reqs answers.
Proof.
  intros r reqs. split; [reflexivity|].
  apply (resource_reservation_exclusive r 77 reqs); [reflexivity|discriminate|].
  repeat constructor; intros [? ?]; discriminate.
Defined.

(** ** A mutex likewise *)

Fixpoint mutex_run (m : mutex_data_t) (reqs : list (Z * list Z)) : mutex_data_t * list (option (list Z)) :=
  match reqs with
  | [] => (m, [])
  | (meth, ws) :: reqs =>
      let '(m1, a) := mutex_handler m meth ws 40 in
      let '(m2, rest) := mutex_run m1 reqs in (m2, a :: rest)
  end.

(** from the moment job [j] holds a mutex until [j] unlocks it, [j] stays
    the holder, every TRY_LOCK (by [j] itself too) is refused naming [j] as
    the holder, and every UNLOCK by another job is refused. *)
Theorem mutex_exclusive m j reqs :
  m_locked m = true -> m_holder_job_id m = j ->
  Forall (fun req => ~ (req.1 = MUTEX_METHOD_UNLOCK /\ word req.2 0 = j)) reqs ->
  let '(m', answers) := mutex_run m reqs in
  m' = m /\
  Forall2 (fun req a =>
    (req.1 = MUTEX_METHOD_TRY_LOCK -> a = Some [0; j]) /\
    (req.1 = MUTEX_METHOD_UNLOCK -> a = Some [0])) reqs answers.
Proof.
  intros Hl Hh Hall. induction Hall as [|[meth ws] reqs Hn _ IH]; simpl; [by split|].
  assert (mutex_handler m meth ws 40 = (m,
    if meth =? MUTEX_METHOD_TRY_LOCK then Some [0; j]
    else if meth =? MUTEX_METHOD_UNLOCK then Some [0] else None)) as ->.
  { unfold mutex_handler. simpl in Hn. rewrite Hl. simpl. case_cond; [by rewrite Hh|].
    case_cond; [|done]. case_cond; [|done]. exfalso. apply Hn. split; congruence. }
  destruct (mutex_run m reqs) as [m2 rest]. destruct IH as [-> IH]. split; [done|].
  constructor; [|done]. simpl. split; intros ->; done.
Qed.

Lemma mutex_exclusive_witness :
  let m := {| m_locked := true; m_holder_job_id := 5 |} in
  let reqs := [(MUTEX_METHOD_TRY_LOCK, [6]); (MUTEX_METHOD_UNLOCK, [6])] in
  let '(m', answers) := mutex_run m reqs in
  m' = m /\
  Forall2 (fun req a =>
    (req.1 = MUTEX_METHOD_TRY_LOCK -> a = Some [0; 5]) /\
    (req.1 = MUTEX_METHOD_UNLOCK -> a = Some [0])) reqs answers.
Proof.
  intros m reqs. apply (mutex_exclusive m 5 reqs); [reflexivity..|].
  repeat constructor; intros [? ?]; discriminate.
Defined.

(** ** The job object's interface *)

(** what UPDATE_SCHEDULING_STATE stores, GET_INFO reports: the six words
    survive the conversions to [int] and [block_kind_t] and back. *)
Theorem job_update_get_info j assigned bound blocked block_kind block_id prio :
  is_int blocked -> is_int prio -> 0 <= block_kind < 4294967296 ->
  let words := [assigned; bound; u64 blocked; block_kind; block_id; u64 prio] in
  let '(j', a) := job_handler j JOB_METHOD_UPDATE_SCHEDULING_STATE words 24 in
  a = Some [1] /\ j_dispatched j' = j_dispatched j /\
  snd (job_handler j' JOB_METHOD_GET_INFO [0] 128) =
  Some [j_type j; j_arg0 j; j_arg1 j; u64 (j_base_priority j); u64 prio; j_node_affinity j; assigned;
        j_resource_id j; j_resource_kind j; j_resource_min_capacity j; bound; u64 blocked;
        block_kind; block_id].
Proof.
  intros Hb Hp Hk words. unfold job_handler. simpl. split_and!; [done..|].
  change (word words 2) with (u64 blocked). change (word words 5) with (u64 prio).
  change (word words 3) with block_kind.
  unfold reply. simpl. rewrite !to_int_u64 by done. unfold u32. by rewrite Z.mod_small.
Qed.

Lemma job_update_get_info_witness :
  let words := [3; 0; u64 1; BLOCK_MUTEX; 0; u64 (-7)] in
  let '(j', a) := job_handler inhabitant JOB_METHOD_UPDATE_SCHEDULING_STATE words 24 in
  a = Some [1] /\ j_dispatched j' = false /\
  snd (job_handler j' JOB_METHOD_GET_INFO [0] 128) =
  Some [0; 0; 0; 0; u64 (-7); 0; 3; 0; 0; 0; 0; 1; BLOCK_MUTEX; 0].
Proof.
  exact (job_update_get_info inhabitant 3 0 1 BLOCK_MUTEX 0 (-7)
    ltac:(by split) ltac:(by split) ltac:(by split)).
Defined.

