(* ===== verification/Cluster.v ===== *)
(** * The cluster scheduler (coreinit/cluster_scheduler.c)

    The whole file: its static state as one record, the discovery indices,
    object creation and destruction, the helpers over a resource's interface
    and one definition per message handler, up to
    [cluster_scheduler_handler].  A handler is a function of the request's
    data words, the reply buffer's size and the state.

    A capability is its handle, a [Z]; 0 is none.  A data pointer into a
    static pool is the slot's index.  [kernel_invoke] runs the handler of the
    object the kernel resolves the handle to; [other_reply] is the answer of
    an object that lives outside this file, were its handle passed here. *)

From stdpp Require Import gmap.
From S2P Require Import Prelude Capnp TryLock Kernel MemMgr Objects.

Definition MAX_NODES : nat := 16.
Definition MAX_ALLOC_RECORDS : nat := 32.
Definition MAX_MUTEXES : nat := 8.
Definition JOB_POOL_SIZE : nat := 32.
Definition RESOURCE_POOL_SIZE : nat := 128.
Definition MAX_RESOURCE_INDEX : nat := RESOURCE_POOL_SIZE.

(** ** State *)

Record resource_index_entry_t := { ri_handle : Z; ri_kind : Z; ri_used : bool }.
Record node_index_entry_t := { ni_handle : Z; ni_node_id : Z; ni_used : bool }.
Record completion_t := { cp_job_handle : Z; cp_value : Z; cp_used : bool }.
Record alloc_entry_t := { a_node_id : Z; a_base : Z; a_size : Z; a_kind : Z; a_used : bool }.

#[global] Instance resource_index_inhabited : Inhabited resource_index_entry_t :=
  populate {| ri_handle := 0; ri_kind := 0; ri_used := false |}.
#[global] Instance node_index_inhabited : Inhabited node_index_entry_t :=
  populate {| ni_handle := 0; ni_node_id := 0; ni_used := false |}.
#[global] Instance completion_inhabited : Inhabited completion_t :=
  populate {| cp_job_handle := 0; cp_value := 0; cp_used := false |}.
#[global] Instance alloc_inhabited : Inhabited alloc_entry_t :=
  populate {| a_node_id := 0; a_base := 0; a_size := 0; a_kind := 0; a_used := false |}.

Record cstate (K : Type) := mk_cstate {
  k : K;   (* the kernel's own state *)
  signals : list Z;   (* targets of cross_core_signal_send, latest first *)
  mem : mem_mgr;   (* the memory manager object's state *)
  g_resource_storage : list resource_data_t;   (* [RESOURCE_POOL_SIZE] *)
  g_resource_storage_next : Z;   (* size_t *)
  g_resource_index : list resource_index_entry_t;   (* [MAX_RESOURCE_INDEX] *)
  g_node_storage : list node_data_t;   (* [MAX_NODES] *)
  g_node_storage_next : Z;   (* size_t *)
  g_node_index : list node_index_entry_t;   (* [MAX_NODES] *)
  g_mutex_storage : list mutex_data_t;   (* [MAX_MUTEXES] *)
  g_mutex_handles : list Z;   (* [MAX_MUTEXES] *)
  g_job_storage : list job_data_t;   (* [JOB_POOL_SIZE] *)
  g_job_storage_used : list bool;   (* [JOB_POOL_SIZE] *)
  g_job_handles : list Z;   (* [JOB_POOL_SIZE] *)
  g_completions : list completion_t;   (* [JOB_POOL_SIZE] *)
  g_completion_next : Z;   (* size_t *)
  g_allocs : list alloc_entry_t;   (* [MAX_ALLOC_RECORDS] *)
  g_memory_manager : Z;   (* capability_t *)
  g_pool_resource : Z;   (* capability_t *)
  g_storage_lock : trylock_t
}.
#[global] Arguments mk_cstate {K}.
#[global] Arguments k {K} _.
#[global] Arguments signals {K} _.
#[global] Arguments mem {K} _.
#[global] Arguments g_resource_storage {K} _.
#[global] Arguments g_resource_storage_next {K} _.
#[global] Arguments g_resource_index {K} _.
#[global] Arguments g_node_storage {K} _.
#[global] Arguments g_node_storage_next {K} _.
#[global] Arguments g_node_index {K} _.
#[global] Arguments g_mutex_storage {K} _.
#[global] Arguments g_mutex_handles {K} _.
#[global] Arguments g_job_storage {K} _.
#[global] Arguments g_job_storage_used {K} _.
#[global] Arguments g_job_handles {K} _.
#[global] Arguments g_completions {K} _.
#[global] Arguments g_completion_next {K} _.
#[global] Arguments g_allocs {K} _.
#[global] Arguments g_memory_manager {K} _.
#[global] Arguments g_pool_resource {K} _.
#[global] Arguments g_storage_lock {K} _.

(** Field updates. *)
Definition set_k {K} (x : K) (st : cstate K) : cstate K :=
  mk_cstate x (signals st) (mem st) (g_resource_storage st) (g_resource_storage_next st) (g_resource_index st) (g_node_storage st) (g_node_storage_next st) (g_node_index st) (g_mutex_storage st) (g_mutex_handles st) (g_job_storage st) (g_job_storage_used st) (g_job_handles st) (g_completions st) (g_completion_next st) (g_allocs st) (g_memory_manager st) (g_pool_resource st) (g_storage_lock st).
Definition set_signals {K} (x : list Z) (st : cstate K) : cstate K :=
  mk_cstate (k st) x (mem st) (g_resource_storage st) (g_resource_storage_next st) (g_resource_index st) (g_node_storage st) (g_node_storage_next st) (g_node_index st) (g_mutex_storage st) (g_mutex_handles st) (g_job_storage st) (g_job_storage_used st) (g_job_handles st) (g_completions st) (g_completion_next st) (g_allocs st) (g_memory_manager st) (g_pool_resource st) (g_storage_lock st).
Definition set_mem {K} (x : mem_mgr) (st : cstate K) : cstate K :=
  mk_cstate (k st) (signals st) x (g_resource_storage st) (g_resource_storage_next st) (g_resource_index st) (g_node_storage st) (g_node_storage_next st) (g_node_index st) (g_mutex_storage st) (g_mutex_handles st) (g_job_storage st) (g_job_storage_used st) (g_job_handles st) (g_completions st) (g_completion_next st) (g_allocs st) (g_memory_manager st) (g_pool_resource st) (g_storage_lock st).
Definition set_g_resource_storage {K} (x : list resource_data_t) (st : cstate K) : cstate K :=
  mk_cstate (k st) (signals st) (mem st) x (g_resource_storage_next st) (g_resource_index st) (g_node_storage st) (g_node_storage_next st) (g_node_index st) (g_mutex_storage st) (g_mutex_handles st) (g_job_storage st) (g_job_storage_used st) (g_job_handles st) (g_completions st) (g_completion_next st) (g_allocs st) (g_memory_manager st) (g_pool_resource st) (g_storage_lock st).
Definition set_g_resource_storage_next {K} (x : Z) (st : cstate K) : cstate K :=
  mk_cstate (k st) (signals st) (mem st) (g_resource_storage st) x (g_resource_index st) (g_node_storage st) (g_node_storage_next st) (g_node_index st) (g_mutex_storage st) (g_mutex_handles st) (g_job_storage st) (g_job_storage_used st) (g_job_handles st) (g_completions st) (g_completion_next st) (g_allocs st) (g_memory_manager st) (g_pool_resource st) (g_storage_lock st).
Definition set_g_resource_index {K} (x : list resource_index_entry_t) (st : cstate K) : cstate K :=
  mk_cstate (k st) (signals st) (mem st) (g_resource_storage st) (g_resource_storage_next st) x (g_node_storage st) (g_node_storage_next st) (g_node_index st) (g_mutex_storage st) (g_mutex_handles st) (g_job_storage st) (g_job_storage_used st) (g_job_handles st) (g_completions st) (g_completion_next st) (g_allocs st) (g_memory_manager st) (g_pool_resource st) (g_storage_lock st).
Definition set_g_node_storage {K} (x : list node_data_t) (st : cstate K) : cstate K :=
  mk_cstate (k st) (signals st) (mem st) (g_resource_storage st) (g_resource_storage_next st) (g_resource_index st) x (g_node_storage_next st) (g_node_index st) (g_mutex_storage st) (g_mutex_handles st) (g_job_storage st) (g_job_storage_used st) (g_job_handles st) (g_completions st) (g_completion_next st) (g_allocs st) (g_memory_manager st) (g_pool_resource st) (g_storage_lock st).
Definition set_g_node_storage_next {K} (x : Z) (st : cstate K) : cstate K :=
  mk_cstate (k st) (signals st) (mem st) (g_resource_storage st) (g_resource_storage_next st) (g_resource_index st) (g_node_storage st) x (g_node_index st) (g_mutex_storage st) (g_mutex_handles st) (g_job_storage st) (g_job_storage_used st) (g_job_handles st) (g_completions st) (g_completion_next st) (g_allocs st) (g_memory_manager st) (g_pool_resource st) (g_storage_lock st).
Definition set_g_node_index {K} (x : list node_index_entry_t) (st : cstate K) : cstate K :=
  mk_cstate (k st) (signals st) (mem st) (g_resource_storage st) (g_resource_storage_next st) (g_resource_index st) (g_node_storage st) (g_node_storage_next st) x (g_mutex_storage st) (g_mutex_handles st) (g_job_storage st) (g_job_storage_used st) (g_job_handles st) (g_completions st) (g_completion_next st) (g_allocs st) (g_memory_manager st) (g_pool_resource st) (g_storage_lock st).
Definition set_g_mutex_storage {K} (x : list mutex_data_t) (st : cstate K) : cstate K :=
  mk_cstate (k st) (signals st) (mem st) (g_resource_storage st) (g_resource_storage_next st) (g_resource_index st) (g_node_storage st) (g_node_storage_next st) (g_node_index st) x (g_mutex_handles st) (g_job_storage st) (g_job_storage_used st) (g_job_handles st) (g_completions st) (g_completion_next st) (g_allocs st) (g_memory_manager st) (g_pool_resource st) (g_storage_lock st).
Definition set_g_mutex_handles {K} (x : list Z) (st : cstate K) : cstate K :=
  mk_cstate (k st) (signals st) (mem st) (g_resource_storage st) (g_resource_storage_next st) (g_resource_index st) (g_node_storage st) (g_node_storage_next st) (g_node_index st) (g_mutex_storage st) x (g_job_storage st) (g_job_storage_used st) (g_job_handles st) (g_completions st) (g_completion_next st) (g_allocs st) (g_memory_manager st) (g_pool_resource st) (g_storage_lock st).
Definition set_g_job_storage {K} (x : list job_data_t) (st : cstate K) : cstate K :=
  mk_cstate (k st) (signals st) (mem st) (g_resource_storage st) (g_resource_storage_next st) (g_resource_index st) (g_node_storage st) (g_node_storage_next st) (g_node_index st) (g_mutex_storage st) (g_mutex_handles st) x (g_job_storage_used st) (g_job_handles st) (g_completions st) (g_completion_next st) (g_allocs st) (g_memory_manager st) (g_pool_resource st) (g_storage_lock st).
Definition set_g_job_storage_used {K} (x : list bool) (st : cstate K) : cstate K :=
  mk_cstate (k st) (signals st) (mem st) (g_resource_storage st) (g_resource_storage_next st) (g_resource_index st) (g_node_storage st) (g_node_storage_next st) (g_node_index st) (g_mutex_storage st) (g_mutex_handles st) (g_job_storage st) x (g_job_handles st) (g_completions st) (g_completion_next st) (g_allocs st) (g_memory_manager st) (g_pool_resource st) (g_storage_lock st).
Definition set_g_job_handles {K} (x : list Z) (st : cstate K) : cstate K :=
  mk_cstate (k st) (signals st) (mem st) (g_resource_storage st) (g_resource_storage_next st) (g_resource_index st) (g_node_storage st) (g_node_storage_next st) (g_node_index st) (g_mutex_storage st) (g_mutex_handles st) (g_job_storage st) (g_job_storage_used st) x (g_completions st) (g_completion_next st) (g_allocs st) (g_memory_manager st) (g_pool_resource st) (g_storage_lock st).
Definition set_g_completions {K} (x : list completion_t) (st : cstate K) : cstate K :=
  mk_cstate (k st) (signals st) (mem st) (g_resource_storage st) (g_resource_storage_next st) (g_resource_index st) (g_node_storage st) (g_node_storage_next st) (g_node_index st) (g_mutex_storage st) (g_mutex_handles st) (g_job_storage st) (g_job_storage_used st) (g_job_handles st) x (g_completion_next st) (g_allocs st) (g_memory_manager st) (g_pool_resource st) (g_storage_lock st).
Definition set_g_completion_next {K} (x : Z) (st : cstate K) : cstate K :=
  mk_cstate (k st) (signals st) (mem st) (g_resource_storage st) (g_resource_storage_next st) (g_resource_index st) (g_node_storage st) (g_node_storage_next st) (g_node_index st) (g_mutex_storage st) (g_mutex_handles st) (g_job_storage st) (g_job_storage_used st) (g_job_handles st) (g_completions st) x (g_allocs st) (g_memory_manager st) (g_pool_resource st) (g_storage_lock st).
Definition set_g_allocs {K} (x : list alloc_entry_t) (st : cstate K) : cstate K :=
  mk_cstate (k st) (signals st) (mem st) (g_resource_storage st) (g_resource_storage_next st) (g_resource_index st) (g_node_storage st) (g_node_storage_next st) (g_node_index st) (g_mutex_storage st) (g_mutex_handles st) (g_job_storage st) (g_job_storage_used st) (g_job_handles st) (g_completions st) (g_completion_next st) x (g_memory_manager st) (g_pool_resource st) (g_storage_lock st).
Definition set_g_memory_manager {K} (x : Z) (st : cstate K) : cstate K :=
  mk_cstate (k st) (signals st) (mem st) (g_resource_storage st) (g_resource_storage_next st) (g_resource_index st) (g_node_storage st) (g_node_storage_next st) (g_node_index st) (g_mutex_storage st) (g_mutex_handles st) (g_job_storage st) (g_job_storage_used st) (g_job_handles st) (g_completions st) (g_completion_next st) (g_allocs st) x (g_pool_resource st) (g_storage_lock st).
Definition set_g_pool_resource {K} (x : Z) (st : cstate K) : cstate K :=
  mk_cstate (k st) (signals st) (mem st) (g_resource_storage st) (g_resource_storage_next st) (g_resource_index st) (g_node_storage st) (g_node_storage_next st) (g_node_index st) (g_mutex_storage st) (g_mutex_handles st) (g_job_storage st) (g_job_storage_used st) (g_job_handles st) (g_completions st) (g_completion_next st) (g_allocs st) (g_memory_manager st) x (g_storage_lock st).
Definition set_g_storage_lock {K} (x : trylock_t) (st : cstate K) : cstate K :=
  mk_cstate (k st) (signals st) (mem st) (g_resource_storage st) (g_resource_storage_next st) (g_resource_index st) (g_node_storage st) (g_node_storage_next st) (g_node_index st) (g_mutex_storage st) (g_mutex_handles st) (g_job_storage st) (g_job_storage_used st) (g_job_handles st) (g_completions st) (g_completion_next st) (g_allocs st) (g_memory_manager st) (g_pool_resource st) x.

Section cluster.
Context {K : Type} {HK : Kernel K}.
Context (L : layout).
Context (other_reply : nat -> Z -> list Z -> Z -> option (list Z)).
Implicit Types (st : cstate K).

(** ** The kernel's invoke

    The first result is [kernel_invoke]'s return value, the second the reply
    ([None]: nothing was written and the length stays 0).  A request is a
    message [capnp_build_flat] built, [None] when it did not fit its
    buffer. *)
Definition kernel_invoke (target method_id : Z) (msg : option (list Z)) (response_cap : Z) st
    : cstate K * (bool * option (list Z)) :=
  match msg with
  | None => (st, (false, None))
  | Some words =>
      match k_invoke (k st) target method_id (length words) with
      | None => (st, (false, None))
      | Some (OResource s) =>
          let '(r, a) := resource_handler (g_resource_storage st !!? s) method_id words response_cap in
          (set_g_resource_storage (<[s := r]> (g_resource_storage st)) st, (true, a))
      | Some (ONode s) =>
          let '(a, signal) := node_handler (g_node_storage st !!? s) method_id response_cap in
          (match signal with
           | Some target => set_signals (target :: signals st) st
           | None => st
           end, (true, a))
      | Some (OMutex s) =>
          let '(m, a) := mutex_handler (g_mutex_storage st !!? s) method_id words response_cap in
          (set_g_mutex_storage (<[s := m]> (g_mutex_storage st)) st, (true, a))
      | Some (OJob s) =>
          let '(j, a) := job_handler (g_job_storage st !!? s) method_id words response_cap in
          (set_g_job_storage (<[s := j]> (g_job_storage st)) st, (true, a))
      | Some OMemoryManager =>
          let '(m, a) := memory_manager_handler L method_id words response_cap (mem st) in
          (set_mem m st, (true, a))
      | Some (OOther i) => (st, (true, other_reply i method_id words response_cap))
      end
  end.

(** [factory.DESTROY(handle)]. *)
Definition factory_destroy (h : Z) st : cstate K := set_k (k_destroy h (k st)) st.

(** [factory.CREATE(handler, data, ...)], the handle of the reply or 0. *)
Definition factory_create (o : objref) st : cstate K * Z :=
  let '(k', r) := k_create o (k st) in (set_k k' st, default 0 r).

(** ** The storage lock *)

Definition storage_lock_acquire_wait st : cstate K := set_g_storage_lock {| locked := true |} st.
Definition storage_lock_release st : cstate K :=
  set_g_storage_lock (trylock_release (g_storage_lock st)) st.

(** ** Resources *)

Definition resource_index_claim (handle kind : Z) st : cstate K :=
  match first_index (fun e => negb (ri_used e)) (g_resource_index st) with
  | Some i =>
      set_g_resource_index
        (<[i := {| ri_handle := handle; ri_kind := kind; ri_used := true |}]> (g_resource_index st)) st
  | None => st
  end.

Definition create_resource_object (owner_node kind descriptor capacity sync_kind
    initial_reserved_by : Z) st : cstate K * Z :=
  let slot_index := g_resource_storage_next st in
  let st := set_g_resource_storage_next (slot_index +64 1) st in
  if Z.of_nat RESOURCE_POOL_SIZE <=? slot_index then (st, 0)
  else
    let slot := Z.to_nat slot_index in
    let rd := {| r_owner_node := owner_node; r_kind := kind; r_descriptor := descriptor;
                 r_capacity := capacity; r_reserved_by := initial_reserved_by;
                 r_sync_kind := sync_kind |} in
    let st := set_g_resource_storage (<[slot := rd]> (g_resource_storage st)) st in
    let '(st, result) := factory_create (OResource slot) st in
    if result =? 0 then (st, 0)
    else (resource_index_claim result kind st, result).

Record resource_info := {
  i_owner_node : Z; i_kind : Z; i_descriptor : Z; i_capacity : Z; i_sync_kind : Z; i_reserved_by : Z
}.

Definition resource_get_info (handle : Z) st : cstate K * option resource_info :=
  if handle =? 0 then (st, None)
  else
    let '(st, (ret, resp)) := kernel_invoke handle RESOURCE_METHOD_GET_INFO (reply 24 [0]) 64 st in
    if negb ret || (response_len resp <? 56) then (st, None)
    else
      let out := response_words resp in
      (st, Some {| i_owner_node := word out 0; i_kind := word out 1; i_descriptor := word out 2;
                   i_capacity := word out 3; i_sync_kind := word out 4; i_reserved_by := word out 5 |}).

(** [resource_reserve], [resource_release_reservation] and
    [resource_reassign] share one body, on different methods. *)
Definition resource_call (method_id : Z) (handle arg : Z) st : cstate K * bool :=
  if handle =? 0 then (st, false)
  else
    let '(st, (ret, resp)) := kernel_invoke handle method_id (reply 24 [arg]) 24 st in
    if negb ret || (response_len resp <? 24) then (st, false)
    else (st, negb (word (response_words resp) 0 =? 0)).

Definition resource_reserve (handle requesting_job : Z) st : cstate K * bool :=
  resource_call RESOURCE_METHOD_RESERVE handle requesting_job st.
Definition resource_release_reservation (handle requesting_job : Z) st : cstate K * bool :=
  resource_call RESOURCE_METHOD_RELEASE_RESERVATION handle requesting_job st.
Definition resource_reassign (handle new_owner_node : Z) st : cstate K * bool :=
  resource_call RESOURCE_METHOD_REASSIGN handle new_owner_node st.

Fixpoint node_has_mmu_loop (entries : list nat) (node_id : Z) st : cstate K * bool :=
  match entries with
  | [] => (st, false)
  | i :: entries =>
      let e := g_resource_index st !!? i in
      if negb (ri_used e) || negb (ri_kind e =? RESOURCE_KIND_MMU)
      then node_has_mmu_loop entries node_id st
      else
        let '(st, info) := resource_get_info (ri_handle e) st in
        match info with
        | Some info => if i_owner_node info =? node_id then (st, true)
                       else node_has_mmu_loop entries node_id st
        | None => node_has_mmu_loop entries node_id st
        end
  end.

Definition node_has_mmu (node_id : Z) st : cstate K * bool :=
  node_has_mmu_loop (seq 0 MAX_RESOURCE_INDEX) node_id st.

(** ** Nodes *)

Definition node_index_claim (handle node_id : Z) st : cstate K :=
  match first_index (fun e => negb (ni_used e)) (g_node_index st) with
  | Some i =>
      set_g_node_index
        (<[i := {| ni_handle := handle; ni_node_id := node_id; ni_used := true |}]> (g_node_index st)) st
  | None => st
  end.

Definition create_node_object (node_id arch signal_target : Z) st : cstate K * Z :=
  let slot_index := g_node_storage_next st in
  let st := set_g_node_storage_next (slot_index +64 1) st in
  if Z.of_nat MAX_NODES <=? slot_index then (st, 0)
  else
    let slot := Z.to_nat slot_index in
    let nd := {| n_node_id := node_id; n_arch := arch; n_signal_target := signal_target |} in
    let st := set_g_node_storage (<[slot := nd]> (g_node_storage st)) st in
    let '(st, result) := factory_create (ONode slot) st in
    if result =? 0 then (st, 0)
    else (node_index_claim result node_id st, result).

Definition node_index_of (node_id : Z) st : option nat :=
  first_index (fun e => ni_used e && (ni_node_id e =? node_id)) (g_node_index st).

Definition node_find_by_id (node_id : Z) st : Z :=
  match node_index_of node_id st with
  | Some i => ni_handle (g_node_index st !!? i)
  | None => 0
  end.

Definition node_index_clear (i : nat) st : cstate K :=
  let e := g_node_index st !!? i in
  set_g_node_index
    (<[i := {| ni_handle := ni_handle e; ni_node_id := ni_node_id e; ni_used := false |}]> (g_node_index st)) st.

Definition node_destroy (node_id : Z) st : cstate K :=
  match node_index_of node_id st with
  | Some i => node_index_clear i (factory_destroy (ni_handle (g_node_index st !!? i)) st)
  | None => st
  end.

(** ** Mutexes *)

Fixpoint create_mutexes (slots : list nat) st : cstate K :=
  match slots with
  | [] => st
  | i :: slots =>
      let st := set_g_mutex_storage
                  (<[i := {| m_locked := false; m_holder_job_id := 0 |}]> (g_mutex_storage st)) st in
      let '(st, h) := factory_create (OMutex i) st in
      create_mutexes slots (set_g_mutex_handles (<[i := h]> (g_mutex_handles st)) st)
  end.

Definition create_all_mutex_objects st : cstate K := create_mutexes (seq 0 MAX_MUTEXES) st.

Definition mutex_object_for_id (mutex_id : Z) st : Z :=
  if (mutex_id <? 0) || (Z.of_nat MAX_MUTEXES <=? mutex_id) then 0
  else g_mutex_handles st !!? Z.to_nat mutex_id.

(** ** Completions *)

Definition completion_record (job_handle value : Z) st : cstate K :=
  let slot := Z.to_nat (g_completion_next st mod Z.of_nat JOB_POOL_SIZE) in
  set_g_completions
    (<[slot := {| cp_job_handle := job_handle; cp_value := value; cp_used := true |}]> (g_completions st))
    (set_g_completion_next (g_completion_next st +64 1) st).

Definition completion_find (job_handle : Z) st : option Z :=
  match first_index (fun c => cp_used c && (cp_job_handle c =? job_handle)) (g_completions st) with
  | Some i => Some (cp_value (g_completions st !!? i))
  | None => None
  end.

(** ** Jobs *)

Definition new_job (type arg0 arg1 priority node_affinity resource_id resource_kind
    resource_min_capacity : Z) : job_data_t :=
  {| j_type := type; j_arg0 := arg0; j_arg1 := arg1;
     j_base_priority := priority; j_effective_priority := priority;
     j_node_affinity := node_affinity; j_assigned_node := NODE_AFFINITY_ANY;
     j_resource_id := resource_id; j_resource_kind := resource_kind;
     j_resource_min_capacity := resource_min_capacity; j_bound_resource_id := 0;
     j_blocked := 0; j_block_kind := BLOCK_NONE; j_block_id := 0; j_dispatched := false |}.

Definition set_job_used (i : nat) (b : bool) st : cstate K :=
  set_g_job_storage_used (<[i := b]> (g_job_storage_used st)) st.
Definition set_job (i : nat) (j : job_data_t) st : cstate K :=
  set_g_job_storage (<[i := j]> (g_job_storage st)) st.

Definition create_job_object (type arg0 arg1 priority node_affinity resource_id resource_kind
    resource_min_capacity : Z) st : cstate K * Z :=
  match first_index negb (g_job_storage_used st) with
  | None => (st, 0)
  | Some slot =>
      let st := set_job_used slot true st in
      let st := set_job slot (new_job type arg0 arg1 priority node_affinity resource_id
                                resource_kind resource_min_capacity) st in
      let '(st, result) := factory_create (OJob slot) st in
      if result =? 0 then (set_job_used slot false st, result)
      else (set_g_job_handles (<[slot := result]> (g_job_handles st)) st, result)
  end.

(** The slot of a live job: a used slot whose handle matches. *)
Definition job_slot_of (job : Z) st : option nat :=
  first_index (fun p => fst p && (snd p =? job))
    (zip (g_job_storage_used st) (g_job_handles st)).

Definition destroy_job_object (job : Z) st : cstate K :=
  match job_slot_of job st with
  | Some i => factory_destroy job (set_job_used i false st)
  | None => st
  end.

Definition job_data_for_handle_locked (job : Z) st : option nat :=
  if job =? 0 then None else job_slot_of job st.

(** ** Initialisation *)

Definition clear_resource_index (e : resource_index_entry_t) : resource_index_entry_t :=
  {| ri_handle := ri_handle e; ri_kind := ri_kind e; ri_used := false |}.
Definition clear_node_index (e : node_index_entry_t) : node_index_entry_t :=
  {| ni_handle := ni_handle e; ni_node_id := ni_node_id e; ni_used := false |}.
Definition clear_alloc (e : alloc_entry_t) : alloc_entry_t :=
  {| a_node_id := a_node_id e; a_base := a_base e; a_size := a_size e; a_kind := a_kind e; a_used := false |}.

Definition cluster_scheduler_init_schema (memory_manager : Z) st : cstate K :=
  let st := set_g_memory_manager memory_manager st in
  let st := set_g_storage_lock trylock_init st in
  let st := set_g_node_index (clear_node_index <$> g_node_index st) st in
  let st := set_g_allocs (clear_alloc <$> g_allocs st) st in
  let st := set_g_resource_index (clear_resource_index <$> g_resource_index st) st in
  let st := set_g_job_storage_used ((fun _ => false) <$> g_job_storage_used st) st in
  let st := set_g_resource_storage_next 0 st in
  let st := set_g_node_storage_next 0 st in
  let st := create_all_mutex_objects st in
  let '(st, pool) := create_resource_object 0 RESOURCE_KIND_MEMORY (ALLOC_MIN L)
                       (ALLOC_MAX L - ALLOC_MIN L) RESOURCE_SYNC_TRANSFER 0 st in
  set_g_pool_resource pool st.

(** ** Membership *)

Definition release_job_resource (job bound_resource_id : Z) st : cstate K :=
  fst (resource_release_reservation bound_resource_id job st).

Definition handle_join_node (words : list Z) (response_cap : Z) st : cstate K * option (list Z) :=
  let node_id := word words 0 in let arch := word words 1 in
  let signal_target := word words 2 in
  if negb (node_find_by_id node_id st =? 0) then (st, reply response_cap [0])
  else
    let '(st, node_obj) := create_node_object node_id arch signal_target st in
    if node_obj =? 0 then (st, reply response_cap [0])
    else (st, reply response_cap [node_obj]).

Definition resource_index_clear (i : nat) st : cstate K :=
  set_g_resource_index
    (<[i := clear_resource_index (g_resource_index st !!? i)]> (g_resource_index st)) st.

(** The sweep over the discovery index: destroy what the leaving node owns. *)
Fixpoint leave_sweep_resources (entries : list nat) (node_id : Z) st : cstate K :=
  match entries with
  | [] => st
  | i :: entries =>
      let e := g_resource_index st !!? i in
      if negb (ri_used e) then leave_sweep_resources entries node_id st
      else
        let '(st, info) := resource_get_info (ri_handle e) st in
        match info with
        | Some info =>
            if i_owner_node info =? node_id
            then leave_sweep_resources entries node_id
                   (resource_index_clear i (factory_destroy (ri_handle e) st))
            else leave_sweep_resources entries node_id st
        | None => leave_sweep_resources entries node_id st
        end
  end.

(** One slot of the job sweep. *)
Definition leave_sweep_job (node_id : Z) (i : nat) st : cstate K :=
  if negb (g_job_storage_used st !!? i) then st
  else
    let job := g_job_handles st !!? i in
    let j := g_job_storage st !!? i in
    let touches_this_node :=
      (j_assigned_node j =? node_id) ||
      ((j_assigned_node j =? NODE_AFFINITY_ANY) && (j_node_affinity j =? node_id)) in
    if negb touches_this_node then st
    else if j_node_affinity j =? node_id
    then destroy_job_object job (release_job_resource job (j_bound_resource_id j) st)
    else set_job i (set_assigned_node NODE_AFFINITY_ANY j) st.

Definition leave_sweep_jobs (slots : list nat) (node_id : Z) st : cstate K :=
  fold_left (fun st i => leave_sweep_job node_id i st) slots st.

Definition handle_leave_node (words : list Z) st : cstate K :=
  let node_id := word words 0 in
  if node_find_by_id node_id st =? 0 then st
  else
    let st := node_destroy node_id st in
    let st := leave_sweep_resources (seq 0 MAX_RESOURCE_INDEX) node_id st in
    leave_sweep_jobs (seq 0 JOB_POOL_SIZE) node_id st.

Definition handle_preempt_node (words : list Z) (response_cap : Z) st : cstate K * option (list Z) :=
  let node_id := word words 0 in
  let node := node_find_by_id node_id st in
  if negb (node =? 0) then
    let '(st, _) := kernel_invoke node NODE_METHOD_SIGNAL (reply 24 [0]) 0 st in
    (st, reply response_cap [1])
  else (st, reply response_cap [0]).

(** ** Memory *)

Definition alloc_record (node_id base size kind : Z) st : cstate K :=
  match first_index (fun a => negb (a_used a)) (g_allocs st) with
  | Some i =>
      set_g_allocs (<[i := {| a_node_id := node_id; a_base := base; a_size := size;
                              a_kind := kind; a_used := true |}]> (g_allocs st)) st
  | None => st
  end.

Definition handle_request_allocation (words : list Z) (response_cap : Z) st
    : cstate K * option (list Z) :=
  let node_id := word words 0 in let base := word words 1 in let size := word words 2 in
  let kind := word words 3 in let sync_kind := word words 4 in
  let '(st, (ret, claim_resp)) :=
    kernel_invoke (g_memory_manager st) 0 (reply 48 [base; size; kind]) 24 st in
  let ok := ret && (24 <=? response_len claim_resp) &&
            negb (word (response_words claim_resp) 0 =? 0) in
  if ok then
    let st := alloc_record node_id base size kind st in
    let '(st, resource) := create_resource_object node_id RESOURCE_KIND_MEMORY base size sync_kind 0 st in
    (st, reply response_cap [1; resource])
  else (st, reply response_cap [0; 0]).

Definition handle_allocate_slice (words : list Z) (response_cap : Z) st
    : cstate K * option (list Z) :=
  let node_id := word words 0 in let requesting_job_id := word words 1 in
  let size := word words 2 in let kind := word words 3 in let sync_kind := word words 4 in
  let '(st, (ret, alloc_resp)) :=
    kernel_invoke (g_memory_manager st) 1 (reply 40 [size; kind]) 40 st in
  let got := ret && (24 <=? response_len alloc_resp) in
  let ok := got && negb (word (response_words alloc_resp) 0 =? 0) in
  let base := if got then word (response_words alloc_resp) 1 else 0 in
  if ok then
    let '(st, resource) :=
      create_resource_object node_id RESOURCE_KIND_MEMORY base size sync_kind requesting_job_id st in
    (st, reply response_cap [1; resource; base])
  else (st, reply response_cap [0; 0; base]).

(** The index entry of a resource handle, as the release loop finds it. *)
Definition resource_index_of (h : Z) st : option nat :=
  first_index (fun e => ri_used e && (ri_handle e =? h)) (g_resource_index st).

Definition handle_release_slice (words : list Z) (response_cap : Z) st
    : cstate K * option (list Z) :=
  let resource := word words 0 in let requesting_job_id := word words 1 in
  let '(st, info) := resource_get_info resource st in
  match info with
  | None => (st, reply response_cap [0])
  | Some info =>
      if negb (i_kind info =? RESOURCE_KIND_MEMORY) then (st, reply response_cap [0])
      else if negb (i_reserved_by info =? requesting_job_id) then (st, reply response_cap [0])
      else
        let '(st, (ret, free_resp)) :=
          kernel_invoke (g_memory_manager st) 2 (reply 24 [i_descriptor info]) 24 st in
        if ret && (24 <=? response_len free_resp) && negb (word (response_words free_resp) 0 =? 0)
        then
          let st := factory_destroy resource st in
          let st := match resource_index_of resource st with
                    | Some i => resource_index_clear i st
                    | None => st
                    end in
          (st, reply response_cap [1])
        else (st, reply response_cap [0])
  end.

Definition handle_declare_resource (words : list Z) (response_cap : Z) st
    : cstate K * option (list Z) :=
  let node_id := word words 0 in let kind := word words 1 in let descriptor := word words 2 in
  let capacity := word words 3 in let sync_kind := word words 4 in
  let needs_mmu := (sync_kind =? RESOURCE_SYNC_STREAM) || (sync_kind =? RESOURCE_SYNC_COW) in
  let '(st, has_mmu) := if needs_mmu then node_has_mmu node_id st else (st, true) in
  if needs_mmu && negb has_mmu then (st, reply response_cap [0])
  else
    let '(st, resource) := create_resource_object node_id kind descriptor capacity sync_kind 0 st in
    (st, reply response_cap [resource]).

Definition handle_get_resource_info (words : list Z) (response_cap : Z) st
    : cstate K * option (list Z) :=
  let '(st, info) := resource_get_info (word words 0) st in
  match info with
  | None => (st, reply response_cap [0; 0; 0; 0; 0; 0])
  | Some i => (st, reply response_cap [1; i_owner_node i; i_kind i; i_descriptor i;
                                       i_capacity i; i_sync_kind i])
  end.

Definition handle_reassign_resource (words : list Z) (response_cap : Z) st
    : cstate K * option (list Z) :=
  let resource := word words 0 in let new_owner_node := word words 1 in
  let '(st, info) := resource_get_info resource st in
  match info with
  | None => (st, reply response_cap [0])
  | Some info =>
      if negb (i_reserved_by info =? 0) then (st, reply response_cap [0])
      else if node_find_by_id new_owner_node st =? 0 then (st, reply response_cap [0])
      else
        let '(st, ok) := resource_reassign resource new_owner_node st in
        (st, reply response_cap [bool_word ok])
  end.

(** ** Scheduling *)

Definition handle_submit_job (words : list Z) (response_cap : Z) st : cstate K * option (list Z) :=
  let node_affinity := word words 0 in let job_type := word words 1 in
  let arg0 := word words 2 in let arg1 := word words 3 in
  let priority := to_int (word words 4) in
  let resource_id := word words 5 in let resource_kind := word words 6 in
  let resource_min_capacity := word words 7 in
  let '(st, job) := create_job_object (u32 job_type) arg0 arg1 priority node_affinity
                      resource_id resource_kind resource_min_capacity st in
  (st, reply response_cap [job]).

(** [reserved_by == 0 && capacity >= min_capacity] of a candidate. *)
Definition candidate_ok (min_capacity : Z) (info : option resource_info) : bool :=
  match info with
  | Some i => (i_reserved_by i =? 0) && (min_capacity <=? i_capacity i)
  | None => false
  end.

(** The kind-based scan of [resource_ok_for]: some entry matches. *)
Fixpoint kind_available (entries : list nat) (kind min_capacity : Z) st : cstate K * bool :=
  match entries with
  | [] => (st, false)
  | i :: entries =>
      let e := g_resource_index st !!? i in
      if negb (ri_used e) || negb (ri_kind e =? kind) then kind_available entries kind min_capacity st
      else
        let '(st, info) := resource_get_info (ri_handle e) st in
        if candidate_ok min_capacity info then (st, true)
        else kind_available entries kind min_capacity st
  end.

Definition resource_ok_for (job : Z) (j : job_data_t) st : cstate K * bool :=
  if negb (j_bound_resource_id j =? 0) then
    let '(st, info) := resource_get_info (j_bound_resource_id j) st in
    (st, match info with
         | Some i => (i_reserved_by i =? 0) || (i_reserved_by i =? job)
         | None => false
         end)
  else if (j_resource_id j =? 0) && (j_resource_kind j =? RESOURCE_KIND_NONE) then (st, true)
  else if negb (j_resource_id j =? 0) then
    let '(st, info) := resource_get_info (j_resource_id j) st in
    (st, match info with Some i => i_reserved_by i =? 0 | None => false end)
  else kind_available (seq 0 MAX_RESOURCE_INDEX) (j_resource_kind j) (j_resource_min_capacity j) st.

(** The kind-based scan of [bind_resource_for]: the last entry that matches. *)
Fixpoint kind_choose (entries : list nat) (kind min_capacity chosen : Z) st : cstate K * Z :=
  match entries with
  | [] => (st, chosen)
  | i :: entries =>
      let e := g_resource_index st !!? i in
      if negb (ri_used e) || negb (ri_kind e =? kind)
      then kind_choose entries kind min_capacity chosen st
      else
        let '(st, info) := resource_get_info (ri_handle e) st in
        kind_choose entries kind min_capacity
          (if candidate_ok min_capacity info then ri_handle e else chosen) st
  end.

Definition bind_resource_for (job : Z) (slot : nat) st : cstate K :=
  let j := g_job_storage st !!? slot in
  if negb (j_bound_resource_id j =? 0) then st
  else
    let '(st, chosen) :=
      if negb (j_resource_id j =? 0) then (st, j_resource_id j)
      else if negb (j_resource_kind j =? RESOURCE_KIND_NONE)
      then kind_choose (seq 0 MAX_RESOURCE_INDEX) (j_resource_kind j) (j_resource_min_capacity j) 0 st
      else (st, 0) in
    if chosen =? 0 then st
    else
      let '(st, ok) := resource_reserve chosen job st in
      if ok then set_job slot (set_bound_resource chosen (g_job_storage st !!? slot)) st else st.

Definition eligible (node : Z) (j : job_data_t) : bool :=
  (j_assigned_node j =? node) ||
  ((j_assigned_node j =? NODE_AFFINITY_ANY) &&
   ((j_node_affinity j =? node) || (j_node_affinity j =? NODE_AFFINITY_ANY))).

(** [!best || j->effective_priority > best->effective_priority]. *)
Definition better (st : cstate K) (i : nat) (best : option nat) : bool :=
  match best with
  | None => true
  | Some b => j_effective_priority (g_job_storage st !!? b) <?
              j_effective_priority (g_job_storage st !!? i)
  end.

(** One slot of the scan: the state, the best ready slot and the best slot
    blocked on a mutex so far. *)
Definition pick_step (node : Z) (acc : cstate K * (option nat * option nat)) (i : nat)
    : cstate K * (option nat * option nat) :=
  let '(st, (best_ready, best_blocked)) := acc in
  if negb (g_job_storage_used st !!? i) then acc
  else
    let job := g_job_handles st !!? i in
    let j := g_job_storage st !!? i in
    if j_dispatched j then acc
    else if negb (eligible node j) then acc
    else
      let '(st, ok) := resource_ok_for job j st in
      if negb ok then (st, (best_ready, best_blocked))
      else
        let j := g_job_storage st !!? i in
        let st :=
          if negb (j_blocked j =? 0) && (j_block_kind j =? BLOCK_JOB) &&
             negb (bool_decide (is_Some (job_data_for_handle_locked (j_block_id j) st)))
          then set_job i (set_block 0 BLOCK_NONE (j_block_id j) j) st else st in
        let j := g_job_storage st !!? i in
        if j_blocked j =? 0 then
          (st, (if better st i best_ready then Some i else best_ready, best_blocked))
        else if j_block_kind j =? BLOCK_MUTEX then
          (st, (best_ready, if better st i best_blocked then Some i else best_blocked))
        else (st, (best_ready, best_blocked)).

Definition pick_scan (node : Z) st : cstate K * (option nat * option nat) :=
  fold_left (pick_step node) (seq 0 JOB_POOL_SIZE) (st, (None, None)).

(** The compare-and-swap on [dispatched]: whether this caller claimed the
    job. *)
Definition claim_job (i : nat) st : cstate K * bool :=
  let j := g_job_storage st !!? i in
  if j_dispatched j then (st, false)
  else (set_job i (set_dispatched true j) st, true).

(** A claimed job that may run anywhere is tied to the node that asked. *)
Definition assign_job (node : Z) (i : nat) st : cstate K :=
  let j := g_job_storage st !!? i in
  if j_assigned_node j =? NODE_AFFINITY_ANY
  then set_job i (set_assigned_node node j) st else st.

(** The handle and the slot handed out, if any. *)
Definition pick_next_for_node (requesting_node_id : Z) st : cstate K * option (Z * nat) :=
  let '(st, (best_ready, best_blocked)) := pick_scan requesting_node_id st in
  match (match best_ready with Some i => Some i | None => best_blocked end) with
  | None => (st, None)
  | Some i =>
      let chosen := g_job_handles st !!? i in
      let '(st, won) := claim_job i st in
      if negb won then (st, None)
      else (bind_resource_for chosen i (assign_job requesting_node_id i st), Some (chosen, i))
  end.

Definition handle_get_next_job (words : list Z) (response_cap : Z) st : cstate K * option (list Z) :=
  let requesting_node_id := word words 0 in
  let '(st, picked) := pick_next_for_node requesting_node_id st in
  match picked with
  | Some (job, i) =>
      if job =? 0 then (st, reply response_cap [0; 0; 0; 0; 0])
      else
        let j := g_job_storage st !!? i in
        (st, reply response_cap [1; job; j_type j; j_arg0 j; j_arg1 j])
  | None => (st, reply response_cap [0; 0; 0; 0; 0])
  end.

Definition JOB_RUNNING : Z := 0.
Definition JOB_FINISHED : Z := 1.
Definition JOB_BLOCKED_ON_MUTEX : Z := 2.
Definition JOB_BLOCKED_ON_JOB : Z := 3.

(** The [switch] of a report other than JOB_FINISHED. *)
Definition report_update (result block_id : Z) (j : job_data_t) : job_data_t :=
  let j := set_dispatched false j in
  if result =? JOB_BLOCKED_ON_MUTEX then set_block 1 BLOCK_MUTEX block_id j
  else if result =? JOB_BLOCKED_ON_JOB then set_block 1 BLOCK_JOB block_id j
  else j.

Definition handle_report_job_result (words : list Z) st : cstate K :=
  let job := word words 0 in
  let result := u32 (word words 1) in
  let block_id := word words 2 in
  let completion_value := word words 3 in
  if result =? JOB_FINISHED then
    let st := storage_lock_acquire_wait st in
    let slot := job_data_for_handle_locked job st in
    let st' := storage_lock_release st in
    match slot with
    | None => st'
    | Some i =>
        let bound_resource_id := j_bound_resource_id (g_job_storage st !!? i) in
        let st := release_job_resource job bound_resource_id st' in
        let st := storage_lock_acquire_wait st in
        let st := completion_record job completion_value st in
        let st := storage_lock_release st in
        destroy_job_object job st
    end
  else
    let st := storage_lock_acquire_wait st in
    let st := match job_data_for_handle_locked job st with
              | Some i => set_job i (report_update result block_id (g_job_storage st !!? i)) st
              | None => st
              end in
    storage_lock_release st.

Definition handle_get_job_result (words : list Z) (response_cap : Z) st : cstate K * option (list Z) :=
  let st := storage_lock_acquire_wait st in
  let found := completion_find (word words 0) st in
  let st := storage_lock_release st in
  (st, reply response_cap [bool_word (bool_decide (is_Some found)); default 0 found]).

(** Priority inheritance: the holder of a contended mutex runs at least at
    the priority of the job that lost. *)
Definition inherit_priority (requesting_job_id holder_job_id : Z) st : cstate K :=
  match job_data_for_handle_locked requesting_job_id st, job_data_for_handle_locked holder_job_id st with
  | Some self, Some holder =>
      let self_p := j_effective_priority (g_job_storage st !!? self) in
      let holder_j := g_job_storage st !!? holder in
      if j_effective_priority holder_j <? self_p
      then set_job holder (set_effective_priority self_p holder_j) st else st
  | _, _ => st
  end.

Definition handle_mutex_try_lock (words : list Z) (response_cap : Z) st : cstate K * option (list Z) :=
  let mutex_id := to_int (word words 0) in
  let requesting_job_id := word words 1 in
  let m := mutex_object_for_id mutex_id st in
  if m =? 0 then (st, reply response_cap [0])
  else
    let '(st, (ret, lock_resp)) :=
      kernel_invoke m MUTEX_METHOD_TRY_LOCK (reply 24 [requesting_job_id]) 40 st in
    if ret && (32 <=? response_len lock_resp) then
      let ok := word (response_words lock_resp) 0 in
      let holder_job_id := word (response_words lock_resp) 1 in
      let st := if ok =? 0 then
                  storage_lock_release
                    (inherit_priority requesting_job_id holder_job_id (storage_lock_acquire_wait st))
                else st in
      (st, reply response_cap [ok])
    else (st, reply response_cap [0]).

Definition handle_mutex_unlock (words : list Z) st : cstate K :=
  let mutex_id := to_int (word words 0) in
  let requesting_job_id := word words 1 in
  let m := mutex_object_for_id mutex_id st in
  if m =? 0 then st
  else
    let '(st, (ret, unlock_resp)) :=
      kernel_invoke m MUTEX_METHOD_UNLOCK (reply 24 [requesting_job_id]) 24 st in
    if ret && (24 <=? response_len unlock_resp) && negb (word (response_words unlock_resp) 0 =? 0)
    then
      let st := storage_lock_acquire_wait st in
      let st := match job_data_for_handle_locked requesting_job_id st with
                | Some i =>
                    let self_j := g_job_storage st !!? i in
                    set_job i (set_effective_priority (j_base_priority self_j) self_j) st
                | None => st
                end in
      storage_lock_release st
    else st.

(** ** The object's handler *)

Definition METHOD_JOIN_NODE : Z := 0.
Definition METHOD_LEAVE_NODE : Z := 1.
Definition METHOD_REQUEST_ALLOCATION : Z := 2.
Definition METHOD_DECLARE_RESOURCE : Z := 3.
Definition METHOD_REASSIGN_RESOURCE : Z := 4.
Definition METHOD_SUBMIT_JOB : Z := 5.
Definition METHOD_GET_NEXT_JOB : Z := 6.
Definition METHOD_REPORT_JOB_RESULT : Z := 7.
Definition METHOD_MUTEX_TRY_LOCK : Z := 8.
Definition METHOD_MUTEX_UNLOCK : Z := 9.
Definition METHOD_GET_RESOURCE_INFO : Z := 10.
Definition METHOD_ALLOCATE_SLICE : Z := 11.
Definition METHOD_RELEASE_SLICE : Z := 12.
Definition METHOD_PREEMPT_NODE : Z := 13.
Definition METHOD_GET_JOB_RESULT : Z := 14.

Definition cluster_scheduler_handler (method_id : Z) (words : list Z) (response_cap : Z) st
    : cstate K * option (list Z) :=
  if method_id =? METHOD_JOIN_NODE then handle_join_node words response_cap st
  else if method_id =? METHOD_LEAVE_NODE then (handle_leave_node words st, None)
  else if method_id =? METHOD_REQUEST_ALLOCATION then handle_request_allocation words response_cap st
  else if method_id =? METHOD_DECLARE_RESOURCE then handle_declare_resource words response_cap st
  else if method_id =? METHOD_GET_RESOURCE_INFO then handle_get_resource_info words response_cap st
  else if method_id =? METHOD_ALLOCATE_SLICE then handle_allocate_slice words response_cap st
  else if method_id =? METHOD_RELEASE_SLICE then handle_release_slice words response_cap st
  else if method_id =? METHOD_PREEMPT_NODE then handle_preempt_node words response_cap st
  else if method_id =? METHOD_REASSIGN_RESOURCE then handle_reassign_resource words response_cap st
  else if method_id =? METHOD_SUBMIT_JOB then handle_submit_job words response_cap st
  else if method_id =? METHOD_GET_NEXT_JOB then handle_get_next_job words response_cap st
  else if method_id =? METHOD_REPORT_JOB_RESULT then (handle_report_job_result words st, None)
  else if method_id =? METHOD_GET_JOB_RESULT then handle_get_job_result words response_cap st
  else if method_id =? METHOD_MUTEX_TRY_LOCK then handle_mutex_try_lock words response_cap st
  else if method_id =? METHOD_MUTEX_UNLOCK then (handle_mutex_unlock words st, None)
  else (st, None).

End cluster.

(** ** A concrete system

    Zero-initialised statics, a counter kernel whose handle 1 is the memory
    manager, and the state after [cluster_scheduler_init_schema]. *)

Definition zero_statics {K} (k0 : K) (m : mem_mgr) : cstate K :=
  mk_cstate k0 [] m
    (replicate RESOURCE_POOL_SIZE inhabitant) 0 (replicate MAX_RESOURCE_INDEX inhabitant)
    (replicate MAX_NODES inhabitant) 0 (replicate MAX_NODES inhabitant)
    (replicate MAX_MUTEXES inhabitant) (replicate MAX_MUTEXES 0)
    (replicate JOB_POOL_SIZE inhabitant) (replicate JOB_POOL_SIZE false) (replicate JOB_POOL_SIZE 0)
    (replicate JOB_POOL_SIZE inhabitant) 0 (replicate MAX_ALLOC_RECORDS inhabitant) 0 0 trylock_init.

Definition boot_kernel : counter_kernel :=
  {| ck_objects := {[ 1 := OMemoryManager ]}; ck_next := 2 |}.

Definition no_other (_ : nat) (_ : Z) (_ : list Z) (_ : Z) : option (list Z) := None.

Definition cluster_boot : cstate counter_kernel :=
  cluster_scheduler_init_schema layout_x86_64 1 (zero_statics boot_kernel mem_boot).

(** Run a list of requests, with a reply buffer large enough for each. *)
Fixpoint run_requests `{Kernel K} (L : layout) other (reqs : list (Z * list Z)) (st : cstate K)
    : cstate K * list (option (list Z)) :=
  match reqs with
  | [] => (st, [])
  | (m, ws) :: reqs =>
      let '(st, a) := cluster_scheduler_handler L other m ws 128 st in
      let '(st, rest) := run_requests L other reqs st in (st, a :: rest)
  end.
