(* ===== verification/ClusterInv.v ===== *)
(** * The cluster scheduler's invariant

    What ties the static tables of cluster_scheduler.c to the kernel's
    capability table, and that every request preserves it:
    - a used entry of the resource index names a live resource object, whose
      kind is the cached one;
    - a used entry of the node index names a live node object with the cached
      node id, and no node id is indexed twice;
    - a used job slot's handle names the job object of that very slot, so a
      handle identifies at most one live job;
    - a job never carries the handle of a mutex as its resource, and what it
      is bound to is a resource (or an object of another file). *)

From S2P Require Import Prelude Capnp TryLock Kernel MemMgr Objects Cluster.

Section kernel_facts.
Context `{KernelLaws K}.
Implicit Types (k : K) (h : Z) (o : objref).

Lemma request_words_0 o : exists n, request_words o 0 = Some n.
Proof. destruct o as [| | | | |id]; simpl; eauto. do 8 (destruct id as [|id]; [simpl; eauto|]). simpl; eauto. Qed.

(** [h] does not resolve to a mutex. *)
Definition sane k h : Prop := forall m n s, k_invoke k h m n <> Some (OMutex s).

(** [h] is an issued handle that resolves at most to a resource or to an
    object of another file. *)
Definition bindable k h : Prop :=
  k_issued k h /\
  forall m n o, k_invoke k h m n = Some o -> (exists s, o = OResource s) \/ (exists i, o = OOther i).

(** [k'] still knows every object [k] knew, except the handles of [D]. *)
Record kext k k' (D : Z -> Prop) : Prop := {
  kext_names : forall h o, names k h o -> ~ D h -> names k' h o;
  kext_sane : forall h, sane k h -> sane k' h;
  kext_bindable : forall h, bindable k h -> bindable k' h
}.

Lemma kext_create k o k' r :
  (forall s, o <> OMutex s) -> k_create o k = (k', r) -> kext k k' (fun _ => False).
Proof.
  intros Ho Hc. pose proof (k_create_others _ _ _ _ Hc) as [Hiss Hinv]. split.
  - intros h o' Hn _. destruct (request_words_0 o') as [n Hw]. by eapply names_create.
  - intros h Hs m n s. destruct r as [h'|]; [destruct (decide (h' = h)) as [->|]|].
    + destruct (decide (h = 0)) as [->|Hnz]; [rewrite k_null; done|].
      apply k_create_fresh in Hc as (_ & _ & _ & Hu); [|done].
      intros E. by eapply Ho, eq_sym, Hu.
    + rewrite Hinv; [apply Hs|left; congruence].
    + rewrite Hinv; [apply Hs|by left].
  - intros h [Hi Hb]. split; [apply Hiss; by left|]. intros m n o'.
    destruct r as [h'|]; [destruct (decide (h' = h)) as [->|]|].
    + destruct (decide (h = 0)) as [->|Hnz]; [rewrite k_null; done|].
      apply k_create_fresh in Hc as (_ & Hf & _); done.
    + rewrite Hinv; [apply Hb|left; congruence].
    + rewrite Hinv; [apply Hb|by left].
Qed.

Lemma kext_destroy k h0 : kext k (k_destroy h0 k) (fun h => h = h0).
Proof.
  split.
  - intros h o Hn Hne. by apply names_destroy.
  - intros h Hs m n s. destruct (decide (h = h0)) as [->|Hne].
    + by rewrite k_destroy_gone.
    + rewrite k_destroy_others by done. apply Hs.
  - intros h [Hi Hb]. split; [by apply k_destroy_issued|]. intros m n o.
    destruct (decide (h = h0)) as [->|Hne].
    + by rewrite k_destroy_gone.
    + rewrite k_destroy_others by done. apply Hb.
Qed.

(** A handle names one object. *)
Lemma names_unique k h o o' : names k h o -> names k h o' -> o = o'.
Proof. intros Hn Hn'. destruct (request_words_0 o) as [n Hw]. by eapply names_inj. Qed.

Lemma names_nz k h o : names k h o -> h <> 0.
Proof. intros Hn. destruct (request_words_0 o) as [n Hw]. by eapply names_nonzero. Qed.

Lemma names_known k h o : names k h o -> k_issued k h.
Proof. intros Hn. destruct (request_words_0 o) as [n Hw]. by eapply names_issued. Qed.

(** ** The parts of the invariant *)

Definition res_inv k (next : Z) (storage : list resource_data_t)
    (index : list resource_index_entry_t) : Prop :=
  length storage = RESOURCE_POOL_SIZE /\ length index = MAX_RESOURCE_INDEX /\ 0 <= next /\
  (forall i e, index !! i = Some e -> ri_used e = true ->
    exists s, names k (ri_handle e) (OResource s) /\ (s < RESOURCE_POOL_SIZE)%nat /\ Z.of_nat s < next /\
      r_kind (storage !!? s) = ri_kind e) /\
  forall i j e f, index !! i = Some e -> index !! j = Some f -> ri_used e = true -> ri_used f = true ->
    ri_handle e = ri_handle f -> i = j.

Definition node_inv k (next : Z) (storage : list node_data_t) (index : list node_index_entry_t) : Prop :=
  length storage = MAX_NODES /\ length index = MAX_NODES /\ 0 <= next /\
  (forall i e, index !! i = Some e -> ni_used e = true ->
    exists s, names k (ni_handle e) (ONode s) /\ (s < MAX_NODES)%nat /\ Z.of_nat s < next /\
      n_node_id (storage !!? s) = ni_node_id e) /\
  forall i j e f, index !! i = Some e -> index !! j = Some f -> ni_used e = true -> ni_used f = true ->
    ni_node_id e = ni_node_id f -> i = j.

(** The resource references of a job. *)
Definition job_ok k (j : job_data_t) : Prop :=
  sane k (j_resource_id j) /\ (j_bound_resource_id j = 0 \/ bindable k (j_bound_resource_id j)).

Definition job_inv k (used : list bool) (handles : list Z) (storage : list job_data_t) : Prop :=
  length used = JOB_POOL_SIZE /\ length handles = JOB_POOL_SIZE /\ length storage = JOB_POOL_SIZE /\
  forall i, used !! i = Some true ->
    names k (handles !!? i) (OJob i) /\ job_ok k (storage !!? i).

Definition mutex_inv k (handles : list Z) (storage : list mutex_data_t) : Prop :=
  length handles = MAX_MUTEXES /\ length storage = MAX_MUTEXES /\
  forall i, (i < MAX_MUTEXES)%nat -> handles !!? i = 0 \/ names k (handles !!? i) (OMutex i).

Lemma res_inv_kext k k' D next storage index :
  kext k k' D -> (forall i e, index !! i = Some e -> ri_used e = true -> ~ D (ri_handle e)) ->
  res_inv k next storage index -> res_inv k' next storage index.
Proof.
  intros Hk HD (? & ? & ? & Hi & Huniq). split_and!; [done..| |done]. intros i e He Hu.
  destruct (Hi i e He Hu) as (s & Hn & Hrest). exists s. split; [|done].
  eapply kext_names; eauto.
Qed.

Lemma node_inv_kext k k' D next storage index :
  kext k k' D -> (forall i e, index !! i = Some e -> ni_used e = true -> ~ D (ni_handle e)) ->
  node_inv k next storage index -> node_inv k' next storage index.
Proof.
  intros Hk HD (? & ? & ? & Hi & Hu). split_and!; [done..| |done]. intros i e He Hue.
  destruct (Hi i e He Hue) as (s & Hn & Hrest). exists s. split; [|done].
  eapply kext_names; eauto.
Qed.

Lemma job_ok_kext k k' D j : kext k k' D -> job_ok k j -> job_ok k' j.
Proof.
  intros Hk [Hs Hb]. split; [by eapply kext_sane|].
  destruct Hb; [by left|right]. by eapply kext_bindable.
Qed.

Lemma job_inv_kext k k' D used handles storage :
  kext k k' D -> (forall i, used !! i = Some true -> ~ D (handles !!? i)) ->
  job_inv k used handles storage -> job_inv k' used handles storage.
Proof.
  intros Hk HD (? & ? & ? & Hi). split_and!; [done..|]. intros i Hu.
  destruct (Hi i Hu) as [Hn Hj]. split; [|by eapply job_ok_kext].
  eapply kext_names; eauto.
Qed.

Lemma mutex_inv_kext k k' D handles storage :
  kext k k' D -> (forall i s, (i < MAX_MUTEXES)%nat -> names k (handles !!? i) (OMutex s) -> ~ D (handles !!? i)) ->
  mutex_inv k handles storage -> mutex_inv k' handles storage.
Proof.
  intros Hk HD (? & ? & Hi). split_and!; [done..|]. intros i Hlt.
  destruct (Hi i Hlt) as [?|Hn]; [by left|right]. eapply kext_names; eauto.
Qed.
End kernel_facts.

Section invariant.
Context `{HL : KernelLaws K}.
Context (L : layout) (other_reply : nat -> Z -> list Z -> Z -> option (list Z)).
Implicit Types (st : cstate K).
Local Abbreviation kernel_invoke := (kernel_invoke L other_reply).

Record cinv st : Prop := {
  ci_res : res_inv (k st) (g_resource_storage_next st) (g_resource_storage st) (g_resource_index st);
  ci_node : node_inv (k st) (g_node_storage_next st) (g_node_storage st) (g_node_index st);
  ci_job : job_inv (k st) (g_job_storage_used st) (g_job_handles st) (g_job_storage st);
  ci_mutex : mutex_inv (k st) (g_mutex_handles st) (g_mutex_storage st)
}.

(** ** What an invocation can change

    An object call changes the data of resources and mutexes, the memory
    manager and the signal log; never an index, the kernel's table, a job or
    a resource's kind. *)
Record quiet st st' : Prop := {
  q_k : k st' = k st;
  q_rnext : g_resource_storage_next st' = g_resource_storage_next st;
  q_rindex : g_resource_index st' = g_resource_index st;
  q_rlen : length (g_resource_storage st') = length (g_resource_storage st);
  q_rkind : forall s, r_kind (g_resource_storage st' !!? s) = r_kind (g_resource_storage st !!? s);
  q_node : g_node_storage st' = g_node_storage st;
  q_nnext : g_node_storage_next st' = g_node_storage_next st;
  q_nindex : g_node_index st' = g_node_index st;
  q_mlen : length (g_mutex_storage st') = length (g_mutex_storage st);
  q_mhandles : g_mutex_handles st' = g_mutex_handles st;
  q_jobs : g_job_storage st' = g_job_storage st;
  q_used : g_job_storage_used st' = g_job_storage_used st;
  q_jhandles : g_job_handles st' = g_job_handles st;
  q_completions : g_completions st' = g_completions st;
  q_cnext : g_completion_next st' = g_completion_next st;
  q_allocs : g_allocs st' = g_allocs st;
  q_mm : g_memory_manager st' = g_memory_manager st;
  q_pool : g_pool_resource st' = g_pool_resource st;
  q_lock : g_storage_lock st' = g_storage_lock st
}.

#[export] Instance quiet_preorder : PreOrder quiet.
Proof.
  split.
  - intros st. by split.
  - intros st1 st2 st3 H1 H2. destruct H1, H2. split; congruence.
Qed.

Lemma quiet_inv st st' : quiet st st' -> cinv st -> cinv st'.
Proof.
  intros Hq [Hr Hn Hj Hm]. destruct Hq. split.
  - destruct Hr as (? & ? & ? & Hi & ?). unfold res_inv.
    rewrite q_rlen0, q_rindex0, q_rnext0, q_k0. split_and!; [done..| |done].
    intros i e He Hu. destruct (Hi i e He Hu) as (s & ? & ? & ? & ?).
    exists s. rewrite q_rkind0. done.
  - by rewrite q_k0, q_nnext0, q_node0, q_nindex0.
  - by rewrite q_k0, q_used0, q_jhandles0, q_jobs0.
  - unfold mutex_inv. rewrite q_k0, q_mhandles0, q_mlen0. done.
Qed.

Lemma resource_handler_kind r m ws cap : r_kind (fst (resource_handler r m ws cap)) = r_kind r.
Proof. unfold resource_handler. by repeat case_cond. Qed.

Lemma insert_nth_id {A} `{Inhabited A} (l : list A) i : <[i := l !!? i]> l = l.
Proof.
  destruct (decide (i < length l)%nat).
  - apply list_insert_id. by apply lookup_nth_inh.
  - apply list_insert_ge. lia.
Qed.

Lemma set_jobs_id st : set_g_job_storage (g_job_storage st) st = st.
Proof. by destruct st. Qed.
Lemma set_resources_id st : set_g_resource_storage (g_resource_storage st) st = st.
Proof. by destruct st. Qed.

(** A request of fewer than six words never reaches a job's
    UPDATE_SCHEDULING_STATE. *)
Lemma kernel_invoke_quiet h m words cap st :
  (forall ws, words = Some ws -> length ws < 6)%nat -> quiet st (fst (kernel_invoke h m words cap st)).
Proof.
  intros Hlen. unfold Cluster.kernel_invoke. destruct words as [ws|]; [|reflexivity].
  specialize (Hlen ws eq_refl).
  destruct (k_invoke (k st) h m (length ws)) as [[s|s|s|s| |i]|] eqn:Ek; [..|reflexivity].
  - destruct (resource_handler _ _ _ _) as [r a] eqn:Er. split; try done; simpl.
    + apply length_insert.
    + intros s'. destruct (decide (s = s')) as [<-|Hne]; [|by rewrite nth_insert_ne].
      destruct (decide (s < length (g_resource_storage st))%nat).
      * rewrite nth_insert_eq by done. change r with (fst (r, a)). rewrite <- Er.
        apply resource_handler_kind.
      * by rewrite list_insert_ge by lia.
  - destruct (node_handler _ _ _) as [a [t|]]; [by split|reflexivity].
  - destruct (mutex_handler _ _ _ _) as [r a]. split; try done; simpl. apply length_insert.
  - apply k_validates in Ek as (w & Hw & Hle). simpl in Hw.
    unfold job_handler, JOB_METHOD_GET_INFO, JOB_METHOD_UPDATE_SCHEDULING_STATE.
    destruct (m =? 0); [|destruct (m =? 1); simplify_eq; lia].
    simpl. rewrite insert_nth_id, set_jobs_id. reflexivity.
  - destruct (memory_manager_handler _ _ _ _ _) as [m' a]. by split.
  - reflexivity.
Qed.

Ltac request_short := let ws := fresh in intros ws [= <-]; simpl; lia.

Lemma resource_get_info_quiet h st : quiet st (fst (resource_get_info L other_reply h st)).
Proof.
  unfold resource_get_info. case_cond; [reflexivity|].
  pose proof (kernel_invoke_quiet h RESOURCE_METHOD_GET_INFO (reply 24 [0]) 64 st ltac:(request_short)) as Hq.
  destruct (kernel_invoke _ _ _ _ _) as [st' [ret resp]]. by case_cond.
Qed.

Lemma resource_call_quiet meth h arg st : quiet st (fst (resource_call L other_reply meth h arg st)).
Proof.
  unfold resource_call. case_cond; [reflexivity|].
  pose proof (kernel_invoke_quiet h meth (reply 24 [arg]) 24 st ltac:(request_short)) as Hq.
  destruct (kernel_invoke _ _ _ _ _) as [st' [ret resp]]. by case_cond.
Qed.

(** Every scan of the resource index is quiet. *)
Ltac quiet_loop IH :=
  intros st; simpl; case_cond; [apply IH|];
  match goal with
  | |- context [resource_get_info L other_reply ?h ?s] =>
      let Hq := fresh in
      pose proof (resource_get_info_quiet h s) as Hq;
      destruct (resource_get_info L other_reply h s) as [? ?]; simpl in Hq |- *
  end; repeat case_match; try done; etrans; eauto.

Lemma node_has_mmu_quiet entries node_id st : quiet st (fst (node_has_mmu_loop L other_reply entries node_id st)).
Proof. revert st. induction entries as [|i entries IH]; [reflexivity|]. quiet_loop IH. Qed.

Lemma kind_available_quiet entries kind cap st : quiet st (fst (kind_available L other_reply entries kind cap st)).
Proof. revert st. induction entries as [|i entries IH]; [reflexivity|]. quiet_loop IH. Qed.

Lemma kind_choose_quiet entries kind cap c st : quiet st (fst (kind_choose L other_reply entries kind cap c st)).
Proof. revert c st. induction entries as [|i entries IH]; intros c; [reflexivity|]. quiet_loop IH. Qed.

Lemma resource_ok_for_quiet job j st : quiet st (fst (resource_ok_for L other_reply job j st)).
Proof.
  unfold resource_ok_for. case_cond; [|case_cond; [reflexivity|case_cond; [|apply kind_available_quiet]]];
  match goal with |- context [resource_get_info L other_reply ?h ?s] =>
    pose proof (resource_get_info_quiet h s) as Hq end;
  by destruct (resource_get_info _ _ _ _).
Qed.
(** ** Creating objects *)

(** The counters of the bump allocators are 64-bit; the invariant needs that
    they did not wrap (2^64 creations). *)
Definition no_wrap st : Prop :=
  g_resource_storage_next st + 1 < W64 /\ g_node_storage_next st + 1 < W64.

Definition not_mutex (o : objref) : Prop := forall s, o <> OMutex s.

(** A kernel that only grew: everything stays. *)
Lemma cinv_grow st k' :
  kext (k st) k' (fun _ => False) -> cinv st -> cinv (set_k k' st).
Proof.
  intros Hk [Hr Hn Hj Hm]. split; simpl.
  - by eapply res_inv_kext; eauto.
  - by eapply node_inv_kext; eauto.
  - by eapply job_inv_kext; eauto.
  - by eapply mutex_inv_kext; eauto.
Qed.

Lemma factory_create_inv o st :
  not_mutex o -> cinv st ->
  let '(st', h) := factory_create o st in
  cinv st' /\ st' = set_k (k st') st /\ kext (k st) (k st') (fun _ => False) /\
  (h <> 0 -> names (k st') h o /\ is_u64 h /\ ~ k_issued (k st) h).
Proof.
  intros Ho Hinv. unfold factory_create. destruct (k_create o (k st)) as [k' r] eqn:Hc.
  pose proof (kext_create _ _ _ _ Ho Hc) as Hk. split; [by apply cinv_grow|].
  split; [done|split; [done|]]. destruct r as [h|]; simpl; [|done]. intros Hnz.
  destruct (k_create_fresh _ _ _ _ Hc Hnz) as (? & ? & ?). done.
Qed.

(** Writing a slot of the resource pool no index entry refers to. *)
Lemma cinv_new_resource st rd :
  0 <= g_resource_storage_next st -> g_resource_storage_next st + 1 < W64 -> cinv st ->
  cinv (set_g_resource_storage (<[Z.to_nat (g_resource_storage_next st) := rd]> (g_resource_storage st))
          (set_g_resource_storage_next (g_resource_storage_next st +64 1) st)).
Proof.
  intros H0 Hw [Hr Hn Hj Hm]. split; [|done..]. destruct Hr as (Hl & Hli & _ & Hi & Huniq). simpl.
  rewrite u64_small by (unfold is_u64; lia).
  split_and!; [by rewrite length_insert|done|lia| |done]. intros i e He Hu.
  destruct (Hi i e He Hu) as (s & Hns & Hs & Hlt & Hk). exists s.
  split_and!; [apply Hns..|done|lia|]. rewrite nth_insert_ne by lia. done.
Qed.

Lemma cinv_resource_claim h kind slot st :
  names (k st) h (OResource slot) -> (slot < RESOURCE_POOL_SIZE)%nat ->
  Z.of_nat slot < g_resource_storage_next st -> r_kind (g_resource_storage st !!? slot) = kind ->
  (forall i e, g_resource_index st !! i = Some e -> ri_used e = true -> ri_handle e <> h) ->
  cinv st -> cinv (resource_index_claim h kind st).
Proof.
  intros Hn Hs Hlt Hk Hfresh Hinv. unfold resource_index_claim.
  destruct (first_index _ _) as [i|] eqn:Hi; [|done].
  destruct Hinv as [Hr Hnd Hj Hm]. split; [|done..]. destruct Hr as (Hl & Hli & ? & Hidx & Huniq). simpl.
  split_and!; [done|by rewrite length_insert|done| |].
  - intros i' e He Hu.
    apply lookup_insert_cases in He as [(-> & -> & _)|[_ He]]; [|by apply (Hidx i')].
    exists slot. done.
  - intros i1 i2 e f He Hf Hue Huf Hh.
    apply lookup_insert_cases in He as [(<- & -> & _)|[_ He]];
    apply lookup_insert_cases in Hf as [(<- & -> & _)|[_ Hf]]; simpl in Hh; [done| | |by eapply Huniq].
    + by destruct (Hfresh _ _ Hf Huf).
    + by destruct (Hfresh _ _ He Hue).
Qed.

Lemma create_resource_object_inv owner kind descr cap sync init st :
  cinv st -> no_wrap st -> cinv (fst (create_resource_object owner kind descr cap sync init st)).
Proof.
  intros Hinv [Hw _]. pose proof (ci_res _ Hinv) as (Hl & _ & H0 & _).
  unfold create_resource_object. case_cond.
  { destruct Hinv as [(? & ? & ? & Hi & ?) ? ? ?]. split; [|done..]. simpl.
    rewrite u64_small by (unfold is_u64; lia). split_and!; [done..|lia| |done].
    intros i e He Hu. destruct (Hi i e He Hu) as (s & Hn & ? & ? & ?). exists s.
    split; [exact Hn|]. split_and!; [done|lia|done]. }
  set (rd := {| r_owner_node := owner |}).
  pose proof (cinv_new_resource st rd H0 Hw Hinv) as Hinv1. cbn [g_resource_storage set_g_resource_storage_next].
  set (st1 := set_g_resource_storage _ _) in *.
  pose proof (factory_create_inv (OResource (Z.to_nat (g_resource_storage_next st))) st1 ltac:(by intros ?) Hinv1) as Hc.
  destruct (factory_create _ st1) as [st2 h]. destruct Hc as (Hinv2 & Est2 & _ & Hh).
  case_cond; [done|]. destruct (Hh ltac:(done)) as (Hn & _ & Hfresh).
  eapply cinv_resource_claim; [exact Hn| | | | |exact Hinv2].
  - unfold RESOURCE_POOL_SIZE in *. lia.
  - rewrite Est2. simpl. rewrite u64_small by (unfold is_u64; lia). lia.
  - rewrite Est2. simpl. rewrite nth_insert_eq; [done|].
    rewrite Hl. unfold RESOURCE_POOL_SIZE in *. lia.
  - rewrite Est2. simpl. intros i e He Hu Heq. apply Hfresh. rewrite <- Heq.
    destruct (ci_res _ Hinv) as (_ & _ & _ & Hi & _). destruct (Hi i e He Hu) as (s & Hns & _).
    by apply names_known in Hns.
Qed.

(** *** Nodes *)

Lemma node_index_of_Some node_id st i :
  node_index_of node_id st = Some i ->
  exists e, g_node_index st !! i = Some e /\ ni_used e = true /\ ni_node_id e = node_id /\
    g_node_index st !!? i = e.
Proof.
  intros Hi. apply first_index_Some in Hi as (e & He & Hp & _). bool_simp.
  exists e. split_and!; [done..|]. by apply nth_lookup_Some_inh.
Qed.

Lemma node_index_of_None node_id st :
  node_index_of node_id st = None <->
  forall i e, g_node_index st !! i = Some e -> ni_used e = true -> ni_node_id e <> node_id.
Proof.
  unfold node_index_of. rewrite first_index_None. split.
  - intros Hn i e He Hu Hid. specialize (Hn i e He). simpl in Hn. by rewrite Hu, Hid, Z.eqb_refl in Hn.
  - intros Hn i e He. destruct (ni_used e) eqn:Hu; [|done]. simpl. apply Z.eqb_neq. eauto.
Qed.

(** [node_find_by_id] returns 0 exactly when the node is not a member. *)
Lemma node_find_zero node_id st :
  cinv st -> node_find_by_id node_id st = 0 <-> node_index_of node_id st = None.
Proof.
  intros Hinv. unfold node_find_by_id. destruct (node_index_of node_id st) as [i|] eqn:Hi; [|done].
  split; [|done]. intros Hz. exfalso.
  apply node_index_of_Some in Hi as (e & He & Hu & _ & Hnth). rewrite Hnth in Hz.
  destruct (ci_node _ Hinv) as (_ & _ & _ & Hn & _). destruct (Hn i e He Hu) as (s & Hns & _).
  by apply names_nz in Hns.
Qed.

Lemma cinv_node_claim h node_id slot st :
  names (k st) h (ONode slot) -> (slot < MAX_NODES)%nat ->
  Z.of_nat slot < g_node_storage_next st -> n_node_id (g_node_storage st !!? slot) = node_id ->
  node_index_of node_id st = None ->
  cinv st -> cinv (node_index_claim h node_id st).
Proof.
  intros Hn Hs Hlt Hk Hfresh Hinv. unfold node_index_claim.
  destruct (first_index _ _) as [i|] eqn:Hi; [|done].
  rewrite node_index_of_None in Hfresh.
  destruct Hinv as [Hr Hnd Hj Hm]. split; [done| |done..].
  destruct Hnd as (Hl & Hli & ? & Hidx & Huniq). simpl.
  split_and!; [done|by rewrite length_insert|done| |].
  - intros i' e He Hu.
    apply lookup_insert_cases in He as [(-> & -> & _)|[_ He]]; [|by apply (Hidx i')].
    exists slot. done.
  - intros i1 i2 e f He Hf Hue Huf Hid.
    apply lookup_insert_cases in He as [(<- & -> & _)|[_ He]];
    apply lookup_insert_cases in Hf as [(<- & -> & _)|[_ Hf]]; simpl in Hid; [done| | |by eapply Huniq].
    + by destruct (Hfresh _ _ Hf Huf).
    + by destruct (Hfresh _ _ He Hue).
Qed.

Lemma create_node_object_inv node_id arch target st :
  cinv st -> no_wrap st -> node_index_of node_id st = None ->
  cinv (fst (create_node_object node_id arch target st)).
Proof.
  intros Hinv [_ Hw] Hnew. pose proof (ci_node _ Hinv) as (Hl & Hli & H0 & Hi & Huniq).
  unfold create_node_object.
  assert (forall sto, length sto = MAX_NODES ->
    (forall s, Z.of_nat s < g_node_storage_next st -> sto !!? s = g_node_storage st !!? s) ->
    cinv (set_g_node_storage sto (set_g_node_storage_next (g_node_storage_next st +64 1) st))) as Hnext.
  { intros sto Hlen Hsame. destruct Hinv as [Hr Hnd Hj Hm]. split; [done| |done..]. simpl.
    rewrite u64_small by (unfold is_u64; lia). split_and!; [done|done|lia| |done].
    intros i e He Hu. destruct (Hi i e He Hu) as (s & Hn & ? & ? & ?). exists s.
    split; [exact Hn|]. split_and!; [done|lia|]. by rewrite Hsame. }
  case_cond.
  { specialize (Hnext (g_node_storage st) Hl ltac:(done)). by destruct st. }
  set (nd := {| n_node_id := node_id |}). cbn [g_node_storage set_g_node_storage_next].
  pose proof (Hnext (<[Z.to_nat (g_node_storage_next st) := nd]> (g_node_storage st))
    ltac:(by rewrite length_insert)
    ltac:(intros s Hs; rewrite nth_insert_ne; [done|lia])) as Hinv1.
  set (st1 := set_g_node_storage _ _) in *.
  pose proof (factory_create_inv (ONode (Z.to_nat (g_node_storage_next st))) st1 ltac:(by intros ?) Hinv1) as Hc.
  destruct (factory_create _ st1) as [st2 h]. destruct Hc as (Hinv2 & Est2 & _ & Hh).
  case_cond; [done|]. destruct (Hh ltac:(done)) as (Hn & _ & Hfresh).
  eapply cinv_node_claim; [exact Hn| | | | |exact Hinv2].
  - unfold MAX_NODES in *. lia.
  - rewrite Est2. simpl. rewrite u64_small by (unfold is_u64; lia). lia.
  - rewrite Est2. simpl. rewrite nth_insert_eq; [done|]. rewrite Hl. unfold MAX_NODES in *. lia.
  - rewrite Est2. done.
Qed.

(** *** Jobs *)

(** The pool slot of a live job handle. *)
Lemma job_slot_of_Some h st i :
  job_slot_of h st = Some i ->
  g_job_storage_used st !! i = Some true /\ g_job_handles st !! i = Some h /\ g_job_handles st !!? i = h.
Proof.
  intros Hi. apply first_index_Some in Hi as ([u h'] & He & Hp & _). simpl in Hp. bool_simp. subst.
  apply lookup_zip_Some in He as [Hu Hh]. split_and!; [done..|]. by apply nth_lookup_Some_inh.
Qed.

(** A live job is found at its own slot: handles identify slots. *)
Lemma job_slot_of_live st i :
  cinv st -> g_job_storage_used st !! i = Some true ->
  job_slot_of (g_job_handles st !!? i) st = Some i.
Proof.
  intros Hinv Hu. destruct (ci_job _ Hinv) as (Hlu & Hlh & _ & Hj).
  assert (i < JOB_POOL_SIZE)%nat as Hi by (rewrite <- Hlu; by eapply lookup_lt_Some).
  unfold job_slot_of.
  destruct (first_index_exists (fun p => fst p && (snd p =? g_job_handles st !!? i))
    (zip (g_job_storage_used st) (g_job_handles st)) i (true, g_job_handles st !!? i)) as (i' & Hi' & _).
  - apply lookup_zip_Some. split; [done|]. apply lookup_nth_inh. lia.
  - simpl. apply Z.eqb_refl.
  - pose proof Hi' as Hs. rewrite Hi'. f_equal. apply job_slot_of_Some in Hs as (Hu' & _ & Heq).
    destruct (Hj i Hu) as [Hn _]. destruct (Hj i' Hu') as [Hn' _]. rewrite Heq in Hn'.
    pose proof (names_unique _ _ _ _ Hn Hn'). congruence.
Qed.

Lemma job_slot_of_None h st :
  cinv st -> job_slot_of h st = None ->
  forall i, g_job_storage_used st !! i = Some true -> g_job_handles st !!? i <> h.
Proof. intros Hinv Hnone i Hu Heq. rewrite <- Heq, job_slot_of_live in Hnone by done. done. Qed.

(** Rewriting a job, with its resource references still in order. *)
Lemma set_job_inv i j st :
  cinv st -> (g_job_storage_used st !! i = Some true -> job_ok (k st) j) -> cinv (set_job i j st).
Proof.
  intros [Hr Hn Hj Hm] Hok. split; [done..| |done]. destruct Hj as (Hlu & Hlh & Hls & Hj). simpl.
  split_and!; [done|done|by rewrite length_insert|]. intros i' Hu'. destruct (Hj i' Hu') as [Hnm Hjok].
  split; [exact Hnm|]. destruct (decide (i = i')) as [<-|Hne].
  - rewrite nth_insert_eq; [by apply Hok|]. rewrite Hls, <- Hlu. by eapply lookup_lt_Some.
  - by rewrite nth_insert_ne.
Qed.

(** Every rewriting in the file keeps the job's requirement and, except for
    [set_bound_resource], its binding. *)
Lemma set_job_refs i j st :
  cinv st -> j_resource_id j = j_resource_id (g_job_storage st !!? i) ->
  j_bound_resource_id j = j_bound_resource_id (g_job_storage st !!? i) -> cinv (set_job i j st).
Proof.
  intros Hinv Hr Hb. apply set_job_inv; [done|]. intros Hu.
  destruct (ci_job _ Hinv) as (_ & _ & _ & Hj). destruct (Hj i Hu) as [_ [Hs Hbd]].
  unfold job_ok. by rewrite Hr, Hb.
Qed.

Lemma create_job_object_inv type arg0 arg1 prio aff rid rkind rcap st :
  cinv st -> sane (k st) rid ->
  cinv (fst (create_job_object type arg0 arg1 prio aff rid rkind rcap st)).
Proof.
  intros Hinv Hsane. unfold create_job_object.
  destruct (first_index negb _) as [slot|] eqn:Hslot; [|done].
  apply first_index_Some in Hslot as (u & Hu & Hneg & _). bool_simp. subst u.
  destruct (ci_job _ Hinv) as (Hlu & Hlh & Hls & Hj).
  assert (slot < JOB_POOL_SIZE)%nat as Hlt by (rewrite <- Hlu; by eapply lookup_lt_Some).
  unfold factory_create. cbn [k set_job set_job_used set_g_job_storage set_g_job_storage_used].
  destruct (k_create (OJob slot) (k st)) as [k' r] eqn:Hc.
  assert (kext (k st) k' (fun _ => False)) as Hk by (eapply kext_create; [|exact Hc]; by intros ?).
  pose proof (cinv_grow st k' Hk Hinv) as [Hr' Hn' Hj' Hm'].
  destruct Hj' as (_ & _ & _ & Hj').
  set (j := new_job _ _ _ _ _ _ _ _).
  destruct (default 0 r =? 0) eqn:Hz; bool_simp; (split; [exact Hr'|exact Hn'| |exact Hm']); simpl.
  - split_and!; [by rewrite !length_insert|done|by rewrite length_insert|]. intros i Hi.
    rewrite list_insert_insert_eq in Hi.
    apply lookup_insert_cases in Hi as [(_ & ? & _)|[Hne Hi]]; [done|].
    destruct (Hj' i Hi) as [Hnm Hok]. split; [exact Hnm|]. by rewrite nth_insert_ne.
  - destruct r as [h|]; simpl in *; [|done].
    split_and!; [by rewrite length_insert..|]. intros i Hi.
    apply lookup_insert_cases in Hi as [(<- & _ & _)|[Hne Hi]].
    + rewrite !nth_insert_eq by lia. split; [by eapply k_create_fresh|].
      split; [by eapply kext_sane|by left].
    + destruct (Hj' i Hi) as [Hnm Hok]. rewrite !nth_insert_ne by done. done.
Qed.

(** ** Destroying objects

    A handle the kernel resolves to [o] is destroyed; entries that name
    other objects are not touched. *)

Lemma destroy_res h m n o st :
  k_invoke (k st) h m n = Some o -> (forall s, o <> OResource s) -> cinv st ->
  res_inv (k_destroy h (k st)) (g_resource_storage_next st) (g_resource_storage st) (g_resource_index st).
Proof.
  intros Hi Ho Hinv. eapply res_inv_kext; [apply kext_destroy| |apply ci_res, Hinv].
  intros i e He Hu Heq. destruct (ci_res _ Hinv) as (_ & _ & _ & Hidx & _).
  destruct (Hidx i e He Hu) as (s & [_ Hn] & _). rewrite Heq in Hn. apply Hn in Hi. by apply (Ho s).
Qed.

Lemma destroy_node h m n o st :
  k_invoke (k st) h m n = Some o -> (forall s, o <> ONode s) -> cinv st ->
  node_inv (k_destroy h (k st)) (g_node_storage_next st) (g_node_storage st) (g_node_index st).
Proof.
  intros Hi Ho Hinv. eapply node_inv_kext; [apply kext_destroy| |apply ci_node, Hinv].
  intros i e He Hu Heq. destruct (ci_node _ Hinv) as (_ & _ & _ & Hidx & _).
  destruct (Hidx i e He Hu) as (s & [_ Hn] & _). rewrite Heq in Hn. apply Hn in Hi. by apply (Ho s).
Qed.

Lemma destroy_job h m n o st :
  k_invoke (k st) h m n = Some o -> (forall s, o <> OJob s) -> cinv st ->
  job_inv (k_destroy h (k st)) (g_job_storage_used st) (g_job_handles st) (g_job_storage st).
Proof.
  intros Hi Ho Hinv. eapply job_inv_kext; [apply kext_destroy| |apply ci_job, Hinv].
  intros i Hu Heq. destruct (ci_job _ Hinv) as (_ & _ & _ & Hj).
  destruct (Hj i Hu) as [[_ Hn] _]. rewrite Heq in Hn. apply Hn in Hi. by apply (Ho i).
Qed.

Lemma destroy_mutex h m n o st :
  k_invoke (k st) h m n = Some o -> (forall s, o <> OMutex s) -> cinv st ->
  mutex_inv (k_destroy h (k st)) (g_mutex_handles st) (g_mutex_storage st).
Proof.
  intros Hi Ho Hinv. eapply mutex_inv_kext; [apply kext_destroy| |apply ci_mutex, Hinv].
  intros i s Hlt [_ Hn] Heq. rewrite Heq in Hn. apply Hn in Hi. by apply (Ho s).
Qed.

Lemma names_resolves h o st : names (k st) h o -> exists m n, k_invoke (k st) h m n = Some o.
Proof. intros [Hn _]. destruct (request_words_0 o) as [n Hw]. exists 0, n. by apply Hn. Qed.

Lemma destroy_job_object_inv h st : cinv st -> cinv (destroy_job_object h st).
Proof.
  intros Hinv. unfold destroy_job_object. destruct (job_slot_of h st) as [i|] eqn:Hi; [|done].
  apply job_slot_of_Some in Hi as (Hu & _ & Hh).
  destruct (ci_job _ Hinv) as (Hlu & Hlh & Hls & Hj).
  destruct (Hj i Hu) as [Hn _]. rewrite Hh in Hn.
  destruct (names_resolves _ _ _ Hn) as (m & n & Hres).
  split; simpl; [by eapply (destroy_res h)|by eapply (destroy_node h)| |by eapply (destroy_mutex h)].
  split_and!; [by rewrite length_insert|done..|]. intros i' Hu'.
  apply lookup_insert_cases in Hu' as [(_ & ? & _)|[Hne Hu']]; [done|].
  destruct (Hj i' Hu') as [Hn' Hok]. split.
  - eapply kext_names; [apply kext_destroy|exact Hn'|]. intros Heq. simpl in Heq. rewrite Heq in Hn'.
    pose proof (names_unique _ _ _ _ Hn Hn'). congruence.
  - eapply job_ok_kext; [apply kext_destroy|done].
Qed.

Lemma resource_destroy_inv i e st :
  cinv st -> g_resource_index st !! i = Some e -> ri_used e = true ->
  cinv (resource_index_clear i (factory_destroy (ri_handle e) st)).
Proof.
  intros Hinv He Hu. destruct (ci_res _ Hinv) as (? & ? & ? & Hidx & Huniq).
  destruct (Hidx i e He Hu) as (s & Hn & _).
  destruct (names_resolves _ _ _ Hn) as (m & n & Hres).
  split; simpl; [|by eapply (destroy_node (ri_handle e))|by eapply (destroy_job (ri_handle e))
                 |by eapply (destroy_mutex (ri_handle e))].
  split_and!; [done|by rewrite length_insert|done| |].
  - intros i' e' He' Hu'. apply lookup_insert_cases in He' as [(_ & -> & _)|[Hne He']]; [done|].
    destruct (Hidx i' e' He' Hu') as (s' & Hn' & Hrest). exists s'. split; [|done].
    eapply kext_names; [apply kext_destroy|exact Hn'|]. intros Heq. simpl in Heq.
    by apply Hne, (Huniq i i' e e').
  - intros i1 i2 e1 e2 He1 He2 Hu1 Hu2.
    apply lookup_insert_cases in He1 as [(_ & -> & _)|[_ He1]]; [done|].
    apply lookup_insert_cases in He2 as [(_ & -> & _)|[_ He2]]; [done|]. by eapply Huniq.
Qed.

Lemma node_destroy_inv node_id st : cinv st -> cinv (node_destroy node_id st).
Proof.
  intros Hinv. unfold node_destroy. destruct (node_index_of node_id st) as [i|] eqn:Hi; [|done].
  apply node_index_of_Some in Hi as (e & He & Hu & Hid & Hnth). rewrite Hnth.
  destruct (ci_node _ Hinv) as (? & ? & ? & Hidx & Huniq).
  destruct (Hidx i e He Hu) as (s & Hn & _ & _ & Hsid).
  destruct (names_resolves _ _ _ Hn) as (m & n & Hres).
  split; simpl; [by eapply (destroy_res (ni_handle e))| |by eapply (destroy_job (ni_handle e))
                 |by eapply (destroy_mutex (ni_handle e))].
  split_and!; [done|by rewrite length_insert|done| |].
  - intros i' e' He' Hu'. apply lookup_insert_cases in He' as [(_ & -> & _)|[Hne He']]; [done|].
    destruct (Hidx i' e' He' Hu') as (s' & Hn' & Hrest). exists s'. split; [|done].
    eapply kext_names; [apply kext_destroy|exact Hn'|]. intros Heq. simpl in Heq. rewrite Heq in Hn'.
    pose proof (names_unique _ _ _ _ Hn Hn') as [= <-].
    apply Hne, (Huniq i i' e e'); try done. destruct Hrest as (_ & _ & <-). done.
  - intros i1 i2 e1 e2 He1 He2 Hu1 Hu2.
    apply lookup_insert_cases in He1 as [(_ & -> & _)|[_ He1]]; [done|].
    apply lookup_insert_cases in He2 as [(_ & -> & _)|[_ He2]]; [done|]. by eapply Huniq.
Qed.

(** ** The handlers *)

(** A request as the kernel delivers it: SUBMIT_JOB does not pass a mutex's
    handle off as a resource. *)
Definition submit_ok (method_id : Z) (words : list Z) st : Prop :=
  method_id = METHOD_SUBMIT_JOB -> sane (k st) (word words 5).

Lemma quiet_no_wrap st st' : quiet st st' -> no_wrap st -> no_wrap st'.
Proof. intros Hq. destruct Hq. unfold no_wrap. by rewrite q_rnext0, q_nnext0. Qed.

Lemma handle_join_node_inv words cap st :
  cinv st -> no_wrap st -> cinv (fst (handle_join_node words cap st)).
Proof.
  intros Hinv Hw. unfold handle_join_node. case_cond; [done|].
  apply node_find_zero in Heqb; [|done].
  pose proof (create_node_object_inv (word words 0) (word words 1) (word words 2) st Hinv Hw Heqb) as Hc.
  destruct (create_node_object _ _ _ _) as [st' h]. by case_cond.
Qed.

Lemma leave_sweep_resources_inv entries node_id st :
  cinv st -> Forall (fun i => i < MAX_RESOURCE_INDEX)%nat entries ->
  cinv (leave_sweep_resources L other_reply entries node_id st).
Proof.
  intros Hinv Hall. revert st Hinv. induction Hall as [|i entries Hi _ IH]; intros st Hinv; [done|]. simpl.
  case_cond; [by apply IH|].
  pose proof (resource_get_info_quiet (ri_handle (g_resource_index st !!? i)) st) as Hq.
  destruct (resource_get_info _ _ _ _) as [st1 info]. simpl in Hq.
  pose proof (quiet_inv _ _ Hq Hinv) as Hinv1.
  destruct info as [info|]; [|by apply IH]. case_cond; [|by apply IH]. apply IH.
  destruct (ci_res _ Hinv1) as (_ & Hlen & _).
  rewrite <- (q_rindex _ _ Hq) in *. apply resource_destroy_inv; [done| |done].
  apply lookup_nth_inh. lia.
Qed.

Lemma leave_sweep_job_inv node_id i st : cinv st -> cinv (leave_sweep_job L other_reply node_id i st).
Proof.
  intros Hinv. unfold leave_sweep_job. repeat case_cond; try done.
  - apply destroy_job_object_inv. eapply quiet_inv; [|exact Hinv]. apply resource_call_quiet.
  - by apply set_job_refs.
Qed.

Lemma handle_leave_node_inv words st : cinv st -> cinv (handle_leave_node L other_reply words st).
Proof.
  intros Hinv. unfold handle_leave_node. case_cond; [done|].
  assert (cinv (leave_sweep_resources L other_reply (seq 0 MAX_RESOURCE_INDEX) (word words 0)
    (node_destroy (word words 0) st))) as H1.
  { apply leave_sweep_resources_inv; [by apply node_destroy_inv|].
    apply Forall_forall. intros i Hi%elem_of_seq. lia. }
  revert H1. generalize (leave_sweep_resources L other_reply (seq 0 MAX_RESOURCE_INDEX) (word words 0)
    (node_destroy (word words 0) st)). generalize (seq 0 JOB_POOL_SIZE).
  unfold leave_sweep_jobs. induction l as [|i l IH]; intros st1 H1; [done|]. simpl.
  apply IH. by apply leave_sweep_job_inv.
Qed.

Lemma alloc_record_quiet node base size kind st :
  cinv st -> cinv (alloc_record node base size kind st) /\
  (no_wrap st -> no_wrap (alloc_record node base size kind st)).
Proof. intros [? ? ? ?]. unfold alloc_record. case_match; split; done || by split. Qed.

Lemma handle_request_allocation_inv words cap st :
  cinv st -> no_wrap st -> cinv (fst (handle_request_allocation L other_reply words cap st)).
Proof.
  intros Hinv Hw. unfold handle_request_allocation.
  pose proof (kernel_invoke_quiet (g_memory_manager st) 0 (reply 48 [word words 1; word words 2; word words 3]) 24 st
    ltac:(request_short)) as Hq.
  destruct (Cluster.kernel_invoke _ _ _ _ _ _ _) as [st1 [ret resp]]. simpl in Hq.
  pose proof (quiet_inv _ _ Hq Hinv) as Hinv1. pose proof (quiet_no_wrap _ _ Hq Hw) as Hw1.
  case_cond; [|done].
  destruct (alloc_record_quiet (word words 0) (word words 1) (word words 2) (word words 3) st1 Hinv1) as [Hinv2 Hw2].
  pose proof (create_resource_object_inv (word words 0) RESOURCE_KIND_MEMORY (word words 1) (word words 2)
    (word words 4) 0 _ Hinv2 (Hw2 Hw1)) as Hc.
  by destruct (create_resource_object _ _ _ _ _ _ _).
Qed.

Lemma handle_allocate_slice_inv words cap st :
  cinv st -> no_wrap st -> cinv (fst (handle_allocate_slice L other_reply words cap st)).
Proof.
  intros Hinv Hw. unfold handle_allocate_slice.
  pose proof (kernel_invoke_quiet (g_memory_manager st) 1 (reply 40 [word words 2; word words 3]) 40 st
    ltac:(request_short)) as Hq.
  destruct (Cluster.kernel_invoke _ _ _ _ _ _ _) as [st1 [ret resp]]. simpl in Hq.
  pose proof (quiet_inv _ _ Hq Hinv) as Hinv1. pose proof (quiet_no_wrap _ _ Hq Hw) as Hw1.
  destruct (ret && (24 <=? response_len resp) && negb (word (response_words resp) 0 =? 0)); [|done].
  match goal with |- context [create_resource_object ?a ?b ?c ?d ?e ?f ?g] =>
    pose proof (create_resource_object_inv a b c d e f g Hinv1 Hw1) as Hc end.
  by destruct (create_resource_object _ _ _ _ _ _ _).
Qed.

(** An object that answers GET_INFO with six words is a resource, or an
    object of another file; the same holds of one that grants a
    reservation, unless it is a mutex. *)
Definition resource_like (o : objref) : Prop := (exists s, o = OResource s) \/ (exists i, o = OOther i).

Lemma resource_get_info_resolves h st st' info :
  resource_get_info L other_reply h st = (st', Some info) ->
  h <> 0 /\ exists o, k_invoke (k st) h 0 1 = Some o /\ resource_like o.
Proof.
  unfold resource_get_info. case_cond; [done|].
  change (reply 24 [0]) with (Some [0]). unfold Cluster.kernel_invoke.
  change (length [0]) with 1%nat. change RESOURCE_METHOD_GET_INFO with 0.
  destruct (k_invoke (k st) h 0 1) as [[s|s|s|s| |i]|] eqn:Hk; try done.
  - intros _. split; [done|]. exists (OResource s). split; [done|]. left. eauto.
  - unfold mutex_handler. simpl. by destruct (negb _).
  - apply k_validates in Hk as (w & [= <-] & Hle). lia.
  - intros _. split; [done|]. exists (OOther i). split; [done|]. right. eauto.
Qed.

Lemma resource_reserve_resolves h job st st' :
  sane (k st) h -> resource_reserve L other_reply h job st = (st', true) -> bindable (k st) h.
Proof.
  intros Hs. unfold resource_reserve, resource_call. case_cond; [done|].
  change (reply 24 [job]) with (Some [job]). unfold Cluster.kernel_invoke.
  change (length [job]) with 1%nat. change RESOURCE_METHOD_RESERVE with 1.
  destruct (k_invoke (k st) h 1 1) as [o|] eqn:Hk; [|done].
  assert (resource_like o -> bindable (k st) h) as Hb.
  { intros Ho. split; [by eapply k_invoke_issued|]. intros m n o' Ho'.
    by rewrite (k_functional _ _ _ _ _ _ _ _ Ho' Hk). }
  destruct o as [s|s|s|s| |i]; try done.
  - intros _. apply Hb. left. eauto.
  - by apply Hs in Hk.
  - apply k_validates in Hk as (w & [= <-] & Hle). lia.
  - apply k_validates in Hk as (w & [= <-] & Hle). lia.
  - intros _. apply Hb. right. eauto.
Qed.

(** Destroying a resource-like handle that is not indexed. *)
Lemma destroy_unindexed_inv h m n o st :
  k_invoke (k st) h m n = Some o -> resource_like o -> resource_index_of h st = None ->
  cinv st -> cinv (factory_destroy h st).
Proof.
  intros Hk Ho Hidx Hinv. split; simpl.
  - eapply res_inv_kext; [apply kext_destroy| |apply ci_res, Hinv]. intros i e He Hu Heq. simpl in Heq.
    unfold resource_index_of in Hidx. rewrite first_index_None in Hidx. specialize (Hidx i e He).
    simpl in Hidx. by rewrite Hu, Heq, Z.eqb_refl in Hidx.
  - eapply destroy_node; [exact Hk| |done]. intros s ->. by destruct Ho as [[? ?]|[? ?]].
  - eapply destroy_job; [exact Hk| |done]. intros s ->. by destruct Ho as [[? ?]|[? ?]].
  - eapply destroy_mutex; [exact Hk| |done]. intros s ->. by destruct Ho as [[? ?]|[? ?]].
Qed.

Lemma handle_release_slice_inv words cap st :
  cinv st -> cinv (fst (handle_release_slice L other_reply words cap st)).
Proof.
  intros Hinv. unfold handle_release_slice.
  pose proof (resource_get_info_quiet (word words 0) st) as Hq.
  destruct (resource_get_info L other_reply (word words 0) st) as [st1 [info|]] eqn:Hg; simpl in Hq.
  2: { by eapply quiet_inv. }
  apply resource_get_info_resolves in Hg as (_ & o & Ho & Hlike).
  do 2 (case_cond; [by eapply quiet_inv|]).
  pose proof (kernel_invoke_quiet (g_memory_manager st1) 2 (reply 24 [i_descriptor info]) 24 st1
    ltac:(request_short)) as Hq2.
  destruct (Cluster.kernel_invoke _ _ _ _ _ _ _) as [st2 [ret resp]]. simpl in Hq2.
  assert (quiet st st2) as Hq3 by (etrans; eauto). clear Hq Hq2.
  pose proof (quiet_inv _ _ Hq3 Hinv) as Hinv2. rewrite <- (q_k _ _ Hq3) in Ho.
  case_cond; [|done]. simpl.
  change (resource_index_of (word words 0) (factory_destroy (word words 0) st2))
    with (resource_index_of (word words 0) st2).
  destruct (resource_index_of (word words 0) st2) as [i|] eqn:Hi; [|by eapply destroy_unindexed_inv].
  apply first_index_Some in Hi as (e & He & Hp & _). bool_simp.
  match goal with H : ri_handle e = _ |- _ => rewrite <- H end. by apply resource_destroy_inv.
Qed.

Lemma handle_declare_resource_inv words cap st :
  cinv st -> no_wrap st -> cinv (fst (handle_declare_resource L other_reply words cap st)).
Proof.
  intros Hinv Hw. unfold handle_declare_resource.
  set (needs := (_ =? RESOURCE_SYNC_STREAM) || _).
  assert (quiet st (fst (if needs then node_has_mmu L other_reply (word words 0) st else (st, true)))) as Hq
    by (destruct needs; [apply node_has_mmu_quiet|reflexivity]).
  destruct (if needs then _ else _) as [st1 has]. simpl in Hq.
  pose proof (quiet_inv _ _ Hq Hinv) as Hinv1. pose proof (quiet_no_wrap _ _ Hq Hw) as Hw1.
  case_cond; [done|].
  match goal with |- context [create_resource_object ?a ?b ?c ?d ?e ?f ?g] =>
    pose proof (create_resource_object_inv a b c d e f g Hinv1 Hw1) as Hc end.
  by destruct (create_resource_object _ _ _ _ _ _ _).
Qed.

Lemma handle_get_resource_info_quiet words cap st :
  quiet st (fst (handle_get_resource_info L other_reply words cap st)).
Proof.
  unfold handle_get_resource_info. pose proof (resource_get_info_quiet (word words 0) st) as Hq.
  by destruct (resource_get_info _ _ _ _) as [st1 [info|]].
Qed.

Lemma handle_reassign_resource_quiet words cap st :
  quiet st (fst (handle_reassign_resource L other_reply words cap st)).
Proof.
  unfold handle_reassign_resource. pose proof (resource_get_info_quiet (word words 0) st) as Hq.
  destruct (resource_get_info _ _ _ _) as [st1 [info|]]; [|done]. simpl in Hq.
  do 2 (case_cond; [done|]). unfold resource_reassign.
  pose proof (resource_call_quiet RESOURCE_METHOD_REASSIGN (word words 0) (word words 1) st1) as Hq2.
  destruct (resource_call _ _ _ _ _) as [st2 ok]. simpl in *. by etrans.
Qed.

Lemma handle_preempt_node_quiet words cap st :
  quiet st (fst (handle_preempt_node L other_reply words cap st)).
Proof.
  unfold handle_preempt_node. case_cond; [|reflexivity].
  pose proof (kernel_invoke_quiet (node_find_by_id (word words 0) st) NODE_METHOD_SIGNAL (reply 24 [0]) 0 st
    ltac:(request_short)) as Hq.
  by destruct (Cluster.kernel_invoke _ _ _ _ _ _ _).
Qed.

Lemma handle_submit_job_inv words cap st :
  cinv st -> sane (k st) (word words 5) -> cinv (fst (handle_submit_job words cap st)).
Proof.
  intros Hinv Hs. unfold handle_submit_job.
  match goal with |- context [create_job_object ?a ?b ?c ?d ?e ?f ?g ?h ?i] =>
    pose proof (create_job_object_inv a b c d e f g h i Hinv Hs) as Hc end.
  by destruct (create_job_object _ _ _ _ _ _ _ _ _).
Qed.

(** *** Scheduling *)

Lemma kind_choose_entry entries kind cap c st :
  cinv st -> Forall (fun i => i < MAX_RESOURCE_INDEX)%nat entries ->
  let '(st', c') := kind_choose L other_reply entries kind cap c st in
  c' = c \/ exists i e, g_resource_index st !! i = Some e /\ ri_used e = true /\ c' = ri_handle e.
Proof.
  intros Hinv Hall. revert c st Hinv. induction Hall as [|i entries Hi _ IH]; intros c st Hinv; [by left|].
  simpl. case_cond; [by apply IH|]. bool_simp.
  pose proof (resource_get_info_quiet (ri_handle (g_resource_index st !!? i)) st) as Hq.
  destruct (resource_get_info _ _ _ _) as [st1 info]. simpl in Hq.
  pose proof (quiet_inv _ _ Hq Hinv) as Hinv1.
  pose proof (q_rindex _ _ Hq) as Hri.
  match goal with |- context [kind_choose L other_reply entries kind cap ?c' st1] =>
    specialize (IH c' st1 Hinv1); destruct (kind_choose _ _ _ _ _ c' st1) as [st2 c2] end.
  rewrite Hri in IH. destruct IH as [->|?]; [|by right].
  destruct (candidate_ok cap info); [|by left]. right.
  exists i, (g_resource_index st !!? i). split_and!; [|done|done].
  destruct (ci_res _ Hinv) as (_ & Hlen & _). apply lookup_nth_inh. lia.
Qed.

Lemma entry_sane st i e :
  cinv st -> g_resource_index st !! i = Some e -> ri_used e = true -> sane (k st) (ri_handle e).
Proof.
  intros Hinv He Hu. destruct (ci_res _ Hinv) as (_ & _ & _ & Hidx & _).
  destruct (Hidx i e He Hu) as (s & [_ Hn] & _). intros m n s' Hk. by apply Hn in Hk.
Qed.

Lemma sane_zero (k0 : K) : sane k0 0.
Proof. intros m n s. by rewrite k_null. Qed.

(** The resource [bind_resource_for] settles on. *)
Definition bind_choice (j : job_data_t) st : cstate K * Z :=
  if negb (j_resource_id j =? 0) then (st, j_resource_id j)
  else if negb (j_resource_kind j =? RESOURCE_KIND_NONE)
  then kind_choose L other_reply (seq 0 MAX_RESOURCE_INDEX) (j_resource_kind j) (j_resource_min_capacity j) 0 st
  else (st, 0).

Lemma bind_choice_quiet j st : quiet st (fst (bind_choice j st)).
Proof. unfold bind_choice. case_cond; [reflexivity|]. case_cond; [apply kind_choose_quiet|reflexivity]. Qed.

Lemma bind_choice_sane slot st :
  cinv st -> g_job_storage_used st !! slot = Some true ->
  let '(st1, c) := bind_choice (g_job_storage st !!? slot) st in quiet st st1 /\ sane (k st) c.
Proof.
  intros Hinv Hu. destruct (ci_job _ Hinv) as (_ & _ & _ & Hj). destruct (Hj slot Hu) as [_ [Hs _]].
  unfold bind_choice. case_cond; [by split|]. case_cond; [|by split; [|apply sane_zero]].
  match goal with |- context [kind_choose _ _ ?a ?b ?c ?d ?e] =>
    pose proof (kind_choose_quiet a b c d e) as Hq;
    pose proof (kind_choose_entry a b c d e Hinv) as Hc;
    destruct (kind_choose _ _ a b c d e) as [st1 c1] end.
  split; [done|]. destruct Hc as [->|(i & e & He & Hue & ->)]; [|apply sane_zero|by eapply entry_sane].
  apply Forall_forall. intros i Hi%elem_of_seq. lia.
Qed.

(** Binding keeps the invariant whatever became of the slot meanwhile. *)
Lemma bind_resource_for_inv job slot st :
  cinv st -> cinv (bind_resource_for L other_reply job slot st).
Proof.
  intros Hinv. unfold bind_resource_for. case_cond; [done|].
  pose proof (bind_choice_sane slot st Hinv) as Hc.
  pose proof (bind_choice_quiet (g_job_storage st !!? slot) st) as Hq. unfold bind_choice in Hc, Hq.
  destruct (if negb (j_resource_id _ =? 0) then _ else _) as [st1 c]. cbn [fst] in Hq.
  pose proof (quiet_inv _ _ Hq Hinv) as Hinv1. case_cond; [done|].
  unfold resource_reserve. pose proof (resource_call_quiet RESOURCE_METHOD_RESERVE c job st1) as Hq2.
  pose proof (resource_reserve_resolves c job st1) as Hres. unfold resource_reserve in Hres.
  destruct (resource_call _ _ _ _ _) as [st2 ok]. simpl in Hq2.
  pose proof (quiet_inv _ _ Hq2 Hinv1) as Hinv2. destruct ok; [|done].
  apply set_job_inv; [done|]. intros Hu2.
  destruct Hc as [_ Hs]; [by rewrite <- (q_used _ _ Hq), <- (q_used _ _ Hq2)|].
  rewrite <- (q_k _ _ Hq) in Hs.
  destruct (ci_job _ Hinv2) as (_ & _ & _ & Hj). destruct (Hj slot Hu2) as [_ [Hs2 _]].
  split; [exact Hs2|]. right. simpl. rewrite (q_k _ _ Hq2). by apply (Hres st2).
Qed.

Lemma pick_step_inv node i acc :
  cinv (fst acc) -> cinv (fst (pick_step L other_reply node acc i)).
Proof.
  destruct acc as [st [r b]]. intros Hinv. unfold pick_step. cbn [fst] in *.
  do 3 (case_cond; [done|]).
  pose proof (resource_ok_for_quiet (g_job_handles st !!? i) (g_job_storage st !!? i) st) as Hq.
  destruct (resource_ok_for _ _ _ _) as [st1 ok]. simpl in Hq.
  pose proof (quiet_inv _ _ Hq Hinv) as Hinv1. case_cond; [done|].
  match goal with |- context [if ?c then set_job i ?j st1 else st1] =>
    assert (cinv (if c then set_job i j st1 else st1)) as Hinv2
      by (destruct c; [by apply set_job_refs|done]);
    destruct (if c then set_job i j st1 else st1) end.
  repeat case_cond; done.
Qed.

Lemma pick_fold_inv node slots acc :
  cinv (fst acc) -> cinv (fst (fold_left (pick_step L other_reply node) slots acc)).
Proof.
  revert acc. induction slots as [|i slots IH]; intros acc Hinv; [done|]. simpl.
  apply IH. by apply pick_step_inv.
Qed.

Lemma pick_scan_inv node st : cinv st -> cinv (fst (pick_scan L other_reply node st)).
Proof. intros Hinv. unfold pick_scan. by apply pick_fold_inv. Qed.

Lemma claim_job_inv i st : cinv st -> cinv (fst (claim_job i st)).
Proof. intros Hinv. unfold claim_job. case_cond; [done|]. by apply set_job_refs. Qed.

Lemma assign_job_inv node i st : cinv st -> cinv (assign_job node i st).
Proof. intros Hinv. unfold assign_job. case_cond; [|done]. by apply set_job_refs. Qed.

Lemma pick_next_for_node_inv node st :
  cinv st -> cinv (fst (pick_next_for_node L other_reply node st)).
Proof.
  intros Hinv. unfold pick_next_for_node. pose proof (pick_scan_inv node st Hinv) as Hinv1.
  destruct (pick_scan L other_reply node st) as [st1 [r b]]. cbn [fst] in *.
  destruct (match r with Some i => Some i | None => b end) as [i|]; [|done].
  pose proof (claim_job_inv i st1 Hinv1) as Hinv2. destruct (claim_job i st1) as [st2 won].
  destruct won; [|done]. by apply bind_resource_for_inv, assign_job_inv.
Qed.

Lemma handle_get_next_job_inv words cap st :
  cinv st -> cinv (fst (handle_get_next_job L other_reply words cap st)).
Proof.
  intros Hinv. unfold handle_get_next_job.
  pose proof (pick_next_for_node_inv (word words 0) st Hinv) as H1.
  destruct (pick_next_for_node _ _ _ _) as [st1 [[h i]|]]; [by case_cond|done].
Qed.

(** Taking, releasing or recording under the storage lock touches nothing the
    invariant speaks of. *)
Lemma lock_inv st : cinv st -> cinv (storage_lock_acquire_wait st).
Proof. intros [? ? ? ?]. by split. Qed.
Lemma unlock_inv st : cinv st -> cinv (storage_lock_release st).
Proof. intros [? ? ? ?]. by split. Qed.
Lemma completion_record_inv h v st : cinv st -> cinv (completion_record h v st).
Proof. intros [? ? ? ?]. by split. Qed.

Lemma handle_report_job_result_inv words st :
  cinv st -> cinv (handle_report_job_result L other_reply words st).
Proof.
  intros Hinv. unfold handle_report_job_result. case_cond.
  - case_match; [|by apply unlock_inv, lock_inv].
    apply destroy_job_object_inv, unlock_inv, completion_record_inv, lock_inv.
    eapply quiet_inv; [apply resource_call_quiet|]. by apply unlock_inv, lock_inv.
  - apply unlock_inv. case_match; [|by apply lock_inv].
    apply set_job_refs; [by apply lock_inv|..]; unfold report_update; by repeat case_cond.
Qed.

Lemma handle_get_job_result_inv words cap st :
  cinv st -> cinv (fst (handle_get_job_result words cap st)).
Proof. intros Hinv. by apply unlock_inv, lock_inv. Qed.

Lemma inherit_priority_inv a b st : cinv st -> cinv (inherit_priority a b st).
Proof.
  intros Hinv. unfold inherit_priority. do 2 (case_match; [|done]). case_cond; [|done].
  by apply set_job_refs.
Qed.

Lemma handle_mutex_try_lock_inv words cap st :
  cinv st -> cinv (fst (handle_mutex_try_lock L other_reply words cap st)).
Proof.
  intros Hinv. unfold handle_mutex_try_lock. case_cond; [done|].
  match goal with |- context [Cluster.kernel_invoke _ _ ?h ?m ?w ?c ?s] =>
    pose proof (quiet_inv _ _ (kernel_invoke_quiet h m w c s ltac:(request_short)) Hinv) as H1;
    destruct (Cluster.kernel_invoke _ _ h m w c s) as [st1 [ret resp]] end.
  case_cond; [|done]. cbn [fst]. case_cond; [|done].
  by apply unlock_inv, inherit_priority_inv, lock_inv.
Qed.

Lemma handle_mutex_unlock_inv words st :
  cinv st -> cinv (handle_mutex_unlock L other_reply words st).
Proof.
  intros Hinv. unfold handle_mutex_unlock. case_cond; [done|].
  match goal with |- context [Cluster.kernel_invoke _ _ ?h ?m ?w ?c ?s] =>
    pose proof (quiet_inv _ _ (kernel_invoke_quiet h m w c s ltac:(request_short)) Hinv) as H1;
    destruct (Cluster.kernel_invoke _ _ h m w c s) as [st1 [ret resp]] end.
  case_cond; [|done]. apply unlock_inv. case_match; [|by apply lock_inv].
  apply set_job_refs; [by apply lock_inv|done..].
Qed.

Lemma handler_inv method_id words cap st :
  cinv st -> no_wrap st -> submit_ok method_id words st ->
  cinv (fst (cluster_scheduler_handler L other_reply method_id words cap st)).
Proof.
  intros Hinv Hw Hs. unfold cluster_scheduler_handler.
  case_cond; [by apply handle_join_node_inv|].
  case_cond; [by apply handle_leave_node_inv|].
  case_cond; [by apply handle_request_allocation_inv|].
  case_cond; [by apply handle_declare_resource_inv|].
  case_cond; [by eapply quiet_inv; [apply handle_get_resource_info_quiet|]|].
  case_cond; [by apply handle_allocate_slice_inv|].
  case_cond; [by apply handle_release_slice_inv|].
  case_cond; [by eapply quiet_inv; [apply handle_preempt_node_quiet|]|].
  case_cond; [by eapply quiet_inv; [apply handle_reassign_resource_quiet|]|].
  case_cond; [by apply handle_submit_job_inv, Hs|].
  case_cond; [by apply handle_get_next_job_inv|].
  case_cond; [by apply handle_report_job_result_inv|].
  case_cond; [by apply handle_get_job_result_inv|].
  case_cond; [by apply handle_mutex_try_lock_inv|].
  case_cond; [by apply handle_mutex_unlock_inv|done].
Qed.
End invariant.
