(* ===== verification/ClusterReach.v ===== *)
(** * Every reachable state of the cluster scheduler

    The system as a step relation: initialisation over zeroed arrays, then
    any sequence of requests to the scheduler, each handled as a whole, of
    calls other holders make directly on the objects it handed out, and of
    objects created by other parts of the system.  [cinv] holds in every
    reachable state.  [ClusterRace] takes the requests apart that overlap. *)

From stdpp Require Import gmap.
From S2P Require Import Prelude Capnp TryLock Kernel MemMgr Objects Cluster ClusterInv.

Section reach.
Context `{HL : KernelLaws K}.
Context (L : layout) (other_reply : nat -> Z -> list Z -> Z -> option (list Z)).
Implicit Types (st : cstate K).

(** ** Initialisation *)

(** The arrays have their declared sizes; what they hold does not matter,
    since [cluster_scheduler_init_schema] clears it. *)
Record statics_sized st : Prop := {
  ss_res : length (g_resource_storage st) = RESOURCE_POOL_SIZE;
  ss_ridx : length (g_resource_index st) = MAX_RESOURCE_INDEX;
  ss_node : length (g_node_storage st) = MAX_NODES;
  ss_nidx : length (g_node_index st) = MAX_NODES;
  ss_mutex : length (g_mutex_storage st) = MAX_MUTEXES;
  ss_mh : length (g_mutex_handles st) = MAX_MUTEXES;
  ss_job : length (g_job_storage st) = JOB_POOL_SIZE;
  ss_used : length (g_job_storage_used st) = JOB_POOL_SIZE;
  ss_jh : length (g_job_handles st) = JOB_POOL_SIZE
}.

(** With [done] mutexes created: sizes kept, every index empty, the created
    handles name their mutexes. *)
Record init_loop (created : list nat) st : Prop := {
  il_sized : statics_sized st;
  il_ridx : Forall (fun e => ri_used e = false) (g_resource_index st);
  il_nidx : Forall (fun e => ni_used e = false) (g_node_index st);
  il_used : Forall (fun b => b = false) (g_job_storage_used st);
  il_next : g_resource_storage_next st = 0 /\ g_node_storage_next st = 0;
  il_mutex : forall i, i ∈ created -> g_mutex_handles st !!? i = 0 \/
    names (k st) (g_mutex_handles st !!? i) (OMutex i)
}.

Lemma create_mutexes_loop slots created st :
  NoDup (created ++ slots) -> Forall (fun i => i < MAX_MUTEXES)%nat slots ->
  init_loop created st -> init_loop (created ++ slots) (create_mutexes slots st).
Proof.
  revert created st. induction slots as [|i slots IH]; intros created st Hnd Hall Hil.
  { by rewrite app_nil_r. }
  apply Forall_cons in Hall as [Hi Hall]. simpl. unfold factory_create. cbn [k set_g_mutex_storage].
  destruct (k_create (OMutex i) (k st)) as [k' r] eqn:Hc. rewrite cons_middle, (assoc_L (++)) in Hnd |- *.
  apply IH; [done|done|]. destruct Hil as [[] ? ? ? ? Hm].
  split; [by split; simpl; rewrite ?length_insert|done..|]. simpl. intros i' Hi'.
  apply elem_of_app in Hi' as [Hi'| ->%list_elem_of_singleton].
  - assert (i <> i') as Hne.
    { intros ->. apply NoDup_app in Hnd as (Hnd & _). apply NoDup_app in Hnd as (_ & Hd & _).
      apply (Hd i' Hi'). by apply list_elem_of_singleton. }
    rewrite nth_insert_ne by done. destruct (Hm i' Hi') as [?|Hn]; [by left|right].
    destruct (request_words_0 (OMutex i')) as [n Hw]. by eapply names_create.
  - rewrite nth_insert_eq by lia. destruct r as [h|]; [|by left]. simpl.
    destruct (decide (h = 0)); [by left|right]. by eapply k_create_fresh.
Qed.

Lemma init_loop_inv st : init_loop (seq 0 MAX_MUTEXES) st -> cinv st.
Proof.
  intros [[] Hr Hn Hu [Hr0 Hn0] Hm]. rewrite Forall_lookup in Hr. rewrite Forall_lookup in Hn. rewrite Forall_lookup in Hu. split.
  - unfold res_inv. rewrite Hr0. split; [done|split; [done|split; [done|split]]].
    + intros i e He Hue. by rewrite (Hr i e He) in Hue.
    + intros i j e f He _ Hue. by rewrite (Hr i e He) in Hue.
  - unfold node_inv. rewrite Hn0. split; [done|split; [done|split; [done|split]]].
    + intros i e He Hue. by rewrite (Hn i e He) in Hue.
    + intros i j e f He _ Hue. by rewrite (Hn i e He) in Hue.
  - split; [done|split; [done|split; [done|]]]. intros i Hi. by specialize (Hu i true Hi).
  - split; [done|split; [done|]]. intros i Hi. apply Hm, elem_of_seq. lia.
Qed.

(** The state in which [cluster_scheduler_init_schema] creates its objects. *)
Definition init_cleared (mm : Z) st : cstate K :=
  let st := set_g_memory_manager mm st in
  let st := set_g_storage_lock trylock_init st in
  let st := set_g_node_index (clear_node_index <$> g_node_index st) st in
  let st := set_g_allocs (clear_alloc <$> g_allocs st) st in
  let st := set_g_resource_index (clear_resource_index <$> g_resource_index st) st in
  let st := set_g_job_storage_used ((fun _ => false) <$> g_job_storage_used st) st in
  set_g_node_storage_next 0 (set_g_resource_storage_next 0 st).

Lemma init_split mm st :
  cluster_scheduler_init_schema L mm st =
  let '(st1, pool) := create_resource_object 0 RESOURCE_KIND_MEMORY (ALLOC_MIN L) (ALLOC_MAX L - ALLOC_MIN L)
      RESOURCE_SYNC_TRANSFER 0 (create_mutexes (seq 0 MAX_MUTEXES) (init_cleared mm st)) in
  set_g_pool_resource pool st1.
Proof. reflexivity. Qed.

Lemma init_prepared mm st :
  statics_sized st ->
  let st1 := create_mutexes (seq 0 MAX_MUTEXES) (init_cleared mm st) in
  cinv st1 /\ g_resource_storage_next st1 = 0 /\ g_node_storage_next st1 = 0.
Proof.
  intros []. pose proof (create_mutexes_loop (seq 0 MAX_MUTEXES) [] (init_cleared mm st)) as Hil.
  assert (init_loop [] (init_cleared mm st)) as H0.
  { split; [by split; simpl; rewrite ?length_fmap|..]; simpl;
      [by apply Forall_fmap, Forall_true..|done|by intros i Hi%not_elem_of_nil]. }
  specialize (Hil ltac:(apply NoDup_seq) ltac:(apply Forall_forall; intros i Hi%elem_of_seq; lia) H0).
  rewrite app_nil_l in Hil. split; [by apply init_loop_inv|]. apply (il_next _ _ Hil).
Qed.

Lemma init_inv mm st : statics_sized st -> cinv (cluster_scheduler_init_schema L mm st).
Proof.
  intros Hs. destruct (init_prepared mm st Hs) as (Hinv & E1 & E2). rewrite init_split.
  match goal with |- context [create_resource_object ?a ?b ?c ?d ?e ?f ?g] =>
    pose proof (create_resource_object_inv a b c d e f g Hinv) as Hc;
    destruct (create_resource_object a b c d e f g) as [st1 pool] end.
  destruct Hc as [? ? ? ?]; [|by split]. unfold no_wrap. by rewrite E1, E2.
Qed.

(** ** Steps *)

(** A direct call on an object is any request, except that a holder of a job's
    capability does not overwrite its binding with a handle that is no
    resource. *)
Definition direct_ok (target method_id : Z) (words : list Z) st : Prop :=
  forall s, k_invoke (k st) target method_id (length words) = Some (OJob s) ->
    method_id = JOB_METHOD_UPDATE_SCHEDULING_STATE -> word words 1 = 0 \/ bindable (k st) (word words 1).

(** What an observer sees of a step. *)
Inductive event :=
| ERequest (method_id : Z) (words : list Z) (answer : option (list Z))
| EDirect (target method_id : Z) (words : list Z)
| ECreate (id : nat).

Inductive cstep st : event -> cstate K -> Prop :=
| step_request method_id words cap :
    no_wrap st -> submit_ok method_id words st ->
    cstep st (ERequest method_id words (snd (cluster_scheduler_handler L other_reply method_id words cap st)))
      (fst (cluster_scheduler_handler L other_reply method_id words cap st))
| step_direct target method_id words cap :
    direct_ok target method_id words st ->
    cstep st (EDirect target method_id words)
      (fst (kernel_invoke L other_reply target method_id (Some words) cap st))
| step_create id :
    cstep st (ECreate id) (fst (factory_create (OOther id) st)).

(** A run with the events it shows. *)
Inductive execution : cstate K -> list event -> cstate K -> Prop :=
| exec_nil st : execution st [] st
| exec_cons st e st1 es st2 : cstep st e st1 -> execution st1 es st2 -> execution st (e :: es) st2.

Inductive reachable : cstate K -> Prop :=
| reach_init mm st : statics_sized st -> reachable (cluster_scheduler_init_schema L mm st)
| reach_step st e st' : reachable st -> cstep st e st' -> reachable st'.

Lemma direct_inv target method_id words cap st :
  cinv st -> direct_ok target method_id words st ->
  cinv (fst (kernel_invoke L other_reply target method_id (Some words) cap st)).
Proof.
  intros Hinv Hok. destruct (decide (length words < 6)%nat) as [Hlt|Hge].
  { eapply quiet_inv; [|exact Hinv]. apply kernel_invoke_quiet. by intros ws [= <-]. }
  unfold direct_ok in Hok. unfold kernel_invoke.
  destruct (k_invoke (k st) target method_id (length words)) as [[s|s|s|s| |i]|] eqn:Hk; [..|done].
  - pose proof (resource_handler_kind (g_resource_storage st !!? s) method_id words cap) as Hkind.
    destruct (resource_handler _ _ _ _) as [r a]. simpl in Hkind |- *.
    eapply quiet_inv; [|exact Hinv]. split; try done; simpl; [by rewrite length_insert|]. intros s'.
    destruct (decide (s = s')) as [<-|Hne]; [|by rewrite nth_insert_ne].
    destruct (decide (s < length (g_resource_storage st))%nat); [by rewrite nth_insert_eq|].
    by rewrite list_insert_ge by lia.
  - destruct (node_handler _ _ _) as [a [t|]]; [|done]. eapply quiet_inv; [|exact Hinv]. by split.
  - destruct (mutex_handler _ _ _ _) as [m a]. eapply quiet_inv; [|exact Hinv].
    split; try done; simpl. apply length_insert.
  - pose proof (fun j => set_job_inv s j st Hinv) as Hset. unfold job_handler.
    destruct (ci_job _ Hinv) as (_ & _ & _ & Hj).
    case_cond; [|case_cond]; cbn [fst]; apply Hset; intros Hu; destruct (Hj s Hu) as [_ [Hs Hb]];
      (split; [exact Hs|]); [done| |done]. simpl. by apply (Hok s).
  - destruct (memory_manager_handler _ _ _ _ _) as [m a]. eapply quiet_inv; [|exact Hinv]. by split.
  - done.
Qed.

Lemma cstep_inv st e st' : cinv st -> cstep st e st' -> cinv st'.
Proof.
  intros Hinv [method_id words cap Hw Hs|target method_id words cap Hok|id].
  - by apply handler_inv.
  - by apply direct_inv.
  - pose proof (factory_create_inv (OOther id) st ltac:(by intros ?) Hinv) as Hc.
    by destruct (factory_create (OOther id) st), Hc.
Qed.

Lemma reachable_cinv st : reachable st -> cinv st.
Proof. induction 1 as [mm st Hs|st e st' _ IH Hst]; [by apply init_inv|by eapply cstep_inv]. Qed.

(** C1: in every state reached from initialisation by requests handled one
    after the other, each as a whole, and by direct calls on objects and
    foreign creations between them, the tables agree with the kernel's
    capability table ([cinv]: every used index entry and job slot names the
    live object it caches, node ids are unique, jobs hold no mutex as a
    resource), and a live job handle identifies one slot of the pool.  The
    clients it speaks of submit no job with a mutex as its resource
    ([submit_ok]), write into a job's binding a resource or nothing
    ([direct_ok]), and stop short of wrapping the two 64-bit storage counters
    ([no_wrap]). *)
Theorem reachable_invariant st :
  reachable st ->
  cinv st /\
  forall i i', g_job_storage_used st !! i = Some true -> g_job_storage_used st !! i' = Some true ->
    g_job_handles st !!? i = g_job_handles st !!? i' -> i = i'.
Proof.
  intros Hr. pose proof (reachable_cinv st Hr) as Hinv. split; [done|]. intros i i' Hu Hu' Heq.
  pose proof (job_slot_of_live st i Hinv Hu) as H1. pose proof (job_slot_of_live st i' Hinv Hu') as H2.
  rewrite Heq in H1. congruence.
Qed.

End reach.

(** ** A reachable state *)

Lemma boot_sized : statics_sized (zero_statics boot_kernel mem_boot).
Proof. by split. Qed.

Lemma boot_reachable : reachable layout_x86_64 no_other cluster_boot.
Proof. apply reach_init, boot_sized. Qed.

(** A run of requests on the counter kernel, each of which keeps the counters
    away from the end of their range and submits no mutex as a resource. *)
Fixpoint run_admissible (reqs : list (Z * list Z)) (st : cstate counter_kernel) : bool :=
  match reqs with
  | [] => true
  | (m, ws) :: reqs =>
      (g_resource_storage_next st + 1 <? W64) && (g_node_storage_next st + 1 <? W64) &&
      (negb (m =? METHOD_SUBMIT_JOB) ||
       match ck_objects (k st) !! word ws 5 with Some (OMutex _) => false | _ => true end) &&
      run_admissible reqs (fst (cluster_scheduler_handler layout_x86_64 no_other m ws 128 st))
  end.

Lemma counter_invoke_object (k0 : counter_kernel) h m n o :
  k_invoke k0 h m n = Some o -> ck_objects k0 !! h = Some o.
Proof.
  simpl. destruct (ck_objects k0 !! h) as [o'|]; simpl; [|done].
  destruct (request_words o' m); simpl; [|done]. repeat case_decide; congruence.
Qed.

Lemma counter_names (k0 : counter_kernel) h o :
  ck_objects k0 !! h = Some o -> 0 < h < ck_next k0 -> names k0 h o.
Proof.
  intros Ho Hh. split.
  - intros m n Hr. simpl. rewrite Ho. simpl. rewrite Hr. simpl. by rewrite !decide_True.
  - intros m n o' Hk%counter_invoke_object. congruence.
Qed.

(** The events of such a run. *)
Fixpoint run_events (reqs : list (Z * list Z)) (st : cstate counter_kernel) : list event :=
  match reqs with
  | [] => []
  | (m, ws) :: reqs =>
      let '(st1, a) := cluster_scheduler_handler layout_x86_64 no_other m ws 128 st in
      ERequest m ws a :: run_events reqs st1
  end.

Lemma run_execution reqs st :
  run_admissible reqs st = true ->
  execution layout_x86_64 no_other st (run_events reqs st) (fst (run_requests layout_x86_64 no_other reqs st)).
Proof.
  revert st. induction reqs as [|[m ws] reqs IH]; intros st Ha; [constructor|].
  cbn [run_admissible] in Ha. bool_simp. cbn [run_requests run_events].
  assert (cstep layout_x86_64 no_other st
    (ERequest m ws (snd (cluster_scheduler_handler layout_x86_64 no_other m ws 128 st)))
    (fst (cluster_scheduler_handler layout_x86_64 no_other m ws 128 st))) as Hs.
  { apply step_request; [done|]. intros -> mm n s. intros Hk%counter_invoke_object. by rewrite Hk in *. }
  destruct (cluster_scheduler_handler _ _ m ws 128 st) as [st1 a]. simpl in *.
  specialize (IH st1 ltac:(done)). destruct (run_requests _ _ reqs st1) as [st2 rest].
  by econstructor.
Qed.

Lemma execution_reachable st es st' :
  reachable layout_x86_64 no_other st -> execution layout_x86_64 no_other st es st' ->
  reachable (K := counter_kernel) layout_x86_64 no_other st'.
Proof. intros Hr Hex. induction Hex as [|st e st1 es st2 Hs _ IH]; [done|]. apply IH. by eapply reach_step. Qed.

Lemma run_reachable reqs st :
  reachable layout_x86_64 no_other st -> run_admissible reqs st = true ->
  reachable layout_x86_64 no_other (fst (run_requests layout_x86_64 no_other reqs st)).
Proof. intros Hr Ha. by eapply execution_reachable, run_execution. Qed.

(** Two nodes join, two jobs are submitted (one tied to node 1), one is
    dispatched. *)
Definition demo_requests : list (Z * list Z) :=
  [(METHOD_JOIN_NODE, [1; 0; 5]); (METHOD_JOIN_NODE, [2; 1; 6]);
   (METHOD_DECLARE_RESOURCE, [1; RESOURCE_KIND_PERIPHERAL; 7; 100; RESOURCE_SYNC_TRANSFER]);
   (METHOD_SUBMIT_JOB, [1; 3; 11; 12; 4; 0; 0; 0]);
   (METHOD_SUBMIT_JOB, [NODE_AFFINITY_ANY; 3; 13; 14; 9; 0; RESOURCE_KIND_PERIPHERAL; 50]);
   (METHOD_GET_NEXT_JOB, [1])].

Definition demo_state : cstate counter_kernel :=
  fst (run_requests layout_x86_64 no_other demo_requests cluster_boot).

Lemma boot_eq : cluster_boot = cluster_scheduler_init_schema layout_x86_64 1 (zero_statics boot_kernel mem_boot).
Proof. unfold cluster_boot. reflexivity. Qed.

Lemma demo_execution : execution layout_x86_64 no_other cluster_boot (run_events demo_requests cluster_boot) demo_state.
Proof. unfold demo_state. apply run_execution. vm_compute. reflexivity. Qed.

Lemma demo_reachable : reachable layout_x86_64 no_other demo_state.
Proof. eapply execution_reachable; [apply boot_reachable|apply demo_execution]. Qed.

Lemma reachable_invariant_witness :
  reachable layout_x86_64 no_other demo_state /\ g_job_storage_used demo_state !! 1%nat = Some true /\
  cinv demo_state /\
  forall i i', g_job_storage_used demo_state !! i = Some true -> g_job_storage_used demo_state !! i' = Some true ->
    g_job_handles demo_state !!? i = g_job_handles demo_state !!? i' -> i = i'.
Proof.
  split; [exact demo_reachable|]. split; [vm_compute; reflexivity|].
  exact (reachable_invariant layout_x86_64 no_other demo_state demo_reachable).
Defined.
