(* ===== verification/ClusterPick.v ===== *)
(** * Which job a node gets

    [pick_next_for_node] against its specification.  GET_INFO on anything a
    job may refer to changes no state, so the whole scan is a function of the
    state it starts from ([ready], [mutex_blocked]); the scan then returns
    the slot a priority scheduler must return, and the dispatched job holds
    its resource. *)

From S2P Require Import Prelude Capnp TryLock Kernel MemMgr Objects Cluster ClusterInv ClusterReach.

#[local] Arguments pick_scan : simpl never.

Section pick.
Context `{HL : KernelLaws K}.
Context (L : layout) (other_reply : nat -> Z -> list Z -> Z -> option (list Z)).
Implicit Types (st : cstate K).

(** ** Looking at a resource *)

Definition info_of_words (ws : list Z) : resource_info :=
  {| i_owner_node := word ws 0; i_kind := word ws 1; i_descriptor := word ws 2;
     i_capacity := word ws 3; i_sync_kind := word ws 4; i_reserved_by := word ws 5 |}.

Definition info_of (r : resource_data_t) : resource_info :=
  {| i_owner_node := r_owner_node r; i_kind := r_kind r; i_descriptor := r_descriptor r;
     i_capacity := r_capacity r; i_sync_kind := r_sync_kind r; i_reserved_by := r_reserved_by r |}.

(** What GET_INFO on [h] answers. *)
Definition peek (h : Z) st : option resource_info :=
  if h =? 0 then None
  else match k_invoke (k st) h RESOURCE_METHOD_GET_INFO 1 with
       | Some (OResource s) => Some (info_of (g_resource_storage st !!? s))
       | Some (OOther i) =>
           let resp := other_reply i RESOURCE_METHOD_GET_INFO [0] 64 in
           if response_len resp <? 56 then None else Some (info_of_words (response_words resp))
       | _ => None
       end.

Lemma resource_get_info_peek h st :
  sane (k st) h -> resource_get_info L other_reply h st = (st, peek h st).
Proof.
  intros Hs. unfold resource_get_info, peek. case_cond; [done|].
  change (reply 24 [0]) with (Some [0]). unfold kernel_invoke. cbn [length].
  change RESOURCE_METHOD_GET_INFO with 0.
  destruct (k_invoke (k st) h 0 1) as [[s|s|s|s| |i]|] eqn:Hk; try done.
  - cbn. by rewrite insert_nth_id, set_resources_id.
  - by apply Hs in Hk.
  - cbn. by rewrite insert_nth_id, set_jobs_id.
  - apply k_validates in Hk as (w & [= <-] & Hle). lia.
  - cbn. by case_cond.
Qed.

(** What a state must agree on for [peek] and the scans to agree. *)
Definition same_resources st st' : Prop :=
  k st' = k st /\ g_resource_storage st' = g_resource_storage st /\ g_resource_index st' = g_resource_index st.

Lemma peek_ext h st st' : same_resources st st' -> peek h st' = peek h st.
Proof. intros (Hk & Hr & _). unfold peek. by rewrite Hk, Hr. Qed.

(** Index entry [i] could serve a job that needs [kind]. *)
Definition serves (kind min_capacity : Z) (i : nat) st : bool :=
  let e := g_resource_index st !!? i in
  ri_used e && (ri_kind e =? kind) && candidate_ok min_capacity (peek (ri_handle e) st).

Definition ok_for (job : Z) (j : job_data_t) st : bool :=
  if negb (j_bound_resource_id j =? 0) then
    match peek (j_bound_resource_id j) st with
    | Some i => (i_reserved_by i =? 0) || (i_reserved_by i =? job)
    | None => false
    end
  else if (j_resource_id j =? 0) && (j_resource_kind j =? RESOURCE_KIND_NONE) then true
  else if negb (j_resource_id j =? 0) then
    match peek (j_resource_id j) st with Some i => i_reserved_by i =? 0 | None => false end
  else existsb (fun i => serves (j_resource_kind j) (j_resource_min_capacity j) i st)
         (seq 0 MAX_RESOURCE_INDEX).

Lemma index_sane i st : cinv st -> (i < MAX_RESOURCE_INDEX)%nat ->
  ri_used (g_resource_index st !!? i) = true -> sane (k st) (ri_handle (g_resource_index st !!? i)).
Proof.
  intros Hinv Hi Hu. eapply entry_sane; [done| |exact Hu]. apply lookup_nth_inh.
  destruct (ci_res _ Hinv) as (_ & -> & _). done.
Qed.

Lemma kind_available_peek entries kind cap st :
  cinv st -> Forall (fun i => i < MAX_RESOURCE_INDEX)%nat entries ->
  kind_available L other_reply entries kind cap st = (st, existsb (fun i => serves kind cap i st) entries).
Proof.
  intros Hinv Hall. induction Hall as [|i entries Hi _ IH]; [done|]. simpl. unfold serves at 1.
  destruct (ri_used _) eqn:Hu; [|done]. destruct (ri_kind _ =? kind); [|done]. simpl.
  rewrite resource_get_info_peek by by apply index_sane. by case_cond.
Qed.

Lemma kind_choose_peek entries kind cap c st :
  cinv st -> Forall (fun i => i < MAX_RESOURCE_INDEX)%nat entries ->
  kind_choose L other_reply entries kind cap c st =
  (st, fold_left (fun c i => if serves kind cap i st then ri_handle (g_resource_index st !!? i) else c) entries c).
Proof.
  intros Hinv Hall. revert c. induction Hall as [|i entries Hi _ IH]; intros c; [done|]. simpl. unfold serves at 2.
  destruct (ri_used _) eqn:Hu; [|apply IH]. destruct (ri_kind _ =? kind); [|apply IH]. simpl.
  rewrite resource_get_info_peek by by apply index_sane. apply IH.
Qed.

Lemma entries_bounded : Forall (fun i => i < MAX_RESOURCE_INDEX)%nat (seq 0 MAX_RESOURCE_INDEX).
Proof. apply Forall_forall. intros i Hi%elem_of_seq. lia. Qed.

Lemma bindable_sane (k0 : K) h : bindable k0 h -> sane k0 h.
Proof. intros [_ Hb] m n s Hk. destruct (Hb _ _ _ Hk) as [[? ?]|[? ?]]; done. Qed.

Lemma resource_ok_for_peek job j st :
  cinv st -> job_ok (k st) j -> resource_ok_for L other_reply job j st = (st, ok_for job j st).
Proof.
  intros Hinv [Hs Hb]. unfold resource_ok_for, ok_for. case_cond.
  - destruct Hb as [?|Hb%bindable_sane]; [done|]. by rewrite resource_get_info_peek.
  - case_cond; [done|]. case_cond; [by rewrite resource_get_info_peek|].
    apply kind_available_peek; [done|apply entries_bounded].
Qed.

Lemma ok_for_ext job j st st' : same_resources st st' -> ok_for job j st' = ok_for job j st.
Proof.
  intros Hsame. unfold ok_for, serves. rewrite !(peek_ext _ st st') by done.
  repeat (case_cond; [done|]). destruct Hsame as (Hk & Hr & Hri). rewrite Hri.
  induction (seq 0 MAX_RESOURCE_INDEX) as [|i l IH]; [done|]. simpl. rewrite IH.
  by rewrite (peek_ext _ st st').
Qed.

(** ** The specification of the scan *)

Definition live st (job : Z) : bool := bool_decide (is_Some (job_data_for_handle_locked job st)).

(** Slot [i] holds a job node [node] may run now, blocking aside. *)
Definition candidate (node : Z) st (i : nat) : bool :=
  let j := g_job_storage st !!? i in
  (g_job_storage_used st !!? i) && negb (j_dispatched j) && eligible node j &&
  ok_for (g_job_handles st !!? i) j st.

(** The job waits for another job that is gone. *)
Definition wakes st (j : job_data_t) : bool :=
  negb (j_blocked j =? 0) && (j_block_kind j =? BLOCK_JOB) && negb (live st (j_block_id j)).

Definition ready (node : Z) st (i : nat) : bool :=
  let j := g_job_storage st !!? i in
  candidate node st i && ((j_blocked j =? 0) || wakes st j).

Definition mutex_blocked (node : Z) st (i : nat) : bool :=
  let j := g_job_storage st !!? i in
  candidate node st i && negb (j_blocked j =? 0) && (j_block_kind j =? BLOCK_MUTEX).

Definition prio st (i : nat) : Z := j_effective_priority (g_job_storage st !!? i).

(** What the scan leaves in a slot it has passed. *)
Definition wake_job (node : Z) st (i : nat) : job_data_t :=
  let j := g_job_storage st !!? i in
  if candidate node st i && wakes st j then set_block 0 BLOCK_NONE (j_block_id j) j else j.

(** The accumulator after the first [n] slots of [st0]. *)
Record scanned (node : Z) (st0 : cstate K) (n : nat) (acc : cstate K * (option nat * option nat)) : Prop := {
  sc_st : fst acc = set_g_job_storage (g_job_storage (fst acc)) st0;
  sc_len : length (g_job_storage (fst acc)) = length (g_job_storage st0);
  sc_job : forall i, g_job_storage (fst acc) !!? i =
    if (decide (i < n)%nat) then wake_job node st0 i else g_job_storage st0 !!? i;
  sc_ready : best (ready node st0) (prio st0) n (fst (snd acc));
  sc_blocked : best (mutex_blocked node st0) (prio st0) n (snd (snd acc))
}.

Lemma wake_prio node st i : j_effective_priority (wake_job node st i) = prio st i.
Proof. unfold wake_job. by case_cond. Qed.

Lemma scanned_prio node st0 n acc i : scanned node st0 n acc -> prio (fst acc) i = prio st0 i.
Proof. intros Hsc. unfold prio at 1. rewrite (sc_job _ _ _ _ Hsc). case_decide; [apply wake_prio|done]. Qed.

(** Passing a slot without touching it. *)
Lemma scanned_pass node st0 n acc r b :
  scanned node st0 n acc -> wake_job node st0 n = g_job_storage st0 !!? n ->
  best (ready node st0) (prio st0) (S n) r -> best (mutex_blocked node st0) (prio st0) (S n) b ->
  scanned node st0 (S n) (fst acc, (r, b)).
Proof.
  intros [] Hw Hr Hb. split; simpl; try done. intros i. rewrite sc_job0.
  destruct (decide (i = n)) as [->|]; [by rewrite decide_False, decide_True by lia|].
  repeat case_decide; done || lia.
Qed.

Lemma better_prio st0 n acc node i r :
  scanned node st0 n acc ->
  better (fst acc) i r = match r with None => true | Some b => prio st0 b <? prio st0 i end.
Proof.
  intros Hsc. unfold better. destruct r as [b|]; [|done].
  by rewrite <- (scanned_prio _ _ _ _ b Hsc), <- (scanned_prio _ _ _ _ i Hsc).
Qed.

Lemma live_ext st0 js h : live (set_g_job_storage js st0) h = live st0 h.
Proof. done. Qed.

(** A slot that is no candidate leaves everything as it is. *)
Lemma scanned_skip node st0 n acc :
  candidate node st0 n = false -> scanned node st0 n acc -> scanned node st0 (S n) acc.
Proof.
  intros Hc Hsc. destruct acc as [st [r b]]. pose proof (sc_ready _ _ _ _ Hsc). pose proof (sc_blocked _ _ _ _ Hsc).
  eapply (scanned_pass _ _ _ (st, (r, b))); [done|unfold wake_job; by rewrite Hc|..];
  (apply best_skip; [|done]); unfold ready, mutex_blocked; by rewrite Hc.
Qed.

Lemma pick_step_scanned node st0 n acc :
  cinv st0 -> cinv (fst acc) -> (n < JOB_POOL_SIZE)%nat ->
  scanned node st0 n acc -> scanned node st0 (S n) (pick_step L other_reply node acc n).
Proof.
  intros Hinv0 Hinv Hn Hsc. destruct (ci_job _ Hinv0) as (Hlu & _ & Hlj & _).
  destruct acc as [st [r b]]. cbn [fst] in Hinv.
  pose proof (sc_st _ _ _ _ Hsc) as Est. pose proof (sc_len _ _ _ _ Hsc) as Hlen.
  pose proof (sc_ready _ _ _ _ Hsc) as Hr. pose proof (sc_blocked _ _ _ _ Hsc) as Hb.
  pose proof (sc_job _ _ _ _ Hsc n) as Hjn. rewrite decide_False in Hjn by lia. cbn [fst snd] in *.
  assert (g_job_storage_used st = g_job_storage_used st0 /\ g_job_handles st = g_job_handles st0 /\
    same_resources st0 st) as (Hu & Hh & Hsame) by (rewrite Est; done).
  assert (forall h, job_data_for_handle_locked h st = job_data_for_handle_locked h st0) as Hlive
    by (intros h; by rewrite Est).
  unfold pick_step. rewrite Hu, Hh, Hjn.
  destruct (candidate node st0 n) eqn:Hc; unfold candidate in Hc.
  2: { destruct (g_job_storage_used st0 !!? n) eqn:Hun; simpl in Hc |- *; [|by apply scanned_skip; [unfold candidate; rewrite Hun|]].
       destruct (j_dispatched _) eqn:Hd; simpl in Hc |- *; [by apply scanned_skip; [unfold candidate; rewrite Hun, Hd|]|].
       destruct (eligible _ _) eqn:He; simpl in Hc |- *; [|by apply scanned_skip; [unfold candidate; rewrite Hun, Hd, He|]].
       destruct (ci_job _ Hinv) as (_ & _ & _ & Hj).
       destruct (Hj n) as [_ Hok]; [rewrite Hu, (lookup_nth_inh _ n) by lia; by rewrite Hun|]. rewrite Hjn in Hok.
       rewrite resource_ok_for_peek, (ok_for_ext _ _ st0 st), Hc by done. simpl.
       apply scanned_skip; [unfold candidate; by rewrite Hun, Hd, He|done]. }
  pose proof Hc as Hc'.
  apply andb_true_iff in Hc' as [[[Hun Hnd]%andb_true_iff He]%andb_true_iff Hokf].
  destruct (ci_job _ Hinv) as (_ & _ & _ & Hj).
  destruct (Hj n) as [_ Hok]; [rewrite Hu, (lookup_nth_inh _ n) by lia; by rewrite Hun|]. rewrite Hjn in Hok.
  rewrite Hun, He. apply negb_true_iff in Hnd. rewrite Hnd. simpl.
  rewrite resource_ok_for_peek, (ok_for_ext _ _ st0 st), Hokf by done. simpl.
  rewrite Hjn, Hlive. fold (live st0 (j_block_id (g_job_storage st0 !!? n))).
  fold (wakes st0 (g_job_storage st0 !!? n)). set (j0 := g_job_storage st0 !!? n) in *.
  assert (candidate node st0 n = true) as Hcand by done.
  destruct (wakes st0 j0) eqn:Hw.
  - (* the job it waited for is gone *)
    assert (scanned node st0 (S n)
      (set_job n (set_block 0 BLOCK_NONE (j_block_id j0) j0) st,
       (if match r with None => true | Some b => prio st0 b <? prio st0 n end then Some n else r, b))) as Hnew.
    { split; cbn [fst snd].
      - rewrite Est. done.
      - simpl. by rewrite length_insert.
      - intros i. destruct (decide (i = n)) as [->|Hne].
        + rewrite decide_True by lia. simpl. rewrite nth_insert_eq by lia.
          unfold wake_job. fold j0. by rewrite Hcand, Hw.
        + simpl. rewrite nth_insert_ne by done. rewrite (sc_job _ _ _ _ Hsc). repeat case_decide; done || lia.
      - apply best_take; [|done]. unfold ready. fold j0. rewrite Hcand, Hw. by rewrite orb_true_r.
      - apply best_skip; [|done]. unfold mutex_blocked. fold j0. unfold wakes in Hw. bool_simp.
        match goal with E : j_block_kind j0 = _ |- _ => rewrite E end. apply andb_false_r. }
    replace (g_job_storage (set_job n (set_block 0 BLOCK_NONE (j_block_id j0) j0) st) !!? n)
      with (set_block 0 BLOCK_NONE (j_block_id j0) j0) by (simpl; by rewrite nth_insert_eq by lia).
    assert (better (set_job n (set_block 0 BLOCK_NONE (j_block_id j0) j0) st) n r =
            match r with None => true | Some b => prio st0 b <? prio st0 n end) as ->.
    { by apply (better_prio _ _ _ _ n r) in Hnew. }
    exact Hnew.
  - rewrite Hjn. fold j0. rewrite !(better_prio st0 n (st, (r, b)) node) by done.
    assert (wake_job node st0 n = g_job_storage st0 !!? n) as Hwk by (unfold wake_job; fold j0; by rewrite Hcand, Hw).
    destruct (j_blocked j0 =? 0) eqn:Hb0; [|destruct (j_block_kind j0 =? BLOCK_MUTEX) eqn:Hbk];
    (eapply (scanned_pass _ _ _ (st, (r, b))); [done|done| |]);
    first [apply best_take; [|done] | apply best_skip; [|done]];
    unfold ready, mutex_blocked; fold j0; by rewrite Hcand, ?Hw, ?Hb0, ?Hbk.
Qed.

Lemma pick_scan_scanned node st :
  cinv st -> scanned node st JOB_POOL_SIZE (pick_scan L other_reply node st).
Proof.
  intros Hinv. unfold pick_scan.
  assert (forall n, (n <= JOB_POOL_SIZE)%nat ->
    scanned node st n (fold_left (pick_step L other_reply node) (seq 0 n) (st, (None, None)))) as Hn; [|by apply Hn].
  induction n as [|n IH]; intros Hn.
  - split; simpl; try done; [by destruct st|intros i Hi; lia..].
  - rewrite seq_S, fold_left_app. simpl. apply pick_step_scanned; [done| |lia|apply IH; lia].
    by apply pick_fold_inv.
Qed.

(** ** Dispatch *)

(** The slot a node gets: the best ready one, or failing any, the best one
    blocked on a mutex (which will retry it). *)
Definition chosen (node : Z) st (i : nat) : Prop :=
  best (ready node st) (prio st) JOB_POOL_SIZE (Some i) \/
  (best (ready node st) (prio st) JOB_POOL_SIZE None /\
   best (mutex_blocked node st) (prio st) JOB_POOL_SIZE (Some i)).

Definition idle (node : Z) st : Prop :=
  forall i, (i < JOB_POOL_SIZE)%nat -> ready node st i = false /\ mutex_blocked node st i = false.

Lemma chosen_candidate node st i : chosen node st i -> (i < JOB_POOL_SIZE)%nat /\ candidate node st i = true.
Proof.
  intros [(Hi & HP & _)|[_ (Hi & HP & _)]]; (split; [done|]).
  - unfold ready in HP. by apply andb_true_iff in HP as [? _].
  - unfold mutex_blocked in HP. by apply andb_true_iff in HP as [[? _]%andb_true_iff _].
Qed.

Lemma candidate_used node st i : (i < JOB_POOL_SIZE)%nat -> cinv st -> candidate node st i = true ->
  g_job_storage_used st !! i = Some true /\ j_dispatched (g_job_storage st !!? i) = false.
Proof.
  intros Hi Hinv Hc. unfold candidate in Hc.
  apply andb_true_iff in Hc as [[[Hun Hnd]%andb_true_iff He]%andb_true_iff Hokf].
  apply negb_true_iff in Hnd. split; [|done]. destruct (ci_job _ Hinv) as (Hlu & _).
  rewrite (lookup_nth_inh _ i) by lia. by rewrite Hun.
Qed.

(** The job of slot [i] as it is handed to [node], before its resource is
    bound. *)
Definition handed (node : Z) st (i : nat) : job_data_t :=
  let j := set_dispatched true (wake_job node st i) in
  if j_assigned_node j =? NODE_AFFINITY_ANY then set_assigned_node node j else j.

Definition handed_state (node : Z) st (i : nat) : cstate K :=
  set_job i (handed node st i) (fst (pick_scan L other_reply node st)).

Lemma set_job_twice i j j' st : set_job i j' (set_job i j st) = set_job i j' st.
Proof. unfold set_job, set_g_job_storage. simpl. by rewrite list_insert_insert_eq. Qed.

Lemma pick_next_cases node st :
  cinv st ->
  (exists i, chosen node st i /\
     pick_next_for_node L other_reply node st =
       (bind_resource_for L other_reply (g_job_handles st !!? i) i (handed_state node st i),
        Some (g_job_handles st !!? i, i))) \/
  (idle node st /\ pick_next_for_node L other_reply node st = (fst (pick_scan L other_reply node st), None)).
Proof.
  intros Hinv. pose proof (pick_scan_scanned node st Hinv) as Hsc. unfold handed_state, pick_next_for_node.
  destruct (pick_scan L other_reply node st) as [st1 [r b]].
  pose proof (sc_ready _ _ _ _ Hsc) as Hr. pose proof (sc_blocked _ _ _ _ Hsc) as Hb. cbn [fst snd] in *.
  destruct (match r with Some i => Some i | None => b end) as [i|] eqn:Hi.
  2: { right. destruct r; [done|]. subst b. split; [|done]. intros i Hlt. split; [by apply Hr|by apply Hb]. }
  left. exists i.
  assert (chosen node st i) as Hch by (destruct r as [i'|]; [left; by simplify_eq|right; by subst b]).
  split; [done|]. destruct (chosen_candidate _ _ _ Hch) as [Hlt Hc].
  destruct (candidate_used _ _ _ Hlt Hinv Hc) as [Hu Hd].
  pose proof (sc_job _ _ _ _ Hsc i) as Hji. rewrite decide_True in Hji by done. cbn [fst] in Hji.
  unfold claim_job. rewrite Hji.
  assert (j_dispatched (wake_job node st i) = false) as ->.
  { unfold wake_job. by case_cond. }
  destruct (ci_job _ Hinv) as (_ & _ & Hlj & _). pose proof (sc_len _ _ _ _ Hsc) as Hlen. cbn [fst] in Hlen.
  assert (g_job_handles st1 = g_job_handles st) as ->.
  { pose proof (sc_st _ _ _ _ Hsc) as E. cbn [fst] in E. by rewrite E. }
  cbn [negb]. unfold assign_job, handed. cbn [g_job_storage set_job set_g_job_storage].
  rewrite nth_insert_eq by lia. case_cond; [|done]. by rewrite set_job_twice.
Qed.

(** Binding a resource changes nothing of the jobs but this one's binding. *)
Lemma bind_resource_for_jobs h i st :
  let st' := bind_resource_for L other_reply h i st in
  g_job_storage_used st' = g_job_storage_used st /\ g_job_handles st' = g_job_handles st /\
  length (g_job_storage st') = length (g_job_storage st) /\
  (forall i', i' <> i -> g_job_storage st' !!? i' = g_job_storage st !!? i') /\
  ((i < length (g_job_storage st))%nat ->
   exists b, g_job_storage st' !!? i = set_bound_resource b (g_job_storage st !!? i)).
Proof.
  assert (forall j, j = set_bound_resource (j_bound_resource_id j) j) as Hid by by intros [].
  unfold bind_resource_for. case_cond; [split_and!; eauto|].
  match goal with |- context [let '(_, _) := ?t in _] => assert (quiet st (fst t)) as Hq end.
  { case_cond; [reflexivity|]. case_cond; [apply kind_choose_quiet|reflexivity]. }
  destruct (if negb (j_resource_id _ =? 0) then _ else _) as [st1 c]. cbn [fst] in Hq.
  assert (forall st2, quiet st st2 -> g_job_storage_used st2 = g_job_storage_used st /\
    g_job_handles st2 = g_job_handles st /\ g_job_storage st2 = g_job_storage st) as Hsame
    by (intros st2 []; done).
  case_cond; [destruct (Hsame _ Hq) as (-> & -> & ->); split_and!; eauto|].
  unfold resource_reserve. pose proof (resource_call_quiet L other_reply RESOURCE_METHOD_RESERVE c h st1) as Hq2.
  destruct (resource_call _ _ _ _ _) as [st2 ok]. cbn [fst] in Hq2.
  destruct (Hsame st2) as (Hu & Hh & Hjs); [by etrans|].
  destruct ok; simpl; rewrite Hu, Hh, Hjs; [|split_and!; eauto]. split_and!; try done.
  - apply length_insert.
  - intros i' Hne. by rewrite nth_insert_ne.
  - intros Hlt. exists c. by rewrite nth_insert_eq.
Qed.

Lemma bind_resource_for_completions h i st :
  g_completions (bind_resource_for L other_reply h i st) = g_completions st.
Proof.
  unfold bind_resource_for. case_cond; [done|].
  match goal with |- context [let '(_, _) := ?t in _] => assert (quiet st (fst t)) as Hq end.
  { case_cond; [reflexivity|]. case_cond; [apply kind_choose_quiet|reflexivity]. }
  destruct (if negb (j_resource_id _ =? 0) then _ else _) as [st1 c]. cbn [fst] in Hq.
  case_cond; [apply Hq|].
  unfold resource_reserve. pose proof (resource_call_quiet L other_reply RESOURCE_METHOD_RESERVE c h st1) as Hq2.
  destruct (resource_call _ _ _ _ _) as [st2 ok]. cbn [fst] in Hq2.
  assert (g_completions st2 = g_completions st) as E by (etrans; [apply Hq2|apply Hq]). by destruct ok.
Qed.

(** There is one slot a node is given. *)
Lemma chosen_unique node st i i' : chosen node st i -> chosen node st i' -> i = i'.
Proof.
  intros [Hb|[Hn Hb]] [Hb'|[Hn' Hb']].
  - by injection (best_unique _ _ _ _ _ Hb Hb').
  - discriminate (best_unique _ _ _ _ _ Hb Hn').
  - discriminate (best_unique _ _ _ _ _ Hn Hb').
  - by injection (best_unique _ _ _ _ _ Hb Hb').
Qed.

Lemma chosen_not_idle node st i : chosen node st i -> idle node st -> False.
Proof.
  intros Hc Hi. destruct (Hi i) as [Hr Hm]; [exact (proj1 (chosen_candidate _ _ _ Hc))|].
  destruct Hc as [(_ & Hr' & _)|[_ (_ & Hm' & _)]]; congruence.
Qed.

Lemma handed_job node st i :
  let j := g_job_storage st !!? i in
  j_dispatched (handed node st i) = true /\ j_type (handed node st i) = j_type j /\
  j_arg0 (handed node st i) = j_arg0 j /\ j_arg1 (handed node st i) = j_arg1 j /\
  j_assigned_node (handed node st i) =
    (if j_assigned_node j =? NODE_AFFINITY_ANY then node else j_assigned_node j) /\
  j_bound_resource_id (handed node st i) = j_bound_resource_id j /\
  j_resource_id (handed node st i) = j_resource_id j /\
  j_resource_kind (handed node st i) = j_resource_kind j /\
  j_resource_min_capacity (handed node st i) = j_resource_min_capacity j.
Proof.
  unfold handed, wake_job. destruct (candidate _ _ _ && wakes _ _); simpl; case_cond; done.
Qed.

(** What the scan leaves of a job. *)
Lemma scan_job node st i :
  cinv st -> (i < JOB_POOL_SIZE)%nat ->
  g_job_storage (fst (pick_scan L other_reply node st)) !!? i = wake_job node st i.
Proof.
  intros Hinv Hi. pose proof (pick_scan_scanned node st Hinv) as Hsc.
  by rewrite (sc_job _ _ _ _ Hsc), decide_True.
Qed.

Lemma scan_length node st :
  cinv st -> length (g_job_storage (fst (pick_scan L other_reply node st))) = JOB_POOL_SIZE.
Proof.
  intros Hinv. rewrite (sc_len _ _ _ _ (pick_scan_scanned node st Hinv)). apply (ci_job _ Hinv).
Qed.

Lemma handed_storage node st i :
  g_job_storage (handed_state node st i) =
  <[i := handed node st i]> (g_job_storage (fst (pick_scan L other_reply node st))).
Proof. unfold handed_state. by destruct (pick_scan L other_reply node st). Qed.

(** The jobs after a dispatch. *)
Lemma dispatch_jobs node st i :
  cinv st -> chosen node st i ->
  let st' := bind_resource_for L other_reply (g_job_handles st !!? i) i (handed_state node st i) in
  (exists b, g_job_storage st' !!? i = set_bound_resource b (handed node st i)) /\
  forall i', (i' < JOB_POOL_SIZE)%nat -> i' <> i -> g_job_storage st' !!? i' = wake_job node st i'.
Proof.
  intros Hinv Hch st'. pose proof (proj1 (chosen_candidate _ _ _ Hch)) as Hi.
  pose proof (bind_resource_for_jobs (g_job_handles st !!? i) i (handed_state node st i)) as Hb.
  fold st' in Hb. destruct Hb as (_ & _ & _ & Hother & Hself).
  pose proof (scan_length node st Hinv) as Hlen. split.
  - destruct Hself as [b Hb]; [by rewrite handed_storage, length_insert, Hlen|].
    exists b. by rewrite Hb, handed_storage, nth_insert_eq by by rewrite Hlen.
  - intros i' Hi' Hne. by rewrite Hother, handed_storage, nth_insert_ne, scan_job.
Qed.

(** C2: GET_NEXT_JOB is a priority scheduler.  Its answer is a live,
    undispatched job the node may run and whose resource is available: among
    the ready ones (a job waiting for a job that no longer exists counts as
    ready) the one of highest effective priority, the lowest slot among
    equals; only if none is ready, the best one that waits for a mutex; and
    "no job" exactly when there is neither.  The job handed out, and no other
    one, becomes dispatched, and a job of no node becomes the node's. *)
Theorem get_next_job_optimal words cap st :
  cinv st ->
  let node := word words 0 in
  let '(st', answer) := handle_get_next_job L other_reply words cap st in
  (exists i, chosen node st i /\
     (let j := g_job_storage st !!? i in
      answer = reply cap [1; g_job_handles st !!? i; j_type j; j_arg0 j; j_arg1 j] /\
      j_dispatched (g_job_storage st' !!? i) = true /\
      j_assigned_node (g_job_storage st' !!? i) =
        (if j_assigned_node j =? NODE_AFFINITY_ANY then node else j_assigned_node j)) /\
     forall i', (i' < JOB_POOL_SIZE)%nat -> i' <> i ->
       g_job_storage st' !!? i' = wake_job node st i') \/
  (idle node st /\ answer = reply cap [0; 0; 0; 0; 0] /\
   forall i', (i' < JOB_POOL_SIZE)%nat -> g_job_storage st' !!? i' = wake_job node st i').
Proof.
  intros Hinv node. unfold handle_get_next_job. fold node.
  destruct (pick_next_cases node st Hinv) as [(i & Hch & ->)|[Hidle ->]].
  2: { right. split; [done|]. split; [done|]. intros i' Hi'. by apply scan_job. }
  destruct (dispatch_jobs node st i Hinv Hch) as [[b Hb] Hother].
  destruct (chosen_candidate _ _ _ Hch) as [Hi Hc]. destruct (candidate_used _ _ _ Hi Hinv Hc) as [Hu _].
  destruct (ci_job _ Hinv) as (_ & _ & _ & Hj). destruct (Hj i Hu) as [Hn _]. apply names_nz in Hn.
  cbv beta iota. rewrite (proj2 (Z.eqb_neq _ _) Hn). left. exists i. split; [done|]. rewrite Hb.
  destruct (handed_job node st i) as (Hd & Ht & Ha0 & Ha1 & Hnode & _).
  split; [|exact Hother]. cbn [j_type j_arg0 j_arg1 j_dispatched j_assigned_node set_bound_resource with_sched].
  rewrite Ht, Ha0, Ha1. split; [done|split; [done|done]].
Qed.
End pick.

(** The demonstration run before its last request, GET_NEXT_JOB. *)
Definition demo_submitted : cstate counter_kernel :=
  fst (run_requests layout_x86_64 no_other (take 5 demo_requests) cluster_boot).

Lemma demo_submitted_inv : cinv demo_submitted.
Proof.
  eapply reachable_cinv. apply run_reachable; [apply boot_reachable|vm_compute; reflexivity].
Qed.

Lemma get_next_job_optimal_witness :
  snd (handle_get_next_job layout_x86_64 no_other [1] 128 demo_submitted) =
    Some [1; g_job_handles demo_submitted !!? 1%nat; 3; 13; 14] /\
  let '(st', answer) := handle_get_next_job layout_x86_64 no_other [1] 128 demo_submitted in
  (exists i, chosen no_other 1 demo_submitted i /\
     (let j := g_job_storage demo_submitted !!? i in
      answer = reply 128 [1; g_job_handles demo_submitted !!? i; j_type j; j_arg0 j; j_arg1 j] /\
      j_dispatched (g_job_storage st' !!? i) = true /\
      j_assigned_node (g_job_storage st' !!? i) =
        (if j_assigned_node j =? NODE_AFFINITY_ANY then 1 else j_assigned_node j)) /\
     forall i', (i' < JOB_POOL_SIZE)%nat -> i' <> i ->
       g_job_storage st' !!? i' = wake_job no_other 1 demo_submitted i') \/
  (idle no_other 1 demo_submitted /\ answer = reply 128 [0; 0; 0; 0; 0] /\
   forall i', (i' < JOB_POOL_SIZE)%nat -> g_job_storage st' !!? i' = wake_job no_other 1 demo_submitted i').
Proof.
  split; [vm_compute; reflexivity|].
  exact (get_next_job_optimal layout_x86_64 no_other [1] 128 demo_submitted demo_submitted_inv).
Defined.
