(* ===== verification/ClusterTrace.v ===== *)
(** * Dispatch along an execution

    A job that has been handed out is not handed out again before somebody
    reports on it, over any sequence of requests (each handled as a whole),
    direct calls and creations.  [ClusterRace] cuts the requests that hand out
    jobs into their steps. *)

From S2P Require Import Prelude Capnp TryLock Kernel MemMgr Objects Cluster ClusterInv ClusterReach ClusterPick.

Section trace.
Context `{HL : KernelLaws K}.
Context (L : layout) (other_reply : nat -> Z -> list Z -> Z -> option (list Z)).
Implicit Types (st : cstate K).

(** From [st] to [st'] no job outside [X] becomes undispatched: a used slot
    of [st'] was the same job's in [st], as dispatched as it is now or less,
    or its handle is new. *)
Record tame (X : Z -> Prop) st st' : Prop := {
  t_issued : forall h, k_issued (k st) h -> k_issued (k st') h;
  t_job : forall i, g_job_storage_used st' !! i = Some true ->
    (~ k_issued (k st) (g_job_handles st' !!? i)) \/
    (g_job_storage_used st !! i = Some true /\ g_job_handles st' !!? i = g_job_handles st !!? i /\
     (X (g_job_handles st !!? i) \/
      (j_dispatched (g_job_storage st !!? i) = true -> j_dispatched (g_job_storage st' !!? i) = true)))
}.

#[export] Instance tame_preorder X : PreOrder (tame X).
Proof.
  split.
  - intros st. split; [done|]. intros i Hu. right. auto.
  - intros st1 st2 st3 [Hi1 Hj1] [Hi2 Hj2]. split; [auto|]. intros i Hu.
    destruct (Hj2 i Hu) as [Hn|(Hu2 & Hh2 & Hd2)]; [left; by intros ?%Hi1|].
    destruct (Hj1 i Hu2) as [Hn|(Hu1 & Hh1 & Hd1)]; [left; by rewrite Hh2|]. right.
    split_and!; [done|congruence|]. rewrite Hh1 in Hd2. destruct Hd1 as [?|Hd1]; [by left|].
    destruct Hd2 as [?|Hd2]; [by left|right; auto].
Qed.

Lemma tame_weaken X st st' : tame (fun _ => False) st st' -> tame X st st'.
Proof.
  intros [Hi Hj]. split; [done|]. intros i Hu. destruct (Hj i Hu) as [?|(? & ? & [[]|?])]; [by left|right; auto].
Qed.

(** Steps that leave the kernel's table and the jobs' dispatch state alone. *)
Lemma tame_same X st st' :
  k st' = k st -> g_job_storage_used st' = g_job_storage_used st -> g_job_handles st' = g_job_handles st ->
  g_job_storage st' = g_job_storage st -> tame X st st'.
Proof. intros Hk Hu Hh Hs. split; [by rewrite Hk|]. rewrite Hu, Hh, Hs. intros i Hui. right. auto. Qed.

Lemma quiet_tame X st st' : quiet st st' -> tame X st st'.
Proof. intros []. by apply tame_same. Qed.

Lemma set_job_tame X i j st :
  (j_dispatched (g_job_storage st !!? i) = true -> j_dispatched j = true) -> tame X st (set_job i j st).
Proof.
  intros Hd. split; [done|]. intros i' Hu. right. split_and!; [done..|right]. simpl.
  destruct (decide (i = i')) as [<-|Hne]; [|by rewrite nth_insert_ne].
  destruct (decide (i < length (g_job_storage st))%nat); [by rewrite nth_insert_eq|].
  by rewrite list_insert_ge by lia.
Qed.

Lemma factory_create_tame X o st : tame X st (fst (factory_create o st)).
Proof.
  unfold factory_create. destruct (k_create o (k st)) as [k' r] eqn:Hc. split; simpl.
  - intros h Hh. apply (k_create_others _ _ _ _ Hc). by left.
  - intros i Hu. right. auto.
Qed.

Lemma factory_destroy_tame X h st : tame X st (factory_destroy h st).
Proof. split; simpl; [intros h' Hh; by apply k_destroy_issued|]. intros i Hu. right. auto. Qed.

Lemma job_free_tame X i st : tame X st (set_job_used i false st).
Proof.
  split; [done|]. simpl. intros i' Hu. right.
  apply lookup_insert_cases in Hu as [(_ & ? & _)|[_ Hu]]; [done|auto].
Qed.

Lemma destroy_job_object_tame X h st : tame X st (destroy_job_object h st).
Proof.
  unfold destroy_job_object. case_match; [|reflexivity].
  etrans; [apply job_free_tame|apply factory_destroy_tame].
Qed.

Lemma create_resource_object_tame X a b c d e f st : tame X st (fst (create_resource_object a b c d e f st)).
Proof.
  unfold create_resource_object. case_cond; [by apply tame_same|].
  match goal with |- context [factory_create ?o ?s] =>
    assert (tame X st s) as Ht by (by apply tame_same);
    pose proof (factory_create_tame X o s) as Hf; destruct (factory_create o s) as [s' r] end.
  simpl in Hf. case_cond; (etrans; [exact Ht|]); [done|]. etrans; [exact Hf|].
  unfold resource_index_claim. simpl. case_match; by apply tame_same.
Qed.

Lemma create_node_object_tame X a b c st : tame X st (fst (create_node_object a b c st)).
Proof.
  unfold create_node_object. case_cond; [by apply tame_same|].
  match goal with |- context [factory_create ?o ?s] =>
    assert (tame X st s) as Ht by (by apply tame_same);
    pose proof (factory_create_tame X o s) as Hf; destruct (factory_create o s) as [s' r] end.
  simpl in Hf. case_cond; (etrans; [exact Ht|]); [done|]. etrans; [exact Hf|].
  unfold node_index_claim. simpl. case_match; by apply tame_same.
Qed.

Lemma create_job_object_tame X a b c d e f g h st :
  cinv st -> tame X st (fst (create_job_object a b c d e f g h st)).
Proof.
  intros Hinv. destruct (ci_job _ Hinv) as (Hlu & Hlh & Hls & _). unfold create_job_object.
  destruct (first_index negb _) as [slot|] eqn:Hslot; [|reflexivity].
  apply first_index_lt in Hslot. unfold factory_create. cbn [k set_job set_job_used set_g_job_storage set_g_job_storage_used].
  destruct (k_create (OJob slot) (k st)) as [k' r] eqn:Hc.
  pose proof (k_create_others _ _ _ _ Hc) as [Hiss _].
  destruct (default 0 r =? 0) eqn:Hz; bool_simp; split; simpl.
  - intros x Hx. apply Hiss. by left.
  - intros i Hu. rewrite list_insert_insert_eq in Hu.
    apply lookup_insert_cases in Hu as [(_ & ? & _)|[Hne Hu]]; [done|]. right. rewrite nth_insert_ne by done. auto.
  - intros x Hx. apply Hiss. by left.
  - intros i Hu. apply lookup_insert_cases in Hu as [(<- & _ & _)|[Hne Hu]].
    + left. rewrite nth_insert_eq by lia. destruct r as [x|]; simpl in *; [|done].
      by eapply k_create_fresh.
    + right. rewrite !nth_insert_ne by done. auto.
Qed.

(** ** Each handler *)

(** Run the leading call of a handler, whose state change is [lem], and go on
    from the state it leaves. *)
Ltac after lem :=
  let Ht := fresh "Ht" in
  pose proof lem as Ht;
  match type of Ht with
  | _ _ _ (fst ?t) => destruct t as [? ?]; cbn [fst] in Ht
  | _ _ (fst ?t) => apply (quiet_tame (fun _ => False)) in Ht; destruct t as [? ?]; cbn [fst] in Ht
  end;
  etrans; [exact Ht|].

Ltac request_short := let ws := fresh in intros ws [= <-]; simpl; lia.

Local Abbreviation T := (tame (fun _ => False)).

Lemma resource_get_info_tame h st : T st (fst (resource_get_info L other_reply h st)).
Proof. apply quiet_tame, resource_get_info_quiet. Qed.

Lemma resource_call_tame m h a st : T st (fst (resource_call L other_reply m h a st)).
Proof. apply quiet_tame, resource_call_quiet. Qed.

Lemma kernel_invoke_tame h m msg cap st :
  (forall ws, msg = Some ws -> length ws < 6)%nat -> T st (fst (kernel_invoke L other_reply h m msg cap st)).
Proof. intros Hl. by apply quiet_tame, kernel_invoke_quiet. Qed.

Lemma resource_index_clear_tame i st : T st (resource_index_clear i st).
Proof. by apply tame_same. Qed.

Lemma leave_sweep_resources_tame entries node_id st :
  T st (leave_sweep_resources L other_reply entries node_id st).
Proof.
  revert st. induction entries as [|i entries IH]; intros st; [reflexivity|]. simpl.
  case_cond; [apply IH|]. after (resource_get_info_tame (ri_handle (g_resource_index st !!? i)) st).
  case_match; [|apply IH]. case_cond; [|apply IH]. etrans; [|apply IH].
  etrans; [apply factory_destroy_tame|apply resource_index_clear_tame].
Qed.

Lemma leave_sweep_job_tame node_id i st : T st (leave_sweep_job L other_reply node_id i st).
Proof.
  unfold leave_sweep_job. do 3 (case_cond; try reflexivity).
  - etrans; [apply resource_call_tame|apply destroy_job_object_tame].
  - by apply set_job_tame.
Qed.

Lemma handle_leave_node_tame words st : T st (handle_leave_node L other_reply words st).
Proof.
  unfold handle_leave_node. case_cond; [reflexivity|].
  assert (T st (node_destroy (word words 0) st)) as Hd.
  { unfold node_destroy. case_match; [|reflexivity].
    etrans; [apply factory_destroy_tame|]. by apply tame_same. }
  etrans; [exact Hd|].
  etrans; [apply (leave_sweep_resources_tame (seq 0 MAX_RESOURCE_INDEX) (word words 0))|].
  generalize (leave_sweep_resources L other_reply (seq 0 MAX_RESOURCE_INDEX) (word words 0)
    (node_destroy (word words 0) st)). generalize (seq 0 JOB_POOL_SIZE).
  unfold leave_sweep_jobs. induction l as [|i l IH]; intros st1; [reflexivity|]. simpl.
  etrans; [apply leave_sweep_job_tame|apply IH].
Qed.

Lemma handle_request_allocation_tame words cap st : T st (fst (handle_request_allocation L other_reply words cap st)).
Proof.
  unfold handle_request_allocation.
  after (kernel_invoke_tame (g_memory_manager st) 0 (reply 48 [word words 1; word words 2; word words 3]) 24 st ltac:(request_short)).
  destruct p as [ret resp]. case_cond; [|reflexivity].
  match goal with |- context [create_resource_object ?a ?b ?x ?d ?e ?f ?g] =>
    pose proof (create_resource_object_tame (fun _ => False) a b x d e f g) as Hc;
    destruct (create_resource_object a b x d e f g) end.
  etrans; [|exact Hc]. unfold alloc_record. case_match; by apply tame_same.
Qed.

Lemma handle_allocate_slice_tame words cap st : T st (fst (handle_allocate_slice L other_reply words cap st)).
Proof.
  unfold handle_allocate_slice.
  after (kernel_invoke_tame (g_memory_manager st) 1 (reply 40 [word words 2; word words 3]) 40 st ltac:(request_short)).
  destruct p as [ret resp]. case_cond; [|reflexivity].
  match goal with |- context [create_resource_object ?a ?b ?x ?d ?e ?f ?g] =>
    pose proof (create_resource_object_tame (fun _ => False) a b x d e f g) as Hc;
    by destruct (create_resource_object a b x d e f g) end.
Qed.

Lemma handle_release_slice_tame words cap st : T st (fst (handle_release_slice L other_reply words cap st)).
Proof.
  unfold handle_release_slice. after (resource_get_info_tame (word words 0) st).
  case_match; [|reflexivity]. do 2 (case_cond; [reflexivity|]).
  match goal with |- context [kernel_invoke _ _ ?h 2 (reply 24 [?x]) 24 ?s] =>
    after (kernel_invoke_tame h 2 (reply 24 [x]) 24 s ltac:(request_short)) end.
  destruct p as [ret resp]. case_cond; [|reflexivity]. cbn [fst].
  etrans; [apply factory_destroy_tame|]. case_match; [apply resource_index_clear_tame|reflexivity].
Qed.

Lemma handle_declare_resource_tame words cap st : T st (fst (handle_declare_resource L other_reply words cap st)).
Proof.
  unfold handle_declare_resource. set (needs := (_ =? RESOURCE_SYNC_STREAM) || _).
  assert (T st (fst (if needs then node_has_mmu L other_reply (word words 0) st else (st, true)))) as Hq
    by (destruct needs; [apply quiet_tame, node_has_mmu_quiet|reflexivity]).
  destruct (if needs then _ else _) as [st1 has]. etrans; [exact Hq|]. case_cond; [reflexivity|].
  match goal with |- context [create_resource_object ?a ?b ?x ?d ?e ?f ?g] =>
    pose proof (create_resource_object_tame (fun _ => False) a b x d e f g) as Hc;
    by destruct (create_resource_object a b x d e f g) end.
Qed.

Lemma bind_resource_for_tame h i st : T st (bind_resource_for L other_reply h i st).
Proof.
  unfold bind_resource_for. case_cond; [reflexivity|].
  match goal with |- context [let '(_, _) := ?t in _] => assert (quiet st (fst t)) as Hq end.
  { case_cond; [reflexivity|]. case_cond; [apply kind_choose_quiet|reflexivity]. }
  destruct (if negb (j_resource_id _ =? 0) then _ else _) as [st1 c]. cbn [fst] in Hq.
  etrans; [by apply quiet_tame|]. case_cond; [reflexivity|]. unfold resource_reserve.
  after (resource_call_tame RESOURCE_METHOD_RESERVE c h st1). case_match; [|reflexivity]. by apply set_job_tame.
Qed.

Lemma pick_scan_tame node st : cinv st -> T st (fst (pick_scan L other_reply node st)).
Proof.
  intros Hinv. pose proof (pick_scan_scanned L other_reply node st Hinv) as Hsc.
  destruct (pick_scan L other_reply node st) as [st1 rb]. pose proof (sc_st _ _ _ _ _ Hsc) as Est. cbn [fst] in *.
  split; rewrite Est; [done|]. intros i Hu. right. split_and!; [done..|right].
  rewrite <- Est. pose proof (sc_job _ _ _ _ _ Hsc i) as Hj. cbn [fst] in Hj. rewrite Hj.
  case_decide; [|done]. unfold wake_job. by case_cond.
Qed.

Lemma handed_state_tame node st i : cinv st -> T st (handed_state L other_reply node st i).
Proof.
  intros Hinv. pose proof (pick_scan_tame node st Hinv) as Ht. unfold handed_state.
  destruct (pick_scan L other_reply node st) as [st1 rb]. cbn [fst] in *.
  pose proof (proj1 (handed_job other_reply node st i)) as Hd. cbv zeta in Hd.
  generalize dependent (handed other_reply node st i). intros j Hd.
  etrans; [exact Ht|]. by apply set_job_tame.
Qed.

Lemma handle_get_next_job_tame words cap st :
  cinv st -> T st (fst (handle_get_next_job L other_reply words cap st)).
Proof.
  intros Hinv. unfold handle_get_next_job.
  pose proof (pick_next_cases L other_reply (word words 0) st Hinv) as Hc.
  destruct (pick_next_for_node L other_reply (word words 0) st) as [st1 r].
  assert (T st st1) as Ht.
  { destruct Hc as [(i & Hch & [-> _]%pair_equal_spec)|[_ [-> _]%pair_equal_spec]]; [|by apply pick_scan_tame].
    etrans; [|apply bind_resource_for_tame]. by apply handed_state_tame. }
  destruct r as [[h i]|]; [|exact Ht]. by destruct (h =? 0).
Qed.

Lemma handle_mutex_try_lock_tame words cap st : T st (fst (handle_mutex_try_lock L other_reply words cap st)).
Proof.
  unfold handle_mutex_try_lock. case_cond; [reflexivity|].
  match goal with |- context [kernel_invoke _ _ ?h ?m (reply 24 [?x]) ?c ?s] =>
    after (kernel_invoke_tame h m (reply 24 [x]) c s ltac:(request_short)) end.
  destruct p as [ret resp]. case_cond; [|reflexivity]. cbn [fst]. case_cond; [|reflexivity].
  match goal with |- T ?s (storage_lock_release (inherit_priority ?a ?b (storage_lock_acquire_wait ?s))) =>
    trans (inherit_priority a b (storage_lock_acquire_wait s)); [|by apply tame_same];
    trans (storage_lock_acquire_wait s); [by apply tame_same|] end.
  unfold inherit_priority. do 2 (case_match; [|reflexivity]). case_cond; [|reflexivity]. by apply set_job_tame.
Qed.

Lemma handle_mutex_unlock_tame words st : T st (handle_mutex_unlock L other_reply words st).
Proof.
  unfold handle_mutex_unlock. case_cond; [reflexivity|].
  match goal with |- context [kernel_invoke _ _ ?h ?m (reply 24 [?x]) ?c ?s] =>
    after (kernel_invoke_tame h m (reply 24 [x]) c s ltac:(request_short)) end.
  destruct p as [ret resp]. case_cond; [|reflexivity].
  match goal with |- T ?s (storage_lock_release ?s2) => trans s2; [|by apply tame_same];
    trans (storage_lock_acquire_wait s); [by apply tame_same|] end.
  case_match; [|reflexivity]. by apply set_job_tame.
Qed.

(** A report that puts job [h] back in the pool. *)
Definition reports (h method_id : Z) (words : list Z) : Prop :=
  method_id = METHOD_REPORT_JOB_RESULT /\ word words 0 = h /\ u32 (word words 1) <> JOB_FINISHED.

Lemma handle_report_job_result_tame words st :
  cinv st -> tame (fun h => reports h METHOD_REPORT_JOB_RESULT words) st (handle_report_job_result L other_reply words st).
Proof.
  intros Hinv. unfold handle_report_job_result. case_cond.
  - case_match; [|by apply tame_same].
    etrans; [|apply destroy_job_object_tame].
    etrans; [|by apply (tame_same _ (release_job_resource L other_reply (word words 0)
      (j_bound_resource_id (g_job_storage (storage_lock_acquire_wait st) !!? n))
      (storage_lock_release (storage_lock_acquire_wait st))))].
    etrans; [|apply tame_weaken, resource_call_tame]. by apply tame_same.
  - match goal with |- tame ?X _ (storage_lock_release ?s2) => trans s2; [|by apply tame_same];
      trans (storage_lock_acquire_wait st); [by apply tame_same|] end.
    case_match eqn:Hs; [|reflexivity]. unfold job_data_for_handle_locked in Hs. case_cond; [done|].
    apply job_slot_of_Some in Hs as (_ & _ & Hh). split; [done|]. intros i Hu. right. split_and!; [done..|].
    destruct (decide (n = i)) as [<-|Hne]; [left; by rewrite Hh|right].
    cbn [g_job_storage set_job set_g_job_storage]. by rewrite nth_insert_ne.
Qed.

Lemma handler_tame method_id words cap st :
  cinv st ->
  tame (fun h => reports h method_id words) st (fst (cluster_scheduler_handler L other_reply method_id words cap st)).
Proof.
  intros Hinv. unfold cluster_scheduler_handler.
  case_cond.
  { apply tame_weaken. unfold handle_join_node. case_cond; [reflexivity|].
    after (create_node_object_tame (fun _ => False) (word words 0) (word words 1) (word words 2) st).
    by case_cond. }
  case_cond; [apply tame_weaken, handle_leave_node_tame|].
  case_cond; [apply tame_weaken, handle_request_allocation_tame|].
  case_cond; [apply tame_weaken, handle_declare_resource_tame|].
  case_cond; [apply quiet_tame, handle_get_resource_info_quiet|].
  case_cond; [apply tame_weaken, handle_allocate_slice_tame|].
  case_cond; [apply tame_weaken, handle_release_slice_tame|].
  case_cond; [apply quiet_tame, handle_preempt_node_quiet|].
  case_cond; [apply quiet_tame, handle_reassign_resource_quiet|].
  case_cond.
  { apply tame_weaken. unfold handle_submit_job.
    match goal with |- context [create_job_object ?a ?b ?x ?d ?e ?f ?g ?h ?s] =>
      pose proof (create_job_object_tame (fun _ => False) a b x d e f g h s Hinv) as Ht;
      by destruct (create_job_object a b x d e f g h s) end. }
  case_cond; [by apply tame_weaken, handle_get_next_job_tame|].
  case_cond; [subst; by apply handle_report_job_result_tame|].
  case_cond; [by apply tame_same|].
  case_cond; [apply tame_weaken, handle_mutex_try_lock_tame|].
  case_cond; [apply tame_weaken, handle_mutex_unlock_tame|reflexivity].
Qed.

Lemma direct_tame X target method_id words cap st :
  tame X st (fst (kernel_invoke L other_reply target method_id (Some words) cap st)).
Proof.
  unfold kernel_invoke. case_match; [|reflexivity]. case_match; repeat case_match; try by apply tame_same.
  cbn [fst]. match goal with E : job_handler ?j _ _ _ = (?j', _) |- _ =>
    assert (j_dispatched j' = j_dispatched j) as Hd end.
  { unfold job_handler in *. repeat case_match; by simplify_eq. }
  match goal with |- tame X st (set_g_job_storage (<[?s := ?j]> _) st) =>
    apply (set_job_tame X s j st); by rewrite Hd end.
Qed.

(** The job cannot be handed out. *)
Definition locked_out (h : Z) st : Prop :=
  k_issued (k st) h /\
  forall i, g_job_storage_used st !! i = Some true -> g_job_handles st !!? i = h ->
    j_dispatched (g_job_storage st !!? i) = true.

Lemma tame_locked_out X h st st' : tame X st st' -> ~ X h -> locked_out h st -> locked_out h st'.
Proof.
  intros [Hi Hj] HX [Hiss Hlo]. split; [auto|]. intros i Hu Hh.
  destruct (Hj i Hu) as [Hn|(Hu0 & Hh0 & Hd)]; [by rewrite Hh in Hn|].
  rewrite Hh in Hh0. destruct Hd as [Hx|Hd]; [by rewrite <- Hh0 in Hx|auto].
Qed.

(** ** Executions *)

(** The job an event hands out. *)
Definition hands_out (e : event) : option Z :=
  match e with
  | ERequest m _ (Some (1 :: h :: _)) => if m =? METHOD_GET_NEXT_JOB then Some h else None
  | _ => None
  end.

(** The event reports on [h], and not that it finished. *)
Definition is_report (h : Z) (e : event) : bool :=
  match e with
  | ERequest m ws _ => (m =? METHOD_REPORT_JOB_RESULT) && (word ws 0 =? h) && negb (u32 (word ws 1) =? JOB_FINISHED)
  | _ => false
  end.

Lemma step_locked_out h st e st' :
  cinv st -> cstep L other_reply st e st' -> is_report h e = false -> locked_out h st -> locked_out h st'.
Proof.
  intros Hinv Hst Hr. destruct Hst as [m ws cap _ _|t m ws cap _|id].
  - eapply tame_locked_out; [by apply handler_tame|]. intros (-> & <- & Hf). simpl in Hr.
    rewrite !Z.eqb_refl in Hr. simpl in Hr. by bool_simp.
  - eapply tame_locked_out; [apply (direct_tame (fun _ => False))|by intros []].
  - eapply tame_locked_out; [apply (factory_create_tame (fun _ => False))|by intros []].
Qed.

#[local] Opaque pick_scan pick_next_for_node bind_resource_for.

Lemma handed_frame node st i :
  cinv st ->
  g_job_storage_used (handed_state L other_reply node st i) = g_job_storage_used st /\
  g_job_handles (handed_state L other_reply node st i) = g_job_handles st.
Proof.
  intros Hinv. pose proof (sc_st _ _ _ _ _ (pick_scan_scanned L other_reply node st Hinv)) as Est.
  unfold handed_state. destruct (pick_scan L other_reply node st) as [st1 rb]. cbn [fst] in Est.
  by rewrite Est.
Qed.

Lemma get_next_job_locks words cap st h rest :
  cinv st -> snd (handle_get_next_job L other_reply words cap st) = Some (1 :: h :: rest) ->
  ~ locked_out h st /\ locked_out h (fst (handle_get_next_job L other_reply words cap st)).
Proof.
  intros Hinv Ha. pose proof (handle_get_next_job_inv L other_reply words cap st Hinv) as Hinv'.
  pose proof (t_issued _ _ _ (handle_get_next_job_tame words cap st Hinv)) as Hiss.
  unfold handle_get_next_job in *.
  pose proof (pick_next_cases L other_reply (word words 0) st Hinv) as Hc.
  destruct (pick_next_for_node L other_reply (word words 0) st) as [st1 r].
  destruct Hc as [(i & Hch & [E Er]%pair_equal_spec)|[_ [E Er]%pair_equal_spec]]; subst r.
  2: { unfold reply in Ha. by destruct (cap <? _). }
  destruct (chosen_candidate _ _ _ _ Hch) as [Hi Hcand]. destruct (candidate_used _ _ _ _ Hi Hinv Hcand) as [Hu Hnd].
  destruct (ci_job _ Hinv) as (_ & _ & _ & Hj). destruct (Hj i Hu) as [Hn _].
  pose proof (names_nz _ _ _ Hn) as Hnz. rewrite (proj2 (Z.eqb_neq _ _) Hnz) in *. cbn [fst snd] in *.
  assert (h = g_job_handles st !!? i) as -> by (unfold reply in Ha; destruct (cap <? _); congruence).
  pose proof (dispatch_jobs L other_reply (word words 0) st i Hinv Hch) as [[b Hb] _]. rewrite <- E in Hb.
  assert (g_job_storage_used st1 = g_job_storage_used st /\ g_job_handles st1 = g_job_handles st) as [Eu Eh].
  { destruct (bind_resource_for_jobs L other_reply (g_job_handles st !!? i) i
      (handed_state L other_reply (word words 0) st i)) as (E1 & E2 & _).
    destruct (handed_frame (word words 0) st i Hinv) as [E3 E4]. split; congruence. }
  split; [intros [_ Hlo]; by rewrite (Hlo i Hu eq_refl) in Hnd|].
  split; [by eapply Hiss, names_known|]. intros i' Hu' Hh'.
  assert (i' = i) as ->.
  { pose proof (job_slot_of_live st1 i Hinv') as H1. pose proof (job_slot_of_live st1 i' Hinv' Hu') as H2.
    rewrite Hh', <- Eh, H1 in H2 by by rewrite Eu. congruence. }
  rewrite Hb. apply handed_job.
Qed.

Lemma step_hands_out h st e st' :
  cinv st -> cstep L other_reply st e st' -> hands_out e = Some h -> ~ locked_out h st /\ locked_out h st'.
Proof.
  intros Hinv Hst He. destruct Hst as [m ws cap _ _|t m ws cap _|id]; [|done..].
  unfold hands_out in He.
  destruct (snd (cluster_scheduler_handler L other_reply m ws cap st)) as [[|x [|h' rest]]|] eqn:Ha; try done.
  1: by destruct x as [|[]|].
  assert (x = 1 /\ m = METHOD_GET_NEXT_JOB /\ h' = h) as (-> & -> & ->).
  { destruct x as [|[]|]; try done. case_cond; by simplify_eq. }
  exact (get_next_job_locks ws cap st h rest Hinv Ha).
Qed.

Lemma locked_out_until_report h st mid e st' :
  cinv st -> locked_out h st -> execution L other_reply st (mid ++ [e]) st' -> hands_out e = Some h ->
  Exists (fun e => is_report h e = true) mid.
Proof.
  intros Hinv Hlo Hex He. revert st Hinv Hlo Hex. induction mid as [|e1 mid IH]; intros st Hinv Hlo Hex; simpl in Hex;
    inversion Hex as [|? ? st1 ? ? Hst Hrest]; subst.
  - by destruct (step_hands_out h st e st1 Hinv Hst He).
  - destruct (is_report h e1) eqn:Hr; [by left|right]. apply (IH st1); [by eapply cstep_inv| |done].
    by eapply step_locked_out.
Qed.

(** With requests handled as wholes, no job runs twice at once: between two
    events that hand out the same job there is a REPORT_JOB_RESULT on it that
    puts it back (and is not JOB_FINISHED, after which it is never handed out
    again). *)
Theorem no_double_dispatch h st e1 mid e2 st' :
  reachable L other_reply st -> execution L other_reply st (e1 :: mid ++ [e2]) st' ->
  hands_out e1 = Some h -> hands_out e2 = Some h ->
  Exists (fun e => is_report h e = true) mid.
Proof.
  intros Hr Hex He1 He2. pose proof (reachable_cinv _ _ _ Hr) as Hinv.
  inversion Hex as [|? ? st1 ? ? Hst Hrest]; subst.
  destruct (step_hands_out h st e1 st1 Hinv Hst He1) as [_ Hlo].
  eapply locked_out_until_report; [by eapply cstep_inv|done|done|done].
Qed.
End trace.

(** The job of handle 15 is dispatched, reported as still running, and
    dispatched again. *)
Definition redispatch_requests : list (Z * list Z) :=
  [(METHOD_GET_NEXT_JOB, [1]); (METHOD_REPORT_JOB_RESULT, [15; JOB_RUNNING; 0; 0]); (METHOD_GET_NEXT_JOB, [1])].

Lemma no_double_dispatch_witness :
  let report := ERequest METHOD_REPORT_JOB_RESULT [15; JOB_RUNNING; 0; 0] None in
  Exists (fun e => is_report 15 e = true) [report].
Proof.
  intros report.
  apply (no_double_dispatch layout_x86_64 no_other 15 demo_submitted
    (ERequest METHOD_GET_NEXT_JOB [1] (Some [1; 15; 3; 13; 14])) [report]
    (ERequest METHOD_GET_NEXT_JOB [1] (Some [1; 15; 3; 13; 14]))
    (fst (run_requests layout_x86_64 no_other redispatch_requests demo_submitted))); [| |reflexivity..].
  - apply run_reachable; [apply boot_reachable|vm_compute; reflexivity].
  - replace (_ :: [report] ++ _) with (run_events redispatch_requests demo_submitted) by (vm_compute; reflexivity).
    apply run_execution. vm_compute. reflexivity.
Defined.
