(* ===== verification/ClusterRace.v ===== *)
(** * Requests that overlap

    [pick_next_for_node] takes no lock: several cores scan the job pool at the
    same time and settle who gets a job by a compare-and-swap on its
    [dispatched] field.  Here GET_NEXT_JOB is a sequence of steps of the core
    that handles it (one slot of the scan, the compare-and-swap, the
    assignment, the binding, the answer), and the steps of all cores, the other
    requests, direct calls and foreign creations come in any order.  The other
    requests are handled as wholes.

    Run alone, a core's steps are [handle_get_next_job]
    ([core_alone_is_handler]).  [claimed_once] is the promise of the
    compare-and-swap; [stale_scan_mixes_jobs] and [overlapping_joins_twice]
    show two places where an overlap does what the code does not mean. *)

From stdpp Require Import gmap.
From S2P Require Import Prelude Capnp TryLock Kernel MemMgr Objects Cluster ClusterInv ClusterReach ClusterPick ClusterTrace.

(** Where a core is in [pick_next_for_node] and [handle_get_next_job].  A
    candidate is the handle that was read when the scan passed its slot, and
    the slot. *)
Inductive phase :=
| Scanning (node : Z) (todo : list nat) (best_ready best_blocked : option (Z * nat))
| Claimed (node chosen : Z) (i : nat)
| Assigned (chosen : Z) (i : nat)
| Bound (chosen : Z) (i : nat).

Definition start_get_next_job (words : list Z) : phase :=
  Scanning (word words 0) (seq 0 JOB_POOL_SIZE) None None.

Section race.
Context `{HL : KernelLaws K}.
Context (L : layout) (other_reply : nat -> Z -> list Z -> Z -> option (list Z)).
Implicit Types (st : cstate K).

(** ** The steps of one core *)

(** A candidate that became the best at this slot carries the handle read
    there. *)
Definition noted (job : Z) (i : nat) (before : option (Z * nat)) (now : option nat) : option (Z * nat) :=
  if decide (now = Some i) then Some (job, i) else before.

(** The words of the answer. *)
Definition found_words (chosen : Z) (i : nat) st : list Z :=
  if chosen =? 0 then [0; 0; 0; 0; 0]
  else
    let j := g_job_storage st !!? i in
    [1; chosen; j_type j; j_arg0 j; j_arg1 j].

(** One step: the core goes on, or answers. *)
Definition core_step (p : phase) st : cstate K * (phase + list Z) :=
  match p with
  | Scanning node (i :: todo) best_ready best_blocked =>
      let job := g_job_handles st !!? i in
      let '(st, (r, b)) := pick_step L other_reply node (st, (snd <$> best_ready, snd <$> best_blocked)) i in
      (st, inl (Scanning node todo (noted job i best_ready r) (noted job i best_blocked b)))
  | Scanning node [] best_ready best_blocked =>
      match (match best_ready with Some c => Some c | None => best_blocked end) with
      | None => (st, inr [0; 0; 0; 0; 0])
      | Some (chosen, i) =>
          let '(st, won) := claim_job i st in
          if negb won then (st, inr [0; 0; 0; 0; 0]) else (st, inl (Claimed node chosen i))
      end
  | Claimed node chosen i => (assign_job node i st, inl (Assigned chosen i))
  | Assigned chosen i => (bind_resource_for L other_reply chosen i st, inl (Bound chosen i))
  | Bound chosen i => (st, inr (found_words chosen i st))
  end.

(** A core that is not interrupted. *)
Fixpoint core_run (fuel : nat) (p : phase) st : cstate K * option (list Z) :=
  match fuel with
  | O => (st, None)
  | S fuel =>
      match core_step p st with
      | (st, inl p) => core_run fuel p st
      | (st, inr words) => (st, Some words)
      end
  end.

(** ** All cores *)

(** The scheduler's memory, and the cores with a GET_NEXT_JOB in hand. *)
Record sys := Sys { mem : cstate K; cores : gmap nat phase }.

Inductive label :=
| LOther (e : event)
| LStart (core : nat) (words : list Z)
| LCore (core : nat) (before : phase) (after : phase + list Z).

(** The request is not a GET_NEXT_JOB, which is not handled as a whole. *)
Definition whole (e : event) : bool :=
  match e with ERequest m _ _ => negb (m =? METHOD_GET_NEXT_JOB) | _ => true end.

Inductive rstep : sys -> label -> sys -> Prop :=
| r_other st e st' ps :
    whole e = true -> cstep L other_reply st e st' -> rstep (Sys st ps) (LOther e) (Sys st' ps)
| r_start st ps c words :
    ps !! c = None -> rstep (Sys st ps) (LStart c words) (Sys st (<[c := start_get_next_job words]> ps))
| r_core st ps c p :
    ps !! c = Some p ->
    rstep (Sys st ps) (LCore c p (snd (core_step p st)))
      (Sys (fst (core_step p st))
        (match snd (core_step p st) with inl p' => <[c := p']> ps | inr _ => delete c ps end)).

(** A run with its transitions. *)
Inductive rrun : sys -> list (sys * label * sys) -> sys -> Prop :=
| rrun_nil s : rrun s [] s
| rrun_cons s l s1 tr s2 : rstep s l s1 -> rrun s1 tr s2 -> rrun s ((s, l, s1) :: tr) s2.

Inductive racing : sys -> Prop :=
| racing_init st : reachable L other_reply st -> racing (Sys st ∅)
| racing_step s l s' : racing s -> rstep s l s' -> racing s'.

(** The slot whose job a step claims: a scan that ends in a claim. *)
Definition claims (l : label) : option nat :=
  match l with
  | LCore _ (Scanning _ _ _ _) (inl (Claimed _ _ i)) => Some i
  | _ => None
  end.

(** The job in slot [i], if one is. *)
Definition slot_job (i : nat) (s : sys) : option Z :=
  if decide (g_job_storage_used (mem s) !! i = Some true) then Some (g_job_handles (mem s) !!? i) else None.

(** The transition puts the job of slot [i] back, or another or no job is in
    the slot. *)
Definition puts_back (i : nat) (t : sys * label * sys) : Prop :=
  let '(s, l, s') := t in
  match slot_job i s with
  | Some h => slot_job i s' <> Some h \/ exists e, l = LOther e /\ is_report h e = true
  | None => True
  end.

(** ** The invariant along overlapping requests *)

Definition phase_ok (p : phase) : Prop :=
  match p with
  | Scanning _ todo r b =>
      Forall (fun i => i < JOB_POOL_SIZE)%nat todo /\
      forall c, r = Some c \/ b = Some c -> (snd c < JOB_POOL_SIZE)%nat
  | Claimed _ _ i | Assigned _ i | Bound _ i => (i < JOB_POOL_SIZE)%nat
  end.

Record race_inv (s : sys) : Prop := {
  ra_cinv : cinv (mem s);
  ra_phase : map_Forall (fun _ => phase_ok) (cores s)
}.

Lemma core_step_inv p st : cinv st -> cinv (fst (core_step p st)).
Proof.
  intros Hinv. destruct p as [node [|i todo] r b|node h i|h i|h i]; cbn [core_step].
  - destruct (match r with Some c => Some c | None => b end) as [[h i]|]; [|done].
    pose proof (claim_job_inv i st Hinv) as Hc. destruct (claim_job i st) as [st1 []]; exact Hc.
  - pose proof (pick_step_inv L other_reply node i (st, (snd <$> r, snd <$> b)) Hinv) as Hp.
    by destruct (pick_step _ _ _ _ _) as [st1 [r1 b1]].
  - by apply assign_job_inv.
  - by apply bind_resource_for_inv.
  - done.
Qed.

Lemma noted_slot job i before now (P : nat -> Prop) :
  P i -> (forall c, before = Some c -> P (snd c)) -> forall c, noted job i before now = Some c -> P (snd c).
Proof. intros Hi Hb c. unfold noted. case_decide; [by intros [= <-]|apply Hb]. Qed.

Lemma core_step_ok p st p' : phase_ok p -> snd (core_step p st) = inl p' -> phase_ok p'.
Proof.
  destruct p as [node [|i todo] r b|node h i|h i|h i]; cbn [core_step].
  - intros [_ Hs]. destruct (match r with Some c => Some c | None => b end) as [[h i]|] eqn:Hc; [|done].
    destruct (claim_job i st) as [st1 []]; [|done]. intros [= <-]. apply (Hs (h, i)). destruct r; auto.
  - intros [[Hi Ht]%Forall_cons Hs]. destruct (pick_step _ _ _ _ _) as [st1 [r1 b1]]. intros [= <-].
    split; [done|]. intros c [Hc|Hc]; (eapply noted_slot; [done| |exact Hc]); intros c' ->; apply Hs; auto.
  - by intros ? [= <-].
  - by intros ? [= <-].
  - done.
Qed.

Lemma rstep_inv s l s' : race_inv s -> rstep s l s' -> race_inv s'.
Proof.
  intros Hi Hs. destruct Hs as [st e st' ps _ Hst|st ps c words Hn|st ps c p Hl];
    destruct Hi as [Hc Hp]; cbn [mem cores] in *; split; cbn [mem cores].
  - by eapply cstep_inv.
  - done.
  - done.
  - apply map_Forall_insert_2; [|done]. split; [|by intros ? [[=]|[=]]].
    apply Forall_forall. intros i Hi%elem_of_seq. lia.
  - by apply core_step_inv.
  - destruct (snd (core_step p st)) as [p'|w] eqn:Hs; [|by apply map_Forall_delete].
    apply map_Forall_insert_2; [|done]. eapply core_step_ok; [|exact Hs]. by eapply Hp.
Qed.

Lemma racing_inv s : racing s -> race_inv s.
Proof.
  induction 1 as [st Hr|s l s' _ IH Hst]; [|by eapply rstep_inv].
  split; [by eapply reachable_cinv|apply map_Forall_empty].
Qed.

(** ** A claim lasts *)

Local Abbreviation T := (tame (fun _ => False)).

Lemma pick_step_tame node i acc : T (fst acc) (fst (pick_step L other_reply node acc i)).
Proof.
  destruct acc as [st [r b]]. unfold pick_step. cbn [fst]. do 3 (case_cond; [reflexivity|]).
  pose proof (resource_ok_for_quiet L other_reply (g_job_handles st !!? i) (g_job_storage st !!? i) st) as Hq.
  destruct (resource_ok_for _ _ _ _) as [st1 ok]. cbn [fst] in Hq.
  etrans; [by apply quiet_tame|]. case_cond; [reflexivity|].
  match goal with |- context [if ?c then set_job i ?j st1 else st1] =>
    assert (T st1 (if c then set_job i j st1 else st1)) as Ht
      by (destruct c; [by apply set_job_tame|reflexivity]);
    destruct (if c then set_job i j st1 else st1) end.
  repeat case_cond; exact Ht.
Qed.

Lemma core_step_tame p st : T st (fst (core_step p st)).
Proof.
  destruct p as [node [|i todo] r b|node h i|h i|h i]; cbn [core_step].
  - destruct (match r with Some c => Some c | None => b end) as [[h i]|]; [|reflexivity].
    unfold claim_job. destruct (j_dispatched _); [reflexivity|]. by apply set_job_tame.
  - pose proof (pick_step_tame node i (st, (snd <$> r, snd <$> b))) as Hp.
    by destruct (pick_step _ _ _ _ _) as [st1 [r1 b1]].
  - unfold assign_job. cbn [fst]. case_cond; [|reflexivity]. by apply set_job_tame.
  - apply bind_resource_for_tame.
  - reflexivity.
Qed.

Lemma cstep_tame st e st' : cinv st -> cstep L other_reply st e st' -> tame (fun h => is_report h e = true) st st'.
Proof.
  intros Hinv [m ws cap _ _|t m ws cap _|id].
  - destruct (handler_tame L other_reply m ws cap st Hinv) as [Hi Hj]. split; [done|]. intros i Hu.
    destruct (Hj i Hu) as [?|(Hu0 & Hh & Hd)]; [by left|right]. split_and!; [done..|].
    destruct Hd as [(-> & Hw & Hf)|Hd]; [left|by right]. simpl.
    by rewrite Hw, Z.eqb_refl, (proj2 (Z.eqb_neq _ _) Hf).
  - apply direct_tame.
  - apply factory_create_tame.
Qed.

Lemma rstep_tame s l s' :
  race_inv s -> rstep s l s' -> tame (fun h => exists e, l = LOther e /\ is_report h e = true) (mem s) (mem s').
Proof.
  intros Hi Hs. destruct Hs as [st e st' ps _ Hst|st ps c words Hn|st ps c p Hl]; cbn [mem].
  - destruct (cstep_tame st e st' (ra_cinv _ Hi) Hst) as [Hiss Hj]. split; [done|]. intros i Hu.
    destruct (Hj i Hu) as [?|(? & ? & Hd)]; [by left|right]. split_and!; [done..|].
    destruct Hd; [left; eauto|by right].
  - reflexivity.
  - apply tame_weaken, core_step_tame.
Qed.

(** The job of slot [i] is claimed. *)
Definition dispatched (i : nat) (s : sys) : bool := j_dispatched (g_job_storage (mem s) !!? i).

Lemma dispatched_kept i s l s' :
  race_inv s -> rstep s l s' -> dispatched i s = true -> dispatched i s' = true \/ puts_back i (s, l, s').
Proof.
  intros Hi Hs Hd. pose proof (rstep_tame s l s' Hi Hs) as [_ Hj]. unfold puts_back.
  unfold slot_job at 1. case_decide as Hu; [|by right].
  unfold slot_job. case_decide as Hu'; [|by right; left].
  destruct (decide (g_job_handles (mem s') !!? i = g_job_handles (mem s) !!? i)) as [Eh|Hne]; [|right; left; congruence].
  destruct (Hj i Hu') as [Hn|(_ & _ & [Hr|Hk])]; [|by right; right|left; by apply Hk].
  destruct (ci_job _ (ra_cinv _ Hi)) as (_ & _ & _ & Hjob). destruct (Hjob i Hu) as [Hnm _].
  destruct Hn. rewrite Eh. by eapply names_known.
Qed.

Lemma claims_step i s l s' :
  race_inv s -> rstep s l s' -> claims l = Some i -> dispatched i s = false /\ dispatched i s' = true.
Proof.
  intros Hi Hs Hl. destruct Hs as [st e st' ps _ Hst|st ps c words Hn|st ps c p Hp]; [done..|].
  destruct Hi as [Hinv Hph]. cbn [mem cores] in *. pose proof (Hph _ _ Hp) as Hok.
  pose proof (core_step_ok p st) as Hnext. specialize (Hnext (Claimed 0 0 i)).
  destruct p as [node [|i' todo] r b|node h i'|h i'|h i']; cbn [core_step] in *; [..|done|done|done].
  2: { by destruct (pick_step _ _ _ _ _) as [st1 [r1 b1]]. }
  destruct (match r with Some c => Some c | None => b end) as [[h i']|] eqn:Hc; [|done].
  assert (i' < JOB_POOL_SIZE)%nat as Hlt.
  { destruct Hok as [_ Hs]. apply (Hs (h, i')). destruct r; auto. }
  unfold claim_job in *. destruct (j_dispatched (g_job_storage st !!? i')) eqn:Hd; [done|].
  injection Hl as ->. split; [done|]. unfold dispatched. simpl.
  destruct (ci_job _ Hinv) as (_ & _ & Hlen & _). by rewrite nth_insert_eq by lia.
Qed.

Lemma dispatched_until_back i s tr s' :
  race_inv s -> rrun s tr s' -> dispatched i s = true ->
  (race_inv s' /\ dispatched i s' = true) \/ Exists (puts_back i) tr.
Proof.
  intros Hi Hr. revert Hi. induction Hr as [s|s l s1 tr s2 Hs _ IH]; intros Hi Hd; [by left|].
  destruct (dispatched_kept i s l s1 Hi Hs Hd) as [Hd1|Hb]; [|by right; left].
  destruct (IH (rstep_inv _ _ _ Hi Hs) Hd1) as [?|?]; [by left|by right; right].
Qed.

(** C3: no job is claimed twice at once, however the cores overlap.  In every
    execution in which GET_NEXT_JOB requests of any number of cores are cut
    into their steps (each slot of a scan, the compare-and-swap, the
    assignment, the binding, the answer) and interleaved with each other, with
    the other requests (handled as wholes), direct calls and creations (within
    the conditions of [cstep] on clients):
    between two compare-and-swaps that claim the job of the same slot, some
    step put that job back, by a report that it is not finished, or the slot
    ceased to hold that job (or held none). *)
Theorem claimed_once i s l1 s1 tr s2 l2 s3 :
  racing s -> rstep s l1 s1 -> rrun s1 tr s2 -> rstep s2 l2 s3 ->
  claims l1 = Some i -> claims l2 = Some i ->
  Exists (puts_back i) tr.
Proof.
  intros Hr H1 Htr H2 Hc1 Hc2. pose proof (racing_inv s Hr) as Hi.
  destruct (claims_step i s l1 s1 Hi H1 Hc1) as [_ Hd1].
  destruct (dispatched_until_back i s1 tr s2 (rstep_inv _ _ _ Hi H1) Htr Hd1) as [[Hi2 Hd2]|?]; [|done].
  destruct (claims_step i s2 l2 s3 Hi2 H2 Hc2) as [Hn _]. congruence.
Qed.

(** ** A core alone is the handler *)

Lemma pick_step_frame node i st r b :
  let '(st', (r', b')) := pick_step L other_reply node (st, (r, b)) i in
  g_job_handles st' = g_job_handles st /\ (r' = r \/ r' = Some i) /\ (b' = b \/ b' = Some i).
Proof.
  unfold pick_step. do 3 (case_cond; [by auto|]).
  pose proof (resource_ok_for_quiet L other_reply (g_job_handles st !!? i) (g_job_storage st !!? i) st) as Hq.
  destruct (resource_ok_for _ _ _ _) as [st1 ok]. cbn [fst] in Hq. case_cond; [by destruct Hq; auto|].
  match goal with |- context [if ?c then set_job i ?j st1 else st1] =>
    assert (g_job_handles (if c then set_job i j st1 else st1) = g_job_handles st) as Hh
      by (destruct Hq, c; done);
    destruct (if c then set_job i j st1 else st1) end.
  repeat case_cond; auto.
Qed.

(** The candidate of a slot, with the handle in the pool. *)
Definition with_handle (handles : list Z) (c : option nat) : option (Z * nat) :=
  (fun i => (handles !!? i, i)) <$> c.

Lemma noted_with_handle handles i c c' :
  c' = c \/ c' = Some i -> noted (handles !!? i) i (with_handle handles c) c' = with_handle handles c'.
Proof. intros Hc. unfold noted. case_decide as E; [by rewrite E|]. by destruct Hc as [->|?]. Qed.

Lemma with_handle_slot handles c : snd <$> with_handle handles c = c.
Proof. by destruct c. Qed.

Lemma core_run_scan node todo fuel st r b :
  let '(st', (r', b')) := fold_left (pick_step L other_reply node) todo (st, (r, b)) in
  g_job_handles st' = g_job_handles st /\
  core_run (length todo + fuel)
    (Scanning node todo (with_handle (g_job_handles st) r) (with_handle (g_job_handles st) b)) st =
  core_run fuel (Scanning node [] (with_handle (g_job_handles st') r') (with_handle (g_job_handles st') b')) st'.
Proof.
  revert st r b. induction todo as [|i todo IH]; intros st r b; [done|].
  cbn [length Nat.add core_run core_step fold_left]. rewrite !with_handle_slot.
  pose proof (pick_step_frame node i st r b) as Hf.
  destruct (pick_step L other_reply node (st, (r, b)) i) as [st1 [r1 b1]]. destruct Hf as (Hh & Hr & Hb).
  specialize (IH st1 r1 b1). rewrite (noted_with_handle _ _ _ _ Hr), (noted_with_handle _ _ _ _ Hb).
  destruct (fold_left _ _ _) as [st2 [r2 b2]]. destruct IH as [IHh IHr]. rewrite Hh in IHh, IHr. by split.
Qed.

Theorem core_alone_is_handler words cap st :
  exists ws,
    core_run (JOB_POOL_SIZE + 4) (start_get_next_job words) st =
      (fst (handle_get_next_job L other_reply words cap st), Some ws) /\
    snd (handle_get_next_job L other_reply words cap st) = reply cap ws.
Proof.
  pose proof (core_run_scan (word words 0) (seq 0 JOB_POOL_SIZE) 4 st None None) as Hs.
  rewrite length_seq in Hs. unfold start_get_next_job, handle_get_next_job, pick_next_for_node, pick_scan.
  destruct (fold_left _ _ _) as [st1 [r b]]. destruct Hs as [_ Hs]. cbn [with_handle fmap option_fmap option_map] in Hs.
  rewrite Hs. clear Hs. cbn [core_run core_step].
  assert ((match with_handle (g_job_handles st1) r with Some c => Some c | None => with_handle (g_job_handles st1) b end) =
    with_handle (g_job_handles st1) (match r with Some i => Some i | None => b end)) as -> by by destruct r.
  destruct (match r with Some i => Some i | None => b end) as [i|]; [|by eexists]. cbn [with_handle fmap option_fmap option_map].
  destruct (claim_job i st1) as [st2 []]; [|by eexists]. cbn [negb core_step]. unfold found_words.
  case_cond; by eexists.
Qed.
End race.

(** ** Overlaps played out *)

(** What happens next: a request handled as a whole, a core that takes up a
    GET_NEXT_JOB, a core that does its next step. *)
Inductive action :=
| ARequest (method_id : Z) (words : list Z)
| AStart (core : nat) (words : list Z)
| ACore (core : nat).

Definition act (a : action) (s : sys) : option (label * sys (K := counter_kernel)) :=
  match a with
  | ARequest m ws =>
      if negb (m =? METHOD_GET_NEXT_JOB) && run_admissible [(m, ws)] (mem s) then
        let '(st, answer) := cluster_scheduler_handler layout_x86_64 no_other m ws 128 (mem s) in
        Some (LOther (ERequest m ws answer), Sys st (cores s))
      else None
  | AStart c ws =>
      match cores s !! c with
      | None => Some (LStart c ws, Sys (mem s) (<[c := start_get_next_job ws]> (cores s)))
      | Some _ => None
      end
  | ACore c =>
      match cores s !! c with
      | None => None
      | Some p =>
          let '(st, after) := core_step layout_x86_64 no_other p (mem s) in
          Some (LCore c p after,
            Sys st (match after with inl p' => <[c := p']> (cores s) | inr _ => delete c (cores s) end))
      end
  end.

Fixpoint acts (l : list action) (s : sys) : option (list (sys * label * sys) * sys) :=
  match l with
  | [] => Some ([], s)
  | a :: l =>
      match act a s with
      | None => None
      | Some (lb, s1) =>
          match acts l s1 with
          | None => None
          | Some (tr, s2) => Some ((s, lb, s1) :: tr, s2)
          end
      end
  end.

Lemma act_rstep a s lb s' : act a s = Some (lb, s') -> rstep layout_x86_64 no_other s lb s'.
Proof.
  destruct s as [st ps], a as [m ws|c ws|c]; unfold act; cbn [mem cores].
  - case_cond; [|done]. intros Ha.
    assert (execution layout_x86_64 no_other st (run_events [(m, ws)] st)
      (fst (run_requests layout_x86_64 no_other [(m, ws)] st))) as He by by apply run_execution.
    cbn [run_events run_requests] in He. destruct (cluster_scheduler_handler _ _ _ _ _ _) as [st1 a]. simplify_eq.
    inversion He as [|? ? st2 ? ? Hst Hrest]; subst. inversion Hrest; subst.
    apply r_other; [|done]. simpl. by rewrite (proj2 (Z.eqb_neq _ _)).
  - destruct (ps !! c) eqn:Hc; [done|]. intros [= <- <-]. by apply r_start.
  - destruct (ps !! c) as [p|] eqn:Hc; [|done]. pose proof (r_core layout_x86_64 no_other st ps c p Hc) as Hr.
    destruct (core_step _ _ p st) as [st1 after]. by intros [= <- <-].
Qed.

Lemma acts_rrun l s tr s' : acts l s = Some (tr, s') -> rrun layout_x86_64 no_other s tr s'.
Proof.
  revert s tr. induction l as [|a l IH]; intros s tr; simpl; [intros [= <- <-]; constructor|].
  destruct (act a s) as [[lb s1]|] eqn:Ha; [|done]. destruct (acts l s1) as [[tr1 s2]|] eqn:Hl; [|done].
  intros [= <- <-]. econstructor; [by eapply act_rstep|by apply IH].
Qed.

(** The state after a schedule, from a state with no GET_NEXT_JOB in hand. *)
Definition after (l : list action) (s : sys) : sys := default s (snd <$> acts l s).

(** Cores 1 and 2 ask for the nodes of the same numbers and scan the pool step
    by step side by side. *)
Definition scan_together : list action :=
  AStart 1 [1] :: AStart 2 [2] :: concat (replicate JOB_POOL_SIZE [ACore 1; ACore 2]).

Definition race_scanned : sys := after scan_together (Sys demo_submitted ∅).

(** The answers of a run. *)
Definition answers (tr : list (sys (K := counter_kernel) * label * sys (K := counter_kernel))) : list (nat * list Z) :=
  omap (fun t => match t.1.2 with LCore c _ (inr ws) => Some (c, ws) | _ => None end) tr.

(** Both settle on the job of handle 15; core 2, whose compare-and-swap comes
    second, answers that there is nothing. *)
Lemma one_scan_wins :
  answers <$> (fst <$> acts [ACore 1; ACore 2; ACore 1; ACore 1; ACore 1] race_scanned) =
    Some [(2%nat, [0; 0; 0; 0; 0]); (1%nat, [1; 15; 3; 13; 14])].
Proof. vm_compute. reflexivity. Qed.

Lemma acts_racing l s tr s' :
  racing layout_x86_64 no_other s -> acts l s = Some (tr, s') -> racing layout_x86_64 no_other s'.
Proof.
  intros Hr Ha. apply acts_rrun in Ha. induction Ha as [|s l0 s1 tr s2 Hs _ IH]; [done|]. apply IH. by apply (racing_step _ _ s l0).
Qed.

Lemma after_racing l s : racing layout_x86_64 no_other s -> racing layout_x86_64 no_other (after l s).
Proof. intros Hr. unfold after. destruct (acts l s) as [[tr s']|] eqn:Ha; [|done]. by eapply acts_racing. Qed.

Lemma race_scanned_racing : racing layout_x86_64 no_other race_scanned.
Proof.
  apply after_racing, racing_init, run_reachable; [apply boot_reachable|vm_compute; reflexivity].
Qed.

(** A schedule that can be played, as a run. *)
Lemma after_rrun l s :
  is_Some (acts l s) -> rrun layout_x86_64 no_other s (default [] (fst <$> acts l s)) (after l s).
Proof. intros [[tr s'] Ha]. unfold after. rewrite Ha. by apply (acts_rrun l). Qed.

Lemma after_rstep a s :
  is_Some (act a s) -> rstep layout_x86_64 no_other s (default (LStart 0 []) (fst <$> act a s)) (after [a] s).
Proof. intros [[lb s'] Ha]. unfold after. simpl. rewrite Ha. by apply act_rstep in Ha. Qed.

(** Core 1 claims the job, answers, and the job is reported as still running;
    then core 2 claims it. *)
Definition race_won : sys := after [ACore 1] race_scanned.
Definition race_between : list action :=
  [ACore 1; ACore 1; ACore 1; ARequest METHOD_REPORT_JOB_RESULT [15; JOB_RUNNING; 0; 0]].

Lemma claimed_once_witness :
  (claims <$> (fst <$> act (ACore 1) race_scanned)) = Some (Some 1%nat) /\
  Exists (puts_back 1) (default [] (fst <$> acts race_between race_won)).
Proof.
  split; [vm_compute; reflexivity|].
  apply (claimed_once layout_x86_64 no_other 1 race_scanned (default (LStart 0 []) (fst <$> act (ACore 1) race_scanned))
    race_won _ (after race_between race_won)
    (default (LStart 0 []) (fst <$> act (ACore 2) (after race_between race_won)))
    (after [ACore 2] (after race_between race_won))).
  - exact race_scanned_racing.
  - apply after_rstep. vm_compute. by eexists.
  - apply after_rrun. vm_compute. by eexists.
  - apply after_rstep. vm_compute. by eexists.
  - vm_compute. reflexivity.
  - vm_compute. reflexivity.
Defined.

(** While core 1 is between its scan and its compare-and-swap, core 2 gets the
    job of handle 15, finishes it, and another job takes its slot. *)
Definition slot_reused : list action :=
  AStart 1 [1] :: replicate JOB_POOL_SIZE (ACore 1) ++ AStart 2 [2] :: replicate (JOB_POOL_SIZE + 4) (ACore 2) ++
  [ARequest METHOD_REPORT_JOB_RESULT [15; JOB_FINISHED; 0; 99];
   ARequest METHOD_SUBMIT_JOB [NODE_AFFINITY_ANY; 7; 70; 71; 1; 0; 0; 0]].

(** The scan is not as harmless as its comment says: core 1's compare-and-swap
    succeeds on the new job (handle 16), and its answer pairs the handle 15 of
    the finished job with the new job's type and arguments.  The report that
    ends that run names 15, finds no job, and job 16 stays dispatched, never
    to be handed out or finished. *)
Theorem stale_scan_mixes_jobs :
  let s := after (slot_reused ++ replicate 4 (ACore 1)) (Sys demo_submitted ∅) in
  (answers <$> (fst <$> acts (replicate 4 (ACore 1)) (after slot_reused (Sys demo_submitted ∅)))) =
    Some [(1%nat, [1; 15; 7; 70; 71])] /\
  slot_job 1 s = Some 16 /\ job_data_for_handle_locked 15 (mem s) = None /\
  let s' := after [ARequest METHOD_REPORT_JOB_RESULT [15; JOB_FINISHED; 0; 5]] s in
  slot_job 1 s' = Some 16 /\ dispatched 1 s' = true.
Proof. vm_compute. auto. Qed.

(** ** Two cores that join the same node *)

(** [handle_join_node] in its two halves, with no lock over both: the test and
    the registration. *)
Definition join_known {K : Type} `{Kernel K} (words : list Z) (st : cstate K) : bool :=
  negb (node_find_by_id (word words 0) st =? 0).

Definition join_register {K : Type} `{Kernel K} (words : list Z) (response_cap : Z) (st : cstate K)
    : cstate K * option (list Z) :=
  let '(st, node_obj) := create_node_object (word words 0) (word words 1) (word words 2) st in
  if node_obj =? 0 then (st, reply response_cap [0]) else (st, reply response_cap [node_obj]).

Lemma handle_join_node_halves {K : Type} `{Kernel K} words cap (st : cstate K) :
  handle_join_node words cap st =
  if join_known words st then (st, reply cap [0]) else join_register words cap st.
Proof. reflexivity. Qed.

(** Two cores that register node 3 at the same time both pass the test, and
    both registrations succeed: the node has two objects and two entries of the
    index, of which LEAVE_NODE removes one. *)
Theorem overlapping_joins_twice :
  let st1 := fst (join_register [3; 0; 5] 24 cluster_boot) in
  let st2 := fst (join_register [3; 1; 6] 24 st1) in
  let entries st := length (filter (fun e => ni_used e = true /\ ni_node_id e = 3) (g_node_index st)) in
  join_known [3; 0; 5] cluster_boot = false /\ join_known [3; 1; 6] cluster_boot = false /\
  snd (join_register [3; 0; 5] 24 cluster_boot) <> Some [0] /\ snd (join_register [3; 1; 6] 24 st1) <> Some [0] /\
  entries st2 = 2%nat /\ entries (handle_leave_node layout_x86_64 no_other [3] st2) = 1%nat.
Proof. vm_compute. repeat split; congruence. Qed.
