(* ===== verification/ClusterBind.v ===== *)
(** * Resources and the jobs bound to them

    As long as jobs and resources are driven through the scheduler, a live
    job that is bound to a resource object holds its reservation; so no two
    live jobs are ever bound to the same resource. *)

From stdpp Require Import gmap.
From S2P Require Import Prelude Capnp TryLock Kernel MemMgr Objects Cluster ClusterInv ClusterReach ClusterPick.

Section bind.
Context `{HL : KernelLaws K}.
Context (L : layout) (other_reply : nat -> Z -> list Z -> Z -> option (list Z)).
Implicit Types (st : cstate K).
Local Abbreviation kernel_invoke := (kernel_invoke L other_reply).

Definition not_resource (k0 : K) (h : Z) : Prop := forall m n s, k_invoke k0 h m n <> Some (OResource s).

(** Job slots satisfying [x] are exempt: a job whose reservation has been
    released and which is about to be destroyed. *)
Record binv (x : nat -> Prop) st : Prop := {
  b_range : forall h m n s, k_invoke (k st) h m n = Some (OResource s) ->
    (s < RESOURCE_POOL_SIZE)%nat /\ Z.of_nat s < g_resource_storage_next st;
  b_mm : (g_memory_manager st = 0 \/ k_issued (k st) (g_memory_manager st)) /\
    not_resource (k st) (g_memory_manager st);
  b_held : forall i, g_job_storage_used st !! i = Some true -> ~ x i ->
    let b := j_bound_resource_id (g_job_storage st !!? i) in
    b <> 0 -> forall m n s, k_invoke (k st) b m n = Some (OResource s) ->
    r_reserved_by (g_resource_storage st !!? s) = g_job_handles st !!? i
}.

Definition nobody (_ : nat) : Prop := False.

Lemma binv_weaken (x y : nat -> Prop) st : (forall i, x i -> y i) -> binv x st -> binv y st.
Proof. intros Hxy [? ? Hh]. split; [done..|]. intros i Hu Hy. apply Hh; [done|]. auto. Qed.

(** ** Calls that do not touch reservations *)

Definition same_reserved st st' : Prop :=
  forall s, r_reserved_by (g_resource_storage st' !!? s) = r_reserved_by (g_resource_storage st !!? s).

Lemma quiet_binv x st st' : quiet st st' -> same_reserved st st' -> binv x st -> binv x st'.
Proof.
  intros [] Hres [Hr Hm Hh]. split.
  - by rewrite q_k, q_rnext.
  - by rewrite q_k, q_mm.
  - rewrite q_used, q_jobs, q_k, q_jhandles. intros i Hu Hx b Hb m n s Hk. rewrite Hres. by eapply Hh.
Qed.

Lemma insert_reserved (l : list resource_data_t) s r :
  r_reserved_by r = r_reserved_by (l !!? s) ->
  forall s', r_reserved_by (<[s := r]> l !!? s') = r_reserved_by (l !!? s').
Proof.
  intros E s'. destruct (decide (s = s')) as [<-|Hne]; [|by rewrite nth_insert_ne].
  destruct (decide (s < length l)%nat); [by rewrite nth_insert_eq|by rewrite list_insert_ge by lia].
Qed.

Lemma kernel_invoke_reserved h m msg cap st :
  m = RESOURCE_METHOD_GET_INFO \/ m = RESOURCE_METHOD_REASSIGN \/ not_resource (k st) h ->
  same_reserved st (fst (kernel_invoke h m msg cap st)).
Proof.
  intros Hm s'. unfold Cluster.kernel_invoke. destruct msg as [ws|]; [|done].
  destruct (k_invoke (k st) h m (length ws)) as [[s|s|s|s| |i]|] eqn:Hk; repeat case_match; try done.
  destruct Hm as [->|[->|Hn]]; [..|by apply Hn in Hk]; simpl; apply insert_reserved;
  unfold resource_handler in *; simpl in *; repeat case_match; by simplify_eq.
Qed.

Ltac request_short := let ws := fresh in intros ws [= <-]; simpl; lia.

Lemma resource_get_info_binv x h st : binv x st -> binv x (fst (resource_get_info L other_reply h st)).
Proof.
  apply quiet_binv; [apply resource_get_info_quiet|]. unfold resource_get_info. case_cond; [done|].
  pose proof (kernel_invoke_reserved h RESOURCE_METHOD_GET_INFO (reply 24 [0]) 64 st ltac:(by left)) as Hr.
  destruct (kernel_invoke _ _ _ _ _) as [st' [ret resp]]. by case_cond.
Qed.

Lemma resource_reassign_binv x h n st : binv x st -> binv x (fst (resource_reassign L other_reply h n st)).
Proof.
  apply quiet_binv; [apply resource_call_quiet|]. unfold resource_reassign, resource_call. case_cond; [done|].
  pose proof (kernel_invoke_reserved h RESOURCE_METHOD_REASSIGN (reply 24 [n]) 24 st ltac:(right; by left)) as Hr.
  destruct (kernel_invoke _ _ _ _ _) as [st' [ret resp]]. by case_cond.
Qed.

Lemma invoke_other_binv x h m msg cap st :
  (forall ws, msg = Some ws -> length ws < 6)%nat -> not_resource (k st) h ->
  binv x st -> binv x (fst (kernel_invoke h m msg cap st)).
Proof.
  intros Hl Hn. apply quiet_binv; [by apply kernel_invoke_quiet|]. apply kernel_invoke_reserved. auto.
Qed.

(** Scans of the resource index. *)
Ltac binv_loop IH :=
  let Hb := fresh in
  intros st Hb; simpl; case_cond; [by apply IH|];
  match goal with
  | |- context [resource_get_info L other_reply ?h ?s] =>
      let Hi := fresh in
      pose proof (resource_get_info_binv _ h s Hb) as Hi;
      destruct (resource_get_info L other_reply h s) as [? ?]; cbn [fst] in Hi
  end; repeat case_match; try done; by apply IH.

Lemma node_has_mmu_binv x entries node_id st : binv x st -> binv x (fst (node_has_mmu_loop L other_reply entries node_id st)).
Proof. revert st. induction entries as [|i entries IH]; [done|]. binv_loop IH. Qed.

Lemma kind_available_binv x entries kind cap st : binv x st -> binv x (fst (kind_available L other_reply entries kind cap st)).
Proof. revert st. induction entries as [|i entries IH]; [done|]. binv_loop IH. Qed.

Lemma kind_choose_binv x entries kind cap c st : binv x st -> binv x (fst (kind_choose L other_reply entries kind cap c st)).
Proof. revert c st. induction entries as [|i entries IH]; intros c; [done|]. binv_loop IH. Qed.

Lemma resource_ok_for_binv x job j st : binv x st -> binv x (fst (resource_ok_for L other_reply job j st)).
Proof.
  intros Hb. unfold resource_ok_for. case_cond; [|case_cond; [done|case_cond; [|by apply kind_available_binv]]];
  match goal with |- context [resource_get_info L other_reply ?h ?s] =>
    pose proof (resource_get_info_binv _ h s Hb) as Hi end;
  by destruct (resource_get_info _ _ _ _).
Qed.

(** ** The kernel's table *)

Lemma invoke_create k0 o k' r h m n :
  k_create o k0 = (k', r) -> h = 0 \/ k_issued k0 h -> k_invoke k' h m n = k_invoke k0 h m n.
Proof.
  intros Hc Hh. pose proof (k_create_others (K := K) _ _ _ _ Hc) as [_ Hinv]. apply Hinv.
  destruct (decide (h = 0)) as [->|Hnz]; [by right|left]. intros ->. destruct Hh as [?|Hi]; [done|].
  by destruct (k_create_fresh _ _ _ _ Hc Hnz) as (_ & Hf & _).
Qed.

Lemma binv_create x o k' r st :
  k_create o (k st) = (k', r) ->
  (forall s, o = OResource s -> (s < RESOURCE_POOL_SIZE)%nat /\ Z.of_nat s < g_resource_storage_next st) ->
  cinv st -> binv x st -> binv x (set_k k' st).
Proof.
  intros Hc Ho Hinv [Hr [Hm1 Hm2] Hh]. pose proof (k_create_others _ _ _ _ Hc) as [Hiss Hsame]. split; simpl.
  - intros h m n s Hk. destruct (decide (r = Some h /\ h <> 0)) as [[-> Hnz]|Hno].
    + destruct (k_create_fresh _ _ _ _ Hc Hnz) as (_ & _ & _ & Hu). apply Hu in Hk. by apply Ho.
    + apply (Hr h m n). rewrite <- Hk. symmetry. apply Hsame. destruct (decide (h = 0)); [by right|left]. by intros Hr'; apply Hno.
  - split; [destruct Hm1; [by left|right; apply Hiss; by left]|].
    intros m n s. rewrite (invoke_create _ _ _ _ _ _ _ Hc Hm1). apply Hm2.
  - intros i Hu Hx Hb m n s Hk. eapply Hh; [done..|]. rewrite <- Hk. symmetry.
    apply (invoke_create _ _ _ _ _ _ _ Hc). right.
    destruct (ci_job _ Hinv) as (_ & _ & _ & Hj). destruct (Hj i Hu) as [_ [_ [?|[? _]]]]; done.
Qed.

Lemma binv_destroy x h st : binv x st -> binv x (factory_destroy h st).
Proof.
  intros [Hr [Hm1 Hm2] Hh].
  assert (forall h' m n o, k_invoke (k_destroy h (k st)) h' m n = Some o -> k_invoke (k st) h' m n = Some o) as Hsub.
  { intros h' m n o. destruct (decide (h' = h)) as [->|Hne]; [by rewrite k_destroy_gone|by rewrite k_destroy_others]. }
  split; simpl.
  - intros h' m n s Hk%Hsub. by eapply Hr.
  - split; [by destruct Hm1; [left|right; apply k_destroy_issued]|]. intros m n s Hk%Hsub. by eapply Hm2.
  - intros i Hu Hx Hb m n s Hk%Hsub. by eapply Hh.
Qed.

(** States that agree on everything [binv] speaks of. *)
Lemma binv_same x st st' :
  k st' = k st -> g_resource_storage_next st' = g_resource_storage_next st ->
  g_memory_manager st' = g_memory_manager st -> g_job_storage_used st' = g_job_storage_used st ->
  g_job_storage st' = g_job_storage st -> g_job_handles st' = g_job_handles st ->
  g_resource_storage st' = g_resource_storage st -> binv x st -> binv x st'.
Proof. intros E1 E2 E3 E4 E5 E6 E7 [? ? ?]. split; rewrite ?E1, ?E2, ?E3, ?E4, ?E5, ?E6, ?E7; done. Qed.

(** ** Object creation *)

Lemma binv_next x st : no_wrap st -> binv x st ->
  binv x (set_g_resource_storage_next (g_resource_storage_next st +64 1) st) /\
  forall rd, binv x (set_g_resource_storage (<[Z.to_nat (g_resource_storage_next st) := rd]> (g_resource_storage st))
          (set_g_resource_storage_next (g_resource_storage_next st +64 1) st)).
Proof.
  intros [Hw _] [Hr Hm Hh].
  assert (0 <= g_resource_storage_next st -> g_resource_storage_next st +64 1 = g_resource_storage_next st + 1) as Eu.
  { intros H0. apply u64_small. unfold is_u64. lia. }
  assert (forall h m n s, k_invoke (k st) h m n = Some (OResource s) ->
    (s < RESOURCE_POOL_SIZE)%nat /\ Z.of_nat s < g_resource_storage_next st +64 1) as Hr'.
  { intros h m n s Hk. destruct (Hr h m n s Hk). rewrite Eu by lia. lia. }
  split; [by split|]. intros rd. split; [done|done|]. simpl. intros i Hu Hx Hb m n s Hk.
  destruct (Hr _ _ _ _ Hk). rewrite nth_insert_ne by lia. by eapply Hh.
Qed.

Lemma create_resource_object_binv x a b c d e f st :
  cinv st -> no_wrap st -> binv x st -> binv x (fst (create_resource_object a b c d e f st)).
Proof.
  intros Hinv Hw Hb. unfold create_resource_object. destruct (binv_next x st Hw Hb) as [Hn1 Hn2].
  destruct (ci_res _ Hinv) as (_ & _ & H0 & _). destruct Hw as [Hw _].
  case_cond; [exact Hn1|]. unfold factory_create. cbn [k set_g_resource_storage set_g_resource_storage_next].
  match goal with |- context [k_create ?o ?k0] => destruct (k_create o k0) as [k' r] eqn:Hc end.
  match goal with |- context [set_g_resource_storage (<[_ := ?rd0]> _) _] => set (rd := rd0) end.
  set (st1 := set_g_resource_storage (<[Z.to_nat (g_resource_storage_next st) := rd]> (g_resource_storage st))
          (set_g_resource_storage_next (g_resource_storage_next st +64 1) st)).
  assert (binv x (set_k k' st1)) as Hcr.
  { apply (binv_create x _ k' r st1 Hc); [|by apply cinv_new_resource|apply Hn2].
    intros s [= <-]. simpl. rewrite u64_small by (unfold is_u64; lia). unfold RESOURCE_POOL_SIZE in *. lia. }
  case_cond; [exact Hcr|]. unfold resource_index_claim. case_match; [|exact Hcr]. by eapply binv_same; [..|exact Hcr].
Qed.

Lemma create_node_object_binv x a b c st :
  cinv st -> binv x st -> binv x (fst (create_node_object a b c st)).
Proof.
  intros Hinv Hb. unfold create_node_object. case_cond; [by eapply binv_same; [..|exact Hb]|].
  unfold factory_create. cbn [k set_g_node_storage set_g_node_storage_next].
  match goal with |- context [k_create ?o ?k0] => destruct (k_create o k0) as [k' r] eqn:Hc end.
  pose proof (binv_create x _ k' r st Hc ltac:(done) Hinv Hb) as Hcr.
  case_cond; [by eapply binv_same; [..|exact Hcr]|]. unfold node_index_claim.
  case_match; by eapply binv_same; [..|exact Hcr].
Qed.

Lemma create_job_object_binv a b c d e f g h st :
  cinv st -> binv nobody st -> binv nobody (fst (create_job_object a b c d e f g h st)).
Proof.
  intros Hinv Hb. unfold create_job_object.
  destruct (first_index negb _) as [slot|] eqn:Hslot; [|done]. apply first_index_lt in Hslot.
  destruct (ci_job _ Hinv) as (Hlu & Hlh & Hls & _).
  unfold factory_create. cbn [k set_job set_job_used set_g_job_storage set_g_job_storage_used].
  destruct (k_create (OJob slot) (k st)) as [k' r] eqn:Hc.
  destruct (binv_create nobody _ k' r st Hc ltac:(done) Hinv Hb) as [Hr Hm Hh]. simpl in Hr, Hm, Hh.
  case_cond; (split; [exact Hr|exact Hm|]); simpl; intros i Hu Hx Hbd m n s Hk.
  - rewrite list_insert_insert_eq in Hu. apply lookup_insert_cases in Hu as [(_ & ? & _)|[Hne Hu]]; [done|].
    rewrite nth_insert_ne in Hbd, Hk by done. by eapply Hh.
  - apply lookup_insert_cases in Hu as [(<- & _ & _)|[Hne Hu]]; [by rewrite nth_insert_eq in Hbd by lia|].
    rewrite nth_insert_ne in Hbd by done. rewrite nth_insert_ne in Hk by done. rewrite nth_insert_ne by done.
    by eapply Hh.
Qed.

(** ** Jobs *)

Lemma set_job_binv x i j st :
  j_bound_resource_id j = j_bound_resource_id (g_job_storage st !!? i) -> binv x st -> binv x (set_job i j st).
Proof.
  intros Hj [Hr Hm Hh]. split; [done..|]. simpl. intros i' Hu Hx.
  assert (j_bound_resource_id (<[i:=j]> (g_job_storage st) !!? i') = j_bound_resource_id (g_job_storage st !!? i')) as ->.
  { destruct (decide (i = i')) as [<-|Hne]; [|by rewrite nth_insert_ne].
    destruct (decide (i < length (g_job_storage st))%nat); [by rewrite nth_insert_eq|by rewrite list_insert_ge by lia]. }
  by apply Hh.
Qed.

(** Destroying the job of an exempt slot. *)
Lemma destroy_job_object_binv i h st :
  cinv st -> g_job_storage_used st !! i = Some true -> g_job_handles st !!? i = h ->
  binv (eq i) st -> binv nobody (destroy_job_object h st).
Proof.
  intros Hinv Hu Hh Hb. unfold destroy_job_object. rewrite <- Hh, job_slot_of_live by done.
  apply binv_destroy. destruct Hb as [Hr Hm Hheld]. split; [done..|]. simpl.
  intros i' Hu' _ Hb m n s Hk.
  apply lookup_insert_cases in Hu' as [(_ & ? & _)|[Hne Hu']]; [done|]. by eapply Hheld.
Qed.

(** What a one-word call on a resource leaves in the pool, and its verdict. *)
Lemma resource_call_storage meth h arg st :
  g_resource_storage (fst (resource_call L other_reply meth h arg st)) =
  match (if h =? 0 then None else k_invoke (k st) h meth 1) with
  | Some (OResource s) =>
      <[s := fst (resource_handler (g_resource_storage st !!? s) meth [arg] 24)]> (g_resource_storage st)
  | _ => g_resource_storage st
  end.
Proof.
  unfold resource_call. case_cond; [done|]. unfold Cluster.kernel_invoke.
  change (reply 24 [arg]) with (Some [arg]). cbv beta iota. change (length [arg]) with 1%nat.
  destruct (k_invoke (k st) h meth 1) as [[s|s|s|s| |id]|]; [..|done].
  - destruct (resource_handler _ _ _ _) as [r a]. by case_cond.
  - destruct (node_handler _ _ _) as [a [t|]]; by case_cond.
  - destruct (mutex_handler _ _ _ _) as [r a]. by case_cond.
  - destruct (job_handler _ _ _ _) as [r a]. by case_cond.
  - destruct (memory_manager_handler _ _ _ _ _) as [r a]. by case_cond.
  - by case_cond.
Qed.

Lemma resource_call_verdict meth h arg st s :
  h <> 0 -> k_invoke (k st) h meth 1 = Some (OResource s) ->
  snd (resource_call L other_reply meth h arg st) =
  let a := snd (resource_handler (g_resource_storage st !!? s) meth [arg] 24) in
  negb (response_len a <? 24) && negb (word (response_words a) 0 =? 0).
Proof.
  intros Hnz Hk. unfold resource_call. rewrite (proj2 (Z.eqb_neq _ _) Hnz). unfold Cluster.kernel_invoke.
  change (reply 24 [arg]) with (Some [arg]). cbv beta iota. change (length [arg]) with 1%nat. rewrite Hk.
  destruct (resource_handler _ _ _ _) as [r a]. cbn [snd negb orb]. by destruct (response_len a <? 24).
Qed.

(** A release by the job of slot [i] takes the reservation of no other job. *)
Lemma release_binv h i bound st :
  cinv st -> g_job_storage_used st !! i = Some true -> g_job_handles st !!? i = h ->
  binv nobody st -> binv (eq i) (release_job_resource L other_reply h bound st).
Proof.
  intros Hinv Hu Hh Hb. unfold release_job_resource, resource_release_reservation.
  pose proof (resource_call_quiet L other_reply RESOURCE_METHOD_RELEASE_RESERVATION bound h st) as Hq.
  assert (forall s, let st' := fst (resource_call L other_reply RESOURCE_METHOD_RELEASE_RESERVATION bound h st) in
    r_reserved_by (g_resource_storage st' !!? s) = r_reserved_by (g_resource_storage st !!? s) \/
    r_reserved_by (g_resource_storage st !!? s) = h) as Hres.
  { intros s'. cbv zeta. rewrite resource_call_storage.
    destruct (if bound =? 0 then _ else _) as [[s|s|s|s| |id]|]; try by left.
    destruct (decide (s = s')) as [->|Hne]; [|left; by rewrite nth_insert_ne].
    unfold resource_handler. simpl. case_cond; [by right|left]. simpl. by rewrite insert_nth_id. }
  destruct (resource_call _ _ _ _ _) as [st' ok]. cbn [fst] in *.
  destruct Hb as [Hr Hm Hheld]. destruct Hq. split.
  - by rewrite q_k, q_rnext.
  - by rewrite q_k, q_mm.
  - rewrite q_used, q_jobs, q_k, q_jhandles. intros i' Hu' Hx b Hb m n s Hk.
    specialize (Hheld i' Hu' ltac:(by intros []) Hb m n s Hk).
    destruct (Hres s) as [->|E]; [done|]. exfalso. apply Hx. rewrite Hheld in E.
    pose proof (job_slot_of_live st i' Hinv Hu') as H1. rewrite E, <- Hh, job_slot_of_live in H1 by done.
    congruence.
Qed.

(** RESERVE by the job of slot [i] disturbs no holder; when it is granted by a
    resource object, the job is its holder. *)
Lemma reserve_binv c h st :
  h <> 0 -> cinv st -> binv nobody st ->
  binv nobody (fst (resource_reserve L other_reply c h st)).
Proof.
  intros Hnz Hinv [Hr Hm Hheld]. unfold resource_reserve.
  pose proof (resource_call_quiet L other_reply RESOURCE_METHOD_RESERVE c h st) as Hq.
  pose proof (resource_call_storage RESOURCE_METHOD_RESERVE c h st) as Hsto.
  destruct (resource_call _ _ _ _ _) as [st' ok]. cbn [fst] in *. destruct Hq. split.
  - by rewrite q_k, q_rnext.
  - by rewrite q_k, q_mm.
  - rewrite q_used, q_jobs, q_k, q_jhandles. intros i Hu Hx b Hb m n s Hk.
    specialize (Hheld i Hu Hx Hb m n s Hk). rewrite Hsto.
    destruct (if c =? 0 then _ else _) as [[s'|s'|s'|s'| |id]|]; try done.
    destruct (decide (s' = s)) as [->|Hne]; [|by rewrite nth_insert_ne].
    destruct (ci_job _ Hinv) as (_ & _ & _ & Hj). destruct (Hj i Hu) as [Hn _]. apply names_nz in Hn.
    unfold resource_handler. simpl. rewrite Hheld. rewrite (proj2 (Z.eqb_neq _ _) Hn).
    case_cond; simpl; by rewrite insert_nth_id.
Qed.

Lemma reserve_granted c h st m n s :
  h <> 0 -> binv nobody st -> cinv st ->
  snd (resource_reserve L other_reply c h st) = true -> k_invoke (k st) c m n = Some (OResource s) ->
  r_reserved_by (g_resource_storage (fst (resource_reserve L other_reply c h st)) !!? s) = h.
Proof.
  intros Hnz Hb Hinv Hok Hk. unfold resource_reserve in *.
  destruct (decide (c = 0)) as [->|Hc]; [done|].
  destruct (ci_res _ Hinv) as (Hlen & _). destruct (b_range _ _ Hb _ _ _ _ Hk) as [Hs _].
  destruct (k_invoke (k st) c RESOURCE_METHOD_RESERVE 1) as [o|] eqn:Hk1.
  - rewrite (k_functional _ _ _ _ _ _ _ _ Hk1 Hk) in Hk1.
    rewrite (resource_call_verdict _ _ _ _ s Hc Hk1) in Hok.
    rewrite resource_call_storage, (proj2 (Z.eqb_neq _ _) Hc), Hk1, nth_insert_eq by (rewrite Hlen; done).
    revert Hok. unfold resource_handler. simpl. case_cond; [done|]. case_cond; [done|]. done.
  - unfold resource_call, Cluster.kernel_invoke in Hok. change (reply 24 [h]) with (Some [h]) in Hok.
    rewrite (proj2 (Z.eqb_neq _ _) Hc) in Hok. cbv beta iota in Hok. change (length [h]) with 1%nat in Hok.
    by rewrite Hk1 in Hok.
Qed.

Lemma bind_resource_for_binv h slot st :
  cinv st -> g_job_storage_used st !! slot = Some true -> g_job_handles st !!? slot = h ->
  binv nobody st -> binv nobody (bind_resource_for L other_reply h slot st).
Proof.
  intros Hinv Hu Hh Hb. unfold bind_resource_for. case_cond; [done|].
  match goal with |- context [let '(_, _) := ?t in _] => assert (quiet st (fst t) /\ binv nobody (fst t)) as [Hq Hb1] end.
  { case_cond; [by split|]. case_cond; [split; [apply kind_choose_quiet|by apply kind_choose_binv]|by split]. }
  destruct (if negb (j_resource_id _ =? 0) then _ else _) as [st1 c]. cbn [fst] in *.
  pose proof (quiet_inv _ _ Hq Hinv) as Hinv1. case_cond; [done|].
  destruct (ci_job _ Hinv) as (_ & _ & _ & Hj). destruct (Hj slot Hu) as [Hn _]. rewrite Hh in Hn. apply names_nz in Hn.
  pose proof (reserve_binv c h st1 Hn Hinv1 Hb1) as Hb2.
  pose proof (fun m n s => reserve_granted c h st1 m n s Hn Hb1 Hinv1) as Hg.
  assert (quiet st1 (fst (resource_reserve L other_reply c h st1))) as Hq2 by apply resource_call_quiet.
  destruct (resource_reserve L other_reply c h st1) as [st2 ok]. cbn [fst snd] in *. destruct ok; [|done].
  destruct Hb2 as [Hr Hm Hheld]. split; [done..|]. simpl. intros i Hu' Hx Hbd m n s Hk.
  assert (slot < length (g_job_storage st2))%nat as Hlt.
  { rewrite (q_jobs _ _ Hq2), (q_jobs _ _ Hq). destruct (ci_job _ Hinv) as (Hlu & _ & -> & _).
    rewrite <- Hlu. by eapply lookup_lt_Some. }
  destruct (decide (slot = i)) as [<-|Hne].
  - rewrite nth_insert_eq in Hk by done. simpl in Hk.
    rewrite (q_jhandles _ _ Hq2), (q_jhandles _ _ Hq), Hh. eapply Hg; [done|]. rewrite <- (q_k _ _ Hq2). exact Hk.
  - rewrite nth_insert_ne in Hk by done. rewrite nth_insert_ne in Hbd by done. by eapply Hheld.
Qed.

(** ** The handlers *)

Local Abbreviation B := (binv nobody).

Lemma leave_sweep_resources_binv entries node_id st :
  B st -> B (leave_sweep_resources L other_reply entries node_id st).
Proof.
  revert st. induction entries as [|i entries IH]; intros st Hb; [done|]. simpl. case_cond; [by apply IH|].
  pose proof (resource_get_info_binv _ (ri_handle (g_resource_index st !!? i)) st Hb) as Hi.
  destruct (resource_get_info _ _ _ _) as [st1 info]. cbn [fst] in Hi.
  case_match; [|by apply IH]. case_cond; [|by apply IH]. apply IH.
  pose proof (binv_destroy _ (ri_handle (g_resource_index st !!? i)) _ Hi) as Hd. by eapply binv_same; [..|exact Hd].
Qed.

Lemma leave_sweep_job_binv node_id i st :
  (i < JOB_POOL_SIZE)%nat -> cinv st -> B st -> B (leave_sweep_job L other_reply node_id i st).
Proof.
  intros Hi Hinv Hb. destruct (ci_job _ Hinv) as (Hlu & _). unfold leave_sweep_job.
  case_cond; [done|]. assert (g_job_storage_used st !! i = Some true) as Hu.
  { rewrite (lookup_nth_inh _ i) by lia. f_equal. done. }
  repeat case_cond; try done; [|by apply set_job_binv].
  pose proof (release_binv (g_job_handles st !!? i) i (j_bound_resource_id (g_job_storage st !!? i)) st
    Hinv Hu eq_refl Hb) as Hr.
  pose proof (resource_call_quiet L other_reply RESOURCE_METHOD_RELEASE_RESERVATION
    (j_bound_resource_id (g_job_storage st !!? i)) (g_job_handles st !!? i) st) as Hq.
  unfold release_job_resource, resource_release_reservation in *.
  eapply (destroy_job_object_binv i); [by eapply quiet_inv| | |exact Hr].
  - by rewrite (q_used _ _ Hq).
  - by rewrite (q_jhandles _ _ Hq).
Qed.

Lemma handle_leave_node_binv words st : cinv st -> B st -> B (handle_leave_node L other_reply words st).
Proof.
  intros Hinv Hb. unfold handle_leave_node. case_cond; [done|].
  assert (B (node_destroy (word words 0) st)) as Hd.
  { unfold node_destroy. case_match; [|done].
    eapply binv_same; [..|apply (binv_destroy _ (ni_handle (g_node_index st !!? n)) _ Hb)]; done. }
  pose proof (leave_sweep_resources_binv (seq 0 MAX_RESOURCE_INDEX) (word words 0) _ Hd) as Hs.
  pose proof (leave_sweep_resources_inv L other_reply (seq 0 MAX_RESOURCE_INDEX) (word words 0) _
    (node_destroy_inv (word words 0) st Hinv) entries_bounded) as Hinv1.
  revert Hs Hinv1. generalize (leave_sweep_resources L other_reply (seq 0 MAX_RESOURCE_INDEX) (word words 0)
    (node_destroy (word words 0) st)).
  assert (Forall (fun i => i < JOB_POOL_SIZE)%nat (seq 0 JOB_POOL_SIZE)) as Hall
    by (apply Forall_forall; intros i Hi%elem_of_seq; lia).
  unfold leave_sweep_jobs. induction Hall as [|i l Hi _ IH]; intros st1 Hs Hinv1; [done|]. simpl.
  apply IH; [by apply leave_sweep_job_binv|by apply leave_sweep_job_inv].
Qed.

Lemma pick_scan_binv node st : cinv st -> B st -> B (fst (pick_scan L other_reply node st)).
Proof.
  intros Hinv [Hr Hm Hh]. pose proof (pick_scan_scanned L other_reply node st Hinv) as Hsc.
  destruct (pick_scan L other_reply node st) as [st1 rb]. pose proof (sc_st _ _ _ _ _ Hsc) as Est.
  pose proof (fun i => sc_job _ _ _ _ _ Hsc i) as Hj. cbn [fst] in *.
  assert (forall i, j_bound_resource_id (g_job_storage st1 !!? i) = j_bound_resource_id (g_job_storage st !!? i)) as Eb.
  { intros i. rewrite Hj. case_decide; [|done]. unfold wake_job. by case_cond. }
  clear Hsc Hj. split; rewrite Est; [done..|]. simpl. intros i Hu Hx. rewrite Eb. by apply Hh.
Qed.

Lemma handed_state_binv node st i :
  cinv st -> (i < JOB_POOL_SIZE)%nat -> B st -> B (handed_state L other_reply node st i).
Proof.
  intros Hinv Hi Hb. pose proof (pick_scan_binv node st Hinv Hb) as Hs.
  pose proof (scan_job L other_reply node st i Hinv Hi) as Hj.
  assert (j_bound_resource_id (handed other_reply node st i) = j_bound_resource_id (wake_job other_reply node st i)) as E.
  { unfold handed. by case_cond. }
  unfold handed_state. destruct (pick_scan L other_reply node st) as [st1 rb]. cbn [fst] in *.
  apply set_job_binv; [|done]. by rewrite Hj, E.
Qed.

Lemma handed_state_inv node st i :
  cinv st -> (i < JOB_POOL_SIZE)%nat ->
  cinv (handed_state L other_reply node st i) /\
  g_job_storage_used (handed_state L other_reply node st i) = g_job_storage_used st /\
  g_job_handles (handed_state L other_reply node st i) = g_job_handles st.
Proof.
  intros Hinv Hi. pose proof (pick_scan_inv L other_reply node st Hinv) as Hs.
  pose proof (scan_job L other_reply node st i Hinv Hi) as Hj.
  pose proof (sc_st _ _ _ _ _ (pick_scan_scanned L other_reply node st Hinv)) as Est.
  unfold handed_state. destruct (pick_scan L other_reply node st) as [st1 rb]. cbn [fst] in *.
  split; [|rewrite Est; done]. apply set_job_refs; [done|..]; rewrite Hj; unfold handed; by case_cond.
Qed.

Lemma handle_get_next_job_binv words cap st :
  cinv st -> B st -> B (fst (handle_get_next_job L other_reply words cap st)).
Proof.
  intros Hinv Hb. unfold handle_get_next_job.
  pose proof (pick_next_cases L other_reply (word words 0) st Hinv) as Hc.
  destruct (pick_next_for_node L other_reply (word words 0) st) as [st1 r].
  assert (B st1) as Ht.
  { destruct Hc as [(i & Hch & [-> _]%pair_equal_spec)|[_ [-> _]%pair_equal_spec]]; [|by apply pick_scan_binv].
    destruct (chosen_candidate _ _ _ _ Hch) as [Hi Hcand]. destruct (candidate_used _ _ _ _ Hi Hinv Hcand) as [Hu _].
    destruct (handed_state_inv (word words 0) st i Hinv Hi) as (H1 & H2 & H3).
    apply bind_resource_for_binv; [done|by rewrite H2|by rewrite H3|by apply handed_state_binv]. }
  destruct r as [[h i]|]; [|exact Ht]. by destruct (h =? 0).
Qed.

Lemma lock_binv x st : binv x st -> binv x (storage_lock_acquire_wait st).
Proof. intros Hb. by eapply binv_same; [..|exact Hb]. Qed.
Lemma unlock_binv x st : binv x st -> binv x (storage_lock_release st).
Proof. intros Hb. by eapply binv_same; [..|exact Hb]. Qed.

Lemma handle_report_job_result_binv words st :
  cinv st -> B st -> B (handle_report_job_result L other_reply words st).
Proof.
  intros Hinv Hb. unfold handle_report_job_result. case_cond.
  - case_match eqn:Hs; [|by apply unlock_binv, lock_binv].
    unfold job_data_for_handle_locked in Hs. case_cond; [done|].
    apply job_slot_of_Some in Hs as (Hu & _ & Hh). simpl in Hu, Hh.
    match goal with |- context [release_job_resource _ _ ?h ?b ?s] =>
      pose proof (release_binv h n b s ltac:(by apply unlock_inv, lock_inv) Hu Hh
        ltac:(by apply unlock_binv, lock_binv)) as Hr;
      pose proof (resource_call_quiet L other_reply RESOURCE_METHOD_RELEASE_RESERVATION b h s) as Hq end.
    unfold release_job_resource, resource_release_reservation in *.
    destruct (resource_call _ _ _ _ _) as [st1 ok]. cbn [fst] in *.
    eapply (destroy_job_object_binv n).
    + apply unlock_inv, completion_record_inv, lock_inv. eapply quiet_inv; [exact Hq|]. by apply unlock_inv, lock_inv.
    + simpl. by rewrite (q_used _ _ Hq).
    + simpl. by rewrite (q_jhandles _ _ Hq).
    + by eapply binv_same; [..|exact Hr].
  - apply unlock_binv. case_match; [|by apply lock_binv].
    apply set_job_binv; [unfold report_update; by repeat case_cond|by apply lock_binv].
Qed.

Lemma mutex_call_binv i m msg cap st :
  cinv st -> B st -> (forall ws, msg = Some ws -> length ws < 6)%nat -> mutex_object_for_id i st <> 0 ->
  B (fst (kernel_invoke (mutex_object_for_id i st) m msg cap st)).
Proof.
  intros Hinv Hb Hl. unfold mutex_object_for_id. case_cond; [done|]. intros Hnz.
  apply invoke_other_binv; [done| |done]. destruct (ci_mutex _ Hinv) as (_ & _ & Hm).
  destruct (Hm (Z.to_nat i)) as [?|[_ Hu]]; [unfold MAX_MUTEXES in *; lia|done|].
  intros m' n s Hk. by apply Hu in Hk.
Qed.

Lemma handle_mutex_try_lock_binv words cap st :
  cinv st -> B st -> B (fst (handle_mutex_try_lock L other_reply words cap st)).
Proof.
  intros Hinv Hb. unfold handle_mutex_try_lock. case_cond; [done|].
  match goal with |- context [Cluster.kernel_invoke _ _ ?h ?m ?w ?c ?s] =>
    pose proof (mutex_call_binv (to_int (word words 0)) m w c s Hinv Hb ltac:(request_short) ltac:(done)) as H1;
    destruct (Cluster.kernel_invoke _ _ h m w c s) as [st1 [ret resp]] end.
  case_cond; [|done]. cbn [fst] in *. case_cond; [|done]. apply unlock_binv. unfold inherit_priority.
  do 2 (case_match; [|by apply lock_binv]). case_cond; [|by apply lock_binv].
  apply set_job_binv; [done|by apply lock_binv].
Qed.

Lemma handle_mutex_unlock_binv words st :
  cinv st -> B st -> B (handle_mutex_unlock L other_reply words st).
Proof.
  intros Hinv Hb. unfold handle_mutex_unlock. case_cond; [done|].
  match goal with |- context [Cluster.kernel_invoke _ _ ?h ?m ?w ?c ?s] =>
    pose proof (mutex_call_binv (to_int (word words 0)) m w c s Hinv Hb ltac:(request_short) ltac:(done)) as H1;
    destruct (Cluster.kernel_invoke _ _ h m w c s) as [st1 [ret resp]] end.
  case_cond; [|done]. apply unlock_binv. case_match; [|by apply lock_binv].
  apply set_job_binv; [done|by apply lock_binv].
Qed.

(** The calls on the memory manager's object. *)
Lemma mm_call_binv m msg cap st :
  B st -> (forall ws, msg = Some ws -> length ws < 6)%nat ->
  B (fst (kernel_invoke (g_memory_manager st) m msg cap st)).
Proof. intros Hb Hl. apply invoke_other_binv; [done|apply (b_mm _ _ Hb)|done]. Qed.

(** Create a resource from a state reached by quiet steps. *)
Lemma quiet_create_binv a b c d e f st st1 :
  cinv st -> no_wrap st -> quiet st st1 -> B st1 -> B (fst (create_resource_object a b c d e f st1)).
Proof.
  intros Hinv Hw Hq Hb. apply create_resource_object_binv; [by eapply quiet_inv|by eapply quiet_no_wrap|done].
Qed.

Lemma handle_request_allocation_binv words cap st :
  cinv st -> no_wrap st -> B st -> B (fst (handle_request_allocation L other_reply words cap st)).
Proof.
  intros Hinv Hw Hb. unfold handle_request_allocation.
  pose proof (mm_call_binv 0 (reply 48 [word words 1; word words 2; word words 3]) 24 st Hb ltac:(request_short)) as H1.
  pose proof (kernel_invoke_quiet L other_reply (g_memory_manager st) 0
    (reply 48 [word words 1; word words 2; word words 3]) 24 st ltac:(request_short)) as Hq.
  destruct (Cluster.kernel_invoke _ _ _ _ _ _ _) as [st1 [ret resp]]. cbn [fst] in *. case_cond; [|done].
  match goal with |- context [create_resource_object ?a ?b ?x ?d ?e ?f ?g] =>
    pose proof (create_resource_object_binv nobody a b x d e f g) as Hc;
    destruct (create_resource_object a b x d e f g) end.
  destruct (alloc_record_quiet (word words 0) (word words 1) (word words 2) (word words 3) st1) as [Hi Hn];
    [by eapply quiet_inv|].
  apply Hc; [done|by eapply Hn, quiet_no_wrap|]. unfold alloc_record. case_match; [|done]. by eapply binv_same; [..|exact H1].
Qed.

Lemma handle_allocate_slice_binv words cap st :
  cinv st -> no_wrap st -> B st -> B (fst (handle_allocate_slice L other_reply words cap st)).
Proof.
  intros Hinv Hw Hb. unfold handle_allocate_slice.
  pose proof (mm_call_binv 1 (reply 40 [word words 2; word words 3]) 40 st Hb ltac:(request_short)) as H1.
  pose proof (kernel_invoke_quiet L other_reply (g_memory_manager st) 1
    (reply 40 [word words 2; word words 3]) 40 st ltac:(request_short)) as Hq.
  destruct (Cluster.kernel_invoke _ _ _ _ _ _ _) as [st1 [ret resp]]. cbn [fst] in *. case_cond; [|done].
  match goal with |- context [create_resource_object ?a ?b ?x ?d ?e ?f ?g] =>
    pose proof (quiet_create_binv a b x d e f st g Hinv Hw Hq H1) as Hc;
    by destruct (create_resource_object a b x d e f g) end.
Qed.

Lemma handle_release_slice_binv words cap st :
  B st -> B (fst (handle_release_slice L other_reply words cap st)).
Proof.
  intros Hb. unfold handle_release_slice.
  pose proof (resource_get_info_binv _ (word words 0) st Hb) as H1.
  destruct (resource_get_info L other_reply (word words 0) st) as [st1 [info|]]; [|done]. cbn [fst] in H1.
  do 2 (case_cond; [done|]).
  pose proof (mm_call_binv 2 (reply 24 [i_descriptor info]) 24 st1 H1 ltac:(request_short)) as H2.
  destruct (Cluster.kernel_invoke _ _ _ _ _ _ _) as [st2 [ret resp]]. cbn [fst] in *. case_cond; [|done].
  cbn [fst]. pose proof (binv_destroy _ (word words 0) _ H2) as Hd.
  case_match; [|done]. by eapply binv_same; [..|exact Hd].
Qed.

Lemma handle_declare_resource_binv words cap st :
  cinv st -> no_wrap st -> B st -> B (fst (handle_declare_resource L other_reply words cap st)).
Proof.
  intros Hinv Hw Hb. unfold handle_declare_resource. set (needs := (_ =? RESOURCE_SYNC_STREAM) || _).
  match goal with |- context [let '(_, _) := (if needs then ?a else ?b) in _] =>
    assert (quiet st (fst (if needs then a else b)) /\ B (fst (if needs then a else b))) as [Hq H1] end.
  { destruct needs; [split; [apply node_has_mmu_quiet|by apply node_has_mmu_binv]|by split]. }
  destruct (if needs then _ else _) as [st1 has]. cbn [fst] in *. case_cond; [done|].
  match goal with |- context [create_resource_object ?a ?b ?x ?d ?e ?f ?g] =>
    pose proof (quiet_create_binv a b x d e f st g Hinv Hw Hq H1) as Hc;
    by destruct (create_resource_object a b x d e f g) end.
Qed.

Lemma handle_reassign_resource_binv words cap st :
  B st -> B (fst (handle_reassign_resource L other_reply words cap st)).
Proof.
  intros Hb. unfold handle_reassign_resource.
  pose proof (resource_get_info_binv _ (word words 0) st Hb) as H1.
  destruct (resource_get_info L other_reply (word words 0) st) as [st1 [info|]]; [|done]. cbn [fst] in H1.
  do 2 (case_cond; [done|]).
  pose proof (resource_reassign_binv _ (word words 0) (word words 1) st1 H1) as H2.
  by destruct (resource_reassign _ _ _ _ st1).
Qed.

Lemma handle_preempt_node_binv words cap st :
  cinv st -> B st -> B (fst (handle_preempt_node L other_reply words cap st)).
Proof.
  intros Hinv Hb. unfold handle_preempt_node. case_cond; [|done].
  assert (not_resource (k st) (node_find_by_id (word words 0) st)) as Hn.
  { unfold node_find_by_id in *. case_match; [|done].
    match goal with E : node_index_of _ _ = Some _ |- _ => apply node_index_of_Some in E as (e & He & Hu & _ & Hnth) end.
    rewrite Hnth. destruct (ci_node _ Hinv) as (_ & _ & _ & Hidx & _). destruct (Hidx _ e He Hu) as (s & [_ Hns] & _).
    intros m n' s' Hk. by apply Hns in Hk. }
  match goal with |- context [Cluster.kernel_invoke _ _ ?h ?m ?w ?c ?s] =>
    pose proof (invoke_other_binv nobody h m w c s ltac:(request_short) Hn Hb) as H1;
    by destruct (Cluster.kernel_invoke _ _ h m w c s) end.
Qed.

Lemma handler_binv method_id words cap st :
  cinv st -> no_wrap st -> B st -> B (fst (cluster_scheduler_handler L other_reply method_id words cap st)).
Proof.
  intros Hinv Hw Hb. unfold cluster_scheduler_handler.
  case_cond.
  { unfold handle_join_node. case_cond; [done|].
    pose proof (create_node_object_binv nobody (word words 0) (word words 1) (word words 2) st Hinv Hb) as Hc.
    destruct (create_node_object _ _ _ _) as [st' h]. by case_cond. }
  case_cond; [by apply handle_leave_node_binv|].
  case_cond; [by apply handle_request_allocation_binv|].
  case_cond; [by apply handle_declare_resource_binv|].
  case_cond.
  { unfold handle_get_resource_info. pose proof (resource_get_info_binv nobody (word words 0) st Hb) as H1.
    by destruct (resource_get_info _ _ _ _) as [st1 [info|]]. }
  case_cond; [by apply handle_allocate_slice_binv|].
  case_cond; [by apply handle_release_slice_binv|].
  case_cond; [by apply handle_preempt_node_binv|].
  case_cond; [by apply handle_reassign_resource_binv|].
  case_cond.
  { unfold handle_submit_job.
    match goal with |- context [create_job_object ?a ?b ?x ?d ?e ?f ?g ?h ?s] =>
      pose proof (create_job_object_binv a b x d e f g h s Hinv Hb) as Ht;
      by destruct (create_job_object a b x d e f g h s) end. }
  case_cond; [by apply handle_get_next_job_binv|].
  case_cond; [by apply handle_report_job_result_binv|].
  case_cond; [by apply unlock_binv, lock_binv|].
  case_cond; [by apply handle_mutex_try_lock_binv|].
  case_cond; [by apply handle_mutex_unlock_binv|done].
Qed.

(** ** From initialisation *)

Definition fresh_kernel (mm : Z) (k0 : K) : Prop :=
  (forall h, not_resource k0 h) /\ (mm = 0 \/ k_issued k0 mm).

Lemma create_mutexes_fresh slots mm st :
  fresh_kernel mm (k st) ->
  fresh_kernel mm (k (create_mutexes slots st)) /\
  g_memory_manager (create_mutexes slots st) = g_memory_manager st /\
  g_job_storage_used (create_mutexes slots st) = g_job_storage_used st.
Proof.
  revert st. induction slots as [|i slots IH]; intros st [Hn Hm]; [done|]. simpl.
  unfold factory_create. cbn [k set_g_mutex_storage].
  destruct (k_create (OMutex i) (k st)) as [k' r] eqn:Hc. pose proof (k_create_others _ _ _ _ Hc) as [Hiss Hsame].
  match goal with |- context [create_mutexes slots ?s] => destruct (IH s) as (H1 & H2 & H3) end.
  { split; simpl.
    - intros h m n s Hk. destruct (decide (r = Some h /\ h <> 0)) as [[-> Hnz]|Hno].
      + destruct (k_create_fresh _ _ _ _ Hc Hnz) as (_ & _ & _ & Hu). by apply Hu in Hk.
      + apply (Hn h m n s). rewrite <- Hk. symmetry. apply Hsame.
        destruct (decide (h = 0)); [by right|left]. intros Hr. by apply Hno.
    - destruct Hm; [by left|right]. apply Hiss. by left. }
  done.
Qed.

Lemma init_binv mm st :
  statics_sized st -> fresh_kernel mm (k st) -> B (cluster_scheduler_init_schema L mm st).
Proof.
  intros Hs Hf. destruct (init_prepared mm st Hs) as (Hinv & E1 & E2). rewrite init_split.
  destruct (create_mutexes_fresh (seq 0 MAX_MUTEXES) mm (init_cleared mm st) Hf) as ([Hn Hm] & Emm & Eu).
  assert (forall i, g_job_storage_used (init_cleared mm st) !! i <> Some true) as Hun.
  { intros i Hu. by apply list_lookup_fmap_Some in Hu as (? & ? & ?). }
  assert (g_memory_manager (init_cleared mm st) = mm) as Emm' by done.
  generalize dependent (create_mutexes (seq 0 MAX_MUTEXES) (init_cleared mm st)). intros s Hinv E1 E2 Hn Hm Emm Eu.
  match goal with |- context [create_resource_object ?a ?b ?x ?d ?e ?f s] =>
    pose proof (create_resource_object_binv nobody a b x d e f s Hinv) as Hc;
    destruct (create_resource_object a b x d e f s) as [st1 pool] end.
  assert (B st1) as Hb1; [|by eapply binv_same; [..|exact Hb1]].
  apply Hc; [unfold no_wrap; by rewrite E1, E2|]. split.
  - intros h m n s' Hk. by apply Hn in Hk.
  - split; [by rewrite Emm, Emm'|apply Hn].
  - intros i Hu. rewrite Eu in Hu. by apply Hun in Hu.
Qed.

(** The event goes through the scheduler (or creates an object elsewhere). *)
Definition through_scheduler (e : event) : Prop :=
  match e with EDirect _ _ _ => False | _ => True end.

Lemma execution_binv st es st' :
  execution L other_reply st es st' -> Forall through_scheduler es -> cinv st -> B st -> cinv st' /\ B st'.
Proof.
  induction 1 as [|st e st1 es st2 Hst Hex IH]; [done|]. intros [He Hes]%Forall_cons Hinv Hb.
  apply IH; [done|by eapply cstep_inv|]. destruct Hst as [m ws cap Hw _|t m ws cap _|id]; [|done|].
  - by apply handler_binv.
  - unfold factory_create. destruct (k_create (OOther id) (k st)) as [k' r] eqn:Hc. by eapply binv_create.
Qed.

(** C4: resources are exclusive.  In any execution from initialisation, over a
    kernel in which no handle names a resource yet, in which requests to the
    scheduler are the only calls ([through_scheduler]: nobody calls a job or a
    resource object directly, as [job_kprintf] does with the serial resource),
    each handled as a whole and within the conditions of [cstep], a live job
    that is bound to a resource object is the holder of its reservation, so
    two live jobs are never bound to the same resource. *)
Theorem bound_resource_exclusive mm st0 es st :
  statics_sized st0 -> fresh_kernel mm (k st0) ->
  execution L other_reply (cluster_scheduler_init_schema L mm st0) es st -> Forall through_scheduler es ->
  let bound i := j_bound_resource_id (g_job_storage st !!? i) in
  let live_job i := g_job_storage_used st !! i = Some true in
  (forall i m n s, live_job i -> k_invoke (k st) (bound i) m n = Some (OResource s) ->
     r_reserved_by (g_resource_storage st !!? s) = g_job_handles st !!? i) /\
  (forall i i' m n m' n' s, live_job i -> live_job i' ->
     k_invoke (k st) (bound i) m n = Some (OResource s) ->
     k_invoke (k st) (bound i') m' n' = Some (OResource s) -> i = i').
Proof.
  intros Hs Hf Hex Hes bound live_job.
  destruct (execution_binv _ _ _ Hex Hes) as [Hinv Hb]; [by apply init_inv|by apply init_binv|].
  assert (forall i m n s, live_job i -> k_invoke (k st) (bound i) m n = Some (OResource s) ->
     r_reserved_by (g_resource_storage st !!? s) = g_job_handles st !!? i) as H1.
  { intros i m n s Hu Hk. eapply (b_held _ _ Hb); [done|by intros []| |exact Hk].
    intros E. unfold bound in Hk. by rewrite E, k_null in Hk. }
  split; [done|]. intros i i' m n m' n' s Hu Hu' Hk Hk'.
  pose proof (H1 _ _ _ _ Hu Hk) as E1. pose proof (H1 _ _ _ _ Hu' Hk') as E2. rewrite E1 in E2.
  pose proof (job_slot_of_live st i Hinv Hu) as F1. pose proof (job_slot_of_live st i' Hinv Hu') as F2.
  rewrite E2 in F1. congruence.
Qed.
End bind.

Lemma boot_fresh : fresh_kernel 1 boot_kernel.
Proof.
  split; [|by right]. intros h m n s Hk%counter_invoke_object. simpl in Hk.
  by apply lookup_singleton_Some in Hk as [_ ?].
Qed.

(** In the demonstration run the second job is bound to the peripheral, which
    it holds. *)
Lemma bound_resource_exclusive_witness :
  let bound i := j_bound_resource_id (g_job_storage demo_state !!? i) in
  let live_job i := g_job_storage_used demo_state !! i = Some true in
  (live_job 1%nat /\ k_invoke (k demo_state) (bound 1%nat) 0 1 = Some (OResource 1)) /\
  (forall i m n s, live_job i -> k_invoke (k demo_state) (bound i) m n = Some (OResource s) ->
     r_reserved_by (g_resource_storage demo_state !!? s) = g_job_handles demo_state !!? i) /\
  (forall i i' m n m' n' s, live_job i -> live_job i' ->
     k_invoke (k demo_state) (bound i) m n = Some (OResource s) ->
     k_invoke (k demo_state) (bound i') m' n' = Some (OResource s) -> i = i').
Proof.
  intros bound live_job. split; [split; vm_compute; reflexivity|].
  apply (bound_resource_exclusive layout_x86_64 no_other 1 (zero_statics boot_kernel mem_boot)
    (run_events demo_requests cluster_boot) demo_state).
  - apply boot_sized.
  - apply boot_fresh.
  - rewrite <- boot_eq. exact demo_execution.
  - vm_compute. repeat constructor.
Defined.
