(* ===== verification/ClusterResults.v ===== *)
(** * Completion of jobs

    What REPORT_JOB_RESULT(JOB_FINISHED) does to the job, its resource and
    its slot, and how long GET_JOB_RESULT can be asked for the value. *)

From S2P Require Import Prelude Capnp TryLock Kernel MemMgr Objects Cluster ClusterInv ClusterReach ClusterPick ClusterBind.

(** ** The ring of completions *)

Section ring.
Context {K : Type}.
Implicit Types (st : cstate K).

Definition stale_free (h : Z) st : Prop :=
  forall c, c ∈ g_completions st -> cp_used c = true -> cp_job_handle c <> h.

Lemma unused_stale_free h st :
  forallb (fun c => negb (cp_used c)) (g_completions st) = true -> stale_free h st.
Proof.
  intros Hall c Hc Hu. rewrite forallb_forall in Hall. specialize (Hall c).
  rewrite <- list_elem_of_In in Hall. apply Hall in Hc. by rewrite Hu in Hc.
Qed.

(** [h] is found with [v] when some entry says so and every entry for [h]
    does. *)
Lemma completion_find_unique h v st i c :
  g_completions st !! i = Some c -> cp_used c = true -> cp_job_handle c = h ->
  (forall j d, g_completions st !! j = Some d -> cp_used d = true -> cp_job_handle d = h -> cp_value d = v) ->
  completion_find h st = Some v.
Proof.
  intros Hc Hu Hh Hall. unfold completion_find.
  destruct (first_index_exists (fun c => cp_used c && (cp_job_handle c =? h)) (g_completions st) i c Hc)
    as (j & Hj & _).
  { by rewrite Hu, Hh, Z.eqb_refl. }
  rewrite Hj. apply first_index_Some in Hj as (d & Hd & Hp & _). bool_simp.
  rewrite (nth_lookup_Some_inh _ _ _ Hd). f_equal. by eapply Hall.
Qed.

Definition record_all (recs : list (Z * Z)) st : cstate K :=
  fold_left (fun st r => completion_record (fst r) (snd r) st) recs st.

(** The slot of the [j]-th record written from counter value [n0]; the
    counter's own wrap-around at 2^64 is invisible, 32 dividing it. *)
Definition ring_slot (n0 : Z) (j : nat) : nat := Z.to_nat ((n0 + Z.of_nat j) mod Z.of_nat JOB_POOL_SIZE).

Lemma ring_slot_S n0 j : ring_slot (n0 +64 1) j = ring_slot n0 (S j).
Proof.
  unfold ring_slot, u64, W64. change (Z.of_nat JOB_POOL_SIZE) with 32.
  rewrite Zplus_mod, Z.mod_mod_divide, <- Zplus_mod by (by exists 576460752303423488).
  f_equal. f_equal. lia.
Qed.

Lemma ring_slot_inj n0 i j : (i < JOB_POOL_SIZE)%nat -> (j < JOB_POOL_SIZE)%nat -> ring_slot n0 i = ring_slot n0 j -> i = j.
Proof.
  unfold ring_slot, JOB_POOL_SIZE. change (Z.of_nat 32) with 32. intros Hi Hj E.
  apply Z2Nat.inj in E; [|apply Z.mod_pos_bound; lia..]. Z.to_euclidean_division_equations. lia.
Qed.

Lemma ring_slot_lt n0 j : (ring_slot n0 j < JOB_POOL_SIZE)%nat.
Proof.
  unfold ring_slot, JOB_POOL_SIZE. change (Z.of_nat 32) with 32.
  pose proof (Z.mod_pos_bound (n0 + Z.of_nat j) 32 ltac:(lia)). lia.
Qed.

(** Writing at most a full turn of the ring: record [j] is in its slot, the
    other slots are as before. *)
Lemma record_all_ring recs st :
  length (g_completions st) = JOB_POOL_SIZE -> (length recs <= JOB_POOL_SIZE)%nat ->
  let st' := record_all recs st in
  length (g_completions st') = JOB_POOL_SIZE /\
  (forall j h v, recs !! j = Some (h, v) ->
     g_completions st' !! ring_slot (g_completion_next st) j =
     Some {| cp_job_handle := h; cp_value := v; cp_used := true |}) /\
  (forall x, (forall j, (j < length recs)%nat -> x <> ring_slot (g_completion_next st) j) ->
     g_completions st' !! x = g_completions st !! x).
Proof.
  revert st. induction recs as [|[h v] recs IH]; intros st Hlen Hle; [done|]. simpl in Hle.
  pose proof (ring_slot_lt (g_completion_next st) 0) as Hlt.
  assert (Z.to_nat (g_completion_next st mod Z.of_nat JOB_POOL_SIZE) = ring_slot (g_completion_next st) 0) as Hslot
    by (unfold ring_slot; by rewrite Z.add_0_r).
  change (record_all ((h, v) :: recs) st) with (record_all recs (completion_record h v st)).
  assert (g_completions (completion_record h v st) =
    <[ring_slot (g_completion_next st) 0 := {| cp_job_handle := h; cp_value := v; cp_used := true |}]> (g_completions st)) as Ec
    by (unfold completion_record; by rewrite <- Hslot).
  assert (forall j, ring_slot (g_completion_next (completion_record h v st)) j = ring_slot (g_completion_next st) (S j)) as Er
    by (intros j; apply ring_slot_S).
  destruct (IH (completion_record h v st)) as (H1 & H2 & H3); [by rewrite Ec, length_insert|lia|].
  split; [done|]. split.
  - intros [|j] h' v' Hj; simpl in Hj.
    + injection Hj as <- <-. rewrite H3; [by rewrite Ec, list_lookup_insert_eq by by rewrite Hlen|].
      intros j Hj. rewrite Er. intros E. apply ring_slot_inj in E; [done|unfold JOB_POOL_SIZE; lia|lia].
    + rewrite <- Er. by apply H2.
  - intros x Hx. rewrite H3.
    + rewrite Ec, list_lookup_insert_ne; [done|]. intros E. by apply (Hx 0%nat); [simpl; lia|].
    + intros j Hj. rewrite Er. apply Hx. simpl. lia.
Qed.

Lemma record_all_sized recs st :
  length (g_completions st) = JOB_POOL_SIZE -> length (g_completions (record_all recs st)) = JOB_POOL_SIZE.
Proof.
  revert st. induction recs as [|[h v] recs IH]; intros st Hlen; [done|].
  apply (IH (completion_record h v st)). simpl. by rewrite length_insert.
Qed.

Lemma record_all_stale_free recs h st :
  stale_free h st -> h ∉ recs.*1 -> stale_free h (record_all recs st).
Proof.
  revert st. induction recs as [|[h' v] recs IH]; intros st Hs Hni; [done|].
  rewrite fmap_cons in Hni. apply not_elem_of_cons in Hni as [Hne Hni]. apply (IH (completion_record h' v st)); [|done].
  intros c Hc Hu. simpl in Hc. apply list_elem_of_lookup in Hc as [x Hx].
  apply lookup_insert_cases in Hx as [(_ & -> & _)|[_ Hx]]; [simpl in *; congruence|].
  apply Hs; [by eapply list_elem_of_lookup_2|done].
Qed.

(** C9: the last 32 completions can be asked for.  Whatever completions
    [old] were recorded before (the ring has wrapped, or its 64-bit counter
    has), each of up to 32 records made since is found with its value, as long
    as the handles are distinct and not already in the table. *)
Theorem completions_kept st old recent h v :
  length (g_completions st) = JOB_POOL_SIZE -> (length recent <= JOB_POOL_SIZE)%nat ->
  NoDup (old ++ recent).*1 -> (forall h, h ∈ recent.*1 -> stale_free h st) ->
  (h, v) ∈ recent ->
  completion_find h (record_all (old ++ recent) st) = Some v.
Proof.
  intros Hlen Hle Hnd Hst Hin. rewrite fmap_app in Hnd. apply NoDup_app in Hnd as (_ & Hdis & Hnd).
  assert (h ∈ recent.*1) as Hh by (apply list_elem_of_fmap; by exists (h, v)).
  unfold record_all. rewrite fold_left_app. fold (record_all old st). set (st1 := record_all old st).
  assert (stale_free h st1) as Hsf.
  { apply record_all_stale_free; [by apply Hst|]. intros Ho. by apply (Hdis h). }
  destruct (record_all_ring recent st1) as (_ & Hrec & Hother); [by apply record_all_sized|done|].
  fold (record_all recent st1). apply list_elem_of_lookup in Hin as [j Hj].
  eapply completion_find_unique; [by apply Hrec|done|done|]. intros x d Hd Hu Hdh.
  destruct (decide (Exists (fun j' => x = ring_slot (g_completion_next st1) j') (seq 0 (length recent))))
    as [(j' & Hj'%elem_of_seq & ->)%Exists_exists|Hno].
  - destruct (lookup_lt_is_Some_2 recent j' ltac:(lia)) as [[h' v'] Hr]. rewrite (Hrec _ _ _ Hr) in Hd. simplify_eq. simpl in *.
    assert (j = j') as ->; [|congruence].
    apply (NoDup_lookup (recent.*1) j j' h'); [done|by rewrite list_lookup_fmap, Hj|by rewrite list_lookup_fmap, Hr].
  - rewrite Hother in Hd; [|intros j' Hj' ->; apply Hno, Exists_exists; exists j'; split; [apply elem_of_seq; lia|done]].
    exfalso. eapply Hsf; [by eapply list_elem_of_lookup_2|done|done].
Qed.
End ring.

(** ** JOB_FINISHED *)

Section finished.
Context `{HL : KernelLaws K}.
Context (L : layout) (other_reply : nat -> Z -> list Z -> Z -> option (list Z)).
Implicit Types (st : cstate K).

Lemma release_reserved h bound st s :
  names (k st) bound (OResource s) -> (s < length (g_resource_storage st))%nat ->
  r_reserved_by (g_resource_storage st !!? s) = h ->
  r_reserved_by (g_resource_storage (release_job_resource L other_reply h bound st) !!? s) = 0.
Proof.
  intros Hn Hs Hh. unfold release_job_resource, resource_release_reservation. rewrite resource_call_storage.
  rewrite (proj2 (Z.eqb_neq _ _) (names_nz _ _ _ Hn)). destruct Hn as [Hk _]. rewrite (Hk _ 1%nat) by done.
  rewrite nth_insert_eq by done. unfold resource_handler. simpl. by rewrite Hh, Z.eqb_refl.
Qed.

Lemma completion_recorded h v st :
  length (g_completions st) = JOB_POOL_SIZE ->
  (forall c, c ∈ g_completions st -> cp_used c = true -> cp_job_handle c <> h) ->
  completion_find h (completion_record h v st) = Some v.
Proof.
  intros Hlen Hsf. pose proof (ring_slot_lt (g_completion_next st) 0) as Hlt. unfold ring_slot in Hlt.
  rewrite Z.add_0_r in Hlt.
  eapply completion_find_unique;
    [unfold completion_record; simpl; apply list_lookup_insert_eq; rewrite Hlen; exact Hlt|done|done|].
  intros j d Hd Hu Hh. simpl in Hd. apply lookup_insert_cases in Hd as [(_ & -> & _)|[_ Hd]]; [done|].
  exfalso. eapply Hsf; [by eapply list_elem_of_lookup_2|done|done].
Qed.

(** The state after the resource is released and the value recorded. *)
Lemma finished_unfold words st i :
  cinv st -> g_job_storage_used st !! i = Some true -> word words 0 = g_job_handles st !!? i ->
  u32 (word words 1) = JOB_FINISHED ->
  exists st1, quiet (storage_lock_release (storage_lock_acquire_wait st)) st1 /\
    st1 = release_job_resource L other_reply (word words 0) (j_bound_resource_id (g_job_storage st !!? i))
            (storage_lock_release (storage_lock_acquire_wait st)) /\
    handle_report_job_result L other_reply words st =
    destroy_job_object (word words 0)
      (storage_lock_release (completion_record (word words 0) (word words 3) (storage_lock_acquire_wait st1))).
Proof.
  intros Hinv Hu Hh Hr. unfold handle_report_job_result. rewrite Hr.
  change (JOB_FINISHED =? JOB_FINISHED) with true. cbv iota. unfold job_data_for_handle_locked.
  destruct (ci_job _ Hinv) as (_ & _ & _ & Hj). destruct (Hj i Hu) as [Hn _]. apply names_nz in Hn.
  rewrite <- Hh in Hn. rewrite (proj2 (Z.eqb_neq _ _) Hn), Hh.
  change (job_slot_of ?h (storage_lock_acquire_wait st)) with (job_slot_of h st).
  rewrite (job_slot_of_live st i Hinv Hu). eexists. split; [|split; [reflexivity|reflexivity]].
  apply resource_call_quiet.
Qed.

(** The job is gone. *)
Lemma finished_gone words st i :
  cinv st -> g_job_storage_used st !! i = Some true -> word words 0 = g_job_handles st !!? i ->
  u32 (word words 1) = JOB_FINISHED ->
  job_slot_of (word words 0) (handle_report_job_result L other_reply words st) = None.
Proof.
  intros Hinv Hu Hh Hr. destruct (finished_unfold words st i Hinv Hu Hh Hr) as (st1 & Hq & _ & Est').
  set (st2 := storage_lock_release _) in Est'.
  pose proof (quiet_inv _ _ Hq (unlock_inv _ (lock_inv _ Hinv))) as Hinv1.
  assert (cinv st2) as Hinv2 by by apply unlock_inv, completion_record_inv, lock_inv.
  assert (job_slot_of (word words 0) st2 = Some i) as Hs2.
  { rewrite Hh. destruct Hq. replace (g_job_handles st) with (g_job_handles st2) by done.
    apply job_slot_of_live; [done|]. by replace (g_job_storage_used st2) with (g_job_storage_used st). }
  rewrite Est'. unfold destroy_job_object. rewrite Hs2.
  destruct (job_slot_of (word words 0) (factory_destroy _ _)) as [i'|] eqn:Hs'; [|done]. exfalso.
  apply job_slot_of_Some in Hs' as (Hu' & _ & Hh'). simpl in Hu', Hh'.
  apply lookup_insert_cases in Hu' as [(_ & ? & _)|[Hne Hu']]; [done|].
  pose proof (job_slot_of_live st2 i' Hinv2 Hu') as Hl.
  change (g_job_handles st2) with (g_job_handles st1) in Hl. rewrite Hh', Hs2 in Hl. congruence.
Qed.

(** The value reported is the one GET_JOB_RESULT finds. *)
Lemma finished_completion words st i :
  cinv st -> g_job_storage_used st !! i = Some true -> word words 0 = g_job_handles st !!? i ->
  u32 (word words 1) = JOB_FINISHED ->
  length (g_completions st) = JOB_POOL_SIZE -> stale_free (word words 0) st ->
  completion_find (word words 0) (handle_report_job_result L other_reply words st) = Some (word words 3).
Proof.
  intros Hinv Hu Hh Hr Hlen Hsf.
  destruct (finished_unfold words st i Hinv Hu Hh Hr) as (st1 & Hq & _ & ->).
  transitivity (completion_find (word words 0) (completion_record (word words 0) (word words 3) st1)).
  - unfold destroy_job_object. by destruct (job_slot_of _ _).
  - apply completion_recorded; rewrite (q_completions _ _ Hq); done.
Qed.

(** C5: a finished job is gone and its value kept.  When a live job is
    reported finished: its handle names nothing any more, its slot is free,
    the resource it held is free, GET_JOB_RESULT answers with the reported
    value, and no other job changes. *)
Theorem report_finished words st i :
  cinv st -> g_job_storage_used st !! i = Some true -> word words 0 = g_job_handles st !!? i ->
  u32 (word words 1) = JOB_FINISHED ->
  length (g_completions st) = JOB_POOL_SIZE -> stale_free (word words 0) st ->
  let h := word words 0 in
  let st' := handle_report_job_result L other_reply words st in
  job_slot_of h st' = None /\ g_job_storage_used st' !! i = Some false /\
  (forall m n, k_invoke (k st') h m n = None) /\
  snd (handle_get_job_result [h] 32 st') = Some [1; word words 3] /\
  (forall s, names (k st) (j_bound_resource_id (g_job_storage st !!? i)) (OResource s) ->
     (s < RESOURCE_POOL_SIZE)%nat -> r_reserved_by (g_resource_storage st !!? s) = h ->
     r_reserved_by (g_resource_storage st' !!? s) = 0) /\
  (forall i', i' <> i -> g_job_storage_used st' !! i' = g_job_storage_used st !! i' /\
     g_job_storage st' !! i' = g_job_storage st !! i' /\ g_job_handles st' !! i' = g_job_handles st !! i').
Proof.
  intros Hinv Hu Hh Hr Hlen Hsf h st'.
  destruct (finished_unfold words st i Hinv Hu Hh Hr) as (st1 & Hq & Est1 & Est').
  pose proof (quiet_inv _ _ Hq (unlock_inv _ (lock_inv _ Hinv))) as Hinv1.
  set (st2 := storage_lock_release (completion_record (word words 0) (word words 3) (storage_lock_acquire_wait st1))) in Est'.
  assert (cinv st2) as Hinv2 by by apply unlock_inv, completion_record_inv, lock_inv.
  assert (g_job_storage_used st2 = g_job_storage_used st /\ g_job_handles st2 = g_job_handles st /\
    g_job_storage st2 = g_job_storage st) as (Eu & Eh & Ej).
  { destruct Hq. done. }
  assert (job_slot_of h st2 = Some i) as Hs2.
  { unfold h. rewrite Hh, <- Eh. apply job_slot_of_live; [done|by rewrite Eu]. }
  assert (st' = factory_destroy h (set_job_used i false st2)) as Efin.
  { unfold st'. rewrite Est'. unfold destroy_job_object. fold h. by rewrite Hs2. }
  assert (i < length (g_job_storage_used st2))%nat as Hi by (rewrite Eu; by eapply lookup_lt_Some).
  pose proof (handle_report_job_result_inv L other_reply words st Hinv) as Hinv'. fold st' in Hinv'.
  split; [|split; [|split; [|split; [|split]]]].
  - unfold h, st'. by apply (finished_gone words st i).
  - rewrite Efin. simpl. by rewrite list_lookup_insert_eq.
  - intros m n. rewrite Efin. apply k_destroy_gone.
  - unfold handle_get_job_result. cbn [snd]. change (word [h] 0) with h.
    change (completion_find h (storage_lock_acquire_wait st')) with (completion_find h st').
    unfold h, st'. by rewrite (finished_completion words st i).
  - intros s Hn Hs Hres. rewrite Efin. simpl. rewrite Est1.
    destruct (ci_res _ Hinv) as (Hrl & _). apply release_reserved; [exact Hn|by simpl; rewrite Hrl|exact Hres].
  - intros i' Hne. rewrite Efin. simpl. rewrite list_lookup_insert_ne by done.
    split_and!; [by rewrite <- Eu|by rewrite <- Ej|by rewrite <- Eh].
Qed.
End finished.

(** Job 15 of the demonstration run, bound to the peripheral, finishes with
    value 99. *)
Lemma report_finished_witness :
  let st := demo_state in
  let st' := handle_report_job_result layout_x86_64 no_other [15; JOB_FINISHED; 0; 99] st in
  (g_job_handles st !!? 1%nat = 15 /\ names (k st) (j_bound_resource_id (g_job_storage st !!? 1%nat)) (OResource 1) /\
   r_reserved_by (g_resource_storage st !!? 1%nat) = 15) /\
  job_slot_of 15 st' = None /\ g_job_storage_used st' !! 1%nat = Some false /\
  (forall m n, k_invoke (k st') 15 m n = None) /\
  snd (handle_get_job_result [15] 32 st') = Some [1; 99] /\
  (forall s, names (k st) (j_bound_resource_id (g_job_storage st !!? 1%nat)) (OResource s) ->
     (s < RESOURCE_POOL_SIZE)%nat -> r_reserved_by (g_resource_storage st !!? s) = 15 ->
     r_reserved_by (g_resource_storage st' !!? s) = 0) /\
  (forall i', i' <> 1%nat -> g_job_storage_used st' !! i' = g_job_storage_used st !! i' /\
     g_job_storage st' !! i' = g_job_storage st !! i' /\ g_job_handles st' !! i' = g_job_handles st !! i').
Proof.
  intros st st'. assert (cinv st) as Hinv by (eapply reachable_cinv, demo_reachable).
  split.
  { split; [vm_compute; reflexivity|]. split; [|vm_compute; reflexivity].
    apply counter_names; vm_compute; done. }
  apply (report_finished layout_x86_64 no_other [15; JOB_FINISHED; 0; 99] st 1 Hinv);
    [vm_compute; reflexivity..|].
  apply unused_stale_free. vm_compute. reflexivity.
Defined.

Lemma completions_kept_witness :
  let recent := [(21, 1); (22, 2); (23, 3)] in
  completion_find 22 (record_all ((fun i => (Z.of_nat i + 100, 7)) <$> seq 0 40) cluster_boot) = None /\
  completion_find 22 (record_all (((fun i => (Z.of_nat i + 100, 7)) <$> seq 0 40) ++ recent) cluster_boot) = Some 2.
Proof.
  intros recent. split; [vm_compute; reflexivity|].
  apply (completions_kept cluster_boot _ recent 22 2); [reflexivity|unfold JOB_POOL_SIZE; simpl; lia| | |].
  - apply (bool_decide_unpack _). vm_compute. exact I.
  - intros h _. apply unused_stale_free. vm_compute. reflexivity.
  - apply list_elem_of_further, list_elem_of_here.
Defined.
