(* ===== verification/ClusterMembers.v ===== *)
(** * Membership

    What JOIN_NODE makes visible, what LEAVE_NODE removes, and which
    resources a node may declare. *)

From S2P Require Import Prelude Capnp TryLock Kernel MemMgr Objects Cluster ClusterInv ClusterReach ClusterPick ClusterBind.

Section members.
Context `{HL : KernelLaws K}.
Context (L : layout) (other_reply : nat -> Z -> list Z -> Z -> option (list Z)).
Implicit Types (st : cstate K).

(** ** LEAVE_NODE *)

(** Index entry [i] is not a resource of [node]. *)
Definition owner_clear (node : Z) (i : nat) st : Prop :=
  forall e m n s, g_resource_index st !! i = Some e -> ri_used e = true ->
    k_invoke (k st) (ri_handle e) m n = Some (OResource s) ->
    r_owner_node (g_resource_storage st !!? s) <> node.

(** Nothing is added to the kernel's table or the index, no owner changes. *)
Record shrinks st st' : Prop := {
  sh_index : forall i e, g_resource_index st' !! i = Some e -> ri_used e = true -> g_resource_index st !! i = Some e;
  sh_kernel : forall h m n o, k_invoke (k st') h m n = Some o -> k_invoke (k st) h m n = Some o;
  sh_owner : forall s, r_owner_node (g_resource_storage st' !!? s) = r_owner_node (g_resource_storage st !!? s);
  sh_nodes : g_node_index st' = g_node_index st
}.

#[export] Instance shrinks_preorder : PreOrder shrinks.
Proof.
  split; [by split|]. intros st1 st2 st3 [] []. split; [eauto|eauto|congruence|congruence].
Qed.

Lemma owner_clear_shrinks node i st st' : shrinks st st' -> owner_clear node i st -> owner_clear node i st'.
Proof. intros [Hi Hk Ho _] Hc e m n s He Hu Hks. rewrite Ho. eapply Hc; eauto. Qed.

Lemma destroy_shrinks h st : shrinks st (factory_destroy h st).
Proof.
  split; try done. simpl. intros h' m n o. destruct (decide (h' = h)) as [->|Hne].
  - by rewrite k_destroy_gone.
  - by rewrite k_destroy_others.
Qed.

Lemma release_shrinks job bound st : shrinks st (release_job_resource L other_reply job bound st).
Proof.
  unfold release_job_resource, resource_release_reservation.
  pose proof (resource_call_storage L other_reply RESOURCE_METHOD_RELEASE_RESERVATION bound job st) as Hs.
  pose proof (resource_call_quiet L other_reply RESOURCE_METHOD_RELEASE_RESERVATION bound job st) as [].
  destruct (resource_call _ _ _ _ _) as [st' ok]. cbn [fst] in *.
  split; [by rewrite q_rindex|by rewrite q_k| |done]. intros s'. rewrite Hs.
  destruct (if bound =? 0 then _ else _) as [[s|s|s|s| |id]|]; try done.
  destruct (decide (s = s')) as [<-|Hne]; [|by rewrite nth_insert_ne].
  destruct (decide (s < length (g_resource_storage st))%nat); [|by rewrite list_insert_ge by lia].
  rewrite nth_insert_eq by done. unfold resource_handler. simpl. by case_cond.
Qed.

Lemma sweep_resource_step node i st :
  cinv st -> (i < MAX_RESOURCE_INDEX)%nat -> ri_used (g_resource_index st !!? i) = true ->
  exists info, resource_get_info L other_reply (ri_handle (g_resource_index st !!? i)) st = (st, Some info) /\
    (i_owner_node info <> node -> owner_clear node i st).
Proof.
  intros Hinv Hi Hu. destruct (ci_res _ Hinv) as (_ & Hlen & _ & Hidx & _).
  assert (g_resource_index st !! i = Some (g_resource_index st !!? i)) as He by (apply lookup_nth_inh; lia).
  destruct (Hidx _ _ He Hu) as (s & Hn & _).
  rewrite resource_get_info_peek by (by eapply entry_sane).
  unfold peek. rewrite (proj2 (Z.eqb_neq _ _) (names_nz _ _ _ Hn)).
  pose proof Hn as [Hk Hun]. rewrite (Hk RESOURCE_METHOD_GET_INFO 1%nat) by done. eexists. split; [reflexivity|].
  intros Ho e m n s' He' _ Hk'. rewrite He in He'. injection He' as <-. apply Hun in Hk'. by simplify_eq.
Qed.

Lemma sweep_resources_clear entries node st :
  cinv st -> Forall (fun i => i < MAX_RESOURCE_INDEX)%nat entries ->
  let st' := leave_sweep_resources L other_reply entries node st in
  shrinks st st' /\ g_job_storage_used st' = g_job_storage_used st /\
  forall i, i ∈ entries -> owner_clear node i st'.
Proof.
  intros Hinv Hall. revert st Hinv. induction Hall as [|i entries Hi Hall IH]; intros st Hinv.
  { split; [reflexivity|]. split; [done|]. by intros i ?%not_elem_of_nil. }
  assert (forall st1, cinv st1 -> shrinks st st1 -> g_job_storage_used st1 = g_job_storage_used st ->
    owner_clear node i st1 ->
    let st' := leave_sweep_resources L other_reply entries node st1 in
    shrinks st st' /\ g_job_storage_used st' = g_job_storage_used st /\
    forall i', i' ∈ i :: entries -> owner_clear node i' st') as Hgo.
  { intros st1 Hinv1 Hsh Hu1 Hoc. destruct (IH st1 Hinv1) as (H1 & H2 & H3). split; [by etrans|].
    split; [congruence|]. intros i' [->|Hi']%elem_of_cons; [by eapply owner_clear_shrinks|by apply H3]. }
  simpl. destruct (ri_used (g_resource_index st !!? i)) eqn:Hu; simpl.
  - destruct (sweep_resource_step node i st Hinv Hi Hu) as (info & -> & Hoc). case_cond; [|by apply Hgo; [| | |apply Hoc]].
    apply Hgo.
    + destruct (ci_res _ Hinv) as (_ & Hlen & _). apply resource_destroy_inv; [done| |done]. apply lookup_nth_inh. lia.
    + etrans; [apply (destroy_shrinks (ri_handle (g_resource_index st !!? i)))|]. split; try done. simpl. intros i' e He Hue.
      by apply lookup_insert_cases in He as [(_ & -> & _)|[_ He]].
    + done.
    + intros e m n s He Hue. simpl in He. apply lookup_insert_cases in He as [(_ & -> & _)|[Hne _]]; done.
  - apply Hgo; [done|reflexivity|done|]. intros e m n s He Hue.
    by rewrite (nth_lookup_Some_inh _ _ _ He), Hue in Hu.
Qed.

(** Slot [i] holds no job of [node]. *)
Definition job_clear (node : Z) (i : nat) st : Prop :=
  g_job_storage_used st !! i = Some true ->
  let j := g_job_storage st !!? i in
  j_assigned_node j <> node /\ ~ (j_assigned_node j = NODE_AFFINITY_ANY /\ j_node_affinity j = node).

Lemma sweep_job_spec node i st :
  node <> NODE_AFFINITY_ANY -> (i < JOB_POOL_SIZE)%nat -> cinv st ->
  let st' := leave_sweep_job L other_reply node i st in
  shrinks st st' /\ job_clear node i st' /\ forall i', i' <> i -> job_clear node i' st -> job_clear node i' st'.
Proof.
  intros Hany Hi Hinv st'. unfold st', leave_sweep_job.
  destruct (ci_job _ Hinv) as (Hlu & _ & Hlj & _).
  assert (g_job_storage_used st !! i = Some (g_job_storage_used st !!? i)) as Eu by (apply lookup_nth_inh; lia).
  destruct (g_job_storage_used st !!? i) eqn:Hu; simpl.
  2: { split; [reflexivity|]. split; [|done]. intros Hu'. congruence. }
  destruct ((j_assigned_node _ =? node) || _) eqn:Ht; simpl.
  2: { split; [reflexivity|]. split; [|done]. intros _. apply orb_false_iff in Ht as [Ha Hb].
       apply Z.eqb_neq in Ha. apply andb_false_iff in Hb. rewrite !Z.eqb_neq in Hb. split; [done|]. tauto. }
  case_cond.
  - pose proof (release_shrinks (g_job_handles st !!? i) (j_bound_resource_id (g_job_storage st !!? i)) st) as Hsh.
    assert (quiet st (release_job_resource L other_reply (g_job_handles st !!? i)
      (j_bound_resource_id (g_job_storage st !!? i)) st)) as Hq by apply resource_call_quiet.
    set (st1 := release_job_resource _ _ _ _ _) in *. pose proof (quiet_inv _ _ Hq Hinv) as Hinv1.
    unfold destroy_job_object. rewrite <- (q_jhandles _ _ Hq), job_slot_of_live by (rewrite ?(q_used _ _ Hq); done).
    split.
    { etrans; [exact Hsh|]. trans (set_job_used i false st1); [by split|apply destroy_shrinks]. }
    split.
    + intros Hu'. simpl in Hu'. by apply lookup_insert_cases in Hu' as [(_ & ? & _)|[? _]].
    + intros i' Hne Hc Hu'. simpl in Hu' |- *. rewrite list_lookup_insert_ne in Hu' by done.
      rewrite (q_used _ _ Hq) in Hu'. rewrite (q_jobs _ _ Hq). by apply Hc.
  - split; [by split|]. split.
    + intros _. simpl. rewrite nth_insert_eq by lia. simpl. split; [congruence|]. tauto.
    + intros i' Hne Hc Hu'. simpl. rewrite nth_insert_ne by done. by apply Hc.
Qed.

Lemma sweep_jobs_clear node slots st :
  node <> NODE_AFFINITY_ANY -> Forall (fun i => i < JOB_POOL_SIZE)%nat slots -> NoDup slots -> cinv st ->
  let st' := leave_sweep_jobs L other_reply slots node st in
  shrinks st st' /\ (forall i, i ∈ slots \/ job_clear node i st -> job_clear node i st').
Proof.
  intros Hany Hall. revert st. induction Hall as [|i slots Hi Hall IH]; intros st Hnd Hinv.
  { split; [reflexivity|]. intros i [?%not_elem_of_nil|?]; done. }
  apply NoDup_cons in Hnd as [Hni Hnd]. destruct (sweep_job_spec node i st Hany Hi Hinv) as (H1 & H2 & H3).
  pose proof (leave_sweep_job_inv L other_reply node i st Hinv) as Hinv1.
  destruct (IH (leave_sweep_job L other_reply node i st) Hnd Hinv1) as (H4 & H5).
  split; [by etrans|]. intros i' Hi'. apply H5.
  destruct (decide (i' = i)) as [->|Hne]; [by right|].
  destruct Hi' as [[->|?]%elem_of_cons|?]; [done|by left|right; by apply H3].
Qed.

Lemma node_destroy_gone node st : cinv st -> node_index_of node (node_destroy node st) = None.
Proof.
  intros Hinv. unfold node_destroy. destruct (node_index_of node st) as [i|] eqn:Hi; [|done].
  apply node_index_of_None. intros i' e He Hu Hid. simpl in He.
  apply lookup_insert_cases in He as [(_ & -> & _)|[Hne He]]; [done|].
  apply node_index_of_Some in Hi as (e0 & He0 & Hu0 & Hid0 & _).
  destruct (ci_node _ Hinv) as (_ & _ & _ & _ & Huniq). apply Hne, (Huniq i i' e0 e); congruence.
Qed.

(** C6: LEAVE_NODE leaves nothing of a node behind.  After a member has left,
    it is not found, no indexed resource is owned by it, no live job is
    assigned to it or tied to it; the invariant holds. *)
Theorem leave_node_complete words st :
  cinv st -> let node := word words 0 in
  node_find_by_id node st <> 0 -> node <> NODE_AFFINITY_ANY ->
  let st' := handle_leave_node L other_reply words st in
  cinv st' /\ node_find_by_id node st' = 0 /\
  (forall i, owner_clear node i st') /\ (forall i, job_clear node i st').
Proof.
  intros Hinv node Hmem Hany st'. pose proof (handle_leave_node_inv L other_reply words st Hinv) as Hinv'.
  fold st' in Hinv'. split; [done|]. unfold st', handle_leave_node in *. fold node in Hinv' |- *.
  rewrite (proj2 (Z.eqb_neq _ _) Hmem) in *.
  pose proof (node_destroy_inv node st Hinv) as Hinv1.
  destruct (sweep_resources_clear (seq 0 MAX_RESOURCE_INDEX) node _ Hinv1 entries_bounded) as (H1 & _ & H2).
  pose proof (leave_sweep_resources_inv L other_reply (seq 0 MAX_RESOURCE_INDEX) node _ Hinv1 entries_bounded) as Hinv2.
  set (st2 := leave_sweep_resources _ _ _ _ _) in *.
  destruct (sweep_jobs_clear node (seq 0 JOB_POOL_SIZE) st2 Hany) as (H3 & H4);
    [apply Forall_forall; intros i Hi%elem_of_seq; lia|apply NoDup_seq|done|].
  split_and!.
  - apply node_find_zero; [done|]. unfold node_index_of. rewrite (sh_nodes _ _ H3), (sh_nodes _ _ H1).
    by apply node_destroy_gone.
  - intros i. eapply owner_clear_shrinks; [exact H3|].
    destruct (decide (i < MAX_RESOURCE_INDEX)%nat); [apply H2, elem_of_seq; lia|].
    intros e m n' s He. apply lookup_lt_Some in He. destruct (ci_res _ Hinv2) as (_ & Hl & _). lia.
  - intros i. destruct (decide (i < JOB_POOL_SIZE)%nat); [apply H4; left; apply elem_of_seq; lia|].
    intros Hu. apply lookup_lt_Some in Hu. destruct (ci_job _ Hinv') as (Hl & _). lia.
Qed.

(** ** JOIN_NODE *)

(** As long as the node pool is not used up, the index has a free entry:
    different members sit in different slots of the pool. *)
Lemma node_index_free st :
  cinv st -> g_node_storage_next st < Z.of_nat MAX_NODES ->
  exists i, first_index (fun e => negb (ni_used e)) (g_node_index st) = Some i.
Proof.
  intros Hinv Hnext. destruct (first_index _ _) as [i|] eqn:Hf; [by exists i|exfalso].
  rewrite first_index_None in Hf. destruct (ci_node _ Hinv) as (_ & Hlen & H0 & Hidx & Huniq).
  assert (forall i e, g_node_index st !! i = Some e -> ni_used e = true) as Hall.
  { intros i e He. specialize (Hf i e He). simpl in Hf. by bool_simp. }
  destruct (list_choose (fun (e : node_index_entry_t) s => names (k st) (ni_handle e) (ONode s) /\
    Z.of_nat s < g_node_storage_next st /\ n_node_id (g_node_storage st !!? s) = ni_node_id e) (g_node_index st))
    as [l Hl].
  { intros e [i He]%list_elem_of_lookup. destruct (Hidx i e He (Hall i e He)) as (s & ? & ? & ? & ?). eauto. }
  assert (length l <= Z.to_nat (g_node_storage_next st))%nat as Hle.
  { apply NoDup_bounded_length.
    - apply NoDup_alt. intros i j s Hi Hj.
      destruct (Forall2_lookup_r _ _ _ _ _ Hl Hi) as (e & He & _ & _ & Hid).
      destruct (Forall2_lookup_r _ _ _ _ _ Hl Hj) as (f & Hf' & _ & _ & Hid').
      apply (Huniq i j e f); eauto. congruence.
    - eapply Forall2_Forall_r; [exact Hl|]. apply Forall_forall. intros e _ s (_ & ? & _). lia. }
  rewrite <- (Forall2_length _ _ _ Hl), Hlen in Hle. lia.
Qed.

(** In [st'] node [node] is a member under the handle [h], new since [st]. *)
Definition joined (node arch target h : Z) (slot : nat) st st' : Prop :=
  node_find_by_id node st' = h /\ ~ k_issued (k st) h /\ names (k st') h (ONode slot) /\
  g_node_storage st' !!? slot = {| n_node_id := node; n_arch := arch; n_signal_target := target |}.

(** JOIN_NODE makes the node a member exactly once.  A node that is a
    member already is refused and nothing changes; with the pool of 16 used
    up, or the kernel refusing, a new one is refused and stays unknown;
    otherwise the answer is the handle of a fresh node object that carries the
    id, architecture and signal target given, and the node is found under it.
    No resource is declared on the way (cluster_scheduler.h says the node's
    CPU core is). *)
Theorem join_node_spec words cap st :
  cinv st -> no_wrap st ->
  let node := word words 0 in
  let next := g_node_storage_next st in
  let '(st', answer) := handle_join_node words cap st in
  g_resource_index st' = g_resource_index st /\
  if negb (node_find_by_id node st =? 0) then st' = st /\ answer = reply cap [0]
  else if Z.of_nat MAX_NODES <=? next then answer = reply cap [0] /\ node_find_by_id node st' = 0
  else match default 0 (snd (k_create (ONode (Z.to_nat next)) (k st))) with
       | 0 => answer = reply cap [0] /\ node_find_by_id node st' = 0
       | h => answer = reply cap [h] /\ joined node (word words 1) (word words 2) h (Z.to_nat next) st st'
       end.
Proof.
  intros Hinv Hw node next. unfold handle_join_node. fold node.
  destruct (node_find_by_id node st =? 0) eqn:Hfind; simpl negb; cbv iota; [|done].
  apply Z.eqb_eq, node_find_zero in Hfind; [|done].
  assert (forall st', g_node_index st' = g_node_index st -> node_find_by_id node st' = 0) as Hno.
  { intros st' E. unfold node_find_by_id, node_index_of. rewrite E.
    unfold node_index_of in Hfind. by rewrite Hfind. }
  destruct (ci_node _ Hinv) as (Hl & Hli & H0 & _). unfold create_node_object. fold next.
  destruct (Z.of_nat MAX_NODES <=? next) eqn:Hfull; [split; [done|split; [done|by apply Hno]]|]. bool_simp.
  unfold factory_create. cbn [k set_g_node_storage set_g_node_storage_next].
  destruct (k_create (ONode (Z.to_nat next)) (k st)) as [k' r] eqn:Hc. cbn [snd].
  destruct (default 0 r =? 0) eqn:Hz; bool_simp.
  { rewrite Hz. simpl. split; [done|split; [done|by apply Hno]]. }
  destruct (node_index_free st Hinv Hfull) as [i Hi]. unfold node_index_claim. simpl. rewrite Hi.
  apply first_index_lt in Hi as Hlt. rewrite (proj2 (Z.eqb_neq _ _) Hz).
  split; [done|]. destruct r as [h|]; simpl in Hz |- *; [|done].
  destruct (k_create_fresh _ _ _ _ Hc Hz) as (_ & Hfr & Hn).
  assert (node_find_by_id node (set_g_node_index
    (<[i := {| ni_handle := h; ni_node_id := node; ni_used := true |}]> (g_node_index st)) st) = h) as Hnew.
  { unfold node_find_by_id, node_index_of. simpl.
    destruct (first_index_exists (fun e => ni_used e && (ni_node_id e =? node))
      (<[i := {| ni_handle := h; ni_node_id := node; ni_used := true |}]> (g_node_index st)) i
      {| ni_handle := h; ni_node_id := node; ni_used := true |}) as (j & Hj & _);
      [by rewrite list_lookup_insert_eq|simpl; apply Z.eqb_refl|].
    rewrite Hj. apply first_index_Some in Hj as (e & He & Hp & _). rewrite (nth_lookup_Some_inh _ _ _ He). bool_simp.
    apply lookup_insert_cases in He as [(_ & -> & _)|[_ He]]; [done|].
    rewrite node_index_of_None in Hfind. by destruct (Hfind j e He). }
  assert (Z.to_nat next < length (g_node_storage st))%nat by (unfold MAX_NODES in *; lia).
  destruct h as [|p|p]; [done| |];
    (split; [done|split; [exact Hnew|split; [exact Hfr|split; [exact Hn|by simpl; rewrite nth_insert_eq]]]]).
Qed.

(** ** DECLARE_RESOURCE *)

(** The node owns an indexed MMU. *)
Definition owns_mmu (node : Z) st : bool :=
  existsb (fun i =>
    let e := g_resource_index st !!? i in
    ri_used e && (ri_kind e =? RESOURCE_KIND_MMU) &&
    match peek other_reply (ri_handle e) st with Some info => i_owner_node info =? node | None => false end)
    (seq 0 MAX_RESOURCE_INDEX).

Lemma node_has_mmu_peek node st : cinv st -> node_has_mmu L other_reply node st = (st, owns_mmu node st).
Proof.
  intros Hinv. unfold node_has_mmu, owns_mmu. pose proof entries_bounded as Hall.
  induction Hall as [|i entries Hi _ IH]; [done|]. simpl.
  destruct (ri_used _) eqn:Hu; [|done]. destruct (ri_kind _ =? RESOURCE_KIND_MMU); [|done]. simpl.
  rewrite resource_get_info_peek by by apply index_sane.
  destruct (peek _ _ _) as [info|]; [|done]. by case_cond.
Qed.

Lemma create_resource_object_spec owner kind descr cap sync init st :
  cinv st -> no_wrap st ->
  let next := g_resource_storage_next st in
  let '(st', h) := create_resource_object owner kind descr cap sync init st in
  (Z.of_nat RESOURCE_POOL_SIZE <= next -> h = 0) /\
  (next < Z.of_nat RESOURCE_POOL_SIZE -> h = default 0 (snd (k_create (OResource (Z.to_nat next)) (k st)))) /\
  (h <> 0 ->
   peek other_reply h st' =
     Some {| i_owner_node := owner; i_kind := kind; i_descriptor := descr; i_capacity := cap;
             i_sync_kind := sync; i_reserved_by := init |}).
Proof.
  intros Hinv [Hw _] next. destruct (ci_res _ Hinv) as (Hl & _ & H0 & _). unfold create_resource_object. fold next.
  destruct (Z.of_nat RESOURCE_POOL_SIZE <=? next) eqn:Hfull; bool_simp; [split_and!; [done|lia|done]|].
  unfold factory_create. cbn [k set_g_resource_storage set_g_resource_storage_next].
  destruct (k_create (OResource (Z.to_nat next)) (k st)) as [k' r] eqn:Hc. cbn [snd].
  destruct (default 0 r =? 0) eqn:Hz; bool_simp.
  { split; [lia|split; [by rewrite Hz|done]]. }
  split; [lia|split; [done|]]. intros _. destruct r as [h|]; simpl in Hz |- *; [|done].
  destruct (k_create_fresh _ _ _ _ Hc Hz) as (_ & _ & Hk & _).
  assert (peek other_reply h (set_k k' (set_g_resource_storage (<[Z.to_nat next := {| r_owner_node := owner; r_kind := kind;
    r_descriptor := descr; r_capacity := cap; r_reserved_by := init; r_sync_kind := sync |}]> (g_resource_storage st)) st)) =
    Some {| i_owner_node := owner; i_kind := kind; i_descriptor := descr; i_capacity := cap;
            i_sync_kind := sync; i_reserved_by := init |}) as Hp.
  { unfold peek. rewrite (proj2 (Z.eqb_neq _ _) Hz). simpl. rewrite (Hk RESOURCE_METHOD_GET_INFO 1%nat) by done.
    rewrite nth_insert_eq; [done|]. rewrite Hl. unfold RESOURCE_POOL_SIZE in *. lia. }
  rewrite <- Hp. unfold resource_index_claim. by case_match.
Qed.

(** The rest of the state, and the object behind the handle. *)
Lemma create_resource_object_frame owner kind descr cap sync init st :
  cinv st ->
  let '(st', h) := create_resource_object owner kind descr cap sync init st in
  mem st' = mem st /\ g_memory_manager st' = g_memory_manager st /\
  (forall h' o, names (k st) h' o -> names (k st') h' o) /\
  (h <> 0 -> names (k st') h (OResource (Z.to_nat (g_resource_storage_next st))) /\ ~ k_issued (k st) h).
Proof.
  intros Hinv. unfold create_resource_object. case_cond; [done|].
  unfold factory_create. cbn [k set_g_resource_storage set_g_resource_storage_next].
  destruct (k_create _ (k st)) as [k' r] eqn:Hc.
  assert (forall h' o, names (k st) h' o -> names k' h' o) as Hkeep.
  { intros h' o Hn. destruct (request_words_0 o) as [n Hw]. by eapply names_create. }
  case_cond; [done|]. destruct r as [h|]; [|done]. simpl in *.
  destruct (k_create_fresh _ _ _ _ Hc ltac:(done)) as (_ & Hf & Hn).
  unfold resource_index_claim. case_match; done.
Qed.

(** DECLARE_RESOURCE.  A resource synchronised by streaming or
    copy-on-write is refused, without effect, to a node that owns no MMU;
    otherwise, unless the pool of 128 is used up or the kernel refuses, the
    answer is a handle on which GET_INFO reports what was declared, free. *)
Theorem declare_resource_spec words cap st :
  cinv st -> no_wrap st ->
  let node := word words 0 in let sync := word words 4 in
  let next := g_resource_storage_next st in
  let '(st', answer) := handle_declare_resource L other_reply words cap st in
  if ((sync =? RESOURCE_SYNC_STREAM) || (sync =? RESOURCE_SYNC_COW)) && negb (owns_mmu node st)
  then st' = st /\ answer = reply cap [0]
  else exists h, answer = reply cap [h] /\
    (Z.of_nat RESOURCE_POOL_SIZE <= next -> h = 0) /\
    (next < Z.of_nat RESOURCE_POOL_SIZE -> h = default 0 (snd (k_create (OResource (Z.to_nat next)) (k st)))) /\
    (h <> 0 -> peek other_reply h st' =
       Some {| i_owner_node := node; i_kind := word words 1; i_descriptor := word words 2;
               i_capacity := word words 3; i_sync_kind := sync; i_reserved_by := 0 |}).
Proof.
  intros Hinv Hw node sync next. unfold handle_declare_resource. fold node sync.
  set (needs := (sync =? RESOURCE_SYNC_STREAM) || (sync =? RESOURCE_SYNC_COW)).
  rewrite node_has_mmu_peek by done.
  assert ((if needs then (st, owns_mmu node st) else (st, true)) = (st, if needs then owns_mmu node st else true)) as ->
    by by destruct needs.
  assert (needs && negb (if needs then owns_mmu node st else true) = needs && negb (owns_mmu node st)) as ->
    by by destruct needs.
  destruct (needs && negb (owns_mmu node st)); [done|].
  pose proof (create_resource_object_spec node (word words 1) (word words 2) (word words 3) sync 0 st Hinv Hw) as Hc.
  destruct (create_resource_object _ _ _ _ _ _ st) as [st' h]. exists h. split; [done|exact Hc].
Qed.
End members.

(** ** Instances *)

Lemma demo_inv : cinv demo_state.
Proof. eapply reachable_cinv, demo_reachable. Qed.

Lemma demo_no_wrap : no_wrap demo_state.
Proof. vm_compute. split; reflexivity. Qed.

Lemma leave_node_complete_witness :
  let st' := handle_leave_node layout_x86_64 no_other [1] demo_state in
  node_find_by_id 1 demo_state <> 0 /\
  cinv st' /\ node_find_by_id 1 st' = 0 /\ (forall i, owner_clear 1 i st') /\ (forall i, job_clear 1 i st').
Proof.
  intros st'. split; [vm_compute; discriminate|].
  apply (leave_node_complete layout_x86_64 no_other [1] demo_state demo_inv); vm_compute; discriminate.
Defined.

Lemma join_node_spec_witness :
  snd (handle_join_node [3; 0; 8] 24 demo_state) = Some [16] /\
  let next := g_node_storage_next demo_state in
  let '(st', answer) := handle_join_node [3; 0; 8] 24 demo_state in
  g_resource_index st' = g_resource_index demo_state /\
  if negb (node_find_by_id 3 demo_state =? 0) then st' = demo_state /\ answer = reply 24 [0]
  else if Z.of_nat MAX_NODES <=? next then answer = reply 24 [0] /\ node_find_by_id 3 st' = 0
  else match default 0 (snd (k_create (ONode (Z.to_nat next)) (k demo_state))) with
       | 0 => answer = reply 24 [0] /\ node_find_by_id 3 st' = 0
       | h => answer = reply 24 [h] /\ joined 3 0 8 h (Z.to_nat next) demo_state st'
       end.
Proof.
  split; [vm_compute; reflexivity|].
  exact (join_node_spec [3; 0; 8] 24 demo_state demo_inv demo_no_wrap).
Defined.

(** Node 2 owns no MMU. *)
Lemma declare_resource_spec_witness :
  snd (handle_declare_resource layout_x86_64 no_other [2; RESOURCE_KIND_PERIPHERAL; 5; 6; RESOURCE_SYNC_COW] 24 demo_state) =
    Some [0] /\
  let next := g_resource_storage_next demo_state in
  let '(st', answer) :=
    handle_declare_resource layout_x86_64 no_other [2; RESOURCE_KIND_PERIPHERAL; 5; 6; RESOURCE_SYNC_COW] 24 demo_state in
  if ((RESOURCE_SYNC_COW =? RESOURCE_SYNC_STREAM) || (RESOURCE_SYNC_COW =? RESOURCE_SYNC_COW)) &&
     negb (owns_mmu no_other 2 demo_state)
  then st' = demo_state /\ answer = reply 24 [0]
  else exists h, answer = reply 24 [h] /\
    (Z.of_nat RESOURCE_POOL_SIZE <= next -> h = 0) /\
    (next < Z.of_nat RESOURCE_POOL_SIZE -> h = default 0 (snd (k_create (OResource (Z.to_nat next)) (k demo_state)))) /\
    (h <> 0 -> peek no_other h st' =
       Some {| i_owner_node := 2; i_kind := RESOURCE_KIND_PERIPHERAL; i_descriptor := 5;
               i_capacity := 6; i_sync_kind := RESOURCE_SYNC_COW; i_reserved_by := 0 |}).
Proof.
  split; [vm_compute; reflexivity|].
  exact (declare_resource_spec layout_x86_64 no_other [2; RESOURCE_KIND_PERIPHERAL; 5; 6; RESOURCE_SYNC_COW] 24
    demo_state demo_inv demo_no_wrap).
Defined.
