(* ===== verification/ClusterMutex.v ===== *)
(** * Mutexes through the scheduler

    MUTEX_TRY_LOCK and MUTEX_UNLOCK: the mutex's own state and the priority
    of the jobs involved. *)

From S2P Require Import Prelude Capnp TryLock Kernel MemMgr Objects Cluster ClusterInv ClusterReach ClusterPick ClusterMembers.

Section mutexes.
Context `{HL : KernelLaws K}.
Context (L : layout) (other_reply : nat -> Z -> list Z -> Z -> option (list Z)).
Implicit Types (st : cstate K).

(** [mid] is the id of a mutex whose object was created. *)
Definition mutex_known (mid : Z) st : Prop :=
  0 <= mid < Z.of_nat MAX_MUTEXES /\ g_mutex_handles st !!? Z.to_nat mid <> 0.

Lemma mutex_invoke mid m a cap st :
  cinv st -> mutex_known mid st -> m = MUTEX_METHOD_TRY_LOCK \/ m = MUTEX_METHOD_UNLOCK ->
  mutex_object_for_id mid st = g_mutex_handles st !!? Z.to_nat mid /\
  kernel_invoke L other_reply (g_mutex_handles st !!? Z.to_nat mid) m (reply 24 [a]) cap st =
  (let '(d, r) := mutex_handler (g_mutex_storage st !!? Z.to_nat mid) m [a] cap in
   (set_g_mutex_storage (<[Z.to_nat mid := d]> (g_mutex_storage st)) st, (true, r))).
Proof.
  intros Hinv [Hr Hnz] Hm. split.
  - unfold mutex_object_for_id. by rewrite (proj2 (Z.ltb_ge _ _)), (proj2 (Z.leb_gt _ _)) by lia.
  - destruct (ci_mutex _ Hinv) as (_ & _ & Hi).
    destruct (Hi (Z.to_nat mid)) as [?|[Hk _]]; [unfold MAX_MUTEXES in *; lia|done|].
    unfold kernel_invoke. change (reply 24 [a]) with (Some [a]). cbv beta iota.
    rewrite (Hk m (length [a])); [done|]. by destruct Hm as [->| ->].
Qed.

Lemma set_mutex_id i st : set_g_mutex_storage (<[i := g_mutex_storage st !!? i]> (g_mutex_storage st)) st = st.
Proof. rewrite insert_nth_id. by destruct st. Qed.

(** The job of a live handle. *)
Definition job_of (h : Z) st : option nat := job_data_for_handle_locked h st.

(** MUTEX_TRY_LOCK.  A free mutex is taken by the requesting job.  A held
    one is left alone and the request refused, and then the holder, if both
    jobs are live, runs at least at the requester's priority from now on
    (priority inheritance); no other job changes. *)
Theorem mutex_try_lock_spec words cap st :
  cinv st -> let mid := to_int (word words 0) in
  mutex_known mid st ->
  let job := word words 1 in
  let m := g_mutex_storage st !!? Z.to_nat mid in
  let '(st', answer) := handle_mutex_try_lock L other_reply words cap st in
  if m_locked m then
    answer = reply cap [0] /\ g_mutex_storage st' = g_mutex_storage st /\
    match job_of job st, job_of (m_holder_job_id m) st with
    | Some self, Some holder =>
        prio st' holder = Z.max (prio st holder) (prio st self) /\
        forall i, i <> holder -> g_job_storage st' !!? i = g_job_storage st !!? i
    | _, _ => g_job_storage st' = g_job_storage st
    end
  else
    answer = reply cap [1] /\ g_job_storage st' = g_job_storage st /\
    g_mutex_storage st' = <[Z.to_nat mid := {| m_locked := true; m_holder_job_id := job |}]> (g_mutex_storage st).
Proof.
  intros Hinv mid Hk job m. unfold handle_mutex_try_lock. fold mid job.
  destruct (mutex_invoke mid MUTEX_METHOD_TRY_LOCK job 40 st Hinv Hk ltac:(by left)) as [Eo Ei].
  rewrite Eo, (proj2 (Z.eqb_neq _ _) (proj2 Hk)), Ei. fold m. unfold mutex_handler. simpl.
  destruct (m_locked m) eqn:Hl; simpl; [|done]. unfold m. rewrite insert_nth_id. fold m.
  split; [done|]. unfold inherit_priority.
  assert (forall h, job_data_for_handle_locked h (storage_lock_acquire_wait (set_g_mutex_storage (g_mutex_storage st) st)) =
    job_of h st) as Ejob by done. rewrite !Ejob. change (word [0; m_holder_job_id m] 1) with (m_holder_job_id m).
  destruct (job_of job st) as [self|]; [|done].
  destruct (job_of (m_holder_job_id m) st) as [holder|] eqn:Eh; [|done]. simpl.
  destruct (ci_job _ Hinv) as (Hlu & _ & Hlj & _).
  assert (holder < length (g_job_storage st))%nat as Hlt.
  { unfold job_of, job_data_for_handle_locked in Eh. case_cond; [done|].
    apply job_slot_of_Some in Eh as (Hu & _). apply lookup_lt_Some in Hu. lia. }
  unfold prio. case_cond; simpl.
  - split; [done|]. rewrite nth_insert_eq by done. simpl. split; [lia|]. intros i Hne. by rewrite nth_insert_ne.
  - split; [done|]. split; [lia|done].
Qed.

(** MUTEX_UNLOCK.  The holder frees the mutex and, if it is live, returns to
    its base priority; an unlock by anybody else, or of a free mutex, changes
    nothing. *)
Theorem mutex_unlock_spec words st :
  cinv st -> let mid := to_int (word words 0) in
  mutex_known mid st ->
  let job := word words 1 in
  let m := g_mutex_storage st !!? Z.to_nat mid in
  let st' := handle_mutex_unlock L other_reply words st in
  if m_locked m && (m_holder_job_id m =? job) then
    g_mutex_storage st' = <[Z.to_nat mid := {| m_locked := false; m_holder_job_id := job |}]> (g_mutex_storage st) /\
    match job_of job st with
    | Some i => prio st' i = j_base_priority (g_job_storage st !!? i) /\
        forall i', i' <> i -> g_job_storage st' !!? i' = g_job_storage st !!? i'
    | None => g_job_storage st' = g_job_storage st
    end
  else st' = st.
Proof.
  intros Hinv mid Hk job m st'. unfold st', handle_mutex_unlock. fold mid job.
  destruct (mutex_invoke mid MUTEX_METHOD_UNLOCK job 24 st Hinv Hk ltac:(by right)) as [Eo Ei].
  rewrite Eo, (proj2 (Z.eqb_neq _ _) (proj2 Hk)), Ei. fold m. unfold mutex_handler. simpl.
  change (word [job] 0) with job. destruct (m_locked m && (m_holder_job_id m =? job)) eqn:Hl; simpl.
  2: { unfold m. by rewrite set_mutex_id. }
  bool_simp. match goal with E : m_holder_job_id m = job |- _ => rewrite E end.
  match goal with |- context [job_data_for_handle_locked job ?s] =>
    change (job_data_for_handle_locked job s) with (job_of job st) end.
  destruct (job_of job st) as [i|] eqn:Ej; [|done]. simpl. split; [done|].
  destruct (ci_job _ Hinv) as (Hlu & _ & Hlj & _).
  assert (i < length (g_job_storage st))%nat as Hlt.
  { unfold job_of, job_data_for_handle_locked in Ej. case_cond; [done|].
    apply job_slot_of_Some in Ej as (Hu & _). apply lookup_lt_Some in Hu. lia. }
  unfold prio. simpl. rewrite nth_insert_eq by done. split; [done|]. intros i' Hne. by rewrite nth_insert_ne.
Qed.
End mutexes.

(** ** Instances

    Job 14 (priority 4) holds mutex 0; job 15 (priority 9) asks for it. *)

Definition mutex_demo : cstate counter_kernel :=
  fst (run_requests layout_x86_64 no_other [(METHOD_MUTEX_TRY_LOCK, [0; 14])] demo_state).

Lemma mutex_demo_inv : cinv mutex_demo.
Proof. eapply reachable_cinv, run_reachable; [apply demo_reachable|vm_compute; reflexivity]. Qed.

Lemma mutex_demo_known : mutex_known 0 mutex_demo.
Proof. split; [unfold MAX_MUTEXES; lia|vm_compute; discriminate]. Qed.

Lemma mutex_try_lock_spec_witness :
  m_locked (g_mutex_storage mutex_demo !!? 0%nat) = true /\ prio mutex_demo 0 = 4 /\
  prio (fst (handle_mutex_try_lock layout_x86_64 no_other [0; 15] 24 mutex_demo)) 0 = 9 /\
  let m := g_mutex_storage mutex_demo !!? 0%nat in
  let '(st', answer) := handle_mutex_try_lock layout_x86_64 no_other [0; 15] 24 mutex_demo in
  if m_locked m then
    answer = reply 24 [0] /\ g_mutex_storage st' = g_mutex_storage mutex_demo /\
    match job_of 15 mutex_demo, job_of (m_holder_job_id m) mutex_demo with
    | Some self, Some holder =>
        prio st' holder = Z.max (prio mutex_demo holder) (prio mutex_demo self) /\
        forall i, i <> holder -> g_job_storage st' !!? i = g_job_storage mutex_demo !!? i
    | _, _ => g_job_storage st' = g_job_storage mutex_demo
    end
  else
    answer = reply 24 [1] /\ g_job_storage st' = g_job_storage mutex_demo /\
    g_mutex_storage st' = <[0%nat := {| m_locked := true; m_holder_job_id := 15 |}]> (g_mutex_storage mutex_demo).
Proof.
  split; [vm_compute; reflexivity|]. split; [vm_compute; reflexivity|]. split; [vm_compute; reflexivity|].
  exact (mutex_try_lock_spec layout_x86_64 no_other [0; 15] 24 mutex_demo mutex_demo_inv mutex_demo_known).
Defined.

Lemma mutex_unlock_spec_witness :
  let m := g_mutex_storage mutex_demo !!? 0%nat in
  let st' := handle_mutex_unlock layout_x86_64 no_other [0; 14] mutex_demo in
  m_locked (g_mutex_storage st' !!? 0%nat) = false /\
  if m_locked m && (m_holder_job_id m =? 14) then
    g_mutex_storage st' = <[0%nat := {| m_locked := false; m_holder_job_id := 14 |}]> (g_mutex_storage mutex_demo) /\
    match job_of 14 mutex_demo with
    | Some i => prio st' i = j_base_priority (g_job_storage mutex_demo !!? i) /\
        forall i', i' <> i -> g_job_storage st' !!? i' = g_job_storage mutex_demo !!? i'
    | None => g_job_storage st' = g_job_storage mutex_demo
    end
  else st' = mutex_demo.
Proof.
  intros m st'. split; [vm_compute; reflexivity|].
  exact (mutex_unlock_spec layout_x86_64 no_other [0; 14] mutex_demo mutex_demo_inv mutex_demo_known).
Defined.
