(* ===== verification/ClusterMemory.v ===== *)
(** * Memory through the scheduler

    ALLOCATE_SLICE and RELEASE_SLICE, with the memory manager behind them. *)

From stdpp Require Import gmap.
From S2P Require Import Prelude Capnp TryLock Kernel MemMgr Objects Cluster ClusterInv ClusterReach ClusterPick ClusterMembers.

Section slices.
Context `{HL : KernelLaws K}.
Context (L : layout) (other_reply : nat -> Z -> list Z -> Z -> option (list Z)).
Implicit Types (st : cstate K).

(** The handle the scheduler was given is the memory manager's. *)
Definition has_memory_manager st : Prop := names (k st) (g_memory_manager st) OMemoryManager.

Lemma mm_invoke m ws cap st :
  has_memory_manager st -> request_words OMemoryManager m = Some (length ws) ->
  kernel_invoke L other_reply (g_memory_manager st) m (Some ws) cap st =
  (let '(d, a) := memory_manager_handler L m ws cap (mem st) in (set_mem d st, (true, a))).
Proof. intros [Hk _] Hw. unfold kernel_invoke. by rewrite (Hk m (length ws) Hw). Qed.

(** What a successful ALLOCATE_SLICE leaves behind. *)
Lemma allocate_slice_ok node job size kind sync st st1 h b :
  cinv st -> no_wrap st -> has_memory_manager st -> h <> 0 ->
  handle_allocate_slice L other_reply [node; job; size; kind; sync] 40 st = (st1, Some [1; h; b]) ->
  memory_manager_handler L METHOD_ALLOC [size; kind] 40 (mem st) = (mem st1, Some [1; b]) /\
  has_memory_manager st1 /\ names (k st1) h (OResource (Z.to_nat (g_resource_storage_next st))) /\
  peek other_reply h st1 = Some {| i_owner_node := node; i_kind := RESOURCE_KIND_MEMORY; i_descriptor := b;
    i_capacity := size; i_sync_kind := sync; i_reserved_by := job |}.
Proof.
  intros Hinv Hw Hmm Hnz. unfold handle_allocate_slice, word. cbn [nth].
  change (reply 40 [size; kind]) with (Some [size; kind]). rewrite mm_invoke by done.
  destruct (memory_manager_handler L 1 [size; kind] 40 (mem st)) as [m' a] eqn:Hm.
  assert (exists x y, a = Some [x; y]) as (x & y & ->).
  { unfold memory_manager_handler in Hm. cbn [Z.eqb METHOD_ALLOC Pos.eqb] in Hm.
    destruct (alloc_locked _ _ _ _) as [m1 r]. injection Hm as <- <-. eauto. }
  cbn [response_len response_words default length flat_total andb]. unfold id. cbn [nth].
  change (24 <=? flat_total 2) with true. cbv iota. cbn [andb].
  destruct (negb (x =? 0)) eqn:Hx; [|change (reply 40 [0; 0; y]) with (Some [0; 0; y]); intros [=]]. bool_simp.
  assert (cinv (set_mem m' st) /\ no_wrap (set_mem m' st)) as [Hinv1 Hw1] by (destruct Hinv; by split).
  pose proof (create_resource_object_spec other_reply node RESOURCE_KIND_MEMORY y size sync job (set_mem m' st) Hinv1 Hw1) as Hs.
  pose proof (create_resource_object_frame node RESOURCE_KIND_MEMORY y size sync job (set_mem m' st) Hinv1) as Hf.
  destruct (create_resource_object _ _ _ _ _ _ _) as [st2 h2].
  change (reply 40 [1; h2; y]) with (Some [1; h2; y]). intros [= -> -> ->].
  destruct Hf as (Em & Emm & Hkeep & Hnew). destruct Hs as (_ & _ & Hp). destruct (Hnew Hnz) as [Hn _].
  assert (x = 1) as ->.
  { unfold memory_manager_handler in Hm. cbn [Z.eqb METHOD_ALLOC Pos.eqb] in Hm.
    destruct (alloc_locked _ _ _ _) as [m1 [r|]]; injection Hm as <- <-; done. }
  split; [rewrite Em; exact Hm|]. split; [|split; [done|by apply Hp]].
  unfold has_memory_manager. rewrite Emm. by apply Hkeep.
Qed.

(** RELEASE_SLICE on a memory resource. *)
Lemma release_slice_cases h job st s info :
  has_memory_manager st -> names (k st) h (OResource s) -> peek other_reply h st = Some info ->
  i_kind info = RESOURCE_KIND_MEMORY ->
  handle_release_slice L other_reply [h; job] 24 st =
  if negb (i_reserved_by info =? job) then (st, Some [0])
  else
    let '(m', ok) := free_locked (i_descriptor info) (mem_lock_acquire_wait (mem st)) in
    let st := set_mem (mem_lock_release m') st in
    if ok then
      let st := factory_destroy h st in
      (match resource_index_of h st with Some i => resource_index_clear i st | None => st end, Some [1])
    else (st, Some [0]).
Proof.
  intros Hmm [Hk Hu] Hp Hkind. unfold handle_release_slice, word. cbn [nth].
  rewrite resource_get_info_peek by (intros m n s' Hks; by apply Hu in Hks).
  rewrite Hp, Hkind. change (RESOURCE_KIND_MEMORY =? RESOURCE_KIND_MEMORY) with true. cbn [negb].
  case_cond; [done|]. change (reply 24 [i_descriptor info]) with (Some [i_descriptor info]).
  rewrite mm_invoke by done. unfold memory_manager_handler. cbn [Z.eqb METHOD_ALLOC METHOD_FREE Pos.eqb].
  change (word [i_descriptor info] 0) with (i_descriptor info).
  destruct (free_locked _ _) as [m' [|]]; reflexivity.
Qed.

(** RELEASE_SLICE of bytes that ALLOC granted from the ledger [m0]. *)
Lemma release_allocated h job st s info m0 size kind :
  has_memory_manager st -> names (k st) h (OResource s) -> peek other_reply h st = Some info ->
  i_kind info = RESOURCE_KIND_MEMORY -> i_reserved_by info = job ->
  layout_ok L -> mem_wf m0 -> (forall c, MemMgr.live m0 c -> 0 < c_size c) -> is_u64 size -> 0 < size ->
  memory_manager_handler L METHOD_ALLOC [size; kind] 40 m0 = (mem st, Some [1; i_descriptor info]) ->
  let '(st2, answer) := handle_release_slice L other_reply [h; job] 24 st in
  answer = Some [1] /\ (forall c, MemMgr.live (mem st2) c <-> MemMgr.live m0 c) /\
  (forall m n, k_invoke (k st2) h m n = None) /\
  g_mutex_storage st2 = g_mutex_storage st /\ g_mutex_handles st2 = g_mutex_handles st.
Proof.
  intros Hmm Hn Hp Hkind <- HLo Hwf Hne Hsz Hpos Hmem.
  rewrite (release_slice_cases h _ st s info Hmm Hn Hp Hkind), Z.eqb_refl. cbn [negb].
  unfold memory_manager_handler in Hmem. cbn [Z.eqb METHOD_ALLOC Pos.eqb] in Hmem.
  change (word [size; kind] 0) with size in Hmem. change (word [size; kind] 1) with kind in Hmem.
  destruct (alloc_locked L size kind (mem_lock_acquire_wait m0)) as [m1 [b1|]] eqn:Hal; [|done].
  apply pair_equal_spec in Hmem as [Hm1 [= ->]].
  pose proof (alloc_then_free L _ size kind m1 _ HLo (proj2 (mem_wf_lock _ _) Hwf) Hsz Hpos Hne Hal) as Hfree.
  rewrite <- Hm1. unfold mem_lock_acquire_wait, mem_lock_release in *. rewrite !free_locked_relock.
  destruct (free_locked (i_descriptor info) m1) as [m2 ok]. destruct Hfree as [-> Hlive]. cbn [fst snd].
  split; [done|]. destruct (resource_index_of _ _); (split; [done|]; split; [intros; apply k_destroy_gone|done]).
Qed.

(** C8: a slice goes back where it came from.  After a successful
    ALLOCATE_SLICE for a job, RELEASE_SLICE by any other job is refused
    without effect, and RELEASE_SLICE by the job itself succeeds, destroys the
    resource and leaves the memory ledger's live claims exactly as they were
    before the allocation. *)
Theorem slice_roundtrip node job size kind sync st st1 h b :
  cinv st -> no_wrap st -> has_memory_manager st ->
  layout_ok L -> mem_wf (mem st) -> (forall c, MemMgr.live (mem st) c -> 0 < c_size c) ->
  is_u64 size -> 0 < size -> h <> 0 ->
  handle_allocate_slice L other_reply [node; job; size; kind; sync] 40 st = (st1, Some [1; h; b]) ->
  (forall job', job' <> job -> handle_release_slice L other_reply [h; job'] 24 st1 = (st1, Some [0])) /\
  let '(st2, answer) := handle_release_slice L other_reply [h; job] 24 st1 in
  answer = Some [1] /\ (forall c, MemMgr.live (mem st2) c <-> MemMgr.live (mem st) c) /\
  forall m n, k_invoke (k st2) h m n = None.
Proof.
  intros Hinv Hw Hmm HLo Hwf Hne Hsz Hpos Hnz Ha.
  destruct (allocate_slice_ok _ _ _ _ _ _ _ _ _ Hinv Hw Hmm Hnz Ha) as (Hmem & Hmm1 & Hn & Hp).
  pose proof (fun job' => release_slice_cases h job' st1 _ _ Hmm1 Hn Hp eq_refl) as Hr.
  cbn [i_reserved_by i_descriptor] in Hr. split.
  { intros job' Hj. rewrite Hr. by rewrite (proj2 (Z.eqb_neq _ _)). }
  pose proof (release_allocated h job st1 _ _ (mem st) size kind Hmm1 Hn Hp eq_refl eq_refl HLo Hwf Hne Hsz Hpos Hmem) as Hrel.
  destruct (handle_release_slice _ _ _ _ _) as [st2 answer]. by destruct Hrel as (? & ? & ? & _).
Qed.
End slices.

(** ** An instance *)

Lemma demo_mm : has_memory_manager demo_state.
Proof. apply counter_names; vm_compute; done. Qed.

Lemma demo_mem : mem demo_state = mem_boot.
Proof. vm_compute. reflexivity. Qed.

(** Job 15 gets a page and gives it back. *)
Lemma slice_roundtrip_witness :
  let '(st1, a) := handle_allocate_slice layout_x86_64 no_other [1; 15; 4096; MEM_KIND_JOB_SLICE; 0] 40 demo_state in
  a = Some [1; 16; 29360128] /\
  (forall job', job' <> 15 -> handle_release_slice layout_x86_64 no_other [16; job'] 24 st1 = (st1, Some [0])) /\
  let '(st2, answer) := handle_release_slice layout_x86_64 no_other [16; 15] 24 st1 in
  answer = Some [1] /\ (forall c, MemMgr.live (mem st2) c <-> MemMgr.live (mem demo_state) c) /\
  forall m n, k_invoke (k st2) 16 m n = None.
Proof.
  assert (snd (handle_allocate_slice layout_x86_64 no_other [1; 15; 4096; MEM_KIND_JOB_SLICE; 0] 40 demo_state) =
    Some [1; 16; 29360128]) as Ha by (vm_compute; reflexivity).
  destruct (handle_allocate_slice _ _ _ _ _) as [st1 a] eqn:E. cbn [snd] in Ha. subst a.
  split; [reflexivity|].
  apply (slice_roundtrip layout_x86_64 no_other 1 15 4096 MEM_KIND_JOB_SLICE 0 demo_state st1 16 29360128
    demo_inv demo_no_wrap demo_mm x86_layout_ok); [| | | | |exact E].
  - rewrite demo_mem. apply mem_boot_wf.
  - rewrite demo_mem. apply mem_boot_nonempty.
  - by split.
  - lia.
  - lia.
Defined.
