(* ===== verification/ClusterLimits.v ===== *)
(** * Limits of the cluster scheduler

    Runs in which the code falls short of what its comments say, each on the
    concrete system of Cluster.v (x86-64 layout, counter kernel). *)

From S2P Require Import Prelude Capnp TryLock Kernel MemMgr Objects Cluster.

(** The answers to a sequence of requests made of the booted system. *)
Definition answers (reqs : list (Z * list Z)) : list (option (list Z)) :=
  snd (run_requests layout_x86_64 no_other reqs cluster_boot).

Definition any_job (arg0 priority : Z) : Z * list Z :=
  (METHOD_SUBMIT_JOB, [NODE_AFFINITY_ANY; 3; arg0; 0; priority; 0; RESOURCE_KIND_NONE; 0]).

Definition no_job : option (list Z) := Some [0; 0; 0; 0; 0].

(** a job that was running on a node that left is never run again.  The
    header says it is released back to the pool; [handle_leave_node] resets
    its node but not its dispatched flag, so the remaining node is told there
    is no job. *)
Theorem left_node_strands_its_job :
  answers [(METHOD_JOIN_NODE, [1; 0; 5]); (METHOD_JOIN_NODE, [2; 0; 6]); any_job 77 4;
           (METHOD_GET_NEXT_JOB, [1]); (METHOD_LEAVE_NODE, [1]); (METHOD_GET_NEXT_JOB, [2])] =
  [Some [11]; Some [12]; Some [13]; Some [1; 13; 3; 77; 0]; None; no_job].
Proof. vm_compute. reflexivity. Qed.

(** a job that once waited for a mutex ranks behind every ready job for
    good.  After it has got the mutex and reports that it is running, its
    blocked flag is still set: the job of priority 1 is preferred to the one
    of priority 9. *)
Theorem unblocked_job_stays_behind :
  answers [(METHOD_JOIN_NODE, [1; 0; 5]); any_job 77 9; any_job 78 1;
           (METHOD_GET_NEXT_JOB, [1]); (METHOD_REPORT_JOB_RESULT, [12; JOB_BLOCKED_ON_MUTEX; 0; 0]);
           (METHOD_MUTEX_TRY_LOCK, [0; 12]); (METHOD_REPORT_JOB_RESULT, [12; JOB_RUNNING; 0; 0]);
           (METHOD_GET_NEXT_JOB, [1])] =
  [Some [11]; Some [12]; Some [13]; Some [1; 12; 3; 77; 0]; None; Some [1]; None; Some [1; 13; 3; 78; 0]].
Proof. vm_compute. reflexivity. Qed.

(** Node 1 joins and leaves, [n] times. *)
Definition hot_swap (n : nat) : list (Z * list Z) :=
  concat (replicate n [(METHOD_JOIN_NODE, [1; 0; 5]); (METHOD_LEAVE_NODE, [1])]).

(** sixteen joins are all there will ever be.  Slots of the node pool are
    not recycled, so after sixteen nodes have come and gone, with no member
    left, the next join is refused; the header calls hot-swap normal. *)
Theorem joins_run_out :
  let st := fst (run_requests layout_x86_64 no_other (hot_swap 16) cluster_boot) in
  node_find_by_id 1 st = 0 /\ snd (handle_join_node [1; 0; 5] 24 st) = Some [0].
Proof. vm_compute. split; reflexivity. Qed.

(** GET_RESOURCE_INFO locks a mutex.  The handle is not checked to be a
    resource's, and method 0 of a mutex is TRY_LOCK: a request that should
    only read takes mutex 0 (handle 2) for a job of handle 0, after which
    nobody can lock it. *)
Theorem get_resource_info_locks_mutex :
  answers [(METHOD_GET_RESOURCE_INFO, [2]); (METHOD_MUTEX_TRY_LOCK, [0; 12])] =
  [Some [0; 0; 0; 0; 0; 0]; Some [0]].
Proof. vm_compute. reflexivity. Qed.
