(* ===== verification/Fdt.v ===== *)
(** * The device tree reader (lib/fdt.c)

    The whole file, on the bytes of the blob.  A pointer into the blob is its
    offset from the start ([c->base] is 0); a read outside of the blob is the
    outcome [Oob], and a loop that runs out of fuel [NoFuel], so that both
    memory safety and termination are statements about the model.  A NULL blob
    is the empty list.  The names, paths and compatible strings a caller
    passes are C strings, modelled as the list of their bytes without the
    terminator; out-pointers are results.

    The loops that advance through the blob run on [S (length blob)] units of
    fuel, which FdtSafe.v shows to be enough for every blob; only the
    compatible search takes its fuel as an argument. *)

From S2P Require Import Prelude.

(** ** Outcomes *)

Inductive res (A : Type) :=
| Ret (a : A)
| Oob        (* a byte outside of the blob was read *)
| NoFuel.
Arguments Ret {A} _.
Arguments Oob {A}.
Arguments NoFuel {A}.

#[global] Instance res_ret : MRet res := @Ret.
#[global] Instance res_bind : MBind res := fun A B f m =>
  match m with Ret a => f a | Oob => Oob | NoFuel => NoFuel end.

(** ** Reading *)

Definition rd8 (blob : list Z) (p : Z) : res Z :=
  if (p <? 0) || (Z.of_nat (length blob) <=? p) then Oob
  else match blob !! Z.to_nat p with Some b => Ret b | None => Oob end.

Definition rd_be32 (blob : list Z) (p : Z) : res Z :=
  b0 ← rd8 blob p; b1 ← rd8 blob (p + 1); b2 ← rd8 blob (p + 2); b3 ← rd8 blob (p + 3);
  Ret (Z.lor (Z.lor (Z.lor (Z.shiftl b0 24) (Z.shiftl b1 16)) (Z.shiftl b2 8)) b3).

Definition rd_be64 (blob : list Z) (p : Z) : res Z :=
  hi ← rd_be32 blob p; lo ← rd_be32 blob (p + 4); Ret (Z.lor (Z.shiftl hi 32) lo).

Definition rd_cells (blob : list Z) (p cells : Z) : res Z :=
  if cells =? 1 then rd_be32 blob p else rd_be64 blob p.

(** ** The context *)

Definition FDT_MAGIC : Z := 0xd00dfeed.
Definition FDT_BEGIN_NODE : Z := 1.
Definition FDT_END_NODE : Z := 2.
Definition FDT_PROP : Z := 3.
Definition FDT_NOP : Z := 4.
Definition FDT_END : Z := 9.
Definition FDT_MAX_DEPTH : nat := 16.
Definition FDT_ERR_NODE : Z := -1.

Record ctx_t := { c_s : Z; c_send : Z; c_str : Z; c_strend : Z }.

Definition ok (c : ctx_t) (p n : Z) : bool :=
  (c_s c <=? p) && (p <=? c_send c) && (n <=? c_send c - p).

Definition ctx_init (blob : list Z) : res (option ctx_t) :=
  if bool_decide (blob = []) then Ret None
  else
    magic ← rd_be32 blob 0;
    if negb (magic =? FDT_MAGIC) then Ret None
    else
      totalsize ← rd_be32 blob 4;
      off_struct ← rd_be32 blob 8;
      off_strings ← rd_be32 blob 12;
      size_strings ← rd_be32 blob 32;
      size_struct ← rd_be32 blob 36;
      if (totalsize <? off_struct) || (totalsize - off_struct <? size_struct) then Ret None
      else if (totalsize <? off_strings) || (totalsize - off_strings <? size_strings) then Ret None
      else Ret (Some {| c_s := off_struct; c_send := off_struct + size_struct;
                        c_str := off_strings; c_strend := off_strings + size_strings |}).

(** Run [f] on the context, or return [e] when there is none. *)
Definition with_ctx {A} (blob : list Z) (e : A) (f : ctx_t -> res A) : res A :=
  c ← ctx_init blob; match c with Some c => f c | None => Ret e end.

Definition str_at (c : ctx_t) (off : Z) : option Z :=
  if u32 (c_strend c - c_str c) <=? off then None else Some (c_str c + off).

(** [str_eq] of the string at [a] in the blob and the string [b]. *)
Fixpoint str_eq (blob : list Z) (a : Z) (b : list Z) : res bool :=
  x ← rd8 blob a;
  match b with
  | [] => Ret (x =? 0)
  | y :: b => if negb (x =? 0) && (x =? y) then str_eq blob (a + 1) b else Ret (x =? y)
  end.

Definition align4 (v : Z) : Z := Z.land (u32 (v + 3)) 0xFFFFFFFC.

Definition fuel_of (blob : list Z) : nat := S (length blob).

(** The [n] at which the loop of [node_name] stops. *)
Fixpoint name_loop (fuel : nat) (blob : list Z) (c : ctx_t) (p n : Z) : res Z :=
  match fuel with
  | O => NoFuel
  | S fuel =>
      if ok c (p + n) 1 then
        x ← rd8 blob (p + n);
        if x =? 0 then Ret n else name_loop fuel blob c p (n + 1)
      else Ret n
  end.

(** [Some len] when a terminator was found, [None] for NULL. *)
Definition node_name (blob : list Z) (c : ctx_t) (p : Z) : res (option Z) :=
  n ← name_loop (fuel_of blob) blob c p 0;
  Ret (if negb (ok c (p + n) 1) then None else Some n).

Definition off_of (p : Z) : Z := to_int p.

(** ** Walking *)

Fixpoint skip_loop (fuel : nat) (blob : list Z) (c : ctx_t) (p depth : Z) : res Z :=
  match fuel with
  | O => NoFuel
  | S fuel =>
      if negb (ok c p 4) then Ret (-1)
      else
        token ← rd_be32 blob p;
        let p := p + 4 in
        if token =? FDT_BEGIN_NODE then
          namelen ← node_name blob c p;
          match namelen with
          | None => Ret (-1)
          | Some namelen => skip_loop fuel blob c (p + align4 (u32 (namelen + 1))) (depth + 1)
          end
        else if token =? FDT_END_NODE then
          let depth := depth - 1 in
          if depth <=? 0 then Ret (off_of p) else skip_loop fuel blob c p depth
        else if token =? FDT_PROP then
          if negb (ok c p 8) then Ret (-1)
          else
            len ← rd_be32 blob p;
            if negb (ok c (p + 8) len) then Ret (-1)
            else skip_loop fuel blob c (p + 8 + align4 len) depth
        else if token =? FDT_NOP then skip_loop fuel blob c p depth
        else Ret (-1)
  end.

Definition skip_node (blob : list Z) (c : ctx_t) (off : Z) : res Z :=
  skip_loop (fuel_of blob) blob c off 0.

Definition after_name (blob : list Z) (c : ctx_t) (node_off : Z) : res (option Z) :=
  let p := node_off in
  if negb (ok c p 4) then Ret None
  else
    token ← rd_be32 blob p;
    if negb (token =? FDT_BEGIN_NODE) then Ret None
    else
      namelen ← node_name blob c (p + 4);
      Ret (match namelen with
           | None => None
           | Some namelen => Some (p + 4 + align4 (u32 (namelen + 1)))
           end).

Definition fdt_valid (blob : list Z) (blob_size : Z) : res bool :=
  if bool_decide (blob = []) || (blob_size <? 40) then Ret false
  else
    magic ← rd_be32 blob 0;
    if negb (magic =? FDT_MAGIC) then Ret false
    else
      totalsize ← rd_be32 blob 4;
      if blob_size <? totalsize then Ret false
      else c ← ctx_init blob; Ret (bool_decide (is_Some c)).

Fixpoint first_child_loop (fuel : nat) (blob : list Z) (c : ctx_t) (p : Z) : res Z :=
  match fuel with
  | O => NoFuel
  | S fuel =>
      if negb (ok c p 4) then Ret FDT_ERR_NODE
      else
        token ← rd_be32 blob p;
        if token =? FDT_BEGIN_NODE then Ret (off_of p)
        else if token =? FDT_END_NODE then Ret FDT_ERR_NODE
        else if token =? FDT_PROP then
          len ← rd_be32 blob (p + 4);
          if negb (ok c (p + 12) len) then Ret FDT_ERR_NODE
          else first_child_loop fuel blob c (p + 12 + align4 len)
        else if token =? FDT_NOP then first_child_loop fuel blob c (p + 4)
        else Ret FDT_ERR_NODE
  end.

Definition fdt_first_child (blob : list Z) (parent_offset : Z) : res Z :=
  with_ctx blob FDT_ERR_NODE (fun c =>
    p ← after_name blob c parent_offset;
    match p with
    | None => Ret FDT_ERR_NODE
    | Some p => first_child_loop (fuel_of blob) blob c p
    end).

(** The offset of the latest node seen at each depth below 16. *)
Fixpoint parent_loop (fuel : nat) (blob : list Z) (c : ctx_t) (node_offset : Z)
    (stack : list Z) (p depth : Z) : res Z :=
  match fuel with
  | O => NoFuel
  | S fuel =>
      if negb (ok c p 4) then Ret FDT_ERR_NODE
      else
        let here := off_of p in
        token ← rd_be32 blob p;
        let p := p + 4 in
        if token =? FDT_BEGIN_NODE then
          namelen ← node_name blob c p;
          match namelen with
          | None => Ret FDT_ERR_NODE
          | Some namelen =>
              let p := p + align4 (u32 (namelen + 1)) in
              let depth := depth + 1 in
              let stack := if depth <? Z.of_nat FDT_MAX_DEPTH
                           then <[Z.to_nat depth := here]> stack else stack in
              if here =? node_offset then
                if (depth <=? 0) || (Z.of_nat FDT_MAX_DEPTH <=? depth - 1) then Ret FDT_ERR_NODE
                else Ret (stack !!? Z.to_nat (depth - 1))
              else parent_loop fuel blob c node_offset stack p depth
          end
        else if token =? FDT_END_NODE then
          let depth := depth - 1 in
          if depth <? 0 then Ret FDT_ERR_NODE
          else parent_loop fuel blob c node_offset stack p depth
        else if token =? FDT_PROP then
          len ← rd_be32 blob p;
          if negb (ok c (p + 8) len) then Ret FDT_ERR_NODE
          else parent_loop fuel blob c node_offset stack (p + 8 + align4 len) depth
        else if token =? FDT_NOP then parent_loop fuel blob c node_offset stack p depth
        else Ret FDT_ERR_NODE
  end.

Definition fdt_parent_offset (blob : list Z) (node_offset : Z) : res Z :=
  with_ctx blob FDT_ERR_NODE (fun c =>
    parent_loop (fuel_of blob) blob c node_offset (replicate FDT_MAX_DEPTH 0) (c_s c) (-1)).

Fixpoint sibling_loop (fuel : nat) (blob : list Z) (c : ctx_t) (p : Z) : res Z :=
  match fuel with
  | O => NoFuel
  | S fuel =>
      if negb (ok c p 4) then Ret FDT_ERR_NODE
      else
        token ← rd_be32 blob p;
        if token =? FDT_BEGIN_NODE then Ret (off_of p)
        else if token =? FDT_END_NODE then Ret FDT_ERR_NODE
        else if token =? FDT_NOP then sibling_loop fuel blob c (p + 4)
        else Ret FDT_ERR_NODE
  end.

Definition fdt_next_sibling (blob : list Z) (parent_offset prev_sibling : Z) : res Z :=
  with_ctx blob FDT_ERR_NODE (fun c =>
    parent ← fdt_parent_offset blob prev_sibling;
    if negb (parent =? parent_offset) then Ret FDT_ERR_NODE
    else
      nxt ← skip_node blob c prev_sibling;
      if nxt <? 0 then Ret FDT_ERR_NODE
      else sibling_loop (fuel_of blob) blob c nxt).

(** ** Properties *)

(** [Some (data, len)]: where the value is and how long. *)
Fixpoint getprop_loop (fuel : nat) (blob : list Z) (c : ctx_t) (name : list Z) (p : Z)
    : res (option (Z * Z)) :=
  match fuel with
  | O => NoFuel
  | S fuel =>
      if negb (ok c p 4) then Ret None
      else
        token ← rd_be32 blob p;
        if (token =? FDT_BEGIN_NODE) || (token =? FDT_END_NODE) then Ret None
        else if token =? FDT_NOP then getprop_loop fuel blob c name (p + 4)
        else if negb (token =? FDT_PROP) || negb (ok c p 8) then Ret None
        else
          len ← rd_be32 blob (p + 4);
          nameoff ← rd_be32 blob (p + 8);
          if negb (ok c (p + 12) len) then Ret None
          else
            match str_at c nameoff with
            | None => Ret None
            | Some pn =>
                same ← str_eq blob pn name;
                if same : bool then Ret (Some (p + 12, len))
                else getprop_loop fuel blob c name (p + 12 + align4 len)
            end
  end.

Definition fdt_getprop (blob : list Z) (node_offset : Z) (name : list Z) : res (option (Z * Z)) :=
  with_ctx blob None (fun c =>
    p ← after_name blob c node_offset;
    match p with
    | None => Ret None
    | Some p => getprop_loop (fuel_of blob) blob c name p
    end).

(** ** Paths *)

Definition SLASH : Z := 47.

Fixpoint skip_slashes (path : list Z) : list Z :=
  match path with
  | x :: rest => if x =? SLASH then skip_slashes rest else path
  | [] => []
  end.

(** The component before the next slash, and the rest from there. *)
Fixpoint component (path : list Z) : list Z * list Z :=
  match path with
  | x :: rest => if x =? SLASH then ([], path)
                 else let '(a, b) := component rest in (x :: a, b)
  | [] => ([], [])
  end.

(** [n[i] == start[i]] for every [i < len]. *)
Fixpoint bytes_eq (blob : list Z) (p : Z) (start : list Z) : res bool :=
  match start with
  | [] => Ret true
  | y :: start => x ← rd8 blob p; if x =? y then bytes_eq blob (p + 1) start else Ret false
  end.

(** The [for] over the children of [cur]: the one named [comp]. *)
Fixpoint child_named_loop (fuel : nat) (blob : list Z) (c : ctx_t) (cur : Z) (comp : list Z) (ch : Z)
    : res Z :=
  match fuel with
  | O => NoFuel
  | S fuel =>
      if ch =? FDT_ERR_NODE then Ret FDT_ERR_NODE
      else
        namelen ← node_name blob c (ch + 4);
        match namelen with
        | None => Ret FDT_ERR_NODE
        | Some namelen =>
            same ← (if namelen =? Z.of_nat (length comp) then bytes_eq blob (ch + 4) comp else Ret false);
            if same : bool then Ret ch
            else next ← fdt_next_sibling blob cur ch; child_named_loop fuel blob c cur comp next
        end
  end.

Fixpoint path_loop (fuel : nat) (blob : list Z) (c : ctx_t) (cur : Z) (path : list Z) : res Z :=
  match path with
  | [] => Ret cur
  | _ =>
      match fuel with
      | O => NoFuel
      | S fuel =>
          let '(comp, rest) := component path in
          ch ← fdt_first_child blob cur;
          found ← child_named_loop (fuel_of blob) blob c cur comp ch;
          if found =? FDT_ERR_NODE then Ret FDT_ERR_NODE
          else path_loop fuel blob c found (skip_slashes rest)
      end
  end.

(** The structure block starts with the root's BEGIN_NODE. *)
Definition root_ok (blob : list Z) (c : ctx_t) : res bool :=
  if negb (ok c (c_s c) 4) then Ret false
  else token ← rd_be32 blob (c_s c); Ret (token =? FDT_BEGIN_NODE).

Definition fdt_path_offset (blob : list Z) (path : list Z) : res Z :=
  with_ctx blob FDT_ERR_NODE (fun c =>
    if negb (match path with x :: _ => x =? SLASH | [] => false end) then Ret FDT_ERR_NODE
    else
      let cur := off_of (c_s c) in
      r ← root_ok blob c;
      if negb r then Ret FDT_ERR_NODE
      else path_loop (S (length path)) blob c cur (skip_slashes path)).

(** ** Compatible strings *)

(** The [j] at which [while (i + j < len && entry[j])] stops. *)
Fixpoint entry_loop (fuel : nat) (blob : list Z) (list_ len i j : Z) : res Z :=
  match fuel with
  | O => NoFuel
  | S fuel =>
      if i + j <? len then
        x ← rd8 blob (list_ + i + j);
        if negb (x =? 0) then entry_loop fuel blob list_ len i (j + 1) else Ret j
      else Ret j
  end.

Fixpoint compatible_loop (fuel : nat) (blob : list Z) (list_ len i : Z) (want : list Z) : res bool :=
  match fuel with
  | O => NoFuel
  | S fuel =>
      if i <? len then
        j ← entry_loop (fuel_of blob) blob list_ len i 0;
        same ← (if i + j <? len then str_eq blob (list_ + i) want else Ret false);
        if same : bool then Ret true
        else compatible_loop fuel blob list_ len (u32 (i + j + 1)) want
      else Ret false
  end.

Definition compatible_match (blob : list Z) (list_ len : Z) (want : list Z) : res bool :=
  compatible_loop (fuel_of blob) blob list_ len 0 want.

(** "compatible" *)
Definition S_compatible : list Z := [99; 111; 109; 112; 97; 116; 105; 98; 108; 101].

(** The [while] that runs through the remaining siblings of a node too deep
    to descend into. *)
Fixpoint drain_siblings (fuel : nat) (blob : list Z) (cur sib : Z) : res unit :=
  match fuel with
  | O => NoFuel
  | S fuel =>
      if sib =? FDT_ERR_NODE then Ret tt
      else sib ← fdt_next_sibling blob cur sib; drain_siblings fuel blob cur sib
  end.

(** The inner [for (;;)]: the next sibling at this depth or above; [None]
    for the return at depth 0. *)
Fixpoint climb (fuel : nat) (blob : list Z) (stack : list Z) (depth : nat)
    : res (option (list Z * nat)) :=
  match fuel with
  | O => NoFuel
  | S fuel =>
      match depth with
      | O => Ret None
      | S above =>
          sib ← fdt_next_sibling blob (stack !!? above) (stack !!? depth);
          if negb (sib =? FDT_ERR_NODE) then Ret (Some (<[depth := sib]> stack, depth))
          else climb fuel blob stack above
      end
  end.

(** One round of the outer [for (;;)]: the answer, or the state of the next
    round. *)
Definition search_step (blob compatible : list Z) (previous_offset : Z) (stack : list Z) (depth : nat)
    : res (Z + list Z * nat) :=
  let cur := stack !!? depth in
  cp ← fdt_getprop blob cur S_compatible;
  hit ← (match cp with
         | Some (p, len) => if previous_offset <? cur then compatible_match blob p len compatible else Ret false
         | None => Ret false
         end);
  if hit : bool then Ret (inl cur)
  else
    ch ← fdt_first_child blob cur;
    if negb (ch =? FDT_ERR_NODE) then
      if decide (FDT_MAX_DEPTH <= depth + 1)%nat then
        sib ← fdt_next_sibling blob cur ch;
        drain_siblings (fuel_of blob) blob cur sib;;
        Ret (match depth with O => inl FDT_ERR_NODE | S above => inr (stack, above) end)
      else Ret (inr (<[(depth + 1)%nat := ch]> stack, (depth + 1)%nat))
    else
      next ← climb (S FDT_MAX_DEPTH) blob stack depth;
      Ret (match next with None => inl FDT_ERR_NODE | Some sd => inr sd end).

Fixpoint search_loop (fuel : nat) (blob compatible : list Z) (previous_offset : Z)
    (stack : list Z) (depth : nat) : res Z :=
  match fuel with
  | O => NoFuel
  | S fuel =>
      r ← search_step blob compatible previous_offset stack depth;
      match r with
      | inl answer => Ret answer
      | inr (stack, depth) => search_loop fuel blob compatible previous_offset stack depth
      end
  end.

Definition fdt_next_node_by_compatible_offset (fuel : nat) (blob compatible : list Z)
    (previous_offset : Z) : res Z :=
  with_ctx blob FDT_ERR_NODE (fun c =>
    r ← root_ok blob c;
    if negb r then Ret FDT_ERR_NODE
    else search_loop fuel blob compatible previous_offset
           (<[0%nat := off_of (c_s c)]> (replicate FDT_MAX_DEPTH 0)) 0).

Definition fdt_node_by_compatible_offset (fuel : nat) (blob compatible : list Z) : res Z :=
  fdt_next_node_by_compatible_offset fuel blob compatible FDT_ERR_NODE.

Definition fdt_node_by_compatible (fuel : nat) (blob compatible : list Z) : res (option Z) :=
  off ← fdt_node_by_compatible_offset fuel blob compatible;
  Ret (if off =? FDT_ERR_NODE then None else Some off).

(** ** Cell counts *)

(** "#address-cells", "#size-cells", "reg", "ranges", "status" *)
Definition S_address_cells : list Z := [35; 97; 100; 100; 114; 101; 115; 115; 45; 99; 101; 108; 108; 115].
Definition S_size_cells : list Z := [35; 115; 105; 122; 101; 45; 99; 101; 108; 108; 115].
Definition S_reg : list Z := [114; 101; 103].
Definition S_ranges : list Z := [114; 97; 110; 103; 101; 115].
Definition S_status : list Z := [115; 116; 97; 116; 117; 115].

Definition own_cells (blob : list Z) (node_off : Z) (name : list Z) : res (option Z) :=
  v ← fdt_getprop blob node_off name;
  match v with
  | Some (p, len) => if len <? 4 then Ret None else x ← rd_be32 blob p; Ret (Some x)
  | None => Ret None
  end.

(** A count, unless one was found already. *)
Definition cells_at (blob : list Z) (cur : Z) (found : option Z) (name : list Z) : res (option Z) :=
  match found with Some _ => Ret found | None => own_cells blob cur name end.

Fixpoint cells_loop (fuel : nat) (blob : list Z) (cur : Z) (ac sc : option Z) : res (option Z * option Z) :=
  match fuel with
  | O => NoFuel
  | S fuel =>
      if cur <? 0 then Ret (ac, sc)
      else
        ac ← cells_at blob cur ac S_address_cells;
        sc ← cells_at blob cur sc S_size_cells;
        match ac, sc with
        | Some _, Some _ => Ret (ac, sc)
        | _, _ => cur ← fdt_parent_offset blob cur; cells_loop fuel blob cur ac sc
        end
  end.

(** [None] for the return of 0. *)
Definition fdt_parent_cells (blob : list Z) (node_offset : Z) : res (option (Z * Z)) :=
  with_ctx blob None (fun _ =>
    cur ← fdt_parent_offset blob node_offset;
    r ← cells_loop (fuel_of blob) blob cur None None;
    Ret (Some (default 2 (fst r), default 2 (snd r)))).

Definition fdt_cell_counts (blob : list Z) (node_offset : Z) : res (option (Z * Z)) :=
  r ← fdt_parent_cells blob node_offset;
  Ret (match r with Some (ac, sc) => Some (to_int ac, to_int sc) | None => None end).

(** Each count the node declares itself; the return value is 1 when one is
    present. *)
Definition fdt_own_cell_counts (blob : list Z) (node_offset : Z) : res (bool * option Z * option Z) :=
  with_ctx blob (false, None, None) (fun _ =>
    ac ← own_cells blob node_offset S_address_cells;
    sc ← own_cells blob node_offset S_size_cells;
    Ret (bool_decide (is_Some ac) || bool_decide (is_Some sc), to_int <$> ac, to_int <$> sc)).

(** ** Ranges *)

Record fdt_range_t := { fr_base : Z; fr_size : Z }.

Fixpoint reserved_loop (max : nat) (blob : list Z) (off totalsize : Z) : res (list fdt_range_t) :=
  match max with
  | O => Ret []
  | S max =>
      if (totalsize <? off) || (totalsize - off <? 16) then Ret []
      else
        addr ← rd_be64 blob off;
        size ← rd_be64 blob (off + 8);
        if (addr =? 0) && (size =? 0) then Ret []
        else
          rest ← reserved_loop max blob (u32 (off + 16)) totalsize;
          Ret ({| fr_base := addr; fr_size := size |} :: rest)
  end.

Definition fdt_reserved_ranges (blob : list Z) (max : nat) : res (list fdt_range_t) :=
  with_ctx blob [] (fun _ =>
    off ← rd_be32 blob 16;
    totalsize ← rd_be32 blob 4;
    reserved_loop max blob off totalsize).

(** The window of a [ranges] property that holds [base]: the translated
    address. *)
Fixpoint ranges_loop (n : nat) (blob : list Z) (ranges rentry own_ac ra rs base i : Z) : res (option Z) :=
  match n with
  | O => Ret None
  | S n =>
      let e := ranges + i * rentry in
      cbase ← rd_cells blob e own_ac;
      pbase ← rd_cells blob (e + u32 (own_ac * 4)) ra;
      rsize ← rd_cells blob (e + u32 (u32 (own_ac + ra) * 4)) rs;
      if (cbase <=? base) && (base <? (cbase +64 rsize)%C)
      then Ret (Some (u64 (pbase + (base - cbase))))
      else ranges_loop n blob ranges rentry own_ac ra rs base (i + 1)
  end.

(** One bus with a non-empty [ranges]: the address above it, or [None] for
    the return of 0. *)
Definition translate_bus (blob : list Z) (cur ranges rlen base : Z) : res (option Z) :=
  bus ← fdt_parent_cells blob cur;
  match bus with
  | None => Ret None
  | Some (bus_ac, _) =>
      own_ac ← own_cells blob cur S_address_cells;
      own_sc ← own_cells blob cur S_size_cells;
      let own_ac := default 2 own_ac in
      let own_sc := default 2 own_sc in
      let own_ac := if own_ac =? 0 then 2 else own_ac in
      let ra := if bus_ac =? 0 then 2 else bus_ac in
      let rs := if own_sc =? 0 then 2 else own_sc in
      let rentry := u32 (u32 (own_ac + ra + rs) * 4) in
      if rentry =? 0 then Ret None
      else ranges_loop (Z.to_nat (rlen / rentry)) blob ranges rentry own_ac ra rs base 0
  end.

Fixpoint translate_loop (fuel : nat) (blob : list Z) (cur base : Z) : res (option Z) :=
  match fuel with
  | O => NoFuel
  | S fuel =>
      parent ← fdt_parent_offset blob cur;
      if parent <? 0 then Ret (Some base)
      else
        r ← fdt_getprop blob cur S_ranges;
        match r with
        | None => translate_loop fuel blob parent base
        | Some (ranges, rlen) =>
            if rlen =? 0 then translate_loop fuel blob parent base
            else
              base ← translate_bus blob cur ranges rlen base;
              match base with
              | None => Ret None
              | Some base => if parent =? 0 then Ret (Some base) else translate_loop fuel blob parent base
              end
        end
  end.

Definition fdt_reg_to_cpu_addr (blob : list Z) (node_offset index : Z) : res (option fdt_range_t) :=
  with_ctx blob None (fun _ =>
    cells ← fdt_parent_cells blob node_offset;
    match cells with
    | None => Ret None
    | Some (ac, sc) =>
        reg ← fdt_getprop blob node_offset S_reg;
        match reg with
        | None => Ret None
        | Some (reg, len) =>
            if ac =? 0 then Ret None
            else
              let entry := u32 (u32 (ac + sc) * 4) in
              if (entry =? 0) || (len <? u64 (u32 (index + 1) * entry)) then Ret None
              else
                base ← rd_cells blob (reg + index * entry) ac;
                size ← (if sc =? 0 then Ret 0 else rd_cells blob (reg + index * entry + u32 (ac * 4)) sc);
                base ← translate_loop (fuel_of blob) blob node_offset base;
                Ret (match base with Some b => Some {| fr_base := b; fr_size := size |} | None => None end)
        end
    end).

Definition fdt_reg_to_addr (blob : list Z) (node_offset : Z) : res (option (Z * Z)) :=
  r ← fdt_reg_to_cpu_addr blob node_offset 0;
  Ret (match r with Some r => Some (fr_base r, fr_size r) | None => None end).

(** "memory" *)
Definition S_memory : list Z := [109; 101; 109; 111; 114; 121].

(** The name test of [fdt_memory_ranges], on the name at [n]. *)
Definition is_memory (blob : list Z) (n namelen : Z) : res bool :=
  if namelen <? 6 then Ret false
  else
    m ← bytes_eq blob n S_memory;
    if negb m then Ret false
    else if namelen =? 6 then Ret true
    else x ← rd8 blob (n + 6); Ret (x =? 64).

Fixpoint reg_entries (n : nat) (blob : list Z) (reg entry ac sc i : Z) : res (list fdt_range_t) :=
  match n with
  | O => Ret []
  | S n =>
      let e := reg + i * entry in
      base ← rd_cells blob e ac;
      size ← (if sc =? 0 then Ret 0 else rd_cells blob (e + u32 (ac * 4)) sc);
      rest ← reg_entries n blob reg entry ac sc (i + 1);
      Ret ({| fr_base := base; fr_size := size |} :: rest)
  end.

(** The ranges one child of the root contributes, at most [max]. *)
Definition memory_node (blob : list Z) (c : ctx_t) (ch : Z) (max : nat) : res (list fdt_range_t) :=
  namelen ← node_name blob c (ch + 4);
  match namelen with
  | None => Ret []
  | Some namelen =>
      m ← is_memory blob (ch + 4) namelen;
      if negb m then Ret []
      else
        cells ← fdt_parent_cells blob ch;
        match cells with
        | None => Ret []
        | Some (ac, sc) =>
            reg ← fdt_getprop blob ch S_reg;
            match reg with
            | None => Ret []
            | Some (reg, len) =>
                if ac =? 0 then Ret []
                else
                  let entry := u32 (u32 (ac + sc) * 4) in
                  if entry =? 0 then Ret []
                  else reg_entries (Nat.min (Z.to_nat (len / entry)) max) blob reg entry ac sc 0
            end
        end
  end.

Fixpoint memory_loop (fuel : nat) (blob : list Z) (c : ctx_t) (root ch : Z) (max : nat) : res (list fdt_range_t) :=
  match fuel with
  | O => NoFuel
  | S fuel =>
      if ch =? FDT_ERR_NODE then Ret []
      else
        found ← memory_node blob c ch max;
        next ← fdt_next_sibling blob root ch;
        rest ← memory_loop fuel blob c root next (max - length found);
        Ret (found ++ rest)
  end.

Definition fdt_memory_ranges (blob : list Z) (max : nat) : res (list fdt_range_t) :=
  with_ctx blob [] (fun c =>
    let root := off_of (c_s c) in
    r ← root_ok blob c;
    if negb r then Ret []
    else
      ch ← fdt_first_child blob root;
      memory_loop (fuel_of blob) blob c root ch max).

(** ** Small queries *)

(** The child and the new value of [*cursor]. *)
Definition fdt_next_child (blob : list Z) (parent_offset cursor : Z) : res (Z * Z) :=
  c ← (if cursor =? 0 then fdt_first_child blob parent_offset
       else fdt_next_sibling blob parent_offset cursor);
  Ret (if c =? FDT_ERR_NODE then (0, 0) else (c, c)).

Definition fdt_is_enabled (blob : list Z) (node_offset : Z) : res bool :=
  st ← fdt_getprop blob node_offset S_status;
  match st with
  | None => Ret true
  | Some (st, len) =>
      if len =? 0 then Ret true
      else
        okay ← (if 5 <=? len then bytes_eq blob st [111; 107; 97; 121] else Ret false);
        if okay : bool then Ret true
        else if 3 <=? len then
          o ← bytes_eq blob st [111; 107];
          if negb o then Ret false
          else x ← rd8 blob (st + 2); Ret ((x =? 0) || (len =? 3))
        else Ret false
  end.
