(* ===== verification/FdtTree.v ===== *)
(** * Device trees and their flattened form

    A tree as the specification has it and its encoding as a blob: header,
    an empty reservation map, the structure block, the strings block. *)

From S2P Require Import Prelude Fdt.

(** A property is the offset of its name in the strings block and its
    value. *)
Inductive dnode := DNode (name : list Z) (props : list (Z * list Z)) (children : list dnode).

Definition d_name (t : dnode) : list Z := let 'DNode n _ _ := t in n.
Definition d_props (t : dnode) : list (Z * list Z) := let 'DNode _ p _ := t in p.
Definition d_children (t : dnode) : list dnode := let 'DNode _ _ c := t in c.

Definition be32 (v : Z) : list Z :=
  [(v / 2 ^ 24) mod 256; (v / 2 ^ 16) mod 256; (v / 2 ^ 8) mod 256; v mod 256].

(** Padded with zeros to a multiple of four. *)
Definition pad4 (bs : list Z) : list Z := bs ++ replicate (Z.to_nat ((- Z.of_nat (length bs)) mod 4)) 0.

Definition flat_prop (p : Z * list Z) : list Z :=
  be32 FDT_PROP ++ be32 (Z.of_nat (length (snd p))) ++ be32 (fst p) ++ pad4 (snd p).

Definition flat_head (name : list Z) (props : list (Z * list Z)) : list Z :=
  be32 FDT_BEGIN_NODE ++ pad4 (name ++ [0]) ++ concat (flat_prop <$> props).

Fixpoint flat_node (t : dnode) : list Z :=
  let 'DNode name props children := t in
  flat_head name props ++ concat (flat_node <$> children) ++ be32 FDT_END_NODE.

(** The header's ten words and the terminator of the reservation map. *)
Definition flat_header (size_struct size_strings : Z) : list Z :=
  be32 FDT_MAGIC ++ be32 (56 + size_struct + size_strings) ++ be32 56 ++ be32 (56 + size_struct) ++
  be32 40 ++ be32 17 ++ be32 16 ++ be32 0 ++ be32 size_strings ++ be32 size_struct ++ replicate 16 0.

Definition flat_struct (root : dnode) : list Z := flat_node root ++ be32 FDT_END.

Definition flatten (root : dnode) (strings : list Z) : list Z :=
  flat_header (Z.of_nat (length (flat_struct root))) (Z.of_nat (length strings)) ++ flat_struct root ++ strings.

(** ** A small tree

    / with one address and one size cell, memory@8 and a serial port under
    a bus. *)

(** "compatible", "reg", "#address-cells", "#size-cells", each with its
    terminator. *)
Definition demo_strings : list Z :=
  S_compatible ++ [0] ++ S_reg ++ [0] ++ S_address_cells ++ [0] ++ S_size_cells ++ [0].

Definition demo_root : dnode :=
  DNode [] [(15, be32 1); (30, be32 1)]
    [DNode [109; 101; 109; 111; 114; 121; 64; 56] [(11, be32 4096 ++ be32 8192)] [];
     DNode [98; 117; 115] []
       [DNode [117; 97; 114; 116] [(0, [110; 115; 49; 54; 0]); (11, be32 12288 ++ be32 16)] []]].

Definition demo_blob : list Z := flatten demo_root demo_strings.

(** ** Induction and well-formedness *)

Lemma dnode_ind' (P : dnode -> Prop) :
  (forall name props children, Forall P children -> P (DNode name props children)) ->
  forall t, P t.
Proof.
  intros H. fix IH 1. intros [name props children]. apply H.
  induction children as [|t ts IHts]; constructor; [apply IH|exact IHts].
Qed.

(** Names have no zero byte; property names are in the strings block. *)
Fixpoint wf_node (strings : Z) (t : dnode) : bool :=
  let 'DNode name props children := t in
  forallb (fun x => (0 <? x) && (x <? 256)) name &&
  forallb (fun p => (0 <=? fst p) && (fst p <? strings)) props &&
  forallb (wf_node strings) children.

(** How many tokens a node takes. *)
Fixpoint tokens (t : dnode) : nat :=
  let 'DNode _ props children := t in S (length props + foldr (fun t n => (tokens t + n)%nat) 1%nat children).

(** [node_in t o u o' d po]: in the tree [t] flattened at offset [o], the node
    [u] lies [d] levels down at offset [o'], and its parent is at [po]. *)
Inductive node_in : dnode -> Z -> dnode -> Z -> nat -> Z -> Prop :=
| in_child name props l u r o :
    node_in (DNode name props (l ++ u :: r)) o u
      (o + Z.of_nat (length (flat_head name props)) + Z.of_nat (length (concat (flat_node <$> l)))) 1 o
| in_deeper name props l u r o t o' d po :
    node_in u (o + Z.of_nat (length (flat_head name props)) + Z.of_nat (length (concat (flat_node <$> l)))) t o' d po ->
    node_in (DNode name props (l ++ u :: r)) o t o' (S d) po.

(** The string that starts a byte sequence. *)
Fixpoint c_string (bs : list Z) : list Z :=
  match bs with
  | [] => []
  | x :: bs => if x =? 0 then [] else x :: c_string bs
  end.

(** The value of the first property with a name. *)
Fixpoint lookup_prop (strings : list Z) (name : list Z) (props : list (Z * list Z)) : option (list Z) :=
  match props with
  | [] => None
  | (off, v) :: props =>
      if bool_decide (c_string (drop (Z.to_nat off) strings) = name) then Some v
      else lookup_prop strings name props
  end.

(** The first child with a name, and its offset; the children start at [q]. *)
Fixpoint offset_named (name : list Z) (q : Z) (ts : list dnode) : option (dnode * Z) :=
  match ts with
  | [] => None
  | t :: ts => if bool_decide (d_name t = name) then Some (t, q)
               else offset_named name (q + Z.of_nat (length (flat_node t))) ts
  end.

(** The node a list of names leads to from [t], and its offset. *)
Fixpoint walk (names : list (list Z)) (t : dnode) (o : Z) : option (dnode * Z) :=
  match names with
  | [] => Some (t, o)
  | name :: names =>
      match offset_named name (o + Z.of_nat (length (flat_head (d_name t) (d_props t)))) (d_children t) with
      | Some (u, o') => walk names u o'
      | None => None
      end
  end.

(** The path of a list of names, "/" for none; names that can be in one. *)
Definition path_of (names : list (list Z)) : list Z :=
  match names with [] => [SLASH] | _ => concat (cons SLASH <$> names) end.

Definition path_name (name : list Z) : bool :=
  match name with [] => false | _ => forallb (fun x => negb (x =? SLASH)) name end.

(** A node of the tree [root] flattened at [base]: the root or one below. *)
Inductive node_at (root : dnode) (base : Z) : dnode -> Z -> nat -> Prop :=
| at_root : node_at root base root base 0
| at_below u o d po : node_in root base u o d po -> node_at root base u o d.
