(* ===== verification/FdtSafe.v ===== *)
(** * The device tree reader returns, and stays inside of a roomy blob

    One judgement covers both: [holds safe m Q] says that [m] does not run out
    of fuel, leaves the blob only if [safe] is false, and that its value meets
    [Q].  [roomy blob c] is the [safe] of every lemma here: beyond what
    [ctx_init] checks, eight bytes follow the structure block and the blob
    ends with a zero byte. *)

From S2P Require Import Prelude Fdt FdtTree.

(** ** The judgement *)

Definition holds {A} (safe : Prop) (m : res A) (Q : A -> Prop) : Prop :=
  match m with Ret a => Q a | Oob => ~ safe | NoFuel => False end.

Lemma holds_bind {A B} safe (m : res A) (f : A -> res B) P Q :
  holds safe m P -> (forall a, P a -> holds safe (f a) Q) -> holds safe (m ≫= f) Q.
Proof. destruct m; cbn; auto. Qed.

Lemma holds_weaken {A} safe (m : res A) (P Q : A -> Prop) :
  holds safe m P -> (forall a, P a -> Q a) -> holds safe m Q.
Proof. destruct m; cbn; auto. Qed.

Definition is_byte (b : Z) : Prop := 0 <= b < 256.

Record roomy (blob : list Z) (c : ctx_t) : Prop := {
  r_bytes : Forall is_byte blob;
  r_struct : 0 <= c_s c;
  r_room : c_send c + 8 <= Z.of_nat (length blob);
  r_str : 0 <= c_str c;
  r_strings : c_str c <= c_strend c <= Z.of_nat (length blob);
  r_last : last blob = Some 0 }.

(** ** Reading *)

Lemma rd8_cases blob p :
  (exists x, rd8 blob p = Ret x /\ blob !! Z.to_nat p = Some x /\ 0 <= p < Z.of_nat (length blob)) \/
  (rd8 blob p = Oob /\ ~ (0 <= p < Z.of_nat (length blob))).
Proof.
  unfold rd8. destruct (Z.ltb_spec p 0); [right; split; [done|lia]|].
  destruct (Z.leb_spec (Z.of_nat (length blob)) p); [right; split; [done|lia]|]. cbn [orb].
  destruct (blob !! Z.to_nat p) as [x|] eqn:E; [left|right].
  - exists x. apply lookup_lt_Some in E as ?. split_and!; [done..|lia|lia].
  - apply lookup_ge_None in E. split; [done|lia].
Qed.

Lemma rd8_holds safe blob p :
  (safe -> 0 <= p < Z.of_nat (length blob)) ->
  holds safe (rd8 blob p)
    (fun x => blob !! Z.to_nat p = Some x /\ 0 <= p < Z.of_nat (length blob)).
Proof.
  intros H. destruct (rd8_cases blob p) as [(x & -> & ? & ?)|[-> ?]]; cbn; [done|tauto].
Qed.

Lemma rd_be32_holds safe blob p :
  (safe -> 0 <= p /\ p + 4 <= Z.of_nat (length blob)) ->
  holds safe (rd_be32 blob p)
    (fun v => (Forall is_byte blob -> 0 <= v < 2 ^ 32) /\ 0 <= p /\ p + 4 <= Z.of_nat (length blob)).
Proof.
  intros H. unfold rd_be32.
  eapply holds_bind; [apply rd8_holds; intros s; destruct (H s); lia|intros b0 [E0 ?]].
  eapply holds_bind; [apply rd8_holds; intros s; destruct (H s); lia|intros b1 [E1 ?]].
  eapply holds_bind; [apply rd8_holds; intros s; destruct (H s); lia|intros b2 [E2 ?]].
  eapply holds_bind; [apply rd8_holds; intros s; destruct (H s); lia|intros b3 [E3 ?]].
  cbn [holds]. split; [|lia]. intros Hb.
  assert (is_byte b0 /\ is_byte b1 /\ is_byte b2 /\ is_byte b3) as (B0 & B1 & B2 & B3)
    by (split_and!; eapply Forall_lookup_1; eauto).
  unfold is_byte in *.
  split; [rewrite !Z.lor_nonneg, !Z.shiftl_nonneg; lia|].
  assert (Hs : forall b k, 0 <= b < 256 -> 0 <= k <= 24 -> 0 <= Z.shiftl b k < 2 ^ 32).
  { intros b k ? ?. rewrite Z.shiftl_mul_pow2 by lia.
    pose proof (Z.pow_le_mono_r 2 k 24 ltac:(lia) ltac:(lia)). pose proof (Z.pow_pos_nonneg 2 k). nia. }
  assert (Hl : forall a b, 0 <= a < 2 ^ 32 -> 0 <= b < 2 ^ 32 -> 0 <= Z.lor a b < 2 ^ 32).
  { intros a b ? ?. rewrite <- (Z.mod_small a (2 ^ 32)), <- (Z.mod_small b (2 ^ 32)) by lia.
    rewrite <- !Z.land_ones by lia. rewrite <- Z.land_lor_distr_l, Z.land_ones by lia.
    apply Z.mod_pos_bound. lia. }
  apply Hl; [|lia]. apply Hl; [|apply Hs; lia]. apply Hl; apply Hs; lia.
Qed.

Lemma align4_nonneg v : 0 <= align4 v.
Proof. unfold align4. apply Z.land_nonneg. right. lia. Qed.

Lemma ok_true c p n : ok c p n = true <-> c_s c <= p /\ p <= c_send c /\ n <= c_send c - p.
Proof. unfold ok. rewrite !andb_true_iff, !Z.leb_le. tauto. Qed.

Lemma negb_ok_cases c p n : (negb (ok c p n) = true) \/
  (negb (ok c p n) = false /\ c_s c <= p /\ p <= c_send c /\ n <= c_send c - p).
Proof. destruct (ok c p n) eqn:E; [right; apply ok_true in E|left]; auto. Qed.

Lemma off_of_small p : 0 <= p < 2 ^ 31 -> off_of p = p.
Proof. intros. unfold off_of, to_int, u32. rewrite Z.mod_small by lia. case_match; lia. Qed.

(** Run a guard or a read at the head of a [holds] goal. *)
Ltac test :=
  match goal with
  | |- holds _ (if negb (ok ?c ?p ?n) then _ else _) _ =>
      let E := fresh "E" in
      destruct (negb_ok_cases c p n) as [E|(E & ? & ? & ?)]; rewrite E; clear E
  | |- holds _ (if ?b then _ else _) _ => let E := fresh "E" in destruct b eqn:E
  end.
Ltac read := eapply holds_bind; [apply rd_be32_holds|intros ? (? & ? & ?)].

Section walks.
Context (blob : list Z) (c : ctx_t).
Hypothesis small : Z.of_nat (length blob) < 2 ^ 31.
Abbreviation len := (Z.of_nat (length blob)).
Notation "m ⟹ Q" := (holds (roomy blob c) m Q) (at level 99).

Lemma roomy_in : roomy blob c -> 0 <= c_s c /\ c_send c + 8 <= len.
Proof. by intros []. Qed.

Ltac room := let R := fresh in intros R; destruct (roomy_in R); lia.

(** ** Names *)

(** A length the loop returns is one of a terminated name, all of it in the
    blob, or sits where [ok] fails. *)
Lemma name_loop_holds fuel p n :
  0 <= n -> 0 < Z.of_nat fuel -> len - (p + n) < Z.of_nat fuel ->
  (forall i, 0 <= i < n -> 0 <= p + i < len) ->
  name_loop fuel blob c p n ⟹
    fun m => n <= m /\ (ok c (p + m) 1 = true -> 0 <= p + m < len) /\ forall i, 0 <= i < m -> 0 <= p + i < len.
Proof.
  revert n. induction fuel as [|fuel IH]; intros n Hn Hf Hm Hi; [lia|cbn [name_loop]].
  destruct (ok c (p + n) 1) eqn:E; [|cbn; split_and!; [lia|by rewrite E|done]].
  apply ok_true in E. eapply holds_bind; [apply rd8_holds; room|intros x [_ ?]].
  destruct (x =? 0); [cbn; split_and!; [lia|done|done]|].
  eapply holds_weaken; [apply IH; [lia..|]|].
  - intros i ?. destruct (decide (i = n)) as [->|]; [lia|apply Hi; lia].
  - cbn. intros m (? & ? & ?). split_and!; [lia|done|done].
Qed.

Lemma node_name_holds p :
  0 <= p -> node_name blob c p ⟹
    fun o => forall m, o = Some m -> 0 <= m /\ p + m < len /\ p + m < c_send c.
Proof.
  intros Hp. unfold node_name, fuel_of.
  eapply holds_bind; [apply (name_loop_holds _ p 0); lia|]. cbn [holds].
  intros n (? & Hok & ?) m. destruct (ok c (p + n) 1) eqn:E; cbn; [|done].
  intros [= <-]. pose proof (Hok eq_refl). apply ok_true in E. lia.
Qed.

(** ** Walks *)

Definition found (p r : Z) : Prop := r = -1 \/ p <= r /\ r <= len.

Lemma skip_loop_holds fuel p depth :
  0 < Z.of_nat fuel -> len - p < Z.of_nat fuel ->
  skip_loop fuel blob c p depth ⟹ found (p + 4).
Proof.
  revert p depth. induction fuel as [|fuel IH]; intros p depth Hf Hm; [lia|cbn [skip_loop]].
  test; [by left|]. read; [room|].
  assert (K : forall q d, p + 4 <= q -> skip_loop fuel blob c q d ⟹ found (p + 4)).
  { intros q d Hq. eapply holds_weaken; [apply IH; lia|unfold found; lia]. }
  test.
  { eapply holds_bind; [apply node_name_holds; lia|]. intros [m|] _; [|by left].
    apply K. pose proof (align4_nonneg (u32 (m + 1))). lia. }
  test.
  { test; [|apply K; lia]. right. rewrite off_of_small; lia. }
  test.
  { test; [by left|]. read; [room|]. test; [by left|].
    apply K. pose proof (align4_nonneg a0). lia. }
  test; [apply K; lia|by left].
Qed.

Lemma skip_node_holds off : 0 <= off -> skip_node blob c off ⟹ found (off + 4).
Proof. intros. apply skip_loop_holds; unfold fuel_of; lia. Qed.

Lemma after_name_holds off : after_name blob c off ⟹ fun o => forall q, o = Some q -> off + 4 <= q /\ 0 <= off.
Proof.
  unfold after_name. test; [done|]. read; [room|]. test; [done|].
  eapply holds_bind; [apply node_name_holds; lia|]. intros [m|] _; [|done].
  intros q [= <-]. pose proof (align4_nonneg (u32 (m + 1))). lia.
Qed.

Lemma first_child_loop_holds fuel p :
  0 <= p -> 0 < Z.of_nat fuel -> len - p < Z.of_nat fuel ->
  first_child_loop fuel blob c p ⟹ found p.
Proof.
  revert p. induction fuel as [|fuel IH]; intros p Hp Hf Hm; [lia|cbn [first_child_loop]].
  test; [by left|]. read; [room|].
  assert (K : forall q, p + 4 <= q -> first_child_loop fuel blob c q ⟹ found p).
  { intros q Hq. eapply holds_weaken; [apply IH; lia|unfold found; lia]. }
  test; [right; rewrite off_of_small; lia|]. test; [by left|]. test.
  { read; [room|]. test; [by left|]. apply K. pose proof (align4_nonneg a0). lia. }
  test; [apply K; lia|by left].
Qed.

Lemma sibling_loop_holds fuel p :
  0 <= p -> 0 < Z.of_nat fuel -> len - p < Z.of_nat fuel ->
  sibling_loop fuel blob c p ⟹ found p.
Proof.
  revert p. induction fuel as [|fuel IH]; intros p Hp Hf Hm; [lia|cbn [sibling_loop]].
  test; [by left|]. read; [room|].
  test; [right; rewrite off_of_small; lia|]. test; [by left|]. test; [|by left].
  eapply holds_weaken; [apply IH; lia|unfold found; lia].
Qed.

(** A parent lies before its child. *)
Definition above (n r : Z) : Prop := r = -1 \/ 0 <= r < n /\ n + 4 <= len.

Definition stack_below (p : Z) (stack : list Z) : Prop :=
  length stack = FDT_MAX_DEPTH /\ Forall (fun e => 0 <= e /\ (e < p \/ e = 0)) stack.

Lemma stack_below_insert p x i stack :
  0 <= x < p -> stack_below p stack -> stack_below p (<[i := x]> stack).
Proof. intros ? [Hl Hs]. split; [by rewrite length_insert|apply Forall_insert; [done|lia]]. Qed.

Lemma stack_below_mono p q stack : p <= q -> stack_below p stack -> stack_below q stack.
Proof. intros ? [? Hs]. split; [done|]. eapply Forall_impl; [exact Hs|]. cbn. intros. lia. Qed.

Lemma stack_below_lookup p stack i : 0 < p -> (i < 16)%nat -> stack_below p stack -> 0 <= stack !!? i < p.
Proof.
  intros Hp Hi [Hl Hs]. unfold FDT_MAX_DEPTH in Hl. assert (E : stack !! i = Some (stack !!? i)) by (apply lookup_nth_inh; lia).
  eapply Forall_lookup_1 in Hs; [|done]. lia.
Qed.

Lemma parent_loop_holds fuel n stack p depth :
  0 <= p -> 0 < Z.of_nat fuel -> len - p < Z.of_nat fuel ->
  stack_below p stack -> (0 <= depth -> 0 < p) ->
  parent_loop fuel blob c n stack p depth ⟹ above n.
Proof.
  revert stack p depth.
  induction fuel as [|fuel IH]; intros stack p depth Hp Hf Hm Hs Hd; [lia|cbn [parent_loop]].
  test; [by left|]. read; [room|]. rewrite off_of_small by lia.
  assert (K : forall s q d, p + 4 <= q -> stack_below q s -> parent_loop fuel blob c n s q d ⟹ above n).
  { intros s q d ? ?. apply IH; [lia..|done|lia]. }
  test.
  { eapply holds_bind; [apply node_name_holds; lia|]. intros [m|] _; [|by left].
    pose proof (align4_nonneg (u32 (m + 1))).
    set (s' := if depth + 1 <? _ then _ else _).
    assert (Hs' : stack_below (p + 4) s').
    { subst s'. case_match; [apply stack_below_insert; [lia|]|]; (eapply stack_below_mono; [|exact Hs]; lia). }
    destruct (Z.eqb_spec p n) as [<-|]; [|apply K; [lia|eapply stack_below_mono; [|done]; lia]].
    destruct ((depth + 1 <=? 0) || _) eqn:Ed; [by left|]. right.
    unfold FDT_MAX_DEPTH in Ed. apply orb_false_iff in Ed as [?%Z.leb_gt ?%Z.leb_gt].
    replace (s' !!? Z.to_nat (depth + 1 - 1)) with (stack !!? Z.to_nat depth).
    { pose proof (stack_below_lookup p stack (Z.to_nat depth) ltac:(lia) ltac:(lia) Hs). lia. }
    subst s'. replace (depth + 1 - 1) with depth by lia.
    case_match; [|done]. by rewrite nth_insert_ne by lia. }
  assert (stack_below (p + 4) stack) by (eapply stack_below_mono; [|done]; lia).
  test.
  { destruct (depth - 1 <? 0) eqn:?; [by left|apply K; [lia|done]]. }
  test.
  { read; [room|]. test; [by left|]. pose proof (align4_nonneg a0).
    apply K; [lia|]. eapply stack_below_mono; [|done]. lia. }
  test; [apply K; [lia|done]|by left].
Qed.

(** ** Strings *)

Lemma str_eq_holds a b :
  (roomy blob c -> 0 <= a < len) -> str_eq blob a b ⟹ fun _ => True.
Proof.
  revert a. induction b as [|y b IH]; intros a Ha; cbn [str_eq];
    (eapply holds_bind; [apply rd8_holds; done|intros x [Ex ?]]); [done|].
  test; [|done]. apply IH. intros R.
  destruct (decide (a + 1 < len)); [lia|]. exfalso.
  pose proof (r_last _ _ R) as L. rewrite last_lookup in L.
  replace (pred (length blob)) with (Z.to_nat a) in L by lia. simplify_eq.
Qed.

Lemma bytes_eq_holds p l :
  (roomy blob c -> 0 <= p /\ p + Z.of_nat (length l) <= len) -> bytes_eq blob p l ⟹ fun _ => True.
Proof.
  revert p. induction l as [|y l IH]; intros p Hp; cbn [bytes_eq]; [done|].
  eapply holds_bind; [apply rd8_holds; intros R; specialize (Hp R); cbn in Hp; lia|intros x _].
  test; [|done]. apply IH. intros R. specialize (Hp R). cbn in Hp. lia.
Qed.

(** ** Properties *)

Definition value_at (o : option (Z * Z)) : Prop :=
  forall p l, o = Some (p, l) -> 0 <= p /\ l <= c_send c - p /\ (roomy blob c -> 0 <= l < 2 ^ 32).

Lemma getprop_loop_holds fuel name p :
  0 <= p -> 0 < Z.of_nat fuel -> len - p < Z.of_nat fuel ->
  getprop_loop fuel blob c name p ⟹ value_at.
Proof.
  revert p. induction fuel as [|fuel IH]; intros p Hp Hf Hm; [lia|cbn [getprop_loop]].
  test; [done|]. read; [room|].
  test; [done|]. test; [apply IH; lia|]. destruct (negb (a =? FDT_PROP)); [done|cbn [orb]].
  test; [done|]. read; [room|]. read; [room|]. test; [done|].
  destruct (str_at c a1) as [pn|] eqn:Es; [|done].
  eapply holds_bind; [apply (str_eq_holds pn)|].
  - intros R. pose proof (r_strings _ _ R). pose proof (r_str _ _ R).
    unfold str_at, u32 in Es. destruct (Z.leb_spec ((c_strend c - c_str c) mod 4294967296) a1); simplify_eq.
    destruct R. pose proof (Z.mod_le (c_strend c - c_str c) 4294967296). intuition lia.
  - intros [|] _.
    + intros p' l' [= <- <-]. split_and!; [lia..|]. intros []. auto.
    + pose proof (align4_nonneg a0). apply IH; lia.
Qed.

(** ** The operations *)

Hypothesis ctx : ctx_init blob = Ret (Some c).

Lemma with_ctx_eq {A} (e : A) f : with_ctx blob e f = f c.
Proof. unfold with_ctx. by rewrite ctx. Qed.

Hypothesis start : 0 <= c_s c.

Lemma first_child_holds off :
  fdt_first_child blob off ⟹ fun r => r = -1 \/ 0 <= off /\ off + 4 <= r <= len.
Proof.
  unfold fdt_first_child. rewrite with_ctx_eq.
  eapply holds_bind; [apply after_name_holds|]. intros [q|] Hq; [|by left].
  specialize (Hq q eq_refl). unfold fuel_of.
  eapply holds_weaken; [apply first_child_loop_holds; lia|]. unfold found. lia.
Qed.

Lemma parent_offset_holds n : fdt_parent_offset blob n ⟹ above n.
Proof.
  unfold fdt_parent_offset. rewrite with_ctx_eq. unfold fuel_of.
  apply parent_loop_holds; [lia..| |lia].
  split; [by rewrite length_replicate|]. apply Forall_replicate. lia.
Qed.

Lemma next_sibling_holds parent prev :
  0 <= prev -> fdt_next_sibling blob parent prev ⟹ found (prev + 4).
Proof.
  intros Hp. unfold fdt_next_sibling. rewrite with_ctx_eq.
  eapply holds_bind; [apply parent_offset_holds|]. intros r _.
  test; [by left|]. eapply holds_bind; [apply skip_node_holds; lia|]. intros n Hn.
  test; [by left|]. unfold found in Hn. unfold fuel_of.
  eapply holds_weaken; [apply sibling_loop_holds; lia|]. unfold found. lia.
Qed.

Lemma getprop_holds off name : fdt_getprop blob off name ⟹ value_at.
Proof.
  unfold fdt_getprop. rewrite with_ctx_eq.
  eapply holds_bind; [apply after_name_holds|]. intros [q|] Hq; [|done].
  specialize (Hq q eq_refl). unfold fuel_of. apply getprop_loop_holds; lia.
Qed.

Lemma child_named_loop_holds fuel cur comp ch :
  ch = -1 \/ 0 <= ch -> 0 < Z.of_nat fuel -> len - ch < Z.of_nat fuel \/ ch = -1 ->
  child_named_loop fuel blob c cur comp ch ⟹ fun _ => True.
Proof.
  revert ch. induction fuel as [|fuel IH]; intros ch Hch Hf Hm; [lia|cbn [child_named_loop]].
  destruct (Z.eqb_spec ch FDT_ERR_NODE); [done|]. unfold FDT_ERR_NODE in *.
  eapply holds_bind; [apply node_name_holds; lia|]. intros [m|] Hn; [|done].
  specialize (Hn m eq_refl).
  eapply holds_bind with (P := fun _ => True).
  { test; [|done]. apply Z.eqb_eq in E. apply bytes_eq_holds. room. }
  intros [|] _; [done|].
  eapply holds_bind; [apply next_sibling_holds; lia|]. intros nx Hx. unfold found in Hx.
  apply IH; lia.
Qed.

(** ** Paths *)

Lemma component_skip x path :
  (x =? SLASH) = false ->
  (length (skip_slashes (snd (component (x :: path)))) <= length path)%nat.
Proof.
  assert (Hs : forall l, (length (skip_slashes l) <= length l)%nat)
    by (induction l as [|? ? IH]; cbn; [lia|case_match; cbn; lia]).
  assert (Hc : forall l, (length (snd (component l)) <= length l)%nat).
  { induction l as [|y l IH]; cbn; [lia|]. case_match; [done|].
    destruct (component l); cbn in *. lia. }
  intros Hx. cbn. rewrite Hx. specialize (Hc path). destruct (component path) as [a b]; cbn in *.
  specialize (Hs b). lia.
Qed.

Lemma skip_slashes_head path x rest : skip_slashes path = x :: rest -> (x =? SLASH) = false.
Proof. induction path; cbn; [done|]. case_match; [done|]. by intros [= <- <-]. Qed.

Lemma path_loop_holds fuel cur path :
  (length path < fuel)%nat -> (forall x rest, path = x :: rest -> (x =? SLASH) = false) ->
  path_loop fuel blob c cur path ⟹ fun _ => True.
Proof.
  revert cur path. induction fuel as [|fuel IH]; intros cur path Hf Hs; [lia|].
  destruct path as [|x path]; [done|]. cbn [path_loop].
  pose proof (component_skip x path (Hs _ _ eq_refl)) as Hl.
  destruct (component (x :: path)) as [comp rest]; cbn in Hl, Hf.
  eapply holds_bind; [apply first_child_holds|]. intros ch Hch.
  eapply holds_bind; [unfold fuel_of; apply child_named_loop_holds; cbn in Hch; lia|].
  intros f _. test; [done|]. apply IH; [lia|]. intros. by eapply skip_slashes_head.
Qed.

Lemma root_ok_holds : root_ok blob c ⟹ fun r => r = true -> c_s c + 4 <= len.
Proof. unfold root_ok. test; [done|]. read; [room|]. cbn. lia. Qed.

Lemma path_offset_holds path : fdt_path_offset blob path ⟹ fun _ => True.
Proof.
  unfold fdt_path_offset. rewrite with_ctx_eq. test; [done|].
  eapply holds_bind; [apply root_ok_holds|]. intros r _. test; [done|].
  apply path_loop_holds; [|intros; by eapply skip_slashes_head].
  clear. induction path as [|x path IH]; cbn; [lia|]. case_match; cbn in *; lia.
Qed.

(** ** The compatible search, one round *)

Lemma entry_loop_holds fuel list_ n i j :
  0 <= list_ -> 0 <= i -> 0 <= j -> 0 < Z.of_nat fuel -> len - (list_ + i + j) < Z.of_nat fuel ->
  n <= c_send c - list_ -> (j = 0 \/ i + j <= n /\ list_ + i < len /\ list_ + i + j <= len) ->
  entry_loop fuel blob list_ n i j ⟹
    fun k => j <= k /\ (i < n -> i + k <= n /\ list_ + i < len /\ list_ + i + k <= len).
Proof.
  intros Hl Hi Hj Hf Hm Hn Hin. revert j Hj Hf Hm Hin.
  induction fuel as [|fuel IH]; intros j Hj Hf Hm Hin; [lia|cbn [entry_loop]].
  destruct (Z.ltb_spec (i + j) n); [|cbn; lia].
  eapply holds_bind; [apply rd8_holds; room|intros x [_ ?]].
  test; [|cbn; lia]. eapply holds_weaken; [apply IH; lia|]. cbn. lia.
Qed.

Lemma compatible_loop_holds fuel list_ n i want :
  0 <= list_ -> 0 <= i -> 0 < Z.of_nat fuel -> len - (list_ + i) < Z.of_nat fuel ->
  n <= c_send c - list_ ->
  compatible_loop fuel blob list_ n i want ⟹ fun _ => True.
Proof.
  intros Hl Hi Hf Hm Hn. revert i Hi Hf Hm.
  induction fuel as [|fuel IH]; intros i Hi Hf Hm; [lia|cbn [compatible_loop]].
  destruct (Z.ltb_spec i n); [|done].
  eapply holds_bind; [unfold fuel_of; apply entry_loop_holds; lia|]. cbn. intros k Hk.
  eapply holds_bind with (P := fun _ => True).
  { test; [|done]. apply str_eq_holds. room. }
  intros [|] _; [done|].
  replace (u32 (i + k + 1)) with (i + k + 1) by (unfold u32; rewrite Z.mod_small; lia).
  apply IH; lia.
Qed.

Lemma drain_siblings_holds fuel cur sib :
  sib = -1 \/ 0 <= sib <= len -> 0 < Z.of_nat fuel -> sib = -1 \/ len - sib < Z.of_nat fuel - 1 ->
  drain_siblings fuel blob cur sib ⟹ fun _ => True.
Proof.
  revert sib. induction fuel as [|fuel IH]; intros sib Hs Hf Hm; [lia|cbn [drain_siblings]].
  destruct (Z.eqb_spec sib FDT_ERR_NODE); [done|]. unfold FDT_ERR_NODE in *.
  eapply holds_bind; [apply next_sibling_holds; lia|]. unfold found. intros nx Hx.
  apply IH; lia.
Qed.

(** The offsets up to [depth] on the search's stack are ones of the blob. *)
Definition path_ok (stack : list Z) (depth : nat) : Prop :=
  (depth < FDT_MAX_DEPTH)%nat /\ length stack = FDT_MAX_DEPTH /\
  forall i, (i <= depth)%nat -> 0 <= stack !!? i <= len.

Lemma path_ok_insert stack depth x :
  path_ok stack depth -> 0 <= x <= len -> path_ok (<[depth := x]> stack) depth.
Proof.
  intros (Hd & Hl & Hs) Hx. split_and!; [done|by rewrite length_insert|].
  intros i Hi. destruct (decide (i = depth)) as [->|].
  - rewrite nth_insert_eq by lia. lia.
  - rewrite nth_insert_ne by done. auto.
Qed.

Lemma path_ok_less stack depth d : path_ok stack depth -> (d <= depth)%nat -> path_ok stack d.
Proof. intros (Hd & Hl & Hs) ?. split_and!; [lia|done|]. intros. apply Hs. lia. Qed.

Lemma climb_holds fuel stack depth :
  (depth < fuel)%nat -> path_ok stack depth ->
  climb fuel blob stack depth ⟹
    fun o => forall s d, o = Some (s, d) -> path_ok s d.
Proof.
  revert depth. induction fuel as [|fuel IH]; intros depth Hf Hs; [lia|cbn [climb]].
  destruct depth as [|abv]; [done|]. pose proof Hs as (_ & _ & Hin).
  eapply holds_bind; [apply next_sibling_holds, Hin; lia|]. unfold found. intros nx Hx.
  specialize (Hin (S abv) ltac:(lia)). test.
  - intros s d [= <- <-]. apply path_ok_insert; [done|]. unfold FDT_ERR_NODE in *. lia.
  - apply IH; [lia|]. apply (path_ok_less _ _ _ Hs); lia.
Qed.

Lemma search_step_holds compatible prev stack depth :
  path_ok stack depth ->
  search_step blob compatible prev stack depth ⟹
    fun r => forall s d, r = inr (s, d) -> path_ok s d.
Proof.
  intros Hs. pose proof Hs as (Hd & Hl & Hin). unfold search_step.
  eapply holds_bind; [apply getprop_holds|]. intros cp Hcp.
  eapply holds_bind with (P := fun _ => True).
  { destruct cp as [[p l]|]; [|done]. destruct (Hcp p l eq_refl) as (? & ? & ?). test; [|done].
    unfold compatible_match, fuel_of. apply compatible_loop_holds; lia. }
  intros [|] _; [done|].
  eapply holds_bind; [apply first_child_holds|]. intros ch Hch. test.
  - unfold FDT_ERR_NODE in *. cbn in Hch. case_decide.
    + eapply holds_bind; [apply next_sibling_holds; lia|]. unfold found. intros sib Hsib.
      eapply holds_bind; [unfold fuel_of; apply drain_siblings_holds; lia|]. intros _ _.
      destruct depth; [done|]. intros s d [= <- <-]. apply (path_ok_less _ _ _ Hs); lia.
    + intros s d [= <- <-]. split_and!; [lia|by rewrite length_insert|]. intros i Hi.
      destruct (decide (i = (depth + 1)%nat)) as [->|].
      * rewrite nth_insert_eq by lia. lia.
      * rewrite nth_insert_ne by done. apply Hin. lia.
  - eapply holds_bind; [apply climb_holds; [unfold FDT_MAX_DEPTH in *; lia|done]|].
    intros [[s d]|] Hn; [|done]. intros ? ? [= <- <-]. by apply Hn.
Qed.

(** ** Cell counts and small queries *)

Lemma own_cells_holds off name : own_cells blob off name ⟹ fun _ => True.
Proof.
  unfold own_cells. eapply holds_bind; [apply getprop_holds|]. intros [[p l]|] Hv; [|done].
  destruct (Hv p l eq_refl) as (? & ? & ?). test; [done|].
  read; [room|done].
Qed.

Lemma cells_at_holds cur found name : cells_at blob cur found name ⟹ fun _ => True.
Proof. destruct found; [done|apply own_cells_holds]. Qed.

Lemma cells_loop_holds fuel cur ac sc :
  0 < Z.of_nat fuel -> cur + 1 < Z.of_nat fuel -> cells_loop fuel blob cur ac sc ⟹ fun _ => True.
Proof.
  revert cur ac sc. induction fuel as [|fuel IH]; intros cur ac sc Hf Hc; [lia|cbn [cells_loop]].
  destruct (Z.ltb_spec cur 0); [done|].
  eapply holds_bind; [apply cells_at_holds|intros ac' _].
  eapply holds_bind; [apply cells_at_holds|intros sc' _].
  assert (K : (cur ← fdt_parent_offset blob cur; cells_loop fuel blob cur ac' sc') ⟹ fun _ => True).
  { eapply holds_bind; [apply parent_offset_holds|]. unfold above. intros r Hr.
    apply IH; lia. }
  by destruct ac', sc'.
Qed.

Lemma parent_cells_holds off : fdt_parent_cells blob off ⟹ fun _ => True.
Proof.
  unfold fdt_parent_cells. rewrite with_ctx_eq.
  eapply holds_bind; [apply parent_offset_holds|]. unfold above. intros r Hr.
  by eapply holds_bind; [unfold fuel_of; apply cells_loop_holds; lia|].
Qed.

Lemma is_enabled_holds off : fdt_is_enabled blob off ⟹ fun _ => True.
Proof.
  unfold fdt_is_enabled. eapply holds_bind; [apply getprop_holds|]. intros [[p l]|] Hv; [|done].
  destruct (Hv p l eq_refl) as (? & ? & ?). test; [done|].
  eapply holds_bind with (P := fun _ => True).
  { test; [|done]. apply bytes_eq_holds. cbn. room. }
  intros [|] _; [done|]. test; [|done].
  eapply holds_bind; [apply bytes_eq_holds; cbn; room|]. intros o _. test; [done|].
  by eapply holds_bind; [apply rd8_holds; room|].
Qed.

Lemma skip_node_negative off : off < 0 -> skip_node blob c off = Ret (-1).
Proof.
  intros. unfold skip_node, fuel_of. cbn [skip_loop].
  destruct (ok c off 4) eqn:E; [|done]. apply ok_true in E. lia.
Qed.

Lemma next_sibling_any_holds parent prev : fdt_next_sibling blob parent prev ⟹ fun _ => True.
Proof.
  destruct (decide (0 <= prev)) as [|Hn].
  { eapply holds_weaken; [by apply next_sibling_holds|done]. }
  unfold fdt_next_sibling. rewrite with_ctx_eq.
  eapply holds_bind; [apply parent_offset_holds|]. intros r _.
  test; [done|]. by rewrite skip_node_negative by lia.
Qed.

Lemma next_child_holds parent cursor : fdt_next_child blob parent cursor ⟹ fun _ => True.
Proof.
  unfold fdt_next_child. eapply holds_bind with (P := fun _ => True); [|done].
  test; [|apply next_sibling_any_holds].
  eapply holds_weaken; [apply first_child_holds|done].
Qed.

(** ** Addresses: these return, on any blob *)

Lemma returns {A} (m : res A) Q : (m ⟹ Q) -> holds False m Q.
Proof. destruct m; cbn; tauto. Qed.

Lemma rd_be64_returns p : holds False (rd_be64 blob p) (fun _ => True).
Proof. unfold rd_be64. read; [done|]. by read; [done|]. Qed.

Lemma rd_cells_returns p n : holds False (rd_cells blob p n) (fun _ => True).
Proof.
  unfold rd_cells. test; [|apply rd_be64_returns].
  eapply holds_weaken; [by apply rd_be32_holds|done].
Qed.

Lemma ranges_loop_returns n ranges rentry own_ac ra rs base i :
  holds False (ranges_loop n blob ranges rentry own_ac ra rs base i) (fun _ => True).
Proof.
  revert i. induction n as [|n IH]; intros i; cbn [ranges_loop]; [done|].
  do 3 (eapply holds_bind; [apply rd_cells_returns|intros ? _]). test; [done|apply IH].
Qed.

Lemma translate_bus_returns cur ranges rlen base :
  holds False (translate_bus blob cur ranges rlen base) (fun _ => True).
Proof.
  unfold translate_bus. eapply holds_bind; [apply returns, parent_cells_holds|].
  intros [[a b]|] _; [|done].
  do 2 (eapply holds_bind; [apply returns, own_cells_holds|intros ? _]).
  test; [done|apply ranges_loop_returns].
Qed.

Lemma translate_loop_returns fuel cur base :
  0 < Z.of_nat fuel -> (cur + 4 <= len -> cur + 1 < Z.of_nat fuel) ->
  holds False (translate_loop fuel blob cur base) (fun _ => True).
Proof.
  revert cur base. induction fuel as [|fuel IH]; intros cur base Hf Hc; [lia|cbn [translate_loop]].
  eapply holds_bind; [apply returns, parent_offset_holds|]. unfold above. intros r Hr.
  destruct (Z.ltb_spec r 0); [done|].
  assert (K : forall b, holds False (translate_loop fuel blob r b) (fun _ => True))
    by (intros; apply IH; lia).
  eapply holds_bind; [apply returns, getprop_holds|]. intros [[p l]|] _; [|apply K].
  test; [apply K|]. eapply holds_bind; [apply translate_bus_returns|]. intros [b|] _; [|done].
  test; [done|apply K].
Qed.

Lemma reg_to_cpu_addr_returns off i : holds False (fdt_reg_to_cpu_addr blob off i) (fun _ => True).
Proof.
  unfold fdt_reg_to_cpu_addr. rewrite with_ctx_eq.
  eapply holds_bind; [apply returns, parent_cells_holds|]. intros [[ac sc]|] _; [|done].
  eapply holds_bind; [apply returns, getprop_holds|]. intros [[p l]|] _; [|done].
  test; [done|]. test; [done|].
  eapply holds_bind; [apply rd_cells_returns|intros base _].
  eapply holds_bind with (P := fun _ => True); [test; [done|apply rd_cells_returns]|intros size _].
  by eapply holds_bind; [unfold fuel_of; apply translate_loop_returns; lia|].
Qed.

Lemma reg_entries_returns n reg entry ac sc i :
  holds False (reg_entries n blob reg entry ac sc i) (fun _ => True).
Proof.
  revert i. induction n as [|n IH]; intros i; cbn [reg_entries]; [done|].
  eapply holds_bind; [apply rd_cells_returns|intros ? _].
  eapply holds_bind with (P := fun _ => True); [test; [done|apply rd_cells_returns]|intros ? _].
  by eapply holds_bind; [apply IH|].
Qed.

Lemma bytes_eq_returns p l : holds False (bytes_eq blob p l) (fun _ => True).
Proof.
  revert p. induction l as [|y l IH]; intros p; cbn [bytes_eq]; [done|].
  eapply holds_bind; [by apply rd8_holds|]. intros x _. test; [apply IH|done].
Qed.

Lemma memory_node_returns ch max :
  0 <= ch -> holds False (memory_node blob c ch max) (fun _ => True).
Proof.
  intros. unfold memory_node.
  eapply holds_bind; [apply returns, node_name_holds; lia|]. intros [m|] _; [|done].
  eapply holds_bind with (P := fun _ => True).
  { unfold is_memory. test; [done|].
    eapply holds_bind; [apply bytes_eq_returns|intros ? _]. test; [done|]. test; [done|].
    by eapply holds_bind; [by apply rd8_holds|]. }
  intros r _. test; [done|].
  eapply holds_bind; [apply returns, parent_cells_holds|]. intros [[ac sc]|] _; [|done].
  eapply holds_bind; [apply returns, getprop_holds|]. intros [[p l]|] _; [|done].
  test; [done|]. test; [done|apply reg_entries_returns].
Qed.

Lemma memory_loop_returns fuel root ch max :
  ch = -1 \/ 0 <= ch <= len -> 0 < Z.of_nat fuel -> ch = -1 \/ len - ch < Z.of_nat fuel - 1 ->
  holds False (memory_loop fuel blob c root ch max) (fun _ => True).
Proof.
  revert ch max. induction fuel as [|fuel IH]; intros ch max Hs Hf Hm; [lia|cbn [memory_loop]].
  destruct (Z.eqb_spec ch FDT_ERR_NODE); [done|]. unfold FDT_ERR_NODE in *.
  eapply holds_bind; [apply memory_node_returns; lia|]. intros l _.
  eapply holds_bind; [apply returns, next_sibling_holds; lia|]. unfold found. intros nx Hx.
  by eapply holds_bind; [apply IH; lia|].
Qed.

Lemma memory_ranges_returns max : holds False (fdt_memory_ranges blob max) (fun _ => True).
Proof.
  unfold fdt_memory_ranges. rewrite with_ctx_eq.
  eapply holds_bind; [apply returns, root_ok_holds|]. intros r _. test; [done|].
  eapply holds_bind; [apply returns, first_child_holds|]. intros ch Hch. cbn in Hch.
  unfold fuel_of. apply memory_loop_returns; lia.
Qed.

Lemma reserved_loop_returns max off total :
  holds False (reserved_loop max blob off total) (fun _ => True).
Proof.
  revert off. induction max as [|max IH]; intros off; cbn [reserved_loop]; [done|].
  test; [done|].
  do 2 (eapply holds_bind; [apply rd_be64_returns|intros ? _]). test; [done|].
  by eapply holds_bind; [apply IH|].
Qed.

End walks.

(** ** The context of a blob *)

Lemma ctx_init_cases blob :
  Forall is_byte blob ->
  ctx_init blob = Oob \/ ctx_init blob = Ret None \/
  exists c, ctx_init blob = Ret (Some c) /\ 0 <= c_s c /\ 0 <= c_str c /\ c_str c <= c_strend c /\
    exists total, rd_be32 blob 4 = Ret total /\ c_send c <= total /\ c_strend c <= total.
Proof.
  intros Hb.
  assert (W : forall p, rd_be32 blob p = Oob \/ exists v, rd_be32 blob p = Ret v /\ 0 <= v < 2 ^ 32).
  { intros p. pose proof (rd_be32_holds False blob p ltac:(done)) as H.
    destruct (rd_be32 blob p); cbn in H; [right; eexists; split; [done|tauto]|by left|done]. }
  unfold ctx_init. case_bool_decide; [auto|].
  destruct (W 0) as [->|(magic & -> & _)]; [auto|cbn [mbind res_bind]]. case_match; [auto|].
  destruct (W 4) as [->|(total & E4 & ?)]; [auto|rewrite E4; cbn [mbind res_bind]].
  destruct (W 8) as [->|(os & -> & ?)]; [auto|cbn [mbind res_bind]].
  destruct (W 12) as [->|(ost & -> & ?)]; [auto|cbn [mbind res_bind]].
  destruct (W 32) as [->|(ss & -> & ?)]; [auto|cbn [mbind res_bind]].
  destruct (W 36) as [->|(sst & -> & ?)]; [auto|cbn [mbind res_bind]].
  destruct ((total <? os) || _) eqn:E1; [auto|]. apply orb_false_iff in E1 as [?%Z.ltb_ge ?%Z.ltb_ge].
  destruct ((total <? ost) || _) eqn:E2; [auto|]. apply orb_false_iff in E2 as [?%Z.ltb_ge ?%Z.ltb_ge].
  right; right. eexists. split; [done|]. cbn. split_and!; [lia..|]. exists total. split_and!; [done|lia|lia].
Qed.

(** ** Return and safety *)

(** A blob the reader is given: bytes, of a size an [int] can index. *)
Definition proper (blob : list Z) : Prop :=
  Forall is_byte blob /\ Z.of_nat (length blob) < 2 ^ 31.

#[global] Instance proper_dec blob : Decision (proper blob).
Proof. unfold proper, is_byte. apply _. Defined.

Definition answers {A} (m : res A) : Prop := exists v, m = Ret v.

Lemma holds_returns {A} safe (m : res A) Q : holds safe m Q -> m <> NoFuel.
Proof. by destruct m. Qed.

Lemma holds_answers {A} (safe : Prop) (m : res A) Q : safe -> holds safe m Q -> answers m.
Proof. destruct m; cbn; [by eexists|done|done]. Qed.

(** Without a context every operation returns at once. *)
Ltac no_ctx E :=
  unfold fdt_first_child, fdt_next_sibling, fdt_parent_offset, fdt_getprop, fdt_path_offset,
    fdt_parent_cells, fdt_is_enabled, fdt_next_child, fdt_reg_to_cpu_addr, fdt_memory_ranges,
    fdt_reserved_ranges, fdt_getprop, fdt_first_child, fdt_next_sibling, with_ctx;
  rewrite ?E; cbn; repeat (case_match; cbn); done.

(** C36: The walks of the reader end: on any blob of at most 2^31 - 1 bytes,
    however malformed, the child, sibling, parent, property, path, cell count,
    address, memory and status queries run out of neither tokens nor loop
    rounds: they return, or read outside of the blob.  The search by compatible
    string is not one of them ([compatible_search_diverges]). *)
Theorem fdt_walks_return blob :
  proper blob ->
  (forall off, fdt_first_child blob off <> NoFuel) /\
  (forall parent prev, fdt_next_sibling blob parent prev <> NoFuel) /\
  (forall off, fdt_parent_offset blob off <> NoFuel) /\
  (forall off name, fdt_getprop blob off name <> NoFuel) /\
  (forall path, fdt_path_offset blob path <> NoFuel) /\
  (forall off, fdt_parent_cells blob off <> NoFuel) /\
  (forall off i, fdt_reg_to_cpu_addr blob off i <> NoFuel) /\
  (forall max, fdt_memory_ranges blob max <> NoFuel) /\
  (forall parent cursor, fdt_next_child blob parent cursor <> NoFuel) /\
  (forall off, fdt_is_enabled blob off <> NoFuel).
Proof.
  intros [Hb Hl]. destruct (ctx_init_cases blob Hb) as [E|[E|(c & E & Hs & _)]].
  1, 2: split_and!; intros; no_ctx E.
  split_and!; intros; eapply holds_returns;
    eauto using first_child_holds, next_sibling_any_holds, parent_offset_holds, getprop_holds,
      path_offset_holds, parent_cells_holds, reg_to_cpu_addr_returns, memory_ranges_returns,
      next_child_holds, is_enabled_holds.
Qed.

Lemma search_loop_safe blob c fuel compatible prev stack depth :
  proper blob -> ctx_init blob = Ret (Some c) -> roomy blob c -> path_ok blob stack depth ->
  search_loop fuel blob compatible prev stack depth <> Oob.
Proof.
  intros [Hb Hl] E R. revert stack depth.
  induction fuel as [|fuel IH]; intros stack depth Hp; [done|cbn [search_loop]].
  pose proof (search_step_holds blob c Hl E (r_struct _ _ R) compatible prev stack depth Hp) as H.
  destruct (search_step blob compatible prev stack depth) as [[?|[s d]]| |]; cbn in H |- *; [done| |done|done].
  by apply IH, H.
Qed.

Lemma search_safe blob c fuel compatible prev :
  proper blob -> ctx_init blob = Ret (Some c) -> roomy blob c ->
  fdt_next_node_by_compatible_offset fuel blob compatible prev <> Oob.
Proof.
  intros [Hb Hl] E R. unfold fdt_next_node_by_compatible_offset. rewrite (with_ctx_eq blob c E).
  pose proof (root_ok_holds blob c (r_struct _ _ R)) as H.
  destruct (root_ok blob c) as [[|]| |]; cbn in H |- *; [|done|by destruct (H R)|done].
  specialize (H eq_refl). apply (search_loop_safe blob c); [done..|].
  pose proof (r_struct _ _ R). split_and!; [apply Nat.lt_0_succ|done|].
  intros i Hi. assert (i = 0%nat) as -> by lia. cbn. rewrite off_of_small; lia.
Qed.

(** Room behind the structure block, and a terminator for its last string. *)
Definition room_behind (blob : list Z) : bool :=
  match ctx_init blob with
  | Ret (Some c) => (c_send c + 8 <=? Z.of_nat (length blob)) && bool_decide (last blob = Some 0)
  | _ => false
  end.

Lemma valid_roomy blob :
  proper blob -> fdt_valid blob (Z.of_nat (length blob)) = Ret true -> room_behind blob = true ->
  exists c, ctx_init blob = Ret (Some c) /\ roomy blob c /\
    exists total, rd_be32 blob 4 = Ret total /\ total <= Z.of_nat (length blob).
Proof.
  intros [Hb Hl] Hv Hr. unfold room_behind in Hr.
  destruct (ctx_init_cases blob Hb) as [E|[E|(c & E & ? & ? & ? & total & E4 & ? & ?)]]; rewrite E in Hr;
    [done|done|].
  apply andb_true_iff in Hr as [Hroom%Z.leb_le Hlast%bool_decide_eq_true].
  assert (total <= Z.of_nat (length blob)).
  { unfold fdt_valid in Hv. destruct (bool_decide (blob = []) || _); [done|].
    destruct (rd_be32 blob 0); [|done|done]. cbn [mbind res_bind] in Hv.
    destruct (negb _); [done|]. rewrite E4 in Hv. cbn [mbind res_bind] in Hv.
    destruct (Z.ltb_spec (Z.of_nat (length blob)) total); [done|lia]. }
  exists c. split_and!; [done| |eauto]. split; [done|lia|done|lia|lia|done].
Qed.

Lemma rd_be64_safe blob p :
  0 <= p -> p + 8 <= Z.of_nat (length blob) -> holds True (rd_be64 blob p) (fun _ => True).
Proof. intros. unfold rd_be64. read; [lia|]. by read; [lia|]. Qed.

Lemma reserved_loop_safe blob max off total :
  0 <= off -> total <= Z.of_nat (length blob) -> holds True (reserved_loop max blob off total) (fun _ => True).
Proof.
  intros Ho Ht. revert off Ho. induction max as [|max IH]; intros off Ho; cbn [reserved_loop]; [done|].
  destruct ((total <? off) || _) eqn:E; [done|]. apply orb_false_iff in E as [?%Z.ltb_ge ?%Z.ltb_ge].
  eapply holds_bind; [apply rd_be64_safe; lia|intros a _].
  eapply holds_bind; [apply rd_be64_safe; lia|intros b _]. test; [done|].
  eapply holds_bind; [apply IH, Z.mod_pos_bound; lia|done].
Qed.

Lemma reserved_ranges_safe blob c max total :
  proper blob -> ctx_init blob = Ret (Some c) -> 40 <= Z.of_nat (length blob) ->
  rd_be32 blob 4 = Ret total -> total <= Z.of_nat (length blob) ->
  holds True (fdt_reserved_ranges blob max) (fun _ => True).
Proof.
  intros [Hb _] E Hl E4 Ht. unfold fdt_reserved_ranges. rewrite (with_ctx_eq blob c E).
  read; [lia|]. rewrite E4. cbn [mbind res_bind].
  apply reserved_loop_safe; [tauto|done].
Qed.


Lemma demo_proper : proper demo_blob.
Proof. apply (bool_decide_unpack _). vm_compute. exact I. Qed.

Lemma fdt_walks_return_witness :
  proper demo_blob /\ fdt_first_child demo_blob 56 <> NoFuel /\ fdt_first_child demo_blob 56 = Ret 96.
Proof.
  split; [apply demo_proper|]. split; [|vm_compute; reflexivity].
  destruct (fdt_walks_return demo_blob demo_proper) as [H _]. apply H.
Defined.

