(* ===== verification/FdtRoundtrip.v ===== *)
(** * Reading back a flattened tree

    [flatten] writes a tree as a blob; the theorems here say that the queries
    of lib/fdt.c find in it what the tree has: children, siblings, parents,
    properties and paths. *)

From S2P Require Import Prelude Fdt FdtTree FdtSafe.

(** ** Bytes at an offset *)

Definition here (blob : list Z) (p : Z) (bs : list Z) : Prop :=
  exists pre post, blob = pre ++ bs ++ post /\ p = Z.of_nat (length pre).

Lemma here_app blob p a b :
  here blob p (a ++ b) <-> here blob p a /\ here blob (p + Z.of_nat (length a)) b.
Proof.
  split.
  - intros (pre & post & -> & ->). split.
    + exists pre, (b ++ post). by rewrite <- app_assoc.
    + exists (pre ++ a), post. rewrite length_app, <- !app_assoc. split; [done|lia].
  - intros [(pre & post & -> & ->) (pre' & post' & E & Hp)].
    assert (pre' = pre ++ a) as ->.
    { rewrite (app_assoc pre a post) in E. apply app_inj_1 in E as [-> _]; [done|].
      rewrite length_app. lia. }
    rewrite <- !app_assoc in E. apply app_inv_head, app_inv_head in E as ->.
    exists pre, post'. by rewrite <- app_assoc.
Qed.

Lemma here_bound blob p bs : here blob p bs -> 0 <= p /\ p + Z.of_nat (length bs) <= Z.of_nat (length blob).
Proof. intros (pre & post & -> & ->). rewrite !length_app. lia. Qed.

Lemma here_cons blob p x bs : here blob p (x :: bs) <-> rd8 blob p = Ret x /\ here blob (p + 1) bs.
Proof.
  rewrite (here_app blob p [x] bs). cbn. apply and_iff_compat_r. split.
  - intros (pre & post & -> & ->).
    destruct (rd8_cases (pre ++ [x] ++ post) (Z.of_nat (length pre))) as [(y & -> & E & _)|[_ H]].
    + rewrite Nat2Z.id, lookup_app_r, Nat.sub_diag in E by lia. by injection E as ->.
    + rewrite !length_app in H. cbn in H. lia.
  - destruct (rd8_cases blob p) as [(y & -> & E & ?)|[-> _]]; [|done].
    intros [= ->]. exists (take (Z.to_nat p) blob), (drop (S (Z.to_nat p)) blob). split.
    + cbn. by rewrite take_drop_middle.
    + rewrite length_take. lia.
Qed.

Lemma lor_byte hi lo : 0 <= lo < 256 -> Z.lor (Z.shiftl hi 8) lo = hi * 256 + lo.
Proof.
  intros Hlo. pose proof (Z.add_lor_land (Z.shiftl hi 8) lo) as E.
  assert (Z.land (Z.shiftl hi 8) lo = 0) as H0.
  { apply Z.bits_inj'. intros i Hi. rewrite Z.land_spec, Z.bits_0, Z.shiftl_spec by lia.
    destruct (Z.ltb_spec i 8); [by rewrite Z.testbit_neg_r by lia|].
    replace lo with (lo mod 2 ^ 8) by (apply Z.mod_small; lia).
    rewrite (Z.mod_pow2_bits_high lo 8 i) by lia. apply andb_false_r. }
  rewrite Z.shiftl_mul_pow2 in * by lia. lia.
Qed.

Lemma rd_be32_here blob p v : 0 <= v < 2 ^ 32 -> here blob p (be32 v) -> rd_be32 blob p = Ret v.
Proof.
  intros Hv H. unfold be32 in H. apply here_cons in H as [E0 H]. apply here_cons in H as [E1 H].
  apply here_cons in H as [E2 H]. apply here_cons in H as [E3 _].
  replace (p + 1 + 1) with (p + 2) in * by lia. replace (p + 2 + 1) with (p + 3) in * by lia.
  unfold rd_be32. rewrite E0. cbn [mbind res_bind]. rewrite E1. cbn [mbind res_bind].
  rewrite E2. cbn [mbind res_bind]. rewrite E3. cbn [mbind res_bind]. f_equal.
  clear - Hv.
  assert (S3 : forall a, Z.shiftl a 24 = Z.shiftl (Z.shiftl (Z.shiftl a 8) 8) 8)
    by (intros; by rewrite !Z.shiftl_shiftl by lia).
  assert (S2 : forall a, Z.shiftl a 16 = Z.shiftl (Z.shiftl a 8) 8)
    by (intros; by rewrite !Z.shiftl_shiftl by lia).
  rewrite S3, S2, <- !Z.shiftl_lor.
  pose proof (Z.mod_pos_bound v 256). pose proof (Z.mod_pos_bound (v / 256) 256).
  pose proof (Z.mod_pos_bound (v / 65536) 256). pose proof (Z.mod_pos_bound (v / 16777216) 256).
  change (2 ^ 8) with 256. change (2 ^ 16) with 65536. change (2 ^ 24) with 16777216.
  rewrite !lor_byte by lia.
  Z.div_mod_to_equations. lia.
Qed.

Lemma length_be32 v : length (be32 v) = 4%nat.
Proof. done. Qed.

(** ** Padding *)

Lemma align4_eq v : 0 <= v -> v + 3 < 2 ^ 32 -> align4 v = 4 * ((v + 3) / 4).
Proof.
  intros. unfold align4, u32. rewrite (Z.mod_small (v + 3)) by lia.
  change 0xFFFFFFFC with (Z.shiftl (Z.ones 30) 2). rewrite align_down by lia. done.
Qed.

Lemma length_pad4 bs : Z.of_nat (length bs) + 3 < 2 ^ 32 ->
  Z.of_nat (length (pad4 bs)) = align4 (Z.of_nat (length bs)).
Proof.
  intros. rewrite align4_eq by lia. unfold pad4. rewrite length_app, length_replicate.
  Z.div_mod_to_equations. lia.
Qed.

Lemma pad4_longer bs : Z.of_nat (length bs) <= Z.of_nat (length (pad4 bs)).
Proof. unfold pad4. rewrite length_app. lia. Qed.

Section read_back.
Context (blob : list Z) (c : ctx_t).
Hypothesis small : Z.of_nat (length blob) < 2 ^ 31.
Abbreviation len := (Z.of_nat (length blob)).
Abbreviation size bs := (Z.of_nat (length bs)).

(** Bytes in the structure block. *)
Definition inside (p : Z) (bs : list Z) : Prop :=
  c_s c <= p /\ p + size bs <= c_send c /\ here blob p bs.

Lemma inside_app p a b : inside p (a ++ b) <-> inside p a /\ inside (p + size a) b.
Proof. unfold inside. rewrite here_app, length_app. split; intros; destruct_and?; split_and!; auto; lia. Qed.

Lemma inside_ok p bs n : inside p bs -> n <= size bs -> ok c p n = true.
Proof. intros (? & ? & ?) ?. apply ok_true. lia. Qed.

Lemma rd_token p v : 0 <= v < 2 ^ 32 -> inside p (be32 v) -> rd_be32 blob p = Ret v.
Proof. intros ? (_ & _ & ?). by apply rd_be32_here. Qed.

Lemma name_loop_reads fuel p n rest :
  0 <= n -> inside (p + n) (rest ++ [0]) -> forallb (fun x => (0 <? x) && (x <? 256)) rest = true ->
  (length rest < fuel)%nat -> name_loop fuel blob c p n = Ret (n + size rest).
Proof.
  revert n rest. induction fuel as [|fuel IH]; intros n rest Hn Hin Hz Hf; [lia|cbn [name_loop]].
  rewrite (inside_ok _ _ 1 Hin) by (rewrite length_app; cbn; lia).
  pose proof Hin as (_ & _ & Hh). destruct rest as [|x rest].
  - apply here_cons in Hh as [-> _]. cbn. f_equal. lia.
  - cbn in Hh, Hz, Hf. apply here_cons in Hh as [-> _]. cbn [mbind res_bind].
    apply andb_true_iff in Hz as [Hx Hz]. destruct (Z.eqb_spec x 0); [subst; done|].
    rewrite (IH (n + 1) rest); [f_equal; cbn; lia|lia| |done|lia].
    change ((x :: rest) ++ [0]) with ([x] ++ (rest ++ [0])) in Hin.
    apply inside_app in Hin as [_ Hin]. by rewrite Z.add_assoc.
Qed.

Lemma node_name_reads p name :
  inside p (name ++ [0]) -> forallb (fun x => (0 <? x) && (x <? 256)) name = true ->
  node_name blob c p = Ret (Some (size name)).
Proof.
  intros Hin Hz. pose proof Hin as (_ & _ & Hh). apply here_bound in Hh. rewrite length_app in Hh. cbn in Hh.
  unfold node_name, fuel_of. rewrite (name_loop_reads _ p 0 name); [|lia|by rewrite Z.add_0_r|done|lia].
  rewrite Z.add_0_l. cbn [mbind res_bind].
  apply inside_app in Hin as [_ Hin]. by rewrite (inside_ok _ _ 1 Hin).
Qed.

(** ** Tokens *)

Lemma inside_small p bs : inside p bs -> size bs < 2 ^ 31 /\ 0 <= p /\ p + size bs < 2 ^ 31.
Proof. intros (_ & _ & H). apply here_bound in H. lia. Qed.

(** What a loop finds at a BEGIN_NODE. *)
Definition begins (p : Z) (name : list Z) : Prop :=
  ok c p 4 = true /\ rd_be32 blob p = Ret FDT_BEGIN_NODE /\
  node_name blob c (p + 4) = Ret (Some (size name)) /\
  4 + align4 (u32 (size name + 1)) = size (be32 FDT_BEGIN_NODE ++ pad4 (name ++ [0])).

Lemma begin_reads p name :
  inside p (be32 FDT_BEGIN_NODE ++ pad4 (name ++ [0])) ->
  forallb (fun x => (0 <? x) && (x <? 256)) name = true -> begins p name.
Proof.
  intros Hin Hz. pose proof (inside_small _ _ Hin) as Hs. rewrite length_app in Hs. unfold begins.
  assert (Hn1 : length (name ++ [0]) = S (length name)) by (rewrite length_app; cbn; lia).
  pose proof (pad4_longer (name ++ [0])) as Hl.
  rewrite length_app, length_be32, Nat2Z.inj_add, length_pad4, Hn1 by lia.
  apply inside_app in Hin as [Hb Hn]. split_and!.
  - by apply (inside_ok _ _ _ Hb).
  - by apply rd_token.
  - unfold pad4 in Hn. apply inside_app in Hn as [Hn _]. by apply node_name_reads.
  - unfold u32. rewrite Z.mod_small by lia. f_equal. f_equal. lia.
Qed.

(** What a loop finds at a PROP. *)
Definition has_prop (p : Z) (pr : Z * list Z) : Prop :=
  ok c p 4 = true /\ rd_be32 blob p = Ret FDT_PROP /\
  ok c p 8 = true /\ ok c (p + 4) 8 = true /\
  rd_be32 blob (p + 4) = Ret (size (snd pr)) /\
  rd_be32 blob (p + 8) = Ret (fst pr) /\
  ok c (p + 12) (size (snd pr)) = true /\ inside (p + 12) (snd pr) /\
  12 + align4 (size (snd pr)) = size (flat_prop pr).

Lemma prop_reads strings p pr :
  strings < 2 ^ 32 -> inside p (flat_prop pr) -> (0 <=? fst pr) && (fst pr <? strings) = true ->
  has_prop p pr.
Proof.
  intros Hst Hin Hw. apply andb_true_iff in Hw as [?%Z.leb_le ?%Z.ltb_lt].
  pose proof (inside_small _ _ Hin) as Hs. unfold has_prop.
  pose proof (pad4_longer (snd pr)) as Hpad.
  pose proof Hin as Hin'. unfold flat_prop in *. rewrite !length_app, !length_be32 in *.
  apply inside_app in Hin as [Ht Hin]. apply inside_app in Hin as [H4 Hin].
  apply inside_app in Hin as [H8 Hin]. unfold pad4 in Hin. apply inside_app in Hin as [Hv _].
  rewrite !length_be32 in *.
  replace (p + Z.of_nat 4 + Z.of_nat 4 + Z.of_nat 4) with (p + 12) in Hv by lia.
  replace (p + Z.of_nat 4 + Z.of_nat 4) with (p + 8) in H8 by lia.
  replace (p + Z.of_nat 4) with (p + 4) in H4 by lia.
  split_and!; try done.
  - by apply (inside_ok _ _ _ Ht).
  - by apply rd_token.
  - apply ok_true. unfold inside in *. cbn in H8. lia.
  - apply ok_true. unfold inside in *. cbn in H8. lia.
  - apply rd_token; [lia|done].
  - apply rd_token; [lia|done].
  - by apply (inside_ok _ _ _ Hv).
  - rewrite <- length_pad4 by lia. lia.
Qed.

(** ** Passing over a node *)

Context (strings : Z).
Hypothesis strings_small : strings < 2 ^ 32.

Abbreviation flat_props ps := (concat (flat_prop <$> ps)).
Abbreviation flat_nodes ts := (concat (flat_node <$> ts)).
Abbreviation wf_props := (forallb (fun p : Z * list Z => (0 <=? fst p) && (fst p <? strings))).

Definition sum_tokens (ts : list dnode) : nat := foldr (fun t n => (tokens t + n)%nat) 0%nat ts.

Lemma tokens_eq name props children :
  tokens (DNode name props children) = S (length props + (sum_tokens children + 1)).
Proof.
  cbn. do 2 f_equal. induction children as [|t ts IH]; cbn; [done|]. unfold sum_tokens in *. cbn. lia.
Qed.

(** The three parts of a node: its head, its children, its end. *)
Lemma node_parts p name props children :
  inside p (flat_node (DNode name props children)) ->
  wf_node strings (DNode name props children) = true ->
  let q := p + size (be32 FDT_BEGIN_NODE ++ pad4 (name ++ [0])) in
  let r := p + size (flat_head name props) in
  let s := r + size (flat_nodes children) in
  begins p name /\ inside q (flat_props props) /\ wf_props props = true /\ r = q + size (flat_props props) /\
  inside r (flat_nodes children) /\ forallb (wf_node strings) children = true /\
  ok c s 4 = true /\ rd_be32 blob s = Ret FDT_END_NODE /\
  s + 4 = p + size (flat_node (DNode name props children)).
Proof.
  intros Hin Hw. cbn in Hw. apply andb_true_iff in Hw as [Hw Hch]. apply andb_true_iff in Hw as [Hn Hp].
  cbn [flat_node] in *. apply inside_app in Hin as [Hh Hin]. apply inside_app in Hin as [Hc He].
  unfold flat_head in Hh. rewrite app_assoc in Hh. apply inside_app in Hh as [Hb Hpr].
  cbv zeta. split_and!; try done.
  - by apply begin_reads.
  - unfold flat_head. rewrite app_assoc, (length_app (_ ++ _) (concat _)). lia.
  - by apply (inside_ok _ _ _ He).
  - by apply rd_token.
  - rewrite (length_app (flat_head _ _)), length_app, length_be32. lia.
Qed.

Lemma skip_props fuel q d ps :
  inside q (flat_props ps) -> wf_props ps = true ->
  skip_loop (length ps + fuel) blob c q d = skip_loop fuel blob c (q + size (flat_props ps)) d.
Proof.
  revert q. induction ps as [|pr ps IH]; intros q Hin Hw; [cbn; by rewrite Z.add_0_r|].
  cbn [fmap list_fmap concat] in *. cbn in Hw. apply andb_true_iff in Hw as [Hp Hw].
  apply inside_app in Hin as [Hpr Hin].
  destruct (prop_reads _ _ _ strings_small Hpr Hp) as (E1 & E2 & E3 & E4 & E5 & E6 & E7 & _ & E8).
  cbn [length Nat.add skip_loop]. rewrite E1, E2. cbn [negb mbind res_bind].
  change (FDT_PROP =? FDT_BEGIN_NODE) with false. change (FDT_PROP =? FDT_END_NODE) with false.
  change (FDT_PROP =? FDT_PROP) with true. cbv iota. rewrite E4, E5. cbn [negb mbind res_bind].
  replace (q + 4 + 8) with (q + 12) by lia. rewrite E7. cbn [negb].
  replace (q + 12 + align4 (size (snd pr))) with (q + size (flat_prop pr)) by lia.
  rewrite IH by done. f_equal. rewrite length_app. lia.
Qed.

Lemma skip_tree t fuel p d :
  inside p (flat_node t) -> wf_node strings t = true -> 0 <= d ->
  skip_loop (tokens t + fuel) blob c p d =
  if d =? 0 then Ret (p + size (flat_node t)) else skip_loop fuel blob c (p + size (flat_node t)) d.
Proof.
  revert fuel p d. induction t as [name props children IH] using dnode_ind'. intros fuel p d Hin Hw Hd.
  pose proof (inside_small _ _ Hin) as Hs.
  destruct (node_parts _ _ _ _ Hin Hw) as ((E1 & E2 & E3 & E4) & Hp & Hwp & Er & Hc & Hwc & E5 & E6 & E7).
  set (r := p + size (flat_head name props)) in *.
  rewrite tokens_eq. cbn [Nat.add skip_loop]. rewrite E1, E2. cbn [negb mbind res_bind].
  change (FDT_BEGIN_NODE =? FDT_BEGIN_NODE) with true. cbv iota. rewrite E3. cbn [mbind res_bind].
  rewrite <- Nat.add_assoc. replace (p + 4 + align4 _) with (p + size (be32 FDT_BEGIN_NODE ++ pad4 (name ++ [0]))) by lia.
  rewrite skip_props by done. rewrite <- Er, <- Nat.add_assoc.
  assert (Hkids : forall ts fu q, Forall (fun t => forall fuel p d, inside p (flat_node t) -> wf_node strings t = true ->
        0 <= d -> skip_loop (tokens t + fuel) blob c p d =
        if d =? 0 then Ret (p + size (flat_node t)) else skip_loop fuel blob c (p + size (flat_node t)) d) ts ->
      inside q (flat_nodes ts) -> forallb (wf_node strings) ts = true ->
      skip_loop (sum_tokens ts + fu) blob c q (d + 1) = skip_loop fu blob c (q + size (flat_nodes ts)) (d + 1)).
  { clear - Hd small. induction ts as [|t ts IHts]; intros fu q Hall Hin Hw; [cbn; by rewrite Z.add_0_r|].
    cbn in Hin, Hw. apply inside_app in Hin as [Ht Hin]. apply andb_true_iff in Hw as [Hwt Hw].
    inversion_clear Hall as [|? ? IHt Hall']. unfold sum_tokens. cbn [foldr]. rewrite <- Nat.add_assoc.
    rewrite IHt by (done || lia). destruct (Z.eqb_spec (d + 1) 0); [lia|].
    etransitivity; [apply IHts; done|]. cbn. f_equal. rewrite length_app. lia. }
  rewrite Hkids by done. cbn [Nat.add skip_loop]. rewrite E5, E6. cbn [negb mbind res_bind].
  change (FDT_END_NODE =? FDT_BEGIN_NODE) with false. change (FDT_END_NODE =? FDT_END_NODE) with true. cbv iota.
  replace (d + 1 - 1) with d by lia. rewrite E7.
  destruct (Z.eqb_spec d 0), (Z.leb_spec d 0); try lia; [|done].
  rewrite off_of_small by lia. done.
Qed.

Lemma tokens_fit t : (tokens t <= length (flat_node t))%nat.
Proof.
  induction t as [name props children IH] using dnode_ind'. rewrite tokens_eq. cbn [flat_node].
  unfold flat_head. rewrite !length_app, !length_be32.
  assert (length props <= length (flat_props props))%nat.
  { clear. induction props as [|pr ps IH]; cbn; [lia|]. rewrite length_app. lia. }
  assert (sum_tokens children <= length (flat_nodes children))%nat.
  { clear -IH. induction IH as [|t ts]; cbn; [lia|]. rewrite length_app. unfold sum_tokens in *. lia. }
  lia.
Qed.

Lemma fuel_splits t p : inside p (flat_node t) -> exists k, fuel_of blob = (tokens t + S k)%nat.
Proof.
  intros (_ & _ & H). apply here_bound in H. pose proof (tokens_fit t). unfold fuel_of.
  exists (length blob - tokens t)%nat. lia.
Qed.

Lemma skip_node_reads t p :
  inside p (flat_node t) -> wf_node strings t = true ->
  skip_node blob c p = Ret (p + size (flat_node t)).
Proof.
  intros Hin Hw. destruct (fuel_splits t p Hin) as [k Hk]. unfold skip_node. rewrite Hk.
  by rewrite skip_tree.
Qed.

(** ** Parents *)

(** [parent_loop]'s stack changes only above the depth it is at. *)
Definition keeps (d : Z) (s s' : list Z) : Prop :=
  length s' = length s /\ forall i, Z.of_nat i <= d -> s' !!? i = s !!? i.

Lemma keeps_trans d s1 s2 s3 : keeps d s1 s2 -> keeps d s2 s3 -> keeps d s1 s3.
Proof. intros [? H1] [? H2]. split; [lia|]. intros. by rewrite H2, H1. Qed.

Lemma keeps_less d d' s s' : d <= d' -> keeps d' s s' -> keeps d s s'.
Proof. intros ? [? H]. split; [done|]. intros. apply H. lia. Qed.

Lemma parent_props fuel n s q d ps :
  inside q (flat_props ps) -> wf_props ps = true ->
  parent_loop (length ps + fuel) blob c n s q d = parent_loop fuel blob c n s (q + size (flat_props ps)) d.
Proof.
  revert q. induction ps as [|pr ps IH]; intros q Hin Hw; [cbn; by rewrite Z.add_0_r|].
  cbn [fmap list_fmap concat] in *. cbn in Hw. apply andb_true_iff in Hw as [Hp Hw].
  apply inside_app in Hin as [Hpr Hin].
  destruct (prop_reads _ _ _ strings_small Hpr Hp) as (E1 & E2 & E3 & E4 & E5 & E6 & E7 & _ & E8).
  cbn [length Nat.add parent_loop]. rewrite E1, E2. cbn [negb mbind res_bind].
  change (FDT_PROP =? FDT_BEGIN_NODE) with false. change (FDT_PROP =? FDT_END_NODE) with false.
  change (FDT_PROP =? FDT_PROP) with true. cbv iota. rewrite E5. cbn [negb mbind res_bind].
  replace (q + 4 + 8) with (q + 12) by lia. rewrite E7. cbn [negb].
  replace (q + 12 + align4 (size (snd pr))) with (q + size (flat_prop pr)) by lia.
  rewrite IH by done. f_equal. rewrite length_app. lia.
Qed.

(** The stack at a BEGIN_NODE at [p], entered from depth [d]. *)
Definition pushed (s : list Z) (p d : Z) : list Z :=
  if d + 1 <? Z.of_nat FDT_MAX_DEPTH then <[Z.to_nat (d + 1) := p]> s else s.

Lemma pushed_keeps s p d : -1 <= d -> keeps d s (pushed s p d).
Proof.
  intros. unfold pushed. case_match; [|done]. split; [by rewrite length_insert|].
  intros i Hi. rewrite nth_insert_ne by lia. done.
Qed.

(** From a node's BEGIN_NODE to its first child, when it is not the target. *)
Lemma parent_enter fuel n s p d name props children :
  inside p (flat_node (DNode name props children)) ->
  wf_node strings (DNode name props children) = true -> p <> n ->
  parent_loop (S (length props + fuel)) blob c n s p d =
  parent_loop fuel blob c n (pushed s p d) (p + size (flat_head name props)) (d + 1).
Proof.
  intros Hin Hw Hn. pose proof (inside_small _ _ Hin) as Hs.
  destruct (node_parts _ _ _ _ Hin Hw) as ((E1 & E2 & E3 & E4) & Hp & Hwp & Er & _).
  cbn [parent_loop]. rewrite E1, E2. cbn [negb mbind res_bind].
  change (FDT_BEGIN_NODE =? FDT_BEGIN_NODE) with true. cbv iota. rewrite E3. cbn [mbind res_bind].
  rewrite off_of_small by lia. destruct (Z.eqb_spec p n); [done|].
  replace (p + 4 + align4 _) with (p + size (be32 FDT_BEGIN_NODE ++ pad4 (name ++ [0]))) by lia.
  rewrite parent_props by done. by rewrite <- Er.
Qed.

Definition passes (n : Z) (t : dnode) : Prop := forall fuel p d s,
  inside p (flat_node t) -> wf_node strings t = true -> 0 <= d -> n < p \/ p + size (flat_node t) <= n ->
  exists s', keeps d s s' /\
    parent_loop (tokens t + fuel) blob c n s p d = parent_loop fuel blob c n s' (p + size (flat_node t)) d.

Lemma parent_children n ts fuel q d s :
  Forall (passes n) ts -> inside q (flat_nodes ts) -> forallb (wf_node strings) ts = true -> 0 <= d ->
  n < q \/ q + size (flat_nodes ts) <= n ->
  exists s', keeps d s s' /\
    parent_loop (sum_tokens ts + fuel) blob c n s q d = parent_loop fuel blob c n s' (q + size (flat_nodes ts)) d.
Proof.
  revert q s. induction ts as [|t ts IH]; intros q s Hall Hin Hw Hd Hn.
  { exists s. cbn. by rewrite Z.add_0_r. }
  cbn in Hin, Hw, Hn. apply inside_app in Hin as [Ht Hin]. apply andb_true_iff in Hw as [Hwt Hw].
  rewrite length_app in Hn. inversion_clear Hall as [|? ? Hpt Hall'].
  destruct (Hpt (sum_tokens ts + fuel)%nat q d s Ht Hwt Hd ltac:(lia)) as (s1 & K1 & E1).
  destruct (IH (q + size (flat_node t)) s1 Hall' Hin Hw Hd ltac:(lia)) as (s2 & K2 & E2).
  exists s2. split; [by eapply keeps_trans|]. unfold sum_tokens. cbn [foldr]. rewrite <- Nat.add_assoc.
  fold (sum_tokens ts). rewrite E1, E2. cbn. f_equal. rewrite length_app. lia.
Qed.

Lemma parent_passes n t : passes n t.
Proof.
  induction t as [name props children IH] using dnode_ind'. intros fuel p d s Hin Hw Hd Hn.
  destruct (node_parts _ _ _ _ Hin Hw) as (_ & _ & _ & _ & Hc & Hwc & E5 & E6 & E7).
  rewrite tokens_eq. cbn [Nat.add]. rewrite <- Nat.add_assoc.
  rewrite (parent_enter _ n s p d name props children Hin Hw) by lia. rewrite <- Nat.add_assoc.
  destruct (parent_children n children (1 + fuel)%nat _ (d + 1) (pushed s p d) IH Hc Hwc) as (s' & K & E);
    [lia|lia|].
  exists s'. split.
  { eapply keeps_trans; [apply pushed_keeps; lia|eapply keeps_less; [|done]; lia]. }
  rewrite E. cbn [Nat.add parent_loop]. rewrite E5, E6. cbn [negb mbind res_bind].
  change (FDT_END_NODE =? FDT_BEGIN_NODE) with false. change (FDT_END_NODE =? FDT_END_NODE) with true. cbv iota.
  replace (d + 1 - 1) with d by lia. destruct (Z.ltb_spec d 0); [lia|]. by rewrite E7.
Qed.

Lemma sum_tokens_app l r : sum_tokens (l ++ r) = (sum_tokens l + sum_tokens r)%nat.
Proof. unfold sum_tokens. induction l; cbn; [done|]. lia. Qed.

Lemma child_inside p name props l u r :
  inside p (flat_node (DNode name props (l ++ u :: r))) ->
  wf_node strings (DNode name props (l ++ u :: r)) = true ->
  let o := p + size (flat_head name props) in
  inside o (flat_nodes l) /\ forallb (wf_node strings) l = true /\
  inside (o + size (flat_nodes l)) (flat_node u) /\ wf_node strings u = true /\
  p + 4 <= o.
Proof.
  intros Hin Hw. destruct (node_parts _ _ _ _ Hin Hw) as (_ & _ & _ & _ & Hc & Hwc & _).
  rewrite fmap_app, concat_app in Hc. apply inside_app in Hc as [Hl Hc]. cbn in Hc.
  apply inside_app in Hc as [Hu _]. rewrite forallb_app in Hwc. apply andb_true_iff in Hwc as [Hwl Hwc].
  cbn in Hwc. apply andb_true_iff in Hwc as [Hwu _]. cbv zeta. split_and!; try done.
  unfold flat_head. rewrite length_app, length_be32. lia.
Qed.

Lemma node_in_inside t o u o' d po :
  node_in t o u o' d po -> inside o (flat_node t) -> wf_node strings t = true ->
  inside o' (flat_node u) /\ wf_node strings u = true /\ o < o'.
Proof.
  induction 1 as [name props l u r o|name props l u r o t o' d po Hin' IH]; intros Hin Hw;
    destruct (child_inside _ _ _ _ _ _ Hin Hw) as (? & ? & Hu & Hwu & ?).
  - split_and!; [done|done|lia].
  - destruct (IH Hu Hwu) as (? & ? & ?). split_and!; [done|done|lia].
Qed.

(** Up to the child [u] of a node that is not the target. *)
Lemma parent_to_child fuel n s p d name props l u r :
  inside p (flat_node (DNode name props (l ++ u :: r))) ->
  wf_node strings (DNode name props (l ++ u :: r)) = true -> -1 <= d -> length s = FDT_MAX_DEPTH ->
  p + size (flat_head name props) + size (flat_nodes l) <= n ->
  exists s' fuel', length s' = FDT_MAX_DEPTH /\
    (d + 1 < Z.of_nat FDT_MAX_DEPTH -> s' !!? Z.to_nat (d + 1) = p) /\
    parent_loop (tokens (DNode name props (l ++ u :: r)) + fuel) blob c n s p d =
    parent_loop (tokens u + fuel') blob c n s' (p + size (flat_head name props) + size (flat_nodes l)) (d + 1).
Proof.
  intros Hin Hw Hd Hs Hn. destruct (child_inside _ _ _ _ _ _ Hin Hw) as (Hl & Hwl & Hu & Hwu & Hp).
  rewrite tokens_eq, sum_tokens_app. cbn [Nat.add]. rewrite <- Nat.add_assoc.
  rewrite (parent_enter _ n s p d name props (l ++ u :: r) Hin Hw) by lia.
  change (sum_tokens (u :: r)) with (tokens u + sum_tokens r)%nat.
  destruct (parent_children n l (tokens u + (sum_tokens r + 1 + fuel))%nat
    (p + size (flat_head name props)) (d + 1) (pushed s p d)) as (s' & [Hls' Hk] & E);
    [by apply Forall_forall; intros; apply parent_passes|done|done|lia|lia|].
  exists s', (sum_tokens r + 1 + fuel)%nat. split_and!.
  - rewrite Hls'. unfold pushed. case_match; [by rewrite length_insert|done].
  - intros Hlt. rewrite Hk by lia. unfold pushed. destruct (Z.ltb_spec (d + 1) (Z.of_nat FDT_MAX_DEPTH)); [|lia].
    apply nth_insert_eq. lia.
  - rewrite <- E. f_equal. lia.
Qed.

Lemma parent_finds t o u o' k po :
  node_in t o u o' k po -> inside o (flat_node t) -> wf_node strings t = true ->
  forall fuel s d, -1 <= d -> d + Z.of_nat k < Z.of_nat FDT_MAX_DEPTH -> length s = FDT_MAX_DEPTH ->
  parent_loop (tokens t + fuel) blob c o' s o d = Ret po.
Proof.
  induction 1 as [name props l u r o|name props l u r o t o' k po Hin' IH]; intros Hin Hw fuel s d Hd Hk Hs;
    destruct (child_inside _ _ _ _ _ _ Hin Hw) as (Hl & Hwl & Hu & Hwu & Hp).
  - destruct (parent_to_child fuel (o + size (flat_head name props) + size (flat_nodes l)) s o d
      name props l u r Hin Hw Hd Hs (Z.le_refl _)) as (s' & fuel' & Hs' & Hst & ->).
    set (o' := o + _ + _) in *. pose proof (inside_small _ _ Hu). destruct u as [un up uc].
    destruct (node_parts _ _ _ _ Hu Hwu) as ((E1 & E2 & E3 & E4) & _).
    rewrite tokens_eq. cbn [Nat.add parent_loop]. rewrite E1, E2. cbn [negb mbind res_bind].
    change (FDT_BEGIN_NODE =? FDT_BEGIN_NODE) with true. cbv iota. rewrite E3. cbn [mbind res_bind].
    rewrite off_of_small, Z.eqb_refl by lia.
    destruct (Z.leb_spec (d + 1 + 1) 0); [lia|].
    destruct (Z.leb_spec (Z.of_nat FDT_MAX_DEPTH) (d + 1 + 1 - 1)); [lia|]. cbn [orb].
    replace (d + 1 + 1 - 1) with (d + 1) by lia. f_equal.
    etransitivity; [|apply Hst; lia]. case_match; [|done]. apply nth_insert_ne. lia.
  - destruct (node_in_inside _ _ _ _ _ _ Hin' Hu Hwu) as (_ & _ & Hlt).
    destruct (parent_to_child fuel o' s o d name props l u r Hin Hw Hd Hs ltac:(lia))
      as (s' & fuel' & Hs' & _ & ->).
    apply IH; [done|done|lia|lia|done].
Qed.

(** ** Children and properties of a node *)

Lemma after_name_reads o name props children :
  inside o (flat_node (DNode name props children)) -> wf_node strings (DNode name props children) = true ->
  after_name blob c o = Ret (Some (o + size (be32 FDT_BEGIN_NODE ++ pad4 (name ++ [0])))).
Proof.
  intros Hin Hw. destruct (node_parts _ _ _ _ Hin Hw) as ((E1 & E2 & E3 & E4) & _).
  unfold after_name. rewrite E1, E2. cbn [negb mbind res_bind].
  change (negb (FDT_BEGIN_NODE =? FDT_BEGIN_NODE)) with false. cbv iota. rewrite E3. cbn [mbind res_bind].
  do 2 f_equal. lia.
Qed.

Lemma first_child_props fuel q ps :
  inside q (flat_props ps) -> wf_props ps = true ->
  first_child_loop (length ps + fuel) blob c q = first_child_loop fuel blob c (q + size (flat_props ps)).
Proof.
  revert q. induction ps as [|pr ps IH]; intros q Hin Hw; [cbn; by rewrite Z.add_0_r|].
  cbn [fmap list_fmap concat] in *. cbn in Hw. apply andb_true_iff in Hw as [Hp Hw].
  apply inside_app in Hin as [Hpr Hin].
  destruct (prop_reads _ _ _ strings_small Hpr Hp) as (E1 & E2 & E3 & E4 & E5 & E6 & E7 & _ & E8).
  cbn [length Nat.add first_child_loop]. rewrite E1, E2. cbn [negb mbind res_bind].
  change (FDT_PROP =? FDT_BEGIN_NODE) with false. change (FDT_PROP =? FDT_END_NODE) with false.
  change (FDT_PROP =? FDT_PROP) with true. cbv iota. rewrite E5. cbn [negb mbind res_bind].
  rewrite E7. cbn [negb].
  replace (q + 12 + align4 (size (snd pr))) with (q + size (flat_prop pr)) by lia.
  rewrite IH by done. f_equal. rewrite length_app. lia.
Qed.

(** What follows the properties: the first child or the node's end. *)
Definition next_token (q : Z) (ts : list dnode) : Prop :=
  ok c q 4 = true /\ rd_be32 blob q = Ret (match ts with [] => FDT_END_NODE | _ => FDT_BEGIN_NODE end).

Lemma next_token_of q ts :
  inside q (flat_nodes ts) -> forallb (wf_node strings) ts = true ->
  ok c (q + size (flat_nodes ts)) 4 = true -> rd_be32 blob (q + size (flat_nodes ts)) = Ret FDT_END_NODE ->
  next_token q ts.
Proof.
  intros Hin Hw E1 E2. destruct ts as [|[name props children] ts]; [cbn in E1, E2|].
  - rewrite Z.add_0_r in *. done.
  - cbn [fmap list_fmap concat] in Hin. apply inside_app in Hin as [Ht _]. cbn [forallb] in Hw.
    apply andb_true_iff in Hw as [Hw _].
    destruct (node_parts _ _ _ _ Ht Hw) as ((? & ? & _) & _). done.
Qed.

Lemma prop_fuel (ps : list (Z * list Z)) q : inside q (flat_props ps) -> exists k, fuel_of blob = (length ps + S k)%nat.
Proof.
  intros (_ & _ & H). apply here_bound in H. unfold fuel_of.
  assert (length ps <= length (flat_props ps))%nat.
  { clear. induction ps as [|pr ps IH]; cbn; [lia|]. rewrite length_app. lia. }
  exists (length blob - length ps)%nat. lia.
Qed.

Hypothesis ctx : ctx_init blob = Ret (Some c).

Lemma first_child_reads o name props children :
  inside o (flat_node (DNode name props children)) -> wf_node strings (DNode name props children) = true ->
  fdt_first_child blob o =
  Ret (match children with [] => FDT_ERR_NODE | _ => o + size (flat_head name props) end).
Proof.
  intros Hin Hw. unfold fdt_first_child. rewrite (with_ctx_eq blob c ctx).
  rewrite (after_name_reads _ _ _ _ Hin Hw). cbn [mbind res_bind].
  destruct (node_parts _ _ _ _ Hin Hw) as (_ & Hp & Hwp & Er & Hc & Hwc & E5 & E6 & _).
  destruct (prop_fuel _ _ Hp) as [k ->]. rewrite first_child_props, <- Er by done.
  destruct (next_token_of _ _ Hc Hwc E5 E6) as [E1 E2].
  pose proof (inside_small _ _ Hc). cbn [first_child_loop]. rewrite E1, E2. cbn [negb mbind res_bind].
  destruct children; [done|]. change (FDT_BEGIN_NODE =? FDT_BEGIN_NODE) with true. cbv iota.
  rewrite off_of_small by lia. done.
Qed.

(** ** Parents and siblings *)

Context (root : dnode).
Hypothesis root_inside : inside (c_s c) (flat_node root).
Hypothesis root_wf : wf_node strings root = true.

Lemma parent_offset_reads u o d po :
  node_in root (c_s c) u o d po -> (d <= FDT_MAX_DEPTH)%nat -> fdt_parent_offset blob o = Ret po.
Proof.
  intros Hin Hd. unfold fdt_parent_offset. rewrite (with_ctx_eq blob c ctx).
  destruct (fuel_splits _ _ root_inside) as [k ->].
  eapply parent_finds; [done|done|done|lia|lia|by rewrite length_replicate].
Qed.

Lemma node_at_inside t o d : node_at root (c_s c) t o d -> inside o (flat_node t) /\ wf_node strings t = true.
Proof.
  intros [|? ? ? ? H]; [done|]. by destruct (node_in_inside _ _ _ _ _ _ H root_inside root_wf) as (? & ? & _).
Qed.

Lemma node_in_child t o u o' d po :
  node_in t o u o' d po -> forall name props l v r, u = DNode name props (l ++ v :: r) ->
  node_in t o v (o' + size (flat_head name props) + size (flat_nodes l)) (S d) o'.
Proof.
  induction 1; intros ? ? ? ? ? ->.
  - apply in_deeper, in_child.
  - apply in_deeper. eauto.
Qed.

Lemma node_at_child o d name props l v r :
  node_at root (c_s c) (DNode name props (l ++ v :: r)) o d ->
  node_in root (c_s c) v (o + size (flat_head name props) + size (flat_nodes l)) (S d) o.
Proof.
  inversion 1 as [E|? ? ? ? Hin]; subst.
  - apply in_child.
  - by eapply node_in_child.
Qed.

Lemma next_sibling_reads o d name props l v r :
  node_at root (c_s c) (DNode name props (l ++ v :: r)) o d -> (d < FDT_MAX_DEPTH)%nat ->
  let ov := o + size (flat_head name props) + size (flat_nodes l) in
  fdt_next_sibling blob o ov =
  Ret (match r with [] => FDT_ERR_NODE | _ => ov + size (flat_node v) end).
Proof.
  intros Hat Hd ov. pose proof (node_at_child _ _ _ _ _ _ _ Hat) as Hin. fold ov in Hin.
  destruct (node_in_inside _ _ _ _ _ _ Hin root_inside root_wf) as (Hv & Hwv & _).
  unfold fdt_next_sibling. rewrite (with_ctx_eq blob c ctx).
  rewrite (parent_offset_reads _ _ _ _ Hin) by lia. cbn [mbind res_bind]. rewrite Z.eqb_refl. cbn [negb].
  rewrite (skip_node_reads _ _ Hv Hwv). cbn [mbind res_bind].
  pose proof (inside_small _ _ Hv). destruct (Z.ltb_spec (ov + size (flat_node v)) 0); [lia|].
  destruct (node_at_inside _ _ _ Hat) as [Hi Hw].
  destruct (node_parts _ _ _ _ Hi Hw) as (_ & _ & _ & _ & Hc & Hwc & E5 & E6 & _).
  rewrite fmap_app, concat_app in *. cbn [fmap list_fmap concat] in *.
  rewrite forallb_app in Hwc. cbn [forallb] in Hwc. rewrite !andb_true_iff in Hwc. destruct Hwc as (_ & _ & Hwr).
  apply inside_app in Hc as [_ Hc]. apply inside_app in Hc as [_ Hr].
  rewrite !length_app, !Nat2Z.inj_add, !Z.add_assoc in E5, E6. fold ov in Hr, E5, E6.
  destruct (next_token_of _ _ Hr Hwr E5 E6) as [E1 E2].
  pose proof (inside_small _ _ Hr). unfold fuel_of. cbn [sibling_loop]. rewrite E1, E2. cbn [negb mbind res_bind].
  destruct r; [done|]. change (FDT_BEGIN_NODE =? FDT_BEGIN_NODE) with true. cbv iota.
  rewrite off_of_small by lia. done.
Qed.

(** ** Properties *)

Context (sb : list Z).
Hypothesis strings_here : here blob (c_str c) sb.
Hypothesis strings_end : c_strend c = c_str c + size sb.
Hypothesis strings_size : strings = size sb.
Hypothesis strings_last : last sb = Some 0.

Lemma str_eq_reads a s b :
  here blob a s -> In 0 s -> ~ In 0 b -> str_eq blob a b = Ret (bool_decide (c_string s = b)).
Proof.
  revert a s. induction b as [|y b IH]; intros a [|x s] Hh Hin Hb; try done;
    apply here_cons in Hh as [E Hh]; cbn [str_eq c_string]; rewrite E; cbn [mbind res_bind].
  - destruct (Z.eqb_spec x 0); [by rewrite bool_decide_eq_true_2|by rewrite bool_decide_eq_false_2].
  - cbn in Hin, Hb. destruct (Z.eqb_spec x 0) as [->|Hx]; cbn [negb andb].
    + rewrite bool_decide_eq_false_2 by done. f_equal. apply Z.eqb_neq. intros <-. tauto.
    + destruct (Z.eqb_spec x y) as [->|Hy].
      * rewrite (IH _ s) by (done || tauto). f_equal. apply bool_decide_ext. split; congruence.
      * rewrite bool_decide_eq_false_2 by congruence. done.
Qed.

Lemma str_at_reads off name :
  0 <= off < strings -> ~ In 0 name ->
  exists p, str_at c off = Some p /\
    str_eq blob p name = Ret (bool_decide (c_string (drop (Z.to_nat off) sb) = name)).
Proof.
  intros Ho Hn. exists (c_str c + off). split.
  - unfold str_at, u32. rewrite strings_end. replace (c_str c + size sb - c_str c) with (size sb) by lia.
    rewrite Z.mod_small by lia. destruct (Z.leb_spec (size sb) off); [lia|done].
  - apply str_eq_reads; [| |done].
    + rewrite <- (take_drop (Z.to_nat off) sb) in strings_here. apply here_app in strings_here as [_ H].
      rewrite length_take in H. by replace (Z.of_nat (Z.to_nat off `min` length sb)) with off in H by lia.
    + apply list_elem_of_In, (list_elem_of_lookup_2 _ (pred (length sb) - Z.to_nat off)).
      rewrite lookup_drop. rewrite last_lookup in strings_last. rewrite <- strings_last. f_equal. lia.
Qed.

(** The walk over a node's properties finds the first one with the name. *)
Lemma getprop_props k name q ps ts :
  ~ In 0 name -> inside q (flat_props ps) -> wf_props ps = true -> next_token (q + size (flat_props ps)) ts ->
  match lookup_prop sb name ps with
  | Some v => exists p, getprop_loop (length ps + S k) blob c name q = Ret (Some (p, size v)) /\ inside p v
  | None => getprop_loop (length ps + S k) blob c name q = Ret None
  end.
Proof.
  intros Hname. revert q. induction ps as [|[off v] ps IH]; intros q Hin Hw Hnext.
  { cbn in Hnext |- *. rewrite Z.add_0_r in Hnext. destruct Hnext as [E1 E2]. rewrite E1, E2. cbn [negb mbind res_bind].
    by destruct ts. }
  cbn [fmap list_fmap concat] in *. cbn [forallb] in Hw. apply andb_true_iff in Hw as [Hp Hw].
  apply inside_app in Hin as [Hpr Hin].
  destruct (prop_reads _ _ _ strings_small Hpr Hp) as (E1 & E2 & E3 & E4 & E5 & E6 & E7 & Hv & E8).
  cbn [fst snd] in *. apply andb_true_iff in Hp as [?%Z.leb_le ?%Z.ltb_lt].
  destruct (str_at_reads off name ltac:(lia) Hname) as (p & Ep & Es).
  assert (Estep : getprop_loop (length ((off, v) :: ps) + S k) blob c name q =
    if bool_decide (c_string (drop (Z.to_nat off) sb) = name) then Ret (Some (q + 12, size v))
    else getprop_loop (length ps + S k) blob c name (q + size (flat_prop (off, v)))).
  { cbn [length Nat.add getprop_loop]. rewrite E1, E2. cbn [negb mbind res_bind].
    change ((FDT_PROP =? FDT_BEGIN_NODE) || (FDT_PROP =? FDT_END_NODE)) with false.
    change (FDT_PROP =? FDT_NOP) with false. rewrite E3.
    change (negb (FDT_PROP =? FDT_PROP) || negb true) with false. cbv iota.
    rewrite E5. cbn [mbind res_bind]. rewrite E6. cbn [mbind res_bind]. rewrite E7. cbn [negb].
    rewrite Ep, Es. cbn [mbind res_bind]. by replace (q + 12 + align4 (size v)) with (q + size (flat_prop (off, v))) by lia. }
  rewrite Estep. cbn [lookup_prop]. case_bool_decide; [by exists (q + 12)|].
  apply IH; [done|done|]. rewrite length_app, Nat2Z.inj_add, Z.add_assoc in Hnext. done.
Qed.

Lemma getprop_reads t o d name :
  ~ In 0 name -> node_at root (c_s c) t o d ->
  match lookup_prop sb name (d_props t) with
  | Some v => exists p, fdt_getprop blob o name = Ret (Some (p, size v)) /\ here blob p v
  | None => fdt_getprop blob o name = Ret None
  end.
Proof.
  intros Hname Hat. destruct (node_at_inside _ _ _ Hat) as [Hin Hw]. destruct t as [tn props children].
  cbn [d_props]. unfold fdt_getprop. rewrite (with_ctx_eq blob c ctx).
  rewrite (after_name_reads _ _ _ _ Hin Hw). cbn [mbind res_bind].
  destruct (node_parts _ _ _ _ Hin Hw) as (_ & Hp & Hwp & Er & Hc & Hwc & E5 & E6 & _).
  destruct (prop_fuel _ _ Hp) as [k ->]. pose proof (next_token_of _ _ Hc Hwc E5 E6) as Hn. rewrite Er in Hn.
  pose proof (getprop_props k name _ _ _ Hname Hp Hwp Hn) as H.
  destruct (lookup_prop _ _ _); [|done]. destruct H as (p & -> & _ & _ & ?). by exists p.
Qed.

(** ** Paths *)

Lemma bytes_eq_reads a s b :
  here blob a s -> length s = length b -> bytes_eq blob a b = Ret (bool_decide (s = b)).
Proof.
  revert a s. induction b as [|y b IH]; intros a [|x s] Hh Hl; try done.
  apply here_cons in Hh as [E Hh]. cbn [bytes_eq]. rewrite E. cbn [mbind res_bind].
  destruct (Z.eqb_spec x y) as [->|].
  - rewrite (IH _ s) by (done || (cbn in Hl; lia)). f_equal. apply bool_decide_ext. split; congruence.
  - by rewrite bool_decide_eq_false_2 by congruence.
Qed.

Lemma node_at_bounds t o d : node_at root (c_s c) t o d -> 0 <= o /\ o + 4 <= len.
Proof.
  intros Hat. destruct (node_at_inside _ _ _ Hat) as [(_ & _ & Hh%here_bound) _]. destruct t. cbn [flat_node] in *. unfold flat_head in *.
  rewrite !length_app, length_be32 in *. lia.
Qed.

(** The offset a loop over the children has reached, and what it looks for. *)
Definition cursor (q : Z) (r : list dnode) : Z := match r with [] => FDT_ERR_NODE | _ => q end.
Definition found_at (x : option (dnode * Z)) : Z := match x with Some (_, o) => o | None => FDT_ERR_NODE end.

Lemma child_named_reads fuel o d name props l r comp :
  node_at root (c_s c) (DNode name props (l ++ r)) o d -> (d < FDT_MAX_DEPTH)%nat -> (length r < fuel)%nat ->
  let q := o + size (flat_head name props) + size (flat_nodes l) in
  child_named_loop fuel blob c o comp (cursor q r) = Ret (found_at (offset_named comp q r)).
Proof.
  revert l r. induction fuel as [|fuel IH]; intros l r Hat Hd Hf q; [lia|].
  destruct r as [|u r]; [done|]. cbn [cursor child_named_loop offset_named].
  pose proof (node_at_child _ _ _ _ _ _ _ Hat) as Hin. fold q in Hin.
  pose proof (node_at_bounds _ _ _ (at_below _ _ _ _ _ _ Hin)).
  destruct (node_in_inside _ _ _ _ _ _ Hin root_inside root_wf) as (Hu & Hwu & _).
  destruct (Z.eqb_spec q FDT_ERR_NODE); [unfold FDT_ERR_NODE in *; lia|].
  destruct u as [un up uc] eqn:Eu. destruct (node_parts _ _ _ _ Hu Hwu) as ((_ & _ & E3 & _) & _).
  rewrite E3. cbn [mbind res_bind d_name].
  assert (Hn : here blob (q + 4) un).
  { destruct Hu as (_ & _ & Hu). cbn [flat_node] in Hu. unfold flat_head, pad4 in Hu. rewrite <- !app_assoc in Hu.
    apply here_app in Hu as [_ Hu]. by apply here_app in Hu as [Hu _]. }
  replace (if size un =? size comp then bytes_eq blob (q + 4) comp else Ret false)
    with (Ret (bool_decide (un = comp))).
  2: { destruct (Z.eqb_spec (size un) (size comp)); [rewrite (bytes_eq_reads _ un) by (done || lia)|]; [done|].
       by rewrite bool_decide_eq_false_2 by congruence. }
  cbn [mbind res_bind]. case_bool_decide; [done|]. subst q. rewrite (next_sibling_reads o d _ _ _ _ _ Hat Hd).
  cbn [mbind res_bind]. rewrite <- Eu in *. clear Eu.
  rewrite (cons_middle u l r), app_assoc in Hat.
  specialize (IH (l ++ [u]) r Hat Hd ltac:(cbn in Hf; lia)). cbv zeta in IH.
  rewrite fmap_app, concat_app, length_app in IH. cbn [fmap list_fmap concat] in IH.
  rewrite app_nil_r, Nat2Z.inj_add, Z.add_assoc in IH. done.
Qed.

Lemma component_name n rest :
  forallb (fun x => negb (x =? SLASH)) n = true -> (rest = [] \/ exists r, rest = SLASH :: r) ->
  component (n ++ rest) = (n, rest).
Proof.
  intros Hn Hr. induction n as [|x n IH]; cbn.
  - destruct Hr as [->|[r ->]]; done.
  - cbn in Hn. apply andb_true_iff in Hn as [Hx Hn]. destruct (x =? SLASH); [done|]. by rewrite IH.
Qed.

Lemma skip_slashes_name n rest : path_name n = true -> skip_slashes (SLASH :: n ++ rest) = n ++ rest.
Proof.
  destruct n as [|x n]; [done|]. cbn. intros [Hx _]%andb_true_iff. by destruct (x =? SLASH).
Qed.

Lemma offset_named_split comp q ts u o' :
  offset_named comp q ts = Some (u, o') ->
  exists l r, ts = l ++ u :: r /\ o' = q + size (flat_nodes l).
Proof.
  revert q. induction ts as [|t ts IH]; intros q; cbn; [done|]. case_bool_decide.
  - intros [= -> ->]. exists [], ts. cbn. split; [done|lia].
  - intros (l & r & -> & ->)%IH. exists (t :: l), r. cbn. split; [done|]. rewrite length_app. lia.
Qed.

Lemma path_loop_reads names : forall fuel t o d,
  node_at root (c_s c) t o d -> (d + length names <= FDT_MAX_DEPTH)%nat -> (length names <= fuel)%nat ->
  forallb path_name names = true ->
  path_loop fuel blob c o (skip_slashes (concat (cons SLASH <$> names))) = Ret (found_at (walk names t o)).
Proof.
  induction names as [|n names IH]; intros fuel t o d Hat Hd Hf Hw; [by destruct fuel|].
  destruct fuel as [|fuel]; [cbn in Hf; lia|]. cbn [forallb] in Hw. apply andb_true_iff in Hw as [Hn Hw].
  cbn [fmap list_fmap concat walk]. change (cons SLASH n ++ concat (cons SLASH <$> names))
    with (SLASH :: n ++ concat (cons SLASH <$> names)). rewrite skip_slashes_name by done.
  assert (Hcomp : component (n ++ concat (cons SLASH <$> names)) = (n, concat (cons SLASH <$> names))).
  { apply component_name; [destruct n; done|]. destruct names; [by left|right; cbn; eauto]. }
  assert (Hne : n ++ concat (cons SLASH <$> names) <> []) by (destruct n; done).
  destruct (n ++ _) as [|x path] eqn:E; [done|]. cbn [path_loop]. rewrite Hcomp.
  destruct t as [tn props children]. cbn [d_name d_props d_children].
  destruct (node_at_inside _ _ _ Hat) as [Hin Hwt].
  rewrite (first_child_reads _ _ _ _ Hin Hwt). cbn [mbind res_bind].
  assert (Hch : (length children < fuel_of blob)%nat).
  { pose proof (inside_small _ _ Hin). destruct Hin as (_ & _ & Hb%here_bound).
    pose proof (tokens_fit (DNode tn props children)) as Ht. rewrite tokens_eq in Ht. unfold fuel_of.
    assert (length children <= sum_tokens children)%nat; [|lia].
    clear. unfold sum_tokens. induction children as [|[] ts IH]; cbn; lia. }
  pose proof (child_named_reads (fuel_of blob) o d tn props [] children n Hat ltac:(cbn in Hd; lia) Hch) as Hfind.
  cbn [concat fmap list_fmap length] in Hfind. rewrite Z.add_0_r in Hfind. cbv zeta in Hfind. unfold cursor in Hfind.
  rewrite Hfind. cbn [mbind res_bind].
  destruct (offset_named n _ children) as [[u o']|] eqn:Eo; cbn [found_at]; [|done].
  destruct (offset_named_split _ _ _ _ _ Eo) as (l & r & -> & ->).
  pose proof (node_at_child _ _ _ _ _ _ _ Hat) as Hu. pose proof (node_at_bounds _ _ _ (at_below _ _ _ _ _ _ Hu)).
  destruct (Z.eqb_spec (o + size (flat_head tn props) + size (flat_nodes l)) FDT_ERR_NODE);
    [unfold FDT_ERR_NODE in *; lia|].
  apply (IH fuel u _ (S d)); [by eapply at_below|cbn in Hd; lia|cbn in Hf; lia|done].
Qed.

Lemma path_offset_reads names :
  forallb path_name names = true -> (length names <= FDT_MAX_DEPTH)%nat ->
  fdt_path_offset blob (path_of names) = Ret (found_at (walk names root (c_s c))).
Proof.
  intros Hw Hd. unfold fdt_path_offset. rewrite (with_ctx_eq blob c ctx).
  assert (Hs : exists rest, path_of names = SLASH :: rest /\ (length names <= S (length rest))%nat /\
    skip_slashes (path_of names) = skip_slashes (concat (cons SLASH <$> names))).
  { destruct names as [|n names]; [exists []; cbn; split_and!; (done || lia)|]. eexists. split; [done|]. split; [|done].
    clear. cbn. rewrite length_app. induction names; cbn in *; [lia|]. rewrite length_app. lia. }
  destruct Hs as (rest & -> & Hl & Hs). change (SLASH =? SLASH) with true. cbn [negb].
  assert (Hr : root_ok blob c = Ret true).
  { unfold root_ok. pose proof root_inside as Hin. pose proof root_wf as Hwr. destruct root as [n ps cs].
    destruct (node_parts _ _ _ _ Hin Hwr) as ((-> & -> & _) & _). done. }
  rewrite Hr, Hs. cbn [mbind res_bind negb]. pose proof (inside_small _ _ root_inside).
  rewrite off_of_small by lia.
  apply (path_loop_reads names _ root (c_s c) 0); [constructor|lia|cbn; lia|done].
Qed.

End read_back.

(** ** The flattened blob *)

Definition flat_ctx (root : dnode) (sb : list Z) : ctx_t :=
  let e := 56 + Z.of_nat (length (flat_struct root)) in
  {| c_s := 56; c_send := e; c_str := e; c_strend := e + Z.of_nat (length sb) |}.

(** A tree that can be written: names and property names as [wf_node] wants
    them, a terminated strings block, offsets that fit in an [int]. *)
Definition encodable (root : dnode) (sb : list Z) : bool :=
  wf_node (Z.of_nat (length sb)) root && bool_decide (last sb = Some 0) &&
  (Z.of_nat (length (flatten root sb)) <? 2 ^ 31).

Section blob.
Context (root : dnode) (sb : list Z).
Hypothesis enc : encodable root sb = true.
Abbreviation blob := (flatten root sb).
Abbreviation c := (flat_ctx root sb).

Lemma enc_parts :
  wf_node (Z.of_nat (length sb)) root = true /\ last sb = Some 0 /\ Z.of_nat (length blob) < 2 ^ 31.
Proof.
  unfold encodable in enc. rewrite !andb_true_iff in enc. destruct enc as [[? ?%bool_decide_eq_true] ?%Z.ltb_lt].
  done.
Qed.

Lemma length_flatten : length blob = (56 + length (flat_struct root) + length sb)%nat.
Proof. unfold flatten. rewrite !length_app. done. Qed.

Lemma flatten_here : here blob 56 (flat_struct root) /\ here blob (56 + Z.of_nat (length (flat_struct root))) sb.
Proof.
  assert (H : here blob 56 (flat_struct root ++ sb)).
  { exists (flat_header (Z.of_nat (length (flat_struct root))) (Z.of_nat (length sb))), [].
    rewrite app_nil_r. done. }
  by apply here_app in H.
Qed.

Lemma flatten_header :
  rd_be32 blob 0 = Ret FDT_MAGIC /\
  rd_be32 blob 4 = Ret (56 + Z.of_nat (length (flat_struct root)) + Z.of_nat (length sb)) /\
  rd_be32 blob 8 = Ret 56 /\ rd_be32 blob 12 = Ret (56 + Z.of_nat (length (flat_struct root))) /\
  rd_be32 blob 32 = Ret (Z.of_nat (length sb)) /\ rd_be32 blob 36 = Ret (Z.of_nat (length (flat_struct root))).
Proof.
  destruct enc_parts as (_ & _ & Hl). rewrite length_flatten in Hl.
  assert (H : here blob 0 (flat_header (Z.of_nat (length (flat_struct root))) (Z.of_nat (length sb)))).
  { exists [], (flat_struct root ++ sb). done. }
  unfold flat_header in H.
  do 10 (let H' := fresh "W" in apply here_app in H as [H' H]; rewrite length_be32 in H).
  cbn [Z.of_nat Pos.of_succ_nat Pos.succ Z.add Pos.add] in *.
  split_and!; apply rd_be32_here; (done || lia).
Qed.

Lemma flatten_ctx : ctx_init blob = Ret (Some c).
Proof.
  destruct flatten_header as (E0 & E4 & E8 & E12 & E32 & E36).
  unfold ctx_init. rewrite bool_decide_eq_false_2 by done.
  rewrite E0. cbn [mbind res_bind]. change (negb (FDT_MAGIC =? FDT_MAGIC)) with false. cbv iota.
  rewrite E4. cbn [mbind res_bind]. rewrite E8. cbn [mbind res_bind]. rewrite E12. cbn [mbind res_bind].
  rewrite E32. cbn [mbind res_bind]. rewrite E36. cbn [mbind res_bind].
  repeat match goal with |- context [?a <? ?b] => destruct (Z.ltb_spec a b); [lia|cbn [orb]] end. done.
Qed.

Lemma flatten_inside : inside blob c 56 (flat_node root).
Proof.
  destruct flatten_here as [H _]. unfold flat_struct in H. apply here_app in H as [H _].
  split_and!; [done| |done]. cbn [c_send flat_ctx]. unfold flat_struct. rewrite length_app. lia.
Qed.

Lemma strings_fit : Z.of_nat (length sb) < 2 ^ 32.
Proof. destruct enc_parts as (_ & _ & Hl). rewrite length_flatten in Hl. lia. Qed.

End blob.

(** C35: The reader finds the tree that was written: in the flattened form of a
    tree, every node's offset leads to its first child, each child to the next
    one (to "none" from the last), and each child back to its parent, down to
    sixteen levels. *)
Theorem flattened_tree_walks root sb :
  encodable root sb = true ->
  (forall name props children o d,
     node_at root 56 (DNode name props children) o d ->
     fdt_first_child (flatten root sb) o =
     Ret (match children with [] => FDT_ERR_NODE | _ => o + Z.of_nat (length (flat_head name props)) end)) /\
  (forall name props l v r o d,
     node_at root 56 (DNode name props (l ++ v :: r)) o d -> (d < FDT_MAX_DEPTH)%nat ->
     let ov := o + Z.of_nat (length (flat_head name props)) + Z.of_nat (length (concat (flat_node <$> l))) in
     fdt_parent_offset (flatten root sb) ov = Ret o /\
     fdt_next_sibling (flatten root sb) o ov =
     Ret (match r with [] => FDT_ERR_NODE | _ => ov + Z.of_nat (length (flat_node v)) end)).
Proof.
  intros enc. destruct (enc_parts root sb enc) as (Hw & _ & Hl).
  pose proof (strings_fit root sb enc) as Hst.
  pose proof (flatten_inside root sb) as Hin. pose proof (flatten_ctx root sb enc) as Hctx.
  split.
  - intros name props children o d Hat.
    destruct (node_at_inside _ _ Hl _ root Hin Hw _ _ _ Hat) as [Hi Hwi].
    by apply (first_child_reads _ _ Hl _ Hst Hctx).
  - intros name props l v r o d Hat Hd ov. split.
    + eapply (parent_offset_reads _ _ Hl _ Hst Hctx root Hin Hw _ ov (S d)); [|lia].
      apply (node_at_child _ _ _ _ Hin Hw _ _ _ _ _ _ _ Hat).
    + by apply (next_sibling_reads _ _ Hl _ Hst Hctx root Hin Hw o d).
Qed.

(** Properties round-trip: at every node of a flattened tree,
    [fdt_getprop] returns where the first property of that name has its value
    and how long it is, and NULL when the node has no such property. *)
Theorem flattened_tree_properties root sb t o d name :
  encodable root sb = true -> node_at root 56 t o d -> ~ In 0 name ->
  match lookup_prop sb name (d_props t) with
  | Some v => exists p, fdt_getprop (flatten root sb) o name = Ret (Some (p, Z.of_nat (length v))) /\
                        here (flatten root sb) p v
  | None => fdt_getprop (flatten root sb) o name = Ret None
  end.
Proof.
  intros enc Hat Hn. destruct (enc_parts root sb enc) as (Hw & Hlast & Hl).
  pose proof (strings_fit root sb enc) as Hst.
  destruct (flatten_here root sb) as [_ Hsb].
  by eapply (getprop_reads _ (flat_ctx root sb) Hl _ Hst (flatten_ctx root sb enc) root (flatten_inside root sb) Hw
    sb Hsb eq_refl eq_refl Hlast t o d).
Qed.

(** Paths round-trip: [fdt_path_offset] of "/a/b/..." is the offset of the
    node those names lead to from the root, first match by first match, and
    "none" when some name has no node; for up to sixteen names. *)
Theorem flattened_tree_paths root sb names :
  encodable root sb = true -> forallb path_name names = true -> (length names <= FDT_MAX_DEPTH)%nat ->
  fdt_path_offset (flatten root sb) (path_of names) = Ret (found_at (walk names root 56)).
Proof.
  intros enc Hnames Hlen. destruct (enc_parts root sb enc) as (Hw & _ & Hl).
  pose proof (strings_fit root sb enc) as Hst.
  by apply (path_offset_reads _ (flat_ctx root sb) Hl _ Hst (flatten_ctx root sb enc) root (flatten_inside root sb) Hw sb).
Qed.

Lemma flattened_tree_walks_witness :
  encodable demo_root demo_strings = true /\
  fdt_first_child demo_blob 56 = Ret 96 /\ fdt_parent_offset demo_blob 96 = Ret 56 /\
  fdt_next_sibling demo_blob 56 96 = Ret 136.
Proof.
  split; [vm_compute; reflexivity|].
  destruct (flattened_tree_walks demo_root demo_strings ltac:(vm_compute; reflexivity)) as [H1 H2].
  split; [apply (H1 _ _ _ 56 0%nat (at_root _ _))|].
  apply (H2 _ _ [] _ _ 56 0%nat (at_root _ _)). apply Nat.lt_0_succ.
Defined.

Lemma flattened_tree_properties_witness :
  exists p, fdt_getprop demo_blob 56 S_size_cells = Ret (Some (p, 4)) /\ here demo_blob p (be32 1).
Proof.
  apply (flattened_tree_properties demo_root demo_strings demo_root 56 0 S_size_cells);
    [vm_compute; reflexivity|apply at_root|].
  intros H. repeat (destruct H as [H|H]; [discriminate H|]). destruct H.
Defined.

(** "/bus/uart" *)
Lemma flattened_tree_paths_witness :
  fdt_path_offset demo_blob (path_of [[98; 117; 115]; [117; 97; 114; 116]]) = Ret 144.
Proof.
  apply (flattened_tree_paths demo_root demo_strings [[98; 117; 115]; [117; 97; 114; 116]]);
    [vm_compute; reflexivity|vm_compute; reflexivity|]. apply le_S_n. repeat constructor.
Defined.
