(* ===== verification/FdtLimits.v ===== *)
(** * Where the device tree reader falls short

    Blobs that [fdt_valid] accepts at their exact size and on which a query
    reads past the end, and one on which the compatible search never ends. *)

From S2P Require Import Prelude Fdt FdtTree FdtSafe FdtRoundtrip.

(** ** The compatible search on a deep tree *)

(** A chain of [n] nodes below the top one. *)
Fixpoint chain (n : nat) : dnode :=
  match n with O => DNode [] [] [] | S n => DNode [] [] [chain n] end.

Definition deep_blob : list Z := flatten (chain 16) demo_strings.

(** Where the search is after fifteen rounds: the path of the nodes above, one
    every eight bytes. *)
Definition deep_stack : list Z := (fun i => 56 + 8 * Z.of_nat i) <$> seq 0 16.

(** "x" *)
Definition absent : list Z := [120].

Lemma deep_back : search_step deep_blob absent FDT_ERR_NODE deep_stack 15 = Ret (inr (deep_stack, 14%nat)).
Proof. vm_compute. reflexivity. Qed.

Lemma deep_again : search_step deep_blob absent FDT_ERR_NODE deep_stack 14 = Ret (inr (deep_stack, 15%nat)).
Proof. vm_compute. reflexivity. Qed.

Lemma search_loop_S fuel blob compatible prev stack depth stack' depth' :
  search_step blob compatible prev stack depth = Ret (inr (stack', depth')) ->
  search_loop (S fuel) blob compatible prev stack depth = search_loop fuel blob compatible prev stack' depth'.
Proof. intros E. cbn [search_loop]. by rewrite E. Qed.

Lemma deep_loops fuel :
  search_loop fuel deep_blob absent FDT_ERR_NODE deep_stack 15 = NoFuel /\
  search_loop fuel deep_blob absent FDT_ERR_NODE deep_stack 14 = NoFuel.
Proof.
  induction fuel as [|fuel [IH15 IH14]]; [done|]. split.
  - by rewrite (search_loop_S _ _ _ _ _ _ _ _ deep_back).
  - by rewrite (search_loop_S _ _ _ _ _ _ _ _ deep_again).
Qed.

(** The state after [n] rounds, if the search has not ended. *)
Fixpoint rounds (n : nat) (blob compatible : list Z) (prev : Z) (s : list Z * nat) : res (Z + list Z * nat) :=
  match n with
  | O => Ret (inr s)
  | S n => r ← search_step blob compatible prev (fst s) (snd s);
           match r with inl a => Ret (inl a) | inr s => rounds n blob compatible prev s end
  end.

Lemma search_loop_rounds n fuel blob compatible prev s s' :
  rounds n blob compatible prev s = Ret (inr s') ->
  search_loop (n + fuel) blob compatible prev (fst s) (snd s) =
  search_loop fuel blob compatible prev (fst s') (snd s').
Proof.
  revert s. induction n as [|n IH]; intros s; cbn; [by intros [= ->]|].
  destruct (search_step _ _ _ _ _) as [[?|[st d]]| |]; cbn; try done. apply IH.
Qed.

Lemma search_loop_more fuel blob compatible prev stack depth k :
  search_loop (fuel + k) blob compatible prev stack depth = NoFuel ->
  search_loop fuel blob compatible prev stack depth = NoFuel.
Proof.
  revert stack depth. induction fuel as [|fuel IH]; intros stack depth; [done|].
  cbn [Nat.add search_loop].
  destruct (search_step _ _ _ _ _) as [[?|[st d]]| |]; cbn; try done. apply IH.
Qed.

(** The compatible search of [fdt_node_by_compatible_offset] does not end
    on a tree of seventeen levels, a blob [fdt_valid] accepts and with room
    behind it: at the depth limit it steps back to the parent and then
    descends into the same child again. *)
Theorem compatible_search_diverges :
  fdt_valid deep_blob (Z.of_nat (length deep_blob)) = Ret true /\ room_behind deep_blob = true /\
  forall fuel, fdt_node_by_compatible_offset fuel deep_blob absent = NoFuel.
Proof.
  split; [vm_compute; reflexivity|]. split; [vm_compute; reflexivity|]. intros fuel.
  unfold fdt_node_by_compatible_offset, fdt_next_node_by_compatible_offset.
  rewrite (with_ctx_eq _ (flat_ctx (chain 16) demo_strings)) by (vm_compute; reflexivity).
  assert (root_ok deep_blob (flat_ctx (chain 16) demo_strings) = Ret true) as -> by (vm_compute; reflexivity).
  cbn [mbind res_bind negb].
  apply (search_loop_more _ _ _ _ _ _ 15). rewrite Nat.add_comm.
  etransitivity; [|apply (proj1 (deep_loops fuel))].
  apply (search_loop_rounds 15 fuel deep_blob absent FDT_ERR_NODE (_, 0%nat) (deep_stack, 15%nat)).
  vm_compute. reflexivity.
Qed.

(** ** Reads past the end *)

Definition accepted (blob : list Z) : Prop := fdt_valid blob (Z.of_nat (length blob)) = Ret true.

(** A structure block that ends the blob: the root, then [tail]. *)
Definition cut_blob (tail : list Z) : list Z :=
  let struct := be32 FDT_BEGIN_NODE ++ pad4 [0] ++ tail in
  flat_header (Z.of_nat (length struct)) 0 ++ struct.

(** An accepted blob can make a walk read past its end: a PROP token as the
    last word of the structure block makes [fdt_first_child] and
    [fdt_parent_offset] read the length behind it, and one word more makes
    [fdt_getprop] read the name offset behind that. *)
Theorem cut_property_read_outside :
  accepted (cut_blob (be32 FDT_PROP)) /\
  fdt_first_child (cut_blob (be32 FDT_PROP)) 56 = Oob /\
  fdt_parent_offset (cut_blob (be32 FDT_PROP)) 64 = Oob /\
  accepted (cut_blob (be32 FDT_PROP ++ be32 0)) /\
  fdt_getprop (cut_blob (be32 FDT_PROP ++ be32 0)) 56 S_reg = Oob.
Proof. vm_compute. done. Qed.

(** A strings block "r" without a terminator, at the end of the blob. *)
Definition open_string_blob : list Z := flatten (DNode [] [(0, be32 0)] []) [114].

(** A property name that runs to the end of the strings block without a
    terminator makes [fdt_getprop] compare bytes past the end of an accepted
    blob. *)
Theorem open_string_read_outside :
  accepted open_string_blob /\ fdt_getprop open_string_blob 56 S_reg = Oob.
Proof. vm_compute. done. Qed.

(** The root declares 2^29 address cells and 2^29 + 1 size cells. *)
Definition wide_root : dnode :=
  DNode [] [(15, be32 0x20000000); (30, be32 0x20000001)]
    [DNode S_memory [(11, be32 4096 ++ be32 8192)] []].

(** Cell counts whose sum times four wraps around make an entry of [reg]
    four bytes long, so that [fdt_memory_ranges] and [fdt_reg_to_cpu_addr]
    take the size of the entry from two gigabytes past the end, on a blob that
    is accepted and has room behind its structure block. *)
Theorem wrapped_cells_read_outside :
  accepted (flatten wide_root demo_strings) /\ room_behind (flatten wide_root demo_strings) = true /\
  fdt_memory_ranges (flatten wide_root demo_strings) 4 = Oob /\
  fdt_reg_to_cpu_addr (flatten wide_root demo_strings) 96 0 = Oob.
Proof. vm_compute. done. Qed.
