(* ===== verification/Client.v ===== *)
(** * The scheduler client of a node (coreinit/scheduler.c)

    A thin client: each function builds a request, calls the cluster
    scheduler through the invoke function the node was bound to, and reads
    the reply; [scheduler_run] asks for a job, runs it and reports, forever.

    [W] is the state the invoke function acts on.  A call through a function
    pointer that was never set is undefined in C; here the whole operation is
    then [None].  The generated encoders and readers of the schema
    (schemas/coreinit.capnp) lay the fields out as the words of a flat
    message, in the order of the schema, so a request is the list of its
    fields and a reply the list of its words. *)

From S2P Require Import Prelude Capnp Cluster.

Definition JOB_TYPE_COUNT : nat := 13.

Section client.
Context {W : Type}.

(** [int (*)(capability_t, uint32_t, const void *, size_t, void *, size_t, size_t *)]:
    target, method, message ([None]: it did not fit its buffer), capacity of
    the response buffer. *)
Definition invoke_fn : Type := Z -> Z -> option (list Z) -> Z -> W -> W * (bool * option (list Z)).

(** An operation on the state, [None] when it would call a NULL pointer. *)
Definition M (A : Type) : Type := W -> option (W * A).

#[local] Instance M_ret : MRet M := fun A a w => Some (w, a).
#[local] Instance M_bind : MBind M := fun A B f m w =>
  match m w with Some (w, a) => f a w | None => None end.

(** The binding of a core ([core_state]) or of the image (the globals). *)
Record binding := { b_invoke : option invoke_fn; b_cluster : Z; b_node_id : Z }.

(** [core_state_get()] may be NULL. *)
Record client := { core_binding : option binding; g_binding : binding }.

Definition scheduler_client_init (invoke : invoke_fn) (cluster_scheduler my_node_id : Z) (c : client) : client :=
  let b := {| b_invoke := Some invoke; b_cluster := cluster_scheduler; b_node_id := my_node_id |} in
  match core_binding c with
  | Some _ => {| core_binding := Some b; g_binding := g_binding c |}
  | None => {| core_binding := None; g_binding := b |}
  end.

Definition scheduler_client (c : client) : binding :=
  match core_binding c with
  | Some b => match b_invoke b with Some _ => b | None => g_binding c end
  | None => g_binding c
  end.

Definition scheduler_node_id (c : client) : Z := b_node_id (scheduler_client c).

Definition scheduler_call (c : client) (method_id : Z) (msg : option (list Z)) (response_cap : Z)
    : M (bool * option (list Z)) := fun w =>
  match b_invoke (scheduler_client c) with
  | Some invoke => Some (invoke (b_cluster (scheduler_client c)) method_id msg response_cap w)
  | None => None
  end.

(** [!scheduler_call(...) || resp_len < least]: no answer; otherwise the words
    of the reply. *)
Definition asked (c : client) (method_id : Z) (msg : option (list Z)) (response_cap least : Z)
    : M (option (list Z)) :=
  r ← scheduler_call c method_id msg response_cap;
  mret (if negb (fst r) || (response_len (snd r) <? least) then None else Some (response_words (snd r))).

(** ** Jobs *)

Definition submit (c : client) (node_affinity type arg0 arg1 priority resource_id resource_kind
    resource_min_capacity : Z) : M Z :=
  resp ← asked c METHOD_SUBMIT_JOB
    (reply 96 [node_affinity; type; arg0; arg1; u64 priority; resource_id; resource_kind;
               resource_min_capacity]) 24 24;
  mret (match resp with Some ws => word ws 0 | None => 0 end).

Definition scheduler_submit (c : client) (type ctx priority resource_id resource_kind
    resource_min_capacity : Z) : M Z :=
  submit c (scheduler_node_id c) type ctx 0 priority resource_id resource_kind resource_min_capacity.

Definition scheduler_submit_to_node (c : client) (target_node_id type ctx priority resource_id
    resource_kind resource_min_capacity : Z) : M Z :=
  submit c target_node_id type ctx 0 priority resource_id resource_kind resource_min_capacity.

Definition scheduler_submit_values_to_node (c : client) (target_node_id type arg0 arg1 priority
    resource_id resource_kind resource_min_capacity : Z) : M Z :=
  submit c target_node_id type arg0 arg1 priority resource_id resource_kind resource_min_capacity.

(** [Some value] for the return of 1. *)
Definition scheduler_get_job_result (c : client) (job_id : Z) : M (option Z) :=
  resp ← asked c METHOD_GET_JOB_RESULT (reply 24 [job_id]) 32 32;
  mret (match resp with
        | Some ws => if word ws 0 =? 0 then None else Some (word ws 1)
        | None => None
        end).

(** ** Resources *)

Definition scheduler_declare_resource (c : client) (kind descriptor capacity sync_kind : Z) : M Z :=
  resp ← asked c METHOD_DECLARE_RESOURCE
    (reply 64 [scheduler_node_id c; kind; descriptor; capacity; sync_kind]) 24 24;
  mret (match resp with Some ws => word ws 0 | None => 0 end).

Definition scheduler_reassign_resource (c : client) (resource_id new_owner_node : Z) : M bool :=
  resp ← asked c METHOD_REASSIGN_RESOURCE (reply 40 [resource_id; new_owner_node]) 24 24;
  mret (match resp with Some ws => negb (word ws 0 =? 0) | None => false end).

(** The return value and [*out_resource_id]. *)
Definition scheduler_request_allocation (c : client) (base size kind sync_kind : Z) : M (bool * Z) :=
  resp ← asked c METHOD_REQUEST_ALLOCATION
    (reply 64 [scheduler_node_id c; base; size; kind; sync_kind]) 40 32;
  mret (match resp with Some ws => (negb (word ws 0 =? 0), word ws 1) | None => (false, 0) end).

Record resource_view := {
  v_owner_node : Z; v_kind : Z; v_descriptor : Z; v_capacity : Z; v_sync_kind : Z }.

Definition scheduler_get_resource_info (c : client) (resource_id : Z) : M (bool * resource_view) :=
  resp ← asked c METHOD_GET_RESOURCE_INFO (reply 24 [resource_id]) 64 56;
  mret (match resp with
        | Some ws =>
            (negb (word ws 0 =? 0),
             {| v_owner_node := word ws 1; v_kind := word ws 2; v_descriptor := word ws 3;
                v_capacity := word ws 4; v_sync_kind := word ws 5 |})
        | None =>
            (false, {| v_owner_node := 0; v_kind := 0; v_descriptor := 0; v_capacity := 0; v_sync_kind := 0 |})
        end).

Definition scheduler_get_my_node_id (c : client) : Z := scheduler_node_id c.

Definition scheduler_node_for_local_core (c : client) (local_core_id : Z) : Z :=
  Z.lor (Z.land (scheduler_get_my_node_id c) 0xff00000000000000)
        (Z.land local_core_id 0x00ffffffffffffff).

(** The return value, [*out_resource_id] and [*out_base]. *)
Definition scheduler_allocate_slice (c : client) (size kind sync_kind self_job_id : Z) : M (bool * Z * Z) :=
  resp ← asked c METHOD_ALLOCATE_SLICE
    (reply 64 [scheduler_node_id c; self_job_id; size; kind; sync_kind]) 48 32;
  mret (match resp with
        | Some ws => (negb (word ws 0 =? 0), word ws 1, word ws 2)
        | None => (false, 0, 0)
        end).

Definition scheduler_release_slice (c : client) (resource_id self_job_id : Z) : M bool :=
  resp ← asked c METHOD_RELEASE_SLICE (reply 40 [resource_id; self_job_id]) 24 24;
  mret (match resp with Some ws => negb (word ws 0 =? 0) | None => false end).

(** ** Mutexes *)

Definition scheduler_mutex_try_lock (c : client) (mutex_id self_job_id : Z) : M bool :=
  resp ← asked c METHOD_MUTEX_TRY_LOCK (reply 40 [u64 mutex_id; self_job_id]) 24 24;
  mret (match resp with Some ws => negb (word ws 0 =? 0) | None => false end).

Definition scheduler_mutex_unlock (c : client) (mutex_id self_job_id : Z) : M unit :=
  _ ← scheduler_call c METHOD_MUTEX_UNLOCK (reply 40 [u64 mutex_id; self_job_id]) 0;
  mret tt.

(** ** The worker *)

(** A job function: its arguments and the job's handle; it returns its result
    and what it left in [*out_block_id], which the caller had set to 0. *)
Definition job_fn : Type := Z -> Z -> M (Z * Z).
Definition job_value_fn : Type := Z -> Z -> Z -> M (Z * Z).

Record job_tables := {
  g_job_type_table : list (option job_fn);             (* [JOB_TYPE_COUNT] *)
  g_job_value_type_table : list (option job_value_fn)  (* [JOB_TYPE_COUNT] *)
}.

Definition scheduler_register_job_type (type : nat) (fn : job_fn) (t : job_tables) : job_tables :=
  if decide (type < JOB_TYPE_COUNT)%nat
  then {| g_job_type_table := <[type := Some fn]> (g_job_type_table t);
          g_job_value_type_table := g_job_value_type_table t |}
  else t.

Definition scheduler_register_value_job_type (type : nat) (fn : job_value_fn) (t : job_tables) : job_tables :=
  if decide (type < JOB_TYPE_COUNT)%nat
  then {| g_job_type_table := g_job_type_table t;
          g_job_value_type_table := <[type := Some fn]> (g_job_value_type_table t) |}
  else t.

(** Entry [type] of a table, when the type is a valid index and the entry is
    not NULL. *)
Definition table_entry {A} (table : list (option A)) (type : Z) : option A :=
  if type <? Z.of_nat JOB_TYPE_COUNT then mjoin (table !! Z.to_nat type) else None.

(** What [scheduler_run] runs for a job: the value function of its type, else
    the plain one, else nothing, which counts as finished. *)
Definition run_job (t : job_tables) (job_type arg0 arg1 job_id : Z) : M (Z * Z) :=
  match table_entry (g_job_value_type_table t) job_type with
  | Some fn => fn arg0 arg1 job_id
  | None =>
      match table_entry (g_job_type_table t) job_type with
      | Some fn => fn arg0 job_id
      | None => mret (JOB_FINISHED, 0)
      end
  end.

(** How a round of [scheduler_run] ends: asleep until an interrupt, polling
    again at the idle hook's wish, or with a job run and reported. *)
Inductive round := Sleep | Poll | Ran (job_id result block_id : Z).

Definition scheduler_round (c : client) (t : job_tables) (g_idle_hook : option (M bool)) : M round :=
  resp ← asked c METHOD_GET_NEXT_JOB (reply 24 [scheduler_node_id c]) 64 56;
  match resp with
  | None => mret Sleep
  | Some next =>
      if word next 0 =? 0 then
        match g_idle_hook with
        | Some hook => again ← hook; mret (if again : bool then Poll else Sleep)
        | None => mret Sleep
        end
      else
        let job_id := word next 1 in
        r ← run_job t (word next 2) (word next 3) (word next 4) job_id;
        let '(result, block_id) := r in
        _ ← scheduler_call c METHOD_REPORT_JOB_RESULT
          (reply 48 [job_id; u64 result; block_id; if result =? JOB_FINISHED then block_id else 0]) 0;
        mret (Ran job_id result block_id)
  end.

(** The first [n] rounds of the endless loop. *)
Fixpoint scheduler_run (n : nat) (c : client) (t : job_tables) (g_idle_hook : option (M bool)) : M (list round) :=
  match n with
  | O => mret []
  | S n => r ← scheduler_round c t g_idle_hook; rs ← scheduler_run n c t g_idle_hook; mret (r :: rs)
  end.

End client.
Arguments M : clear implicits.
Arguments invoke_fn : clear implicits.
Arguments binding : clear implicits.
Arguments client : clear implicits.

(** ** The cluster scheduler behind the client

    Request shapes of the ClusterScheduler interface (schemas/coreinit.capnp),
    in data words. *)
Definition cluster_request_words (method_id : Z) : option nat :=
  match method_id with
  | 0 => Some 3%nat | 1 => Some 1%nat | 2 => Some 5%nat | 3 => Some 5%nat | 4 => Some 2%nat
  | 5 => Some 8%nat | 6 => Some 1%nat | 7 => Some 4%nat | 8 => Some 2%nat | 9 => Some 2%nat
  | 10 => Some 1%nat | 11 => Some 5%nat | 12 => Some 2%nat | 13 => Some 1%nat | 14 => Some 1%nat
  | _ => None
  end.
