(* ===== verification/ClientSpec.v ===== *)
(** * What a node gets from its scheduler client

    The client of scheduler.c against the cluster scheduler.  What lies
    between them is the kernel's invoke: [Serves] is what the client relies
    on, that a request of the schema's shape on the scheduler's handle runs
    its handler. *)

From stdpp Require Import gmap.
From S2P Require Import Prelude Capnp TryLock Kernel MemMgr Objects Cluster ClusterInv ClusterReach.
From S2P Require Import ClusterPick ClusterBind ClusterResults Client.

Section serves.
Context `{Kernel K} (L : layout) (other : nat -> Z -> list Z -> Z -> option (list Z)).

Class Serves (invoke : invoke_fn (cstate K)) (h : Z) : Prop :=
  serves : forall m ws cap st, cluster_request_words m = Some (length ws) ->
    invoke h m (Some ws) cap st =
    (let '(st', a) := cluster_scheduler_handler L other m ws cap st in (st', (true, a))).

(** An invoke that reaches the scheduler and nothing else. *)
Definition local_invoke (h : Z) : invoke_fn (cstate K) := fun target m msg cap st =>
  match msg with
  | Some ws =>
      if (target =? h) && bool_decide (cluster_request_words m = Some (length ws))
      then let '(st', a) := cluster_scheduler_handler L other m ws cap st in (st', (true, a))
      else (st, (false, None))
  | None => (st, (false, None))
  end.

#[export] Instance local_invoke_serves h : Serves (local_invoke h) h.
Proof. intros m ws cap st Hw. unfold local_invoke. by rewrite Z.eqb_refl, bool_decide_eq_true_2. Qed.

(** The core is bound to that invoke function, as node [node]. *)
Definition bound (c : client (cstate K)) (invoke : invoke_fn (cstate K)) (h node : Z) : Prop :=
  scheduler_client c = {| b_invoke := Some invoke; b_cluster := h; b_node_id := node |}.

Lemma call_served c invoke h node m ws cap st :
  bound c invoke h node -> Serves invoke h -> cluster_request_words m = Some (length ws) ->
  scheduler_call c m (Some ws) cap st =
  Some (let '(st', a) := cluster_scheduler_handler L other m ws cap st in (st', (true, a))).
Proof. intros Hb Hs Hw. unfold scheduler_call. rewrite Hb. cbn. by rewrite (serves _ _ _ _ Hw). Qed.

(** A request on which the handler answers. *)
Lemma asked_served c invoke h node m ws cap least st st' out :
  bound c invoke h node -> Serves invoke h -> cluster_request_words m = Some (length ws) ->
  cluster_scheduler_handler L other m ws cap st = (st', Some out) -> least <= response_len (Some out) ->
  asked c m (Some ws) cap least st = Some (st', Some out).
Proof.
  intros Hb Hs Hw Hh Hl. unfold asked, mbind, M_bind. rewrite (call_served c invoke h node) by done.
  rewrite Hh. cbn [mret M_ret fst snd negb orb]. destruct (Z.ltb_spec (response_len (Some out)) least); [lia|done].
Qed.
End serves.

#[global] Hint Mode Serves - - - - - - : typeclass_instances.

(** ** A round of the worker *)

#[local] Opaque pick_scan pick_next_for_node bind_resource_for.

Section worker.
Context `{HL : KernelLaws K}.
Context (L : layout) (other : nat -> Z -> list Z -> Z -> option (list Z)).
Context (c : client (cstate K)) (invoke : invoke_fn (cstate K)) (h node : Z).
Hypothesis Hbound : bound c invoke h node.
Context `{!Serves L other invoke h}.
Implicit Types (st : cstate K).

Lemma handed_tables n st i :
  cinv st -> let st' := handed_state L other n st i in
  g_job_storage_used st' = g_job_storage_used st /\ g_job_handles st' = g_job_handles st /\
  g_completions st' = g_completions st.
Proof.
  intros Hinv. pose proof (sc_st _ _ _ _ _ (pick_scan_scanned L other n st Hinv)) as E. unfold handed_state.
  destruct (pick_scan L other n st) as [st1 rb]. cbn [fst] in *. cbv zeta.
  unfold set_job. cbn. rewrite E. done.
Qed.

(** GET_NEXT_JOB for a node with work: the state and the reply. *)
Lemma next_job_reply st i :
  cinv st -> chosen other node st i ->
  let job := g_job_handles st !!? i in
  let j := g_job_storage st !!? i in
  exists st', handle_get_next_job L other [node] 64 st =
      (st', Some [1; job; j_type j; j_arg0 j; j_arg1 j]) /\ job <> 0 /\
    g_job_storage_used st' !! i = Some true /\ g_job_handles st' !!? i = job /\
    g_completions st' = g_completions st.
Proof.
  intros Hinv Hch job j. unfold handle_get_next_job. change (word [node] 0) with node.
  destruct (pick_next_cases L other node st Hinv) as [(i' & Hch' & ->)|[Hidle _]];
    [|destruct (chosen_not_idle _ _ _ _ Hch Hidle)].
  rewrite <- (chosen_unique _ _ _ _ _ Hch Hch'). clear i' Hch'.
  destruct (chosen_candidate _ _ _ _ Hch) as [Hi Hc]. destruct (candidate_used _ _ _ _ Hi Hinv Hc) as [Hu _].
  destruct (ci_job _ Hinv) as (_ & _ & _ & Hj). destruct (Hj i Hu) as [Hn _]. apply names_nz in Hn.
  destruct (dispatch_jobs L other node st i Hinv Hch) as [[b Hb] _].
  destruct (handed_job other node st i) as (_ & Ht & Ha0 & Ha1 & _).
  fold job in Hb, Hn |- *. rewrite (proj2 (Z.eqb_neq _ _) Hn), Hb.
  destruct (bind_resource_for_jobs L other job i (handed_state L other node st i)) as (Hu' & Hh' & _).
  pose proof (bind_resource_for_completions L other job i (handed_state L other node st i)) as Hco.
  destruct (handed_tables node st i Hinv) as (Hu2 & Hh2 & Hco2).
  eexists. split_and!; [|done|by rewrite Hu', Hu2|by rewrite Hh', Hh2|by rewrite Hco].
  cbn [j_type j_arg0 j_arg1 set_bound_resource with_sched]. by rewrite Ht, Ha0, Ha1.
Qed.

Lemma report_dispatch ws cap st :
  cluster_scheduler_handler L other METHOD_REPORT_JOB_RESULT ws cap st =
  (handle_report_job_result L other ws st, None).
Proof. reflexivity. Qed.

Lemma next_dispatch ws cap st :
  cluster_scheduler_handler L other METHOD_GET_NEXT_JOB ws cap st = handle_get_next_job L other ws cap st.
Proof. reflexivity. Qed.

Lemma result_dispatch ws cap st :
  cluster_scheduler_handler L other METHOD_GET_JOB_RESULT ws cap st = handle_get_job_result ws cap st.
Proof. reflexivity. Qed.

(** A round on a node that is given a job: the job is run in the state after
    GET_NEXT_JOB, and its result reported. *)
Lemma round_runs t hook st st1 job ty a0 a1 st2 result block :
  cluster_scheduler_handler L other METHOD_GET_NEXT_JOB [node] 64 st = (st1, Some [1; job; ty; a0; a1]) ->
  run_job t ty a0 a1 job st1 = Some (st2, (result, block)) ->
  scheduler_round c t hook st =
  Some (handle_report_job_result L other
          [job; u64 result; block; if result =? JOB_FINISHED then block else 0] st2, Ran job result block).
Proof.
  intros Hnext Hrun. unfold scheduler_round, mbind, M_bind.
  assert (scheduler_node_id c = node) as -> by (unfold scheduler_node_id; by rewrite Hbound).
  change (reply 24 [node]) with (Some [node]).
  rewrite (asked_served L other c invoke h node METHOD_GET_NEXT_JOB [node] 64 56 st st1 _ Hbound _ eq_refl Hnext) by done.
  change (word [1; job; ty; a0; a1] 0 =? 0) with false. cbv iota.
  change (word [1; job; ty; a0; a1] 1) with job. change (word [1; job; ty; a0; a1] 2) with ty.
  change (word [1; job; ty; a0; a1] 3) with a0. change (word [1; job; ty; a0; a1] 4) with a1.
  cbv zeta beta. rewrite Hrun. cbv iota. change (reply 48 ?ws) with (Some ws).
  rewrite (call_served L other c invoke h node METHOD_REPORT_JOB_RESULT
    [job; u64 result; block; if result =? JOB_FINISHED then block else 0] _ _ Hbound _ eq_refl).
  by rewrite report_dispatch.
Qed.

(** A round that delivers a value. *)
Lemma worker_delivers t hook st i fn v :
  cinv st -> chosen other node st i ->
  length (g_completions st) = JOB_POOL_SIZE -> stale_free (g_job_handles st !!? i) st ->
  let job := g_job_handles st !!? i in
  let j := g_job_storage st !!? i in
  table_entry (g_job_value_type_table t) (j_type j) = Some fn ->
  (forall w, fn (j_arg0 j) (j_arg1 j) job w = Some (w, (JOB_FINISHED, v))) ->
  exists st' st'', scheduler_round c t hook st = Some (st', Ran job JOB_FINISHED v) /\
    job_slot_of job st' = None /\ scheduler_get_job_result c job st' = Some (st'', Some v).
Proof.
  intros Hinv Hch Hlen Hsf job j Hfn Hrun.
  destruct (next_job_reply st i Hinv Hch) as (st1 & Hnext & Hnz & Hu & Hh & Hco). fold job j in Hnext, Hnz, Hh.
  pose proof (handle_get_next_job_inv L other [node] 64 st Hinv) as Hinv1. rewrite Hnext in Hinv1. cbn [fst] in Hinv1.
  set (words := [job; u64 JOB_FINISHED; v; v]).
  assert (job_slot_of job (handle_report_job_result L other words st1) = None) as Hgone
    by (by apply (finished_gone L other words st1 i)).
  assert (completion_find job (handle_report_job_result L other words st1) = Some v) as Hfind
    by (apply (finished_completion L other words st1 i); [done..|by rewrite Hco|unfold stale_free; by rewrite Hco]).
  set (st' := handle_report_job_result L other words st1) in *.
  exists st', (storage_lock_release (storage_lock_acquire_wait st')). split_and!; [|done|].
  - rewrite (round_runs t hook st st1 job (j_type j) (j_arg0 j) (j_arg1 j) st1 JOB_FINISHED v);
      [done|by rewrite next_dispatch|]. unfold run_job. rewrite Hfn. apply Hrun.
  - unfold scheduler_get_job_result, mbind, M_bind. change (reply 24 [job]) with (Some [job]).
    rewrite (asked_served L other c invoke h node METHOD_GET_JOB_RESULT [job] 32 32 st'
      (storage_lock_release (storage_lock_acquire_wait st')) [1; v] Hbound _ eq_refl); [done| |done].
    rewrite result_dispatch. unfold handle_get_job_result. change (word [job] 0) with job.
    change (completion_find job (storage_lock_acquire_wait st')) with (completion_find job st').
    by rewrite Hfind.
Qed.
End worker.

(** A value job that a node is given is run and its value delivered: when
    the scheduler picks a job for the node, one round of [scheduler_run] calls
    the function registered for its type on the job's two arguments, and after
    it the job is gone and [scheduler_get_job_result] on its handle returns
    the value the function produced. *)
Theorem worker_delivers_value `{HL : KernelLaws K} L other (c : client (cstate K)) invoke h node t hook st i fn v :
  bound c invoke h node -> Serves L other invoke h ->
  cinv st -> chosen other node st i ->
  length (g_completions st) = JOB_POOL_SIZE -> stale_free (g_job_handles st !!? i) st ->
  let job := g_job_handles st !!? i in
  let j := g_job_storage st !!? i in
  table_entry (g_job_value_type_table t) (j_type j) = Some fn ->
  (forall w, fn (j_arg0 j) (j_arg1 j) job w = Some (w, (JOB_FINISHED, v))) ->
  exists st' st'', scheduler_round c t hook st = Some (st', Ran job JOB_FINISHED v) /\
    job_slot_of job st' = None /\ scheduler_get_job_result c job st' = Some (st'', Some v).
Proof. intros Hb Hs. by apply (worker_delivers L other c invoke h node). Qed.

(** ** An instance: job 15 of the demonstration run adds its arguments *)

Definition add_fn : @job_value_fn (cstate counter_kernel) := fun a0 a1 _ w => Some (w, (JOB_FINISHED, a0 + a1)).

Definition demo_tables : @job_tables (cstate counter_kernel) :=
  scheduler_register_value_job_type 3 add_fn
    {| g_job_type_table := replicate JOB_TYPE_COUNT None; g_job_value_type_table := replicate JOB_TYPE_COUNT None |}.

(** A core without [core_state], bound to handle 99 as node 1. *)
Definition demo_client : client (cstate counter_kernel) :=
  scheduler_client_init (local_invoke layout_x86_64 no_other 99) 99 1
    {| core_binding := None; g_binding := {| b_invoke := None; b_cluster := 0; b_node_id := 0 |} |}.

Lemma demo_chosen : chosen no_other 1 demo_submitted 1.
Proof.
  left. split_and!; [unfold JOB_POOL_SIZE; lia|vm_compute; reflexivity|].
  assert (forallb (fun i => implb (ready no_other 1 demo_submitted i)
    ((prio demo_submitted i <? prio demo_submitted 1) ||
     ((prio demo_submitted i =? prio demo_submitted 1) && (1 <=? i)%nat))) (seq 0 JOB_POOL_SIZE) = true) as Hall
    by (vm_compute; reflexivity).
  rewrite forallb_forall in Hall. intros i Hi Hr. specialize (Hall i). rewrite in_seq in Hall.
  specialize (Hall ltac:(lia)). rewrite Hr in Hall. cbn [implb] in Hall.
  apply orb_true_iff in Hall as [?%Z.ltb_lt|[?%Z.eqb_eq ?%Nat.leb_le]%andb_true_iff]; [by left|right; lia].
Qed.

Lemma worker_delivers_value_witness :
  exists st' st'', scheduler_round demo_client demo_tables None demo_submitted = Some (st', Ran 15 JOB_FINISHED 27) /\
    job_slot_of 15 st' = None /\ scheduler_get_job_result demo_client 15 st' = Some (st'', Some 27).
Proof.
  apply (worker_delivers_value layout_x86_64 no_other demo_client (local_invoke layout_x86_64 no_other 99) 99 1
    demo_tables None demo_submitted 1 add_fn 27 eq_refl _ demo_submitted_inv demo_chosen);
    [vm_compute; reflexivity| |vm_compute; reflexivity|].
  2: { intros w. unfold add_fn. do 3 f_equal. }
  apply unused_stale_free. vm_compute. reflexivity.
Defined.
