(* ===== verification/JobMemory.v ===== *)
(** * Memory slices of jobs (coreinit/job_memory.c)

    The three operations a job has on memory.  The page-fault backend
    (pagefault.h, arch_mmu.h: one implementation per architecture, on the
    core's own page tables) is the interface [PageFaults]; its state is part
    of [W], like everything behind the scheduler's invoke. *)

From stdpp Require Import gmap.
From S2P Require Import Prelude Capnp TryLock Kernel MemMgr Objects Cluster ClusterInv ClusterReach.
From S2P Require Import ClusterPick ClusterMembers ClusterMutex ClusterMemory Client ClientSpec.

Definition ALLOCATOR_MUTEX_ID : Z := 0.

Record job_memory_slice_t := {
  s_resource_id : Z; s_base : Z; s_size : Z; s_sync_kind : Z; s_owned : bool }.

(** arch_mmu.h and pagefault.h. *)
Class PageFaults (W : Type) := {
  arch_has_mmu : bool;
  pagefault_supported : bool;
  pagefault_init : Z -> W -> W;
  pagefault_split_region : Z -> Z -> W -> W * bool;
  pagefault_debug_read_pte : Z -> Z -> W -> Z;
  pagefault_mark_absent : Z -> Z -> W -> W * bool;
  pagefault_mark_cow : Z -> Z -> W -> W * bool
}.

(** [x & ~0x1FFFFFull] and [x & ~0xFFFull]. *)
Definition align_region (x : Z) : Z := Z.land x 0xFFFFFFFFFFE00000.
Definition align_page (x : Z) : Z := Z.land x 0xFFFFFFFFFFFFF000.

Section job_memory.
Context {W : Type} `{PageFaults W}.
#[local] Existing Instances M_ret M_bind.

(** The result of a job's slice: what the job returns, and either the block
    id or the output. *)
Inductive attempt (A : Type) := Blocked (block_id : Z) | Done (a : A).
Arguments Blocked {A} _.
Arguments Done {A} _.

Definition attempt_result {A} (a : attempt A) : Z :=
  match a with Blocked _ => JOB_BLOCKED_ON_MUTEX | Done _ => JOB_FINISHED end.

Definition job_memory_try_acquire_local (c : client W) (size kind self_job_id : Z)
    : M W (attempt job_memory_slice_t) :=
  got ← scheduler_mutex_try_lock c ALLOCATOR_MUTEX_ID self_job_id;
  if negb got then mret (Blocked ALLOCATOR_MUTEX_ID)
  else
    r ← scheduler_allocate_slice c size kind RESOURCE_SYNC_TRANSFER self_job_id;
    _ ← scheduler_mutex_unlock c ALLOCATOR_MUTEX_ID self_job_id;
    let '(_, resource_id, base) := r in
    mret (Done {| s_resource_id := resource_id; s_base := base; s_size := size;
                  s_sync_kind := RESOURCE_SYNC_TRANSFER; s_owned := negb (resource_id =? 0) |}).

(** [Done ok]: [*out_ok]. *)
Definition job_memory_try_release (c : client W) (resource_id self_job_id : Z) : M W (attempt bool) :=
  got ← scheduler_mutex_try_lock c ALLOCATOR_MUTEX_ID self_job_id;
  if negb got then mret (Blocked ALLOCATOR_MUTEX_ID)
  else
    ok ← scheduler_release_slice c resource_id self_job_id;
    _ ← scheduler_mutex_unlock c ALLOCATOR_MUTEX_ID self_job_id;
    mret (Done ok).

(** [for (x = start; x < end; x += step) if (!f(x)) return 0;]: [None] when the
    fuel runs out. *)
Fixpoint each_block (fuel : nat) (step x stop : Z) (f : Z -> W -> W * bool) (w : W) : option (W * bool) :=
  match fuel with
  | O => None
  | S fuel =>
      if x <? stop then
        let '(w, ok) := f x w in
        if ok then each_block fuel step (u64 (x + step)) stop f w else Some (w, false)
      else Some (w, true)
  end.

Definition blocks_fuel (step x stop : Z) : nat := S (Z.to_nat ((stop - x) / step + 1)).

(** Page-granular mapping of every region of [descriptor, descriptor + capacity),
    then every page of it absent or copy-on-write. *)
Definition fault_in (my_pml4_phys descriptor capacity sync_kind : Z) : M W bool := fun w =>
  let w := pagefault_init my_pml4_phys w in
  let region_start := align_region descriptor in
  let region_end := align_region (u64 (u64 (descriptor + capacity) + 0x1FFFFF)) in
  let split_one (region : Z) (w : W) : W * bool :=
    let '(w, split) := pagefault_split_region my_pml4_phys region w in
    (w, split || negb (pagefault_debug_read_pte my_pml4_phys region w =? 0)) in
  match each_block (blocks_fuel 0x200000 region_start region_end) 0x200000 region_start region_end split_one w with
  | None => None
  | Some (w, false) => Some (w, false)
  | Some (w, true) =>
      let page_start := align_page descriptor in
      let page_end := align_page (u64 (u64 (descriptor + capacity) + 0xFFF)) in
      let mark_one (page : Z) : W -> W * bool :=
        if sync_kind =? RESOURCE_SYNC_STREAM then pagefault_mark_absent my_pml4_phys page
        else pagefault_mark_cow my_pml4_phys page in
      each_block (blocks_fuel 0x1000 page_start page_end) 0x1000 page_start page_end mark_one w
  end.

(** [my_pml4_phys] of this core's state, when it has one. *)
Definition job_memory_init (my_pml4_phys : Z) (core : option Z) : option Z :=
  match core with None => None | Some _ => Some my_pml4_phys end.

(** [core]: [my_pml4_phys] of this core's state, when it has one.  The return
    value, and the slice when the resource was found (the code leaves [*out]
    alone otherwise). *)
Definition job_memory_acquire_resource (c : client W) (core : option Z) (resource_id : Z)
    : M W (bool * option job_memory_slice_t) :=
  info ← scheduler_get_resource_info c resource_id;
  let '(found, v) := info in
  if negb found then mret (false, None)
  else
    let owned := v_owner_node v =? scheduler_get_my_node_id c in
    let out := Some {| s_resource_id := resource_id; s_base := v_descriptor v; s_size := v_capacity v;
                       s_sync_kind := v_sync_kind v; s_owned := owned |} in
    if owned || (v_sync_kind v =? RESOURCE_SYNC_TRANSFER) then mret (owned, out)
    else if negb arch_has_mmu then mret (false, out)
    else if negb pagefault_supported then mret (false, out)
    else
      match core with
      | None => mret (false, out)
      | Some my_pml4_phys =>
          ok ← fault_in my_pml4_phys (v_descriptor v) (v_capacity v) (v_sync_kind v);
          mret (ok, out)
      end.
End job_memory.
Arguments Blocked {A} _.
Arguments Done {A} _.

(** ** A slice through the scheduler *)

Section slices.
Context `{HL : KernelLaws K}.
Context (L : layout) (other : nat -> Z -> list Z -> Z -> option (list Z)).
Implicit Types (st : cstate K).

(** What a mutex operation leaves alone. *)
Definition mutex_frame st st' : Prop :=
  k st' = k st /\ mem st' = mem st /\ g_memory_manager st' = g_memory_manager st /\
  g_resource_storage st' = g_resource_storage st /\ g_resource_storage_next st' = g_resource_storage_next st /\
  g_node_storage_next st' = g_node_storage_next st /\ g_resource_index st' = g_resource_index st /\
  g_mutex_handles st' = g_mutex_handles st.

Definition allocator st : mutex_data_t := g_mutex_storage st !!? 0%nat.

Lemma allocator_take job st :
  cinv st -> mutex_known 0 st -> m_locked (allocator st) = false ->
  handle_mutex_try_lock L other [0; job] 24 st =
  (set_g_mutex_storage (<[0%nat := {| m_locked := true; m_holder_job_id := job |}]> (g_mutex_storage st)) st, Some [1]).
Proof.
  intros Hinv Hk Hl. unfold handle_mutex_try_lock.
  change (to_int (word [0; job] 0)) with 0. change (word [0; job] 1) with job.
  destruct (mutex_invoke L other 0 MUTEX_METHOD_TRY_LOCK job 40 st Hinv Hk ltac:(by left)) as [Eo Ei].
  rewrite Eo, (proj2 (Z.eqb_neq _ _) (proj2 Hk)), Ei. change (Z.to_nat 0) with 0%nat. fold (allocator st).
  unfold mutex_handler. simpl. by rewrite Hl.
Qed.

Lemma allocator_refuse job st :
  cinv st -> mutex_known 0 st -> m_locked (allocator st) = true ->
  exists st', handle_mutex_try_lock L other [0; job] 24 st = (st', Some [0]) /\ mutex_frame st st' /\
    g_mutex_storage st' = g_mutex_storage st.
Proof.
  intros Hinv Hk Hl. unfold handle_mutex_try_lock.
  change (to_int (word [0; job] 0)) with 0. change (word [0; job] 1) with job.
  destruct (mutex_invoke L other 0 MUTEX_METHOD_TRY_LOCK job 40 st Hinv Hk ltac:(by left)) as [Eo Ei].
  rewrite Eo, (proj2 (Z.eqb_neq _ _) (proj2 Hk)), Ei. change (Z.to_nat 0) with 0%nat.
  unfold mutex_handler. fold (allocator st). simpl. rewrite Hl. simpl. unfold allocator. rewrite insert_nth_id.
  eexists. split; [done|]. unfold inherit_priority. by repeat case_match.
Qed.

Lemma allocator_give job st :
  cinv st -> mutex_known 0 st -> m_locked (allocator st) = true -> m_holder_job_id (allocator st) = job ->
  let st' := handle_mutex_unlock L other [0; job] st in
  mutex_frame st st' /\
  g_mutex_storage st' = <[0%nat := {| m_locked := false; m_holder_job_id := job |}]> (g_mutex_storage st).
Proof.
  intros Hinv Hk Hl Hh st'. unfold st', handle_mutex_unlock.
  change (to_int (word [0; job] 0)) with 0. change (word [0; job] 1) with job.
  destruct (mutex_invoke L other 0 MUTEX_METHOD_UNLOCK job 24 st Hinv Hk ltac:(by right)) as [Eo Ei].
  rewrite Eo, (proj2 (Z.eqb_neq _ _) (proj2 Hk)), Ei. change (Z.to_nat 0) with 0%nat. fold (allocator st).
  unfold mutex_handler. simpl. change (word [job] 0) with job. rewrite Hl, Hh, Z.eqb_refl. simpl.
  by destruct (job_data_for_handle_locked _ _).
Qed.

(** ALLOCATE_SLICE leaves the mutexes alone. *)
Lemma allocate_slice_mutexes words cap st :
  has_memory_manager st ->
  let st' := fst (handle_allocate_slice L other words cap st) in
  g_mutex_storage st' = g_mutex_storage st /\ g_mutex_handles st' = g_mutex_handles st.
Proof.
  intros Hmm. unfold handle_allocate_slice. change (reply 40 [?a; ?b]) with (Some [a; b]).
  rewrite mm_invoke by done. destruct (memory_manager_handler _ _ _ _ _) as [d a].
  case_cond; [|done]. unfold create_resource_object. case_cond; [done|].
  unfold factory_create. destruct (k_create _ _) as [k' r]. case_cond; [done|].
  unfold resource_index_claim. by case_match.
Qed.

Lemma allocate_slice_cap words st :
  handle_allocate_slice L other words 48 st = handle_allocate_slice L other words 40 st.
Proof.
  unfold handle_allocate_slice. destruct (kernel_invoke _ _ _ _ _ _ _) as [st1 [ret a]].
  case_cond; [|done]. by destruct (create_resource_object _ _ _ _ _ _ _).
Qed.

(** ** Through the client *)

Context (c : client (cstate K)) (invoke : invoke_fn (cstate K)) (h node : Z).
Hypothesis Hbound : bound c invoke h node.
Context `{!Serves L other invoke h}.

Lemma try_lock_served job st st' ok :
  handle_mutex_try_lock L other [0; job] 24 st = (st', Some [ok]) ->
  scheduler_mutex_try_lock c ALLOCATOR_MUTEX_ID job st = Some (st', negb (ok =? 0)).
Proof.
  intros E. unfold scheduler_mutex_try_lock, mbind, M_bind.
  change (reply 40 [u64 ALLOCATOR_MUTEX_ID; job]) with (Some [0; job]).
  by rewrite (asked_served L other c invoke h node METHOD_MUTEX_TRY_LOCK [0; job] 24 24 st st' [ok] Hbound _ eq_refl).
Qed.

Lemma unlock_served job st :
  scheduler_mutex_unlock c ALLOCATOR_MUTEX_ID job st = Some (handle_mutex_unlock L other [0; job] st, tt).
Proof.
  unfold scheduler_mutex_unlock, mbind, M_bind.
  change (reply 40 [u64 ALLOCATOR_MUTEX_ID; job]) with (Some [0; job]).
  by rewrite (call_served L other c invoke h node METHOD_MUTEX_UNLOCK [0; job] 0 st Hbound _ eq_refl).
Qed.

Lemma allocate_served size kind sync job st st' ok r b :
  handle_allocate_slice L other [node; job; size; kind; sync] 40 st = (st', Some [ok; r; b]) ->
  scheduler_allocate_slice c size kind sync job st = Some (st', (negb (ok =? 0), r, b)).
Proof.
  intros E. unfold scheduler_allocate_slice, mbind, M_bind.
  assert (scheduler_node_id c = node) as -> by (unfold scheduler_node_id; by rewrite Hbound).
  change (reply 64 ?ws) with (Some ws).
  rewrite (asked_served L other c invoke h node METHOD_ALLOCATE_SLICE [node; job; size; kind; sync] 48 32 st st' [ok; r; b] Hbound _ eq_refl); [done| |done].
  change (cluster_scheduler_handler L other METHOD_ALLOCATE_SLICE ?ws ?cap ?s) with (handle_allocate_slice L other ws cap s).
  by rewrite allocate_slice_cap.
Qed.

Lemma release_served r job st st' ok :
  handle_release_slice L other [r; job] 24 st = (st', Some [ok]) ->
  scheduler_release_slice c r job st = Some (st', negb (ok =? 0)).
Proof.
  intros E. unfold scheduler_release_slice, mbind, M_bind. change (reply 40 ?ws) with (Some ws).
  by rewrite (asked_served L other c invoke h node METHOD_RELEASE_SLICE [r; job] 24 24 st st' [ok] Hbound _ eq_refl).
Qed.

(** ALLOCATE_SLICE answers with three words, the first 1 with a resource. *)
Lemma allocate_slice_answers words st :
  exists ok r b, snd (handle_allocate_slice L other words 40 st) = Some [ok; r; b] /\ (r <> 0 -> ok = 1).
Proof.
  unfold handle_allocate_slice. destruct (kernel_invoke _ _ _ _ _ _ _) as [st1 [ret a]].
  case_cond; [destruct (create_resource_object _ _ _ _ _ _ _)|]; do 3 eexists; (split; [reflexivity|done]).
Qed.

(** The acquiring job's run through the allocator when its mutex is free. *)
Lemma acquire_runs size kind job st :
  cinv st -> no_wrap st -> has_memory_manager st -> mutex_known 0 st -> m_locked (allocator st) = false ->
  exists st0 st1 st2 ok r b, (r <> 0 -> ok = 1) /\
    cinv st0 /\ no_wrap st0 /\ mem st0 = mem st /\ has_memory_manager st0 /\
    handle_allocate_slice L other [node; job; size; kind; RESOURCE_SYNC_TRANSFER] 40 st0 = (st1, Some [ok; r; b]) /\
    cinv st2 /\ mutex_frame st1 st2 /\ m_locked (allocator st2) = false /\ mutex_known 0 st2 /\
    job_memory_try_acquire_local c size kind job st =
    Some (st2, Done {| s_resource_id := r; s_base := b; s_size := size;
                       s_sync_kind := RESOURCE_SYNC_TRANSFER; s_owned := negb (r =? 0) |}).
Proof.
  intros Hinv Hw Hmm Hk Hl. pose proof (allocator_take job st Hinv Hk Hl) as Htake.
  pose proof (handle_mutex_try_lock_inv L other [0; job] 24 st Hinv) as Hinv0. rewrite Htake in Hinv0. cbn [fst] in Hinv0.
  set (st0 := set_g_mutex_storage _ st) in *.
  destruct (allocate_slice_answers [node; job; size; kind; RESOURCE_SYNC_TRANSFER] st0) as (ok & r & b & Ha & Hok).
  destruct (handle_allocate_slice L other [node; job; size; kind; RESOURCE_SYNC_TRANSFER] 40 st0) as [st1 a] eqn:E.
  cbn [snd] in Ha. subst a.
  pose proof (allocate_slice_mutexes [node; job; size; kind; RESOURCE_SYNC_TRANSFER] 40 st0 Hmm) as [Hm1 Hh1].
  pose proof (handle_allocate_slice_inv L other [node; job; size; kind; RESOURCE_SYNC_TRANSFER] 40 st0 Hinv0 Hw) as Hinv1.
  rewrite E in Hm1, Hh1, Hinv1. cbn [fst] in Hm1, Hh1, Hinv1.
  destruct (ci_mutex _ Hinv) as (_ & Hlm & _).
  assert (allocator st1 = {| m_locked := true; m_holder_job_id := job |}) as Hal.
  { unfold allocator. rewrite Hm1. apply nth_insert_eq. rewrite Hlm. apply Nat.lt_0_succ. }
  assert (mutex_known 0 st1) as Hk1 by (unfold mutex_known; by rewrite Hh1).
  destruct (allocator_give job st1 Hinv1 Hk1) as [Hf Hm2]; [by rewrite Hal..|].
  exists st0, st1, (handle_mutex_unlock L other [0; job] st1), ok, r, b. split_and!; try done.
  - by apply handle_mutex_unlock_inv.
  - unfold allocator. rewrite Hm2. rewrite nth_insert_eq; [done|]. rewrite Hm1. simpl.
    rewrite length_insert, Hlm. apply Nat.lt_0_succ.
  - destruct Hf as (_ & _ & _ & _ & _ & _ & _ & Hh2). unfold mutex_known. by rewrite Hh2.
  - unfold job_memory_try_acquire_local, mbind, M_bind.
    rewrite (try_lock_served job st st0 1 Htake).
    change (negb (negb (1 =? 0))) with false. cbv beta iota.
    rewrite (allocate_served size kind RESOURCE_SYNC_TRANSFER job st0 st1 ok r b E).
    by rewrite unlock_served.
Qed.

(** Acquiring memory for a job.  When the allocator's mutex is held, the
    attempt is blocked on it and neither memory nor mutexes change; otherwise
    it completes with the mutex free again, and a slice with a resource is
    reserved by the acquiring job and describes exactly the bytes granted. *)
Theorem acquire_local_spec size kind job st :
  cinv st -> no_wrap st -> has_memory_manager st -> mutex_known 0 st ->
  exists st' a, job_memory_try_acquire_local c size kind job st = Some (st', a) /\
    if m_locked (allocator st) then
      a = Blocked ALLOCATOR_MUTEX_ID /\ mem st' = mem st /\ g_mutex_storage st' = g_mutex_storage st
    else
      m_locked (allocator st') = false /\
      exists s, a = Done s /\ s_size s = size /\ s_owned s = negb (s_resource_id s =? 0) /\
        (s_resource_id s <> 0 ->
         peek other (s_resource_id s) st' =
         Some {| i_owner_node := node; i_kind := RESOURCE_KIND_MEMORY; i_descriptor := s_base s;
                 i_capacity := size; i_sync_kind := RESOURCE_SYNC_TRANSFER; i_reserved_by := job |} /\
         exists m, memory_manager_handler L METHOD_ALLOC [size; kind] 40 (mem st) = (m, Some [1; s_base s])).
Proof.
  intros Hinv Hw Hmm Hk. destruct (m_locked (allocator st)) eqn:Hl.
  - destruct (allocator_refuse job st Hinv Hk Hl) as (st' & E & Hf & Hm).
    exists st', (Blocked ALLOCATOR_MUTEX_ID). unfold job_memory_try_acquire_local, mbind, M_bind.
    rewrite (try_lock_served job st st' 0 E). destruct Hf as (_ & ? & _). done.
  - destruct (acquire_runs size kind job st Hinv Hw Hmm Hk Hl)
      as (st0 & st1 & st2 & ok & r & b & Hok & Hinv0 & Hw0 & Hmem0 & Hmm0 & E & _ & Hf & Hal & _ & Hrun).
    do 2 eexists. split; [exact Hrun|]. split; [done|]. eexists. split; [done|]. cbn. split_and!; [done|done|].
    intros Hr.
    rewrite (Hok Hr) in E.
    destruct (allocate_slice_ok L other _ _ _ _ _ _ _ _ _ Hinv0 Hw0 Hmm0 Hr E) as (Hm & _ & _ & Hp).
    split; [|exists (mem st1); by rewrite <- Hmem0].
    destruct Hf as (Hfk & _ & _ & Hfr & _ & _ & Hfi & _). by rewrite (peek_ext other r st1 st2).
Qed.

(** The allocator's mutex taken by [job]. *)
Definition taken (job : Z) st : cstate K :=
  set_g_mutex_storage (<[0%nat := {| m_locked := true; m_holder_job_id := job |}]> (g_mutex_storage st)) st.

Lemma taken_inv job st :
  cinv st -> mutex_known 0 st -> m_locked (allocator st) = false ->
  cinv (taken job st) /\ allocator (taken job st) = {| m_locked := true; m_holder_job_id := job |}.
Proof.
  intros Hinv Hk Hl. split.
  - pose proof (handle_mutex_try_lock_inv L other [0; job] 24 st Hinv) as Hi.
    by rewrite (allocator_take job st Hinv Hk Hl) in Hi.
  - destruct (ci_mutex _ Hinv) as (_ & Hlm & _). apply nth_insert_eq. rewrite Hlm. apply Nat.lt_0_succ.
Qed.

(** Releasing, given what RELEASE_SLICE does under the mutex. *)
Lemma release_runs job r st st1 ok :
  cinv st -> mutex_known 0 st -> m_locked (allocator st) = false ->
  handle_release_slice L other [r; job] 24 (taken job st) = (st1, Some [ok]) ->
  g_mutex_storage st1 = g_mutex_storage (taken job st) -> g_mutex_handles st1 = g_mutex_handles st ->
  exists st2, job_memory_try_release c r job st = Some (st2, Done (negb (ok =? 0))) /\
    mutex_frame st1 st2 /\ m_locked (allocator st2) = false.
Proof.
  intros Hinv Hk Hl E Hm Hh. destruct (taken_inv job st Hinv Hk Hl) as [Hinv0 Hal0].
  pose proof (handle_release_slice_inv L other [r; job] 24 (taken job st) Hinv0) as Hinv1. rewrite E in Hinv1. cbn [fst] in Hinv1.
  assert (allocator st1 = allocator (taken job st)) as Hal1 by (unfold allocator; by rewrite Hm).
  destruct (allocator_give job st1 Hinv1) as [Hf Hm2];
    [unfold mutex_known; by rewrite Hh|by rewrite Hal1, Hal0..|].
  exists (handle_mutex_unlock L other [0; job] st1). split_and!; [|done|].
  - unfold job_memory_try_release, mbind, M_bind.
    rewrite (try_lock_served job st (taken job st) 1 (allocator_take job st Hinv Hk Hl)).
    change (negb (negb (1 =? 0))) with false. cbv beta iota.
    rewrite (release_served r job (taken job st) st1 ok E). by rewrite unlock_served.
  - unfold allocator. rewrite Hm2, nth_insert_eq; [done|]. destruct (ci_mutex _ Hinv1) as (_ & -> & _). apply Nat.lt_0_succ.
Qed.

(** A job's memory goes back where it came from: after a job has acquired a
    slice, a release by another job is refused and leaves the memory ledger
    alone, and its own release succeeds, restores the ledger's live claims,
    destroys the resource and leaves the allocator's mutex free. *)
Theorem job_slice_roundtrip size kind job st st2 s :
  cinv st -> no_wrap st -> has_memory_manager st -> mutex_known 0 st ->
  layout_ok L -> mem_wf (mem st) -> (forall cl, MemMgr.live (mem st) cl -> 0 < c_size cl) -> is_u64 size -> 0 < size ->
  job_memory_try_acquire_local c size kind job st = Some (st2, Done s) -> s_owned s = true ->
  (forall job', job' <> job ->
     exists st3, job_memory_try_release c (s_resource_id s) job' st2 = Some (st3, Done false) /\ mem st3 = mem st2) /\
  exists st3, job_memory_try_release c (s_resource_id s) job st2 = Some (st3, Done true) /\
    (forall cl, MemMgr.live (mem st3) cl <-> MemMgr.live (mem st) cl) /\
    (forall m n, k_invoke (k st3) (s_resource_id s) m n = None) /\ m_locked (allocator st3) = false.
Proof.
  intros Hinv Hw Hmm Hk HLo Hwf Hne Hsz Hpos Hacq Hown.
  destruct (m_locked (allocator st)) eqn:Hl.
  { exfalso. destruct (allocator_refuse job st Hinv Hk Hl) as (st' & E & _).
    unfold job_memory_try_acquire_local, mbind, M_bind in Hacq.
    rewrite (try_lock_served job st st' 0 E) in Hacq. discriminate Hacq. }
  destruct (acquire_runs size kind job st Hinv Hw Hmm Hk Hl)
    as (st0 & st1 & st2' & ok & r & b & Hok & Hinv0 & Hw0 & Hmem0 & Hmm0 & E & Hinv2 & Hf & Hal & Hk2 & Hrun).
  rewrite Hrun in Hacq. injection Hacq as -> <-. cbn [s_owned s_resource_id] in *.
  apply negb_true_iff, Z.eqb_neq in Hown. rewrite (Hok Hown) in E.
  destruct (allocate_slice_ok L other _ _ _ _ _ _ _ _ _ Hinv0 Hw0 Hmm0 Hown E) as (Hm & Hmm1 & Hn & Hp).
  rewrite Hmem0 in Hm. destruct Hf as (Hfk & Hfm & Hfmm & Hfr & _ & _ & Hfi & _).
  assert (forall j, has_memory_manager (taken j st2) /\
    names (k (taken j st2)) r (OResource (Z.to_nat (g_resource_storage_next st0))) /\
    peek other r (taken j st2) = peek other r st1) as Hst.
  { intros j. unfold has_memory_manager. cbn. rewrite Hfk, Hfmm. split_and!; [done|done|by apply peek_ext]. }
  rewrite Hp in Hst. split.
  - intros job' Hj. destruct (Hst job') as (Hmm' & Hn' & Hp').
    pose proof (release_slice_cases L other r job' (taken job' st2) _ _ Hmm' Hn' Hp' eq_refl) as Hrel.
    cbn [i_reserved_by] in Hrel. rewrite (proj2 (Z.eqb_neq job job')) in Hrel by done. cbn [negb] in Hrel.
    destruct (release_runs job' r st2 _ 0 Hinv2 Hk2 Hal Hrel eq_refl eq_refl) as (st3 & -> & Hf3 & _).
    exists st3. split; [done|]. by destruct Hf3 as (_ & -> & _).
  - destruct (Hst job) as (Hmm' & Hn' & Hp').
    assert (mem (taken job st2) = mem st1) as Hm' by done.
    pose proof (release_allocated L other r job (taken job st2) _ _ (mem st) size kind Hmm' Hn' Hp' eq_refl eq_refl
      HLo Hwf Hne Hsz Hpos) as Hrel. rewrite Hm' in Hrel. specialize (Hrel Hm).
    destruct (handle_release_slice L other [r; job] 24 (taken job st2)) as [st4 a] eqn:E4.
    destruct Hrel as (-> & Hlive & Hgone & Hms & Hmh).
    destruct (release_runs job r st2 st4 1 Hinv2 Hk2 Hal E4 Hms Hmh) as (st3 & -> & Hf3 & Hal3).
    exists st3. destruct Hf3 as (Hk3 & Hm3 & _). rewrite Hk3, Hm3. done.
Qed.
End slices.

(** ** Faulting in a range *)

Section fault_in.
Context {W : Type} `{PageFaults W}.

Fixpoint run_all (f : Z -> W -> W * bool) (l : list Z) (w : W) : W * bool :=
  match l with
  | [] => (w, true)
  | x :: l => let '(w, ok) := f x w in if ok then run_all f l w else (w, false)
  end.

(** The [n] blocks from [x] on. *)
Fixpoint blocks (n : nat) (step x : Z) : list Z :=
  match n with O => [] | S n => x :: blocks n step (x + step) end.

Lemma elem_of_blocks n step x p :
  p ∈ blocks n step x <-> exists i, 0 <= i < Z.of_nat n /\ p = x + i * step.
Proof.
  revert x. induction n as [|n IH]; intros x; cbn [blocks].
  - rewrite elem_of_nil. split; [done|]. intros (i & ? & _). lia.
  - rewrite elem_of_cons, IH. split.
    + intros [->|(i & Hi & ->)]; [exists 0|exists (i + 1)]; lia.
    + intros (i & Hi & ->). destruct (decide (i = 0)) as [->|]; [left; lia|right; exists (i - 1); lia].
Qed.

Lemma each_block_run n fuel step x f w :
  0 < step -> 0 <= x -> x + Z.of_nat n * step < W64 -> (n < fuel)%nat ->
  each_block fuel step x (x + Z.of_nat n * step) f w = Some (run_all f (blocks n step x) w).
Proof.
  intros Hs. revert n x w. induction fuel as [|fuel IH]; intros n x w Hx Hw Hf; [lia|cbn [each_block]].
  destruct n as [|n]; [by rewrite (proj2 (Z.ltb_ge _ _)) by lia|].
  rewrite (proj2 (Z.ltb_lt _ _)) by lia. cbn [blocks run_all]. destruct (f x w) as [w' [|]]; [|done].
  rewrite u64_small by (unfold is_u64; lia).
  replace (x + Z.of_nat (S n) * step) with ((x + step) + Z.of_nat n * step) by lia. apply IH; lia.
Qed.

(** The blocks of size [2 ^ k] that meet [a, a + size). *)
Definition covering (k a size : Z) : list Z :=
  let x := 2 ^ k * (a / 2 ^ k) in
  blocks (Z.to_nat ((a + size + (2 ^ k - 1)) / 2 ^ k - a / 2 ^ k)) (2 ^ k) x.

Lemma elem_of_covering k a size p :
  0 <= k -> 0 <= a -> 0 < size ->
  p ∈ covering k a size <-> p mod 2 ^ k = 0 /\ p < a + size /\ a < p + 2 ^ k.
Proof.
  intros Hk Ha Hsz. unfold covering. rewrite elem_of_blocks.
  pose proof (Z.pow_pos_nonneg 2 k). set (g := 2 ^ k) in *.
  pose proof (Z.div_mod a g ltac:(lia)). pose proof (Z.mod_pos_bound a g ltac:(lia)).
  pose proof (Z.div_mod (a + size + (g - 1)) g ltac:(lia)).
  pose proof (Z.mod_pos_bound (a + size + (g - 1)) g ltac:(lia)).
  set (lo := a / g) in *. set (hi := (a + size + (g - 1)) / g) in *. split.
  - intros (i & Hi & ->). split_and!; [|nia|nia].
    replace (g * lo + i * g) with ((lo + i) * g) by lia. apply Z.mod_mul. lia.
  - intros (Hm & Hlt & Hgt). apply Z.mod_divide in Hm as [q ->]; [|lia]. exists (q - lo). split; [|nia].
    assert (lo <= q) by nia. assert (q < hi) by nia. lia.
Qed.

Lemma NoDup_blocks n step x : 0 < step -> NoDup (blocks n step x).
Proof.
  intros Hs. revert x. induction n as [|n IH]; intros x; cbn [blocks]; constructor; [|apply IH].
  rewrite elem_of_blocks. intros (i & ? & ?). nia.
Qed.

(** A loop of [fault_in] runs over the covering blocks. *)
Lemma each_block_covers k m d size f w :
  0 <= k -> 0 <= m -> 2 ^ (m + k) = W64 -> 0 <= d -> 0 < size -> d + size + (2 ^ k - 1) < W64 ->
  let mask := Z.shiftl (Z.ones m) k in
  let start := Z.land d mask in
  let stop := Z.land (u64 (u64 (d + size) + (2 ^ k - 1))) mask in
  each_block (blocks_fuel (2 ^ k) start stop) (2 ^ k) start stop f w = Some (run_all f (covering k d size) w).
Proof.
  intros Hk Hm E Hd Hs Hw mask start stop. pose proof (Z.pow_pos_nonneg 2 k ltac:(lia) Hk).
  assert (start = 2 ^ k * (d / 2 ^ k)) as -> by (apply align_down; lia).
  assert (stop = 2 ^ k * ((d + size + (2 ^ k - 1)) / 2 ^ k)) as ->.
  { unfold stop. rewrite (u64_small (d + size)) by (unfold is_u64; lia).
    rewrite u64_small by (unfold is_u64; lia). apply align_down; lia. }
  unfold covering. set (g := 2 ^ k) in *. set (lo := d / g). set (hi := (d + size + (g - 1)) / g).
  assert (lo <= hi) by (apply Z.div_le_mono; lia). assert (0 <= lo) by (apply Z.div_pos; lia).
  assert (g * hi <= d + size + (g - 1)) by (apply Z.mul_div_le; lia).
  replace (g * hi) with (g * lo + Z.of_nat (Z.to_nat (hi - lo)) * g) by nia.
  apply each_block_run; [lia|nia|nia|]. unfold blocks_fuel.
  replace (g * lo + Z.of_nat (Z.to_nat (hi - lo)) * g - g * lo) with ((hi - lo) * g) by nia.
  rewrite Z.div_mul by lia. lia.
Qed.

(** What [fault_in] runs, in order. *)
Lemma fault_in_run pml4 d size sync w :
  0 <= d -> 0 < size -> d + size + 0x1FFFFF < W64 ->
  fault_in pml4 d size sync w =
  Some (let '(w, split) :=
          run_all (fun r w => let '(w, ok) := pagefault_split_region pml4 r w in
                              (w, ok || negb (pagefault_debug_read_pte pml4 r w =? 0)))
            (covering 21 d size) (pagefault_init pml4 w) in
        if split then
          run_all (if sync =? RESOURCE_SYNC_STREAM then pagefault_mark_absent pml4 else pagefault_mark_cow pml4)
            (covering 12 d size) w
        else (w, false)).
Proof.
  intros Hd Hs Hw.
  unfold fault_in. cbv zeta.
  pose proof (each_block_covers 21 43 d size) as H21. pose proof (each_block_covers 12 52 d size) as H12.
  unfold align_region, align_page. cbv zeta in H21, H12.
  change (Z.shiftl (Z.ones 43) 21) with 0xFFFFFFFFFFE00000 in H21. change (Z.shiftl (Z.ones 52) 12) with 0xFFFFFFFFFFFFF000 in H12.
  change (2 ^ 21) with 0x200000 in H21. change (2 ^ 12) with 0x1000 in H12.
  change (0x200000 - 1) with 0x1FFFFF in H21. change (0x1000 - 1) with 0xFFF in H12.
  rewrite H21 by (done || lia).
  destruct (run_all _ (covering 21 d size) _) as [w1 [|]]; [|done].
  rewrite H12 by (done || lia). by destruct (sync =? RESOURCE_SYNC_STREAM).
Qed.

(** Acquiring somebody else's streamed or copy-on-write memory protects all
    of it and nothing else: [fault_in] ends, makes every 2 MiB region that
    meets the range page-granular, then marks every 4 KiB page that meets it,
    each once and in order of address, and succeeds exactly when all of those
    steps do. *)
Theorem fault_in_covers pml4 d size sync w :
  0 <= d -> 0 < size -> d + size + 0x1FFFFF < W64 ->
  exists regions pages,
    (forall r, r ∈ regions <-> r mod 2 ^ 21 = 0 /\ r < d + size /\ d < r + 2 ^ 21) /\
    (forall p, p ∈ pages <-> p mod 2 ^ 12 = 0 /\ p < d + size /\ d < p + 2 ^ 12) /\
    NoDup regions /\ NoDup pages /\
    fault_in pml4 d size sync w =
    Some (let '(w, split) :=
            run_all (fun r w => let '(w, ok) := pagefault_split_region pml4 r w in
                                (w, ok || negb (pagefault_debug_read_pte pml4 r w =? 0)))
              regions (pagefault_init pml4 w) in
          if split then
            run_all (if sync =? RESOURCE_SYNC_STREAM then pagefault_mark_absent pml4 else pagefault_mark_cow pml4)
              pages w
          else (w, false)).
Proof.
  intros Hd Hs Hw.
  exists (covering 21 d size), (covering 12 d size). split_and!.
  - intros r. apply elem_of_covering; lia.
  - intros p. apply elem_of_covering; lia.
  - apply NoDup_blocks. lia.
  - apply NoDup_blocks. lia.
  - by apply fault_in_run.
Qed.
End fault_in.

(** ** Instances *)

Lemma demo_allocator : mutex_known 0 demo_state.
Proof. split; [unfold MAX_MUTEXES; lia|vm_compute; discriminate]. Qed.

Lemma demo_bound : bound demo_client (local_invoke layout_x86_64 no_other 99) 99 1.
Proof. reflexivity. Qed.

Lemma acquire_local_spec_witness :
  exists st' a, job_memory_try_acquire_local demo_client 4096 MEM_KIND_JOB_SLICE 15 demo_state = Some (st', a) /\
    if m_locked (allocator demo_state) then
      a = Blocked ALLOCATOR_MUTEX_ID /\ mem st' = mem demo_state /\ g_mutex_storage st' = g_mutex_storage demo_state
    else
      m_locked (allocator st') = false /\
      exists s, a = Done s /\ s_size s = 4096 /\ s_owned s = negb (s_resource_id s =? 0) /\
        (s_resource_id s <> 0 ->
         peek no_other (s_resource_id s) st' =
         Some {| i_owner_node := 1; i_kind := RESOURCE_KIND_MEMORY; i_descriptor := s_base s;
                 i_capacity := 4096; i_sync_kind := RESOURCE_SYNC_TRANSFER; i_reserved_by := 15 |} /\
         exists m, memory_manager_handler layout_x86_64 METHOD_ALLOC [4096; MEM_KIND_JOB_SLICE] 40 (mem demo_state) =
           (m, Some [1; s_base s])).
Proof.
  exact (acquire_local_spec layout_x86_64 no_other demo_client _ 99 1 demo_bound 4096 MEM_KIND_JOB_SLICE 15
    demo_state demo_inv demo_no_wrap demo_mm demo_allocator).
Defined.

(** Job 15 acquires a page: resource 16 at the bottom of the window. *)
Definition demo_slice : job_memory_slice_t :=
  {| s_resource_id := 16; s_base := 29360128; s_size := 4096; s_sync_kind := 0; s_owned := true |}.

Lemma job_slice_roundtrip_witness :
  exists st2, job_memory_try_acquire_local demo_client 4096 MEM_KIND_JOB_SLICE 15 demo_state = Some (st2, Done demo_slice) /\
    exists st3, job_memory_try_release demo_client 16 15 st2 = Some (st3, Done true) /\
      m_locked (allocator st3) = false.
Proof.
  assert (snd <$> job_memory_try_acquire_local demo_client 4096 MEM_KIND_JOB_SLICE 15 demo_state = Some (Done demo_slice)) as Hs
    by (vm_compute; reflexivity).
  destruct (job_memory_try_acquire_local demo_client 4096 MEM_KIND_JOB_SLICE 15 demo_state) as [[st2 a]|] eqn:E;
    [|discriminate Hs].
  cbn in Hs. injection Hs as ->. exists st2. split; [reflexivity|].
  destruct (job_slice_roundtrip layout_x86_64 no_other demo_client _ 99 1 demo_bound 4096 MEM_KIND_JOB_SLICE 15
    demo_state st2 demo_slice demo_inv demo_no_wrap demo_mm demo_allocator x86_layout_ok) as [_ (st3 & H & _ & _ & Hf)].
  - rewrite demo_mem. apply mem_boot_wf.
  - rewrite demo_mem. apply mem_boot_nonempty.
  - by split.
  - lia.
  - exact E.
  - reflexivity.
  - exists st3. split; [exact H|exact Hf].
Defined.

(** A backend that logs what it is asked: regions split, pages marked. *)
#[local] Instance log_faults : PageFaults (list Z) := {|
  arch_has_mmu := true;
  pagefault_supported := true;
  pagefault_init _ w := w;
  pagefault_split_region _ r w := (w ++ [r], true);
  pagefault_debug_read_pte _ _ _ := 0;
  pagefault_mark_absent _ p w := (w ++ [p], true);
  pagefault_mark_cow _ p w := (w ++ [p], true)
|}.

Lemma fault_in_covers_witness :
  fault_in 0 0x1ff800 0x1000 RESOURCE_SYNC_STREAM [] = Some ([0; 0x200000; 0x1ff000; 0x200000], true) /\
  exists regions pages : list Z,
    (forall r, r ∈ regions <-> r mod 2 ^ 21 = 0 /\ r < 0x1ff800 + 0x1000 /\ 0x1ff800 < r + 2 ^ 21) /\
    (forall p, p ∈ pages <-> p mod 2 ^ 12 = 0 /\ p < 0x1ff800 + 0x1000 /\ 0x1ff800 < p + 2 ^ 12).
Proof.
  split; [vm_compute; reflexivity|].
  destruct (fault_in_covers 0 0x1ff800 0x1000 RESOURCE_SYNC_STREAM []) as (rs & ps & Hr & Hp & _);
    [lia|lia|unfold W64; lia|]. by exists rs, ps.
Defined.
