(* ===== verification/JobExec.v ===== *)
(** * Jobs resident on a core (coreinit/job_exec.c)

    The per-core table of execution contexts, the pool of their stacks, and
    wait and wake.  [job_exec_switch] itself is assembly: it saves the running
    context and resumes another.  Here an operation that ends in it takes the
    stack pointer [sp] under which the caller's context is saved and answers
    [Switch], with the stack pointer that is resumed. *)

From S2P Require Import Prelude.

Definition JOB_EXEC_MAX_RESIDENT : nat := 16.
Definition JOB_EXEC_STACK_SIZE : Z := 0x8000.

Inductive job_exec_state_t := JOB_EXEC_UNUSED | JOB_EXEC_READY | JOB_EXEC_RUNNING | JOB_EXEC_BLOCKED.

#[global] Instance job_exec_state_eq_dec : EqDecision job_exec_state_t.
Proof. solve_decision. Defined.

(** [waiting_on] is the address of a queue, 0 for NULL. *)
Record job_exec_slot_t := {
  x_saved_rsp : Z; x_priority : Z; x_state : job_exec_state_t; x_stack_slot : Z; x_waiting_on : Z }.

#[global] Instance slot_inhabited : Inhabited job_exec_slot_t :=
  populate {| x_saved_rsp := 0; x_priority := 0; x_state := JOB_EXEC_UNUSED; x_stack_slot := 0; x_waiting_on := 0 |}.

(** The part of [struct core_state] this file works on; [job_stacks] is the
    address of the stacks. *)
Record core := {
  job_table : list job_exec_slot_t;   (* [JOB_EXEC_MAX_RESIDENT] *)
  job_stack_used : list bool;         (* [JOB_EXEC_MAX_RESIDENT] *)
  current_job : Z;                    (* int, -1: no job *)
  job_stacks : Z }.

Definition set_table (t : list job_exec_slot_t) (cs : core) : core :=
  {| job_table := t; job_stack_used := job_stack_used cs; current_job := current_job cs; job_stacks := job_stacks cs |}.
Definition set_stack_used (u : list bool) (cs : core) : core :=
  {| job_table := job_table cs; job_stack_used := u; current_job := current_job cs; job_stacks := job_stacks cs |}.
Definition set_current (i : Z) (cs : core) : core :=
  {| job_table := job_table cs; job_stack_used := job_stack_used cs; current_job := i; job_stacks := job_stacks cs |}.

Definition set_state (s : job_exec_state_t) (x : job_exec_slot_t) : job_exec_slot_t :=
  {| x_saved_rsp := x_saved_rsp x; x_priority := x_priority x; x_state := s; x_stack_slot := x_stack_slot x;
     x_waiting_on := x_waiting_on x |}.
Definition set_waiting (q : Z) (x : job_exec_slot_t) : job_exec_slot_t :=
  {| x_saved_rsp := x_saved_rsp x; x_priority := x_priority x; x_state := x_state x; x_stack_slot := x_stack_slot x;
     x_waiting_on := q |}.
Definition set_rsp (rsp : Z) (x : job_exec_slot_t) : job_exec_slot_t :=
  {| x_saved_rsp := rsp; x_priority := x_priority x; x_state := x_state x; x_stack_slot := x_stack_slot x;
     x_waiting_on := x_waiting_on x |}.

Definition update (i : nat) (f : job_exec_slot_t -> job_exec_slot_t) (cs : core) : core :=
  set_table (<[i := f (job_table cs !!? i)]> (job_table cs)) cs.

Definition state_of (cs : core) (i : nat) : job_exec_state_t := x_state (job_table cs !!? i).

(** ** Stacks *)

(** The state, [*out_top] and [*out_slot]; the core's state may be NULL. *)
Definition job_exec_alloc_stack (cs : option core) : option core * Z * Z :=
  match cs with
  | None => (None, 0, -1)
  | Some cs =>
      match first_index negb (job_stack_used cs) with
      | Some i => (Some (set_stack_used (<[i := true]> (job_stack_used cs)) cs),
                   job_stacks cs + Z.of_nat i * JOB_EXEC_STACK_SIZE + JOB_EXEC_STACK_SIZE, Z.of_nat i)
      | None => (Some cs, 0, -1)
      end
  end.

Definition job_exec_free_stack (slot : Z) (cs : option core) : option core :=
  match cs with
  | None => None
  | Some cs =>
      Some (if (0 <=? slot) && (slot <? Z.of_nat JOB_EXEC_MAX_RESIDENT)
            then set_stack_used (<[Z.to_nat slot := false]> (job_stack_used cs)) cs else cs)
  end.

(** ** A job's first context (job_exec_x86_64.c, job_exec_aarch64.c)

    The saved context that is built at the top of a new job's stack: its
    address and its words in the order of [job_saved_context_t] and
    [job_saved_context_aarch64_t]. *)
Definition align16 (x : Z) : Z := Z.land x 0xFFFFFFFFFFFFFFF0.

Definition job_exec_init_x86_64 (stack_top entry arg : Z) : Z * list Z :=
  let top := align16 stack_top in
  (u64 (top - 160),
   replicate 8 0                  (* r15 ... r8 *)
   ++ [arg; 0; 0; 0; 0; 0; 0]     (* rdi rsi rbp rbx rdx rcx rax *)
   ++ [entry; 0x08; 0x202; top; 0x10]).  (* rip cs rflags rsp ss *)

Definition job_exec_init_aarch64 (stack_top entry arg : Z) : Z * list Z :=
  let top := align16 stack_top in
  (u64 (top - 264),
   [arg] ++ replicate 29 0        (* x0, x1 ... x29 *)
   ++ [entry; top; 0]).           (* x30 sp pstate *)

(** ** The table *)

(** The slot with property [p] of the highest priority, the first of equals:
    both loops of the file. *)
Definition pick_slot (p : job_exec_slot_t -> bool) (cs : core) : option nat :=
  fold_left (fun best i =>
    if p (job_table cs !!? i) &&
       match best with None => true | Some b => x_priority (job_table cs !!? b) <? x_priority (job_table cs !!? i) end
    then Some i else best) (seq 0 JOB_EXEC_MAX_RESIDENT) None.

Definition is_ready (x : job_exec_slot_t) : bool := bool_decide (x_state x = JOB_EXEC_READY).
Definition waits_on (q : Z) (x : job_exec_slot_t) : bool :=
  bool_decide (x_state x = JOB_EXEC_BLOCKED) && (x_waiting_on x =? q).

Definition pick_highest_priority_ready (cs : core) : option nat := pick_slot is_ready cs.

Definition spawned (saved_rsp priority : Z) (x : job_exec_slot_t) : job_exec_slot_t :=
  {| x_saved_rsp := saved_rsp; x_priority := priority; x_state := JOB_EXEC_READY;
     x_stack_slot := x_stack_slot x; x_waiting_on := 0 |}.

Definition job_exec_spawn (saved_rsp priority : Z) (cs : option core) : option core * Z :=
  match cs with
  | None => (None, -1)
  | Some cs =>
      match first_index (fun x => bool_decide (x_state x = JOB_EXEC_UNUSED)) (job_table cs) with
      | Some i => (Some (update i (spawned saved_rsp priority) cs), Z.of_nat i)
      | None => (Some cs, -1)
      end
  end.

(** ** Wait and wake *)

Inductive outcome :=
| Continue (cs : core)             (* the caller goes on *)
| Switch (cs : core) (rsp : Z)     (* [rsp] is resumed *)
| Halt                             (* waits for interrupts forever *)
| Undefined.                       (* an access outside of the table *)

(** [cs->job_table[i]] for an [int] index. *)
Definition in_table (i : Z) : bool := (0 <=? i) && (i <? Z.of_nat JOB_EXEC_MAX_RESIDENT).

Definition job_exec_wait (q sp : Z) (cs : option core) : outcome :=
  match cs with
  | None => Halt
  | Some cs =>
      if negb (in_table (current_job cs)) then Undefined
      else
        let me := Z.to_nat (current_job cs) in
        let cs := update me (set_state JOB_EXEC_BLOCKED) cs in
        let cs := update me (set_waiting q) cs in
        match pick_highest_priority_ready cs with
        | None => Halt
        | Some next_idx =>
            let cs := update next_idx (set_state JOB_EXEC_RUNNING) cs in
            let cs := set_current (Z.of_nat next_idx) cs in
            let load := x_saved_rsp (job_table cs !!? next_idx) in
            Switch (update me (set_rsp sp) cs) load
        end
  end.

Definition job_exec_wake (q sp : Z) (cs : option core) : outcome :=
  match cs with
  | None => Halt
  | Some cs =>
      match pick_slot (waits_on q) cs with
      | None => Continue cs
      | Some woken_idx =>
          let cs := update woken_idx (set_state JOB_EXEC_READY) cs in
          let cs := update woken_idx (set_waiting 0) cs in
          let cur := current_job cs in
          if negb (0 <=? cur) then Continue cs
          else if negb (in_table cur) then Undefined
          else
            let cur := Z.to_nat cur in
            if x_priority (job_table cs !!? cur) <? x_priority (job_table cs !!? woken_idx) then
              let cs := update cur (set_state JOB_EXEC_READY) cs in
              let cs := update woken_idx (set_state JOB_EXEC_RUNNING) cs in
              let cs := set_current (Z.of_nat woken_idx) cs in
              let load := x_saved_rsp (job_table cs !!? woken_idx) in
              Switch (update cur (set_rsp sp) cs) load
            else Continue cs
      end
  end.

(** The caller's own context goes to [*save_rsp_to], outside of the table. *)
Definition job_exec_run (slot : Z) (cs : option core) : outcome :=
  match cs with
  | None => Halt
  | Some cs =>
      if negb (in_table slot) then Undefined
      else
        let cs := update (Z.to_nat slot) (set_state JOB_EXEC_RUNNING) cs in
        let cs := set_current slot cs in
        Switch cs (x_saved_rsp (job_table cs !!? Z.to_nat slot))
  end.

(** The slot whose [saved_rsp] the address returned is of. *)
Definition job_exec_current_rsp_slot (cs : option core) : option Z := current_job <$> cs.

(** [job_exec_switch(job_exec_current_rsp_slot(), ...)]: the current job's
    context is saved in its slot, and something outside of the table resumed. *)
Definition job_exec_leave (sp : Z) (cs : option core) : outcome :=
  match cs, job_exec_current_rsp_slot cs with
  | Some cs, Some i => if in_table i then Continue (update (Z.to_nat i) (set_rsp sp) cs) else Undefined
  | _, _ => Halt
  end.

(** [core_state_init_defaults] on zeroed memory. *)
Definition core_start (stacks : Z) : core :=
  {| job_table := replicate JOB_EXEC_MAX_RESIDENT inhabitant;
     job_stack_used := replicate JOB_EXEC_MAX_RESIDENT false; current_job := -1; job_stacks := stacks |}.

(** ** What the loops pick *)

Definition slot (cs : core) (i : nat) : job_exec_slot_t := job_table cs !!? i.
Definition prio_of (cs : core) (i : nat) : Z := x_priority (slot cs i).

Lemma pick_slot_best p cs :
  best (fun i => p (slot cs i)) (prio_of cs) JOB_EXEC_MAX_RESIDENT (pick_slot p cs).
Proof.
  unfold pick_slot. set (step := fun best i => _).
  assert (forall n, best (fun i => p (slot cs i)) (prio_of cs) n (fold_left step (seq 0 n) None)) as H; [|apply H].
  induction n as [|n IH]; [by intros i Hi; lia|]. rewrite seq_S, fold_left_app. cbn [fold_left Nat.add].
  unfold step at 1. fold (slot cs n). destruct (p (slot cs n)) eqn:Hp; cbn [andb].
  - by apply (best_take (fun i => p (slot cs i)) (prio_of cs)).
  - by apply (best_skip (fun i => p (slot cs i)) (prio_of cs)).
Qed.

(** ** The state of a core *)

Record exec_ok (cs : core) : Prop := {
  eo_len : length (job_table cs) = JOB_EXEC_MAX_RESIDENT;
  eo_cur : current_job cs = -1 \/
    exists i, (i < JOB_EXEC_MAX_RESIDENT)%nat /\ current_job cs = Z.of_nat i /\ state_of cs i = JOB_EXEC_RUNNING
}.

Lemma slot_update_eq i f cs : (i < length (job_table cs))%nat -> slot (update i f cs) i = f (slot cs i).
Proof. apply nth_insert_eq. Qed.

Lemma slot_update_ne i j f cs : i <> j -> slot (update i f cs) j = slot cs j.
Proof. apply nth_insert_ne. Qed.

Lemma length_update i f cs : length (job_table (update i f cs)) = length (job_table cs).
Proof. apply length_insert. Qed.

Lemma slot_current i j cs : slot (set_current i cs) j = slot cs j.
Proof. done. Qed.

(** What an operation that switches from job [me] (if any) to job [n] does. *)
Record switched (cs cs' : core) (me : option nat) (n : nat) (rsp : Z) (park : job_exec_slot_t -> job_exec_slot_t) : Prop := {
  sw_len : length (job_table cs') = length (job_table cs);
  sw_cur : current_job cs' = Z.of_nat n;
  sw_next : slot cs' n = set_state JOB_EXEC_RUNNING (set_waiting (x_waiting_on (slot cs' n)) (slot cs n));
  sw_rsp : rsp = x_saved_rsp (slot cs n);
  sw_me : forall i, me = Some i -> i <> n /\ slot cs' i = park (slot cs i);
  sw_rest : forall i, i <> n -> me <> Some i -> slot cs' i = slot cs i
}.

Lemma length_current i cs : length (job_table (set_current i cs)) = length (job_table cs).
Proof. done. Qed.

Ltac slots := repeat first
  [ rewrite slot_current
  | rewrite slot_update_eq by (rewrite ?length_update, ?length_current, ?length_update; lia)
  | rewrite slot_update_ne by congruence ].

(** Waiting: the caller is parked on [q] under [sp] and the best ready job
    runs, or there is none. *)
Lemma job_exec_wait_spec q sp cs i :
  exec_ok cs -> current_job cs = Z.of_nat i -> (i < JOB_EXEC_MAX_RESIDENT)%nat ->
  state_of cs i = JOB_EXEC_RUNNING ->
  (job_exec_wait q sp (Some cs) = Halt /\
   best (fun j => is_ready (slot cs j)) (prio_of cs) JOB_EXEC_MAX_RESIDENT None) \/
  exists cs' n rsp, job_exec_wait q sp (Some cs) = Switch cs' rsp /\
    best (fun j => is_ready (slot cs j)) (prio_of cs) JOB_EXEC_MAX_RESIDENT (Some n) /\
    switched cs cs' (Some i) n rsp
      (fun x => set_rsp sp (set_waiting q (set_state JOB_EXEC_BLOCKED x))).
Proof.
  intros Hok Hcur Hi Hrun. pose proof (eo_len _ Hok) as Hlen.
  unfold job_exec_wait, in_table. rewrite Hcur. rewrite (proj2 (Z.leb_le _ _)), (proj2 (Z.ltb_lt _ _)) by lia.
  cbn [andb negb]. rewrite Nat2Z.id. set (cs1 := update i (set_waiting q) (update i (set_state JOB_EXEC_BLOCKED) cs)).
  assert (slot cs1 i = set_waiting q (set_state JOB_EXEC_BLOCKED (slot cs i))) as Hme by (unfold cs1; by slots).
  assert (forall j, j <> i -> slot cs1 j = slot cs j) as Hne by (intros j Hj; unfold cs1; by slots).
  assert (length (job_table cs1) = JOB_EXEC_MAX_RESIDENT) as Hlen1 by (unfold cs1; by rewrite !length_update).
  assert (best (fun j => is_ready (slot cs j)) (prio_of cs) JOB_EXEC_MAX_RESIDENT (pick_slot is_ready cs1)) as Hb.
  { assert (forall j, is_ready (slot cs1 j) = is_ready (slot cs j)) as Er.
    { intros j. destruct (decide (j = i)) as [->|]; [|by rewrite Hne].
      rewrite Hme. unfold is_ready. cbn. fold (state_of cs i). unfold state_of in Hrun. fold (slot cs i) in Hrun. by rewrite Hrun. }
    assert (forall j, prio_of cs1 j = prio_of cs j) as Ep.
    { intros j. unfold prio_of. destruct (decide (j = i)) as [->|]; [by rewrite Hme|by rewrite Hne]. }
    apply (best_ext _ (prio_of cs1)); [done|]. pose proof (pick_slot_best is_ready cs1) as Hp.
    destruct (pick_slot is_ready cs1) as [b|]; simpl in Hp |- *; [|intros; rewrite <- Er; by apply Hp].
    rewrite <- Er. destruct Hp as (? & ? & Hp). split_and!; [done..|]. intros j Hj HPj. apply Hp; [done|]. by rewrite Er. }
  unfold pick_highest_priority_ready. destruct (pick_slot is_ready cs1) as [n|]; [right|by left].
  destruct Hb as (Hn & Hrdy & Hb). assert (n <> i) as Hni.
  { intros ->. unfold is_ready in Hrdy. apply bool_decide_eq_true in Hrdy. unfold state_of in Hrun. unfold slot in Hrdy. congruence. }
  do 3 eexists. split; [reflexivity|]. split; [done|]. split.
  - rewrite length_update. change (job_table (set_current ?x ?c)) with (job_table c). rewrite length_update. congruence.
  - done.
  - slots. rewrite Hne by done. by destruct (slot cs n).
  - fold (slot (set_current (Z.of_nat n) (update n (set_state JOB_EXEC_RUNNING) cs1)) n). slots. by rewrite Hne.
  - intros j [= <-]. split; [done|]. slots. by rewrite Hme.
  - intros j Hj Hm. slots. apply Hne. congruence.
Qed.

(** Waking: the best job that waits on [q] is ready, and runs at once when it
    outranks the caller, who is then ready. *)
Lemma job_exec_wake_spec q sp cs :
  exec_ok cs ->
  (job_exec_wake q sp (Some cs) = Continue cs /\
   best (fun j => waits_on q (slot cs j)) (prio_of cs) JOB_EXEC_MAX_RESIDENT None) \/
  exists n, best (fun j => waits_on q (slot cs j)) (prio_of cs) JOB_EXEC_MAX_RESIDENT (Some n) /\
  ((exists cs', job_exec_wake q sp (Some cs) = Continue cs' /\ current_job cs' = current_job cs /\
      length (job_table cs') = length (job_table cs) /\
      (forall i, current_job cs = Z.of_nat i -> prio_of cs n <= prio_of cs i) /\
      slot cs' n = set_waiting 0 (set_state JOB_EXEC_READY (slot cs n)) /\
      forall i, i <> n -> slot cs' i = slot cs i) \/
   (exists cs' cur rsp, job_exec_wake q sp (Some cs) = Switch cs' rsp /\
      current_job cs = Z.of_nat cur /\ (cur < JOB_EXEC_MAX_RESIDENT)%nat /\ prio_of cs cur < prio_of cs n /\
      switched cs cs' (Some cur) n rsp (fun x => set_rsp sp (set_state JOB_EXEC_READY x)))).
Proof.
  intros Hok. pose proof (eo_len _ Hok) as Hlen. unfold job_exec_wake.
  pose proof (pick_slot_best (waits_on q) cs) as Hb. destruct (pick_slot (waits_on q) cs) as [n|]; [right|by left].
  exists n. split; [done|]. destruct Hb as (Hn & Hw & _). apply andb_prop in Hw as [Hw _]. apply bool_decide_eq_true in Hw.
  set (cs1 := update n (set_waiting 0) (update n (set_state JOB_EXEC_READY) cs)).
  assert (slot cs1 n = set_waiting 0 (set_state JOB_EXEC_READY (slot cs n))) as Hme by (unfold cs1; by slots).
  assert (forall j, j <> n -> slot cs1 j = slot cs j) as Hne by (intros j Hj; unfold cs1; by slots).
  assert (length (job_table cs1) = JOB_EXEC_MAX_RESIDENT) as Hlen1 by (unfold cs1; by rewrite !length_update).
  change (current_job cs1) with (current_job cs).
  destruct (eo_cur _ Hok) as [Hc|(cur & Hcn & Hc & Hrun)].
  { left. exists cs1. rewrite Hc. split_and!; [done..|congruence| |done|done]. intros; lia. }
  assert (cur <> n) as Hcur by (intros ->; unfold state_of, slot in *; congruence).
  rewrite Hc. unfold in_table. rewrite (proj2 (Z.leb_le _ _)), (proj2 (Z.ltb_lt _ _)) by lia. cbn [andb negb].
  rewrite Nat2Z.id. fold (slot cs1 cur) (slot cs1 n). rewrite Hme, (Hne cur) by done. cbn [x_priority set_waiting set_state].
  fold (prio_of cs cur) (prio_of cs n). destruct (prio_of cs cur <? prio_of cs n) eqn:Hp; [right|left].
  - exists (update cur (set_rsp sp) (set_current (Z.of_nat n) (update n (set_state JOB_EXEC_RUNNING) (update cur (set_state JOB_EXEC_READY) cs1)))), cur.
    eexists. split; [reflexivity|]. split; [done|]. split; [done|]. split; [lia|]. split.
    + by rewrite length_update, length_current, !length_update, Hlen1.
    + done.
    + slots. by rewrite Hme.
    + fold (slot (set_current (Z.of_nat n) (update n (set_state JOB_EXEC_RUNNING) (update cur (set_state JOB_EXEC_READY) cs1))) n).
      slots. by rewrite Hme.
    + intros j [= <-]. split; [done|]. slots. by rewrite Hne.
    + intros j Hj Hm. slots. by apply Hne.
  - exists cs1. split_and!; [done..|congruence| |done|done]. intros i Hi. assert (i = cur) as -> by lia. lia.
Qed.

(** ** Executions of a core *)

(** What happens to contexts: job [i] is given its first one, its own is saved
    as it waits or is preempted, saved as it leaves for the driver, or
    resumed. *)
Inductive event :=
| Spawned (i : nat) (rsp : Z) | Saved (i : nat) (rsp : Z) | Left (i : nat) (rsp : Z) | Resumed (i : nat) (rsp : Z).

(** A core, and the job in control, [None]: the driver, outside of any job.
    The driver enters any slot that was handed out, job in any state; the job
    in control waits, wakes and leaves; a wake that does not switch comes from
    anywhere, an interrupt handler included. *)
Inductive exec_step : core * option nat -> list event -> core * option nat -> Prop :=
| step_spawn cs act rsp prio cs' i :
    job_exec_spawn rsp prio (Some cs) = (Some cs', Z.of_nat i) -> exec_step (cs, act) [Spawned i rsp] (cs', act)
| step_refused cs act rsp prio cs' :
    job_exec_spawn rsp prio (Some cs) = (Some cs', -1) -> exec_step (cs, act) [] (cs', act)
| step_run cs i cs' rsp :
    state_of cs i <> JOB_EXEC_UNUSED -> job_exec_run (Z.of_nat i) (Some cs) = Switch cs' rsp ->
    exec_step (cs, None) [Resumed i rsp] (cs', Some i)
| step_wait cs i q sp cs' n rsp :
    job_exec_wait q sp (Some cs) = Switch cs' rsp -> current_job cs' = Z.of_nat n ->
    exec_step (cs, Some i) [Saved i sp; Resumed n rsp] (cs', Some n)
| step_wake cs act q sp cs' :
    job_exec_wake q sp (Some cs) = Continue cs' -> exec_step (cs, act) [] (cs', act)
| step_preempt cs i q sp cs' n rsp :
    job_exec_wake q sp (Some cs) = Switch cs' rsp -> current_job cs' = Z.of_nat n ->
    exec_step (cs, Some i) [Saved i sp; Resumed n rsp] (cs', Some n)
| step_leave cs i sp cs' :
    job_exec_leave sp (Some cs) = Continue cs' -> exec_step (cs, Some i) [Left i sp] (cs', None).

Inductive exec_run : core * option nat -> list event -> core * option nat -> Prop :=
| run_nil x : exec_run x [] x
| run_step x tr x1 ev x2 : exec_run x tr x1 -> exec_step x1 ev x2 -> exec_run x (tr ++ ev) x2.

(** The context job [i] is parked in after the events. *)
Definition park_event (i : nat) (c : option Z) (e : event) : option Z :=
  match e with
  | Spawned j r | Saved j r | Left j r => if decide (i = j) then Some r else c
  | Resumed j _ => if decide (i = j) then None else c
  end.
Definition parked (tr : list event) (i : nat) : option Z := fold_left (park_event i) tr None.

(** Job [i] left for the driver and was not entered again. *)
Definition leave_event (i : nat) (b : bool) (e : event) : bool :=
  match e with
  | Left j _ => if decide (i = j) then true else b
  | Spawned j _ | Saved j _ | Resumed j _ => if decide (i = j) then false else b
  end.
Definition left_behind (tr : list event) (i : nat) : bool := fold_left (leave_event i) tr false.

(** Every resumption is of the context the job is parked in, and a job's
    context is saved only while it runs. *)
Definition event_ok (tr : list event) (e : event) : Prop :=
  match e with
  | Resumed i r => parked tr i = Some r
  | Spawned i _ | Saved i _ | Left i _ => parked tr i = None
  end.
Definition coherent (tr : list event) : Prop :=
  forall pre e post, tr = pre ++ e :: post -> event_ok pre e.

Definition has_context (s : job_exec_state_t) : bool :=
  match s with JOB_EXEC_READY | JOB_EXEC_BLOCKED => true | _ => false end.

(** The context the table holds for slot [i]: that of every job but the one in
    control. *)
Definition table_context (x : core * option nat) (i : nat) : option Z :=
  if bool_decide (state_of (fst x) i = JOB_EXEC_UNUSED) || bool_decide (snd x = Some i) then None
  else Some (x_saved_rsp (slot (fst x) i)).

Record exec_inv (x : core * option nat) (tr : list event) : Prop := {
  ei_ok : exec_ok (fst x);
  ei_act : forall i, snd x = Some i -> current_job (fst x) = Z.of_nat i;
  ei_ctx : forall i, parked tr i = table_context x i;
  ei_run : forall i, state_of (fst x) i = JOB_EXEC_RUNNING <-> snd x = Some i \/ left_behind tr i = true;
  ei_coherent : coherent tr
}.

Lemma left_app tr ev i : left_behind (tr ++ ev) i = fold_left (leave_event i) ev (left_behind tr i).
Proof. apply fold_left_app. Qed.

Lemma parked_app tr ev i : parked (tr ++ ev) i = fold_left (park_event i) ev (parked tr i).
Proof. apply fold_left_app. Qed.

Lemma coherent_nil : coherent [].
Proof. intros [|] ? ? [=]. Qed.

Lemma coherent_snoc tr e : coherent tr -> event_ok tr e -> coherent (tr ++ [e]).
Proof.
  intros Hc He pre e' post Heq. destruct (decide (post = [])) as [->|Hp].
  - apply app_inj_tail in Heq as [-> ->]. done.
  - destruct (exists_last Hp) as (post' & x & ->). rewrite app_comm_cons, app_assoc in Heq.
    apply app_inj_tail in Heq as [-> _]. by eapply Hc.
Qed.

Lemma state_slot cs i : state_of cs i = x_state (slot cs i).
Proof. done. Qed.

Lemma context_of cs act i :
  state_of cs i <> JOB_EXEC_UNUSED -> act <> Some i -> table_context (cs, act) i = Some (x_saved_rsp (slot cs i)).
Proof. intros H1 H2. unfold table_context. cbn [fst snd]. by rewrite !bool_decide_eq_false_2. Qed.

Lemma no_context_active cs i : table_context (cs, Some i) i = None.
Proof. unfold table_context. cbn [fst snd]. by rewrite (bool_decide_eq_true_2 (Some i = Some i)), orb_true_r. Qed.

(** A slot that is as it was, of a job that is in control no more or less. *)
Lemma context_same cs act cs' act' i :
  slot cs' i = slot cs i -> (act' = Some i <-> act = Some i) -> table_context (cs', act') i = table_context (cs, act) i.
Proof.
  intros Hs Ha. unfold table_context. cbn [fst snd]. rewrite !state_slot, Hs.
  by rewrite (bool_decide_ext _ _ Ha).
Qed.

(** Switching from [i] to [n] keeps the invariant and the contexts. *)
Lemma switched_inv cs cs' i n rsp sp park tr :
  exec_inv (cs, Some i) tr -> (n < JOB_EXEC_MAX_RESIDENT)%nat -> has_context (state_of cs n) = true ->
  (forall x, has_context (x_state (park x)) = true /\ x_saved_rsp (park x) = sp) ->
  switched cs cs' (Some i) n rsp park -> exec_inv (cs', Some n) (tr ++ [Saved i sp; Resumed n rsp]).
Proof.
  intros [Hok Hact Hh Hrun Hco] Hn Hctx Hpark [Hlen Hc Hnext -> Hme Hrest]. cbn [fst snd] in *.
  destruct (Hme i eq_refl) as [Hin Hsi]. destruct (Hpark (slot cs i)) as [Hp1 Hp2].
  assert (state_of cs' i = x_state (park (slot cs i))) as Hsti by (by rewrite state_slot, Hsi).
  assert (state_of cs' n = JOB_EXEC_RUNNING) as Hstn by (by rewrite state_slot, Hnext).
  assert (state_of cs n <> JOB_EXEC_UNUSED) as Hnu by (by destruct (state_of cs n)).
  assert (parked tr i = None) as Hpi by (rewrite Hh; apply no_context_active).
  assert (parked tr n = Some (x_saved_rsp (slot cs n))) as Hpn by (rewrite Hh; apply context_of; congruence).
  split; cbn [fst snd].
  - split; [rewrite Hlen; apply Hok|right; by exists n].
  - intros j [= <-]. done.
  - intros j. rewrite parked_app. cbn. repeat case_decide; subst; try done.
    + by rewrite no_context_active.
    + rewrite context_of; [by rewrite Hsi|by destruct (x_state (park (slot cs i))) eqn:E; rewrite Hsti|congruence].
    + rewrite Hh. symmetry. apply context_same; [by rewrite Hrest by congruence|]. split; congruence.
  - intros j. rewrite left_app. cbn. repeat case_decide; subst; try done.
    + split; [by left|done].
    + rewrite Hsti. split; [intros E; by rewrite E in Hp1|intros [[=]|[=]]; congruence].
    + rewrite state_slot, Hrest, <- state_slot, Hrun by congruence. split; (intros [?|?]; [congruence|by right]).
  - change [Saved i sp; Resumed n (x_saved_rsp (slot cs n))] with ([Saved i sp] ++ [Resumed n (x_saved_rsp (slot cs n))]).
    rewrite app_assoc. apply coherent_snoc; [by apply coherent_snoc|]. cbn. rewrite parked_app. cbn.
    by rewrite decide_False by done.
Qed.

Lemma job_exec_spawn_spec rsp prio cs cs' r :
  job_exec_spawn rsp prio (Some cs) = (Some cs', r) ->
  (cs' = cs /\ r = -1) \/
  exists i, r = Z.of_nat i /\ (i < length (job_table cs))%nat /\ state_of cs i = JOB_EXEC_UNUSED /\
    slot cs' i = spawned rsp prio (slot cs i) /\ (forall j, j <> i -> slot cs' j = slot cs j) /\
    current_job cs' = current_job cs /\ length (job_table cs') = length (job_table cs).
Proof.
  unfold job_exec_spawn. destruct (first_index _ _) as [i|] eqn:E; intros [= <- <-]; [right|by left].
  exists i. pose proof (first_index_lt _ _ _ E) as Hi. apply first_index_Some in E as (x & Hx & Hp & _).
  apply bool_decide_eq_true in Hp. split_and!; [done..| | | | |].
  - unfold state_of. by rewrite (nth_lookup_Some _ _ _ _ Hx).
  - by slots.
  - intros j Hj. by slots.
  - done.
  - apply length_update.
Qed.

Lemma current_runs cs i : exec_ok cs -> current_job cs = Z.of_nat i ->
  (i < JOB_EXEC_MAX_RESIDENT)%nat /\ state_of cs i = JOB_EXEC_RUNNING.
Proof. intros Hok Hc. destruct (eo_cur _ Hok) as [?|(j & ? & ? & ?)]; [lia|]. by assert (i = j) as -> by lia. Qed.

(** Waiting and a preempting wake switch from the running job to one that was parked. *)
Lemma wait_switches q sp cs cs' rsp i :
  exec_ok cs -> current_job cs = Z.of_nat i -> job_exec_wait q sp (Some cs) = Switch cs' rsp ->
  exists n, best (fun j => is_ready (slot cs j)) (prio_of cs) JOB_EXEC_MAX_RESIDENT (Some n) /\
    switched cs cs' (Some i) n rsp (fun x => set_rsp sp (set_waiting q (set_state JOB_EXEC_BLOCKED x))).
Proof.
  intros Hok Hc H. destruct (current_runs _ _ Hok Hc) as [Hi Hr].
  destruct (job_exec_wait_spec q sp cs i Hok Hc Hi Hr) as [[E _]|(cs'' & n & rsp' & E & Hb & Hs)]; [congruence|].
  rewrite H in E. injection E as <- <-. by exists n.
Qed.

Lemma wake_switches q sp cs cs' rsp i :
  exec_ok cs -> current_job cs = Z.of_nat i -> job_exec_wake q sp (Some cs) = Switch cs' rsp ->
  exists n, best (fun j => waits_on q (slot cs j)) (prio_of cs) JOB_EXEC_MAX_RESIDENT (Some n) /\
    prio_of cs i < prio_of cs n /\
    switched cs cs' (Some i) n rsp (fun x => set_rsp sp (set_state JOB_EXEC_READY x)).
Proof.
  intros Hok Hc H. destruct (job_exec_wake_spec q sp cs Hok) as [[E _]|(n & Hb & [(? & E & _)|(cs'' & cur & rsp' & E & Hc' & _ & Hp & Hs)])];
    [congruence..|]. rewrite H in E. injection E as <- <-. assert (cur = i) as -> by lia. by exists n.
Qed.

Lemma is_ready_state cs n : is_ready (slot cs n) = true -> state_of cs n = JOB_EXEC_READY.
Proof. intros H. by apply bool_decide_eq_true in H. Qed.

Lemma waits_on_state q cs n : waits_on q (slot cs n) = true -> state_of cs n = JOB_EXEC_BLOCKED.
Proof. intros [H _]%andb_prop. by apply bool_decide_eq_true in H. Qed.

Lemma job_exec_run_inv cs i cs' rsp tr :
  exec_inv (cs, None) tr -> state_of cs i <> JOB_EXEC_UNUSED ->
  job_exec_run (Z.of_nat i) (Some cs) = Switch cs' rsp -> exec_inv (cs', Some i) (tr ++ [Resumed i rsp]).
Proof.
  intros [Hok Hact Hh Hrun Hco] Hu. cbn [fst snd] in *. pose proof (eo_len _ Hok) as Hlen. unfold job_exec_run.
  destruct (in_table (Z.of_nat i)) eqn:Hi; [|done]. unfold in_table in Hi. bool_simp. cbn [negb]. rewrite Nat2Z.id.
  set (cs1 := set_current _ _). fold (slot cs1 i). intros [= <- <-].
  assert (slot cs1 i = set_state JOB_EXEC_RUNNING (slot cs i)) as He by (unfold cs1; by slots).
  assert (forall j, j <> i -> slot cs1 j = slot cs j) as Hne by (intros j Hj; unfold cs1; by slots).
  split; cbn [fst snd].
  - split; [unfold cs1; by rewrite length_current, length_update|]. right. exists i. rewrite state_slot, He. split_and!; [lia|done|done].
  - by intros j [= <-].
  - intros j. rewrite parked_app. cbn [fold_left park_event]. case_decide as Hd; [subst j; by rewrite no_context_active|].
    rewrite Hh. symmetry. apply context_same; [by apply Hne|]. split; congruence.
  - intros j. rewrite left_app. cbn [fold_left leave_event]. case_decide as Hd; [subst j|].
    + rewrite state_slot, He. split; [by left|done].
    + rewrite state_slot, Hne, <- state_slot, Hrun by done. split; (intros [?|?]; [congruence|by right]).
  - apply coherent_snoc; [done|]. unfold event_ok. by rewrite Hh, context_of, He by done.
Qed.

Lemma spawn_inv cs act rsp prio cs' i tr :
  exec_inv (cs, act) tr -> job_exec_spawn rsp prio (Some cs) = (Some cs', Z.of_nat i) ->
  exec_inv (cs', act) (tr ++ [Spawned i rsp]).
Proof.
  intros [Hok Hact Hh Hrun Hco] H. cbn [fst snd] in *.
  apply job_exec_spawn_spec in H as [[_ H]|(j & Hj & Hlt & Hu & He & Hne & Hc & Hlen)]; [lia|].
  apply Nat2Z.inj in Hj as <-. assert (state_of cs' i = JOB_EXEC_READY) as Hr by (by rewrite state_slot, He).
  assert (act <> Some i) as Hai by (intros ->; pose proof (proj2 (Hrun i) ltac:(by left)); congruence).
  split; cbn [fst snd].
  - destruct Hok as [H1 H2]. split; [congruence|]. rewrite Hc. destruct H2 as [?|(k & ? & ? & Hk)]; [by left|]. right. exists k.
    split_and!; [done..|]. rewrite state_slot, Hne; [done|]. intros ->. congruence.
  - by rewrite Hc.
  - intros j. rewrite parked_app. cbn. case_decide as Hd; [subst j|].
    + rewrite context_of by congruence. by rewrite He.
    + rewrite Hh. symmetry. by apply context_same; [apply Hne|].
  - intros j. rewrite left_app. cbn. case_decide as Hd; [subst j; rewrite Hr; split; [done|intros [?|?]; congruence]|].
    by rewrite state_slot, Hne, <- state_slot, Hrun.
  - apply coherent_snoc; [done|]. cbn. rewrite Hh. unfold table_context. cbn [fst]. by rewrite bool_decide_eq_true_2.
Qed.

Lemma wake_inv cs act q sp cs' tr :
  exec_inv (cs, act) tr -> job_exec_wake q sp (Some cs) = Continue cs' -> exec_inv (cs', act) tr.
Proof.
  intros [Hok Hact Hh Hrun Hco] H. cbn [fst snd] in *.
  destruct (job_exec_wake_spec q sp cs Hok) as [[E _]|(n & (Hn & Hb & _) & [(cs'' & E & Hc & Hlen & _ & He & Hne)|(? & ? & ? & E & _)])];
    rewrite H in E; [injection E as ->; by split| |done]. injection E as <-. apply waits_on_state in Hb.
  assert (state_of cs' n = JOB_EXEC_READY) as Hrn by (by rewrite state_slot, He).
  assert (act <> Some n) as Han by (intros ->; pose proof (proj2 (Hrun n) ltac:(by left)); congruence).
  split; cbn [fst snd].
  - destruct Hok as [H1 H2]. split; [congruence|]. rewrite Hc. destruct H2 as [?|(k & ? & ? & Hk)]; [by left|]. right. exists k.
    split_and!; [done..|]. rewrite state_slot, Hne; [done|]. intros ->. congruence.
  - by rewrite Hc.
  - intros i. rewrite Hh. destruct (decide (i = n)) as [->|]; [|symmetry; by apply context_same; [apply Hne|]].
    rewrite !context_of by congruence. by rewrite He.
  - intros i. rewrite <- Hrun. destruct (decide (i = n)) as [->|]; [rewrite Hb, Hrn; done|by rewrite !state_slot, Hne].
  - done.
Qed.

Lemma leave_inv cs i sp cs' tr :
  exec_inv (cs, Some i) tr -> job_exec_leave sp (Some cs) = Continue cs' -> exec_inv (cs', None) (tr ++ [Left i sp]).
Proof.
  intros [Hok Hact Hh Hrun Hco]. cbn [fst snd] in *. specialize (Hact i eq_refl). pose proof (eo_len _ Hok) as Hlen.
  destruct (current_runs _ _ Hok Hact) as [Hi Hr]. unfold job_exec_leave, job_exec_current_rsp_slot. cbn [fmap option_fmap option_map].
  rewrite Hact. destruct (in_table _); [|done]. rewrite Nat2Z.id. intros [= <-].
  set (cs1 := update i (set_rsp sp) cs).
  assert (slot cs1 i = set_rsp sp (slot cs i)) as He by (unfold cs1; by slots).
  assert (forall j, j <> i -> slot cs1 j = slot cs j) as Hne by (intros j Hj; unfold cs1; by slots).
  assert (forall j, state_of cs1 j = state_of cs j) as Hs.
  { intros j. rewrite !state_slot. destruct (decide (j = i)) as [->|]; [by rewrite He|by rewrite Hne]. }
  split; cbn [fst snd].
  - split; [unfold cs1; by rewrite length_update|]. right. exists i. by rewrite Hs.
  - done.
  - intros j. rewrite parked_app. cbn [fold_left park_event]. case_decide as Hd; [subst j|].
    + rewrite context_of; [by rewrite He|by rewrite Hs, Hr|done].
    + rewrite Hh. symmetry. apply context_same; [by apply Hne|]. split; congruence.
  - intros j. rewrite left_app, Hs. cbn [fold_left leave_event]. case_decide as Hd; [subst j; rewrite Hr; split; [by right|done]|].
    rewrite Hrun. split; (intros [?|?]; [congruence|by right]).
  - apply coherent_snoc; [done|]. unfold event_ok. rewrite Hh. apply no_context_active.
Qed.

Lemma step_inv x ev x' tr : exec_step x ev x' -> exec_inv x tr -> exec_inv x' (tr ++ ev).
Proof.
  intros Hs Hx. destruct Hs as [cs act rsp prio cs' i H|cs act rsp prio cs' H|cs i cs' rsp Hr H|cs i q sp cs' n rsp H Hc'
    |cs act q sp cs' H|cs i q sp cs' n rsp H Hc'|cs i sp cs' H].
  - by eapply spawn_inv.
  - apply job_exec_spawn_spec in H as [[-> _]|(j & Hj & _)]; [by rewrite app_nil_r|lia].
  - by eapply job_exec_run_inv.
  - destruct (wait_switches _ _ _ _ _ _ (ei_ok _ _ Hx) (ei_act _ _ Hx i eq_refl) H) as (m & (Hm & Hb & _) & Hsw). cbn [fst] in *.
    assert (m = n) as -> by (pose proof (sw_cur _ _ _ _ _ _ Hsw); lia). apply is_ready_state in Hb.
    eapply switched_inv; eauto; first [by rewrite Hb|done].
  - rewrite app_nil_r. by eapply wake_inv.
  - destruct (wake_switches _ _ _ _ _ _ (ei_ok _ _ Hx) (ei_act _ _ Hx i eq_refl) H) as (m & (Hm & Hb & _) & _ & Hsw). cbn [fst] in *.
    assert (m = n) as -> by (pose proof (sw_cur _ _ _ _ _ _ Hsw); lia). apply waits_on_state in Hb.
    eapply switched_inv; eauto; first [by rewrite Hb|done].
  - by eapply leave_inv.
Qed.

Lemma core_start_inv stacks : exec_inv (core_start stacks, None) [].
Proof.
  assert (forall i, slot (core_start stacks) i = inhabitant) as Hs.
  { intros i. unfold slot. rewrite nth_lookup. cbn [core_start job_table]. destruct (_ !! i) as [x|] eqn:E; [|done].
    by apply lookup_replicate in E as [-> _]. }
  split; cbn [fst snd].
  - split; [apply length_replicate|by left].
  - done.
  - intros i. unfold table_context. cbn [fst]. by rewrite state_slot, Hs.
  - intros i. rewrite state_slot, Hs. split; [done|intros [[=]|[=]]].
  - apply coherent_nil.
Qed.

Lemma reach_inv stacks tr x : exec_run (core_start stacks, None) tr x -> exec_inv x tr.
Proof.
  remember (core_start stacks, None) as x0 eqn:E. induction 1 as [|x0 tr x1 ev x2 _ IH Hs]; subst; [apply core_start_inv|].
  by eapply step_inv, IH.
Qed.

(** C31: In every execution of a core from its initial state - spawning jobs, the driver entering any of them, waiting,
    waking, preempting, and jobs leaving for the driver with [job_exec_switch(job_exec_current_rsp_slot(), ...)], in
    any order - every context that is resumed is the one the job was spawned with or last saved, and none is resumed
    a second time before it is saved again; the table holds exactly the contexts of the jobs that are not in control;
    and the jobs in state RUNNING are the one in control and those that left for the driver.  A job's switching calls
    are made by the job in control, and [job_exec_run] by the driver on a slot that was handed out. *)
Theorem contexts_resumed_once stacks tr cs act :
  exec_run (core_start stacks, None) tr (cs, act) ->
  coherent tr /\
  (forall i, parked tr i = table_context (cs, act) i) /\
  (forall i, state_of cs i = JOB_EXEC_RUNNING <-> act = Some i \/ left_behind tr i = true) /\
  (forall i, act = Some i -> current_job cs = Z.of_nat i).
Proof. intros H. destruct (reach_inv _ _ _ H). by split_and!. Qed.

(** Job 1 has started and waits on queue 7, job 0 runs and wakes it: job 1, of
    higher priority, is resumed where it waited. *)
Definition one_job : core := default (core_start 0) (fst (job_exec_spawn 100 5 (Some (core_start 0)))).
Definition two_jobs : core :=
  default (core_start 0) (fst (job_exec_spawn 200 9 (fst (job_exec_spawn 100 5 (Some (core_start 0)))))).
Definition state_after (o : outcome) : core := match o with Continue cs | Switch cs _ => cs | _ => core_start 0 end.
Definition job1_runs : core := state_after (job_exec_run 1 (Some two_jobs)).
Definition job1_waits : core := state_after (job_exec_wait 7 222 (Some job1_runs)).
Definition job1_woken : core := state_after (job_exec_wake 7 111 (Some job1_waits)).
Definition job1_left : core := state_after (job_exec_leave 333 (Some job1_woken)).
Definition job0_again : core := state_after (job_exec_run 0 (Some job1_left)).
Definition two_jobs_trace : list event :=
  [] ++ [Spawned 0 100] ++ [Spawned 1 200] ++ [Resumed 1 200] ++ [Saved 1 222; Resumed 0 100] ++ [Saved 0 111; Resumed 1 222].
(** Then job 1 leaves for the driver, which enters job 0. *)
Definition left_trace : list event := two_jobs_trace ++ [Left 1 333] ++ [Resumed 0 111].

Lemma two_jobs_run : exec_run (core_start 0, None) two_jobs_trace (job1_woken, Some 1%nat).
Proof.
  unfold two_jobs_trace. rewrite !app_assoc.
  eapply run_step; [eapply run_step; [eapply run_step; [eapply run_step; [eapply run_step; [apply run_nil|]|]|]|]|].
  - apply (step_spawn (core_start 0) None 100 5 one_job 0). vm_compute. reflexivity.
  - apply (step_spawn one_job None 200 9 two_jobs 1). vm_compute. reflexivity.
  - apply (step_run two_jobs 1 job1_runs); [discriminate|]. vm_compute. reflexivity.
  - apply (step_wait job1_runs 1 7 222 job1_waits 0); [vm_compute; reflexivity|reflexivity].
  - apply (step_preempt job1_waits 0 7 111 job1_woken 1); [vm_compute; reflexivity|reflexivity].
Qed.

Lemma left_run : exec_run (core_start 0, None) left_trace (job0_again, Some 0%nat).
Proof.
  unfold left_trace. rewrite app_assoc. eapply run_step; [eapply run_step; [apply two_jobs_run|]|].
  - apply (step_leave job1_woken 1 333 job1_left). vm_compute. reflexivity.
  - apply (step_run job1_left 0 job0_again); [discriminate|]. vm_compute. reflexivity.
Qed.

Lemma contexts_resumed_once_witness :
  coherent left_trace /\ parked left_trace 1 = Some 333 /\ state_of job0_again 1 = JOB_EXEC_RUNNING /\
  current_job job0_again = 0.
Proof.
  split; [apply (contexts_resumed_once 0 left_trace job0_again (Some 0%nat) left_run)|].
  split; [vm_compute; reflexivity|]. split; vm_compute; reflexivity.
Defined.

(** No ready job outranks the running one. *)
Definition outranks_ready (cs : core) : Prop :=
  forall i j, (i < JOB_EXEC_MAX_RESIDENT)%nat -> (j < JOB_EXEC_MAX_RESIDENT)%nat ->
    current_job cs = Z.of_nat i -> state_of cs j = JOB_EXEC_READY -> prio_of cs j <= prio_of cs i.

Lemma switched_prio cs cs' i n rsp park j :
  switched cs cs' (Some i) n rsp park -> (forall x, x_priority (park x) = x_priority x) -> prio_of cs' j = prio_of cs j.
Proof.
  intros [_ _ Hnext _ Hme Hrest] Hp. unfold prio_of. destruct (decide (j = n)) as [->|]; [by rewrite Hnext|].
  destruct (decide (j = i)) as [->|]; [|by rewrite Hrest by congruence]. destruct (Hme i eq_refl) as [_ ->]. apply Hp.
Qed.

Lemma switched_ready cs cs' i n rsp park j :
  switched cs cs' (Some i) n rsp park -> j <> i -> state_of cs' j = JOB_EXEC_READY -> state_of cs j = JOB_EXEC_READY.
Proof.
  intros [_ _ Hnext _ Hme Hrest] Hj. rewrite !state_slot. destruct (decide (j = n)) as [->|]; [by rewrite Hnext|].
  by rewrite Hrest by congruence.
Qed.

Lemma wait_outranks q sp cs cs' rsp i :
  exec_ok cs -> current_job cs = Z.of_nat i -> job_exec_wait q sp (Some cs) = Switch cs' rsp -> outranks_ready cs'.
Proof.
  intros Hok Hc H. destruct (wait_switches _ _ _ _ _ _ Hok Hc H) as (n & (Hn & _ & Hb) & Hsw).
  intros a b Ha Hb' Hca Hr. assert (a = n) as -> by (pose proof (sw_cur _ _ _ _ _ _ Hsw); lia).
  rewrite !(switched_prio _ _ _ _ _ _ _ Hsw) by done. destruct (decide (b = i)) as [->|Hbi].
  { destruct (sw_me _ _ _ _ _ _ Hsw i eq_refl) as [_ E]. by rewrite state_slot, E in Hr. }
  apply (switched_ready _ _ _ _ _ _ _ Hsw Hbi) in Hr.
  assert (is_ready (slot cs b) = true) as Hrb by (apply bool_decide_eq_true; by rewrite <- state_slot).
  destruct (Hb b Hb' Hrb) as [?|[? _]]; lia.
Qed.

Lemma wake_outranks q sp cs cs' :
  exec_ok cs -> outranks_ready cs ->
  job_exec_wake q sp (Some cs) = Continue cs' \/ (exists rsp, job_exec_wake q sp (Some cs) = Switch cs' rsp) ->
  outranks_ready cs'.
Proof.
  intros Hok Ho H. destruct (job_exec_wake_spec q sp cs Hok)
    as [[E _]|(n & (Hn & _) & [(cs'' & E & Hc & _ & Hp & He & Hne)|(cs'' & i & rsp' & E & Hc & Hi & Hp & Hsw)])];
  rewrite E in H.
  - by destruct H as [[= <-]|[? [=]]].
  - destruct H as [[= <-]|[? [=]]]. intros a b Ha Hb Hca Hr. rewrite Hc in Hca.
    assert (forall j, prio_of cs'' j = prio_of cs j) as Ep.
    { intros j. unfold prio_of. destruct (decide (j = n)) as [->|]; [by rewrite He|by rewrite Hne]. }
    rewrite !Ep. destruct (decide (b = n)) as [->|]; [by apply Hp|]. apply Ho; [done..|]. by rewrite state_slot, <- Hne.
  - destruct H as [[=]|[? [= <- _]]]. intros a b Ha Hb Hca Hr.
    assert (a = n) as -> by (pose proof (sw_cur _ _ _ _ _ _ Hsw); lia).
    rewrite !(switched_prio _ _ _ _ _ _ _ Hsw) by done. destruct (decide (b = i)) as [->|Hbi]; [lia|].
    apply (switched_ready _ _ _ _ _ _ _ Hsw Hbi) in Hr. specialize (Ho i b Hi Hb Hc Hr). lia.
Qed.

(** In every state a core reaches, the job that runs after a wait is the ready job of the highest priority (the
    first of equals); a wake makes exactly the waiter of the highest priority on that queue ready, or nothing when
    nobody waits there; and a wake never leaves a ready job waiting behind a running one of lower priority,
    if none was before. *)
Theorem wait_and_wake_by_priority stacks tr cs act q sp :
  exec_run (core_start stacks, None) tr (cs, act) ->
  (forall cs' rsp, 0 <= current_job cs -> job_exec_wait q sp (Some cs) = Switch cs' rsp ->
     (exists n, current_job cs' = Z.of_nat n /\ best (fun j => is_ready (slot cs j)) (prio_of cs) JOB_EXEC_MAX_RESIDENT (Some n)) /\
     outranks_ready cs') /\
  (forall cs', job_exec_wake q sp (Some cs) = Continue cs' \/ (exists rsp, job_exec_wake q sp (Some cs) = Switch cs' rsp) ->
     (exists w, best (fun j => waits_on q (slot cs j)) (prio_of cs) JOB_EXEC_MAX_RESIDENT w /\
        forall j, (j < JOB_EXEC_MAX_RESIDENT)%nat ->
          (state_of cs' j = JOB_EXEC_BLOCKED <-> state_of cs j = JOB_EXEC_BLOCKED /\ w <> Some j)) /\
     (outranks_ready cs -> outranks_ready cs')).
Proof.
  intros Hrun. pose proof (ei_ok _ _ (reach_inv _ _ _ Hrun) : exec_ok cs) as Hok. split.
  - intros cs' rsp Hc H. destruct (Z_of_nat_complete _ Hc) as [i Hi].
    split; [|by eapply wait_outranks]. destruct (wait_switches _ _ _ _ _ _ Hok Hi H) as (n & Hb & Hsw).
    exists n. split; [apply Hsw|done].
  - intros cs' H. split; [|intros Ho; by eapply wake_outranks].
    destruct (job_exec_wake_spec q sp cs Hok)
      as [[E Hb]|(n & Hb & [(cs'' & E & Hc & _ & Hp & He & Hne)|(cs'' & i & rsp' & E & Hc & Hi & Hp & Hsw)])];
    rewrite E in H; eexists; (split; [exact Hb|]); intros j Hj.
    + destruct H as [[= <-]|[? [=]]]. naive_solver.
    + destruct H as [[= <-]|[? [=]]]. rewrite !state_slot. destruct (decide (j = n)) as [->|]; [rewrite He|rewrite Hne by done]; naive_solver.
    + destruct H as [[=]|[? [= <- _]]]. destruct (current_runs _ _ Hok Hc) as [_ Hr].
      destruct Hsw as [_ _ Hnext _ Hme Hrest]. rewrite state_slot in Hr. rewrite !state_slot.
      destruct (decide (j = n)) as [->|]; [rewrite Hnext; naive_solver|].
      destruct (decide (j = i)) as [->|]; [|rewrite Hrest by congruence; naive_solver].
      destruct (Hme i eq_refl) as [_ ->]. rewrite Hr. naive_solver.
Qed.

Lemma wait_and_wake_by_priority_witness :
  (exists w, best (fun j => waits_on 7 (slot job1_woken j)) (prio_of job1_woken) JOB_EXEC_MAX_RESIDENT w /\
     forall j, (j < JOB_EXEC_MAX_RESIDENT)%nat ->
       (state_of job1_woken j = JOB_EXEC_BLOCKED <-> state_of job1_woken j = JOB_EXEC_BLOCKED /\ w <> Some j)).
Proof.
  apply (wait_and_wake_by_priority 0 two_jobs_trace job1_woken (Some 1%nat) 7 0 two_jobs_run). left. vm_compute. reflexivity.
Defined.

(** ** Stacks *)

(** Where a context built at [top] lies, and what it resumes. *)
Definition frame_in (lo top entry arg : Z) (f : Z * list Z) (pc sp a0 : nat) : Prop :=
  lo <= fst f /\ fst f + 8 * Z.of_nat (length (snd f)) = top /\
  snd f !! pc = Some entry /\ snd f !! sp = Some top /\ snd f !! a0 = Some arg.

Lemma align16_id x : 0 <= x < 2 ^ 64 -> x mod 16 = 0 -> align16 x = x.
Proof.
  intros Hx Hm. unfold align16. change 0xFFFFFFFFFFFFFFF0 with (Z.shiftl (Z.ones 60) 4).
  rewrite (align_down x 60 4) by lia. change (2 ^ 4) with 16. pose proof (Z.div_mod x 16). lia.
Qed.

Lemma first_frame_in lo top entry arg :
  0 <= lo -> top = lo + JOB_EXEC_STACK_SIZE -> top < 2 ^ 64 -> top mod 16 = 0 ->
  frame_in lo top entry arg (job_exec_init_x86_64 top entry arg) 15 18 8 /\
  frame_in lo top entry arg (job_exec_init_aarch64 top entry arg) 30 31 0.
Proof.
  intros Hlo Ht Hb Hm. unfold JOB_EXEC_STACK_SIZE in Ht. unfold frame_in, job_exec_init_x86_64, job_exec_init_aarch64.
  rewrite align16_id by lia. cbn [fst snd length app replicate]. rewrite !u64_small by (unfold is_u64, W64; lia).
  split; (split_and!; [lia|lia|reflexivity..]).
Qed.

(** A stack handed out was free and is marked used, its top is the end of its own 32 KiB part of the pool; the
    first context of a job, built there on either architecture, lies inside that part and resumes the job's entry
    with its argument and the top as stack pointer; freeing the stack restores the pool, and the pool refuses
    exactly when every stack is used. *)
Theorem stack_pool_spec cs entry arg :
  length (job_stack_used cs) = JOB_EXEC_MAX_RESIDENT ->
  0 <= job_stacks cs -> job_stacks cs + 16 * JOB_EXEC_STACK_SIZE < 2 ^ 64 -> job_stacks cs mod 16 = 0 ->
  (exists i top cs', job_exec_alloc_stack (Some cs) = (Some cs', top, Z.of_nat i) /\ (i < JOB_EXEC_MAX_RESIDENT)%nat /\
     job_stack_used cs !! i = Some false /\ job_stack_used cs' = <[i := true]> (job_stack_used cs) /\
     (let lo := job_stacks cs + Z.of_nat i * JOB_EXEC_STACK_SIZE in
      top = lo + JOB_EXEC_STACK_SIZE /\
      frame_in lo top entry arg (job_exec_init_x86_64 top entry arg) 15 18 8 /\
      frame_in lo top entry arg (job_exec_init_aarch64 top entry arg) 30 31 0) /\
     job_exec_free_stack (Z.of_nat i) (Some cs') = Some cs) \/
  (job_exec_alloc_stack (Some cs) = (Some cs, 0, -1) /\ job_exec_free_stack (-1) (Some cs) = Some cs /\
   Forall (eq true) (job_stack_used cs)).
Proof.
  intros Hlen H0 Hb Hm. unfold job_exec_alloc_stack. destruct (first_index _ _) as [i|] eqn:E; [left|right].
  - pose proof (first_index_lt _ _ _ E) as Hi. apply first_index_Some in E as (b & Hf & Hn & _). destruct b; [done|].
    rewrite Hlen in Hi. do 3 eexists. split; [reflexivity|]. do 3 (split; [done|]). split.
    + split; [done|]. unfold JOB_EXEC_MAX_RESIDENT, JOB_EXEC_STACK_SIZE in *. apply first_frame_in; [lia|done|lia|]. Z.to_euclidean_division_equations; lia.
    + unfold job_exec_free_stack. rewrite (proj2 (Z.leb_le _ _)), (proj2 (Z.ltb_lt _ _)) by lia. cbn [andb].
      rewrite Nat2Z.id. destruct cs as [t u c p]. cbn in *. unfold set_stack_used. cbn. do 2 f_equal.
      rewrite list_insert_insert_eq. by apply list_insert_id.
  - split_and!; [done..|]. apply Forall_lookup. intros j b Hj. rewrite first_index_None in E. specialize (E j b Hj). by destruct b.
Qed.

Lemma stack_pool_spec_witness :
  exists i top cs', job_exec_alloc_stack (Some (core_start 4096)) = (Some cs', top, Z.of_nat i) /\
    frame_in (4096 + Z.of_nat i * 0x8000) top 0x1234 7 (job_exec_init_x86_64 top 0x1234 7) 15 18 8.
Proof.
  destruct (stack_pool_spec (core_start 4096) 0x1234 7 eq_refl) as [(i & top & cs' & E & _ & _ & _ & Ht & _)|(E & _)];
    [vm_compute; discriminate|vm_compute; reflexivity|vm_compute; reflexivity| |].
  - exists i, top, cs'. split; [exact E|exact (proj1 (proj2 Ht))].
  - vm_compute in E. discriminate E.
Defined.
