(* ===== verification/PageTable.v ===== *)
(** * Memory words and page tables

    What the page-fault backends of the two architectures share: memory as a
    function from the addresses of 8-byte words to words, tables of 512
    entries in it, and the tables of recorded pages.  The copy loop of a page
    and the loops that fill a table are the same in both backends. *)

From S2P Require Import Prelude.

Definition words : Type := Z -> Z.
Definition store (a v : Z) (m : words) : words := fun x => if x =? a then v else m x.

Definition has (flag x : Z) : bool := negb (Z.land x flag =? 0).
Definition index (vaddr shift : Z) : Z := Z.land (Z.shiftr vaddr shift) 0x1FF.
Definition slot_addr (table i : Z) : Z := table + 8 * i.

(** [for (i = 0; i < n; i++) table[i] = f(i);] *)
Definition fill (table : Z) (n : nat) (f : Z -> Z) (m : words) : words :=
  fold_left (fun m i => store (slot_addr table (Z.of_nat i)) (f (Z.of_nat i)) m) (seq 0 n) m.

(** 4096 bytes are 512 words; two page-aligned pages are equal or disjoint, so
    the order of the copy does not matter. *)
Definition copy_page (dst src : Z) (m : words) : words := fill dst 512 (fun i => m (slot_addr src i)) m.

Definition registered (l : list Z) (addr : Z) : bool := existsb (Z.eqb addr) l.

(** ** Words *)

Lemma store_eq a v m : store a v m a = v.
Proof. unfold store. by rewrite Z.eqb_refl. Qed.

Lemma store_ne a v m b : b <> a -> store a v m b = m b.
Proof. intros H. unfold store. by rewrite (proj2 (Z.eqb_neq _ _) H). Qed.

Lemma land_bit x k : 0 <= k -> Z.land x (2 ^ k) = if Z.testbit x k then 2 ^ k else 0.
Proof.
  intros Hk. apply Z.bits_inj'. intros i Hi. rewrite Z.land_spec, Z.pow2_bits_eqb by done.
  destruct (Z.eqb_spec k i) as [<-|Hne].
  - destruct (Z.testbit x k); [by rewrite Z.pow2_bits_true|by rewrite Z.testbit_0_l].
  - rewrite andb_false_r. destruct (Z.testbit x k); [|by rewrite Z.testbit_0_l]. by rewrite Z.pow2_bits_false.
Qed.

Lemma has_bit x k : 0 <= k -> has (2 ^ k) x = Z.testbit x k.
Proof.
  intros Hk. unfold has. rewrite land_bit by done. destruct (Z.testbit x k); [|done].
  by rewrite (proj2 (Z.eqb_neq _ _)) by (apply Z.pow_nonzero; lia).
Qed.

(** Clearing a flag and setting it again. *)
Lemma ldiff_lor x k : 0 <= k -> Z.testbit x k = true -> Z.lor (Z.ldiff x (2 ^ k)) (2 ^ k) = x.
Proof.
  intros Hk Hx. apply Z.bits_inj'. intros i Hi. rewrite Z.lor_spec, Z.ldiff_spec, Z.pow2_bits_eqb by done.
  destruct (Z.eqb_spec k i) as [<-|]; [by rewrite Hx|]. by rewrite andb_true_r, orb_false_r.
Qed.

(** ** Addresses *)

Definition same_page (v p : Z) : Prop := Z.shiftr v 12 = Z.shiftr p 12.

Lemma index_page v p k : same_page v p -> 12 <= k -> index v k = index p k.
Proof.
  intros H Hk. unfold index. f_equal. replace k with (12 + (k - 12)) by lia.
  rewrite <- !Z.shiftr_shiftr by lia. by rewrite H.
Qed.

Lemma index_range v k : 0 <= index v k < 512.
Proof. unfold index. change 0x1FF with (Z.ones 9). rewrite Z.land_ones by lia. by apply Z.mod_pos_bound. Qed.

Lemma index_12 v : index v 12 = (v / 4096) mod 512.
Proof.
  unfold index. change 0x1FF with (Z.ones 9). rewrite Z.land_ones, Z.shiftr_div_pow2 by lia. done.
Qed.

Lemma offset_split v : v mod 0x200000 = (v / 4096) mod 512 * 4096 + v mod 4096.
Proof. change 0x200000 with (4096 * 512). rewrite Z.rem_mul_r by lia. lia. Qed.

Lemma page_of v p : is_u64 v -> p mod 4096 = 0 -> same_page v p -> Z.land v 0xFFFFFFFFFFFFF000 = p.
Proof.
  intros Hv Hp H. change 0xFFFFFFFFFFFFF000 with (Z.shiftl (Z.ones 52) 12).
  rewrite (align_down v 52 12) by (unfold is_u64, W64 in Hv; lia). unfold same_page in H.
  rewrite !Z.shiftr_div_pow2 in H by lia. rewrite H. change (2 ^ 12) with 4096. pose proof (Z.div_mod p 4096). lia.
Qed.

(** ** Tables *)

Lemma fill_spec table n f m0 b :
  fill table n f m0 b =
  if (table <=? b) && (b <? table + 8 * Z.of_nat n) && ((b - table) mod 8 =? 0) then f ((b - table) / 8) else m0 b.
Proof.
  unfold fill. induction n as [|n IH].
  - cbn. destruct (Z.leb_spec table b); [|done]. rewrite (proj2 (Z.ltb_ge _ _)) by lia. done.
  - rewrite seq_S, fold_left_app. cbn [fold_left Nat.add]. unfold store at 1. unfold slot_addr at 1.
    destruct (Z.eqb_spec b (table + 8 * Z.of_nat n)) as [->|Hne].
    + rewrite (proj2 (Z.leb_le _ _)), (proj2 (Z.ltb_lt _ _)) by lia.
      replace (table + 8 * Z.of_nat n - table) with (Z.of_nat n * 8) by lia. rewrite Z.mod_mul, Z.div_mul by lia. done.
    + rewrite IH. destruct (Z.leb_spec table b); [|done]. cbn [andb].
      destruct (Z.ltb_spec b (table + 8 * Z.of_nat n)), (Z.ltb_spec b (table + 8 * Z.of_nat (S n))); try done; try lia.
      destruct (Z.eqb_spec ((b - table) mod 8) 0) as [Hz|]; [|done]. exfalso.
      pose proof (Z.div_mod (b - table) 8 ltac:(lia)). nia.
Qed.

Lemma fill_slot table n f m0 i : 0 <= i < Z.of_nat n -> fill table n f m0 (slot_addr table i) = f i.
Proof.
  intros Hi. rewrite fill_spec. unfold slot_addr. rewrite (proj2 (Z.leb_le _ _)), (proj2 (Z.ltb_lt _ _)) by lia.
  replace (table + 8 * i - table) with (i * 8) by lia. by rewrite Z.mod_mul, Z.div_mul by lia.
Qed.

Definition in_page (b base : Z) : Prop := base <= b < base + 4096.

Lemma fill_outside table f m0 b : ~ in_page b table -> fill table 512 f m0 b = m0 b.
Proof.
  intros Hb. rewrite fill_spec. unfold in_page in Hb. destruct (Z.leb_spec table b); [|done].
  destruct (Z.ltb_spec b (table + 8 * Z.of_nat 512)); [lia|done].
Qed.

Lemma registered_last l p : registered (l ++ [p]) p = true.
Proof. unfold registered. rewrite existsb_app. cbn. rewrite Z.eqb_refl. by rewrite orb_true_r. Qed.
