(* ===== verification/PageFault.v ===== *)
(** * Page faults on x86-64 (coreinit/pagefault_x86_64.c)

    Splitting a 2 MiB page, marking pages absent (streamed) or read-only
    (copy-on-write), and the fault handler that resolves them.

    Memory is a function from the addresses of 8-byte words to words; page
    tables lie in it.  [translate] is the processor's walk, with CR0.WP set
    as [pagefault_init] sets it: what the code must get right is how it
    changes.  Translation caches are not modelled: the code invalidates every
    address it changes. *)

From S2P Require Import Prelude PageTable.

Definition MAX_STREAMED_PAGES : nat := 16.
Definition MAX_COW_PAGES : nat := 16.
Definition COW_POOL_SIZE : Z := 4.
Definition PAGE_PRESENT : Z := 0x1.
Definition PAGE_WRITABLE : Z := 0x2.
Definition PAGE_HUGE : Z := 0x80.
Definition PAGE_ADDR_MASK : Z := 0x000FFFFFFFFFF000.

(** The fields of [struct core_state] this file works on; [pf_split_pt] and
    [pf_cow_pool] are addresses, and a count with its array is a list. *)
Record pf_state := {
  my_pml4_phys : Z; pf_split_pt : Z; pf_split_region_base : Z; pf_have_split : bool;
  pf_streamed : list Z; pf_cow : list Z;
  pf_cow_pool : Z; pf_cow_pool_used : Z; pf_fault_count : Z; pf_cow_copy_count : Z }.

Definition with_pf (split : Z) (have : bool) (streamed cow : list Z) (used faults copies : Z) (cs : pf_state) : pf_state :=
  {| my_pml4_phys := my_pml4_phys cs; pf_split_pt := pf_split_pt cs; pf_split_region_base := split; pf_have_split := have;
     pf_streamed := streamed; pf_cow := cow; pf_cow_pool := pf_cow_pool cs; pf_cow_pool_used := used;
     pf_fault_count := faults; pf_cow_copy_count := copies |}.
Definition set_split (base : Z) (cs : pf_state) : pf_state :=
  with_pf base true (pf_streamed cs) (pf_cow cs) (pf_cow_pool_used cs) (pf_fault_count cs) (pf_cow_copy_count cs) cs.
Definition set_streamed (l : list Z) (cs : pf_state) : pf_state :=
  with_pf (pf_split_region_base cs) (pf_have_split cs) l (pf_cow cs) (pf_cow_pool_used cs) (pf_fault_count cs) (pf_cow_copy_count cs) cs.
Definition set_cow (l : list Z) (cs : pf_state) : pf_state :=
  with_pf (pf_split_region_base cs) (pf_have_split cs) (pf_streamed cs) l (pf_cow_pool_used cs) (pf_fault_count cs) (pf_cow_copy_count cs) cs.
Definition count_fault (cs : pf_state) : pf_state :=
  with_pf (pf_split_region_base cs) (pf_have_split cs) (pf_streamed cs) (pf_cow cs) (pf_cow_pool_used cs)
    (u64 (pf_fault_count cs + 1)) (pf_cow_copy_count cs) cs.
Definition count_copy (cs : pf_state) : pf_state :=
  with_pf (pf_split_region_base cs) (pf_have_split cs) (pf_streamed cs) (pf_cow cs) (pf_cow_pool_used cs + 1)
    (pf_fault_count cs) (u64 (pf_cow_copy_count cs + 1)) cs.

(** [core_state_get()] may be NULL. *)
Record machine := { cs : option pf_state; mem : words }.

(** The address of the entry, NULL for [None]. *)
Definition walk_to_pd_entry (pml4_phys vaddr : Z) (m : words) : option Z :=
  let e4 := m (slot_addr pml4_phys (index vaddr 39)) in
  if negb (has PAGE_PRESENT e4) then None
  else
    let e3 := m (slot_addr (Z.land e4 PAGE_ADDR_MASK) (index vaddr 30)) in
    if negb (has PAGE_PRESENT e3) then None
    else Some (slot_addr (Z.land e3 PAGE_ADDR_MASK) (index vaddr 21)).

Definition walk_to_pt_entry (pml4_phys vaddr : Z) (m : words) : option Z :=
  match walk_to_pd_entry pml4_phys vaddr m with
  | None => None
  | Some pd_entry =>
      if has PAGE_HUGE (m pd_entry) || negb (has PAGE_PRESENT (m pd_entry)) then None
      else Some (slot_addr (Z.land (m pd_entry) PAGE_ADDR_MASK) (index vaddr 12))
  end.

Definition pagefault_split_region (pml4_phys region_base : Z) (x : machine) : machine * bool :=
  match cs x with
  | None => (x, false)
  | Some c =>
      match walk_to_pd_entry pml4_phys region_base (mem x) with
      | None => (x, false)
      | Some pd_entry =>
          let e := mem x pd_entry in
          if negb (has PAGE_PRESENT e) || negb (has PAGE_HUGE e) then (x, false)
          else
            let huge_base := Z.land e 0xFFFFFFFFFFE00000 in
            let m := fill (pf_split_pt c) 512
              (fun i => Z.lor (Z.lor (u64 (huge_base + i * 4096)) PAGE_PRESENT) PAGE_WRITABLE) (mem x) in
            let m := store pd_entry (Z.lor (Z.lor (pf_split_pt c) PAGE_PRESENT) PAGE_WRITABLE) m in
            ({| cs := Some (set_split huge_base c); mem := m |}, true)
      end
  end.

Definition pagefault_register_streamed_page (page_addr : Z) (c : pf_state) : pf_state :=
  if (length (pf_streamed c) <? MAX_STREAMED_PAGES)%nat then set_streamed (pf_streamed c ++ [page_addr]) c else c.

Definition pagefault_mark_absent (pml4_phys page_addr : Z) (x : machine) : machine * bool :=
  match cs x with
  | None => (x, false)
  | Some c =>
      match walk_to_pt_entry pml4_phys page_addr (mem x) with
      | None => (x, false)
      | Some a =>
          ({| cs := Some (pagefault_register_streamed_page page_addr c);
              mem := store a (Z.ldiff (mem x a) PAGE_PRESENT) (mem x) |}, true)
      end
  end.

Definition pagefault_mark_cow (pml4_phys page_addr : Z) (x : machine) : machine * bool :=
  match cs x with
  | None => (x, false)
  | Some c =>
      match walk_to_pt_entry pml4_phys page_addr (mem x) with
      | None => (x, false)
      | Some a =>
          if negb (has PAGE_PRESENT (mem x a)) then (x, false)
          else
            let c := if (length (pf_cow c) <? MAX_COW_PAGES)%nat then set_cow (pf_cow c ++ [page_addr]) c else c in
            ({| cs := Some c; mem := store a (Z.ldiff (mem x a) PAGE_WRITABLE) (mem x) |}, true)
      end
  end.

Definition resolve_streamed (fault_addr pml4_phys : Z) (m : words) : words :=
  match walk_to_pt_entry pml4_phys fault_addr m with
  | Some a => store a (Z.lor (m a) PAGE_PRESENT) m
  | None => m
  end.

Definition resolve_cow_write (fault_addr pml4_phys : Z) (c : pf_state) (m : words) : pf_state * words :=
  match walk_to_pt_entry pml4_phys fault_addr m with
  | None => (c, m)
  | Some a =>
      if COW_POOL_SIZE <=? pf_cow_pool_used c then (c, m)
      else
        let shared_source := Z.land (m a) PAGE_ADDR_MASK in
        let private_copy := pf_cow_pool c + pf_cow_pool_used c * 4096 in
        let m := copy_page private_copy shared_source m in
        let m := store a (Z.lor (Z.lor (Z.land private_copy PAGE_ADDR_MASK) PAGE_PRESENT) PAGE_WRITABLE) m in
        (count_copy c, m)
  end.

(** How the handler ends: the access is tried again, or the core halts. *)
Inductive fault_outcome := Retry (x : machine) | Halted.

(** [hook]: what the wrapper's ring-3 hook answers, when it is installed. *)
Definition isr_page_fault (hook : option bool) (error_code fault_addr : Z) (x : machine) : fault_outcome :=
  if has 4 error_code && bool_decide (hook = Some true) then Retry x
  else
    let page_addr := Z.land fault_addr 0xFFFFFFFFFFFFF000 in
    let was_present := has 1 error_code in
    let was_write := has 2 error_code in
    match cs x with
    | None => Halted
    | Some c =>
        let c := count_fault c in
        if negb was_present && registered (pf_streamed c) page_addr then
          Retry {| cs := Some c; mem := resolve_streamed page_addr (my_pml4_phys c) (mem x) |}
        else if was_present && was_write && registered (pf_cow c) page_addr then
          let '(c, m) := resolve_cow_write page_addr (my_pml4_phys c) c (mem x) in Retry {| cs := Some c; mem := m |}
        else Halted
    end.

Definition pagefault_get_count (x : machine) : Z := match cs x with Some c => pf_fault_count c | None => 0 end.
Definition pagefault_get_cow_copy_count (x : machine) : Z := match cs x with Some c => pf_cow_copy_count c | None => 0 end.
Definition pagefault_debug_read_pte (pml4_phys addr : Z) (m : words) : Z :=
  match walk_to_pt_entry pml4_phys addr m with Some a => m a | None => 0 end.

(** ** The processor's translation *)

(** Physical address and whether a write is allowed; [None]: a fault. *)
Definition translate (pml4_phys vaddr : Z) (m : words) : option (Z * bool) :=
  let e4 := m (slot_addr pml4_phys (index vaddr 39)) in
  let e3 := m (slot_addr (Z.land e4 PAGE_ADDR_MASK) (index vaddr 30)) in
  match walk_to_pd_entry pml4_phys vaddr m with
  | None => None
  | Some d =>
      let w := has PAGE_WRITABLE e4 && has PAGE_WRITABLE e3 && has PAGE_WRITABLE (m d) in
      if negb (has PAGE_PRESENT (m d)) then None
      else if has PAGE_HUGE (m d) then Some (Z.land (m d) 0x000FFFFFFFE00000 + vaddr mod 0x200000, w)
      else
        let e1 := m (slot_addr (Z.land (m d) PAGE_ADDR_MASK) (index vaddr 12)) in
        if has PAGE_PRESENT e1 then Some (Z.land e1 PAGE_ADDR_MASK + vaddr mod 4096, w && has PAGE_WRITABLE e1) else None
  end.

(** The entries above the page directory that a walk reads. *)
Definition upper (pml4_phys vaddr : Z) (m : words) : list Z :=
  let a4 := slot_addr pml4_phys (index vaddr 39) in
  [a4; slot_addr (Z.land (m a4) PAGE_ADDR_MASK) (index vaddr 30)].

Lemma walk_agree pml4 v m m' :
  (forall a, In a (upper pml4 v m) -> m' a = m a) -> walk_to_pd_entry pml4 v m' = walk_to_pd_entry pml4 v m.
Proof.
  intros H. unfold walk_to_pd_entry. unfold upper in H. rewrite (H (slot_addr pml4 (index v 39))) by (by left).
  destruct (negb _); [done|]. rewrite (H (slot_addr _ (index v 30))) by (by right; left). done.
Qed.

Lemma walk_pt_agree pml4 v m m' d :
  (forall a, In a (upper pml4 v m) -> m' a = m a) -> walk_to_pd_entry pml4 v m = Some d -> m' d = m d ->
  walk_to_pt_entry pml4 v m' = walk_to_pt_entry pml4 v m.
Proof. intros Hu Hd E. unfold walk_to_pt_entry. rewrite (walk_agree _ _ _ _ Hu), Hd, E. done. Qed.

(** ** Pages *)

Lemma walk_page pml4 v p m : same_page v p ->
  walk_to_pd_entry pml4 v m = walk_to_pd_entry pml4 p m /\ walk_to_pt_entry pml4 v m = walk_to_pt_entry pml4 p m /\
  upper pml4 v m = upper pml4 p m.
Proof.
  intros H. assert (walk_to_pd_entry pml4 v m = walk_to_pd_entry pml4 p m) as Ed
    by (unfold walk_to_pd_entry; by rewrite !(index_page v p _ H) by lia).
  split; [done|]. split; [unfold walk_to_pt_entry; by rewrite Ed, (index_page v p 12 H) by lia|].
  unfold upper. by rewrite !(index_page v p _ H) by lia.
Qed.

(** A page with its own entry [a], which is not part of the walk to it. *)
Record page_at (pml4 p : Z) (m : words) (d a : Z) : Prop := {
  pa_aligned : p mod 4096 = 0;
  pa_walk : walk_to_pd_entry pml4 p m = Some d;
  pa_entry : walk_to_pt_entry pml4 p m = Some a;
  pa_apart : a <> d /\ ~ In a (upper pml4 p m);
  pa_present : has PAGE_PRESENT (m a) = true }.

(** Changing the entry of a page keeps the way to it. *)
Lemma page_store pml4 p m d a v : page_at pml4 p m d a ->
  walk_to_pd_entry pml4 p (store a v m) = Some d /\ walk_to_pt_entry pml4 p (store a v m) = Some a /\
  (forall x, In x (upper pml4 p m) -> store a v m x = m x) /\ store a v m d = m d.
Proof.
  intros [_ Hd Ha [Had Hau] _].
  assert (forall x, In x (upper pml4 p m) -> store a v m x = m x) as Hu by (intros x Hx; apply store_ne; by intros ->).
  assert (store a v m d = m d) as Ed by (apply store_ne; congruence).
  split; [by rewrite (walk_agree _ _ _ _ Hu)|]. split; [by rewrite (walk_pt_agree _ _ _ _ d Hu Hd Ed)|done].
Qed.

(** The translation of an address in the page, through its entry. *)
Lemma translate_page pml4 p m d a v w :
  page_at pml4 p m d a -> same_page v p ->
  translate pml4 v (store a w m) =
  if has PAGE_PRESENT w
  then Some (Z.land w PAGE_ADDR_MASK + v mod 4096,
             has PAGE_WRITABLE (m (slot_addr pml4 (index p 39))) &&
             has PAGE_WRITABLE (m (slot_addr (Z.land (m (slot_addr pml4 (index p 39))) PAGE_ADDR_MASK) (index p 30))) &&
             has PAGE_WRITABLE (m d) && has PAGE_WRITABLE w)
  else None.
Proof.
  intros Hp Hv. destruct (page_store pml4 p m d a w Hp) as (E1 & E2 & Eu & Ed). destruct (walk_page pml4 v p (store a w m) Hv) as (W1 & W2 & _).
  unfold translate. rewrite W1, E1. rewrite !(index_page v p _ Hv) by lia.
  unfold upper in Eu. rewrite (Eu (slot_addr pml4 (index p 39))) by (by left).
  rewrite (Eu (slot_addr _ (index p 30))) by (by right; left). rewrite Ed.
  destruct Hp as [_ Hd Ha _ _]. unfold walk_to_pt_entry in Ha. rewrite Hd in Ha.
  destruct (has PAGE_HUGE (m d)); [done|]. destruct (has PAGE_PRESENT (m d)); [|done]. cbn [orb negb] in *.
  injection Ha as Ha. rewrite Ha, store_eq. done.
Qed.

(** ** Streamed pages *)

Lemma has_present x : has PAGE_PRESENT x = Z.testbit x 0.
Proof. by apply (has_bit x 0). Qed.
Lemma has_writable x : has PAGE_WRITABLE x = Z.testbit x 1.
Proof. by apply (has_bit x 1). Qed.

Lemma clear_present x : has PAGE_PRESENT (Z.ldiff x PAGE_PRESENT) = false.
Proof. rewrite has_present, Z.ldiff_spec. change (Z.testbit PAGE_PRESENT 0) with true. apply andb_false_r. Qed.

Lemma clear_writable x :
  has PAGE_WRITABLE (Z.ldiff x PAGE_WRITABLE) = false /\ has PAGE_PRESENT (Z.ldiff x PAGE_WRITABLE) = has PAGE_PRESENT x /\
  Z.land (Z.ldiff x PAGE_WRITABLE) PAGE_ADDR_MASK = Z.land x PAGE_ADDR_MASK.
Proof.
  rewrite !has_writable, !has_present, !Z.ldiff_spec. split_and!.
  - change (Z.testbit PAGE_WRITABLE 1) with true. apply andb_false_r.
  - change (Z.testbit PAGE_WRITABLE 0) with false. apply andb_true_r.
  - apply Z.bits_inj'. intros i Hi. rewrite !Z.land_spec, Z.ldiff_spec. change PAGE_WRITABLE with (2 ^ 1).
    rewrite Z.pow2_bits_eqb by lia. destruct (Z.eqb_spec 1 i) as [<-|]; [by rewrite !andb_false_r|by rewrite andb_true_r].
Qed.

(** A page keeps its entry under changes elsewhere. *)
Lemma page_keep pml4 p m m' d a :
  page_at pml4 p m d a -> (forall x, In x (upper pml4 p m) -> m' x = m x) -> m' d = m d -> has PAGE_PRESENT (m' a) = true ->
  page_at pml4 p m' d a.
Proof.
  intros [H1 H2 H3 [H4 H5] H6] Hu Hd Ha. split; [done| | | |done].
  - by rewrite (walk_agree _ _ _ _ Hu).
  - by rewrite (walk_pt_agree _ _ _ _ d Hu H2 Hd).
  - split; [done|]. unfold upper. rewrite (Hu (slot_addr pml4 (index p 39))) by (by left). done.
Qed.

(** The entry of a writable page. *)
Lemma new_entry base : Z.land base PAGE_ADDR_MASK = base ->
  let e := Z.lor (Z.lor base PAGE_PRESENT) PAGE_WRITABLE in
  Z.land e PAGE_ADDR_MASK = base /\ has PAGE_PRESENT e = true /\ has PAGE_WRITABLE e = true.
Proof.
  intros Hb e. unfold e. split_and!.
  - rewrite !Z.land_lor_distr_l, Hb. change (Z.land PAGE_PRESENT PAGE_ADDR_MASK) with 0.
    change (Z.land PAGE_WRITABLE PAGE_ADDR_MASK) with 0. by rewrite !Z.lor_0_r.
  - rewrite has_present, !Z.lor_spec. change (Z.testbit PAGE_PRESENT 0) with true. by rewrite orb_true_r.
  - rewrite has_writable, !Z.lor_spec. change (Z.testbit PAGE_WRITABLE 1) with true. by rewrite orb_true_r.
Qed.

Section faults.
Context (c : pf_state) (m : words) (p d a : Z).
Let pml4 := my_pml4_phys c.
Hypothesis Hp : page_at pml4 p m d a.
Let x0 := {| cs := Some c; mem := m |}.

(** A streamed page comes back as it was: once [pagefault_mark_absent] has taken a page (with room to record it),
    every access to it faults; the handler, called on such a fault at any address of the page, resolves it, and then
    all of memory, page tables included, is exactly as before the page was taken - the access is retried on the same
    mapping. *)
Theorem streamed_page_restored v error :
  (length (pf_streamed c) < MAX_STREAMED_PAGES)%nat -> is_u64 v -> same_page v p -> has 1 error = false ->
  exists x1 x2, pagefault_mark_absent pml4 p x0 = (x1, true) /\
    (forall v', same_page v' p -> translate pml4 v' (mem x1) = None) /\
    isr_page_fault None error v x1 = Retry x2 /\
    (forall b, mem x2 b = m b) /\ pagefault_get_count x2 = u64 (pf_fault_count c + 1).
Proof.
  intros Hroom Hv Hsp He. unfold pagefault_mark_absent, x0. cbn [cs mem]. rewrite (pa_entry _ _ _ _ _ Hp).
  do 2 eexists. split; [reflexivity|]. cbn [mem]. set (w := Z.ldiff (m a) PAGE_PRESENT).
  split; [intros v' Hv'; rewrite (translate_page pml4 p m d a v' w Hp Hv'); unfold w; by rewrite clear_present|].
  unfold isr_page_fault. rewrite andb_false_r. cbn [cs mem]. rewrite (page_of v p Hv (pa_aligned _ _ _ _ _ Hp) Hsp), He.
  unfold pagefault_register_streamed_page. rewrite (proj2 (Nat.ltb_lt _ _) Hroom).
  change (pf_streamed (count_fault (set_streamed (pf_streamed c ++ [p]) c))) with (pf_streamed c ++ [p]).
  rewrite registered_last. cbn [negb andb]. split; [reflexivity|]. cbn [mem]. split; [|done].
  unfold resolve_streamed. change (walk_to_pt_entry _ p _) with (walk_to_pt_entry pml4 p (store a w m)).
  destruct (page_store pml4 p m d a w Hp) as (_ & E2 & _). rewrite E2, store_eq. intros b.
  destruct (decide (b = a)) as [->|Hb]; [|by rewrite !store_ne]. rewrite store_eq. unfold w. change PAGE_PRESENT with (2 ^ 0).
  apply ldiff_lor; [lia|]. rewrite <- has_present. apply (pa_present _ _ _ _ _ Hp).
Qed.

(** ** Copy-on-write pages *)

(** A copy-on-write page is shared until it is written and private after: once [pagefault_mark_cow] has taken a page
    (with room to record it and a free page in the pool), reads translate as before and writes fault; the handler,
    called on a write fault at any address of the page, maps the page to a private one that holds the same contents,
    writable where the tables above allow it, and changes no other word of memory - the shared original least of all. *)
Theorem cow_page_copied v error :
  let private := pf_cow_pool c + pf_cow_pool_used c * 4096 in
  let shared := Z.land (m a) PAGE_ADDR_MASK in
  (length (pf_cow c) < MAX_COW_PAGES)%nat -> pf_cow_pool_used c < COW_POOL_SIZE ->
  Z.land private PAGE_ADDR_MASK = private ->
  ~ in_page a private -> ~ in_page d private -> (forall x, In x (upper pml4 p m) -> ~ in_page x private) ->
  (forall i, 0 <= i < 512 -> a <> slot_addr shared i) ->
  is_u64 v -> same_page v p -> has 1 error = true -> has 2 error = true -> registered (pf_streamed c) p = false ->
  exists x1 x2, pagefault_mark_cow pml4 p x0 = (x1, true) /\
    (forall v', same_page v' p -> translate pml4 v' (mem x1) = Some (shared + v' mod 4096, false)) /\
    isr_page_fault None error v x1 = Retry x2 /\
    (forall v', same_page v' p -> exists w, translate pml4 v' (mem x2) = Some (private + v' mod 4096, w)) /\
    (forall i, 0 <= i < 512 -> mem x2 (slot_addr private i) = m (slot_addr shared i)) /\
    (forall b, b <> a -> ~ in_page b private -> mem x2 b = m b).
Proof.
  intros private shared Hroom Hpool Hpm Hna Hnd Hnu Hns Hv Hsp He1 He2 Hstr.
  unfold pagefault_mark_cow, x0. cbn [cs mem]. rewrite (pa_entry _ _ _ _ _ Hp), (pa_present _ _ _ _ _ Hp). cbn [negb].
  rewrite (proj2 (Nat.ltb_lt _ _) Hroom). do 2 eexists. split; [reflexivity|]. cbn [mem].
  set (w := Z.ldiff (m a) PAGE_WRITABLE). destruct (clear_writable (m a)) as (Hw1 & Hw2 & Hw3). fold w in Hw1, Hw2, Hw3.
  split.
  { intros v' Hv'. rewrite (translate_page pml4 p m d a v' w Hp Hv'), Hw2, (pa_present _ _ _ _ _ Hp), Hw1, Hw3, andb_false_r. done. }
  unfold isr_page_fault. rewrite andb_false_r. cbn [cs mem]. rewrite (page_of v p Hv (pa_aligned _ _ _ _ _ Hp) Hsp), He1, He2.
  set (c1 := count_fault _). change (pf_streamed c1) with (pf_streamed c). change (pf_cow c1) with (pf_cow c ++ [p]).
  rewrite registered_last. cbn [negb andb]. unfold resolve_cow_write.
  change (walk_to_pt_entry _ p _) with (walk_to_pt_entry pml4 p (store a w m)).
  destruct (page_store pml4 p m d a w Hp) as (E1 & E2 & Eu & Ed). rewrite E2.
  change (pf_cow_pool_used c1) with (pf_cow_pool_used c). change (pf_cow_pool c1) with (pf_cow_pool c). fold private.
  rewrite (proj2 (Z.leb_gt _ _) Hpool), store_eq, Hw3, Hpm. fold shared. split; [reflexivity|]. cbn [mem].
  set (m1 := copy_page private shared (store a w m)).
  assert (forall b, ~ in_page b private -> m1 b = store a w m b) as Hout by (intros b Hb; by apply fill_outside).
  set (e := Z.lor (Z.lor private PAGE_PRESENT) PAGE_WRITABLE).
  assert (page_at pml4 p m1 d a) as Hp1.
  { apply (page_keep _ _ m); [done| | |].
    - intros x Hx. rewrite Hout by (by apply Hnu). by apply Eu.
    - by rewrite Hout.
    - rewrite Hout, store_eq by done. rewrite Hw2. apply (pa_present _ _ _ _ _ Hp). }
  destruct (new_entry private Hpm) as (He3 & He4 & He5). fold e in He3, He4, He5. fold w. fold m1.
  split; [|split].
  - intros v' Hv'. rewrite (translate_page pml4 p m1 d a v' e Hp1 Hv'), He4, He3. by eexists.
  - intros i Hi. rewrite store_ne. 2: { intros E. apply Hna. rewrite <- E. unfold in_page, slot_addr. lia. }
    unfold m1, copy_page. rewrite fill_slot by lia. apply store_ne. intros E. by apply (Hns i Hi).
  - intros b Hb Hbp. rewrite store_ne by done. rewrite Hout by done. by apply store_ne.
Qed.
End faults.

(** ** Splitting a 2 MiB page *)

Lemma page_mask x : 0 <= x < 2 ^ 52 -> x mod 4096 = 0 -> Z.land x PAGE_ADDR_MASK = x.
Proof.
  intros Hx Hm. change PAGE_ADDR_MASK with (Z.shiftl (Z.ones 40) 12). rewrite (align_down x 40 12) by lia.
  change (2 ^ 12) with 4096. pose proof (Z.div_mod x 4096). lia.
Qed.

Lemma masked_low x k : Z.land x PAGE_ADDR_MASK = x -> 0 <= k < 12 -> Z.testbit x k = false.
Proof.
  intros <- Hk. rewrite Z.land_spec. change PAGE_ADDR_MASK with (Z.shiftl (Z.ones 40) 12).
  rewrite Z.shiftl_spec_low by lia. apply andb_false_r.
Qed.

Section split.
Context (c : pf_state) (m : words) (pml4 region d : Z).
Let pt := pf_split_pt c.
(** The region is one writable huge page, below 2^52 and without high flags. *)
Hypothesis Hd : walk_to_pd_entry pml4 region m = Some d.
Hypothesis Hflags : has PAGE_PRESENT (m d) = true /\ has PAGE_HUGE (m d) = true /\ has PAGE_WRITABLE (m d) = true.
Hypothesis Hrange : 0 <= m d < 2 ^ 52 - 0x200000.
(** The new table is a page of its own: no walk reads it yet, and the entry
    that changes is not part of another table. *)
Hypothesis Hpt : Z.land pt PAGE_ADDR_MASK = pt.
Hypothesis Hdpt : ~ in_page d pt.
Hypothesis Hupper : forall v x, In x (upper pml4 v m) -> x <> d /\ ~ in_page x pt.
Hypothesis Hpd : forall v d', walk_to_pd_entry pml4 v m = Some d' -> ~ in_page d' pt.
Hypothesis Hpte : forall v t, walk_to_pt_entry pml4 v m = Some t -> t <> d /\ ~ in_page t pt.

Lemma huge_base_eq : exists q, 0 <= q /\ Z.land (m d) 0xFFFFFFFFFFE00000 = q * 0x200000 /\
  Z.land (m d) 0x000FFFFFFFE00000 = q * 0x200000 /\ q * 0x200000 + 0x200000 <= 2 ^ 52.
Proof.
  exists (m d / 0x200000). change 0xFFFFFFFFFFE00000 with (Z.shiftl (Z.ones 43) 21).
  change 0x000FFFFFFFE00000 with (Z.shiftl (Z.ones 31) 21). rewrite !align_down by lia. change (2 ^ 21) with 0x200000.
  split_and!; [apply Z.div_pos; lia|lia|lia|]. pose proof (Z.mul_div_le (m d) 0x200000). lia.
Qed.

(** The memory after the split. *)
Lemma split_runs : exists q x1, pagefault_split_region pml4 region {| cs := Some c; mem := m |} = (x1, true) /\
  0 <= q /\ q * 0x200000 + 0x200000 <= 2 ^ 52 /\ Z.land (m d) 0x000FFFFFFFE00000 = q * 0x200000 /\
  mem x1 d = Z.lor (Z.lor pt PAGE_PRESENT) PAGE_WRITABLE /\
  (forall i, 0 <= i < 512 -> mem x1 (slot_addr pt i) = Z.lor (Z.lor (q * 0x200000 + i * 4096) PAGE_PRESENT) PAGE_WRITABLE) /\
  (forall b, b <> d -> ~ in_page b pt -> mem x1 b = m b).
Proof.
  destruct huge_base_eq as (q & Hq & E1 & E2 & Hq2). exists q. unfold pagefault_split_region. cbn [cs mem]. rewrite Hd.
  destruct Hflags as (-> & -> & _). cbn [negb orb]. rewrite E1. fold pt. eexists. split; [reflexivity|]. cbn [mem].
  split_and!; [done..| | |].
  - apply store_eq.
  - intros i Hi. rewrite store_ne. 2: { intros E. apply Hdpt. rewrite <- E. unfold in_page, slot_addr. lia. }
    rewrite fill_slot by exact Hi. rewrite u64_small by (unfold is_u64, W64; lia). done.
  - intros b Hb Hbp. rewrite store_ne by done. by apply fill_outside.
Qed.

(** C34: The first split of a 2 MiB page changes no translation: when [pagefault_split_region] replaces a present, writable
    huge page without flags above its address by its table of 4 KiB pages, and no walk goes through that table yet, every
    virtual address, in the region or not, still translates to the same physical address with the same right to write.
    ([second_split_redirects_first]: the table is used for every split, so not for the second.) *)
Theorem split_preserves_translation :
  exists x1, pagefault_split_region pml4 region {| cs := Some c; mem := m |} = (x1, true) /\
    forall v, translate pml4 v (mem x1) = translate pml4 v m.
Proof.
  destruct split_runs as (q & x1 & E & Hq & Hq2 & Eb & Ed & Ept & Eout). exists x1. split; [done|]. intros v.
  assert (forall x, In x (upper pml4 v m) -> mem x1 x = m x) as Hu by (intros x Hx; destruct (Hupper v x Hx); by apply Eout).
  unfold translate. rewrite (walk_agree _ _ _ _ Hu). unfold upper in Hu.
  rewrite (Hu (slot_addr pml4 (index v 39))) by (by left). rewrite (Hu (slot_addr _ (index v 30))) by (by right; left).
  destruct (walk_to_pd_entry pml4 v m) as [d'|] eqn:Ew; [|done].
  destruct (decide (d' = d)) as [->|Hne].
  - destruct Hflags as (H1 & H2 & H3). destruct (new_entry pt Hpt) as (N1 & N2 & N3).
    rewrite H1, H2, H3, Ed, N1, N2, N3.
    assert (has PAGE_HUGE (Z.lor (Z.lor pt PAGE_PRESENT) PAGE_WRITABLE) = false) as ->.
    { change PAGE_HUGE with (2 ^ 7). rewrite has_bit, !Z.lor_spec by lia. change (Z.testbit PAGE_PRESENT 7) with false.
      change (Z.testbit PAGE_WRITABLE 7) with false. by rewrite (masked_low pt 7 Hpt) by lia. }
    cbn [negb]. rewrite index_12. pose proof (Z.mod_pos_bound (v / 4096) 512 ltac:(lia)) as Hi. rewrite Ept by done.
    assert (Z.land (q * 0x200000 + (v / 4096) mod 512 * 4096) PAGE_ADDR_MASK = q * 0x200000 + (v / 4096) mod 512 * 4096) as Hm.
    { apply page_mask; [lia|]. replace (q * 0x200000 + (v / 4096) mod 512 * 4096) with ((q * 512 + (v / 4096) mod 512) * 4096) by lia.
      apply Z.mod_mul. lia. }
    destruct (new_entry _ Hm) as (M1 & M2 & M3). rewrite M1, M2, M3, Eb, offset_split, !andb_true_r. f_equal. f_equal. lia.
  - rewrite (Eout d' Hne (Hpd v d' Ew)). destruct (has PAGE_PRESENT (m d')) eqn:Hp; [|done].
    destruct (has PAGE_HUGE (m d')) eqn:Hh; [done|]. cbn [negb].
    destruct (Hpte v (slot_addr (Z.land (m d') PAGE_ADDR_MASK) (index v 12))) as [T1 T2].
    { unfold walk_to_pt_entry. by rewrite Ew, Hp, Hh. }
    by rewrite (Eout _ T1 T2).
Qed.
End split.

(** ** A machine

    Tables at 0x1000, 0x2000, 0x3000 map the first 6 MiB by three huge pages;
    the core's split table is at 0x4000, its pool at 0x8000. *)
Definition demo_mem : words :=
  store 0x1000 0x2003 (store 0x2000 0x3003 (store 0x3000 0x83 (store 0x3008 0x200083 (store 0x3010 0x400083 (fun _ => 0))))).
Definition demo_core : pf_state :=
  {| my_pml4_phys := 0x1000; pf_split_pt := 0x4000; pf_split_region_base := 0; pf_have_split := false; pf_streamed := [];
     pf_cow := []; pf_cow_pool := 0x8000; pf_cow_pool_used := 0; pf_fault_count := 0; pf_cow_copy_count := 0 |}.
Definition demo_machine : machine := {| cs := Some demo_core; mem := demo_mem |}.
Definition demo_split : machine := fst (pagefault_split_region 0x1000 0x200000 demo_machine).

(** The demo's tables are nonzero only in five words. *)
Lemma demo_mem_cases x :
  demo_mem x = 0 \/ (x = 0x1000 /\ demo_mem x = 0x2003) \/ (x = 0x2000 /\ demo_mem x = 0x3003) \/
  (0x3000 <= x <= 0x3010 /\ has PAGE_HUGE (demo_mem x) = true).
Proof.
  unfold demo_mem, store. destruct (Z.eqb_spec x 0x1000); [auto|]. destruct (Z.eqb_spec x 0x2000); [auto|].
  destruct (Z.eqb_spec x 0x3000) as [->|]; [right; right; right; split; [lia|reflexivity]|].
  destruct (Z.eqb_spec x 0x3008) as [->|]; [right; right; right; split; [lia|reflexivity]|].
  destruct (Z.eqb_spec x 0x3010) as [->|]; [right; right; right; split; [lia|reflexivity]|]. by left.
Qed.

Lemma demo_upper v x : In x (upper 0x1000 v demo_mem) -> x < 0x3000.
Proof.
  pose proof (index_range v 39). pose proof (index_range v 30). intros [<-|[<-|[]]]; [unfold slot_addr; lia|].
  destruct (demo_mem_cases (slot_addr 0x1000 (index v 39))) as [E|[[_ E]|[[E _]|[E _]]]]; [rewrite E|rewrite E|unfold slot_addr in E; lia..].
  - change (Z.land 0 PAGE_ADDR_MASK) with 0. unfold slot_addr. lia.
  - change (Z.land 0x2003 PAGE_ADDR_MASK) with 0x2000. unfold slot_addr. lia.
Qed.

Lemma demo_walk v d : walk_to_pd_entry 0x1000 v demo_mem = Some d -> 0x3000 <= d < 0x4000.
Proof.
  pose proof (index_range v 39). pose proof (index_range v 30). pose proof (index_range v 21). unfold walk_to_pd_entry.
  destruct (demo_mem_cases (slot_addr 0x1000 (index v 39))) as [E|[[_ E]|[[E _]|[E _]]]]; [by rewrite E| |unfold slot_addr in E; lia..].
  rewrite E. change (Z.land 0x2003 PAGE_ADDR_MASK) with 0x2000. cbn [has PAGE_PRESENT].
  change (negb (has PAGE_PRESENT 0x2003)) with false. cbv iota.
  destruct (demo_mem_cases (slot_addr 0x2000 (index v 30))) as [E'|[[E' _]|[[_ E']|[E' _]]]]; [by rewrite E'|unfold slot_addr in E'; lia| |unfold slot_addr in E'; lia].
  rewrite E'. change (Z.land 0x3003 PAGE_ADDR_MASK) with 0x3000. change (negb (has PAGE_PRESENT 0x3003)) with false. cbv iota.
  intros [= <-]. unfold slot_addr. lia.
Qed.

Lemma split_preserves_translation_witness :
  exists x1, pagefault_split_region 0x1000 0x200000 demo_machine = (x1, true) /\
    translate 0x1000 0x234567 (mem x1) = Some (0x234567, true).
Proof.
  destruct (split_preserves_translation demo_core demo_mem 0x1000 0x200000 0x3008) as (x1 & E & Ht).
  - reflexivity.
  - split; [reflexivity|split; reflexivity].
  - split; [discriminate|reflexivity].
  - reflexivity.
  - unfold in_page. cbn. lia.
  - intros v x Hx. apply demo_upper in Hx. unfold in_page. cbn. lia.
  - intros v d' Hd'. apply demo_walk in Hd'. unfold in_page. cbn. lia.
  - intros v t Ht. exfalso. unfold walk_to_pt_entry in Ht.
    destruct (walk_to_pd_entry 0x1000 v demo_mem) as [d'|] eqn:Ew; [|discriminate Ht]. apply demo_walk in Ew.
    destruct (demo_mem_cases d') as [E|[[E _]|[[E _]|[_ E]]]]; [rewrite E in Ht; discriminate Ht|lia|lia|rewrite E in Ht; discriminate Ht].
  - exists x1. split; [exact E|]. rewrite Ht. vm_compute. reflexivity.
Defined.

(** Page 0x201000 of the split region. *)
Lemma demo_page : page_at 0x1000 0x201000 (mem demo_split) 0x3008 0x4008.
Proof.
  split; [reflexivity|vm_compute; reflexivity|vm_compute; reflexivity| |vm_compute; reflexivity].
  split; [lia|]. vm_compute. intros [E|[E|[]]]; discriminate E.
Qed.

(** The core on a memory where that region is split. *)
Definition demo_ready : machine := {| cs := Some demo_core; mem := mem demo_split |}.

Lemma streamed_page_restored_witness :
  exists x1 x2, pagefault_mark_absent 0x1000 0x201000 demo_ready = (x1, true) /\
    isr_page_fault None 0 0x201abc x1 = Retry x2 /\ forall b, mem x2 b = mem demo_ready b.
Proof.
  destruct (streamed_page_restored demo_core (mem demo_split) 0x201000 0x3008 0x4008 demo_page 0x201abc 0)
    as (x1 & x2 & E1 & _ & E2 & E3 & _).
  - by apply Nat.ltb_lt.
  - split; vm_compute; congruence.
  - reflexivity.
  - reflexivity.
  - exists x1, x2. split; [exact E1|]. split; [exact E2|exact E3].
Defined.

Lemma cow_page_copied_witness :
  exists x1 x2, pagefault_mark_cow 0x1000 0x201000 demo_ready = (x1, true) /\
    isr_page_fault None 3 0x201abc x1 = Retry x2 /\
    (forall i, 0 <= i < 512 -> mem x2 (slot_addr 0x8000 i) = mem demo_ready (slot_addr 0x201000 i)).
Proof.
  assert (Z.land (mem demo_split 0x4008) PAGE_ADDR_MASK = 0x201000) as Es by (vm_compute; reflexivity).
  destruct (cow_page_copied demo_core (mem demo_split) 0x201000 0x3008 0x4008 demo_page 0x201abc 3)
    as (x1 & x2 & E1 & _ & E2 & _ & E3 & _).
  - by apply Nat.ltb_lt.
  - reflexivity.
  - reflexivity.
  - unfold in_page. cbn. lia.
  - unfold in_page. cbn. lia.
  - intros x. vm_compute. intros [<-|[<-|[]]] [H _]; apply H; reflexivity.
  - intros i Hi. rewrite Es. unfold slot_addr. lia.
  - split; vm_compute; congruence.
  - reflexivity.
  - reflexivity.
  - reflexivity.
  - reflexivity.
  - rewrite Es in E3. exists x1, x2. split; [exact E1|]. split; [exact E2|exact E3].
Defined.

(** ** Limits *)

(** One table serves every split: when a core that has split the region at 0x200000 splits the one at 0x400000, as
    [job_memory_acquire_resource] does for two streamed regions, both splits succeed and the addresses of the first
    region now translate into the second - two regions of virtual memory share one region of physical memory. *)
Theorem second_split_redirects_first :
  let '(x1, ok1) := pagefault_split_region 0x1000 0x200000 demo_machine in
  let '(x2, ok2) := pagefault_split_region 0x1000 0x400000 x1 in
  ok1 = true /\ ok2 = true /\
  translate 0x1000 0x200123 (mem x1) = Some (0x200123, true) /\
  translate 0x1000 0x200123 (mem x2) = Some (0x400123, true) /\
  translate 0x1000 0x400123 (mem x2) = Some (0x400123, true).
Proof. vm_compute. done. Qed.

(** Marking the first [n] pages of the region absent, as a loop over them does. *)
Definition mark_pages (mark : Z -> Z -> machine -> machine * bool) (n : nat) (x : machine) : machine * bool :=
  fold_left (fun '(x, ok) i => let '(x, ok') := mark 0x1000 (0x200000 + Z.of_nat i * 4096) x in (x, ok && ok'))
    (seq 0 n) (x, true).

(** The seventeenth streamed page is lost: [pagefault_mark_absent] answers success for each of seventeen pages, but the
    seventeenth is not recorded, so that an access to it, which faults, halts the core, while the sixteenth is
    restored. *)
Theorem streamed_page_overflow :
  let '(x, ok) := mark_pages pagefault_mark_absent 17 demo_ready in
  ok = true /\ translate 0x1000 0x210000 (mem x) = None /\ isr_page_fault None 0 0x210000 x = Halted /\
  (if isr_page_fault None 0 0x20f000 x is Retry x' then translate 0x1000 0x20f000 (mem x') else None) = Some (0x20f000, true).
Proof. vm_compute. done. Qed.

(** With the pool of private pages used up the handler returns without resolving anything: whatever core and memory,
    on a write fault to a recorded copy-on-write page all it changes is the count of faults, so the write faults again
    and is tried again for ever. *)
Theorem cow_pool_exhausted x c v error :
  cs x = Some c -> COW_POOL_SIZE <= pf_cow_pool_used c -> has 1 error = true -> has 2 error = true ->
  registered (pf_cow c) (Z.land v 0xFFFFFFFFFFFFF000) = true ->
  isr_page_fault None error v x = Retry {| cs := Some (count_fault c); mem := mem x |}.
Proof.
  intros Hc Hu He1 He2 Hr. unfold isr_page_fault. rewrite andb_false_r, Hc, He1, He2.
  change (pf_cow (count_fault c)) with (pf_cow c). rewrite Hr. cbn [negb andb]. unfold resolve_cow_write.
  change (pf_cow_pool_used (count_fault c)) with (pf_cow_pool_used c).
  rewrite (proj2 (Z.leb_le _ _) Hu). by destruct (walk_to_pt_entry _ _ _).
Qed.

(** A core whose pool is used up. *)
Definition demo_used : machine :=
  {| cs := Some (with_pf 0x200000 true [] [0x201000] 4 4 4 demo_core);
     mem := store 0x4008 0x201001 (mem demo_split) |}.

Lemma cow_pool_exhausted_witness :
  translate 0x1000 0x201abc (mem demo_used) = Some (0x201abc, false) /\
  isr_page_fault None 3 0x201abc demo_used =
  Retry {| cs := Some (count_fault (with_pf 0x200000 true [] [0x201000] 4 4 4 demo_core)); mem := mem demo_used |}.
Proof.
  split; [vm_compute; reflexivity|].
  apply cow_pool_exhausted; [reflexivity|unfold COW_POOL_SIZE; cbn; lia|reflexivity|reflexivity|reflexivity].
Defined.
