(* ===== verification/PageFaultArm.v ===== *)
(** * Page faults on AArch64 (coreinit/arch_mmu_aarch64.c, coreinit/pagefault_aarch64.c)

    The identity map of a core, splitting one 2 MiB region of it, marking
    pages absent (streamed) or read-only (copy-on-write), and the handler of
    the exceptions that follow.

    [translate] is the processor's walk from a level-1 table (39-bit
    addresses, 4 KiB granule).  Translation caches are not modelled: the code
    flushes them after each change.  [ram_base] is the build's
    AARCH64_RAM_BASE. *)

From S2P Require Import Prelude PageTable.

Definition PAGE_SIZE : Z := 4096.
Definition REGION_SIZE : Z := 0x200000.
Definition RAM_END : Z := 0x80000000.
Definition ADDR_MASK : Z := 0x0000FFFFFFFFF000.
Definition VALID : Z := 0x1.
Definition TABLE_OR_PAGE : Z := 0x3.
Definition ACCESS_FLAG : Z := 0x400.
Definition NORMAL_MEMORY : Z := 0x4.
Definition INNER_SHAREABLE : Z := 0x300.
Definition UXN : Z := 0x40000000000000.
Definition PXN : Z := 0x20000000000000.
Definition READ_ONLY : Z := 0x80.
Definition MAX_STREAMED_PAGES : nat := 16.
Definition MAX_COW_PAGES : nat := 16.
Definition COW_POOL_SIZE : Z := 4.
Definition DESC_BLOCK : Z := 0x1.

(** The fields of [struct core_state] these files work on; tables and the pool
    are addresses, and a count with its array is a list. *)
Record arm_state := {
  mmu_l1 : Z; mmu_owned_map : bool;
  pf_l2 : Z; pf_l3 : Z; pf_split_base : Z; pf_have_split : bool; pf_handler_ready : bool;
  pf_streamed : list Z; pf_cow : list Z; pf_cow_used : Z; pf_cow_pool : Z;
  pf_fault_count : Z; pf_cow_copies : Z }.

Definition with_pf (owned : bool) (base : Z) (have ready : bool) (streamed cow : list Z) (used faults copies : Z)
    (c : arm_state) : arm_state :=
  {| mmu_l1 := mmu_l1 c; mmu_owned_map := owned; pf_l2 := pf_l2 c; pf_l3 := pf_l3 c; pf_split_base := base;
     pf_have_split := have; pf_handler_ready := ready; pf_streamed := streamed; pf_cow := cow; pf_cow_used := used;
     pf_cow_pool := pf_cow_pool c; pf_fault_count := faults; pf_cow_copies := copies |}.
Definition own_map (c : arm_state) : arm_state :=
  with_pf true (pf_split_base c) (pf_have_split c) (pf_handler_ready c) (pf_streamed c) (pf_cow c) (pf_cow_used c)
    (pf_fault_count c) (pf_cow_copies c) c.
Definition set_ready (c : arm_state) : arm_state :=
  with_pf (mmu_owned_map c) (pf_split_base c) (pf_have_split c) true (pf_streamed c) (pf_cow c) (pf_cow_used c)
    (pf_fault_count c) (pf_cow_copies c) c.
Definition set_split (base : Z) (c : arm_state) : arm_state :=
  with_pf (mmu_owned_map c) base true (pf_handler_ready c) (pf_streamed c) (pf_cow c) (pf_cow_used c)
    (pf_fault_count c) (pf_cow_copies c) c.
Definition set_streamed (l : list Z) (c : arm_state) : arm_state :=
  with_pf (mmu_owned_map c) (pf_split_base c) (pf_have_split c) (pf_handler_ready c) l (pf_cow c) (pf_cow_used c)
    (pf_fault_count c) (pf_cow_copies c) c.
Definition set_cow (l : list Z) (c : arm_state) : arm_state :=
  with_pf (mmu_owned_map c) (pf_split_base c) (pf_have_split c) (pf_handler_ready c) (pf_streamed c) l (pf_cow_used c)
    (pf_fault_count c) (pf_cow_copies c) c.
Definition count_fault (c : arm_state) : arm_state :=
  with_pf (mmu_owned_map c) (pf_split_base c) (pf_have_split c) (pf_handler_ready c) (pf_streamed c) (pf_cow c)
    (pf_cow_used c) (u64 (pf_fault_count c + 1)) (pf_cow_copies c) c.
Definition count_copy (c : arm_state) : arm_state :=
  with_pf (mmu_owned_map c) (pf_split_base c) (pf_have_split c) (pf_handler_ready c) (pf_streamed c) (pf_cow c)
    (pf_cow_used c + 1) (pf_fault_count c) (u64 (pf_cow_copies c + 1)) c.

(** [core_state_get()] may be NULL; [mmu_on] is bit 0 of SCTLR_EL1. *)
Record machine := { cs : option arm_state; mmu_on : bool; mem : words }.

Definition arch_has_mmu (x : machine) : bool := mmu_on x.

Definition arch_mmu_root_phys (x : machine) : Z :=
  match cs x with Some c => if mmu_owned_map c then mmu_l1 c else 0 | None => 0 end.

(** The attributes of ordinary executable memory and of devices. *)
Definition NORMAL_BLOCK : Z := Eval cbv in Z.lor (Z.lor (Z.lor (Z.lor DESC_BLOCK ACCESS_FLAG) NORMAL_MEMORY) INNER_SHAREABLE) UXN.
Definition DEVICE_BLOCK : Z := Eval cbv in Z.lor (Z.lor (Z.lor DESC_BLOCK ACCESS_FLAG) UXN) PXN.

(** [el1]: whether CurrentEL is EL1. *)
Definition arch_mmu_enable_identity_map (ram_base : Z) (el1 : bool) (kernel_invoke_addr : Z) (x : machine) : machine * bool :=
  if negb el1 then (x, false)
  else match cs x with
  | None => (x, false)
  | Some c =>
      if mmu_on x then (x, true)
      else
        let l1 i := slot_addr (mmu_l1 c) i in
        let m := fill (mmu_l1 c) 512 (fun _ => 0) (mem x) in
        let m := store (l1 0) DEVICE_BLOCK m in
        let m := store (l1 1) (Z.lor ram_base NORMAL_BLOCK) m in
        let m := store (l1 2) (Z.lor 0x80000000 DEVICE_BLOCK) m in
        let m := store (l1 3) (Z.lor 0xC0000000 DEVICE_BLOCK) m in
        let kernel_block := Z.shiftr kernel_invoke_addr 30 mod 2 ^ 32 in
        let m := if kernel_block <? 4
                 then store (l1 kernel_block) (Z.lor (Z.shiftl kernel_block 30) NORMAL_BLOCK) m else m in
        ({| cs := Some (own_map c); mmu_on := true; mem := m |}, true)
  end.

(** The address of the entry, NULL for [None]. *)
Definition page_entry (c : arm_state) (addr : Z) : option Z :=
  if negb (pf_have_split c) || (addr <? pf_split_base c) || (u64 (pf_split_base c + REGION_SIZE) <=? addr) then None
  else Some (slot_addr (pf_l3 c) (index addr 12)).

Definition pagefault_supported (x : machine) : bool := arch_has_mmu x && negb (arch_mmu_root_phys x =? 0).

Definition pagefault_init (x : machine) : machine :=
  match cs x with
  | Some c => if pagefault_supported x then {| cs := Some (set_ready c); mmu_on := mmu_on x; mem := mem x |} else x
  | None => x
  end.

Definition split_flags : Z := Eval cbv in Z.lor (Z.lor (Z.lor (Z.lor VALID NORMAL_MEMORY) INNER_SHAREABLE) ACCESS_FLAG) UXN.
Definition l2_block (ram_base i : Z) : Z := Z.lor (u64 (ram_base + i * REGION_SIZE)) split_flags.
Definition l3_page (region_base i : Z) : Z := Z.lor (Z.lor (u64 (region_base + i * PAGE_SIZE)) split_flags) TABLE_OR_PAGE.

Definition pagefault_split_region (ram_base region_base : Z) (x : machine) : machine * bool :=
  let root_phys := arch_mmu_root_phys x in
  match cs x with
  | None => (x, false)
  | Some c =>
      if negb (pf_handler_ready c) || (root_phys =? 0) || negb (Z.land region_base (REGION_SIZE - 1) =? 0) ||
         (region_base <? ram_base) || (RAM_END <=? region_base) || pf_have_split c then (x, false)
      else if negb (Z.land (mem x (slot_addr root_phys 1)) 3 =? VALID) then (x, false)
      else
        let m := fill (pf_l2 c) 512 (l2_block ram_base) (mem x) in
        let m := store (slot_addr root_phys 1) (Z.lor (pf_l2 c) TABLE_OR_PAGE) m in
        let m := fill (pf_l3 c) 512 (l3_page region_base) m in
        let m := store (slot_addr (pf_l2 c) (index region_base 21)) (Z.lor (pf_l3 c) TABLE_OR_PAGE) m in
        ({| cs := Some (set_split region_base c); mmu_on := mmu_on x; mem := m |}, true)
  end.

Definition register_streamed (page_addr : Z) (c : arm_state) : arm_state :=
  if negb (registered (pf_streamed c) page_addr) && (length (pf_streamed c) <? MAX_STREAMED_PAGES)%nat
  then set_streamed (pf_streamed c ++ [page_addr]) c else c.

Definition pagefault_register_streamed_page (page_addr : Z) (x : machine) : machine :=
  match cs x with
  | None => x
  | Some c => {| cs := Some (register_streamed page_addr c); mmu_on := mmu_on x; mem := mem x |}
  end.

Definition pagefault_mark_absent (page_addr : Z) (x : machine) : machine * bool :=
  match cs x with
  | None => (x, false)
  | Some c =>
      match page_entry c page_addr with
      | None => (x, false)
      | Some a =>
          if negb (pf_handler_ready c) || negb (has VALID (mem x a)) ||
             (negb (registered (pf_streamed c) page_addr) && (length (pf_streamed c) =? MAX_STREAMED_PAGES)%nat)
          then (x, false)
          else ({| cs := Some (register_streamed page_addr c); mmu_on := mmu_on x;
                   mem := store a (Z.ldiff (mem x a) VALID) (mem x) |}, true)
      end
  end.

Definition pagefault_mark_cow (page_addr : Z) (x : machine) : machine * bool :=
  match cs x with
  | None => (x, false)
  | Some c =>
      match page_entry c page_addr with
      | None => (x, false)
      | Some a =>
          if negb (pf_handler_ready c) || negb (has VALID (mem x a)) ||
             (negb (registered (pf_cow c) page_addr) && (length (pf_cow c) =? MAX_COW_PAGES)%nat)
          then (x, false)
          else
            let c := if negb (registered (pf_cow c) page_addr) then set_cow (pf_cow c ++ [page_addr]) c else c in
            ({| cs := Some c; mmu_on := mmu_on x; mem := store a (Z.lor (mem x a) READ_ONLY) (mem x) |}, true)
      end
  end.

(** How the handler ends: the access is tried again, or the core halts. *)
Inductive fault_outcome := Retry (x : machine) | Halted.

(** [hook]: what the wrapper's EL0 hook answers, when it is installed. *)
Definition pagefault_aarch64_handle (hook : option bool) (esr far : Z) (x : machine) : fault_outcome :=
  let ec := Z.land (Z.shiftr esr 26) 0x3f in
  if ((ec =? 0x15) || (ec =? 0x24) || (ec =? 0x3c)) && bool_decide (hook = Some true) then Retry x
  else
    let dfsc := Z.land esr 0x3f in
    let page := Z.land far 0xFFFFFFFFFFFFF000 in
    match cs x with
    | None => Halted
    | Some c =>
        if pf_handler_ready c && ((ec =? 0x25) || (ec =? 0x24)) then
          let c := count_fault c in
          match page_entry c page with
          | None => Halted
          | Some a =>
              if (4 <=? dfsc) && (dfsc <=? 7) && registered (pf_streamed c) page && negb (has VALID (mem x a)) then
                Retry {| cs := Some c; mmu_on := mmu_on x; mem := store a (Z.lor (mem x a) VALID) (mem x) |}
              else if (12 <=? dfsc) && (dfsc <=? 15) && has (Z.shiftl 1 6) esr && registered (pf_cow c) page &&
                      has READ_ONLY (mem x a) && (pf_cow_used c <? COW_POOL_SIZE) then
                let src := Z.land (mem x a) ADDR_MASK in
                let dst := pf_cow_pool c + pf_cow_used c * PAGE_SIZE in
                let m := copy_page dst src (mem x) in
                let m := store a (Z.lor (Z.ldiff (m a) (Z.lor ADDR_MASK READ_ONLY)) (Z.land dst ADDR_MASK)) m in
                Retry {| cs := Some (count_copy c); mmu_on := mmu_on x; mem := m |}
              else Halted
          end
        else Halted
    end.

Definition pagefault_get_count (x : machine) : Z := match cs x with Some c => pf_fault_count c | None => 0 end.
Definition pagefault_get_cow_copy_count (x : machine) : Z := match cs x with Some c => pf_cow_copies c | None => 0 end.
Definition pagefault_debug_read_pte (addr : Z) (x : machine) : Z :=
  match cs x with
  | Some c => match page_entry c addr with Some a => mem x a | None => 0 end
  | None => 0
  end.

(** ** The processor's translation *)

(** Memory type, shareability and the two execute-never flags. *)
Definition ATTRIBUTES : Z := Eval cbv in Z.lor (Z.lor (Z.lor 0x1C INNER_SHAREABLE) UXN) PXN.
Definition TABLE : Z := 0x2.

Definition leaf (mask size e v : Z) : option (Z * bool * Z) :=
  if has ACCESS_FLAG e then Some (Z.land e mask + v mod size, negb (has READ_ONLY e), Z.land e ATTRIBUTES) else None.

(** Physical address, whether EL1 may write, attributes; [None]: a fault. *)
Definition translate (l1 v : Z) (m : words) : option (Z * bool * Z) :=
  let e1 := m (slot_addr l1 (index v 30)) in
  if negb (has VALID e1) then None
  else if negb (has TABLE e1) then leaf 0x0000FFFFC0000000 0x40000000 e1 v
  else
    let e2 := m (slot_addr (Z.land e1 ADDR_MASK) (index v 21)) in
    if negb (has VALID e2) then None
    else if negb (has TABLE e2) then leaf 0x0000FFFFFFE00000 REGION_SIZE e2 v
    else
      let e3 := m (slot_addr (Z.land e2 ADDR_MASK) (index v 12)) in
      if has VALID e3 && has TABLE e3 then leaf ADDR_MASK PAGE_SIZE e3 v else None.

(** ** Fields of an entry *)

Lemma land_ldiff e v k : Z.land (Z.ldiff e v) k = Z.land e (Z.ldiff k v).
Proof.
  apply Z.bits_inj'. intros i Hi. rewrite !Z.land_spec, !Z.ldiff_spec. by destruct (Z.testbit e i), (Z.testbit v i), (Z.testbit k i).
Qed.

Lemma ldiff_ldiff e v k : Z.ldiff (Z.ldiff e v) k = Z.ldiff e (Z.lor v k).
Proof.
  apply Z.bits_inj'. intros i Hi. rewrite !Z.ldiff_spec, Z.lor_spec. by destruct (Z.testbit e i), (Z.testbit v i), (Z.testbit k i).
Qed.

Lemma ldiff_lor_l a b k : Z.ldiff (Z.lor a b) k = Z.lor (Z.ldiff a k) (Z.ldiff b k).
Proof.
  apply Z.bits_inj'. intros i Hi. rewrite !Z.ldiff_spec, !Z.lor_spec, !Z.ldiff_spec.
  by destruct (Z.testbit a i), (Z.testbit b i), (Z.testbit k i).
Qed.

Lemma ldiff_land a b k : Z.ldiff (Z.land a b) k = Z.land a (Z.ldiff b k).
Proof.
  apply Z.bits_inj'. intros i Hi. rewrite !Z.land_spec, !Z.ldiff_spec, !Z.land_spec.
  by destruct (Z.testbit a i), (Z.testbit b i), (Z.testbit k i).
Qed.

Lemma has_lor f a b : has f (Z.lor a b) = has f a || has f b.
Proof.
  unfold has. rewrite Z.land_lor_distr_l. destruct (Z.eqb_spec (Z.land a f) 0) as [->|Ha].
  - by rewrite Z.lor_0_l.
  - cbn. rewrite (proj2 (Z.eqb_neq _ _)); [done|]. intros E. apply Z.lor_eq_0_iff in E. tauto.
Qed.

Lemma has_ldiff f e v : has f (Z.ldiff e v) = has (Z.ldiff f v) e.
Proof. unfold has. by rewrite land_ldiff. Qed.

Lemma has_land f a b : has f (Z.land a b) = has (Z.land b f) a.
Proof. unfold has. by rewrite Z.land_assoc. Qed.

(** What the code changes of an entry, and what it leaves. *)
Definition FIELDS : Z := Eval cbv in Z.lor (Z.lor ADDR_MASK VALID) READ_ONLY.

Definition same_rest (e e' : Z) : Prop := Z.ldiff e' FIELDS = Z.ldiff e FIELDS.

Lemma has_0 x : has 0 x = false.
Proof. unfold has. by rewrite Z.land_0_r. Qed.

(** The operations on fields, where the constants evaluate. *)
Lemma land_ldiff_val e v k k' : Z.ldiff k v = k' -> Z.land (Z.ldiff e v) k = Z.land e k'.
Proof. intros <-. apply land_ldiff. Qed.
Lemma has_ldiff_val f e v f' : Z.ldiff f v = f' -> has f (Z.ldiff e v) = has f' e.
Proof. intros <-. apply has_ldiff. Qed.
Lemma rest_ldiff e v : Z.lor v FIELDS = FIELDS -> same_rest e (Z.ldiff e v).
Proof. intros E. unfold same_rest. by rewrite ldiff_ldiff, E. Qed.
Lemma land_lor_val e v k : Z.land v k = 0 -> Z.land (Z.lor e v) k = Z.land e k.
Proof. intros E. by rewrite Z.land_lor_distr_l, E, Z.lor_0_r. Qed.
Lemma has_lor_val f e v b : has f v = b -> has f (Z.lor e v) = has f e || b.
Proof. intros <-. apply has_lor. Qed.
Lemma rest_lor e e' v : Z.ldiff v FIELDS = 0 -> same_rest e e' -> same_rest e (Z.lor e' v).
Proof. intros E H. unfold same_rest. by rewrite ldiff_lor_l, E, Z.lor_0_r. Qed.

Lemma clear_valid e :
  let e' := Z.ldiff e VALID in
  Z.land e' ADDR_MASK = Z.land e ADDR_MASK /\ has VALID e' = false /\ has READ_ONLY e' = has READ_ONLY e /\ same_rest e e'.
Proof.
  split_and!; [by apply land_ldiff_val| |by apply has_ldiff_val|by apply rest_ldiff].
  rewrite (has_ldiff_val VALID e VALID 0 eq_refl). apply has_0.
Qed.

Lemma set_valid e :
  let e' := Z.lor e VALID in
  Z.land e' ADDR_MASK = Z.land e ADDR_MASK /\ has VALID e' = true /\ has READ_ONLY e' = has READ_ONLY e /\ same_rest e e'.
Proof.
  split_and!; [by apply land_lor_val| | |by apply rest_lor].
  - rewrite (has_lor_val VALID e VALID true eq_refl). apply orb_true_r.
  - rewrite (has_lor_val READ_ONLY e VALID false eq_refl). apply orb_false_r.
Qed.

Lemma set_read_only e :
  let e' := Z.lor e READ_ONLY in
  Z.land e' ADDR_MASK = Z.land e ADDR_MASK /\ has VALID e' = has VALID e /\ has READ_ONLY e' = true /\ same_rest e e'.
Proof.
  split_and!; [by apply land_lor_val| | |by apply rest_lor].
  - rewrite (has_lor_val VALID e READ_ONLY false eq_refl). apply orb_false_r.
  - rewrite (has_lor_val READ_ONLY e READ_ONLY true eq_refl). apply orb_true_r.
Qed.

Lemma masked_has f dst : Z.land dst ADDR_MASK = dst -> Z.land ADDR_MASK f = 0 -> has f dst = false.
Proof. intros <- E. rewrite has_land, E. apply has_0. Qed.

Lemma set_private e dst : Z.land dst ADDR_MASK = dst ->
  let e' := Z.lor (Z.ldiff e (Z.lor ADDR_MASK READ_ONLY)) (Z.land dst ADDR_MASK) in
  Z.land e' ADDR_MASK = dst /\ has VALID e' = has VALID e /\ has READ_ONLY e' = false /\ same_rest e e'.
Proof.
  intros Hd. cbn zeta. rewrite Hd. split_and!.
  - rewrite Z.land_lor_distr_l, (land_ldiff_val e _ ADDR_MASK 0), Z.land_0_r, Z.lor_0_l by reflexivity. exact Hd.
  - rewrite has_lor, (has_ldiff_val VALID e _ VALID), (masked_has VALID dst Hd) by reflexivity. apply orb_false_r.
  - rewrite has_lor, (has_ldiff_val READ_ONLY e _ 0), (masked_has READ_ONLY dst Hd), has_0 by reflexivity. done.
  - apply rest_lor; [|by apply rest_ldiff]. rewrite <- Hd, ldiff_land.
    rewrite (eq_refl : Z.ldiff ADDR_MASK FIELDS = 0). apply Z.land_0_r.
Qed.

(** ** The invariant of a core's tables, in the default build *)

Definition RAM_BASE : Z := 0x40000000.

Definition page_addr (a : Z) : Prop := 0 < a < 2 ^ 46 /\ a mod 4096 = 0.

(** The tables and the pool are pages of their own. *)
Record layout_ok (c : arm_state) : Prop := {
  lo_l1 : page_addr (mmu_l1 c); lo_l2 : page_addr (pf_l2 c); lo_l3 : page_addr (pf_l3 c); lo_pool : page_addr (pf_cow_pool c);
  lo_12 : mmu_l1 c <> pf_l2 c; lo_13 : mmu_l1 c <> pf_l3 c; lo_23 : pf_l2 c <> pf_l3 c;
  lo_apart : forall k, 0 <= k < COW_POOL_SIZE ->
    let q := pf_cow_pool c + k * PAGE_SIZE in q <> mmu_l1 c /\ q <> pf_l2 c /\ q <> pf_l3 c }.

Definition in_pool (pool used pa : Z) : Prop := exists k, 0 <= k < used /\ pa = pool + k * PAGE_SIZE.

(** The entry of page [p] of the split region: mapped to itself or to a private
    copy; absent only if recorded as streamed, read-only only if recorded as
    copy-on-write, and writable on its own memory only if not so recorded. *)
Record entry_ok (streamed cow : list Z) (pool used p e : Z) : Prop := {
  eo_rest : Z.ldiff e FIELDS = Z.ldiff (Z.lor split_flags TABLE_OR_PAGE) FIELDS;
  eo_absent : has VALID e = false -> In p streamed;
  eo_read_only : has READ_ONLY e = true -> In p cow;
  eo_addr : Z.land e ADDR_MASK = p \/ (In p cow /\ in_pool pool used (Z.land e ADDR_MASK));
  eo_cow : In p cow -> has READ_ONLY e = true \/ in_pool pool used (Z.land e ADDR_MASK) }.

Record split_ok (c : arm_state) (m : words) : Prop := {
  so_ready : pf_handler_ready c = true;
  so_base : RAM_BASE <= pf_split_base c < RAM_END /\ pf_split_base c mod REGION_SIZE = 0;
  so_l1 : m (slot_addr (mmu_l1 c) 1) = Z.lor (pf_l2 c) TABLE_OR_PAGE;
  so_l2 : forall i, 0 <= i < 512 -> m (slot_addr (pf_l2 c) i) =
    if i =? index (pf_split_base c) 21 then Z.lor (pf_l3 c) TABLE_OR_PAGE else l2_block RAM_BASE i;
  so_l3 : forall i, 0 <= i < 512 ->
    entry_ok (pf_streamed c) (pf_cow c) (pf_cow_pool c) (pf_cow_used c) (pf_split_base c + i * PAGE_SIZE)
      (m (slot_addr (pf_l3 c) i));
  so_cow : forall p, In p (pf_cow c) -> exists i, 0 <= i < 512 /\ p = pf_split_base c + i * PAGE_SIZE }.

Record inv (x : machine) (c : arm_state) : Prop := {
  iv_cs : cs x = Some c;
  iv_layout : layout_ok c;
  iv_owned : mmu_owned_map c = true;
  iv_counts : (length (pf_streamed c) <= MAX_STREAMED_PAGES)%nat /\ (length (pf_cow c) <= MAX_COW_PAGES)%nat /\
    0 <= pf_cow_used c <= COW_POOL_SIZE;
  iv_tables : if pf_have_split c then split_ok c (mem x)
    else mem x (slot_addr (mmu_l1 c) 1) = Z.lor RAM_BASE NORMAL_BLOCK /\ pf_cow c = [] }.

(** *** Addresses of tables *)

Lemma slots_apart a b i j : page_addr a -> page_addr b -> a <> b -> 0 <= i < 512 -> 0 <= j < 512 ->
  slot_addr a i <> slot_addr b j.
Proof.
  intros [_ Ha] [_ Hb] Hab Hi Hj E. unfold slot_addr in E. pose proof (Z.div_mod a 4096). pose proof (Z.div_mod b 4096).
  assert (a / 4096 <> b / 4096) by (intros Eq; apply Hab; lia). lia.
Qed.

Lemma slot_inj a i j : slot_addr a i = slot_addr a j -> i = j.
Proof. unfold slot_addr. lia. Qed.

Lemma slot_not_in a b i : page_addr a -> b mod 4096 = 0 -> b <> a -> 0 <= i < 512 -> ~ in_page (slot_addr a i) b.
Proof.
  intros [_ Ha] Hb Hab Hi E. unfold in_page, slot_addr in E. pose proof (Z.div_mod a 4096). pose proof (Z.div_mod b 4096).
  assert (a / 4096 <> b / 4096) by (intros Eq; apply Hab; lia). lia.
Qed.

Lemma pool_page c k : layout_ok c -> 0 <= k < COW_POOL_SIZE ->
  let q := pf_cow_pool c + k * PAGE_SIZE in 0 < q < 2 ^ 47 /\ q mod 4096 = 0.
Proof.
  intros Hl Hk. destruct (lo_pool c Hl) as [Hp Hm]. unfold PAGE_SIZE, COW_POOL_SIZE in *. split; [lia|].
  rewrite Z.mod_add by lia. done.
Qed.

Lemma page_masked q : 0 <= q < 2 ^ 48 -> q mod 4096 = 0 -> Z.land q ADDR_MASK = q.
Proof.
  intros Hq Hm. change ADDR_MASK with (Z.shiftl (Z.ones 36) 12). rewrite (align_down q 36 12) by lia.
  change (2 ^ 12) with 4096. pose proof (Z.div_mod q 4096). lia.
Qed.

(** *** The pages of the split region *)

Lemma region_index base i : 0 <= base -> base mod REGION_SIZE = 0 -> 0 <= i < 512 -> index (base + i * PAGE_SIZE) 12 = i.
Proof.
  intros H0 Hb Hi. rewrite index_12. unfold REGION_SIZE, PAGE_SIZE in *. rewrite Z.div_add by lia.
  pose proof (Z.div_mod base 0x200000). replace base with (base / 0x200000 * 512 * 4096) by lia.
  rewrite Z.div_mul, Z.add_comm, Z.mod_add by lia. apply Z.mod_small. lia.
Qed.

Lemma page_entry_split c m p : split_ok c m -> p mod PAGE_SIZE = 0 ->
  match page_entry c p with
  | Some a => pf_have_split c = true /\
      exists i, 0 <= i < 512 /\ p = pf_split_base c + i * PAGE_SIZE /\ a = slot_addr (pf_l3 c) i
  | None => pf_have_split c = false \/ ~ pf_split_base c <= p < pf_split_base c + REGION_SIZE
  end.
Proof.
  intros Hs Hp. destruct (so_base c m Hs) as [Hb Hm]. unfold page_entry.
  unfold RAM_BASE, RAM_END, REGION_SIZE, PAGE_SIZE in *. rewrite u64_small by (unfold is_u64, W64; lia).
  destruct (pf_have_split c); [|by left]. cbn [negb orb].
  destruct (Z.ltb_spec p (pf_split_base c)), (Z.leb_spec (pf_split_base c + 0x200000) p); cbn [orb]; try (right; lia).
  split; [done|]. pose proof (Z.div_mod p 4096 ltac:(lia)). pose proof (Z.div_mod (pf_split_base c) 0x200000 ltac:(lia)).
  assert (p = pf_split_base c + (p - pf_split_base c) / 4096 * 4096) as E.
  { replace (p - pf_split_base c) with ((p / 4096 - pf_split_base c / 0x200000 * 512) * 4096) by lia. rewrite Z.div_mul by lia. lia. }
  assert (0 <= (p - pf_split_base c) / 4096 < 512) as Hi.
  { split; [apply Z.div_pos; lia|apply Z.div_lt_upper_bound; lia]. }
  eexists. split; [exact Hi|]. split; [exact E|]. f_equal. rewrite E at 1. by apply region_index; [lia| |].
Qed.

(** *** Each operation keeps the invariant *)

Lemma in_pool_mono pool u u' pa : in_pool pool u pa -> u <= u' -> in_pool pool u' pa.
Proof. intros (k & Hk & ->) H. exists k. split; [lia|done]. Qed.

Lemma entry_ok_weaken s s' cow cow' pool u u' p e :
  entry_ok s cow pool u p e -> (forall x, In x s -> In x s') -> (In p cow <-> In p cow') -> u <= u' ->
  entry_ok s' cow' pool u' p e.
Proof.
  intros [H1 H2 H3 H4 H5] Hs Hc Hu. split; [done|auto|by rewrite <- Hc; auto| |].
  - rewrite <- Hc. destruct H4 as [|[]]; [by left|right]. split; [done|]. by apply (in_pool_mono _ u).
  - rewrite <- Hc. intros H. destruct (H5 H); [by left|right]. by apply (in_pool_mono _ u).
Qed.

(** The addresses a core has for good, and its split. *)
Definition same_layout (c c' : arm_state) : Prop :=
  mmu_l1 c' = mmu_l1 c /\ pf_l2 c' = pf_l2 c /\ pf_l3 c' = pf_l3 c /\ pf_cow_pool c' = pf_cow_pool c /\
  pf_split_base c' = pf_split_base c /\ pf_handler_ready c' = pf_handler_ready c.

(** The entry of one page changes, the tables do not. *)
Lemma split_update c c' m m' i :
  split_ok c m -> same_layout c c' -> 0 <= i < 512 ->
  (forall b, b = slot_addr (mmu_l1 c) 1 \/ (exists j, 0 <= j < 512 /\ b = slot_addr (pf_l2 c) j) \/
             (exists j, 0 <= j < 512 /\ j <> i /\ b = slot_addr (pf_l3 c) j) -> m' b = m b) ->
  entry_ok (pf_streamed c') (pf_cow c') (pf_cow_pool c) (pf_cow_used c') (pf_split_base c + i * PAGE_SIZE)
    (m' (slot_addr (pf_l3 c) i)) ->
  (forall x, In x (pf_streamed c) -> In x (pf_streamed c')) ->
  (forall j, j <> i -> let p := pf_split_base c + j * PAGE_SIZE in In p (pf_cow c) <-> In p (pf_cow c')) ->
  (forall p, In p (pf_cow c') -> In p (pf_cow c) \/ p = pf_split_base c + i * PAGE_SIZE) ->
  pf_cow_used c <= pf_cow_used c' -> split_ok c' m'.
Proof.
  intros [H1 H2 H3 H4 H5 H6] (E1 & E2 & E3 & E4 & E5 & E6) Hi Hm He Hs Hc Hc' Hu. split; rewrite ?E1, ?E2, ?E3, ?E4, ?E5, ?E6; auto.
  - rewrite Hm; auto.
  - intros j Hj. rewrite Hm by eauto 10. auto.
  - intros j Hj. destruct (decide (j = i)) as [->|Hne]; [done|]. rewrite Hm by eauto 10.
    apply (entry_ok_weaken _ _ _ _ _ _ _ _ _ (H5 j Hj)); auto.
  - intros p Hp. destruct (Hc' p Hp) as [Hin| ->]; eauto.
Qed.

(** A store to the entry of a page leaves the other entries and tables. *)
Lemma l3_store_other c m i v b : layout_ok c -> 0 <= i < 512 ->
  b = slot_addr (mmu_l1 c) 1 \/ (exists j, 0 <= j < 512 /\ b = slot_addr (pf_l2 c) j) \/
  (exists j, 0 <= j < 512 /\ j <> i /\ b = slot_addr (pf_l3 c) j) ->
  store (slot_addr (pf_l3 c) i) v m b = m b.
Proof.
  intros [] Hi Hb. apply store_ne. destruct Hb as [->|[(j & Hj & ->)|(j & Hj & Hne & ->)]].
  - by apply slots_apart.
  - by apply slots_apart.
  - intros E. by apply slot_inj in E.
Qed.

Lemma registered_In l p : registered l p = true <-> In p l.
Proof.
  unfold registered. rewrite existsb_exists. split; [intros (x & Hx & E); apply Z.eqb_eq in E; by subst|].
  intros H. exists p. split; [done|apply Z.eqb_refl].
Qed.

Lemma register_streamed_spec p c :
  let c' := register_streamed p c in
  same_layout c c' /\ pf_have_split c' = pf_have_split c /\ mmu_owned_map c' = mmu_owned_map c /\ pf_cow c' = pf_cow c /\
  pf_cow_used c' = pf_cow_used c /\ (forall x, In x (pf_streamed c) -> In x (pf_streamed c')) /\
  ((length (pf_streamed c) <= MAX_STREAMED_PAGES)%nat -> (length (pf_streamed c') <= MAX_STREAMED_PAGES)%nat) /\
  (registered (pf_streamed c) p = true \/ (length (pf_streamed c) < MAX_STREAMED_PAGES)%nat -> In p (pf_streamed c')).
Proof.
  intros c'. unfold c', register_streamed. destruct (registered (pf_streamed c) p) eqn:Er; cbn [negb andb].
  - apply registered_In in Er. repeat split; auto.
  - destruct (Nat.ltb_spec (length (pf_streamed c)) MAX_STREAMED_PAGES); cbn [andb].
    + repeat split; cbn; auto.
      * intros x Hx. apply in_or_app. by left.
      * intros _. rewrite length_app. cbn. unfold MAX_STREAMED_PAGES in *. lia.
      * intros _. apply in_or_app. right. by left.
    + repeat split; auto. intros [|]; [done|lia].
Qed.

Lemma layout_same c c' : layout_ok c -> same_layout c c' -> layout_ok c'.
Proof. intros [] (E1 & E2 & E3 & E4 & _). split; rewrite ?E1, ?E2, ?E3, ?E4; auto. Qed.

Lemma split_weaken c c' m : split_ok c m -> same_layout c c' -> (forall x, In x (pf_streamed c) -> In x (pf_streamed c')) ->
  pf_cow c' = pf_cow c -> pf_cow_used c' = pf_cow_used c -> split_ok c' m.
Proof.
  intros Hs Hl Hst Hc Hu. apply (split_update c c' m m 0); auto; try lia.
  - pose proof (so_l3 c m Hs 0 ltac:(lia)) as H. apply (entry_ok_weaken _ _ _ _ _ _ _ _ _ H); [done|by rewrite Hc|lia].
  - intros j _. by rewrite Hc.
  - intros p. rewrite Hc. by left.
Qed.

Lemma init_keeps x c : inv x c -> exists c', inv (pagefault_init x) c'.
Proof.
  intros H. pose proof H as [E Hl Ho Hc Ht]. unfold pagefault_init. rewrite E. destruct (pagefault_supported x); [|by exists c].
  exists (set_ready c). split; [done|by destruct Hl; split|done|done|]. cbn [pf_have_split set_ready with_pf mem pf_cow mmu_l1].
  destruct (pf_have_split c); [|done]. destruct Ht as [H1 H2 H3 H4 H5 H6]. by split.
Qed.

Lemma register_keeps x c p : inv x c -> exists c', inv (pagefault_register_streamed_page p x) c'.
Proof.
  intros [E Hl Ho (Hs & Hc & Hu) Ht]. unfold pagefault_register_streamed_page. rewrite E.
  destruct (register_streamed_spec p c) as (R1 & R2 & R3 & R4 & R5 & R6 & R7 & _). exists (register_streamed p c).
  split; [done|by apply (layout_same c)|by rewrite R3|by rewrite R4, R5; auto|]. cbn [mem]. rewrite R2.
  destruct (pf_have_split c); [by apply (split_weaken c)|]. destruct R1 as (-> & _). by rewrite R4.
Qed.

Lemma fresh_entry base i s pool u :
  RAM_BASE <= base < RAM_END -> base mod REGION_SIZE = 0 -> 0 <= i < 512 ->
  entry_ok s [] pool u (base + i * PAGE_SIZE) (l3_page base i).
Proof.
  intros Hb Hm Hi. unfold RAM_BASE, RAM_END in Hb. unfold REGION_SIZE in Hm.
  assert (Z.land (base + i * PAGE_SIZE) ADDR_MASK = base + i * PAGE_SIZE) as Hp.
  { unfold PAGE_SIZE. apply page_masked; [lia|]. rewrite Z.mod_add by lia. pose proof (Z.div_mod base 0x200000).
    replace base with (base / 0x200000 * 512 * 4096) by lia. apply Z.mod_mul. lia. }
  unfold l3_page. rewrite u64_small by (unfold is_u64, W64, PAGE_SIZE; lia). rewrite <- Z.lor_assoc.
  set (f := Z.lor split_flags TABLE_OR_PAGE). split.
  - rewrite ldiff_lor_l, <- Hp, ldiff_land. rewrite (eq_refl : Z.ldiff ADDR_MASK FIELDS = 0). by rewrite Z.land_0_r, Z.lor_0_l.
  - by rewrite (has_lor_val VALID _ f true eq_refl), orb_true_r.
  - by rewrite (has_lor_val READ_ONLY _ f false eq_refl), orb_false_r, (masked_has READ_ONLY _ Hp eq_refl).
  - left. by rewrite (land_lor_val _ f ADDR_MASK eq_refl).
  - by intros [].
Qed.

Lemma split_aligned r : Z.land r (REGION_SIZE - 1) = 0 -> r mod REGION_SIZE = 0.
Proof. change (REGION_SIZE - 1) with (Z.ones 21). rewrite Z.land_ones by lia. done. Qed.

Lemma region_slot r : 0 <= index r 21 < 512.
Proof. apply index_range. Qed.

(** The memory after a split. *)
Lemma split_memory c m r :
  layout_ok c -> RAM_BASE <= r < RAM_END -> r mod REGION_SIZE = 0 -> pf_cow c = [] -> pf_handler_ready c = true ->
  let m1 := store (slot_addr (mmu_l1 c) 1) (Z.lor (pf_l2 c) TABLE_OR_PAGE) (fill (pf_l2 c) 512 (l2_block RAM_BASE) m) in
  split_ok (set_split r c)
    (store (slot_addr (pf_l2 c) (index r 21)) (Z.lor (pf_l3 c) TABLE_OR_PAGE) (fill (pf_l3 c) 512 (l3_page r) m1)).
Proof.
  intros Hl Hr Hm Hc Hready m1. pose proof (region_slot r) as Hi. pose proof Hl as [L1 L2 L3 _ N12 N13 N23 _].
  split; cbn [set_split with_pf pf_handler_ready pf_split_base mmu_l1 pf_l2 pf_l3 pf_streamed pf_cow pf_cow_pool pf_cow_used].
  - done.
  - done.
  - rewrite store_ne by (by apply slots_apart). rewrite fill_outside by (by apply slot_not_in; [| apply L3| |]). apply store_eq.
  - intros j Hj. destruct (Z.eqb_spec j (index r 21)) as [->|Hne]; [apply store_eq|].
    rewrite store_ne by (intros E; by apply slot_inj in E).
    rewrite fill_outside by (apply slot_not_in; [done|apply L3|congruence|done]). unfold m1.
    rewrite store_ne by (by apply slots_apart). by apply fill_slot.
  - intros j Hj. rewrite store_ne by (by apply slots_apart). rewrite fill_slot by done. rewrite Hc. by apply fresh_entry.
  - rewrite Hc. by intros ? [].
Qed.

Lemma split_keeps x c r : inv x c -> exists c', inv (fst (pagefault_split_region RAM_BASE r x)) c'.
Proof.
  intros H. pose proof H as [E Hl Ho Hc Ht]. unfold pagefault_split_region, arch_mmu_root_phys. rewrite E, Ho.
  destruct (pf_handler_ready c) eqn:Hready; cbn [negb orb]; [|by exists c]. destruct (mmu_l1 c =? 0); cbn [orb]; [by exists c|].
  destruct (Z.eqb_spec (Z.land r (REGION_SIZE - 1)) 0) as [Hr|]; cbn [negb orb]; [|by exists c].
  destruct (Z.ltb_spec r RAM_BASE); cbn [orb]; [by exists c|]. destruct (Z.leb_spec RAM_END r); cbn [orb]; [by exists c|].
  destruct (pf_have_split c) eqn:Hh; [by exists c|]. case_match; [by exists c|]. destruct Ht as [_ Hcow].
  exists (set_split r c). split; [done|by destruct Hl; split|done|done|].
  cbn [fst mem set_split with_pf pf_have_split]. apply split_memory; auto. by apply split_aligned.
Qed.

(** What marking a page and resolving its faults do to its entry. *)
Lemma mark_keeps x c c' i e :
  inv x c -> pf_have_split c = true -> same_layout c c' -> pf_have_split c' = true -> mmu_owned_map c' = true ->
  (length (pf_streamed c') <= MAX_STREAMED_PAGES)%nat /\ (length (pf_cow c') <= MAX_COW_PAGES)%nat ->
  pf_cow_used c' = pf_cow_used c -> 0 <= i < 512 ->
  entry_ok (pf_streamed c') (pf_cow c') (pf_cow_pool c) (pf_cow_used c') (pf_split_base c + i * PAGE_SIZE) e ->
  (forall q, In q (pf_streamed c) -> In q (pf_streamed c')) ->
  (forall j, j <> i -> let p := pf_split_base c + j * PAGE_SIZE in In p (pf_cow c) <-> In p (pf_cow c')) ->
  (forall p, In p (pf_cow c') -> In p (pf_cow c) \/ p = pf_split_base c + i * PAGE_SIZE) ->
  inv {| cs := Some c'; mmu_on := mmu_on x; mem := store (slot_addr (pf_l3 c) i) e (mem x) |} c'.
Proof.
  intros [E Hl Ho (_ & _ & Hu) Ht] Hh Hsl Hh' Ho' [Hs Hc] Eu Hi He Hst Hcow Hcow'. rewrite Hh in Ht.
  split; [done|by apply (layout_same c)|done|by rewrite Eu|]. rewrite Hh'. cbn [mem].
  apply (split_update c c' (mem x) _ i); auto; [|by rewrite store_eq|lia].
  intros b Hb. by apply l3_store_other.
Qed.

Lemma mark_absent_keeps x c p : inv x c -> p mod PAGE_SIZE = 0 -> exists c', inv (fst (pagefault_mark_absent p x)) c'.
Proof.
  intros H Hp. pose proof H as [E Hl Ho (Hs & Hc & Hu) Ht]. unfold pagefault_mark_absent. rewrite E.
  destruct (page_entry c p) as [a|] eqn:Ea; [|by exists c].
  assert (pf_have_split c = true) as Hh by (unfold page_entry in Ea; by destruct (pf_have_split c)). rewrite Hh in Ht.
  pose proof (page_entry_split c (mem x) p Ht Hp) as Hpe. rewrite Ea in Hpe. destruct Hpe as (_ & i & Hi & -> & ->).
  set (p := pf_split_base c + i * PAGE_SIZE). case_match eqn:Eg; [by exists c|].
  apply orb_false_iff in Eg as [_ Eg]. destruct (register_streamed_spec p c) as (R1 & R2 & R3 & R4 & R5 & R6 & R7 & R8).
  exists (register_streamed p c). cbn [fst]. destruct (so_l3 c _ Ht i Hi) as [O1 O2 O3 O4 O5].
  destruct (clear_valid (mem x (slot_addr (pf_l3 c) i))) as (F1 & F2 & F3 & F4).
  assert (In p (pf_streamed (register_streamed p c))) as Hin.
  { apply R8. destruct (registered (pf_streamed c) p); [by left|]. right. cbn in Eg. apply Nat.eqb_neq in Eg.
    unfold MAX_STREAMED_PAGES in *. lia. }
  apply (mark_keeps x c); auto; [congruence|congruence|split; [auto|by rewrite R4]| |by intros; rewrite R4|by intros q; rewrite R4; left].
  rewrite R4, R5. split; [by rewrite F4|done|by rewrite F3|by rewrite F1|by rewrite F1, F3].
Qed.

Lemma mark_cow_keeps x c p : inv x c -> p mod PAGE_SIZE = 0 -> exists c', inv (fst (pagefault_mark_cow p x)) c'.
Proof.
  intros H Hp. pose proof H as [E Hl Ho (Hs & Hc & Hu) Ht]. unfold pagefault_mark_cow. rewrite E.
  destruct (page_entry c p) as [a|] eqn:Ea; [|by exists c].
  assert (pf_have_split c = true) as Hh by (unfold page_entry in Ea; by destruct (pf_have_split c)). rewrite Hh in Ht.
  pose proof (page_entry_split c (mem x) p Ht Hp) as Hpe. rewrite Ea in Hpe. destruct Hpe as (_ & i & Hi & -> & ->).
  set (p := pf_split_base c + i * PAGE_SIZE). case_match eqn:Eg; [by exists c|]. apply orb_false_iff in Eg as [_ Eg].
  set (c' := if negb (registered (pf_cow c) p) then set_cow (pf_cow c ++ [p]) c else c).
  assert (same_layout c c' /\ pf_have_split c' = true /\ mmu_owned_map c' = true /\ pf_cow_used c' = pf_cow_used c /\
    pf_streamed c' = pf_streamed c /\ In p (pf_cow c') /\ (length (pf_cow c') <= MAX_COW_PAGES)%nat /\
    (forall q, q <> p -> In q (pf_cow c) <-> In q (pf_cow c'))) as (S1 & S2 & S3 & S4 & S5 & S6 & S7 & S8).
  { unfold c'. destruct (registered (pf_cow c) p) eqn:Er; cbn [negb].
    - apply registered_In in Er. by repeat split.
    - cbn in Eg. apply Nat.eqb_neq in Eg. repeat split; cbn; auto.
      + apply in_or_app. right. by left.
      + rewrite length_app. cbn. unfold MAX_COW_PAGES in *. lia.
      + intros Hq. apply in_or_app. by left.
      + intros Hq. apply in_app_or in Hq as [|[->|[]]]; [done|congruence]. }
  exists c'. cbn [fst]. destruct (so_l3 c _ Ht i Hi) as [O1 O2 O3 O4 O5].
  destruct (set_read_only (mem x (slot_addr (pf_l3 c) i))) as (F1 & F2 & F3 & F4).
  apply (mark_keeps x c); auto; [split; [by rewrite S5|done]| |by rewrite S5| |].
  - rewrite S4, S5. split; [by rewrite F4|by rewrite F2|done| |by left]. rewrite F1. destruct O4 as [|[]]; [by left|by right].
  - intros j Hj. apply S8. unfold p, PAGE_SIZE. lia.
  - intros q Hq. destruct (decide (q = p)) as [->|]; [by right|left; by apply S8].
Qed.

Lemma page_of_aligned far : Z.land far 0xFFFFFFFFFFFFF000 mod PAGE_SIZE = 0.
Proof.
  change PAGE_SIZE with (2 ^ 12). rewrite <- Z.land_ones, <- Z.land_assoc by lia.
  rewrite (eq_refl : Z.land 0xFFFFFFFFFFFFF000 (Z.ones 12) = 0). apply Z.land_0_r.
Qed.

Lemma count_keeps x c : inv x c -> inv {| cs := Some (count_fault c); mmu_on := mmu_on x; mem := mem x |} (count_fault c).
Proof.
  intros [E Hl Ho Hc Ht]. split; [done|by destruct Hl; split|done|done|].
  cbn [count_fault with_pf pf_have_split mem mmu_l1 pf_cow]. destruct (pf_have_split c); [|done]. by destruct Ht; split.
Qed.

(** The copy of a page to the next page of the pool leaves the tables alone. *)
Lemma copy_other c src m b : layout_ok c -> 0 <= pf_cow_used c < COW_POOL_SIZE ->
  b = slot_addr (mmu_l1 c) 1 \/ (exists j, 0 <= j < 512 /\ b = slot_addr (pf_l2 c) j) \/
  (exists j, 0 <= j < 512 /\ b = slot_addr (pf_l3 c) j) ->
  copy_page (pf_cow_pool c + pf_cow_used c * PAGE_SIZE) src m b = m b.
Proof.
  intros Hl Hu Hb. destruct (pool_page c (pf_cow_used c) Hl Hu) as [_ Hq]. destruct (lo_apart c Hl _ Hu) as (A1 & A2 & A3).
  pose proof Hl as [L1 L2 L3 _ _ _ _ _]. apply fill_outside. destruct Hb as [->|[(j & Hj & ->)|(j & Hj & ->)]]; by apply slot_not_in.
Qed.

(** The resolution of a write to a copy-on-write page. *)
Lemma cow_keeps x c i : inv x c -> pf_have_split c = true -> 0 <= i < 512 -> pf_cow_used c < COW_POOL_SIZE ->
  In (pf_split_base c + i * PAGE_SIZE) (pf_cow c) ->
  let a := slot_addr (pf_l3 c) i in
  let dst := pf_cow_pool c + pf_cow_used c * PAGE_SIZE in
  let m := copy_page dst (Z.land (mem x a) ADDR_MASK) (mem x) in
  inv {| cs := Some (count_copy c); mmu_on := mmu_on x;
         mem := store a (Z.lor (Z.ldiff (m a) (Z.lor ADDR_MASK READ_ONLY)) (Z.land dst ADDR_MASK)) m |} (count_copy c).
Proof.
  intros H Hh Hi Hused Hincow a dst m. pose proof H as [E Hl Ho (Hs & Hc & Hu) Ht]. rewrite Hh in Ht.
  assert (m a = mem x a) as -> by (apply copy_other; eauto 10; lia).
  destruct (pool_page c (pf_cow_used c) Hl ltac:(lia)) as [Hq1 Hq2]. fold dst in Hq1, Hq2.
  pose proof (page_masked dst ltac:(lia) Hq2) as Hd. destruct (set_private (mem x a) dst Hd) as (F1 & F2 & F3 & F4).
  destruct (so_l3 c _ Ht i Hi) as [O1 O2 O3 O4 O5]. fold a in O1, O2, O3, O4, O5.
  split; [done|by destruct Hl; split|done| |].
  { cbn [count_copy with_pf pf_streamed pf_cow pf_cow_used]. unfold COW_POOL_SIZE in *. split; [done|split; [done|lia]]. }
  cbn [count_copy with_pf pf_have_split]. rewrite Hh. cbn [mem].
  apply (split_update c (count_copy c) (mem x) _ i); auto; cbn [count_copy with_pf pf_streamed pf_cow pf_cow_used];
    [by repeat split| | |lia].
  - intros b Hb. unfold a. rewrite l3_store_other by done. apply copy_other; [done|lia|].
    destruct Hb as [|[|(j & Hj & _ & ->)]]; eauto 10.
  - rewrite store_eq. assert (in_pool (pf_cow_pool c) (pf_cow_used c + 1) dst) as Hin.
    { exists (pf_cow_used c). split; [lia|done]. }
    split; [by rewrite F4|by rewrite F2|by rewrite F3|rewrite F1; by right|rewrite F1; by right].
Qed.

Lemma handle_keeps x c esr far x' :
  inv x c -> pagefault_aarch64_handle None esr far x = Retry x' -> exists c', inv x' c'.
Proof.
  intros H Hr. pose proof (count_keeps x c H) as Hcf. pose proof (iv_cs _ _ H) as E. unfold pagefault_aarch64_handle in Hr.
  rewrite andb_false_r, E in Hr. case_match; [|done].
  destruct (page_entry (count_fault c) _) as [a|] eqn:Ea; [|done].
  assert (pf_have_split c = true) as Hh by (unfold page_entry in Ea; cbn in Ea; by destruct (pf_have_split c)).
  pose proof (iv_tables _ _ Hcf) as Ht. cbn [count_fault with_pf pf_have_split mem] in Ht. rewrite Hh in Ht.
  pose proof (page_entry_split (count_fault c) (mem x) _ Ht (page_of_aligned far)) as Hpe. rewrite Ea in Hpe.
  destruct Hpe as (_ & i & Hi & Ep & ->). case_match eqn:E1.
  - injection Hr as <-. exists (count_fault c). repeat (apply andb_true_iff in E1 as [E1 ?]).
    destruct (so_l3 _ _ Ht i Hi) as [O1 O2 O3 O4 O5].
    destruct (set_valid (mem x (slot_addr (pf_l3 c) i))) as (F1 & F2 & F3 & F4).
    destruct (iv_counts _ _ Hcf) as (C1 & C2 & _).
    apply (mark_keeps {| cs := Some (count_fault c); mmu_on := mmu_on x; mem := mem x |} (count_fault c)); auto;
      [by repeat split|apply Hcf|].
    cbn [mem]. split; [by rewrite F4|by rewrite F2|by rewrite F3|by rewrite F1|by rewrite F1, F3].
  - case_match eqn:E2; [|done]. injection Hr as <-. apply andb_true_iff in E2 as [E3 E2]. apply Z.ltb_lt in E2.
    apply andb_true_iff in E3 as [E3 _]. apply andb_true_iff in E3 as [_ E3]. apply registered_In in E3. rewrite Ep in E3.
    exists (count_copy (count_fault c)). 
    exact (cow_keeps {| cs := Some (count_fault c); mmu_on := mmu_on x; mem := mem x |} (count_fault c) i Hcf Hh Hi E2 E3).
Qed.

(** ** Reachable machines *)

(** A core's state as it is allocated: zeroes, and the tables in it. *)
Record fresh_core (x : machine) (c : arm_state) : Prop := {
  fc_cs : cs x = Some c; fc_layout : layout_ok c; fc_off : mmu_on x = false;
  fc_zero : pf_have_split c = false /\ pf_handler_ready c = false /\ pf_streamed c = [] /\ pf_cow c = [] /\ pf_cow_used c = 0 }.

(** The core enables its map at EL1, and then the operations of the backend run
    in any order; pages are named by their addresses, as job_memory.c does. *)
Inductive reachable : machine -> Prop :=
  | reach_boot x c kernel_invoke_addr : fresh_core x c -> is_u64 kernel_invoke_addr ->
      reachable (fst (arch_mmu_enable_identity_map RAM_BASE true kernel_invoke_addr x))
  | reach_init x : reachable x -> reachable (pagefault_init x)
  | reach_split x r : reachable x -> reachable (fst (pagefault_split_region RAM_BASE r x))
  | reach_register x p : reachable x -> reachable (pagefault_register_streamed_page p x)
  | reach_absent x p : reachable x -> p mod PAGE_SIZE = 0 -> reachable (fst (pagefault_mark_absent p x))
  | reach_cow x p : reachable x -> p mod PAGE_SIZE = 0 -> reachable (fst (pagefault_mark_cow p x))
  | reach_fault x x' esr far : reachable x -> pagefault_aarch64_handle None esr far x = Retry x' -> reachable x'.

Lemma enable_inv x c kernel_invoke_addr : fresh_core x c -> is_u64 kernel_invoke_addr ->
  inv (fst (arch_mmu_enable_identity_map RAM_BASE true kernel_invoke_addr x)) (own_map c).
Proof.
  intros [E Hl Hoff (Z1 & Z2 & Z3 & Z4 & Z5)] Hk. unfold arch_mmu_enable_identity_map. rewrite E, Hoff. cbn [negb fst].
  split; cbn [own_map with_pf cs mmu_owned_map pf_streamed pf_cow pf_cow_used pf_have_split mem mmu_l1];
    [done|by destruct Hl; split|done|rewrite Z3, Z4, Z5; unfold COW_POOL_SIZE; cbn; split; [lia|split; lia]|].
  rewrite Z1. split; [|done]. set (b := _ mod 2 ^ 32). destruct (Z.ltb_spec b 4).
  - unfold store at 1. destruct (Z.eqb_spec (slot_addr (mmu_l1 c) 1) (slot_addr (mmu_l1 c) b)) as [Eb|].
    + apply slot_inj in Eb. by rewrite <- Eb.
    + do 2 (rewrite store_ne by (unfold slot_addr; lia)). apply store_eq.
  - do 2 (rewrite store_ne by (unfold slot_addr; lia)). apply store_eq.
Qed.

Lemma reachable_inv x : reachable x -> exists c, inv x c.
Proof.
  induction 1 as [x c kernel_invoke_addr H Hk|x _ [c H]|x r _ [c H]|x p _ [c H]|x p _ [c H] Hp|x p _ [c H] Hp|x x' esr far _ [c H] E].
  - eexists. by apply enable_inv.
  - by apply (init_keeps x c).
  - by apply (split_keeps x c).
  - by apply (register_keeps x c).
  - by apply (mark_absent_keeps x c).
  - by apply (mark_cow_keeps x c).
  - by apply (handle_keeps x c esr far).
Qed.

(** ** Translation in a reachable machine *)

Definition NORMAL : Z := Eval cbv in Z.land split_flags ATTRIBUTES.

Lemma index_div v k : 0 <= k -> index v k = (v / 2 ^ k) mod 512.
Proof. intros Hk. unfold index. change 0x1FF with (Z.ones 9). rewrite Z.land_ones, Z.shiftr_div_pow2 by lia. done. Qed.

Lemma window_index v : RAM_BASE <= v < RAM_END ->
  index v 30 = 1 /\ v = RAM_BASE + index v 21 * REGION_SIZE + v mod REGION_SIZE.
Proof.
  unfold RAM_BASE, RAM_END, REGION_SIZE. intros Hv. rewrite !index_div by lia. change (2 ^ 30) with 0x40000000. change (2 ^ 21) with 0x200000.
  assert (v / 0x40000000 = 1) as -> by (symmetry; apply (Z.div_unique v 0x40000000 1 (v - 0x40000000)); lia).
  split; [reflexivity|]. pose proof (Z.div_mod v 0x200000 ltac:(lia)). assert (512 <= v / 0x200000 < 1024) as Hr.
  { split; [apply Z.div_le_lower_bound; lia|apply Z.div_lt_upper_bound; lia]. }
  replace ((v / 2097152) mod 512) with (v / 2097152 - 512); [lia|]. apply (Z.mod_unique _ _ 1); lia.
Qed.

(** Where all that is not changed comes from. *)
Lemma rest_has f e e' : Z.ldiff f FIELDS = f -> Z.ldiff e FIELDS = Z.ldiff e' FIELDS -> Z.land e f = Z.land e' f.
Proof. intros Hf E. rewrite <- Hf, <- !land_ldiff, E. done. Qed.

Lemma masked_has_0 mask f b : Z.land b mask = b -> Z.land mask f = 0 -> has f b = false.
Proof. intros <- E. rewrite has_land, E. apply has_0. Qed.

Lemma table_entry t : page_addr t ->
  let e := Z.lor t TABLE_OR_PAGE in has VALID e = true /\ has TABLE e = true /\ Z.land e ADDR_MASK = t.
Proof.
  intros [Ht Hm] e. unfold e.
  rewrite (has_lor_val VALID t TABLE_OR_PAGE true eq_refl), (has_lor_val TABLE t TABLE_OR_PAGE true eq_refl), !orb_true_r.
  rewrite (land_lor_val t TABLE_OR_PAGE ADDR_MASK eq_refl). by rewrite (page_masked t) by lia.
Qed.

(** A block descriptor of ordinary memory. *)
Lemma block_leaf mask size base v :
  Z.land base mask = base -> Z.land mask TABLE = 0 -> Z.land mask READ_ONLY = 0 -> Z.land mask ATTRIBUTES = 0 ->
  Z.land split_flags mask = 0 ->
  let e := Z.lor base split_flags in
  has VALID e = true /\ has TABLE e = false /\ leaf mask size e v = Some (base + v mod size, true, NORMAL).
Proof.
  intros Hb H1 H2 H3 H4 e. unfold e, leaf.
  rewrite (has_lor_val VALID base split_flags true eq_refl), (has_lor_val TABLE base split_flags false eq_refl),
    (has_lor_val ACCESS_FLAG base split_flags true eq_refl), (has_lor_val READ_ONLY base split_flags false eq_refl).
  rewrite (masked_has_0 mask TABLE base Hb H1), (masked_has_0 mask READ_ONLY base Hb H2), !orb_true_r.
  rewrite (land_lor_val base split_flags mask H4), Hb, Z.land_lor_distr_l. rewrite <- Hb at 2. rewrite <- Z.land_assoc, H3, Z.land_0_r.
  done.
Qed.

Lemma l2_leaf i v : 0 <= i < 512 ->
  has VALID (l2_block RAM_BASE i) = true /\ has TABLE (l2_block RAM_BASE i) = false /\
  leaf 0x0000FFFFFFE00000 REGION_SIZE (l2_block RAM_BASE i) v = Some (RAM_BASE + i * REGION_SIZE + v mod REGION_SIZE, true, NORMAL).
Proof.
  intros Hi. unfold l2_block. rewrite u64_small by (unfold is_u64, W64, RAM_BASE, REGION_SIZE; lia).
  apply block_leaf; [|reflexivity..]. change 0x0000FFFFFFE00000 with (Z.shiftl (Z.ones 27) 21). unfold RAM_BASE, REGION_SIZE.
  rewrite align_down by lia. change (2 ^ 21) with 0x200000. replace (0x40000000 + i * 0x200000) with ((512 + i) * 0x200000) by lia.
  rewrite Z.div_mul by lia. lia.
Qed.

(** The region of an address. *)
Lemma region_of base v : RAM_BASE <= base < RAM_END -> base mod REGION_SIZE = 0 -> RAM_BASE <= v < RAM_END ->
  base <= v < base + REGION_SIZE <-> index v 21 = index base 21.
Proof.
  intros Hb Hm Hv. destruct (window_index v Hv) as [_ Ev]. destruct (window_index base Hb) as [_ Eb]. rewrite Hm in Eb.
  pose proof (Z.mod_pos_bound v REGION_SIZE ltac:(done)). unfold REGION_SIZE in *. split; [intros H1|intros E; rewrite E in Ev]; lia.
Qed.

(** The walk in the window of RAM. *)
Lemma translate_split c m v : layout_ok c -> split_ok c m -> RAM_BASE <= v < RAM_END ->
  translate (mmu_l1 c) v m =
  if index v 21 =? index (pf_split_base c) 21 then
    let e := m (slot_addr (pf_l3 c) (index v 12)) in
    if has VALID e then Some (Z.land e ADDR_MASK + v mod PAGE_SIZE, negb (has READ_ONLY e), NORMAL) else None
  else Some (v, true, NORMAL).
Proof.
  intros Hl [H1 [H2 H2'] H3 H4 H5 _] Hv. destruct (window_index v Hv) as [E30 Ev]. pose proof (index_range v 21) as Hi.
  unfold translate. rewrite E30, H3. destruct (table_entry _ (lo_l2 c Hl)) as (-> & -> & ->). cbn [negb].
  rewrite (H4 _ Hi). destruct (index v 21 =? index (pf_split_base c) 21).
  - destruct (table_entry _ (lo_l3 c Hl)) as (-> & -> & ->). cbn [negb]. pose proof (H5 _ (index_range v 12)) as He.
    set (e := m (slot_addr (pf_l3 c) (index v 12))) in *. destruct (has VALID e); [|done]. cbn [andb].
    pose proof (eo_rest _ _ _ _ _ _ He) as Er. unfold leaf, has.
    rewrite (rest_has TABLE e _ eq_refl Er), (rest_has ACCESS_FLAG e _ eq_refl Er), (rest_has ATTRIBUTES e _ eq_refl Er). done.
  - destruct (l2_leaf (index v 21) v Hi) as (-> & -> & ->). cbn [negb]. by rewrite <- Ev.
Qed.

Lemma translate_whole l1 m v : m (slot_addr l1 1) = Z.lor RAM_BASE NORMAL_BLOCK -> RAM_BASE <= v < RAM_END ->
  translate l1 v m = Some (v, true, NORMAL).
Proof.
  intros E Hv. destruct (window_index v Hv) as [E30 _]. unfold translate. rewrite E30, E.
  change NORMAL_BLOCK with split_flags.
  destruct (block_leaf 0x0000FFFFC0000000 0x40000000 RAM_BASE v) as (-> & -> & ->); [reflexivity..|]. cbn [negb].
  unfold RAM_BASE, RAM_END in *. f_equal. f_equal. f_equal. rewrite <- (Z.mod_unique v 0x40000000 1 (v - 0x40000000)); lia.
Qed.

(** The page of an address. *)
Definition page_of_addr (v : Z) : Z := Z.land v 0xFFFFFFFFFFFFF000.

Lemma page_of_addr_eq v : is_u64 v -> page_of_addr v = v - v mod PAGE_SIZE.
Proof.
  intros Hv. unfold page_of_addr. change 0xFFFFFFFFFFFFF000 with (Z.shiftl (Z.ones 52) 12).
  rewrite (align_down v 52 12) by (unfold is_u64, W64 in Hv; lia). change (2 ^ 12) with PAGE_SIZE.
  pose proof (Z.div_mod v PAGE_SIZE ltac:(done)). lia.
Qed.

(** The entry of an address of the split region. *)
Lemma region_entry c m v : split_ok c m -> RAM_BASE <= v < RAM_END -> index v 21 = index (pf_split_base c) 21 ->
  page_of_addr v = pf_split_base c + index v 12 * PAGE_SIZE /\
  (pf_have_split c = true -> page_entry c (page_of_addr v) = Some (slot_addr (pf_l3 c) (index v 12))).
Proof.
  intros Hs Hv E. destruct (so_base c m Hs) as [Hb Hm]. apply (region_of _ _ Hb Hm Hv) in E.
  assert (page_of_addr v = pf_split_base c + index v 12 * PAGE_SIZE) as Ep.
  { rewrite page_of_addr_eq by (unfold is_u64, W64, RAM_BASE, RAM_END in *; lia). rewrite index_12.
    pose proof (offset_split v) as Ho. unfold REGION_SIZE, PAGE_SIZE in *. pose proof (Z.div_mod v 0x200000 ltac:(lia)).
    pose proof (Z.div_mod (pf_split_base c) 0x200000 ltac:(lia)).
    pose proof (Z.mod_pos_bound v 0x200000 ltac:(lia)). assert (v / 0x200000 = pf_split_base c / 0x200000) by lia. lia. }
  split; [done|]. intros Hh. pose proof (page_entry_split c m (page_of_addr v) Hs (page_of_aligned v)) as Hpe.
  destruct (page_entry c (page_of_addr v)) as [a|].
  - destruct Hpe as (_ & i & Hi & Ei & ->). rewrite Ep in Ei. f_equal. f_equal. unfold PAGE_SIZE in Ei. lia.
  - exfalso. destruct Hpe as [?|Hpe]; [congruence|]. apply Hpe. rewrite Ep. pose proof (index_range v 12).
    unfold PAGE_SIZE, REGION_SIZE. lia.
Qed.

(** The translation an entry gives. *)
Definition through (e v : Z) : option (Z * bool * Z) :=
  if has VALID e then Some (Z.land e ADDR_MASK + v mod PAGE_SIZE, negb (has READ_ONLY e), NORMAL) else None.

(** [a] is the entry of an address of the split region. *)
Record at_entry (x : machine) (c : arm_state) (v a : Z) : Prop := {
  ae_inv : inv x c;
  ae_split : pf_have_split c = true;
  ae_tables : split_ok c (mem x);
  ae_region : index v 21 = index (pf_split_base c) 21;
  ae_addr : a = slot_addr (pf_l3 c) (index v 12);
  ae_page : page_of_addr v = pf_split_base c + index v 12 * PAGE_SIZE;
  ae_find : page_entry c (page_of_addr v) = Some a;
  ae_entry : entry_ok (pf_streamed c) (pf_cow c) (pf_cow_pool c) (pf_cow_used c) (page_of_addr v) (mem x a);
  ae_translate : translate (mmu_l1 c) v (mem x) = through (mem x a) v }.

Lemma inv_cases x c v : inv x c -> RAM_BASE <= v < RAM_END ->
  (translate (mmu_l1 c) v (mem x) = Some (v, true, NORMAL) /\ ~ In (page_of_addr v) (pf_cow c)) \/ exists a, at_entry x c v a.
Proof.
  intros Hi Hv. pose proof Hi as [E Hl Ho _ Ht]. destruct (pf_have_split c) eqn:Hh.
  2: { left. destruct Ht as [Ht ->]. split; [by apply translate_whole|by intros []]. }
  pose proof (translate_split c (mem x) v Hl Ht Hv) as Et.
  destruct (Z.eqb_spec (index v 21) (index (pf_split_base c) 21)) as [Ei|Hne].
  - destruct (region_entry c (mem x) v Ht Hv Ei) as [Ep Ea]. right. eexists. split; [done..|exact Ep|by apply Ea| |exact Et].
    rewrite Ep. apply (so_l3 _ _ Ht). apply index_range.
  - left. split; [exact Et|]. intros Hin. apply Hne. apply (so_cow _ _ Ht) in Hin as (i & Hi' & Ep).
    destruct (so_base _ _ Ht) as [Hb Hm]. apply region_of; [done..|].
    rewrite page_of_addr_eq in Ep by (unfold is_u64, W64, RAM_BASE, RAM_END in *; lia).
    pose proof (Z.mod_pos_bound v PAGE_SIZE ltac:(done)). unfold PAGE_SIZE, REGION_SIZE in *. lia.
Qed.

Lemma reachable_cases x c v : reachable x -> cs x = Some c -> RAM_BASE <= v < RAM_END ->
  (translate (mmu_l1 c) v (mem x) = Some (v, true, NORMAL) /\ ~ In (page_of_addr v) (pf_cow c)) \/ exists a, at_entry x c v a.
Proof.
  intros Hr Hc Hv. destruct (reachable_inv x Hr) as [c' Hi]. pose proof (iv_cs _ _ Hi) as E. rewrite Hc in E. injection E as <-.
  by apply inv_cases.
Qed.

(** The handler keeps the place of the entry: it goes on translating the address. *)
Lemma handled_translate x c v a esr x' c' : at_entry x c v a -> RAM_BASE <= v < RAM_END ->
  pagefault_aarch64_handle None esr v x = Retry x' -> cs x' = Some c' ->
  mmu_l1 c' = mmu_l1 c -> pf_l3 c' = pf_l3 c -> pf_split_base c' = pf_split_base c -> pf_have_split c' = pf_have_split c ->
  translate (mmu_l1 c) v (mem x') = through (mem x' a) v.
Proof.
  intros Hae Hv Hh Hc' E1 E3 Eb Ehs. destruct (handle_keeps x c esr v x' (ae_inv _ _ _ _ Hae) Hh) as [c'' Hi].
  pose proof (iv_cs _ _ Hi) as E. rewrite Hc' in E. injection E as <-. pose proof (iv_tables _ _ Hi) as Ht.
  rewrite Ehs, (ae_split _ _ _ _ Hae) in Ht. rewrite <- E1, (translate_split c' _ v (iv_layout _ _ Hi) Ht Hv).
  rewrite Eb, (ae_region _ _ _ _ Hae), Z.eqb_refl, E3, <- (ae_addr _ _ _ _ Hae). done.
Qed.

(** Only marked pages are anything but ordinary memory: in every reachable machine, whatever has been split, marked and
    faulted, each address of RAM whose page is recorded neither as streamed nor as copy-on-write translates to itself,
    writable, with the attributes of normal memory. *)
Theorem unmarked_identity x c v :
  reachable x -> cs x = Some c -> RAM_BASE <= v < RAM_END ->
  ~ In (page_of_addr v) (pf_streamed c) -> ~ In (page_of_addr v) (pf_cow c) ->
  translate (mmu_l1 c) v (mem x) = Some (v, true, NORMAL).
Proof.
  intros Hr Hc Hv H1 H2. destruct (reachable_cases x c v Hr Hc Hv) as [[Ht _]|[a Hae]]; [done|].
  rewrite (ae_translate _ _ _ _ Hae). unfold through. destruct (ae_entry _ _ _ _ Hae) as [O1 O2 O3 O4 O5].
  destruct (has VALID (mem x a)); [|by destruct (H1 (O2 eq_refl))].
  destruct (has READ_ONLY (mem x a)); [by destruct (H2 (O3 eq_refl))|].
  destruct O4 as [->|[]]; [|done]. rewrite page_of_addr_eq by (unfold is_u64, W64, RAM_BASE, RAM_END in *; lia).
  cbn [negb]. do 3 f_equal. lia.
Qed.

(** C32: A fault on an absent page is always resolved: in every reachable machine, if an address of RAM does not translate,
    then the handler, called with the data abort that an access to it from EL1 raises, returns, and in the machine it
    leaves the address translates.  No access to RAM halts the core for want of a record of the page. *)
Theorem absent_fault_resolved x c v esr :
  reachable x -> cs x = Some c -> RAM_BASE <= v < RAM_END -> translate (mmu_l1 c) v (mem x) = None ->
  Z.land (Z.shiftr esr 26) 0x3f = 0x25 -> 4 <= Z.land esr 0x3f <= 7 ->
  exists x', pagefault_aarch64_handle None esr v x = Retry x' /\ translate (mmu_l1 c) v (mem x') <> None /\
    pagefault_get_count x' = u64 (pf_fault_count c + 1).
Proof.
  intros Hr Hc Hv Ht0 Hec Hd. destruct (reachable_cases x c v Hr Hc Hv) as [[Ht _]|[a Hae]]; [congruence|].
  rewrite (ae_translate _ _ _ _ Hae) in Ht0. destruct (ae_entry _ _ _ _ Hae) as [_ O2 _ _ _].
  assert (has VALID (mem x a) = false) as Ev by (unfold through in Ht0; by destruct (has VALID (mem x a))).
  assert (pagefault_aarch64_handle None esr v x =
    Retry {| cs := Some (count_fault c); mmu_on := mmu_on x; mem := store a (Z.lor (mem x a) VALID) (mem x) |}) as Eh.
  { unfold pagefault_aarch64_handle. rewrite andb_false_r, Hc, Hec, (so_ready _ _ (ae_tables _ _ _ _ Hae)). cbn [andb orb Z.eqb Pos.eqb].
    change (page_entry (count_fault c) ?p) with (page_entry c p). fold (page_of_addr v). rewrite (ae_find _ _ _ _ Hae).
    rewrite (proj2 (Z.leb_le _ _) (proj1 Hd)), (proj2 (Z.leb_le _ _) (proj2 Hd)). cbn [andb].
    change (pf_streamed (count_fault c)) with (pf_streamed c). by rewrite (proj2 (registered_In _ _) (O2 Ev)), Ev. }
  eexists. split; [exact Eh|]. split; [|done].
  rewrite (handled_translate x c v a esr _ _ Hae Hv Eh eq_refl) by done. cbn [mem]. rewrite store_eq.
  unfold through. destruct (set_valid (mem x a)) as (_ & -> & _). done.
Qed.

(** A write to a copy-on-write page gets a private copy or halts the core: in every reachable machine, if an address of
    RAM translates but not for writing, then on the permission fault a write to it raises the handler either, with a
    page of the pool left, maps the page there, writable, with the contents it showed, and changes no other word than
    the entry and the private page; or, with the pool used up, halts. *)
Theorem cow_fault_resolved x c v pa at_ esr :
  reachable x -> cs x = Some c -> RAM_BASE <= v < RAM_END -> translate (mmu_l1 c) v (mem x) = Some (pa, false, at_) ->
  Z.land (Z.shiftr esr 26) 0x3f = 0x25 -> 12 <= Z.land esr 0x3f <= 15 -> has (Z.shiftl 1 6) esr = true ->
  let private := pf_cow_pool c + pf_cow_used c * PAGE_SIZE in
  if pf_cow_used c <? COW_POOL_SIZE then
    exists x' a, pagefault_aarch64_handle None esr v x = Retry x' /\
      translate (mmu_l1 c) v (mem x') = Some (private + v mod PAGE_SIZE, true, NORMAL) /\
      (forall i, 0 <= i < 512 -> mem x' (slot_addr private i) = mem x (slot_addr (pa - v mod PAGE_SIZE) i)) /\
      (forall b, b <> a -> ~ in_page b private -> mem x' b = mem x b)
  else pagefault_aarch64_handle None esr v x = Halted.
Proof.
  intros Hr Hc Hv Ht0 Hec Hd Hw private. destruct (reachable_cases x c v Hr Hc Hv) as [[Ht _]|[a Hae]]; [congruence|].
  rewrite (ae_translate _ _ _ _ Hae) in Ht0. destruct (ae_entry _ _ _ _ Hae) as [_ _ O3 _ _]. unfold through in Ht0.
  destruct (has VALID (mem x a)) eqn:Ev; [|done]. injection Ht0 as Epa Ero _. apply negb_false_iff in Ero.
  assert (pagefault_aarch64_handle None esr v x =
    if pf_cow_used c <? COW_POOL_SIZE then
      let m := copy_page private (Z.land (mem x a) ADDR_MASK) (mem x) in
      Retry {| cs := Some (count_copy (count_fault c)); mmu_on := mmu_on x;
               mem := store a (Z.lor (Z.ldiff (m a) (Z.lor ADDR_MASK READ_ONLY)) (Z.land private ADDR_MASK)) m |}
    else Halted) as Eh.
  { unfold pagefault_aarch64_handle. rewrite andb_false_r, Hc, Hec, (so_ready _ _ (ae_tables _ _ _ _ Hae)). cbn [andb orb Z.eqb Pos.eqb].
    change (page_entry (count_fault c) ?p) with (page_entry c p). fold (page_of_addr v). rewrite (ae_find _ _ _ _ Hae).
    rewrite Ev, andb_false_r, (proj2 (Z.leb_le _ _) (proj1 Hd)), (proj2 (Z.leb_le _ _) (proj2 Hd)), Hw. cbn [andb].
    change (pf_cow (count_fault c)) with (pf_cow c). by rewrite (proj2 (registered_In _ _) (O3 Ero)), Ero. }
  destruct (Z.ltb_spec (pf_cow_used c) COW_POOL_SIZE) as [Hu|]; [|done]. cbn zeta in Eh.
  pose proof (iv_layout _ _ (ae_inv _ _ _ _ Hae)) as Hl. pose proof (iv_counts _ _ (ae_inv _ _ _ _ Hae)) as (_ & _ & Hu0 & _).
  pose proof (index_range v 12) as Hi12.
  destruct (pool_page c (pf_cow_used c) Hl ltac:(lia)) as [Hq1 Hq2]. fold private in Hq1, Hq2.
  pose proof (page_masked private ltac:(lia) Hq2) as Hpm. destruct (lo_apart c Hl (pf_cow_used c) ltac:(lia)) as (_ & _ & A3).
  assert (~ in_page a private) as Hna by (rewrite (ae_addr _ _ _ _ Hae); apply slot_not_in; [apply Hl|done|done|done]).
  eexists _, a. split; [exact Eh|]. split; [|cbn [mem]; split].
  - rewrite (handled_translate x c v a esr _ _ Hae Hv Eh eq_refl) by done. cbn [mem]. rewrite store_eq. unfold through.
    destruct (set_private (copy_page private (Z.land (mem x a) ADDR_MASK) (mem x) a) private Hpm) as (-> & -> & -> & _).
    unfold copy_page. rewrite fill_outside by done. by rewrite Ev.
  - intros i Hi. rewrite store_ne. 2: { intros E. apply Hna. rewrite <- E. unfold in_page, slot_addr. lia. }
    unfold copy_page. rewrite fill_slot by exact Hi. f_equal. rewrite <- Epa. f_equal. lia.
  - intros b Hb Hbp. rewrite store_ne by done. by apply fill_outside.
Qed.

(** C33: The original of a copy-on-write page is never written through this core's map: in every machine reached in the
    default build, with RAM at 0x40000000, by marks of page-aligned addresses and by faults, no address of RAM
    translates, with the right to write, into a page recorded as copy-on-write, unless that page is itself one of the
    private ones.  ([split_misses_ram_at_zero]: not so in a build with RAM at zero.) *)
Theorem cow_original_protected x c p v pa at_ :
  reachable x -> cs x = Some c -> In p (pf_cow c) -> ~ in_pool (pf_cow_pool c) COW_POOL_SIZE p -> RAM_BASE <= v < RAM_END ->
  translate (mmu_l1 c) v (mem x) = Some (pa, true, at_) -> ~ in_page pa p.
Proof.
  intros Hr Hc Hp Hnp Hv Ht Hin. unfold in_page in Hin. pose proof (Z.mod_pos_bound v PAGE_SIZE ltac:(done)) as Hmod.
  assert (is_u64 v) as Hv64 by (unfold is_u64, W64, RAM_BASE, RAM_END in *; lia).
  destruct (reachable_inv x Hr) as [c' Hi]. pose proof Hi as [E Hl _ (_ & _ & Hu) Htab]. rewrite Hc in E. injection E as <-.
  destruct (pf_have_split c); [|destruct Htab as [_ E]; by rewrite E in Hp].
  destruct (so_cow _ _ Htab p Hp) as (i & Hi' & Ep). destruct (so_base _ _ Htab) as [_ Hbm].
  assert (p mod PAGE_SIZE = 0) as Hpa.
  { rewrite Ep. unfold REGION_SIZE, PAGE_SIZE in *. rewrite Z.mod_add by lia. pose proof (Z.div_mod (pf_split_base c) 0x200000).
    replace (pf_split_base c) with (pf_split_base c / 0x200000 * 512 * 4096) by lia. apply Z.mod_mul. lia. }
  pose proof (page_of_addr_eq v Hv64) as Epv. pose proof (Z.div_mod v PAGE_SIZE ltac:(done)). pose proof (Z.div_mod p PAGE_SIZE ltac:(done)).
  destruct (inv_cases x c v Hi Hv) as [[Et Hn]|[a Hae]].
  - rewrite Et in Ht. injection Ht as <- _. apply Hn. replace (page_of_addr v) with p; [done|]. unfold PAGE_SIZE in *. lia.
  - rewrite (ae_translate _ _ _ _ Hae) in Ht. unfold through in Ht. destruct (ae_entry _ _ _ _ Hae) as [_ _ O3 O4 O5].
    destruct (has VALID (mem x a)); [|done]. injection Ht as Epa Ero _. apply negb_true_iff in Ero.
    destruct O4 as [Ea|[_ (k & Hk & Ea)]].
    + assert (page_of_addr v = p) as Evp by (unfold PAGE_SIZE in *; lia). rewrite Evp in *.
      destruct (O5 Hp) as [|Hpool]; [congruence|]. apply Hnp. rewrite Ea in Hpool. apply (in_pool_mono _ (pf_cow_used c)); [done|lia].
    + apply Hnp. exists k. split; [unfold COW_POOL_SIZE in *; lia|]. destruct (pool_page c k Hl ltac:(lia)) as [_ Hkm].
      pose proof (Z.div_mod (pf_cow_pool c + k * PAGE_SIZE) PAGE_SIZE ltac:(done)) as Hdm. change 4096 with PAGE_SIZE in Hkm.
      rewrite Hkm in Hdm. unfold PAGE_SIZE in *. lia.
Qed.

(** ** A core, its region at 0x48000000 split, one page streamed and one copy-on-write *)

Definition demo_core : arm_state :=
  {| mmu_l1 := 0x50001000; mmu_owned_map := false; pf_l2 := 0x50002000; pf_l3 := 0x50003000; pf_split_base := 0;
     pf_have_split := false; pf_handler_ready := false; pf_streamed := []; pf_cow := []; pf_cow_used := 0;
     pf_cow_pool := 0x50004000; pf_fault_count := 0; pf_cow_copies := 0 |}.
Definition demo_off : machine := {| cs := Some demo_core; mmu_on := false; mem := fun _ => 0 |}.
Definition demo_split : machine :=
  fst (pagefault_split_region RAM_BASE 0x48000000 (pagefault_init (fst (arch_mmu_enable_identity_map RAM_BASE true 0x41000000 demo_off)))).
Definition demo_marked : machine := fst (pagefault_mark_cow 0x48002000 (fst (pagefault_mark_absent 0x48001000 demo_split))).
Definition demo_marked_core : arm_state := with_pf true 0x48000000 true true [0x48001000] [0x48002000] 0 0 0 demo_core.

Lemma demo_layout : layout_ok demo_core.
Proof.
  assert (forall a, 0 < a < 2 ^ 46 -> a mod 4096 = 0 -> page_addr a) as H by (by split).
  split; try (apply H; [split; reflexivity|reflexivity]); try discriminate.
  intros k Hk q. unfold q, PAGE_SIZE, COW_POOL_SIZE in *. cbn [demo_core pf_cow_pool mmu_l1 pf_l2 pf_l3]. lia.
Qed.

Lemma marked_reachable : reachable demo_marked.
Proof.
  apply reach_cow; [|reflexivity]. apply reach_absent; [|reflexivity]. apply reach_split, reach_init.
  apply (reach_boot demo_off demo_core); [|split; [discriminate|reflexivity]].
  split; [reflexivity|apply demo_layout|reflexivity|repeat split; reflexivity].
Qed.

Lemma demo_marked_cs : cs demo_marked = Some demo_marked_core.
Proof. vm_compute. reflexivity. Qed.

Lemma unmarked_identity_witness : translate 0x50001000 0x48003123 (mem demo_marked) = Some (0x48003123, true, NORMAL).
Proof.
  apply (unmarked_identity demo_marked demo_marked_core 0x48003123 marked_reachable demo_marked_cs).
  - split; [discriminate|reflexivity].
  - intros [E|[]]. discriminate E.
  - intros [E|[]]. discriminate E.
Defined.

Lemma absent_fault_resolved_witness :
  translate 0x50001000 0x48001abc (mem demo_marked) = None /\
  exists x', pagefault_aarch64_handle None 0x94000005 0x48001abc demo_marked = Retry x' /\
    translate 0x50001000 0x48001abc (mem x') <> None.
Proof.
  assert (translate 0x50001000 0x48001abc (mem demo_marked) = None) as Ht by (vm_compute; reflexivity).
  split; [exact Ht|].
  destruct (absent_fault_resolved demo_marked demo_marked_core 0x48001abc 0x94000005 marked_reachable demo_marked_cs) as (x' & E & Hx & _).
  - split; [discriminate|reflexivity].
  - exact Ht.
  - reflexivity.
  - split; discriminate.
  - exists x'. split; [exact E|exact Hx].
Defined.

Lemma cow_fault_resolved_witness :
  exists x' a, pagefault_aarch64_handle None 0x9400004d 0x48002abc demo_marked = Retry x' /\
    translate 0x50001000 0x48002abc (mem x') = Some (0x50004abc, true, NORMAL) /\
    (forall b, b <> a -> ~ in_page b 0x50004000 -> mem x' b = mem demo_marked b).
Proof.
  pose proof (cow_fault_resolved demo_marked demo_marked_core 0x48002abc 0x48002abc NORMAL 0x9400004d marked_reachable demo_marked_cs) as H.
  destruct H as (x' & a & E & Ht & _ & Hm).
  - split; [discriminate|reflexivity].
  - vm_compute. reflexivity.
  - reflexivity.
  - split; discriminate.
  - reflexivity.
  - exists x', a. split; [exact E|]. split; [exact Ht|exact Hm].
Defined.

Lemma cow_original_protected_witness :
  translate 0x50001000 0x48003000 (mem demo_marked) = Some (0x48003000, true, NORMAL) /\ ~ in_page 0x48003000 0x48002000.
Proof.
  assert (translate 0x50001000 0x48003000 (mem demo_marked) = Some (0x48003000, true, NORMAL)) as Ht by (vm_compute; reflexivity).
  split; [exact Ht|].
  apply (cow_original_protected demo_marked demo_marked_core 0x48002000 0x48003000 0x48003000 NORMAL marked_reachable demo_marked_cs).
  - left. reflexivity.
  - intros (k & Hk & E). cbn in E. unfold PAGE_SIZE, COW_POOL_SIZE in *. lia.
  - split; [discriminate|reflexivity].
  - exact Ht.
Defined.

(** ** Builds for RAM at zero *)

(** With RAM at zero the wrong block is replaced: in a build with AARCH64_RAM_BASE 0 a split of the region at
    0x14000000 and the marking of a page of it both answer success, yet the level-1 entry that changes is the one of
    0x40000000: the page marked absent still translates, and the one marked copy-on-write is still writable. *)
Theorem split_misses_ram_at_zero :
  let boot := pagefault_init (fst (arch_mmu_enable_identity_map 0 true 0x01000000 demo_off)) in
  let '(x1, ok1) := pagefault_split_region 0 0x14000000 boot in
  let '(x2, ok2) := pagefault_mark_absent 0x14001000 x1 in
  let '(x3, ok3) := pagefault_mark_cow 0x14002000 x2 in
  ok1 = true /\ ok2 = true /\ ok3 = true /\
  translate 0x50001000 0x14001abc (mem x3) = Some (0x14001abc, true, NORMAL) /\
  translate 0x50001000 0x14002abc (mem x3) = Some (0x14002abc, true, NORMAL).
Proof. vm_compute. repeat split. Qed.
