(* ===== verification/JobFault.v ===== *)
(** * Faulting in a resource on each architecture

    The page-fault backends as implementations of the interface [PageFaults]
    that job_memory.c is modelled against, and what acquiring a remote
    resource then guarantees: [fault_in] is the loops of
    [job_memory_acquire_resource]. *)

From stdpp Require Import gmap.
From S2P Require Import Prelude PageTable PageFault PageFaultArm.
From S2P Require Import Capnp TryLock Kernel MemMgr Objects Cluster Client JobMemory.

(** pagefault_x86_64.c: [pagefault_init] installs the handler. *)
#[local] Instance x86_faults : PageFaults PageFault.machine := {|
  arch_has_mmu := true;
  pagefault_supported := true;
  pagefault_init _ x := x;
  pagefault_split_region := PageFault.pagefault_split_region;
  pagefault_debug_read_pte pml4 addr x := PageFault.pagefault_debug_read_pte pml4 addr (PageFault.mem x);
  pagefault_mark_absent := PageFault.pagefault_mark_absent;
  pagefault_mark_cow := PageFault.pagefault_mark_cow
|}.

(** pagefault_aarch64.c, on a core that runs on its own map; the address of the
    x86 table is ignored. *)
#[local] Instance arm_faults : PageFaults PageFaultArm.machine := {|
  arch_has_mmu := true;
  pagefault_supported := true;
  pagefault_init _ := PageFaultArm.pagefault_init;
  pagefault_split_region _ := PageFaultArm.pagefault_split_region RAM_BASE;
  pagefault_debug_read_pte _ := PageFaultArm.pagefault_debug_read_pte;
  pagefault_mark_absent _ := PageFaultArm.pagefault_mark_absent;
  pagefault_mark_cow _ := PageFaultArm.pagefault_mark_cow
|}.

(** The loops of [job_memory_acquire_resource] in the two builds. *)
Definition fault_in_x86_64 (my_pml4_phys descriptor capacity sync_kind : Z) : M PageFault.machine bool :=
  fault_in my_pml4_phys descriptor capacity sync_kind.
Definition fault_in_aarch64 (my_pml4_phys descriptor capacity sync_kind : Z) : M PageFaultArm.machine bool :=
  fault_in my_pml4_phys descriptor capacity sync_kind.

(** ** AArch64: what success means *)

Section arm.
Implicit Types (x : PageFaultArm.machine) (c : arm_state).

(** The entry of page [p] of the split region passes [test]. *)
Definition marked (test : Z -> bool) x (p : Z) : Prop :=
  exists c i, PageFaultArm.cs x = Some c /\ PageFaultArm.pf_have_split c = true /\ 0 <= i < 512 /\
    p = pf_split_base c + i * PAGE_SIZE /\ test (PageFaultArm.mem x (slot_addr (pf_l3 c) i)) = true.

Definition absent (e : Z) : bool := negb (has VALID e).

(** Storing [f] of an entry of the split region that [test] accepts. *)
Lemma store_marks (test : Z -> bool) x c c' f p :
  inv x c -> p mod PAGE_SIZE = 0 -> same_layout c c' -> PageFaultArm.pf_have_split c' = PageFaultArm.pf_have_split c ->
  (forall e, test (f e) = true) ->
  forall a, page_entry c p = Some a ->
  let x' := {| PageFaultArm.cs := Some c'; mmu_on := mmu_on x;
               PageFaultArm.mem := store a (f (PageFaultArm.mem x a)) (PageFaultArm.mem x) |} in
  marked test x' p /\ forall q, marked test x q -> marked test x' q.
Proof.
  intros Hi Hp (_ & _ & E3 & _ & E5 & _) Eh Hf a Ea x'.
  assert (PageFaultArm.pf_have_split c = true) as Hh by (unfold page_entry in Ea; by destruct (PageFaultArm.pf_have_split c)).
  pose proof (iv_tables _ _ Hi) as Ht. rewrite Hh in Ht.
  pose proof (page_entry_split c _ p Ht Hp) as Hpe. rewrite Ea in Hpe. destruct Hpe as (_ & i & Hi' & Ep & ->). split.
  - exists c', i. rewrite E3, E5. cbn [PageFaultArm.cs PageFaultArm.mem x']. rewrite store_eq, Eh. auto.
  - intros q (c0 & j & Ec & Hh0 & Hj & Eq & Htest). rewrite (iv_cs _ _ Hi) in Ec. injection Ec as <-.
    exists c', j. rewrite E3, E5. cbn [PageFaultArm.cs PageFaultArm.mem x']. rewrite Eh. split_and!; [done|done|lia|lia|done|].
    unfold store. case_match; auto.
Qed.

Lemma mark_absent_marks x p x' :
  reachable x -> p mod PAGE_SIZE = 0 -> PageFaultArm.pagefault_mark_absent p x = (x', true) ->
  reachable x' /\ marked absent x' p /\ forall q, marked absent x q -> marked absent x' q.
Proof.
  intros Hr Hp E. split; [change x' with (fst (x', true)); rewrite <- E; by apply reach_absent|].
  destruct (reachable_inv x Hr) as [c Hi]. unfold PageFaultArm.pagefault_mark_absent in E. rewrite (iv_cs _ _ Hi) in E.
  destruct (page_entry c p) as [a|] eqn:Ea; [|done]. case_match; [done|]. injection E as <-.
  destruct (register_streamed_spec p c) as (R1 & R2 & _).
  apply (store_marks absent x c _ (fun e => Z.ldiff e VALID) p Hi Hp R1 R2); [|done].
  intros e. unfold absent. by destruct (clear_valid e) as (_ & -> & _).
Qed.

Lemma mark_cow_marks x p x' :
  reachable x -> p mod PAGE_SIZE = 0 -> PageFaultArm.pagefault_mark_cow p x = (x', true) ->
  reachable x' /\ marked (has READ_ONLY) x' p /\ forall q, marked (has READ_ONLY) x q -> marked (has READ_ONLY) x' q.
Proof.
  intros Hr Hp E. split; [change x' with (fst (x', true)); rewrite <- E; by apply reach_cow|].
  destruct (reachable_inv x Hr) as [c Hi]. unfold PageFaultArm.pagefault_mark_cow in E. rewrite (iv_cs _ _ Hi) in E.
  destruct (page_entry c p) as [a|] eqn:Ea; [|done]. case_match; [done|]. injection E as <-.
  apply (store_marks (has READ_ONLY) x c _ (fun e => Z.lor e READ_ONLY) p Hi Hp); [by case_match|by case_match| |done].
  intros e. by destruct (set_read_only e) as (_ & _ & -> & _).
Qed.

(** A loop over pages whose step marks its page. *)
Lemma run_all_marks test (f : Z -> PageFaultArm.machine -> PageFaultArm.machine * bool) pages x x' :
  (forall x p x', reachable x -> p mod PAGE_SIZE = 0 -> f p x = (x', true) ->
     reachable x' /\ marked test x' p /\ forall q, marked test x q -> marked test x' q) ->
  reachable x -> (forall p, p ∈ pages -> p mod PAGE_SIZE = 0) -> run_all f pages x = (x', true) ->
  reachable x' /\ (forall p, p ∈ pages -> marked test x' p) /\ forall q, marked test x q -> marked test x' q.
Proof.
  intros Hf. revert x. induction pages as [|p pages IH]; intros x Hr Hal E; cbn [run_all] in E.
  - injection E as <-. split; [done|]. split; [|done]. intros p Hp. by apply elem_of_nil in Hp.
  - destruct (f p x) as [x1 [|]] eqn:E1; [|done].
    destruct (Hf x p x1 Hr (Hal p ltac:(by left)) E1) as (Hr1 & Hm1 & Hk1).
    destruct (IH x1 Hr1 ltac:(intros q Hq; apply Hal; by right) E) as (Hr' & Hm' & Hk'). split; [done|]. split; [|by auto].
    intros q Hq. apply elem_of_cons in Hq as [->|Hq]; auto.
Qed.

Lemma split_all_reachable regions x :
  reachable x ->
  reachable (fst (run_all (fun r x => let '(x, ok) := PageFaultArm.pagefault_split_region RAM_BASE r x in
    (x, ok || negb (PageFaultArm.pagefault_debug_read_pte r x =? 0))) regions x)).
Proof.
  revert x. induction regions as [|r regions IH]; intros x Hr; [done|]. cbn [run_all].
  pose proof (reach_split x r Hr) as Hr1. destruct (PageFaultArm.pagefault_split_region RAM_BASE r x) as [x1 ok]. cbn [fst] in Hr1.
  destruct (ok || _); [by apply IH|done].
Qed.

(** The walk through a marked page. *)
Lemma marked_translate test x c v :
  inv x c -> RAM_BASE <= v < RAM_END -> marked test x (page_of_addr v) ->
  exists e, test e = true /\ translate (mmu_l1 c) v (PageFaultArm.mem x) = through e v.
Proof.
  intros Hi Hv (c0 & i & Ec & Hh & Hi' & Ep & Ht). rewrite (iv_cs _ _ Hi) in Ec. injection Ec as <-.
  pose proof (iv_tables _ _ Hi) as Hs. rewrite Hh in Hs. destruct (so_base _ _ Hs) as [Hb Hm].
  assert (is_u64 v) as Hv64 by (unfold is_u64, W64, RAM_BASE, RAM_END in *; lia).
  assert (index v 21 = index (pf_split_base c) 21) as Ei.
  { apply region_of; [done..|]. rewrite page_of_addr_eq in Ep by done. pose proof (Z.mod_pos_bound v PAGE_SIZE ltac:(done)).
    unfold PAGE_SIZE, REGION_SIZE in *. lia. }
  destruct (region_entry c _ v Hs Hv Ei) as [Ep' _]. assert (i = index v 12) as -> by (unfold PAGE_SIZE in *; lia).
  eexists. split; [exact Ht|]. rewrite (translate_split c _ v (iv_layout _ _ Hi) Hs Hv), Ei, Z.eqb_refl. done.
Qed.

(** On AArch64 success means protection: when, on any reachable core, faulting in a resource in RAM answers success, the
    machine it leaves is reachable and no address of the resource is open: if the resource is streamed none
    translates, and if it is copy-on-write none translates with the right to write. *)
Theorem arm_fault_in_protects pml4 d size sync x x' c' :
  reachable x -> RAM_BASE <= d -> 0 < size -> d + size <= RAM_END ->
  fault_in_aarch64 pml4 d size sync x = Some (x', true) -> PageFaultArm.cs x' = Some c' ->
  reachable x' /\
  forall v, d <= v < d + size ->
    if sync =? RESOURCE_SYNC_STREAM then translate (mmu_l1 c') v (PageFaultArm.mem x') = None
    else forall pa at_, translate (mmu_l1 c') v (PageFaultArm.mem x') <> Some (pa, true, at_).
Proof.
  intros Hr Hd Hs He E Hc'. unfold RAM_BASE, RAM_END in Hd, He. unfold fault_in_aarch64 in E. rewrite fault_in_run in E by (unfold W64; lia).
  cbn [pagefault_init pagefault_split_region pagefault_debug_read_pte pagefault_mark_absent pagefault_mark_cow arm_faults] in E.
  pose proof (split_all_reachable (covering 21 d size) _ (reach_init x Hr)) as Hr1.
  destruct (run_all _ (covering 21 d size) _) as [x1 [|]]; [|done]. apply (inj Some) in E. cbn [fst] in Hr1.
  assert (forall p, p ∈ covering 12 d size -> p mod PAGE_SIZE = 0) as Hal by (intros p Hp; apply elem_of_covering in Hp; [apply Hp|lia..]).
  assert (forall v, d <= v < d + size -> RAM_BASE <= v < RAM_END /\ page_of_addr v ∈ covering 12 d size) as Hcov.
  { intros v Hv. unfold RAM_BASE, RAM_END. split; [lia|]. apply elem_of_covering; [lia..|]. change (2 ^ 12) with PAGE_SIZE.
    split; [apply page_of_aligned|]. rewrite page_of_addr_eq by (unfold is_u64, W64; lia).
    pose proof (Z.mod_pos_bound v PAGE_SIZE ltac:(done)). unfold PAGE_SIZE in *. lia. }
  destruct (sync =? RESOURCE_SYNC_STREAM).
  - destruct (run_all_marks absent _ _ _ _ mark_absent_marks Hr1 Hal E) as (Hr' & Hm & _). split; [done|]. intros v Hv.
    destruct (reachable_inv x' Hr') as [c Hi]. pose proof (iv_cs _ _ Hi) as Ec. rewrite Hc' in Ec. injection Ec as <-.
    destruct (Hcov v Hv) as [Hw Hp]. destruct (marked_translate absent x' c' v Hi Hw (Hm _ Hp)) as (e & He' & ->).
    unfold through. unfold absent in He'. by destruct (has VALID e).
  - destruct (run_all_marks (has READ_ONLY) _ _ _ _ mark_cow_marks Hr1 Hal E) as (Hr' & Hm & _). split; [done|]. intros v Hv pa at_.
    destruct (reachable_inv x' Hr') as [c Hi]. pose proof (iv_cs _ _ Hi) as Ec. rewrite Hc' in Ec. injection Ec as <-.
    destruct (Hcov v Hv) as [Hw Hp]. destruct (marked_translate (has READ_ONLY) x' c' v Hi Hw (Hm _ Hp)) as (e & He' & ->).
    unfold through. rewrite He'. by destruct (has VALID e).
Qed.
End arm.

(** A resource of two pages at 0x48001000, on a core that has just booted. *)
Definition demo_boot : PageFaultArm.machine := fst (arch_mmu_enable_identity_map RAM_BASE true 0x41000000 demo_off).

Lemma demo_boot_reachable : reachable demo_boot.
Proof.
  apply (reach_boot demo_off PageFaultArm.demo_core); [|split; [discriminate|reflexivity]].
  split; [reflexivity|apply demo_layout|reflexivity|repeat split; reflexivity].
Qed.

Lemma arm_fault_in_protects_witness :
  exists x', fault_in_aarch64 0 0x48001800 0x1000 RESOURCE_SYNC_STREAM demo_boot = Some (x', true) /\
    forall v, 0x48001800 <= v < 0x48002800 -> translate 0x50001000 v (PageFaultArm.mem x') = None.
Proof.
  set (c' := PageFaultArm.with_pf true 0x48000000 true true [0x48001000; 0x48002000] [] 0 0 0 PageFaultArm.demo_core).
  assert (match fault_in_aarch64 0 0x48001800 0x1000 RESOURCE_SYNC_STREAM demo_boot with
          | Some (x', ok) => ok = true /\ PageFaultArm.cs x' = Some c' | None => False end) as H by (vm_compute; split; reflexivity).
  destruct (fault_in_aarch64 0 0x48001800 0x1000 RESOURCE_SYNC_STREAM demo_boot) as [[x' ok]|] eqn:E; [|destruct H].
  destruct H as [-> Hc]. exists x'. split; [reflexivity|].
  destruct (arm_fault_in_protects 0 0x48001800 0x1000 RESOURCE_SYNC_STREAM demo_boot x' c' demo_boot_reachable) as [_ Hp].
  - discriminate.
  - reflexivity.
  - discriminate.
  - exact E.
  - exact Hc.
  - intros v Hv. exact (Hp v Hv).
Defined.

(** ** Resources of two regions, and of seventeen pages *)

(** What a job sees of a resource: success, and the translation of an address. *)
Definition seen_x86_64 (d size sync v : Z) : option (bool * option (Z * bool)) :=
  match fault_in_x86_64 0x1000 d size sync demo_machine with
  | Some (x, ok) => Some (ok, PageFault.translate 0x1000 v (PageFault.mem x))
  | None => None
  end.
Definition seen_aarch64 (d size sync v : Z) : option (bool * option (Z * bool * Z)) :=
  match fault_in_aarch64 0 d size sync demo_boot with
  | Some (x, ok) => Some (ok, translate 0x50001000 v (PageFaultArm.mem x))
  | None => None
  end.

(** A resource over a 2 MiB boundary: on x86-64 acquiring the two pages at 0x3ff000 answers success and leaves the
    first of them mapped to 0x5ff000, memory of whoever owns that; on AArch64 acquiring two pages over such a boundary
    is refused, and every address keeps its mapping. *)
Theorem resource_over_boundary :
  seen_x86_64 0x3ff000 0x2000 RESOURCE_SYNC_COW 0x3ff123 = Some (true, Some (0x5ff123, false)) /\
  seen_aarch64 0x483ff000 0x2000 RESOURCE_SYNC_COW 0x483ff123 = Some (false, Some (0x483ff123, true, NORMAL)).
Proof. split; vm_compute; reflexivity. Qed.

(** A resource of seventeen pages: on x86-64 acquiring it for streaming answers success, and the first access to the
    last page halts the core; on AArch64 it is refused, with sixteen pages left absent. *)
Theorem resource_of_17_pages :
  match fault_in_x86_64 0x1000 0x200000 0x11000 RESOURCE_SYNC_STREAM demo_machine with
  | Some (x, ok) => ok = true /\ PageFault.translate 0x1000 0x210000 (PageFault.mem x) = None /\
      PageFault.isr_page_fault None 0 0x210000 x = PageFault.Halted
  | None => False
  end /\
  seen_aarch64 0x48000000 0x11000 RESOURCE_SYNC_STREAM 0x4800f000 = Some (false, None) /\
  seen_aarch64 0x48000000 0x11000 RESOURCE_SYNC_STREAM 0x48010000 = Some (false, Some (0x48010000, true, NORMAL)).
Proof. vm_compute. repeat split. Qed.
