(* ===== verification/NetworkRpc.v ===== *)
(** * Capability calls between machines (coreinit/network_rpc.c)

    A request or a response is an envelope, a flat message of eight words,
    followed by its payload.  The client half sends a request through the
    transport of its session and checks what comes back; the server half
    validates a request, calls the local kernel and builds the response.

    [W] is the state behind the transport and the local kernel.  Messages are
    lists of bytes. *)

From S2P Require Import Prelude Capnp.

Definition NETWORK_RPC_MAGIC : Z := 0x4f544f5352504331.
Definition NETWORK_RPC_VERSION : Z := 2.
Definition NETWORK_RPC_REQUEST : Z := 1.
Definition NETWORK_RPC_RESPONSE : Z := 2.
Definition NETWORK_RPC_HEADER_SIZE : Z := 80.
Definition NETWORK_RPC_MAX_PAYLOAD : Z := 4096.

(** [(uint32_t)x], [(uint32_t)(x >> 32)] and [lo | ((uint64_t)hi << 32)]. *)
Definition low32 (x : Z) : Z := u32 x.
Definition high32 (x : Z) : Z := u32 (Z.shiftr x 32).
Definition pair32 (lo hi : Z) : Z := Z.lor lo (Z.shiftl hi 32).

(** A buffer and its length as C passes them. *)
Inductive buffer := Null (len : Z) | Bytes (bs : list Z).
Definition buffer_len (b : buffer) : Z := match b with Null len => len | Bytes bs => Z.of_nat (length bs) end.
Definition buffer_bytes (b : buffer) : list Z := match b with Null _ => [] | Bytes bs => bs end.
Definition is_null (b : buffer) : bool := match b with Null _ => true | Bytes _ => false end.

(** The fields of [coreinit_network_rpc_envelope_route_request_t]. *)
Record route := {
  magic : Z; version_and_type : Z; request_id : Z; source_node : Z; destination_node : Z; target_handle : Z;
  method_and_payload_length : Z; response_capacity_and_status : Z }.

Definition route_words (r : route) : list Z :=
  [magic r; version_and_type r; request_id r; source_node r; destination_node r; target_handle r;
   method_and_payload_length r; response_capacity_and_status r].

Definition route_of_words (ws : list Z) : option route :=
  match ws with
  | [a; b; c; d; e; f; g; h] =>
      Some {| magic := a; version_and_type := b; request_id := c; source_node := d; destination_node := e;
              target_handle := f; method_and_payload_length := g; response_capacity_and_status := h |}
  | _ => None
  end.

Definition route_for (type request_id source destination target method payload_len response_cap status : Z) : route :=
  {| magic := NETWORK_RPC_MAGIC; version_and_type := pair32 NETWORK_RPC_VERSION type; request_id := request_id;
     source_node := source; destination_node := destination; target_handle := target;
     method_and_payload_length := pair32 method payload_len;
     response_capacity_and_status := pair32 response_cap status |}.

(** The bytes written, [] when they do not fit. *)
Definition envelope (cap type request_id source destination target method payload_len response_cap status : Z) : list Z :=
  capnp_build_flat cap
    (route_words (route_for type request_id source destination target method payload_len response_cap status)).

Definition read_envelope (packet : list Z) : option route :=
  if Z.of_nat (length packet) <? NETWORK_RPC_HEADER_SIZE then None
  else capnp_read_flat_exact (take 80 packet) NETWORK_RPC_HEADER_SIZE 8 ≫= route_of_words.

(** The checks every reader of an envelope makes. *)
Definition is_packet (type : Z) (h : route) : bool :=
  (magic h =? NETWORK_RPC_MAGIC) && (low32 (version_and_type h) =? NETWORK_RPC_VERSION) &&
  (high32 (version_and_type h) =? type).

Definition network_rpc_is_response (packet : list Z) : bool :=
  match read_envelope packet with Some h => is_packet NETWORK_RPC_RESPONSE h | None => false end.

Definition network_rpc_response_matches (request response : list Z) : bool :=
  match read_envelope request, read_envelope response with
  | Some q, Some r =>
      if negb (is_packet NETWORK_RPC_REQUEST q && is_packet NETWORK_RPC_RESPONSE r) then false
      else (request_id r =? request_id q) && (source_node r =? destination_node q) &&
           (destination_node r =? source_node q)
  | _, _ => false
  end.

Section network_rpc.
Context {W : Type}.

(** [network_rpc_exchange_fn] with its context: request and capacity of the
    reply buffer; the reply when it returns nonzero. *)
Definition exchange_fn : Type := list Z -> Z -> W -> W * option (list Z).

(** The local kernel's invoke: target, method, message, capacity of the
    response buffer; what it returned and the response. *)
Definition byte_invoke : Type := Z -> Z -> list Z -> Z -> W -> W * (bool * list Z).

Record network_rpc_session_t := {
  local_node : Z; remote_node : Z; next_request_id : Z; exchange : option exchange_fn }.

Definition network_rpc_session_init (local remote : Z) (f : option exchange_fn) : network_rpc_session_t :=
  {| local_node := local; remote_node := remote; next_request_id := 1; exchange := f |}.

Definition next_id (s : network_rpc_session_t) : network_rpc_session_t :=
  {| local_node := local_node s; remote_node := remote_node s; next_request_id := u64 (next_request_id s + 1);
     exchange := exchange s |}.

(** What [network_rpc_invoke] makes of a reply. *)
Definition accept_reply (s : network_rpc_session_t) (id response_cap : Z) (reply : list Z) : option (list Z) :=
  match read_envelope reply with
  | None => None
  | Some rh =>
      if negb (is_packet NETWORK_RPC_RESPONSE rh) || negb (request_id rh =? id) ||
         negb (source_node rh =? remote_node s) || negb (destination_node rh =? local_node s) then None
      else
        let payload_len := high32 (method_and_payload_length rh) in
        if (response_cap <? payload_len) ||
           negb (Z.of_nat (length reply) =? NETWORK_RPC_HEADER_SIZE + payload_len) ||
           (high32 (response_capacity_and_status rh) =? 0) then None
        else Some (take (Z.to_nat payload_len) (drop 80 reply))
  end.

(** The session, NULL for [None]; [null_response]: the response pointer is
    NULL.  The session and the state after, and the response when the call
    succeeded. *)
Definition network_rpc_invoke (s : option network_rpc_session_t) (target method_id : Z) (msg : buffer)
    (null_response : bool) (response_cap : Z) (w : W)
    : option network_rpc_session_t * W * option (list Z) :=
  match s with
  | None => (None, w, None)
  | Some s =>
      match exchange s with
      | None => (Some s, w, None)
      | Some f =>
          let len := buffer_len msg in
          if (NETWORK_RPC_MAX_PAYLOAD <? len) || (NETWORK_RPC_MAX_PAYLOAD <? response_cap) ||
             (negb (len =? 0) && is_null msg) || (negb (response_cap =? 0) && null_response)
          then (Some s, w, None)
          else
            let id := next_request_id s in
            let env := envelope (NETWORK_RPC_HEADER_SIZE + NETWORK_RPC_MAX_PAYLOAD) NETWORK_RPC_REQUEST id
              (local_node s) (remote_node s) target method_id (u32 len) (u32 response_cap) 0 in
            if negb (Z.of_nat (length env) =? NETWORK_RPC_HEADER_SIZE) then (Some (next_id s), w, None)
            else
              let '(w, reply) := f (env ++ buffer_bytes msg) (NETWORK_RPC_HEADER_SIZE + NETWORK_RPC_MAX_PAYLOAD) w in
              (Some (next_id s), w, reply ≫= accept_reply s id response_cap)
      end
  end.

(** The response packet when it returns 1. *)
Definition network_rpc_serve (local : Z) (local_invoke : option byte_invoke) (request_buf : buffer) (null_response : bool)
    (response_cap : Z) (w : W) : W * option (list Z) :=
  match local_invoke with
  | None => (w, None)
  | Some f =>
      if is_null request_buf || null_response ||
         (buffer_len request_buf <? NETWORK_RPC_HEADER_SIZE) || (response_cap <? NETWORK_RPC_HEADER_SIZE)
      then (w, None)
      else
        let request := buffer_bytes request_buf in
        match read_envelope request with
        | None => (w, None)
        | Some h =>
            let payload_len := high32 (method_and_payload_length h) in
            let wanted := low32 (response_capacity_and_status h) in
            if negb (is_packet NETWORK_RPC_REQUEST h) || negb (destination_node h =? local) ||
               (NETWORK_RPC_MAX_PAYLOAD <? payload_len) || (NETWORK_RPC_MAX_PAYLOAD <? wanted) ||
               negb (Z.of_nat (length request) =? NETWORK_RPC_HEADER_SIZE + payload_len) ||
               (response_cap <? NETWORK_RPC_HEADER_SIZE + wanted)
            then (w, None)
            else
              let '(w, (ok, result)) := f (target_handle h) (low32 (method_and_payload_length h))
                (take (Z.to_nat payload_len) (drop 80 request)) wanted w in
              let result_len := Z.of_nat (length result) in
              if wanted <? result_len then (w, None)
              else
                let env := envelope response_cap NETWORK_RPC_RESPONSE (request_id h) local (source_node h)
                  (target_handle h) (low32 (method_and_payload_length h)) (u32 result_len) 0 (if ok : bool then 1 else 0) in
                if negb (Z.of_nat (length env) =? NETWORK_RPC_HEADER_SIZE) then (w, None)
                else (w, Some (env ++ result))
        end
  end.
End network_rpc.
Arguments exchange_fn : clear implicits.
Arguments byte_invoke : clear implicits.
Arguments network_rpc_session_t : clear implicits.

(** ** Packing *)

Definition is_u32 (x : Z) : Prop := 0 <= x < 4294967296.

Lemma u32_range x : is_u32 (u32 x).
Proof. by apply Z.mod_pos_bound. Qed.

Lemma u32_small x : is_u32 x -> u32 x = x.
Proof. intros H. by apply Z.mod_small. Qed.

Lemma pair32_add lo hi : is_u32 lo -> is_u32 hi -> pair32 lo hi = lo + hi * 2 ^ 32.
Proof. intros Hl Hh. unfold pair32. rewrite Z.shiftl_mul_pow2 by lia. apply lor_add_low; unfold is_u32 in *; lia. Qed.

Lemma pair32_u64 lo hi : is_u32 lo -> is_u32 hi -> is_u64 (pair32 lo hi).
Proof. intros Hl Hh. rewrite pair32_add by done. unfold is_u64, W64, is_u32 in *. lia. Qed.

Lemma low32_pair lo hi : is_u32 lo -> is_u32 hi -> low32 (pair32 lo hi) = lo.
Proof.
  intros Hl Hh. rewrite pair32_add by done. unfold low32, u32. change 4294967296 with (2 ^ 32).
  rewrite Z.mod_add by lia. by apply Z.mod_small.
Qed.

Lemma high32_pair lo hi : is_u32 lo -> is_u32 hi -> high32 (pair32 lo hi) = hi.
Proof.
  intros Hl Hh. rewrite pair32_add by done. unfold high32. rewrite Z.shiftr_div_pow2, Z.div_add by lia.
  rewrite (Z.div_small lo) by (unfold is_u32 in Hl; lia). by apply u32_small.
Qed.

Create HintDb packing.
#[export] Hint Resolve pair32_u64 u32_range : packing.

(** The arguments of [envelope] have their C types. *)
Record typed (type id source destination target method payload_len response_cap status : Z) : Prop := {
  ty_type : is_u32 type; ty_id : is_u64 id; ty_source : is_u64 source; ty_destination : is_u64 destination;
  ty_target : is_u64 target; ty_method : is_u32 method; ty_len : is_u32 payload_len; ty_cap : is_u32 response_cap;
  ty_status : is_u32 status }.

Section envelopes.
Context (cap type id source destination target method payload_len response_cap status : Z).
Hypothesis Ht : typed type id source destination target method payload_len response_cap status.
Hypothesis Hcap : NETWORK_RPC_HEADER_SIZE <= cap.

Let r := route_for type id source destination target method payload_len response_cap status.
Let env := envelope cap type id source destination target method payload_len response_cap status.

Lemma route_words_u64 : Forall is_u64 (route_words r).
Proof.
  destruct Ht. unfold r, route_words, route_for. cbn. repeat apply Forall_cons_2; auto with packing; try done.
  apply pair32_u64; done.
Qed.

Lemma length_envelope : length env = 80%nat.
Proof.
  pose proof (length_capnp_build_flat cap (route_words r) ltac:(done) Hcap) as E.
  unfold env, envelope. unfold r in E. unfold flat_total in E. cbn [length route_words] in E. lia.
Qed.

Lemma read_envelope_build payload : read_envelope (env ++ payload) = Some r.
Proof.
  unfold read_envelope. rewrite length_app, length_envelope. rewrite (proj2 (Z.ltb_ge _ _)) by (unfold NETWORK_RPC_HEADER_SIZE; lia).
  rewrite take_app_length' by (by rewrite length_envelope).
  change (capnp_read_flat_exact env NETWORK_RPC_HEADER_SIZE 8) with
    (capnp_read_flat_exact (capnp_build_flat cap (route_words r)) (flat_total (length (route_words r))) (length (route_words r))).
  rewrite (read_flat_exact_build cap (route_words r) ltac:(done) Hcap route_words_u64). by destruct r.
Qed.

Lemma route_is_packet : is_packet type r = true.
Proof.
  destruct Ht. unfold is_packet, r, route_for. cbn. rewrite low32_pair, high32_pair by done. by rewrite !Z.eqb_refl.
Qed.
End envelopes.

(** ** A call to another machine *)

Section calls.
Context {W : Type}.
Implicit Types (s : network_rpc_session_t W) (w : W).

(** The request of a call. *)
Definition request_of s (target method_id : Z) (msg : list Z) (response_cap : Z) : list Z :=
  envelope (NETWORK_RPC_HEADER_SIZE + NETWORK_RPC_MAX_PAYLOAD) NETWORK_RPC_REQUEST (next_request_id s)
    (local_node s) (remote_node s) target method_id (u32 (Z.of_nat (length msg))) (u32 response_cap) 0 ++ msg.

Record session_ok s : Prop := {
  so_local : is_u64 (local_node s); so_remote : is_u64 (remote_node s); so_id : is_u64 (next_request_id s) }.

Record call_ok (target method_id : Z) (msg : list Z) (response_cap : Z) : Prop := {
  co_target : is_u64 target; co_method : is_u32 method_id;
  co_len : Z.of_nat (length msg) <= NETWORK_RPC_MAX_PAYLOAD; co_cap : 0 <= response_cap <= NETWORK_RPC_MAX_PAYLOAD }.

Lemma call_typed s target method_id msg response_cap :
  session_ok s -> call_ok target method_id msg response_cap ->
  typed NETWORK_RPC_REQUEST (next_request_id s) (local_node s) (remote_node s) target method_id
    (u32 (Z.of_nat (length msg))) (u32 response_cap) 0.
Proof. intros [] []. split; auto with packing; done. Qed.

(** With arguments in range the call is one exchange of its request. *)
Lemma invoke_exchanges s f target method_id msg response_cap w :
  session_ok s -> call_ok target method_id msg response_cap -> exchange s = Some f ->
  network_rpc_invoke (Some s) target method_id (Bytes msg) false response_cap w =
  (let '(w', reply) := f (request_of s target method_id msg response_cap)
     (NETWORK_RPC_HEADER_SIZE + NETWORK_RPC_MAX_PAYLOAD) w in
   (Some (next_id s), w', reply ≫= accept_reply s (next_request_id s) response_cap)).
Proof.
  intros Hs [_ _ Hl Hcap] Hf.
  unfold network_rpc_invoke. rewrite Hf. cbn [buffer_len buffer_bytes is_null].
  rewrite (proj2 (Z.ltb_ge _ _) Hl), (proj2 (Z.ltb_ge _ _) (proj2 Hcap)), !andb_false_r. cbn [orb].
  rewrite length_envelope by done. done.
Qed.

Lemma request_route s target method_id msg response_cap :
  session_ok s -> call_ok target method_id msg response_cap ->
  read_envelope (request_of s target method_id msg response_cap) =
  Some (route_for NETWORK_RPC_REQUEST (next_request_id s) (local_node s) (remote_node s) target method_id
    (Z.of_nat (length msg)) response_cap 0).
Proof.
  intros Hs Hc. pose proof (call_typed _ _ _ _ _ Hs Hc) as Ht. unfold request_of.
  rewrite (read_envelope_build _ _ _ _ _ _ _ _ _ _ Ht) by done.
  destruct Hc as [_ _ Hl Hcap]. unfold NETWORK_RPC_MAX_PAYLOAD in *. by rewrite !u32_small by (unfold is_u32; lia).
Qed.

Lemma length_request s target method_id msg response_cap :
  length (request_of s target method_id msg response_cap) = (80 + length msg)%nat /\
  drop 80 (request_of s target method_id msg response_cap) = msg.
Proof.
  unfold request_of.
  assert (80 = length (envelope (NETWORK_RPC_HEADER_SIZE + NETWORK_RPC_MAX_PAYLOAD) NETWORK_RPC_REQUEST (next_request_id s)
    (local_node s) (remote_node s) target method_id (u32 (Z.of_nat (length msg))) (u32 response_cap) 0))%nat as E
    by (symmetry; by apply length_envelope).
  split; [by rewrite length_app, <- E|]. by apply drop_app_length'.
Qed.

Context (local_invoke : byte_invoke W).

(** What the server answers to a request [q] with payload [msg]. *)
Definition response_to (cap : Z) (q : route) (ok : bool) (result : list Z) : list Z :=
  envelope cap NETWORK_RPC_RESPONSE (request_id q) (destination_node q) (source_node q) (target_handle q)
    (low32 (method_and_payload_length q)) (u32 (Z.of_nat (length result))) 0 (if ok then 1 else 0) ++ result.

(** The server on the request of a call addressed to it. *)
Lemma serve_request s target method_id msg response_cap cap w :
  session_ok s -> call_ok target method_id msg response_cap -> NETWORK_RPC_HEADER_SIZE + response_cap <= cap ->
  network_rpc_serve (remote_node s) (Some local_invoke) (Bytes (request_of s target method_id msg response_cap)) false cap w =
  (let '(w', (ok, result)) := local_invoke target method_id msg response_cap w in
   (w', if response_cap <? Z.of_nat (length result) then None
        else Some (response_to cap (route_for NETWORK_RPC_REQUEST (next_request_id s) (local_node s) (remote_node s) target
               method_id (Z.of_nat (length msg)) response_cap 0) ok result))).
Proof.
  intros Hs Hc Hcap. pose proof (request_route _ _ _ _ _ Hs Hc) as Hr.
  destruct (length_request s target method_id msg response_cap) as [Hlen Hdrop].
  destruct Hc as [Htg Hm Hl Hrc]. unfold NETWORK_RPC_HEADER_SIZE, NETWORK_RPC_MAX_PAYLOAD in *.
  assert (is_u32 (Z.of_nat (length msg)) /\ is_u32 response_cap /\ is_u32 0) as (Hl32 & Hr32 & H0)
    by (unfold is_u32; lia).
  unfold network_rpc_serve, NETWORK_RPC_HEADER_SIZE, NETWORK_RPC_MAX_PAYLOAD. cbn [is_null buffer_len buffer_bytes orb]. rewrite Hlen.
  rewrite !(proj2 (Z.ltb_ge _ _)) by lia. cbn [orb]. rewrite Hr.
  rewrite route_is_packet by (by split; try apply Hs).
  cbn [route_for method_and_payload_length response_capacity_and_status destination_node target_handle request_id source_node].
  rewrite !low32_pair, !high32_pair by done.
  rewrite Z.eqb_refl, !(proj2 (Z.ltb_ge _ _)) by lia. rewrite (proj2 (Z.eqb_eq _ _)) by lia. cbn [negb orb].
  rewrite Hdrop, Nat2Z.id, firstn_all. destruct (local_invoke _ _ _ _ _) as [w' [ok result]].
  destruct (response_cap <? Z.of_nat (length result)) eqn:E; [done|].
  rewrite length_envelope by (unfold NETWORK_RPC_HEADER_SIZE; lia). cbn [negb Z.of_nat Z.eqb].
  unfold response_to. cbn [route_for method_and_payload_length destination_node target_handle request_id source_node].
  by rewrite low32_pair by done.
Qed.

Lemma accept_response s target method_id msg response_cap cap ok result :
  session_ok s -> call_ok target method_id msg response_cap -> NETWORK_RPC_HEADER_SIZE <= cap ->
  Z.of_nat (length result) <= response_cap ->
  accept_reply s (next_request_id s) response_cap
    (response_to cap (route_for NETWORK_RPC_REQUEST (next_request_id s) (local_node s) (remote_node s) target
       method_id (Z.of_nat (length msg)) response_cap 0) ok result) =
  if ok then Some result else None.
Proof.
  intros [H1 H2 H3] [Htg Hm Hl Hrc] Hcap Hres. unfold NETWORK_RPC_MAX_PAYLOAD in *.
  assert (is_u32 (Z.of_nat (length msg)) /\ is_u32 (Z.of_nat (length result)) /\ is_u32 0) as (Hl32 & Hr32 & H0)
    by (unfold is_u32; lia).
  unfold response_to. cbn [route_for method_and_payload_length destination_node target_handle request_id source_node].
  rewrite low32_pair, u32_small by done. unfold accept_reply.
  assert (typed NETWORK_RPC_RESPONSE (next_request_id s) (remote_node s) (local_node s) target method_id
    (Z.of_nat (length result)) 0 (if ok then 1 else 0)) as Ht by (by split; destruct ok).
  rewrite (read_envelope_build _ _ _ _ _ _ _ _ _ _ Ht) by done. rewrite (route_is_packet _ _ _ _ _ _ _ _ _ Ht).
  cbn [route_for method_and_payload_length response_capacity_and_status destination_node request_id source_node].
  destruct Ht. rewrite !Z.eqb_refl, !high32_pair by done. cbn [negb orb].
  rewrite (proj2 (Z.ltb_ge _ _)) by lia. rewrite length_app, length_envelope by done.
  rewrite (proj2 (Z.eqb_eq _ _)) by (unfold NETWORK_RPC_HEADER_SIZE; lia). cbn [negb orb].
  destruct ok; [|done]. cbn [Z.eqb]. f_equal.
  rewrite drop_app_length' by (symmetry; by apply length_envelope). rewrite Nat2Z.id. apply firstn_all.
Qed.
End calls.

(** ** Remote calls are local calls *)

(** A transport that brings a request to the server of node [node], which runs
    [local_invoke], and its response back. *)
Class Delivers {W} (f : exchange_fn W) (node : Z) (local_invoke : byte_invoke W) : Prop :=
  delivers : forall request cap w, f request cap w = network_rpc_serve node (Some local_invoke) (Bytes request) false cap w.

Lemma remote_call_served {W} (s : network_rpc_session_t W) f local_invoke target method_id msg response_cap w :
  session_ok s -> call_ok target method_id msg response_cap -> exchange s = Some f ->
  Delivers f (remote_node s) local_invoke ->
  network_rpc_invoke (Some s) target method_id (Bytes msg) false response_cap w =
  (let '(w', (ok, result)) := local_invoke target method_id msg response_cap w in
   (Some (next_id s), w',
    if ok && (Z.of_nat (length result) <=? response_cap) then Some result else None)).
Proof.
  intros Hs Hc Hf Hd. rewrite (invoke_exchanges s f) by done. rewrite (delivers (node := remote_node s)).
  rewrite serve_request by (first [done | destruct Hc; unfold NETWORK_RPC_HEADER_SIZE in *; lia]).
  destruct (local_invoke _ _ _ _ _) as [w' [ok result]]. destruct (Z.ltb_spec response_cap (Z.of_nat (length result))).
  - rewrite (proj2 (Z.leb_gt _ _)) by lia. by rewrite andb_false_r.
  - rewrite (proj2 (Z.leb_le _ _)) by lia. rewrite andb_true_r. cbn [mbind option_bind].
    by rewrite accept_response.
Qed.

(** A capability call through a session whose transport reaches the remote server is the same call on the remote
    machine's own kernel: it runs with the target, method, message and response capacity the caller gave, changes
    the state as it does there, and the caller gets its response exactly when the local call succeeded (and kept
    to the capacity); the session's request counter moves on by one. *)
Theorem remote_call_is_local {W} (s : network_rpc_session_t W) f local_invoke target method_id msg response_cap w :
  session_ok s -> call_ok target method_id msg response_cap -> exchange s = Some f ->
  Delivers f (remote_node s) local_invoke ->
  network_rpc_invoke (Some s) target method_id (Bytes msg) false response_cap w =
  (let '(w', (ok, result)) := local_invoke target method_id msg response_cap w in
   (Some (next_id s), w',
    if ok && (Z.of_nat (length result) <=? response_cap) then Some result else None)).
Proof. apply remote_call_served. Qed.

(** A kernel that counts its calls and answers with the message it got. *)
Definition echo_invoke : byte_invoke Z := fun target _ msg _ n => (n + 1, (target =? 7, msg)).
Definition loopback : exchange_fn Z := fun request cap => network_rpc_serve 2 (Some echo_invoke) (Bytes request) false cap.
#[export] Instance loopback_delivers : Delivers loopback 2 echo_invoke.
Proof. intros request cap w. reflexivity. Qed.
Definition loopback_session : network_rpc_session_t Z := network_rpc_session_init 1 2 (Some loopback).

(** Ranges of concrete arguments. *)
Ltac concrete_call := split; first [split; vm_compute; congruence | vm_compute; congruence].

Lemma remote_call_is_local_witness :
  network_rpc_invoke (Some loopback_session) 7 3 (Bytes [1; 2; 3]) false 64 10 = (Some (next_id loopback_session), 11, Some [1; 2; 3]).
Proof.
  rewrite (remote_call_is_local loopback_session loopback echo_invoke 7 3 [1; 2; 3] 64 10).
  - reflexivity.
  - concrete_call.
  - concrete_call.
  - reflexivity.
  - apply _.
Defined.

(** ** Replies belong to their requests *)

Fixpoint session_after {W} (n : nat) (s : network_rpc_session_t W) : network_rpc_session_t W :=
  match n with O => s | S n => next_id (session_after n s) end.

Lemma session_after_id {W} n (s : network_rpc_session_t W) :
  is_u64 (next_request_id s) -> next_request_id (session_after n s) = u64 (next_request_id s + Z.of_nat n).
Proof.
  intros Hs. induction n as [|n IH]; cbn [session_after next_id next_request_id].
  - by rewrite Z.add_0_r, u64_small.
  - rewrite IH. unfold u64. rewrite Zplus_mod_idemp_l. f_equal. lia.
Qed.

Lemma ids_distinct {W} i j (s : network_rpc_session_t W) :
  is_u64 (next_request_id s) -> (i < j)%nat -> Z.of_nat (j - i) < W64 ->
  next_request_id (session_after i s) <> next_request_id (session_after j s).
Proof.
  intros Hs Hij Hb. rewrite !session_after_id by done. unfold u64. intros E.
  assert ((next_request_id s + Z.of_nat j - (next_request_id s + Z.of_nat i)) mod W64 = 0) as Hz
    by (rewrite Zminus_mod, E, Z.sub_diag; done).
  replace (_ - _) with (Z.of_nat (j - i)) in Hz by lia. rewrite Z.mod_small in Hz by lia. lia.
Qed.

(** A response a call takes matches its own request, and any request it
    matches has the same id. *)
Lemma accepted_matches {W} (s : network_rpc_session_t W) target method_id msg response_cap reply out :
  session_ok s -> call_ok target method_id msg response_cap ->
  accept_reply s (next_request_id s) response_cap reply = Some out ->
  network_rpc_response_matches (request_of s target method_id msg response_cap) reply = true /\
  Z.of_nat (length out) <= response_cap /\
  forall q r, read_envelope q = Some r -> network_rpc_response_matches q reply = true -> request_id r = next_request_id s.
Proof.
  intros Hs Hc. unfold accept_reply, network_rpc_response_matches. rewrite (request_route _ _ _ _ _ Hs Hc).
  destruct (read_envelope reply) as [rh|]; [|done].
  destruct (is_packet NETWORK_RPC_RESPONSE rh) eqn:Hp; [|done]. destruct (request_id rh =? _) eqn:Hid; [|done].
  destruct (source_node rh =? _) eqn:Hsrc; [|done]. destruct (destination_node rh =? _) eqn:Hdst; [|done]. cbn [negb orb].
  destruct (response_cap <? _) eqn:Hcap; [done|]. case_match eqn:Hlast; [done|]. intros Hout. apply (inj Some) in Hout as <-.
  apply Z.eqb_eq in Hid. pose proof (call_typed _ _ _ _ _ Hs Hc) as Ht. split_and!.
  - rewrite route_is_packet.
    + done.
    + destruct Hc as [_ _ Hl Hrc]. unfold NETWORK_RPC_MAX_PAYLOAD in *. by rewrite !u32_small in Ht by (unfold is_u32; lia).
  - rewrite length_take. apply Z.ltb_ge in Hcap. pose proof (u32_range (Z.shiftr (method_and_payload_length rh) 32)).
    unfold high32, is_u32 in *. lia.
  - intros q r Hq. rewrite Hq. destruct (is_packet NETWORK_RPC_REQUEST r); [cbn [negb andb]|done]. intros [[E _]%andb_true_iff _]%andb_true_iff.
    apply Z.eqb_eq in E. congruence.
Qed.

(** Whatever the transport brings back, a call succeeds only on a response that matches its own request and keeps
    to the caller's buffer; a response to any other of the session's requests, up to 2^64 - 1 calls before or
    after it, is refused. *)
Theorem replies_correlated {W} (s : network_rpc_session_t W) i j ti mi msgi ci tj mj msgj cj f w w' s' out :
  session_ok s -> call_ok ti mi msgi ci -> call_ok tj mj msgj cj -> exchange (session_after j s) = Some f ->
  i <> j -> Z.of_nat i < W64 -> Z.of_nat j < W64 ->
  network_rpc_invoke (Some (session_after j s)) tj mj (Bytes msgj) false cj w = (s', w', Some out) ->
  exists reply, f (request_of (session_after j s) tj mj msgj cj) (NETWORK_RPC_HEADER_SIZE + NETWORK_RPC_MAX_PAYLOAD) w = (w', Some reply) /\
    network_rpc_response_matches (request_of (session_after j s) tj mj msgj cj) reply = true /\
    network_rpc_response_matches (request_of (session_after i s) ti mi msgi ci) reply = false /\
    Z.of_nat (length out) <= cj.
Proof.
  intros Hs Hci Hcj Hf Hij Hi Hj Hinv.
  assert (forall n, session_ok (session_after n s)) as Hok.
  { intros n. split; [| |rewrite session_after_id by apply Hs; apply u64_range];
      by induction n; [apply Hs|]. }
  rewrite (invoke_exchanges _ f) in Hinv by done. destruct (f _ _ _) as [w1 [reply|]] eqn:E; [|done].
  cbn in Hinv. injection Hinv as <- <- Ha. exists reply. destruct (accepted_matches _ _ _ _ _ _ _ (Hok j) Hcj Ha) as (Hm & Hl & Hu).
  split_and!; [done..| |done].
  destruct (network_rpc_response_matches (request_of (session_after i s) _ _ _ _) reply) eqn:Hm'; [|done].
  specialize (Hu _ _ (request_route _ _ _ _ _ (Hok i) Hci) Hm'). cbn in Hu. exfalso.
  destruct (decide (i < j)%nat).
  - by apply (ids_distinct i j s); [apply Hs|lia|lia|].
  - by apply (ids_distinct j i s); [apply Hs|lia|lia|].
Qed.

Lemma replies_correlated_witness :
  exists reply, loopback (request_of (session_after 1 loopback_session) 7 3 [1; 2; 3] 64) 4176 10 = (11, Some reply) /\
    network_rpc_response_matches (request_of (session_after 1 loopback_session) 7 3 [1; 2; 3] 64) reply = true /\
    network_rpc_response_matches (request_of (session_after 0 loopback_session) 7 3 [] 0) reply = false /\
    Z.of_nat (length [1; 2; 3]) <= 64.
Proof.
  apply (replies_correlated loopback_session 0 1 7 3 [] 0 7 3 [1; 2; 3] 64 loopback 10 11
    (Some (session_after 2 loopback_session)) [1; 2; 3]).
  - concrete_call.
  - concrete_call.
  - concrete_call.
  - reflexivity.
  - discriminate.
  - reflexivity.
  - reflexivity.
  - rewrite (invoke_exchanges _ loopback).
    + set (r := loopback _ _ _). replace r with (11, snd r) by (vm_compute; reflexivity).
      cbv iota. f_equal.
    + concrete_call.
    + concrete_call.
    + reflexivity.
Defined.
