(* ===== verification/NetworkEther.v ===== *)
(** * Capability calls over raw Ethernet (coreinit/network_ether.c)

    Frames around the packets of network_rpc.c, discovery announcements, and
    the two ends of an exchange.  The network device (network_device.h, one
    driver per architecture) is the record [device]. *)

From S2P Require Import Prelude Capnp NetworkRpc.

Definition ETH_HEADER : Z := 14.
Definition ETHERTYPE_HI : Z := 0x88.
Definition ETHERTYPE_LO : Z := 0xb5.
Definition ANNOUNCE_MAGIC : Z := 0x4f544f5343415031.
Definition FRAME_CAP : Z := 2048.
Definition SPINS : positive := 100000000.

(** [for (spins = 0; spins < n; spins++)] with a body that may return. *)
Fixpoint spin {W R} (n : positive) (body : W -> W * option R) (w : W) : W * option R :=
  match n with
  | xH => body w
  | xO p =>
      match spin p body w with
      | (w, Some r) => (w, Some r)
      | (w, None) => spin p body w
      end
  | xI p =>
      match body w with
      | (w, Some r) => (w, Some r)
      | (w, None) =>
          match spin p body w with
          | (w, Some r) => (w, Some r)
          | (w, None) => spin p body w
          end
      end
  end.

Definition same_mac (a b : list Z) : bool := bool_decide (a = b).

(** [len] of the payload without its padding. *)
Definition trim_ethernet_padding (payload : list Z) (cproto_len : Z) : Z :=
  let len := Z.of_nat (length payload) in
  if len <? cproto_len then len
  else if forallb (fun b => b =? 0) (drop (Z.to_nat cproto_len) payload) then cproto_len else len.

Section network_ether.
Context {W : Type}.

(** network_device.h: the station's address, sending a frame, and taking a
    received one into a buffer of the given size. *)
Record device := {
  network_device_mac : list Z;
  network_device_send : list Z -> W -> W * bool;
  network_device_poll : Z -> W -> W * option (list Z) }.

Context (dev : device).

Definition frame_bytes (dst src payload : list Z) : list Z := dst ++ src ++ [ETHERTYPE_HI; ETHERTYPE_LO] ++ payload.

Definition frame (dst payload : list Z) (w : W) : W * bool :=
  if FRAME_CAP - ETH_HEADER <? Z.of_nat (length payload) then (w, false)
  else network_device_send dev (frame_bytes dst (network_device_mac dev) payload) w.

(** Source address and payload of a received frame. *)
Definition unframe (cap : Z) (f : list Z) : option (list Z * list Z) :=
  let len := Z.of_nat (length f) in
  if (len <? ETH_HEADER) || negb (f !!? 12%nat =? ETHERTYPE_HI) || negb (f !!? 13%nat =? ETHERTYPE_LO) then None
  else if cap <? len - ETH_HEADER then None
  else Some (take 6 (drop 6 f), drop 14 f).

Definition poll (cap : Z) (w : W) : W * option (list Z * list Z) :=
  let '(w, f) := network_device_poll dev FRAME_CAP w in (w, f ≫= unframe cap).

Definition network_ether_announce (local_node service exported : Z) (w : W) : W * bool :=
  let payload := capnp_build_flat 48 [ANNOUNCE_MAGIC; local_node; service; exported] in
  if Z.of_nat (length payload) =? 0 then (w, false) else frame (replicate 6 0xff) payload w.

(** Node, capability and address announced. *)
Definition announcement (service : Z) (source payload : list Z) : option (Z * Z * list Z) :=
  let len := trim_ethernet_padding payload 48 in
  match capnp_read_flat_exact (take (Z.to_nat len) payload) len 4 with
  | Some [m; node; svc; capability] =>
      if negb (m =? ANNOUNCE_MAGIC) || negb (svc =? service) then None else Some (node, capability, source)
  | _ => None
  end.

Definition network_ether_wait_announcement (service : Z) (w : W) : W * option (Z * Z * list Z) :=
  spin SPINS (fun w =>
    let '(w, got) := poll FRAME_CAP w in
    (w, '(source, payload) ← got; announcement service source payload)) w.

Definition reply_from (peer_mac request : list Z) (got : list Z * list Z) : option (list Z) :=
  if same_mac (fst got) peer_mac && network_rpc_response_matches request (snd got) then Some (snd got) else None.

(** The route is the context, NULL for [None]. *)
Definition network_ether_exchange (route : option (list Z)) : exchange_fn W := fun request response_cap w =>
  match route with
  | None => (w, None)
  | Some peer_mac =>
      let '(w, sent) := frame peer_mac request w in
      if negb sent then (w, None)
      else
        spin SPINS (fun w =>
          let '(w, got) := poll response_cap w in (w, got ≫= reply_from peer_mac request)) w
  end.

Definition network_ether_serve_once (local_node : Z) (local_invoke : option (byte_invoke W)) (w : W) : W * bool :=
  match poll FRAME_CAP w with
  | (w, None) => (w, false)
  | (w, Some (source, request)) =>
      match network_rpc_serve local_node local_invoke (Bytes request) false FRAME_CAP w with
      | (w, None) => (w, false)
      | (w, Some response) => frame source response w
      end
  end.
End network_ether.
Arguments device : clear implicits.

(** ** Spinning *)

Fixpoint spin_nat {W R} (n : nat) (body : W -> W * option R) (w : W) : W * option R :=
  match n with
  | O => (w, None)
  | S n => match body w with (w, Some r) => (w, Some r) | (w, None) => spin_nat n body w end
  end.

Lemma spin_nat_add {W R} n m (body : W -> W * option R) w :
  spin_nat (n + m) body w =
  match spin_nat n body w with (w, Some r) => (w, Some r) | (w, None) => spin_nat m body w end.
Proof. revert w. induction n as [|n IH]; intros w; [done|]. cbn. destruct (body w) as [w' [r|]]; [done|]. apply IH. Qed.

Lemma spin_eq {W R} n (body : W -> W * option R) w : spin n body w = spin_nat (Pos.to_nat n) body w.
Proof.
  revert w. induction n as [n IH|n IH|]; intros w; cbn [spin].
  - rewrite Pos2Nat.inj_xI. replace (S (2 * Pos.to_nat n)) with (1 + (Pos.to_nat n + Pos.to_nat n))%nat by lia.
    cbn [Nat.add spin_nat]. destruct (body w) as [w' [r|]]; [done|]. rewrite spin_nat_add, IH.
    destruct (spin_nat (Pos.to_nat n) body w') as [w'' [r|]]; [done|apply IH].
  - rewrite Pos2Nat.inj_xO. replace (2 * Pos.to_nat n)%nat with (Pos.to_nat n + Pos.to_nat n)%nat by lia.
    rewrite spin_nat_add, IH. destruct (spin_nat (Pos.to_nat n) body w) as [w'' [r|]]; [done|apply IH].
  - change (Pos.to_nat 1) with 1%nat. cbn. by destruct (body w) as [w' [r|]].
Qed.

(** A loop returns at the first round that does. *)
Lemma spin_finds {W R} n k (body : W -> W * option R) w w1 w2 r :
  spin_nat k body w = (w1, None) -> body w1 = (w2, Some r) -> (k < Pos.to_nat n)%nat -> spin n body w = (w2, Some r).
Proof.
  intros Hk Hr Hlt. rewrite spin_eq. replace (Pos.to_nat n) with (k + S (Pos.to_nat n - S k))%nat by lia.
  rewrite spin_nat_add, Hk. cbn. by rewrite Hr.
Qed.

(** What a loop returns, some round of it did. *)
Lemma spin_source {W R} n (body : W -> W * option R) w w' r :
  spin n body w = (w', Some r) -> exists w1, body w1 = (w', Some r).
Proof.
  rewrite spin_eq. generalize (Pos.to_nat n) as k. intros k. revert w. induction k as [|k IH]; intros w; cbn; [done|].
  destruct (body w) as [w1 [r'|]] eqn:E; [|apply IH]. intros [= -> ->]. by exists w.
Qed.

(** ** Two machines on a wire *)

Section wire.
Context {S : Type} (client_mac server_mac : list Z) (server_node : Z) (server_kernel : byte_invoke S).

(** The frames on their way to either station, the server's kernel, and when
    the server gets to run: before each poll of the client it serves at most
    once. *)
Record wire := { to_client : list (list Z); to_server : list (list Z); server_state : S; schedule : list bool }.

Definition set_to_client (l : list (list Z)) (w : wire) : wire :=
  {| to_client := l; to_server := to_server w; server_state := server_state w; schedule := schedule w |}.
Definition set_to_server (l : list (list Z)) (w : wire) : wire :=
  {| to_client := to_client w; to_server := l; server_state := server_state w; schedule := schedule w |}.
Definition set_server_state (s : S) (w : wire) : wire :=
  {| to_client := to_client w; to_server := to_server w; server_state := s; schedule := schedule w |}.
Definition set_schedule (l : list bool) (w : wire) : wire :=
  {| to_client := to_client w; to_server := to_server w; server_state := server_state w; schedule := l |}.

(** The head of a queue, when it fits the buffer. *)
Definition take_frame (cap : Z) (q : list (list Z)) : list (list Z) * option (list Z) :=
  match q with
  | [] => ([], None)
  | f :: q => (q, if cap <? Z.of_nat (length f) then None else Some f)
  end.

Definition server_device : device wire := {|
  network_device_mac := server_mac;
  network_device_send := fun f w => (set_to_client (to_client w ++ [f]) w, true);
  network_device_poll := fun cap w => let '(q, f) := take_frame cap (to_server w) in (set_to_server q w, f) |}.

Definition server_invoke : byte_invoke wire := fun target m msg cap w =>
  let '(s, r) := server_kernel target m msg cap (server_state w) in (set_server_state s w, r).

Definition server_runs (w : wire) : wire :=
  match schedule w with
  | true :: l => set_schedule l (fst (network_ether_serve_once server_device server_node (Some server_invoke) w))
  | false :: l => set_schedule l w
  | [] => w
  end.

Definition client_device : device wire := {|
  network_device_mac := client_mac;
  network_device_send := fun f w => (set_to_server (to_server w ++ [f]) w, true);
  network_device_poll := fun cap w =>
    let w := server_runs w in let '(q, f) := take_frame cap (to_client w) in (set_to_client q w, f) |}.

Lemma take_drop_frame (a b c p : list Z) : length a = 6%nat -> length b = 6%nat ->
  take 6 (drop 6 (a ++ b ++ c ++ p)) = b /\ drop 12 (a ++ b ++ c ++ p) = c ++ p.
Proof.
  intros Ha Hb. split.
  - rewrite drop_app_length' by done. by apply take_app_length'.
  - rewrite (app_assoc a b). by rewrite drop_app_length' by (rewrite length_app; lia).
Qed.

Lemma frame_reads dst src p cap :
  length dst = 6%nat -> length src = 6%nat -> Z.of_nat (length p) <= cap ->
  unframe cap (frame_bytes dst src p) = Some (src, p).
Proof.
  intros Hd Hs Hp. destruct (take_drop_frame dst src [ETHERTYPE_HI; ETHERTYPE_LO] p Hd Hs) as [E1 E2].
  unfold unframe. unfold frame_bytes at 1 4. rewrite !length_app, Hd, Hs. cbn [length].
  assert (forall i, frame_bytes dst src p !!? (12 + i)%nat = ([ETHERTYPE_HI; ETHERTYPE_LO] ++ p) !!? i) as Hn.
  { intros i. rewrite <- E2. unfold frame_bytes. rewrite !nth_lookup. by rewrite lookup_drop. }
  change 13%nat with (12 + 1)%nat. change 12%nat with (12 + 0)%nat at 1. rewrite !Hn. cbn [app nth].
  rewrite !Z.eqb_refl. cbn [negb]. rewrite !orb_false_r. unfold ETH_HEADER.
  rewrite !(proj2 (Z.ltb_ge _ _)) by lia. unfold frame_bytes. rewrite E1. do 2 f_equal.
  transitivity (drop 2 (drop 12 (dst ++ src ++ [ETHERTYPE_HI; ETHERTYPE_LO] ++ p))); [by rewrite drop_drop|by rewrite E2].
Qed.

Hypothesis Hclient : length client_mac = 6%nat.
Hypothesis Hserver : length server_mac = 6%nat.

(** A call that fits a frame both ways, from a session between the two. *)
Context (s : network_rpc_session_t wire) (target method_id : Z) (msg : list Z) (response_cap : Z).
Hypothesis Hs : session_ok s.
Hypothesis Hnode : remote_node s = server_node.
Hypothesis Htarget : is_u64 target.
Hypothesis Hmethod : is_u32 method_id.
Hypothesis Hlen : Z.of_nat (length msg) <= FRAME_CAP - ETH_HEADER - NETWORK_RPC_HEADER_SIZE.
Hypothesis Hcap : 0 <= response_cap <= FRAME_CAP - ETH_HEADER - NETWORK_RPC_HEADER_SIZE.

Let request := request_of s target method_id msg response_cap.

Lemma ether_call_ok : call_ok target method_id msg response_cap.
Proof.
  unfold FRAME_CAP, ETH_HEADER, NETWORK_RPC_HEADER_SIZE in Hlen, Hcap.
  split; [exact Htarget|exact Hmethod|unfold NETWORK_RPC_MAX_PAYLOAD; clear - Hlen Hcap; lia..].
Qed.

(** The response frame of a call with result [r]. *)
Definition response_frame (ok : bool) (r : list Z) : list Z :=
  frame_bytes client_mac server_mac
    (response_to FRAME_CAP (route_for NETWORK_RPC_REQUEST (next_request_id s) (local_node s) (remote_node s) target
       method_id (Z.of_nat (length msg)) response_cap 0) ok r).

(** The server, with the request in its queue. *)
Lemma server_serves w rest s' ok r :
  to_server w = [frame_bytes server_mac client_mac request] -> schedule w = true :: rest ->
  server_kernel target method_id msg response_cap (server_state w) = (s', (ok, r)) ->
  Z.of_nat (length r) <= response_cap ->
  server_runs w = {| to_client := to_client w ++ [response_frame ok r]; to_server := []; server_state := s'; schedule := rest |}.
Proof.
  intros Hq Hsch Hk Hr. unfold server_runs, network_ether_serve_once, poll. rewrite Hsch.
  cbn [server_device network_device_poll network_device_mac]. rewrite Hq. cbn [take_frame].
  destruct (length_request s target method_id msg response_cap) as [Hql _]. fold request in Hql.
  unfold FRAME_CAP, ETH_HEADER, NETWORK_RPC_HEADER_SIZE in *.
  assert (Z.of_nat (length (frame_bytes server_mac client_mac request)) = 14 + Z.of_nat (length request)) as Hfl.
  { unfold frame_bytes. rewrite !length_app, Hclient, Hserver. cbn [length]. lia. }
  rewrite (proj2 (Z.ltb_ge _ _)) by lia. cbn [mbind option_bind].
  rewrite (frame_reads server_mac client_mac request 2048) by (done || lia).
  rewrite <- Hnode at 1. unfold request.
  rewrite (serve_request server_invoke) by (first [done | apply ether_call_ok | unfold NETWORK_RPC_HEADER_SIZE; lia]).
  unfold server_invoke. cbn [server_state set_to_server]. rewrite Hk. rewrite (proj2 (Z.ltb_ge _ _)) by lia.
  unfold frame. rewrite (proj2 (Z.ltb_ge _ _)).
  2: { unfold response_to. rewrite length_app, length_envelope by done. unfold FRAME_CAP, ETH_HEADER. lia. }
  done.
Qed.

(** A frame the client's exchange passes over. *)
Definition noise (f : list Z) : Prop :=
  forall cap, (if FRAME_CAP <? Z.of_nat (length f) then None else unframe cap f) ≫= reply_from server_mac request = None.

Let client_poll (w : wire) : wire * option (list Z) :=
  let '(w, got) := poll client_device (NETWORK_RPC_HEADER_SIZE + NETWORK_RPC_MAX_PAYLOAD) w in
  (w, got ≫= reply_from server_mac request).

Lemma client_polls w q :
  to_client (server_runs w) = q ->
  client_poll w = (set_to_client (tail q) (server_runs w),
    match q with
    | [] => None
    | f :: _ => (if FRAME_CAP <? Z.of_nat (length f) then None
                 else unframe (NETWORK_RPC_HEADER_SIZE + NETWORK_RPC_MAX_PAYLOAD) f) ≫= reply_from server_mac request
    end).
Proof.
  intros <-. unfold client_poll, poll. cbn [client_device network_device_poll].
  destruct (to_client (server_runs w)) as [|f q]; cbn [take_frame tail]; [done|]. by destruct (FRAME_CAP <? _).
Qed.

(** Without a request the server does nothing but wait its turn. *)
Lemma server_idles w : to_server w = [] -> server_runs w = set_schedule (tail (schedule w)) w.
Proof. intros Hq. unfold server_runs. destruct w as [c v k [|[] l]]; cbn in *; by subst. Qed.

Lemma response_accepted ok r :
  Z.of_nat (length r) <= response_cap ->
  (if FRAME_CAP <? Z.of_nat (length (response_frame ok r)) then None
   else unframe (NETWORK_RPC_HEADER_SIZE + NETWORK_RPC_MAX_PAYLOAD) (response_frame ok r)) ≫= reply_from server_mac request =
  Some (response_to FRAME_CAP (route_for NETWORK_RPC_REQUEST (next_request_id s) (local_node s) (remote_node s) target
       method_id (Z.of_nat (length msg)) response_cap 0) ok r).
Proof.
  intros Hr. set (q := route_for _ _ _ _ _ _ _ _ _).
  assert (length (response_to FRAME_CAP q ok r) = 80 + length r)%nat as Hl
    by (unfold response_to; rewrite length_app, length_envelope by done; lia).
  unfold FRAME_CAP, ETH_HEADER, NETWORK_RPC_HEADER_SIZE in *.
  rewrite (proj2 (Z.ltb_ge _ _)).
  2: { unfold response_frame, frame_bytes. rewrite !length_app, Hclient, Hserver. fold q. unfold FRAME_CAP. rewrite Hl. cbn [length]. lia. }
  unfold response_frame. rewrite frame_reads by (first [done | fold q; unfold FRAME_CAP, NETWORK_RPC_MAX_PAYLOAD; lia]).
  fold q. cbn [mbind option_bind]. unfold reply_from. cbn [fst snd]. unfold same_mac. rewrite bool_decide_eq_true_2 by done.
  unfold network_rpc_response_matches. unfold request. rewrite request_route by (done || apply ether_call_ok). fold q.
  unfold response_to.
  assert (call_ok target method_id msg response_cap) as [_ _ Hcl Hcc] by apply ether_call_ok.
  assert (typed NETWORK_RPC_RESPONSE (request_id q) (destination_node q) (source_node q) (target_handle q)
    (low32 (method_and_payload_length q)) (u32 (Z.of_nat (length r))) 0 (if ok then 1 else 0)) as Ht.
  { destruct Hs. split; cbn; try done; [apply u32_range..|by destruct ok]. }
  rewrite (read_envelope_build _ _ _ _ _ _ _ _ _ _ Ht) by done. rewrite (route_is_packet _ _ _ _ _ _ _ _ _ Ht).
  unfold q at 1. unfold NETWORK_RPC_MAX_PAYLOAD in *. rewrite route_is_packet.
  - cbn [andb negb]. cbn [route_for request_id source_node destination_node q]. by rewrite !Z.eqb_refl.
  - destruct Hs. split; try done; unfold is_u32; lia.
Qed.

(** The client finds the reply [out] within [m] more polls and is left with an
    empty wire. *)
Definition finds (m : nat) (out : list Z) (s' : S) (w : wire) : Prop :=
  exists n w1 w2, (n <= m)%nat /\ spin_nat n client_poll w = (w1, None) /\ client_poll w1 = (w2, Some out) /\
    to_client w2 = [] /\ to_server w2 = [] /\ server_state w2 = s'.

Lemma finds_later m out s' w w' : client_poll w = (w', None) -> finds m out s' w' -> finds (Datatypes.S m) out s' w.
Proof.
  intros Hp (n & w1 & w2 & Hn & Hsp & Hf). exists (Datatypes.S n), w1, w2. split; [lia|]. split; [|done]. cbn. by rewrite Hp.
Qed.

Lemma finds_mono m m' out s' w : (m <= m')%nat -> finds m out s' w -> finds m' out s' w.
Proof. intros Hm (n & w1 & w2 & Hn & Hsp). exists n, w1, w2. split; [lia|done]. Qed.

Section served.
Context (s' : S) (ok : bool) (r : list Z).
Hypothesis Hr : Z.of_nat (length r) <= response_cap.
Let out := response_to FRAME_CAP (route_for NETWORK_RPC_REQUEST (next_request_id s) (local_node s) (remote_node s) target
       method_id (Z.of_nat (length msg)) response_cap 0) ok r.

(** Once the server has run for a poll: the frame at the head is noise or the reply. *)
Lemma finds_head w ns :
  server_runs w = {| to_client := ns ++ [response_frame ok r]; to_server := []; server_state := s'; schedule := schedule (server_runs w) |} ->
  Forall noise ns ->
  (forall w', ns <> [] -> to_server w' = [] -> to_client w' = tail ns ++ [response_frame ok r] -> server_state w' = s' ->
     finds (length (tail ns)) out s' w') ->
  finds (length ns) out s' w.
Proof.
  intros Hw Hns Hnext. pose proof (client_polls w (ns ++ [response_frame ok r]) ltac:(by rewrite Hw)) as Hp.
  rewrite Hw in Hp. destruct ns as [|f ns]; cbn [app tail length] in *.
  - rewrite response_accepted in Hp by done. exists 0%nat, w. eexists. by split_and!.
  - apply Forall_cons in Hns as [Hf _]. unfold noise in Hf. rewrite Hf in Hp. eapply finds_later; [exact Hp|]. by apply Hnext.
Qed.

Lemma finds_after_service ns : forall w,
  to_server w = [] -> to_client w = ns ++ [response_frame ok r] -> server_state w = s' -> Forall noise ns ->
  finds (length ns) out s' w.
Proof.
  induction ns as [|f ns IH]; intros w Hts Htc Hst Hns; (apply finds_head; [|done|]).
  - rewrite server_idles by done. destruct w; cbn in *; by subst.
  - done.
  - rewrite server_idles by done. destruct w; cbn in *; by subst.
  - intros w' _ ? ? ?. apply IH; [done..|]. by apply Forall_cons in Hns as [_ ?].
Qed.

Lemma finds_when_scheduled k : forall ns w rest,
  schedule w = replicate k false ++ true :: rest -> to_server w = [frame_bytes server_mac client_mac request] ->
  to_client w = ns -> Forall noise ns ->
  server_kernel target method_id msg response_cap (server_state w) = (s', (ok, r)) ->
  finds (k + length ns) out s' w.
Proof.
  induction k as [|k IH]; intros ns w rest Hsch Hts Htc Hns Hk; cbn [replicate app Nat.add] in *.
  - apply finds_head; [|done|].
    + rewrite (server_serves w rest s' ok r) by done. by rewrite Htc.
    + intros w' _ ? ? ?. apply finds_after_service; [done..|]. by destruct Hns.
  - assert (server_runs w = set_schedule (replicate k false ++ true :: rest) w) as Hw
      by (unfold server_runs; by rewrite Hsch).
    assert (exists w', client_poll w = (w', None) /\ w' = set_to_client (tail ns) (server_runs w)) as (w' & Hp & Ew').
    { rewrite (client_polls w ns) by (by rewrite Hw). eexists. split; [|reflexivity]. f_equal.
      destruct Hns as [|f ns Hf _]; [done|]. apply Hf. }
    apply (finds_later _ _ _ _ w' Hp). eapply finds_mono; [|apply (IH (tail ns) w' rest)].
    + destruct ns; cbn; lia.
    + by rewrite Ew', Hw.
    + by rewrite Ew', Hw.
    + by rewrite Ew'.
    + by destruct Hns.
    + by rewrite Ew', Hw.
Qed.
End served.
End wire.


(** A broadcast of another protocol is in the client's queue and the server
    runs before the client's third poll. *)
Definition demo_mac (n : Z) : list Z := [2; 0; 0; 0; 0; n].
Definition demo_broadcast : list Z := replicate 6 0xff ++ demo_mac 9 ++ [0x08; 0x06] ++ replicate 46 0.
Definition demo_wire : @wire Z :=
  {| to_client := [demo_broadcast]; to_server := []; server_state := 10; schedule := [false; false; true] |}.
Definition ether_session : network_rpc_session_t (@wire Z) :=
  network_rpc_session_init 1 2
    (Some (network_ether_exchange (client_device (demo_mac 1) (demo_mac 2) 2 echo_invoke) (Some (demo_mac 2)))).


(** Whatever arrives, an exchange ends only with a packet that came from the
    peer's address and matches the request. *)
Lemma exchange_from_peer {W} (dev : device W) peer_mac request cap w w' out :
  network_ether_exchange dev (Some peer_mac) request cap w = (w', Some out) ->
  exists w1, poll dev cap w1 = (w', Some (peer_mac, out)) /\ network_rpc_response_matches request out = true.
Proof.
  unfold network_ether_exchange. destruct (frame dev peer_mac request w) as [w0 []]; [|done]. cbn [negb].
  intros H. apply spin_source in H as [w1 H]. exists w1. destruct (poll dev cap w1) as [w2 [[src p]|]]; [|done].
  cbn in H. unfold reply_from, same_mac in H. cbn [fst snd] in H.
  destruct (bool_decide (src = peer_mac)) eqn:E; [|done]. apply bool_decide_eq_true in E as ->.
  destruct (network_rpc_response_matches request p) eqn:Hm; [|done]. cbn in H. injection H as <- <-. done.
Qed.

(** An announcement is read as it was made, whatever zero padding the link
    added. *)
Lemma announcement_roundtrip node service capability src pad :
  is_u64 node -> is_u64 service -> is_u64 capability ->
  announcement service src (capnp_build_flat 48 [ANNOUNCE_MAGIC; node; service; capability] ++ replicate pad 0) =
  Some (node, capability, src).
Proof.
  intros Hn Hs Hc. set (ws := [ANNOUNCE_MAGIC; node; service; capability]).
  pose proof (length_capnp_build_flat 48 ws ltac:(done) ltac:(done)) as Hl. change (flat_total (length ws)) with 48 in Hl.
  unfold announcement, trim_ethernet_padding. rewrite length_app.
  rewrite (proj2 (Z.ltb_ge _ _)) by lia. change (Z.to_nat 48) with 48%nat.
  rewrite drop_app_length' by lia.
  assert (forallb (fun b => b =? 0) (replicate pad 0) = true) as -> by (induction pad; done).
  change (Z.to_nat 48) with 48%nat. rewrite take_app_length' by lia.
  change 48 with (flat_total (length ws)) at 2. change 4%nat with (length ws). rewrite read_flat_exact_build.
  - unfold ws. by rewrite !Z.eqb_refl.
  - done.
  - done.
  - repeat apply Forall_cons_2; done.
Qed.
