(* ===== verification/Proxy.v ===== *)
(** * Proxies of remote objects (coreinit/proxy.c, coreinit/kinv.c)

    A proxy is a local object whose handler forwards what it receives to a
    target behind another kernel's invoke, or behind a routed transport with
    a context.  A remote invoke function acts on the world [W], which holds
    its context; the factory of the local kernel is the parameter [create].
    A proxy passes messages on unread, so what they are, [Q] and [A], is a
    parameter too: bytes on the network, words between the kernels of one
    machine. *)

From S2P Require Import Prelude Capnp NetworkRpc.

Definition MAX_PROXIES : nat := 16.

(** A capability call: target, method, message, response capacity; the
    return value and the response. *)
Definition remote_invoke_fn_t (W Q A : Type) : Type := Z -> Z -> Q -> Z -> W -> W * (bool * A).

(** [kinv]: no function, no kernel. *)
Definition kinv {W} (fn : option (byte_invoke W)) (target method_id : Z) (msg : list Z) (response_cap : Z) (w : W)
    : W * (bool * list Z) :=
  match fn with
  | None => (w, (false, []))
  | Some f => f target method_id msg response_cap w
  end.

Section proxy.
Context {W Q A : Type}.

Record proxy_data_t := {
  p_remote_target : Z;
  p_remote_invoke : option (remote_invoke_fn_t W Q A);
  p_remote_invoke_ctx : option (remote_invoke_fn_t W Q A);   (* with [remote_ctx] *)
  p_used : bool }.

#[export] Instance proxy_inhabited : Inhabited proxy_data_t :=
  populate {| p_remote_target := 0; p_remote_invoke := None; p_remote_invoke_ctx := None; p_used := false |}.

(** CREATE on the local factory for the proxy in a slot: the handle of the
    reply, when it was answered. *)
Context (create : nat -> W -> W * option Z).

Definition unuse (p : proxy_data_t) : proxy_data_t :=
  {| p_remote_target := p_remote_target p; p_remote_invoke := p_remote_invoke p;
     p_remote_invoke_ctx := p_remote_invoke_ctx p; p_used := false |}.

Definition proxy_init (t : list proxy_data_t) : list proxy_data_t := unuse <$> t.

(** The response; [None]: a call through NULL. *)
Definition proxy_handler (p : proxy_data_t) (method_id : Z) (msg : Q) (response_cap : Z) (w : W) : option (W * A) :=
  match p_remote_invoke_ctx p with
  | Some f => let '(w, (_, r)) := f (p_remote_target p) method_id msg response_cap w in Some (w, r)
  | None =>
      match p_remote_invoke p with
      | Some f => let '(w, (_, r)) := f (p_remote_target p) method_id msg response_cap w in Some (w, r)
      | None => None
      end
  end.

Definition create_proxy_common (remote_target : Z) (invoke invoke_ctx : option (remote_invoke_fn_t W Q A))
    (t : list proxy_data_t) (w : W) : list proxy_data_t * W * Z :=
  match first_index (fun p => negb (p_used p)) t with
  | None => (t, w, 0)
  | Some slot =>
      let p := {| p_remote_target := remote_target; p_remote_invoke := invoke; p_remote_invoke_ctx := invoke_ctx; p_used := true |} in
      let t := <[slot := p]> t in
      match create slot w with
      | (w, Some h) => (t, w, h)
      | (w, None) => (<[slot := unuse p]> t, w, 0)
      end
  end.

Definition create_proxy (remote_target : Z) (invoke : remote_invoke_fn_t W Q A) := create_proxy_common remote_target (Some invoke) None.
Definition create_routed_proxy (remote_target : Z) (invoke_ctx : remote_invoke_fn_t W Q A) :=
  create_proxy_common remote_target None (Some invoke_ctx).

(** A proxy that was created is in the first free slot, and nothing else
    changed. *)
Lemma create_proxy_slot target invoke invoke_ctx t w t' w' h :
  create_proxy_common target invoke invoke_ctx t w = (t', w', h) -> h <> 0 ->
  exists slot p, first_index (fun p => negb (p_used p)) t = Some slot /\ t !! slot = Some p /\ p_used p = false /\
    create slot w = (w', Some h) /\
    t' = <[slot := {| p_remote_target := target; p_remote_invoke := invoke; p_remote_invoke_ctx := invoke_ctx; p_used := true |}]> t.
Proof.
  unfold create_proxy_common. destruct (first_index _ t) as [slot|] eqn:E; [|by intros [= <- <- <-]].
  destruct (create slot w) as [w0 [h0|]] eqn:Ec; intros [= <- <- <-] Hh; [|done].
  apply first_index_Some in E as (p & Hp & Hu & _). exists slot, p. split_and!; try done. by destruct (p_used p).
Qed.
End proxy.
Arguments proxy_data_t : clear implicits.

(** ** Proxies of objects on another machine *)

(** A routed proxy's invoke function over a network session, which is part of
    the world. *)
Definition session_invoke {W} (s : network_rpc_session_t W -> W -> W) (get : W -> network_rpc_session_t W) : remote_invoke_fn_t W (list Z) (list Z) :=
  fun target method_id msg response_cap w =>
    match network_rpc_invoke (Some (get w)) target method_id (Bytes msg) false response_cap w with
    | (Some s', w', Some r) => (s s' w', (true, r))
    | (Some s', w', None) => (s s' w', (false, []))
    | (None, w', _) => (w', (false, []))
    end.

(** A proxy of an object on another machine stands for that object: creating a routed proxy takes a free slot and
    leaves every proxy in use alone, and a call of the resulting object runs the same method with the same message on
    the remote kernel, and answers with its response (empty when the remote call failed). *)
Theorem routed_proxy_forwards {W} create (put : network_rpc_session_t W -> W -> W) (get : W -> network_rpc_session_t W)
    (remote : byte_invoke W) f target t w t' w' h :
  create_routed_proxy create target (session_invoke put get) t w = (t', w', h) -> h <> 0 ->
  exists slot, t !! slot <> None /\ p_used (t !!? slot) = false /\ p_used (t' !!? slot) = true /\
    snd (create slot w) = Some h /\
    (forall i, i <> slot -> t' !! i = t !! i) /\
    forall method_id msg response_cap w1,
      session_ok (get w1) -> call_ok target method_id msg response_cap -> exchange (get w1) = Some f ->
      Delivers f (remote_node (get w1)) remote ->
      proxy_handler (t' !!? slot) method_id msg response_cap w1 =
      (let '(w2, (ok, r)) := remote target method_id msg response_cap w1 in
       Some (put (next_id (get w1)) w2, if ok && (Z.of_nat (length r) <=? response_cap) then r else [])).
Proof.
  intros E Hh. destruct (create_proxy_slot _ _ _ _ _ _ _ _ _ E Hh) as (slot & p & Hi & Hp & Hu & Hc & ->).
  pose proof (first_index_lt _ _ _ Hi) as Hlt. exists slot. rewrite nth_insert_eq by done. split_and!.
  - by rewrite Hp.
  - by rewrite (nth_lookup_Some_inh _ _ _ Hp).
  - done.
  - by rewrite Hc.
  - intros i Hn. by rewrite list_lookup_insert_ne.
  - intros m msg cap w1 Hs Hcall Hf Hd. unfold proxy_handler, session_invoke. cbn [p_remote_invoke_ctx p_remote_target].
    rewrite (remote_call_served (get w1) f remote) by done.
    destruct (remote target m msg cap w1) as [w2 [ok r]]. by destruct (ok && _).
Qed.

(** The loopback session of NetworkRpc.v beside a counter. *)
Record demo_world := { dw_id : Z; dw_count : Z }.
Definition demo_remote : byte_invoke demo_world := fun target _ msg _ w =>
  ({| dw_id := dw_id w; dw_count := dw_count w + 1 |}, (target =? 7, msg)).
Definition demo_exchange : exchange_fn demo_world := fun request cap =>
  network_rpc_serve 2 (Some demo_remote) (Bytes request) false cap.
Definition demo_get (w : demo_world) : network_rpc_session_t demo_world :=
  {| local_node := 1; remote_node := 2; next_request_id := u64 (dw_id w); exchange := Some demo_exchange |}.
Definition demo_put (s : network_rpc_session_t demo_world) (w : demo_world) : demo_world :=
  {| dw_id := next_request_id s; dw_count := dw_count w |}.
Definition demo_create (slot : nat) (w : demo_world) : demo_world * option Z := (w, Some (Z.of_nat slot + 40)).
Definition demo_table : list (proxy_data_t demo_world (list Z) (list Z)) := replicate MAX_PROXIES inhabitant.
Definition demo_proxies : list (proxy_data_t demo_world (list Z) (list Z)) :=
  fst (fst (create_routed_proxy demo_create 7 (session_invoke demo_put demo_get) demo_table {| dw_id := 5; dw_count := 0 |})).

Lemma routed_proxy_forwards_witness :
  exists slot, proxy_handler (demo_proxies !!? slot) 3 [1; 2; 3] 64 {| dw_id := 5; dw_count := 0 |} =
    Some ({| dw_id := 6; dw_count := 1 |}, [1; 2; 3]).
Proof.
  destruct (routed_proxy_forwards demo_create demo_put demo_get demo_remote demo_exchange 7 demo_table {| dw_id := 5; dw_count := 0 |}
    demo_proxies {| dw_id := 5; dw_count := 0 |} 40) as (slot & _ & _ & _ & _ & _ & Hp).
  - reflexivity.
  - discriminate.
  - exists slot. rewrite Hp; [reflexivity| | | |].
    + concrete_call.
    + concrete_call.
    + reflexivity.
    + intros request cap w. reflexivity.
Defined.

(** ** Two cores on one image *)

Section shared.
Context {W Q A : Type}.
Implicit Types (t : list (proxy_data_t W Q A)).

Lemma first_after_init t : t <> [] -> first_index (fun p => negb (p_used p)) (proxy_init t) = Some 0%nat.
Proof. destruct t as [|p t]; [done|]. intros _. unfold proxy_init. by cbn. Qed.

(** The table of proxies belongs to the image, and every core that enters
    coreinit_main clears it.  On an image that cores share, the first proxy
    of the second core takes the slot of the first proxy of the first, whose
    object goes on existing: it then forwards to the second core's target. *)
Theorem second_init_redirects t create1 create2 scheduler route w t1 w1 h1 manager bsp w2 t2 w3 h2 :
  create_routed_proxy create1 scheduler route (proxy_init t) w = (t1, w1, h1) -> h1 <> 0 ->
  create_proxy create2 manager bsp (proxy_init t1) w2 = (t2, w3, h2) -> h2 <> 0 ->
  exists slot, create1 slot w = (w1, Some h1) /\
    forall m msg cap w4, proxy_handler (t2 !!? slot) m msg cap w4 =
      (let '(w5, (_, r)) := bsp manager m msg cap w4 in Some (w5, r)).
Proof.
  intros E1 H1 E2 H2.
  destruct (create_proxy_slot _ _ _ _ _ _ _ _ _ E1 H1) as (s1 & p1 & I1 & L1 & _ & C1 & T1).
  destruct (create_proxy_slot _ _ _ _ _ _ _ _ _ E2 H2) as (s2 & p2 & I2 & L2 & _ & _ & ->).
  assert (t <> []) as Ht by (by intros ->).
  rewrite first_after_init in I1 by done. injection I1 as <-.
  rewrite first_after_init in I2 by (rewrite T1; intros E; apply (f_equal length) in E; rewrite length_insert in E; unfold proxy_init in E;
    rewrite length_fmap in E; by destruct t). injection I2 as <-.
  exists 0%nat. split; [done|]. intros m msg cap w4. by rewrite nth_insert_eq by (by eapply lookup_lt_Some).
Qed.
End shared.
