(* ===== verification/MutexMgr.v ===== *)
(** * The mutex manager (coreinit/mutex_mgr.c) and its caller in coreinit.c

    A table of sixteen try-locks behind one object: CREATE claims a slot, LOCK
    tries, UNLOCK releases.  [hw_mutex_lock] is the waiting loop around LOCK. *)

From S2P Require Import Prelude Capnp TryLock.

Definition MAX_MUTEXES : nat := 16.
Definition METHOD_CREATE : Z := 0.
Definition METHOD_LOCK : Z := 1.
Definition METHOD_UNLOCK : Z := 2.

#[global] Instance trylock_inhabited : Inhabited trylock_t := populate trylock_init.

Record mutex_mgr := {
  g_mutexes : list trylock_t;      (* [MAX_MUTEXES] *)
  g_mutex_used : list bool }.      (* [MAX_MUTEXES] *)

Definition mutex_manager_init_schema : mutex_mgr :=
  {| g_mutexes := replicate MAX_MUTEXES trylock_init; g_mutex_used := replicate MAX_MUTEXES false |}.

Definition set_mutex (i : nat) (l : trylock_t) (s : mutex_mgr) : mutex_mgr :=
  {| g_mutexes := <[i := l]> (g_mutexes s); g_mutex_used := g_mutex_used s |}.

Definition mutex_manager_handler (method_id : Z) (words : list Z) (response_cap : Z) (s : mutex_mgr)
    : mutex_mgr * option (list Z) :=
  if method_id =? METHOD_CREATE then
    match first_index negb (g_mutex_used s) with
    | None => (s, None)
    | Some slot =>
        ({| g_mutexes := g_mutexes s; g_mutex_used := <[slot := true]> (g_mutex_used s) |},
         reply response_cap [Z.of_nat slot])
    end
  else
    let id := word words 0 in
    if (Z.of_nat MAX_MUTEXES <=? id) || negb (g_mutex_used s !!? Z.to_nat id) then (s, None)
    else if method_id =? METHOD_LOCK then
      let '(l, ok) := trylock_try_acquire (g_mutexes s !!? Z.to_nat id) in
      (set_mutex (Z.to_nat id) l s, reply response_cap [bool_word ok])
    else if method_id =? METHOD_UNLOCK then
      (set_mutex (Z.to_nat id) (trylock_release (g_mutexes s !!? Z.to_nat id)) s, None)
    else (s, None).

(** [hw_mutex_lock] of coreinit.c with a mutex manager at hand; [env n] is
    what other cores do to the table while this one waits for its [n]-th
    interrupt.  [None]: all [fuel] attempts failed. *)
Fixpoint hw_mutex_lock (env : nat -> mutex_mgr -> mutex_mgr) (fuel n : nat) (hw_mutex_id : Z) (s : mutex_mgr)
    : option (nat * mutex_mgr) :=
  match fuel with
  | O => None
  | S fuel =>
      let '(s, resp) := mutex_manager_handler METHOD_LOCK [hw_mutex_id] 24 s in
      if (8 <=? response_len resp) && negb (word (response_words resp) 0 =? 0) then Some (n, s)
      else hw_mutex_lock env fuel (S n) hw_mutex_id (env n s)
  end.

Definition hw_mutex_unlock (hw_mutex_id : Z) (s : mutex_mgr) : mutex_mgr :=
  fst (mutex_manager_handler METHOD_UNLOCK [hw_mutex_id] 0 s).

(** ** Requests in sequence *)

(** Method and id of a request; replies are given into buffers of 24 bytes. *)
Fixpoint serve (l : list (Z * Z)) (s : mutex_mgr) : mutex_mgr * list (option (list Z)) :=
  match l with
  | [] => (s, [])
  | (m, id) :: l =>
      let '(s, r) := mutex_manager_handler m [id] 24 s in
      let '(s, rs) := serve l s in (s, r :: rs)
  end.

Lemma serve_app l l' s :
  serve (l ++ l') s = (let '(s1, r1) := serve l s in let '(s2, r2) := serve l' s1 in (s2, r1 ++ r2)).
Proof.
  revert s. induction l as [|[m id] l IH]; intros s; cbn; [by destruct (serve l' s)|].
  destruct (mutex_manager_handler m [id] 24 s) as [s1 r]. rewrite IH. destruct (serve l s1) as [s2 rs].
  by destruct (serve l' s2).
Qed.

Definition sized (s : mutex_mgr) : Prop := length (g_mutexes s) = MAX_MUTEXES /\ length (g_mutex_used s) = MAX_MUTEXES.
Definition held (id : nat) (s : mutex_mgr) : Prop := locked (g_mutexes s !!? id) = true.

Lemma handler_sized m id s : sized s -> sized (fst (mutex_manager_handler m [id] 24 s)).
Proof.
  intros [H1 H2]. unfold mutex_manager_handler, set_mutex. repeat case_match; cbn; try done; split; cbn; by rewrite ?length_insert.
Qed.

(** A lock that was taken stays taken until it is released. *)
Lemma handler_held m id i s :
  sized s -> held i s -> (i < MAX_MUTEXES)%nat -> ~ (m = METHOD_UNLOCK /\ id = Z.of_nat i) -> 0 <= id ->
  held i (fst (mutex_manager_handler m [id] 24 s)) /\
  (m = METHOD_LOCK -> id = Z.of_nat i -> snd (mutex_manager_handler m [id] 24 s) <> Some [1]).
Proof.
  intros [Hs _] Hh Hi Hno H0. unfold mutex_manager_handler. change (word [id] 0) with id.
  destruct (m =? METHOD_CREATE) eqn:E0.
  { apply Z.eqb_eq in E0 as ->. destruct (first_index negb (g_mutex_used s)); cbn; by split. }
  destruct ((Z.of_nat MAX_MUTEXES <=? id) || negb (g_mutex_used s !!? Z.to_nat id)) eqn:E1; [done|].
  destruct (m =? METHOD_LOCK) eqn:E2.
  - cbn. unfold held in *. cbn. destruct (decide (Z.to_nat id = i)) as [E|].
    + rewrite E, nth_insert_eq by lia. split; [done|]. intros _ _. by rewrite Hh.
    + rewrite nth_insert_ne by done. split; [done|]. intros _ ->. lia.
  - destruct (m =? METHOD_UNLOCK) eqn:E3; [|done]. apply Z.eqb_eq in E3 as ->. cbn. unfold held in *. cbn.
    rewrite nth_insert_ne; [done|]. intros E. apply Hno. split; [done|]. lia.
Qed.

Lemma serve_held l i s :
  sized s -> held i s -> (i < MAX_MUTEXES)%nat -> Forall (fun c => 0 <= snd c) l -> ~ In (METHOD_UNLOCK, Z.of_nat i) l ->
  sized (fst (serve l s)) /\ held i (fst (serve l s)).
Proof.
  revert s. induction l as [|[m id] l IH]; intros s Hs Hh Hi Hl Hno; [done|].
  apply Forall_cons in Hl as [H0 Hl]. cbn [snd] in H0. cbn [serve].
  destruct (handler_held m id i s Hs Hh Hi) as [Hh1 _]; [|done|].
  { intros [-> ->]. apply Hno. by left. }
  pose proof (handler_sized m id s Hs) as Hs1. destruct (mutex_manager_handler m [id] 24 s) as [s1 r]. cbn [fst] in *.
  destruct (IH s1 Hs1 Hh1 Hi Hl) as [? ?]; [intros ?; apply Hno; by right|]. by destruct (serve l s1).
Qed.

Lemma handler_took id s : sized s -> 0 <= id ->
  snd (mutex_manager_handler METHOD_LOCK [id] 24 s) = Some [1] ->
  (Z.to_nat id < MAX_MUTEXES)%nat /\ held (Z.to_nat id) (fst (mutex_manager_handler METHOD_LOCK [id] 24 s)).
Proof.
  intros [Hs _] H0. unfold mutex_manager_handler. cbn [Z.eqb METHOD_LOCK METHOD_CREATE]. change (word [id] 0) with id.
  destruct (Z.leb_spec (Z.of_nat MAX_MUTEXES) id); [done|]. destruct (negb _); [done|]. cbn. intros _.
  split; [lia|]. unfold held. cbn. rewrite nth_insert_eq by lia. done.
Qed.

(** From the manager's initial state, over any sequence of requests by any callers, a mutex that LOCK granted is not
    granted again before an UNLOCK of it. *)
Theorem mutex_not_granted_twice before between id s r1 s1 s2 r2 :
  Forall (fun c => 0 <= snd c) between -> 0 <= id ->
  fst (serve before mutex_manager_init_schema) = s ->
  mutex_manager_handler METHOD_LOCK [id] 24 s = (s1, r1) -> r1 = Some [1] ->
  fst (serve between s1) = s2 ->
  snd (mutex_manager_handler METHOD_LOCK [id] 24 s2) = r2 -> r2 = Some [1] ->
  In (METHOD_UNLOCK, id) between.
Proof.
  intros Hl H0 Hs E1 -> E2 E3 ->.
  assert (forall l s, sized s -> sized (fst (serve l s))) as Hsz.
  { induction l as [|[m i] l IH]; intros s0 Hs0; [done|]. cbn [serve]. pose proof (handler_sized m i s0 Hs0) as H1.
    destruct (mutex_manager_handler m [i] 24 s0) as [s' r]. specialize (IH s' H1). by destruct (serve l s'). }
  assert (sized s) as Hss by (subst s; apply Hsz; split; apply length_replicate).
  destruct (handler_took id s Hss H0) as [Hi Hh]; [by rewrite E1|]. rewrite E1 in Hh. cbn [fst] in Hh.
  pose proof (handler_sized METHOD_LOCK id s Hss) as Hs1. rewrite E1 in Hs1. cbn [fst] in Hs1.
  destruct (in_dec (fun a b => decide (a = b)) (METHOD_UNLOCK, id) between) as [|Hno]; [done|exfalso].
  destruct (serve_held between (Z.to_nat id) s1 Hs1 Hh Hi Hl) as [Hs2 Hh2]; [rewrite Z2Nat.id by done; done|].
  rewrite E2 in Hs2, Hh2.
  destruct (handler_held METHOD_LOCK id (Z.to_nat id) s2 Hs2 Hh2 Hi) as [_ Hr]; [by intros [? _]|done|].
  apply Hr; [done|lia|done].
Qed.

Lemma mutex_not_granted_twice_witness : In (METHOD_UNLOCK, 0) [(METHOD_LOCK, 0); (METHOD_UNLOCK, 0)].
Proof.
  eapply (mutex_not_granted_twice [(METHOD_CREATE, 0)] [(METHOD_LOCK, 0); (METHOD_UNLOCK, 0)] 0);
    [repeat apply Forall_cons_2; try apply Forall_nil_2; cbn; lia|lia|reflexivity|vm_compute; reflexivity|reflexivity
    |vm_compute; reflexivity|vm_compute; reflexivity|reflexivity].
Defined.

(** The waiting loop returns only with the mutex taken. *)
Lemma hw_mutex_lock_holds env fuel n id s k s' :
  (forall i x, sized x -> sized (env i x)) -> sized s -> 0 <= id ->
  hw_mutex_lock env fuel n id s = Some (k, s') -> (Z.to_nat id < MAX_MUTEXES)%nat /\ held (Z.to_nat id) s'.
Proof.
  intros Henv Hs H0. revert n s Hs. induction fuel as [|fuel IH]; intros n s Hs; cbn [hw_mutex_lock]; [done|].
  pose proof (handler_sized METHOD_LOCK id s Hs) as Hs1. pose proof (handler_took id s Hs H0) as Ht.
  assert (snd (mutex_manager_handler METHOD_LOCK [id] 24 s) = None \/
          exists b, snd (mutex_manager_handler METHOD_LOCK [id] 24 s) = Some [bool_word b]) as Hr.
  { unfold mutex_manager_handler. cbn [Z.eqb METHOD_LOCK METHOD_CREATE]. destruct (_ || _); [by left|]. right. by eexists. }
  destruct (mutex_manager_handler METHOD_LOCK [id] 24 s) as [s1 r]. cbn [fst snd] in *.
  destruct Hr as [-> | [[] ->]]; cbn.
  - apply IH. by apply Henv.
  - intros [= <- <-]. by apply Ht.
  - apply IH. by apply Henv.
Qed.
