(* ===== verification/UserIpc.v ===== *)
(** * Calls of an isolated guest (securinit/user_ipc.c)

    The trusted side of a guest's call: the descriptor and the buffers it
    names are checked against the guest's region, copied in, and only the
    granted Gate is invoked.

    Memory is a function from addresses to bytes.  [S] is the state behind
    the kernel's invoke, which works on the private buffers and not on guest
    memory. *)

From S2P Require Import Prelude Capnp NetworkRpc.

Definition WRAPPER_IPC_VERSION : Z := 1.
Definition WRAPPER_IPC_MAX_BYTES : Z := 4096.
Definition WRAPPER_GATE_ENDPOINT : Z := 1.
Definition GATE_METHOD_INVOKE : Z := 0.

Definition WRAPPER_IPC_OK : Z := 0.
Definition WRAPPER_IPC_BAD_DESCRIPTOR : Z := -1.
Definition WRAPPER_IPC_BAD_ENDPOINT : Z := -2.
Definition WRAPPER_IPC_BOUNDS : Z := -3.
Definition WRAPPER_IPC_REJECTED : Z := -4.

Definition memory : Type := Z -> Z.

Definition read_bytes (m : memory) (addr : Z) (n : nat) : list Z := map (fun i => m (addr + Z.of_nat i)) (seq 0 n).
Definition write_bytes (addr : Z) (bs : list Z) (m : memory) : memory := fun a =>
  if (addr <=? a) && (a <? addr + Z.of_nat (length bs)) then bs !!? Z.to_nat (a - addr) else m a.

Record wrapper_ipc_call_t := {
  local_endpoint : Z; version : Z; method_id : Z; request_ptr : Z; request_len : Z; response_ptr : Z;
  response_capacity : Z; response_len : Z }.

(** The 56 bytes of a descriptor: seven words, [version] and [method_id] in
    one. *)
Definition call_of_bytes (bs : list Z) : wrapper_ipc_call_t :=
  let w := words_of_bytes 7 bs in
  {| local_endpoint := w !!? 0%nat; version := low32 (w !!? 1%nat); method_id := high32 (w !!? 1%nat);
     request_ptr := w !!? 2%nat; request_len := w !!? 3%nat; response_ptr := w !!? 4%nat;
     response_capacity := w !!? 5%nat; response_len := w !!? 6%nat |}.

Definition bytes_of_call (c : wrapper_ipc_call_t) : list Z :=
  bytes_of_words [local_endpoint c; pair32 (version c) (method_id c); request_ptr c; request_len c; response_ptr c;
                  response_capacity c; response_len c].

Definition within_user (base size addr len : Z) : bool :=
  (base <=? addr) && (len <=? size) && (u64 (addr - base) <=? u64 (size - len)).

Section dispatch.
Context {S : Type} (invoke : byte_invoke S).

(** Memory and kernel after, and the status. *)
Definition wrapper_dispatch_guest_call (user_base user_size granted_gate descriptor_addr : Z) (m : memory) (s : S)
    : memory * S * Z :=
  if negb (within_user user_base user_size descriptor_addr 56) then (m, s, WRAPPER_IPC_BAD_DESCRIPTOR)
  else
    let call := call_of_bytes (read_bytes m descriptor_addr 56) in
    if negb (version call =? WRAPPER_IPC_VERSION) then (m, s, WRAPPER_IPC_BAD_DESCRIPTOR)
    else if negb (local_endpoint call =? WRAPPER_GATE_ENDPOINT) || negb (method_id call =? GATE_METHOD_INVOKE)
    then (m, s, WRAPPER_IPC_BAD_ENDPOINT)
    else if (WRAPPER_IPC_MAX_BYTES <? request_len call) || (WRAPPER_IPC_MAX_BYTES <? response_capacity call) ||
            negb (within_user user_base user_size (request_ptr call) (request_len call)) ||
            negb (within_user user_base user_size (response_ptr call) (response_capacity call))
    then (m, s, WRAPPER_IPC_BOUNDS)
    else
      let request_buffer := read_bytes m (request_ptr call) (Z.to_nat (request_len call)) in
      let '(s, (ok, response)) := invoke granted_gate (method_id call) request_buffer (response_capacity call) s in
      let len := Z.of_nat (length response) in
      if negb ok || (response_capacity call <? len) then (m, s, WRAPPER_IPC_REJECTED)
      else
        let m := write_bytes (response_ptr call) response m in
        let m := write_bytes (descriptor_addr + 48) (word_bytes len) m in
        (m, s, WRAPPER_IPC_OK).
End dispatch.

(** ** The guest's region *)

Section region.
Context (base size : Z).
Hypothesis Hbase : 0 <= base.
Hypothesis Hsize : is_u64 size.
Hypothesis Htop : base + size <= W64.

Definition inside (a : Z) : Prop := base <= a < base + size.

Lemma within_user_inside addr len :
  is_u64 addr -> is_u64 len -> within_user base size addr len = true -> base <= addr /\ addr + len <= base + size.
Proof.
  intros Ha Hl. unfold within_user, is_u64, u64 in *. rewrite !andb_true_iff, !Z.leb_le. intros [[H1 H2] H3].
  rewrite !Z.mod_small in H3 by lia. lia.
Qed.

Lemma read_bytes_agree m m' addr n :
  (forall a, inside a -> m a = m' a) -> base <= addr -> addr + Z.of_nat n <= base + size ->
  read_bytes m addr n = read_bytes m' addr n.
Proof.
  intros Hag H1 H2. unfold read_bytes. apply map_ext_in. intros i Hi. apply in_seq in Hi. apply Hag. unfold inside. lia.
Qed.

Lemma write_bytes_outside addr bs m a :
  base <= addr -> addr + Z.of_nat (length bs) <= base + size -> ~ inside a -> write_bytes addr bs m a = m a.
Proof.
  intros H1 H2 Ha. unfold write_bytes, inside in *.
  destruct (Z.leb_spec addr a); [|done]. destruct (Z.ltb_spec a (addr + Z.of_nat (length bs))); [|done]. lia.
Qed.

Lemma write_bytes_agree addr bs m m' a : m a = m' a -> write_bytes addr bs m a = write_bytes addr bs m' a.
Proof. intros H. unfold write_bytes. by destruct (_ && _). Qed.
End region.

Lemma length_read_bytes m a n : length (read_bytes m a n) = n.
Proof. unfold read_bytes. by rewrite length_map, length_seq. Qed.

Definition bytes_mem (m : memory) : Prop := forall a, is_byte (m a).

Lemma read_bytes_bytes m a n : bytes_mem m -> Forall is_byte (read_bytes m a n).
Proof. intros H. unfold read_bytes. apply Forall_fmap, Forall_true. intros i. apply H. Qed.

(** ** What a guest's call can do *)

Section confinement.
Context {S : Type} (invoke : byte_invoke S) (base size gate : Z).
Hypothesis Hbase : 0 <= base.
Hypothesis Hsize : is_u64 size.
Hypothesis Htop : base + size <= W64.

(** One call of the granted Gate. *)
Definition gate_call (s s' : S) : Prop :=
  exists request cap, Z.of_nat (length request) <= WRAPPER_IPC_MAX_BYTES /\ 0 <= cap <= WRAPPER_IPC_MAX_BYTES /\
    s' = fst (invoke gate GATE_METHOD_INVOKE request cap s).

(** The call a descriptor asks for, when every check passes. *)
Definition call_accepted (descriptor : Z) (m : memory) : bool :=
  within_user base size descriptor 56 &&
  (let c := call_of_bytes (read_bytes m descriptor 56) in
   (version c =? WRAPPER_IPC_VERSION) && (local_endpoint c =? WRAPPER_GATE_ENDPOINT) && (method_id c =? GATE_METHOD_INVOKE) &&
   (request_len c <=? WRAPPER_IPC_MAX_BYTES) && (response_capacity c <=? WRAPPER_IPC_MAX_BYTES) &&
   within_user base size (request_ptr c) (request_len c) && within_user base size (response_ptr c) (response_capacity c)).

Lemma dispatch_accepted descriptor m s :
  call_accepted descriptor m = true ->
  let c := call_of_bytes (read_bytes m descriptor 56) in
  wrapper_dispatch_guest_call invoke base size gate descriptor m s =
  (let '(s', (ok, response)) :=
     invoke gate GATE_METHOD_INVOKE (read_bytes m (request_ptr c) (Z.to_nat (request_len c))) (response_capacity c) s in
   if ok && (Z.of_nat (length response) <=? response_capacity c)
   then (write_bytes (descriptor + 48) (word_bytes (Z.of_nat (length response))) (write_bytes (response_ptr c) response m), s', WRAPPER_IPC_OK)
   else (m, s', WRAPPER_IPC_REJECTED)).
Proof.
  unfold call_accepted, wrapper_dispatch_guest_call. set (c := call_of_bytes _).
  rewrite !andb_true_iff. intros (Hd & ((((((Hv & He) & Hm) & Hrl) & Hrc) & Hrq) & Hrp)).
  rewrite Hd, Hv, He, Hrq, Hrp, Hm. apply Z.eqb_eq in Hm. apply Z.leb_le in Hrl, Hrc.
  rewrite !(proj2 (Z.ltb_ge _ _)) by lia. cbn [negb orb]. rewrite Hm.
  destruct (invoke _ _ _ _ _) as [s' [ok response]]. rewrite Z.leb_antisym. by destruct ok, (_ <? _).
Qed.

(** The fields of a descriptor are words. *)
Lemma call_fields m a : bytes_mem m ->
  let c := call_of_bytes (read_bytes m a 56) in
  is_u64 (request_ptr c) /\ is_u64 (request_len c) /\ is_u64 (response_ptr c) /\ is_u64 (response_capacity c).
Proof.
  intros Hm. pose proof (words_of_bytes_u64 7 _ (read_bytes_bytes m a 56 Hm) (length_read_bytes m a 56)) as H.
  pose proof (length_words_of_bytes 7 (read_bytes m a 56)) as Hl. unfold call_of_bytes. cbn [request_ptr request_len response_ptr response_capacity].
  assert (forall i, (i < 7)%nat -> is_u64 (words_of_bytes 7 (read_bytes m a 56) !!? i)) as Hi.
  { intros i Hi. destruct (lookup_lt_is_Some_2 (words_of_bytes 7 (read_bytes m a 56)) i ltac:(lia)) as [x Hx].
    rewrite (nth_lookup_Some_inh _ _ _ Hx). by eapply Forall_lookup_1. }
  split_and!; apply Hi; lia.
Qed.

Lemma accepted_ranges descriptor m :
  is_u64 descriptor -> bytes_mem m -> call_accepted descriptor m = true ->
  let c := call_of_bytes (read_bytes m descriptor 56) in
  (base <= descriptor /\ descriptor + 56 <= base + size) /\
  (base <= request_ptr c /\ 0 <= request_len c <= WRAPPER_IPC_MAX_BYTES /\ request_ptr c + request_len c <= base + size) /\
  (base <= response_ptr c /\ 0 <= response_capacity c <= WRAPPER_IPC_MAX_BYTES /\
   response_ptr c + response_capacity c <= base + size).
Proof.
  intros Hd Hm. unfold call_accepted. set (c := call_of_bytes _). intros Ha.
  destruct (call_fields m descriptor Hm) as (H1 & H2 & H3 & H4). fold c in H1, H2, H3, H4.
  rewrite !andb_true_iff in Ha. destruct Ha as (Hdu & ((((((Hv & He) & Hme) & Hrl) & Hrc) & Hrq) & Hrp)).
  apply Z.leb_le in Hrl, Hrc. apply within_user_inside in Hdu, Hrq, Hrp; try done.
  unfold is_u64 in *. lia.
Qed.
End confinement.

(** Dispatch keeps to the guest's region, and depends on nothing else. *)
Section dispatch_confined.
Context {S : Type} (invoke : byte_invoke S) (base size gate descriptor : Z).
Hypothesis Hbase : 0 <= base.
Hypothesis Hsize : is_u64 size.
Hypothesis Htop : base + size <= W64.
Hypothesis Hd : is_u64 descriptor.

Lemma call_agrees m m2 :
  bytes_mem m -> (forall a, inside base size a -> m2 a = m a) ->
  call_accepted base size descriptor m2 = call_accepted base size descriptor m /\
  (call_accepted base size descriptor m = true ->
   let c := call_of_bytes (read_bytes m descriptor 56) in
   call_of_bytes (read_bytes m2 descriptor 56) = c /\
   read_bytes m2 (request_ptr c) (Z.to_nat (request_len c)) = read_bytes m (request_ptr c) (Z.to_nat (request_len c))).
Proof.
  intros Hm Hag. unfold call_accepted. destruct (within_user base size descriptor 56) eqn:Hw; [|done].
  apply (within_user_inside base size) in Hw as Hr; [|done..].
  rewrite (read_bytes_agree base size m2 m descriptor 56) by (done || lia). split; [done|]. intros Ha. split; [done|].
  assert (call_accepted base size descriptor m = true) as Hac by (unfold call_accepted; by rewrite Hw).
  destruct (accepted_ranges base size Hbase Hsize descriptor m Hd Hm Hac) as (_ & Hq & _).
  apply (read_bytes_agree base size); [done|lia|]. rewrite Z2Nat.id by lia. lia.
Qed.

(** The status of a call that is not made. *)
Definition refusal (m : memory) : Z :=
  if negb (within_user base size descriptor 56) then WRAPPER_IPC_BAD_DESCRIPTOR
  else
    let c := call_of_bytes (read_bytes m descriptor 56) in
    if negb (version c =? WRAPPER_IPC_VERSION) then WRAPPER_IPC_BAD_DESCRIPTOR
    else if negb (local_endpoint c =? WRAPPER_GATE_ENDPOINT) || negb (method_id c =? GATE_METHOD_INVOKE)
    then WRAPPER_IPC_BAD_ENDPOINT
    else WRAPPER_IPC_BOUNDS.

Lemma dispatch_refusal m s :
  call_accepted base size descriptor m = false ->
  wrapper_dispatch_guest_call invoke base size gate descriptor m s = (m, s, refusal m).
Proof.
  unfold wrapper_dispatch_guest_call, refusal, call_accepted.
  destruct (within_user base size descriptor 56); [|done]. cbn [negb andb]. set (c := call_of_bytes _).
  destruct (version c =? _); [|done]. cbn [negb andb]. destruct (local_endpoint c =? _); [|done].
  destruct (method_id c =? _); [|done]. cbn [negb andb orb]. rewrite !Z.leb_antisym.
  destruct (_ <? request_len c); [done|]. destruct (_ <? response_capacity c); [done|].
  destruct (within_user _ _ (request_ptr c) (request_len c)); [|done].
  by destruct (within_user _ _ (response_ptr c) (response_capacity c)).
Qed.

Lemma dispatch_confined m s m' s' status :
  bytes_mem m -> wrapper_dispatch_guest_call invoke base size gate descriptor m s = (m', s', status) ->
  (forall a, ~ inside base size a -> m' a = m a) /\
  ((gate_call invoke gate s s' /\ (status = WRAPPER_IPC_OK \/ status = WRAPPER_IPC_REJECTED)) \/
   (s' = s /\ m' = m /\
    (status = WRAPPER_IPC_BAD_DESCRIPTOR \/ status = WRAPPER_IPC_BAD_ENDPOINT \/ status = WRAPPER_IPC_BOUNDS))).
Proof.
  intros Hm. destruct (call_accepted base size descriptor m) eqn:Ha.
  - rewrite dispatch_accepted by done. destruct (accepted_ranges base size Hbase Hsize descriptor m Hd Hm Ha) as (Hdr & Hq & Hp).
    cbv zeta in *. set (c := call_of_bytes _) in *. clearbody c. destruct (invoke _ _ _ _ s) as [s1 [ok r]] eqn:Hi.
    assert (gate_call invoke gate s s1) as Hg.
    { do 2 eexists. split_and!; [| | |by rewrite Hi]; [rewrite length_read_bytes, Z2Nat.id by lia; lia|lia..]. }
    destruct ok; [destruct (Z.leb_spec (Z.of_nat (length r)) (response_capacity c))|]; cbn [andb]; intros [= <- <- <-];
      (split; [|left; by auto]); [|done|done].
    intros a Hna. rewrite (write_bytes_outside base size) by (rewrite ?length_word_bytes; first [done|lia]).
    apply (write_bytes_outside base size); [lia| |done]. lia.
  - rewrite dispatch_refusal by done. intros [= <- <- <-]. split; [done|]. right. split_and!; [done..|].
    unfold refusal. repeat case_match; auto.
Qed.

Lemma dispatch_agrees m m2 s m' s' status :
  bytes_mem m -> (forall a, inside base size a -> m2 a = m a) ->
  wrapper_dispatch_guest_call invoke base size gate descriptor m s = (m', s', status) ->
  exists m2', wrapper_dispatch_guest_call invoke base size gate descriptor m2 s = (m2', s', status) /\
    forall a, inside base size a -> m2' a = m' a.
Proof.
  intros Hm Hag H. destruct (call_agrees m m2 Hm Hag) as [Eac Ec].
  destruct (call_accepted base size descriptor m) eqn:Ha.
  - destruct (Ec eq_refl) as [E1 E2]. rewrite dispatch_accepted in H |- * by done. rewrite E1, E2.
    destruct (invoke _ _ _ _ s) as [s1 [ok r]]. destruct (ok && _); injection H as <- <- <-; eexists; (split; [reflexivity|]).
    + intros a Hi. by do 2 apply write_bytes_agree; apply Hag.
    + done.
  - rewrite dispatch_refusal in H by done. injection H as <- <- <-. exists m2. split; [|done]. rewrite dispatch_refusal by congruence. f_equal.
    unfold refusal. destruct (within_user base size descriptor 56) eqn:Hw; [|done].
    apply (within_user_inside base size) in Hw; [|done..]. by rewrite (read_bytes_agree base size m2 m descriptor 56) by (done || lia).
Qed.
End dispatch_confined.

(** ** Traps of the guest

    The state of arm_wrapper.c and x86_wrapper.c: what the guest was given,
    and counters.  A frame is the saved registers as an array. *)
Record wrapper := {
  g_user_base : Z; g_user_size : Z; g_forbidden : Z; g_granted_gate : Z; g_resume_pc : Z; g_saved_daif : Z;
  g_denied_access : Z; g_exits : Z; g_ipc_denied : Z; g_ipc_forwarded : Z }.

Definition count (denied exits ipc_denied ipc_forwarded : Z) (g : wrapper) : wrapper :=
  {| g_user_base := g_user_base g; g_user_size := g_user_size g; g_forbidden := g_forbidden g;
     g_granted_gate := g_granted_gate g; g_resume_pc := g_resume_pc g; g_saved_daif := g_saved_daif g;
     g_denied_access := u64 (g_denied_access g + denied); g_exits := u64 (g_exits g + exits);
     g_ipc_denied := u64 (g_ipc_denied g + ipc_denied); g_ipc_forwarded := u64 (g_ipc_forwarded g + ipc_forwarded) |}.

Definition count_call (status : Z) (g : wrapper) : wrapper :=
  if status =? WRAPPER_IPC_OK then count 0 0 0 1 g else count 0 0 1 0 g.

Section traps.
Context {S : Type} (invoke : byte_invoke S).

Record machine := { regs : wrapper; ram : memory; kern : S }.

(** The guest's call named by a register. *)
Definition guest_call (descriptor : Z) (x : machine) : machine * Z :=
  let '(m, s, status) := wrapper_dispatch_guest_call invoke (g_user_base (regs x)) (g_user_size (regs x))
    (g_granted_gate (regs x)) descriptor (ram x) (kern x) in
  ({| regs := count_call status (regs x); ram := m; kern := s |}, status).

Definition set_regs (g : wrapper) (x : machine) : machine := {| regs := g; ram := ram x; kern := kern x |}.

Definition in_guest (pc : Z) (g : wrapper) : bool :=
  negb (pc <? g_user_base g) && (pc <? u64 (g_user_base g + g_user_size g)).

(** [frame[31]] is the guest's pc, [frame[32]] its status register; the
    frame after, and whether the exception was handled. *)
Definition wrapper_el0_sync (frame : list Z) (esr far : Z) (x : machine) : machine * list Z * bool :=
  let g := regs x in
  if negb (Z.land (frame !!? 32%nat) 0xf =? 0) || negb (in_guest (frame !!? 31%nat) g) then (x, frame, false)
  else
    let ec := Z.land (Z.shiftr esr 26) 0x3f in
    let fault := Z.land esr 0x3f in
    if (ec =? 0x24) && (far =? g_forbidden g) && (12 <=? fault) && (fault <=? 15) then
      (set_regs (count 1 0 0 0 g) x, <[2%nat := 0]> (<[31%nat := u64 (frame !!? 31%nat + 4)]> frame), true)
    else if (ec =? 0x15) && (Z.land esr 0xffff =? 0) then
      let '(x, status) := guest_call (frame !!? 0%nat) x in (x, <[0%nat := u64 status]> frame, true)
    else if ec =? 0x3c then
      (set_regs (count 0 1 0 0 g) x,
       <[0%nat := 0]> (<[32%nat := Z.lor 0x5 (Z.land (g_saved_daif g) 0x3c0)]> (<[31%nat := g_resume_pc g]> frame)), true)
    else (x, frame, false).

(** [frame]: RIP, CS, ...; whether the page fault was the expected one. *)
Definition securinit_x86_fault_hook (frame : list Z) (error cr2 : Z) (x : machine) : machine * list Z * bool :=
  let g := regs x in
  if negb (Z.land (frame !!? 1%nat) 3 =? 3) || (Z.land error 4 =? 0) || (Z.land error 1 =? 0) ||
     negb (cr2 =? g_forbidden g) || negb (frame !!? 0%nat =? u64 (g_user_base g + 4096))
  then (x, frame, false)
  else (set_regs (count 1 0 0 0 g) x, <[0%nat := u64 (frame !!? 0%nat + 3)]> frame, true).

(** [frame]: RDI at 8, RAX at 14, RIP at 15, CS at 16; whether the assembly
    goes back to the saved ring-0 stack. *)
Definition securinit_x86_dispatch (frame : list Z) (vector : Z) (x : machine) : machine * list Z * bool :=
  let g := regs x in
  if negb (Z.land (frame !!? 16%nat) 3 =? 3) || negb (in_guest (frame !!? 15%nat) g) then (x, frame, false)
  else if vector =? 3 then (set_regs (count 0 1 0 0 g) x, frame, true)
  else if vector =? 0x80 then
    let '(x, status) := guest_call (frame !!? 8%nat) x in (x, <[14%nat := u64 status]> frame, false)
  else (x, frame, false).

(** ** A guest at large

    Between traps the guest may change its own region in any way. *)
Inductive guest_step : machine -> machine -> Prop :=
| guest_writes x m : bytes_mem m ->
    (forall a, ~ inside (g_user_base (regs x)) (g_user_size (regs x)) a -> m a = ram x a) ->
    guest_step x {| regs := regs x; ram := m; kern := kern x |}
| guest_traps_arm x frame esr far x' frame' r :
    Forall is_u64 frame -> wrapper_el0_sync frame esr far x = (x', frame', r) -> guest_step x x'
| guest_faults_x86 x frame error cr2 x' frame' r :
    securinit_x86_fault_hook frame error cr2 x = (x', frame', r) -> guest_step x x'
| guest_traps_x86 x frame vector x' frame' r :
    Forall is_u64 frame -> securinit_x86_dispatch frame vector x = (x', frame', r) -> guest_step x x'.

Definition region_ok (g : wrapper) : Prop :=
  0 <= g_user_base g /\ is_u64 (g_user_size g) /\ g_user_base g + g_user_size g <= W64.

(** What the guest was given stays as it was. *)
Definition same_grant (g g' : wrapper) : Prop :=
  g_user_base g' = g_user_base g /\ g_user_size g' = g_user_size g /\ g_forbidden g' = g_forbidden g /\
  g_granted_gate g' = g_granted_gate g /\ g_resume_pc g' = g_resume_pc g /\ g_saved_daif g' = g_saved_daif g.

Record confined (x x' : machine) : Prop := {
  cf_grant : same_grant (regs x) (regs x');
  cf_bytes : bytes_mem (ram x) -> bytes_mem (ram x');
  cf_outside : forall a, ~ inside (g_user_base (regs x)) (g_user_size (regs x)) a -> ram x' a = ram x a;
  cf_kernel : rtc (gate_call invoke (g_granted_gate (regs x))) (kern x) (kern x') }.
End traps.
Arguments machine : clear implicits.

Section confinement_of_guests.
Context {S : Type} (invoke : byte_invoke S).
(** The kernel's responses are bytes. *)
Hypothesis Hbytes : forall t m msg cap s, Forall is_byte (snd (snd (invoke t m msg cap s))).
Implicit Types (x : machine S).

Lemma write_bytes_bytes addr bs m : Forall is_byte bs -> bytes_mem m -> bytes_mem (write_bytes addr bs m).
Proof.
  intros Hb Hm a. unfold write_bytes. destruct ((addr <=? a) && (a <? addr + Z.of_nat (length bs))) eqn:E; [|apply Hm].
  apply andb_prop in E as [E1%Z.leb_le E2%Z.ltb_lt].
  destruct (lookup_lt_is_Some_2 bs (Z.to_nat (a - addr)) ltac:(lia)) as [y Hy].
  rewrite (nth_lookup_Some_inh _ _ _ Hy). by eapply Forall_lookup_1.
Qed.

Lemma dispatch_bytes base size gate d m s m' s' status :
  bytes_mem m -> wrapper_dispatch_guest_call invoke base size gate d m s = (m', s', status) -> bytes_mem m'.
Proof.
  intros Hm. destruct (call_accepted base size d m) eqn:Ha.
  - rewrite dispatch_accepted by done. cbv zeta. set (c := call_of_bytes _). clearbody c.
    pose proof (Hbytes gate GATE_METHOD_INVOKE (read_bytes m (request_ptr c) (Z.to_nat (request_len c))) (response_capacity c) s) as Hb.
    destruct (invoke _ _ _ _ s) as [s1 [ok r]]. cbn [snd] in Hb. destruct (ok && _); intros [= <- <- <-]; [|done].
    apply write_bytes_bytes; [apply word_bytes_byte|]. by apply write_bytes_bytes.
  - rewrite dispatch_refusal by done. by intros [= <- <- <-].
Qed.

Lemma same_grant_refl g : same_grant g g.
Proof. done. Qed.

Lemma count_grant a b c d g : same_grant g (count a b c d g).
Proof. done. Qed.

Lemma confined_refl x : confined invoke x x.
Proof. split; [apply same_grant_refl|done|done|apply rtc_refl]. Qed.

Lemma confined_trans x y z : confined invoke x y -> confined invoke y z -> confined invoke x z.
Proof.
  intros [[G1 [G2 [G3 [G4 [G5 G6]]]]] B1 O1 K1] [[G1' [G2' [G3' [G4' [G5' G6']]]]] B2 O2 K2]. split.
  - repeat split; congruence.
  - auto.
  - intros a Ha. rewrite O2; [by apply O1|]. by rewrite G1, G2.
  - rewrite G4 in K2. by etrans.
Qed.

Lemma guest_call_confines d x x' status :
  region_ok (regs x) -> bytes_mem (ram x) -> is_u64 d -> guest_call invoke d x = (x', status) -> confined invoke x x'.
Proof.
  intros (H1 & H2 & H3) Hm Hd. unfold guest_call. destruct (wrapper_dispatch_guest_call _ _ _ _ _ _ _) as [[m s] st] eqn:E.
  intros [= <- <-]. pose proof (dispatch_bytes _ _ _ _ _ _ _ _ _ Hm E) as Hb.
  apply dispatch_confined in E as [Ho Hk]; [|done..]. split; cbn [regs ram kern]; [|done|done|].
  - unfold count_call. case_match; apply count_grant.
  - destruct Hk as [[Hg _]|[-> _]]; [by apply rtc_once|apply rtc_refl].
Qed.

Lemma set_regs_confines g x : same_grant (regs x) g -> confined invoke x (set_regs g x).
Proof. intros Hg. split; [done|done|done|apply rtc_refl]. Qed.

Lemma frame_word frame i : Forall is_u64 frame -> is_u64 (frame !!? i).
Proof. intros Hf. rewrite nth_lookup. destruct (frame !! i) eqn:E; [by eapply Forall_lookup_1|done]. Qed.

Lemma step_confines x x' :
  region_ok (regs x) -> bytes_mem (ram x) -> guest_step invoke x x' -> confined invoke x x'.
Proof.
  intros Hr Hm Hs. destruct Hs as [x m Hb Ho|x frame esr far x' frame' r Hf H|x frame error cr2 x' frame' r H|x frame vector x' frame' r Hf H].
  - split; cbn; [apply same_grant_refl|done|done|apply rtc_refl].
  - unfold wrapper_el0_sync in H. repeat case_match; simplify_eq; try apply confined_refl; try apply set_regs_confines, count_grant.
    eapply guest_call_confines; [done..|by apply frame_word|done].
  - unfold securinit_x86_fault_hook in H. repeat case_match; simplify_eq; [apply confined_refl|apply set_regs_confines, count_grant].
  - unfold securinit_x86_dispatch in H. repeat case_match; simplify_eq; try apply confined_refl; try apply set_regs_confines, count_grant.
    eapply guest_call_confines; [done..|by apply frame_word|done].
Qed.

Lemma run_confines x x' :
  region_ok (regs x) -> bytes_mem (ram x) -> rtc (guest_step invoke) x x' -> confined invoke x x'.
Proof.
  intros Hr Hm Hs. induction Hs as [x|x y z Hs Hrest IH]; [apply confined_refl|].
  pose proof (step_confines _ _ Hr Hm Hs) as Hc. eapply confined_trans; [done|].
  destruct Hc as [(G1 & G2 & _) B _ _]. apply IH; [|by apply B]. unfold region_ok. by rewrite G1, G2.
Qed.
End confinement_of_guests.

(** C18: Whatever an isolated guest does - any writes to its own region and any exceptions with any register contents, on
    either architecture - no byte of memory outside its region changes, the kernel is entered only through calls of
    the one Gate it was granted, with at most 4096 bytes, and the grant itself (region, Gate, resume address) stays
    as the wrapper set it up. *)
Theorem guest_confined {S} (invoke : byte_invoke S) (x x' : machine S) :
  (forall t m msg cap s, Forall is_byte (snd (snd (invoke t m msg cap s)))) ->
  region_ok (regs x) -> bytes_mem (ram x) -> rtc (guest_step invoke) x x' ->
  same_grant (regs x) (regs x') /\
  (forall a, ~ inside (g_user_base (regs x)) (g_user_size (regs x)) a -> ram x' a = ram x a) /\
  rtc (gate_call invoke (g_granted_gate (regs x))) (kern x) (kern x').
Proof. intros Hb Hr Hm Hs. by destruct (run_confines invoke Hb x x' Hr Hm Hs). Qed.

(** A guest at 0x1000 with a request at 0x1100; the kernel counts calls of gate 7. *)
Definition demo_kernel : byte_invoke Z := fun t _ msg _ n => (if t =? 7 then n + 1 else n + 100, (true, [1; 2])).
Definition demo_call : wrapper_ipc_call_t :=
  {| local_endpoint := 1; version := 1; method_id := 0; request_ptr := 0x1100; request_len := 3; response_ptr := 0x1200;
     response_capacity := 8; response_len := 0 |}.
Definition demo_machine : machine Z :=
  {| regs := {| g_user_base := 0x1000; g_user_size := 0x1000; g_forbidden := 0x9000; g_granted_gate := 7; g_resume_pc := 0x500;
                g_saved_daif := 0; g_denied_access := 0; g_exits := 0; g_ipc_denied := 0; g_ipc_forwarded := 0 |};
     ram := write_bytes 0x1040 (bytes_of_call demo_call) (fun _ => 0); kern := 0 |}.
Definition demo_frame : list Z := 0x1040 :: replicate 30 0 ++ [0x1004; 0].
Definition demo_trapped : machine Z := fst (fst (wrapper_el0_sync demo_kernel demo_frame (Z.shiftl 0x15 26) 0 demo_machine)).

Lemma guest_confined_witness :
  (forall a, ~ inside 0x1000 0x1000 a -> ram demo_trapped a = ram demo_machine a) /\ kern demo_trapped = 1 /\
  map (ram demo_trapped) [0x1200; 0x1201; 0x1070] = [1; 2; 2].
Proof.
  split; [|vm_compute; split; reflexivity].
  apply (guest_confined demo_kernel demo_machine demo_trapped).
  - intros. repeat apply Forall_cons_2; try apply Forall_nil_2; vm_compute; split; congruence.
  - split; [vm_compute; congruence|]. split; [split; vm_compute; congruence|vm_compute; congruence].
  - apply write_bytes_bytes; [apply bytes_of_words_byte|]. intros a. split; vm_compute; congruence.
  - apply rtc_once. unfold demo_trapped. destruct (wrapper_el0_sync _ _ _ _ _) as [[x' f'] r] eqn:E.
    eapply guest_traps_arm; [|exact E]. repeat apply Forall_cons_2; try apply Forall_nil_2; split; vm_compute; congruence.
Defined.

(** A call whose descriptor and buffers lie in the guest's region and ask for the Gate is forwarded unchanged, and
    its answer comes back: the Gate sees exactly the request's bytes, the response stands at the response pointer,
    its length in the descriptor, and all other memory is as before; a descriptor with any check failing is refused
    with its status, without a call and without a write; and none of it depends on memory outside the region. *)
Theorem guest_call_forwarded {S} (invoke : byte_invoke S) base size gate d (m : memory) (s : S) :
  0 <= base -> is_u64 size -> base + size <= W64 -> is_u64 d -> bytes_mem m ->
  let c := call_of_bytes (read_bytes m d 56) in
  (if call_accepted base size d m
   then let '(s', (ok, response)) :=
          invoke gate GATE_METHOD_INVOKE (read_bytes m (request_ptr c) (Z.to_nat (request_len c))) (response_capacity c) s in
        exists m', wrapper_dispatch_guest_call invoke base size gate d m s =
          (m', s', if ok && (Z.of_nat (length response) <=? response_capacity c) then WRAPPER_IPC_OK else WRAPPER_IPC_REJECTED) /\
        forall a, m' a =
          if ok && (Z.of_nat (length response) <=? response_capacity c)
          then if (d + 48 <=? a) && (a <? d + 56) then word_bytes (Z.of_nat (length response)) !!? Z.to_nat (a - (d + 48))
               else if (response_ptr c <=? a) && (a <? response_ptr c + Z.of_nat (length response))
                    then response !!? Z.to_nat (a - response_ptr c) else m a
          else m a
   else wrapper_dispatch_guest_call invoke base size gate d m s = (m, s, refusal base size d m)) /\
  (forall m2 m' s' status, (forall a, inside base size a -> m2 a = m a) ->
     wrapper_dispatch_guest_call invoke base size gate d m s = (m', s', status) ->
     exists m2', wrapper_dispatch_guest_call invoke base size gate d m2 s = (m2', s', status) /\
       forall a, inside base size a -> m2' a = m' a).
Proof.
  intros H1 H2 H3 Hd Hm c. split; [|by intros; eapply dispatch_agrees].
  destruct (call_accepted base size d m) eqn:Ha; [|by apply dispatch_refusal].
  rewrite dispatch_accepted by done. fold c. destruct (invoke _ _ _ _ s) as [s1 [ok r]].
  destruct (ok && _); (eexists; split; [reflexivity|]); [|done].
  intros a. unfold write_bytes. rewrite length_word_bytes. by replace (d + 48 + Z.of_nat 8) with (d + 56) by lia.
Qed.

Lemma guest_call_forwarded_witness :
  exists m', wrapper_dispatch_guest_call demo_kernel 0x1000 0x1000 7 0x1040 (ram demo_machine) 0 = (m', 1, WRAPPER_IPC_OK) /\
    m' 0x1201 = 2.
Proof.
  pose proof (guest_call_forwarded demo_kernel 0x1000 0x1000 7 0x1040 (ram demo_machine) 0 ltac:(lia)
    ltac:(split; vm_compute; congruence) ltac:(vm_compute; congruence) ltac:(split; vm_compute; congruence)
    ltac:(apply write_bytes_bytes; [apply bytes_of_words_byte|]; intros a; split; vm_compute; congruence)) as [H _].
  cbv zeta in H. replace (call_accepted 0x1000 0x1000 0x1040 (ram demo_machine)) with true in H by (vm_compute; reflexivity).
  destruct H as (m' & E & Hm). exists m'. split; [exact E|]. rewrite Hm. vm_compute. reflexivity.
Defined.
