(* ===== verification/Securinit.v ===== *)
(** * The security stage (securinit/securinit.c)

    Five objects: Status reports to a sink outside, Gate forwards to Status
    while Admin allows it, WrappedObject runs an isolated guest whose one
    capability is the Gate, WrapperFactory creates it; [securinit_main]
    creates them, tests the policy and hands out the Gate alone.

    The handlers call each other through the kernel, so invoke is recursive;
    [stage_invoke] has a fuel that bounds the depth ([None]: not enough).
    [guest] is the isolation probe of the architecture (arm_wrapper.c,
    x86_wrapper.c): page tables, the ring drop and the guest's assembly; what
    its calls can do is the subject of UserIpc.v. *)

From S2P Require Import Prelude Capnp Kernel.

Definition GATE_METHOD_INVOKE : Z := 0.
Definition GATE_METHOD_GET_STATS : Z := 1.
Definition STATUS_METHOD_REPORT : Z := 0.
Definition ADMIN_METHOD_SET_ALLOWED : Z := 0.
Definition WRAPPER_FACTORY_METHOD_CREATE : Z := 0.
Definition WRAPPED_OBJECT_METHOD_RUN : Z := 0.
Definition SECURINIT_BOOT_MARKER : Z := 0x5345435552494e49.

(** The markers of the architecture. *)
Record markers := { DENIED_MARKER : Z; IPC_MARKER : Z }.
Definition el0_markers : markers := {| DENIED_MARKER := 0x454c3044454e4945; IPC_MARKER := 0x454c304950434d4b |}.
Definition ring3_markers : markers := {| DENIED_MARKER := 0x523344454e494544; IPC_MARKER := 0x52334950434d4b21 |}.

Record stage (K W : Type) := mk_stage {
  kern : K; world : W;
  g_sink : Z; g_status : Z; g_gate : Z; g_wrapped : Z;
  g_router : Z;   (* g_boot.exception_router *)
  g_allowed : Z; g_denied : Z; g_forwarded : Z; g_probe_failures : Z }.
Arguments mk_stage {K W}.
Arguments kern {K W}. Arguments world {K W}. Arguments g_sink {K W}. Arguments g_status {K W}. Arguments g_gate {K W}.
Arguments g_wrapped {K W}. Arguments g_router {K W}. Arguments g_allowed {K W}. Arguments g_denied {K W}.
Arguments g_forwarded {K W}. Arguments g_probe_failures {K W}.

Section securinit.
Context `{Kernel K} {W : Type}.
Implicit Types (st : stage K W).

Definition set_kern (k : K) st := mk_stage k (world st) (g_sink st) (g_status st) (g_gate st) (g_wrapped st) (g_router st)
  (g_allowed st) (g_denied st) (g_forwarded st) (g_probe_failures st).
Definition set_world (w : W) st := mk_stage (kern st) w (g_sink st) (g_status st) (g_gate st) (g_wrapped st) (g_router st)
  (g_allowed st) (g_denied st) (g_forwarded st) (g_probe_failures st).
Definition set_status h st := mk_stage (kern st) (world st) (g_sink st) h (g_gate st) (g_wrapped st) (g_router st)
  (g_allowed st) (g_denied st) (g_forwarded st) (g_probe_failures st).
Definition set_gate h st := mk_stage (kern st) (world st) (g_sink st) (g_status st) h (g_wrapped st) (g_router st)
  (g_allowed st) (g_denied st) (g_forwarded st) (g_probe_failures st).
Definition set_wrapped h st := mk_stage (kern st) (world st) (g_sink st) (g_status st) (g_gate st) h (g_router st)
  (g_allowed st) (g_denied st) (g_forwarded st) (g_probe_failures st).
Definition set_allowed a st := mk_stage (kern st) (world st) (g_sink st) (g_status st) (g_gate st) (g_wrapped st) (g_router st)
  a (g_denied st) (g_forwarded st) (g_probe_failures st).
Definition inc_denied st := mk_stage (kern st) (world st) (g_sink st) (g_status st) (g_gate st) (g_wrapped st) (g_router st)
  (g_allowed st) (u64 (g_denied st + 1)) (g_forwarded st) (g_probe_failures st).
Definition inc_forwarded st := mk_stage (kern st) (world st) (g_sink st) (g_status st) (g_gate st) (g_wrapped st) (g_router st)
  (g_allowed st) (g_denied st) (u64 (g_forwarded st + 1)) (g_probe_failures st).
Definition inc_probe_failures st := mk_stage (kern st) (world st) (g_sink st) (g_status st) (g_gate st) (g_wrapped st) (g_router st)
  (g_allowed st) (g_denied st) (g_forwarded st) (u64 (g_probe_failures st + 1)).

(** Target, method, message, capacity of the response buffer; whether it
    returned nonzero, and the reply. *)
Definition stage_invoke_fn : Type := Z -> Z -> option (list Z) -> Z -> stage K W -> option (stage K W * (bool * option (list Z))).

(** What the objects of other files do to the world, and their replies. *)
Context (outer : objref -> Z -> list Z -> Z -> W -> W * option (list Z)).
(** The isolation probe with the kernel's invoke, the Gate granted and the
    value: whether it was valid, and the forwarded result. *)
Context (guest : stage_invoke_fn -> Z -> Z -> stage K W -> option (stage K W * (bool * Z))).
Context (mk : markers).

Definition create_stage_object (o : nat) st : stage K W * Z :=
  let '(k, h) := k_create (OOther o) (kern st) in (set_kern k st, default 0 h).

Section handlers.
Context (g_invoke : stage_invoke_fn).

Definition status_handler (words : list Z) st : option (stage K W * option (list Z)) :=
  match g_invoke (g_sink st) 0 (Some words) 0 st with
  | None => None
  | Some (st, _) => Some (st, None)
  end.

Definition gate_handler (method_id : Z) (words : list Z) (response_cap : Z) st : option (stage K W * option (list Z)) :=
  if method_id =? GATE_METHOD_GET_STATS then Some (st, reply response_cap [g_denied st; g_forwarded st])
  else
    match (if g_allowed st =? 0 then Some (st, false)
           else
             match g_invoke (g_status st) STATUS_METHOD_REPORT (reply 24 [word words 0]) 0 st with
             | None => None
             | Some (st, (ok, _)) => Some ((if ok : bool then inc_forwarded st else st), ok)
             end) with
    | None => None
    | Some (st, ok) =>
        let st := if ok : bool then st else inc_denied st in
        Some (st, reply response_cap [bool_word ok])
    end.

Definition admin_handler (words : list Z) (response_cap : Z) st : option (stage K W * option (list Z)) :=
  let st := set_allowed (bool_word (negb (word words 0 =? 0))) st in
  Some (st, reply response_cap [1]).

Definition wrapped_handler (words : list Z) (response_cap : Z) st : option (stage K W * option (list Z)) :=
  let value := word words 0 in
  match (if g_router st =? 0 then Some (st, (false, 0)) else guest g_invoke (g_gate st) value st) with
  | None => None
  | Some (st, (false, _)) => Some (inc_probe_failures st, reply response_cap [0])
  | Some (st, (true, forwarded)) =>
      match g_invoke (g_status st) STATUS_METHOD_REPORT (reply 24 [DENIED_MARKER mk]) 0 st with
      | None => None
      | Some (st, (ok, _)) => Some ((if ok : bool then st else inc_probe_failures st), reply response_cap [forwarded])
      end
  end.

Definition wrapper_factory_handler (response_cap : Z) st : option (stage K W * option (list Z)) :=
  let st :=
    if g_wrapped st =? 0 then let '(st, h) := create_stage_object WRAPPED_OBJECT st in set_wrapped h st else st in
  Some (st, reply response_cap [g_wrapped st]).

(** The handler of an object of this file. *)
Definition run_handler (o : nat) (method_id : Z) (words : list Z) (response_cap : Z) st
    : option (option (stage K W * option (list Z))) :=
  if decide (o = STATUS) then Some (status_handler words st)
  else if decide (o = GATE) then Some (gate_handler method_id words response_cap st)
  else if decide (o = ADMIN) then Some (admin_handler words response_cap st)
  else if decide (o = WRAPPED_OBJECT) then Some (wrapped_handler words response_cap st)
  else if decide (o = WRAPPER_FACTORY) then Some (wrapper_factory_handler response_cap st)
  else None.
End handlers.

(** [kernel_invoke], to a depth of [fuel] nested calls. *)
Fixpoint stage_invoke (fuel : nat) : stage_invoke_fn := fun target method_id msg response_cap st =>
  match fuel with
  | O => None
  | S fuel =>
      match msg with
      | None => Some (st, (false, None))
      | Some words =>
          match k_invoke (kern st) target method_id (length words) with
          | None => Some (st, (false, None))
          | Some obj =>
              match (match obj with
                     | OOther o => run_handler (stage_invoke fuel) o method_id words response_cap st
                     | _ => None
                     end) with
              | Some None => None
              | Some (Some (st, a)) => Some (st, (true, a))
              | None => let '(w, a) := outer obj method_id words response_cap (world st) in
                        Some (set_world w st, (true, a))
              end
          end
      end
  end.

(** [!g_invoke(...) || response_len < 24 || response[0] != want] fails. *)
Definition expect (fuel : nat) (target method_id value want : Z) st : option (stage K W * bool) :=
  match stage_invoke fuel target method_id (reply 24 [value]) 24 st with
  | None => None
  | Some (st, (ok, a)) =>
      Some (st, negb (negb ok || (response_len a <? 24) || negb (word (response_words a) 0 =? want)))
  end.

(** A sequence of tests that returns 0 at the first that fails. *)
Fixpoint expect_all (fuel : nat) (l : list (Z * Z * Z * Z)) st : option (stage K W * bool) :=
  match l with
  | [] => Some (st, true)
  | (target, method_id, value, want) :: l =>
      match expect fuel target method_id value want st with
      | None => None
      | Some (st, false) => Some (st, false)
      | Some (st, true) => expect_all fuel l st
      end
  end.

Record securinit_boot_info := { i_status_sink : Z; i_exception_router : Z }.

Definition securinit_main (fuel : nat) (info : securinit_boot_info) st : option (stage K W * Z) :=
  let st := mk_stage (kern st) (world st) (i_status_sink info) (g_status st) (g_gate st) 0 (i_exception_router info) 0 0 0 0 in
  let '(st, status) := create_stage_object STATUS st in
  let st := set_status status st in
  let '(st, gate) := create_stage_object GATE st in
  let '(st, admin) := create_stage_object ADMIN st in
  let '(st, wrapper_factory) := create_stage_object WRAPPER_FACTORY st in
  if (status =? 0) || (gate =? 0) || (admin =? 0) || (wrapper_factory =? 0) then Some (st, 0)
  else
    let st := set_gate gate st in
    match expect_all fuel [(gate, GATE_METHOD_INVOKE, SECURINIT_BOOT_MARKER, 0);
                           (admin, ADMIN_METHOD_SET_ALLOWED, 1, 1);
                           (gate, GATE_METHOD_INVOKE, SECURINIT_BOOT_MARKER, 1)] st with
    | None => None
    | Some (st, false) => Some (st, 0)
    | Some (st, true) =>
        if i_exception_router info =? 0 then Some (st, gate)
        else
          match stage_invoke fuel wrapper_factory WRAPPER_FACTORY_METHOD_CREATE (reply 24 [0]) 24 st with
          | None => None
          | Some (st, (ok, a)) =>
              if negb ok || (response_len a <? 24) then Some (st, 0)
              else
                let wrapped := word (response_words a) 0 in
                if wrapped =? 0 then Some (st, 0)
                else
                  match expect_all fuel [(wrapped, WRAPPED_OBJECT_METHOD_RUN, IPC_MARKER mk, 1);
                                         (admin, ADMIN_METHOD_SET_ALLOWED, 0, 1);
                                         (wrapped, WRAPPED_OBJECT_METHOD_RUN, IPC_MARKER mk, 0)] st with
                  | None => None
                  | Some (st, false) => Some (st, 0)
                  | Some (st, true) => Some (st, if g_probe_failures st =? 0 then gate else 0)
                  end
          end
    end.
End securinit.
Arguments stage_invoke_fn : clear implicits.

(** ** Calls through the kernel *)

Section policy.
Context `{KernelLaws K} {W : Type}.
Context (outer : objref -> Z -> list Z -> Z -> W -> W * option (list Z)).
Context (guest : stage_invoke_fn K W -> Z -> Z -> stage K W -> option (stage K W * (bool * Z))).
Context (mk : markers).
Implicit Types (st : stage K W).

#[local] Abbreviation invoke := (stage_invoke outer guest mk).

(** An object of this file answers through its handle. *)
Lemma invoke_object fuel h o m words cap st r :
  names (kern st) h (OOther o) -> other_words o m = Some (length words) ->
  run_handler guest mk (invoke fuel) o m words cap st = Some r ->
  invoke (S fuel) h m (Some words) cap st =
  match r with None => None | Some (st', a) => Some (st', (true, a)) end.
Proof.
  intros [Hn _] Hw Hr. cbn [stage_invoke]. rewrite (Hn m (length words) Hw), Hr. by destruct r as [[]|].
Qed.

(** The sink is an object of another file that takes a report of one word. *)
Definition sink_ok (report : Z -> W -> W) (k : K) (sink : Z) : Prop :=
  exists o, k_invoke k sink 0 1 = Some o /\ (forall i, o = OOther i -> ~ (1 <= i <= 5)%nat) /\
    forall v cap w, fst (outer o 0 [v] cap w) = report v w.

Context (report : Z -> W -> W).

(** The stage is set up: its handles name its objects. *)
Record ready st : Prop := {
  rd_sink : sink_ok report (kern st) (g_sink st);
  rd_status : names (kern st) (g_status st) (OOther STATUS);
  rd_gate : names (kern st) (g_gate st) (OOther GATE) }.

Lemma foreign_handler inv i m words cap st :
  ~ (1 <= i <= 5)%nat -> run_handler guest mk inv i m words cap st = None.
Proof.
  intros Hi. unfold run_handler, STATUS, GATE, ADMIN, WRAPPED_OBJECT, WRAPPER_FACTORY.
  by rewrite !decide_False by lia.
Qed.

Lemma invoke_sink fuel v st : sink_ok report (kern st) (g_sink st) ->
  exists a, invoke (S fuel) (g_sink st) 0 (Some [v]) 0 st = Some (set_world (report v (world st)) st, (true, a)).
Proof.
  intros (o & Hi & Hf & Hr). cbn [stage_invoke length]. rewrite Hi. specialize (Hr v 0 (world st)).
  destruct (outer o 0 [v] 0 (world st)) as [w a] eqn:E. cbn in Hr. subst w. exists a.
  destruct o; try done. by rewrite foreign_handler by (by apply Hf).
Qed.

Lemma invoke_status fuel v cap st : ready st ->
  invoke (S (S fuel)) (g_status st) STATUS_METHOD_REPORT (Some [v]) cap st =
  Some (set_world (report v (world st)) st, (true, None)).
Proof.
  intros Hr. destruct (invoke_sink fuel v st (rd_sink _ Hr)) as [a Hs].
  rewrite (invoke_object (S fuel) _ STATUS STATUS_METHOD_REPORT [v] cap st (Some (set_world (report v (world st)) st, None)) (rd_status _ Hr)); [done..|].
  unfold run_handler. rewrite decide_True by done. unfold status_handler. by rewrite Hs.
Qed.

(** What a call of the Gate does. *)
Definition gate_effect (m v : Z) st : stage K W :=
  if m =? GATE_METHOD_GET_STATS then st
  else if g_allowed st =? 0 then inc_denied st
  else inc_forwarded (set_world (report v (world st)) st).
Definition gate_reply (m : Z) st : list Z :=
  if m =? GATE_METHOD_GET_STATS then [g_denied st; g_forwarded st]
  else [bool_word (negb (g_allowed st =? 0))].

Lemma invoke_gate fuel h m v cap st :
  ready st -> names (kern st) h (OOther GATE) -> m = GATE_METHOD_INVOKE \/ m = GATE_METHOD_GET_STATS ->
  invoke (S (S (S fuel))) h m (Some [v]) cap st = Some (gate_effect m v st, (true, reply cap (gate_reply m st))).
Proof.
  intros Hr Hn Hm.
  rewrite (invoke_object (S (S fuel)) h GATE m [v] cap st (Some (gate_effect m v st, reply cap (gate_reply m st))) Hn).
  - done.
  - by destruct Hm as [-> | ->].
  - unfold run_handler. rewrite decide_False, decide_True by done. unfold gate_handler, gate_effect, gate_reply.
    destruct (m =? GATE_METHOD_GET_STATS); [done|]. destruct (g_allowed st =? 0); [done|]. change (reply 24 [word [v] 0]) with (Some [v]). by rewrite invoke_status.
Qed.

Lemma invoke_admin fuel h v cap st :
  names (kern st) h (OOther ADMIN) ->
  invoke (S fuel) h ADMIN_METHOD_SET_ALLOWED (Some [v]) cap st =
  Some (set_allowed (bool_word (negb (v =? 0))) st, (true, reply cap [1])).
Proof.
  intros Hn. by rewrite (invoke_object fuel h ADMIN ADMIN_METHOD_SET_ALLOWED [v] cap st (Some (set_allowed (bool_word (negb (v =? 0))) st, reply cap [1])) Hn).
Qed.

(** ** Holders of the Gate *)

(** The Gate's holder makes the calls [l]: methods and values. *)
Fixpoint gate_calls (fuel : nat) (l : list (Z * Z)) st : option (stage K W * list (option (list Z))) :=
  match l with
  | [] => Some (st, [])
  | (m, v) :: l =>
      match invoke fuel (g_gate st) m (Some [v]) 32 st with
      | None => None
      | Some (st, (_, a)) =>
          match gate_calls fuel l st with None => None | Some (st, as_) => Some (st, a :: as_) end
      end
  end.

Definition invokes (l : list (Z * Z)) : list Z := snd <$> filter (fun c => fst c = GATE_METHOD_INVOKE) l.

Lemma gate_effect_ready m v st : ready st -> ready (gate_effect m v st).
Proof. intros [H1 H2 H3]. unfold gate_effect. repeat case_match; by split. Qed.

Lemma gate_calls_run fuel l st :
  ready st -> Forall (fun c => fst c = GATE_METHOD_INVOKE \/ fst c = GATE_METHOD_GET_STATS) l ->
  exists st' rs, gate_calls (S (S (S fuel))) l st = Some (st', rs) /\ ready st' /\ kern st' = kern st /\ g_gate st' = g_gate st /\
    g_allowed st' = g_allowed st /\
    (if g_allowed st =? 0
     then world st' = world st /\ g_forwarded st' = g_forwarded st /\
          u64 (g_denied st') = u64 (g_denied st + Z.of_nat (length (invokes l)))
     else world st' = fold_left (fun w v => report v w) (invokes l) (world st) /\ g_denied st' = g_denied st /\
          u64 (g_forwarded st') = u64 (g_forwarded st + Z.of_nat (length (invokes l)))).
Proof.
  revert st. induction l as [|[m v] l IH]; intros st Hr Hl.
  - exists st, []. cbn. rewrite !Z.add_0_r. by destruct (g_allowed st =? 0).
  - apply Forall_cons in Hl as [Hm Hl]. cbn [gate_calls]. rewrite (invoke_gate fuel _ m v 32 st Hr (rd_gate _ Hr) Hm).
    destruct (IH (gate_effect m v st) (gate_effect_ready m v st Hr) Hl) as (st' & rs & E & Hr' & Hk & Hg & Ha & Hrest).
    rewrite E. do 2 eexists. split; [reflexivity|]. split; [done|]. revert Hk Hg Ha Hrest.
    cbn [fst] in Hm. unfold gate_effect. destruct Hm as [-> | ->]; cbn [Z.eqb GATE_METHOD_INVOKE GATE_METHOD_GET_STATS].
    + unfold invokes. rewrite filter_cons_True by done. cbn [length fmap list_fmap snd fold_left].
      destruct (g_allowed st =? 0) eqn:Eal; cbn [inc_denied inc_forwarded set_world kern g_gate g_allowed world g_forwarded g_denied];
        rewrite Eal; intros -> -> -> (-> & -> & ->); split_and!; try done;
        unfold u64; rewrite Zplus_mod_idemp_l; f_equal; lia.
    + unfold invokes. rewrite filter_cons_False by done. done.
Qed.

(** Whoever holds only the Gate cannot change or pass the policy: over any sequence of calls to it, a closed Gate
    forwards nothing - the world outside is untouched and every attempt is counted as denied - and an open Gate
    reports exactly the values it was called with, in order, once each; whether it is open stays as Admin set it. *)
Theorem gate_policy l st : ready st ->
  Forall (fun c => fst c = GATE_METHOD_INVOKE \/ fst c = GATE_METHOD_GET_STATS) l ->
  exists st' rs, gate_calls 3 l st = Some (st', rs) /\ g_allowed st' = g_allowed st /\
    (if g_allowed st =? 0
     then world st' = world st /\ g_forwarded st' = g_forwarded st /\
          u64 (g_denied st') = u64 (g_denied st + Z.of_nat (length (invokes l)))
     else world st' = fold_left (fun w v => report v w) (invokes l) (world st) /\ g_denied st' = g_denied st /\
          u64 (g_forwarded st') = u64 (g_forwarded st + Z.of_nat (length (invokes l)))).
Proof.
  intros Hr Hl. destruct (gate_calls_run 0 l st Hr Hl) as (st' & rs & E & _ & _ & _ & Hp). by exists st', rs.
Qed.

(** ** Bringing the stage up *)

(** The factory has room for [n] more objects. *)
Fixpoint ample (n : nat) (k : K) : Prop :=
  match n with
  | O => True
  | S n => forall o, exists k' h, k_create o k = (k', Some h) /\ h <> 0 /\ ample n k'
  end.

(** What the sink has received, and what else the probe relies on; both stand
    when objects are created, and a report is received last. *)
Context (seen : W -> list Z) (fit : K -> W -> Prop).
Hypothesis Hseen : forall v w, seen (report v w) = seen w ++ [v].
Hypothesis Hfit_create : forall o k k' h w, k_create o k = (k', h) -> fit k w -> fit k' w.
Hypothesis Hfit_report : forall v k w, fit k w -> fit k (report v w).

(** What a probe does to the stage: it calls the Gate with any message, and
    changes the world outside (its memory, the router) without a report. *)
Inductive probe_step st : stage K W -> Prop :=
| ps_gate words cap st' a :
    invoke 3 (g_gate st) GATE_METHOD_INVOKE (Some words) cap st = Some (st', a) -> probe_step st st'
| ps_world w : seen w = seen (world st) -> probe_step st (set_world w st).

(** The probe ends, valid or not, and does nothing else. *)
Definition confined_guest : Prop := forall v st,
  ready st -> fit (kern st) (world st) ->
  exists st' ok f, guest (invoke 3) (g_gate st) v st = Some (st', (ok, f)) /\ rtc probe_step st st' /\
    fit (kern st') (world st').

(** What that leaves of the stage. *)
Record probed st st' : Prop := {
  pb_ready : ready st';
  pb_kern : kern st' = kern st;
  pb_gate : g_gate st' = g_gate st;
  pb_router : g_router st' = g_router st;
  pb_allowed : g_allowed st' = g_allowed st;
  pb_failures : g_probe_failures st' = g_probe_failures st;
  pb_seen : exists l, seen (world st') = seen (world st) ++ l;
  pb_closed : g_allowed st = 0 -> seen (world st') = seen (world st) }.

(** A call of the Gate with any message ends, in no effect or the Gate's. *)
Lemma invoke_gate_any fuel words cap st :
  ready st -> exists st' a, invoke (S (S (S fuel))) (g_gate st) GATE_METHOD_INVOKE (Some words) cap st = Some (st', a) /\
    (st' = st \/ st' = gate_effect GATE_METHOD_INVOKE (word words 0) st).
Proof.
  intros Hr. pose proof (invoke_status fuel (word words 0) 0 st Hr) as Hs.
  remember (S (S fuel)) as n eqn:Hn. clear Hn. cbn [stage_invoke].
  destruct (k_invoke (kern st) (g_gate st) GATE_METHOD_INVOKE (length words)) as [o|] eqn:Hk; [|by eauto].
  assert (o = OOther GATE) as -> by (by eapply (proj2 (rd_gate _ Hr))).
  unfold run_handler. rewrite decide_False, decide_True by done. unfold gate_handler, gate_effect.
  cbn [Z.eqb GATE_METHOD_INVOKE GATE_METHOD_GET_STATS]. destruct (g_allowed st =? 0); [by eauto|].
  change (reply 24 [word words 0]) with (Some [word words 0]). rewrite Hs. eauto.
Qed.

Lemma probe_step_probed st st' : ready st -> probe_step st st' -> probed st st'.
Proof.
  intros Hr [words cap st1 a E|w E].
  - destruct (invoke_gate_any 0 words cap st Hr) as (st2 & a2 & E2 & Hcase).
    rewrite E2 in E. injection E as -> _. destruct Hcase as [-> | ->].
    + split; try done. exists []. by rewrite app_nil_r.
    + pose proof (gate_effect_ready GATE_METHOD_INVOKE (word words 0) st Hr) as Hr'. unfold gate_effect in *.
      cbn [Z.eqb GATE_METHOD_INVOKE GATE_METHOD_GET_STATS] in *. destruct (Z.eqb_spec (g_allowed st) 0).
      * split; try done. exists []. by rewrite app_nil_r.
      * split; try done. exists [word words 0]. apply Hseen.
  - split; try done; [by destruct Hr; split|]. exists []. by rewrite app_nil_r.
Qed.

Lemma probe_steps_probed st st' : ready st -> rtc probe_step st st' -> probed st st'.
Proof.
  intros Hr Hs. revert Hr. induction Hs as [st|st st1 st2 Hst _ IH]; intros Hr.
  - split; try done. exists []. by rewrite app_nil_r.
  - destruct (probe_step_probed st st1 Hr Hst) as [H1 H2 H3 H4 H5 H6 [l1 H7] H8].
    destruct (IH H1) as [K1 K2 K3 K4 K5 K6 [l2 K7] K8]. split; try congruence.
    + exists (l1 ++ l2). by rewrite K7, H7, app_assoc.
    + intros Hz. rewrite K8, H8; congruence.
Qed.

(** [k'] still knows the objects of this file and the sinks [k] knew. *)
Definition knows (k k' : K) : Prop :=
  (forall h o, (1 <= o <= 5)%nat -> names k h (OOther o) -> names k' h (OOther o)) /\
  (forall s, sink_ok report k s -> sink_ok report k' s).

Lemma knows_trans k1 k2 k3 : knows k1 k2 -> knows k2 k3 -> knows k1 k3.
Proof. intros [A1 A2] [B1 B2]. split; auto. Qed.

Lemma create_ok n o st :
  ample (S n) (kern st) ->
  exists k h, create_stage_object o st = (set_kern k st, h) /\ h <> 0 /\ names k h (OOther o) /\ ample n k /\ knows (kern st) k /\
    k_create (OOther o) (kern st) = (k, Some h).
Proof.
  intros Ha. destruct (Ha (OOther o)) as (k & h & E & Hh & Hn). exists k, h. unfold create_stage_object. rewrite E.
  split_and!; [done..| |done| |done]; [by apply (k_create_fresh _ _ _ _ E)|]. split.
  - intros h' o' Ho Hn'. eapply names_create with (m := 0) (n := 1%nat); [done..|]. cbn.
    do 6 (destruct o' as [|o']; [done || lia|]). lia.
  - intros s (so & Hi & Hrest). exists so. split; [|done]. destruct (k_create_others _ _ _ _ E) as [_ ->]; [done|].
    left. intros [= ->]. apply (k_create_fresh _ _ _ _ E) in Hh as (_ & Hf & _). apply Hf. by eapply k_invoke_issued.
Qed.

Lemma expect_ok fuel target m v want st st' :
  invoke fuel target m (Some [v]) 24 st = Some (st', (true, Some [want])) ->
  expect outer guest mk fuel target m v want st = Some (st', true).
Proof. intros E. unfold expect. change (reply 24 [v]) with (Some [v]). rewrite E. cbn. by rewrite Z.eqb_refl. Qed.

(** The reply of a run, and the stage after it: a valid probe is reported, an
    invalid one counted. *)
Definition run_reply (ok : bool) (f : Z) : Z := if ok then f else 0.
Definition run_after (ok : bool) st : stage K W :=
  if ok then set_world (report (DENIED_MARKER mk) (world st)) st else inc_probe_failures st.

Lemma invoke_wrapped h v st st1 ok f :
  ready st -> names (kern st) h (OOther WRAPPED_OBJECT) -> g_router st <> 0 ->
  guest (invoke 3) (g_gate st) v st = Some (st1, (ok, f)) -> ready st1 ->
  invoke 4 h WRAPPED_OBJECT_METHOD_RUN (Some [v]) 24 st = Some (run_after ok st1, (true, Some [run_reply ok f])).
Proof.
  intros Hr Hn Hro Hg Hr1.
  rewrite (invoke_object 3 h WRAPPED_OBJECT WRAPPED_OBJECT_METHOD_RUN [v] 24 st
    (Some (run_after ok st1, Some [run_reply ok f])) Hn); [done..|].
  unfold run_handler. rewrite decide_False, decide_False, decide_False, decide_True by done. unfold wrapped_handler.
  rewrite (proj2 (Z.eqb_neq _ _) Hro). change (word [v] 0) with v. rewrite Hg. destruct ok; [|done].
  change (reply 24 [DENIED_MARKER mk]) with (Some [DENIED_MARKER mk]). by rewrite invoke_status.
Qed.

Lemma expect_gate fuel v st :
  ready st -> expect outer guest mk (S (S (S fuel))) (g_gate st) GATE_METHOD_INVOKE v (bool_word (negb (g_allowed st =? 0))) st =
  Some (gate_effect GATE_METHOD_INVOKE v st, true).
Proof.
  intros Hr. apply expect_ok. rewrite (invoke_gate fuel _ GATE_METHOD_INVOKE v 24 st Hr (rd_gate _ Hr)) by (by left). done.
Qed.

Lemma expect_admin fuel h v st :
  names (kern st) h (OOther ADMIN) ->
  expect outer guest mk (S fuel) h ADMIN_METHOD_SET_ALLOWED v 1 st = Some (set_allowed (bool_word (negb (v =? 0))) st, true).
Proof. intros Hn. apply expect_ok. by rewrite invoke_admin. Qed.

Lemma expect_wrapped h v want st st1 ok f :
  ready st -> names (kern st) h (OOther WRAPPED_OBJECT) -> g_router st <> 0 ->
  guest (invoke 3) (g_gate st) v st = Some (st1, (ok, f)) -> ready st1 ->
  expect outer guest mk 4 h WRAPPED_OBJECT_METHOD_RUN v want st = Some (run_after ok st1, run_reply ok f =? want).
Proof.
  intros Hr Hn Hro Hg Hr1. unfold expect. change (reply 24 [v]) with (Some [v]). rewrite (invoke_wrapped h v st st1 ok f) by done.
  cbn [negb orb response_words default option_map]. change (response_len (Some [run_reply ok f]) <? 24) with false. cbn. by destruct (run_reply ok f =? want).
Qed.

(** The wrapper factory creates the one wrapped object. *)
Lemma invoke_factory fuel h st n :
  names (kern st) h (OOther WRAPPER_FACTORY) -> g_wrapped st = 0 -> ample (S n) (kern st) ->
  exists k w h', invoke (S fuel) h WRAPPER_FACTORY_METHOD_CREATE (Some [0]) 24 st =
      Some (set_wrapped w (set_kern k st), (true, Some [w])) /\
    w <> 0 /\ names k w (OOther WRAPPED_OBJECT) /\ knows (kern st) k /\ k_create (OOther WRAPPED_OBJECT) (kern st) = (k, h').
Proof.
  intros Hn Hw Ha. destruct (create_ok n WRAPPED_OBJECT st Ha) as (k & w & E & Hw0 & Hnw & _ & Hk & Ek).
  exists k, w, (Some w). split_and!; [|done..].
  rewrite (invoke_object fuel h WRAPPER_FACTORY WRAPPER_FACTORY_METHOD_CREATE [0] 24 st
    (Some (set_wrapped w (set_kern k st), Some [w])) Hn); [done..|].
  unfold run_handler. do 4 rewrite decide_False by done. rewrite decide_True by done. unfold wrapper_factory_handler.
  rewrite Hw. cbn [Z.eqb]. by rewrite E.
Qed.

(** The four objects of the stage. *)
Record created (info : securinit_boot_info) (w0 : W) (admin factory : Z) st : Prop := {
  cr_ready : ready st;
  cr_admin : names (kern st) admin (OOther ADMIN);
  cr_factory : names (kern st) factory (OOther WRAPPER_FACTORY);
  cr_ample : ample 1 (kern st);
  cr_state : g_wrapped st = 0 /\ g_router st = i_exception_router info /\ world st = w0 /\ g_allowed st = 0 /\
    g_denied st = 0 /\ g_forwarded st = 0 /\ g_probe_failures st = 0 }.

(** From there on, [securinit_main] runs to its end. *)
Lemma stage_tests info w0 admin factory st :
  created info w0 admin factory st ->
  exists st', expect_all outer guest mk 4 [(g_gate st, GATE_METHOD_INVOKE, SECURINIT_BOOT_MARKER, 0);
      (admin, ADMIN_METHOD_SET_ALLOWED, 1, 1); (g_gate st, GATE_METHOD_INVOKE, SECURINIT_BOOT_MARKER, 1)] st = Some (st', true) /\
    st' = inc_forwarded (set_world (report SECURINIT_BOOT_MARKER w0) (set_allowed 1 (inc_denied st))).
Proof.
  intros [Hr Ha _ _ (_ & _ & Hw & Hal & _)]. eexists. split; [|reflexivity].
  cbn [expect_all]. pose proof (expect_gate 1 SECURINIT_BOOT_MARKER st Hr) as E1. rewrite Hal in E1. cbn [Z.eqb negb bool_word] in E1.
  rewrite E1. unfold gate_effect. rewrite Hal. cbn [Z.eqb GATE_METHOD_INVOKE GATE_METHOD_GET_STATS].
  rewrite (expect_admin 3 admin 1 (inc_denied st)) by done. cbn [Z.eqb negb bool_word].
  assert (ready (set_allowed 1 (inc_denied st))) as Hr2 by (destruct Hr; by split).
  pose proof (expect_gate 1 SECURINIT_BOOT_MARKER _ Hr2) as E2. cbn [set_allowed g_allowed g_gate inc_denied Z.eqb negb bool_word] in E2.
  rewrite E2. unfold gate_effect. cbn. by rewrite Hw.
Qed.

(** The two runs of the guest: with the Gate open, and after Admin closed it. *)
Definition guest_runs opened st' (passed : bool) : Prop :=
  exists run1 ok1 f1,
    guest (invoke 3) (g_gate opened) (IPC_MARKER mk) opened = Some (run1, (ok1, f1)) /\ probed opened run1 /\
    if run_reply ok1 f1 =? 1 then
      exists closed run2 ok2 f2,
        g_allowed closed = 0 /\ seen (world closed) = seen (world run1) ++ [DENIED_MARKER mk] /\
        guest (invoke 3) (g_gate closed) (IPC_MARKER mk) closed = Some (run2, (ok2, f2)) /\
        seen (world run2) = seen (world closed) /\
        seen (world st') = seen (world run2) ++ (if ok2 then [DENIED_MARKER mk] else []) /\
        g_allowed st' = 0 /\ passed = ok2 && (f2 =? 0)
    else seen (world st') = seen (world run1) ++ (if ok1 then [DENIED_MARKER mk] else []) /\ passed = false.

Lemma run_after_seen ok st : seen (world (run_after ok st)) = seen (world st) ++ (if ok then [DENIED_MARKER mk] else []).
Proof. destruct ok; [apply Hseen|]. cbn. by rewrite app_nil_r. Qed.

Lemma run_after_ready ok st : ready st -> ready (run_after ok st).
Proof. intros []. destruct ok; by split. Qed.

Lemma wrapper_tests admin wrapped st :
  confined_guest -> ready st -> fit (kern st) (world st) ->
  names (kern st) admin (OOther ADMIN) -> names (kern st) wrapped (OOther WRAPPED_OBJECT) ->
  g_router st <> 0 -> g_probe_failures st = 0 ->
  exists st' all, expect_all outer guest mk 4 [(wrapped, WRAPPED_OBJECT_METHOD_RUN, IPC_MARKER mk, 1);
      (admin, ADMIN_METHOD_SET_ALLOWED, 0, 1); (wrapped, WRAPPED_OBJECT_METHOD_RUN, IPC_MARKER mk, 0)] st = Some (st', all) /\
    ready st' /\ g_gate st' = g_gate st /\ guest_runs st st' (all && (g_probe_failures st' =? 0)).
Proof.
  intros Hg Hr Hf Ha Hw Hro Hpf. destruct (Hg (IPC_MARKER mk) st Hr Hf) as (run1 & ok1 & f1 & E1 & S1 & F1).
  pose proof (probe_steps_probed _ _ Hr S1) as P1. cbn [expect_all].
  rewrite (expect_wrapped wrapped (IPC_MARKER mk) 1 st run1 ok1 f1 Hr Hw Hro E1 (pb_ready _ _ P1)).
  pose proof (run_after_ready ok1 run1 (pb_ready _ _ P1)) as Hr1.
  destruct (run_reply ok1 f1 =? 1) eqn:Hpass.
  2: { do 2 eexists. split; [reflexivity|]. split; [done|]. split; [destruct ok1; apply P1|].
       exists run1, ok1, f1. rewrite Hpass. split_and!; [done..|apply run_after_seen|done]. }
  assert (ok1 = true) as -> by (by destruct ok1). set (c0 := run_after true run1) in *.
  assert (kern c0 = kern st) as Hk by apply P1. assert (g_probe_failures c0 = 0) as Hpf1 by (rewrite <- Hpf; apply P1).
  rewrite (expect_admin 3 admin 0 c0) by by rewrite Hk. cbn [Z.eqb negb bool_word]. set (closed := set_allowed 0 c0).
  assert (ready closed) as Hrc by (destruct Hr1; by split).
  destruct (Hg (IPC_MARKER mk) closed Hrc) as (run2 & ok2 & f2 & E2 & S2 & F2); [by apply Hfit_report|].
  pose proof (probe_steps_probed _ _ Hrc S2) as P2.
  assert (g_router closed <> 0) as Hroc.
  { change (g_router closed) with (g_router run1). by rewrite (pb_router _ _ P1). }
  rewrite (expect_wrapped wrapped (IPC_MARKER mk) 0 closed run2 ok2 f2 Hrc ltac:(change (kern closed) with (kern c0); by rewrite Hk) Hroc E2 (pb_ready _ _ P2)).
  exists (run_after ok2 run2), (run_reply ok2 f2 =? 0). split; [by destruct (_ =? 0)|].
  split; [apply run_after_ready, P2|]. split; [destruct ok2; (etrans; [apply P2|apply P1])|].
  exists run1, true, f1. rewrite Hpass. split_and!; [done..|]. exists closed, run2, ok2, f2.
  split; [done|]. split; [apply Hseen|]. split; [done|]. split; [by apply (pb_closed _ _ P2)|]. split; [apply run_after_seen|].
  split; [destruct ok2; apply (pb_allowed _ _ P2)|].
  assert (g_probe_failures run2 = 0) as Hpf2 by (by rewrite (pb_failures _ _ P2)).
  destruct ok2; cbn; rewrite Hpf2; [by rewrite andb_true_r|done].
Qed.

Lemma main_creates info st :
  ample 5 (kern st) -> fit (kern st) (world st) -> sink_ok report (kern st) (i_status_sink info) ->
  exists st' status gate admin factory,
    (let st := mk_stage (kern st) (world st) (i_status_sink info) (g_status st) (g_gate st) 0 (i_exception_router info) 0 0 0 0 in
     let '(st, status) := create_stage_object STATUS st in
     let st := set_status status st in
     let '(st, gate) := create_stage_object GATE st in
     let '(st, admin) := create_stage_object ADMIN st in
     let '(st, wrapper_factory) := create_stage_object WRAPPER_FACTORY st in
     (st, (status, gate, admin, wrapper_factory))) = (st', (status, gate, admin, factory)) /\
    status <> 0 /\ gate <> 0 /\ admin <> 0 /\ factory <> 0 /\ fit (kern st') (world st) /\
    created info (world st) admin factory (set_gate gate st').
Proof.
  intros Ha Hfit Hs. cbv zeta. set (st0 := mk_stage _ _ _ _ _ _ _ _ _ _ _).
  destruct (create_ok 4 STATUS st0 Ha) as (k1 & h1 & E1 & N1 & M1 & A1 & P1 & C1). rewrite E1.
  destruct (create_ok 3 GATE (set_status h1 (set_kern k1 st0)) A1) as (k2 & h2 & E2 & N2 & M2 & A2 & P2 & C2). rewrite E2.
  destruct (create_ok 2 ADMIN (set_kern k2 (set_status h1 (set_kern k1 st0))) A2) as (k3 & h3 & E3 & N3 & M3 & A3 & P3 & C3). rewrite E3.
  destruct (create_ok 1 WRAPPER_FACTORY (set_kern k3 (set_kern k2 (set_status h1 (set_kern k1 st0)))) A3)
    as (k4 & h4 & E4 & N4 & M4 & A4 & P4 & C4). rewrite E4.
  do 5 eexists. split; [reflexivity|]. cbn [kern set_kern set_status] in P1, P2, P3, P4.
  pose proof (knows_trans _ _ _ P3 P4) as P34. pose proof (knows_trans _ _ _ P2 P34) as P24. pose proof (knows_trans _ _ _ P1 P24) as P14.
  split_and!; try done.
  { cbn. eapply Hfit_create; [exact C4|]. eapply Hfit_create; [exact C3|]. eapply Hfit_create; [exact C2|]. by eapply Hfit_create. }
  split; [split|..]; cbn.
  - by apply (proj2 P14).
  - apply (proj1 P24); [unfold STATUS; lia|done].
  - apply (proj1 P34); [unfold GATE; lia|done].
  - apply (proj1 P4); [unfold ADMIN; lia|done].
  - done.
  - done.
  - done.
Qed.

(** How [securinit_main] ends: with the handle of its Gate or 0. *)
Definition stage_outcome info st st' (r : Z) : Prop :=
  if i_exception_router info =? 0
  then r = g_gate st' /\ r <> 0 /\ seen (world st') = seen (world st) ++ [SECURINIT_BOOT_MARKER] /\
       g_allowed st' = 1 /\ g_denied st' = 1 /\ g_forwarded st' = 1
  else exists opened passed,
    g_allowed opened = 1 /\ g_denied opened = 1 /\ g_forwarded opened = 1 /\
    seen (world opened) = seen (world st) ++ [SECURINIT_BOOT_MARKER] /\
    guest_runs opened st' passed /\ g_gate st' <> 0 /\ r = (if passed : bool then g_gate st' else 0).

(** With a factory that has room for its five objects, [securinit_main] ends
    ([stage_outcome]).  Without a router it returns its Gate: the closed Gate
    forwarded nothing, the open one the boot marker.  With one, it returns the
    Gate exactly when the isolation probe, whatever it is, was valid and
    forwarded while the Gate was open, and was valid and did not once Admin
    had closed it; the closed Gate let nothing through in any case. *)
Theorem securinit_main_ends info st :
  confined_guest -> fit (kern st) (world st) -> ample 5 (kern st) -> sink_ok report (kern st) (i_status_sink info) ->
  exists st' r, securinit_main outer guest mk 4 info st = Some (st', r) /\ ready st' /\ stage_outcome info st st' r.
Proof.
  intros Hg Hfit Ha Hs. destruct (main_creates info st Ha Hfit Hs) as (st1 & status & gate & admin & factory & E & N1 & N2 & N3 & N4 & Hfit1 & Hc).
  unfold securinit_main, stage_outcome. cbv zeta in *.
  destruct (create_stage_object STATUS _) as [sa ha]. destruct (create_stage_object GATE _) as [sb hb].
  destruct (create_stage_object ADMIN _) as [sc hc]. destruct (create_stage_object WRAPPER_FACTORY _) as [sd hd].
  injection E as -> -> -> -> ->. rewrite !(proj2 (Z.eqb_neq _ _)) by done. cbn [orb].
  destruct (stage_tests info (world st) admin factory _ Hc) as (st2 & E2 & ->). change (g_gate (set_gate gate st1)) with gate in E2.
  rewrite E2. destruct Hc as [Hr Had Hf Ham (Hw & Hro & Hwo & Hal & Hd & Hfo & Hpf)].
  set (st2 := inc_forwarded _). assert (ready st2) as Hr2 by (destruct Hr; by split).
  assert (g_denied st2 = 1 /\ g_forwarded st2 = 1) as [Hd2 Hfo2] by (cbn in *; by rewrite Hd, Hfo).
  destruct (i_exception_router info =? 0) eqn:Er.
  { exists st2, gate. split; [done|]. split; [done|]. split_and!; [done..|apply Hseen|done|done|done]. }
  apply Z.eqb_neq in Er. change (reply 24 [0]) with (Some [0]).
  destruct (invoke_factory 3 factory st2 0 Hf Hw Ham) as (k & w & h & E3 & Nw & Mw & Pw & Ek). rewrite E3.
  change (response_len (Some [w]) <? 24) with false. cbn [negb orb]. change (word (response_words (Some [w])) 0) with w.
  rewrite (proj2 (Z.eqb_neq _ _) Nw). set (st3 := set_wrapped w (set_kern k st2)).
  assert (ready st3) as Hr3.
  { destruct Hr2. split; cbn; [by apply (proj2 Pw)|apply (proj1 Pw); [unfold STATUS; lia|done]|apply (proj1 Pw); [unfold GATE; lia|done]]. }
  destruct (wrapper_tests admin w st3 Hg Hr3) as (st4 & all & E4 & Hr4 & Hg4 & Hruns).
  - cbn. eapply Hfit_create; [exact Ek|]. by apply Hfit_report.
  - apply (proj1 Pw); [unfold ADMIN; lia|exact Had].
  - exact Mw.
  - cbn in *. congruence.
  - exact Hpf.
  - rewrite E4. change (g_gate st3) with gate in Hg4.
    exists st4, (if all && (g_probe_failures st4 =? 0) then gate else 0). split; [by destruct all|]. split; [done|].
    exists st3, (all && (g_probe_failures st4 =? 0)). split_and!; [done..|apply Hseen|done|congruence|]. by rewrite Hg4.
Qed.
End policy.

(** ** An instance: a sink that keeps its reports, and a guest that makes its call *)

Definition log_outer (o : objref) (m : Z) (ws : list Z) (cap : Z) (w : list Z) : list Z * option (list Z) :=
  match o with OOther 7 => (w ++ ws, None) | _ => (w, None) end.
Definition log_report (v : Z) (w : list Z) : list Z := w ++ [v].

Definition calling_guest {K W} : stage_invoke_fn K W -> Z -> Z -> stage K W -> option (stage K W * (bool * Z)) :=
  fun inv gate v st =>
    match inv gate GATE_METHOD_INVOKE (Some [v]) 24 st with
    | Some (st, (true, Some [f])) => Some (st, (true, f))
    | Some (st, _) => Some (st, (false, 0))
    | None => None
    end.

Lemma calling_guest_confined `{KernelLaws K} :
  confined_guest (K := K) log_outer calling_guest el0_markers log_report id (fun _ _ => True).
Proof.
  intros v st Hr _.
  pose proof (invoke_gate log_outer calling_guest el0_markers log_report 0 (g_gate st) GATE_METHOD_INVOKE v 24 st Hr
    (rd_gate _ _ _ Hr) ltac:(by left)) as E.
  exists (gate_effect log_report GATE_METHOD_INVOKE v st), true, (bool_word (negb (g_allowed st =? 0))).
  split; [unfold calling_guest at 1; by rewrite E|]. split; [|done]. apply rtc_once. eapply ps_gate. exact E.
Qed.

(** A kernel whose object 1 is the sink, and a stage that has not run yet. *)
Definition demo_kernel : counter_kernel := fst (k_create (OOther STATUS_SINK) {| ck_objects := ∅; ck_next := 1 |}).
Definition demo_stage : stage counter_kernel (list Z) := mk_stage demo_kernel [] 0 0 0 0 0 0 0 0 0.
Definition demo_info : securinit_boot_info := {| i_status_sink := 1; i_exception_router := 1 |}.

Lemma counter_ample n k : 0 < ck_next k -> ck_next k + Z.of_nat n < W64 -> ample n k.
Proof.
  revert k. induction n as [|n IH]; intros k H1 H2; [done|]. cbn [ample]. intros o.
  exists {| ck_objects := <[ck_next k := o]> (ck_objects k); ck_next := ck_next k + 1 |}, (ck_next k).
  split; [|split; [lia|apply IH; cbn; lia]]. cbn. by rewrite decide_True by lia.
Qed.

Lemma demo_sink : sink_ok log_outer log_report demo_kernel 1.
Proof.
  exists (OOther STATUS_SINK). split; [vm_compute; reflexivity|]. split; [|done]. intros i [= <-]. unfold STATUS_SINK. lia.
Qed.

(** The stage after [securinit_main]: Gate closed. *)
Definition demo_up : stage counter_kernel (list Z) :=
  match securinit_main log_outer calling_guest el0_markers 4 demo_info demo_stage with Some (st, _) => st | None => demo_stage end.

Lemma demo_up_ready : ready log_outer log_report demo_up.
Proof.
  destruct (securinit_main_ends log_outer calling_guest el0_markers log_report id (fun _ _ => True) (fun _ _ => eq_refl)
    (fun _ _ _ _ _ _ _ => I) (fun _ _ _ _ => I) demo_info demo_stage calling_guest_confined I) as (st' & r & E & Hr & _).
  - apply counter_ample; vm_compute; reflexivity.
  - exact demo_sink.
  - unfold demo_up. by rewrite E.
Qed.

Lemma gate_policy_witness :
  exists st' rs, gate_calls log_outer calling_guest el0_markers 3 [(0, 5); (1, 0); (0, 6)] demo_up = Some (st', rs) /\
    world st' = world demo_up /\ u64 (g_denied st') = u64 (g_denied demo_up + 2).
Proof.
  destruct (gate_policy log_outer calling_guest el0_markers log_report [(0, 5); (1, 0); (0, 6)] demo_up demo_up_ready)
    as (st' & rs & E & _ & Hp).
  - repeat apply Forall_cons_2; try apply Forall_nil_2; vm_compute; auto.
  - replace (g_allowed demo_up =? 0) with true in Hp by (vm_compute; reflexivity).
    destruct Hp as (Hw & _ & Hd). exists st', rs. split; [exact E|]. split; [exact Hw|exact Hd].
Defined.
