(* ===== verification/Bytes.v ===== *)
(** * Bytes of memory

    Memory as a function from addresses to bytes, and little-endian numbers:
    what the stage loader and the readers of firmware tables share. *)

From S2P Require Import Prelude.

Definition memory : Type := Z -> Z.

(** A little-endian number, and the [n] bytes of one. *)
Definition le_of (bs : list Z) : Z := foldr (fun b acc => b + 256 * acc) 0 bs.
Fixpoint le_bytes (n : nat) (x : Z) : list Z :=
  match n with O => [] | S n => x mod 256 :: le_bytes n (x / 256) end.

Lemma le_of_range bs : Forall (fun b => 0 <= b < 256) bs -> 0 <= le_of bs < 256 ^ Z.of_nat (length bs).
Proof.
  induction 1 as [|b bs Hb _ IH]; [by cbn|]. cbn [le_of foldr length]. fold (le_of bs).
  rewrite Nat2Z.inj_succ, Z.pow_succ_r by lia. nia.
Qed.

Lemma length_le_bytes n x : length (le_bytes n x) = n.
Proof. revert x. induction n as [|n IH]; intros x; cbn; [done|]. by rewrite IH. Qed.

Lemma le_bytes_byte n x : Forall (fun b => 0 <= b < 256) (le_bytes n x).
Proof. revert x. induction n as [|n IH]; intros x; cbn; constructor; [by apply Z.mod_pos_bound|apply IH]. Qed.

Lemma le_of_le_bytes n x : 0 <= x < 256 ^ Z.of_nat n -> le_of (le_bytes n x) = x.
Proof.
  revert x. induction n as [|n IH]; intros x Hx; [cbn in *; lia|]. rewrite Nat2Z.inj_succ, Z.pow_succ_r in Hx by lia.
  cbn [le_bytes le_of foldr]. fold (le_of (le_bytes n (x / 256))). rewrite IH.
  - pose proof (Z.div_mod x 256). lia.
  - split; [apply Z.div_pos; lia|apply Z.div_lt_upper_bound; lia].
Qed.

(** ** Reading memory *)

Definition bytes (m : memory) (p : Z) (n : nat) : list Z := map (fun i => m (p + Z.of_nat i)) (seq 0 n).

(** The bytes [l] lie at [p]. *)
Definition holds (m : memory) (p : Z) (l : list Z) : Prop := forall i b, l !! i = Some b -> m (p + Z.of_nat i) = b.

Lemma holds_app m p l l' : holds m p (l ++ l') <-> holds m p l /\ holds m (p + Z.of_nat (length l)) l'.
Proof.
  split.
  - intros H. split; intros i b Hi.
    + apply H. by apply lookup_app_l_Some.
    + rewrite <- Z.add_assoc, <- Nat2Z.inj_add. apply H. rewrite lookup_app_r by lia. rewrite <- Hi. f_equal. lia.
  - intros [H H'] i b Hi. apply lookup_app_Some in Hi as [Hi|[Hl Hi]]; [by apply H|].
    apply H' in Hi. rewrite <- Hi. f_equal. lia.
Qed.

Lemma holds_cons m p b l : holds m p (b :: l) <-> m p = b /\ holds m (p + 1) l.
Proof.
  change (b :: l) with ([b] ++ l). rewrite holds_app. cbn [length]. split; intros [H1 H2]; split; try done.
  - specialize (H1 0%nat b eq_refl). by rewrite Z.add_0_r in H1.
  - intros [|i] c; [|done]. intros [= <-]. by rewrite Z.add_0_r.
Qed.

Lemma holds_bytes m p l : holds m p l -> bytes m p (length l) = l.
Proof.
  revert p. induction l as [|b l IH]; intros p H; [done|]. apply holds_cons in H as [H1 H2]. unfold bytes. cbn [length seq map].
  f_equal; [by rewrite Z.add_0_r|]. transitivity (bytes m (p + 1) (length l)); [|by apply IH]. unfold bytes.
  rewrite <- seq_shift, map_map. apply map_ext. intros i. f_equal. lia.
Qed.

Lemma bytes_agree m m' p n : (forall x, p <= x < p + Z.of_nat n -> m' x = m x) -> bytes m' p n = bytes m p n.
Proof. intros H. unfold bytes. apply map_ext_in. intros i Hi. apply in_seq in Hi. apply H. lia. Qed.

(** ** Writing memory *)

(** The bytes [l] written at [p]. *)
Definition place (p : Z) (l : list Z) (m : memory) : memory :=
  fun x => if (p <=? x) && (x <? p + Z.of_nat (length l)) then nth (Z.to_nat (x - p)) l 0 else m x.

Lemma place_holds p l m : holds (place p l m) p l.
Proof.
  intros i b Hi. unfold place. pose proof (lookup_lt_Some _ _ _ Hi). rewrite (proj2 (Z.leb_le _ _)), (proj2 (Z.ltb_lt _ _)) by lia. cbn [andb].
  replace (Z.to_nat (p + Z.of_nat i - p)) with i by lia. apply nth_lookup_Some. done.
Qed.

Lemma holds_place p l m q l' : holds m q l' -> q + Z.of_nat (length l') <= p \/ p + Z.of_nat (length l) <= q -> holds (place p l m) q l'.
Proof.
  intros H Hd i b Hi. rewrite <- (H i b Hi). pose proof (lookup_lt_Some _ _ _ Hi). unfold place.
  destruct (Z.leb_spec p (q + Z.of_nat i)), (Z.ltb_spec (q + Z.of_nat i) (p + Z.of_nat (length l))); try done; lia.
Qed.

Lemma place_other p l m x : x < p \/ p + Z.of_nat (length l) <= x -> place p l m x = m x.
Proof.
  intros Hx. unfold place. destruct (Z.leb_spec p x); [|done]. destruct (Z.ltb_spec x (p + Z.of_nat (length l))); [lia|done].
Qed.

Lemma holds_same m m' p l : holds m p l -> (forall x, p <= x < p + Z.of_nat (length l) -> m' x = m x) -> holds m' p l.
Proof. intros H E i b Hi. pose proof (lookup_lt_Some _ _ _ Hi). rewrite E by lia. by apply H. Qed.
