(* ===== verification/StageLoader.v ===== *)
(** * The stage loader (coreinit/stage_loader.c)

    Loading a Mach-O image into a region of memory.  The image is a constant
    list of bytes that the region does not overlap; a read outside of it is
    [None].  Memory is a function from addresses to bytes. *)

From S2P Require Import Prelude Bytes.

Definition MH_MAGIC_64 : Z := 0xfeedfacf.
Definition LC_SEGMENT_64 : Z := 0x19.
Definition LC_MAIN : Z := 0x80000028.

(** The two builds. *)
Inductive arch := X86_64 | AARCH64.
Definition CPU_TYPE_NATIVE (a : arch) : Z := match a with AARCH64 => 0x0100000c | X86_64 => 0x01000007 end.

(** ** Reading the image *)

Definition range (image : list Z) (off n : Z) : option (list Z) :=
  if (0 <=? off) && (0 <=? n) && (off + n <=? Z.of_nat (length image))
  then Some (take (Z.to_nat n) (drop (Z.to_nat off) image)) else None.

Definition field (image : list Z) (off n : Z) : option Z := bs ← range image off n; Some (le_of bs).

Record segment_command_64_t := { vmaddr : Z; vmsize : Z; fileoff : Z; filesize : Z; initprot : Z }.

Definition read_segment (image : list Z) (p : Z) : option segment_command_64_t :=
  a ← field image (p + 24) 8; s ← field image (p + 32) 8; o ← field image (p + 40) 8; f ← field image (p + 48) 8;
  i ← field image (p + 60) 4;
  Some {| vmaddr := a; vmsize := s; fileoff := o; filesize := f; initprot := i |}.

Definition PAGEZERO : list Z := [95; 95; 80; 65; 71; 69; 90; 69; 82; 79; 0].

(** [name] is the offset of the 16 bytes. *)
Fixpoint name_is (image : list Z) (name : Z) (expected : list Z) : option bool :=
  match expected with
  | [] => Some true
  | e :: expected => c ← field image name 1; if c =? e then name_is image (name + 1) expected else Some false
  end.
Definition is_pagezero (image : list Z) (name : Z) : option bool := name_is image name PAGEZERO.

(** ** Writing *)

(** The two loops over a segment: the file's bytes, then zeroes. *)
Fixpoint write (dest : Z) (bs : list Z) (m : memory) : memory :=
  match bs with
  | [] => m
  | b :: bs => write (dest + 1) bs (fun x => if x =? dest then b else m x)
  end.

(** ** The load *)

Record loader := {
  mem : memory; entryoff : Z; entry : Z; have_entry : bool; code_start : Z; code_end : Z }.

(** How a command ends: the loop goes on, or the function returns 0. *)
Inductive step := Next (l : loader) | Refuse (m : memory).

Section load.
Context (a : arch) (image : list Z) (target_base reserved_size : Z).
Let image_len := Z.of_nat (length image).

Definition accepts (seg : segment_command_64_t) : bool :=
  negb ((reserved_size <? vmaddr seg) || (reserved_size - vmaddr seg <? vmsize seg) || (vmsize seg <? filesize seg) ||
        (image_len <? fileoff seg) || (image_len - fileoff seg <? filesize seg)).

Definition entry_in (off : Z) (seg : segment_command_64_t) : bool := (fileoff seg <=? off) && (off - fileoff seg <? filesize seg).
Definition entry_at (off : Z) (seg : segment_command_64_t) : Z := u64 (u64 (u64 (target_base + vmaddr seg) + off) - fileoff seg).

(** A segment that is not __PAGEZERO. *)
Definition load_segment (seg : segment_command_64_t) (l : loader) : option step :=
  if negb (accepts seg) then Some (Refuse (mem l))
  else
    let dest := u64 (target_base + vmaddr seg) in
    bs ← range image (fileoff seg) (filesize seg);
    let m := write dest bs (mem l) in
    let m := write (dest + filesize seg) (replicate (Z.to_nat (vmsize seg - filesize seg)) 0) m in
    let exec := match a with AARCH64 => negb (Z.land (initprot seg) 4 =? 0) | X86_64 => false end in
    Some (Next {| mem := m; entryoff := entryoff l;
      entry := if have_entry l && entry_in (entryoff l) seg then entry_at (entryoff l) seg else entry l;
      have_entry := have_entry l;
      code_start := if exec then Z.min (code_start l) dest else code_start l;
      code_end := if exec then Z.max (code_end l) (u64 (dest + filesize seg)) else code_end l |}).

Definition set_main (off : Z) (l : loader) : loader :=
  {| mem := mem l; entryoff := off; entry := entry l; have_entry := true; code_start := code_start l; code_end := code_end l |}.

(** One command at [p]; with it, its size. *)
Definition load_command (p end_ : Z) (l : loader) : option (step * Z) :=
  if end_ - p <? 8 then Some (Refuse (mem l), 0)
  else
    cmd ← field image p 4; cmdsize ← field image (p + 4) 4;
    if (cmdsize <? 8) || (end_ - p <? cmdsize) then Some (Refuse (mem l), 0)
    else if cmd =? LC_SEGMENT_64 then
      if cmdsize <? 72 then Some (Refuse (mem l), 0)
      else
        seg ← read_segment image p; zero ← is_pagezero image (p + 8);
        if zero : bool then Some (Next l, cmdsize)
        else r ← load_segment seg l; Some (r, cmdsize)
    else if cmd =? LC_MAIN then
      if cmdsize <? 24 then Some (Refuse (mem l), 0)
      else off ← field image (p + 8) 8; Some (Next (set_main off l), cmdsize)
    else Some (Next l, cmdsize).

Fixpoint load_commands (n : nat) (p end_ : Z) (l : loader) : option step :=
  match n with
  | O => Some (Next l)
  | S n =>
      r ← load_command p end_ l;
      match r with
      | (Next l, cmdsize) => load_commands n (p + cmdsize) end_ l
      | (Refuse m, _) => Some (Refuse m)
      end
  end.

(** The second pass: the entry, 0 when no segment holds it. *)
Fixpoint resolve_entry (n : nat) (p off : Z) : option Z :=
  match n with
  | O => Some 0
  | S n =>
      cmd ← field image p 4; cmdsize ← field image (p + 4) 4;
      if cmd =? LC_SEGMENT_64 then
        seg ← read_segment image p; zero ← is_pagezero image (p + 8);
        if negb zero && entry_in off seg then Some (entry_at off seg) else resolve_entry n (p + cmdsize) off
      else resolve_entry n (p + cmdsize) off
  end.

Definition UINT64_MAX : Z := W64 - 1.

(** Memory, the entry or 0, and the range of code made executable. *)
Definition stage_load_macho (m : memory) : option (memory * Z * option (Z * Z)) :=
  if image_len <? 32 then Some (m, 0, None)
  else
    magic ← field image 0 4; cputype ← field image 4 4; ncmds ← field image 16 4; sizeofcmds ← field image 20 4;
    if negb (magic =? MH_MAGIC_64) || negb (cputype =? CPU_TYPE_NATIVE a) || (image_len - 32 <? sizeofcmds) then Some (m, 0, None)
    else
      r ← load_commands (Z.to_nat ncmds) 32 (32 + sizeofcmds)
            {| mem := m; entryoff := 0; entry := 0; have_entry := false; code_start := UINT64_MAX; code_end := 0 |};
      match r with
      | Refuse m => Some (m, 0, None)
      | Next l =>
          e ← (if have_entry l && (entry l =? 0) then resolve_entry (Z.to_nat ncmds) 32 (entryoff l) else Some (entry l));
          Some (mem l, e, if negb (e =? 0) && (code_start l <? code_end l) then Some (code_start l, code_end l) else None)
      end.
End load.

(** ** Bytes *)

Lemma range_spec image off n : 0 <= off -> 0 <= n -> off + n <= Z.of_nat (length image) ->
  exists bs, range image off n = Some bs /\ Z.of_nat (length bs) = n /\
    (forall i, 0 <= i < n -> bs !! Z.to_nat i = image !! Z.to_nat (off + i)).
Proof.
  intros H1 H2 H3. unfold range. rewrite !(proj2 (Z.leb_le _ _)) by lia. eexists. split; [reflexivity|]. split.
  - rewrite length_take, length_drop. lia.
  - intros i Hi. rewrite lookup_take_lt, lookup_drop by lia. f_equal. lia.
Qed.

Lemma field_spec image off n : Forall (fun b => 0 <= b < 256) image -> 0 <= off -> 0 <= n -> off + n <= Z.of_nat (length image) ->
  exists x, field image off n = Some x /\ 0 <= x < 256 ^ n.
Proof.
  intros Hb H1 H2 H3. unfold field, range. rewrite !(proj2 (Z.leb_le _ _)) by lia. eexists. split; [reflexivity|].
  set (bs := take _ _). replace n with (Z.of_nat (length bs)) by (unfold bs; rewrite length_take, length_drop; lia).
  apply le_of_range. by apply Forall_take, Forall_drop.
Qed.

Lemma write_outside dest bs m x : x < dest \/ dest + Z.of_nat (length bs) <= x -> write dest bs m x = m x.
Proof.
  revert dest m. induction bs as [|b bs IH]; intros dest m Hx; [done|]. cbn [write]. cbn [length] in Hx.
  rewrite IH by lia. destruct (Z.eqb_spec x dest); [lia|done].
Qed.

Lemma write_inside dest bs m i b : 0 <= i -> bs !! Z.to_nat i = Some b -> write dest bs m (dest + i) = b.
Proof.
  revert dest m i. induction bs as [|b0 bs IH]; intros dest m i Hi Hl; [done|]. cbn [write]. destruct (decide (i = 0)) as [->|Hne].
  - rewrite write_outside by lia. rewrite Z.add_0_r, Z.eqb_refl. by injection Hl.
  - replace (Z.to_nat i) with (S (Z.to_nat (i - 1))) in Hl by lia. replace (dest + i) with (dest + 1 + (i - 1)) by lia.
    apply IH; [lia|done].
Qed.

Lemma name_is_spec image name expected : Forall (fun b => 0 <= b < 256) image -> 0 <= name ->
  name + Z.of_nat (length expected) <= Z.of_nat (length image) -> exists b, name_is image name expected = Some b.
Proof.
  intros Hb. revert name. induction expected as [|e expected IH]; intros name Hn Hl; cbn [name_is length] in *; [by eexists|].
  destruct (field_spec image name 1 Hb) as (c & -> & _); [lia..|]. cbn. destruct (c =? e); [apply IH; lia|by eexists].
Qed.

(** ** Any image *)

Section any.
Context (a : arch) (image : list Z) (target_base reserved_size : Z).
Hypothesis Hbytes : Forall (fun b => 0 <= b < 256) image.
Hypothesis Htarget : 0 <= target_base /\ 0 <= reserved_size /\ target_base + reserved_size < W64.
Let image_len := Z.of_nat (length image).

Definition in_region (x : Z) : Prop := target_base <= x < target_base + reserved_size.
Definition confined (m0 m : memory) : Prop := forall x, ~ in_region x -> m x = m0 x.
Definition entry_ok (e : Z) : Prop := e = 0 \/ in_region e.

Lemma read_segment_spec p : 0 <= p -> p + 72 <= image_len ->
  exists seg, read_segment image p = Some seg /\
    is_u64 (vmaddr seg) /\ is_u64 (vmsize seg) /\ is_u64 (fileoff seg) /\ is_u64 (filesize seg).
Proof.
  intros Hp Hl. unfold image_len in Hl. unfold read_segment.
  destruct (field_spec image (p + 24) 8 Hbytes) as (v1 & -> & H1); [lia..|].
  destruct (field_spec image (p + 32) 8 Hbytes) as (v2 & -> & H2); [lia..|].
  destruct (field_spec image (p + 40) 8 Hbytes) as (v3 & -> & H3); [lia..|].
  destruct (field_spec image (p + 48) 8 Hbytes) as (v4 & -> & H4); [lia..|].
  destruct (field_spec image (p + 60) 4 Hbytes) as (v5 & -> & H5); [lia..|].
  eexists. split; [reflexivity|]. by cbn.
Qed.

Lemma accepts_spec seg : is_u64 (vmaddr seg) -> is_u64 (vmsize seg) -> is_u64 (fileoff seg) -> is_u64 (filesize seg) ->
  accepts image reserved_size seg = true ->
  vmaddr seg + vmsize seg <= reserved_size /\ 0 <= filesize seg <= vmsize seg /\ fileoff seg + filesize seg <= image_len.
Proof.
  intros [H1 _] [H2 _] [H3 _] [H4 _] E. unfold accepts in E. apply negb_true_iff in E.
  repeat (apply orb_false_iff in E as [E ?]). rewrite !Z.ltb_ge in *. unfold image_len. lia.
Qed.

Lemma entry_at_inside seg off : is_u64 (vmaddr seg) -> is_u64 (vmsize seg) -> is_u64 (fileoff seg) -> is_u64 (filesize seg) ->
  accepts image reserved_size seg = true -> entry_in off seg = true ->
  entry_at target_base off seg = target_base + vmaddr seg + (off - fileoff seg) /\ in_region (entry_at target_base off seg).
Proof.
  intros H1 H2 H3 H4 Ha Hi. destruct (accepts_spec seg H1 H2 H3 H4 Ha) as (A1 & A2 & A3).
  apply andb_true_iff in Hi as [Hi1 Hi2]. apply Z.leb_le in Hi1. apply Z.ltb_lt in Hi2.
  assert (entry_at target_base off seg = target_base + vmaddr seg + (off - fileoff seg)) as ->.
  { unfold entry_at, u64. rewrite Zminus_mod_idemp_l, <- Z.add_sub_assoc, Z.add_mod_idemp_l by (by pose proof W64_pos).
    apply Z.mod_small. unfold is_u64 in *. lia. }
  split; [done|]. unfold in_region, is_u64 in *. lia.
Qed.

(** What the first pass has checked of a command: the second reads it again. *)
Inductive checked : nat -> Z -> Prop :=
  | checked_nil p : checked 0 p
  | checked_cons n p cmd cmdsize : 0 <= p -> p + 8 <= image_len -> field image p 4 = Some cmd ->
      field image (p + 4) 4 = Some cmdsize -> 8 <= cmdsize ->
      (cmd = LC_SEGMENT_64 -> p + 72 <= image_len /\
         forall seg, read_segment image p = Some seg -> is_pagezero image (p + 8) = Some false -> accepts image reserved_size seg = true) ->
      checked n (p + cmdsize) -> checked (S n) p.

Record loader_ok (m0 : memory) (l : loader) : Prop := {
  lk_mem : confined m0 (mem l); lk_entry : entry_ok (entry l) }.

Lemma load_segment_ok m0 seg l :
  is_u64 (vmaddr seg) -> is_u64 (vmsize seg) -> is_u64 (fileoff seg) -> is_u64 (filesize seg) -> loader_ok m0 l ->
  exists r, load_segment a image target_base reserved_size seg l = Some r /\
    match r with Next l' => loader_ok m0 l' /\ accepts image reserved_size seg = true | Refuse m => confined m0 m end.
Proof.
  intros H1 H2 H3 H4 [Hm He]. unfold load_segment. destruct (accepts image reserved_size seg) eqn:Ea; cbn [negb].
  2: { eexists. by split. }
  destruct (accepts_spec seg H1 H2 H3 H4 Ea) as (A1 & A2 & A3). unfold image_len in A3.
  destruct (range_spec image (fileoff seg) (filesize seg)) as (bs & -> & Hbs & _); [unfold is_u64 in *; lia..|]. cbn.
  eexists. split; [reflexivity|]. split; [|done]. split; cbn [mem entry].
  - intros x Hx. rewrite u64_small by (unfold is_u64 in *; lia). unfold in_region in Hx.
    rewrite write_outside by (rewrite length_replicate; unfold is_u64 in *; lia). rewrite write_outside by (unfold is_u64 in *; lia).
    by apply Hm.
  - destruct (have_entry l && entry_in (entryoff l) seg) eqn:E; [|done]. apply andb_true_iff in E as [_ E].
    right. by apply (entry_at_inside seg).
Qed.

Lemma load_command_ok m0 p end_ l : 0 <= p -> p <= end_ -> end_ <= image_len -> loader_ok m0 l ->
  exists r cmdsize, load_command a image target_base reserved_size p end_ l = Some (r, cmdsize) /\
    match r with
    | Next l' => loader_ok m0 l' /\ p + cmdsize <= end_ /\ 8 <= cmdsize /\
        forall n, checked n (p + cmdsize) -> checked (S n) p
    | Refuse m => confined m0 m
    end.
Proof.
  intros Hp Hpe He Hl. pose proof (lk_mem _ _ Hl) as Hm. unfold load_command.
  destruct (Z.ltb_spec (end_ - p) 8); [do 2 eexists; by split|].
  destruct (field_spec image p 4 Hbytes) as (cmd & Ec & _); [unfold image_len in *; lia..|].
  destruct (field_spec image (p + 4) 4 Hbytes) as (sz & Es & _); [unfold image_len in *; lia..|]. rewrite Ec, Es. cbn [mbind option_bind].
  destruct (Z.ltb_spec sz 8); cbn [orb]; [do 2 eexists; by split|].
  destruct (Z.ltb_spec (end_ - p) sz); [do 2 eexists; by split|].
  destruct (Z.eqb_spec cmd LC_SEGMENT_64) as [Eseg|Hseg].
  - destruct (Z.ltb_spec sz 72); [do 2 eexists; by split|].
    destruct (read_segment_spec p) as (seg & Er & R1 & R2 & R3 & R4); [lia..|]. rewrite Er. cbn [mbind option_bind].
    destruct (name_is_spec image (p + 8) PAGEZERO Hbytes) as (zero & Ez); [lia|cbn [PAGEZERO length]; unfold image_len in *; lia|].
    unfold is_pagezero at 1. rewrite Ez. cbn [mbind option_bind]. destruct zero.
    + do 2 eexists. split; [reflexivity|]. split_and!; [done|lia|lia|]. intros n Hn. econstructor; eauto; [lia|].
      intros _. split; [lia|]. intros seg' _ Hz. unfold is_pagezero in Hz. congruence.
    + destruct (load_segment_ok m0 seg l R1 R2 R3 R4 Hl) as (r & -> & Hr). cbn [mbind option_bind]. do 2 eexists. split; [reflexivity|].
      destruct r as [l'|m]; [|done]. destruct Hr as [Hr Ha]. split_and!; [done|lia|lia|]. intros n Hn. econstructor; eauto; [lia|].
      intros _. split; [lia|]. intros seg' E _. rewrite Er in E. by injection E as <-.
  - assert (forall n, checked n (p + sz) -> checked (S n) p) as Hchk by (intros n Hn; econstructor; eauto; [lia|done]).
    destruct (Z.eqb_spec cmd LC_MAIN).
    + destruct (Z.ltb_spec sz 24); [do 2 eexists; by split|].
      destruct (field_spec image (p + 8) 8 Hbytes) as (off & -> & _); [unfold image_len in *; lia..|]. cbn.
      do 2 eexists. split; [reflexivity|]. split_and!; [by destruct Hl|lia|lia|done].
    + do 2 eexists. split; [reflexivity|]. split_and!; [done|lia|lia|done].
Qed.

Lemma load_commands_ok m0 n p end_ l : 0 <= p -> p <= end_ -> end_ <= image_len -> loader_ok m0 l ->
  exists r, load_commands a image target_base reserved_size n p end_ l = Some r /\
    match r with Next l' => loader_ok m0 l' /\ checked n p | Refuse m => confined m0 m end.
Proof.
  revert p l. induction n as [|n IH]; intros p l Hp Hpe He Hl; cbn [load_commands].
  - eexists. split; [reflexivity|]. split; [done|constructor].
  - destruct (load_command_ok m0 p end_ l Hp Hpe He Hl) as (r & sz & -> & Hr). cbn [mbind option_bind].
    destruct r as [l'|m]; [|by eexists]. destruct Hr as (Hl' & H1 & H2 & Hc).
    destruct (IH (p + sz) l' ltac:(lia) ltac:(lia) He Hl') as (r' & -> & Hr'). eexists. split; [reflexivity|].
    destruct r' as [l''|m]; [|done]. destruct Hr'. split; auto.
Qed.

Lemma resolve_entry_ok n p off : checked n p -> exists e, resolve_entry image target_base n p off = Some e /\ entry_ok e.
Proof.
  induction 1 as [p|n p cmd sz Hp Hl Ec Es Hsz Hseg _ IH]; cbn [resolve_entry]; [eexists; split; [done|by left]|].
  rewrite Ec, Es. cbn [mbind option_bind]. destruct (Z.eqb_spec cmd LC_SEGMENT_64) as [E|]; [|done].
  destruct (Hseg E) as [Hl72 Hacc]. destruct (read_segment_spec p Hp Hl72) as (seg & Er & R1 & R2 & R3 & R4). rewrite Er. cbn [mbind option_bind].
  destruct (name_is_spec image (p + 8) PAGEZERO Hbytes) as (zero & Ez); [lia|cbn [PAGEZERO length]; unfold image_len in *; lia|].
  unfold is_pagezero at 1. rewrite Ez. cbn [mbind option_bind]. destruct (negb zero && entry_in off seg) eqn:E'; [|done].
  apply andb_true_iff in E' as [Hz Hin]. destruct zero; [done|]. eexists. split; [reflexivity|]. right.
  apply (entry_at_inside seg); auto.
Qed.

(** C38: A stage image can do no harm while it is loaded: whatever its bytes, the loader reads only inside the image, ends,
    writes only inside the region reserved for the stage, and answers 0 or an entry inside that region. *)
Theorem stage_load_confined m :
  exists m' e code, stage_load_macho a image target_base reserved_size m = Some (m', e, code) /\
    (forall x, ~ in_region x -> m' x = m x) /\ (e = 0 \/ in_region e).
Proof.
  assert (forall x : memory, confined x x) as Hrefl by (intros x y; done). unfold stage_load_macho. fold image_len.
  destruct (Z.ltb_spec image_len 32); [do 3 eexists; split; [reflexivity|]; split; [done|by left]|].
  destruct (field_spec image 0 4 Hbytes) as (v1 & -> & _); [unfold image_len in *; lia..|]. cbn [mbind option_bind].
  destruct (field_spec image 4 4 Hbytes) as (v2 & -> & _); [unfold image_len in *; lia..|]. cbn [mbind option_bind].
  destruct (field_spec image 16 4 Hbytes) as (ncmds & -> & _); [unfold image_len in *; lia..|]. cbn [mbind option_bind].
  destruct (field_spec image 20 4 Hbytes) as (sz & -> & Hsz); [unfold image_len in *; lia..|]. cbn [mbind option_bind].
  destruct (negb (v1 =? MH_MAGIC_64) || negb (v2 =? CPU_TYPE_NATIVE a)); cbn [orb];
    [do 3 eexists; split; [reflexivity|]; split; [done|by left]|].
  destruct (Z.ltb_spec (image_len - 32) sz); [do 3 eexists; split; [reflexivity|]; split; [done|by left]|].
  set (l0 := {| mem := m; entryoff := 0; entry := 0; have_entry := false; code_start := UINT64_MAX; code_end := 0 |}).
  destruct (load_commands_ok m (Z.to_nat ncmds) 32 (32 + sz) l0) as (r & -> & Hr); [lia..|split; [done|by left]|]. cbn [mbind option_bind].
  destruct r as [l|m']; [|do 3 eexists; split; [reflexivity|]; split; [done|by left]]. destruct Hr as [[Hm He] Hc].
  destruct (resolve_entry_ok _ _ (entryoff l) Hc) as (e & Ee & He'). destruct (have_entry l && (entry l =? 0)).
  - rewrite Ee. do 3 eexists. split; [reflexivity|]. by split.
  - do 3 eexists. split; [reflexivity|]. by split.
Qed.
End any.

(** ** Images that a linker writes *)

(** A load command; [extra] is the rest of a segment command (its sections). *)
Inductive command :=
  | Segment (name : list Z) (seg : segment_command_64_t) (maxprot : Z) (extra : list Z)
  | Main (off stacksize : Z)
  | Other (cmd : Z) (body : list Z).

Definition with_header (cmd : Z) (body : list Z) : list Z :=
  le_bytes 4 cmd ++ le_bytes 4 (8 + Z.of_nat (length body)) ++ body.

Definition segment_body (name : list Z) (seg : segment_command_64_t) (maxprot : Z) (extra : list Z) : list Z :=
  name ++ le_bytes 8 (vmaddr seg) ++ le_bytes 8 (vmsize seg) ++ le_bytes 8 (fileoff seg) ++ le_bytes 8 (filesize seg) ++
  le_bytes 4 maxprot ++ le_bytes 4 (initprot seg) ++ extra.

Definition encode_command (c : command) : list Z :=
  match c with
  | Segment name seg maxprot extra => with_header LC_SEGMENT_64 (segment_body name seg maxprot extra)
  | Main off stacksize => with_header LC_MAIN (le_bytes 8 off ++ le_bytes 8 stacksize)
  | Other cmd body => with_header cmd body
  end.

Definition macho (a : arch) (cmds : list command) (payload : list Z) : list Z :=
  let body := concat (map encode_command cmds) in
  le_bytes 4 MH_MAGIC_64 ++ le_bytes 4 (CPU_TYPE_NATIVE a) ++ le_bytes 8 0 ++ le_bytes 4 (Z.of_nat (length cmds)) ++
  le_bytes 4 (Z.of_nat (length body)) ++ le_bytes 8 0 ++ body ++ payload.

Definition u32_ok (x : Z) : Prop := 0 <= x < 256 ^ 4.

(** Values that fit their fields. *)
Definition command_wf (c : command) : Prop :=
  Z.of_nat (length (encode_command c)) < 256 ^ 4 /\
  match c with
  | Segment name seg maxprot extra =>
      length name = 16%nat /\ (8 <= length extra)%nat /\ is_u64 (vmaddr seg) /\ is_u64 (vmsize seg) /\ is_u64 (fileoff seg) /\
      is_u64 (filesize seg) /\ u32_ok (initprot seg)
  | Main off _ => is_u64 off
  | Other cmd _ => u32_ok cmd /\ cmd <> LC_SEGMENT_64 /\ cmd <> LC_MAIN
  end.

Definition pagezero_name (name : list Z) : bool := bool_decide (take 11 name = PAGEZERO).

(** *** Decoding *)

Lemma range_skip a r off n : Z.of_nat (length a) <= off -> range (a ++ r) off n = range r (off - Z.of_nat (length a)) n.
Proof.
  intros H. unfold range. rewrite length_app. rewrite drop_app_ge by lia.
  destruct (Z.leb_spec 0 off), (Z.leb_spec 0 (off - Z.of_nat (length a))), (Z.leb_spec 0 n); cbn [andb]; try lia; try done.
  destruct (Z.leb_spec (off + n) (Z.of_nat (length a + length r))), (Z.leb_spec (off - Z.of_nat (length a) + n) (Z.of_nat (length r)));
    try lia; try done. do 3 f_equal. lia.
Qed.

Lemma range_head a r n : Z.of_nat (length a) = n -> range (a ++ r) 0 n = Some a.
Proof.
  intros <-. unfold range. rewrite length_app. rewrite !(proj2 (Z.leb_le _ _)) by lia. cbn [andb Z.to_nat drop].
  rewrite drop_0, Nat2Z.id, take_app_length. done.
Qed.

Lemma range_prefix a r off n : off + n <= Z.of_nat (length a) -> range (a ++ r) off n = range a off n.
Proof.
  intros H. unfold range. rewrite length_app.
  destruct (Z.leb_spec 0 off), (Z.leb_spec 0 n); cbn [andb]; try done.
  rewrite !(proj2 (Z.leb_le _ _)) by lia. f_equal. rewrite drop_app_le, take_app_le by (rewrite ?length_drop; lia). done.
Qed.

Lemma field_skip a r off n : Z.of_nat (length a) <= off -> field (a ++ r) off n = field r (off - Z.of_nat (length a)) n.
Proof. intros H. unfold field. by rewrite range_skip. Qed.

Lemma field_head k x r n : n = Z.of_nat k -> 0 <= x < 256 ^ n -> field (le_bytes k x ++ r) 0 n = Some x.
Proof. intros -> Hx. unfold field. rewrite range_head by (by rewrite length_le_bytes). cbn. by rewrite le_of_le_bytes. Qed.

(** Walk past the fields before the one read. *)
Ltac skip_fields :=
  repeat (rewrite field_skip by (rewrite ?length_le_bytes; lia); rewrite ?length_le_bytes;
          match goal with |- context [field _ ?o _] => let o' := eval cbn in o in change o with o' end);
  apply field_head.

Lemma name_is_eq image off expected : 0 <= off -> off + Z.of_nat (length expected) <= Z.of_nat (length image) ->
  name_is image off expected = Some (bool_decide (take (length expected) (drop (Z.to_nat off) image) = expected)).
Proof.
  revert off. induction expected as [|e expected IH]; intros off H0 Hl; cbn [name_is length] in *; [done|].
  destruct (lookup_lt_is_Some_2 image (Z.to_nat off) ltac:(lia)) as [b Eb].
  rewrite (drop_S _ b) by done. cbn [take].
  assert (field image off 1 = Some b) as ->.
  { unfold field, range. rewrite !(proj2 (Z.leb_le _ _)) by lia. cbn [andb mbind option_bind]. rewrite (drop_S _ b) by done.
    change (Z.to_nat 1) with 1%nat. cbn [take]. rewrite take_0. cbn. f_equal. lia. }
  cbn [mbind option_bind]. destruct (Z.eqb_spec b e) as [->|Hne].
  - rewrite IH by lia. f_equal. replace (Z.to_nat (off + 1)) with (S (Z.to_nat off)) by lia. apply bool_decide_ext. split; congruence.
  - f_equal. symmetry. apply bool_decide_eq_false_2. congruence.
Qed.

Section decode.
Context (a : arch) (image : list Z) (target_base reserved_size : Z).

(** What the loader does for a command. *)
Definition do_command (c : command) (l : loader) : option step :=
  match c with
  | Segment name seg _ _ => if pagezero_name name then Some (Next l) else load_segment a image target_base reserved_size seg l
  | Main off _ => Some (Next (set_main off l))
  | Other _ _ => Some (Next l)
  end.

Lemma field_past pre r k n : 0 <= k -> field (pre ++ r) (Z.of_nat (length pre) + k) n = field r k n.
Proof. intros Hk. rewrite field_skip by lia. f_equal. lia. Qed.

Definition command_id (c : command) : Z := match c with Segment _ _ _ _ => LC_SEGMENT_64 | Main _ _ => LC_MAIN | Other cmd _ => cmd end.

Lemma encode_header c : exists body, encode_command c = with_header (command_id c) body.
Proof. destruct c; by eexists. Qed.

Lemma length_with_header cmd body : Z.of_nat (length (with_header cmd body)) = 8 + Z.of_nat (length body).
Proof. unfold with_header. rewrite !length_app, !length_le_bytes. lia. Qed.

(** The header of a command in its place. *)
Lemma decode_header pre c post : image = pre ++ encode_command c ++ post -> command_wf c ->
  field image (Z.of_nat (length pre)) 4 = Some (command_id c) /\
  field image (Z.of_nat (length pre) + 4) 4 = Some (Z.of_nat (length (encode_command c))).
Proof.
  intros -> [Hlen Hc]. destruct (encode_header c) as [body Eb]. rewrite Eb in *. rewrite length_with_header in *. unfold with_header.
  rewrite <- !app_assoc. split.
  - replace (Z.of_nat (length pre)) with (Z.of_nat (length pre) + 0) by lia. rewrite field_past by lia. skip_fields; [done|].
    destruct c as [| |cmd]; [cbn; unfold LC_SEGMENT_64; lia|cbn; unfold LC_MAIN; lia|]. destruct Hc as (Hc & _). exact Hc.
  - rewrite field_past by lia. skip_fields; [done|lia].
Qed.

Lemma field_body cmd body post k n : 0 <= k -> field (with_header cmd body ++ post) (8 + k) n = field (body ++ post) k n.
Proof.
  intros Hk. unfold with_header. rewrite <- !app_assoc. rewrite !field_skip by (rewrite ?length_le_bytes; lia).
  rewrite !length_le_bytes. f_equal. lia.
Qed.

(** A segment in its place. *)
Lemma decode_segment pre name seg maxprot extra post :
  image = pre ++ encode_command (Segment name seg maxprot extra) ++ post -> command_wf (Segment name seg maxprot extra) ->
  read_segment image (Z.of_nat (length pre)) = Some seg /\
  is_pagezero image (Z.of_nat (length pre) + 8) = Some (pagezero_name name) /\
  72 <= Z.of_nat (length (encode_command (Segment name seg maxprot extra))).
Proof.
  intros Ei (_ & Hn & Hx & H1 & H2 & H3 & H4 & H5). cbn [encode_command] in *. unfold is_u64, u32_ok in *. change W64 with (256 ^ 8) in *.
  set (p := Z.of_nat (length pre)). set (body := segment_body name seg maxprot extra) in *.
  assert (length body = 16 + (40 + length extra))%nat as Hlb.
  { unfold body, segment_body. rewrite !length_app, !length_le_bytes. lia. }
  set (r := le_bytes 8 (vmaddr seg) ++ le_bytes 8 (vmsize seg) ++ le_bytes 8 (fileoff seg) ++ le_bytes 8 (filesize seg) ++
            le_bytes 4 maxprot ++ le_bytes 4 (initprot seg) ++ extra ++ post).
  assert (forall k n, 0 <= k -> field image (p + (24 + k)) n = field r k n) as Hf.
  { intros k n Hk. rewrite Ei. unfold p. rewrite field_past by lia. replace (24 + k) with (8 + (16 + k)) by lia.
    rewrite field_body by lia. unfold body, segment_body. rewrite <- !app_assoc. rewrite field_skip by lia. unfold r. f_equal. lia. }
  split_and!.
  - unfold read_segment. replace (p + 24) with (p + (24 + 0)) by lia. replace (p + 32) with (p + (24 + 8)) by lia.
    replace (p + 40) with (p + (24 + 16)) by lia. replace (p + 48) with (p + (24 + 24)) by lia.
    replace (p + 60) with (p + (24 + 36)) by lia. rewrite !Hf by lia.
    assert (field r 0 8 = Some (vmaddr seg)) as -> by (unfold r; skip_fields; [done|exact H1]).
    assert (field r 8 8 = Some (vmsize seg)) as -> by (unfold r; skip_fields; [done|exact H2]).
    assert (field r 16 8 = Some (fileoff seg)) as -> by (unfold r; skip_fields; [done|exact H3]).
    assert (field r 24 8 = Some (filesize seg)) as -> by (unfold r; skip_fields; [done|exact H4]).
    assert (field r 36 4 = Some (initprot seg)) as -> by (unfold r; skip_fields; [done|exact H5]).
    cbn. by destruct seg.
  - unfold is_pagezero. rewrite name_is_eq; [|lia|].
    2: { rewrite Ei, length_app, length_app. change (length PAGEZERO) with 11%nat. unfold p.
      pose proof (length_with_header LC_SEGMENT_64 body). lia. }
    f_equal. unfold pagezero_name. change (length PAGEZERO) with 11%nat. apply bool_decide_ext.
    assert (drop (Z.to_nat (p + 8)) image = name ++ r) as ->.
    { rewrite Ei. unfold with_header, body, segment_body, r. rewrite <- !app_assoc. rewrite drop_app_ge by (unfold p; lia).
      rewrite drop_app_ge, drop_app_ge by (rewrite ?length_le_bytes; unfold p; lia). rewrite !length_le_bytes.
      replace (Z.to_nat (p + 8) - length pre - 4 - 4)%nat with 0%nat by (unfold p; lia). apply drop_0. }
    by rewrite take_app_le by lia.
  - rewrite length_with_header. lia.
Qed.

Lemma load_command_decode pre c post end_ l :
  image = pre ++ encode_command c ++ post -> command_wf c ->
  Z.of_nat (length pre) + Z.of_nat (length (encode_command c)) <= end_ ->
  load_command a image target_base reserved_size (Z.of_nat (length pre)) end_ l =
  (r ← do_command c l; Some (r, Z.of_nat (length (encode_command c)))).
Proof.
  intros Ei Hwf He. destruct (decode_header pre c post Ei Hwf) as [E1 E2]. unfold load_command. rewrite E1, E2. cbn [mbind option_bind].
  assert (8 <= Z.of_nat (length (encode_command c))) as H8 by (destruct (encode_header c) as [b ->]; rewrite length_with_header; lia).
  rewrite !(proj2 (Z.ltb_ge _ _)) by lia. cbn [orb]. destruct c as [name seg maxprot extra|off st|cmd body]; cbn [command_id].
  - destruct (decode_segment pre name seg maxprot extra post Ei Hwf) as (-> & -> & H72). rewrite Z.eqb_refl.
    rewrite (proj2 (Z.ltb_ge _ _)) by lia. cbn [mbind option_bind do_command]. by destruct (pagezero_name name).
  - change (LC_MAIN =? LC_SEGMENT_64) with false. rewrite Z.eqb_refl. cbn [do_command mbind option_bind].
    assert (length (encode_command (Main off st)) = 24%nat) as -> by (cbn [encode_command]; unfold with_header; rewrite !length_app, !length_le_bytes; done).
    cbn [Z.ltb Z.of_nat Z.compare Pos.of_succ_nat Pos.succ Pos.compare Pos.compare_cont].
    assert (field image (Z.of_nat (length pre) + 8) 8 = Some off) as ->; [|done].
    rewrite Ei, field_past by lia. cbn [encode_command]. replace 8 with (8 + 0) at 1 by lia. rewrite field_body by lia. rewrite <- app_assoc.
    skip_fields; [done|]. destruct Hwf as [_ Hoff]. exact Hoff.
  - destruct Hwf as (_ & _ & N1 & N2). rewrite (proj2 (Z.eqb_neq _ _) N1), (proj2 (Z.eqb_neq _ _) N2). done.
Qed.

(** The first pass over commands in their places. *)
Fixpoint do_commands (cmds : list command) (l : loader) : option step :=
  match cmds with
  | [] => Some (Next l)
  | c :: cmds => r ← do_command c l; match r with Next l => do_commands cmds l | Refuse m => Some (Refuse m) end
  end.

Lemma load_commands_decode cmds pre post end_ l :
  image = pre ++ concat (map encode_command cmds) ++ post -> Forall command_wf cmds ->
  Z.of_nat (length pre) + Z.of_nat (length (concat (map encode_command cmds))) <= end_ ->
  load_commands a image target_base reserved_size (length cmds) (Z.of_nat (length pre)) end_ l = do_commands cmds l.
Proof.
  revert pre l. induction cmds as [|c cmds IH]; intros pre l Ei Hwf He; [done|]. cbn [length load_commands do_commands map concat] in *.
  apply Forall_cons_1 in Hwf as [Hc Hwf]. rewrite length_app in He. rewrite <- app_assoc in Ei.
  rewrite (load_command_decode pre c _ end_ l Ei Hc) by lia. destruct (do_command c l) as [[l'|m]|]; cbn [mbind option_bind]; [|done..].
  replace (Z.of_nat (length pre) + Z.of_nat (length (encode_command c))) with (Z.of_nat (length (pre ++ encode_command c))) by (rewrite length_app; lia).
  apply IH; [by rewrite Ei, <- app_assoc|done|rewrite length_app; lia].
Qed.

(** The second pass. *)
Fixpoint find_entry (cmds : list command) (off : Z) : Z :=
  match cmds with
  | [] => 0
  | Segment name seg _ _ :: cmds =>
      if negb (pagezero_name name) && entry_in off seg then entry_at target_base off seg else find_entry cmds off
  | _ :: cmds => find_entry cmds off
  end.

Lemma resolve_entry_decode cmds pre post off :
  image = pre ++ concat (map encode_command cmds) ++ post -> Forall command_wf cmds ->
  resolve_entry image target_base (length cmds) (Z.of_nat (length pre)) off = Some (find_entry cmds off).
Proof.
  revert pre. induction cmds as [|c cmds IH]; intros pre Ei Hwf; [done|]. cbn [length resolve_entry find_entry map concat] in *.
  apply Forall_cons_1 in Hwf as [Hc Hwf]. rewrite <- app_assoc in Ei. destruct (decode_header pre c _ Ei Hc) as [-> ->]. cbn [mbind option_bind].
  assert (resolve_entry image target_base (length cmds) (Z.of_nat (length pre) + Z.of_nat (length (encode_command c))) off = Some (find_entry cmds off)) as IH'.
  { replace (Z.of_nat (length pre) + Z.of_nat (length (encode_command c))) with (Z.of_nat (length (pre ++ encode_command c))) by (rewrite length_app; lia).
    apply IH; [by rewrite Ei, <- app_assoc|done]. }
  destruct c as [name seg maxprot extra|moff st|cmd body]; cbn [command_id].
  - rewrite Z.eqb_refl. destruct (decode_segment pre name seg maxprot extra _ Ei Hc) as (-> & -> & _). cbn [mbind option_bind].
    by destruct (negb (pagezero_name name) && entry_in off seg).
  - change (LC_MAIN =? LC_SEGMENT_64) with false. exact IH'.
  - destruct Hc as (_ & _ & N1 & _). rewrite (proj2 (Z.eqb_neq _ _) N1). exact IH'.
Qed.
End decode.

(** The segments that are loaded. *)
Definition loaded (cmds : list command) : list segment_command_64_t :=
  omap (fun c => match c with Segment name seg _ _ => if pagezero_name name then None else Some seg | _ => None end) cmds.

Definition executable (seg : segment_command_64_t) : bool := negb (Z.land (initprot seg) 4 =? 0).

Definition apart (s s' : segment_command_64_t) : Prop := vmaddr s + vmsize s <= vmaddr s' \/ vmaddr s' + vmsize s' <= vmaddr s.

Section linked.
Context (a : arch) (target_base reserved_size : Z) (image : list Z).
Hypothesis Htarget : 0 < target_base /\ 0 <= reserved_size /\ target_base + reserved_size < W64.

Definition segment_ok (s : segment_command_64_t) : Prop :=
  0 <= vmaddr s /\ vmaddr s + vmsize s <= reserved_size /\ 0 <= filesize s <= vmsize s /\ 0 <= fileoff s /\
  fileoff s + filesize s <= Z.of_nat (length image).

(** What a segment leaves in memory at distance [i] from its start. *)
Definition content (s : segment_command_64_t) (i : Z) : option Z :=
  if i <? filesize s then image !! Z.to_nat (fileoff s + i) else Some 0.

Definition file_bytes (s : segment_command_64_t) : list Z := take (Z.to_nat (filesize s)) (drop (Z.to_nat (fileoff s)) image).
Definition put (s : segment_command_64_t) (m : memory) : memory :=
  write (target_base + vmaddr s + filesize s) (replicate (Z.to_nat (vmsize s - filesize s)) 0)
    (write (target_base + vmaddr s) (file_bytes s) m).

Lemma length_file_bytes s : segment_ok s -> Z.of_nat (length (file_bytes s)) = filesize s.
Proof. intros (_ & _ & H1 & H2 & H3). unfold file_bytes. rewrite length_take, length_drop. lia. Qed.

Lemma put_outside s m x : segment_ok s -> x < target_base + vmaddr s \/ target_base + vmaddr s + vmsize s <= x -> put s m x = m x.
Proof.
  intros Hs Hx. pose proof (length_file_bytes s Hs) as Hl. destruct Hs as (H0 & H1 & H2 & H3 & H4). unfold put.
  rewrite write_outside by (rewrite length_replicate; lia). by rewrite write_outside by lia.
Qed.

Lemma put_inside s m i : segment_ok s -> 0 <= i < vmsize s -> content s i = Some (put s m (target_base + vmaddr s + i)).
Proof.
  intros Hs Hi. pose proof (length_file_bytes s Hs) as Hl. destruct Hs as (H0 & H1 & H2 & H3 & H4). unfold content, put.
  destruct (Z.ltb_spec i (filesize s)).
  - rewrite write_outside by lia. destruct (lookup_lt_is_Some_2 (file_bytes s) (Z.to_nat i) ltac:(lia)) as [b Eb].
    rewrite (write_inside _ _ _ _ b) by (done || lia). rewrite <- Eb. unfold file_bytes. rewrite lookup_take_lt, lookup_drop by lia. f_equal. lia.
  - f_equal. replace (target_base + vmaddr s + i) with (target_base + vmaddr s + filesize s + (i - filesize s)) by lia.
    symmetry. apply write_inside; [lia|]. apply lookup_replicate. lia.
Qed.

Lemma puts_outside segs m x : Forall segment_ok segs ->
  (forall s, s ∈ segs -> x < target_base + vmaddr s \/ target_base + vmaddr s + vmsize s <= x) -> foldl (fun m s => put s m) m segs x = m x.
Proof.
  intros Hok. revert m. induction Hok as [|s segs Hs _ IH]; intros m Hx; [done|]. cbn [foldl].
  rewrite IH by (intros s' Hs'; apply Hx; by right). apply put_outside; [done|]. apply Hx. by left.
Qed.

Lemma puts_inside segs m s i : Forall segment_ok segs -> ForallOrdPairs apart segs -> s ∈ segs -> 0 <= i < vmsize s ->
  content s i = Some (foldl (fun m s => put s m) m segs (target_base + vmaddr s + i)).
Proof.
  intros Hok Hap. revert m. induction Hap as [|s0 segs Hs0 _ IH]; intros m Hin Hi; [by apply elem_of_nil in Hin|].
  apply Forall_cons_1 in Hok as [Hok0 Hok]. cbn [foldl]. apply elem_of_cons in Hin as [->|Hin]; [|by apply IH].
  rewrite puts_outside; [by apply put_inside|done|]. intros s' Hs'. rewrite Forall_forall in Hs0. destruct (Hs0 s' Hs'); lia.
Qed.

(** A command all of whose checks pass. *)
Definition apply_command (c : command) (l : loader) : loader :=
  match c with
  | Segment name s _ _ =>
      if pagezero_name name then l
      else
        let exec := match a with AARCH64 => executable s | X86_64 => false end in
        {| mem := put s (mem l); entryoff := entryoff l;
           entry := if have_entry l && entry_in (entryoff l) s then entry_at target_base (entryoff l) s else entry l;
           have_entry := have_entry l;
           code_start := if exec then Z.min (code_start l) (target_base + vmaddr s) else code_start l;
           code_end := if exec then Z.max (code_end l) (target_base + vmaddr s + filesize s) else code_end l |}
  | Main off _ => set_main off l
  | Other _ _ => l
  end.

Lemma accepts_ok s : segment_ok s -> accepts image reserved_size s = true.
Proof.
  intros (H0 & H1 & H2 & H3 & H4). unfold accepts. rewrite !(proj2 (Z.ltb_ge _ _)) by lia. done.
Qed.

Lemma do_command_ok c l : Forall segment_ok (loaded [c]) -> do_command a image target_base reserved_size c l = Some (Next (apply_command c l)).
Proof.
  intros Hok. destruct c as [name s maxprot extra|off st|cmd body]; [|done..]. cbn [do_command apply_command loaded omap list_omap] in *.
  destruct (pagezero_name name); [done|]. apply Forall_cons_1 in Hok as [Hs _]. pose proof Hs as (H0 & H1 & H2 & H3 & H4).
  unfold load_segment. rewrite (accepts_ok s Hs). cbn [negb]. unfold range. rewrite !(proj2 (Z.leb_le _ _)) by lia. cbn [andb mbind option_bind].
  fold (file_bytes s). rewrite (u64_small (target_base + vmaddr s)) by (unfold is_u64; lia).
  rewrite (u64_small (target_base + vmaddr s + filesize s)) by (unfold is_u64; lia). done.
Qed.

Lemma do_commands_ok cmds l : Forall segment_ok (loaded cmds) ->
  do_commands a image target_base reserved_size cmds l = Some (Next (foldl (fun l c => apply_command c l) l cmds)).
Proof.
  revert l. induction cmds as [|c cmds IH]; intros l Hok; [done|]. cbn [do_commands foldl].
  assert (loaded (c :: cmds) = loaded [c] ++ loaded cmds) as E by (unfold loaded; cbn; by repeat case_match).
  rewrite E in Hok. apply Forall_app in Hok as [H1 H2]. rewrite do_command_ok by done. cbn [mbind option_bind]. by apply IH.
Qed.

Lemma apply_mem cmds l : mem (foldl (fun l c => apply_command c l) l cmds) = foldl (fun m s => put s m) (mem l) (loaded cmds).
Proof.
  revert l. induction cmds as [|c cmds IH]; intros l; [done|]. cbn [foldl]. rewrite IH. unfold loaded. cbn [omap list_omap].
  destruct c as [name s maxprot extra|off st|cmd body]; [|done..]. cbn [apply_command]. by destruct (pagezero_name name).
Qed.

(** The range of code grows over every executable segment. *)
Lemma apply_code cmds l :
  let l' := foldl (fun l c => apply_command c l) l cmds in
  code_start l' <= code_start l /\ code_end l <= code_end l' /\
  (a = AARCH64 -> forall s, s ∈ loaded cmds -> executable s = true ->
     code_start l' <= target_base + vmaddr s /\ target_base + vmaddr s + filesize s <= code_end l').
Proof.
  revert l. induction cmds as [|c cmds IH]; intros l.
  { split_and!; [cbn; lia..|]. intros _ s Hs. by apply elem_of_nil in Hs. }
  cbn [foldl]. destruct (IH (apply_command c l)) as (H1 & H2 & H3).
  assert (code_start (apply_command c l) <= code_start l /\ code_end l <= code_end (apply_command c l)) as [H4 H5].
  { destruct c; cbn [apply_command]; repeat case_match; cbn; lia. }
  split_and!; [lia..|]. intros Ha s Hs He. unfold loaded in Hs. cbn [omap list_omap] in Hs.
  destruct c as [name s0 maxprot extra|off st|cmd body]; [|by apply H3..]. destruct (pagezero_name name) eqn:Ez; [by apply H3|].
  apply elem_of_cons in Hs as [->|Hs]; [|by apply H3]. cbn [apply_command] in *. rewrite Ez, Ha, He in *. cbn in *. lia.
Qed.

Definition no_main (cmds : list command) : Prop := Forall (fun c => match c with Main _ _ => False | _ => True end) cmds.

Lemma apply_no_main cmds l : no_main cmds ->
  let l' := foldl (fun l c => apply_command c l) l cmds in
  have_entry l' = have_entry l /\ entryoff l' = entryoff l /\
  (entry l' = entry l \/ have_entry l = true /\ exists s, s ∈ loaded cmds /\ entry_in (entryoff l) s = true /\ entry l' = entry_at target_base (entryoff l) s).
Proof.
  intros Hn. revert l. induction Hn as [|c cmds Hc _ IH]; intros l; [by cbn; auto|]. cbn [foldl].
  destruct (IH (apply_command c l)) as (E1 & E2 & E3). rewrite E1, E2. unfold loaded in *. cbn [omap list_omap].
  destruct c as [name s0 maxprot extra|off st|cmd body]; [|done|done]. cbn [apply_command] in *.
  destruct (pagezero_name name); [done|]. cbn in E3 |- *. split; [done|]. split; [done|].
  destruct E3 as [E3|(Hh & s & Hs & Hin & E3)].
  - rewrite E3. destruct (have_entry l) eqn:Eh; cbn [andb]; [|by left]. destruct (entry_in (entryoff l) s0) eqn:Ei; [|by left].
    right. split; [done|]. exists s0. split; [by left|done].
  - right. split; [done|]. exists s. split; [by right|done].
Qed.

Lemma find_entry_unique cmds off e : (forall s, s ∈ loaded cmds -> entry_in off s = true -> entry_at target_base off s = e) ->
  (exists s, s ∈ loaded cmds /\ entry_in off s = true) -> find_entry target_base cmds off = e.
Proof.
  induction cmds as [|c cmds IH]; intros Hu (s & Hs & Hin); [by apply elem_of_nil in Hs|]. unfold loaded in *. cbn [omap list_omap find_entry] in *.
  destruct c as [name s0 maxprot extra|o st|cmd body]; [|by apply IH; eauto..]. destruct (pagezero_name name); cbn [negb andb]; [apply IH; eauto|].
  destruct (entry_in off s0) eqn:E0; [apply Hu; [by left|done]|]. apply IH; [intros s' Hs'; apply Hu; by right|].
  apply elem_of_cons in Hs as [->|Hs]; [congruence|by exists s].
Qed.
End linked.

(** Entries of the first pass: that of the segment, or none yet. *)
Lemma apply_entry a target_base image cmds1 cmds2 off st m s :
  no_main cmds1 -> no_main cmds2 -> (forall s', s' ∈ loaded cmds2 -> entry_in off s' = true -> s' = s) ->
  let l := foldl (fun l c => apply_command a target_base image c l)
    {| mem := m; entryoff := 0; entry := 0; have_entry := false; code_start := UINT64_MAX; code_end := 0 |} (cmds1 ++ Main off st :: cmds2) in
  have_entry l = true /\ entryoff l = off /\ (entry l = 0 \/ entry l = entry_at target_base off s).
Proof.
  intros H1 H2 Hu l. unfold l. rewrite foldl_app. cbn [foldl apply_command]. set (l0 := {| mem := m |}).
  destruct (apply_no_main a target_base image cmds1 l0 H1) as (_ & _ & E3). cbn zeta in *.
  set (l1 := foldl _ l0 cmds1) in *. destruct (apply_no_main a target_base image cmds2 (set_main off l1) H2) as (F1 & F2 & F3). cbn zeta in *.
  rewrite F1, F2. cbn in F3 |- *. split; [done|]. split; [done|].
  assert (entry l1 = 0) as E0 by (destruct E3 as [->|[Hh _]]; [done|discriminate Hh]). rewrite E0 in F3.
  destruct F3 as [->|(_ & s' & Hs' & Hin & ->)]; [by left|right]. by rewrite (Hu s' Hs' Hin).
Qed.

(** The header of an image. *)
Lemma macho_header a cmds payload : Z.of_nat (length cmds) < 256 ^ 4 -> Z.of_nat (length (concat (map encode_command cmds))) < 256 ^ 4 ->
  let image := macho a cmds payload in
  let body := concat (map encode_command cmds) in
  field image 0 4 = Some MH_MAGIC_64 /\ field image 4 4 = Some (CPU_TYPE_NATIVE a) /\
  field image 16 4 = Some (Z.of_nat (length cmds)) /\ field image 20 4 = Some (Z.of_nat (length body)) /\
  exists pre, length pre = 32%nat /\ image = pre ++ body ++ payload.
Proof.
  intros H1 H2 image body. unfold image, macho. split_and!.
  - skip_fields; [done|]. unfold MH_MAGIC_64. lia.
  - skip_fields; [done|]. destruct a; cbn; lia.
  - skip_fields; [done|]. lia.
  - skip_fields; [done|]. fold body. fold body in H2. lia.
  - eexists (le_bytes 4 MH_MAGIC_64 ++ le_bytes 4 (CPU_TYPE_NATIVE a) ++ le_bytes 8 0 ++ le_bytes 4 (Z.of_nat (length cmds)) ++
      le_bytes 4 (Z.of_nat (length body)) ++ le_bytes 8 0). split; [by rewrite !length_app, !length_le_bytes|]. by rewrite <- !app_assoc.
Qed.

(** An image that a linker writes is loaded as it says: for an image of any load commands whose segments, other than
    __PAGEZERO, fit the region and the file and do not overlap in memory, with one LC_MAIN, before or after the segment
    that alone holds its offset, each segment is in place, its file bytes followed by zeroes, the rest of memory is
    unchanged, the answer is the address of the entry, and on AArch64 the range made executable covers every
    executable segment. *)
Theorem stage_load_linked a target_base reserved_size cmds1 off st cmds2 payload s m :
  let cmds := cmds1 ++ Main off st :: cmds2 in
  let image := macho a cmds payload in
  0 < target_base -> target_base + reserved_size < W64 ->
  Forall command_wf cmds -> Z.of_nat (length cmds) < 256 ^ 4 -> Z.of_nat (length (concat (map encode_command cmds))) < 256 ^ 4 ->
  Forall (segment_ok reserved_size image) (loaded cmds) -> ForallOrdPairs apart (loaded cmds) ->
  no_main cmds1 -> no_main cmds2 ->
  s ∈ loaded cmds -> entry_in off s = true -> (forall s', s' ∈ loaded cmds -> entry_in off s' = true -> s' = s) ->
  exists m' code, stage_load_macho a image target_base reserved_size m =
      Some (m', target_base + vmaddr s + (off - fileoff s), code) /\
    (forall s' i, s' ∈ loaded cmds -> 0 <= i < vmsize s' -> content image s' i = Some (m' (target_base + vmaddr s' + i))) /\
    (forall x, (forall s', s' ∈ loaded cmds -> x < target_base + vmaddr s' \/ target_base + vmaddr s' + vmsize s' <= x) -> m' x = m x) /\
    (a = AARCH64 -> forall s', s' ∈ loaded cmds -> executable s' = true -> 0 < filesize s' ->
       exists lo hi, code = Some (lo, hi) /\ lo <= target_base + vmaddr s' /\ target_base + vmaddr s' + filesize s' <= hi).
Proof.
  intros cmds image HT HR Hwf Hn Hb Hok Hap Hm1 Hm2 Hs Hin Hu.
  assert (0 <= reserved_size) as HR0.
  { rewrite Forall_forall in Hok. destruct (Hok s Hs) as (? & ? & ? & _). lia. }
  assert (0 < target_base /\ 0 <= reserved_size /\ target_base + reserved_size < W64) as Htgt by lia.
  destruct (macho_header a cmds payload Hn Hb) as (F1 & F2 & F3 & F4 & pre & Hpre & Ei). fold image in F1, F2, F3, F4, Ei.
  set (body := concat (map encode_command cmds)) in *.
  set (l0 := {| mem := m; entryoff := 0; entry := 0; have_entry := false; code_start := UINT64_MAX; code_end := 0 |}).
  set (l := foldl (fun l c => apply_command a target_base image c l) l0 cmds).
  assert (load_commands a image target_base reserved_size (length cmds) 32 (32 + Z.of_nat (length body)) l0 = Some (Next l)) as El.
  { replace 32 with (Z.of_nat (length pre)) by lia. rewrite (load_commands_decode a image target_base reserved_size cmds pre payload) by (done || lia).
    by apply do_commands_ok. }
  assert (entry_at target_base off s = target_base + vmaddr s + (off - fileoff s) /\ 0 < entry_at target_base off s) as [Ee He].
  { rewrite Forall_forall in Hok. pose proof (Hok s Hs) as (A0 & A1 & A2 & A3 & A4). apply andb_true_iff in Hin as [I1 I2].
    apply Z.leb_le in I1. apply Z.ltb_lt in I2. unfold entry_at, u64.
    rewrite Zminus_mod_idemp_l, <- Z.add_sub_assoc, Z.add_mod_idemp_l by (by pose proof W64_pos). rewrite Z.mod_small by lia. lia. }
  destruct (apply_entry a target_base image cmds1 cmds2 off st m s Hm1 Hm2) as (E1 & E2 & E3).
  { intros s' Hs'. apply Hu. unfold cmds, loaded in *. rewrite omap_app. apply elem_of_app. right. exact Hs'. }
  fold cmds l0 l in E1, E2, E3. unfold stage_load_macho. rewrite F1, F2, F3, F4. cbn [mbind option_bind].
  assert (Z.of_nat (length image) = 32 + Z.of_nat (length body) + Z.of_nat (length payload)) as Hlen by (rewrite Ei, !length_app; lia).
  rewrite !(proj2 (Z.ltb_ge _ _)), !Z.eqb_refl by lia. cbn [negb orb]. rewrite Nat2Z.id. fold l0. rewrite El. cbn [mbind option_bind]. rewrite E1, E2. cbn [andb].
  assert ((if entry l =? 0 then resolve_entry image target_base (length cmds) 32 off else Some (entry l)) = Some (entry_at target_base off s)) as ->.
  { destruct (Z.eqb_spec (entry l) 0) as [_|Hne]; [|destruct E3; congruence]. replace 32 with (Z.of_nat (length pre)) by lia.
    rewrite (resolve_entry_decode image target_base cmds pre payload) by done. f_equal. apply find_entry_unique; [|by exists s].
    intros s' Hs' Hin'. by rewrite (Hu s' Hs' Hin'). }
  cbn [mbind option_bind]. rewrite (proj2 (Z.eqb_neq _ _)) by lia. cbn [negb andb]. do 2 eexists. split; [by rewrite Ee|].
  assert (mem l = foldl (fun m s => put target_base image s m) m (loaded cmds)) as Em by (unfold l; by rewrite apply_mem).
  destruct (apply_code a target_base image cmds l0) as (_ & _ & Hcode). fold l in Hcode. rewrite Em. split_and!.
  - intros s' i Hs' Hi. by apply (puts_inside target_base reserved_size image).
  - intros x Hx. by apply (puts_outside target_base reserved_size image).
  - intros Ha s' Hs' Hx Hf. destruct (Hcode Ha s' Hs' Hx) as [C1 C2]. rewrite (proj2 (Z.ltb_lt _ _)) by lia. by do 2 eexists.
Qed.

(** ** An image: __PAGEZERO, code, the entry, data *)

Definition demo_name : list Z := [95; 95; 84; 69; 88; 84; 0; 0; 0; 0; 0; 0; 0; 0; 0; 0].
Definition zero_name : list Z := PAGEZERO ++ [0; 0; 0; 0; 0].
Definition demo_text : segment_command_64_t := {| vmaddr := 0; vmsize := 8; fileoff := 272; filesize := 4; initprot := 5 |}.
Definition demo_data : segment_command_64_t := {| vmaddr := 0x1000; vmsize := 4; fileoff := 276; filesize := 2; initprot := 3 |}.
Definition no_segment : segment_command_64_t := {| vmaddr := 0; vmsize := 0x100000000; fileoff := 0; filesize := 0; initprot := 0 |}.
Definition demo_before : list command := [Segment zero_name no_segment 0 (repeat 0 8); Segment demo_name demo_text 7 (repeat 0 8)].
Definition demo_after : list command := [Segment demo_name demo_data 7 (repeat 0 8)].
Definition demo_image : list Z := macho AARCH64 (demo_before ++ Main 273 0 :: demo_after) [11; 12; 13; 14; 21; 22].

Lemma stage_load_linked_witness :
  exists m' code, stage_load_macho AARCH64 demo_image 0x40000000 0x2000 (fun _ => 255) = Some (m', 0x40000001, code) /\
    m' 0x40000001 = 12 /\ m' 0x40000005 = 0 /\ m' 0x40001001 = 22 /\ m' 0x40001003 = 0 /\ m' 0x40000008 = 255 /\
    exists lo hi, code = Some (lo, hi) /\ lo <= 0x40000000 /\ 0x40000004 <= hi.
Proof.
  destruct (stage_load_linked AARCH64 0x40000000 0x2000 demo_before 273 0 demo_after [11; 12; 13; 14; 21; 22] demo_text (fun _ => 255))
    as (m' & code & E & Hin & Hout & Hcode).
  - reflexivity.
  - reflexivity.
  - repeat constructor; vm_compute; repeat constructor; discriminate.
  - reflexivity.
  - reflexivity.
  - repeat constructor; cbn; lia.
  - repeat constructor; unfold apart; cbn; lia.
  - repeat constructor.
  - repeat constructor.
  - left.
  - reflexivity.
  - intros s' Hs' Hi. change (loaded _) with [demo_text; demo_data] in Hs'.
    apply elem_of_cons in Hs' as [->|Hs']; [done|]. apply elem_of_cons in Hs' as [->|Hs']; [discriminate Hi|by apply elem_of_nil in Hs'].
  - exists m', code. split; [exact E|].
    pose proof (Hin demo_text 1 ltac:(left) ltac:(cbn; lia)) as H1. pose proof (Hin demo_text 5 ltac:(left) ltac:(cbn; lia)) as H2.
    pose proof (Hin demo_data 1 ltac:(right; left) ltac:(cbn; lia)) as H3.
    pose proof (Hin demo_data 3 ltac:(right; left) ltac:(cbn; lia)) as H4.
    vm_compute in H1, H2, H3, H4. injection H1 as <-. injection H2 as <-. injection H3 as <-. injection H4 as <-.
    split; [reflexivity|]. split; [reflexivity|]. split; [reflexivity|]. split; [reflexivity|]. split.
    + apply Hout. intros s' Hs'. change (loaded _) with [demo_text; demo_data] in Hs'.
      apply elem_of_cons in Hs' as [->|Hs']; [right; cbn; lia|]. apply elem_of_cons in Hs' as [->|Hs']; [left; cbn; lia|by apply elem_of_nil in Hs'].
    + apply (Hcode eq_refl demo_text); [left|reflexivity|reflexivity].
Defined.

Lemma stage_load_confined_witness :
  exists m' e code, stage_load_macho AARCH64 demo_image 0x40000000 0x2000 (fun _ => 255) = Some (m', e, code) /\
    m' 0x40002000 = 255 /\ (e = 0 \/ 0x40000000 <= e < 0x40002000).
Proof.
  destruct (stage_load_confined AARCH64 demo_image 0x40000000 0x2000) with (m := fun _ : Z => 255) as (m' & e & code & E & Hm & He).
  - apply Forall_forall. intros b Hb. assert (forallb (fun b => (0 <=? b) && (b <? 256)) demo_image = true) as H by (vm_compute; reflexivity).
    rewrite forallb_forall in H. apply list_elem_of_In, H, andb_true_iff in Hb as [H1 H2]. apply Z.leb_le in H1. apply Z.ltb_lt in H2. by split.
  - split; [discriminate|]. split; [discriminate|reflexivity].
  - exists m', e, code. split; [exact E|]. split; [|exact He]. rewrite Hm; [reflexivity|]. unfold in_region. lia.
Defined.
