(* ===== verification/Acpi.v ===== *)
(** * Discovery from ACPI tables (coreinit/acpi_x86_64.c, coreinit/topology_aarch64.c)

    The search for the root pointer and the tables, and the cores and devices
    that the MADT and the SPCR list, on both architectures.  Physical memory is
    a function from addresses to bytes.  A loop over a table runs on as much
    fuel as the table has bytes; [None] is running out of it.  What discovery
    on AArch64 hands to other drivers is the list of its calls. *)

From S2P Require Import Prelude Bytes.

Definition ACPI_MAX_CPUS : nat := 64.
Definition TOPOLOGY_MAX_CORES : nat := 64.
Definition CLUSTER_ARCH_X86_64 : Z := 0.

Record topology_core_t := { target : Z; enabled : bool }.
(** [cores] has [count] elements. *)
Record topology_t := { cores : list topology_core_t; arch_opaque : Z * Z * Z * Z }.

(** ** Reading tables *)

Definition le_read (m : memory) (p : Z) (n : nat) : Z := le_of (bytes m p n).

Definition sum_bytes (m : memory) (p len : Z) : Z :=
  fold_left (fun sum b => (sum + b) mod 256) (bytes m p (Z.to_nat len)) 0.

Fixpoint signature_matches (m : memory) (p : Z) (expect : list Z) : bool :=
  match expect with
  | [] => true
  | e :: expect => if negb (m p =? e) then false else signature_matches m (p + 1) expect
  end.

(** "RSD PTR ", "RSDT", "XSDT", "APIC", "SPCR", "FACP". *)
Definition SIG_RSDP : list Z := [82; 83; 68; 32; 80; 84; 82; 32].
Definition SIG_RSDT : list Z := [82; 83; 68; 84].
Definition SIG_XSDT : list Z := [88; 83; 68; 84].
Definition SIG_APIC : list Z := [65; 80; 73; 67].
Definition SIG_SPCR : list Z := [83; 80; 67; 82].
Definition SIG_FACP : list Z := [70; 65; 67; 80].

(** Fields of the root pointer and of a table's header (36 bytes). *)
Definition rsdp_revision (m : memory) (r : Z) : Z := m (r + 15).
Definition rsdp_rsdt_address (m : memory) (r : Z) : Z := le_read m (r + 16) 4.
Definition rsdp_length (m : memory) (r : Z) : Z := le_read m (r + 20) 4.
Definition rsdp_xsdt_address (m : memory) (r : Z) : Z := le_read m (r + 24) 8.
Definition sdt_length (m : memory) (t : Z) : Z := le_read m (t + 4) 4.
Definition sdt_revision (m : memory) (t : Z) : Z := m (t + 8).

(** ** x86-64 *)

Module X86.

Definition validate_rsdp (m : memory) (addr : Z) : option Z :=
  if negb (signature_matches m addr SIG_RSDP) then None
  else if negb (sum_bytes m addr 20 =? 0) then None
  else if (2 <=? rsdp_revision m addr) && negb (sum_bytes m addr (rsdp_length m addr) =? 0) then None
  else Some addr.

(** [n] candidates, 16 bytes apart. *)
Fixpoint scan_for_rsdp (m : memory) (n : nat) (addr : Z) : option Z :=
  match n with
  | O => None
  | S n => match validate_rsdp m addr with Some r => Some r | None => scan_for_rsdp m n (addr + 16) end
  end.

Definition find_rsdp (m : memory) : option Z :=
  let ebda_addr := Z.shiftl (le_read m 0x40E 2) 4 in
  match (if ebda_addr =? 0 then None else scan_for_rsdp m 64 ebda_addr) with
  | Some r => Some r
  | None => scan_for_rsdp m (Z.to_nat 8192) 0xE0000
  end.

(** The first of [n] entries of [w] bytes at [e] that is a valid table. *)
Fixpoint table_loop (m : memory) (w : nat) (n : nat) (e : Z) (signature : list Z) : option Z :=
  match n with
  | O => None
  | S n =>
      let table := le_read m e w in
      if signature_matches m table signature && (sum_bytes m table (sdt_length m table) =? 0) then Some table
      else table_loop m w n (e + Z.of_nat w) signature
  end.

(** The count of entries is computed in 64 bits and kept in 32. *)
Definition find_table_rsdt (m : memory) (rsdt_phys : Z) (signature : list Z) : option Z :=
  if negb (signature_matches m rsdt_phys SIG_RSDT) then None
  else if negb (sum_bytes m rsdt_phys (sdt_length m rsdt_phys) =? 0) then None
  else
    let entry_count := (u64 (sdt_length m rsdt_phys - 36) / 4) mod 2 ^ 32 in
    table_loop m 4 (Z.to_nat entry_count) (rsdt_phys + 36) signature.

Definition find_table_xsdt (m : memory) (xsdt_phys : Z) (signature : list Z) : option Z :=
  if negb (signature_matches m xsdt_phys SIG_XSDT) then None
  else if negb (sum_bytes m xsdt_phys (sdt_length m xsdt_phys) =? 0) then None
  else
    let entry_count := (u64 (sdt_length m xsdt_phys - 36) / 8) mod 2 ^ 32 in
    table_loop m 8 (Z.to_nat entry_count) (xsdt_phys + 36) signature.

Record acpi_cpu_t := { apic_id : Z; cpu_enabled : bool }.
Record acpi_info_t := { cpus : list acpi_cpu_t; local_apic_address : Z }.

Definition MADT_TYPE_LOCAL_APIC : Z := 0.

Fixpoint madt_loop (fuel : nat) (m : memory) (p end_ : Z) (cpus : list acpi_cpu_t) : option (list acpi_cpu_t) :=
  match fuel with
  | O => None
  | S fuel =>
      if (p <? end_) && (length cpus <? ACPI_MAX_CPUS)%nat then
        let type := m p in
        let len := m (p + 1) in
        if len <? 2 then Some cpus
        else
          let cpus :=
            if (type =? MADT_TYPE_LOCAL_APIC) && (8 <=? len)
            then cpus ++ [{| apic_id := m (p + 3); cpu_enabled := negb (Z.land (le_read m (p + 4) 4) 1 =? 0) |}]
            else cpus in
          madt_loop fuel m (p + len) end_ cpus
      else Some cpus
  end.

Definition find_madt (m : memory) (rsdp : Z) : option Z :=
  match (if (2 <=? rsdp_revision m rsdp) && negb (rsdp_xsdt_address m rsdp =? 0)
         then find_table_xsdt m (rsdp_xsdt_address m rsdp) SIG_APIC else None) with
  | Some madt => Some madt
  | None => find_table_rsdt m (rsdp_rsdt_address m rsdp) SIG_APIC
  end.

(** [Some None]: the function returns 0. *)
Definition acpi_discover (m : memory) (early_rsdp_phys : Z) : option (option acpi_info_t) :=
  match (if early_rsdp_phys =? 0 then find_rsdp m else validate_rsdp m early_rsdp_phys) with
  | None => Some None
  | Some rsdp =>
      match find_madt m rsdp with
      | None => Some None
      | Some madt =>
          let body := madt + 36 in
          l ← madt_loop (S (Z.to_nat (sdt_length m madt))) m (body + 8) (madt + sdt_length m madt) [];
          Some (Some {| cpus := l; local_apic_address := le_read m body 4 |})
      end
  end.

Definition topology_discover (m : memory) (arch_hint : Z) : option (option topology_t) :=
  r ← acpi_discover m arch_hint;
  match r with
  | None => Some None
  | Some acpi =>
      Some (Some {| cores := map (fun c => {| target := apic_id c; enabled := cpu_enabled c |}) (cpus acpi);
                    arch_opaque := (local_apic_address acpi, 0, 0, 0) |})
  end.

Definition topology_timer_hint (t : topology_t) : Z := let '(a, _, _, _) := arch_opaque t in a.
Definition topology_cluster_arch : Z := CLUSTER_ARCH_X86_64.
Definition topology_boot_hint (fdt_blob_phys early_rsdp_phys : Z) : Z := early_rsdp_phys.
End X86.

(** ** AArch64 *)

Module Arm.

Definition MADT_TYPE_GICC : Z := 0x0B.
Definition MADT_TYPE_GICD : Z := 0x0C.
Definition MADT_TYPE_GICR : Z := 0x0E.
Definition SPCR_TYPE_PL011 : Z := 0x03.

Definition is_rsdp (m : memory) (addr : Z) : bool := signature_matches m addr SIG_RSDP && (sum_bytes m addr 20 =? 0).

(** NULL entries are skipped. *)
Fixpoint acpi_find_loop (m : memory) (esz : nat) (n : nat) (e : Z) (sig : list Z) : option Z :=
  match n with
  | O => None
  | S n =>
      let t := le_read m e esz in
      if negb (t =? 0) && signature_matches m t sig && (sum_bytes m t (sdt_length m t) =? 0) then Some t
      else acpi_find_loop m esz n (e + Z.of_nat esz) sig
  end.

Definition acpi_find (m : memory) (rsdp : Z) (sig : list Z) : option Z :=
  let wide := (2 <=? rsdp_revision m rsdp) && negb (rsdp_xsdt_address m rsdp =? 0) in
  let root := if wide then rsdp_xsdt_address m rsdp else rsdp_rsdt_address m rsdp in
  if negb (signature_matches m root (if wide then SIG_XSDT else SIG_RSDT)) || (sdt_length m root <? 36) ||
     negb (sum_bytes m root (sdt_length m root) =? 0) then None
  else
    let esz := (if wide then 8 else 4)%nat in
    acpi_find_loop m esz (Z.to_nat ((sdt_length m root - 36) / Z.of_nat esz)) (root + 36) sig.

(** [Some use_hvc]. *)
Definition topology_aarch64_psci_method (m : memory) (rsdp_phys : Z) : option bool :=
  if (rsdp_phys =? 0) || negb (is_rsdp m rsdp_phys) then None
  else if (rsdp_revision m rsdp_phys <? 2) || (rsdp_length m rsdp_phys <? 36) || (4096 <? rsdp_length m rsdp_phys) ||
          negb (sum_bytes m rsdp_phys (rsdp_length m rsdp_phys) =? 0) then None
  else
    match acpi_find m rsdp_phys SIG_FACP with
    | None => None
    | Some fadt =>
        if (sdt_revision m fadt <? 5) || (sdt_length m fadt <? 131) then None
        else
          let flags := le_read m (fadt + 129) 2 in
          if Z.land flags 1 =? 0 then None else Some (negb (Z.land flags 2 =? 0))
    end.

(** What the loop over the MADT has found. *)
Record madt_t := {
  found : list topology_core_t; gicd : Z; gicc_base : Z; gicr_base : Z; gicr_size : Z; gic_version : Z }.
Definition madt_start : madt_t := {| found := []; gicd := 0; gicc_base := 0; gicr_base := 0; gicr_size := 0; gic_version := 0 |}.

(** One entry at [p]; [None]: more cores than fit, the loop ends. *)
Definition madt_entry (m : memory) (p : Z) (s : madt_t) : option madt_t :=
  let type := m p in
  let len := m (p + 1) in
  if (type =? MADT_TYPE_GICC) && (76 <=? len) then
    if (TOPOLOGY_MAX_CORES <=? length (found s))%nat then None
    else
      let en := negb (Z.land (le_read m (p + 12) 4) 1 =? 0) in
      Some {| found := found s ++ [{| target := Z.land (le_read m (p + 68) 8) 0xFF00FFFFFF; enabled := en |}];
              gicd := gicd s;
              gicc_base := if en && (gicc_base s =? 0) then le_read m (p + 32) 8 else gicc_base s;
              gicr_base := gicr_base s; gicr_size := gicr_size s; gic_version := gic_version s |}
  else if (type =? MADT_TYPE_GICD) && (16 <=? len) then
    Some {| found := found s; gicd := le_read m (p + 8) 8; gicc_base := gicc_base s; gicr_base := gicr_base s;
            gicr_size := gicr_size s; gic_version := if 21 <=? len then m (p + 20) else gic_version s |}
  else if (type =? MADT_TYPE_GICR) && (16 <=? len) then
    Some {| found := found s; gicd := gicd s; gicc_base := gicc_base s; gicr_base := le_read m (p + 4) 8;
            gicr_size := le_read m (p + 12) 4; gic_version := gic_version s |}
  else Some s.

Fixpoint madt_walk (fuel : nat) (m : memory) (p end_ : Z) (s : madt_t) : option madt_t :=
  match fuel with
  | O => None
  | S fuel =>
      if p + 2 <=? end_ then
        let len := m (p + 1) in
        if (len <? 2) || (end_ <? p + len) then Some s
        else match madt_entry m p s with None => Some s | Some s => madt_walk fuel m (p + len) end_ s end
      else Some s
  end.

(** Calls of other drivers. *)
Inductive wire :=
  | irq_set_cpu_base (base : Z) | signal_set_gic_v2 | irq_set_redistributor_region (base size : Z)
  | serial_set_cadence_base (base : Z) | serial_set_base (base : Z) | irq_set_base (base : Z) | signal_set_base (base : Z).

(** [None] in the option: the function returns 0. *)
Definition topology_discover_acpi (m : memory) (rsdp_phys : Z) : option (option (topology_t * list wire)) :=
  if (2 <=? rsdp_revision m rsdp_phys) && negb (sum_bytes m rsdp_phys (rsdp_length m rsdp_phys) =? 0) then Some None
  else
    match acpi_find m rsdp_phys SIG_APIC with
    | None => Some None
    | Some madt =>
        s ← madt_walk (S (Z.to_nat (sdt_length m madt))) m (madt + 36 + 8) (madt + sdt_length m madt) madt_start;
        let calls :=
          if (gic_version s =? 2) && negb (gicc_base s =? 0) then [irq_set_cpu_base (gicc_base s); signal_set_gic_v2]
          else if (gic_version s =? 3) && negb (gicr_base s =? 0) && negb (gicr_size s =? 0)
          then [irq_set_redistributor_region (gicr_base s) (gicr_size s)] else [] in
        let uart :=
          match acpi_find m rsdp_phys SIG_SPCR with
          | Some spcr =>
              if (52 <=? sdt_length m spcr) && (m (spcr + 36) =? SPCR_TYPE_PL011) && (m (spcr + 40) =? 0)
              then le_read m (spcr + 44) 8 else 0
          | None => 0
          end in
        Some (Some ({| cores := found s; arch_opaque := (uart, gicd s, 0, 0) |}, calls))
    end.

Definition topology_wire_backends (uart_is_cadence : bool) (t : topology_t) : list wire :=
  let '(uart, gic, _, _) := arch_opaque t in
  (if uart =? 0 then [] else [if uart_is_cadence then serial_set_cadence_base uart else serial_set_base uart]) ++
  (if gic =? 0 then [] else [irq_set_base gic; signal_set_base gic]).
End Arm.

(** ** The entries of a MADT *)

Record entry := { e_type : Z; e_data : list Z }.

Definition entry_wf (e : entry) : Prop := (length (e_data e) <= 253)%nat.
Definition e_len (e : entry) : Z := 2 + Z.of_nat (length (e_data e)).
Definition encode (e : entry) : list Z := e_type e :: e_len e :: e_data e.
Definition table_of (es : list entry) : list Z := concat (map encode es).

(** The little-endian number at offset [off] of an entry. *)
Definition at_offset (e : entry) (off n : nat) : Z := le_of (take n (drop (off - 2) (e_data e))).

Lemma length_encode e : Z.of_nat (length (encode e)) = e_len e.
Proof. unfold encode, e_len. cbn [length]. lia. Qed.

Lemma holds_skip m p l k : holds m p l -> (k <= length l)%nat -> holds m (p + Z.of_nat k) (drop k l).
Proof. intros H Hk. rewrite <- (take_drop k l) in H. apply holds_app in H as [_ H]. by rewrite length_take_le in H by lia. Qed.

Lemma holds_take m p l k : holds m p l -> holds m p (take k l).
Proof. intros H. rewrite <- (take_drop k l) in H. by apply holds_app in H as [H _]. Qed.

(** An entry in memory. *)
Lemma entry_in_memory m p e : holds m p (encode e) ->
  m p = e_type e /\ m (p + 1) = e_len e /\
  forall off n, (2 <= off)%nat -> Z.of_nat (off + n) <= e_len e -> le_read m (p + Z.of_nat off) n = at_offset e off n.
Proof.
  intros H. apply holds_cons in H as [H1 H]. apply holds_cons in H as [H2 H]. split_and!; [done..|].
  intros off n Hoff Hn. unfold e_len in Hn. unfold le_read, at_offset. f_equal.
  assert (holds m (p + Z.of_nat off) (take n (drop (off - 2) (e_data e)))) as Hh.
  { apply holds_take. replace (p + Z.of_nat off) with (p + 1 + 1 + Z.of_nat (off - 2)) by lia. apply holds_skip; [done|lia]. }
  apply holds_bytes in Hh. rewrite length_take_le in Hh by (rewrite length_drop; lia). done.
Qed.

Lemma byte_in_memory m p e off : holds m p (encode e) -> (2 <= off)%nat -> Z.of_nat (off + 1) <= e_len e ->
  m (p + Z.of_nat off) = at_offset e off 1.
Proof.
  intros H H1 H2. destruct (entry_in_memory m p e H) as (_ & _ & Hr). rewrite <- (Hr off 1%nat H1 H2). unfold le_read, bytes. cbn. by rewrite !Z.add_0_r.
Qed.

(** *** x86-64 *)

Definition local_apic (e : entry) : option X86.acpi_cpu_t :=
  if (e_type e =? X86.MADT_TYPE_LOCAL_APIC) && (8 <=? e_len e)
  then Some {| X86.apic_id := at_offset e 3 1; X86.cpu_enabled := negb (Z.land (at_offset e 4 4) 1 =? 0) |} else None.

Lemma x86_loop_decode es m p fuel acc :
  Forall entry_wf es -> holds m p (table_of es) -> (length (table_of es) < fuel)%nat -> (length acc <= ACPI_MAX_CPUS)%nat ->
  X86.madt_loop fuel m p (p + Z.of_nat (length (table_of es))) acc = Some (take ACPI_MAX_CPUS (acc ++ omap local_apic es)).
Proof.
  intros Hwf. revert p fuel acc. induction Hwf as [|e es He _ IH]; intros p fuel acc Hm Hf Ha.
  - destruct fuel as [|fuel]; [cbn in Hf; lia|]. cbn [X86.madt_loop table_of map concat length].
    rewrite (proj2 (Z.ltb_ge _ _)) by lia. cbn [andb omap list_omap]. rewrite app_nil_r, take_ge by done. done.
  - unfold table_of in *. cbn [map concat] in *. rewrite length_app in *. apply holds_app in Hm as [Hm Hms]. rewrite length_encode in Hms.
    destruct fuel as [|fuel]; [lia|]. cbn [X86.madt_loop]. pose proof (length_encode e) as Hle. assert (2 <= e_len e) as H2 by (unfold e_len; lia).
    rewrite (proj2 (Z.ltb_lt _ _)) by lia. cbn [andb]. destruct (Nat.ltb_spec (length acc) ACPI_MAX_CPUS).
    2: { rewrite take_app_le by lia. by rewrite take_ge by lia. }
    destruct (entry_in_memory m p e Hm) as (E1 & E2 & E3). rewrite E1, E2, (proj2 (Z.ltb_ge _ _)) by lia. cbn [omap list_omap].
    replace (p + Z.of_nat (length (encode e) + length (concat (map encode es))))
      with (p + e_len e + Z.of_nat (length (concat (map encode es)))) by lia.
    rewrite IH; [|done|lia|].
    + unfold local_apic at 2. destruct ((e_type e =? X86.MADT_TYPE_LOCAL_APIC) && (8 <=? e_len e)) eqn:El; [|done].
      apply andb_true_iff in El as [_ El]. apply Z.leb_le in El. change 3 with (Z.of_nat 3) at 1. change 4 with (Z.of_nat 4) at 1.
      rewrite (byte_in_memory m p e 3), E3 by (done || lia). by rewrite <- app_assoc.
    + destruct (_ && _); [rewrite length_app; cbn; unfold ACPI_MAX_CPUS in *; lia|lia].
Qed.

(** *** AArch64 *)

Definition gicc_core (e : entry) : option topology_core_t :=
  if (e_type e =? Arm.MADT_TYPE_GICC) && (76 <=? e_len e)
  then Some {| target := Z.land (at_offset e 68 8) 0xFF00FFFFFF; enabled := negb (Z.land (at_offset e 12 4) 1 =? 0) |} else None.
Definition gicd_base (e : entry) : option Z :=
  if (e_type e =? Arm.MADT_TYPE_GICD) && (16 <=? e_len e) then Some (at_offset e 8 8) else None.

(** The effect of an entry on the cores and the distributor. *)
Lemma arm_entry_decode m p e s : holds m p (encode e) ->
  match Arm.madt_entry m p s with
  | Some s' => (length (Arm.found s) <= TOPOLOGY_MAX_CORES)%nat -> (length (Arm.found s') <= TOPOLOGY_MAX_CORES)%nat /\
      Arm.found s' = Arm.found s ++ option_list (gicc_core e) /\ Arm.gicd s' = default (Arm.gicd s) (gicd_base e)
  | None => (TOPOLOGY_MAX_CORES <= length (Arm.found s))%nat /\ is_Some (gicc_core e)
  end.
Proof.
  intros H. destruct (entry_in_memory m p e H) as (E1 & E2 & E3). unfold Arm.madt_entry, gicc_core, gicd_base. rewrite E1, E2.
  destruct (Z.eqb_spec (e_type e) Arm.MADT_TYPE_GICC) as [Et|Hne]; cbn [andb].
  - rewrite Et. change (Arm.MADT_TYPE_GICC =? Arm.MADT_TYPE_GICD) with false. change (Arm.MADT_TYPE_GICC =? Arm.MADT_TYPE_GICR) with false.
    cbn [andb]. destruct (Z.leb_spec 76 (e_len e)); cbn [option_list default from_option id]; [|by rewrite app_nil_r].
    destruct (Nat.leb_spec TOPOLOGY_MAX_CORES (length (Arm.found s))); [by split|]. cbn [Arm.found Arm.gicd]. intros _. split_and!; [|f_equal|done].
    + rewrite length_app. cbn. lia.
    + change 68 with (Z.of_nat 68). change 12 with (Z.of_nat 12). by rewrite !E3 by lia.
  - cbn [option_list]. destruct ((e_type e =? Arm.MADT_TYPE_GICD) && (16 <=? e_len e)) eqn:Ed.
    + apply andb_true_iff in Ed as [_ Ed]. apply Z.leb_le in Ed. cbn [Arm.found Arm.gicd default from_option id]. intros Hl. rewrite app_nil_r. split_and!; [done..|].
      change 8 with (Z.of_nat 8). by rewrite E3 by lia.
    + destruct ((e_type e =? Arm.MADT_TYPE_GICR) && _); cbn [Arm.found Arm.gicd default from_option id]; rewrite app_nil_r; auto.
Qed.

Lemma arm_loop_decode es m p fuel s :
  Forall entry_wf es -> holds m p (table_of es) -> (length (table_of es) < fuel)%nat -> (length (Arm.found s) <= TOPOLOGY_MAX_CORES)%nat ->
  exists s', Arm.madt_walk fuel m p (p + Z.of_nat (length (table_of es))) s = Some s' /\
    Arm.found s' = take TOPOLOGY_MAX_CORES (Arm.found s ++ omap gicc_core es) /\
    ((length (Arm.found s ++ omap gicc_core es) <= TOPOLOGY_MAX_CORES)%nat -> Arm.gicd s' = default (Arm.gicd s) (last (omap gicd_base es))).
Proof.
  intros Hwf. revert p fuel s. induction Hwf as [|e es He _ IH]; intros p fuel s Hm Hf Ha.
  - destruct fuel as [|fuel]; [cbn in Hf; lia|]. cbn [Arm.madt_walk table_of map concat length].
    rewrite (proj2 (Z.leb_gt _ _)) by lia. eexists. split; [reflexivity|]. cbn [omap list_omap]. by rewrite app_nil_r, take_ge by done.
  - unfold table_of in *. cbn [map concat] in *. rewrite length_app in *. apply holds_app in Hm as [Hm Hms]. rewrite length_encode in Hms.
    destruct fuel as [|fuel]; [lia|]. cbn [Arm.madt_walk]. pose proof (length_encode e) as Hle. assert (2 <= e_len e) as H2 by (unfold e_len; lia).
    rewrite (proj2 (Z.leb_le _ _)) by lia. destruct (entry_in_memory m p e Hm) as (_ & E2 & _). rewrite E2.
    rewrite !(proj2 (Z.ltb_ge _ _)) by lia. cbn [orb]. pose proof (arm_entry_decode m p e s Hm) as Hd. cbn [omap list_omap].
    destruct (Arm.madt_entry m p s) as [s1|].
    + destruct (Hd Ha) as (Hl1 & Ef & Eg).
      replace (p + Z.of_nat (length (encode e) + length (concat (map encode es)))) with (p + e_len e + Z.of_nat (length (concat (map encode es)))) by lia.
      destruct (IH (p + e_len e) fuel s1 Hms ltac:(lia) Hl1) as (s' & -> & F1 & F2). eexists. split; [reflexivity|].
      assert (Arm.found s ++ match gicc_core e with Some y => y :: omap gicc_core es | None => omap gicc_core es end = Arm.found s1 ++ omap gicc_core es) as ->.
      { rewrite Ef. destruct (gicc_core e); cbn; by rewrite <- app_assoc. }
      split; [done|]. intros Hl. rewrite (F2 Hl), Eg. destruct (gicd_base e) as [b|]; [|done]. cbn [default from_option id].
      by rewrite last_cons; destruct (last (omap gicd_base es)).
    + destruct Hd as [Hfull [c Ec]]. rewrite Ec. eexists. split; [reflexivity|]. split.
      * rewrite take_app_le, take_ge by lia. done.
      * rewrite length_app. cbn [length]. lia.
Qed.

(** ** Discovery *)

(** The MADT at [madt] has the entries [es]. *)
Record madt_at (m : memory) (madt : Z) (es : list entry) : Prop := {
  ma_wf : Forall entry_wf es;
  ma_length : sdt_length m madt = 44 + Z.of_nat (length (table_of es));
  ma_body : holds m (madt + 44) (table_of es) }.

(** On x86-64 the topology is what the MADT says: with a valid root pointer and a MADT of any entries, discovery
    returns one core for each local-APIC entry, in order and up to 64, with its APIC id and its enabled flag, skipping
    entries of every other kind, and the address of the local APIC. *)
Theorem x86_topology_listed m rsdp madt es :
  rsdp <> 0 -> X86.validate_rsdp m rsdp = Some rsdp -> X86.find_madt m rsdp = Some madt -> madt_at m madt es ->
  X86.topology_discover m rsdp =
  Some (Some {| cores := map (fun c => {| target := X86.apic_id c; enabled := X86.cpu_enabled c |}) (take 64 (omap local_apic es));
                arch_opaque := (le_read m (madt + 36) 4, 0, 0, 0) |}).
Proof.
  intros Hr Hv Hf [Hwf Hl Hb]. unfold X86.topology_discover, X86.acpi_discover. rewrite (proj2 (Z.eqb_neq _ _) Hr), Hv, Hf, Hl.
  replace (madt + 36 + 8) with (madt + 44) by lia. replace (madt + (44 + Z.of_nat (length (table_of es)))) with (madt + 44 + Z.of_nat (length (table_of es))) by lia.
  rewrite (x86_loop_decode es m (madt + 44) _ []) by (done || (cbn; lia) || lia). done.
Qed.

(** On AArch64 the topology from ACPI is what the MADT says: with a valid root pointer and a MADT of any entries,
    discovery returns one core for each GICC entry, in order and up to 64, with the affinity fields of its MPIDR and its
    enabled flag; and when no more than 64 are listed, the address of the distributor is that of the last GICD entry. *)
Theorem arm_topology_listed m rsdp madt es :
  (2 <=? rsdp_revision m rsdp) && negb (sum_bytes m rsdp (rsdp_length m rsdp) =? 0) = false ->
  Arm.acpi_find m rsdp SIG_APIC = Some madt -> madt_at m madt es ->
  exists uart gic calls, Arm.topology_discover_acpi m rsdp =
      Some (Some ({| cores := take 64 (omap gicc_core es); arch_opaque := (uart, gic, 0, 0) |}, calls)) /\
    ((length (omap gicc_core es) <= 64)%nat -> gic = default 0 (last (omap gicd_base es))).
Proof.
  intros Hr Hf [Hwf Hl Hb]. unfold Arm.topology_discover_acpi. rewrite Hr, Hf, Hl.
  replace (madt + 36 + 8) with (madt + 44) by lia. replace (madt + (44 + Z.of_nat (length (table_of es)))) with (madt + 44 + Z.of_nat (length (table_of es))) by lia.
  destruct (arm_loop_decode es m (madt + 44) (S (Z.to_nat (44 + Z.of_nat (length (table_of es))))) Arm.madt_start Hwf Hb) as (s & -> & F1 & F2);
    [lia|cbn; lia|]. cbn [mbind option_bind]. do 3 eexists. rewrite F1. split; [reflexivity|]. exact F2.
Qed.

(** *** Any table *)

Lemma x86_loop_returns fuel m p end_ acc : (Z.to_nat (end_ - p) < fuel)%nat -> X86.madt_loop fuel m p end_ acc <> None.
Proof.
  revert p acc. induction fuel as [|fuel IH]; intros p acc Hf; [lia|]. cbn [X86.madt_loop].
  destruct (Z.ltb_spec p end_); cbn [andb]; [|done]. destruct (_ <? _)%nat; [|done].
  destruct (Z.ltb_spec (m (p + 1)) 2); [done|]. apply IH. lia.
Qed.

Lemma arm_loop_returns fuel m p end_ s : (Z.to_nat (end_ - p) < fuel)%nat -> Arm.madt_walk fuel m p end_ s <> None.
Proof.
  revert p s. induction fuel as [|fuel IH]; intros p s Hf; [lia|]. cbn [Arm.madt_walk].
  destruct (Z.leb_spec (p + 2) end_); [|done]. destruct (Z.ltb_spec (m (p + 1)) 2); cbn [orb]; [done|].
  destruct (end_ <? p + m (p + 1)); [done|]. destruct (Arm.madt_entry m p s); [|done]. apply IH. lia.
Qed.

Lemma x86_loop_bound fuel m p end_ acc l :
  X86.madt_loop fuel m p end_ acc = Some l -> (length acc <= 64)%nat -> (length l <= 64)%nat.
Proof.
  revert p acc. induction fuel as [|fuel IH]; intros p acc E Hl; [done|]. cbn [X86.madt_loop] in E.
  destruct (p <? end_); cbn [andb] in E; [|by injection E as <-].
  destruct (Nat.ltb_spec (length acc) ACPI_MAX_CPUS) as [Hlt|]; [|by injection E as <-].
  destruct (_ <? 2); [by injection E as <-|]. apply IH in E; [done|]. unfold ACPI_MAX_CPUS in Hlt.
  destruct (_ && _); [rewrite length_app; cbn [length]; lia|lia].
Qed.

Lemma arm_entry_bound m p s s' :
  Arm.madt_entry m p s = Some s' -> (length (Arm.found s) <= 64)%nat -> (length (Arm.found s') <= 64)%nat.
Proof.
  intros E Hl. unfold Arm.madt_entry in E. destruct ((m p =? Arm.MADT_TYPE_GICC) && _).
  - destruct (Nat.leb_spec TOPOLOGY_MAX_CORES (length (Arm.found s))) as [|Hlt]; [done|]. injection E as <-. cbn [Arm.found].
    rewrite length_app. unfold TOPOLOGY_MAX_CORES in Hlt. cbn [length]. lia.
  - destruct ((m p =? Arm.MADT_TYPE_GICD) && _); [by injection E as <-|].
    destruct ((m p =? Arm.MADT_TYPE_GICR) && _); by injection E as <-.
Qed.

Lemma arm_loop_bound fuel m p end_ s s' :
  Arm.madt_walk fuel m p end_ s = Some s' -> (length (Arm.found s) <= 64)%nat -> (length (Arm.found s') <= 64)%nat.
Proof.
  revert p s. induction fuel as [|fuel IH]; intros p s E Hl; [done|]. cbn [Arm.madt_walk] in E.
  destruct (p + 2 <=? end_); [|by injection E as <-]. destruct (_ || _); [by injection E as <-|].
  destruct (Arm.madt_entry m p s) as [s1|] eqn:E1; [|by injection E as <-]. apply IH in E; [done|]. by apply (arm_entry_bound m p s).
Qed.

(** Discovery ends on any memory: whatever lies where the tables are looked for, the walks over the MADT end on both
    architectures, and no more than 64 cores come out of them. *)
Theorem discovery_returns m hint :
  match X86.topology_discover m hint, Arm.topology_discover_acpi m hint with
  | Some r, Some r' =>
      match r with Some t => (length (cores t) <= 64)%nat | None => True end /\
      match r' with Some (t, _) => (length (cores t) <= 64)%nat | None => True end
  | _, _ => False
  end.
Proof.
  assert (match Arm.topology_discover_acpi m hint with Some (Some (t, _)) => (length (cores t) <= 64)%nat | Some None => True | None => False end) as H2.
  { unfold Arm.topology_discover_acpi. destruct (_ && _); [done|]. destruct (Arm.acpi_find m hint SIG_APIC) as [madt|]; [|done].
    pose proof (arm_loop_returns (S (Z.to_nat (sdt_length m madt))) m (madt + 36 + 8) (madt + sdt_length m madt) Arm.madt_start) as Hr.
    destruct (Arm.madt_walk _ _ _ _ _) as [s|] eqn:E; [|by apply Hr; [lia|]]. apply arm_loop_bound in E; [exact E|cbn; lia]. }
  unfold X86.topology_discover, X86.acpi_discover. destruct (if hint =? 0 then _ else _) as [rsdp|].
  2: { cbn. destruct (Arm.topology_discover_acpi m hint) as [[[t w]|]|]; done. }
  destruct (X86.find_madt m rsdp) as [madt|]; [|cbn; destruct (Arm.topology_discover_acpi m hint) as [[[t w]|]|]; done].
  pose proof (x86_loop_returns (S (Z.to_nat (sdt_length m madt))) m (madt + 36 + 8) (madt + sdt_length m madt) []) as Hr.
  destruct (X86.madt_loop _ _ _ _ _) as [l|] eqn:E; [|by apply Hr; [lia|]]. apply x86_loop_bound in E; [|cbn; lia]. cbn [mbind option_bind].
  cbn [X86.cpus cores]. destruct (Arm.topology_discover_acpi m hint) as [[[t w]|]|]; rewrite ?length_map; done.
Qed.

(** *** What the walks read *)

Lemma le_read_agree m m' p n : (forall x, p <= x < p + Z.of_nat n -> m' x = m x) -> le_read m' p n = le_read m p n.
Proof. intros H. unfold le_read. by rewrite (bytes_agree m m' p n H). Qed.

Lemma arm_entry_agree m m' p s : 2 <= m (p + 1) -> (forall x, p <= x < p + m (p + 1) -> m' x = m x) ->
  Arm.madt_entry m' p s = Arm.madt_entry m p s.
Proof.
  intros H2 Hx. unfold Arm.madt_entry. rewrite (Hx p), (Hx (p + 1)) by lia.
  destruct ((m p =? Arm.MADT_TYPE_GICC) && (76 <=? m (p + 1))) eqn:E1.
  { apply andb_true_iff in E1 as [_ E1]. apply Z.leb_le in E1. rewrite !(le_read_agree m m') by (intros x ?; apply Hx; lia). done. }
  destruct ((m p =? Arm.MADT_TYPE_GICD) && (16 <=? m (p + 1))) eqn:E2.
  { apply andb_true_iff in E2 as [_ E2]. apply Z.leb_le in E2. rewrite (le_read_agree m m') by (intros x ?; apply Hx; lia).
    destruct (Z.leb_spec 21 (m (p + 1))); [|done]. by rewrite (Hx (p + 20)) by lia. }
  destruct ((m p =? Arm.MADT_TYPE_GICR) && (16 <=? m (p + 1))) eqn:E3; [|done].
  apply andb_true_iff in E3 as [_ E3]. apply Z.leb_le in E3. rewrite !(le_read_agree m m') by (intros x ?; apply Hx; lia). done.
Qed.

(** On AArch64 the walk over the MADT reads inside the table, whatever its bytes: in two memories that agree on the
    table it finds the same cores and devices. *)
Theorem arm_madt_reads_inside fuel m m' p end_ s :
  (forall x, p <= x < end_ -> m' x = m x) -> Arm.madt_walk fuel m' p end_ s = Arm.madt_walk fuel m p end_ s.
Proof.
  revert p s. induction fuel as [|fuel IH]; intros p s Hx; [done|]. cbn [Arm.madt_walk].
  destruct (Z.leb_spec (p + 2) end_); [|done]. rewrite (Hx (p + 1)) by lia.
  destruct (Z.ltb_spec (m (p + 1)) 2); cbn [orb]; [done|]. destruct (Z.ltb_spec end_ (p + m (p + 1))); [done|].
  rewrite (arm_entry_agree m m' p s) by (done || (intros x ?; apply Hx; lia)). destruct (Arm.madt_entry m p s); [|done].
  apply IH. intros x ?. apply Hx. lia.
Qed.


(** ** The tables of a machine *)

(** The checksum at byte [k]. *)
Definition sealed (k : nat) (l : list Z) : list Z := <[k := (- fold_left Z.add l 0) mod 256]> l.

Definition sdt (sig body : list Z) : list Z :=
  sealed 9 (sig ++ le_bytes 4 (36 + Z.of_nat (length body)) ++ repeat 0 28 ++ body).

Definition rsdp_bytes (xsdt : Z) : list Z :=
  let l := sealed 8 (SIG_RSDP ++ repeat 0 7 ++ [2] ++ le_bytes 4 0) in sealed 32 (l ++ le_bytes 4 36 ++ le_bytes 8 xsdt ++ repeat 0 4).

Definition demo_memory (entries : list entry) : memory :=
  place 0x1000 (rsdp_bytes 0x2000) (place 0x2000 (sdt SIG_XSDT (le_bytes 8 0x3000))
    (place 0x3000 (sdt SIG_APIC (le_bytes 4 0xFEE00000 ++ repeat 0 4 ++ table_of entries)) (fun _ => 0))).

(** Two processors, one of them disabled, and an I/O APIC. *)
Definition demo_x86 : list entry :=
  [{| e_type := 0; e_data := [0; 7; 1; 0; 0; 0] |}; {| e_type := 1; e_data := repeat 0 10 |}; {| e_type := 0; e_data := [1; 9; 0; 0; 0; 0] |}].
(** A distributor and a processor with MPIDR 0x81000203. *)
Definition demo_arm : list entry :=
  [{| e_type := 0x0C; e_data := repeat 0 6 ++ le_bytes 8 0x8000000 ++ [0; 0; 0; 0; 3; 0; 0; 0] |};
   {| e_type := 0x0B; e_data := repeat 0 10 ++ [1; 0; 0; 0] ++ repeat 0 52 ++ le_bytes 8 0x81000203 ++ repeat 0 4 |}].

Lemma demo_body es t : sdt SIG_APIC (le_bytes 4 0xFEE00000 ++ repeat 0 4 ++ table_of es) = t -> (44 <= length t)%nat ->
  holds (demo_memory es) (0x3000 + 44) (drop 44 t).
Proof.
  intros Et Hl. change (0x3000 + 44) with (0x3000 + Z.of_nat 44). apply holds_skip; [|done]. unfold demo_memory. rewrite Et.
  apply holds_place; [|right; vm_compute; discriminate]. apply holds_place; [|right; vm_compute; discriminate]. apply place_holds.
Qed.

Lemma x86_topology_listed_witness :
  X86.topology_discover (demo_memory demo_x86) 0x1000 =
  Some (Some {| cores := [{| target := 7; enabled := true |}; {| target := 9; enabled := false |}]; arch_opaque := (0xFEE00000, 0, 0, 0) |}).
Proof.
  rewrite (x86_topology_listed (demo_memory demo_x86) 0x1000 0x3000 demo_x86).
  - vm_compute. reflexivity.
  - discriminate.
  - vm_compute. reflexivity.
  - vm_compute. reflexivity.
  - split; [repeat constructor; cbn; lia|vm_compute; reflexivity|].
    exact (demo_body demo_x86 _ eq_refl ltac:(vm_compute; lia)).
Defined.

Lemma arm_topology_listed_witness :
  exists uart gic calls, Arm.topology_discover_acpi (demo_memory demo_arm) 0x1000 =
    Some (Some ({| cores := [{| target := 0x203; enabled := true |}]; arch_opaque := (uart, gic, 0, 0) |}, calls)) /\ gic = 0x8000000.
Proof.
  destruct (arm_topology_listed (demo_memory demo_arm) 0x1000 0x3000 demo_arm) as (uart & gic & calls & E & Hg).
  - vm_compute. reflexivity.
  - vm_compute. reflexivity.
  - split; [repeat constructor; cbn; lia|vm_compute; reflexivity|].
    exact (demo_body demo_arm _ eq_refl ltac:(vm_compute; lia)).
  - exists uart, gic, calls. split; [rewrite E; vm_compute; reflexivity|]. rewrite Hg; [vm_compute; reflexivity|]. vm_compute. lia.
Defined.

Lemma arm_madt_reads_inside_witness :
  Arm.madt_walk 200 (place 0x4000 [1; 2; 3] (demo_memory demo_arm)) 0x302c 0x3090 Arm.madt_start =
  Arm.madt_walk 200 (demo_memory demo_arm) 0x302c 0x3090 Arm.madt_start.
Proof.
  apply arm_madt_reads_inside. intros x Hx. unfold place at 1. rewrite (proj2 (Z.leb_gt _ _)) by lia. reflexivity.
Defined.

(** On x86-64 the walk over the MADT can read past the table: with a last entry cut off after two of its eight bytes,
    two memories that agree on every byte of the tables, checksums included, give two different processors. *)
Theorem x86_madt_reads_past_end :
  let m b := place 0x302e [0; b; 1; 0; 0; 0] (place 0x3000 (sdt SIG_APIC (le_bytes 4 0xFEE00000 ++ repeat 0 4 ++ [0; 8])) (demo_memory [])) in
  (forall b x, x < 0x302e -> m b x = m 0 x) /\ sdt_length (m 0) 0x3000 = 0x2e /\
  X86.topology_discover (m 5) 0x1000 =
    Some (Some {| cores := [{| target := 5; enabled := true |}]; arch_opaque := (0xFEE00000, 0, 0, 0) |}) /\
  X86.topology_discover (m 6) 0x1000 =
    Some (Some {| cores := [{| target := 6; enabled := true |}]; arch_opaque := (0xFEE00000, 0, 0, 0) |}).
Proof.
  intros m. split; [|split; [|split]; vm_compute; reflexivity]. intros b x Hx. unfold m. unfold place at 1 3.
  by rewrite (proj2 (Z.leb_gt _ _)) by lia.
Qed.
