(* ===== verification/Topology.v ===== *)
(** * Discovery from the device tree (coreinit/topology_aarch64.c)

    The device-tree half of discovery on AArch64, and the choice between it
    and ACPI (Acpi.v).  The blob is the bytes of physical memory that its
    header says; a read outside of it is [Oob], as in Fdt.v.  [fuel] bounds
    the searches for a compatible node, which need not end. *)

From S2P Require Import Prelude Bytes Fdt FdtTree FdtSafe FdtRoundtrip Acpi.

(** "/cpus", "/timer", "clock-frequency" and the compatible strings. *)
Definition S_cpus : list Z := [99; 112; 117; 115].
Definition S_timer : list Z := [116; 105; 109; 101; 114].
Definition P_cpus : list Z := SLASH :: S_cpus.
Definition P_timer : list Z := SLASH :: S_timer.
Definition S_clock_frequency : list Z := [99; 108; 111; 99; 107; 45; 102; 114; 101; 113; 117; 101; 110; 99; 121].
Definition C_cdns_uart : list Z := [99; 100; 110; 115; 44; 117; 97; 114; 116; 45; 114; 49; 112; 49; 50].
Definition C_zynqmp_uart : list Z := [120; 108; 110; 120; 44; 122; 121; 110; 113; 109; 112; 45; 117; 97; 114; 116].
Definition C_pl011 : list Z := [97; 114; 109; 44; 112; 108; 48; 49; 49].
Definition C_gic_v3 : list Z := [97; 114; 109; 44; 103; 105; 99; 45; 118; 51].
Definition C_a15_gic : list Z := [97; 114; 109; 44; 99; 111; 114; 116; 101; 120; 45; 97; 49; 53; 45; 103; 105; 99].
Definition C_gic_400 : list Z := [97; 114; 109; 44; 103; 105; 99; 45; 52; 48; 48].
Definition C_gic : list Z := [97; 114; 109; 44; 103; 105; 99].

(** "ok" and "okay", with the terminator. *)
Definition node_enabled (blob : list Z) (node_offset : Z) : res bool :=
  st ← fdt_getprop blob node_offset S_status;
  match st with
  | None => Ret true
  | Some (status, len) =>
      if negb (3 <=? len) then Ret false
      else
        s0 ← rd8 blob status;
        if negb (s0 =? 111) then Ret false
        else
          s1 ← rd8 blob (status + 1);
          if negb (s1 =? 107) then Ret false
          else
            s2 ← rd8 blob (status + 2);
            if s2 =? 0 then Ret true
            else if negb (5 <=? len) || negb (s2 =? 97) then Ret false
            else
              s3 ← rd8 blob (status + 3);
              if negb (s3 =? 121) then Ret false else s4 ← rd8 blob (status + 4); Ret (s4 =? 0)
  end.

Definition read_reg_first_cell (blob : list Z) (node_offset : Z) : res (option Z) :=
  reg ← fdt_getprop blob node_offset S_reg;
  match reg with
  | None => Ret None
  | Some (reg, len) =>
      if len =? 0 then Ret None
      else
        cells ← fdt_cell_counts blob node_offset;
        let addr_cells := match cells with Some (ac, _) => ac | None => 2 end in
        if addr_cells =? 1 then v ← rd_be32 blob reg; Ret (Some v)
        else if addr_cells =? 2 then hi ← rd_be32 blob reg; lo ← rd_be32 blob (reg + 4); Ret (Some (Z.lor (Z.shiftl hi 32) lo))
        else Ret None
  end.

(** The loop over the children of /cpus. *)
Fixpoint cpus_loop (fuel : nat) (blob : list Z) (cpus_offset cursor : Z) (found : list topology_core_t) : res (list topology_core_t) :=
  match fuel with
  | O => NoFuel
  | S fuel =>
      r ← fdt_next_child blob cpus_offset cursor;
      let '(child_offset, cursor) := r in
      if child_offset =? 0 then Ret found
      else if (TOPOLOGY_MAX_CORES <=? length found)%nat then Ret found
      else
        en ← node_enabled blob child_offset;
        if negb en then cpus_loop fuel blob cpus_offset cursor found
        else
          mpidr ← read_reg_first_cell blob child_offset;
          match mpidr with
          | None => cpus_loop fuel blob cpus_offset cursor found
          | Some mpidr => cpus_loop fuel blob cpus_offset cursor (found ++ [{| target := mpidr; enabled := true |}])
          end
  end.

(** [None]: there is no /cpus. *)
Definition discover_cpus (blob : list Z) : res (option (list topology_core_t)) :=
  cpus_offset ← fdt_path_offset blob P_cpus;
  if cpus_offset =? FDT_ERR_NODE then Ret None
  else found ← cpus_loop (fuel_of blob) blob cpus_offset 0 []; Ret (Some found).

(** The first of [names] that some node is compatible with, and the node. *)
Fixpoint first_compatible (fuel : nat) (blob : list Z) (names : list (list Z)) : res (option Z) :=
  match names with
  | [] => Ret None
  | name :: names =>
      r ← fdt_node_by_compatible fuel blob name;
      match r with Some off => Ret (Some off) | None => first_compatible fuel blob names end
  end.

(** The base of the console's registers, 0 without one, and whether it is a Cadence UART. *)
Definition discover_uart (fuel : nat) (blob : list Z) : res (Z * bool) :=
  cadence ← first_compatible fuel blob [C_cdns_uart; C_zynqmp_uart];
  uart ← match cadence with Some off => Ret (Some off) | None => fdt_node_by_compatible fuel blob C_pl011 end;
  match uart with
  | None => Ret (0, false)
  | Some off =>
      en ← node_enabled blob off;
      if negb en then Ret (0, false)
      else
        r ← fdt_reg_to_cpu_addr blob off 0;
        Ret (match r with Some range => (fr_base range, bool_decide (is_Some cadence)) | None => (0, false) end)
  end.

(** The base of the distributor, 0 without one, and the calls made. *)
Definition discover_gic (fuel : nat) (blob : list Z) : res (Z * list Arm.wire) :=
  v3 ← fdt_node_by_compatible fuel blob C_gic_v3;
  gic ← match v3 with Some off => Ret (Some off) | None => first_compatible fuel blob [C_a15_gic; C_gic_400; C_gic] end;
  match gic with
  | None => Ret (0, [])
  | Some off =>
      en ← node_enabled blob off;
      if negb en then Ret (0, [])
      else
        cpu ← fdt_reg_to_cpu_addr blob off 1;
        let calls :=
          match cpu with
          | Some range => if bool_decide (is_Some v3) then [Arm.irq_set_redistributor_region (fr_base range) (fr_size range)]
                          else [Arm.irq_set_cpu_base (fr_base range); Arm.signal_set_gic_v2]
          | None => []
          end in
        dist ← fdt_reg_to_cpu_addr blob off 0;
        Ret (match dist with Some range => fr_base range | None => 0 end, calls)
  end.

Definition discover_timer (blob : list Z) : res Z :=
  timer ← fdt_path_offset blob P_timer;
  if timer =? FDT_ERR_NODE then Ret 0
  else
    freq ← fdt_getprop blob timer S_clock_frequency;
    match freq with Some (p, len) => if 4 <=? len then rd_be32 blob p else Ret 0 | None => Ret 0 end.

Definition no_topology (hint : Z) : topology_t := {| cores := []; arch_opaque := (0, 0, 0, hint) |}.
Definition any_cores (t : topology_t) : bool := negb (bool_decide (cores t = [])).

Definition topology_discover_fdt (fuel : nat) (blob : list Z) (arch_hint : Z) : res (bool * topology_t * list Arm.wire) :=
  cpus ← discover_cpus blob;
  match cpus with
  | None => Ret (false, no_topology arch_hint, [])
  | Some found =>
      uart ← discover_uart fuel blob;
      gic ← discover_gic fuel blob;
      timer ← discover_timer blob;
      let t := {| cores := found; arch_opaque := (fst uart, fst gic, timer, arch_hint) |} in
      Ret (any_cores t, t, snd gic ++ Arm.topology_wire_backends (snd uart) t)
  end.

(** The return value, the topology and the calls of other drivers. *)
Definition topology_discover (fuel : nat) (m : memory) (arch_hint : Z) : res (bool * topology_t * list Arm.wire) :=
  if arch_hint =? 0 then Ret (false, no_topology 0, [])
  else if Arm.is_rsdp m arch_hint then
    match Arm.topology_discover_acpi m arch_hint with
    | None => NoFuel
    | Some None => Ret (false, no_topology 0, [])
    | Some (Some (t, calls)) => Ret (any_cores t, t, calls ++ Arm.topology_wire_backends false t)
    end
  else
    let blob_size := Z.lor (Z.lor (Z.lor (Z.shiftl (m (arch_hint + 4)) 24) (Z.shiftl (m (arch_hint + 5)) 16))
                                  (Z.shiftl (m (arch_hint + 6)) 8)) (m (arch_hint + 7)) in
    if (blob_size <? 40) || (16 * 1024 * 1024 <? blob_size) then Ret (false, no_topology 0, [])
    else
      let blob := bytes m arch_hint (Z.to_nat blob_size) in
      valid ← fdt_valid blob blob_size;
      if negb valid then Ret (false, no_topology 0, []) else topology_discover_fdt fuel blob arch_hint.

Definition CLUSTER_ARCH_AARCH64 : Z := 1.
Definition topology_timer_hint (t : topology_t) : Z := let '(_, _, f, _) := arch_opaque t in f.
Definition topology_aarch64_uart_base (t : topology_t) : Z := let '(u, _, _, _) := arch_opaque t in u.
Definition topology_cluster_arch : Z := CLUSTER_ARCH_AARCH64.

(** The device tree when there is one, the RSDP otherwise. *)
Definition topology_boot_hint (fdt_blob_phys early_rsdp_phys : Z) : Z := if fdt_blob_phys =? 0 then early_rsdp_phys else fdt_blob_phys.

(** ** The cores of a device tree *)

Definition status_ok (v : list Z) : bool :=
  bool_decide (take 3 v = [111; 107; 0]) || bool_decide (take 5 v = [111; 107; 97; 121; 0]).

Lemma rd8_lookup v i x : 0 <= i -> v !! Z.to_nat i = Some x -> rd8 v i = Ret x.
Proof.
  intros Hi Hx. pose proof (lookup_lt_Some _ _ _ Hx). unfold rd8.
  rewrite (proj2 (Z.ltb_ge _ _)), (proj2 (Z.leb_gt _ _)) by lia. cbn [orb]. by rewrite Hx.
Qed.

Lemma to_int_small x : 0 <= x < 2 ^ 31 -> to_int x = x.
Proof. intros Hx. rewrite <- (u64_small x) at 1 by (unfold is_u64, W64; lia). apply to_int_u64. unfold is_int. lia. Qed.

Lemma rd_be32_ok v i : 0 <= i -> i + 4 <= Z.of_nat (length v) -> exists x, rd_be32 v i = Ret x.
Proof.
  intros Hi Hl. assert (forall j, 0 <= j < Z.of_nat (length v) -> exists b, rd8 v j = Ret b) as H.
  { intros j Hj. destruct (lookup_lt_is_Some_2 v (Z.to_nat j) ltac:(lia)) as [b Eb]. exists b. apply rd8_lookup; [lia|done]. }
  unfold rd_be32. destruct (H i ltac:(lia)) as [b0 ->], (H (i + 1) ltac:(lia)) as [b1 ->], (H (i + 2) ltac:(lia)) as [b2 ->], (H (i + 3) ltac:(lia)) as [b3 ->].
  by eexists.
Qed.

Section cores.
Context (root : dnode) (sb : list Z).
Hypothesis enc : encodable root sb = true.

(** What a child of /cpus stands for, with [ac] address cells. *)
Definition core_of (ac : Z) (t : dnode) : option topology_core_t :=
  let on := match lookup_prop sb S_status (d_props t) with Some v => status_ok v | None => true end in
  match lookup_prop sb S_reg (d_props t) with
  | Some v => match rd_cells v 0 ac with Ret x => if on then Some {| target := x; enabled := true |} else None | _ => None end
  | None => None
  end.

Lemma rd8_here p v i : here (flatten root sb) p v -> 0 <= i < Z.of_nat (length v) -> rd8 (flatten root sb) (p + i) = rd8 v i.
Proof.
  intros (pre & post & E & ->) Hi. unfold rd8. rewrite E, !length_app. rewrite !(proj2 (Z.ltb_ge _ _)), !(proj2 (Z.leb_gt _ _)) by lia. cbn [orb].
  rewrite lookup_app_r by lia. rewrite lookup_app_l by lia.
  replace (Z.to_nat (Z.of_nat (length pre) + i) - length pre)%nat with (Z.to_nat i) by lia. done.
Qed.

Lemma rd_be32_in p v i : here (flatten root sb) p v -> 0 <= i -> i + 4 <= Z.of_nat (length v) -> rd_be32 (flatten root sb) (p + i) = rd_be32 v i.
Proof.
  intros H H0 H4. unfold rd_be32. rewrite (rd8_here p v i H) by lia. replace (p + i + 1) with (p + (i + 1)) by lia.
  replace (p + i + 2) with (p + (i + 2)) by lia. replace (p + i + 3) with (p + (i + 3)) by lia. by rewrite !(rd8_here p v _ H) by lia.
Qed.

Lemma node_enabled_reads t o d : node_at root 56 t o d ->
  node_enabled (flatten root sb) o = Ret (match lookup_prop sb S_status (d_props t) with Some v => status_ok v | None => true end).
Proof.
  intros Hat. pose proof (flattened_tree_properties root sb t o d S_status enc Hat) as Hg. unfold node_enabled.
  destruct (lookup_prop sb S_status (d_props t)) as [v|].
  2: { rewrite Hg by (intros H; repeat (destruct H as [H|H]; [discriminate H|]); done). done. }
  destruct Hg as (p & -> & Hh); [intros H; repeat (destruct H as [H|H]; [discriminate H|]); done|]. cbn [mbind res_bind].
  pose proof (rd8_here p v 0 Hh) as R0. pose proof (rd8_here p v 1 Hh) as R1. pose proof (rd8_here p v 2 Hh) as R2.
  pose proof (rd8_here p v 3 Hh) as R3. pose proof (rd8_here p v 4 Hh) as R4. rewrite Z.add_0_r in R0. clear Hh.
  unfold status_ok. destruct v as [|a [|b [|c0 v]]]; try (rewrite !bool_decide_eq_false_2 by (cbn; congruence); reflexivity).
  rewrite (proj2 (Z.leb_le 3 _)) by (cbn [length]; lia). cbn [negb]. rewrite R0, R1, R2 by (cbn [length]; lia). clear R0 R1 R2.
  rewrite (rd8_lookup (a :: b :: c0 :: v) 0 a) by done. rewrite (rd8_lookup (a :: b :: c0 :: v) 1 b) by done.
  rewrite (rd8_lookup (a :: b :: c0 :: v) 2 c0) by done. cbn [mbind res_bind take].
  destruct (Z.eqb_spec a 111) as [->|Ha]; cbn [negb]; [|by rewrite !bool_decide_eq_false_2 by congruence].
  destruct (Z.eqb_spec b 107) as [->|Hb]; cbn [negb]; [|by rewrite !bool_decide_eq_false_2 by congruence].
  destruct (Z.eqb_spec c0 0) as [->|Hc]; [by rewrite bool_decide_eq_true_2|]. rewrite bool_decide_eq_false_2 by congruence. cbn [orb].
  destruct (Z.eqb_spec c0 97) as [->|Hc']; cbn [negb]; [|by rewrite orb_true_r, bool_decide_eq_false_2 by congruence].
  destruct v as [|d0 [|e v]]; try (rewrite bool_decide_eq_false_2 by (cbn; congruence); reflexivity).
  rewrite (proj2 (Z.leb_le 5 _)) by (cbn [length]; lia). cbn [negb orb]. rewrite R3, R4 by (cbn [length]; lia).
  rewrite (rd8_lookup (111 :: 107 :: 97 :: d0 :: e :: v) 3 d0) by done. rewrite (rd8_lookup (111 :: 107 :: 97 :: d0 :: e :: v) 4 e) by done.
  cbn [mbind res_bind]. change (take 2 (d0 :: e :: v)) with [d0; e]. destruct (Z.eqb_spec d0 121) as [->|Hd]; cbn [negb]; [|by rewrite bool_decide_eq_false_2 by congruence].
  f_equal. destruct (Z.eqb_spec e 0) as [->|He]; [by rewrite bool_decide_eq_true_2|by rewrite bool_decide_eq_false_2 by congruence].
Qed.

(** The cell counts that a node with both properties gives its children. *)
Lemma child_cells name props l v r o d ac sc :
  node_at root 56 (DNode name props (l ++ v :: r)) o d -> (d < FDT_MAX_DEPTH)%nat -> 0 <= ac < 2 ^ 31 -> 0 <= sc < 2 ^ 32 ->
  lookup_prop sb S_address_cells props = Some (be32 ac) -> lookup_prop sb S_size_cells props = Some (be32 sc) ->
  exists sc', fdt_cell_counts (flatten root sb)
    (o + Z.of_nat (length (flat_head name props)) + Z.of_nat (length (concat (flat_node <$> l)))) = Ret (Some (ac, sc')).
Proof.
  intros Hat Hd Hac Hsc Ha Hs. destruct (enc_parts root sb enc) as (Hw & _ & Hl). pose proof (strings_fit root sb enc) as Hst.
  pose proof (flatten_inside root sb) as Hin. pose proof (flatten_ctx root sb enc) as Hctx.
  pose proof (parent_offset_reads _ _ Hl _ Hst Hctx root Hin Hw _ _ (S d) _ (node_at_child _ _ _ _ Hin Hw _ _ _ _ _ _ _ Hat) ltac:(lia)) as Hp.
  unfold fdt_cell_counts, fdt_parent_cells. unfold with_ctx. rewrite Hctx. cbn [mbind res_bind]. rewrite Hp. cbn [mbind res_bind].
  unfold fuel_of. cbn [cells_loop]. destruct (Z.ltb_spec o 0) as [Ho|_].
  { pose proof (node_at_bounds _ (flat_ctx root sb) Hl _ root Hin Hw [] _ _ _ Hat). lia. }
  assert (forall nm x, lookup_prop sb nm props = Some (be32 x) -> ~ In 0 nm -> 0 <= x < 2 ^ 32 -> own_cells (flatten root sb) o nm = Ret (Some x)) as Hown.
  { intros nm x Hnm H0 Hx. pose proof (flattened_tree_properties root sb _ o d nm enc Hat H0) as Hg. cbn [d_props] in Hg. rewrite Hnm in Hg.
    destruct Hg as (p & E & Hh). unfold own_cells. rewrite E. cbn [mbind res_bind]. rewrite length_be32. by rewrite (rd_be32_here _ p x Hx Hh). }
  unfold cells_at. rewrite (Hown S_address_cells ac Ha), (Hown S_size_cells sc Hs);
    [|intros H; repeat (destruct H as [H|H]; [discriminate H|]); done|lia|intros H; repeat (destruct H as [H|H]; [discriminate H|]); done|lia].
  cbn. eexists. rewrite (to_int_small ac) by lia. reflexivity.
Qed.

(** A register property that is empty or long enough for its address. *)
Definition reg_fits (ac : Z) (t : dnode) : Prop :=
  match lookup_prop sb S_reg (d_props t) with Some v => v = [] \/ 4 * ac <= Z.of_nat (length v) | None => True end.

Lemma reg_reads name props l v r o d ac sc :
  node_at root 56 (DNode name props (l ++ v :: r)) o d -> (d < FDT_MAX_DEPTH)%nat -> ac = 1 \/ ac = 2 -> 0 <= sc < 2 ^ 32 ->
  lookup_prop sb S_address_cells props = Some (be32 ac) -> lookup_prop sb S_size_cells props = Some (be32 sc) -> reg_fits ac v ->
  let ov := o + Z.of_nat (length (flat_head name props)) + Z.of_nat (length (concat (flat_node <$> l))) in
  read_reg_first_cell (flatten root sb) ov =
  Ret (match lookup_prop sb S_reg (d_props v) with
       | Some b => match rd_cells b 0 ac with Ret x => Some x | _ => None end
       | None => None
       end).
Proof.
  intros Hat Hd Hac Hsc Ha Hs Hfit ov. destruct (enc_parts root sb enc) as (Hw & _ & _). pose proof (flatten_inside root sb) as Hin.
  pose proof (at_below _ _ _ _ _ _ (node_at_child _ (flat_ctx root sb) _ root Hin Hw _ _ _ _ _ _ _ Hat)) as Hatv. fold ov in Hatv.
  pose proof (flattened_tree_properties root sb v ov (S d) S_reg enc Hatv) as Hg. unfold reg_fits in Hfit. unfold read_reg_first_cell.
  destruct (lookup_prop sb S_reg (d_props v)) as [b|].
  2: { rewrite Hg by (intros H; repeat (destruct H as [H|H]; [discriminate H|]); done). done. }
  destruct Hg as (p & -> & Hh); [intros H; repeat (destruct H as [H|H]; [discriminate H|]); done|]. cbn [mbind res_bind].
  destruct Hfit as [->|Hfit]; [by destruct Hac as [->| ->]|].
  rewrite (proj2 (Z.eqb_neq _ _)) by lia. destruct (child_cells name props l v r o d ac sc Hat Hd ltac:(lia) Hsc Ha Hs) as [sc' Ec].
  fold ov in Ec. rewrite Ec. cbn [mbind res_bind]. unfold rd_cells, rd_be64. pose proof (rd_be32_in p b 0 Hh ltac:(lia) ltac:(lia)) as R0.
  rewrite Z.add_0_r in R0. destruct (rd_be32_ok b 0) as [x Ex]; [lia..|]. destruct Hac as [->| ->]; cbn [Z.eqb Pos.eqb].
  - rewrite R0, Ex. done.
  - destruct (rd_be32_ok b 4) as [y Ey]; [lia..|]. rewrite R0, (rd_be32_in p b 4 Hh), Ex by lia. cbn [mbind res_bind].
    change (0 + 4) with 4. rewrite Ey. done.
Qed.

Lemma next_child_reads name props l r o d cursor :
  node_at root 56 (DNode name props (l ++ r)) o d -> (d < FDT_MAX_DEPTH)%nat ->
  let q := o + Z.of_nat (length (flat_head name props)) in
  match rev l with [] => cursor = 0 | v :: l' => cursor = q + Z.of_nat (length (concat (flat_node <$> rev l'))) end ->
  fdt_next_child (flatten root sb) o cursor =
  Ret (match r with [] => (0, 0) | _ => let ov := q + Z.of_nat (length (concat (flat_node <$> l))) in (ov, ov) end).
Proof.
  intros Hat Hd q Hcur. destruct (enc_parts root sb enc) as (Hw & _ & Hl). pose proof (strings_fit root sb enc) as Hst.
  pose proof (flatten_inside root sb) as Hin. pose proof (flatten_ctx root sb enc) as Hctx.
  destruct (node_at_inside _ _ Hl _ root Hin Hw _ _ _ Hat) as [Hi Hwi]. pose proof (node_at_bounds _ (flat_ctx root sb) Hl _ root Hin Hw [] _ _ _ Hat) as [Ho _].
  assert (0 < Z.of_nat (length (flat_head name props))) as Hh by (unfold flat_head; rewrite !length_app, length_be32; lia).
  unfold fdt_next_child. destruct (rev l) as [|v l'] eqn:El.
  - apply (f_equal (@rev _)) in El. rewrite rev_involutive in El. cbn in El. subst l cursor. cbn [app] in *.
    rewrite (first_child_reads _ _ Hl _ Hst Hctx _ _ _ _ Hi Hwi). cbn [Z.eqb mbind res_bind]. destruct r as [|u r]; [done|].
    cbn [fmap list_fmap concat length]. rewrite (proj2 (Z.eqb_neq _ _)) by (unfold FDT_ERR_NODE; lia). fold q. by rewrite Z.add_0_r.
  - assert (l = rev l' ++ [v]) as -> by (rewrite <- (rev_involutive l), El; done). rewrite <- app_assoc in Hat. cbn [app] in Hat.
    pose proof (next_sibling_reads _ _ Hl _ Hst Hctx root Hin Hw o d name props (rev l') v r Hat Hd) as Hn. cbn zeta in Hn. fold q in Hn.
    rewrite <- Hcur in Hn. rewrite (proj2 (Z.eqb_neq cursor 0)) by lia. rewrite Hn. cbn [mbind res_bind]. destruct r as [|u r]; [done|].
    rewrite (proj2 (Z.eqb_neq _ _)) by (unfold FDT_ERR_NODE; lia). rewrite fmap_app, concat_app, length_app. cbn [fmap list_fmap concat].
    rewrite app_nil_r. do 2 f_equal; lia.
Qed.

Lemma cpus_loop_reads name props o d ac sc r : forall l fuel cursor acc,
  node_at root 56 (DNode name props (l ++ r)) o d -> (d < FDT_MAX_DEPTH)%nat -> ac = 1 \/ ac = 2 -> 0 <= sc < 2 ^ 32 ->
  lookup_prop sb S_address_cells props = Some (be32 ac) -> lookup_prop sb S_size_cells props = Some (be32 sc) -> Forall (reg_fits ac) r ->
  let q := o + Z.of_nat (length (flat_head name props)) in
  match rev l with [] => cursor = 0 | v :: l' => cursor = q + Z.of_nat (length (concat (flat_node <$> rev l'))) end ->
  (length r < fuel)%nat -> (length acc <= TOPOLOGY_MAX_CORES)%nat ->
  cpus_loop fuel (flatten root sb) o cursor acc = Ret (take TOPOLOGY_MAX_CORES (acc ++ omap (core_of ac) r)).
Proof.
  induction r as [|v r IH]; intros l fuel cursor acc Hat Hd Hac Hsc Ha Hs Hfit q Hcur Hf Hacc; (destruct fuel as [|fuel]; [cbn in Hf; lia|]);
    cbn [cpus_loop]; rewrite (next_child_reads name props l _ o d cursor Hat Hd Hcur); cbn [mbind res_bind].
  { cbn [Z.eqb omap list_omap]. by rewrite app_nil_r, take_ge. }
  fold q. set (ov := q + Z.of_nat (length (concat (flat_node <$> l)))). apply Forall_cons_1 in Hfit as [Hfv Hfit]. cbn [length] in Hf.
  destruct (enc_parts root sb enc) as (Hw & _ & Hl). pose proof (flatten_inside root sb) as Hin.
  pose proof (at_below _ _ _ _ _ _ (node_at_child _ (flat_ctx root sb) _ root Hin Hw _ _ _ _ _ _ _ Hat)) as Hatv.
  pose proof (node_at_bounds _ (flat_ctx root sb) Hl _ root Hin Hw [] _ _ _ Hat) as [Ho _].
  assert (0 < Z.of_nat (length (flat_head name props))) as Hh by (unfold flat_head; rewrite !length_app, length_be32; lia).
  rewrite (proj2 (Z.eqb_neq ov 0)) by (unfold ov, q; lia).
  destruct (Nat.leb_spec TOPOLOGY_MAX_CORES (length acc)); [rewrite take_app_le, take_ge by lia; done|].
  assert (forall acc, (length acc <= TOPOLOGY_MAX_CORES)%nat -> cpus_loop fuel (flatten root sb) o ov acc = Ret (take TOPOLOGY_MAX_CORES (acc ++ omap (core_of ac) r))) as Hnext.
  { intros acc' Hacc'. apply (IH (l ++ [v])); try done; [by rewrite <- app_assoc| |lia]. rewrite rev_app_distr. cbn [rev app]. by rewrite rev_involutive. }
  rewrite (node_enabled_reads v ov (S d) Hatv). cbn [mbind res_bind omap list_omap].
  pose proof (reg_reads name props l v r o d ac sc Hat Hd Hac Hsc Ha Hs Hfv) as Hreg. cbn zeta in Hreg. fold q ov in Hreg. unfold core_of at 1.
  destruct (match lookup_prop sb S_status (d_props v) with Some v0 => status_ok v0 | None => true end); cbn [negb].
  - rewrite Hreg. cbn [mbind res_bind]. destruct (lookup_prop sb S_reg (d_props v)) as [b|]; [|by apply Hnext].
    destruct (rd_cells b 0 ac) as [x| |]; [|by apply Hnext..]. rewrite Hnext by (rewrite length_app; cbn; lia). by rewrite <- app_assoc.
  - rewrite Hnext by done. destruct (lookup_prop sb S_reg (d_props v)) as [b|]; [|done]. by destruct (rd_cells b 0 ac).
Qed.

(** A child of the root that a path of one name leads to. *)
Lemma walk_child_at n t o : walk [n] root 56 = Some (t, o) -> node_at root 56 t o 1.
Proof.
  intros Ew. destruct root as [rn rp rc]. cbn [walk d_name d_props d_children] in Ew. destruct (offset_named n _ rc) as [[u o']|] eqn:Eo; [|done]. injection Ew as -> ->.
  destruct (offset_named_split [] [] _ _ _ _ _ Eo) as (l & r & -> & ->). eapply at_below, in_child.
Qed.

(** C39: The cores found in a device tree are those it describes: on the flattened form of a tree whose /cpus declares both
    cell counts, one or two for addresses, and whose cores have no register shorter than their address, discovery returns one enabled core for each child of /cpus whose status is absent,
    "ok" or "okay" and that has a register, in order and up to 64, each with the address of its register; and without
    /cpus it finds none. *)
Theorem fdt_cores_listed ac :
  match walk [S_cpus] root 56 with
  | None => discover_cpus (flatten root sb) = Ret None
  | Some (t, _) =>
      ac = 1 \/ ac = 2 -> lookup_prop sb S_address_cells (d_props t) = Some (be32 ac) ->
      (exists sc, 0 <= sc < 2 ^ 32 /\ lookup_prop sb S_size_cells (d_props t) = Some (be32 sc)) ->
      Forall (reg_fits ac) (d_children t) ->
      discover_cpus (flatten root sb) = Ret (Some (take 64 (omap (core_of ac) (d_children t))))
  end.
Proof.
  destruct (enc_parts root sb enc) as (Hw & _ & Hl). pose proof (strings_fit root sb enc) as Hst.
  pose proof (flatten_inside root sb) as Hin. pose proof (flatten_ctx root sb enc) as Hctx.
  pose proof (path_offset_reads _ (flat_ctx root sb) Hl _ Hst Hctx root Hin Hw sb [S_cpus] eq_refl ltac:(unfold FDT_MAX_DEPTH; cbn; lia)) as Hp.
  unfold discover_cpus. change P_cpus with (path_of [S_cpus]). rewrite Hp. change (c_s (flat_ctx root sb)) with 56.
  destruct (walk [S_cpus] root 56) as [[t o]|] eqn:Ew; [|done]. cbn [found_at mbind res_bind]. intros Hac Ha (sc & Hsc & Hs) Hfit.
  pose proof (walk_child_at _ _ _ Ew) as Hat. destruct t as [name props children].
  pose proof (node_at_bounds _ (flat_ctx root sb) Hl _ root Hin Hw [] _ _ _ Hat) as [Ho _].
  rewrite (proj2 (Z.eqb_neq _ _)) by (unfold FDT_ERR_NODE; lia). cbn [d_children d_props] in *.
  rewrite (cpus_loop_reads name props o 1 ac sc children [] (fuel_of (flatten root sb)) 0 []); [done|done|unfold FDT_MAX_DEPTH; lia|done..| |cbn; lia].
  destruct (node_at_inside _ _ Hl _ root Hin Hw _ _ _ Hat) as [(_ & _ & Hb%here_bound) _].
  pose proof (tokens_fit [] (DNode name props children)) as Ht. rewrite (tokens_eq []) in Ht. unfold fuel_of.
  assert (length children <= sum_tokens children)%nat; [|lia]. clear. unfold sum_tokens. induction children as [|[] ts IH]; cbn; lia.
Qed.
End cores.

(** A machine with two cores in /cpus, the second of them disabled, and a
    third one enabled by "okay". *)
Definition demo_cpu_strings : list Z := S_address_cells ++ [0] ++ S_size_cells ++ [0] ++ S_reg ++ [0] ++ S_status ++ [0].
Definition demo_cpu (unit : Z) (more : list (Z * list Z)) : dnode := DNode [99; 112; 117; 64; 48 + unit] ((27, be32 unit) :: more) [].
Definition demo_machine : dnode :=
  DNode [] [] [DNode S_cpus [(0, be32 1); (15, be32 0)]
    [demo_cpu 0 []; demo_cpu 1 [(31, [100; 105; 115; 97; 98; 108; 101; 100; 0])]; demo_cpu 2 [(31, [111; 107; 97; 121; 0])]]].

Lemma fdt_cores_listed_witness :
  encodable demo_machine demo_cpu_strings = true /\
  discover_cpus (flatten demo_machine demo_cpu_strings) =
    Ret (Some [{| target := 0; enabled := true |}; {| target := 2; enabled := true |}]).
Proof.
  assert (encodable demo_machine demo_cpu_strings = true) as He by (vm_compute; reflexivity). split; [exact He|].
  apply (fdt_cores_listed demo_machine demo_cpu_strings He 1).
  - left; reflexivity.
  - vm_compute; reflexivity.
  - exists 0. split; [split; [discriminate|reflexivity]|vm_compute; reflexivity].
  - apply Forall_cons; split; [|apply Forall_cons; split; [|apply Forall_cons; split; [|apply Forall_nil; exact I]]];
      vm_compute; right; discriminate.
Defined.
