(* ===== verification/NetworkDevice.v ===== *)
(** * The network drivers of AArch64 (coreinit/network_device_aarch64.c)

    The polling drivers of virtio-net and of the Cadence GEM, behind
    network_device.h.  The descriptors and rings that driver and device share
    are records; the packet buffers are bytes of memory.  The device is a
    parameter: a register file [D] with the bus's reads and writes, and
    [observe], what the device does to the shared state before the driver
    looks at it.  Cache maintenance and barriers have no effect in the model:
    memory is one. *)

From S2P Require Import Prelude Bytes Fdt NetworkRpc NetworkEther.

Definition VIRTIO_MAGIC : Z := 0x74726976.
Definition VIRTIO_DEVICE_NET : Z := 1.
Definition VIRTIO_STATUS_ACK : Z := 1.
Definition VIRTIO_STATUS_DRIVER : Z := 2.
Definition VIRTIO_STATUS_DRIVER_OK : Z := 4.
Definition VIRTIO_STATUS_FEATURES_OK : Z := 8.
Definition VIRTIO_STATUS_FAILED : Z := 128.
Definition REG_MAGIC : Z := 0x000.
Definition REG_VERSION : Z := 0x004.
Definition REG_DEVICE_ID : Z := 0x008.
Definition REG_DEVICE_FEATURES : Z := 0x010.
Definition REG_DEVICE_FEATURES_SEL : Z := 0x014.
Definition REG_DRIVER_FEATURES : Z := 0x020.
Definition REG_DRIVER_FEATURES_SEL : Z := 0x024.
Definition REG_QUEUE_SEL : Z := 0x030.
Definition REG_QUEUE_NUM_MAX : Z := 0x034.
Definition REG_QUEUE_NUM : Z := 0x038.
Definition REG_QUEUE_READY : Z := 0x044.
Definition REG_QUEUE_NOTIFY : Z := 0x050.
Definition REG_INTERRUPT_STATUS : Z := 0x060.
Definition REG_INTERRUPT_ACK : Z := 0x064.
Definition REG_STATUS : Z := 0x070.
Definition REG_QUEUE_DESC_LOW : Z := 0x080.
Definition REG_QUEUE_DRIVER_LOW : Z := 0x090.
Definition REG_QUEUE_DEVICE_LOW : Z := 0x0a0.
Definition REG_CONFIG : Z := 0x100.

Definition QUEUE_SIZE : nat := 8.
Definition BUFFER_SIZE : Z := 2048.
Definition NET_HEADER_SIZE : Z := 12.
Definition DESC_F_WRITE : Z := 2.
Definition TX_SPINS : positive := 10000000.

(** ** The virtio queues *)

Record virtq_desc_t := { d_addr : Z; d_len : Z; d_flags : Z; d_next : Z }.
#[global] Instance virtq_desc_inhabited : Inhabited virtq_desc_t := populate {| d_addr := 0; d_len := 0; d_flags := 0; d_next := 0 |}.

(** The descriptors, the available ring and the used ring, whose elements are
    the id of a descriptor and a length. *)
Record virtq_t := { q_desc : list virtq_desc_t; avail_idx : Z; avail_ring : list Z; used_idx : Z; used_ring : list (Z * Z) }.

Definition virtq_zero : virtq_t := {|
  q_desc := replicate QUEUE_SIZE inhabitant; avail_idx := 0; avail_ring := replicate QUEUE_SIZE 0;
  used_idx := 0; used_ring := replicate QUEUE_SIZE (0, 0) |}.

Definition set_desc (i : nat) (d : virtq_desc_t) (q : virtq_t) : virtq_t :=
  {| q_desc := <[i := d]> (q_desc q); avail_idx := avail_idx q; avail_ring := avail_ring q; used_idx := used_idx q; used_ring := used_ring q |}.

(** A ring's slot for a 16-bit index. *)
Definition slot (idx : Z) : nat := Z.to_nat (idx mod 8).

(** [avail = q.avail.idx; q.avail.ring[avail % QUEUE_SIZE] = id; q.avail.idx = avail + 1] *)
Definition publish (id : Z) (q : virtq_t) : virtq_t :=
  {| q_desc := q_desc q; avail_idx := u16 (avail_idx q + 1); avail_ring := <[slot (avail_idx q) := id]> (avail_ring q);
     used_idx := used_idx q; used_ring := used_ring q |}.

Record virtio_net := {
  n_base : Z; n_mac : list Z; rx_last_used : Z; tx_last_used : Z; n_ready : bool; n_rx : virtq_t; n_tx : virtq_t }.

Definition set_n_base (b : Z) (n : virtio_net) : virtio_net :=
  {| n_base := b; n_mac := n_mac n; rx_last_used := rx_last_used n; tx_last_used := tx_last_used n; n_ready := n_ready n; n_rx := n_rx n; n_tx := n_tx n |}.
Definition set_n_mac (m : list Z) (n : virtio_net) : virtio_net :=
  {| n_base := n_base n; n_mac := m; rx_last_used := rx_last_used n; tx_last_used := tx_last_used n; n_ready := n_ready n; n_rx := n_rx n; n_tx := n_tx n |}.
Definition set_rx_last_used (i : Z) (n : virtio_net) : virtio_net :=
  {| n_base := n_base n; n_mac := n_mac n; rx_last_used := i; tx_last_used := tx_last_used n; n_ready := n_ready n; n_rx := n_rx n; n_tx := n_tx n |}.
Definition set_tx_last_used (i : Z) (n : virtio_net) : virtio_net :=
  {| n_base := n_base n; n_mac := n_mac n; rx_last_used := rx_last_used n; tx_last_used := i; n_ready := n_ready n; n_rx := n_rx n; n_tx := n_tx n |}.
Definition set_n_ready (r : bool) (n : virtio_net) : virtio_net :=
  {| n_base := n_base n; n_mac := n_mac n; rx_last_used := rx_last_used n; tx_last_used := tx_last_used n; n_ready := r; n_rx := n_rx n; n_tx := n_tx n |}.
Definition set_n_rx (q : virtq_t) (n : virtio_net) : virtio_net :=
  {| n_base := n_base n; n_mac := n_mac n; rx_last_used := rx_last_used n; tx_last_used := tx_last_used n; n_ready := n_ready n; n_rx := q; n_tx := n_tx n |}.
Definition set_n_tx (q : virtq_t) (n : virtio_net) : virtio_net :=
  {| n_base := n_base n; n_mac := n_mac n; rx_last_used := rx_last_used n; tx_last_used := tx_last_used n; n_ready := n_ready n; n_rx := n_rx n; n_tx := q |}.

(** ** The Cadence GEM's descriptors *)

Definition GEM_NCR : Z := 0x000.
Definition GEM_NCFGR : Z := 0x004.
Definition GEM_DMACFG : Z := 0x010.
Definition GEM_TSR : Z := 0x014.
Definition GEM_RBQP : Z := 0x018.
Definition GEM_TBQP : Z := 0x01c.
Definition GEM_RSR : Z := 0x020.
Definition GEM_IDR : Z := 0x02c.
Definition GEM_SA1B : Z := 0x088.
Definition GEM_SA1T : Z := 0x08c.
Definition GEM_NCR_RXEN : Z := 4.
Definition GEM_NCR_TXEN : Z := 8.
Definition GEM_NCR_TSTART : Z := 0x200.
Definition GEM_NCFGR_FD : Z := 2.
Definition GEM_NCFGR_PROMISC : Z := 0x10.
Definition GEM_NCFGR_NO_BROADCAST : Z := 0x20.
Definition GEM_NCFGR_RECV_1536 : Z := 0x100.
Definition GEM_NCFGR_RECV_BUF_OFFSET : Z := 0xc000.
Definition GEM_NCFGR_FCS_REMOVE : Z := 0x20000.
Definition GEM_RX_OWNED : Z := 1.
Definition GEM_RX_WRAP : Z := 2.
Definition GEM_RX_LENGTH : Z := 0x1fff.
Definition GEM_RX_SOF : Z := 0x4000.
Definition GEM_RX_EOF : Z := 0x8000.
Definition GEM_TX_LAST : Z := 0x8000.
Definition GEM_TX_WRAP : Z := 0x40000000.
Definition GEM_TX_USED : Z := 0x80000000.

Record gem_desc_t := { g_address : Z; g_status : Z }.
#[global] Instance gem_desc_inhabited : Inhabited gem_desc_t := populate {| g_address := 0; g_status := 0 |}.

Record gem_net := { g_base : Z; g_mac : list Z; rx_index : Z; rx_desc : list gem_desc_t; tx_desc : gem_desc_t }.

Definition set_g_mac (m : list Z) (g : gem_net) : gem_net :=
  {| g_base := g_base g; g_mac := m; rx_index := rx_index g; rx_desc := rx_desc g; tx_desc := tx_desc g |}.
Definition set_tx_desc (d : gem_desc_t) (g : gem_net) : gem_net :=
  {| g_base := g_base g; g_mac := g_mac g; rx_index := rx_index g; rx_desc := rx_desc g; tx_desc := d |}.

Inductive net_kind := NET_NONE | NET_VIRTIO | NET_GEM.
#[global] Instance net_kind_eq : EqDecision net_kind.
Proof. solve_decision. Defined.

(** ** The drivers *)

(** Where the buffers and the queues lie. *)
Record layout := { rx_at : Z; tx_at : Z; rxq_at : Z; txq_at : Z; gem_rx_at : Z; gem_tx_at : Z; gem_rxd_at : Z; gem_txd_at : Z }.

(** Offsets of the rings in a [virtq_t]. *)
Definition AVAIL_OFF : Z := 128.
Definition USED_OFF : Z := 148.

Section driver.
Context {D : Type} (mmio_read32 : Z -> D -> D * Z) (mmio_read8 : Z -> D -> D * Z) (mmio_write32 : Z -> Z -> D -> D).
Context (at_ : layout).

Record world := { w_net : virtio_net; w_gem : gem_net; w_kind : net_kind; w_mem : memory; w_regs : D }.

Definition set_net (n : virtio_net) (w : world) : world :=
  {| w_net := n; w_gem := w_gem w; w_kind := w_kind w; w_mem := w_mem w; w_regs := w_regs w |}.
Definition set_gem (g : gem_net) (w : world) : world :=
  {| w_net := w_net w; w_gem := g; w_kind := w_kind w; w_mem := w_mem w; w_regs := w_regs w |}.
Definition set_kind (k : net_kind) (w : world) : world :=
  {| w_net := w_net w; w_gem := w_gem w; w_kind := k; w_mem := w_mem w; w_regs := w_regs w |}.
Definition set_mem (m : memory) (w : world) : world :=
  {| w_net := w_net w; w_gem := w_gem w; w_kind := w_kind w; w_mem := m; w_regs := w_regs w |}.
Definition set_regs (d : D) (w : world) : world :=
  {| w_net := w_net w; w_gem := w_gem w; w_kind := w_kind w; w_mem := w_mem w; w_regs := d |}.

Definition rd (reg : Z) (w : world) : world * Z :=
  let '(d, v) := mmio_read32 (n_base (w_net w) + reg) (w_regs w) in (set_regs d w, v).
Definition wr (reg value : Z) (w : world) : world := set_regs (mmio_write32 (n_base (w_net w) + reg) value (w_regs w)) w.

Definition set_addr (low_reg address : Z) (w : world) : world := wr (low_reg + 4) (u32 (Z.shiftr address 32)) (wr low_reg (u32 address) w).

(** [install] puts a queue into the driver's state. *)
Definition setup_queue (index q_at : Z) (install : virtq_t -> virtio_net -> virtio_net) (w : world) : world * bool :=
  let w := wr REG_QUEUE_SEL index w in
  let '(w, max) := rd REG_QUEUE_NUM_MAX w in
  if max <? Z.of_nat QUEUE_SIZE then (w, false)
  else
    let '(w, busy) := rd REG_QUEUE_READY w in
    if negb (busy =? 0) then (w, false)
    else
      let w := set_net (install virtq_zero (w_net w)) w in
      let w := wr REG_QUEUE_NUM (Z.of_nat QUEUE_SIZE) w in
      let w := set_addr REG_QUEUE_DESC_LOW q_at w in
      let w := set_addr REG_QUEUE_DRIVER_LOW (q_at + AVAIL_OFF) w in
      let w := set_addr REG_QUEUE_DEVICE_LOW (q_at + USED_OFF) w in
      let w := wr REG_QUEUE_READY 1 w in
      let '(w, r) := rd REG_QUEUE_READY w in
      (w, r =? 1).

(** The search of [virtio_init]; [n] bounds the nodes looked at, [fuel] each search for the next one. *)
Fixpoint virtio_find (n fuel : nat) (blob : list Z) (node : Z) (w : world) : res (world * bool) :=
  match n with
  | O => NoFuel
  | S n =>
      node ← fdt_next_node_by_compatible_offset fuel blob [118; 105; 114; 116; 105; 111; 44; 109; 109; 105; 111] node;
      if node =? FDT_ERR_NODE then Ret (w, false)
      else
        en ← fdt_is_enabled blob node;
        if negb en then virtio_find n fuel blob node w
        else
          range ← fdt_reg_to_cpu_addr blob node 0;
          match range with
          | None => virtio_find n fuel blob node w
          | Some range =>
              let w := set_net (set_n_base (fr_base range) (w_net w)) w in
              let '(w, magic) := rd REG_MAGIC w in
              if negb (magic =? VIRTIO_MAGIC) then virtio_find n fuel blob node w
              else
                let '(w, version) := rd REG_VERSION w in
                if negb (version =? 2) then virtio_find n fuel blob node w
                else
                  let '(w, id) := rd REG_DEVICE_ID w in
                  if negb (id =? VIRTIO_DEVICE_NET) then virtio_find n fuel blob node w else Ret (w, true)
          end
  end.

(** The descriptors that hand all the receive buffers to the device. *)
Definition rx_offered (q : virtq_t) : virtq_t := {|
  q_desc := map (fun i => {| d_addr := rx_at at_ + Z.of_nat i * BUFFER_SIZE; d_len := BUFFER_SIZE; d_flags := DESC_F_WRITE;
                             d_next := d_next (q_desc q !!? i) |}) (seq 0 QUEUE_SIZE);
  avail_idx := Z.of_nat QUEUE_SIZE; avail_ring := map Z.of_nat (seq 0 QUEUE_SIZE); used_idx := used_idx q; used_ring := used_ring q |}.

Fixpoint read_config (n : nat) (i : Z) (w : world) : world * list Z :=
  match n with
  | O => (w, [])
  | S n =>
      let '(d, b) := mmio_read8 (n_base (w_net w) + REG_CONFIG + i) (w_regs w) in
      let '(w, bs) := read_config n (i + 1) (set_regs d w) in (w, b :: bs)
  end.

(** [virtio_init] once a device is found. *)
Definition virtio_start (node_id : Z) (w : world) : world * bool :=
  let w := wr REG_STATUS 0 w in
  let w := wr REG_STATUS VIRTIO_STATUS_ACK w in
  let w := wr REG_STATUS (Z.lor VIRTIO_STATUS_ACK VIRTIO_STATUS_DRIVER) w in
  let w := wr REG_DEVICE_FEATURES_SEL 1 w in
  let '(w, high) := rd REG_DEVICE_FEATURES w in
  if Z.land high 1 =? 0 then (wr REG_STATUS VIRTIO_STATUS_FAILED w, false)
  else
    let w := wr REG_DEVICE_FEATURES_SEL 0 w in
    let '(w, low) := rd REG_DEVICE_FEATURES w in
    let accept_low := Z.land low 32 in
    let w := wr REG_DRIVER_FEATURES_SEL 0 w in
    let w := wr REG_DRIVER_FEATURES accept_low w in
    let w := wr REG_DRIVER_FEATURES_SEL 1 w in
    let w := wr REG_DRIVER_FEATURES 1 w in
    let status := Z.lor (Z.lor VIRTIO_STATUS_ACK VIRTIO_STATUS_DRIVER) VIRTIO_STATUS_FEATURES_OK in
    let w := wr REG_STATUS status w in
    let '(w, st) := rd REG_STATUS w in
    if Z.land st VIRTIO_STATUS_FEATURES_OK =? 0 then (w, false)
    else
      let '(w, ok) := setup_queue 0 (rxq_at at_) set_n_rx w in
      let '(w, ok) := if ok : bool then setup_queue 1 (txq_at at_) set_n_tx w else (w, false) in
      if negb ok then (wr REG_STATUS (Z.lor status VIRTIO_STATUS_FAILED) w, false)
      else
        let w := set_net (set_n_rx (rx_offered (n_rx (w_net w))) (w_net w)) w in
        let w := wr REG_QUEUE_NOTIFY 0 w in
        let '(w, mac) :=
          if negb (accept_low =? 0) then read_config 6 0 w
          else (w, <[5%nat := node_id mod 256]> (<[0%nat := 2]> (n_mac (w_net w)))) in
        let w := set_net (set_n_mac mac (w_net w)) w in
        let w := wr REG_STATUS (Z.lor status VIRTIO_STATUS_DRIVER_OK) w in
        (set_kind NET_VIRTIO (set_net (set_n_ready true (w_net w)) w), true).

Definition virtio_init (n fuel : nat) (blob : list Z) (node_id : Z) (w : world) : res (world * bool) :=
  match virtio_find n fuel blob FDT_ERR_NODE w with
  | Ret (w, found) => Ret (if found then virtio_start node_id w else (w, false))
  | Oob => Oob
  | NoFuel => NoFuel
  end.

(** [if (g_net.tx.used.idx != g_net.tx_last_used) ...] *)
Definition tx_done (w : world) : world * option unit :=
  let n := w_net w in
  if used_idx (n_tx n) =? tx_last_used n then (w, None) else (set_net (set_tx_last_used (used_idx (n_tx n)) n) w, Some tt).

(** Up to the notification. *)
Definition virtio_send_start (frame : list Z) (w : world) : world :=
  let w := set_mem (place (tx_at at_ + NET_HEADER_SIZE) frame (place (tx_at at_) (replicate 12 0) (w_mem w))) w in
  let n := w_net w in
  let d := {| d_addr := tx_at at_; d_len := u32 (NET_HEADER_SIZE + Z.of_nat (length frame)); d_flags := 0; d_next := d_next (q_desc (n_tx n) !!? 0%nat) |} in
  wr REG_QUEUE_NOTIFY 1 (set_net (set_n_tx (publish 0 (set_desc 0 d (n_tx n))) n) w).

Context (observe : world -> world).

Definition virtio_send (frame : list Z) (w : world) : world * bool :=
  if negb (n_ready (w_net w)) || (BUFFER_SIZE - NET_HEADER_SIZE <? Z.of_nat (length frame)) then (w, false)
  else
    match spin TX_SPINS (fun w => tx_done (observe w)) (virtio_send_start frame w) with
    | (w, Some _) => (w, true)
    | (w, None) => (w, false)
    end.

(** The frame copied out, cut to [capacity]. *)
Definition virtio_poll (capacity : Z) (w : world) : world * option (list Z) :=
  let n := w_net w in
  if negb (n_ready n) || (used_idx (n_rx n) =? rx_last_used n) then (w, None)
  else
    let '(id, elen) := used_ring (n_rx n) !!? slot (rx_last_used n) in
    let w := set_net (set_rx_last_used (u16 (rx_last_used n + 1)) n) w in
    if (Z.of_nat QUEUE_SIZE <=? id) || (elen <? NET_HEADER_SIZE) then (w, None)
    else
      let len := elen - NET_HEADER_SIZE in
      let len := if capacity <? len then capacity else len in
      let out := bytes (w_mem w) (rx_at at_ + id * BUFFER_SIZE + NET_HEADER_SIZE) (Z.to_nat len) in
      let n := w_net w in
      let w := set_net (set_n_rx (publish (u16 id) (n_rx n)) n) w in
      let w := wr REG_QUEUE_NOTIFY 0 w in
      let '(w, irq) := rd REG_INTERRUPT_STATUS w in
      let w := if negb (irq =? 0) then wr REG_INTERRUPT_ACK irq w else w in
      (w, Some out).

(** *** The GEM *)

Definition gem_rd (reg : Z) (w : world) : world * Z :=
  let '(d, v) := mmio_read32 (g_base (w_gem w) + reg) (w_regs w) in (set_regs d w, v).
Definition gem_wr (reg value : Z) (w : world) : world := set_regs (mmio_write32 (g_base (w_gem w) + reg) value (w_regs w)) w.

Fixpoint gem_find (n fuel : nat) (blob : list Z) (node : Z) : res (option Z) :=
  match n with
  | O => NoFuel
  | S n =>
      node ← fdt_next_node_by_compatible_offset fuel blob [99; 100; 110; 115; 44; 103; 101; 109] node;
      if node =? FDT_ERR_NODE then Ret None
      else
        en ← fdt_is_enabled blob node;
        if negb en then gem_find n fuel blob node
        else
          range ← fdt_reg_to_cpu_addr blob node 0;
          match range with Some range => Ret (Some (fr_base range)) | None => gem_find n fuel blob node end
  end.

Definition gem_rx_fresh : list gem_desc_t :=
  map (fun i => {| g_address := Z.lor (u32 (gem_rx_at at_ + Z.of_nat i * BUFFER_SIZE)) (if (S i =? QUEUE_SIZE)%nat then GEM_RX_WRAP else 0);
                   g_status := 0 |}) (seq 0 QUEUE_SIZE).

(** [gem_init] once a device is found. *)
Definition gem_start (base node_id : Z) (w : world) : world :=
  let w := set_gem {| g_base := base; g_mac := g_mac (w_gem w); rx_index := 0; rx_desc := gem_rx_fresh;
                      tx_desc := {| g_address := u32 (gem_tx_at at_); g_status := Z.lor GEM_TX_USED GEM_TX_WRAP |} |} w in
  let w := gem_wr GEM_NCR 0 w in
  let w := gem_wr GEM_IDR 0xffffffff w in
  let w := gem_wr GEM_RSR 0xffffffff w in
  let w := gem_wr GEM_TSR 0xffffffff w in
  let w := gem_wr GEM_RBQP (u32 (gem_rxd_at at_)) w in
  let w := gem_wr GEM_TBQP (u32 (gem_txd_at at_)) w in
  let w := gem_wr GEM_DMACFG 0x00180704 w in
  let '(w, config) := gem_rd GEM_NCFGR w in
  let config := Z.ldiff config (Z.lor GEM_NCFGR_NO_BROADCAST GEM_NCFGR_RECV_BUF_OFFSET) in
  let config := Z.lor config (Z.lor (Z.lor (Z.lor GEM_NCFGR_FD GEM_NCFGR_PROMISC) GEM_NCFGR_RECV_1536) GEM_NCFGR_FCS_REMOVE) in
  let w := gem_wr GEM_NCFGR config w in
  let '(w, lower) := gem_rd GEM_SA1B w in
  let '(w, upper) := gem_rd GEM_SA1T w in
  let mac := [lower mod 256; Z.shiftr lower 8 mod 256; Z.shiftr lower 16 mod 256; Z.shiftr lower 24 mod 256; upper mod 256; Z.shiftr upper 8 mod 256] in
  let w :=
    if Z.lor lower upper =? 0 then
      let mac := <[5%nat := node_id mod 256]> (<[0%nat := 2]> mac) in
      let w := set_gem (set_g_mac mac (w_gem w)) w in
      let w := gem_wr GEM_SA1B (le_of (take 4 mac)) w in
      gem_wr GEM_SA1T (le_of (drop 4 mac)) w
    else set_gem (set_g_mac mac (w_gem w)) w in
  let w := gem_wr GEM_NCR (Z.lor GEM_NCR_RXEN GEM_NCR_TXEN) w in
  set_kind NET_GEM w.

Definition gem_init (n fuel : nat) (blob : list Z) (node_id : Z) (w : world) : res (world * bool) :=
  base ← gem_find n fuel blob FDT_ERR_NODE;
  Ret (match base with Some base => (gem_start base node_id w, true) | None => (w, false) end).

Definition gem_sent (w : world) : world * option unit :=
  if Z.land (g_status (tx_desc (w_gem w))) GEM_TX_USED =? 0 then (w, None) else (w, Some tt).

Definition gem_send_start (frame : list Z) (w : world) : world :=
  let w := set_mem (place (gem_tx_at at_) frame (w_mem w)) w in
  let d := {| g_address := g_address (tx_desc (w_gem w)); g_status := Z.lor (Z.lor (u32 (Z.of_nat (length frame))) GEM_TX_LAST) GEM_TX_WRAP |} in
  let w := set_gem (set_tx_desc d (w_gem w)) w in
  let '(w, ncr) := gem_rd GEM_NCR w in
  gem_wr GEM_NCR (Z.lor ncr GEM_NCR_TSTART) w.

Definition gem_send (frame : list Z) (w : world) : world * bool :=
  if (BUFFER_SIZE <? Z.of_nat (length frame)) || (Z.land (g_status (tx_desc (w_gem w))) GEM_TX_USED =? 0) then (w, false)
  else
    match spin TX_SPINS (fun w => gem_sent (observe w)) (gem_send_start frame w) with
    | (w, Some _) => (w, true)
    | (w, None) => (w, false)
    end.

Definition gem_poll (capacity : Z) (w : world) : world * option (list Z) :=
  let g := w_gem w in
  let d := rx_desc g !!? Z.to_nat (rx_index g) in
  if Z.land (g_address d) GEM_RX_OWNED =? 0 then (w, None)
  else
    let status := g_status d in
    let len := Z.land status GEM_RX_LENGTH in
    let complete := Z.land status (Z.lor GEM_RX_SOF GEM_RX_EOF) =? Z.lor GEM_RX_SOF GEM_RX_EOF in
    let len := if capacity <? len then capacity else len in
    let out := bytes (w_mem w) (gem_rx_at at_ + rx_index g * BUFFER_SIZE) (Z.to_nat len) in
    let d := {| g_address := Z.ldiff (g_address d) GEM_RX_OWNED; g_status := 0 |} in
    let w := set_gem {| g_base := g_base g; g_mac := g_mac g; rx_index := (rx_index g + 1) mod 8;
                        rx_desc := <[Z.to_nat (rx_index g) := d]> (rx_desc g); tx_desc := tx_desc g |} w in
    let w := gem_wr GEM_RSR 0xffffffff w in
    (w, if complete then Some out else None).

(** *** network_device.h *)

(** A NULL blob is the empty one. *)
Definition network_device_init (n fuel : nat) (blob : list Z) (node_id : Z) (w : world) : res (world * bool) :=
  if bool_decide (blob = []) then Ret (w, false)
  else
    match virtio_init n fuel blob node_id w with
    | Ret (w, true) => Ret (w, true)
    | Ret (w, false) => gem_init n fuel blob node_id w
    | Oob => Oob
    | NoFuel => NoFuel
    end.

Definition network_device_present (w : world) : bool := bool_decide (w_kind w <> NET_NONE).
Definition device_mac (w : world) : list Z := if bool_decide (w_kind w = NET_GEM) then g_mac (w_gem w) else n_mac (w_net w).

Definition device_send (frame : list Z) (w : world) : world * bool :=
  if bool_decide (w_kind w = NET_GEM) then gem_send frame w else virtio_send frame w.
Definition device_poll (capacity : Z) (w : world) : world * option (list Z) :=
  if bool_decide (w_kind w = NET_GEM) then gem_poll capacity w else virtio_poll capacity w.

(** The device of NetworkEther.v. *)
Definition network_device (mac : list Z) : device world := {|
  network_device_mac := mac;
  network_device_send := device_send;
  network_device_poll := fun capacity w => device_poll capacity (observe w) |}.
End driver.
Arguments world : clear implicits.
