(* ===== verification/VirtioSpec.v ===== *)
(** * What the virtio-net driver guarantees

    The virtio specification as a step relation of the device on the state
    it shares with the driver, the ownership invariant of the queues, and
    that in every interleaving frames are received and sent exactly once and
    in order. *)

From S2P Require Import Prelude Bytes Fdt NetworkRpc NetworkEther NetworkDevice.

(** ** Windows of a ring *)

Section window.
Context {A : Type} `{Inhabited A}.

(** The elements of positions [a], ..., [a + n - 1] of a ring of eight. *)
Definition window (r : list A) (a n : nat) : list A := map (fun k => r !!? (k mod 8)%nat) (seq a n).

Lemma length_window r a n : length (window r a n) = n.
Proof. unfold window. by rewrite length_map, length_seq. Qed.

Lemma window_cons r a n : window r a (S n) = r !!? (a mod 8)%nat :: window r (S a) n.
Proof. done. Qed.

Lemma window_snoc r a n : window r a (S n) = window r a n ++ [r !!? ((a + n) mod 8)%nat].
Proof. unfold window. by rewrite seq_S, map_app. Qed.

Lemma window_insert r a n x : (n < 8)%nat -> window (<[((a + n) mod 8)%nat := x]> r) a n = window r a n.
Proof.
  intros Hn. unfold window. apply map_ext_in. intros k Hk. apply in_seq in Hk. apply nth_insert_ne.
  intros E. assert (exists d, (a + n = k + d /\ 0 < d < 8)%nat) as (d & Ed & Hd) by (exists (a + n - k)%nat; lia).
  rewrite Ed in E. pose proof (Nat.div_mod_eq k 8). pose proof (Nat.div_mod_eq (k + d) 8). lia.
Qed.

Lemma window_push r a n x : length r = 8%nat -> (n < 8)%nat -> window (<[((a + n) mod 8)%nat := x]> r) a (S n) = window r a n ++ [x].
Proof.
  intros Hl Hn. rewrite window_snoc, window_insert by done. f_equal. f_equal. apply nth_insert_eq. rewrite Hl. apply Nat.mod_upper_bound. lia.
Qed.
End window.

(** ** 16-bit indices *)

Definition index (k : nat) : Z := u16 (Z.of_nat k).

Lemma index_S k : u16 (index k + 1) = index (S k).
Proof. unfold index, u16. rewrite Zplus_mod_idemp_l. f_equal. lia. Qed.

Lemma slot_index k : slot (index k) = (k mod 8)%nat.
Proof.
  unfold slot, index, u16. rewrite Z.mod_mod_divide by (exists 8192; lia). change 8 with (Z.of_nat 8). by rewrite <- Nat2Z.inj_mod, Nat2Z.id.
Qed.

(** Two indices less than a turn apart are equal only when their positions are. *)
Lemma index_eqb a b : (a <= b <= a + 8)%nat -> (index b =? index a) = (b =? a)%nat.
Proof.
  intros Hab. destruct (Nat.eqb_spec b a) as [->|Hne]; [by rewrite Z.eqb_refl|]. apply Z.eqb_neq. unfold index, u16. intros E.
  assert (exists d, (b = a + d /\ 0 < d <= 8)%nat) as (d & -> & Hd) by (exists (b - a)%nat; lia).
  pose proof (Z.div_mod (Z.of_nat a) 65536). pose proof (Z.div_mod (Z.of_nat (a + d)) 65536). lia.
Qed.

(** ** The device *)

Section virtio.
Context {R : Type} (bus_read32 bus_read8 : Z -> R -> R * Z) (bus_write32 : Z -> Z -> R -> R).

(** How far the device has read each available ring, the descriptors it
    holds, the frames that came in from and went out to the wire, and its
    registers. *)
Record virtio_dev := {
  rx_seen : Z; tx_seen : Z; rx_held : list Z; tx_held : list Z; came_in : list (list Z); went_out : list (list Z); d_regs : R }.

Definition set_d_regs (r : R) (d : virtio_dev) : virtio_dev :=
  {| rx_seen := rx_seen d; tx_seen := tx_seen d; rx_held := rx_held d; tx_held := tx_held d; came_in := came_in d; went_out := went_out d; d_regs := r |}.
Definition set_rx_seen (i : Z) (held : list Z) (d : virtio_dev) : virtio_dev :=
  {| rx_seen := i; tx_seen := tx_seen d; rx_held := held; tx_held := tx_held d; came_in := came_in d; went_out := went_out d; d_regs := d_regs d |}.
Definition set_tx_seen (i : Z) (held : list Z) (d : virtio_dev) : virtio_dev :=
  {| rx_seen := rx_seen d; tx_seen := i; rx_held := rx_held d; tx_held := held; came_in := came_in d; went_out := went_out d; d_regs := d_regs d |}.
Definition log_in (f : list Z) (held : list Z) (d : virtio_dev) : virtio_dev :=
  {| rx_seen := rx_seen d; tx_seen := tx_seen d; rx_held := held; tx_held := tx_held d; came_in := came_in d ++ [f]; went_out := went_out d; d_regs := d_regs d |}.
Definition log_out (f : list Z) (held : list Z) (d : virtio_dev) : virtio_dev :=
  {| rx_seen := rx_seen d; tx_seen := tx_seen d; rx_held := rx_held d; tx_held := held; came_in := came_in d; went_out := went_out d ++ [f]; d_regs := d_regs d |}.

Definition read32 (a : Z) (d : virtio_dev) : virtio_dev * Z := let '(r, v) := bus_read32 a (d_regs d) in (set_d_regs r d, v).
Definition read8 (a : Z) (d : virtio_dev) : virtio_dev * Z := let '(r, v) := bus_read8 a (d_regs d) in (set_d_regs r d, v).
Definition write32 (a v : Z) (d : virtio_dev) : virtio_dev := set_d_regs (bus_write32 a v (d_regs d)) d.

Abbreviation state := (world virtio_dev).

(** An element put on a used ring. *)
Definition use (id len : Z) (q : virtq_t) : virtq_t :=
  {| q_desc := q_desc q; avail_idx := avail_idx q; avail_ring := avail_ring q; used_idx := u16 (used_idx q + 1);
     used_ring := <[slot (used_idx q) := (id, len)]> (used_ring q) |}.

Definition set_dev (d : virtio_dev) (w : state) : state := set_regs d w.

(** What the specification lets a device do: take the next available
    descriptor of a queue; fill a receive buffer it holds with a header and
    a frame that fits, or send the frame of a transmit buffer it holds, and
    put either on the used ring, in any order; change its registers. *)
Inductive dev_step : state -> state -> Prop :=
  | rx_fetch w : rx_seen (w_regs w) <> avail_idx (n_rx (w_net w)) ->
      dev_step w (set_dev (set_rx_seen (u16 (rx_seen (w_regs w) + 1))
        (avail_ring (n_rx (w_net w)) !!? slot (rx_seen (w_regs w)) :: rx_held (w_regs w)) (w_regs w)) w)
  | rx_complete w l id l' header f : rx_held (w_regs w) = l ++ id :: l' -> length header = 12%nat ->
      let q := n_rx (w_net w) in
      let d := q_desc q !!? Z.to_nat id in
      Z.land (d_flags d) DESC_F_WRITE <> 0 -> NET_HEADER_SIZE + Z.of_nat (length f) <= d_len d ->
      dev_step w (set_dev (log_in f (l ++ l') (w_regs w)) (set_mem (place (d_addr d) (header ++ f) (w_mem w))
        (set_net (set_n_rx (use id (NET_HEADER_SIZE + Z.of_nat (length f)) q) (w_net w)) w)))
  | tx_fetch w : tx_seen (w_regs w) <> avail_idx (n_tx (w_net w)) ->
      dev_step w (set_dev (set_tx_seen (u16 (tx_seen (w_regs w) + 1))
        (avail_ring (n_tx (w_net w)) !!? slot (tx_seen (w_regs w)) :: tx_held (w_regs w)) (w_regs w)) w)
  | tx_complete w l id l' : tx_held (w_regs w) = l ++ id :: l' ->
      let q := n_tx (w_net w) in
      let d := q_desc q !!? Z.to_nat id in
      dev_step w (set_dev (log_out (bytes (w_mem w) (d_addr d + NET_HEADER_SIZE) (Z.to_nat (d_len d - NET_HEADER_SIZE))) (l ++ l') (w_regs w))
        (set_net (set_n_tx (use id 0 q) (w_net w)) w))
  | registers w r : dev_step w (set_dev (set_d_regs r (w_regs w)) w).

(** ** The receive queue *)

Context (at_ : layout).

(** A used element and the frame in its buffer. *)
Definition filled (m : memory) (e : Z * Z) (f : list Z) : Prop :=
  snd e = NET_HEADER_SIZE + Z.of_nat (length f) /\ NET_HEADER_SIZE + Z.of_nat (length f) <= BUFFER_SIZE /\
  holds m (rx_at at_ + fst e * BUFFER_SIZE + NET_HEADER_SIZE) f.

(** The frames [q] wait to be polled: the driver has taken [last] buffers
    since the start, the device has read the available ring up to [seen],
    and each of the eight buffers is in one place: available, held by the
    device, or used and waiting. *)
Record rx_ok (last seen : nat) (q : list (list Z)) (n : virtio_net) (m : memory) (d : virtio_dev) : Prop := {
  ro_desc : forall i, (i < 8)%nat -> d_addr (q_desc (n_rx n) !!? i) = rx_at at_ + Z.of_nat i * BUFFER_SIZE /\
    d_len (q_desc (n_rx n) !!? i) = BUFFER_SIZE;
  ro_lens : length (avail_ring (n_rx n)) = 8%nat /\ length (used_ring (n_rx n)) = 8%nat;
  ro_avail : avail_idx (n_rx n) = index (last + 8);
  ro_used : used_idx (n_rx n) = index (last + length q);
  ro_last : rx_last_used n = index last;
  ro_seen : rx_seen d = index seen;
  ro_le : (last <= seen <= last + 8)%nat;
  ro_ids : window (avail_ring (n_rx n)) seen (last + 8 - seen) ++ rx_held d ++ map fst (window (used_ring (n_rx n)) last (length q))
    ≡ₚ map Z.of_nat (seq 0 8);
  ro_frames : Forall2 (filled m) (window (used_ring (n_rx n)) last (length q)) q }.

Lemma ids_range id : id ∈ map Z.of_nat (seq 0 8) -> 0 <= id < 8.
Proof. intros (k & -> & Hk)%list_elem_of_fmap. apply elem_of_seq in Hk. lia. Qed.

Lemma ids_nodup : NoDup (map Z.of_nat (seq 0 8)).
Proof. apply NoDup_fmap; [intros a b; lia|]. apply NoDup_seq. Qed.

Lemma rx_total last seen q n m d : rx_ok last seen q n m d -> ((last + 8 - seen) + length (rx_held d) + length q = 8)%nat.
Proof. intros H. pose proof (Permutation_length (ro_ids _ _ _ _ _ _ H)) as E. rewrite !length_app, !length_map, !length_window, length_seq in E. lia. Qed.

Lemma rx_fetch_ok last seen q n m d : rx_ok last seen q n m d -> rx_seen d <> avail_idx (n_rx n) ->
  rx_ok last (S seen) q n m (set_rx_seen (u16 (rx_seen d + 1)) (avail_ring (n_rx n) !!? slot (rx_seen d) :: rx_held d) d).
Proof.
  intros H Hne. pose proof (rx_total _ _ _ _ _ _ H) as Ht. destruct H as [H1 H2 H3 H4 H5 H6 H7 H8 H9].
  assert (seen <> last + 8)%nat as Hlt by (intros ->; by rewrite H6, H3 in Hne).
  split; cbn [set_rx_seen rx_seen rx_held]; try done; [by rewrite H6, index_S|lia|].
  rewrite <- H8. rewrite H6, slot_index. replace (last + 8 - seen)%nat with (S (last + 8 - S seen)) by lia. rewrite window_cons.
  cbn [app]. symmetry. apply Permutation_middle.
Qed.

Lemma rx_complete_ok last seen q n m d l id l' header f : rx_ok last seen q n m d -> rx_held d = l ++ id :: l' ->
  length header = 12%nat -> NET_HEADER_SIZE + Z.of_nat (length f) <= d_len (q_desc (n_rx n) !!? Z.to_nat id) ->
  rx_ok last seen (q ++ [f]) (set_n_rx (use id (NET_HEADER_SIZE + Z.of_nat (length f)) (n_rx n)) n)
    (place (d_addr (q_desc (n_rx n) !!? Z.to_nat id)) (header ++ f) m) (log_in f (l ++ l') d).
Proof.
  intros H Hh Hhd Hf. pose proof (rx_total _ _ _ _ _ _ H) as Ht. destruct H as [H1 H2 H3 H4 H5 H6 H7 H8 H9].
  rewrite Hh, length_app in Ht. cbn [length] in Ht.
  pose proof ids_nodup as Hnd. rewrite <- H8, Hh in Hnd. assert (0 <= id < 8) as Hid.
  { apply ids_range. rewrite <- H8, Hh. rewrite !elem_of_app, elem_of_cons. tauto. }
  destruct (H1 (Z.to_nat id) ltac:(lia)) as [Ha Hlen]. rewrite Z2Nat.id in Ha by lia. rewrite Hlen in Hf.
  assert (window (<[slot (used_idx (n_rx n)) := (id, NET_HEADER_SIZE + Z.of_nat (length f))]> (used_ring (n_rx n))) last (S (length q)) =
          window (used_ring (n_rx n)) last (length q) ++ [(id, NET_HEADER_SIZE + Z.of_nat (length f))]) as Hw.
  { rewrite H4, slot_index. apply window_push; [by apply H2|lia]. }
  split; cbn [set_n_rx n_rx use q_desc avail_ring used_ring avail_idx used_idx log_in rx_held rx_seen rx_last_used]; try done.
  - rewrite length_insert. exact H2.
  - rewrite H4, index_S, length_app. cbn [length]. do 1 f_equal. lia.
  - rewrite length_app, Nat.add_1_r, Hw, map_app. cbn [map fst]. rewrite <- H8, Hh. f_equiv. rewrite <- !app_assoc. f_equiv. cbn [app].
    rewrite app_assoc. symmetry. apply Permutation_cons_append.
  - rewrite length_app, Nat.add_1_r, Hw. apply Forall2_app.
    + apply Forall2_same_length_lookup in H9 as [E9 H9]. apply Forall2_same_length_lookup. split; [done|]. intros i e g He Hg.
      destruct (H9 i e g He Hg) as (F1 & F2 & F3). split_and!; [done..|]. apply holds_place; [done|]. rewrite Ha, length_app, Hhd.
      assert (fst e ∈ map fst (window (used_ring (n_rx n)) last (length q))) as Hin by (apply list_elem_of_fmap_2; by eapply list_elem_of_lookup_2).
      assert (fst e <> id) as Hne.
      { intros <-. apply NoDup_app in Hnd as (_ & _ & Hnd). apply NoDup_app in Hnd as (_ & Hnd & _).
        apply (Hnd (fst e)); [|done]. rewrite elem_of_app, elem_of_cons. tauto. }
      unfold BUFFER_SIZE, NET_HEADER_SIZE in *. destruct (decide (fst e < id)); [left|right]; lia.
    + constructor; [|done]. split_and!; [done..|]. cbn [fst].
      pose proof (place_holds (d_addr (q_desc (n_rx n) !!? Z.to_nat id)) (header ++ f) m) as Hp. apply holds_app in Hp as [_ Hp].
      rewrite Hhd in Hp. rewrite Ha in *. exact Hp.
Qed.

(** ** Polling *)

Lemma rx_poll_ok last seen f q n m d : rx_ok last seen (f :: q) n m d -> exists id,
  used_ring (n_rx n) !!? slot (rx_last_used n) = (id, NET_HEADER_SIZE + Z.of_nat (length f)) /\ 0 <= id < 8 /\
  holds m (rx_at at_ + id * BUFFER_SIZE + NET_HEADER_SIZE) f /\ NET_HEADER_SIZE + Z.of_nat (length f) <= BUFFER_SIZE /\
  rx_ok (S last) seen q (set_n_rx (publish (u16 id) (n_rx n)) (set_rx_last_used (u16 (rx_last_used n + 1)) n)) m d.
Proof.
  intros H. pose proof (rx_total _ _ _ _ _ _ H) as Ht. destruct H as [H1 H2 H3 H4 H5 H6 H7 H8 H9]. cbn [length] in *.
  rewrite window_cons in H8, H9. apply Forall2_cons_1 in H9 as [(F1 & F2 & F3) H9]. rewrite H5, slot_index.
  destruct (used_ring (n_rx n) !!? (last mod 8)%nat) as [id len] eqn:Ee. cbn [fst snd] in *. exists id.
  assert (0 <= id < 8) as Hid. { apply ids_range. rewrite <- H8. cbn [map fst]. rewrite !elem_of_app, elem_of_cons. tauto. }
  rewrite F1. split_and!; [done|lia|lia|done|done|].
  assert (u16 id = id) as Eid by (apply Z.mod_small; lia).
  split; cbn [set_n_rx n_rx publish q_desc avail_ring used_ring avail_idx used_idx set_rx_last_used rx_last_used]; try done.
  - rewrite length_insert. exact H2.
  - rewrite H3, index_S. done.
  - rewrite H4. f_equal. lia.
  - rewrite index_S. done.
  - pose proof (Permutation_length H8) as E. lia.
  - rewrite Eid, H3, slot_index. rewrite <- H8. cbn [map fst]. replace (S last + 8 - seen)%nat with (S (last + 8 - seen)) by lia.
    replace ((last + 8) mod 8)%nat with ((seen + (last + 8 - seen)) mod 8)%nat by (f_equal; lia).
    rewrite window_push by (done || apply H2 || lia). rewrite <- app_assoc. f_equiv. cbn [app].
    apply Permutation_middle.
Qed.

(** ** The transmit queue *)

(** The buffers do not overlap. *)
Definition apart_buffers : Prop := tx_at at_ + BUFFER_SIZE <= rx_at at_ \/ rx_at at_ + 8 * BUFFER_SIZE <= tx_at at_.

(** [sent] frames have been sent and none is under way. *)
Record tx_idle (sent : nat) (n : virtio_net) (d : virtio_dev) : Prop := {
  ti_lens : length (avail_ring (n_tx n)) = 8%nat /\ length (q_desc (n_tx n)) = 8%nat;
  ti_avail : avail_idx (n_tx n) = index sent;
  ti_used : used_idx (n_tx n) = index sent;
  ti_last : tx_last_used n = index sent;
  ti_seen : tx_seen d = index sent;
  ti_held : tx_held d = [] }.

(** The frame [f] is under way: published, taken by the device or not; or
    sent, which the driver has not seen yet.  [out]: what went out before. *)
Inductive tx_stage := Published | Taken | Gone.
#[local] Instance tx_stage_eq : EqDecision tx_stage.
Proof. solve_decision. Defined.

Record tx_busy (st : tx_stage) (sent : nat) (f : list Z) (out : list (list Z)) (n : virtio_net) (m : memory) (d : virtio_dev) : Prop := {
  tb_lens : length (avail_ring (n_tx n)) = 8%nat /\ length (q_desc (n_tx n)) = 8%nat;
  tb_avail : avail_idx (n_tx n) = index (S sent);
  tb_slot : avail_ring (n_tx n) !!? (sent mod 8)%nat = 0;
  tb_desc : d_addr (q_desc (n_tx n) !!? 0%nat) = tx_at at_ /\ d_len (q_desc (n_tx n) !!? 0%nat) = NET_HEADER_SIZE + Z.of_nat (length f);
  tb_small : NET_HEADER_SIZE + Z.of_nat (length f) <= BUFFER_SIZE;
  tb_frame : holds m (tx_at at_ + NET_HEADER_SIZE) f;
  tb_last : tx_last_used n = index sent;
  tb_used : used_idx (n_tx n) = index (if decide (st = Gone) then S sent else sent);
  tb_seen : tx_seen d = index (if decide (st = Published) then sent else S sent);
  tb_held : tx_held d = if decide (st = Taken) then [0] else [];
  tb_out : went_out d = if decide (st = Gone) then out ++ [f] else out }.

Ltac fields := cbn [set_dev set_regs set_net set_mem set_n_rx set_n_tx w_net w_mem w_regs w_kind w_gem n_rx n_tx n_ready n_base n_mac rx_last_used
  tx_last_used set_rx_seen set_tx_seen log_in log_out set_d_regs rx_seen tx_seen rx_held tx_held came_in went_out use avail_idx used_idx avail_ring
  used_ring q_desc publish set_desc set_rx_last_used set_tx_last_used] in *.

(** What a device leaves alone. *)
Record untouched (w w' : state) : Prop := {
  un_ready : n_ready (w_net w') = n_ready (w_net w);
  un_kind : w_kind w' = w_kind w;
  un_mem : forall x, x < rx_at at_ \/ rx_at at_ + 8 * BUFFER_SIZE <= x -> w_mem w' x = w_mem w x }.

Lemma dev_rx w w' last seen q : dev_step w w' -> rx_ok last seen q (w_net w) (w_mem w) (w_regs w) ->
  exists seen' new, rx_ok last seen' (q ++ new) (w_net w') (w_mem w') (w_regs w') /\
    came_in (w_regs w') = came_in (w_regs w) ++ new /\ untouched w w'.
Proof.
  intros Hs H. destruct Hs as [w Hne|w l id l' header f Hh Hl qq dd Hf Hd|w Hne|w l id l' Hh|w r]; fields.
  - exists (S seen), []. rewrite !app_nil_r. split; [by apply rx_fetch_ok|]. split; [done|by split].
  - exists seen, [f]. split; [by apply rx_complete_ok|]. split; [done|]. split; fields; try done. intros x Hx. apply place_other.
    assert (0 <= id < 8) as Hid. { apply ids_range. rewrite <- (ro_ids _ _ _ _ _ _ H), Hh, !elem_of_app, elem_of_cons. tauto. }
    destruct (ro_desc _ _ _ _ _ _ H (Z.to_nat id) ltac:(lia)) as [Ha Hb]. subst qq dd. rewrite Hb in Hd. rewrite Ha, length_app, Hl, Z2Nat.id by lia.
    unfold BUFFER_SIZE, NET_HEADER_SIZE in *. lia.
  - exists seen, []. rewrite !app_nil_r. split; [by destruct H|]. split; [done|by split].
  - exists seen, []. rewrite !app_nil_r. split; [by destruct H|]. split; [done|by split].
  - exists seen, []. rewrite !app_nil_r. split; [by destruct H|]. split; [done|by split].
Qed.

Lemma dev_tx_idle w w' sent : dev_step w w' -> tx_idle sent (w_net w) (w_regs w) ->
  tx_idle sent (w_net w') (w_regs w') /\ went_out (w_regs w') = went_out (w_regs w).
Proof.
  intros Hs H. destruct Hs as [w Hne|w l id l' header f Hh Hl qq dd Hf Hd|w Hne|w l id l' Hh|w r]; fields; try (by destruct H).
  - exfalso. apply Hne. by rewrite (ti_seen _ _ _ H), (ti_avail _ _ _ H).
  - rewrite (ti_held _ _ _ H) in Hh. by destruct l.
Qed.

Lemma dev_tx_busy w w' st sent f out : apart_buffers -> dev_step w w' -> untouched w w' -> tx_busy st sent f out (w_net w) (w_mem w) (w_regs w) ->
  exists st', tx_busy st' sent f out (w_net w') (w_mem w') (w_regs w').
Proof.
  intros Hap Hs Hu H. assert (holds (w_mem w') (tx_at at_ + NET_HEADER_SIZE) f) as Hm.
  { pose proof (tb_small _ _ _ _ _ _ _ H). apply (holds_same (w_mem w)); [apply H|]. intros x Hx. apply (un_mem _ _ Hu). destruct Hap; unfold BUFFER_SIZE, NET_HEADER_SIZE in *; lia. }
  destruct Hs as [w Hne|w l id l' header g Hh Hl qq dd Hf Hd|w Hne|w l id l' Hh qq dd|w r]; fields; destruct H as [H1 H2 H3 H4 H5 H6 H7 H8 H9 H10 H11].
  - exists st. by split.
  - exists st. by split.
  - destruct st; cbn [decide] in *.
    + change (tx_seen (w_regs w) = index sent) in H9. change (tx_held (w_regs w) = []) in H10. rewrite H9, H10, slot_index, index_S, H3.
      exists Taken. by split.
    + exfalso. apply Hne. by rewrite H9, H2.
    + exfalso. apply Hne. by rewrite H9, H2.
  - destruct st; rewrite H10 in Hh; try (by destruct l). assert (l = [] /\ id = 0 /\ l' = []) as (-> & -> & ->).
    { change ([0] = l ++ id :: l') in Hh. destruct l as [|? [|??]]; cbn in Hh; [by injection Hh as <- <-|discriminate..]. }
    exists Gone. subst qq dd. split; fields; try done.
    + rewrite H8. cbn. by rewrite index_S.
    + rewrite H11. cbn. do 2 f_equal. change (Z.to_nat 0) with 0%nat. destruct H4 as [-> ->].
      replace (Z.to_nat (NET_HEADER_SIZE + Z.of_nat (length f) - NET_HEADER_SIZE)) with (length f) by (unfold NET_HEADER_SIZE; lia). by apply holds_bytes.
  - exists st. by split.
Qed.

(** What holds before every round of a loop. *)
Lemma spin_keeps {W A} (P : W -> Prop) (Q : W -> A -> Prop) (body : W -> W * option A) n w :
  (forall w, P w -> match body w with (w', Some r) => Q w' r | (w', None) => P w' end) -> P w ->
  match spin n body w with (w', Some r) => Q w' r | (w', None) => P w' end.
Proof.
  intros Hb. rewrite spin_eq. generalize (Pos.to_nat n) as k. intros k. revert w. induction k as [|k IH]; intros w Hw; cbn; [done|].
  specialize (Hb w Hw). destruct (body w) as [w' [r|]]; [done|by apply IH].
Qed.

(** ** The driver and the device together *)

(** The driver runs, [q] waits to be polled, and nothing is being sent. *)
Definition link (q : list (list Z)) (w : state) : Prop :=
  n_ready (w_net w) = true /\ w_kind w = NET_VIRTIO /\
  exists last seen sent, rx_ok last seen q (w_net w) (w_mem w) (w_regs w) /\ tx_idle sent (w_net w) (w_regs w).

(** The receiving half, whatever is being sent. *)
Definition rlink (q : list (list Z)) (w : state) : Prop :=
  n_ready (w_net w) = true /\ w_kind w = NET_VIRTIO /\
  exists last seen, rx_ok last seen q (w_net w) (w_mem w) (w_regs w).

Lemma link_rlink q w : link q w -> rlink q w.
Proof. intros (H1 & H2 & last & seen & sent & H3 & _). split_and!; [done..|by exists last, seen]. Qed.

(** [f] is under way. *)
Definition sending (f : list Z) (out : list (list Z)) (sent : nat) (q : list (list Z)) (w : state) : Prop :=
  n_ready (w_net w) = true /\ w_kind w = NET_VIRTIO /\
  exists last seen st, rx_ok last seen q (w_net w) (w_mem w) (w_regs w) /\ tx_busy st sent f out (w_net w) (w_mem w) (w_regs w).

Lemma link_runs w w' q : rtc dev_step w w' -> link q w ->
  exists new, link (q ++ new) w' /\ came_in (w_regs w') = came_in (w_regs w) ++ new /\ went_out (w_regs w') = went_out (w_regs w).
Proof.
  intros Hr. revert q. induction Hr as [w|w w1 w2 Hs _ IH]; intros q H; [exists []; by rewrite !app_nil_r|].
  destruct H as (Hr & Hk & last & seen & sent & H1 & H2).
  destruct (dev_rx _ _ _ _ _ Hs H1) as (seen' & new & H1' & Hin & Hu). destruct (dev_tx_idle _ _ _ Hs H2) as [H2' Hout].
  destruct (IH (q ++ new)) as (new' & Hl & Hin' & Hout').
  { split_and!; [by rewrite (un_ready _ _ Hu)|by rewrite (un_kind _ _ Hu)|by exists last, seen', sent]. }
  exists (new ++ new'). split_and!; [by rewrite app_assoc|by rewrite Hin', Hin, app_assoc|by rewrite Hout', Hout].
Qed.

Lemma rlink_runs w w' q : rtc dev_step w w' -> rlink q w ->
  exists new, rlink (q ++ new) w' /\ came_in (w_regs w') = came_in (w_regs w) ++ new.
Proof.
  intros Hr. revert q. induction Hr as [w|w w1 w2 Hs _ IH]; intros q H; [exists []; by rewrite !app_nil_r|].
  destruct H as (Hr & Hk & last & seen & H1). destruct (dev_rx _ _ _ _ _ Hs H1) as (seen' & new & H1' & Hin & Hu).
  destruct (IH (q ++ new)) as (new' & Hl & Hin').
  { split_and!; [by rewrite (un_ready _ _ Hu)|by rewrite (un_kind _ _ Hu)|by exists last, seen']. }
  exists (new ++ new'). split; [by rewrite app_assoc|by rewrite Hin', Hin, app_assoc].
Qed.

Lemma sending_runs w w' f out sent q : apart_buffers -> rtc dev_step w w' -> sending f out sent q w ->
  exists new, sending f out sent (q ++ new) w' /\ came_in (w_regs w') = came_in (w_regs w) ++ new.
Proof.
  intros Hap Hr. revert q. induction Hr as [w|w w1 w2 Hs _ IH]; intros q H; [exists []; by rewrite !app_nil_r|].
  destruct H as (Hr & Hk & last & seen & st & H1 & H2).
  destruct (dev_rx _ _ _ _ _ Hs H1) as (seen' & new & H1' & Hin & Hu). destruct (dev_tx_busy _ _ _ _ _ _ Hap Hs Hu H2) as [st' H2'].
  destruct (IH (q ++ new)) as (new' & Hl & Hin').
  { split_and!; [by rewrite (un_ready _ _ Hu)|by rewrite (un_kind _ _ Hu)|by exists last, seen', st']. }
  exists (new ++ new'). split; [by rewrite app_assoc|by rewrite Hin', Hin, app_assoc].
Qed.

(** Register accesses are steps that change nothing else. *)
Definition changed_regs (w w' : state) : Prop := exists r, w' = set_dev (set_d_regs r (w_regs w)) w.

Lemma link_regs q w w' : changed_regs w w' -> link q w ->
  link q w' /\ came_in (w_regs w') = came_in (w_regs w) /\ went_out (w_regs w') = went_out (w_regs w).
Proof.
  intros [r ->] (H1 & H2 & last & seen & sent & H3 & H4). split; [|done]. split; [done|]. split; [done|]. exists last, seen, sent.
  split; [by destruct H3|by destruct H4].
Qed.

Lemma rlink_regs q w w' : changed_regs w w' -> rlink q w -> rlink q w'.
Proof. intros [r ->] (H1 & H2 & last & seen & H3). split; [done|]. split; [done|]. exists last, seen. by destruct H3. Qed.

Lemma wr_regs reg v w : changed_regs w (wr write32 reg v w).
Proof. by eexists. Qed.

Lemma rd_regs reg w : changed_regs w (fst (rd read32 reg w)).
Proof. unfold rd, read32. destruct (bus_read32 _ _) as [r v]. by eexists. Qed.

Lemma changed_regs_trans w1 w2 w3 : changed_regs w1 w2 -> changed_regs w2 w3 -> changed_regs w1 w3.
Proof. intros [r ->] [r' ->]. by exists r'. Qed.

(** A poll takes the first frame that waits, and nothing of the sending half. *)
Lemma poll_takes cap f q w : rlink (f :: q) w -> exists w',
  device_poll read32 write32 at_ cap w = (w', Some (take (Z.to_nat cap) f)) /\ rlink q w' /\ (link (f :: q) w -> link q w') /\
  came_in (w_regs w') = came_in (w_regs w) /\ went_out (w_regs w') = went_out (w_regs w).
Proof.
  intros (Hr & Hk & last & seen & H1). destruct (rx_poll_ok _ _ _ _ _ _ _ H1) as (id & He & Hid & Hh & Hs & H1').
  pose proof (rx_total _ _ _ _ _ _ H1) as Ht. cbn [length] in Ht.
  unfold device_poll. rewrite bool_decide_eq_false_2 by (rewrite Hk; done). unfold virtio_poll. rewrite Hr. cbn [negb orb].
  rewrite (ro_used _ _ _ _ _ _ H1), (ro_last _ _ _ _ _ _ H1), index_eqb by (cbn [length]; lia).
  rewrite (proj2 (Nat.eqb_neq _ _)) by (cbn [length]; lia). rewrite <- (ro_last _ _ _ _ _ _ H1), He.
  rewrite (proj2 (Z.leb_gt _ _)), (proj2 (Z.ltb_ge _ _)) by (unfold QUEUE_SIZE, NET_HEADER_SIZE in *; lia). cbn [orb].
  set (w1 := set_net _ (set_net _ w)). set (w2 := wr write32 REG_QUEUE_NOTIFY 0 w1).
  pose proof (changed_regs_trans _ _ _ (wr_regs REG_QUEUE_NOTIFY 0 w1) (rd_regs REG_INTERRUPT_STATUS w2)) as Hc. fold w2 in Hc.
  destruct (rd read32 REG_INTERRUPT_STATUS w2) as [w3 irq]. cbn [fst] in Hc.
  assert (changed_regs w1 (if negb (irq =? 0) then wr write32 REG_INTERRUPT_ACK irq w3 else w3)) as Hc'.
  { destruct (negb _); [|done]. eapply changed_regs_trans; [done|apply wr_regs]. }
  eexists. split; [f_equal; f_equal|].
  - pose proof (holds_bytes _ _ _ Hh) as Hb. fields.
    transitivity (take (Z.to_nat cap) (bytes (w_mem w) (rx_at at_ + id * BUFFER_SIZE + NET_HEADER_SIZE) (length f))); [|by rewrite Hb].
    unfold bytes. rewrite firstn_map, take_seq. f_equal. f_equal. unfold NET_HEADER_SIZE. destruct (Z.ltb_spec cap (12 + Z.of_nat (length f) - 12)); lia.
  - assert (rlink q w1) as Hl by (split_and!; [done|done|]; exists (S last), seen; exact H1').
    split; [by apply (rlink_regs _ _ _ Hc')|]. split; [|by destruct Hc' as [r ->]].
    intros (_ & _ & _ & _ & sent & _ & H2). apply (link_regs q w1 _ Hc'). split_and!; [done|done|].
    exists (S last), seen, sent. split; [exact H1'|by destruct H2].
Qed.

Lemma poll_empty cap w : rlink [] w -> device_poll read32 write32 at_ cap w = (w, None).
Proof.
  intros (Hr & Hk & last & seen & H1). unfold device_poll. rewrite bool_decide_eq_false_2 by (rewrite Hk; done).
  unfold virtio_poll. rewrite (ro_used _ _ _ _ _ _ H1), (ro_last _ _ _ _ _ _ H1), index_eqb by (cbn [length]; lia).
  cbn [length]. by rewrite Nat.add_0_r, Nat.eqb_refl, orb_true_r.
Qed.

(** ** Sending *)

Lemma rx_ok_mem last seen q n m m' d : (forall x, rx_at at_ <= x < rx_at at_ + 8 * BUFFER_SIZE -> m' x = m x) ->
  rx_ok last seen q n m d -> rx_ok last seen q n m' d.
Proof.
  intros Hm H. destruct H as [H1 H2 H3 H4 H5 H6 H7 H8 H9]. split; try done.
  apply Forall2_same_length_lookup in H9 as [E9 H9]. apply Forall2_same_length_lookup. split; [done|]. intros i e g He Hg.
  destruct (H9 i e g He Hg) as (F1 & F2 & F3). split_and!; [done..|]. apply (holds_same m); [done|]. intros x Hx. apply Hm.
  assert (0 <= fst e < 8) as Hid.
  { apply ids_range. rewrite <- H8, !elem_of_app. right. right. apply list_elem_of_fmap_2. by eapply list_elem_of_lookup_2. }
  unfold BUFFER_SIZE, NET_HEADER_SIZE in *. lia.
Qed.

Lemma send_starts f q w : apart_buffers -> link q w -> NET_HEADER_SIZE + Z.of_nat (length f) <= BUFFER_SIZE ->
  let w' := virtio_send_start write32 at_ f w in
  (exists sent, sending f (went_out (w_regs w)) sent q w') /\ came_in (w_regs w') = came_in (w_regs w).
Proof.
  intros Hap (Hr & Hk & last & seen & sent & H1 & H2) Hf w'. split; [|done]. exists sent. split; [done|]. split; [done|]. exists last, seen, Published.
  assert (u32 (NET_HEADER_SIZE + Z.of_nat (length f)) = NET_HEADER_SIZE + Z.of_nat (length f)) as Eu.
  { apply Z.mod_small. unfold BUFFER_SIZE, NET_HEADER_SIZE in *. lia. }
  split.
  - apply (rx_ok_mem _ _ _ _ (w_mem w)); [|by destruct H1]. intros x Hx. unfold w', virtio_send_start. fields.
    unfold wr. fields. rewrite !place_other; [done|..]; rewrite ?length_replicate; destruct Hap; unfold BUFFER_SIZE, NET_HEADER_SIZE in *; lia.
  - destruct H2 as [[H2a H2b] H3 H4 H5 H6 H7]. unfold w', virtio_send_start, wr. fields. split; fields; try done.
    + by rewrite !length_insert.
    + by rewrite H3, index_S.
    + rewrite H3, slot_index. apply nth_insert_eq. rewrite H2a. apply Nat.mod_upper_bound. lia.
    + rewrite nth_insert_eq by (rewrite H2b; lia). done.
    + apply place_holds.
Qed.

Lemma done_or_not f out sent q w : sending f out sent q w ->
  match tx_done w with
  | (w', Some _) => link q w' /\ came_in (w_regs w') = came_in (w_regs w) /\ went_out (w_regs w') = out ++ [f]
  | (w', None) => w' = w
  end.
Proof.
  intros (Hr & Hk & last & seen & st & H1 & H2). unfold tx_done. rewrite (tb_used _ _ _ _ _ _ _ H2), (tb_last _ _ _ _ _ _ _ H2).
  rewrite index_eqb by (destruct (decide _); lia). destruct (decide (st = Gone)) as [->|].
  2: { by rewrite Nat.eqb_refl. }
  rewrite (proj2 (Nat.eqb_neq _ _)) by lia. destruct H2 as [H2 H3 H4 H5 H6 H7 H8 H9 H10 H11 H12]. split; [|split; [done|exact H12]].
  split; [done|]. split; [done|]. exists last, seen, (S sent). split; [by destruct H1|]. split; fields; try done.
Qed.

Context (observe : state -> state) (conforming : forall w, rtc dev_step w (observe w)).

(** Relative to a state with [q] waiting and [out] gone out, while [f] is on its way and after it. *)
Definition waiting (f : list Z) (out : list (list Z)) (sent : nat) (q came : list (list Z)) (w : state) : Prop :=
  exists new, sending f out sent (q ++ new) w /\ came_in (w_regs w) = came ++ new.
Definition through (f : list Z) (out q came : list (list Z)) (w : state) : Prop :=
  exists new, link (q ++ new) w /\ came_in (w_regs w) = came ++ new /\ went_out (w_regs w) = out ++ [f].

Lemma send_round f out sent q came w : apart_buffers -> waiting f out sent q came w ->
  match tx_done (observe w) with (w', Some _) => through f out q came w' | (w', None) => waiting f out sent q came w' end.
Proof.
  intros Hap (new & Hx & Hi). destruct (sending_runs _ _ _ _ _ _ Hap (conforming w) Hx) as (new' & Hx' & Hi').
  pose proof (done_or_not _ _ _ _ _ Hx') as Hd. destruct (tx_done (observe w)) as [x' [[]|]].
  - destruct Hd as (Hl' & Hi'' & Ho). exists (new ++ new'). split_and!; [by rewrite app_assoc|by rewrite Hi'', Hi', Hi, app_assoc|done].
  - subst x'. exists (new ++ new'). split; [by rewrite app_assoc|by rewrite Hi', Hi, app_assoc].
Qed.

Lemma send_transmits f q w : apart_buffers -> link q w -> NET_HEADER_SIZE + Z.of_nat (length f) <= BUFFER_SIZE ->
  match device_send read32 write32 at_ observe f w with
  | (w', true) => through f (went_out (w_regs w)) q (came_in (w_regs w)) w'
  | (w', false) => exists sent, waiting f (went_out (w_regs w)) sent q (came_in (w_regs w)) w'
  end.
Proof.
  intros Hap Hl Hf. destruct (send_starts f q w Hap Hl Hf) as [[sent Hs] Hin]. destruct Hl as (Hr & Hk & _).
  unfold device_send, virtio_send. rewrite bool_decide_eq_false_2 by (rewrite Hk; done). rewrite (proj2 (Z.ltb_ge _ _)), Hr by lia. cbn [negb orb].
  assert (waiting f (went_out (w_regs w)) sent q (came_in (w_regs w)) (virtio_send_start write32 at_ f w)) as Hw by (exists []; by rewrite !app_nil_r).
  pose proof (spin_keeps _ _ _ TX_SPINS _ (fun x => send_round f (went_out (w_regs w)) sent q (came_in (w_regs w)) x Hap) Hw) as Hsp.
  destruct (spin _ _ _) as [w' [[]|]]; [exact Hsp|by exists sent].
Qed.

(** ** Executions *)

(** What the layers above ask for. *)
Inductive op := Poll | Send (f : list Z).

(** Whatever is being sent already, a send leaves the receiving half to the
    device. *)
Lemma send_receives f q w : apart_buffers -> rlink q w ->
  exists new, let w' := fst (device_send read32 write32 at_ observe f w) in
    rlink (q ++ new) w' /\ came_in (w_regs w') = came_in (w_regs w) ++ new.
Proof.
  intros Hap Hl. pose proof Hl as (Hr & Hk & last & seen & H1). unfold device_send, virtio_send.
  rewrite bool_decide_eq_false_2 by (rewrite Hk; done). rewrite Hr. cbn [negb orb].
  destruct (Z.ltb_spec (BUFFER_SIZE - NET_HEADER_SIZE) (Z.of_nat (length f))); [exists []; by rewrite !app_nil_r|].
  set (P x := exists new, rlink (q ++ new) x /\ came_in (w_regs x) = came_in (w_regs w) ++ new).
  assert (P (virtio_send_start write32 at_ f w)) as HP.
  { exists []. rewrite !app_nil_r. split; [|done]. split_and!; [done..|]. exists last, seen.
    apply (rx_ok_mem _ _ _ _ (w_mem w)); [|by destruct H1]. intros x Hx. unfold virtio_send_start, wr. fields.
    rewrite !place_other; [done|..]; rewrite ?length_replicate; destruct Hap; unfold BUFFER_SIZE, NET_HEADER_SIZE in *; lia. }
  assert (forall x, P x -> match tx_done (observe x) with (x', Some _) => P x' | (x', None) => P x' end) as Hround.
  { intros x (new & Hx & Hi). destruct (rlink_runs _ _ _ (conforming x) Hx) as (new' & (K1 & K2 & l & sn & K3) & Hi').
    assert (P (observe x)) as Hob.
    { exists (new ++ new'). rewrite app_assoc. split; [by split_and!; [..|exists l, sn]|by rewrite Hi', Hi, app_assoc]. }
    unfold tx_done. destruct (_ =? _); [done|]. destruct Hob as (nw & (_ & _ & l' & sn' & J3) & J4). exists nw.
    split; [|exact J4]. split_and!; [done..|]. exists l', sn'. by destruct J3. }
  pose proof (spin_keeps P (fun x _ => P x) _ TX_SPINS _ Hround HP) as Hsp. destruct (spin _ _ _) as [w' [[]|]]; exact Hsp.
Qed.

(** A run of the driver: the state after it, the frames polled, those whose
    sending succeeded, and whether every sending ended in time; one that did
    not is given up and the run goes on.  A frame that is too long is refused. *)
Fixpoint run (dev : device state) (ops : list op) (w : state) : state * list (list Z) * list (list Z) * bool :=
  match ops with
  | [] => (w, [], [], true)
  | Poll :: ops =>
      let '(w, r) := network_device_poll dev FRAME_CAP w in
      let '(w, got, sent, in_time) := run dev ops w in
      (w, match r with Some f => f :: got | None => got end, sent, in_time)
  | Send f :: ops =>
      let '(w, ok) := network_device_send dev f w in
      let '(w, got, sent, in_time) := run dev ops w in
      if ok : bool then (w, got, f :: sent, in_time)
      else (w, got, sent, in_time && (BUFFER_SIZE - NET_HEADER_SIZE <? Z.of_nat (length f)))
  end.

Lemma poll_rlink mac q w : rlink q w -> exists new q',
  match network_device_poll (network_device read32 write32 at_ observe mac) FRAME_CAP w with
  | (w', Some f) => q ++ new = f :: q' /\ rlink q' w' /\ came_in (w_regs w') = came_in (w_regs w) ++ new
  | (w', None) => q ++ new = [] /\ rlink [] w' /\ came_in (w_regs w') = came_in (w_regs w)
  end.
Proof.
  intros Hl. cbn [network_device network_device_poll]. destruct (rlink_runs _ _ _ (conforming w) Hl) as (new & Hl' & Hi).
  exists new. destruct (q ++ new) as [|f q'] eqn:E.
  - exists []. rewrite poll_empty by done. apply app_eq_nil in E as [-> ->]. by rewrite app_nil_r in Hi.
  - exists q'. destruct (poll_takes FRAME_CAP f q' _ Hl') as (w' & -> & Hl'' & _ & Hi' & _).
    rewrite take_ge; [by rewrite Hi'|]. destruct Hl' as (_ & _ & last & seen & H1).
    destruct (rx_poll_ok _ _ _ _ _ _ _ H1) as (id & _ & _ & _ & Hs & _). unfold FRAME_CAP, BUFFER_SIZE, NET_HEADER_SIZE in *. lia.
Qed.

(** The sending half of a poll. *)
Lemma poll_link mac q w : link q w -> exists q',
  let '(w', _) := network_device_poll (network_device read32 write32 at_ observe mac) FRAME_CAP w in
  link q' w' /\ went_out (w_regs w') = went_out (w_regs w).
Proof.
  intros Hl. cbn [network_device network_device_poll]. destruct (link_runs _ _ _ (conforming w) Hl) as (new & Hl' & _ & Ho).
  destruct (q ++ new) as [|f q'].
  - exists []. rewrite poll_empty by by apply link_rlink. done.
  - exists q'. destruct (poll_takes FRAME_CAP f q' _ (link_rlink _ _ Hl')) as (w' & -> & _ & Hk & _ & Ho'). by rewrite Ho', Ho; auto.
Qed.

(** What is received in any run. *)
Lemma run_receives mac ops : forall q w, apart_buffers -> rlink q w ->
  let '(w', got, _, _) := run (network_device read32 write32 at_ observe mac) ops w in
  exists q' new, rlink q' w' /\ came_in (w_regs w') = came_in (w_regs w) ++ new /\ q ++ new = got ++ q'.
Proof.
  induction ops as [|[|f] ops IH]; intros q w Hap Hl; cbn [run].
  - exists q, []. by rewrite !app_nil_r.
  - destruct (poll_rlink mac q w Hl) as (new & q1 & Hp).
    destruct (network_device_poll _ FRAME_CAP w) as [w1 [f|]]; destruct Hp as (Eq & Hl1 & Hi);
      specialize (IH _ _ Hap Hl1); destruct (run _ ops w1) as [[[w2 got] sent] t]; destruct IH as (q2 & new2 & Hl2 & Hi2 & Eq2).
    + exists q2, (new ++ new2). split_and!; [done|by rewrite Hi2, Hi, app_assoc|]. rewrite app_assoc, Eq. cbn [app]. by rewrite Eq2.
    + apply app_eq_nil in Eq as [-> _]. exists q2, new2. by rewrite Hi2, Hi.
  - cbn [network_device network_device_send]. fold (network_device read32 write32 at_ observe mac).
    destruct (send_receives f q w Hap Hl) as (new & Hl1 & Hi). destruct (device_send _ _ _ _ f w) as [w1 ok]. cbn [fst] in *.
    specialize (IH _ _ Hap Hl1). destruct (run _ ops w1) as [[[w2 got] sent] t]. destruct IH as (q2 & new2 & Hl2 & Hi2 & Eq2).
    destruct ok; exists q2, (new ++ new2); (split_and!; [done|by rewrite Hi2, Hi, app_assoc|by rewrite app_assoc]).
Qed.

(** What is sent in a run whose sendings end in time. *)
Lemma run_sends mac ops : forall q w, apart_buffers -> link q w ->
  let '(w', _, sent, in_time) := run (network_device read32 write32 at_ observe mac) ops w in
  in_time = true -> went_out (w_regs w') = went_out (w_regs w) ++ sent.
Proof.
  induction ops as [|[|f] ops IH]; intros q w Hap Hl; cbn [run].
  - by rewrite app_nil_r.
  - destruct (poll_link mac q w Hl) as (q1 & Hp). destruct (network_device_poll _ FRAME_CAP w) as [w1 r]. destruct Hp as [Hl1 Ho].
    specialize (IH _ _ Hap Hl1). destruct (run _ ops w1) as [[[w2 got] sent] t]. by rewrite <- Ho.
  - cbn [network_device network_device_send]. fold (network_device read32 write32 at_ observe mac).
    destruct (Z.ltb_spec (BUFFER_SIZE - NET_HEADER_SIZE) (Z.of_nat (length f))) as [Hlong|Hfit].
    + unfold device_send. rewrite bool_decide_eq_false_2 by (destruct Hl as (_ & -> & _); done). unfold virtio_send.
      rewrite (proj2 (Z.ltb_lt _ _)), orb_true_r by done. specialize (IH _ _ Hap Hl). destruct (run _ ops w) as [[[w2 got] sent] t].
      by rewrite andb_true_r.
    + pose proof (send_transmits f q w Hap Hl ltac:(lia)) as Ht. destruct (device_send _ _ _ _ f w) as [w1 [|]].
      * destruct Ht as (new & Hl1 & _ & Ho). specialize (IH _ _ Hap Hl1). destruct (run _ ops w1) as [[[w2 got] sent] t].
        intros Ht. by rewrite IH, Ho, <- app_assoc.
      * destruct (run _ ops w1) as [[[w2 got] sent] t]. by rewrite andb_false_r.
Qed.

(** ** Starting *)

(** A driver and a device that have not been used. *)
Record fresh (w : state) : Prop := {
  fr_last : rx_last_used (w_net w) = 0 /\ tx_last_used (w_net w) = 0;
  fr_seen : rx_seen (w_regs w) = 0 /\ tx_seen (w_regs w) = 0;
  fr_held : rx_held (w_regs w) = [] /\ tx_held (w_regs w) = [] }.

Lemma regs_same w : changed_regs w w.
Proof. destruct w as [n g k m []]. by eexists. Qed.

Lemma changed_wr w0 w reg v : changed_regs w0 w -> changed_regs w0 (wr write32 reg v w).
Proof. intros H. eapply changed_regs_trans; [done|apply wr_regs]. Qed.

(** Past the next read of a register, from a state known to differ from the first only in its registers. *)
Ltac read_reg H :=
  let x := match goal with |- context [rd read32 _ ?x] => x end in
  let reg := match goal with |- context [rd read32 ?reg x] => reg end in
  let Hr := fresh in
  pose proof (changed_regs_trans _ _ _ (ltac:(repeat apply changed_wr; exact H) : changed_regs _ x) (rd_regs reg x)) as Hr;
  clear H; rename Hr into H; destruct (rd read32 reg x) as [? ?]; cbn [fst] in H.

(** [w'] is [w] with another register file and another virtio state. *)
Definition with_net (n : virtio_net) (w w' : state) : Prop := changed_regs (set_net n w) w'.

Lemma setup_queue_zeroes index_ q_at install w : match setup_queue read32 write32 index_ q_at install w with
  | (w', true) => with_net (install virtq_zero (w_net w)) w w'
  | (w', false) => changed_regs w w' \/ with_net (install virtq_zero (w_net w)) w w'
  end.
Proof.
  unfold setup_queue, set_addr. pose proof (regs_same w) as H. read_reg H. destruct (_ <? _); [by left|]. read_reg H. destruct (negb _); [by left|].
  destruct H as [r ->]. match goal with |- context [set_net ?n ?x] => assert (with_net (install virtq_zero (w_net w)) w (set_net n x)) as H by (by exists r) end.
  read_reg H. destruct (_ =? 1); [done|by right].
Qed.

Lemma config_regs n i w : changed_regs w (fst (read_config read8 n i w)).
Proof.
  revert i w. induction n as [|n IH]; intros i w; cbn [read_config]; [apply regs_same|]. unfold read8 at 1. destruct (bus_read8 _ _) as [r b].
  specialize (IH (i + 1) (set_regs (set_d_regs r (w_regs w)) w)). destruct (read_config read8 n (i + 1) _) as [w' bs]. cbn [fst] in *.
  eapply changed_regs_trans; [|exact IH]. by exists r.
Qed.

Lemma rx_offered_ok n m d : n_rx n = rx_offered at_ virtq_zero -> rx_last_used n = 0 -> rx_seen d = 0 -> rx_held d = [] -> rx_ok 0 0 [] n m d.
Proof.
  intros Hq Hl Hs Hh. split; rewrite ?Hq, ?Hl, ?Hs, ?Hh; try done; [|lia].
  intros i Hi. do 8 (destruct i as [|i]; [done|]). lia.
Qed.

Lemma start_links node_id w : fresh w -> match virtio_start read32 read8 write32 at_ node_id w with
  | (w', true) => link [] w' /\ came_in (w_regs w') = came_in (w_regs w) /\ went_out (w_regs w') = went_out (w_regs w)
  | _ => True
  end.
Proof.
  intros [[Hl1 Hl2] [Hs1 Hs2] [Hh1 Hh2]]. unfold virtio_start. pose proof (regs_same w) as H. read_reg H. destruct (_ =? 0); [done|].
  read_reg H. cbv zeta. read_reg H. destruct (_ =? 0); [done|]. destruct H as [r ->].
  match goal with |- context [setup_queue read32 write32 0 ?a ?i ?x] => pose proof (setup_queue_zeroes 0 a i x) as H; destruct (setup_queue read32 write32 0 a i x) as [wa [|]] end;
    [|done].
  destruct H as [r1 ->]. fields.
  match goal with |- context [setup_queue read32 write32 1 ?a ?i ?x] => pose proof (setup_queue_zeroes 1 a i x) as H; destruct (setup_queue read32 write32 1 a i x) as [wb [|]] end;
    [|done].
  destruct H as [r2 ->]. cbn [negb]. fields.
  match goal with |- context [wr write32 REG_QUEUE_NOTIFY 0 ?x] => destruct (wr_regs REG_QUEUE_NOTIFY 0 x) as [r3 ->] end. fields.
  destruct (negb _);
    [match goal with |- context [read_config read8 6 0 ?x] => pose proof (config_regs 6 0 x) as H; destruct (read_config read8 6 0 x) as [wc mac] end;
     destruct H as [r4 Hc]; cbn [fst] in Hc; subst wc|];
    fields; match goal with |- context [wr write32 REG_STATUS ?v ?x] => destruct (wr_regs REG_STATUS v x) as [r5 ->] end; fields;
    (split; [|done]; split; [done|]; split; [done|]; exists 0%nat, 0%nat, 0%nat; split; [by apply rx_offered_ok|by split]).
Qed.

(** C13: The network device delivers: after a successful start, in every run of polls and sends, with a device that does
    whatever the virtio specification lets it between any two looks of the driver, the frames polled are the frames that
    came in from the wire, each once, complete and in order, less at most eight that wait in the buffers.  If moreover
    every sending of the run ended within its polls, the frames that went out are exactly those whose sending
    succeeded, in order. *)
Theorem virtio_exactly_once node_id mac w w1 ops :
  apart_buffers -> fresh w -> came_in (w_regs w) = [] -> went_out (w_regs w) = [] ->
  virtio_start read32 read8 write32 at_ node_id w = (w1, true) ->
  let '(w', got, sent, in_time) := run (network_device read32 write32 at_ observe mac) ops w1 in
  (exists waiting, came_in (w_regs w') = got ++ waiting /\ (length waiting <= 8)%nat) /\
  (in_time = true -> went_out (w_regs w') = sent).
Proof.
  intros Hap Hf Hi0 Ho0 Hs. pose proof (start_links node_id w Hf) as Hl. rewrite Hs in Hl. destruct Hl as (Hl & Hi & Ho).
  pose proof (run_receives mac ops [] w1 Hap (link_rlink _ _ Hl)) as Hin. pose proof (run_sends mac ops [] w1 Hap Hl) as Hout.
  destruct (run _ ops w1) as [[[w' got] sent] t]. destruct Hin as (q & new & (_ & _ & last & seen & Hq) & Hi' & Eq).
  split; [|intros Ht; by rewrite Hout, Ho, Ho0]. exists q. split; [rewrite Hi', Hi, Hi0; exact Eq|].
  pose proof (rx_total _ _ _ _ _ _ Hq). lia.
Qed.

(** *** How long a sending may take *)

(** The rounds of the wait see what the device has made of the state. *)
Lemma waits_iter n w w' : spin_nat n (fun w => tx_done (observe w)) w = (w', None) ->
  forall k, (0 < k <= n)%nat -> exists x, tx_done (Nat.iter k observe w) = (x, None).
Proof.
  revert w. induction n as [|n IH]; intros w E k Hk; [lia|]. cbn [spin_nat] in E. destruct (tx_done (observe w)) as [x [[]|]] eqn:E1; [done|].
  destruct k as [|k]; [lia|]. rewrite Nat.iter_succ_r. destruct k as [|k]; [by exists x|].
  assert (x = observe w) as -> by (revert E1; unfold tx_done; case_match; congruence). apply (IH _ E). lia.
Qed.

#[local] Opaque TX_SPINS.

(** A sending succeeds when the device is fast enough: if, left to itself after the notification, the device has put
    the frame on the wire within ten million of the driver's looks, the sending returns success, and exactly this frame
    has been added to what went out. *)
Theorem virtio_send_in_time f q w k :
  apart_buffers -> link q w -> NET_HEADER_SIZE + Z.of_nat (length f) <= BUFFER_SIZE ->
  (0 < k <= Pos.to_nat TX_SPINS)%nat ->
  went_out (w_regs (Nat.iter k observe (virtio_send_start write32 at_ f w))) <> went_out (w_regs w) ->
  exists w' new, device_send read32 write32 at_ observe f w = (w', true) /\ link (q ++ new) w' /\
    came_in (w_regs w') = came_in (w_regs w) ++ new /\ went_out (w_regs w') = went_out (w_regs w) ++ [f].
Proof.
  intros Hap Hl Hf Hk Hout. pose proof (send_transmits f q w Hap Hl Hf) as Ht. destruct (device_send _ _ _ _ f w) as [w' [|]] eqn:E.
  { destruct Ht as (new & H1 & H2 & H3). by exists w', new. }
  exfalso. clear Ht. destruct (send_starts f q w Hap Hl Hf) as [[sent Hs] _]. destruct Hl as (Hr & Hkd & _).
  unfold device_send, virtio_send in E. rewrite bool_decide_eq_false_2 in E by (rewrite Hkd; done). rewrite (proj2 (Z.ltb_ge _ _)), Hr in E by lia.
  cbn [negb orb] in E. rewrite spin_eq in E. revert E. generalize (Pos.to_nat TX_SPINS) Hk. clear Hk. intros N Hk E.
  destruct (spin_nat _ _ _) as [x [[]|]] eqn:E1; [done|]. destruct (waits_iter _ _ _ E1 k Hk) as [y Ey].
  assert (exists new, sending f (went_out (w_regs w)) sent (q ++ new) (Nat.iter k observe (virtio_send_start write32 at_ f w))) as [new Hb].
  { clear Hk Ey Hout. induction k as [|k [new IH]]; [exists []; by rewrite app_nil_r|]. rewrite Nat.iter_succ.
    destruct (sending_runs _ _ _ _ _ _ Hap (conforming (Nat.iter k observe (virtio_send_start write32 at_ f w))) IH) as (new' & H & _).
    exists (new ++ new'). by rewrite app_assoc. }
  destruct Hb as (_ & _ & last & seen & st & _ & Hb). unfold tx_done in Ey. rewrite (tb_used _ _ _ _ _ _ _ Hb), (tb_last _ _ _ _ _ _ _ Hb) in Ey.
  rewrite (tb_out _ _ _ _ _ _ _ Hb) in Hout. rewrite index_eqb in Ey by (destruct (decide _); lia).
  destruct (decide (st = Gone)); [|done]. rewrite (proj2 (Nat.eqb_neq _ _)) in Ey by lia. done.
Qed.
#[local] Transparent TX_SPINS.
End virtio.

(** ** A machine *)

Section demo.
#[local] Abbreviation state := (world (@virtio_dev Z)).

(** A device that sends what it is given and receives one frame. *)
Definition demo_tx (w : state) : state :=
  if decide (tx_seen (w_regs w) = avail_idx (n_tx (w_net w))) then w
  else
    let id := avail_ring (n_tx (w_net w)) !!? slot (tx_seen (w_regs w)) in
    let held := tx_held (w_regs w) in
    let d := q_desc (n_tx (w_net w)) !!? Z.to_nat id in
    let w := set_regs (set_tx_seen (u16 (tx_seen (w_regs w) + 1)) (id :: held) (w_regs w)) w in
    set_regs (log_out (bytes (w_mem w) (d_addr d + NET_HEADER_SIZE) (Z.to_nat (d_len d - NET_HEADER_SIZE))) held (w_regs w))
      (set_net (set_n_tx (use id 0 (n_tx (w_net w))) (w_net w)) w).

Definition demo_rx (f : list Z) (w : state) : state :=
  let q := n_rx (w_net w) in
  let id := avail_ring q !!? slot (rx_seen (w_regs w)) in
  let d := q_desc q !!? Z.to_nat id in
  if decide (came_in (w_regs w) = [] /\ rx_seen (w_regs w) <> avail_idx q /\ Z.land (d_flags d) DESC_F_WRITE <> 0 /\
             NET_HEADER_SIZE + Z.of_nat (length f) <= d_len d) then
    let held := rx_held (w_regs w) in
    let w := set_regs (set_rx_seen (u16 (rx_seen (w_regs w) + 1)) (id :: held) (w_regs w)) w in
    set_regs (log_in f held (w_regs w)) (set_mem (place (d_addr d) (replicate 12 0 ++ f) (w_mem w))
      (set_net (set_n_rx (use id (NET_HEADER_SIZE + Z.of_nat (length f)) q) (w_net w)) w))
  else w.

Lemma demo_tx_steps w : rtc dev_step w (demo_tx w).
Proof.
  unfold demo_tx. case_decide as Hd; [done|]. eapply rtc_l; [by apply tx_fetch|]. apply rtc_once.
  by apply (tx_complete (set_regs (set_tx_seen _ _ (w_regs w)) w) [] (avail_ring (n_tx (w_net w)) !!? slot (tx_seen (w_regs w)))).
Qed.

Lemma demo_rx_steps f w : rtc dev_step w (demo_rx f w).
Proof.
  unfold demo_rx. case_decide as Hd; [|done]. destruct Hd as (_ & Hne & Hf & Hl). eapply rtc_l; [by apply rx_fetch|]. apply rtc_once.
  by apply (rx_complete (set_regs (set_rx_seen _ _ (w_regs w)) w) [] (avail_ring (n_rx (w_net w)) !!? slot (rx_seen (w_regs w))) (rx_held (w_regs w)) (replicate 12 0)).
Qed.

Definition demo_device (w : state) : state := demo_rx [7; 8; 9] (demo_tx w).

Lemma demo_conforms w : rtc dev_step w (demo_device w).
Proof. transitivity (demo_tx w); [apply demo_tx_steps|apply demo_rx_steps]. Qed.

(** Its registers: whether the selected queue is ready; the others read as all ones. *)
Definition demo_read32 (a : Z) (r : Z) : Z * Z := (r, if a =? REG_QUEUE_READY then r else 0xffff).
Definition demo_read8 (a : Z) (r : Z) : Z * Z := (r, a mod 256).
Definition demo_write32 (a v : Z) (r : Z) : Z := if a =? REG_QUEUE_READY then v else if a =? REG_QUEUE_SEL then 0 else r.

Definition demo_layout : layout :=
  {| rx_at := 0x10000; tx_at := 0x20000; rxq_at := 0x30000; txq_at := 0x31000; gem_rx_at := 0; gem_tx_at := 0; gem_rxd_at := 0; gem_txd_at := 0 |}.

Definition demo_off : state :=
  {| w_net := {| n_base := 0; n_mac := replicate 6 0; rx_last_used := 0; tx_last_used := 0; n_ready := false; n_rx := virtq_zero; n_tx := virtq_zero |};
     w_gem := {| g_base := 0; g_mac := replicate 6 0; rx_index := 0; rx_desc := replicate 8 inhabitant; tx_desc := inhabitant |};
     w_kind := NET_NONE; w_mem := fun _ => 0;
     w_regs := {| rx_seen := 0; tx_seen := 0; rx_held := []; tx_held := []; came_in := []; went_out := []; d_regs := 0 |} |}.

Definition demo_started : state * bool := virtio_start (read32 demo_read32) (read8 demo_read8) (write32 demo_write32) demo_layout 5 demo_off.
Definition demo_on : state := fst demo_started.
Definition demo_network : device state := network_device (read32 demo_read32) (write32 demo_write32) demo_layout demo_device [].

Lemma demo_apart : apart_buffers demo_layout.
Proof. right. vm_compute. discriminate. Qed.

Lemma demo_fresh : fresh demo_off.
Proof. by split. Qed.

Lemma demo_start : virtio_start (read32 demo_read32) (read8 demo_read8) (write32 demo_write32) demo_layout 5 demo_off = (demo_on, true).
Proof. unfold demo_on, demo_started. destruct (virtio_start _ _ _ _ _ _) as [w ok] eqn:E. by assert (ok = true) as -> by (apply (f_equal snd) in E; vm_compute in E; by symmetry). Qed.

(** The frames polled, those sent, and whether every sending ended in time. *)
Definition results {A} (r : A * list (list Z) * list (list Z) * bool) : list (list Z) * list (list Z) * bool :=
  let '(_, got, sent, in_time) := r in (got, sent, in_time).

Lemma virtio_exactly_once_witness :
  let ops := [Send [1; 2; 3]; Poll; Poll] in
  results (run demo_network ops demo_on) = ([[7; 8; 9]], [[1; 2; 3]], true) /\
  let '(w', got, sent, in_time) := run demo_network ops demo_on in
  (exists waiting, came_in (w_regs w') = got ++ waiting /\ (length waiting <= 8)%nat) /\
  (in_time = true -> went_out (w_regs w') = sent).
Proof.
  intros ops. split; [vm_compute; reflexivity|].
  exact (virtio_exactly_once demo_read32 demo_read8 demo_write32 demo_layout demo_device demo_conforms 5 [] demo_off demo_on
    ops demo_apart demo_fresh eq_refl eq_refl demo_start).
Defined.

Lemma demo_link : link demo_layout [] demo_on.
Proof.
  pose proof (start_links demo_read32 demo_read8 demo_write32 demo_layout 5 demo_off demo_fresh) as H. rewrite demo_start in H. apply H.
Qed.

Lemma virtio_send_in_time_witness : exists (w' : state) new,
  device_send (read32 demo_read32) (write32 demo_write32) demo_layout demo_device [1; 2; 3] demo_on = (w', true) /\ link demo_layout new w' /\
  came_in (w_regs w') = came_in (w_regs demo_on) ++ new /\ went_out (w_regs w') = went_out (w_regs demo_on) ++ [[1; 2; 3]].
Proof.
  apply (virtio_send_in_time demo_read32 demo_read8 demo_write32 demo_layout demo_device demo_conforms [1; 2; 3] [] demo_on 1 demo_apart demo_link).
  - vm_compute. discriminate.
  - split; [apply Nat.lt_0_succ|apply Pos2Nat.is_pos].
  - vm_compute. discriminate.
Defined.

Lemma spin_stuck {W A} n (body : W -> W * option A) w : body w = (w, None) -> spin n body w = (w, None).
Proof. intros E. rewrite spin_eq. induction (Pos.to_nat n) as [|k IH]; [done|]. cbn. by rewrite E. Qed.

Lemma surjective_pairing_eq {A B} (p : A * B) b : snd p = b -> p = (fst p, b).
Proof. destruct p. by intros <-. Qed.

(** A device that is slow. *)
Lemma stalled_send_fails f (w : state) : w_kind w = NET_VIRTIO -> n_ready (w_net w) = true -> used_idx (n_tx (w_net w)) = tx_last_used (w_net w) ->
  (BUFFER_SIZE - NET_HEADER_SIZE <? Z.of_nat (length f)) = false ->
  device_send (read32 demo_read32) (write32 demo_write32) demo_layout (fun w => w) f w = (virtio_send_start (write32 demo_write32) demo_layout f w, false).
Proof.
  intros Hk Hr Hu Hl. unfold device_send, virtio_send. rewrite bool_decide_eq_false_2 by (rewrite Hk; done). rewrite Hr, Hl. cbn [negb orb].
  rewrite spin_stuck; [done|]. unfold tx_done. cbn [virtio_send_start wr set_regs set_net w_net set_n_tx n_tx publish set_desc used_idx tx_last_used set_mem].
  by rewrite Hu, Z.eqb_refl.
Qed.

(** The transmit buffer is used again while the device may still hold it: when the sending of [1; 2; 3] has been given
    up and the device is only slow, the sending of [4; 5; 6] overwrites the buffer, takes the end of the first sending
    for its own and reports success, and the device sends [4; 5; 6] twice and [1; 2; 3] never. *)
Theorem virtio_timeout_repeats_frame :
  let send observe := device_send (read32 demo_read32) (write32 demo_write32) demo_layout observe in
  exists w1 w2, send (fun w => w) [1; 2; 3] demo_on = (w1, false) /\ send demo_tx [4; 5; 6] w1 = (w2, true) /\
    rtc dev_step w2 (demo_tx w2) /\ went_out (w_regs (demo_tx w2)) = [[4; 5; 6]; [4; 5; 6]].
Proof.
  intros send. exists (virtio_send_start (write32 demo_write32) demo_layout [1; 2; 3] demo_on). unfold send.
  set (w1 := virtio_send_start _ _ _ demo_on). exists (fst (device_send (read32 demo_read32) (write32 demo_write32) demo_layout demo_tx [4; 5; 6] w1)).
  split; [by apply stalled_send_fails|]. split; [|split; [apply demo_tx_steps|vm_compute; reflexivity]].
  apply surjective_pairing_eq. vm_compute. reflexivity.
Qed.
End demo.
