(* ===== verification/GemSpec.v ===== *)
(** * What the Cadence GEM driver guarantees

    The controller as a step relation on the descriptors it shares with the
    driver, the ownership invariant of the descriptors, and that frames are
    received and sent at most once, complete and in order, also after a
    sending that was given up. *)

From S2P Require Import Prelude Bytes Fdt NetworkRpc NetworkEther NetworkDevice VirtioSpec.

(** ** The bits of a descriptor's address *)

Lemma low_bits b n : Z.land b 3 = 0 -> 0 <= n < 2 -> Z.testbit b n = false.
Proof.
  intros H Hn. apply (f_equal (fun x => Z.testbit x n)) in H. rewrite Z.land_spec, Z.bits_0 in H.
  assert (Z.testbit 3 n = true) as E by (assert (n = 0 \/ n = 1) as [-> | ->] by lia; done). by rewrite E, andb_true_r in H.
Qed.

Lemma small_bits c n : 0 <= c < 4 -> 2 <= n -> Z.testbit c n = false.
Proof. intros Hc Hn. destruct (Z.eq_dec c 0) as [->|]; [apply Z.bits_0|]. apply Z.bits_above_log2; [lia|]. apply (Z.log2_lt_pow2 c n); [lia|]. pose proof (Z.pow_le_mono_r 2 2 n). lia. Qed.

(** The masks only see the two bits below an aligned address. *)
Lemma land_low b c k : Z.land b 3 = 0 -> 0 <= c < 4 -> 0 <= k < 4 -> Z.land (Z.lor b c) k = Z.land c k.
Proof.
  intros Hb Hc Hk. apply Z.bits_inj'. intros n Hn. rewrite !Z.land_spec, Z.lor_spec. destruct (decide (n < 2)).
  - by rewrite (low_bits b n).
  - by rewrite (small_bits k n), !andb_false_r by lia.
Qed.

Lemma ldiff_low b c k : Z.land b 3 = 0 -> 0 <= c < 4 -> 0 <= k < 4 -> Z.ldiff (Z.lor b c) k = Z.lor b (Z.ldiff c k).
Proof.
  intros Hb Hc Hk. apply Z.bits_inj'. intros n Hn. rewrite Z.lor_spec, !Z.ldiff_spec, Z.lor_spec. destruct (decide (n < 2)).
  - by rewrite (low_bits b n).
  - by rewrite (small_bits k n), (small_bits c n), !andb_true_r by lia.
Qed.

(** ** The controller *)

Section gem.
Context {R : Type} (bus_read32 : Z -> R -> R * Z) (bus_write32 : Z -> Z -> R -> R) (at_ : layout).

(** Where the controller receives next, the whole frames that came in, the
    frames that went out, and its registers. *)
Record gem_dev := { rx_pos : Z; came : list (list Z); gone : list (list Z); g_regs : R }.

Definition set_g_regs (r : R) (d : gem_dev) : gem_dev := {| rx_pos := rx_pos d; came := came d; gone := gone d; g_regs := r |}.

Definition gread32 (a : Z) (d : gem_dev) : gem_dev * Z := let '(r, v) := bus_read32 a (g_regs d) in (set_g_regs r d, v).
Definition gwrite32 (a v : Z) (d : gem_dev) : gem_dev := set_g_regs (bus_write32 a v (g_regs d)) d.

#[local] Abbreviation state := (world gem_dev).

(** A received piece is a whole frame when it is its start and its end. *)
Definition whole (p : Z * list Z) : option (list Z) :=
  if Z.land (fst p) (Z.lor GEM_RX_SOF GEM_RX_EOF) =? Z.lor GEM_RX_SOF GEM_RX_EOF then Some (snd p) else None.
Definition whole_list (p : Z * list Z) : list (list Z) := match whole p with Some f => [f] | None => [] end.

Definition set_rx_desc (i : nat) (d : gem_desc_t) (g : gem_net) : gem_net :=
  {| g_base := g_base g; g_mac := g_mac g; rx_index := rx_index g; rx_desc := <[i := d]> (rx_desc g); tx_desc := tx_desc g |}.

(** What the controller does: put a piece of at most 1536 bytes (the size
    set in DMACFG) into the next buffer when its descriptor is its own, and
    give the descriptor to the driver; send the frame of the transmit
    descriptor and mark it used; change its registers. *)
Inductive gem_step : state -> state -> Prop :=
  | gem_receive w status f :
      let i := rx_pos (w_regs w) in
      let d := rx_desc (w_gem w) !!? Z.to_nat i in
      Z.land (g_address d) GEM_RX_OWNED = 0 -> Z.land status GEM_RX_LENGTH = Z.of_nat (length f) -> (length f <= 1536)%nat ->
      gem_step w (set_regs {| rx_pos := if Z.land (g_address d) GEM_RX_WRAP =? 0 then i + 1 else 0;
                              came := came (w_regs w) ++ whole_list (status, f); gone := gone (w_regs w); g_regs := g_regs (w_regs w) |}
        (set_mem (place (Z.ldiff (g_address d) 3) f (w_mem w))
          (set_gem (set_rx_desc (Z.to_nat i) {| g_address := Z.lor (g_address d) GEM_RX_OWNED; g_status := status |} (w_gem w)) w)))
  | gem_transmit w :
      let d := tx_desc (w_gem w) in
      Z.land (g_status d) GEM_TX_USED = 0 ->
      gem_step w (set_regs {| rx_pos := rx_pos (w_regs w); came := came (w_regs w);
                              gone := gone (w_regs w) ++ [bytes (w_mem w) (g_address d) (Z.to_nat (Z.land (g_status d) 0x3fff))]; g_regs := g_regs (w_regs w) |}
        (set_gem (set_tx_desc {| g_address := g_address d; g_status := Z.lor (g_status d) GEM_TX_USED |} (w_gem w)) w))
  | gem_registers w r : gem_step w (set_regs (set_g_regs r (w_regs w)) w).

(** ** Receiving *)

(** The buffers lie below 4 GiB, aligned, and do not overlap. *)
Record gem_placed : Prop := {
  gp_rx : Z.land (gem_rx_at at_) 3 = 0 /\ 0 <= gem_rx_at at_ /\ gem_rx_at at_ + 8 * BUFFER_SIZE <= 2 ^ 32;
  gp_tx : 0 <= gem_tx_at at_ /\ gem_tx_at at_ + BUFFER_SIZE <= 2 ^ 32;
  gp_apart : gem_tx_at at_ + BUFFER_SIZE <= gem_rx_at at_ \/ gem_rx_at at_ + 8 * BUFFER_SIZE <= gem_tx_at at_ }.

Definition buffer (i : nat) : Z := gem_rx_at at_ + Z.of_nat i * BUFFER_SIZE.
Definition wrap_bit (i : nat) : Z := if (i =? 7)%nat then GEM_RX_WRAP else 0.

(** The pieces [q] wait to be polled, the driver having taken [last] since the start. *)
Record gem_rx_ok (last : nat) (q : list (Z * list Z)) (g : gem_net) (m : memory) (d : gem_dev) : Prop := {
  gr_len : length (rx_desc g) = 8%nat;
  gr_index : rx_index g = Z.of_nat (last mod 8);
  gr_pos : rx_pos d = Z.of_nat ((last + length q) mod 8);
  gr_few : (length q <= 8)%nat;
  gr_owned : forall k, (k < 8)%nat -> g_address (rx_desc g !!? ((last + k) mod 8)%nat) =
    Z.lor (buffer ((last + k) mod 8)) (Z.lor (wrap_bit ((last + k) mod 8)) (if (k <? length q)%nat then GEM_RX_OWNED else 0));
  gr_pieces : forall k p, q !! k = Some p -> g_status (rx_desc g !!? ((last + k) mod 8)%nat) = fst p /\
    Z.land (fst p) GEM_RX_LENGTH = Z.of_nat (length (snd p)) /\ (length (snd p) <= 1536)%nat /\
    holds m (buffer ((last + k) mod 8)) (snd p) }.

Context (placed : gem_placed).

Lemma buffer_aligned i : Z.land (buffer i) 3 = 0.
Proof.
  destruct (gp_rx placed) as [H _]. revert H. change 3 with (Z.ones 2). rewrite !Z.land_ones by lia. unfold buffer, BUFFER_SIZE. intros H.
  apply Z.mod_divide in H; [|lia]. apply Z.mod_divide; [lia|]. apply Z.divide_add_r; [done|]. exists (Z.of_nat i * 512). lia.
Qed.

Lemma wrap_cases i : wrap_bit i = 0 \/ wrap_bit i = 2.
Proof. unfold wrap_bit. destruct (i =? 7)%nat; [by right|by left]. Qed.

(** Taking a descriptor's address apart, and changing its owner. *)
Lemma address_bits i own : own = 0 \/ own = 1 ->
  let a := Z.lor (buffer i) (Z.lor (wrap_bit i) own) in
  Z.land a GEM_RX_OWNED = own /\ Z.land a GEM_RX_WRAP = wrap_bit i /\ Z.ldiff a 3 = buffer i /\
  Z.lor a GEM_RX_OWNED = Z.lor (buffer i) (Z.lor (wrap_bit i) GEM_RX_OWNED) /\ Z.ldiff a GEM_RX_OWNED = Z.lor (buffer i) (Z.lor (wrap_bit i) 0).
Proof.
  intros Ho a. pose proof (buffer_aligned i) as Hb. unfold GEM_RX_OWNED, GEM_RX_WRAP, a.
  assert (0 <= Z.lor (wrap_bit i) own < 4) as Hc by (destruct (wrap_cases i) as [-> | ->], Ho as [-> | ->]; vm_compute; split; congruence).
  rewrite (land_low _ _ 1), (land_low _ _ 2), (ldiff_low _ _ 3), (ldiff_low _ _ 1), <- Z.lor_assoc by (done || lia).
  destruct (wrap_cases i) as [-> | ->], Ho as [-> | ->]; split_and!; first [reflexivity|apply Z.lor_0_r].
Qed.

Lemma slots_differ a j k : (j < 8)%nat -> (k < 8)%nat -> j <> k -> ((a + j) mod 8)%nat <> ((a + k) mod 8)%nat.
Proof. intros Hj Hk Hne E. pose proof (Nat.div_mod_eq (a + j) 8). pose proof (Nat.div_mod_eq (a + k) 8). lia. Qed.

Lemma slot_lt a : (a mod 8 < 8)%nat.
Proof. apply Nat.mod_upper_bound. lia. Qed.

Lemma next_slot a : Z.of_nat ((a + 1) mod 8) = if wrap_bit (a mod 8) =? 0 then Z.of_nat (a mod 8) + 1 else 0.
Proof.
  unfold wrap_bit. pose proof (Nat.div_mod_eq a 8). pose proof (Nat.div_mod_eq (a + 1) 8). pose proof (slot_lt a). pose proof (slot_lt (a + 1)).
  destruct (Nat.eqb_spec (a mod 8) 7); cbn [GEM_RX_WRAP Z.eqb]; lia.
Qed.

Lemma gem_receive_ok last q g m d status f : gem_rx_ok last q g m d ->
  let i := rx_pos d in
  let e := rx_desc g !!? Z.to_nat i in
  Z.land (g_address e) GEM_RX_OWNED = 0 -> Z.land status GEM_RX_LENGTH = Z.of_nat (length f) -> (length f <= 1536)%nat ->
  Z.ldiff (g_address e) 3 = buffer ((last + length q) mod 8) /\
  gem_rx_ok last (q ++ [(status, f)]) (set_rx_desc (Z.to_nat i) {| g_address := Z.lor (g_address e) GEM_RX_OWNED; g_status := status |} g)
    (place (Z.ldiff (g_address e) 3) f m)
    {| rx_pos := if Z.land (g_address e) GEM_RX_WRAP =? 0 then i + 1 else 0; came := came d ++ whole_list (status, f); gone := gone d; g_regs := g_regs d |}.
Proof.
  intros [H1 H2 H3 H4 H5 H6] i e Ho Hs Hf. subst i e. rewrite H3, Nat2Z.id in *. set (n := length q) in *.
  assert (n < 8)%nat as Hn.
  { destruct (Nat.eq_dec n 8) as [E|]; [|lia]. exfalso. specialize (H5 0%nat ltac:(lia)). rewrite E in Ho, H5.
    replace ((last + 8) mod 8)%nat with ((last + 0) mod 8)%nat in Ho by (rewrite Nat.add_0_r, <- (Nat.Div0.mod_add last 1 8); f_equal; lia).
    rewrite H5 in Ho. cbn [Nat.ltb Nat.leb] in Ho. by rewrite (proj1 (address_bits _ 1 ltac:(by right))) in Ho. }
  pose proof (H5 n Hn) as Ha. rewrite Nat.ltb_irrefl in Ha. rewrite Ha in *.
  destruct (address_bits ((last + n) mod 8) 0 ltac:(by left)) as (B1 & B2 & B3 & B4 & _). rewrite B2, B3, B4. split; [done|].
  split; cbn [set_rx_desc rx_desc rx_index rx_pos].
  - by rewrite length_insert.
  - done.
  - rewrite length_app. cbn [length]. fold n. rewrite <- next_slot. do 2 f_equal. lia.
  - rewrite length_app. cbn [length]. lia.
  - intros k Hk. rewrite length_app. cbn [length]. fold n. destruct (Nat.eq_dec k n) as [->|Hne].
    + rewrite nth_insert_eq by (rewrite H1; apply slot_lt). cbn [g_address]. by rewrite (proj2 (Nat.ltb_lt n (n + 1))) by lia.
    + rewrite nth_insert_ne by (by apply slots_differ). rewrite (H5 k Hk). do 3 f_equal.
      destruct (Nat.ltb_spec k n), (Nat.ltb_spec k (n + 1)); (done || lia).
  - intros k p Hp. apply lookup_app_Some in Hp as [Hp|[Hk Hp]].
    + pose proof (lookup_lt_Some _ _ _ Hp) as Hk. destruct (H6 k p Hp) as (P1 & P2 & P3 & P4).
      rewrite nth_insert_ne by (apply slots_differ; lia). split_and!; [done..|]. apply holds_place; [done|].
      pose proof (slots_differ last n k Hn ltac:(lia) ltac:(lia)). unfold buffer, BUFFER_SIZE. lia.
    + fold n in Hk, Hp. destruct (k - n)%nat as [|k'] eqn:E; [|done]. assert (k = n) as -> by lia. injection Hp as <-.
      rewrite nth_insert_eq by (rewrite H1; apply slot_lt). split_and!; [done..|]. apply place_holds.
Qed.

Lemma gem_poll_ok last p q g m d : gem_rx_ok last (p :: q) g m d ->
  let e := rx_desc g !!? Z.to_nat (rx_index g) in
  Z.land (g_address e) GEM_RX_OWNED = 1 /\ g_status e = fst p /\ Z.land (fst p) GEM_RX_LENGTH = Z.of_nat (length (snd p)) /\
  (length (snd p) <= 1536)%nat /\ holds m (gem_rx_at at_ + rx_index g * BUFFER_SIZE) (snd p) /\
  gem_rx_ok (S last) q {| g_base := g_base g; g_mac := g_mac g; rx_index := (rx_index g + 1) mod 8;
    rx_desc := <[Z.to_nat (rx_index g) := {| g_address := Z.ldiff (g_address e) GEM_RX_OWNED; g_status := 0 |}]> (rx_desc g); tx_desc := tx_desc g |} m d.
Proof.
  intros [H1 H2 H3 H4 H5 H6] e. subst e. cbn [length] in *. rewrite H2, Nat2Z.id.
  pose proof (H5 0%nat ltac:(lia)) as Ha. destruct (H6 0%nat p eq_refl) as (P1 & P2 & P3 & P4). rewrite Nat.add_0_r in *. cbn [Nat.ltb Nat.leb] in Ha.
  rewrite Ha. destruct (address_bits (last mod 8) GEM_RX_OWNED ltac:(by right)) as (B1 & _ & _ & _ & B5). rewrite B5. split_and!; [done..|].
  split; cbn [rx_desc rx_index].
  - by rewrite length_insert.
  - change 8 with (Z.of_nat 8). rewrite <- (Nat2Z.inj_add _ 1), <- Nat2Z.inj_mod. f_equal. rewrite Nat.Div0.add_mod_idemp_l. f_equal. lia.
  - rewrite H3. do 2 f_equal. lia.
  - lia.
  - intros k Hk. destruct (Nat.eq_dec k 7) as [->|Hne].
    + assert ((S last + 7) mod 8 = last mod 8)%nat as -> by (rewrite <- (Nat.Div0.mod_add last 1 8); f_equal; lia).
      rewrite nth_insert_eq by (rewrite H1; apply slot_lt). cbn [g_address]. by rewrite (proj2 (Nat.ltb_ge 7 _)) by lia.
    + replace (S last + k)%nat with (last + S k)%nat by lia.
      rewrite nth_insert_ne by (rewrite <- (Nat.add_0_r last) at 1; apply slots_differ; lia). rewrite (H5 (S k)) by lia. done.
  - intros k r Hr. pose proof (lookup_lt_Some _ _ _ Hr). replace (S last + k)%nat with (last + S k)%nat by lia.
    rewrite nth_insert_ne by (rewrite <- (Nat.add_0_r last) at 1; apply slots_differ; lia). by apply (H6 (S k)).
Qed.

(** ** Sending *)

Definition sent_status (f : list Z) : Z := Z.lor (Z.lor (Z.of_nat (length f)) GEM_TX_LAST) GEM_TX_WRAP.

Lemma land_pow2 x k : 0 <= x < 2 ^ k -> Z.land x (2 ^ k) = 0.
Proof.
  intros Hx. apply Z.bits_inj'. intros n Hn. rewrite Z.land_spec, Z.bits_0. destruct (Z.eqb_spec k n) as [->|Hne].
  - by rewrite (proj2 (Z.testbit_false x n Hn)), andb_false_l by (rewrite Z.div_small by lia; done).
  - destruct (Z.le_gt_cases 0 k); [rewrite Z.pow2_bits_false by done|rewrite Z.pow_neg_r, Z.bits_0 by done]; by rewrite andb_false_r.
Qed.

Lemma sent_status_bits f : (length f <= 2048)%nat ->
  Z.land (sent_status f) GEM_TX_USED = 0 /\ Z.land (sent_status f) 0x3fff = Z.of_nat (length f).
Proof.
  intros Hf. unfold sent_status. rewrite !Z.land_lor_distr_l. split.
  - change GEM_TX_USED with (2 ^ 31). rewrite land_pow2 by lia. reflexivity.
  - change 0x3fff with (Z.ones 14) at 1. rewrite Z.land_ones, Z.mod_small by lia. change (Z.land GEM_TX_LAST 0x3fff) with 0.
    change (Z.land GEM_TX_WRAP 0x3fff) with 0. by rewrite !Z.lor_0_r.
Qed.

(** The transmit descriptor with the frame under way, if any. *)
Record gem_tx_ok (fl : option (list Z)) (g : gem_net) (m : memory) : Prop := {
  gt_address : g_address (tx_desc g) = gem_tx_at at_;
  gt_status : match fl with
    | None => Z.land (g_status (tx_desc g)) GEM_TX_USED <> 0
    | Some f => g_status (tx_desc g) = sent_status f /\ holds m (gem_tx_at at_) f /\ (length f <= 2048)%nat
    end }.

Lemma land_used s : Z.land (Z.lor s GEM_TX_USED) GEM_TX_USED <> 0.
Proof. rewrite Z.land_lor_distr_l, Z.land_diag. intros H. apply Z.lor_eq_0_iff in H as [_ H]. done. Qed.

Definition in_flight (fl : option (list Z)) : list (list Z) := match fl with Some f => [f] | None => [] end.

(** The driver and the controller together. *)
Definition gem_link (q : list (Z * list Z)) (fl : option (list Z)) (w : state) : Prop :=
  w_kind w = NET_GEM /\ gem_tx_ok fl (w_gem w) (w_mem w) /\ exists last, gem_rx_ok last q (w_gem w) (w_mem w) (w_regs w).

(** What one run of the controller or the driver adds: pieces received, frames gone; none under way is lost. *)
Record grew (new : list (Z * list Z)) (fl fl' : option (list Z)) (w w' : state) : Prop := {
  gw_came : came (w_regs w') = came (w_regs w) ++ concat (map whole_list new);
  gw_gone : exists more, gone (w_regs w') = gone (w_regs w) ++ more;
  gw_flight : gone (w_regs w') ++ in_flight fl' = gone (w_regs w) ++ in_flight fl }.

Lemma gem_step_link w w' q fl : gem_step w w' -> gem_link q fl w -> exists new fl', gem_link (q ++ new) fl' w' /\ grew new fl fl' w w'.
Proof.
  intros Hs (Hk & Ht & last & Hr). destruct Hs as [w status f i e Ho Hl Hf|w e Ho|w r].
  - destruct (gem_receive_ok _ _ _ _ _ status f Hr Ho Hl Hf) as [Hb Hr']. exists [(status, f)], fl. split.
    + split; [done|]. split; [|by exists last]. destruct Ht as [T1 T2]. split; [done|]. destruct fl as [f'|]; [|done].
      destruct T2 as (T2 & T3 & T4). split; [done|]. split; [|done]. cbn [set_regs set_mem w_mem]. apply holds_place; [done|].
      subst i e. rewrite Hb. destruct (gp_apart placed) as [Ha|Ha]; pose proof (slot_lt (last + length q)); unfold buffer, BUFFER_SIZE in *; lia.
    + split; cbn; [by rewrite app_nil_r|exists []; by rewrite app_nil_r|done].
  - destruct fl as [f|]; [|destruct Ht as [_ Ht]; done]. destruct Ht as [T1 (T2 & T3 & T4)]. exists [], None. rewrite app_nil_r. subst e. split.
    + split; [done|]. split; [|exists last; by destruct Hr]. split; [done|]. cbn. rewrite T2. apply land_used.
    + split; cbn [w_regs set_regs came gone in_flight]; [by rewrite app_nil_r|by eexists|]. rewrite app_nil_r. do 2 f_equal.
      rewrite T1, T2, (proj2 (sent_status_bits f T4)), Nat2Z.id. by apply holds_bytes.
  - exists [], fl. rewrite app_nil_r. split; [split; [done|]; split; [by destruct Ht|]; exists last; by destruct Hr|].
    split; cbn; [by rewrite app_nil_r|exists []; by rewrite app_nil_r|done].
Qed.

Lemma grew_trans new new' fl fl' fl'' w w' w'' : grew new fl fl' w w' -> grew new' fl' fl'' w' w'' -> grew (new ++ new') fl fl'' w w''.
Proof.
  intros [H1 [m1 H2] H3] [H4 [m2 H5] H6]. split; [by rewrite H4, H1, map_app, concat_app, app_assoc| |by rewrite H6, H3].
  exists (m1 ++ m2). by rewrite H5, H2, app_assoc.
Qed.

Lemma grew_same fl w w' : came (w_regs w') = came (w_regs w) -> gone (w_regs w') = gone (w_regs w) -> grew [] fl fl w w'.
Proof. intros Hc Hg. split; rewrite ?Hc, ?Hg; [by rewrite app_nil_r|exists []; by rewrite app_nil_r|done]. Qed.

Lemma grew_refl fl w : grew [] fl fl w w.
Proof. by apply grew_same. Qed.

Lemma gem_runs w w' q fl : rtc gem_step w w' -> gem_link q fl w -> exists new fl', gem_link (q ++ new) fl' w' /\ grew new fl fl' w w'.
Proof.
  intros Hr. revert q fl. induction Hr as [w|w w1 w2 Hs _ IH]; intros q fl H; [exists [], fl; rewrite app_nil_r; split; [done|apply grew_refl]|].
  destruct (gem_step_link _ _ _ _ Hs H) as (new & fl1 & H1 & G1). destruct (IH _ _ H1) as (new2 & fl2 & H2 & G2).
  exists (new ++ new2), fl2. rewrite app_assoc. split; [done|by eapply grew_trans].
Qed.

(** Register accesses. *)
Definition gem_regs (w w' : state) : Prop := exists r, w' = set_regs (set_g_regs r (w_regs w)) w.

Lemma gem_regs_refl w : gem_regs w w.
Proof. destruct w as [n g k m []]. by eexists. Qed.

Lemma gem_wr_regs w0 reg v w : gem_regs w0 w -> gem_regs w0 (gem_wr gwrite32 reg v w).
Proof. intros [r ->]. by eexists. Qed.

Lemma gem_rd_regs w0 reg w : gem_regs w0 w -> gem_regs w0 (fst (gem_rd gread32 reg w)).
Proof. intros [r ->]. unfold gem_rd, gread32. destruct (bus_read32 _ _) as [r' v]. by eexists. Qed.

Lemma gem_link_regs w w' q fl : gem_regs w w' -> gem_link q fl w -> gem_link q fl w' /\ grew [] fl fl w w'.
Proof.
  intros [r ->] (Hk & Ht & last & Hr). split; [|by apply grew_same]. split; [done|]. split; [by destruct Ht|]. exists last. by destruct Hr.
Qed.

Lemma gem_poll_takes cap p q fl w : gem_link (p :: q) fl w -> exists w',
  device_poll gread32 gwrite32 at_ cap w = (w', take (Z.to_nat cap) <$> whole p) /\ gem_link q fl w' /\ grew [] fl fl w w'.
Proof.
  intros (Hk & Ht & last & Hr). unfold device_poll. rewrite bool_decide_eq_true_2 by done. unfold gem_poll.
  destruct (gem_poll_ok _ _ _ _ _ _ Hr) as (Ho & Hs & Hl & Hf & Hh & Hr'). cbn zeta. rewrite Ho. cbn [Z.eqb]. rewrite Hs, Hl.
  set (w1 := set_gem _ w). assert (gem_link q fl w1 /\ grew [] fl fl w w1) as [Hl1 Hg].
  { split; [|by apply grew_same]. split; [done|]. split; [by destruct Ht|by exists (S last)]. }
  destruct (gem_link_regs w1 (gem_wr gwrite32 GEM_RSR 0xffffffff w1) q fl (gem_wr_regs _ _ _ _ (gem_regs_refl w1)) Hl1) as [Hl2 Hg2].
  eexists. split; [|split; [exact Hl2|exact (grew_trans [] [] fl fl fl _ _ _ Hg Hg2)]]. f_equal. unfold whole.
  destruct (_ =? _); [|done]. cbn [fmap option_fmap option_map]. f_equal. transitivity (take (Z.to_nat cap) (bytes (w_mem w) (gem_rx_at at_ + rx_index (w_gem w) * BUFFER_SIZE) (length (snd p)))).
  - unfold bytes. rewrite firstn_map, take_seq. f_equal. f_equal. destruct (Z.ltb_spec cap (Z.of_nat (length (snd p)))); lia.
  - by rewrite (holds_bytes _ _ _ Hh).
Qed.

Lemma gem_poll_empty cap fl w : gem_link [] fl w -> device_poll gread32 gwrite32 at_ cap w = (w, None).
Proof.
  intros (Hk & Ht & last & Hr). unfold device_poll. rewrite bool_decide_eq_true_2 by done. unfold gem_poll.
  rewrite (gr_index _ _ _ _ _ Hr), Nat2Z.id. pose proof (gr_owned _ _ _ _ _ Hr 0%nat ltac:(lia)) as Ha. rewrite Nat.add_0_r in Ha. rewrite Ha. cbn [length Nat.ltb Nat.leb].
  by rewrite (proj1 (address_bits _ 0 ltac:(by left))).
Qed.

Lemma gem_send_starts f q w : gem_link q None w -> (length f <= 2048)%nat ->
  let w' := gem_send_start gread32 gwrite32 at_ f w in
  gem_link q (Some f) w' /\ came (w_regs w') = came (w_regs w) /\ gone (w_regs w') = gone (w_regs w).
Proof.
  intros (Hk & Ht & last & Hr) Hf w'. unfold w', gem_send_start. set (w1 := set_gem _ _).
  assert (gem_link q (Some f) w1) as Hl1.
  { split; [done|]. split.
    - split; [apply Ht|]. split; [|split; [apply place_holds|done]]. cbn. unfold sent_status, u32. rewrite Z.mod_small by lia. done.
    - exists last. destruct Hr as [H1 H2 H3 H4 H5 H6]. split; try done. intros k p Hp. destruct (H6 k p Hp) as (P1 & P2 & P3 & P4).
      split_and!; [done..|]. cbn. apply holds_place; [done|]. pose proof (slot_lt (last + k)). destruct (gp_apart placed); unfold buffer, BUFFER_SIZE in *; lia. }
  pose proof (gem_rd_regs w1 GEM_NCR w1 (gem_regs_refl w1)) as Hc. destruct (gem_rd gread32 GEM_NCR w1) as [w2 ncr]. cbn [fst] in Hc.
  apply (gem_wr_regs _ GEM_NCR (Z.lor ncr GEM_NCR_TSTART)) in Hc. destruct (gem_link_regs _ _ _ _ Hc Hl1) as [Hl2 _]. split; [done|].
  destruct Hc as [r ->]. done.
Qed.

Lemma gem_unused q fl w : gem_link q fl w -> Z.land (g_status (tx_desc (w_gem w))) GEM_TX_USED <> 0 -> fl = None.
Proof.
  intros (_ & [_ Ht] & _) Hu. destruct fl as [g|]; [|done]. destruct Ht as (T2 & T3 & T4). by rewrite T2, (proj1 (sent_status_bits g T4)) in Hu.
Qed.

Context (observe : state -> state) (conforming : forall w, rtc gem_step w (observe w)).

(** A round of the wait for the controller to mark the descriptor used. *)
Lemma gem_round f q w1 w : (exists new fl, gem_link (q ++ new) fl w /\ grew new (Some f) fl w1 w) ->
  match gem_sent (observe w) with
  | (w', Some _) => exists new, gem_link (q ++ new) None w' /\ grew new (Some f) None w1 w'
  | (w', None) => exists new fl, gem_link (q ++ new) fl w' /\ grew new (Some f) fl w1 w'
  end.
Proof.
  intros (new & fl & Hx & Gx). destruct (gem_runs _ _ _ _ (conforming w) Hx) as (new' & fl2 & Hx' & Gx').
  unfold gem_sent. destruct (Z.eqb_spec (Z.land (g_status (tx_desc (w_gem (observe w)))) GEM_TX_USED) 0) as [|Hu'].
  - exists (new ++ new'), fl2. rewrite app_assoc. split; [done|by eapply grew_trans].
  - pose proof (gem_unused _ _ _ Hx' Hu') as ->. exists (new ++ new'). rewrite app_assoc. split; [done|by eapply grew_trans].
Qed.

(** Sending: success means that the frame has gone; otherwise nothing was
    done, or the frame is under way and still the only one. *)
Lemma gem_send_accounts f q fl w : gem_link q fl w ->
  let '(w', ok) := device_send gread32 gwrite32 at_ observe f w in
  exists new fl' mine, gem_link (q ++ new) fl' w' /\ came (w_regs w') = came (w_regs w) ++ concat (map whole_list new) /\
    (exists more, gone (w_regs w') = gone (w_regs w) ++ more /\ (if ok : bool then [f] else []) `sublist_of` more) /\
    gone (w_regs w') ++ in_flight fl' = gone (w_regs w) ++ in_flight fl ++ mine /\ mine `sublist_of` [f].
Proof.
  intros Hl. unfold device_send, gem_send. rewrite bool_decide_eq_true_2 by apply Hl.
  destruct ((BUFFER_SIZE <? Z.of_nat (length f)) || (Z.land (g_status (tx_desc (w_gem w))) GEM_TX_USED =? 0)) eqn:Hb.
  { exists [], fl, []. cbn [map concat]. rewrite !app_nil_r. split_and!; [done|done|exists []; rewrite app_nil_r; split; [done|apply sublist_nil_l]|done|apply sublist_nil_l]. }
  apply orb_false_iff in Hb as [Hlen%Z.ltb_ge Hu%Z.eqb_neq]. unfold BUFFER_SIZE in Hlen. pose proof (gem_unused _ _ _ Hl Hu) as ->. clear Hu.
  destruct (gem_send_starts f q w Hl ltac:(lia)) as (Hs & Hc & Hg). set (w1 := gem_send_start _ _ _ f w) in *.
  assert (exists new fl, gem_link (q ++ new) fl w1 /\ grew new (Some f) fl w1 w1) as H0 by (exists [], (Some f); rewrite app_nil_r; split; [done|apply grew_refl]).
  pose proof (spin_keeps _ _ _ TX_SPINS w1 (gem_round f q w1) H0) as Hsp. destruct (spin TX_SPINS _ w1) as [w' [[]|]].
  - destruct Hsp as (new & Hl' & [G1 _ G3]). cbn [in_flight] in G3. rewrite app_nil_r, Hg in G3. rewrite Hc in G1.
    exists new, None, [f]. cbn [in_flight]. rewrite app_nil_r. split_and!; [done|done|exists [f]; rewrite G3; split; reflexivity|by rewrite G3|reflexivity].
  - destruct Hsp as (new & fl' & Hl' & [G1 [more G2] G3]). rewrite Hg in G2, G3. rewrite Hc in G1.
    exists new, fl', [f]. split_and!; [done|done|exists more; split; [done|apply sublist_nil_l]|done|reflexivity].
Qed.

Lemma gem_poll_accounts mac q fl w : gem_link q fl w ->
  let '(w', r) := network_device_poll (network_device gread32 gwrite32 at_ observe mac) FRAME_CAP w in
  exists q' fl' new, gem_link q' fl' w' /\ grew new fl fl' w w' /\ concat (map whole_list (q ++ new)) = in_flight r ++ concat (map whole_list q').
Proof.
  intros Hl. cbn [network_device network_device_poll]. destruct (gem_runs _ _ _ _ (conforming w) Hl) as (new & fl' & Hl' & Hg).
  destruct (q ++ new) as [|p q'] eqn:Eq.
  - rewrite (gem_poll_empty _ fl') by done. exists [], fl', new. by rewrite Eq.
  - destruct (gem_poll_takes FRAME_CAP p q' fl' _ Hl') as (w2 & -> & Hl2 & Hg2). exists q', fl', new. rewrite <- (app_nil_r new) at 1.
    split; [done|]. split; [by eapply grew_trans|]. rewrite Eq. cbn [map concat]. f_equal.
    destruct Hl' as (_ & _ & last & Hr). destruct (gr_pieces _ _ _ _ _ Hr 0%nat p eq_refl) as (_ & _ & Hp & _). unfold whole_list, whole.
    destruct (_ =? _); [|done]. cbn. by rewrite take_ge by (unfold FRAME_CAP; lia).
Qed.

(** ** Executions *)

(** The frames polled and those whose sending succeeded. *)
Fixpoint run_gem (dev : device state) (ops : list op) (w : state) : state * list (list Z) * list (list Z) :=
  match ops with
  | [] => (w, [], [])
  | Poll :: ops =>
      let '(w, r) := network_device_poll dev FRAME_CAP w in
      let '(w, got, sent) := run_gem dev ops w in (w, match r with Some f => f :: got | None => got end, sent)
  | Send f :: ops =>
      let '(w, ok) := network_device_send dev f w in
      let '(w, got, sent) := run_gem dev ops w in (w, got, if ok : bool then f :: sent else sent)
  end.

Definition requested (ops : list op) : list (list Z) := omap (fun o => match o with Send f => Some f | Poll => None end) ops.

Lemma gem_accounts mac ops : forall q fl w, gem_link q fl w ->
  let '(w', got, sent) := run_gem (network_device gread32 gwrite32 at_ observe mac) ops w in
  exists q' fl' new acc, gem_link q' fl' w' /\ came (w_regs w') = came (w_regs w) ++ concat (map whole_list new) /\
    concat (map whole_list (q ++ new)) = got ++ concat (map whole_list q') /\
    (exists more, gone (w_regs w') = gone (w_regs w) ++ more /\ sent `sublist_of` more) /\
    gone (w_regs w') ++ in_flight fl' = gone (w_regs w) ++ in_flight fl ++ acc /\ acc `sublist_of` requested ops.
Proof.
  induction ops as [|[|f] ops IH]; intros q fl w Hl; cbn [run_gem].
  - exists q, fl, [], []. cbn [map concat]. rewrite !app_nil_r. split_and!; try done; [exists []; by rewrite app_nil_r].
  - pose proof (gem_poll_accounts mac q fl w Hl) as Hp. destruct (network_device_poll _ FRAME_CAP w) as [w1 r].
    destruct Hp as (q1 & fl1 & new1 & Hl1 & [G1 [m1 G2] G3] & Eq1). specialize (IH q1 fl1 w1 Hl1).
    destruct (run_gem _ ops w1) as [[w' got] sent]. destruct IH as (q' & fl' & new & acc & Hl' & I1 & I2 & (m2 & I3 & I4) & I5 & I6).
    exists q', fl', (new1 ++ new), acc. split_and!; [done|by rewrite I1, G1, map_app, concat_app, app_assoc| | | |done].
    + rewrite app_assoc, map_app, concat_app, Eq1, <- app_assoc, <- concat_app, <- map_app, I2, app_assoc. by destruct r.
    + exists (m1 ++ m2). rewrite I3, G2, app_assoc. split; [done|]. by apply sublist_inserts_l.
    + rewrite I5. rewrite !app_assoc in *. by rewrite G3.
  - cbn [network_device network_device_send]. fold (network_device gread32 gwrite32 at_ observe mac). pose proof (gem_send_accounts f q fl w Hl) as Hp.
    destruct (device_send _ _ _ _ f w) as [w1 ok]. destruct Hp as (new1 & fl1 & mine & Hl1 & G1 & (m1 & G2 & G2') & G3 & G4).
    specialize (IH _ fl1 w1 Hl1). destruct (run_gem _ ops w1) as [[w' got] sent].
    destruct IH as (q' & fl' & new & acc & Hl' & I1 & I2 & (m2 & I3 & I4) & I5 & I6). exists q', fl', (new1 ++ new), (mine ++ acc).
    split_and!; [done|by rewrite I1, G1, map_app, concat_app, app_assoc|by rewrite app_assoc| | |].
    + exists (m1 ++ m2). rewrite I3, G2, app_assoc. split; [done|]. destruct ok; [apply (sublist_app [f] m1 sent m2 G2' I4)|by apply sublist_inserts_l].
    + rewrite I5, app_assoc, G3. by rewrite <- !app_assoc.
    + apply (sublist_app mine [f] acc (requested ops) G4 I6).
Qed.

(** ** Starting *)

Ltac gem_read H :=
  let x := match goal with |- context [gem_rd gread32 _ ?x] => x end in
  let reg := match goal with |- context [gem_rd gread32 ?reg x] => reg end in
  let Hr := fresh in
  pose proof (gem_rd_regs _ reg x (ltac:(repeat apply gem_wr_regs; exact H) : gem_regs _ x)) as Hr;
  clear H; rename Hr into H; destruct (gem_rd gread32 reg x) as [? ?]; cbn [fst] in H.

Lemma gem_fresh_ok g m d : rx_desc g = gem_rx_fresh at_ -> rx_index g = 0 -> rx_pos d = 0 -> gem_rx_ok 0 [] g m d.
Proof.
  intros Hd Hi Hp. destruct (gp_rx placed) as (_ & H0 & H1). unfold BUFFER_SIZE in H1. split; rewrite ?Hd, ?Hi, ?Hp; try done; [cbn; lia|].
  intros k Hk. change ((0 + k) mod 8)%nat with (k mod 8)%nat. rewrite Nat.mod_small by lia. cbn [length Nat.ltb Nat.leb]. unfold gem_rx_fresh.
  rewrite (nth_lookup_Some_inh _ k {| g_address := Z.lor (u32 (gem_rx_at at_ + Z.of_nat k * BUFFER_SIZE)) (if (S k =? QUEUE_SIZE)%nat then GEM_RX_WRAP else 0); g_status := 0 |}).
  - cbn [g_address]. rewrite Z.lor_0_r. unfold u32, buffer, wrap_bit, QUEUE_SIZE, BUFFER_SIZE. by rewrite Z.mod_small by lia.
  - rewrite list_lookup_fmap, lookup_seq_lt by (unfold QUEUE_SIZE; lia). done.
Qed.

Lemma gem_start_links base node_id w : rx_pos (w_regs w) = 0 ->
  let w' := gem_start gread32 gwrite32 at_ base node_id w in
  gem_link [] None w' /\ came (w_regs w') = came (w_regs w) /\ gone (w_regs w') = gone (w_regs w).
Proof.
  intros Hp. cbn zeta. unfold gem_start. set (w1 := set_gem _ w). pose proof (gem_regs_refl w1) as H.
  gem_read H. cbv zeta. gem_read H. gem_read H. destruct H as [r ->].
  match goal with |- context [if ?b then _ else _] => destruct b end;
    match goal with |- context [set_kind NET_GEM (gem_wr gwrite32 ?reg ?v ?x)] =>
      let Hx := fresh in
      assert (exists r mac, gem_wr gwrite32 reg v x = set_regs (set_g_regs r (w_regs w1)) (set_gem (set_g_mac mac (w_gem w1)) w1)) as (r' & mac & ->) by (by eexists _, _)
    end.
  all: split; [|done]; split; [done|]; split; [|by exists 0%nat; apply gem_fresh_ok].
  all: destruct (gp_tx placed) as [? ?]; split; [cbn; unfold u32; rewrite Z.mod_small by (unfold BUFFER_SIZE in *; lia); done|by vm_compute].
Qed.

(** The GEM delivers, and keeps its promises also when it is slow: after the start, in every run of polls and sends,
    whatever the controller does between two looks of the driver, the frames polled are the whole frames that came in,
    each once and in order, less those that wait in the eight buffers; every frame whose sending succeeded has gone out,
    and what went out are frames that were asked to be sent, in order, none twice and none altered, even after sendings
    that were given up. *)
Theorem gem_at_most_once mac base node_id ops w :
  rx_pos (w_regs w) = 0 -> came (w_regs w) = [] -> gone (w_regs w) = [] ->
  let '(w', got, sent) := run_gem (network_device gread32 gwrite32 at_ observe mac) ops (gem_start gread32 gwrite32 at_ base node_id w) in
  sent `sublist_of` gone (w_regs w') /\ gone (w_regs w') `sublist_of` requested ops /\
  exists waiting, came (w_regs w') = got ++ waiting /\ (length waiting <= 8)%nat.
Proof.
  intros Hp Hc Hg. destruct (gem_start_links base node_id w Hp) as (Hl & Hc' & Hg'). pose proof (gem_accounts mac ops _ _ _ Hl) as Ha.
  destruct (run_gem _ ops _) as [[w' got] sent]. destruct Ha as (q & fl & new & acc & (_ & _ & last & Hq) & A1 & A2 & (more & A3 & A4) & A5 & A6).
  rewrite Hg', Hg in A3, A5. rewrite Hc', Hc in A1. cbn [app in_flight] in *. subst more. split; [done|]. split.
  - etrans; [|exact A6]. rewrite <- A5. by apply sublist_inserts_r.
  - exists (concat (map whole_list q)). split; [by rewrite A1, A2|]. etrans; [|exact (gr_few _ _ _ _ _ Hq)]. clear.
    induction q as [|p q IH]; cbn [map concat length]; [lia|]. rewrite length_app. unfold whole_list at 1. destruct (whole p); cbn [length]; lia.
Qed.
End gem.

(** ** A machine *)

Section gem_demo.
#[local] Abbreviation state := (world (@gem_dev unit)).

Definition demo_transmit (w : state) : state :=
  let d := tx_desc (w_gem w) in
  if decide (Z.land (g_status d) GEM_TX_USED = 0) then
    set_regs {| rx_pos := rx_pos (w_regs w); came := came (w_regs w);
                gone := gone (w_regs w) ++ [bytes (w_mem w) (g_address d) (Z.to_nat (Z.land (g_status d) 0x3fff))]; g_regs := g_regs (w_regs w) |}
      (set_gem (set_tx_desc {| g_address := g_address d; g_status := Z.lor (g_status d) GEM_TX_USED |} (w_gem w)) w)
  else w.

(** A frame of three bytes, once. *)
Definition demo_receive (w : state) : state :=
  let i := rx_pos (w_regs w) in
  let d := rx_desc (w_gem w) !!? Z.to_nat i in
  if decide (came (w_regs w) = [] /\ Z.land (g_address d) GEM_RX_OWNED = 0) then
    set_regs {| rx_pos := if Z.land (g_address d) GEM_RX_WRAP =? 0 then i + 1 else 0;
                came := came (w_regs w) ++ whole_list (0xC003, [7; 8; 9]); gone := gone (w_regs w); g_regs := g_regs (w_regs w) |}
      (set_mem (place (Z.ldiff (g_address d) 3) [7; 8; 9] (w_mem w))
        (set_gem (set_rx_desc (Z.to_nat i) {| g_address := Z.lor (g_address d) GEM_RX_OWNED; g_status := 0xC003 |} (w_gem w)) w))
  else w.

Definition demo_controller (w : state) : state := demo_receive (demo_transmit w).

Lemma demo_controller_steps w : rtc gem_step w (demo_controller w).
Proof.
  transitivity (demo_transmit w).
  - unfold demo_transmit. case_decide; [|done]. by apply rtc_once, gem_transmit.
  - unfold demo_controller. generalize (demo_transmit w) as x. intros x. unfold demo_receive. case_decide as Hd; [|done]. destruct Hd as [_ Hd].
    apply rtc_once. apply (gem_receive x 0xC003 [7; 8; 9]); [done|done|cbn; lia].
Qed.

Definition gem_layout : layout :=
  {| rx_at := 0; tx_at := 0; rxq_at := 0; txq_at := 0; gem_rx_at := 0x10000; gem_tx_at := 0x20000; gem_rxd_at := 0x30000; gem_txd_at := 0x31000 |}.

Lemma gem_layout_placed : gem_placed gem_layout.
Proof. split; [split_and!; [done|vm_compute; discriminate..]|split; vm_compute; discriminate|right; vm_compute; discriminate]. Qed.

Definition gem_off : state :=
  {| w_net := {| n_base := 0; n_mac := replicate 6 0; rx_last_used := 0; tx_last_used := 0; n_ready := false; n_rx := virtq_zero; n_tx := virtq_zero |};
     w_gem := {| g_base := 0; g_mac := replicate 6 0; rx_index := 0; rx_desc := replicate 8 inhabitant; tx_desc := inhabitant |};
     w_kind := NET_NONE; w_mem := fun _ => 0; w_regs := {| rx_pos := 0; came := []; gone := []; g_regs := tt |} |}.

Definition gem_read0 (a : Z) (r : unit) : unit * Z := (r, 0).
Definition gem_write0 (a v : Z) (r : unit) : unit := r.

Definition gem_demo_run : state * list (list Z) * list (list Z) :=
  run_gem (network_device (gread32 gem_read0) (gwrite32 gem_write0) gem_layout demo_controller []) [Send [1; 2]; Poll; Send [3]; Poll]
    (gem_start (gread32 gem_read0) (gwrite32 gem_write0) gem_layout 0xff0b0000 5 gem_off).

Lemma gem_at_most_once_witness :
  snd (fst gem_demo_run) = [[7; 8; 9]] /\ snd gem_demo_run = [[1; 2]; [3]] /\
  snd gem_demo_run `sublist_of` gone (w_regs (fst (fst gem_demo_run))) /\ gone (w_regs (fst (fst gem_demo_run))) `sublist_of` [[1; 2]; [3]].
Proof.
  split; [vm_compute; reflexivity|]. split; [vm_compute; reflexivity|].
  pose proof (gem_at_most_once gem_read0 gem_write0 gem_layout gem_layout_placed demo_controller demo_controller_steps [] 0xff0b0000 5
    [Send [1; 2]; Poll; Send [3]; Poll] gem_off eq_refl eq_refl eq_refl) as H.
  unfold gem_demo_run. match type of H with context [run_gem ?d ?o ?w] => destruct (run_gem d o w) as [[w' got] sent] end.
  destruct H as (H1 & H2 & _). split; [exact H1|exact H2].
Defined.
End gem_demo.
