(* ===== verification/GuestMap.v ===== *)
(** * The mapping of isolated guests (securinit/arm_wrapper.c, x86_wrapper.c)

    How the wrapper of each architecture gives a guest its 2 MiB region: it
    builds tables in which the guest reaches that region and nothing else,
    lays out the guest's code, calls and results in it, binds its exception
    callback, runs the guest, and takes the mapping back.

    The page tables are words (PageTable.v), the region is bytes of the
    machine of UserIpc.v; tables and region do not overlap.  Running the
    guest is a parameter: what it can do is the step relation of UserIpc.v,
    whose rule for memory is what the tables enforce. *)

From S2P Require Import Prelude Capnp NetworkRpc PageTable PageFaultArm PageFault UserIpc.

Definition UINT64_MAX : Z := 18446744073709551615.

(** The fields of [struct securinit_boot_info] the probes read; a capability is its handle. *)
Record securinit_boot_info := {
  exception_router : Z; exception_router_bind_method : Z; user_region_base : Z; user_region_size : Z;
  ttbr0_root_phys : Z; x86_pml4_phys : Z }.

Section probe.
Context {S : Type} (invoke : byte_invoke S).

(** Page tables, and the wrapper, the guest's memory and the kernel. *)
Record guest_state := { tables : words; guest : UserIpc.machine S }.

Definition set_tables (m : words) (x : guest_state) : guest_state := {| tables := m; guest := guest x |}.
Definition set_guest (g : UserIpc.machine S) (x : guest_state) : guest_state := {| tables := tables x; guest := g |}.
Definition set_ram (m : memory) (x : guest_state) : guest_state :=
  set_guest {| UserIpc.regs := UserIpc.regs (guest x); ram := m; kern := kern (guest x) |} x.

(** The state of the wrapper for a new guest. *)
Definition new_wrapper (base size forbidden gate resume daif : Z) : wrapper :=
  {| g_user_base := base; g_user_size := size; g_forbidden := forbidden; g_granted_gate := gate; g_resume_pc := resume;
     g_saved_daif := daif; g_denied_access := 0; g_exits := 0; g_ipc_denied := 0; g_ipc_forwarded := 0 |}.

Definition gate_request (endpoint request_ptr request_len response_ptr : Z) : wrapper_ipc_call_t :=
  {| local_endpoint := endpoint; version := WRAPPER_IPC_VERSION; method_id := GATE_METHOD_INVOKE; request_ptr := request_ptr;
     request_len := request_len; response_ptr := response_ptr; response_capacity := 24; response_len := 0 |}.

Definition word_at (m : memory) (a : Z) : Z := words_of_bytes 1 (read_bytes m a 8) !!? 0%nat.

(** Binding the callback through the exception router; whether it answered 1. *)
Definition bind_router (info : securinit_boot_info) (words : list Z) (cap : Z) (x : guest_state) : guest_state * bool :=
  let '(s, (ok, response)) := invoke (exception_router info) (exception_router_bind_method info) (capnp_build_flat cap words) 24 (kern (guest x)) in
  (set_guest {| UserIpc.regs := UserIpc.regs (guest x); ram := ram (guest x); kern := s |} x,
   ok && (24 <=? Z.of_nat (length response)) && (capnp_read_flat 1 response !!? 0%nat =? 1)).
End probe.
Arguments guest_state : clear implicits.

(** ** Laying out a region *)

(** Bytes, with nothing changed outside of the region. *)
Definition kept (base size : Z) (m0 m : memory) : Prop := bytes_mem m /\ forall a, ~ inside base size a -> m a = m0 a.

Lemma kept_write base size m0 m addr bs : kept base size m0 m -> Forall is_byte bs -> base <= addr -> addr + Z.of_nat (length bs) <= base + size ->
  kept base size m0 (write_bytes addr bs m).
Proof.
  intros [Hb Ho] Hbs H1 H2. split; [by apply write_bytes_bytes|]. intros a Ha. rewrite (write_bytes_outside base size) by done. by apply Ho.
Qed.

Lemma request_bytes value : Forall is_byte (capnp_build_flat 24 [value]) /\ length (capnp_build_flat 24 [value]) = 24%nat.
Proof.
  split; [|pose proof (length_capnp_build_flat 24 [value]) as H; unfold flat_total in H; cbn [length] in H; lia].
  rewrite capnp_build_flat_fits by (unfold flat_total; cbn [length]; lia). apply Forall_app_2; [by repeat (apply Forall_cons; split; [done|])|].
  apply Forall_app_2; [apply (Z_to_little_endian_bound 4 8); lia|]. apply Forall_app_2; [apply word_bytes_byte|apply bytes_of_words_byte].
Qed.

Lemma call_bytes c : Forall is_byte (bytes_of_call c) /\ length (bytes_of_call c) = 56%nat.
Proof. unfold bytes_of_call. split; [apply bytes_of_words_byte|by rewrite length_bytes_of_words]. Qed.

#[export] Hint Resolve bytes_of_words_byte : coreinit.

(** What a guest's entry into its code may set: the place to come back to. *)
Definition resume_at {S} (pc daif : Z) (x : UserIpc.machine S) : UserIpc.machine S :=
  let g := UserIpc.regs x in
  UserIpc.set_regs {| g_user_base := g_user_base g; g_user_size := g_user_size g; g_forbidden := g_forbidden g; g_granted_gate := g_granted_gate g;
    g_resume_pc := pc; g_saved_daif := daif; g_denied_access := g_denied_access g; g_exits := g_exits g; g_ipc_denied := g_ipc_denied g;
    g_ipc_forwarded := g_ipc_forwarded g |} x.

(** Running a guest: the tables stay, and all else is steps of a guest. *)
Definition runs_guest {S} (invoke : byte_invoke S) (x x' : guest_state S) : Prop :=
  tables x' = tables x /\ exists pc daif, rtc (guest_step invoke) (resume_at pc daif (guest x)) (guest x').

(** A guest's run keeps to what it was given. *)
Lemma guest_run_kept {S} (invoke : byte_invoke S) (x x' : guest_state S) m0 :
  (forall t m msg cap s, Forall is_byte (snd (snd (invoke t m msg cap s)))) -> region_ok (UserIpc.regs (guest x)) -> runs_guest invoke x x' ->
  kept (g_user_base (UserIpc.regs (guest x))) (g_user_size (UserIpc.regs (guest x))) m0 (ram (guest x)) ->
  kept (g_user_base (UserIpc.regs (guest x))) (g_user_size (UserIpc.regs (guest x))) m0 (ram (guest x')) /\
  rtc (gate_call invoke (g_granted_gate (UserIpc.regs (guest x)))) (kern (guest x)) (kern (guest x')).
Proof.
  intros Hb Hr [_ (pc & daif & Hs)] [Hm Ho]. destruct (run_confines invoke Hb _ _ (Hr : region_ok (UserIpc.regs (resume_at pc daif (guest x)))) Hm Hs) as [_ Hm' Ho' Hk].
  split; [|exact Hk]. split; [by apply Hm'|]. intros a Ha. rewrite Ho' by exact Ha. by apply Ho.
Qed.

(** Binding the callback, and the calls of a guest. *)
Definition probe_call {S} (invoke : byte_invoke S) (info : securinit_boot_info) (gate : Z) (binding : list Z) (s s' : S) : Prop :=
  gate_call invoke gate s s' \/ s' = fst (invoke (exception_router info) (exception_router_bind_method info) binding 24 s).

Lemma bind_router_spec {S} (invoke : byte_invoke S) info ws cap (x : guest_state S) :
  let '(x', _) := bind_router invoke info ws cap x in
  tables x' = tables x /\ UserIpc.regs (guest x') = UserIpc.regs (guest x) /\ ram (guest x') = ram (guest x) /\
  kern (guest x') = fst (invoke (exception_router info) (exception_router_bind_method info) (capnp_build_flat cap ws) 24 (kern (guest x))).
Proof. unfold bind_router. by destruct (invoke _ _ _ _ _) as [s [ok r]]. Qed.

(** An address of a region is its page and its offset. *)
Lemma page_and_offset base v : base mod REGION_SIZE = 0 -> base <= v < base + REGION_SIZE -> base + index v 12 * PAGE_SIZE + v mod PAGE_SIZE = v.
Proof.
  intros H3 Hin. rewrite index_12. unfold PAGE_SIZE, REGION_SIZE in *.
  pose proof (offset_split v) as Ho. pose proof (Z.div_mod v 0x200000). pose proof (Z.div_mod base 0x200000). pose proof (Z.mod_pos_bound v 0x200000). lia.
Qed.

(** ** AArch64 *)

Module Arm.
Definition EL0_RW : Z := 0x40.

Definition user_flags : Z := Eval cbv in Z.lor (Z.lor (Z.lor (Z.lor (Z.lor 0x3 0x4) EL0_RW) INNER_SHAREABLE) ACCESS_FLAG) PageFaultArm.PXN.
Definition user_page (base i : Z) : Z := Z.lor (base + i * PAGE_SIZE) user_flags.

Section arm.
Context {S : Type} (invoke : byte_invoke S).
(** [g_user_l2], [g_user_l3], the address of the callback, and the probe's code. *)
Context (g_user_l2 g_user_l3 callback : Z) (code : list Z).
(** [securinit_arm_run_user]: entry, stack, forbidden address, results, rejected call, granted call. *)
Context (run_user : Z -> Z -> Z -> Z -> Z -> Z -> guest_state S -> guest_state S * Z).

Definition refuses (info : securinit_boot_info) (privileged_addr : Z) : bool :=
  let base := user_region_base info in
  (exception_router info =? 0) || (ttbr0_root_phys info =? 0) || negb (user_region_size info =? REGION_SIZE) ||
  negb (Z.land base (REGION_SIZE - 1) =? 0) || (base <? RAM_BASE) || (0x80000000 <? u64 (base + REGION_SIZE)) ||
  ((base <=? privileged_addr) && (privileged_addr <? u64 (base + REGION_SIZE))).

(** The guest's tables, beside the old ones. *)
Definition build_tables (base old_l1 : Z) (m : words) : words :=
  let m := copy_page g_user_l2 (Z.land old_l1 ADDR_MASK) m in
  let m := fill g_user_l3 512 (user_page base) m in
  store (slot_addr g_user_l2 (index base 21)) (Z.lor g_user_l3 TABLE_OR_PAGE) m.

(** The code, the request and the three calls, and the results the guest overwrites. *)
Definition lay_out (base privileged_addr value : Z) (m : memory) : memory :=
  let m := write_bytes (base + PAGE_SIZE) code m in
  let request := capnp_build_flat 24 [value] in
  let m := write_bytes (base + 0x3000) request m in
  let request_len := Z.of_nat (length request) in
  let m := write_bytes (base + 0x2080) (bytes_of_call (gate_request WRAPPER_GATE_ENDPOINT (base + 0x3000) request_len (base + 0x3100))) m in
  let m := write_bytes (base + 0x2040) (bytes_of_call (gate_request WRAPPER_GATE_ENDPOINT privileged_addr request_len (base + 0x3100))) m in
  let m := write_bytes (base + 0x2000) (bytes_of_call (gate_request (WRAPPER_GATE_ENDPOINT + 1) (base + 0x3000) request_len (base + 0x3100))) m in
  write_bytes (base + 0x4000) (bytes_of_words [UINT64_MAX; UINT64_MAX; UINT64_MAX]) m.

(** Whether the guest was kept in bounds and served. *)
Definition probe_valid (base result : Z) (x : guest_state S) : option Z :=
  let g := UserIpc.regs (guest x) in
  let m := ram (guest x) in
  let forwarded := word_at m (base + 0x3100 + 16) in
  if (result =? 0) && (g_denied_access g =? 1) && (g_exits g =? 1) && (g_ipc_denied g =? 2) && (g_ipc_forwarded g =? 1) &&
     (word_at m (base + 0x4000) =? u64 WRAPPER_IPC_BAD_ENDPOINT) && (word_at m (base + 0x4000 + 8) =? u64 WRAPPER_IPC_BOUNDS) &&
     (word_at m (base + 0x4000 + 16) =? WRAPPER_IPC_OK) && (word_at m (base + 0x2080 + 48) =? 24) && (forwarded <=? 1)
  then Some forwarded else None.

(** [None]: the probe returns 0. *)
Definition securinit_arm_isolation_probe (info : securinit_boot_info) (privileged_addr granted_gate value : Z) (x : guest_state S)
    : guest_state S * option Z :=
  let base := user_region_base info in
  if refuses info privileged_addr then (x, None)
  else
    let l1 := slot_addr (ttbr0_root_phys info) 1 in
    let old_l1 := tables x l1 in
    if negb (Z.land old_l1 3 =? TABLE_OR_PAGE) then (x, None)
    else
      let x := set_tables (build_tables base old_l1 (tables x)) x in
      let bytes := Z.of_nat (length code) in
      if (bytes =? 0) || (PAGE_SIZE <? bytes) then (x, None)
      else
        let x := set_guest {| UserIpc.regs := new_wrapper base REGION_SIZE privileged_addr granted_gate 0 0;
                              ram := lay_out base privileged_addr value (ram (guest x)); kern := kern (guest x) |} x in
        let x := set_tables (store l1 (Z.lor g_user_l2 TABLE_OR_PAGE) (tables x)) x in
        let '(x, bound) := bind_router invoke info [callback] 24 x in
        if negb bound then (set_tables (store l1 old_l1 (tables x)) x, None)
        else
          let '(x, result) := run_user (base + PAGE_SIZE) (base + REGION_SIZE - 16) privileged_addr (base + 0x4000) (base + 0x2000) (base + 0x2080) x in
          let x := set_tables (store l1 old_l1 (tables x)) x in
          (x, probe_valid base result x).
End arm.

(** *** What the guest reaches *)

Definition el0_leaf (mask size e v : Z) : option (Z * bool) :=
  if has ACCESS_FLAG e && has EL0_RW e then Some (Z.land e mask + v mod size, negb (has READ_ONLY e)) else None.

(** The processor's walk, with what is made of the entry it ends at. *)
Definition walk_with {A} (at_leaf : Z -> Z -> Z -> Z -> option A) (l1 v : Z) (m : words) : option A :=
  let e1 := m (slot_addr l1 (index v 30)) in
  if negb (has VALID e1) then None
  else if negb (has TABLE e1) then at_leaf 0x0000FFFFC0000000 0x40000000 e1 v
  else
    let e2 := m (slot_addr (Z.land e1 ADDR_MASK) (index v 21)) in
    if negb (has VALID e2) then None
    else if negb (has TABLE e2) then at_leaf 0x0000FFFFFFE00000 REGION_SIZE e2 v
    else
      let e3 := m (slot_addr (Z.land e2 ADDR_MASK) (index v 12)) in
      if has VALID e3 && has TABLE e3 then at_leaf ADDR_MASK PAGE_SIZE e3 v else None.

Lemma translate_walk l1 v m : PageFaultArm.translate l1 v m = walk_with leaf l1 v m.
Proof. done. Qed.

(** Physical address and whether a write is allowed for code in EL0; [None]:
    a fault.  Restrictions that table descriptors may add are left out: they
    only take access away. *)
Definition el0_access : Z -> Z -> words -> option (Z * bool) := walk_with el0_leaf.

(** The tables below the root that a walk reads. *)
Definition walk_tables (l1 v : Z) (m : words) : list Z :=
  let e1 := m (slot_addr l1 (index v 30)) in
  if has VALID e1 && has TABLE e1 then
    let e2 := m (slot_addr (Z.land e1 ADDR_MASK) (index v 21)) in
    Z.land e1 ADDR_MASK :: (if has VALID e2 && has TABLE e2 then [Z.land e2 ADDR_MASK] else [])
  else [].

Lemma masked_aligned e : Z.land e ADDR_MASK mod 4096 = 0.
Proof.
  change 4096 with (2 ^ 12). rewrite <- Z.land_ones, <- Z.land_assoc by lia. change (Z.land ADDR_MASK (Z.ones 12)) with 0. apply Z.land_0_r.
Qed.

Lemma slots_apart_aligned a b i j : a mod 4096 = 0 -> b mod 4096 = 0 -> a <> b -> 0 <= i < 512 -> 0 <= j < 512 -> slot_addr a i <> slot_addr b j.
Proof.
  intros Ha Hb Hab Hi Hj E. unfold slot_addr in E. pose proof (Z.div_mod a 4096). pose proof (Z.div_mod b 4096).
  assert (a / 4096 <> b / 4096) by (intros Eq; apply Hab; lia). lia.
Qed.

Lemma slot_outside a b i : a mod 4096 = 0 -> b mod 4096 = 0 -> b <> a -> 0 <= i < 512 -> ~ in_page (slot_addr a i) b.
Proof.
  intros Ha Hb Hab Hi E. unfold in_page, slot_addr in E. pose proof (Z.div_mod a 4096). pose proof (Z.div_mod b 4096).
  assert (a / 4096 <> b / 4096) by (intros Eq; apply Hab; lia). lia.
Qed.

Lemma build_other g_user_l2 g_user_l3 base old m a : ~ in_page a g_user_l2 -> ~ in_page a g_user_l3 ->
  build_tables g_user_l2 g_user_l3 base old m a = m a.
Proof.
  intros H2 H3. unfold build_tables, copy_page. rewrite store_ne; [by rewrite fill_outside, fill_outside|].
  intros ->. apply H2. pose proof (index_range base 21). unfold in_page, slot_addr. lia.
Qed.

Section mapping.
Context (g_user_l2 g_user_l3 root base : Z) (m : words).
Let l1 := slot_addr root 1.
Let old_l1 := m l1.

(** The tables while the guest runs. *)
Definition installed : words := store l1 (Z.lor g_user_l2 TABLE_OR_PAGE) (build_tables g_user_l2 g_user_l3 base old_l1 m).

(** Pages of their own, apart from every table in use. *)
Record separate : Prop := {
  sp_l2 : 0 <= g_user_l2 < 2 ^ 48 /\ g_user_l2 mod 4096 = 0;
  sp_l3 : 0 <= g_user_l3 < 2 ^ 48 /\ g_user_l3 mod 4096 = 0;
  sp_root : root mod 4096 = 0;
  sp_23 : g_user_l2 <> g_user_l3;
  sp_r : root <> g_user_l2 /\ root <> g_user_l3;
  sp_walks : forall v t, In t (walk_tables root v m) -> t <> g_user_l2 /\ t <> g_user_l3 /\ t <> root }.

Hypothesis sep : separate.
Hypothesis is_table : Z.land old_l1 3 = TABLE_OR_PAGE.
Hypothesis placed : RAM_BASE <= base /\ base + REGION_SIZE <= 0x80000000 /\ base mod REGION_SIZE = 0.

Lemma old_flags : has VALID old_l1 = true /\ has TABLE old_l1 = true.
Proof.
  unfold has. assert (Z.land old_l1 VALID = 1 /\ Z.land old_l1 TABLE = 2) as [-> ->]; [|done].
  change VALID with (Z.land 3 1). change TABLE with (Z.land 3 2). rewrite !Z.land_assoc, is_table. done.
Qed.

(** A word that is neither of the new tables' nor the root's second entry. *)
Lemma installed_other a : ~ in_page a g_user_l2 -> ~ in_page a g_user_l3 -> a <> l1 -> installed a = m a.
Proof. intros H2 H3 H1. unfold installed. rewrite store_ne by done. by apply build_other. Qed.

Lemma installed_root i : 0 <= i < 512 -> i <> 1 -> installed (slot_addr root i) = m (slot_addr root i).
Proof.
  intros Hi Hne. destruct sep as [[_ S2] [_ S3] Sr S23 [R2 R3] _]. apply installed_other; [apply slot_outside; congruence..|]. intros E%slot_inj. done.
Qed.

Lemma installed_table t i : t mod 4096 = 0 -> t <> g_user_l2 -> t <> g_user_l3 -> t <> root -> 0 <= i < 512 -> installed (slot_addr t i) = m (slot_addr t i).
Proof.
  intros Ht H2 H3 Hr Hi. destruct sep as [[_ S2] [_ S3] Sr S23 [R2 R3] _]. apply installed_other; [apply slot_outside; congruence..|].
  by apply slots_apart_aligned.
Qed.

Lemma installed_l1 : installed l1 = Z.lor g_user_l2 TABLE_OR_PAGE.
Proof. apply store_eq. Qed.

Lemma installed_l2 i : 0 <= i < 512 -> installed (slot_addr g_user_l2 i) =
  if i =? index base 21 then Z.lor g_user_l3 TABLE_OR_PAGE else m (slot_addr (Z.land old_l1 ADDR_MASK) i).
Proof.
  intros Hi. destruct sep as [[_ S2] [_ S3] Sr S23 [R2 R3] _]. unfold installed, build_tables, copy_page.
  rewrite store_ne by (apply slots_apart_aligned; (done || congruence || lia)). destruct (Z.eqb_spec i (index base 21)) as [->|Hne]; [apply store_eq|].
  rewrite store_ne by (by intros E%slot_inj). rewrite fill_outside by (apply slot_outside; congruence). by rewrite fill_slot by lia.
Qed.

Lemma installed_l3 i : 0 <= i < 512 -> installed (slot_addr g_user_l3 i) = user_page base i.
Proof.
  intros Hi. destruct sep as [[_ S2] [_ S3] Sr S23 [R2 R3] _]. unfold installed, build_tables. pose proof (index_range base 21).
  rewrite !store_ne by (apply slots_apart_aligned; (done || congruence || lia)). apply fill_slot. lia.
Qed.

(** *** Entries of the guest's pages *)

Lemma user_page_fields i : 0 <= i < 512 ->
  has VALID (user_page base i) = true /\ has TABLE (user_page base i) = true /\ has ACCESS_FLAG (user_page base i) = true /\
  has EL0_RW (user_page base i) = true /\ has READ_ONLY (user_page base i) = false /\ Z.land (user_page base i) ADDR_MASK = base + i * PAGE_SIZE.
Proof.
  intros Hi. destruct placed as (H1 & H2 & H3). unfold user_page.
  assert (Z.land (base + i * PAGE_SIZE) ADDR_MASK = base + i * PAGE_SIZE) as Em.
  { unfold RAM_BASE, REGION_SIZE, PAGE_SIZE in *. apply page_masked; [lia|]. rewrite Z.mod_add by lia. pose proof (Z.div_mod base 0x200000).
    replace base with (base / 0x200000 * 512 * 4096) by lia. by rewrite Z.mod_mul. }
  rewrite !has_lor, land_lor_val, Em by done. rewrite (masked_has READ_ONLY) by done. change (has VALID user_flags) with true.
  change (has TABLE user_flags) with true. change (has ACCESS_FLAG user_flags) with true. change (has EL0_RW user_flags) with true. by rewrite !orb_true_r.
Qed.

Lemma user_table_entry t : 0 <= t < 2 ^ 48 -> t mod 4096 = 0 ->
  has VALID (Z.lor t TABLE_OR_PAGE) = true /\ has TABLE (Z.lor t TABLE_OR_PAGE) = true /\ Z.land (Z.lor t TABLE_OR_PAGE) ADDR_MASK = t.
Proof.
  intros H0 Ht. rewrite !has_lor, land_lor_val by done. rewrite page_masked by done. by rewrite !orb_true_r.
Qed.

(** The region is one entry of the level-2 table of the second gigabyte. *)
Lemma guest_region_of v : 0 <= v < 2 ^ 39 ->
  (index v 30 = 1 /\ index v 21 = index base 21) <-> base <= v < base + REGION_SIZE.
Proof.
  intros Hv. destruct placed as (H1 & H2 & H3). unfold index, RAM_BASE, REGION_SIZE in *. change 0x1FF with (Z.ones 9).
  rewrite !Z.land_ones, !Z.shiftr_div_pow2 by lia. change (2 ^ 30) with (2 ^ 21 * 512). change (2 ^ 9) with 512. change (2 ^ 21) with 0x200000.
  rewrite <- Z.div_div by lia. pose proof (Z.div_mod v 0x200000). pose proof (Z.div_mod base 0x200000).
  pose proof (Z.div_mod (v / 0x200000) 512). pose proof (Z.div_mod (base / 0x200000) 512).
  pose proof (Z.mod_pos_bound v 0x200000). pose proof (Z.mod_pos_bound (v / 0x200000) 512). pose proof (Z.mod_pos_bound (base / 0x200000) 512).
  assert (0 <= v / 0x200000 / 512 < 512) by (split; [repeat apply Z.div_pos; lia|repeat (apply Z.div_lt_upper_bound; [lia|]); lia]).
  rewrite (Z.mod_small (v / 0x200000 / 512)) by lia. split; lia.
Qed.

Lemma walk_outside {A} (lf : Z -> Z -> Z -> Z -> option A) v : 0 <= v < 2 ^ 39 -> ~ base <= v < base + REGION_SIZE ->
  walk_with lf root v installed = walk_with lf root v m.
Proof.
  intros Hv Hout. rewrite <- (guest_region_of v Hv) in Hout. pose proof (sp_walks sep v) as Hw. unfold walk_tables in Hw. unfold walk_with.
  pose proof (index_range v 30) as I1. pose proof (index_range v 21) as I2. pose proof (index_range v 12) as I3.
  assert (forall e2, (has VALID e2 && has TABLE e2 = true -> Z.land e2 ADDR_MASK <> g_user_l2 /\ Z.land e2 ADDR_MASK <> g_user_l3 /\ Z.land e2 ADDR_MASK <> root) ->
    negb (has VALID e2) = false -> negb (has TABLE e2) = false ->
    installed (slot_addr (Z.land e2 ADDR_MASK) (index v 12)) = m (slot_addr (Z.land e2 ADDR_MASK) (index v 12))) as H3.
  { intros e2 He E1%negb_false_iff E2%negb_false_iff. destruct He as (? & ? & ?); [by rewrite E1, E2|]. apply installed_table; (done || apply masked_aligned). }
  destruct (Z.eq_dec (index v 30) 1) as [E1|N1].
  - rewrite E1 in Hw |- *. fold l1 in Hw |- *. fold old_l1 in Hw |- *. destruct old_flags as [F1 F2]. rewrite installed_l1. destruct (sp_l2 sep) as [L2 A2].
    destruct (user_table_entry g_user_l2 L2 A2) as (T1 & T2 & T3). rewrite T1, T2, T3, F1, F2. cbn [negb]. rewrite F1, F2 in Hw. cbn [andb] in Hw.
    rewrite installed_l2 by done. rewrite (proj2 (Z.eqb_neq _ _)) by tauto. set (e2 := m (slot_addr (Z.land old_l1 ADDR_MASK) (index v 21))) in *.
    destruct (negb (has VALID e2)) eqn:V2; [done|]. destruct (negb (has TABLE e2)) eqn:B2; [done|]. rewrite H3; try done.
    intros Hvt. apply Hw. rewrite Hvt. right. by left.
  - rewrite installed_root by done. set (e1 := m (slot_addr root (index v 30))) in *.
    destruct (negb (has VALID e1)) eqn:V1; [done|]. destruct (negb (has TABLE e1)) eqn:B1; [done|].
    apply negb_false_iff in V1, B1. rewrite V1, B1 in Hw. cbn [andb] in Hw. destruct (Hw (Z.land e1 ADDR_MASK)) as (? & ? & ?); [by left|].
    rewrite installed_table by (done || apply masked_aligned). set (e2 := m (slot_addr (Z.land e1 ADDR_MASK) (index v 21))) in *.
    destruct (negb (has VALID e2)) eqn:V2; [done|]. destruct (negb (has TABLE e2)) eqn:B2; [done|]. rewrite H3; try done.
    intros Hvt. apply Hw. rewrite Hvt. right. by left.
Qed.

Lemma walk_inside {A} (lf : Z -> Z -> Z -> Z -> option A) v : base <= v < base + REGION_SIZE ->
  walk_with lf root v installed = lf ADDR_MASK PAGE_SIZE (user_page base (index v 12)) v.
Proof.
  intros Hin. assert (0 <= v < 2 ^ 39) as Hv by (unfold RAM_BASE, REGION_SIZE in *; lia).
  destruct (proj2 (guest_region_of v Hv) Hin) as [E1 E2]. unfold walk_with. rewrite E1. fold l1. rewrite installed_l1. destruct (sp_l2 sep) as [L2 A2].
  destruct (user_table_entry g_user_l2 L2 A2) as (-> & -> & ->). cbn [negb]. pose proof (index_range v 12) as I3.
  rewrite installed_l2, E2, Z.eqb_refl by (apply index_range). destruct (sp_l3 sep) as [L3 A3].
  destruct (user_table_entry g_user_l3 L3 A3) as (-> & -> & ->). cbn [negb]. rewrite installed_l3 by done.
  by destruct (user_page_fields (index v 12) I3) as (-> & -> & _).
Qed.

Lemma guest_access v : base <= v < base + REGION_SIZE ->
  el0_access root v installed = Some (v, true) /\ exists attributes, PageFaultArm.translate root v installed = Some (v, true, attributes).
Proof.
  intros Hin. rewrite translate_walk. unfold el0_access. rewrite !walk_inside by done.
  destruct (user_page_fields (index v 12) (index_range v 12)) as (_ & _ & F3 & F4 & F5 & F6). unfold el0_leaf, leaf. rewrite F3, F4, F5, F6.
  cbn [andb negb]. rewrite page_and_offset by (done || apply placed). split; [done|by eexists].
Qed.
End mapping.

(** *** The probe *)

Lemma lay_out_kept code base privileged value m : base + REGION_SIZE <= W64 -> Forall is_byte code -> (length code <= 4096)%nat -> bytes_mem m ->
  kept base REGION_SIZE m (lay_out code base privileged value m).
Proof.
  intros Htop Hc Hl Hm. unfold lay_out. destruct (request_bytes value) as [Rb Rl].
  repeat (apply kept_write; [|first [done|apply call_bytes|apply bytes_of_words_byte]|unfold PAGE_SIZE, REGION_SIZE in *;
    rewrite ?(proj2 (call_bytes _)), ?Rl, ?length_bytes_of_words; cbn [length]; lia..]).
  by split.
Qed.

Section confined.
Context {S : Type} (invoke : byte_invoke S) (g_user_l2 g_user_l3 callback : Z) (code : list Z)
  (run_user : Z -> Z -> Z -> Z -> Z -> Z -> guest_state S -> guest_state S * Z).
Hypothesis Hbytes : forall t m msg cap s, Forall is_byte (snd (snd (invoke t m msg cap s))).
Hypothesis Hrun : forall a b c d e f x, bytes_mem (ram (guest x)) -> runs_guest invoke x (fst (run_user a b c d e f x)).
Hypothesis Hcode : Forall is_byte code.

Lemma refuses_false info p : refuses info p = false -> 0 <= user_region_base info < W64 - REGION_SIZE ->
  user_region_size info = REGION_SIZE /\ RAM_BASE <= user_region_base info /\ user_region_base info + REGION_SIZE <= 0x80000000 /\
  user_region_base info mod REGION_SIZE = 0 /\ ~ user_region_base info <= p < user_region_base info + REGION_SIZE.
Proof.
  unfold refuses. rewrite !orb_false_iff, !negb_false_iff. intros ((((((_ & _) & H1) & H2) & H3) & H4) & H5) Hu.
  apply Z.eqb_eq in H1, H2. apply Z.ltb_ge in H3, H4. change (REGION_SIZE - 1) with (Z.ones 21) in H2. rewrite Z.land_ones in H2 by lia.
  rewrite u64_small in H4, H5 by (unfold is_u64 in *; unfold REGION_SIZE in *; lia). split_and!; try done.
  intros [Ha Hb]. apply andb_false_iff in H5 as [H5%Z.leb_gt|H5%Z.ltb_ge]; lia.
Qed.

(** Putting an entry back. *)
Lemma restored root base v (m m' : words) a : m' = store (slot_addr root 1) v (build_tables g_user_l2 g_user_l3 base (m (slot_addr root 1)) m) ->
  ~ in_page a g_user_l2 -> ~ in_page a g_user_l3 -> store (slot_addr root 1) (m (slot_addr root 1)) m' a = m a.
Proof.
  intros -> H2 H3. unfold store at 1. destruct (Z.eqb_spec a (slot_addr root 1)) as [->|]; [done|]. rewrite store_ne by done. by apply build_other.
Qed.

Lemma probe_restores info p gate value x :
  0 <= user_region_base info < W64 - REGION_SIZE -> bytes_mem (ram (guest x)) ->
  let '(x', _) := securinit_arm_isolation_probe invoke g_user_l2 g_user_l3 callback code run_user info p gate value x in
  (forall a, ~ in_page a g_user_l2 -> ~ in_page a g_user_l3 -> tables x' a = tables x a) /\
  kept (user_region_base info) REGION_SIZE (ram (guest x)) (ram (guest x')) /\
  rtc (probe_call invoke info gate (capnp_build_flat 24 [callback])) (kern (guest x)) (kern (guest x')).
Proof.
  intros Hbase Hm. unfold securinit_arm_isolation_probe. set (base := user_region_base info) in *.
  assert (kept base REGION_SIZE (ram (guest x)) (ram (guest x))) as Hk0 by by split.
  destruct (refuses info p) eqn:Hr; [split_and!; done|]. destruct (refuses_false info p Hr Hbase) as (Hsz & Hlo & Hhi & Hal & Hout). fold base in Hlo, Hhi, Hal.
  destruct (negb _); [split_and!; done|]. destruct (_ || _) eqn:Hlen.
  { split_and!; [|done|done]. intros a H2 H3. by apply build_other. }
  apply orb_false_iff in Hlen as [_ Hlen%Z.ltb_ge]. unfold PAGE_SIZE in Hlen. set (l1 := slot_addr (ttbr0_root_phys info) 1).
  match goal with |- context [bind_router invoke info [callback] 24 ?y] => set (x1 := y) end. pose proof (bind_router_spec invoke info [callback] 24 x1) as Hb.
  destruct (bind_router invoke info [callback] 24 x1) as [x2 bound]. destruct Hb as (B1 & B2 & B3 & B4).
  assert (rtc (probe_call invoke info gate (capnp_build_flat 24 [callback])) (kern (guest x)) (kern (guest x2))) as Hk2 by (apply rtc_once; by right).
  assert (kept base REGION_SIZE (ram (guest x)) (ram (guest x2))) as Hkept.
  { rewrite B3. apply lay_out_kept; [unfold W64, REGION_SIZE in *; lia|done|lia|done]. }
  assert (forall a, ~ in_page a g_user_l2 -> ~ in_page a g_user_l3 -> store l1 (tables x l1) (tables x2) a = tables x a) as Ht.
  { intros a H2 H3. rewrite B1. exact (restored (ttbr0_root_phys info) base (Z.lor g_user_l2 TABLE_OR_PAGE) (tables x) _ a eq_refl H2 H3). }
  destruct (negb bound); [split_and!; [exact Ht|apply Hkept|exact Hk2]|].
  match goal with |- context [run_user ?a ?b ?c ?d ?e ?f x2] => pose proof (Hrun a b c d e f x2 (proj1 Hkept)) as Hg; destruct (run_user a b c d e f x2) as [x3 result] end. cbn [fst] in Hg.
  destruct (guest_run_kept invoke x2 x3 (ram (guest x)) Hbytes) as [Hkept' Hk3].
  - rewrite B2. split; cbn; unfold is_u64, W64, REGION_SIZE in *; lia.
  - done.
  - rewrite B2. exact Hkept.
  - rewrite B2 in Hkept', Hk3. destruct Hg as [Ht3 _]. split_and!.
    + intros a H2 H3. cbn [set_tables tables]. rewrite Ht3. by apply Ht.
    + apply Hkept'.
    + etrans; [exact Hk2|]. eapply rtc_subrel, Hk3. intros s s' Hs. by left.
Qed.
End confined.

(** C19: A guest reaches its region and nothing else: while it runs, on any tables that gave EL0 nothing before and that
    the wrapper's two tables are not part of, code in EL0 can read and write exactly the 2 MiB of the region, at their own
    addresses, so in particular not the privileged address; and for the kernel every address outside of the region is
    translated as before. *)
Theorem arm_guest_isolated g_user_l2 g_user_l3 info privileged_addr m :
  let root := ttbr0_root_phys info in
  let base := user_region_base info in
  let m' := installed g_user_l2 g_user_l3 root base m in
  refuses info privileged_addr = false -> 0 <= base < W64 - REGION_SIZE -> Z.land (m (slot_addr root 1)) 3 = TABLE_OR_PAGE ->
  separate g_user_l2 g_user_l3 root m -> (forall v, 0 <= v < 2 ^ 39 -> el0_access root v m = None) ->
  forall v, 0 <= v < 2 ^ 39 ->
    el0_access root v m' = (if decide (base <= v < base + REGION_SIZE) then Some (v, true) else None) /\
    (~ base <= v < base + REGION_SIZE -> PageFaultArm.translate root v m' = PageFaultArm.translate root v m) /\
    (v = privileged_addr -> el0_access root v m' = None).
Proof.
  intros root base m' Hr Hbase Ht Hs Hno v Hv. destruct (refuses_false info privileged_addr Hr Hbase) as (_ & Hlo & Hhi & Hal & Hp). fold base in Hlo, Hhi, Hal, Hp.
  assert (el0_access root v m' = (if decide (base <= v < base + REGION_SIZE) then Some (v, true) else None)) as E.
  { case_decide; [by apply guest_access|]. unfold el0_access, m'. rewrite walk_outside by done. by apply Hno. }
  split; [done|]. split; [intros Hout; unfold m'; rewrite !translate_walk; by apply walk_outside|]. intros ->. rewrite E. by rewrite decide_False.
Qed.

(** The probe leaves no trace but what the guest was given: whatever the guest does, once it returns every word of the
    page tables is as before, the wrapper's own two tables apart, every byte outside of the region is as before, and the
    kernel has been entered only to bind the callback and through the granted Gate. *)
Theorem arm_probe_restores {S} (invoke : byte_invoke S) g_user_l2 g_user_l3 callback code run_user info privileged_addr gate value (x : guest_state S) :
  (forall t m msg cap s, Forall is_byte (snd (snd (invoke t m msg cap s)))) ->
  (forall a b c d e f x, bytes_mem (ram (guest x)) -> runs_guest invoke x (fst (run_user a b c d e f x))) -> Forall is_byte code ->
  0 <= user_region_base info < W64 - REGION_SIZE -> bytes_mem (ram (guest x)) ->
  let '(x', _) := securinit_arm_isolation_probe invoke g_user_l2 g_user_l3 callback code run_user info privileged_addr gate value x in
  (forall a, ~ in_page a g_user_l2 -> ~ in_page a g_user_l3 -> tables x' a = tables x a) /\
  kept (user_region_base info) REGION_SIZE (ram (guest x)) (ram (guest x')) /\
  rtc (probe_call invoke info gate (capnp_build_flat 24 [callback])) (kern (guest x)) (kern (guest x')).
Proof. intros H1 H2 H3. by apply probe_restores. Qed.

(** *** A machine *)

(** A root whose second gigabyte is a table with nothing mapped. *)
Definition arm_demo_tables : words := store (slot_addr 0x1000 1) 0x2003 (fun _ => 0).
Definition arm_demo_info : securinit_boot_info :=
  {| exception_router := 9; exception_router_bind_method := 0; user_region_base := 0x44000000; user_region_size := 0x200000;
     ttbr0_root_phys := 0x1000; x86_pml4_phys := 0 |}.

Lemma demo_l1 i : arm_demo_tables (slot_addr 0x1000 i) = if i =? 1 then 0x2003 else 0.
Proof.
  unfold arm_demo_tables. destruct (Z.eqb_spec i 1) as [->|]; [apply store_eq|]. apply store_ne. by intros ?%slot_inj.
Qed.

Lemma demo_l2 i : 0 <= i < 512 -> arm_demo_tables (slot_addr 0x2000 i) = 0.
Proof. intros Hi. apply store_ne. unfold slot_addr. lia. Qed.

Lemma demo_separate : separate 0x5000 0x6000 0x1000 arm_demo_tables.
Proof.
  split; [split; [split; [discriminate|reflexivity]|reflexivity]..|reflexivity|discriminate|split; discriminate|].
  intros v t Ht. unfold walk_tables in Ht. rewrite demo_l1 in Ht. destruct (index v 30 =? 1); [|done].
  change (Z.land 0x2003 ADDR_MASK) with 0x2000 in Ht. rewrite demo_l2 in Ht by apply index_range. destruct Ht as [<-|[]]. split_and!; discriminate.
Qed.

Lemma demo_no_el0 v : el0_access 0x1000 v arm_demo_tables = None.
Proof.
  unfold el0_access, walk_with. rewrite demo_l1. destruct (index v 30 =? 1); [|done].
  change (Z.land 0x2003 ADDR_MASK) with 0x2000. by rewrite demo_l2 by apply index_range.
Qed.

Lemma arm_guest_isolated_witness :
  let m' := installed 0x5000 0x6000 0x1000 0x44000000 arm_demo_tables in
  el0_access 0x1000 0x44001234 m' = Some (0x44001234, true) /\ el0_access 0x1000 0x40001000 m' = None.
Proof.
  pose proof (arm_guest_isolated 0x5000 0x6000 arm_demo_info 0x40001000 arm_demo_tables eq_refl ltac:(split; [discriminate|reflexivity]) eq_refl demo_separate
    (fun v _ => demo_no_el0 v)) as H.
  split; [exact (proj1 (H 0x44001234 ltac:(split; [discriminate|reflexivity])))|exact (proj1 (H 0x40001000 ltac:(split; [discriminate|reflexivity])))].
Defined.

(** A guest that returns at once, and a kernel that answers 1. *)
Definition demo_probe_invoke : byte_invoke Z := fun _ _ _ _ n => (n + 1, (true, capnp_build_flat 24 [1])).
Definition demo_run (_ _ _ _ _ _ : Z) (x : guest_state Z) : guest_state Z * Z := (x, 0).
Definition arm_demo_before : guest_state Z :=
  {| tables := arm_demo_tables; guest := {| UserIpc.regs := new_wrapper 0 0 0 0 0 0; ram := fun _ => 0; kern := 0 |} |}.

Lemma arm_probe_restores_witness :
  let x' := fst (securinit_arm_isolation_probe demo_probe_invoke 0x5000 0x6000 0x7000 [1; 2; 3; 4] demo_run arm_demo_info 0x40001000 7 1 arm_demo_before) in
  kern (guest x') = 1 /\ tables x' (slot_addr 0x1000 1) = 0x2003 /\ ram (guest x') 0x43fffff8 = 0.
Proof.
  intros x'. split; [vm_compute; reflexivity|].
  pose proof (arm_probe_restores demo_probe_invoke 0x5000 0x6000 0x7000 [1; 2; 3; 4] demo_run arm_demo_info 0x40001000 7 1 arm_demo_before
    (fun _ _ _ _ _ => proj1 (request_bytes 1))) as H.
  unfold x'. destruct (securinit_arm_isolation_probe _ _ _ _ _ _ _ _ _ _ _) as [x r]. cbn [fst]. destruct H as (H1 & [_ H2] & _).
  - intros a b c d e f y _. split; [done|]. exists (g_resume_pc (UserIpc.regs (guest y))), (g_saved_daif (UserIpc.regs (guest y))).
    cbn [demo_run fst]. destruct y as [t [[] ? ?]]. apply rtc_refl.
  - repeat (apply Forall_cons; split; [split; [discriminate|reflexivity]|]). apply Forall_nil. exact I.
  - split; [discriminate|reflexivity].
  - intros a. split; [discriminate|reflexivity].
  - split; [rewrite H1; [reflexivity|intros [Ha _]; vm_compute in Ha; apply Ha; reflexivity..]|].
    rewrite H2; [reflexivity|]. intros [Ha _]. vm_compute in Ha. apply Ha. reflexivity.
Defined.

(** The test for the end of the region wraps: a region at the very top of the address space passes every check. *)
Theorem region_at_the_top_accepted :
  refuses {| exception_router := 9; exception_router_bind_method := 0; user_region_base := W64 - REGION_SIZE; user_region_size := REGION_SIZE;
             ttbr0_root_phys := 0x1000; x86_pml4_phys := 0 |} (W64 - 8) = false.
Proof. vm_compute. reflexivity. Qed.
End Arm.

(** ** x86-64 *)

Module X86.
Definition PAGE_USER : Z := 0x4.
Definition USER_ENTRY : Z := 0x7.

Section x86.
Context {S : Type} (invoke : byte_invoke S).
(** [g_user_pt]; the addresses of the two entry points, of the top of the
    ring-0 stack and of the fault hook; and the probe's code. *)
Context (g_user_pt int80 int3 stack_top fault_hook : Z) (code : list Z).
(** [securinit_x86_run_user]: entry, stack, forbidden address, results, denied call, granted call. *)
Context (run_user : Z -> Z -> Z -> Z -> Z -> Z -> guest_state S -> guest_state S * Z).

Definition x86_refuses (info : securinit_boot_info) (privileged_addr : Z) : bool :=
  let base := user_region_base info in
  (x86_pml4_phys info =? 0) || (exception_router info =? 0) || negb (user_region_size info =? REGION_SIZE) ||
  negb (Z.land base (REGION_SIZE - 1) =? 0) || (0x4000000 <? u64 (base + REGION_SIZE)) ||
  ((base <=? privileged_addr) && (privileged_addr <? u64 (base + REGION_SIZE))).

Definition x86_user_page (base i : Z) : Z := Z.lor (base + i * PAGE_SIZE) USER_ENTRY.

(** The loop over the page directory: it stops at another entry that user
    code may use. *)
Fixpoint grant_pages (n : nat) (i pd skip base : Z) (m : words) : words * bool :=
  match n with
  | O => (m, true)
  | Datatypes.S n =>
      if negb (i =? skip) && has PAGE_USER (m (slot_addr pd i)) then (m, false)
      else grant_pages n (i + 1) pd skip base (store (slot_addr g_user_pt i) (x86_user_page base i) m)
  end.

Definition x86_lay_out (base value : Z) (m : memory) : memory :=
  let m := write_bytes (base + PAGE_SIZE) code m in
  let request := capnp_build_flat 24 [value] in
  let m := write_bytes (base + 0x3000) request m in
  let request_len := Z.of_nat (length request) in
  let m := write_bytes (base + 0x2000) (bytes_of_call (gate_request (WRAPPER_GATE_ENDPOINT + 1) (base + 0x3000) request_len (base + 0x3100))) m in
  let m := write_bytes (base + 0x2080) (bytes_of_call (gate_request WRAPPER_GATE_ENDPOINT (base + 0x3000) request_len (base + 0x3100))) m in
  write_bytes (base + 0x4000) (bytes_of_words [UINT64_MAX; UINT64_MAX]) m.

Definition x86_probe_valid (base result : Z) (x : guest_state S) : option Z :=
  let g := UserIpc.regs (guest x) in
  let m := ram (guest x) in
  let forwarded := word_at m (base + 0x3100 + 16) in
  if (result =? 0) && (g_denied_access g =? 1) && (g_exits g =? 1) && (g_ipc_denied g =? 1) && (g_ipc_forwarded g =? 1) &&
     (word_at m (base + 0x4000) =? u64 WRAPPER_IPC_BAD_ENDPOINT) && (word_at m (base + 0x4000 + 8) =? WRAPPER_IPC_OK) &&
     (word_at m (base + 0x2080 + 48) =? 24) && (forwarded <=? 1)
  then Some forwarded else None.

Definition securinit_x86_isolation_probe (info : securinit_boot_info) (privileged_addr granted_gate value : Z) (x : guest_state S)
    : guest_state S * option Z :=
  let base := user_region_base info in
  if x86_refuses info privileged_addr then (x, None)
  else
    let a4 := slot_addr (x86_pml4_phys info) 0 in
    let old_pml4 := tables x a4 in
    if negb (has PAGE_PRESENT old_pml4) then (x, None)
    else
      let a3 := slot_addr (Z.land old_pml4 PAGE_ADDR_MASK) 0 in
      let old_pdpt := tables x a3 in
      if negb (has PAGE_PRESENT old_pdpt) then (x, None)
      else
        let pd := Z.land old_pdpt PAGE_ADDR_MASK in
        let a2 := slot_addr pd (index base 21) in
        let old_pde := tables x a2 in
        if negb (has PAGE_PRESENT old_pde) || negb (has PAGE_HUGE old_pde) then (x, None)
        else
          let '(m, alone) := grant_pages 512 0 pd (index base 21) base (tables x) in
          let x := set_tables m x in
          if negb alone then (x, None)
          else
            let code_len := Z.of_nat (length code) in
            if (code_len =? 0) || (PAGE_SIZE <? code_len) then (x, None)
            else
              let x := set_guest {| UserIpc.regs := new_wrapper base REGION_SIZE privileged_addr granted_gate
                                      (g_resume_pc (UserIpc.regs (guest x))) (g_saved_daif (UserIpc.regs (guest x)));
                                    ram := x86_lay_out base value (ram (guest x)); kern := kern (guest x) |} x in
              let x := set_tables (store a2 (Z.lor g_user_pt USER_ENTRY) (store a3 (Z.lor old_pdpt PAGE_USER) (store a4 (Z.lor old_pml4 PAGE_USER) (tables x)))) x in
              let restore (x : guest_state S) := set_tables (store a4 old_pml4 (store a3 old_pdpt (store a2 old_pde (tables x)))) x in
              let '(x, bound) := bind_router invoke info [int80; int3; stack_top; fault_hook] 48 x in
              if negb bound then (restore x, None)
              else
                let '(x, result) := run_user (base + PAGE_SIZE) (base + REGION_SIZE - 16) privileged_addr (base + 0x4000) (base + 0x2000) (base + 0x2080) x in
                let x := restore x in
                (x, x86_probe_valid base result x).
End x86.

(** *** What the guest reaches *)

(** Physical address and whether a write is allowed for code in ring 3. *)
Definition user_access (pml4 v : Z) (m : words) : option (Z * bool) :=
  let e4 := m (slot_addr pml4 (index v 39)) in
  if negb (has PAGE_PRESENT e4 && has PAGE_USER e4) then None
  else
    let e3 := m (slot_addr (Z.land e4 PAGE_ADDR_MASK) (index v 30)) in
    if negb (has PAGE_PRESENT e3 && has PAGE_USER e3) then None
    else if has PAGE_HUGE e3 then
      Some (Z.land e3 0x000FFFFFC0000000 + v mod 0x40000000, has PAGE_WRITABLE e4 && has PAGE_WRITABLE e3)
    else
      let e2 := m (slot_addr (Z.land e3 PAGE_ADDR_MASK) (index v 21)) in
      if negb (has PAGE_PRESENT e2 && has PAGE_USER e2) then None
      else
        let w := has PAGE_WRITABLE e4 && has PAGE_WRITABLE e3 && has PAGE_WRITABLE e2 in
        if has PAGE_HUGE e2 then Some (Z.land e2 0x000FFFFFFFE00000 + v mod 0x200000, w)
        else
          let e1 := m (slot_addr (Z.land e2 PAGE_ADDR_MASK) (index v 12)) in
          if has PAGE_PRESENT e1 && has PAGE_USER e1 then Some (Z.land e1 PAGE_ADDR_MASK + v mod 4096, w && has PAGE_WRITABLE e1) else None.

Lemma x86_masked_aligned e : Z.land e PAGE_ADDR_MASK mod 4096 = 0.
Proof.
  change 4096 with (2 ^ 12). rewrite <- Z.land_ones, <- Z.land_assoc by lia. change (Z.land PAGE_ADDR_MASK (Z.ones 12)) with 0. apply Z.land_0_r.
Qed.

Lemma x86_page_masked q : 0 <= q < 2 ^ 52 -> q mod 4096 = 0 -> Z.land q PAGE_ADDR_MASK = q.
Proof.
  intros Hq Hm. change PAGE_ADDR_MASK with (Z.shiftl (Z.ones 40) 12). rewrite (align_down q 40 12) by lia.
  change (2 ^ 12) with 4096. pose proof (Z.div_mod q 4096). lia.
Qed.

(** What the loop leaves when it runs to its end. *)
Lemma grant_pages_spec g_user_pt pd skip base n : forall i m m', 0 <= i -> i + Z.of_nat n = 512 -> g_user_pt mod 4096 = 0 -> pd mod 4096 = 0 -> pd <> g_user_pt ->
  grant_pages g_user_pt n i pd skip base m = (m', true) ->
  (forall j, i <= j < 512 -> j <> skip -> has PAGE_USER (m (slot_addr pd j)) = false) /\
  (forall j, i <= j < 512 -> m' (slot_addr g_user_pt j) = x86_user_page base j) /\
  (forall a, (forall j, i <= j < 512 -> a <> slot_addr g_user_pt j) -> m' a = m a).
Proof.
  induction n as [|n IH]; intros i m m' Hi Hn Hg Hp Hne E; cbn [grant_pages] in E; [injection E as <-; split_and!; [lia..|done]|].
  destruct (negb (i =? skip) && has PAGE_USER (m (slot_addr pd i))) eqn:Hb; [done|].
  destruct (IH (i + 1) _ _ ltac:(lia) ltac:(lia) Hg Hp Hne E) as (H1 & H2 & H3). split_and!.
  - intros j Hj Hs. destruct (Z.eq_dec j i) as [->|].
    + apply andb_false_iff in Hb as [Hb|Hb]; [|done]. apply negb_false_iff, Z.eqb_eq in Hb. done.
    + specialize (H1 j ltac:(lia) Hs). rewrite store_ne in H1; [done|]. apply Arm.slots_apart_aligned; (done || lia).
  - intros j Hj. destruct (Z.eq_dec j i) as [->|]; [|apply H2; lia]. rewrite H3; [apply store_eq|]. intros k Hk E'%slot_inj. lia.
  - intros a Ha. rewrite H3 by (intros j Hj; apply Ha; lia). apply store_ne. apply Ha. lia.
Qed.

(** However it ends, it has written to the guest's table only. *)
Lemma grant_pages_other g_user_pt pd skip base n : forall i m a, 0 <= i -> i + Z.of_nat n <= 512 -> ~ in_page a g_user_pt ->
  fst (grant_pages g_user_pt n i pd skip base m) a = m a.
Proof.
  induction n as [|n IH]; intros i m a Hi Hn Ha; cbn [grant_pages]; [done|]. destruct (_ && _); [done|]. rewrite IH by (done || lia).
  apply store_ne. intros ->. apply Ha. unfold in_page, slot_addr. lia.
Qed.

Section mapping.
Context (g_user_pt pml4 base : Z) (m m1 : words).
Let a4 := slot_addr pml4 0.
Let pdpt := Z.land (m a4) PAGE_ADDR_MASK.
Let a3 := slot_addr pdpt 0.
Let pd := Z.land (m a3) PAGE_ADDR_MASK.
Let a2 := slot_addr pd (index base 21).

(** The tables while the guest runs, from what the loop has left. *)
Definition x86_installed : words :=
  store a2 (Z.lor g_user_pt USER_ENTRY) (store a3 (Z.lor (m a3) PAGE_USER) (store a4 (Z.lor (m a4) PAGE_USER) m1)).

(** Four different pages; a directory below the first entries; no other
    entry of the upper two tables for user code. *)
Record x86_separate : Prop := {
  xs_pt : 0 <= g_user_pt < 2 ^ 52 /\ g_user_pt mod 4096 = 0;
  xs_pml4 : pml4 mod 4096 = 0;
  xs_tables : pml4 <> pdpt /\ pml4 <> pd /\ pdpt <> pd;
  xs_apart : pml4 <> g_user_pt /\ pdpt <> g_user_pt /\ pd <> g_user_pt;
  xs_directory : has PAGE_PRESENT (m a4) = true /\ has PAGE_PRESENT (m a3) = true /\ has PAGE_HUGE (m a3) = false;
  xs_upper : forall i, 0 < i < 512 -> has PAGE_USER (m (slot_addr pml4 i)) = false /\ has PAGE_USER (m (slot_addr pdpt i)) = false }.

Hypothesis sep : x86_separate.
Hypothesis granted : grant_pages g_user_pt 512 0 pd (index base 21) base m = (m1, true).
Hypothesis placed : 0 <= base /\ base + REGION_SIZE <= 0x4000000 /\ base mod REGION_SIZE = 0.

Lemma granted_spec :
  (forall j, 0 <= j < 512 -> j <> index base 21 -> has PAGE_USER (m (slot_addr pd j)) = false) /\
  (forall j, 0 <= j < 512 -> m1 (slot_addr g_user_pt j) = x86_user_page base j) /\
  (forall t j, t mod 4096 = 0 -> t <> g_user_pt -> 0 <= j < 512 -> m1 (slot_addr t j) = m (slot_addr t j)).
Proof.
  destruct sep as [[_ Hg] _ _ (_ & _ & Hd) _ _].
  destruct (grant_pages_spec g_user_pt pd (index base 21) base 512 0 m m1 ltac:(lia) ltac:(lia) Hg (x86_masked_aligned _) Hd granted) as (H1 & H2 & H3).
  split_and!; [exact H1|exact H2|]. intros t j Ht Hne Hj. apply H3. intros k Hk. apply Arm.slots_apart_aligned; done.
Qed.

Lemma x86_lookup t i : t mod 4096 = 0 -> t <> g_user_pt -> 0 <= i < 512 -> x86_installed (slot_addr t i) =
  if (t =? pd) && (i =? index base 21) then Z.lor g_user_pt USER_ENTRY
  else if (t =? pdpt) && (i =? 0) then Z.lor (m a3) PAGE_USER
  else if (t =? pml4) && (i =? 0) then Z.lor (m a4) PAGE_USER else m (slot_addr t i).
Proof.
  intros Ht Hne Hi. destruct granted_spec as (_ & _ & H3). destruct sep as [_ Hp _ _ _ _]. pose proof (index_range base 21) as Hb.
  assert (forall q j v w, q mod 4096 = 0 -> 0 <= j < 512 -> store (slot_addr q j) v w (slot_addr t i) = if (t =? q) && (i =? j) then v else w (slot_addr t i)) as Hst.
  { intros q j v w Hq Hj. destruct (Z.eqb_spec t q) as [->|]; [|apply store_ne; by apply Arm.slots_apart_aligned].
    destruct (Z.eqb_spec i j) as [->|]; [apply store_eq|]. apply store_ne. by intros ?%slot_inj. }
  unfold x86_installed, a2, a3, a4. rewrite !Hst by (done || lia || apply x86_masked_aligned). by rewrite H3.
Qed.

Lemma x86_lookup_pt i : 0 <= i < 512 -> x86_installed (slot_addr g_user_pt i) = x86_user_page base i.
Proof.
  intros Hi. destruct granted_spec as (_ & H2 & _). destruct sep as [[_ Hg] Hp _ (N1 & N2 & N3) _ _]. pose proof (index_range base 21) as Hb.
  unfold x86_installed, a2, a3, a4. rewrite !store_ne by (apply Arm.slots_apart_aligned; (done || lia || congruence || apply x86_masked_aligned)). by apply H2.
Qed.

Lemma x86_region_of v : 0 <= v < 2 ^ 48 ->
  (index v 39 = 0 /\ index v 30 = 0 /\ index v 21 = index base 21) <-> base <= v < base + REGION_SIZE.
Proof.
  intros Hv. destruct placed as (H1 & H2 & H3). unfold index, REGION_SIZE in *. change 0x1FF with (Z.ones 9).
  rewrite !Z.land_ones, !Z.shiftr_div_pow2 by lia. change (2 ^ 39) with (0x200000 * 512 * 512). change (2 ^ 30) with (0x200000 * 512).
  change (2 ^ 9) with 512. change (2 ^ 21) with 0x200000. rewrite <- !Z.div_div by lia.
  pose proof (Z.div_mod v 0x200000). pose proof (Z.div_mod base 0x200000). pose proof (Z.mod_pos_bound v 0x200000).
  set (q := v / 0x200000) in *. set (b := base / 0x200000) in *. assert (0 <= q < 2 ^ 27) by (unfold q; split; [apply Z.div_pos; lia|apply Z.div_lt_upper_bound; lia]).
  pose proof (Z.div_mod q 512). pose proof (Z.mod_pos_bound q 512). pose proof (Z.div_mod (q / 512) 512). pose proof (Z.mod_pos_bound (q / 512) 512).
  assert (0 <= q / 512 / 512 < 512) by (split; [repeat apply Z.div_pos; lia|repeat (apply Z.div_lt_upper_bound; [lia|]); lia]).
  rewrite (Z.mod_small (q / 512 / 512)) by lia. rewrite (Z.mod_small b 512) by lia. split; lia.
Qed.

Lemma x86_user_page_fields i : 0 <= i < 512 ->
  has PAGE_PRESENT (x86_user_page base i) = true /\ has PAGE_USER (x86_user_page base i) = true /\
  has PAGE_WRITABLE (x86_user_page base i) = true /\ Z.land (x86_user_page base i) PAGE_ADDR_MASK = base + i * PAGE_SIZE.
Proof.
  intros Hi. destruct placed as (H1 & H2 & H3). unfold x86_user_page.
  assert (Z.land (base + i * PAGE_SIZE) PAGE_ADDR_MASK = base + i * PAGE_SIZE) as Em.
  { unfold REGION_SIZE, PAGE_SIZE in *. apply x86_page_masked; [lia|]. rewrite Z.mod_add by lia. pose proof (Z.div_mod base 0x200000).
    replace base with (base / 0x200000 * 512 * 4096) by lia. by rewrite Z.mod_mul. }
  rewrite !has_lor, land_lor_val, Em by done. change (has PAGE_PRESENT USER_ENTRY) with true. change (has PAGE_USER USER_ENTRY) with true.
  change (has PAGE_WRITABLE USER_ENTRY) with true. by rewrite !orb_true_r.
Qed.

Lemma x86_guest_access v : 0 <= v < 2 ^ 48 ->
  user_access pml4 v x86_installed =
  if decide (base <= v < base + REGION_SIZE) then Some (v, has PAGE_WRITABLE (m a4) && has PAGE_WRITABLE (m a3)) else None.
Proof.
  intros Hv. destruct granted_spec as (G1 & _). pose proof sep as [[Hg Ha] Hp (N1 & N2 & N3) (A1 & A2 & A3) (P4 & P3 & PH) Hup].
  pose proof (x86_region_of v Hv) as Hreg. pose proof (index_range v 39) as I4. pose proof (index_range v 30) as I3. pose proof (index_range v 21) as I2.
  assert (forall e, Z.land (Z.lor e PAGE_USER) PAGE_ADDR_MASK = Z.land e PAGE_ADDR_MASK) as Eu by (intros e; by rewrite land_lor_val).
  unfold user_access. rewrite x86_lookup by done. rewrite (proj2 (Z.eqb_neq _ _) N2), (proj2 (Z.eqb_neq _ _) N1), Z.eqb_refl. cbn [andb].
  destruct (Z.eqb_spec (index v 39) 0) as [E4|E4].
  2: { rewrite (proj1 (Hup (index v 39) ltac:(lia))), andb_false_r. cbn [negb]. by rewrite decide_False by tauto. }
  rewrite !has_lor, P4, Eu. fold pdpt. change (has PAGE_USER PAGE_USER) with true. rewrite orb_true_r. cbn [andb negb orb].
  rewrite x86_lookup by (done || apply x86_masked_aligned). rewrite (proj2 (Z.eqb_neq _ _) N3), Z.eqb_refl, (proj2 (Z.eqb_neq pdpt pml4) ltac:(congruence)). cbn [andb].
  destruct (Z.eqb_spec (index v 30) 0) as [E3|E3].
  2: { rewrite (proj2 (Hup (index v 30) ltac:(lia))), andb_false_r. cbn [negb]. by rewrite decide_False by tauto. }
  rewrite !has_lor, P3, PH, Eu. fold pd. change (has PAGE_USER PAGE_USER) with true. change (has PAGE_HUGE PAGE_USER) with false. rewrite orb_true_r. cbn [andb negb orb].
  rewrite x86_lookup by (done || apply x86_masked_aligned).
  rewrite Z.eqb_refl, (proj2 (Z.eqb_neq pd pdpt) ltac:(congruence)), (proj2 (Z.eqb_neq pd pml4) ltac:(congruence)). cbn [andb].
  destruct (Z.eqb_spec (index v 21) (index base 21)) as [E2|E2].
  2: { rewrite G1, andb_false_r by done. cbn [negb]. by rewrite decide_False by tauto. }
  rewrite decide_True by tauto. rewrite !has_lor, (land_lor_val g_user_pt USER_ENTRY PAGE_ADDR_MASK eq_refl), x86_page_masked by done.
  rewrite (masked_has_0 PAGE_ADDR_MASK PAGE_HUGE g_user_pt) by first [by apply x86_page_masked | reflexivity].
  change (has PAGE_PRESENT USER_ENTRY) with true. change (has PAGE_USER USER_ENTRY) with true. change (has PAGE_WRITABLE USER_ENTRY) with true.
  change (has PAGE_HUGE USER_ENTRY) with false. change (has PAGE_WRITABLE PAGE_USER) with false. rewrite !orb_true_r, !orb_false_r. cbn [andb negb orb].
  rewrite x86_lookup_pt by apply index_range. destruct (x86_user_page_fields (index v 12) (index_range v 12)) as (-> & -> & -> & ->). cbn [andb].
  rewrite !andb_true_r. do 2 f_equal. apply page_and_offset; [apply placed|tauto].
Qed.
End mapping.

(** *** The probe *)

Lemma x86_lay_out_kept code base value m : base + REGION_SIZE <= W64 -> Forall is_byte code -> (length code <= 4096)%nat -> bytes_mem m ->
  kept base REGION_SIZE m (x86_lay_out code base value m).
Proof.
  intros Htop Hc Hl Hm. unfold x86_lay_out. destruct (request_bytes value) as [Rb Rl].
  repeat (apply kept_write; [|first [done|apply call_bytes|apply bytes_of_words_byte]|unfold PAGE_SIZE, REGION_SIZE in *;
    rewrite ?(proj2 (call_bytes _)), ?Rl, ?length_bytes_of_words; cbn [length]; lia..]).
  by split.
Qed.

Section confined.
Context {S : Type} (invoke : byte_invoke S) (g_user_pt int80 int3 stack_top fault_hook : Z) (code : list Z)
  (run_user : Z -> Z -> Z -> Z -> Z -> Z -> guest_state S -> guest_state S * Z).
Hypothesis Hbytes : forall t m msg cap s, Forall is_byte (snd (snd (invoke t m msg cap s))).
Hypothesis Hrun : forall a b c d e f x, bytes_mem (ram (guest x)) -> runs_guest invoke x (fst (run_user a b c d e f x)).
Hypothesis Hcode : Forall is_byte code.
Let binding := [int80; int3; stack_top; fault_hook].

Lemma x86_refuses_false info p : x86_refuses info p = false -> 0 <= user_region_base info < W64 - REGION_SIZE ->
  user_region_base info + REGION_SIZE <= 0x4000000 /\ user_region_base info mod REGION_SIZE = 0 /\
  ~ user_region_base info <= p < user_region_base info + REGION_SIZE.
Proof.
  unfold x86_refuses. rewrite !orb_false_iff, !negb_false_iff. intros (((((_ & _) & _) & H2) & H4) & H5) Hu.
  apply Z.eqb_eq in H2. apply Z.ltb_ge in H4. change (REGION_SIZE - 1) with (Z.ones 21) in H2. rewrite Z.land_ones in H2 by lia.
  rewrite u64_small in H4, H5 by (unfold is_u64 in *; unfold REGION_SIZE in *; lia). split_and!; try done.
  intros [Ha Hb]. apply andb_false_iff in H5 as [H5%Z.leb_gt|H5%Z.ltb_ge]; lia.
Qed.

(** Putting back what was at three addresses, whatever was written there. *)
Lemma put_back a2 a3 a4 (v2 v3 v4 : Z) (m m1 : words) a : m1 a = m a ->
  store a4 (m a4) (store a3 (m a3) (store a2 (m a2) (store a2 v2 (store a3 v3 (store a4 v4 m1))))) a = m a.
Proof. intros H. unfold store. repeat (match goal with |- context [?u =? ?w] => destruct (Z.eqb_spec u w) as [->|] end); congruence. Qed.

Lemma x86_restores info p gate value x :
  0 <= user_region_base info < W64 - REGION_SIZE -> bytes_mem (ram (guest x)) ->
  let '(x', _) := securinit_x86_isolation_probe invoke g_user_pt int80 int3 stack_top fault_hook code run_user info p gate value x in
  (forall a, ~ in_page a g_user_pt -> tables x' a = tables x a) /\
  kept (user_region_base info) REGION_SIZE (ram (guest x)) (ram (guest x')) /\
  rtc (probe_call invoke info gate (capnp_build_flat 48 binding)) (kern (guest x)) (kern (guest x')).
Proof.
  intros Hbase Hm. unfold securinit_x86_isolation_probe. set (base := user_region_base info) in *.
  assert (kept base REGION_SIZE (ram (guest x)) (ram (guest x))) as Hk0 by by split.
  destruct (x86_refuses info p) eqn:Hr; [split_and!; done|]. destruct (x86_refuses_false info p Hr Hbase) as (Hhi & _). fold base in Hhi.
  destruct (negb _); [split_and!; done|]. destruct (negb _); [split_and!; done|]. destruct (_ || _); [split_and!; done|].
  set (a4 := slot_addr (x86_pml4_phys info) 0). set (a3 := slot_addr (Z.land (tables x a4) PAGE_ADDR_MASK) 0).
  set (pd := Z.land (tables x a3) PAGE_ADDR_MASK). set (a2 := slot_addr pd (index base 21)).
  pose proof (fun a => grant_pages_other g_user_pt pd (index base 21) base 512 0 (tables x) a ltac:(lia) ltac:(lia)) as Ho.
  destruct (grant_pages _ _ _ _ _ _ _) as [m1 alone]. cbn [fst] in Ho. destruct (negb alone); [split_and!; done|].
  destruct (_ || _) eqn:Hlen; [split_and!; done|]. apply orb_false_iff in Hlen as [_ Hlen%Z.ltb_ge]. unfold PAGE_SIZE in Hlen. fold binding.
  match goal with |- context [bind_router invoke info binding 48 ?y] => set (x1 := y) end. pose proof (bind_router_spec invoke info binding 48 x1) as Hb.
  destruct (bind_router invoke info binding 48 x1) as [x2 bound]. destruct Hb as (B1 & B2 & B3 & B4).
  assert (rtc (probe_call invoke info gate (capnp_build_flat 48 binding)) (kern (guest x)) (kern (guest x2))) as Hk2 by (apply rtc_once; by right).
  assert (kept base REGION_SIZE (ram (guest x)) (ram (guest x2))) as Hkept.
  { rewrite B3. apply x86_lay_out_kept; [unfold W64, REGION_SIZE in *; lia|done|lia|done]. }
  assert (forall a, ~ in_page a g_user_pt -> store a4 (tables x a4) (store a3 (tables x a3) (store a2 (tables x a2) (tables x2))) a = tables x a) as Ht.
  { intros a Ha. rewrite B1. by apply put_back, Ho. }
  destruct (negb bound); [split_and!; [exact Ht|apply Hkept|exact Hk2]|].
  match goal with |- context [run_user ?a ?b ?c ?d ?e ?f x2] => pose proof (Hrun a b c d e f x2 (proj1 Hkept)) as Hg; destruct (run_user a b c d e f x2) as [x3 result] end. cbn [fst] in Hg.
  destruct (guest_run_kept invoke x2 x3 (ram (guest x)) Hbytes) as [Hkept' Hk3].
  - rewrite B2. split; cbn; unfold is_u64, W64, REGION_SIZE in *; lia.
  - done.
  - rewrite B2. exact Hkept.
  - rewrite B2 in Hkept', Hk3. destruct Hg as [Ht3 _]. split_and!.
    + intros a Ha. cbn [set_tables tables]. rewrite Ht3. by apply Ht.
    + apply Hkept'.
    + etrans; [exact Hk2|]. eapply rtc_subrel, Hk3. intros s s' Hs. by left.
Qed.
End confined.

(** C20: On x86-64 as well a guest reaches its region and nothing else: with the tables the probe installs once its loop has
    passed, over any four different pages whose upper tables hold no other entry for user code, code in ring 3 reaches of the
    2^48 bytes below exactly the 2 MiB of the region, at their own addresses, and writes there if the upper tables allowed
    writing; the privileged address faults. *)
Theorem x86_guest_isolated g_user_pt info privileged_addr m m1 :
  let pml4 := x86_pml4_phys info in
  let base := user_region_base info in
  let e4 := m (slot_addr pml4 0) in
  let e3 := m (slot_addr (Z.land e4 PAGE_ADDR_MASK) 0) in
  x86_refuses info privileged_addr = false -> 0 <= base < W64 - REGION_SIZE -> x86_separate g_user_pt pml4 m ->
  grant_pages g_user_pt 512 0 (Z.land e3 PAGE_ADDR_MASK) (index base 21) base m = (m1, true) ->
  forall v, 0 <= v < 2 ^ 48 ->
    user_access pml4 v (x86_installed g_user_pt pml4 base m m1) =
      (if decide (base <= v < base + REGION_SIZE) then Some (v, has PAGE_WRITABLE e4 && has PAGE_WRITABLE e3) else None) /\
    (v = privileged_addr -> user_access pml4 v (x86_installed g_user_pt pml4 base m m1) = None).
Proof.
  intros pml4 base e4 e3 Hr Hbase Hs Hg v Hv. destruct (x86_refuses_false info privileged_addr Hr Hbase) as (H1 & H2 & H3). fold base in H1, H2, H3.
  pose proof (x86_guest_access g_user_pt pml4 base m m1 Hs Hg ltac:(split_and!; (done || lia)) v Hv) as E. split; [exact E|].
  intros ->. rewrite E. by rewrite decide_False.
Qed.

(** The x86-64 probe takes back what it gave: whatever the guest does, once it returns every word of the page tables is
    as before, the wrapper's own table apart, every byte outside of the region is as before, and the kernel has been entered
    only to bind the entry points and through the granted Gate. *)
Theorem x86_probe_restores {S} (invoke : byte_invoke S) g_user_pt int80 int3 stack_top fault_hook code run_user info privileged_addr gate value
    (x : guest_state S) :
  (forall t m msg cap s, Forall is_byte (snd (snd (invoke t m msg cap s)))) ->
  (forall a b c d e f x, bytes_mem (ram (guest x)) -> runs_guest invoke x (fst (run_user a b c d e f x))) -> Forall is_byte code ->
  0 <= user_region_base info < W64 - REGION_SIZE -> bytes_mem (ram (guest x)) ->
  let '(x', _) := securinit_x86_isolation_probe invoke g_user_pt int80 int3 stack_top fault_hook code run_user info privileged_addr gate value x in
  (forall a, ~ in_page a g_user_pt -> tables x' a = tables x a) /\
  kept (user_region_base info) REGION_SIZE (ram (guest x)) (ram (guest x')) /\
  rtc (probe_call invoke info gate (capnp_build_flat 48 [int80; int3; stack_top; fault_hook])) (kern (guest x)) (kern (guest x')).
Proof. intros H1 H2 H3. by apply x86_restores. Qed.

(** *** A machine *)

(** One directory whose second entry maps the 2 MiB of the region. *)
Definition x86_demo_tables : words :=
  store (slot_addr 0x1000 0) 0x2003 (store (slot_addr 0x2000 0) 0x3003 (store (slot_addr 0x3000 1) 0x200083 (fun _ => 0))).
Definition x86_demo_info : securinit_boot_info :=
  {| exception_router := 9; exception_router_bind_method := 0; user_region_base := 0x200000; user_region_size := 0x200000;
     ttbr0_root_phys := 0; x86_pml4_phys := 0x1000 |}.

Lemma x86_demo_upper t i : (t = 0x1000 \/ t = 0x2000) -> 0 < i < 512 -> x86_demo_tables (slot_addr t i) = 0.
Proof. intros Ht Hi. unfold x86_demo_tables. rewrite !store_ne; [done|unfold slot_addr; lia..]. Qed.

Lemma x86_demo_separate : x86_separate 0x5000 0x1000 x86_demo_tables.
Proof.
  split; change (x86_demo_tables (slot_addr 0x1000 0)) with 0x2003; change (Z.land 0x2003 PAGE_ADDR_MASK) with 0x2000;
    change (x86_demo_tables (slot_addr 0x2000 0)) with 0x3003; change (Z.land 0x3003 PAGE_ADDR_MASK) with 0x3000.
  - split; [split; [discriminate|reflexivity]|reflexivity].
  - reflexivity.
  - split_and!; discriminate.
  - split_and!; discriminate.
  - split_and!; reflexivity.
  - intros i Hi. rewrite !x86_demo_upper by auto. done.
Qed.

Definition x86_demo_granted : words * bool := grant_pages 0x5000 512 0 0x3000 (index 0x200000 21) 0x200000 x86_demo_tables.

Lemma x86_demo_alone : snd x86_demo_granted = true.
Proof. vm_compute. reflexivity. Qed.

Lemma x86_guest_isolated_witness :
  let m' := x86_installed 0x5000 0x1000 0x200000 x86_demo_tables (fst x86_demo_granted) in
  user_access 0x1000 0x201234 m' = Some (0x201234, true) /\ user_access 0x1000 0x400000 m' = None.
Proof.
  assert (grant_pages 0x5000 512 0 0x3000 (index 0x200000 21) 0x200000 x86_demo_tables = (fst x86_demo_granted, true)) as Hg
    by (fold x86_demo_granted; rewrite <- x86_demo_alone; apply surjective_pairing).
  pose proof (x86_guest_isolated 0x5000 x86_demo_info 0x400000 x86_demo_tables (fst x86_demo_granted) eq_refl ltac:(split; [discriminate|reflexivity])
    x86_demo_separate Hg) as H.
  split; [exact (proj1 (H 0x201234 ltac:(split; [discriminate|reflexivity])))|exact (proj1 (H 0x400000 ltac:(split; [discriminate|reflexivity])))].
Defined.

Definition x86_demo_before : guest_state Z :=
  {| tables := x86_demo_tables; guest := {| UserIpc.regs := new_wrapper 0 0 0 0 0 0; ram := fun _ => 0; kern := 0 |} |}.

Lemma x86_probe_restores_witness :
  let x' := fst (securinit_x86_isolation_probe Arm.demo_probe_invoke 0x5000 0x7000 0x7100 0x9000 0x7200 [1; 2; 3] Arm.demo_run x86_demo_info 0x400000 7 1
                   x86_demo_before) in
  kern (guest x') = 1 /\ tables x' (slot_addr 0x3000 1) = 0x200083 /\ ram (guest x') 0x400000 = 0.
Proof.
  intros x'. split; [vm_compute; reflexivity|].
  pose proof (x86_probe_restores Arm.demo_probe_invoke 0x5000 0x7000 0x7100 0x9000 0x7200 [1; 2; 3] Arm.demo_run x86_demo_info 0x400000 7 1 x86_demo_before
    (fun _ _ _ _ _ => proj1 (request_bytes 1))) as H.
  unfold x'. destruct (securinit_x86_isolation_probe _ _ _ _ _ _ _ _ _ _ _ _ _) as [x r]. cbn [fst]. destruct H as (H1 & [_ H2] & _).
  - intros a b c d e f y _. split; [done|]. exists (g_resume_pc (UserIpc.regs (guest y))), (g_saved_daif (UserIpc.regs (guest y))).
    cbn [Arm.demo_run fst]. destruct y as [t [[] ? ?]]. apply rtc_refl.
  - repeat (apply Forall_cons; split; [split; [discriminate|reflexivity]|]). apply Forall_nil. exact I.
  - split; [discriminate|reflexivity].
  - intros a. split; [discriminate|reflexivity].
  - split; [rewrite H1; [reflexivity|intros [Ha _]; vm_compute in Ha; apply Ha; reflexivity]|].
    rewrite H2; [reflexivity|]. intros [_ Ha]. vm_compute in Ha. discriminate Ha.
Defined.

(** The loop looks at the directory only: with a 1 GiB page for user code in
    the next entry of the table above, the guest reaches that gigabyte. *)
Theorem upper_entries_unchecked :
  let m := store (slot_addr 0x2000 1) 0x40000087 x86_demo_tables in
  let granted := grant_pages 0x5000 512 0 0x3000 (index 0x200000 21) 0x200000 m in
  snd granted = true /\ user_access 0x1000 0x40001000 (x86_installed 0x5000 0x1000 0x200000 m (fst granted)) = Some (0x40001000, true) /\
  user_access 0x1000 0x40001000 m = None.
Proof. vm_compute. split_and!; reflexivity. Qed.
End X86.
