(* ===== verification/SecurinitProbe.v ===== *)
(** * The security stage with its own isolation probe (securinit/)

    [securinit_main] with the probes of arm_wrapper.c and x86_wrapper.c
    (GuestMap.v) in the place of its parameter.  The probe works on bytes and
    page tables, the stage on words: [by_bytes] is the kernel as the wrapper
    calls it, [as_guest] the probe as [wrapped_handler] calls it, with page
    tables, wrapper and memory as part of the world.  What remains a parameter
    is the guest's run on the processor, confined to the steps of UserIpc.v.

    [securinit_main_spec]: the stage ends, and it hands out its Gate exactly
    when both runs of the guest show what they should. *)

From S2P Require Import Prelude Capnp Kernel NetworkRpc PageTable PageFaultArm PageFault UserIpc GuestMap Securinit.

Lemma flat_bytes cap ws : Forall is_byte (capnp_build_flat cap ws).
Proof.
  unfold capnp_build_flat. case_cond; [constructor|].
  apply Forall_app_2; [by repeat (apply Forall_cons; split; [done|])|]. apply Forall_app_2.
  - assert (forall x, is_byte (Z.land x 0xFF)) as Hb.
    { intros x. change 0xFF with (Z.ones 8). rewrite Z.land_ones by lia. pose proof (Z.mod_pos_bound x (2 ^ 8)). unfold is_byte. lia. }
    repeat (apply Forall_cons; split; [apply Hb|]). constructor.
  - apply Forall_app_2; [apply word_bytes_byte|apply bytes_of_words_byte].
Qed.

(** The kernel's responses are bytes. *)
Definition answers_bytes {S} (inv : byte_invoke S) : Prop :=
  forall t m msg cap s, Forall is_byte (snd (snd (inv t m msg cap s))).

(** The world with the machine in it. *)
Record machine_world (W : Type) := MachineWorld {
  mw_outer : W; mw_tables : words; mw_regs : wrapper; mw_ram : memory }.
Arguments MachineWorld {W}. Arguments mw_outer {W}. Arguments mw_tables {W}. Arguments mw_regs {W}. Arguments mw_ram {W}.

Definition set_outer {W} (w0 : W) (w : machine_world W) : machine_world W :=
  MachineWorld w0 (mw_tables w) (mw_regs w) (mw_ram w).

(** Either architecture, with the addresses of its tables and entry points and
    its markers. *)
Inductive arch :=
| Aarch64 (g_user_l2 g_user_l3 callback : Z)
| X86_64 (g_user_pt int80 int3 stack_top fault_hook : Z).

Section probe.
Context `{KernelLaws K} {W : Type}.
(** The objects of other files; how the kernel reads a message's words. *)
Context (outer : objref -> Z -> list Z -> Z -> W -> W * option (list Z)) (decode : list Z -> option (list Z)).

Local Abbreviation world_t := (machine_world W).
Local Abbreviation stage_t := (stage K world_t).
Implicit Types (st : stage_t).

Definition machine_outer (o : objref) (m : Z) (ws : list Z) (cap : Z) (w : world_t) : world_t * option (list Z) :=
  let '(w0, a) := outer o m ws cap (mw_outer w) in (set_outer w0 w, a).

(** [kernel_invoke] on messages and responses in memory. *)
Definition by_bytes (inv : stage_invoke_fn K world_t) : byte_invoke stage_t := fun target method_id msg cap st =>
  match inv target method_id (decode msg) cap st with
  | Some (st, (ok, a)) => (st, (ok, match a with Some ws => capnp_build_flat cap ws | None => [] end))
  | None => (st, (false, []))
  end.

Lemma by_bytes_bytes inv : answers_bytes (by_bytes inv).
Proof.
  intros t m msg cap st. unfold by_bytes. destruct (inv _ _ _ _ _) as [[st' [ok [ws|]]]|]; cbn; [apply flat_bytes|constructor..].
Qed.

(** The probe of an architecture, given the kernel, the Gate and the value. *)
Definition probe_fn : Type := byte_invoke stage_t -> Z -> Z -> guest_state stage_t -> guest_state stage_t * option Z.

Definition enter_probe st : guest_state stage_t :=
  {| tables := mw_tables (world st);
     guest := {| UserIpc.regs := mw_regs (world st); ram := mw_ram (world st); UserIpc.kern := st |} |}.

Definition leave_probe (x : guest_state stage_t) : stage_t :=
  let st := UserIpc.kern (guest x) in
  set_world (MachineWorld (mw_outer (world st)) (tables x) (UserIpc.regs (guest x)) (ram (guest x))) st.

Definition as_guest (probe : probe_fn) (inv : stage_invoke_fn K world_t) (gate value : Z) st
    : option (stage_t * (bool * Z)) :=
  let '(x, r) := probe (by_bytes inv) gate value (enter_probe st) in
  Some (leave_probe x, match r with Some forwarded => (true, forwarded) | None => (false, 0) end).

(** ** The two probes *)

(** What [g_boot] says, and the address of Admin's record. *)
Context (boot : GuestMap.securinit_boot_info) (g_admin_record : Z).
(** The probe's code, and a run of it on the processor. *)
Context (code : list Z)
  (run_user : byte_invoke stage_t -> Z -> Z -> Z -> Z -> Z -> Z -> guest_state stage_t -> guest_state stage_t * Z).

Definition arm_probe (g_user_l2 g_user_l3 callback : Z) : probe_fn := fun inv gate value x =>
  Arm.securinit_arm_isolation_probe inv g_user_l2 g_user_l3 callback code (run_user inv) boot g_admin_record gate value x.

Definition x86_probe (g_user_pt int80 int3 stack_top fault_hook : Z) : probe_fn := fun inv gate value x =>
  X86.securinit_x86_isolation_probe inv g_user_pt int80 int3 stack_top fault_hook code (run_user inv) boot g_admin_record
    gate value x.

Definition arch_probe (a : arch) : probe_fn :=
  match a with
  | Aarch64 l2 l3 callback => arm_probe l2 l3 callback
  | X86_64 pt int80 int3 stack_top fault_hook => x86_probe pt int80 int3 stack_top fault_hook
  end.

Definition arch_markers (a : arch) : markers :=
  match a with Aarch64 _ _ _ => el0_markers | X86_64 _ _ _ _ _ => ring3_markers end.

Definition arch_guest (a : arch) := as_guest (arch_probe a).

(** The bytes a probe sends to the router. *)
Definition arch_binding (a : arch) : list Z :=
  match a with
  | Aarch64 _ _ callback => capnp_build_flat 24 [callback]
  | X86_64 _ int80 int3 stack_top fault_hook => capnp_build_flat 48 [int80; int3; stack_top; fault_hook]
  end.

(** ** What the stage assumes of the rest *)

Context (report : Z -> W -> W) (seen : W -> list Z).

(** The exception router, if there is one, is an object of another file that
    reports nothing. *)
Definition router_ok (k : K) : Prop :=
  exception_router boot = 0 \/
  exists o m n, k_invoke k (exception_router boot) m n = Some o /\ (forall i, o = OOther i -> ~ (1 <= i <= 5)%nat) /\
    forall m ws cap w, seen (fst (outer o m ws cap w)) = seen w.

Definition machine_fit (k : K) (w : world_t) : Prop := router_ok k /\ bytes_mem (mw_ram w).
Definition machine_report (v : Z) (w : world_t) : world_t := set_outer (report v (mw_outer w)) w.
Definition machine_seen (w : world_t) : list Z := seen (mw_outer w).

Lemma router_create o k k' h : k_create o k = (k', h) -> router_ok k -> router_ok k'.
Proof.
  intros E [Hz|(ro & m & n & Hi & Hrest)]; [by left|right]. exists ro, m, n. split; [|done].
  destruct (k_create_others _ _ _ _ E) as [_ ->]; [done|]. destruct (decide (exception_router boot = 0)) as [|Hnz]; [by right|left].
  intros ->. apply (k_create_fresh _ _ _ _ E) in Hnz as (_ & Hf & _). apply Hf. by eapply k_invoke_issued.
Qed.

(** ** The probe is confined *)

Section confined.
Context (a : arch).
Hypothesis Hrun : forall inv p q r s t u x, answers_bytes inv -> bytes_mem (ram (guest x)) -> runs_guest inv x (fst (run_user inv p q r s t u x)).
Hypothesis Hcode : Forall is_byte code.
Hypothesis Hregion : 0 <= user_region_base boot < W64 - REGION_SIZE.
Hypothesis Hseen : forall v w, seen (report v w) = seen w ++ [v].

Local Abbreviation stage_calls := (stage_invoke (machine_outer) (arch_guest a) (arch_markers a)).
Local Abbreviation may_step := (probe_step (machine_outer) (arch_guest a) (arch_markers a) machine_seen).
Local Abbreviation stage_ready := (ready (machine_outer) machine_report).

Lemma arch_probe_calls inv gate v x :
  answers_bytes inv -> bytes_mem (ram (guest x)) ->
  let '(x', _) := arch_probe a inv gate v x in
  bytes_mem (ram (guest x')) /\ rtc (probe_call inv boot gate (arch_binding a)) (UserIpc.kern (guest x)) (UserIpc.kern (guest x')).
Proof.
  intros Hb Hm. destruct a as [l2 l3 callback|pt int80 int3 stack_top fault_hook]; cbn [arch_probe arch_binding].
  - pose proof (Arm.arm_probe_restores inv l2 l3 callback code (run_user inv) boot g_admin_record gate v x Hb (fun p q r s t u x => Hrun inv p q r s t u x Hb) Hcode Hregion Hm) as Hp.
    unfold arm_probe. destruct (Arm.securinit_arm_isolation_probe _ _ _ _ _ _ _ _ _ _ _) as [x' r]. by destruct Hp as (_ & [? _] & ?).
  - pose proof (X86.x86_probe_restores inv pt int80 int3 stack_top fault_hook code (run_user inv) boot g_admin_record gate v x
      Hb (fun p q r s t u x => Hrun inv p q r s t u x Hb) Hcode Hregion Hm) as Hp.
    unfold x86_probe. destruct (X86.securinit_x86_isolation_probe _ _ _ _ _ _ _ _ _ _ _ _ _) as [x' r]. by destruct Hp as (_ & [? _] & ?).
Qed.

Lemma router_call m msg cap st :
  router_ok (kern st) -> rtc may_step st (fst (by_bytes (stage_calls 3) (exception_router boot) m msg cap st)).
Proof.
  intros Hr. unfold by_bytes. remember 2%nat as n eqn:Hn. clear Hn. cbn [stage_invoke].
  destruct (decode msg) as [ws|]; [|apply rtc_refl].
  destruct (k_invoke (kern st) (exception_router boot) m (length ws)) as [o|] eqn:Hk; [|apply rtc_refl].
  destruct Hr as [Hz|(o' & m' & n' & Hk' & Hf & Hq)]; [by rewrite Hz, k_null in Hk|].
  pose proof (k_functional _ _ _ _ _ _ _ _ Hk Hk') as ->.
  replace (match o' with OOther o0 => _ | _ => None end) with (@None (option (stage_t * option (list Z)))).
  2: { destruct o'; try done. symmetry. apply foreign_handler. by apply Hf. }
  unfold machine_outer. specialize (Hq m ws cap (mw_outer (world st))). destruct (outer _ _ _ _ _) as [w0 ans].
  apply rtc_once. by apply ps_world.
Qed.

(** The wrapper's calls of the Gate go no deeper than [by_bytes] follows. *)
Lemma gate_call_steps request cap st :
  stage_ready st -> rtc may_step st (fst (by_bytes (stage_calls 3) (g_gate st) GATE_METHOD_INVOKE request cap st)).
Proof.
  intros Hr. unfold by_bytes. destruct (decode request) as [ws|]; [|apply rtc_refl].
  destruct (invoke_gate_any (machine_outer) (arch_guest a) (arch_markers a) machine_report 0 ws cap st Hr) as (st' & [ok ans] & E & _).
  rewrite E. apply rtc_once. by eapply ps_gate.
Qed.

Lemma probe_calls_steps binding st st' :
  stage_ready st -> router_ok (kern st) ->
  rtc (probe_call (by_bytes (stage_calls 3)) boot (g_gate st) binding) st st' -> rtc may_step st st'.
Proof.
  intros Hr Hro Hs. remember (g_gate st) as gate eqn:Hg. revert Hr Hro Hg. induction Hs as [st|st st1 st2 Hc _ IH]; intros Hr Hro Hg; [apply rtc_refl|].
  assert (rtc may_step st st1) as H1.
  { destruct Hc as [(req & cap & _ & _ & ->)| ->]; [subst gate; by apply gate_call_steps|by apply router_call]. }
  pose proof (probe_steps_probed (machine_outer) (arch_guest a) (arch_markers a) machine_report machine_seen
    ltac:(intros v w; apply Hseen) st st1 Hr H1) as Hp.
  etrans; [exact H1|]. apply IH; [apply Hp|by rewrite (pb_kern _ _ _ _ _ Hp)|by rewrite (pb_gate _ _ _ _ _ Hp)].
Qed.

Lemma arch_guest_confined :
  confined_guest (machine_outer) (arch_guest a) (arch_markers a) machine_report machine_seen machine_fit.
Proof.
  intros v st Hr [Hro Hm]. unfold arch_guest at 1, as_guest.
  pose proof (arch_probe_calls (by_bytes (stage_calls 3)) (g_gate st) v (enter_probe st) (by_bytes_bytes _) Hm) as Hp.
  destruct (arch_probe a _ _ _ _) as [x r]. destruct Hp as [Hm' Hs]. apply (probe_calls_steps (arch_binding a)) in Hs; [|done..].
  exists (leave_probe x), (match r with Some _ => true | None => false end), (default 0 r).
  split; [by destruct r|]. split; [etrans; [exact Hs|]; apply rtc_once; by apply ps_world|]. split; [|exact Hm'].
  pose proof (probe_steps_probed (machine_outer) (arch_guest a) (arch_markers a) machine_report machine_seen
    ltac:(intros v' w; apply Hseen) _ _ Hr Hs) as Hp. cbn. by rewrite (pb_kern _ _ _ _ _ Hp).
Qed.
End confined.

(** What the loader says of the stage, the same [g_boot] the probe reads. *)
Definition boot_info (sink : Z) : Securinit.securinit_boot_info :=
  {| i_status_sink := sink; i_exception_router := exception_router boot |}.

(** C30: The stage ends, with the probe of either architecture in it: whatever
    the guest does on the processor within its region and its exceptions
    (valid or not, with any calls of its Gate), [securinit_main] returns.
    Without a router it returns its Gate, the closed Gate having forwarded
    nothing and the open one the boot marker.  With a router it returns the
    Gate exactly when the probe was valid and forwarded 1 while the Gate was
    open, and was valid and forwarded 0 after Admin closed it; otherwise it
    returns 0.  While the Gate is closed the sink receives nothing of the
    guest, and of each valid run it receives the denial marker.  Assumes a
    factory with room for five objects, a sink that keeps its reports in order
    and a router that reports nothing. *)
Theorem securinit_main_spec (a : arch) (sink : Z) st :
  (forall inv p q r s t u x, answers_bytes inv -> bytes_mem (ram (guest x)) -> runs_guest inv x (fst (run_user inv p q r s t u x))) ->
  Forall is_byte code -> 0 <= user_region_base boot < W64 - REGION_SIZE ->
  (forall v w, seen (report v w) = seen w ++ [v]) -> router_ok (kern st) -> bytes_mem (mw_ram (world st)) ->
  ample 5 (kern st) -> sink_ok machine_outer machine_report (kern st) sink ->
  exists st' r, securinit_main machine_outer (arch_guest a) (arch_markers a) 4 (boot_info sink) st = Some (st', r) /\
    stage_outcome machine_outer (arch_guest a) (arch_markers a) machine_report machine_seen (boot_info sink) st st' r.
Proof.
  intros Hrun Hcode Hregion Hseen Hro Hm Ha Hs.
  destruct (securinit_main_ends machine_outer (arch_guest a) (arch_markers a) machine_report machine_seen machine_fit)
    with (info := boot_info sink) (st := st) as (st' & r & E & _ & Ho); [..|by exists st', r].
  - intros v w. apply Hseen.
  - intros o k k' h w E [Hr Hw]. split; [by eapply router_create|done].
  - intros v k w [Hr Hw]. by split.
  - by apply arch_guest_confined.
  - by split.
  - done.
  - done.
Qed.
End probe.

(** ** The probe of arm_wrapper_aarch64.S *)

Section arm_program.
Context {S : Type} (inv : byte_invoke S).
Implicit Types (x : UserIpc.machine S).

(** A synchronous exception of the guest, with [x0] as given; the machine and
    [x0] after. *)
Definition arm_exception (pc esr far : Z) (x0 : Z) x : UserIpc.machine S * Z :=
  let '(x, frame, _) := wrapper_el0_sync inv (<[0%nat := u64 x0]> (<[31%nat := u64 pc]> (replicate 33 0))) esr far x in
  (x, frame !!? 0%nat).

(** A store of the guest, which the tables let through in its region only. *)
Definition guest_store (a v : Z) x : UserIpc.machine S :=
  let g := UserIpc.regs x in
  if (g_user_base g <=? a) && (a + 8 <=? g_user_base g + g_user_size g)
  then {| UserIpc.regs := g; ram := write_bytes a (word_bytes v) (ram x); UserIpc.kern := UserIpc.kern x |} else x.

Definition SVC : Z := Z.shiftl 0x15 26.
Definition BRK : Z := Z.shiftl 0x3c 26.
Definition READ_FAULT : Z := Z.lor (Z.shiftl 0x24 26) 13.

(** [securinit_arm_run_user] up to its [eret], then the probe's code: the
    forbidden load, three calls whose results it stores, and [brk]. *)
Definition securinit_arm_run_user (resume daif entry user_stack forbidden result_words rejected_call granted_call : Z)
    (y : guest_state S) : guest_state S * Z :=
  let x := resume_at resume daif (guest y) in
  let '(x, _) := arm_exception entry READ_FAULT forbidden 0 x in
  let '(x, x0) := arm_exception (entry + 12) SVC 0 rejected_call x in
  let x := guest_store result_words x0 x in
  let '(x, x0) := arm_exception (entry + 24) SVC 0 (rejected_call + 0x40) x in
  let x := guest_store (result_words + 8) x0 x in
  let '(x, x0) := arm_exception (entry + 36) SVC 0 granted_call x in
  let x := guest_store (result_words + 16) x0 x in
  let '(x, x0) := arm_exception (entry + 40) BRK 0 x0 x in
  (set_guest x y, x0).

Lemma exception_steps pc esr far (x0 : Z) x : rtc (guest_step inv) x (fst (arm_exception pc esr far x0 x)).
Proof.
  unfold arm_exception. destruct (wrapper_el0_sync _ _ _ _ _) as [[x' frame] r] eqn:E.
  apply rtc_once. eapply guest_traps_arm; [|exact E].
  apply Forall_insert; [apply Forall_insert; [by apply Forall_replicate|]|]; apply u64_range.
Qed.

Lemma store_steps a v x : bytes_mem (ram x) -> rtc (guest_step inv) x (guest_store a v x).
Proof.
  intros Hm. unfold guest_store. case_cond; [|apply rtc_refl]. apply rtc_once. apply guest_writes.
  - apply write_bytes_bytes; [apply word_bytes_byte|done].
  - intros b Hb. apply (write_bytes_outside (g_user_base (UserIpc.regs x)) (g_user_size (UserIpc.regs x))); [done| |done].
    rewrite length_word_bytes. lia.
Qed.

Lemma exception_bytes pc esr far (x0 : Z) x :
  answers_bytes inv -> bytes_mem (ram x) -> bytes_mem (ram (fst (arm_exception pc esr far x0 x))).
Proof.
  intros Hb Hm. unfold arm_exception, wrapper_el0_sync. repeat case_cond; try exact Hm.
  all: repeat match goal with H : context [guest_call] |- _ => unfold guest_call in H end.
  all: repeat case_match; simplify_eq; try exact Hm; cbn [fst ram]; by eapply dispatch_bytes.
Qed.

Lemma store_bytes a v x : bytes_mem (ram x) -> bytes_mem (ram (guest_store a v x)).
Proof. intros Hm. unfold guest_store. case_cond; [|done]. by apply write_bytes_bytes; [apply word_bytes_byte|]. Qed.

(** Pass the next exception of the program, or its next store. *)
Ltac pass_exception Hb :=
  match goal with
  | Hm : bytes_mem (ram ?x) |- context [arm_exception ?pc ?esr ?far ?x0 ?x] =>
      pose proof (exception_steps pc esr far x0 x);
      apply (exception_bytes pc esr far x0 x Hb) in Hm;
      destruct (arm_exception pc esr far x0 x); cbn [fst] in *
  end.
Ltac pass_store :=
  match goal with
  | Hm : bytes_mem (ram ?x) |- context [guest_store ?a ?v ?x] =>
      pose proof (store_steps a v x Hm); apply (store_bytes a v x) in Hm;
      generalize dependent (guest_store a v x); intros
  end.

Lemma arm_program_runs resume daif entry user_stack forbidden result_words rejected granted y :
  answers_bytes inv -> bytes_mem (ram (guest y)) ->
  runs_guest inv y (fst (securinit_arm_run_user resume daif entry user_stack forbidden result_words rejected granted y)).
Proof.
  intros Hb Hm. unfold securinit_arm_run_user.
  assert (bytes_mem (ram (resume_at resume daif (guest y)))) as Hm0 by exact Hm. clear Hm.
  remember (resume_at resume daif (guest y)) as x eqn:Hx.
  pass_exception Hb. do 3 (pass_exception Hb; pass_store). pass_exception Hb.
  split; [done|]. exists resume, daif. rewrite <- Hx. cbn [set_guest guest fst].
  repeat (etrans; [eassumption|]). apply rtc_refl.
Qed.
End arm_program.

(** ** A stage that comes up *)

(** A sink that keeps its reports, and a router that answers 1: an object of
    another file whose first method takes one word. *)
Definition desk_outer (o : objref) (m : Z) (ws : list Z) (cap : Z) (w : list Z) : list Z * option (list Z) :=
  match o with OOther 7 => (w ++ ws, None) | OResource 0 => (w, Some [1]) | _ => (w, None) end.

(** The words behind a message's header. *)
Definition desk_decode (msg : list Z) : option (list Z) :=
  capnp_read_flat_exact msg (Z.of_nat (length msg)) ((length msg - 16) / 8).

(** The sink is handle 1, the router handle 2. *)
Definition desk_kernel : counter_kernel :=
  fst (k_create (OResource 0) (fst (k_create (OOther STATUS_SINK) {| ck_objects := ∅; ck_next := 1 |}))).

Definition desk_boot : GuestMap.securinit_boot_info :=
  {| exception_router := 2; exception_router_bind_method := 0; user_region_base := 0x44000000; user_region_size := 0x200000;
     ttbr0_root_phys := 0x1000; x86_pml4_phys := 0 |}.

(** Over a root whose entry for RAM is [l1]. *)
Definition desk_stage (l1 : Z) : stage counter_kernel (machine_world (list Z)) :=
  mk_stage desk_kernel
    (MachineWorld [] (store (slot_addr 0x1000 1) l1 (fun _ => 0)) (new_wrapper 0 0 0 0 0 0) (fun _ => 0)) 0 0 0 0 0 0 0 0 0.

Definition desk_run : byte_invoke (stage counter_kernel (machine_world (list Z))) -> _ :=
  fun inv => securinit_arm_run_user inv 0x9000 0.

Definition desk_main (l1 : Z) :=
  securinit_main (machine_outer desk_outer)
    (arch_guest desk_decode desk_boot 0x40001000 (replicate 44 0) desk_run (Aarch64 0x5000 0x6000 0x7000))
    (arch_markers (Aarch64 0x5000 0x6000 0x7000)) 4 (boot_info desk_boot 1) (desk_stage l1).

(** With the RAM table in place the stage hands out its Gate (handle 4), and the sink has the four reports; without it
    the probe is refused, and the stage returns 0. *)
Lemma desk_comes_up :
  ((fun r => (snd r, mw_outer (world (fst r)))) <$> desk_main 0x2003) =
    Some (4, [SECURINIT_BOOT_MARKER; IPC_MARKER el0_markers; DENIED_MARKER el0_markers; DENIED_MARKER el0_markers]) /\
  ((fun r => (snd r, mw_outer (world (fst r)))) <$> desk_main 0) = Some (0, [SECURINIT_BOOT_MARKER]).
Proof. vm_compute. split; reflexivity. Qed.

Lemma securinit_main_spec_witness :
  (snd <$> desk_main 0x2003) = Some 4 /\
  exists st' r, desk_main 0x2003 = Some (st', r) /\
    stage_outcome (machine_outer desk_outer)
      (arch_guest desk_decode desk_boot 0x40001000 (replicate 44 0) desk_run (Aarch64 0x5000 0x6000 0x7000))
      (arch_markers (Aarch64 0x5000 0x6000 0x7000)) (machine_report log_report) (machine_seen id)
      (boot_info desk_boot 1) (desk_stage 0x2003) st' r.
Proof.
  split; [vm_compute; reflexivity|].
  apply (securinit_main_spec desk_outer desk_decode desk_boot 0x40001000 (replicate 44 0) desk_run log_report id
    (Aarch64 0x5000 0x6000 0x7000) 1 (desk_stage 0x2003)).
  - intros inv p q r s t u x Hb Hm. by apply arm_program_runs.
  - by apply Forall_replicate.
  - split; [discriminate|reflexivity].
  - reflexivity.
  - right. exists (OResource 0), 0, 1%nat. split; [vm_compute; reflexivity|]. split; [done|]. intros m ws cap w. reflexivity.
  - intros b. split; [discriminate|reflexivity].
  - apply counter_ample; vm_compute; reflexivity.
  - exists (OOther STATUS_SINK). split; [vm_compute; reflexivity|]. split; [|done]. intros i [= <-]. unfold STATUS_SINK. lia.
Defined.
