(* ===== verification/BootAlloc.v ===== *)
(** * The boot allocator and per-core state (include/boot_protocol.h,
    include/boot_allocator_aarch64.S, coreinit/core_state.c)

    A loader leaves one [struct boot_allocator] in memory whose code
    addresses point at a copy of the two routines of
    boot_allocator_aarch64.S.  Both are modelled on the bytes of memory, the
    object included; so is the path from the boot information to the object,
    and the allocation of a core's [core_state]. *)

From Stdlib Require Import Sorting.Sorted.
From S2P Require Import Prelude Bytes Capnp MemMgr.

(** ** Words of memory *)

Definition ld64 (m : memory) (a : Z) : Z := le_of (bytes m a 8).
Definition st64 (a v : Z) (m : memory) : memory := place a (le_bytes 8 v) m.

Lemma ld64_st64 a v m : 0 <= v < W64 -> ld64 (st64 a v m) a = v.
Proof.
  intros Hv. unfold ld64, st64. rewrite <- (length_le_bytes 8 v) at 2. rewrite (holds_bytes _ _ _ (place_holds a (le_bytes 8 v) m)). by apply le_of_le_bytes.
Qed.

Lemma ld64_agree m m' a : (forall x, a <= x < a + 8 -> m' x = m x) -> ld64 m' a = ld64 m a.
Proof. intros H. unfold ld64. by rewrite (bytes_agree m m' a 8) by (intros x Hx; apply H; lia). Qed.

Lemma st64_other a v m x : ~ a <= x < a + 8 -> st64 a v m x = m x.
Proof. intros Hx. apply place_other. rewrite length_le_bytes. lia. Qed.

Lemma ld64_st64_other a v m b : b + 8 <= a \/ a + 8 <= b -> ld64 (st64 a v m) b = ld64 m b.
Proof. intros Hd. apply ld64_agree. intros x Hx. apply st64_other. lia. Qed.

(** ** The two routines *)

Definition B_finalized (self : Z) : Z := self + 48.
Definition B_used (self : Z) : Z := self + 40.
Definition B_region_len (self : Z) : Z := self + 32.
Definition B_region_base (self : Z) : Z := self + 24.
Definition B_alloc (self : Z) : Z := self + 8.

(** Memory and the block, 0 when there is none. *)
Definition otos_bump_alloc (self size align : Z) (m : memory) : memory * Z :=
  if negb (ld64 m (B_finalized self) =? 0) then (m, 0)
  else
    let align := if align =? 0 then 16 else align in
    let low := u64 (align - 1) in
    let aligned_used := Z.ldiff (u64 (ld64 m (B_used self) + low)) low in
    let new_used := u64 (aligned_used + size) in
    if ld64 m (B_region_len self) <? new_used then (m, 0)
    else
      let m' := st64 (B_used self) new_used m in
      (m', u64 (ld64 m' (B_region_base self) + aligned_used)).

Definition otos_bump_finalize (self : Z) (m : memory) : memory :=
  let m := st64 (B_region_len self) (ld64 m (B_used self)) m in
  st64 (B_finalized self) 1 m.

(** ** Finding the object; the state of a core *)

(** The fields of [struct init_boot_info]; a capability is its handle, and
    [caps] has the one the sources use. *)
Record init_boot_info := {
  caps_factory : Z; kernel_invoke_addr : Z; kernel_load_base : Z; kernel_boot_ap_addr : Z; pml4_phys : Z; init_image_addr : Z; init_image_len : Z;
  kernel_image_addr : Z; kernel_image_len : Z; bsp_kernel_invoke_addr : Z; mutex_manager_handle : Z; memory_manager_handle : Z;
  hardware_mutex_id : Z; lapic_calibration_count : Z; cluster_scheduler_handle : Z; serial_resource_handle : Z; early_rsdp_phys : Z;
  fdt_blob_phys : Z; ram_size : Z; init_description_phys : Z; init_entry_addr : Z; ap_core_state_phys : Z }.

(** The address of the object, 0 for NULL; [capnp_read_flat] skips the 16
    bytes in front of a message's data. *)
Definition boot_allocator_for (info : init_boot_info) (m : memory) : Z :=
  if init_description_phys info =? 0 then 0
  else
    let description := init_description_phys info + 16 in
    if negb (ld64 m description =? INIT_DESCRIPTION_MAGIC) || (ld64 m (description + 8) =? 0) then 0
    else
      let allocator := ld64 m (description + 8) + 16 in
      if negb (ld64 m allocator =? BOOT_ALLOCATOR_MAGIC) || (ld64 m (B_alloc allocator) =? 0) then 0 else allocator.

Definition zeros (n : Z) : list Z := replicate (Z.to_nat n) 0.

(** The size and alignment of [struct core_state] are the compiler's. *)
Definition core_state_alloc_ap (size align : Z) (info : init_boot_info) (m : memory) : memory * Z :=
  if negb (ap_core_state_phys info =? 0) then (m, ap_core_state_phys info)
  else
    let allocator := boot_allocator_for info m in
    if allocator =? 0 then (m, 0)
    else
      let '(m, cs) := otos_bump_alloc allocator size align m in
      if cs =? 0 then (m, 0) else (place cs (zeros size) m, cs).

(** ** What an allocator promises *)

(** A live object over the region [base, base + len), of which the first [used] bytes are taken. *)
Record allocator_at (m : memory) (self base len used : Z) : Prop := {
  aa_magic : ld64 m self = BOOT_ALLOCATOR_MAGIC /\ ld64 m (B_alloc self) <> 0;
  aa_base : ld64 m (B_region_base self) = base;
  aa_len : ld64 m (B_region_len self) = len;
  aa_used : ld64 m (B_used self) = used;
  aa_live : ld64 m (B_finalized self) = 0;
  aa_range : 0 < base /\ 0 <= used <= len /\ base + len < W64 }.

Lemma allocator_agree m m' self base len used : (forall x, self <= x < self + 56 -> m' x = m x) -> allocator_at m self base len used ->
  allocator_at m' self base len used.
Proof.
  intros E [[H1 H1'] H2 H3 H4 H5 H6]. unfold B_alloc, B_region_base, B_region_len, B_used, B_finalized in *.
  split; try exact H6; unfold B_alloc, B_region_base, B_region_len, B_used, B_finalized; rewrite ?(ld64_agree m m') by (intros x Hx; apply E; lia); done.
Qed.

(** The next multiple of a power of two. *)
Definition align_up (x k : Z) : Z := (x + 2 ^ k - 1) / 2 ^ k * 2 ^ k.

Lemma align_up_bounds x k : 0 <= k -> x <= align_up x k < x + 2 ^ k.
Proof.
  intros Hk. unfold align_up. pose proof (Z.pow_pos_nonneg 2 k ltac:(lia) Hk). pose proof (Z.div_mod (x + 2 ^ k - 1) (2 ^ k) ltac:(lia)).
  pose proof (Z.mod_pos_bound (x + 2 ^ k - 1) (2 ^ k) ltac:(lia)). lia.
Qed.

Lemma align_up_mod x k : 0 <= k -> align_up x k mod 2 ^ k = 0.
Proof. intros Hk. unfold align_up. apply Z.mod_mul. pose proof (Z.pow_pos_nonneg 2 k ltac:(lia) Hk). lia. Qed.

(** A request the compiled code makes: a power of two, nothing that wraps. *)
Definition request_fits (len size k : Z) : Prop := 0 <= size /\ 0 <= k < 64 /\ len + size + 2 ^ k < W64.

Lemma bump_alloc_eq m self base len used size k : allocator_at m self base len used -> request_fits len size k ->
  otos_bump_alloc self size (2 ^ k) m =
  if len <? align_up used k + size then (m, 0) else (st64 (B_used self) (align_up used k + size) m, base + align_up used k).
Proof.
  intros [_ Hb Hl Hu Hf Hr] (H1 & H2 & H3). pose proof (Z.pow_pos_nonneg 2 k ltac:(lia) ltac:(lia)) as Hp. pose proof (align_up_bounds used k ltac:(lia)) as Ha.
  unfold otos_bump_alloc. rewrite Hf, Hl, Hu. cbn [Z.eqb negb]. rewrite (proj2 (Z.eqb_neq (2 ^ k) 0)) by lia.
  rewrite (u64_small (2 ^ k - 1)), (u64_small (used + (2 ^ k - 1))) by (unfold is_u64; lia).
  assert (Z.ldiff (used + (2 ^ k - 1)) (2 ^ k - 1) = align_up used k) as E.
  { replace (2 ^ k - 1) with (Z.ones k) at 2 by (rewrite Z.ones_equiv; lia). rewrite Z.ldiff_ones_r, Z.shiftl_mul_pow2, Z.shiftr_div_pow2 by lia.
    unfold align_up. by rewrite Z.add_sub_assoc. }
  rewrite E, (u64_small (align_up used k + size)) by (unfold is_u64; lia). destruct (Z.ltb_spec len (align_up used k + size)); [done|].
  rewrite ld64_st64_other by (unfold B_region_base, B_used; lia). rewrite Hb, u64_small by (unfold is_u64; lia). done.
Qed.

Lemma bump_alloc_keeps m self base len used size k : allocator_at m self base len used -> request_fits len size k ->
  let '(m', p) := otos_bump_alloc self size (2 ^ k) m in
  (exists used', used <= used' <= used + 2 ^ k + size /\ allocator_at m' self base len used' /\
     (p = 0 /\ len < used + 2 ^ k + size \/ base + used <= p /\ p + size = base + used' /\ (p - base) mod 2 ^ k = 0)) /\
  (forall x, ~ self <= x < self + 56 -> m' x = m x).
Proof.
  intros Ha Hq. rewrite (bump_alloc_eq m self base len used size k Ha Hq). pose proof Hq as (H1 & H2 & H3). pose proof (aa_range _ _ _ _ _ Ha) as Hr.
  pose proof (align_up_bounds used k ltac:(lia)) as Hb. destruct (Z.ltb_spec len (align_up used k + size)) as [|Hfit].
  - split; [|done]. exists used. split; [lia|]. split; [done|]. left. split; [done|lia].
  - split.
    + exists (align_up used k + size). split; [lia|]. split.
      * destruct Ha as [[M1 M2] A2 A3 A4 A5 A6]. split; unfold B_alloc, B_region_base, B_region_len, B_used, B_finalized in *;
          rewrite ?ld64_st64_other by lia; first [done|by split|apply ld64_st64; lia|lia].
      * right. split; [lia|]. split; [lia|]. replace (base + align_up used k - base) with (align_up used k) by lia. apply align_up_mod. lia.
    + intros x Hx. apply st64_other. unfold B_used. lia.
Qed.

(** Requests one after another: the blocks they got, with their sizes. *)
Fixpoint bump_run (self : Z) (reqs : list (Z * Z)) (m : memory) : memory * list (Z * Z) :=
  match reqs with
  | [] => (m, [])
  | (size, k) :: reqs =>
      let '(m, p) := otos_bump_alloc self size (2 ^ k) m in
      let '(m, blocks) := bump_run self reqs m in
      (m, (p, size) :: blocks)
  end.

Definition blocks_of (l : list (Z * Z)) : list (Z * Z) := filter (fun b => b.1 <> 0) l.

Lemma bump_run_spec self base len reqs : forall m used, allocator_at m self base len used -> Forall (fun r => request_fits len r.1 r.2) reqs ->
  let '(m', blocks) := bump_run self reqs m in
  (exists used', used <= used' /\ allocator_at m' self base len used' /\
     Forall (fun b => base + used <= b.1 /\ b.1 + b.2 <= base + used') (blocks_of blocks)) /\
  (forall x, ~ self <= x < self + 56 -> m' x = m x) /\
  Forall2 (fun r b => b.1 = 0 \/ b.2 = r.1 /\ (b.1 - base) mod 2 ^ r.2 = 0) reqs blocks /\
  StronglySorted (fun b c => b.1 + b.2 <= c.1) (blocks_of blocks).
Proof.
  induction reqs as [|[size k] reqs IH]; intros m used Ha Hq; cbn [bump_run].
  { split; [exists used; split; [lia|]; split; [done|apply Forall_nil_2]|]. split; [done|]. split; [apply Forall2_nil_2|constructor]. }
  apply Forall_cons in Hq as [Hq Hqs]. cbn [fst snd] in Hq. pose proof (bump_alloc_keeps m self base len used size k Ha Hq) as H.
  destruct (otos_bump_alloc self size (2 ^ k) m) as [m1 p]. destruct H as [(used1 & Hu & Ha1 & Hp) Hout].
  pose proof (IH m1 used1 Ha1 Hqs) as H. destruct (bump_run self reqs m1) as [m2 blocks]. destruct H as ((used2 & Hu2 & Ha2 & Hin) & Hout2 & Hal & Hs).
  assert (Forall (fun b => base + used <= b.1 /\ b.1 + b.2 <= base + used2) (blocks_of blocks)) as Hin'
    by (eapply Forall_impl; [exact Hin|]; cbn; intros; lia).
  unfold blocks_of. rewrite filter_cons. cbn [fst]. fold (blocks_of blocks).
  split; [exists used2; split; [lia|]; split; [done|]; case_decide; [|done]; apply Forall_cons; split; [cbn; destruct Hp as [[-> _]|]; [done|lia]|done]|].
  split; [intros x Hx; rewrite Hout2 by done; by apply Hout|].
  split; [apply Forall2_cons; split; [cbn; tauto|done]|].
  case_decide as Hp0; [|done]. destruct Hp as [[-> _]|Hp]; [done|]. constructor; [done|].
  eapply Forall_impl; [exact Hin|]. cbn. intros b Hb. lia.
Qed.

(** An object that has been closed. *)
Lemma finalized_ends self m : is_u64 (ld64 m (B_used self)) ->
  let closed := otos_bump_finalize self m in
  ld64 closed (B_region_len self) = ld64 m (B_used self) /\ forall size align, otos_bump_alloc self size align closed = (closed, 0).
Proof.
  intros Hu closed. unfold closed, otos_bump_finalize. split.
  - rewrite ld64_st64_other by (unfold B_region_len, B_finalized; lia). by apply ld64_st64.
  - intros size align. unfold otos_bump_alloc at 1. rewrite ld64_st64 by (unfold W64; lia). done.
Qed.

(** The boot allocator hands out memory once: whatever blocks are asked for, those it gives lie one after the other, in the
    order they were asked for, in what was free of its region, so that no two overlap, each aligned as asked within the region;
    no byte of memory changes but those of its own object; and once finalized it gives nothing more and its region ends where
    the used part does. *)
Theorem boot_blocks_disjoint self base len used reqs m :
  allocator_at m self base len used -> Forall (fun r => request_fits len r.1 r.2) reqs ->
  let '(m', blocks) := bump_run self reqs m in
  Forall (fun b => base + used <= b.1 /\ b.1 + b.2 <= base + len) (blocks_of blocks) /\
  StronglySorted (fun b c => b.1 + b.2 <= c.1) (blocks_of blocks) /\
  Forall2 (fun r b => b.1 = 0 \/ b.2 = r.1 /\ (b.1 - base) mod 2 ^ r.2 = 0) reqs blocks /\
  (forall x, ~ self <= x < self + 56 -> m' x = m x) /\
  let closed := otos_bump_finalize self m' in
  ld64 closed (B_region_len self) = ld64 m' (B_used self) /\ forall size align, otos_bump_alloc self size align closed = (closed, 0).
Proof.
  intros Ha Hq. pose proof (bump_run_spec self base len reqs m used Ha Hq) as H. destruct (bump_run self reqs m) as [m' blocks].
  destruct H as ((used' & Hu & Ha' & Hin) & Hout & Hal & Hs). pose proof (aa_range _ _ _ _ _ Ha') as Hr. split_and!; try done.
  - eapply Forall_impl; [exact Hin|]. cbn. intros. lia.
  - apply finalized_ends. rewrite (aa_used _ _ _ _ _ Ha'). unfold is_u64. lia.
Qed.

(** An allocator over 64 KiB with 0x100 bytes taken. *)
Definition alloc_demo : memory :=
  place 0x1010 (concat (map (le_bytes 8) [BOOT_ALLOCATOR_MAGIC; 0x1080; 0x10c0; 0x1000; 0x10000; 0x100; 0])) (fun _ => 0).

Lemma alloc_demo_at : allocator_at alloc_demo 0x1010 0x1000 0x10000 0x100.
Proof. split; [split; [reflexivity|vm_compute; discriminate]|reflexivity..|unfold W64; lia]. Qed.

Lemma boot_blocks_disjoint_witness :
  let '(m', blocks) := bump_run 0x1010 [(192, 3); (0x8000, 4); (0x9000, 4); (64, 4)] alloc_demo in
  blocks = [(0x1100, 192); (0x11c0, 0x8000); (0, 0x9000); (0x91c0, 64)] /\ otos_bump_alloc 0x1010 1 1 (otos_bump_finalize 0x1010 m') = (otos_bump_finalize 0x1010 m', 0).
Proof.
  assert (Forall (fun r => request_fits 0x10000 r.1 r.2) [(192, 3); (0x8000, 4); (0x9000, 4); (64, 4)]) as Hq.
  { repeat (apply Forall_cons; split; [split; [discriminate|split; [split; [discriminate|reflexivity]|reflexivity]]|]). apply Forall_nil_2. }
  pose proof (boot_blocks_disjoint 0x1010 0x1000 0x10000 0x100 [(192, 3); (0x8000, 4); (0x9000, 4); (64, 4)] alloc_demo alloc_demo_at Hq) as H.
  assert (snd (bump_run 0x1010 [(192, 3); (0x8000, 4); (0x9000, 4); (64, 4)] alloc_demo) = [(0x1100, 192); (0x11c0, 0x8000); (0, 0x9000); (0x91c0, 64)]) as E
    by (vm_compute; reflexivity).
  destruct (bump_run _ _ _) as [m' blocks]. cbn [snd] in E. destruct H as (_ & _ & _ & _ & _ & H). split; [exact E|apply H].
Defined.

(** The sum of the used part and the size wraps: a request of almost all of the address space is granted and gives back
    memory that is in use. *)
Theorem bump_alloc_wraps :
  let '(m', p) := otos_bump_alloc 0x1010 (W64 - 0x80) 16 alloc_demo in p = 0x1100 /\ ld64 m' (B_used 0x1010) = 0x80.
Proof. vm_compute. split; reflexivity. Qed.
