(* ===== verification/Smp.v ===== *)
(** * Starting the other cores (coreinit/smp_aarch64.c, smp_x86_64.c)

    On AArch64 firmware starts a core at an address ([psci_call]); on x86-64
    the local APIC does ([send_init_sipi_sipi]), through a trampoline in low
    memory.  Both files claim a region of memory for the core through the
    cluster scheduler, copy the kernel into it, write the discovery record
    that the new core reads, queue a job for it, and start it; on AArch64
    with a shared image the core gets a handoff object, a stack and its
    [core_state] from the boot allocator instead.

    A state is the scheduler's (behind the client of scheduler.c), the bytes
    of memory as this core sees them, which of these may not have reached
    RAM yet, where a core that starts without caches reads them, and the
    events so far.  Firmware and the APIC answer as functions of the events.
    [None]: a call through a NULL pointer, or a read outside of the device
    tree. *)

From S2P Require Import Prelude Bytes Capnp MemMgr Objects Cluster Client Fdt Acpi Topology BootAlloc.

(** ** The layout of a core's region (include/smp_layout.h) *)

Definition CORE_REGION_SIZE : Z := 0x400000.
Definition CORE_KERNEL_OFFSET : Z := 0.
Definition CORE_KERNEL_MAX_SIZE : Z := 0x100000.
Definition CORE_STACK_OFFSET : Z := 0x300000.
Definition CORE_STACK_SIZE : Z := 0x080000.
Definition CORE_DISCOVERY_OFFSET : Z := 0x390000.
Definition CORE_DISCOVERY_BSP_INVOKE_OFF : Z := 0x00.
Definition CORE_DISCOVERY_MUTEX_MGR_OFF : Z := 0x08.
Definition CORE_DISCOVERY_MEM_MGR_OFF : Z := 0x10.
Definition CORE_DISCOVERY_HW_MUTEX_ID_OFF : Z := 0x18.
Definition CORE_DISCOVERY_LAPIC_CALIBRATION_OFF : Z := 0x20.
Definition CORE_DISCOVERY_CLUSTER_SCHED_OFF : Z := 0x28.
Definition CORE_DISCOVERY_SERIAL_RESOURCE_OFF : Z := 0x30.
Definition CORE_DISCOVERY_RSDP_OFF : Z := 0x38.
Definition CORE_DISCOVERY_AP_CORE_STATE_OFF : Z := 0x40.

Definition JOB_TYPE_GREET_FROM_BSP : Z := 4.

(** What happens outside of this core's memory. *)
Inductive event :=
| Claimed (base size : Z)                                  (* the scheduler accepted a claim *)
| Psci (function_id arg0 arg1 arg2 : Z) (use_hvc : bool) (m : memory) (dirty : Z -> bool)
| Lapic (reg val : Z) (m : memory).                        (* a write to the local APIC *)

(** The handles the new cores are told. *)
Record services := { memory_manager : Z; mutex_manager : Z; hw_mutex_id : Z; lapic_count : Z; cluster_scheduler : Z; serial_resource : Z }.

(** The object a core of a shared image starts from. *)
Record init_ap_handoff := { stack_top : Z; init_entry : Z; boot_info : init_boot_info }.

Section state.
Context {W : Type}.

Record machine := { sched : W; mem : memory; dirty : Z -> bool; events : list event }.

Definition SM (A : Type) : Type := machine -> option (machine * A).

#[export] Instance SM_ret : MRet SM := fun A a s => Some (s, a).
#[export] Instance SM_bind : MBind SM := fun A B f m s => match m s with Some (s, a) => f a s | None => None end.

Definition lift {A} (f : M W A) : SM A := fun s =>
  match f (sched s) with
  | Some (w, a) => Some ({| sched := w; mem := mem s; dirty := dirty s; events := events s |}, a)
  | None => None
  end.

(** A write: the bytes that changed may not have reached RAM. *)
Definition write (f : memory -> memory) (s : machine) : machine :=
  {| sched := sched s; mem := f (mem s); dirty := fun x => dirty s x || negb (f (mem s) x =? mem s x); events := events s |}.
Definition modify (f : memory -> memory) : SM unit := fun s => Some (write f s, tt).
Definition modify_ret (f : memory -> memory * Z) : SM Z := fun s => Some (write (fun m => fst (f m)) s, snd (f (mem s))).
Definition stuck {A} : SM A := fun _ => None.
Definition get_mem : SM memory := fun s => Some (s, mem s).

Definition record (e : event) (s : machine) : machine :=
  {| sched := sched s; mem := mem s; dirty := dirty s; events := events s ++ [e] |}.

(** ** What both files do *)

Context (c : client W).

(** The event that a claim was accepted. *)
Definition note_claim (base size : Z) (ok : bool) : SM bool := fun s => Some (if ok then record (Claimed base size) s else s, ok).

Definition claim_region (base size kind : Z) : SM bool :=
  r ← lift (scheduler_request_allocation c base size kind RESOURCE_SYNC_TRANSFER);
  note_claim base size (fst r).

(** [for (b = 0; b < len; b++) dst[b] = src[b];] *)
Fixpoint copy_loop (n : nat) (dst src : Z) (m : memory) : memory :=
  match n with
  | O => m
  | S n => copy_loop n (dst + 1) (src + 1) (place dst [m src] m)
  end.

(** The [write_u64]s of a record, in order. *)
Definition write_fields (base : Z) (fields : list (Z * Z)) (m : memory) : memory :=
  fold_left (fun m f => st64 (base + fst f) (snd f) m) fields m.

Definition discovery_fields (info : init_boot_info) (sv : services) : list (Z * Z) :=
  [(CORE_DISCOVERY_BSP_INVOKE_OFF, kernel_invoke_addr info); (CORE_DISCOVERY_MUTEX_MGR_OFF, mutex_manager sv);
   (CORE_DISCOVERY_MEM_MGR_OFF, memory_manager sv); (CORE_DISCOVERY_HW_MUTEX_ID_OFF, hw_mutex_id sv);
   (CORE_DISCOVERY_LAPIC_CALIBRATION_OFF, lapic_count sv); (CORE_DISCOVERY_CLUSTER_SCHED_OFF, cluster_scheduler sv);
   (CORE_DISCOVERY_SERIAL_RESOURCE_OFF, serial_resource sv); (CORE_DISCOVERY_RSDP_OFF, early_rsdp_phys info)].

Definition image_fits (info : init_boot_info) : bool := negb ((kernel_image_len info =? 0) || (CORE_KERNEL_MAX_SIZE <? kernel_image_len info)).

Definition copy_image (info : init_boot_info) (region_base : Z) : SM unit :=
  modify (copy_loop (Z.to_nat (kernel_image_len info)) (region_base + CORE_KERNEL_OFFSET) (kernel_image_addr info)).

(** Where the copied [kernel_boot_ap] is. *)
Definition copied_entry (info : init_boot_info) (region_base : Z) : Z :=
  u64 (region_base + CORE_KERNEL_OFFSET + (kernel_boot_ap_addr info - kernel_load_base info)).

Definition greet (target my_id : Z) : SM unit :=
  _ ← lift (scheduler_submit_to_node c (scheduler_node_for_local_core c target) JOB_TYPE_GREET_FROM_BSP my_id 95 0 RESOURCE_KIND_NONE 0);
  mret tt.
End state.
Arguments machine : clear implicits.
Arguments SM : clear implicits.

(** ** AArch64 *)

Module Arm.
Definition PSCI_FUNC_VERSION : Z := 0x84000000.
Definition PSCI_FUNC_CPU_ON_64 : Z := 0xC4000003.
Definition SHARED_AP_STACK_SIZE : Z := 64 * 1024.

Definition P_psci : list Z := [SLASH; 112; 115; 99; 105].
Definition S_method : list Z := [109; 101; 116; 104; 111; 100].
Definition S_cpu_on : list Z := [99; 112; 117; 95; 111; 110].
Definition S_hvc : list Z := [104; 118; 99].
Definition S_smc : list Z := [115; 109; 99].

(** The bytes of a property against a word and its final NUL. *)
Fixpoint word_matches (blob : list Z) (s : Z) (word : list Z) : res bool :=
  match word with
  | [] => b ← rd8 blob s; Ret (b =? 0)
  | w :: word => b ← rd8 blob s; if b =? w then word_matches blob (s + 1) word else Ret false
  end.

Definition prop_is_string (blob : list Z) (s len : Z) (word : list Z) : res bool :=
  if len <? Z.of_nat (length word) + 1 then Ret false else word_matches blob s word.

(** [Some (use_hvc, cpu_on_fid)]. *)
Definition psci_parse (blob : list Z) : res (option (bool * Z)) :=
  node ← fdt_path_offset blob P_psci;
  if node =? FDT_ERR_NODE then Ret None
  else
    method ← fdt_getprop blob node S_method;
    match method with
    | None => Ret None
    | Some (p, len) =>
        hvc ← prop_is_string blob p len S_hvc;
        smc ← (if hvc : bool then Ret false else prop_is_string blob p len S_smc);
        if negb hvc && negb smc then Ret None
        else
          cpu_on ← fdt_getprop blob node S_cpu_on;
          match cpu_on with
          | None => Ret None
          | Some (p, len) => if len <? 4 then Ret None else fid ← rd_be32 blob p; Ret (Some (hvc, fid))
          end
    end.

(** What a core with its caches off cannot see any more: [dc cvac] for every
    line from the first. *)
Fixpoint clean_loop (n : nat) (line addr end_ : Z) (d : Z -> bool) : Z -> bool :=
  match n with
  | O => d
  | S n =>
      if addr <? end_ then clean_loop n line (u64 (addr + line)) end_ (fun x => if x / line =? addr / line then false else d x) else d
  end.

Definition clean_lines (ctr base size : Z) (d : Z -> bool) : Z -> bool :=
  let line_size := Z.shiftl 4 (Z.land (Z.shiftr ctr 16) 0xf) in
  let first := Z.ldiff base (line_size - 1) in
  clean_loop (Z.to_nat (size / line_size + 2)) line_size first (u64 (base + size)) d.

Section arm.
Context {W : Type} (c : client W).
(** CTR_EL0, MPIDR_EL1, and what firmware answers. *)
Context (ctr mpidr : Z) (firmware : list event -> Z).
(** The compiler's layout of two structures: sizes, alignments, and the bytes of the first. *)
Context (handoff_size handoff_align core_state_size core_state_align : Z) (handoff_bytes : init_ap_handoff -> list Z).
Context (info : init_boot_info) (sv : services).
(** [AARCH64_RAM_BASE] *)
Context (ram_base : Z).

Definition CORE_REGION_BASE : Z := ram_base + 0x02000000.

Definition topology_self_id : Z := Z.land mpidr 0xFF00FFFFFF.

Definition clean_to_poc (base size : Z) : SM W unit := fun s =>
  Some ({| sched := sched s; mem := mem s; dirty := clean_lines ctr base size (dirty s); events := events s |}, tt).

Definition psci_call (function_id arg0 arg1 arg2 : Z) (use_hvc : bool) : SM W Z := fun s =>
  let s := record (Psci function_id arg0 arg1 arg2 use_hvc (mem s) (dirty s)) s in
  Some (s, firmware (events s)).

(** The boot information of a core of a shared image. *)
Definition ap_boot_info (ap_state : Z) : init_boot_info :=
  {| caps_factory := caps_factory info; kernel_invoke_addr := kernel_invoke_addr info; kernel_load_base := kernel_load_base info;
     kernel_boot_ap_addr := kernel_boot_ap_addr info; pml4_phys := pml4_phys info; init_image_addr := 0; init_image_len := 0;
     kernel_image_addr := 0; kernel_image_len := 0; bsp_kernel_invoke_addr := kernel_invoke_addr info;
     mutex_manager_handle := mutex_manager sv; memory_manager_handle := memory_manager sv; hardware_mutex_id := hw_mutex_id sv;
     lapic_calibration_count := lapic_count sv; cluster_scheduler_handle := cluster_scheduler sv; serial_resource_handle := serial_resource sv;
     early_rsdp_phys := early_rsdp_phys info; fdt_blob_phys := fdt_blob_phys info; ram_size := ram_size info;
     init_description_phys := init_description_phys info; init_entry_addr := init_entry_addr info; ap_core_state_phys := ap_state |}.

Definition ap_handoff (stack ap_state : Z) : init_ap_handoff :=
  {| stack_top := u64 (stack + SHARED_AP_STACK_SIZE); init_entry := init_entry_addr info; boot_info := ap_boot_info ap_state |}.

(** One core of a shared image. *)
Definition start_shared (allocator cpu_on_fid : Z) (use_hvc : bool) (target : Z) : SM W unit :=
  handoff ← modify_ret (otos_bump_alloc allocator handoff_size handoff_align);
  stack ← modify_ret (otos_bump_alloc allocator SHARED_AP_STACK_SIZE 16);
  ap_state ← modify_ret (core_state_alloc_ap core_state_size core_state_align info);
  if (handoff =? 0) || (stack =? 0) || (ap_state =? 0) then mret tt
  else
    _ ← modify (place handoff (handoff_bytes (ap_handoff stack ap_state)));
    _ ← greet c target topology_self_id;
    _ ← clean_to_poc handoff handoff_size;
    _ ← clean_to_poc ap_state core_state_size;
    _ ← psci_call cpu_on_fid target (kernel_boot_ap_addr info) handoff use_hvc;
    mret tt.

(** The state of the new core: from the boot allocator, or else a slice of memory, zeroed. *)
Definition copied_core_state : SM W Z :=
  ap_state ← modify_ret (core_state_alloc_ap core_state_size core_state_align info);
  if negb (ap_state =? 0) then mret ap_state
  else
    r ← lift (scheduler_allocate_slice c core_state_size MEM_KIND_JOB_SLICE RESOURCE_SYNC_TRANSFER 0);
    let '(ok, _, base) := r in
    if ok : bool then _ ← modify (place base (zeros core_state_size)); mret base else mret 0.

(** One core with a copy of the image. *)
Definition start_copy (region_base cpu_on_fid : Z) (use_hvc : bool) (target : Z) : SM W unit :=
  claimed ← claim_region c region_base CORE_REGION_SIZE MEM_KIND_CORE_REGION;
  if negb claimed then mret tt
  else
    ap_state ← copied_core_state;
    if ap_state =? 0 then mret tt
    else if negb (image_fits info) then mret tt
    else
      _ ← copy_image info region_base;
      _ ← modify (write_fields (region_base + CORE_DISCOVERY_OFFSET) (discovery_fields info sv ++ [(CORE_DISCOVERY_AP_CORE_STATE_OFF, ap_state)]));
      _ ← greet c target topology_self_id;
      _ ← clean_to_poc (region_base + CORE_KERNEL_OFFSET) (kernel_image_len info);
      _ ← clean_to_poc (region_base + CORE_DISCOVERY_OFFSET) (CORE_DISCOVERY_AP_CORE_STATE_OFF + 8);
      _ ← clean_to_poc ap_state core_state_size;
      _ ← psci_call cpu_on_fid target (copied_entry info region_base) region_base use_hvc;
      mret tt.

(** The loop over the cores; [shared]: the allocator of a shared image. *)
Fixpoint start_cores (shared : option Z) (cpu_on_fid : Z) (use_hvc : bool) (cs : list topology_core_t) (region_index : Z) : SM W unit :=
  match cs with
  | [] => mret tt
  | core :: cs =>
      if negb (enabled core) || (target core =? topology_self_id) then start_cores shared cpu_on_fid use_hvc cs region_index
      else
        match shared with
        | Some allocator => _ ← start_shared allocator cpu_on_fid use_hvc (target core); start_cores shared cpu_on_fid use_hvc cs region_index
        | None =>
            _ ← start_copy (CORE_REGION_BASE + region_index * CORE_REGION_SIZE) cpu_on_fid use_hvc (target core);
            start_cores shared cpu_on_fid use_hvc cs (region_index + 1)
        end
  end.

(** The conduit and the function that starts a core, from the device tree, which is as long as it says, or from ACPI. *)
Definition psci_method (topo : topology_t) (m : memory) : res (option (bool * Z)) :=
  let '(_, _, _, dtb) := arch_opaque topo in
  if negb (dtb =? 0) then size ← rd_be32 (bytes m dtb 8) 4; psci_parse (bytes m dtb (Z.to_nat size))
  else
    match Acpi.Arm.topology_aarch64_psci_method m (early_rsdp_phys info) with
    | Some use_hvc => Ret (Some (use_hvc, PSCI_FUNC_CPU_ON_64))
    | None => Ret None
    end.

(** A version this file can use: not the error, and not before 0.2. *)
Definition version_usable (version : Z) : bool :=
  negb (version =? W64 - 1) && negb ((u32 (Z.shiftr version 16) =? 0) && (Z.land version 0xFFFF <? 2)).

Definition smp_bring_up_all (topo : topology_t) : SM W unit :=
  let shared_image := (kernel_image_addr info =? 0) && negb (kernel_boot_ap_addr info =? 0) in
  m ← get_mem;
  let shared_allocator := boot_allocator_for info m in
  if negb shared_image && (kernel_image_addr info =? 0) then mret tt
  else if shared_image && (shared_allocator =? 0) then mret tt
  else
    match psci_method topo m with
    | Ret (Some (use_hvc, cpu_on_fid)) =>
        version ← psci_call PSCI_FUNC_VERSION 0 0 0 use_hvc;
        if negb (version_usable version) then mret tt
        else start_cores (if shared_image then Some shared_allocator else None) cpu_on_fid use_hvc (cores topo) 0
    | Ret None => mret tt
    | _ => stuck
    end.
End arm.
End Arm.

(** ** x86-64 *)

Module X86.
Definition LAPIC_REG_ICR_LOW : Z := 0x300.
Definition LAPIC_REG_ICR_HIGH : Z := 0x310.
Definition ICR_DELIVERY_STATUS_PENDING : Z := 0x1000.
Definition AP_TRAMPOLINE_ADDR : Z := 0x8000.
Definition AP_PARAM_PML4_OFF : Z := 0x40.
Definition AP_PARAM_GDT64_PTR_OFF : Z := 0x48.
Definition AP_PARAM_ENTRY64_OFF : Z := 0x50.
Definition AP_PARAM_STACK_OFF : Z := 0x58.
Definition AP_PARAM_REGION_BASE_OFF : Z := 0x60.
Definition CORE_REGION_BASE : Z := 0x4000000.

Section x86.
Context {W : Type} (c : client W).
(** This core's APIC id, what the ICR reads as after the events and how often
    it is looked at, the trampoline's bytes, and the address of [g_ap_gdt_ptr]. *)
Context (my_apic_id : Z) (icr : list event -> nat -> Z) (looks : nat) (ap_trampoline_blob : list Z) (gdt_ptr : Z).
Context (info : init_boot_info) (sv : services).

(** Reads until no sending is pending. *)
Fixpoint wait_loop (n k : nat) (es : list event) : option unit :=
  match n with
  | O => None
  | S n => if Z.land (icr es k) ICR_DELIVERY_STATUS_PENDING =? 0 then Some tt else wait_loop n (S k) es
  end.
Definition lapic_wait_icr_idle : SM W unit := fun s => match wait_loop looks 0 (events s) with Some _ => Some (s, tt) | None => None end.

Definition lapic_write (reg val : Z) : SM W unit := fun s => Some (record (Lapic reg val (mem s)) s, tt).

(** One sending; the delays between them do nothing. *)
Definition send_ipi (apic_id low : Z) : SM W unit :=
  _ ← lapic_wait_icr_idle;
  _ ← lapic_write LAPIC_REG_ICR_HIGH (u32 (Z.shiftl apic_id 24));
  lapic_write LAPIC_REG_ICR_LOW low.

Definition send_init_sipi_sipi (apic_id : Z) : SM W unit :=
  let vector := Z.shiftr AP_TRAMPOLINE_ADDR 12 mod 256 in
  _ ← send_ipi apic_id 0x4500;
  _ ← send_ipi apic_id (Z.lor 0x4600 vector);
  send_ipi apic_id (Z.lor 0x4600 vector).

Definition trampoline_fields (region_base : Z) : list (Z * Z) :=
  [(AP_PARAM_PML4_OFF, pml4_phys info); (AP_PARAM_GDT64_PTR_OFF, gdt_ptr); (AP_PARAM_ENTRY64_OFF, copied_entry info region_base);
   (AP_PARAM_STACK_OFF, region_base + CORE_STACK_OFFSET + CORE_STACK_SIZE); (AP_PARAM_REGION_BASE_OFF, region_base)].

Definition start_core (region_base target : Z) : SM W unit :=
  let apic_id := target mod 256 in
  claimed ← claim_region c region_base CORE_REGION_SIZE MEM_KIND_CORE_REGION;
  if negb claimed then mret tt
  else if negb (image_fits info) then mret tt
  else
    _ ← copy_image info region_base;
    _ ← modify (write_fields (region_base + CORE_DISCOVERY_OFFSET) (discovery_fields info sv));
    _ ← modify (write_fields AP_TRAMPOLINE_ADDR (trampoline_fields region_base));
    _ ← greet c target my_apic_id;
    send_init_sipi_sipi apic_id.

Fixpoint start_cores_x86 (cs : list topology_core_t) (region_index : Z) : SM W unit :=
  match cs with
  | [] => mret tt
  | core :: cs =>
      if negb (enabled core) || (target core mod 256 =? my_apic_id) then start_cores_x86 cs region_index
      else
        _ ← start_core (CORE_REGION_BASE + region_index * CORE_REGION_SIZE) (target core);
        start_cores_x86 cs (region_index + 1)
  end.

Definition smp_bring_up_all_x86 (topo : topology_t) : SM W unit :=
  if kernel_image_addr info =? 0 then mret tt
  else
    _ ← modify (place AP_TRAMPOLINE_ADDR ap_trampoline_blob);
    start_cores_x86 (cores topo) 0.
End x86.
End X86.
