(* ===== verification/SmpSpec.v ===== *)
(** * What a started core finds

    What both files of Smp.v share, the firmware interface in a device tree,
    and on each path of smp_aarch64.c: which cores are started, what they are
    told, that what they will read is in place and in RAM when they start,
    and that nothing is written outside of claimed memory. *)

From Stdlib Require Import Sorting.Sorted.
From S2P Require Import Prelude Bytes Capnp MemMgr Objects Cluster Client Fdt FdtTree FdtSafe FdtRoundtrip Acpi Topology BootAlloc Smp.

(** ** Computations *)

Section monad.
Context {W : Type}.

Lemma bind_inv {A B} (f : SM W A) (g : A -> SM W B) s s' b : (x ← f; g x) s = Some (s', b) -> exists s1 a, f s = Some (s1, a) /\ g a s1 = Some (s', b).
Proof. unfold mbind, SM_bind. destruct (f s) as [[s1 a]|]; [|done]. intros E. by exists s1, a. Qed.

(** Nothing but the scheduler's state changed. *)
Definition quiet (s s' : machine W) : Prop := mem s' = mem s /\ dirty s' = dirty s /\ events s' = events s.

Lemma lift_quiet {A} (f : M W A) s s' a : lift f s = Some (s', a) -> quiet s s' /\ f (sched s) = Some (sched s', a).
Proof. unfold lift. destruct (f (sched s)) as [[w b]|]; [|done]. by intros [= <- <-]. Qed.

Lemma greet_quiet (c : client W) target me s s' u : greet c target me s = Some (s', u) -> quiet s s'.
Proof. intros E. apply bind_inv in E as (s1 & a & E & E'). injection E' as <- <-. by apply lift_quiet in E as [E _]. Qed.

Lemma claim_region_inv (c : client W) base size kind s s' ok : claim_region c base size kind s = Some (s', ok) ->
  mem s' = mem s /\ dirty s' = dirty s /\ events s' = events s ++ (if ok : bool then [Claimed base size] else []).
Proof.
  intros E. apply bind_inv in E as (s1 & a & E & E'). apply lift_quiet in E as [(Hm & Hd & He) _]. unfold note_claim in E'. injection E' as <- <-.
  destruct (fst a); cbn [record mem dirty events]; by rewrite ?Hm, ?Hd, ?He, ?app_nil_r.
Qed.
End monad.

Ltac total := intros; eexists _, _; reflexivity.

(** ** Copies and records in memory *)

(** Only bytes of [base, base + n) differ. *)
Definition only (base n : Z) (m m' : memory) : Prop := forall x, ~ base <= x < base + n -> m' x = m x.

Lemma only_refl base n m : only base n m m.
Proof. done. Qed.

Lemma only_trans base n m1 m2 m3 : only base n m1 m2 -> only base n m2 m3 -> only base n m1 m3.
Proof. intros H1 H2 x Hx. rewrite H2 by done. by apply H1. Qed.

Lemma only_wider base n base' n' m m' : base' <= base -> base + n <= base' + n' -> only base n m m' -> only base' n' m m'.
Proof. intros H1 H2 H x Hx. apply H. lia. Qed.

Lemma only_place p l m : only p (Z.of_nat (length l)) m (place p l m).
Proof. intros x Hx. apply place_other. lia. Qed.

Lemma only_st64 a v m : only a 8 m (st64 a v m).
Proof. intros x Hx. by apply st64_other. Qed.

Lemma copy_loop_spec n : forall dst src m, dst + Z.of_nat n <= src \/ src + Z.of_nat n <= dst ->
  (forall i, 0 <= i < Z.of_nat n -> copy_loop n dst src m (dst + i) = m (src + i)) /\ only dst (Z.of_nat n) m (copy_loop n dst src m).
Proof.
  induction n as [|n IH]; intros dst src m Hd; cbn [copy_loop]; [split; [lia|done]|].
  destruct (IH (dst + 1) (src + 1) (place dst [m src] m) ltac:(lia)) as [H1 H2]. split.
  - intros i Hi. destruct (Z.eq_dec i 0) as [->|].
    + rewrite H2 by lia. rewrite !Z.add_0_r. unfold place. cbn [length]. rewrite (proj2 (Z.leb_le _ _)), (proj2 (Z.ltb_lt _ _)) by lia. cbn [andb].
      by rewrite Z.sub_diag.
    + specialize (H1 (i - 1) ltac:(lia)). replace (dst + 1 + (i - 1)) with (dst + i) in H1 by lia. replace (src + 1 + (i - 1)) with (src + i) in H1 by lia.
      rewrite H1. apply place_other. cbn [length]. lia.
  - intros x Hx. rewrite H2 by lia. apply place_other. cbn [length]. lia.
Qed.

(** Fields one after another within [n] bytes. *)
Definition fields_within (n : Z) (fs : list (Z * Z)) : Prop :=
  StronglySorted (fun f g => fst f + 8 <= fst g) fs /\ Forall (fun f => 0 <= fst f /\ fst f + 8 <= n) fs.

Lemma write_fields_outside base n fs : forall m : memory, Forall (fun f : Z * Z => 0 <= fst f /\ fst f + 8 <= n) fs -> only base n m (write_fields base fs m).
Proof.
  unfold write_fields. induction fs as [|f fs IH]; intros m Hf; cbn [fold_left]; [done|]. apply Forall_cons in Hf as [H1 H2].
  eapply only_trans; [|by apply IH]. eapply (only_wider _ 8); [| |apply only_st64]; lia.
Qed.

Lemma write_fields_read base n fs : forall m, fields_within n fs -> Forall (fun f => is_u64 (snd f)) fs ->
  forall f, In f fs -> ld64 (write_fields base fs m) (base + fst f) = snd f.
Proof.
  induction fs as [|g fs IH]; intros m [Hs Hw] Hv f Hf; [done|]. inversion Hs as [|? ? Hs' Hg]; subst. apply Forall_cons in Hw as [W1 W2]. apply Forall_cons in Hv as [V1 V2].
  destruct Hf as [<-|Hf]; [|by apply (IH (st64 (base + fst g) (snd g) m))].
  change (write_fields base (g :: fs) m) with (write_fields base fs (st64 (base + fst g) (snd g) m)).
  assert (forall m', ld64 m' (base + fst g) = snd g -> ld64 (write_fields base fs m') (base + fst g) = snd g) as Hk; [|apply Hk; by apply ld64_st64].
  clear -Hg. unfold write_fields. induction Hg as [|h fs Hh _ IH]; intros m' Hm; cbn [fold_left]; [done|]. apply IH. rewrite ld64_st64_other by lia. done.
Qed.

(** A region filled with the image and a discovery record. *)
Lemma region_filled (r image_addr image_len : Z) fs (m m0 : memory) : 0 <= image_len <= CORE_KERNEL_MAX_SIZE ->
  r + image_len <= image_addr \/ image_addr + image_len <= r -> (forall i, 0 <= i < image_len -> m (image_addr + i) = m0 (image_addr + i)) ->
  fields_within 72 fs -> Forall (fun f => is_u64 (snd f)) fs ->
  let m' := write_fields (r + CORE_DISCOVERY_OFFSET) fs (copy_loop (Z.to_nat image_len) (r + CORE_KERNEL_OFFSET) image_addr m) in
  (forall i, 0 <= i < image_len -> m' (r + i) = m0 (image_addr + i)) /\
  (forall f, In f fs -> ld64 m' (r + CORE_DISCOVERY_OFFSET + fst f) = snd f) /\ only r CORE_REGION_SIZE m m'.
Proof.
  intros Hl Ha Him Hw Hu m'. unfold m', CORE_KERNEL_OFFSET. rewrite Z.add_0_r. clear m'.
  destruct (copy_loop_spec (Z.to_nat image_len) r image_addr m) as [H1 H2]; [by rewrite Z2Nat.id by lia|]. rewrite Z2Nat.id in H1, H2 by lia.
  set (m1 := copy_loop (Z.to_nat image_len) r image_addr m) in *. pose proof (write_fields_outside (r + CORE_DISCOVERY_OFFSET) 72 fs m1 (proj2 Hw)) as H3.
  unfold CORE_KERNEL_MAX_SIZE, CORE_REGION_SIZE, CORE_DISCOVERY_OFFSET in *. split_and!.
  - intros i Hi. rewrite H3 by lia. rewrite H1 by lia. by apply Him.
  - by apply (write_fields_read _ 72).
  - eapply only_trans; [eapply only_wider; [| |exact H2]; lia|eapply only_wider; [| |exact H3]; lia].
Qed.

(** What the handles and addresses of a record are. *)
Definition services_u64 (info : init_boot_info) (sv : services) : Prop :=
  is_u64 (kernel_invoke_addr info) /\ is_u64 (mutex_manager sv) /\ is_u64 (memory_manager sv) /\ is_u64 (hw_mutex_id sv) /\ is_u64 (lapic_count sv) /\
  is_u64 (cluster_scheduler sv) /\ is_u64 (serial_resource sv) /\ is_u64 (early_rsdp_phys info).

Lemma discovery_u64 info sv more : services_u64 info sv -> Forall (fun f => is_u64 (snd f)) more -> Forall (fun f => is_u64 (snd f)) (discovery_fields info sv ++ more).
Proof. intros (? & ? & ? & ? & ? & ? & ? & ?) Hm. apply Forall_app_2; [|done]. repeat (apply Forall_cons; split; [done|]). apply Forall_nil_2. Qed.

Ltac solve_within := repeat first [apply SSorted_nil|apply SSorted_cons|apply Forall_nil_2|apply Forall_cons; split|split|apply Z.leb_le; reflexivity].

Lemma image_fits_len info : 0 <= kernel_image_len info -> image_fits info = true -> 0 < kernel_image_len info <= CORE_KERNEL_MAX_SIZE.
Proof. unfold image_fits. rewrite negb_true_iff, orb_false_iff. intros H0 [H1%Z.eqb_neq H2%Z.ltb_ge]. lia. Qed.

(** ** Cleaning the cache *)

Lemma clean_loop_spec n line end_ : 0 < line -> end_ + line < W64 -> forall addr d, 0 <= addr -> addr mod line = 0 -> end_ - addr <= Z.of_nat n * line ->
  forall x, Arm.clean_loop n line addr end_ d x = (if (addr <=? x) && (x / line * line <? end_) then false else d x).
Proof.
  intros Hl He. induction n as [|n IH]; intros addr d Ha Hm Hn x; cbn [Arm.clean_loop].
  - destruct (Z.leb_spec addr x); [|done]. destruct (Z.ltb_spec (x / line * line) end_); [|done]. exfalso.
    pose proof (Z.div_mod addr line ltac:(lia)). pose proof (Z.div_le_mono addr x line Hl ltac:(lia)). nia.
  - pose proof (Z.div_mod addr line ltac:(lia)) as Hda. pose proof (Z.div_mod x line ltac:(lia)) as Hdx. pose proof (Z.mod_pos_bound x line Hl) as Hbx.
    destruct (Z.ltb_spec addr end_) as [Hlt|Hge].
    + rewrite u64_small by (unfold is_u64; lia). rewrite IH by (lia || (rewrite <- (Z.mul_1_l line) at 1; rewrite Z.mod_add by lia; done)).
      destruct (Z.eqb_spec (x / line) (addr / line)) as [E|N].
      * assert (x / line * line = addr) as -> by nia. rewrite (proj2 (Z.leb_le addr x)), (proj2 (Z.ltb_lt addr end_)) by nia. cbn [andb].
        by destruct ((addr + line <=? x) && true).
      * destruct (Z.leb_spec addr x), (Z.leb_spec (addr + line) x); try done; try lia. exfalso. apply N. apply Z.le_antisymm; [|apply Z.div_le_mono; lia].
        apply Z.lt_succ_r. apply Z.div_lt_upper_bound; nia.
    + destruct (Z.leb_spec addr x); [|done]. destruct (Z.ltb_spec (x / line * line) end_); [|done]. exfalso.
      pose proof (Z.div_le_mono addr x line Hl ltac:(lia)). nia.
Qed.

(** [4 << DminLine]. *)
Definition line_bytes (ctr : Z) : Z := 2 ^ (2 + Z.land (Z.shiftr ctr 16) 0xf).

Lemma line_bytes_range ctr : 4 <= line_bytes ctr <= 2 ^ 17.
Proof.
  unfold line_bytes. change 0xf with (Z.ones 4). rewrite Z.land_ones by lia. pose proof (Z.mod_pos_bound (Z.shiftr ctr 16) (2 ^ 4) ltac:(lia)) as H.
  change (2 ^ 4) with 16 in *. change 4 with (2 ^ 2) at 1. split; apply Z.pow_le_mono_r; lia.
Qed.

Lemma clean_lines_spec ctr base size d x : 0 <= base -> 0 <= size -> base + size + 2 ^ 17 < W64 ->
  Arm.clean_lines ctr base size d x =
  (if (base / line_bytes ctr * line_bytes ctr <=? x) && (x / line_bytes ctr * line_bytes ctr <? base + size) then false else d x).
Proof.
  intros Hb Hs Hw. pose proof (line_bytes_range ctr) as Hl. unfold Arm.clean_lines.
  assert (Z.shiftl 4 (Z.land (Z.shiftr ctr 16) 15) = line_bytes ctr) as ->.
  { unfold line_bytes. assert (0 <= Z.land (Z.shiftr ctr 16) 15) by (apply Z.land_nonneg; lia). rewrite Z.shiftl_mul_pow2, Z.pow_add_r by lia. done. }
  assert (Z.ldiff base (line_bytes ctr - 1) = base / line_bytes ctr * line_bytes ctr) as ->.
  { unfold line_bytes. set (k := 2 + _). assert (0 <= k) by (unfold k; assert (0 <= Z.land (Z.shiftr ctr 16) 15) by (apply Z.land_nonneg; lia); lia).
    replace (2 ^ k - 1) with (Z.ones k) by (rewrite Z.ones_equiv; lia). by rewrite Z.ldiff_ones_r, Z.shiftl_mul_pow2, Z.shiftr_div_pow2. }
  set (l := line_bytes ctr) in *. pose proof (Z.div_mod base l ltac:(lia)). pose proof (Z.mod_pos_bound base l ltac:(lia)).
  pose proof (Z.div_mod size l ltac:(lia)). pose proof (Z.mod_pos_bound size l ltac:(lia)).
  assert (0 <= base / l) by (apply Z.div_pos; lia). assert (0 <= size / l) by (apply Z.div_pos; lia).
  rewrite u64_small by (unfold is_u64; lia). apply clean_loop_spec; first [lia|apply Z.mod_mul; lia|nia].
Qed.

(** ** Writes and their places *)

Section writes.
Context {W : Type}.

Lemma write_clean (f : memory -> memory) (s : machine W) x : dirty s x = false -> f (mem s) x = mem s x -> dirty (write f s) x = false.
Proof. intros Hd E. cbn [write dirty]. by rewrite Hd, E, Z.eqb_refl. Qed.

(** Calls of the client go through when it is bound. *)
Lemma asked_total (c : client W) me msg cap least w : is_Some (b_invoke (scheduler_client c)) -> exists w' r, asked c me msg cap least w = Some (w', r).
Proof.
  intros [invoke E]. unfold asked, mbind, M_bind, scheduler_call. rewrite E. destruct (invoke _ _ _ _ _) as [w' r]. by eexists _, _.
Qed.

Lemma lift_total {A} (f : M W A) s w a : f (sched s) = Some (w, a) -> lift f s = Some ({| sched := w; mem := mem s; dirty := dirty s; events := events s |}, a).
Proof. unfold lift. by intros ->. Qed.
Lemma bind_total {A B} (f : SM W A) (g : A -> SM W B) s : (exists s1 a, f s = Some (s1, a)) -> (forall s1 a, exists s2 b, g a s1 = Some (s2, b)) ->
  exists s2 b, (x ← f; g x) s = Some (s2, b).
Proof. intros (s1 & a & E) H. destruct (H s1 a) as (s2 & b & E2). exists s2, b. unfold mbind, SM_bind. by rewrite E. Qed.

Lemma lift_asked_total {A} (c : client W) (g : option (list Z) -> M W A) meth msg cap least s : is_Some (b_invoke (scheduler_client c)) -> (forall r w, exists w' a, g r w = Some (w', a)) ->
  exists s1 a, lift (M_bind _ _ g (asked c meth msg cap least)) s = Some (s1, a).
Proof.
  intros Hb Hg. destruct (asked_total c meth msg cap least (sched s) Hb) as (w & r & E). destruct (Hg r w) as (w' & a & E2).
  eexists _, _. apply lift_total. unfold M_bind. rewrite E. exact E2.
Qed.

End writes.

(** ** The firmware interface in a device tree *)

(** A property that starts with a word and its NUL. *)
Definition starts_with (word v : list Z) : bool := bool_decide (take (S (length word)) v = word ++ [0]).

(** What the /psci node says: the conduit and the function that starts a core. *)
Definition psci_of (sb : list Z) (t : dnode) : option (bool * Z) :=
  match lookup_prop sb Arm.S_method (d_props t) with
  | None => None
  | Some v =>
      if starts_with Arm.S_hvc v || starts_with Arm.S_smc v then
        match lookup_prop sb Arm.S_cpu_on (d_props t) with
        | Some w => match rd_be32 w 0 with Ret fid => Some (starts_with Arm.S_hvc v, fid) | _ => None end
        | None => None
        end
      else None
  end.

Lemma word_matches_reads root sb word : forall p v, here (flatten root sb) p v -> (length word < length v)%nat ->
  Arm.word_matches (flatten root sb) p word = Ret (starts_with word v).
Proof.
  unfold starts_with. induction word as [|w word IH]; intros p [|x v] Hh Hl; cbn [length] in Hl; [lia| |lia|]; cbn [Arm.word_matches];
    apply here_cons in Hh as [-> Hh]; cbn [mbind res_bind].
  - f_equal. destruct (Z.eqb_spec x 0) as [->|]; [by rewrite bool_decide_eq_true_2|by rewrite bool_decide_eq_false_2 by (cbn; congruence)].
  - destruct (Z.eqb_spec x w) as [->|]; [|by rewrite bool_decide_eq_false_2 by (cbn; congruence)]. rewrite (IH (p + 1) v Hh) by lia. f_equal.
    cbn [length app]. rewrite firstn_cons. apply bool_decide_ext. split; [by intros ->|by intros [= ->]].
Qed.

Lemma prop_is_string_reads root sb word p v : here (flatten root sb) p v ->
  Arm.prop_is_string (flatten root sb) p (Z.of_nat (length v)) word = Ret (starts_with word v).
Proof.
  intros Hh. unfold Arm.prop_is_string. destruct (Z.ltb_spec (Z.of_nat (length v)) (Z.of_nat (length word) + 1)) as [Hs|]; [|apply word_matches_reads; [done|lia]].
  f_equal. unfold starts_with. rewrite bool_decide_eq_false_2; [done|]. intros E%(f_equal length). rewrite length_take, length_app in E. cbn [length] in E. lia.
Qed.

(** The firmware interface found in a device tree is the one it describes: on the flattened form of any tree, [psci_parse]
    finds the conduit that the method property of /psci begins with and the big-endian function number of its cpu_on
    property, and refuses when the node or either property is missing, the method is another word or the number is cut short. *)
Theorem psci_parse_reads root sb : encodable root sb = true ->
  Arm.psci_parse (flatten root sb) = Ret (match walk [[112; 115; 99; 105]] root 56 with Some (t, _) => psci_of sb t | None => None end).
Proof.
  intros enc. unfold Arm.psci_parse. change Arm.P_psci with (path_of [[112; 115; 99; 105]]).
  rewrite (flattened_tree_paths root sb _ enc) by (done || (unfold FDT_MAX_DEPTH; cbn; lia)). destruct (walk _ root 56) as [[t o]|] eqn:Ew; [|done].
  pose proof (walk_child_at root sb enc _ _ _ Ew) as Hat. destruct (enc_parts root sb enc) as (Hw & _ & Hl). cbn [found_at mbind res_bind].
  pose proof (node_at_bounds _ (flat_ctx root sb) Hl _ root (flatten_inside root sb) Hw [] _ _ _ Hat) as [Ho _].
  rewrite (proj2 (Z.eqb_neq _ _)) by (unfold FDT_ERR_NODE; lia).
  assert (~ In 0 Arm.S_method /\ ~ In 0 Arm.S_cpu_on) as [N1 N2] by (split; intros H; repeat (destruct H as [H|H]; [discriminate H|]); done).
  pose proof (flattened_tree_properties root sb t o 1 Arm.S_method enc Hat N1) as Hm. pose proof (flattened_tree_properties root sb t o 1 Arm.S_cpu_on enc Hat N2) as Hc.
  unfold psci_of. destruct (lookup_prop sb Arm.S_method (d_props t)) as [v|]; [|by rewrite Hm]. destruct Hm as (p & -> & Hh). cbn [mbind res_bind].
  rewrite (prop_is_string_reads _ _ Arm.S_hvc p v Hh). cbn [mbind res_bind].
  assert ((if starts_with Arm.S_hvc v then Ret false else Arm.prop_is_string (flatten root sb) p (Z.of_nat (length v)) Arm.S_smc) =
    Ret (negb (starts_with Arm.S_hvc v) && starts_with Arm.S_smc v)) as -> by (rewrite (prop_is_string_reads _ _ Arm.S_smc p v Hh); by destruct (starts_with Arm.S_hvc v)).
  cbn [mbind res_bind]. destruct (starts_with Arm.S_hvc v), (starts_with Arm.S_smc v); cbn [negb andb orb]; try done;
    (destruct (lookup_prop sb Arm.S_cpu_on (d_props t)) as [w|]; [|by rewrite Hc]; destruct Hc as (q & -> & Hq); cbn [mbind res_bind];
     destruct (Z.ltb_spec (Z.of_nat (length w)) 4) as [Hs|Hs];
     [destruct w as [|? [|? [|? [|? ?]]]]; (reflexivity || (cbn [length] in Hs; lia))
     |pose proof (rd_be32_in root sb q w 0 Hq ltac:(lia) ltac:(lia)) as R; rewrite Z.add_0_r in R; rewrite R; destruct (rd_be32_ok w 0) as [x ->]; [lia..|reflexivity]]).
Qed.

Lemma psci_parse_reads_witness : let tree := DNode [] [] [DNode [112; 115; 99; 105] [(0, Arm.S_smc ++ [0]); (7, be32 0x84000003)] []] in
  let strings := Arm.S_method ++ [0] ++ Arm.S_cpu_on ++ [0] in
  encodable tree strings = true /\ Arm.psci_parse (flatten tree strings) = Ret (Some (false, 0x84000003)).
Proof. intros tree strings. assert (encodable tree strings = true) as He by (vm_compute; reflexivity). split; [exact He|]. exact (psci_parse_reads tree strings He). Defined.

(** The 32-bit error of a firmware without the call, in a register whose upper half is zero, passes for version 65535.65535. *)
Theorem not_supported_passes : Arm.version_usable 0xFFFFFFFF = true.
Proof. reflexivity. Qed.

(** ** AArch64 *)

Module ArmSpec.
Section arm.
Context {W : Type} (c : client W).
Context (ctr mpidr : Z) (firmware : list event -> Z).
Context (handoff_size handoff_align core_state_size core_state_align : Z) (handoff_bytes : init_ap_handoff -> list Z).
Context (info : init_boot_info) (sv : services) (ram_base : Z).
(** Memory at the start; the boot allocator's object and region; the pool slices come from. *)
Context (m0 : memory) (self boot_base boot_len pool_lo pool_hi : Z).

Abbreviation me := (Arm.topology_self_id mpidr).
Abbreviation REGIONS := (Arm.CORE_REGION_BASE ram_base).
Abbreviation image_addr := (kernel_image_addr info).
Abbreviation image_len := (kernel_image_len info).

Definition region (k : Z) : Z := REGIONS + k * CORE_REGION_SIZE.
Definition eligible (core : topology_core_t) : bool := negb (negb (enabled core) || (target core =? me)).

Definition in_regions (x : Z) : Prop := REGIONS <= x < REGIONS + 64 * CORE_REGION_SIZE.
Definition in_image (x : Z) : Prop := image_addr <= x < image_addr + image_len.
Definition in_object (x : Z) : Prop := self <= x < self + 56.
Definition in_blocks (x : Z) : Prop := boot_base <= x < boot_base + boot_len.
Definition in_pool (x : Z) : Prop := pool_lo <= x < pool_hi.
Definition in_description (x : Z) : Prop := init_description_phys info + 16 <= x < init_description_phys info + 32.

(** Where things are: the image, the regions of cores, the boot allocator's memory and the pool do not meet. *)
Record placed : Prop := {
  pl_image : forall x, in_image x -> ~ in_regions x /\ ~ in_object x /\ ~ in_blocks x /\ ~ in_pool x;
  pl_regions : forall x, in_regions x -> ~ in_object x /\ ~ in_blocks x /\ ~ in_pool x /\ ~ in_description x;
  pl_pool : forall x, in_pool x -> ~ in_object x /\ ~ in_blocks x /\ ~ in_description x;
  pl_bounds : 0 <= ram_base /\ REGIONS + 64 * CORE_REGION_SIZE + 2 ^ 17 < W64 /\ 0 < pool_lo /\ pool_hi + 2 ^ 17 < W64 /\ boot_base + boot_len + 2 ^ 17 < W64;
  pl_image_len : 0 <= image_len }.

(** The path from the boot information to the allocator, none of it in what the allocator may give away. *)
Record reaches (m : memory) (used : Z) : Prop := {
  re_description : init_description_phys info <> 0;
  re_magic : ld64 m (init_description_phys info + 16) = INIT_DESCRIPTION_MAGIC;
  re_pointer : ld64 m (init_description_phys info + 24) = self - 16;
  re_object : self <> 16 /\ self <> 0;
  re_allocator : allocator_at m self boot_base boot_len used;
  re_apart : forall x, in_description x -> ~ in_object x /\ ~ boot_base + used <= x < boot_base + boot_len;
  re_apart_object : forall x, in_object x -> ~ boot_base + used <= x < boot_base + boot_len }.

Lemma reaches_for m used : reaches m used -> boot_allocator_for info m = self.
Proof.
  intros [H1 H2 H3 H4 [[A1 A1'] _ _ _ _ _] _ _]. unfold boot_allocator_for. rewrite (proj2 (Z.eqb_neq _ _) H1), H2, Z.eqb_refl. cbn [negb orb].
  replace (init_description_phys info + 16 + 8) with (init_description_phys info + 24) by lia. rewrite H3, (proj2 (Z.eqb_neq (self - 16) 0)) by lia.
  replace (self - 16 + 16) with self by lia. rewrite A1, Z.eqb_refl, (proj2 (Z.eqb_neq _ _) A1'). done.
Qed.

(** Writes elsewhere leave it. *)
Lemma reaches_agree m m' used : (forall x, in_description x \/ in_object x -> m' x = m x) -> reaches m used -> reaches m' used.
Proof.
  intros E [H1 H2 H3 H4 H5 H6 H7]. unfold in_description, in_object in E. split; try done.
  - rewrite (ld64_agree m m') by (intros x Hx; apply E; lia). done.
  - rewrite (ld64_agree m m') by (intros x Hx; apply E; lia). done.
  - eapply allocator_agree; [|done]. intros x Hx. apply E. by right.
Qed.

(** One request, of a power of two. *)
Lemma reaches_alloc m used size k m' p : reaches m used -> request_fits boot_len size k -> otos_bump_alloc self size (2 ^ k) m = (m', p) ->
  (forall x, ~ in_object x -> m' x = m x) /\
  exists used', used <= used' <= used + 2 ^ k + size /\ used' <= boot_len /\ reaches m' used' /\
    (p = 0 /\ boot_len < used + 2 ^ k + size \/ boot_base + used <= p /\ p + size = boot_base + used' /\ (p - boot_base) mod 2 ^ k = 0).
Proof.
  intros Hr Hq E. pose proof (bump_alloc_keeps m self boot_base boot_len used size k (re_allocator _ _ Hr) Hq) as H. rewrite E in H.
  destruct H as [(used' & Hu & Ha & Hp) Hout]. split; [exact Hout|]. exists used'. pose proof (aa_range _ _ _ _ _ Ha) as Hra. split; [done|]. split; [lia|]. split; [|exact Hp].
  destruct Hr as [H1 H2 H3 H4 H5 H6 H7]. split; try done.
  - rewrite (ld64_agree m m'); [done|]. intros x Hx. apply Hout. apply H6. unfold in_description. lia.
  - rewrite (ld64_agree m m'); [done|]. intros x Hx. apply Hout. apply H6. unfold in_description. lia.
  - intros x Hx. specialize (H6 x Hx). split; [tauto|]. intros ?. apply H6. lia.
  - intros x Hx ?. apply (H7 x Hx). lia.
Qed.

(** The boot allocator is there, or none is. *)
Definition boot_state (m : memory) : Prop := ap_core_state_phys info = 0 /\ (init_description_phys info = 0 \/ exists used, reaches m used).

Lemma boot_state_agree m m' : (forall x, in_description x \/ in_object x -> m' x = m x) -> boot_state m -> boot_state m'.
Proof. intros E [H1 [H2|[used H2]]]; (split; [done|]); [by left|right; exists used; by eapply reaches_agree]. Qed.

Hypothesis pl : placed.
Context (cs_k : Z).
Hypothesis Hcs : core_state_align = 2 ^ cs_k /\ 0 < core_state_size /\ request_fits boot_len core_state_size cs_k.

(** A zeroed block for a core's state, in the boot allocator's memory or in the pool. *)
Definition state_block (m : memory) (p : Z) : Prop :=
  0 < p /\ p + core_state_size + 2 ^ 17 < W64 /\ forall x, p <= x < p + core_state_size -> (in_blocks x \/ in_pool x) /\ m x = 0.

Lemma zeroed p n m x : p <= x < p + n -> place p (zeros n) m x = 0.
Proof.
  intros Hx. unfold place, zeros. rewrite length_replicate, Z2Nat.id by lia. rewrite (proj2 (Z.leb_le _ _)), (proj2 (Z.ltb_lt _ _)) by lia. cbn [andb].
  apply nth_lookup_Some, lookup_replicate_2. lia.
Qed.

Lemma only_zeros p n m : 0 <= n -> only p n m (place p (zeros n) m).
Proof. intros Hn. pose proof (only_place p (zeros n) m) as H. unfold zeros in H. rewrite length_replicate, Z2Nat.id in H by lia. exact H. Qed.

Lemma core_state_alloc_ok m m' p : boot_state m -> core_state_alloc_ap core_state_size core_state_align info m = (m', p) ->
  boot_state m' /\ (forall x, ~ in_object x -> ~ in_blocks x -> m' x = m x) /\ (p = 0 \/ state_block m' p).
Proof.
  intros [Hap Hb]. unfold core_state_alloc_ap. rewrite Hap. cbn [Z.eqb negb]. destruct Hcs as (-> & Hsz & Hq). destruct Hb as [H0|[used Hr]].
  - unfold boot_allocator_for. rewrite H0. cbn. intros [= <- <-]. split; [split; [done|by left]|]. split; [done|by left].
  - rewrite (reaches_for m used Hr). rewrite (proj2 (Z.eqb_neq self 0)) by apply (re_object _ _ Hr).
    destruct (otos_bump_alloc self core_state_size (2 ^ cs_k) m) as [m1 q] eqn:E. destruct (reaches_alloc m used _ cs_k m1 q Hr Hq E) as (Hout & used' & Hu & P3 & Hr' & Hp).
    pose proof (re_allocator _ _ Hr) as Ha0. pose proof (aa_range _ _ _ _ _ Ha0) as Hra. pose proof (pl_bounds pl) as Hbd.
    destruct (Z.eqb_spec q 0) as [->|Hq0].
    + intros [= <- <-]. split; [split; [done|right; by exists used']|]. split; [|by left]. intros x H1 _. by apply Hout.
    + destruct Hp as [[? _]|(P1 & P2 & _)]; [done|]. intros [= <- <-]. assert (only q core_state_size m1 (place q (zeros core_state_size) m1)) as Ho by (apply only_zeros; lia).
      split; [|split].
      * split; [done|]. right. exists used'. eapply reaches_agree; [|exact Hr']. intros x Hx. apply Ho. intros Hin.
        destruct Hx as [Hx|Hx]; [apply (re_apart _ _ Hr x Hx)|apply (re_apart_object _ _ Hr x Hx)]; lia.
      * intros x H1 H2. rewrite Ho by (unfold in_blocks in H2; lia). by apply Hout.
      * right. split; [lia|]. split; [lia|]. intros x Hx. split; [left; unfold in_blocks; lia|]. by apply zeroed.
Qed.

(** What the scheduler keeps over every call; in such states slices come from the pool. *)
Context (ok : W -> Prop).
Hypothesis kept : forall invoke t meth msg cap w, b_invoke (scheduler_client c) = Some invoke -> ok w -> ok (fst (invoke t meth msg cap w)).
Hypothesis slices : forall w w' r b, ok w -> scheduler_allocate_slice c core_state_size MEM_KIND_JOB_SLICE RESOURCE_SYNC_TRANSFER 0 w = Some (w', (true, r, b)) ->
  pool_lo <= b /\ b + core_state_size <= pool_hi.

Lemma asked_kept {A} (g : option (list Z) -> W -> option (W * A)) meth msg cap least w w' a : (forall r w, exists a, g r w = Some (w, a)) ->
  M_bind _ _ g (asked c meth msg cap least) w = Some (w', a) -> ok w -> ok w'.
Proof.
  intros Hg E Hw. unfold M_bind, asked, mbind, M_bind, scheduler_call in E. destruct (b_invoke (scheduler_client c)) as [invoke|] eqn:Ei; [|done].
  pose proof (kept invoke (b_cluster (scheduler_client c)) meth msg cap w eq_refl Hw) as Hk. destruct (invoke _ _ _ _ _) as [w1 r1]. cbn [fst] in Hk.
  cbn in E. destruct (Hg (if negb (fst r1) || (response_len (snd r1) <? least) then None else Some (response_words (snd r1))) w1) as [a' Ea].
  rewrite Ea in E. by injection E as <- _.
Qed.

(** No state for the core: the scheduler has no slice left. *)
Definition no_slice : Prop :=
  exists w w' r b, scheduler_allocate_slice c core_state_size MEM_KIND_JOB_SLICE RESOURCE_SYNC_TRANSFER 0 w = Some (w', (false, r, b)).

Abbreviation copied_core_state := (Arm.copied_core_state c core_state_size core_state_align info).

Lemma copied_core_state_ok s s' p : ok (sched s) -> boot_state (mem s) -> copied_core_state s = Some (s', p) ->
  ok (sched s') /\ boot_state (mem s') /\ events s' = events s /\ (forall x, ~ in_object x -> ~ in_blocks x -> ~ in_pool x -> mem s' x = mem s x) /\
  (p = 0 /\ no_slice \/ state_block (mem s') p).
Proof.
  intros Hok Hb E. apply bind_inv in E as (s1 & a & E & E'). unfold modify_ret in E. injection E as <- <-. cbn [write mem] in *.
  destruct (core_state_alloc_ap core_state_size core_state_align info (mem s)) as [m1 q] eqn:Ea. cbn [fst snd] in *.
  destruct (core_state_alloc_ok _ _ _ Hb Ea) as (Hb1 & Hout & Hq). destruct (Z.eqb_spec q 0) as [->|Hq0]; cbn [negb] in E'.
  2: { injection E' as <- <-. cbn [write mem events]. rewrite Ea. cbn [fst]. split; [done|]. split; [done|]. split; [done|]. split; [intros x H1 H2 _; by apply Hout|]. right. by destruct Hq. }
  clear Hq. apply bind_inv in E' as (s2 & [[got r] b] & E & E'). apply lift_quiet in E as [(Em & Ed & Ee) Es]. cbn [write mem events sched] in *. rewrite Ea in Em. cbn [fst] in Em.
  assert (ok (sched s2)) as Hok2 by (eapply asked_kept; [|exact Es|exact Hok]; intros; by eexists).
  destruct got.
  - apply bind_inv in E' as (s3 & [] & E & E'). injection E as <-. injection E' as <- <-. destruct (slices _ _ _ _ Hok Es) as [S1 S2]. cbn [write mem events sched].
    rewrite Em. pose proof (pl_bounds pl) as Hbd. destruct Hcs as (_ & Hsz & _). assert (only b core_state_size m1 (place b (zeros core_state_size) m1)) as Ho by (apply only_zeros; lia).
    split; [done|]. split; [|split; [done|split]].
    + eapply boot_state_agree; [|exact Hb1]. intros x Hx. apply Ho. intros Hin. pose proof (pl_pool pl x ltac:(unfold in_pool; lia)). tauto.
    + intros x H1 H2 H3. rewrite Ho by (unfold in_pool in H3; lia). by apply Hout.
    + right. split; [lia|]. split; [lia|]. intros x Hx. split; [right; unfold in_pool; lia|]. by apply zeroed.
  - injection E' as <- <-. rewrite Em. split; [done|]. split; [done|]. split; [done|]. split; [intros x H1 H2 _; by apply Hout|]. left. split; [done|]. by eexists _, _, _, _.
Qed.

(** *** A copy of the image *)

Definition copied_fields (ap_state : Z) : list (Z * Z) := discovery_fields info sv ++ [(CORE_DISCOVERY_AP_CORE_STATE_OFF, ap_state)].

(** At the call that starts a core at region [k]: the kernel's image, the discovery record and the core's zeroed state are
    in place, and all of it has reached RAM. *)
Definition copy_ready (k : Z) (m : memory) (d : Z -> bool) : Prop :=
  (forall i, 0 <= i < image_len -> m (region k + i) = m0 (image_addr + i) /\ d (region k + i) = false) /\
  exists ap_state, state_block m ap_state /\
    (forall f, In f (copied_fields ap_state) -> ld64 m (region k + CORE_DISCOVERY_OFFSET + fst f) = snd f) /\
    (forall i, 0 <= i < 72 -> d (region k + CORE_DISCOVERY_OFFSET + i) = false) /\
    (forall i, 0 <= i < core_state_size -> d (ap_state + i) = false).

Hypothesis Hsv : services_u64 info sv.

Lemma copied_fields_within p : fields_within 72 (copied_fields p).
Proof. unfold copied_fields, discovery_fields. cbn [app]. solve_within. Qed.

Lemma copied_fields_u64 p : is_u64 p -> Forall (fun f => is_u64 (snd f)) (copied_fields p).
Proof. intros Hp. apply discovery_u64; [done|]. apply Forall_cons. split; [done|apply Forall_nil_2]. Qed.

Lemma region_range k : 0 <= k < 64 -> forall i, 0 <= i < CORE_REGION_SIZE -> in_regions (region k + i).
Proof. intros Hk i Hi. unfold in_regions, region, CORE_REGION_SIZE in *. lia. Qed.

Lemma cleaned base size d x : 0 <= base -> 0 <= size -> base + size + 2 ^ 17 < W64 ->
  base <= x < base + size \/ d x = false -> Arm.clean_lines ctr base size d x = false.
Proof.
  intros H1 H2 H3 Hx. rewrite clean_lines_spec by done. pose proof (line_bytes_range ctr) as Hl. destruct Hx as [Hx|Hx]; [|rewrite Hx; by destruct (_ && _)].
  pose proof (Z.div_mod base (line_bytes ctr) ltac:(lia)). pose proof (Z.mod_pos_bound base (line_bytes ctr) ltac:(lia)).
  pose proof (Z.div_mod x (line_bytes ctr) ltac:(lia)). pose proof (Z.mod_pos_bound x (line_bytes ctr) ltac:(lia)).
  rewrite (proj2 (Z.leb_le _ _)), (proj2 (Z.ltb_lt _ _)) by lia. done.
Qed.

Abbreviation filled k p m := (write_fields (region k + CORE_DISCOVERY_OFFSET) (copied_fields p) (copy_loop (Z.to_nat image_len) (region k + CORE_KERNEL_OFFSET) image_addr m)).

Lemma image_apart k : 0 <= k < 64 -> image_fits info = true -> region k + image_len <= image_addr \/ image_addr + image_len <= region k.
Proof.
  intros Hk Hf. pose proof (image_fits_len info (pl_image_len pl) Hf) as Hl. destruct (Z_le_gt_dec (region k + image_len) image_addr) as [|H1]; [by left|].
  destruct (Z_le_gt_dec (image_addr + image_len) (region k)) as [|H2]; [by right|]. exfalso. set (x := Z.max (region k) image_addr).
  assert (in_image x) as Hx by (unfold in_image, x; lia).
  pose proof (region_range k Hk (x - region k) ltac:(unfold CORE_KERNEL_MAX_SIZE, CORE_REGION_SIZE, x in *; lia)) as Hr.
  rewrite Zplus_minus in Hr. exact (proj1 (pl_image pl x Hx) Hr).
Qed.

Lemma filled_ok k p m : 0 <= k < 64 -> image_fits info = true -> is_u64 p -> (forall x, in_image x -> m x = m0 x) ->
  (forall i, 0 <= i < image_len -> filled k p m (region k + i) = m0 (image_addr + i)) /\
  (forall f, In f (copied_fields p) -> ld64 (filled k p m) (region k + CORE_DISCOVERY_OFFSET + fst f) = snd f) /\ only (region k) CORE_REGION_SIZE m (filled k p m).
Proof.
  intros Hk Hf Hp Him. pose proof (image_fits_len info (pl_image_len pl) Hf) as Hl.
  apply region_filled; [lia|by apply image_apart|intros i Hi; apply Him; unfold in_image; lia|apply copied_fields_within|by apply copied_fields_u64].
Qed.

(** The scheduler did not accept the claim on region [k]. *)
Definition claim_refused (k : Z) : Prop :=
  exists w w' r, scheduler_request_allocation c (region k) CORE_REGION_SIZE MEM_KIND_CORE_REGION RESOURCE_SYNC_TRANSFER w = Some (w', (false, r)).

(** What happens for one core: the claim is refused; it is accepted, but there is no memory for the core's state or the image
    does not fit; or the core is started, and then all is ready. *)
Definition copy_outcome (k fid : Z) (hvc : bool) (t : Z) (new : list event) (m : memory) : Prop :=
  (new = [] /\ claim_refused k) \/
  (new = [Claimed (region k) CORE_REGION_SIZE] /\ (no_slice \/ image_fits info = false)) \/
  (exists d, new = [Claimed (region k) CORE_REGION_SIZE; Psci fid t (copied_entry info (region k)) (region k) hvc m d] /\ copy_ready k m d).

Abbreviation start_copy := (Arm.start_copy c ctr mpidr firmware core_state_size core_state_align info sv).

Lemma claim_outcome k s s' yes : claim_region c (region k) CORE_REGION_SIZE MEM_KIND_CORE_REGION s = Some (s', yes) -> yes = false -> claim_refused k.
Proof.
  intros E ->. apply bind_inv in E as (s1 & [yes r] & E & E'). apply lift_quiet in E as [_ E]. unfold note_claim in E'. injection E' as _ E'. cbn [fst] in E'. subst yes.
  by eexists _, _, _.
Qed.

(** What is left to do once the core's state is there. *)
Lemma copy_started k t p s s1 s2 s3 u v w r : 0 <= k < 64 -> image_fits info = true -> (forall x, in_image x -> mem s x = m0 x) -> state_block (mem s) p ->
  copy_image info (region k) s = Some (s1, u) ->
  modify (write_fields (region k + CORE_DISCOVERY_OFFSET) (copied_fields p)) s1 = Some (s2, v) -> greet c t me s2 = Some (s3, w) ->
  let d1 := Arm.clean_lines ctr (region k + CORE_KERNEL_OFFSET) image_len (dirty s3) in
  let d2 := Arm.clean_lines ctr (region k + CORE_DISCOVERY_OFFSET) (CORE_DISCOVERY_AP_CORE_STATE_OFF + 8) d1 in
  let d3 := Arm.clean_lines ctr p core_state_size d2 in
  r = filled k p (mem s) -> mem s3 = r /\ events s3 = events s /\ copy_ready k r d3.
Proof.
  intros Hk Hf Him Hblk E1 E2 E3 d1 d2 d3 ->. injection E1 as <-. injection E2 as <-. destruct (greet_quiet _ _ _ _ _ _ E3) as (Em & _ & Ee). cbn [write mem events] in *.
  assert (is_u64 p) as Hp by (destruct Hblk as (? & ? & _), Hcs as (_ & ? & _); unfold is_u64; lia). destruct (filled_ok k p (mem s) Hk Hf Hp Him) as (F1 & F2 & F3).
  split; [done|]. split; [done|]. pose proof (image_fits_len info (pl_image_len pl) Hf) as Hl. pose proof (pl_bounds pl) as Hbd. destruct Hblk as (B1 & B2 & B3). pose proof Hcs as (_ & Hsz & _).
  assert (REGIONS <= region k /\ region k + CORE_REGION_SIZE <= REGIONS + 64 * CORE_REGION_SIZE /\ 0 <= REGIONS) as Hrg
    by (unfold region, Arm.CORE_REGION_BASE, CORE_REGION_SIZE in *; lia).
  unfold CORE_KERNEL_MAX_SIZE, CORE_KERNEL_OFFSET, CORE_DISCOVERY_OFFSET, CORE_DISCOVERY_AP_CORE_STATE_OFF, CORE_REGION_SIZE in *. split.
  - intros i Hi. split; [by apply F1|]. unfold d3. apply cleaned; [lia|lia|lia|]. right. unfold d2. apply cleaned; [lia|lia|lia|]. right.
    unfold d1, CORE_KERNEL_OFFSET. apply cleaned; [lia|lia|lia|]. left. lia.
  - exists p. split_and!.
    + split; [done|]. split; [done|]. intros x Hx. destruct (B3 x Hx) as [Hw Hz]. split; [done|]. rewrite F3; [done|]. intros Hin.
      pose proof (pl_regions pl x ltac:(unfold in_regions, CORE_REGION_SIZE in *; lia)). tauto.
    + exact F2.
    + intros i Hi. unfold d3. apply cleaned; [lia|lia|lia|]. right. unfold d2, CORE_DISCOVERY_OFFSET, CORE_DISCOVERY_AP_CORE_STATE_OFF. apply cleaned; [lia|lia|lia|].
      left. lia.
    + intros i Hi. unfold d3. apply cleaned; [lia|lia|lia|]. left. lia.
Qed.

Lemma claim_kept base size kind s s' yes : claim_region c base size kind s = Some (s', yes) -> ok (sched s) -> ok (sched s').
Proof.
  intros E Hw. apply bind_inv in E as (s1 & a & E & E'). apply lift_quiet in E as [_ E]. unfold note_claim in E'. injection E' as <- _.
  assert (ok (sched s1)) as H by (eapply asked_kept; [|exact E|exact Hw]; intros; by eexists). by destruct (fst a).
Qed.

Lemma greet_kept t m s s' u : greet c t m s = Some (s', u) -> ok (sched s) -> ok (sched s').
Proof.
  intros E Hw. apply bind_inv in E as (s1 & a & E & E'). injection E' as <- _. apply lift_quiet in E as [_ E]. eapply asked_kept; [|exact E|exact Hw]. intros. by eexists.
Qed.

Lemma start_copy_ok k fid hvc t s s' u : 0 <= k < 64 -> ok (sched s) -> boot_state (mem s) -> (forall x, in_image x -> mem s x = m0 x) ->
  start_copy (region k) fid hvc t s = Some (s', u) ->
  ok (sched s') /\ boot_state (mem s') /\ (forall x, in_image x -> mem s' x = m0 x) /\
  exists new, events s' = events s ++ new /\ copy_outcome k fid hvc t new (mem s') /\
    forall x, ~ in_object x -> ~ in_blocks x -> ~ in_pool x -> ~ (new <> [] /\ region k <= x < region k + CORE_REGION_SIZE) -> mem s' x = mem s x.
Proof.
  intros Hk Hok Hb Him E. apply bind_inv in E as (s1 & yes & E & E1). pose proof (claim_outcome _ _ _ _ E) as Href. destruct (claim_region_inv _ _ _ _ _ _ _ E) as (Em & _ & Ee).
  assert (ok (sched s1)) as Hok1 by (by eapply claim_kept).
  destruct yes; cbn [negb] in E1.
  2: { injection E1 as <- <-. rewrite Em. split; [done|]. split; [done|]. split; [done|]. exists []. split; [done|]. split; [left; split; [done|by apply Href]|done]. }
  clear Href E. apply bind_inv in E1 as (s2 & p & E & E1). rewrite <- Em in Hb. destruct (copied_core_state_ok _ _ _ Hok1 Hb E) as (Hok2 & Hb2 & Ee2 & Hout & Hp). rewrite Em in Hout.
  assert (forall x, in_image x -> mem s2 x = m0 x) as Him2.
  { intros x Hx. rewrite <- (Him x Hx). destruct (pl_image pl x Hx) as (_ & ? & ? & ?). by apply Hout. }
  assert (forall (Q : Z -> Prop) x, ~ in_object x -> ~ in_blocks x -> ~ in_pool x -> ~ Q x -> mem s2 x = mem s x) as Hout' by (intros ? x ? ? ? _; by apply Hout).
  destruct (Z.eqb_spec p 0) as [->|Hp0].
  { injection E1 as <- <-. split; [done|]. split; [done|]. split; [done|]. eexists. split; [rewrite Ee2, Ee; reflexivity|]. split; [|exact (Hout' (fun x => _ /\ region k <= x < region k + CORE_REGION_SIZE))].
    right. left. split; [done|]. left. destruct Hp as [[_ ?]|[? _]]; [done|lia]. }
  destruct Hp as [[? _]|Hblk]; [done|]. destruct (image_fits info) eqn:Hf; cbn [negb] in E1.
  2: { injection E1 as <- <-. split; [done|]. split; [done|]. split; [done|]. eexists. split; [rewrite Ee2, Ee; reflexivity|]. split; [|exact (Hout' (fun x => _ /\ region k <= x < region k + CORE_REGION_SIZE))]. right. left. split; [done|by right]. }
  apply bind_inv in E1 as (s3 & ? & E3 & E1). apply bind_inv in E1 as (s4 & ? & E4 & E1). apply bind_inv in E1 as (s5 & ? & E5 & E1).
  destruct (copy_started k t p _ _ _ _ _ _ _ _ Hk Hf Him2 Hblk E3 E4 E5 eq_refl) as (Em5 & Ee5 & Hrdy).
  assert (ok (sched s5)) as Hok5 by (eapply greet_kept; [exact E5|]; injection E4 as <-; by injection E3 as <-).
  repeat (apply bind_inv in E1 as (? & ? & [= <- <-] & E1)). injection E1 as <- <-. cbn [record mem events sched dirty] in *. rewrite Em5 in *.
  assert (is_u64 p) as Hpu by (destruct Hblk as (? & ? & _), Hcs as (_ & ? & _); unfold is_u64; lia).
  destruct (filled_ok k p (mem s2) Hk Hf Hpu Him2) as (_ & _ & F3). pose proof (region_range k Hk) as Hrr.
  assert (forall y, region k <= y < region k + CORE_REGION_SIZE -> in_regions y) as Hreg by (intros y Hy; specialize (Hrr (y - region k) ltac:(lia)); by rewrite Zplus_minus in Hrr).
  split; [done|]. split; [|split].
  - eapply boot_state_agree; [|exact Hb2]. intros y Hy. apply F3. intros Hin%Hreg. pose proof (pl_regions pl y Hin). tauto.
  - intros y Hy. rewrite F3; [by apply Him2|]. intros Hin%Hreg. exact (proj1 (pl_image pl y Hy) Hin).
  - eexists. split; [rewrite Ee5, Ee2, Ee, <- app_assoc; reflexivity|]. split; [right; right; by eexists|].
    intros y H1 H2 H3 H4. rewrite F3; [by apply Hout|]. intros Hin. apply H4. by split.
Qed.

(** The cores one after another, from region [k] on; [final] is the memory all of it leaves. *)
Inductive copied (fid : Z) (hvc : bool) (final : memory) : Z -> list topology_core_t -> list event -> Prop :=
| copied_end k : copied fid hvc final k [] []
| copied_skip k core cs evs : eligible core = false -> copied fid hvc final k cs evs -> copied fid hvc final k (core :: cs) evs
| copied_core k core cs new m evs : eligible core = true -> copy_outcome k fid hvc (target core) new m ->
    (new <> [] -> forall x, region k <= x < region k + CORE_REGION_SIZE -> final x = m x) ->
    copied fid hvc final (k + 1) cs evs -> copied fid hvc final k (core :: cs) (new ++ evs).

(** Only claimed regions, the boot allocator's memory and the pool are written. *)
Definition confined (evs : list event) (m m' : memory) : Prop :=
  forall x, ~ in_object x -> ~ in_blocks x -> ~ in_pool x ->
    (forall base, In (Claimed base CORE_REGION_SIZE) evs -> ~ base <= x < base + CORE_REGION_SIZE) -> m' x = m x.

Lemma outcome_claims k fid hvc t new m base : copy_outcome k fid hvc t new m -> In (Claimed base CORE_REGION_SIZE) new -> base = region k.
Proof.
  intros [[-> _]|[[-> _]|(d & -> & _)]] Hin; cbn [In] in Hin; intuition congruence.
Qed.

Lemma copied_claims fid hvc final k cs evs base : copied fid hvc final k cs evs -> In (Claimed base CORE_REGION_SIZE) evs -> exists j, k <= j /\ base = region j.
Proof.
  induction 1 as [k|k core cs evs _ _ IH|k core cs new m evs _ Ho _ _ IH]; [done|exact IH|]. intros [Hin|Hin]%in_app_or.
  - exists k. split; [lia|]. by eapply outcome_claims.
  - destruct (IH Hin) as (j & Hj & ->). exists j. split; [lia|done].
Qed.

Abbreviation start_cores := (Arm.start_cores c ctr mpidr firmware handoff_size handoff_align core_state_size core_state_align handoff_bytes info sv ram_base).

Lemma start_cores_copied fid hvc cs : forall k s s' u, 0 <= k -> k + Z.of_nat (length cs) <= 64 -> ok (sched s) -> boot_state (mem s) -> (forall x, in_image x -> mem s x = m0 x) ->
  start_cores None fid hvc cs k s = Some (s', u) ->
  exists evs, events s' = events s ++ evs /\ copied fid hvc (mem s') k cs evs /\ confined evs (mem s) (mem s').
Proof.
  induction cs as [|core cs IH]; intros k s s' u Hk Hlen Hok Hb Him E; cbn [Arm.start_cores length] in *.
  { injection E as <- <-. exists []. rewrite app_nil_r. split; [done|]. split; [constructor|done]. }
  destruct (negb (enabled core) || (target core =? me)) eqn:Hel.
  { destruct (IH k s s' u Hk ltac:(lia) Hok Hb Him E) as (evs & H1 & H2 & H3). exists evs. split; [done|]. split; [|done]. apply copied_skip; [unfold eligible; by rewrite Hel|done]. }
  apply bind_inv in E as (s1 & [] & E & E1). destruct (start_copy_ok k fid hvc (target core) s s1 _ ltac:(lia) Hok Hb Him E) as (Hok1 & Hb1 & Him1 & new & He & Ho & Hout).
  destruct (IH (k + 1) s1 s' u ltac:(lia) ltac:(lia) Hok1 Hb1 Him1 E1) as (evs & H1 & H2 & H3). exists (new ++ evs). split; [by rewrite H1, He, app_assoc|]. split.
  - eapply copied_core; [unfold eligible; by rewrite Hel|exact Ho| |exact H2]. intros _ x Hx.
    pose proof (region_range k ltac:(lia) (x - region k) ltac:(lia)) as Hr. rewrite Zplus_minus in Hr. pose proof (pl_regions pl x Hr) as (R1 & R2 & R3 & _).
    apply H3; try done. intros base Hin. destruct (copied_claims _ _ _ _ _ _ _ H2 Hin) as (j & Hj & ->). unfold region, CORE_REGION_SIZE in *. lia.
  - intros x X1 X2 X3 X4. rewrite H3; try done; [|intros base Hin; apply X4, in_or_app; by right]. apply Hout; try done. intros [Hn Hx].
    assert (In (Claimed (region k) CORE_REGION_SIZE) new) as Hc by (destruct Ho as [[-> _]|[[-> _]|(d & -> & _)]]; [done|by left..]).
    apply (X4 (region k)); [apply in_or_app; by left|done].
Qed.

(** *** All calls return *)

Hypothesis bound : is_Some (b_invoke (scheduler_client c)).

Lemma start_copy_total k fid hvc t s : exists s' u, start_copy k fid hvc t s = Some (s', u).
Proof.
  apply bind_total; [apply bind_total; [apply lift_asked_total; [done|total]|total]|]. intros s1 yes. destruct (negb yes); [total|].
  apply bind_total; [apply bind_total; [total|]|].
  { intros s2 p. destruct (negb (p =? 0)); [total|]. apply bind_total; [apply lift_asked_total; [done|total]|].
    intros s3 [[got r] b]. destruct got; total. }
  intros s2 p. destruct (p =? 0); [total|]. destruct (negb (image_fits info)); [total|].
  repeat (apply bind_total; [total|intros ? ?]). apply bind_total; [|total].
  apply bind_total; [apply lift_asked_total; [done|total]|total].
Qed.

Lemma start_cores_total fid hvc cs : forall k s, exists s' u, start_cores None fid hvc cs k s = Some (s', u).
Proof.
  induction cs as [|core cs IH]; intros k s; cbn [Arm.start_cores]; [total|]. destruct (_ || _); [apply IH|].
  apply bind_total; [apply start_copy_total|]. intros s1 _. apply IH.
Qed.

Abbreviation smp_bring_up_all := (Arm.smp_bring_up_all c ctr mpidr firmware handoff_size handoff_align core_state_size core_state_align handoff_bytes info sv ram_base).

Lemma copied_all topo s hvc fid : (length (cores topo) <= 64)%nat -> image_addr <> 0 -> Arm.psci_method info topo (mem s) = Ret (Some (hvc, fid)) ->
  let version := Psci Arm.PSCI_FUNC_VERSION 0 0 0 hvc (mem s) (dirty s) in
  Arm.version_usable (firmware (events s ++ [version])) = true -> mem s = m0 -> ok (sched s) -> boot_state (mem s) ->
  exists s' evs, smp_bring_up_all topo s = Some (s', tt) /\ events s' = events s ++ version :: evs /\
    copied fid hvc (mem s') 0 (cores topo) evs /\ confined evs (mem s) (mem s').
Proof.
  intros Hlen Hia Hm version Hv H0 Hok Hb. set (s1 := record version s).
  destruct (start_cores_total fid hvc (cores topo) 0 s1) as (s' & [] & E).
  destruct (start_cores_copied fid hvc (cores topo) 0 s1 s' tt ltac:(lia) ltac:(lia) Hok Hb ltac:(intros x _; by rewrite <- H0) E) as (evs & He & Hc & Hcf).
  exists s', evs. split; [|split; [rewrite He; cbn [s1 record events]; by rewrite <- app_assoc|by split]].
  unfold Arm.smp_bring_up_all, mbind, SM_bind, get_mem. rewrite (proj2 (Z.eqb_neq _ _) Hia). cbn [andb negb]. rewrite Hm. unfold Arm.psci_call. fold version. fold s1.
  change (events s1) with (events s ++ [version]). rewrite Hv. cbn [negb]. exact E.
Qed.

(** *** A shared image *)

Context (ho_k : Z).
Hypothesis Hho : handoff_align = 2 ^ ho_k /\ 0 <= handoff_size /\ request_fits boot_len handoff_size ho_k.
Hypothesis Hhb : forall h, Z.of_nat (length (handoff_bytes h)) = handoff_size.
Hypothesis Hstack : request_fits boot_len Arm.SHARED_AP_STACK_SIZE 4.

(** What the three blocks of a core may take. *)
Definition context_size : Z := (2 ^ ho_k + handoff_size) + (2 ^ 4 + Arm.SHARED_AP_STACK_SIZE) + (2 ^ cs_k + core_state_size).

(** At the call that starts a core of a shared image: its handoff object, which names its stack and its zeroed state, is in
    place, the three lie one after another in [from, upto), and handoff and state have reached RAM. *)
Definition shared_ready (from upto handoff : Z) (m : memory) (d : Z -> bool) : Prop :=
  exists stack ap_state, from <= handoff /\ handoff + handoff_size <= stack /\ stack + Arm.SHARED_AP_STACK_SIZE <= ap_state /\ ap_state + core_state_size <= upto /\
    (stack - boot_base) mod 16 = 0 /\ Bytes.holds m handoff (handoff_bytes (Arm.ap_handoff info sv stack ap_state)) /\
    (forall i, 0 <= i < handoff_size -> d (handoff + i) = false) /\ (forall i, 0 <= i < core_state_size -> m (ap_state + i) = 0 /\ d (ap_state + i) = false).

Definition shared_outcome (used used' fid : Z) (hvc : bool) (t : Z) (new : list event) (m : memory) : Prop :=
  (new = [] /\ boot_len < used + context_size) \/
  (exists handoff d, new = [Psci fid t (kernel_boot_ap_addr info) handoff hvc m d] /\ shared_ready (boot_base + used) (boot_base + used') handoff m d).

Abbreviation start_shared := (Arm.start_shared c ctr mpidr firmware handoff_size handoff_align core_state_size core_state_align handoff_bytes info sv).

(** The state of a core when the allocator is there. *)
Lemma core_state_alloc_reaches m used m' p : ap_core_state_phys info = 0 -> reaches m used ->
  core_state_alloc_ap core_state_size core_state_align info m = (m', p) ->
  exists used', used <= used' <= used + 2 ^ cs_k + core_state_size /\ used' <= boot_len /\ reaches m' used' /\
    (forall x, ~ in_object x -> ~ boot_base + used <= x < boot_base + used' -> m' x = m x) /\
    (p = 0 /\ boot_len < used + 2 ^ cs_k + core_state_size \/
     boot_base + used <= p /\ p + core_state_size = boot_base + used' /\ forall x, p <= x < p + core_state_size -> m' x = 0).
Proof.
  intros Hap Hr. destruct Hcs as (Hal & Hsz & Hq). unfold core_state_alloc_ap. rewrite Hap, Hal, (reaches_for m used Hr). cbn [Z.eqb negb].
  rewrite (proj2 (Z.eqb_neq self 0)) by apply (re_object _ _ Hr). destruct (otos_bump_alloc self core_state_size (2 ^ cs_k) m) as [m1 q] eqn:E.
  destruct (reaches_alloc m used _ cs_k m1 q Hr Hq E) as (Hout & used' & Hu & Hu' & Hr' & Hp). pose proof (aa_range _ _ _ _ _ (re_allocator _ _ Hr)) as Hra.
  destruct Hp as [[-> Hf]|(P1 & P2 & _)].
  - intros [= <- <-]. exists used'. split; [lia|]. split; [lia|]. split; [done|]. split; [intros x H1 _; by apply Hout|by left].
  - rewrite (proj2 (Z.eqb_neq q 0)) by lia. intros [= <- <-]. assert (only q core_state_size m1 (place q (zeros core_state_size) m1)) as Ho by (apply only_zeros; lia).
    exists used'. split_and!; try lia.
    + eapply reaches_agree; [|exact Hr']. intros x Hx. apply Ho. intros Hin.
      destruct Hx as [Hx|Hx]; [apply (re_apart _ _ Hr x Hx)|apply (re_apart_object _ _ Hr x Hx)]; lia.
    + intros x H1 H2. rewrite Ho by lia. by apply Hout.
    + right. split_and!; try lia. intros x Hx. by apply zeroed.
Qed.

(** The three requests: what they leave, and that they got memory one after another, or that there was not enough. *)
Lemma three_blocks used m m1 m2 m3 h k p : ap_core_state_phys info = 0 -> reaches m used ->
  otos_bump_alloc self handoff_size handoff_align m = (m1, h) -> otos_bump_alloc self Arm.SHARED_AP_STACK_SIZE 16 m1 = (m2, k) ->
  core_state_alloc_ap core_state_size core_state_align info m2 = (m3, p) ->
  exists used', used <= used' <= Z.min boot_len (used + context_size) /\ reaches m3 used' /\ (forall x, ~ in_object x -> ~ boot_base + used <= x < boot_base + used' -> m3 x = m x) /\
    ((h =? 0) || (k =? 0) || (p =? 0) = true /\ boot_len < used + context_size \/
     (h =? 0) || (k =? 0) || (p =? 0) = false /\ boot_base + used <= h /\ h + handoff_size <= k /\ k + Arm.SHARED_AP_STACK_SIZE <= p /\
     p + core_state_size <= boot_base + used' /\ (k - boot_base) mod 16 = 0 /\ forall x, p <= x < p + core_state_size -> m3 x = 0).
Proof.
  intros Hap Hr A1 A2 A3. destruct Hho as (Hal & Hs0 & Hq). rewrite Hal in A1. change 16 with (2 ^ 4) in A2.
  destruct (reaches_alloc _ _ _ _ _ _ Hr Hq A1) as (O1 & u1 & U1 & L1 & R1 & P1). destruct (reaches_alloc _ _ _ _ _ _ R1 Hstack A2) as (O2 & u2 & U2 & L2 & R2 & P2).
  destruct (core_state_alloc_reaches _ _ _ _ Hap R2 A3) as (u3 & U3 & L3 & R3 & O3 & P3). exists u3. pose proof (aa_range _ _ _ _ _ (re_allocator _ _ Hr)) as Hra.
  assert (0 < 2 ^ ho_k /\ 0 < 2 ^ cs_k) as Hpow by (destruct Hq as (_ & ? & _), Hcs as (_ & _ & _ & ? & _); split; apply Z.pow_pos_nonneg; lia).
  unfold context_size, Arm.SHARED_AP_STACK_SIZE in *. pose proof Hcs as (_ & Hsz & _). split; [lia|]. split; [done|].
  split; [intros x X1 X2; rewrite O3 by (done || lia); rewrite O2, O1 by done; done|].
  destruct P1 as [[-> F1]|(P1 & P1' & _)]; [left; split; [done|lia]|]. destruct P2 as [[-> F2]|(P2 & P2' & P2'')]; [left; split; [by rewrite orb_true_r|lia]|].
  destruct P3 as [[-> F3]|(P3 & P3' & P3'')]; [left; split; [by rewrite orb_true_r|lia]|]. right. rewrite !(proj2 (Z.eqb_neq _ 0)) by lia.
  split_and!; (done || lia).
Qed.

Lemma start_shared_ok fid hvc t used s s' u : ap_core_state_phys info = 0 -> reaches (mem s) used ->
  start_shared self fid hvc t s = Some (s', u) ->
  exists used' new, used <= used' <= Z.min boot_len (used + context_size) /\ reaches (mem s') used' /\ events s' = events s ++ new /\ shared_outcome used used' fid hvc t new (mem s') /\
    forall x, ~ in_object x -> ~ boot_base + used <= x < boot_base + used' -> mem s' x = mem s x.
Proof.
  intros Hap Hr E. apply bind_inv in E as (s1 & h & E1 & E). apply bind_inv in E as (s2 & k & E2 & E). apply bind_inv in E as (s3 & p & E3 & E).
  assert (exists m1 m2, otos_bump_alloc self handoff_size handoff_align (mem s) = (m1, h) /\ otos_bump_alloc self Arm.SHARED_AP_STACK_SIZE 16 m1 = (m2, k) /\
    core_state_alloc_ap core_state_size core_state_align info m2 = (mem s3, p) /\ events s3 = events s) as (m1 & m2 & A1 & A2 & A3 & Ee).
  { injection E1 as <- <-. injection E2 as <- <-. injection E3 as <- <-. eexists _, _. cbn [write mem events]. split_and!; try apply surjective_pairing. done. }
  clear E1 E2 E3. destruct (three_blocks used _ _ _ _ _ _ _ Hap Hr A1 A2 A3) as (u3 & Hu & R3 & O3 & H3). clear A1 A2 A3. exists u3.
  destruct H3 as [[Hz Hfull]|(Hz & B1 & B2 & B3 & B4 & B5 & Hzero)]; rewrite Hz in E.
  { injection E as <- <-. exists []. rewrite Ee, app_nil_r. split_and!; try done; try lia. by left. }
  apply bind_inv in E as (s4 & ? & E4 & E). apply bind_inv in E as (s5 & ? & E5 & E). injection E4 as <- <-. destruct (greet_quiet _ _ _ _ _ _ E5) as (Em & _ & Ee5).
  repeat (apply bind_inv in E as (? & ? & [= <- <-] & E)). injection E as <- <-. cbn [record write mem events dirty sched] in *. rewrite Em, Ee5, Ee.
  pose proof (only_place h (handoff_bytes (Arm.ap_handoff info sv k p)) (mem s3)) as Ho. rewrite Hhb in Ho. unfold Arm.SHARED_AP_STACK_SIZE in *.
  pose proof (pl_bounds pl) as Hbd. destruct Hho as (_ & Hs0 & _). pose proof Hcs as (_ & Hsz & _). pose proof (aa_range _ _ _ _ _ (re_allocator _ _ Hr)) as Hra.
  eexists. split; [lia|]. split; [|split; [reflexivity|split]].
  - eapply reaches_agree; [|exact R3]. intros y Hy. apply Ho. intros Hin.
    destruct Hy as [Hy|Hy]; [apply (re_apart _ _ Hr y Hy)|apply (re_apart_object _ _ Hr y Hy)]; lia.
  - right. eexists _, _. split; [reflexivity|]. exists k, p. unfold Arm.SHARED_AP_STACK_SIZE. split_and!; try lia; [apply place_holds|..].
    + intros i Hi. apply cleaned; [lia|lia|lia|]. right. apply cleaned; [lia|lia|lia|]. left. lia.
    + intros i Hi. split; [|apply cleaned; [lia|lia|lia|]; left; lia]. rewrite Ho by lia. apply Hzero. lia.
  - intros y Y1 Y2. rewrite Ho by lia. by apply O3.
Qed.

(** The cores one after another; the allocator has given [used] bytes before. *)
Inductive shared (fid : Z) (hvc : bool) (final : memory) : Z -> list topology_core_t -> list event -> Prop :=
| shared_end used : shared fid hvc final used [] []
| shared_skip used core cs evs : eligible core = false -> shared fid hvc final used cs evs -> shared fid hvc final used (core :: cs) evs
| shared_core used used' core cs new m evs : eligible core = true -> used <= used' <= Z.min boot_len (used + context_size) -> shared_outcome used used' fid hvc (target core) new m ->
    (forall x, boot_base + used <= x < boot_base + used' -> final x = m x) ->
    shared fid hvc final used' cs evs -> shared fid hvc final used (core :: cs) (new ++ evs).

Lemma start_cores_shared fid hvc cs : ap_core_state_phys info = 0 -> forall k used s s' u, reaches (mem s) used ->
  start_cores (Some self) fid hvc cs k s = Some (s', u) ->
  exists evs, events s' = events s ++ evs /\ shared fid hvc (mem s') used cs evs /\
    forall x, ~ in_object x -> ~ boot_base + used <= x < boot_base + boot_len -> mem s' x = mem s x.
Proof.
  intros Hap. induction cs as [|core cs IH]; intros k used s s' u Hr E; cbn [Arm.start_cores] in *.
  { injection E as <- <-. exists []. rewrite app_nil_r. split; [done|]. split; [constructor|done]. }
  destruct (negb (enabled core) || (target core =? me)) eqn:Hel.
  { destruct (IH k used s s' u Hr E) as (evs & H1 & H2 & H3). exists evs. split; [done|]. split; [|done]. apply shared_skip; [unfold eligible; by rewrite Hel|done]. }
  apply bind_inv in E as (s1 & [] & E & E1). destruct (start_shared_ok fid hvc (target core) used s s1 tt Hap Hr E) as (used' & new & Hu & Hr1 & He & Ho & Hout).
  destruct (IH k used' s1 s' u Hr1 E1) as (evs & H1 & H2 & H3). exists (new ++ evs). split; [by rewrite H1, He, app_assoc|]. split.
  - eapply shared_core; [unfold eligible; by rewrite Hel|exact Hu|exact Ho| |exact H2]. intros x Hx. apply H3; [|lia]. intros Hin. apply (re_apart_object _ _ Hr x Hin). lia.
  - intros x X1 X2. rewrite H3 by (done || lia). apply Hout; [done|lia].
Qed.

Lemma start_shared_total a fid hvc t s : exists s' u, start_shared a fid hvc t s = Some (s', u).
Proof.
  do 3 (apply bind_total; [total|intros ? ?]). destruct (_ || _); [total|]. apply bind_total; [total|intros ? ?].
  apply bind_total; [apply bind_total; [apply lift_asked_total; [done|total]|total]|]. total.
Qed.

Lemma start_cores_shared_total a fid hvc cs : forall k s, exists s' u, start_cores (Some a) fid hvc cs k s = Some (s', u).
Proof.
  induction cs as [|core cs IH]; intros k s; cbn [Arm.start_cores]; [total|]. destruct (_ || _); [apply IH|].
  apply bind_total; [apply start_shared_total|]. intros s1 _. apply IH.
Qed.

Lemma shared_all topo s hvc fid used : image_addr = 0 -> kernel_boot_ap_addr info <> 0 -> Arm.psci_method info topo (mem s) = Ret (Some (hvc, fid)) ->
  let version := Psci Arm.PSCI_FUNC_VERSION 0 0 0 hvc (mem s) (dirty s) in
  Arm.version_usable (firmware (events s ++ [version])) = true -> ap_core_state_phys info = 0 -> reaches (mem s) used ->
  exists s' evs, smp_bring_up_all topo s = Some (s', tt) /\ events s' = events s ++ version :: evs /\
    shared fid hvc (mem s') used (cores topo) evs /\ forall x, ~ in_object x -> ~ boot_base + used <= x < boot_base + boot_len -> mem s' x = mem s x.
Proof.
  intros Hia Hboot Hm version Hv Hap Hr. set (s1 := record version s).
  destruct (start_cores_shared_total self fid hvc (cores topo) 0 s1) as (s' & [] & E).
  destruct (start_cores_shared fid hvc (cores topo) Hap 0 used s1 s' tt Hr E) as (evs & He & Hc & Hcf).
  exists s', evs. split; [|split; [rewrite He; cbn [s1 record events]; by rewrite <- app_assoc|by split]].
  unfold Arm.smp_bring_up_all, mbind, SM_bind, get_mem. rewrite Hia, (proj2 (Z.eqb_neq _ _) Hboot), (reaches_for _ _ Hr). cbn [Z.eqb andb negb].
  rewrite (proj2 (Z.eqb_neq self 0)) by apply (re_object _ _ Hr). rewrite Hm. unfold Arm.psci_call. fold version. fold s1.
  change (events s1) with (events s ++ [version]). rewrite Hv. cbn [negb]. exact E.
Qed.

(** *** Which cores are started *)

Definition started_targets (evs : list event) : list Z := omap (fun e => match e with Psci _ t _ _ _ _ _ => Some t | _ => None end) evs.
Definition eligible_targets (cs : list topology_core_t) : list Z := map target (filter (fun core => eligible core = true) cs).

Lemma started_app l l' : started_targets (l ++ l') = started_targets l ++ started_targets l'.
Proof. apply omap_app. Qed.

Lemma copied_targets fid hvc final k cs evs : copied fid hvc final k cs evs ->
  sublist (started_targets evs) (eligible_targets cs) /\
  ((forall k, ~ claim_refused k) -> ~ no_slice -> image_fits info = true -> started_targets evs = eligible_targets cs).
Proof.
  unfold eligible_targets. induction 1 as [k|k core cs evs Hel _ IH|k core cs new m evs Hel Ho _ _ [IH1 IH2]]; [done|rewrite filter_cons_False by congruence; exact IH|].
  rewrite filter_cons_True by done. cbn [map]. rewrite started_app. destruct Ho as [[-> Hr]|[[-> Hr]|(d & -> & _)]]; cbn [started_targets omap list_omap app].
  - split; [by apply sublist_cons|]. intros H. by destruct (H _ Hr).
  - split; [by apply sublist_cons|]. intros _ H1 H2. destruct Hr; [done|congruence].
  - split; [by apply sublist_skip|]. intros H1 H2 H3. f_equal. by apply IH2.
Qed.

Lemma shared_targets fid hvc final used cs evs : 0 <= context_size -> shared fid hvc final used cs evs ->
  sublist (started_targets evs) (eligible_targets cs) /\
  (used + Z.of_nat (length (eligible_targets cs)) * context_size <= boot_len -> started_targets evs = eligible_targets cs).
Proof.
  intros Hc. unfold eligible_targets. induction 1 as [k|k core cs evs Hel _ IH|used used' core cs new m evs Hel Hu Ho _ _ [IH1 IH2]]; [done|rewrite filter_cons_False by congruence; exact IH|].
  rewrite filter_cons_True by done. cbn [map length]. rewrite started_app. destruct Ho as [[-> Hr]|(h & d & -> & _)]; cbn [started_targets omap list_omap app].
  - split; [by apply sublist_cons|]. intros H. nia.
  - split; [by apply sublist_skip|]. intros H. f_equal. apply IH2. nia.
Qed.
End arm.

Section theorems.
Context {W : Type} (c : client W) (ctr mpidr : Z) (firmware : list event -> Z).
Context (handoff_size core_state_size ho_k cs_k : Z) (handoff_bytes : init_ap_handoff -> list Z) (info : init_boot_info) (sv : services).
Context (ram_base self boot_base boot_len pool_lo pool_hi : Z) (topo : topology_t) (s : machine W) (hvc : bool) (fid : Z).
Let version := Psci Arm.PSCI_FUNC_VERSION 0 0 0 hvc (mem s) (dirty s).
Let bring_up := Arm.smp_bring_up_all c ctr mpidr firmware handoff_size (2 ^ ho_k) core_state_size (2 ^ cs_k) handoff_bytes info sv ram_base topo s.

(** What both paths start from: memory laid out as smp_layout.h has it, a client that is bound, usable firmware, and
    requests that do not wrap. *)
Record usable : Prop := {
  us_placed : placed info ram_base self boot_base boot_len pool_lo pool_hi;
  us_bound : is_Some (b_invoke (scheduler_client c));
  us_method : Arm.psci_method info topo (mem s) = Ret (Some (hvc, fid));
  us_version : Arm.version_usable (firmware (events s ++ [version])) = true;
  us_state : 0 < core_state_size /\ request_fits boot_len core_state_size cs_k;
  us_no_state : ap_core_state_phys info = 0 }.

(** C22: Cores with a copy of the image (AArch64): bringing up a machine of at most 64 cores always returns.  The enabled cores
    other than this one are taken in order, each with the next region.  One is passed over only if the scheduler refuses the
    region or has no memory for its state, or if the image does not fit; any other is started by one call, after the claim of
    its region was accepted, and at that call its region holds the kernel's image and the discovery record, its state is
    zeroed, all of it has reached RAM, and it stays so in the region; only claimed regions and memory of the allocators is
    ever written. *)
Theorem arm_copied_cores (ok : W -> Prop) :
  usable -> (length (cores topo) <= 64)%nat -> kernel_image_addr info <> 0 -> services_u64 info sv ->
  (forall invoke t meth msg cap w, b_invoke (scheduler_client c) = Some invoke -> ok w -> ok (fst (invoke t meth msg cap w))) ->
  (forall w w' r b, ok w -> scheduler_allocate_slice c core_state_size MEM_KIND_JOB_SLICE RESOURCE_SYNC_TRANSFER 0 w = Some (w', (true, r, b)) ->
    pool_lo <= b /\ b + core_state_size <= pool_hi) ->
  ok (sched s) -> boot_state info self boot_base boot_len (mem s) ->
  exists s' evs, bring_up = Some (s', tt) /\ events s' = events s ++ version :: evs /\
    copied c mpidr core_state_size info sv ram_base (mem s) boot_base boot_len pool_lo pool_hi fid hvc (mem s') 0 (cores topo) evs /\
    confined self boot_base boot_len pool_lo pool_hi evs (mem s) (mem s') /\
    sublist (started_targets evs) (eligible_targets mpidr (cores topo)) /\
    ((forall k, ~ claim_refused c ram_base k) -> ~ no_slice c core_state_size -> image_fits info = true ->
      started_targets evs = eligible_targets mpidr (cores topo)).
Proof.
  intros [Hp Hb Hm Hv [Hs Hq] Hn] Hlen Hia Hsv Hk Hsl Hok Hbs.
  destruct (copied_all c ctr mpidr firmware handoff_size (2 ^ ho_k) core_state_size (2 ^ cs_k) handoff_bytes info sv ram_base (mem s) self boot_base boot_len
    pool_lo pool_hi Hp cs_k ltac:(by split_and!) ok Hk Hsl Hsv Hb topo s hvc fid Hlen Hia Hm Hv eq_refl Hok Hbs) as (s' & evs & H1 & H2 & H3 & H4).
  exists s', evs. split_and!; try done; by apply copied_targets in H3 as [].
Qed.

(** C23: Cores of a shared image (AArch64): bringing up always returns, and with enough memory in the boot allocator every enabled
    core other than this one is started, once and in order.  A core that is started gets a handoff object, a stack and a zeroed
    state of its own, one after another in what the allocator had free, after all that earlier cores got; the handoff names
    them, it and the state have reached RAM at the call, and they stay; no other memory is written. *)
Theorem arm_shared_cores used :
  usable -> kernel_image_addr info = 0 -> kernel_boot_ap_addr info <> 0 -> reaches info self boot_base boot_len (mem s) used ->
  0 <= handoff_size -> request_fits boot_len handoff_size ho_k -> request_fits boot_len Arm.SHARED_AP_STACK_SIZE 4 ->
  (forall h, Z.of_nat (length (handoff_bytes h)) = handoff_size) ->
  exists s' evs, bring_up = Some (s', tt) /\ events s' = events s ++ version :: evs /\
    shared mpidr handoff_size core_state_size handoff_bytes info sv boot_base boot_len cs_k ho_k fid hvc (mem s') used (cores topo) evs /\
    (forall x, ~ in_object self x -> ~ boot_base + used <= x < boot_base + boot_len -> mem s' x = mem s x) /\
    sublist (started_targets evs) (eligible_targets mpidr (cores topo)) /\
    (used + Z.of_nat (length (eligible_targets mpidr (cores topo))) * context_size handoff_size core_state_size cs_k ho_k <= boot_len ->
      started_targets evs = eligible_targets mpidr (cores topo)).
Proof.
  intros [Hp Hb Hm Hv [Hs Hq] Hn] Hia Hboot Hr H0 Hho Hst Hl.
  destruct (shared_all c ctr mpidr firmware handoff_size (2 ^ ho_k) core_state_size (2 ^ cs_k) handoff_bytes info sv ram_base self boot_base boot_len
    pool_lo pool_hi Hp cs_k ltac:(by split_and!) Hb ho_k ltac:(by split_and!) Hl Hst topo s hvc fid used Hia Hboot Hm Hv Hn Hr) as (s' & evs & H1 & H2 & H3 & H4).
  exists s', evs. assert (0 <= context_size handoff_size core_state_size cs_k ho_k) as Hc.
  { unfold context_size, Arm.SHARED_AP_STACK_SIZE. destruct Hq as (_ & ? & _), Hho as (_ & ? & _). pose proof (Z.pow_pos_nonneg 2 ho_k). pose proof (Z.pow_pos_nonneg 2 cs_k). lia. }
  split_and!; try done; eapply shared_targets in H3; try done; try apply H3; by split_and!.
Qed.
End theorems.

(** *** A machine of four cores, of which one is this one and one is off *)

Definition demo_psci : list Z :=
  flatten (DNode [] [] [DNode [112; 115; 99; 105] [(0, Arm.S_hvc ++ [0]); (7, be32 Arm.PSCI_FUNC_CPU_ON_64)] []]) (Arm.S_method ++ [0] ++ Arm.S_cpu_on ++ [0]).
Definition demo_cores : topology_t :=
  {| cores := [{| target := 0; enabled := true |}; {| target := 1; enabled := true |}; {| target := 2; enabled := false |}; {| target := 3; enabled := true |}];
     arch_opaque := (0, 0, 0, 0x48000000) |}.
(** A scheduler that grants everything, with slices of 1 MiB. *)
Definition demo_grants : invoke_fn Z := fun _ _ _ _ w => (w + 1, (true, Some [1; w; 0x54000000 + w mod 16 * 0x100000])).
Definition demo_sched : client Z := {| core_binding := None; g_binding := {| b_invoke := Some demo_grants; b_cluster := 5; b_node_id := 0 |} |}.
Definition demo_services : services :=
  {| memory_manager := 2; mutex_manager := 3; hw_mutex_id := 4; lapic_count := 0; cluster_scheduler := 5; serial_resource := 6 |}.
Definition demo_boot (image len description : Z) : init_boot_info :=
  {| caps_factory := 1; kernel_invoke_addr := 0x41000100; kernel_load_base := 0x41000000; kernel_boot_ap_addr := 0x41000004; pml4_phys := 0;
     init_image_addr := 0; init_image_len := 0; kernel_image_addr := image; kernel_image_len := len; bsp_kernel_invoke_addr := 0; mutex_manager_handle := 0;
     memory_manager_handle := 0; hardware_mutex_id := 0; lapic_calibration_count := 0; cluster_scheduler_handle := 0; serial_resource_handle := 0;
     early_rsdp_phys := 0; fdt_blob_phys := 0x48000000; ram_size := 0; init_description_phys := description; init_entry_addr := 0x40200000;
     ap_core_state_phys := 0 |}.
Definition demo_mem : memory :=
  place 0x41880050 (concat (map (le_bytes 8) [BOOT_ALLOCATOR_MAGIC; 0x41880090; 0x418800d0; 0x41880000; 0x110000; 0x100; 0]))
    (place 0x41880010 (concat (map (le_bytes 8) [INIT_DESCRIPTION_MAGIC; 0x41880040])) (place 0x48000000 demo_psci (fun _ => 0))).
Definition demo_state : machine Z := {| sched := 0; mem := demo_mem; dirty := fun _ => true; events := [] |}.
Definition demo_handoff (h : init_ap_handoff) : list Z := le_bytes 8 (stack_top h) ++ le_bytes 8 (init_entry h) ++ replicate 176 0.

Lemma demo_placed image len description : image = 0 /\ len = 0 \/ image = 0x41000000 /\ len = 64 -> description = 0 \/ description = 0x41880000 ->
  placed (demo_boot image len description) 0x40000000 0x41880050 0x41880000 0x110000 0x54000000 0x58000000.
Proof.
  intros Hi Hd. split; unfold in_image, in_regions, in_object, in_blocks, in_pool, in_description, Arm.CORE_REGION_BASE, CORE_REGION_SIZE, W64; cbn; lia.
Qed.

Lemma demo_usable image len description : image = 0 /\ len = 0 \/ image = 0x41000000 /\ len = 64 -> description = 0 \/ description = 0x41880000 ->
  usable demo_sched (fun _ => 0x10001) 0x10000 12 (demo_boot image len description) 0x40000000 0x41880050 0x41880000 0x110000 0x54000000 0x58000000
    demo_cores demo_state true Arm.PSCI_FUNC_CPU_ON_64.
Proof.
  intros Hi Hd. split.
  - by apply demo_placed.
  - by eexists.
  - vm_compute. reflexivity.
  - vm_compute. reflexivity.
  - split; [reflexivity|split; [discriminate|split; [split; [discriminate|reflexivity]|reflexivity]]].
  - reflexivity.
Qed.

Lemma arm_copied_cores_witness :
  exists s' evs, Arm.smp_bring_up_all demo_sched 0x40000 0x80000000 (fun _ => 0x10001) 192 (2 ^ 3) 0x10000 (2 ^ 12) demo_handoff
      (demo_boot 0x41000000 64 0) demo_services 0x40000000 demo_cores demo_state = Some (s', tt) /\ started_targets evs = [1; 3].
Proof.
  destruct (arm_copied_cores demo_sched 0x40000 0x80000000 (fun _ => 0x10001) 192 0x10000 3 12 demo_handoff (demo_boot 0x41000000 64 0) demo_services 0x40000000
    0x41880050 0x41880000 0x110000 0x54000000 0x58000000 demo_cores demo_state true Arm.PSCI_FUNC_CPU_ON_64 (fun _ => True))
    as (s' & evs & H1 & _ & _ & _ & _ & H2).
  - apply demo_usable; [by right|by left].
  - cbn. lia.
  - discriminate.
  - split_and!; (split; [discriminate|reflexivity]).
  - done.
  - intros w w' r b _ E. injection E as _ _ <-. change (word [1; w; ?x] 2) with x. pose proof (Z.mod_pos_bound w 16 eq_refl). lia.
  - exact I.
  - split; [reflexivity|]. by left.
  - exists s', evs. split; [exact H1|]. rewrite H2; [reflexivity| | |reflexivity].
    + intros k (w & w' & r & E). discriminate E.
    + intros (w & w' & r & b & E). discriminate E.
Defined.

Lemma demo_reaches : reaches (demo_boot 0 0 0x41880000) 0x41880050 0x41880000 0x110000 demo_mem 0x100.
Proof.
  split; [discriminate|vm_compute; reflexivity|vm_compute; reflexivity|split; discriminate| | |].
  - split; [split; [vm_compute; reflexivity|vm_compute; discriminate]|vm_compute; reflexivity..|unfold W64; lia].
  - intros x. unfold in_description, in_object. cbn. lia.
  - intros x. unfold in_object. lia.
Qed.

Lemma arm_shared_cores_witness :
  exists s' evs, Arm.smp_bring_up_all demo_sched 0x40000 0x80000000 (fun _ => 0x10001) 192 (2 ^ 3) 0x10000 (2 ^ 12) demo_handoff
      (demo_boot 0 0 0x41880000) demo_services 0x40000000 demo_cores demo_state = Some (s', tt) /\ started_targets evs = [1; 3].
Proof.
  destruct (arm_shared_cores demo_sched 0x40000 0x80000000 (fun _ => 0x10001) 192 0x10000 3 12 demo_handoff (demo_boot 0 0 0x41880000) demo_services 0x40000000
    0x41880050 0x41880000 0x110000 0x54000000 0x58000000 demo_cores demo_state true Arm.PSCI_FUNC_CPU_ON_64 0x100)
    as (s' & evs & H1 & _ & _ & _ & _ & H2).
  - apply demo_usable; [by left|by right].
  - reflexivity.
  - discriminate.
  - exact demo_reaches.
  - discriminate.
  - split; [discriminate|split; [split; [discriminate|reflexivity]|reflexivity]].
  - split; [discriminate|split; [split; [discriminate|reflexivity]|reflexivity]].
  - intros h. reflexivity.
  - exists s', evs. split; [exact H1|]. apply H2. vm_compute. discriminate.
Defined.
End ArmSpec.
