(* ===== verification/SmpX86.v ===== *)
(** * What a started core finds on x86-64

    Which cores smp_x86_64.c starts, that what they will read is in place
    when they are sent for, that nothing is written outside of claimed memory
    and the trampoline, and what it leaves open. *)

From Stdlib Require Import Sorting.Sorted.
From S2P Require Import Prelude Bytes Capnp MemMgr Objects Cluster Client Acpi BootAlloc Smp SmpSpec.

Section x86.
Context {W : Type} (c : client W) (my_apic_id : Z) (icr : list event -> nat -> Z) (looks : nat) (ap_trampoline_blob : list Z) (gdt_ptr : Z).
Context (info : init_boot_info) (sv : services) (m0 : memory).
Abbreviation image_addr := (kernel_image_addr info).
Abbreviation image_len := (kernel_image_len info).

Definition x86_region (k : Z) : Z := X86.CORE_REGION_BASE + k * CORE_REGION_SIZE.
Definition x86_eligible (core : topology_core_t) : bool := negb (negb (enabled core) || (target core mod 256 =? my_apic_id)).
Definition in_trampoline (x : Z) : Prop := X86.AP_TRAMPOLINE_ADDR <= x < X86.AP_TRAMPOLINE_ADDR + 4096.

(** The image lies neither in the trampoline's page nor in the regions of 64 cores; the trampoline fits its page; addresses
    and handles are 64-bit words. *)
Record x86_placed : Prop := {
  xp_image : forall x, image_addr <= x < image_addr + image_len ->
    ~ in_trampoline x /\ ~ x86_region 0 <= x < x86_region 64;
  xp_len : 0 <= image_len;
  xp_blob : (length ap_trampoline_blob <= 4096)%nat;
  xp_words : services_u64 info sv /\ is_u64 (pml4_phys info) /\ is_u64 gdt_ptr }.

Hypothesis pl : x86_placed.

(** At the sending: region [k] holds the image and the discovery record, and the trampoline the parameters of this core,
    with the code of the blob around them. *)
Definition x86_ready (k : Z) (m : memory) : Prop :=
  (forall i, 0 <= i < image_len -> m (x86_region k + i) = m0 (image_addr + i)) /\
  (forall f, In f (discovery_fields info sv) -> ld64 m (x86_region k + CORE_DISCOVERY_OFFSET + fst f) = snd f) /\
  (forall f, In f (X86.trampoline_fields gdt_ptr info (x86_region k)) -> ld64 m (X86.AP_TRAMPOLINE_ADDR + fst f) = snd f) /\
  (forall i b, ap_trampoline_blob !! i = Some b -> ~ 0x40 <= Z.of_nat i < 0x68 -> m (X86.AP_TRAMPOLINE_ADDR + Z.of_nat i) = b).

(** INIT, SIPI and SIPI to one core. *)
Definition ipis (apic_id : Z) (m : memory) : list event :=
  let to := Lapic X86.LAPIC_REG_ICR_HIGH (u32 (Z.shiftl apic_id 24)) m in
  [to; Lapic X86.LAPIC_REG_ICR_LOW 0x4500 m; to; Lapic X86.LAPIC_REG_ICR_LOW 0x4608 m; to; Lapic X86.LAPIC_REG_ICR_LOW 0x4608 m].

Definition x86_refused (k : Z) : Prop :=
  exists w w' r, scheduler_request_allocation c (x86_region k) CORE_REGION_SIZE MEM_KIND_CORE_REGION RESOURCE_SYNC_TRANSFER w = Some (w', (false, r)).

Definition x86_outcome (k t : Z) (new : list event) (m : memory) : Prop :=
  (new = [] /\ x86_refused k) \/
  (new = [Claimed (x86_region k) CORE_REGION_SIZE] /\ image_fits info = false) \/
  (new = Claimed (x86_region k) CORE_REGION_SIZE :: ipis (t mod 256) m /\ x86_ready k m).

(** Memory the loop has not touched: the image, and the trampoline's code. *)
Definition x86_kept (m : memory) : Prop :=
  (forall x, image_addr <= x < image_addr + image_len -> m x = m0 x) /\
  (forall i b, ap_trampoline_blob !! i = Some b -> ~ 0x40 <= Z.of_nat i < 0x68 -> m (X86.AP_TRAMPOLINE_ADDR + Z.of_nat i) = b).

Abbreviation prepared k m := (write_fields X86.AP_TRAMPOLINE_ADDR (X86.trampoline_fields gdt_ptr info (x86_region k))
  (write_fields (x86_region k + CORE_DISCOVERY_OFFSET) (discovery_fields info sv)
    (copy_loop (Z.to_nat image_len) (x86_region k + CORE_KERNEL_OFFSET) image_addr m))).

Lemma only_fields base lo hi fs m : Forall (fun f => lo <= fst f /\ fst f + 8 <= hi) fs -> only (base + lo) (hi - lo) m (write_fields base fs m).
Proof.
  revert m. unfold write_fields. induction fs as [|f fs IH]; intros m Hf; cbn [fold_left]; [done|]. apply Forall_cons in Hf as [H1 H2].
  eapply only_trans; [|by apply IH]. eapply (only_wider _ 8); [| |apply only_st64]; lia.
Qed.

Lemma trampoline_within r : fields_within 0x68 (X86.trampoline_fields gdt_ptr info r) /\
  Forall (fun f => 0x40 <= fst f /\ fst f + 8 <= 0x68) (X86.trampoline_fields gdt_ptr info r).
Proof. unfold X86.trampoline_fields. split; solve_within. Qed.

Lemma x86_region_range k : 0 <= k < 64 -> x86_region 0 <= x86_region k /\ x86_region k + CORE_REGION_SIZE <= x86_region 64.
Proof. unfold x86_region, X86.CORE_REGION_BASE, CORE_REGION_SIZE. lia. Qed.

Lemma trampoline_u64 k : 0 <= k < 64 -> Forall (fun f => is_u64 (snd f)) (X86.trampoline_fields gdt_ptr info (x86_region k)).
Proof.
  intros Hk. destruct (xp_words pl) as (_ & H1 & H2). unfold X86.trampoline_fields, x86_region, X86.CORE_REGION_BASE, CORE_REGION_SIZE, CORE_STACK_OFFSET, CORE_STACK_SIZE.
  repeat (apply Forall_cons; split; [cbn [snd]; first [done|apply Z.mod_pos_bound; reflexivity|unfold is_u64, W64; lia]|]). apply Forall_nil_2.
Qed.

Lemma x86_image_apart k : 0 <= k < 64 -> image_fits info = true -> x86_region k + image_len <= image_addr \/ image_addr + image_len <= x86_region k.
Proof.
  intros Hk Hf. pose proof (image_fits_len info (xp_len pl) Hf) as Hl. pose proof (x86_region_range k Hk) as Hr.
  destruct (Z_le_gt_dec (x86_region k + image_len) image_addr) as [|H1]; [by left|].
  destruct (Z_le_gt_dec (image_addr + image_len) (x86_region k)) as [|H2]; [by right|]. exfalso.
  destruct (xp_image pl (Z.max (x86_region k) image_addr) ltac:(lia)) as [_ H]. apply H. unfold CORE_KERNEL_MAX_SIZE, CORE_REGION_SIZE in *. lia.
Qed.

Lemma prepared_ok k m : 0 <= k < 64 -> image_fits info = true -> x86_kept m ->
  x86_ready k (prepared k m) /\ x86_kept (prepared k m) /\
  forall x, ~ in_trampoline x -> ~ x86_region k <= x < x86_region k + CORE_REGION_SIZE -> prepared k m x = m x.
Proof.
  intros Hk Hf [Him Hbl]. pose proof (image_fits_len info (xp_len pl) Hf) as Hl. pose proof (x86_region_range k Hk) as Hr.
  destruct (region_filled (x86_region k) image_addr image_len (discovery_fields info sv) m m0) as (F1 & F2 & F3);
    [lia|by apply x86_image_apart|intros i Hi; apply Him; lia|unfold discovery_fields; solve_within
    |rewrite <- (app_nil_r (discovery_fields info sv)); apply discovery_u64; [apply (xp_words pl)|apply Forall_nil_2]|].
  set (m1 := write_fields (x86_region k + CORE_DISCOVERY_OFFSET) _ _) in *. set (fs := X86.trampoline_fields gdt_ptr info (x86_region k)).
  pose proof (only_fields X86.AP_TRAMPOLINE_ADDR 0x40 0x68 fs m1 (proj2 (trampoline_within _))) as Ho.
  assert (x86_region 0 = 0x4000000) as H0 by reflexivity. unfold CORE_KERNEL_MAX_SIZE, CORE_REGION_SIZE in *. unfold X86.AP_TRAMPOLINE_ADDR in Ho.
  assert (forall i b, ap_trampoline_blob !! i = Some b -> ~ 0x40 <= Z.of_nat i < 0x68 -> write_fields 0x8000 fs m1 (0x8000 + Z.of_nat i) = b) as Hb'.
  { intros i b Hi Hn. pose proof (lookup_lt_Some _ _ _ Hi). pose proof (xp_blob pl). rewrite Ho by lia. rewrite F3 by lia. by apply Hbl. }
  split; [|split].
  - split_and!; [| |by apply (write_fields_read _ 0x68); [apply trampoline_within|apply trampoline_u64]|exact Hb'].
    + intros i Hi. unfold X86.AP_TRAMPOLINE_ADDR. rewrite Ho by lia. by apply F1.
    + intros f Hfi. rewrite (ld64_agree m1); [by apply F2|]. intros x Hx. apply Ho.
      assert (0 <= fst f) by (repeat (destruct Hfi as [<-|Hfi]; [discriminate|]); done). unfold CORE_DISCOVERY_OFFSET in Hx. lia.
  - split; [|exact Hb']. intros x Hx. destruct (xp_image pl x Hx) as [H1 H2]. unfold in_trampoline, X86.AP_TRAMPOLINE_ADDR in *. rewrite Ho by lia. rewrite F3 by lia. by apply Him.
  - intros x H1 H2. unfold in_trampoline, X86.AP_TRAMPOLINE_ADDR in *. rewrite Ho by lia. apply F3. lia.
Qed.

(** *** The loop *)

Hypothesis idle : forall es, X86.wait_loop icr looks 0 es = Some tt.
Abbreviation start_core := (X86.start_core c my_apic_id icr looks gdt_ptr info sv).
Abbreviation start_cores := (X86.start_cores_x86 c my_apic_id icr looks gdt_ptr info sv).

Lemma send_ipi_eq apic_id low (s : machine W) : X86.send_ipi icr looks apic_id low s =
  Some (record (Lapic X86.LAPIC_REG_ICR_LOW low (mem s)) (record (Lapic X86.LAPIC_REG_ICR_HIGH (u32 (Z.shiftl apic_id 24)) (mem s)) s), tt).
Proof. unfold X86.send_ipi, mbind, SM_bind, X86.lapic_wait_icr_idle. by rewrite idle. Qed.

Lemma start_core_ok k t s s' u : 0 <= k < 64 -> x86_kept (mem s) -> start_core (x86_region k) t s = Some (s', u) ->
  x86_kept (mem s') /\ exists new, events s' = events s ++ new /\ x86_outcome k t new (mem s') /\
    forall x, ~ in_trampoline x -> ~ (new <> [] /\ x86_region k <= x < x86_region k + CORE_REGION_SIZE) -> mem s' x = mem s x.
Proof.
  intros Hk Hkept E. apply bind_inv in E as (s1 & yes & E & E1). destruct (claim_region_inv _ _ _ _ _ _ _ E) as (Em & _ & Ee). destruct yes; cbn [negb] in E1.
  2: { injection E1 as <- <-. rewrite Em. split; [done|]. exists []. split; [done|]. split; [|done]. left. split; [done|].
       apply bind_inv in E as (s2 & [yes r] & E & E'). apply lift_quiet in E as [_ E]. unfold note_claim in E'. injection E' as _ E'. cbn [fst] in E'. subst yes. by eexists _, _, _. }
  destruct (image_fits info) eqn:Hf; cbn [negb] in E1.
  2: { injection E1 as <- <-. rewrite Em. split; [done|]. eexists. split; [exact Ee|]. split; [right; left; by split|done]. }
  apply bind_inv in E1 as (s2 & u2 & E2 & E1). apply bind_inv in E1 as (s3 & u3 & E3 & E1). apply bind_inv in E1 as (s4 & u4 & E4 & E1). apply bind_inv in E1 as (s5 & u5 & E5 & E1).
  injection E2 as <- <-. injection E3 as <- <-. injection E4 as <- <-. destruct (greet_quiet _ _ _ _ _ _ E5) as (Em5 & _ & Ee5). cbn [write mem events] in *. rewrite Em in Em5.
  unfold X86.send_init_sipi_sipi, mbind, SM_bind in E1. rewrite !send_ipi_eq in E1. injection E1 as <- <-. cbn [record mem events]. rewrite Em5, Ee5, Ee.
  destruct (prepared_ok k (mem s) Hk Hf Hkept) as (P1 & P2 & P3). split; [exact P2|]. eexists. split; [rewrite <- !app_assoc; reflexivity|]. split.
  - right. right. split; [reflexivity|exact P1].
  - intros x X1 X2. apply P3; [done|]. intros Hx. apply X2. by split.
Qed.

(** The cores one after another, from region [k] on; [final] is the memory all of it leaves. *)
Inductive x86_run (final : memory) : Z -> list topology_core_t -> list event -> Prop :=
| x86_end k : x86_run final k [] []
| x86_skip k core cs evs : x86_eligible core = false -> x86_run final k cs evs -> x86_run final k (core :: cs) evs
| x86_core k core cs new m evs : x86_eligible core = true -> x86_outcome k (target core) new m ->
    (new <> [] -> forall x, x86_region k <= x < x86_region k + CORE_REGION_SIZE -> final x = m x) ->
    x86_run final (k + 1) cs evs -> x86_run final k (core :: cs) (new ++ evs).

(** Only claimed regions and the trampoline's page are written. *)
Definition x86_confined (evs : list event) (m m' : memory) : Prop :=
  forall x, ~ in_trampoline x -> (forall base, In (Claimed base CORE_REGION_SIZE) evs -> ~ base <= x < base + CORE_REGION_SIZE) -> m' x = m x.

Lemma x86_run_claims final k cs evs base : x86_run final k cs evs -> In (Claimed base CORE_REGION_SIZE) evs -> exists j, k <= j /\ base = x86_region j.
Proof.
  induction 1 as [k|k core cs evs _ _ IH|k core cs new m evs _ Ho _ _ IH]; [done|exact IH|]. intros [Hin|Hin]%in_app_or.
  - exists k. split; [lia|]. destruct Ho as [[-> _]|[[-> _]|[-> _]]]; cbn [In ipis] in Hin; intuition congruence.
  - destruct (IH Hin) as (j & Hj & ->). exists j. split; [lia|done].
Qed.

Lemma start_cores_ok cs : forall k s s' u, 0 <= k -> k + Z.of_nat (length cs) <= 64 -> x86_kept (mem s) -> start_cores cs k s = Some (s', u) ->
  exists evs, events s' = events s ++ evs /\ x86_run (mem s') k cs evs /\ x86_confined evs (mem s) (mem s').
Proof.
  induction cs as [|core cs IH]; intros k s s' u Hk Hlen Hkept E; cbn [X86.start_cores_x86 length] in *.
  { injection E as <- <-. exists []. rewrite app_nil_r. split; [done|]. split; [constructor|done]. }
  destruct (negb (enabled core) || (target core mod 256 =? my_apic_id)) eqn:Hel.
  { destruct (IH k s s' u Hk ltac:(lia) Hkept E) as (evs & H1 & H2 & H3). exists evs. split; [done|]. split; [|done]. apply x86_skip; [unfold x86_eligible; by rewrite Hel|done]. }
  apply bind_inv in E as (s1 & [] & E & E1). destruct (start_core_ok k (target core) s s1 _ ltac:(lia) Hkept E) as (Hk1 & new & He & Ho & Hout).
  destruct (IH (k + 1) s1 s' u ltac:(lia) ltac:(lia) Hk1 E1) as (evs & H1 & H2 & H3). exists (new ++ evs). split; [by rewrite H1, He, app_assoc|]. split.
  - eapply x86_core; [unfold x86_eligible; by rewrite Hel|exact Ho| |exact H2]. intros _ x Hx. unfold x86_region, X86.CORE_REGION_BASE, CORE_REGION_SIZE in Hx.
    apply H3; [unfold in_trampoline, X86.AP_TRAMPOLINE_ADDR; lia|]. intros base Hin. destruct (x86_run_claims _ _ _ _ _ H2 Hin) as (j & Hj & ->).
    unfold x86_region, X86.CORE_REGION_BASE, CORE_REGION_SIZE. lia.
  - intros x X1 X2. rewrite H3; [|done|intros base Hin; apply X2, in_or_app; by right]. apply Hout; [done|]. intros [Hn Hx].
    assert (In (Claimed (x86_region k) CORE_REGION_SIZE) new) as Hc by (destruct Ho as [[-> _]|[[-> _]|[-> _]]]; [done|by left..]).
    apply (X2 (x86_region k)); [apply in_or_app; by left|done].
Qed.

Hypothesis bound : is_Some (b_invoke (scheduler_client c)).

Lemma start_cores_returns cs : forall k s, exists s' u, start_cores cs k s = Some (s', u).
Proof.
  induction cs as [|core cs IH]; intros k s; cbn [X86.start_cores_x86]; [total|]. destruct (_ || _); [apply IH|]. apply bind_total; [|intros s1 _; apply IH].
  apply bind_total; [apply bind_total; [apply lift_asked_total; [done|total]|total]|]. intros s1 yes. destruct (negb yes); [total|]. destruct (negb (image_fits info)); [total|].
  do 3 (apply bind_total; [total|intros ? ?]). apply bind_total; [apply bind_total; [apply lift_asked_total; [done|total]|total]|].
  intros ? ?. unfold X86.send_init_sipi_sipi, mbind, SM_bind. rewrite !send_ipi_eq. total.
Qed.
End x86.

(** C24: Cores on x86-64: if the APIC takes every sending, bringing up a machine of at most 64 cores always returns.  The enabled
    cores other than this one are taken in order, each with the next region; one is passed over only if its region is refused
    or the image does not fit, and any other is sent INIT, SIPI and SIPI, after the claim of its region was accepted, with the
    image, the discovery record and its own parameters in the trampoline in place; its region stays as it was then, and only
    claimed regions and the trampoline's page are written. *)
Theorem x86_cores_started {W} (c : client W) my_apic_id icr looks blob gdt_ptr info sv topo (s : machine W) :
  x86_placed blob gdt_ptr info sv -> is_Some (b_invoke (scheduler_client c)) -> (forall es, X86.wait_loop icr looks 0 es = Some tt) ->
  (length (cores topo) <= 64)%nat -> kernel_image_addr info <> 0 ->
  exists s' evs, X86.smp_bring_up_all_x86 c my_apic_id icr looks blob gdt_ptr info sv topo s = Some (s', tt) /\ events s' = events s ++ evs /\
    x86_run c my_apic_id blob gdt_ptr info sv (mem s) (mem s') 0 (cores topo) evs /\ x86_confined evs (mem s) (mem s').
Proof.
  intros Hp Hb Hidle Hlen Hia. set (s1 := write (place X86.AP_TRAMPOLINE_ADDR blob) s).
  assert (x86_kept blob info (mem s) (mem s1)) as Hk.
  { unfold s1. cbn [write mem]. split; [|intros i b Hi _; by apply place_holds]. intros x Hx. destruct (xp_image _ _ _ _ Hp x Hx) as [H1 _].
    pose proof (xp_blob _ _ _ _ Hp). apply place_other. unfold in_trampoline in H1. lia. }
  destruct (start_cores_returns c my_apic_id icr looks gdt_ptr info sv Hidle Hb (cores topo) 0 s1) as (s' & [] & E).
  destruct (start_cores_ok c my_apic_id icr looks blob gdt_ptr info sv (mem s) Hp Hidle (cores topo) 0 s1 s' tt ltac:(lia) ltac:(lia) Hk E) as (evs & He & Hr & Hc).
  exists s', evs. split; [|split; [exact He|split; [exact Hr|]]].
  - unfold X86.smp_bring_up_all_x86, mbind, SM_bind. rewrite (proj2 (Z.eqb_neq _ _) Hia). exact E.
  - intros x X1 X2. rewrite Hc by done. unfold s1. cbn [write mem]. apply place_other. pose proof (xp_blob _ _ _ _ Hp). unfold in_trampoline in X1. lia.
Qed.

Definition x86_demo_boot : init_boot_info :=
  {| caps_factory := 1; kernel_invoke_addr := 0x1000100; kernel_load_base := 0x1000000; kernel_boot_ap_addr := 0x1000004; pml4_phys := 0x2000;
     init_image_addr := 0; init_image_len := 0; kernel_image_addr := 0x1000000; kernel_image_len := 16; bsp_kernel_invoke_addr := 0; mutex_manager_handle := 0;
     memory_manager_handle := 0; hardware_mutex_id := 0; lapic_calibration_count := 0; cluster_scheduler_handle := 0; serial_resource_handle := 0;
     early_rsdp_phys := 0; fdt_blob_phys := 0; ram_size := 0; init_description_phys := 0; init_entry_addr := 0; ap_core_state_phys := 0 |}.
Definition x86_demo_state : machine Z := {| sched := 0; mem := fun _ => 0; dirty := fun _ => false; events := [] |}.
Definition x86_demo_up := X86.smp_bring_up_all_x86 ArmSpec.demo_sched 0 (fun _ _ => 0) 1 (replicate 254 0x90) 0x1234 x86_demo_boot ArmSpec.demo_services
  ArmSpec.demo_cores x86_demo_state.

Lemma x86_cores_started_witness : exists s' evs, x86_demo_up = Some (s', tt) /\ events s' = evs /\
  x86_run ArmSpec.demo_sched 0 (replicate 254 0x90) 0x1234 x86_demo_boot ArmSpec.demo_services (fun _ => 0) (mem s') 0 (cores ArmSpec.demo_cores) evs.
Proof.
  destruct (x86_cores_started ArmSpec.demo_sched 0 (fun _ _ => 0) 1 (replicate 254 0x90) 0x1234 x86_demo_boot ArmSpec.demo_services ArmSpec.demo_cores x86_demo_state)
    as (s' & evs & H1 & H2 & H3 & _).
  - split.
    + intros x. unfold in_trampoline, x86_region, X86.AP_TRAMPOLINE_ADDR, X86.CORE_REGION_BASE, CORE_REGION_SIZE. cbn. lia.
    + discriminate.
    + cbn. lia.
    + split; [split_and!; (split; [discriminate|reflexivity])|split; split; (discriminate || reflexivity)].
  - by eexists.
  - reflexivity.
  - cbn. lia.
  - discriminate.
  - exists s', evs. split; [exact H1|split; [exact H2|exact H3]].
Defined.

(** The next core's parameters replace those in the trampoline as soon as the last SIPI was sent, without a word from the core
    before: here two cores are started with regions 0 and 1, and one that is slow to begin finds the region of the other. *)
Theorem late_core_takes_next_parameters :
  let found m := ld64 m (X86.AP_TRAMPOLINE_ADDR + X86.AP_PARAM_REGION_BASE_OFF) in
  match x86_demo_up with
  | Some (s', _) =>
      omap (fun e => match e with Lapic _ val m => if val =? 0x4608 then Some (found m) else None | _ => None end) (events s') =
        [x86_region 0; x86_region 0; x86_region 1; x86_region 1] /\ found (mem s') = x86_region 1
  | None => False
  end.
Proof. vm_compute. split; reflexivity. Qed.
