(* ===== verification/Bits.v ===== *)
(** * Fields of a word

    [field x lo w] is the [w] bits of [x] from bit [lo], as a device or the
    CPU reads them.  The lemmas read a field back from a word that was put
    together with shifts and [|]. *)

From S2P Require Import Prelude.

#[local] Open Scope Z_scope.

Definition field (x lo w : Z) : Z := Z.land (Z.shiftr x lo) (Z.ones w).

Lemma field_range x lo w : 0 <= w -> 0 <= field x lo w < 2 ^ w.
Proof. intros H. unfold field. rewrite Z.land_ones by done. apply Z.mod_pos_bound. by apply Z.pow_pos_nonneg. Qed.

Lemma field_lor a b lo w : field (Z.lor a b) lo w = Z.lor (field a lo w) (field b lo w).
Proof. unfold field. by rewrite Z.shiftr_lor, Z.land_lor_distr_l. Qed.

Lemma field_zero lo w : field 0 lo w = 0.
Proof. unfold field. by rewrite Z.shiftr_0_l, Z.land_0_l. Qed.

(** The part that was shifted there. *)
Lemma field_hit x lo w : 0 <= lo -> 0 <= w -> 0 <= x < 2 ^ w -> field (Z.shiftl x lo) lo w = x.
Proof.
  intros Hl Hw Hx. unfold field. rewrite Z.shiftr_shiftl_l, Z.sub_diag, Z.shiftl_0_r by lia.
  rewrite Z.land_ones by done. by rewrite Z.mod_small.
Qed.

(** The parts that lie elsewhere. *)
Lemma field_below x k m lo w : 0 <= x < 2 ^ m -> 0 <= k -> 0 <= m -> k + m <= lo -> field (Z.shiftl x k) lo w = 0.
Proof.
  intros Hx Hk Hm Hl. unfold field. rewrite Z.shiftr_shiftl_r, Z.shiftr_div_pow2 by lia. rewrite Z.div_small.
  - by rewrite Z.land_0_l.
  - split; [lia|]. apply (Z.lt_le_trans _ (2 ^ m)); [lia|]. apply Z.pow_le_mono_r; lia.
Qed.

Lemma field_above x k lo w : 0 <= lo -> 0 <= w -> lo + w <= k -> field (Z.shiftl x k) lo w = 0.
Proof.
  intros Hl Hw Hk. unfold field. rewrite Z.shiftr_shiftl_l by lia. rewrite Z.land_ones by done.
  rewrite Z.shiftl_mul_pow2 by lia. replace (k - lo) with (k - lo - w + w) by lia.
  rewrite Z.pow_add_r, Z.mul_assoc by lia. apply Z.mod_mul. pose proof (Z.pow_pos_nonneg 2 w). lia.
Qed.

(** A narrower field of a field. *)
Lemma field_field x lo w lo' w' : 0 <= lo -> 0 <= lo' -> 0 <= w' -> lo' + w' <= w -> field (field x lo w) lo' w' = field x (lo + lo') w'.
Proof.
  intros Hl Hl' Hw' Hw. unfold field. apply Z.bits_inj'. intros n Hn.
  rewrite !Z.land_spec, !Z.shiftr_spec, Z.land_spec, Z.shiftr_spec by lia.
  destruct (decide (n < w')) as [H|H].
  - rewrite !(Z.ones_spec_low) by lia. rewrite !andb_true_r. f_equal. lia.
  - rewrite (Z.ones_spec_high w' n) by lia. by rewrite !andb_false_r.
Qed.

(** A word is its low part and the rest. *)
Lemma field_split x lo w w' : 0 <= lo -> 0 <= w -> 0 <= w' ->
  field x lo (w + w') = Z.lor (field x lo w) (Z.shiftl (field x (lo + w) w') w).
Proof.
  intros Hl Hw Hw'. unfold field. apply Z.bits_inj'. intros n Hn.
  rewrite Z.lor_spec, Z.shiftl_spec, !Z.land_spec, !Z.shiftr_spec by lia.
  destruct (decide (n < w)) as [H|H].
  - rewrite (Z.testbit_neg_r _ (n - w)), orb_false_r by lia. rewrite !Z.ones_spec_low by lia. done.
  - rewrite (Z.ones_spec_high w) by lia. rewrite andb_false_r, Z.shiftr_spec, orb_false_l by lia.
    replace (n - w + (lo + w)) with (n + lo) by lia. f_equal. destruct (decide (n < w + w')).
    + by rewrite !Z.ones_spec_low by lia.
    + by rewrite !Z.ones_spec_high by lia.
Qed.

Lemma field_all x w : 0 <= w -> 0 <= x < 2 ^ w -> field x 0 w = x.
Proof. intros Hw Hx. unfold field. rewrite Z.shiftr_0_r, Z.land_ones by done. by rewrite Z.mod_small. Qed.

Lemma field_bit x lo : 0 <= lo -> field x lo 1 = Z.b2z (Z.testbit x lo).
Proof.
  intros H. unfold field. change (Z.ones 1) with 1. change 1 with (Z.ones 1) at 1. rewrite Z.land_ones by lia.
  change (2 ^ 1) with 2. by rewrite <- Z.bit0_mod, Z.shiftr_spec, Z.add_0_l by lia.
Qed.

(** [x & (1 << k)] as a condition. *)
Lemma land_bit_zero x k : 0 <= k -> (Z.land x (2 ^ k) =? 0) = negb (Z.testbit x k).
Proof.
  intros Hk. destruct (Z.testbit x k) eqn:T; cbn [negb]; [apply Z.eqb_neq|apply Z.eqb_eq].
  - intros E. apply (f_equal (fun z => Z.testbit z k)) in E. by rewrite Z.land_spec, T, Z.pow2_bits_true, Z.bits_0 in E by done.
  - apply Z.bits_inj'. intros n Hn. rewrite Z.land_spec, Z.bits_0. destruct (decide (n = k)) as [->|NE]; [by rewrite T|].
    rewrite Z.pow2_bits_false by lia. apply andb_false_r.
Qed.
