(* ===== verification/StateM.v ===== *)
(** * Code as steps of a state

    [M S A]: code that runs on a state of type [S] and returns an [A], or
    does not return.  [steps R m] and [hoare P m Q] are what is proved of
    code whenever it returns; the tactic [steps_auto] takes code apart. *)

From S2P Require Import Prelude.

Definition M (S A : Type) : Type := S -> option (S * A).

#[export] Instance M_ret S : MRet (M S) := fun A a s => Some (s, a).
#[export] Instance M_bind S : MBind (M S) := fun A B f m s => match m s with Some (s, a) => f a s | None => None end.

Definition get {S A} (f : S -> A) : M S A := fun s => Some (s, f s).
Definition modify {S} (f : S -> S) : M S unit := fun s => Some (f s, tt).
Definition never {S A} : M S A := fun _ => None.

(** ** Steps

    Whenever [m] returns, it went from its state to one that [R] relates to
    it. *)

Definition steps {S} (R : S -> S -> Prop) {A} (m : M S A) : Prop := forall s s' a, m s = Some (s', a) -> R s s'.

Create HintDb steps.

Section steps.
Context {S : Type} (R : S -> S -> Prop) `{!PreOrder R}.

Lemma steps_ret {A} (a : A) : steps R (mret a).
Proof. intros s s' b [= <- <-]. reflexivity. Qed.

Lemma steps_get {A} (f : S -> A) : steps R (get f).
Proof. intros s s' b [= <- <-]. reflexivity. Qed.

Lemma steps_never {A} : steps R (never (A := A)).
Proof. intros s s' b [=]. Qed.

Lemma steps_bind {A B} (m : M S A) (f : A -> M S B) : steps R m -> (forall a, steps R (f a)) -> steps R (m ≫= f).
Proof.
  intros Hm Hf s s' b E. unfold mbind, M_bind in E. destruct (m s) as [[s1 a]|] eqn:E1; [|done].
  etransitivity; [exact (Hm _ _ _ E1)|exact (Hf _ _ _ _ E)].
Qed.

Lemma steps_modify f : (forall s, R s (f s)) -> steps R (modify f).
Proof. intros H s s' b [= <- <-]. apply H. Qed.

Lemma steps_if {A} (b : bool) (m1 m2 : M S A) : steps R m1 -> steps R m2 -> steps R (if b then m1 else m2).
Proof. by destruct b. Qed.
End steps.

#[export] Hint Resolve steps_ret steps_get steps_never : steps.

Lemma steps_mono {S} (R R' : S -> S -> Prop) {A} (m : M S A) : (forall s s', R s s' -> R' s s') -> steps R m -> steps R' m.
Proof. intros H Hm s s' a E. apply H. eauto. Qed.

(** Decompose the code down to its accesses. *)
Ltac steps_auto :=
  repeat lazymatch goal with
  | |- steps _ (_ ≫= _) => apply steps_bind; [apply _| |intros ?]
  | |- steps _ (mret _) => apply steps_ret; apply _
  | |- steps _ (get _) => apply steps_get; apply _
  | |- steps _ never => apply steps_never; apply _
  | |- steps _ (if _ then _ else _) => apply steps_if
  | |- steps _ (let x := _ in _) => cbv zeta
  | |- steps _ (match ?x with Some _ => _ | None => _ end) => destruct x
  end; eauto with steps.

(** ** Triples *)

Definition hoare {S A} (P : S -> Prop) (m : M S A) (Q : A -> S -> Prop) : Prop :=
  forall s, P s -> forall s' a, m s = Some (s', a) -> Q a s'.

Section hoare.
Context {S : Type}.
Implicit Types P : S -> Prop.

Lemma hoare_bind {A B} P (m : M S A) (f : A -> M S B) Q Q' : hoare P m Q' -> (forall a, hoare (Q' a) (f a) Q) -> hoare P (m ≫= f) Q.
Proof.
  intros Hm Hf s Hs s' b E. unfold mbind, M_bind in E. destruct (m s) as [[s1 a]|] eqn:E1; [|done].
  exact (Hf _ _ (Hm _ Hs _ _ E1) _ _ E).
Qed.

Lemma hoare_get {A B} P (f : S -> A) (k : A -> M S B) Q :
  (forall a, hoare (fun s => P s /\ f s = a) (k a) Q) -> hoare P (get f ≫= k) Q.
Proof. intros H. apply (hoare_bind _ _ _ _ (fun a s => P s /\ f s = a)); [|done]. by intros s Hs s' a [= <- <-]. Qed.

Lemma hoare_ret {A} P (a : A) (Q : A -> S -> Prop) : (forall s, P s -> Q a s) -> hoare P (mret a) Q.
Proof. intros H s Hs s' b [= <- <-]. by apply H. Qed.

Lemma hoare_modify P f (Q : unit -> S -> Prop) : (forall s, P s -> Q tt (f s)) -> hoare P (modify f) Q.
Proof. intros H s Hs s' b [= <- <-]. by apply H. Qed.

Lemma hoare_never {A} P (Q : A -> S -> Prop) : hoare P never Q.
Proof. intros s Hs s' a [=]. Qed.

Lemma hoare_pre {A} P P' (m : M S A) Q : (forall s, P s -> P' s) -> hoare P' m Q -> hoare P m Q.
Proof. intros H Hm s Hs. apply Hm. by apply H. Qed.

Lemma hoare_steps {A} P (R : S -> S -> Prop) (m : M S A) (Q : A -> S -> Prop) :
  steps R m -> (forall s s' a, P s -> R s s' -> Q a s') -> hoare P m Q.
Proof. intros Hm H s Hs s' a E. exact (H _ _ _ Hs (Hm _ _ _ E)). Qed.
End hoare.
