(* ===== verification/IrqArm.v ===== *)
(** * Interrupts and the timer on AArch64 (coreinit/irq_aarch64.c,
      timer_aarch64.c, cross_core_signal_aarch64.c)

    The cores of one image share the table of handlers, the table of bound
    targets and the GIC's addresses; each has the frame of its own
    redistributor, its tick counts and its timer's target in its
    [core_state].  An operation takes the core that executes it.

    Devices are seen through the accesses: every read and write of a device
    register or a system register is an event, in order, and what a read
    answers is a function of the events before it.  A register of the GIC is
    named by the base of its block and its offset, as the code writes it.
    Calls of a handler and of the kernel's [invoke] are events too, and what
    they do is a parameter.  [None]: the code does not return (the panic
    loops, or a search that never ends). *)

From stdpp Require Import gmap.
From S2P Require Import Prelude Capnp StateM.

Inductive sysreg :=
| ICC_SRE_EL1 | ICC_PMR_EL1 | ICC_IGRPEN1_EL1 | ICC_BPR1_EL1 | ICC_IAR1_EL1 | ICC_EOIR1_EL1 | ICC_SGI1R_EL1
| CNTFRQ_EL0 | CNTP_TVAL_EL0 | CNTP_CTL_EL0 | MPIDR_EL1 | VBAR_EL1 | DAIFCLR.

#[global] Instance sysreg_eq_dec : EqDecision sysreg.
Proof. solve_decision. Defined.

Inductive action :=
| Rd32 (base off val : Z)
| Rd64 (base off val : Z)
| Wr32 (base off val : Z)
| Mrs (r : sysreg) (val : Z)
| Msr (r : sysreg) (val : Z)
| Call (handler : Z)
| Invoke (target method_id : Z) (msg : list Z).

#[global] Instance action_eq_dec : EqDecision action.
Proof. solve_decision. Defined.

(** Core [e.1] does [e.2]. *)
Definition event : Type := Z * action.

(** What the registers answer. *)
Record devices := {
  dev_rd32 : list event -> Z -> Z -> Z -> Z;      (* core, base, offset *)
  dev_rd64 : list event -> Z -> Z -> Z -> Z;
  dev_mrs : list event -> Z -> sysreg -> Z
}.

(** ** State *)

(** The fields of [struct core_state] these files use. *)
Record core_state := {
  irq_gicr_base : Z;
  irq_tick_count : Z;
  timer_ticks : Z;
  timer_target : Z;
  timer_freq_hz : Z
}.

(** [g_gicd_base], [g_gicc_base], [g_gicr_region], [g_gicr_region_size] of
    irq_aarch64.c; 0 is NULL. *)
Record gic_bases := { gicd_base : Z; gicc_base : Z; gicr_region : Z; gicr_region_size : Z }.

(** [g_gicd_base] and [g_gic_v2] of cross_core_signal_aarch64.c. *)
Record signal_bases := { signal_gicd : Z; signal_v2 : bool }.

Record state := {
  g_irq_handlers : list Z;
  g_irq_targets : list Z;
  g_kernel_invoke : bool;              (* [g_kernel_invoke != NULL] *)
  gic : gic_bases;
  signal : signal_bases;
  g_normal_isr : Z;                    (* of timer_aarch64.c *)
  cores : gmap Z core_state;           (* [core_state_get()], per core *)
  log : list event
}.

Definition set_tables (hs ts : list Z) (k : bool) (s : state) : state :=
  {| g_irq_handlers := hs; g_irq_targets := ts; g_kernel_invoke := k; gic := gic s; signal := signal s;
     g_normal_isr := g_normal_isr s; cores := cores s; log := log s |}.
Definition set_gic (g : gic_bases) (s : state) : state :=
  {| g_irq_handlers := g_irq_handlers s; g_irq_targets := g_irq_targets s; g_kernel_invoke := g_kernel_invoke s; gic := g;
     signal := signal s; g_normal_isr := g_normal_isr s; cores := cores s; log := log s |}.
Definition set_signal (g : signal_bases) (s : state) : state :=
  {| g_irq_handlers := g_irq_handlers s; g_irq_targets := g_irq_targets s; g_kernel_invoke := g_kernel_invoke s; gic := gic s;
     signal := g; g_normal_isr := g_normal_isr s; cores := cores s; log := log s |}.
Definition set_normal_isr (h : Z) (s : state) : state :=
  {| g_irq_handlers := g_irq_handlers s; g_irq_targets := g_irq_targets s; g_kernel_invoke := g_kernel_invoke s; gic := gic s;
     signal := signal s; g_normal_isr := h; cores := cores s; log := log s |}.
Definition set_core (c : Z) (cs : core_state) (s : state) : state :=
  {| g_irq_handlers := g_irq_handlers s; g_irq_targets := g_irq_targets s; g_kernel_invoke := g_kernel_invoke s; gic := gic s;
     signal := signal s; g_normal_isr := g_normal_isr s; cores := <[c := cs]> (cores s); log := log s |}.
Definition add_log (e : event) (s : state) : state :=
  {| g_irq_handlers := g_irq_handlers s; g_irq_targets := g_irq_targets s; g_kernel_invoke := g_kernel_invoke s; gic := gic s;
     signal := signal s; g_normal_isr := g_normal_isr s; cores := cores s; log := log s ++ [e] |}.

Definition set_gicr_base (b : Z) (cs : core_state) : core_state :=
  {| irq_gicr_base := b; irq_tick_count := irq_tick_count cs; timer_ticks := timer_ticks cs;
     timer_target := timer_target cs; timer_freq_hz := timer_freq_hz cs |}.
Definition set_tick_count (n : Z) (cs : core_state) : core_state :=
  {| irq_gicr_base := irq_gicr_base cs; irq_tick_count := n; timer_ticks := timer_ticks cs;
     timer_target := timer_target cs; timer_freq_hz := timer_freq_hz cs |}.
Definition set_timer (ticks target freq : Z) (cs : core_state) : core_state :=
  {| irq_gicr_base := irq_gicr_base cs; irq_tick_count := irq_tick_count cs; timer_ticks := ticks;
     timer_target := target; timer_freq_hz := freq |}.

(** ** Code *)

Abbreviation M := (StateM.M state).

Definition emit (c : Z) (a : action) : M unit := modify (add_log (c, a)).
Definition core_state_get (c : Z) : M (option core_state) := get (fun s => cores s !! c).

Section code.
Context (dev : devices).

(** A handler and the kernel's [invoke], run on a core. *)
Context (run : Z -> Z -> M unit) (kernel_invoke : Z -> Z -> Z -> list Z -> M unit).

Definition mmio_write32 (c base off val : Z) : M unit := emit c (Wr32 base off (u32 val)).
Definition mmio_read32 (c base off : Z) : M Z :=
  v ← get (fun s => u32 (dev_rd32 dev (log s) c base off)); _ ← emit c (Rd32 base off v); mret v.
Definition mmio_read64 (c base off : Z) : M Z :=
  v ← get (fun s => u64 (dev_rd64 dev (log s) c base off)); _ ← emit c (Rd64 base off v); mret v.
Definition read_sysreg (c : Z) (r : sysreg) : M Z :=
  v ← get (fun s => u64 (dev_mrs dev (log s) c r)); _ ← emit c (Mrs r v); mret v.
Definition write_sysreg (c : Z) (r : sysreg) (val : Z) : M unit := emit c (Msr r val).

Definition GICD_CTLR : Z := 0x0000.
Definition GICD_IGROUPR : Z := 0x0080.
Definition GICD_ISENABLER : Z := 0x0100.
Definition GICD_ICENABLER : Z := 0x0180.
Definition GICD_IPRIORITYR : Z := 0x0400.
Definition GICD_SGIR : Z := 0x0f00.
Definition GICC_CTLR : Z := 0x00.
Definition GICC_PMR : Z := 0x04.
Definition GICC_IAR : Z := 0x0c.
Definition GICC_EOIR : Z := 0x10.
Definition GICR_TYPER : Z := 0x0008.
Definition GICR_WAKER : Z := 0x0014.
Definition GICR_SGI_BASE : Z := 0x10000.
Definition GICR_IGROUPR0 : Z := GICR_SGI_BASE + 0x80.
Definition GICR_ISENABLER0 : Z := GICR_SGI_BASE + 0x100.
Definition GICR_ICENABLER0 : Z := GICR_SGI_BASE + 0x180.
Definition GICR_IPRIORITYR : Z := GICR_SGI_BASE + 0x400.
Definition GICR_FRAME_SIZE : Z := 0x20000.
Definition MAX_IRQ_HANDLERS : Z := 32.
Definition ARM_TIMER_IRQ : Z := 30.
Definition TIMER_VECTOR : Z := 30.
Definition CROSS_CORE_SIGNAL_SGI : Z := 0.

(** [for (i = 0; i < n; i++) mmio_write32(base + off + i * 4, val);] *)
Fixpoint write_regs (n : nat) (c base off val : Z) : M unit :=
  match n with
  | O => mret tt
  | S n => _ ← mmio_write32 c base off val; write_regs n c base (off + 4) val
  end.

Definition gic_distributor_init (c : Z) : M unit :=
  g ← get gic;
  if gicd_base g =? 0 then mret tt
  else
    let b := gicd_base g in
    _ ← mmio_write32 c b GICD_CTLR 0;
    _ ← write_regs 8 c b GICD_ICENABLER 0xffffffff;
    _ ← write_regs 8 c b GICD_IGROUPR 0xffffffff;
    _ ← write_regs 64 c b GICD_IPRIORITYR 0x80808080;
    mmio_write32 c b GICD_CTLR (Z.lor (Z.shiftl 1 0) (Z.shiftl 1 1)).

Definition gic_cpu_interface_init (c : Z) : M unit :=
  g ← get gic;
  if negb (gicc_base g =? 0) then
    _ ← mmio_write32 c (gicc_base g) GICC_PMR 0xff;
    mmio_write32 c (gicc_base g) GICC_CTLR 7
  else
    _ ← write_sysreg c ICC_SRE_EL1 (Z.shiftl 1 0);
    _ ← write_sysreg c ICC_PMR_EL1 0xff;
    _ ← write_sysreg c ICC_IGRPEN1_EL1 1;
    write_sysreg c ICC_BPR1_EL1 0.

Definition irq_is_spurious (irq_id : Z) : bool := (1020 <=? irq_id) && (irq_id <=? 1023).

Definition irq_aarch64_acknowledge (c : Z) : M Z :=
  g ← get gic;
  if negb (gicc_base g =? 0) then mmio_read32 c (gicc_base g) GICC_IAR
  else v ← read_sysreg c ICC_IAR1_EL1; mret (u32 v).

Definition irq_aarch64_eoi (c irq_id : Z) : M unit :=
  g ← get gic;
  if negb (gicc_base g =? 0) then mmio_write32 c (gicc_base g) GICC_EOIR irq_id
  else write_sysreg c ICC_EOIR1_EL1 irq_id.

(** A call of a handler, and of [g_kernel_invoke] with a one-word message. *)
Definition call (c handler : Z) : M unit := _ ← emit c (Call handler); run c handler.
Definition invoke_word (c target w : Z) : M unit :=
  let msg := capnp_build_flat 24 [w] in
  _ ← emit c (Invoke target 0 msg); kernel_invoke c target 0 msg.

(** The dispatcher between acknowledging and completing. *)
Definition dispatch_line (c id : Z) : M unit :=
  _ ← (if id =? ARM_TIMER_IRQ then
         cs ← core_state_get c;
         match cs with
         | Some cs => modify (set_core c (set_tick_count (irq_tick_count cs +64 1) cs))
         | None => mret tt
         end
       else mret tt);
  if id <? MAX_IRQ_HANDLERS then
    handler ← get (fun s => g_irq_handlers s !!? Z.to_nat id);
    _ ← (if negb (handler =? 0) then call c handler else mret tt);
    target ← get (fun s => g_irq_targets s !!? Z.to_nat id);
    k ← get g_kernel_invoke;
    if negb (target =? 0) && k then invoke_word c target id else mret tt
  else mret tt.

Definition irq_aarch64_dispatch (c : Z) : M unit :=
  raw ← irq_aarch64_acknowledge c;
  let id := Z.land raw 0x3ff in
  if irq_is_spurious id then mret tt
  else
    _ ← dispatch_line c id;
    irq_aarch64_eoi c raw.

(** This core's affinity, as [GICR_TYPER] has it. *)
Definition affinity_of (mpidr : Z) : Z :=
  Z.lor (Z.shiftl (Z.land (u32 (Z.shiftr mpidr 32)) 0xff) 24) (Z.land (u32 mpidr) 0xffffff).

(** The search for this core's frame.  [None]: the fuel is spent. *)
Fixpoint find_frame (fuel : nat) (c affinity off : Z) : M Z :=
  match fuel with
  | O => never
  | S fuel =>
      g ← get gic;
      if negb (gicr_region g =? 0) && (off +64 GICR_FRAME_SIZE <=? gicr_region_size g) then
        let frame := gicr_region g + off in
        typer ← mmio_read64 c frame GICR_TYPER;
        if u32 (Z.shiftr typer 32) =? affinity then mret frame
        else if Z.testbit typer 4 then mret 0
        else find_frame fuel c affinity (off +64 GICR_FRAME_SIZE)
      else mret 0
  end.

(** More rounds than frames. *)
Definition frame_fuel (size : Z) : nat := S (Z.to_nat (size / GICR_FRAME_SIZE)).

(** [for (i = 0; i < n; i++)] until [ChildrenAsleep] is 0. *)
Fixpoint wait_awake (n : nat) (c frame : Z) : M bool :=
  match n with
  | O => mret false
  | S n =>
      v ← mmio_read32 c frame GICR_WAKER;
      if negb (Z.testbit v 2) then mret true else wait_awake n c frame
  end.

Definition WAKE_POLLS : Z := 1000000.

(** Waking the frame found, and silencing its interrupts. *)
Definition frame_init (c frame : Z) : M bool :=
  waker ← mmio_read32 c frame GICR_WAKER;
  _ ← mmio_write32 c frame GICR_WAKER (Z.land waker (u32 (Z.lnot (Z.shiftl 1 1))));
  ready ← wait_awake (Z.to_nat WAKE_POLLS) c frame;
  if negb ready then mret false
  else
    _ ← mmio_write32 c frame GICR_ICENABLER0 0xffffffff;
    _ ← mmio_write32 c frame GICR_IGROUPR0 0xffffffff;
    _ ← write_regs 8 c frame GICR_IPRIORITYR 0x80808080;
    mret true.

(** The part of [irq_core_init] for a GICv3; [false] on its early returns. *)
Definition redistributor_init (c : Z) (cs : core_state) : M bool :=
  mpidr ← read_sysreg c MPIDR_EL1;
  _ ← modify (set_core c (set_gicr_base 0 cs));
  g ← get gic;
  frame ← find_frame (frame_fuel (gicr_region_size g)) c (affinity_of mpidr) 0;
  _ ← modify (set_core c (set_gicr_base frame cs));
  if frame =? 0 then mret false else frame_init c frame.

Context (irq_aarch64_vectors : Z).

Definition irq_core_init (c : Z) (kernel_invoke_fn : bool) : M unit :=
  _ ← modify (set_tables (replicate (Z.to_nat MAX_IRQ_HANDLERS) 0) (replicate (Z.to_nat MAX_IRQ_HANDLERS) 0) kernel_invoke_fn);
  g ← get gic;
  if gicd_base g =? 0 then mret tt
  else
    cs ← core_state_get c;
    match cs with
    | None => mret tt
    | Some cs =>
        _ ← write_sysreg c VBAR_EL1 irq_aarch64_vectors;
        _ ← gic_distributor_init c;
        ok ← (if gicc_base g =? 0 then redistributor_init c cs else mret true);
        if negb ok then mret tt
        else
          _ ← gic_cpu_interface_init c;
          write_sysreg c DAIFCLR 2
    end.

Definition irq_install_handler (c vector handler_addr : Z) : M unit :=
  if (vector <? 0) || (MAX_IRQ_HANDLERS <=? vector) then mret tt
  else
    _ ← modify (fun s => set_tables (<[Z.to_nat vector := handler_addr]> (g_irq_handlers s)) (g_irq_targets s) (g_kernel_invoke s) s);
    cs ← core_state_get c;
    g ← get gic;
    let frame := match cs with Some cs => irq_gicr_base cs | None => 0 end in
    if negb (frame =? 0) && (vector <? 32) then mmio_write32 c frame GICR_ISENABLER0 (Z.shiftl 1 vector)
    else if negb (gicd_base g =? 0) then
      mmio_write32 c (gicd_base g) (GICD_ISENABLER + (vector / 32) * 4) (Z.shiftl 1 (vector mod 32))
    else mret tt.

Definition irq_get_tick_count (c : Z) : M Z :=
  cs ← core_state_get c; mret (match cs with Some cs => irq_tick_count cs | None => 0 end).

Definition irq_aarch64_set_base (base : Z) : M unit :=
  modify (fun s => set_gic {| gicd_base := base; gicc_base := gicc_base (gic s); gicr_region := gicr_region (gic s);
                              gicr_region_size := gicr_region_size (gic s) |} s).
Definition irq_aarch64_set_cpu_base (base : Z) : M unit :=
  modify (fun s => set_gic {| gicd_base := gicd_base (gic s); gicc_base := base; gicr_region := gicr_region (gic s);
                              gicr_region_size := gicr_region_size (gic s) |} s).
Definition irq_aarch64_set_redistributor_region (base size : Z) : M unit :=
  modify (fun s => set_gic {| gicd_base := gicd_base (gic s); gicc_base := gicc_base (gic s); gicr_region := base;
                              gicr_region_size := size |} s).

(** [*out_response_len] is 0 on every path. *)
Definition irq_manager_handler (msg : list Z) : M unit :=
  let words := capnp_read_flat 2 msg in
  let irq := word words 0 in
  if MAX_IRQ_HANDLERS <=? irq then mret tt
  else modify (fun s => set_tables (g_irq_handlers s) (<[Z.to_nat irq := word words 1]> (g_irq_targets s)) (g_kernel_invoke s) s).

(** ** The generic timer *)

Context (isr_arm_timer_addr : Z).

Definition isr_arm_timer (c : Z) : M unit :=
  cs ← core_state_get c;
  match cs with
  | None => never
  | Some cs =>
      let ticks := timer_ticks cs +64 1 in
      _ ← modify (set_core c (set_timer ticks (timer_target cs) (timer_freq_hz cs) cs));
      _ ← (if negb (timer_target cs =? 0) then invoke_word c (timer_target cs) ticks else mret tt);
      cs ← core_state_get c;
      match cs with
      | None => never
      | Some cs => write_sysreg c CNTP_TVAL_EL0 (u32 (timer_freq_hz cs / 100))
      end
  end.

Definition timer_core_init (c base_or_calibration : Z) : M Z :=
  cs ← core_state_get c;
  match cs with
  | None => never
  | Some cs =>
      freq ← (if base_or_calibration =? 0 then read_sysreg c CNTFRQ_EL0 else mret base_or_calibration);
      _ ← modify (set_core c (set_timer 0 0 freq cs));
      _ ← modify (set_normal_isr isr_arm_timer_addr);
      _ ← irq_install_handler c TIMER_VECTOR isr_arm_timer_addr;
      _ ← write_sysreg c CNTP_TVAL_EL0 (u32 (freq / 100));
      _ ← write_sysreg c CNTP_CTL_EL0 1;
      mret 0
  end.

Definition timer_bind (c target : Z) : M unit :=
  cs ← core_state_get c;
  match cs with
  | Some cs => modify (set_core c (set_timer (timer_ticks cs) target (timer_freq_hz cs) cs))
  | None => mret tt
  end.

Definition timer_get_ticks (c : Z) : M Z :=
  cs ← core_state_get c; mret (match cs with Some cs => timer_ticks cs | None => 0 end).

(** Nothing: the dispatcher completes the interrupt. *)
Definition timer_eoi (c : Z) : M unit := mret tt.

Definition timer_install_isr (c isr : Z) : M unit := irq_install_handler c TIMER_VECTOR isr.
Definition timer_restore_normal_isr (c : Z) : M unit :=
  isr ← get g_normal_isr; irq_install_handler c TIMER_VECTOR isr.

(** ** Signals between cores *)

Definition cross_core_signal_aarch64_set_base (base : Z) : M unit :=
  modify (fun s => set_signal {| signal_gicd := base; signal_v2 := signal_v2 (signal s) |} s).
Definition cross_core_signal_aarch64_set_gic_v2 : M unit :=
  modify (fun s => set_signal {| signal_gicd := signal_gicd (signal s); signal_v2 := true |} s).

Definition cross_core_signal_my_target (c : Z) : M Z := read_sysreg c MPIDR_EL1.

Definition cross_core_signal_send (c target : Z) : M unit :=
  let aff0 := Z.land (Z.shiftr target 0) 0xff in
  let aff1 := Z.land (Z.shiftr target 8) 0xff in
  let aff2 := Z.land (Z.shiftr target 16) 0xff in
  let aff3 := Z.land (Z.shiftr target 32) 0xff in
  sg ← get signal;
  if signal_v2 sg then
    if negb (signal_gicd sg =? 0) && (aff0 <? 8) && (aff1 =? 0) && (aff2 =? 0) && (aff3 =? 0) then
      mmio_write32 c (signal_gicd sg) GICD_SGIR (Z.shiftl (Z.shiftl 1 aff0) 16)
    else mret tt
  else if 16 <=? aff0 then mret tt
  else write_sysreg c ICC_SGI1R_EL1
         (Z.lor (Z.lor (Z.lor (Z.shiftl aff3 48) (Z.shiftl aff2 32)) (Z.shiftl aff1 16)) (Z.shiftl 1 aff0)).

Definition cross_core_signal_install_handler (c handler : Z) : M unit :=
  _ ← irq_install_handler c CROSS_CORE_SIGNAL_SGI handler;
  sg ← get signal;
  if signal_v2 sg && negb (signal_gicd sg =? 0) then
    mmio_write32 c (signal_gicd sg) GICD_ISENABLER (Z.shiftl 1 CROSS_CORE_SIGNAL_SGI)
  else mret tt.
End code.
