(* ===== verification/IrqArmSpec.v ===== *)
(** * Interrupts on AArch64: what the code guarantees

    Every interrupt that is acknowledged is completed once and in order, and
    no spurious one is; a core only ever writes the redistributor that
    belongs to its own affinity; a core that takes interrupts has a handler
    for each that can reach it, as long as no other core initialises its
    own; the signal to a core reaches that core and no other. *)

From stdpp Require Import gmap.
From S2P Require Import Prelude Capnp StateM IrqArm.

#[local] Open Scope Z_scope.

#[export] Hint Extern 0 (steps _ (core_state_get _)) => apply steps_get; apply _ : steps.

(** ** The interrupts a core has taken and not completed *)

Definition ack_of (gicc : Z) (a : action) : option Z :=
  match a with
  | Rd32 b o v => if (b =? gicc) && (o =? GICC_IAR) then Some v else None
  | Mrs ICC_IAR1_EL1 v => Some (u32 v)
  | _ => None
  end.

Definition eoi_of (gicc : Z) (a : action) : option Z :=
  match a with
  | Wr32 b o v => if (b =? gicc) && (o =? GICC_EOIR) then Some v else None
  | Msr ICC_EOIR1_EL1 v => Some v
  | _ => None
  end.

(** Acknowledging pushes the interrupt, unless it is spurious; completing
    must name the one on top, and pops it. *)
Definition active_step (gicc c : Z) (st : option (list Z)) (e : event) : option (list Z) :=
  if e.1 =? c then
    match st, ack_of gicc e.2, eoi_of gicc e.2 with
    | Some l, Some v, _ => Some (if irq_is_spurious (Z.land v 0x3ff) then l else v :: l)
    | Some (w :: l), None, Some v => if w =? v then Some l else None
    | Some [], None, Some v => None
    | _, None, None => st
    | None, _, _ => None
    end
  else st.

Definition active (gicc c : Z) (l : list event) : option (list Z) := fold_left (active_step gicc c) l (Some []).

(** An access that is neither. *)
Definition quiet (a : action) : bool :=
  match a with
  | Rd32 _ o _ => negb (o =? GICC_IAR)
  | Wr32 _ o _ => negb (o =? GICC_EOIR)
  | Mrs r _ => negb (bool_decide (r = ICC_IAR1_EL1))
  | Msr r _ => negb (bool_decide (r = ICC_EOIR1_EL1))
  | _ => true
  end.

Lemma quiet_active gicc c st (l : list event) : forallb (fun e => quiet e.2) l = true -> fold_left (active_step gicc c) l st = st.
Proof.
  induction l as [|[d a] l IH] in st |- *; [done|]. cbn [forallb fold_left]. intros [Hq Hl]%andb_true_iff.
  cbn [snd] in Hq. rewrite (IH _ Hl). unfold active_step. cbn [fst snd]. destruct (d =? c); [|done].
  destruct a as [b o v|b o v|b o v|r v|r v|h|t m msg]; cbn [quiet] in Hq; try (by destruct st as [[|]|]); bool_simp.
  - cbn [ack_of eoi_of]. replace (o =? GICC_IAR) with false by (symmetry; by apply Z.eqb_neq).
    rewrite andb_false_r. by destruct st as [[|]|].
  - cbn [ack_of eoi_of]. replace (o =? GICC_EOIR) with false by (symmetry; by apply Z.eqb_neq).
    rewrite andb_false_r. by destruct st as [[|]|].
  - destruct r; by destruct st as [[|]|].
  - destruct r; by destruct st as [[|]|].
Qed.

(** [ext P]: the GIC's addresses stay, and every new event satisfies [P]. *)
Definition ext (P : event -> bool) (s s' : state) : Prop :=
  gic s' = gic s /\ signal s' = signal s /\ exists l, log s' = log s ++ l /\ forallb P l = true.

#[global] Instance ext_preorder P : PreOrder (ext P).
Proof.
  split.
  - intros s. split; [done|]. split; [done|]. exists []. by rewrite app_nil_r.
  - intros s1 s2 s3 (G1 & S1 & l1 & L1 & F1) (G2 & S2 & l2 & L2 & F2). split; [congruence|]. split; [congruence|].
    exists (l1 ++ l2). split; [by rewrite L2, L1, app_assoc|]. by rewrite forallb_app, F1, F2.
Qed.

Lemma steps_emit P c a : P (c, a) = true -> steps (ext P) (emit c a).
Proof.
  intros H. apply steps_modify. intros s. split; [done|]. split; [done|]. exists [(c, a)]. split; [done|]. cbn. by rewrite H.
Qed.

Lemma steps_local P f : (forall s, gic (f s) = gic s /\ signal (f s) = signal s /\ log (f s) = log s) -> steps (ext P) (modify f).
Proof.
  intros H. apply steps_modify. intros s. destruct (H s) as (G & S & L). split; [done|]. split; [done|].
  exists []. by rewrite app_nil_r.
Qed.

Lemma steps_rd32 P dev c b o : (forall v, P (c, Rd32 b o v) = true) -> steps (ext P) (mmio_read32 dev c b o).
Proof. intros H. unfold mmio_read32. steps_auto. apply steps_emit, H. Qed.
Lemma steps_rd64 P dev c b o : (forall v, P (c, Rd64 b o v) = true) -> steps (ext P) (mmio_read64 dev c b o).
Proof. intros H. unfold mmio_read64. steps_auto. apply steps_emit, H. Qed.
Lemma steps_mrs P dev c r : (forall v, P (c, Mrs r v) = true) -> steps (ext P) (read_sysreg dev c r).
Proof. intros H. unfold read_sysreg. steps_auto. apply steps_emit, H. Qed.
Lemma steps_regs P n c b o v :
  (forall i, 0 <= i < 4 * Z.of_nat n -> P (c, Wr32 b (o + i) (u32 v)) = true) -> steps (ext P) (write_regs n c b o v).
Proof.
  induction n as [|n IH] in o |- *; intros H; cbn [write_regs]; steps_auto.
  - apply steps_emit. rewrite <- (Z.add_0_r o). apply H. lia.
  - apply IH. intros i Hi. rewrite <- Z.add_assoc. apply H. lia.
Qed.

(** The accesses themselves, for a predicate that computes on them. *)
Ltac accesses :=
  steps_auto;
  lazymatch goal with
  | |- steps _ (modify _) => by apply steps_local
  | |- steps _ (emit _ _) => by apply steps_emit
  | |- steps _ (mmio_write32 _ _ _ _) => by apply steps_emit
  | |- steps _ (write_sysreg _ _ _) => by apply steps_emit
  | |- steps _ (mmio_read32 _ _ _ _) => by apply steps_rd32
  | |- steps _ (mmio_read64 _ _ _ _) => by apply steps_rd64
  | |- steps _ (read_sysreg _ _ _) => by apply steps_mrs
  | _ => idtac
  end.

(** The handlers and the kernel's [invoke] do not touch the GIC or the table
    of handlers; they may signal, program the timer, count and rebind. *)
Definition harmless (e : event) : bool :=
  match e.2 with
  | Call _ | Invoke _ _ _ => true
  | Mrs r _ | Msr r _ => bool_decide (r ∈ [CNTFRQ_EL0; CNTP_TVAL_EL0; CNTP_CTL_EL0; MPIDR_EL1; ICC_SGI1R_EL1])
  | _ => false
  end.

Definition benign (s s' : state) : Prop :=
  ext harmless s s' /\ g_irq_handlers s' = g_irq_handlers s /\ g_normal_isr s' = g_normal_isr s /\
  forall c, irq_gicr_base <$> cores s' !! c = irq_gicr_base <$> cores s !! c.

#[global] Instance benign_preorder : PreOrder benign.
Proof.
  split; [intros s; split; [reflexivity|done]|].
  intros s1 s2 s3 (E1 & H1 & N1 & C1) (E2 & H2 & N2 & C2).
  split; [by etransitivity|]. split; [congruence|]. split; [congruence|]. intros c. by rewrite C2, C1.
Qed.

Lemma benign_emit c a : harmless (c, a) = true -> steps benign (emit c a).
Proof.
  intros H s s' x E. split; [exact (steps_emit _ c a H s s' x E)|]. injection E as <- <-. done.
Qed.

Lemma benign_ext P s s' : (forall e, harmless e = true -> P e = true) -> benign s s' -> ext P s s'.
Proof.
  intros H [(G & S & l & L & F) _]. split; [done|]. split; [done|]. exists l. split; [done|].
  apply forallb_forall. intros e He. apply H. by apply (proj1 (forallb_forall _ _) F).
Qed.

(** A core's own counters. *)
Lemma benign_core c cs cs' : irq_gicr_base cs' = irq_gicr_base cs ->
  forall s, cores s !! c = Some cs -> benign s (set_core c cs' s).
Proof.
  intros Hb s Hc. split; [apply (steps_local _ (set_core c cs') (fun _ => conj eq_refl (conj eq_refl eq_refl)) s _ tt eq_refl)|].
  split; [done|]. split; [done|]. intros d. cbn [cores set_core]. destruct (decide (d = c)) as [->|N].
  - rewrite lookup_insert_eq, Hc. cbn. by rewrite Hb.
  - by rewrite lookup_insert_ne.
Qed.

Class Handlers (run : Z -> Z -> M unit) (kernel_invoke : Z -> Z -> Z -> list Z -> M unit) : Prop := {
  run_benign c h : steps benign (run c h);
  invoke_benign c t m msg : steps benign (kernel_invoke c t m msg)
}.

Lemma benign_invoke_word run kernel_invoke `{!Handlers run kernel_invoke} c t w : steps benign (invoke_word kernel_invoke c t w).
Proof. unfold invoke_word. steps_auto; [by apply benign_emit|apply invoke_benign]. Qed.

(** Reading a core's state and then changing a part of it. *)
Lemma benign_with_core {A} c (f : option core_state -> M A) :
  (forall cs s s' a, cores s !! c = cs -> f cs s = Some (s', a) -> benign s s') -> steps benign (core_state_get c ≫= f).
Proof. intros H s s' a E. by apply (H _ _ _ _ eq_refl E). Qed.

(** The timer's handler is one of them. *)
Lemma benign_isr_arm_timer run kernel_invoke `{!Handlers run kernel_invoke} c : steps benign (isr_arm_timer kernel_invoke c).
Proof.
  unfold isr_arm_timer. apply benign_with_core. intros [cs|] s s' a Hc E; [|done].
  cbv zeta in E. unfold mbind at 1, M_bind at 1, modify at 1 in E.
  etransitivity; [apply (benign_core c cs (set_timer (timer_ticks cs +64 1) (timer_target cs) (timer_freq_hz cs) cs)); done|].
  revert E. apply steps_bind; [apply _| |intros []].
  - steps_auto. by eapply benign_invoke_word.
  - steps_auto. by apply benign_emit.
Qed.

(** ** Runs: the operations of all cores, in any order *)

Inductive op :=
| CoreInit (kernel_invoke_fn : bool)
| InstallHandler (vector handler : Z)
| BindTarget (msg : list Z)
| TimerInit (hint : Z)
| TimerBind (target : Z)
| TimerIsr (isr : Z)
| TimerRestore
| SignalHandler (handler : Z)
| SignalSend (target : Z)
| Dispatch.

#[global] Instance op_eq_dec : EqDecision op.
Proof. solve_decision. Defined.

Section runs.
Context (dev : devices) (run : Z -> Z -> M unit) (kernel_invoke : Z -> Z -> Z -> list Z -> M unit) `{!Handlers run kernel_invoke}.
Context (vectors isr_addr : Z).

Definition exec (c : Z) (o : op) : M unit :=
  match o with
  | CoreInit k => irq_core_init dev vectors c k
  | InstallHandler v h => irq_install_handler c v h
  | BindTarget msg => irq_manager_handler msg
  | TimerInit hint => _ ← timer_core_init dev isr_addr c hint; mret tt
  | TimerBind t => timer_bind c t
  | TimerIsr isr => timer_install_isr c isr
  | TimerRestore => timer_restore_normal_isr c
  | SignalHandler h => cross_core_signal_install_handler c h
  | SignalSend t => cross_core_signal_send c t
  | Dispatch => irq_aarch64_dispatch dev run kernel_invoke c
  end.

Inductive reach (s0 : state) : state -> Prop :=
| reach_start : reach s0 s0
| reach_step s s' c o : reach s0 s -> exec c o s = Some (s', tt) -> reach s0 s'.

(** *** Acknowledging and completing *)

Definition quiet_ev (e : event) : bool := quiet e.2.

Lemma harmless_quiet e : harmless e = true -> quiet_ev e = true.
Proof.
  destruct e as [c [b o v|b o v|b o v|r v|r v|h|t m msg]]; try done; destruct r; done.
Qed.

Lemma quiet_regs n c b o v : 0x80 <= o -> steps (ext quiet_ev) (write_regs n c b o v).
Proof.
  intros H. apply steps_regs. intros i Hi. unfold quiet_ev. cbn [snd quiet].
  apply negb_true_iff, Z.eqb_neq. unfold GICC_EOIR. lia.
Qed.

Lemma quiet_install c v h : steps (ext quiet_ev) (irq_install_handler c v h).
Proof.
  unfold irq_install_handler. destruct ((v <? 0) || (MAX_IRQ_HANDLERS <=? v)) eqn:V; [steps_auto|].
  bool_simp. unfold MAX_IRQ_HANDLERS in *. rewrite Z.div_small by lia. accesses.
Qed.

Lemma quiet_find fuel c aff off : steps (ext quiet_ev) (find_frame dev fuel c aff off).
Proof.
  induction fuel as [|fuel IH] in off |- *; cbn [find_frame]; accesses.
Qed.

Lemma quiet_wait n c frame : steps (ext quiet_ev) (wait_awake dev n c frame).
Proof. induction n as [|n IH]; cbn [wait_awake]; accesses. Qed.

Lemma quiet_redistributor c cs : steps (ext quiet_ev) (redistributor_init dev c cs).
Proof.
  unfold redistributor_init, frame_init. accesses; [apply quiet_find|apply quiet_wait|by apply quiet_regs].
Qed.

Lemma quiet_core_init c k : steps (ext quiet_ev) (irq_core_init dev vectors c k).
Proof.
  unfold irq_core_init, gic_distributor_init, gic_cpu_interface_init.
  accesses; [by apply quiet_regs..|apply quiet_redistributor].
Qed.

#[local] Hint Resolve quiet_install quiet_core_init : steps.

Lemma quiet_exec c o : o <> Dispatch -> steps (ext quiet_ev) (exec c o).
Proof.
  intros H. destruct o; cbn [exec]; try done;
    unfold irq_manager_handler, timer_core_init, timer_bind, timer_install_isr, timer_restore_normal_isr,
      cross_core_signal_install_handler, cross_core_signal_send;
    accesses.
Qed.

Lemma quiet_extends s s' : ext quiet_ev s s' -> forall c, active (gicc_base (gic s')) c (log s') = active (gicc_base (gic s)) c (log s).
Proof.
  intros (G & _ & l & L & F) c. rewrite L, G. unfold active. rewrite fold_left_app. by apply quiet_active.
Qed.

Lemma acknowledge_spec c s s1 raw : irq_aarch64_acknowledge dev c s = Some (s1, raw) ->
  exists a, s1 = add_log (c, a) s /\ ack_of (gicc_base (gic s)) a = Some raw /\ u32 raw = raw.
Proof.
  unfold irq_aarch64_acknowledge, mbind, M_bind, get at 1. cbn [gic]. destruct (gicc_base (gic s) =? 0) eqn:G; cbn [negb]; bool_simp.
  - intros [= <- <-]. eexists. split; [reflexivity|]. split; [done|]. unfold u32. by rewrite Z.mod_mod.
  - intros [= <- <-]. eexists. split; [reflexivity|]. split; [|unfold u32; by rewrite Z.mod_mod].
    cbn [ack_of]. by rewrite Z.eqb_refl.
Qed.

Lemma eoi_spec c raw s : u32 raw = raw ->
  exists a, irq_aarch64_eoi c raw s = Some (add_log (c, a) s, tt) /\ ack_of (gicc_base (gic s)) a = None /\ eoi_of (gicc_base (gic s)) a = Some raw.
Proof.
  intros H. unfold irq_aarch64_eoi, mbind, M_bind, get at 1. cbn [gic]. destruct (gicc_base (gic s) =? 0) eqn:G; cbn [negb]; bool_simp.
  - by eexists.
  - eexists. split; [reflexivity|]. split; [done|]. cbn [eoi_of]. by rewrite Z.eqb_refl, H.
Qed.

Lemma dispatch_cases c s s' : irq_aarch64_dispatch dev run kernel_invoke c s = Some (s', tt) ->
  exists raw a, ack_of (gicc_base (gic s)) a = Some raw /\ u32 raw = raw /\
    if irq_is_spurious (Z.land raw 0x3ff) then s' = add_log (c, a) s
    else exists s2, dispatch_line run kernel_invoke c (Z.land raw 0x3ff) (add_log (c, a) s) = Some (s2, tt) /\
                    irq_aarch64_eoi c raw s2 = Some (s', tt).
Proof.
  unfold irq_aarch64_dispatch. unfold mbind at 1, M_bind at 1. destruct (irq_aarch64_acknowledge dev c s) as [[s1 raw]|] eqn:E; [|done].
  apply acknowledge_spec in E as (a & -> & Ha & Hr). intros E. exists raw, a. split; [done|]. split; [done|].
  destruct (irq_is_spurious (Z.land raw 1023)); [by injection E as <-|].
  unfold mbind, M_bind in E. destruct (dispatch_line run kernel_invoke c _ _) as [[s2 []]|] eqn:E2; [|done]. by exists s2.
Qed.

Lemma benign_line c id : steps benign (dispatch_line run kernel_invoke c id).
Proof.
  unfold dispatch_line, call. apply steps_bind; [apply _| |intros _; steps_auto].
  - destruct (id =? ARM_TIMER_IRQ); [|steps_auto]. apply benign_with_core. intros [cs|] s s' a Hc E.
    + injection E as <- <-. by apply (benign_core c cs).
    + injection E as <- <-. reflexivity.
  - by apply benign_emit.
  - apply run_benign.
  - by eapply benign_invoke_word.
Qed.

Lemma dispatch_completes c d s s' : exec c Dispatch s = Some (s', tt) ->
  gic s' = gic s /\ (active (gicc_base (gic s)) d (log s) <> None ->
  active (gicc_base (gic s)) d (log s') = active (gicc_base (gic s)) d (log s)).
Proof.
  cbn [exec]. intros (raw & a & Ha & Hr & E)%dispatch_cases. destruct (irq_is_spurious (Z.land raw 1023)) eqn:Hs.
  - subst s'. split; [done|]. intros _. unfold active. cbn [log add_log]. rewrite fold_left_app. cbn [fold_left].
    generalize (fold_left (active_step (gicc_base (gic s)) d) (log s) (Some [])). intros st.
    unfold active_step. cbn [fst snd]. destruct (c =? d); [|done]. rewrite Ha, Hs. by destruct st as [[|]|].
  - destruct E as (s2 & Eb & Ee). apply benign_line in Eb.
    apply (benign_ext quiet_ev _ _ harmless_quiet) in Eb as (G & _ & l & L & F). cbn [gic log add_log] in G, L.
    destruct (eoi_spec c raw s2 Hr) as (b & Eb & Hn & Hb). rewrite Eb in Ee. injection Ee as <-.
    split; [done|]. intros Hd. unfold active in *. cbn [log add_log]. rewrite L, !fold_left_app, (quiet_active _ _ _ _ F).
    cbn [fold_left]. rewrite G in Hn, Hb. revert Hd.
    generalize (fold_left (active_step (gicc_base (gic s)) d) (log s) (Some [])). intros st Hd.
    unfold active_step. cbn [fst snd]. destruct (c =? d); [|done]. rewrite Ha, Hs, Hn, Hb.
    destruct st as [[|]|]; [by rewrite Z.eqb_refl..|done].
Qed.
End runs.

(** *** A machine with two cores *)

Fixpoint run_ops (dev : devices) run kernel_invoke (vectors isr_addr : Z) (ops : list (Z * op)) (s : state) : option state :=
  match ops with
  | [] => Some s
  | (c, o) :: ops =>
      match exec dev run kernel_invoke vectors isr_addr c o s with
      | Some (s, _) => run_ops dev run kernel_invoke vectors isr_addr ops s
      | None => None
      end
  end.

Lemma run_ops_reach dev run kernel_invoke vectors isr_addr ops s0 s s' :
  reach dev run kernel_invoke vectors isr_addr s0 s -> run_ops dev run kernel_invoke vectors isr_addr ops s = Some s' ->
  reach dev run kernel_invoke vectors isr_addr s0 s'.
Proof.
  induction ops as [|[c o] ops IH] in s |- *; intros H E; cbn [run_ops] in E; [by injection E as <-|].
  destruct (exec _ _ _ _ _ c o s) as [[s1 []]|] eqn:E1; [|done]. apply (IH s1); [by apply (reach_step _ _ _ _ _ _ s s1 c o)|done].
Qed.

Definition no_invoke (c target method_id : Z) (msg : list Z) : M unit := mret tt.

(** The timer's handler, and one that does nothing here. *)
Definition ISR : Z := 0x4000.
Definition SIGNAL_HANDLER : Z := 0x5000.
Definition installed (c h : Z) : M unit := if h =? ISR then isr_arm_timer no_invoke c else mret tt.

#[global] Instance no_handlers : Handlers (fun _ _ => mret tt) no_invoke.
Proof. split; intros; apply steps_ret; apply _. Qed.

#[global] Instance installed_handlers : Handlers installed no_invoke.
Proof.
  split; [|intros; apply steps_ret; apply _]. intros c h. unfold installed.
  destruct (h =? ISR); [by eapply benign_isr_arm_timer, no_handlers|apply steps_ret; apply _].
Qed.

(** A GICv3 with two redistributors; the timer is pending, then nothing. *)
Definition REGION : Z := 0x80a0000.
Definition two_typers (b : Z) : Z := if b =? REGION + GICR_FRAME_SIZE then Z.lor (Z.shiftl 1 32) 16 else 0.
Definition two_cores : devices := {|
  dev_rd32 := fun _ _ _ _ => 0;
  dev_rd64 := fun _ _ b o => if o =? GICR_TYPER then two_typers b else 0;
  dev_mrs := fun l c r =>
    match r with
    | MPIDR_EL1 => c
    | ICC_IAR1_EL1 => if existsb (fun e => bool_decide (e = (c, Mrs ICC_IAR1_EL1 ARM_TIMER_IRQ))) l then 1023 else ARM_TIMER_IRQ
    | _ => 0
    end
|}.

Definition fresh_core : core_state := {| irq_gicr_base := 0; irq_tick_count := 0; timer_ticks := 0; timer_target := 0; timer_freq_hz := 0 |}.

Definition boot_state : state := {|
  g_irq_handlers := replicate 32 0; g_irq_targets := replicate 32 0; g_kernel_invoke := false;
  gic := {| gicd_base := 0x8000000; gicc_base := 0; gicr_region := REGION; gicr_region_size := 2 * GICR_FRAME_SIZE |};
  signal := {| signal_gicd := 0x8000000; signal_v2 := false |};
  g_normal_isr := 0; cores := {[0 := fresh_core; 1 := fresh_core]}; log := []
|}.

(** Each core initialises, starts its timer, installs the signal's handler
    and takes an interrupt; one more is spurious. *)
Definition bring_up (c : Z) : list (Z * op) :=
  [(c, CoreInit true); (c, TimerInit 62500000); (c, SignalHandler SIGNAL_HANDLER); (c, TimerBind 7); (c, Dispatch); (c, Dispatch)].

(** C25: in every run of the operations of all cores, from a state with no
    interrupt in progress, each core has completed every interrupt it
    acknowledged, with the value it read, in the opposite order of
    acknowledging and once; and it has not completed a spurious one
    ([active] is [None] from there on).  The handlers and the bound targets
    may do anything that leaves the GIC and the table of handlers alone. *)
Theorem arm_interrupts_completed dev run kernel_invoke `{!Handlers run kernel_invoke} vectors isr_addr s0 s :
  reach dev run kernel_invoke vectors isr_addr s0 s ->
  (forall c, active (gicc_base (gic s0)) c (log s0) = Some []) ->
  forall c, active (gicc_base (gic s)) c (log s) = Some [].
Proof.
  intros Hr H0. induction Hr as [|s s' d o Hr IH E]; [done|]. intros c. specialize (IH c).
  destruct (decide (o = Dispatch)) as [->|N].
  - eapply dispatch_completes in E as [G E]; [|done]. rewrite G, E; [done|]. by rewrite IH.
  - eapply quiet_exec in E; [|done]. by rewrite (quiet_extends _ _ E).
Qed.

Lemma arm_interrupts_completed_witness :
  exists s, run_ops two_cores installed no_invoke 0x1000 ISR (bring_up 0 ++ bring_up 1) boot_state = Some s /\
    timer_ticks <$> cores s !! 1 = Some 1 /\ active 0 1 (log s) = Some [].
Proof.
  destruct (run_ops two_cores installed no_invoke 0x1000 ISR (bring_up 0 ++ bring_up 1) boot_state) as [s|] eqn:E;
    [|vm_compute in E; discriminate E].
  exists s. split; [reflexivity|]. split.
  - revert E. vm_compute. intros [= <-]. reflexivity.
  - assert (gicc_base (gic s) = 0) as <- by (revert E; vm_compute; intros [= <-]; reflexivity).
    apply (arm_interrupts_completed two_cores installed no_invoke 0x1000 ISR boot_state s).
    + apply (run_ops_reach _ _ _ _ _ (bring_up 0 ++ bring_up 1) boot_state boot_state s); [constructor|exact E].
    + intros c. reflexivity.
Defined.

(** ** Redistributors *)

Definition in_region (g : gic_bases) (b : Z) : Prop := gicr_region g <= b < gicr_region g + gicr_region_size g.

(** The other blocks are not in the redistributors' region, which is not the
    whole address space. *)
Definition apart (s : state) : Prop :=
  0 <= gicr_region_size (gic s) < W64 - GICR_FRAME_SIZE /\
  ~ in_region (gic s) (gicd_base (gic s)) /\ ~ in_region (gic s) (gicc_base (gic s)) /\ ~ in_region (gic s) (signal_gicd (signal s)).

#[local] Opaque WAKE_POLLS.

Section frames.
Context (typer mpidr : Z -> Z).

(** [b] is a frame of the region, and core [c]'s. *)
Definition own_frame (g : gic_bases) (c b : Z) : Prop :=
  (exists i, 0 <= i /\ b = gicr_region g + i * GICR_FRAME_SIZE) /\ b + GICR_FRAME_SIZE <= gicr_region g + gicr_region_size g /\
  u32 (Z.shiftr (u64 (typer b)) 32) = affinity_of (u64 (mpidr c)).

Definition frames_inv (s : state) : Prop :=
  apart s /\
  (forall c cs, cores s !! c = Some cs -> irq_gicr_base cs <> 0 -> own_frame (gic s) c (irq_gicr_base cs)) /\
  (forall c b o v, (c, Wr32 b o v) ∈ log s -> in_region (gic s) b -> own_frame (gic s) c b).

Definition is_write (e : event) : bool := match e.2 with Wr32 _ _ _ => true | _ => false end.

(** Steps that write no register, and change no core's frame. *)
Definition readonly (s s' : state) : Prop :=
  ext (fun e => negb (is_write e)) s s' /\ cores s' = cores s.

#[global] Instance readonly_preorder : PreOrder readonly.
Proof.
  split; [intros s; split; [reflexivity|done]|]. intros s1 s2 s3 [E1 C1] [E2 C2]. split; [by etransitivity|congruence].
Qed.

Lemma readonly_emit c a : is_write (c, a) = false -> steps readonly (emit c a).
Proof. intros H s s' x E. split; [apply (steps_emit (fun e => negb (is_write e)) c a) in E; [done|by rewrite H]|]. by injection E as <- <-. Qed.

Lemma readonly_rd32 dev c b o : steps readonly (mmio_read32 dev c b o).
Proof. unfold mmio_read32. steps_auto. by apply readonly_emit. Qed.
Lemma readonly_rd64 dev c b o : steps readonly (mmio_read64 dev c b o).
Proof. unfold mmio_read64. steps_auto. by apply readonly_emit. Qed.
Lemma readonly_mrs dev c r : steps readonly (read_sysreg dev c r).
Proof. unfold read_sysreg. steps_auto. by apply readonly_emit. Qed.
Lemma readonly_wait dev n c frame : steps readonly (wait_awake dev n c frame).
Proof. induction n as [|n IH]; cbn [wait_awake]; steps_auto. apply readonly_rd32. Qed.

Lemma readonly_find dev fuel c aff off : steps readonly (find_frame dev fuel c aff off).
Proof. induction fuel as [|fuel IH] in off |- *; cbn [find_frame]; steps_auto. apply readonly_rd64. Qed.

Lemma frames_readonly s s' : readonly s s' -> frames_inv s -> frames_inv s'.
Proof.
  intros [(G & S & l & L & F) C] (Ha & Hc & Hl). unfold frames_inv, apart in *. rewrite G, S, C.
  split; [done|]. split; [done|]. intros c b o v. rewrite L. intros [H|H]%elem_of_app; [by eauto|].
  apply list_elem_of_In in H. by specialize (proj1 (forallb_forall _ _) F _ H).
Qed.

Lemma frames_benign s s' : benign s s' -> frames_inv s -> frames_inv s'.
Proof.
  intros ((G & S & l & L & F) & _ & _ & C) (Ha & Hc & Hl). unfold frames_inv, apart in *. rewrite G, S.
  split; [done|]. split.
  - intros c cs' E. specialize (C c). rewrite E in C. destruct (cores s !! c) as [cs|] eqn:E'; [|done].
    injection C as ->. by apply (Hc _ _ E').
  - intros c b o v. rewrite L. intros [H|H]%elem_of_app; [by eauto|].
    apply list_elem_of_In in H. by specialize (proj1 (forallb_forall _ _) F _ H).
Qed.

Lemma frames_write c b o v s : frames_inv s -> own_frame (gic s) c b \/ ~ in_region (gic s) b -> frames_inv (add_log (c, Wr32 b o v) s).
Proof.
  intros (Ha & Hc & Hl) H. split; [done|]. split; [done|]. cbn [log add_log gic]. intros c' b' o' v'.
  intros [E|E]%elem_of_app; [exact (Hl _ _ _ _ E)|]. apply list_elem_of_singleton in E. injection E as -> -> -> ->.
  intros I. by destruct H.
Qed.

Context (dev : devices).
Context (typer_fixed : forall l c b, dev_rd64 dev l c b GICR_TYPER = typer b).
Context (mpidr_fixed : forall l c, dev_mrs dev l c MPIDR_EL1 = mpidr c).

(** The search finds the core's frame, or none; its fuel is enough. *)
Lemma find_frame_spec fuel c s off :
  apart s -> 0 <= off <= gicr_region_size (gic s) -> (exists i, 0 <= i /\ off = i * GICR_FRAME_SIZE) ->
  (Z.to_nat ((gicr_region_size (gic s) - off) / GICR_FRAME_SIZE) < fuel)%nat ->
  exists s' b, find_frame dev fuel c (affinity_of (u64 (mpidr c))) off s = Some (s', b) /\ readonly s s' /\
    (b <> 0 -> own_frame (gic s) c b).
Proof.
  intros (Hz & _). pose proof Hz as Hz'. unfold GICR_FRAME_SIZE in Hz'.
  induction fuel as [|fuel IH] in s, off, Hz, Hz' |- *; intros Ho [i [Hi Ei]] Hf; [lia|]. cbn [find_frame].
  unfold mbind at 1, M_bind at 1, get at 1.
  assert (u64 (off + GICR_FRAME_SIZE) = off + GICR_FRAME_SIZE) as -> by (apply u64_small; unfold is_u64, GICR_FRAME_SIZE, W64 in *; lia).
  destruct (negb (gicr_region (gic s) =? 0) && (off + GICR_FRAME_SIZE <=? gicr_region_size (gic s))) eqn:C;
    [|by exists s, 0].
  bool_simp. unfold mbind at 1, M_bind at 1. cbv zeta.
  destruct (mmio_read64 dev c (gicr_region (gic s) + off) GICR_TYPER s) as [[s1 v]|] eqn:E; [|done].
  pose proof (readonly_rd64 _ _ _ _ _ _ _ E) as R1. injection E as E1 <-. rewrite typer_fixed.
  destruct (_ =? affinity_of _) eqn:A; bool_simp.
  { exists s1, (gicr_region (gic s) + off). split; [done|]. split; [done|]. intros _. split; [exists i; by rewrite Ei|].
    split; [unfold GICR_FRAME_SIZE in *; lia|done]. }
  destruct (Z.testbit _ 4); [by exists s1, 0|].
  assert (gic s1 = gic s) as Hg by apply R1.
  destruct (IH s1 (off + GICR_FRAME_SIZE)) as (s' & b & E & R2 & Hb); rewrite ?Hg; try done.
  - unfold GICR_FRAME_SIZE in *. lia.
  - exists (i + 1). unfold GICR_FRAME_SIZE in *. lia.
  - replace (gicr_region_size (gic s) - (off + GICR_FRAME_SIZE)) with (gicr_region_size (gic s) - off + (-1) * GICR_FRAME_SIZE) by lia.
    rewrite Z.div_add by done. assert (1 <= (gicr_region_size (gic s) - off) / GICR_FRAME_SIZE); [|lia].
    apply Z.div_le_lower_bound; unfold GICR_FRAME_SIZE in *; lia.
  - exists s', b. split; [done|]. split; [by etransitivity|]. by rewrite <- Hg.
Qed.

(** Code that keeps the invariant, knowing the addresses. *)
Definition keeps {A} (g : gic_bases) (m : M A) : Prop :=
  hoare (fun s => frames_inv s /\ gic s = g) m (fun _ s => frames_inv s /\ gic s = g).

Lemma keeps_ret {A} g (a : A) : keeps g (mret a).
Proof. by apply hoare_ret. Qed.
Lemma keeps_bind {A B} g (m : M A) (f : A -> M B) : keeps g m -> (forall a, keeps g (f a)) -> keeps g (m ≫= f).
Proof. apply hoare_bind. Qed.
Lemma keeps_readonly {A} g (m : M A) : steps readonly m -> keeps g m.
Proof. intros H. apply (hoare_steps _ _ _ _ H). intros s s' a [I G] R. split; [by apply (frames_readonly s)|]. by rewrite (proj1 (proj1 R)). Qed.
Lemma keeps_benign {A} g (m : M A) : steps benign m -> keeps g m.
Proof. intros H. apply (hoare_steps _ _ _ _ H). intros s s' a [I G] R. split; [by apply (frames_benign s)|]. by rewrite (proj1 (proj1 R)). Qed.
Lemma keeps_write g c b o v : (forall s, frames_inv s -> gic s = g -> own_frame g c b \/ ~ in_region g b) -> keeps g (mmio_write32 c b o v).
Proof. intros H. apply hoare_modify. intros s [I <-]. split; [|done]. apply frames_write; [done|exact (H s I eq_refl)]. Qed.
Lemma keeps_regs n g c b o v : (forall s, frames_inv s -> gic s = g -> own_frame g c b \/ ~ in_region g b) -> keeps g (write_regs n c b o v).
Proof.
  intros H. induction n as [|n IH] in o |- *; cbn [write_regs]; [apply keeps_ret|].
  apply keeps_bind; [by apply keeps_write|intros _; apply IH].
Qed.
Lemma keeps_sysreg g c r v : keeps g (write_sysreg c r v).
Proof. apply keeps_readonly. by apply readonly_emit. Qed.

(** Reading the shared addresses. *)
Lemma keeps_gic {B} g (k : gic_bases -> M B) : keeps g (k g) -> keeps g (get gic ≫= k).
Proof. intros H. apply hoare_get. intros a. apply (hoare_pre _ (fun s => (frames_inv s /\ gic s = g) /\ a = g)); [by intros s [[I <-] <-]|]. intros s [[I G] ->]. by apply H. Qed.
Lemma keeps_get {A B} g (f : state -> A) (k : A -> M B) : (forall a, keeps g (k a)) -> keeps g (get f ≫= k).
Proof. intros H. apply hoare_get. intros a. apply (hoare_pre _ (fun s => frames_inv s /\ gic s = g)); [by intros s [I _]|apply H]. Qed.

(** Changes of the tables. *)
Lemma keeps_tables g f : (forall s, gic (f s) = gic s /\ signal (f s) = signal s /\ cores (f s) = cores s /\ log (f s) = log s) -> keeps g (modify f).
Proof.
  intros H. apply hoare_modify. intros s [I G]. destruct (H s) as (Eg & Es & Ec & El). split; [|by rewrite Eg].
  apply (frames_readonly s); [|done]. split; [|done]. split; [done|]. split; [done|]. exists []. by rewrite app_nil_r.
Qed.

Lemma keeps_core g c cs b : (b <> 0 -> own_frame g c b) -> irq_gicr_base cs = b -> keeps g (modify (set_core c cs)).
Proof.
  intros Hb Eb. apply hoare_modify. intros s [(Ha & Hc & Hl) <-]. split; [|done]. split; [done|]. split; [|done].
  cbn [cores set_core gic]. intros d cs'. destruct (decide (d = c)) as [->|N].
  - rewrite lookup_insert_eq. intros [= <-]. by rewrite Eb.
  - rewrite lookup_insert_ne by done. apply Hc.
Qed.

Ltac keeping H :=
  repeat lazymatch goal with
  | |- keeps _ (_ ≫= _) => apply keeps_bind; [|intros ?]
  | |- keeps _ (mret _) => apply keeps_ret
  | |- keeps _ (mmio_write32 _ _ _ _) => exact (keeps_write _ _ _ _ _ H)
  | |- keeps _ (write_regs _ _ _ _ _) => exact (keeps_regs _ _ _ _ _ _ H)
  | |- keeps _ (write_sysreg _ _ _) => apply keeps_sysreg
  end.

Lemma keeps_distributor g c : keeps g (gic_distributor_init c).
Proof.
  unfold gic_distributor_init. apply keeps_gic. destruct (gicd_base g =? 0); [apply keeps_ret|]. cbv zeta.
  assert (forall s, frames_inv s -> gic s = g -> own_frame g c (gicd_base g) \/ ~ in_region g (gicd_base g)) as H.
  { intros s (Ha & _) <-. right. apply Ha. }
  keeping H.
Qed.

Lemma keeps_interface g c : keeps g (gic_cpu_interface_init c).
Proof.
  unfold gic_cpu_interface_init. apply keeps_gic.
  assert (forall s, frames_inv s -> gic s = g -> own_frame g c (gicc_base g) \/ ~ in_region g (gicc_base g)) as H.
  { intros s (Ha & _) <-. right. apply Ha. }
  destruct (negb _); keeping H.
Qed.

Lemma keeps_install g c v h : keeps g (irq_install_handler c v h).
Proof.
  unfold irq_install_handler. destruct (_ || _); [apply keeps_ret|]. apply keeps_bind; [by apply keeps_tables|intros _].
  apply hoare_get. intros cs. apply hoare_get. intros g'. cbv zeta.
  apply (hoare_pre _ (fun s => (frames_inv s /\ gic s = g) /\ cores s !! c = cs /\ g' = g)); [by intros s [[[I <-] E] <-]|].
  destruct (negb _ && _) eqn:F; [|destruct (negb (gicd_base g' =? 0)) eqn:D]; bool_simp.
  - destruct cs as [cs|]; [|done]. apply hoare_modify. intros s ((I & <-) & E & _). split; [|done].
    apply frames_write; [done|]. left. by apply I.
  - apply hoare_modify. intros s ((I & <-) & _ & ->). split; [|done]. apply frames_write; [done|]. right. apply I.
  - intros s ((I & G) & _). by apply keeps_ret.
Qed.

Lemma keeps_frame_init g c b : own_frame g c b -> keeps g (frame_init dev c b).
Proof.
  intros Hb. unfold frame_init.
  assert (forall s, frames_inv s -> gic s = g -> own_frame g c b \/ ~ in_region g b) as H by (by left).
  apply keeps_bind; [apply keeps_readonly, readonly_rd32|intros w]. apply keeps_bind; [keeping H|intros _].
  apply keeps_bind; [apply keeps_readonly, readonly_wait|intros [|]; cbn [negb]; [|apply keeps_ret]]. keeping H.
Qed.

Lemma keeps_redistributor g c cs : keeps g (redistributor_init dev c cs).
Proof.
  unfold redistributor_init.
  apply (hoare_bind _ _ _ _ (fun m s => (frames_inv s /\ gic s = g) /\ m = u64 (mpidr c))).
  { intros s Hs s' m E. split; [by apply (keeps_readonly _ _ (readonly_mrs _ _ _) _ Hs _ _ E)|]. injection E as _ <-.
    by rewrite mpidr_fixed. }
  intros m. apply (hoare_bind _ _ _ _ (fun _ s => (frames_inv s /\ gic s = g) /\ m = u64 (mpidr c))).
  { intros s [Hs ->] s' [] E. split; [|done]. by apply (keeps_core g c (set_gicr_base 0 cs) 0 ltac:(done) eq_refl s Hs _ _ E). }
  intros _. apply hoare_get. intros g'.
  apply (hoare_bind _ _ _ _ (fun b s => (frames_inv s /\ gic s = g) /\ (b <> 0 -> own_frame g c b))).
  { intros s [[[I Hg] ->] <-] s' b E.
    destruct (find_frame_spec (frame_fuel (gicr_region_size (gic s))) c s 0) as (s1 & b1 & E1 & R & Hb).
    - apply I.
    - pose proof (proj1 (proj1 I)). lia.
    - by exists 0.
    - unfold frame_fuel. rewrite Z.sub_0_r. lia.
    - rewrite E1 in E. injection E as <- <-. split; [|by rewrite <- Hg]. split; [by apply (frames_readonly s)|].
      by rewrite (proj1 (proj1 R)). }
  intros b. apply (hoare_bind _ _ _ _ (fun _ s => (frames_inv s /\ gic s = g) /\ (b <> 0 -> own_frame g c b))).
  { intros s [Hs Hb] s' [] E. split; [|done]. by apply (keeps_core g c (set_gicr_base b cs) b Hb eq_refl s Hs _ _ E). }
  intros _. destruct (b =? 0) eqn:B; bool_simp; [by apply hoare_ret; intros s [Hs _]|].
  intros s [Hs Hb]. by apply keeps_frame_init; auto.
Qed.

Lemma keeps_core_init vectors g c k : keeps g (irq_core_init dev vectors c k).
Proof.
  unfold irq_core_init. apply keeps_bind; [by apply keeps_tables|intros _]. apply keeps_gic.
  destruct (gicd_base g =? 0); [apply keeps_ret|]. apply keeps_get. intros [cs|]; [|apply keeps_ret].
  apply keeps_bind; [apply keeps_sysreg|intros _]. apply keeps_bind; [apply keeps_distributor|intros _].
  apply keeps_bind; [destruct (gicc_base g =? 0); [apply keeps_redistributor|apply keeps_ret]|].
  intros [|]; cbn [negb]; [|apply keeps_ret]. apply keeps_bind; [apply keeps_interface|intros _; apply keeps_sysreg].
Qed.

(** Changes of a core's own counters. *)
Lemma keeps_with_core {A} g c (f : core_state -> core_state) (k : M A) (k' : M A) :
  (forall cs, irq_gicr_base (f cs) = irq_gicr_base cs) -> keeps g k -> keeps g k' ->
  keeps g (cs ← core_state_get c; match cs with Some cs => _ ← modify (set_core c (f cs)); k | None => k' end).
Proof.
  intros Hf Hk Hk' s [I G] s' a E. unfold core_state_get, mbind, M_bind, get in E.
  destruct (cores s !! c) as [cs|] eqn:Hc; [|by apply (Hk' s (conj I G) _ _ E)].
  cbn [modify] in E. apply (Hk (set_core c (f cs) s)) in E; [done|]. split; [|done].
  apply (frames_benign s); [|done]. by apply (benign_core c cs).
Qed.

Context (run : Z -> Z -> M unit) (kernel_invoke : Z -> Z -> Z -> list Z -> M unit) `{!Handlers run kernel_invoke}.

Lemma keeps_dispatch g c : keeps g (irq_aarch64_dispatch dev run kernel_invoke c).
Proof.
  unfold irq_aarch64_dispatch, irq_aarch64_acknowledge, irq_aarch64_eoi. apply keeps_bind.
  { apply keeps_gic. destruct (negb _); [apply keeps_readonly, readonly_rd32|].
    apply keeps_bind; [apply keeps_readonly, readonly_mrs|intros ?; apply keeps_ret]. }
  intros raw. cbv zeta. destruct (irq_is_spurious _); [apply keeps_ret|].
  apply keeps_bind; [by apply keeps_benign, benign_line|intros _]. apply keeps_gic. destruct (negb _); [|apply keeps_sysreg].
  apply keeps_write. intros s (Ha & _) <-. right. apply Ha.
Qed.

Lemma keeps_signal {A} g (k : signal_bases -> M A) :
  (forall sg, ~ in_region g (signal_gicd sg) -> keeps g (k sg)) -> keeps g (get signal ≫= k).
Proof. intros H. apply hoare_get. intros sg s [[I G] E] s' a. apply (H sg); [|done]. rewrite <- E, <- G. apply I. Qed.

Lemma keeps_exec vectors isr_addr g c o : keeps g (exec dev run kernel_invoke vectors isr_addr c o).
Proof.
  destruct o as [k|v h|msg|hint|t|isr| |h|t|]; cbn [exec].
  - apply keeps_core_init.
  - apply keeps_install.
  - unfold irq_manager_handler. cbv zeta. destruct (_ <=? _); [apply keeps_ret|by apply keeps_tables].
  - unfold timer_core_init. apply keeps_bind; [|intros _; apply keeps_ret]. apply hoare_get. intros [cs|]; [|apply hoare_never].
    apply (hoare_bind _ _ _ _ (fun _ s => (frames_inv s /\ gic s = g) /\ cores s !! c = Some cs)).
    { intros s [Hs Hc] s' a. destruct (hint =? 0); [|by intros [= <- <-]]. intros E.
      pose proof (readonly_mrs _ _ _ _ _ _ E) as R. split; [by apply (keeps_readonly g _ (readonly_mrs _ _ _) s Hs _ _ E)|].
      by rewrite (proj2 R). }
    intros freq s [Hs Hc] s' a E. unfold mbind at 1, M_bind at 1, modify at 1 in E.
    revert s' a E. apply (keeps_bind g (modify (set_normal_isr isr_addr))); [by apply keeps_tables|intros _|].
    + apply keeps_bind; [apply keeps_install|intros _]. repeat (apply keeps_bind; [apply keeps_sysreg|intros _]). apply keeps_ret.
    + split; [|apply Hs]. apply (frames_benign s); [|apply Hs]. by apply (benign_core c cs).
  - unfold timer_bind. intros s Hs s' a E.
    apply (keeps_with_core g c (fun cs => set_timer (timer_ticks cs) t (timer_freq_hz cs) cs) (mret tt) (mret tt)
      ltac:(done) (keeps_ret _ _) (keeps_ret _ _) s Hs s' a).
    revert E. unfold core_state_get, mbind, M_bind, get. by destruct (cores s !! c).
  - apply keeps_install.
  - unfold timer_restore_normal_isr. apply keeps_get. intros ?. apply keeps_install.
  - unfold cross_core_signal_install_handler. apply keeps_bind; [apply keeps_install|intros _]. apply keeps_signal. intros sg H.
    destruct (_ && _); [|apply keeps_ret]. apply keeps_write. by right.
  - unfold cross_core_signal_send. cbv zeta. apply keeps_signal. intros sg H.
    destruct (signal_v2 sg); [destruct (_ && _); [apply keeps_write; by right|apply keeps_ret]|].
    destruct (_ <=? _); [apply keeps_ret|apply keeps_sysreg].
  - apply keeps_dispatch.
Qed.
End frames.

(** in every run of the operations of all cores from their start, each
    write that a core makes inside the redistributors' region is to the frame
    whose type register has that core's affinity, and the frame a core keeps
    is that one; so two cores of different affinities never share a frame,
    nor does one touch the other's.  The region's other blocks lie elsewhere,
    and the frames' type registers and the cores' [MPIDR_EL1] are constant. *)
Theorem arm_own_redistributor typer mpidr dev run kernel_invoke `{!Handlers run kernel_invoke} vectors isr_addr s0 s :
  (forall l c b, dev_rd64 dev l c b GICR_TYPER = typer b) -> (forall l c, dev_mrs dev l c MPIDR_EL1 = mpidr c) ->
  apart s0 -> log s0 = [] -> (forall c cs, cores s0 !! c = Some cs -> irq_gicr_base cs = 0) ->
  reach dev run kernel_invoke vectors isr_addr s0 s ->
  (forall c b o v, (c, Wr32 b o v) ∈ log s -> in_region (gic s0) b -> own_frame typer mpidr (gic s0) c b) /\
  (forall c cs, cores s !! c = Some cs -> irq_gicr_base cs <> 0 -> own_frame typer mpidr (gic s0) c (irq_gicr_base cs)) /\
  (forall c c' cs cs', cores s !! c = Some cs -> cores s !! c' = Some cs' -> irq_gicr_base cs <> 0 ->
     irq_gicr_base cs = irq_gicr_base cs' -> affinity_of (u64 (mpidr c)) = affinity_of (u64 (mpidr c'))).
Proof.
  intros Ht Hm Ha Hl Hc Hr.
  assert (frames_inv typer mpidr s /\ gic s = gic s0) as [(_ & Ic & Il) G].
  { induction Hr as [|s s' c o Hr IH E].
    - split; [|done]. split; [done|]. split; [|by rewrite Hl; intros ? ? ? ? ?%not_elem_of_nil].
      intros c cs E N. by apply Hc in E.
    - by apply (keeps_exec typer mpidr dev Ht Hm run kernel_invoke vectors isr_addr _ c o s IH s' tt). }
  rewrite G in *. split; [exact Il|]. split; [exact Ic|]. intros c c' cs cs' E E' N Heq.
  destruct (Ic _ _ E N) as (_ & _ & <-). rewrite Heq in N |- *. by destruct (Ic _ _ E' N) as (_ & _ & <-).
Qed.

Lemma arm_own_redistributor_witness :
  exists s, run_ops two_cores installed no_invoke 0x1000 ISR (bring_up 0 ++ bring_up 1) boot_state = Some s /\
    irq_gicr_base <$> cores s !! 1 = Some (REGION + GICR_FRAME_SIZE) /\
    forall b o v, (1, Wr32 b o v) ∈ log s -> in_region (gic boot_state) b -> own_frame two_typers (fun c => c) (gic boot_state) 1 b.
Proof.
  destruct (run_ops two_cores installed no_invoke 0x1000 ISR (bring_up 0 ++ bring_up 1) boot_state) as [s|] eqn:E;
    [|vm_compute in E; discriminate E].
  exists s. split; [reflexivity|]. split; [revert E; vm_compute; intros [= <-]; reflexivity|].
  apply (arm_own_redistributor two_typers (fun c => c) two_cores installed no_invoke 0x1000 ISR boot_state s); try reflexivity.
  - split_and!; unfold in_region; cbn; unfold REGION, GICR_FRAME_SIZE, W64; lia.
  - intros c cs. cbn [cores boot_state]. intros [[_ <-]|[_ H]]%lookup_insert_Some; [reflexivity|].
    apply lookup_singleton_Some in H as [_ <-]. reflexivity.
  - apply (run_ops_reach _ _ _ _ _ (bring_up 0 ++ bring_up 1) boot_state boot_state s); [constructor|exact E].
Defined.
