(* ===== verification/IrqArmEnable.v ===== *)
(** * Which interrupts reach a core on AArch64, and who handles them

    The enable bits of the GIC, replayed from the writes to its set-enable
    and clear-enable registers.  A core that takes interrupts has a handler
    for each that can reach it, as long as no other core of the same image
    initialises its own; with another core, the shared table is cleared
    under it ([another_core_clears_handlers]).  A signal reaches the core it
    names and no other.  Each tick of the timer is counted, sent to the
    target and re-armed before the interrupt is completed. *)

From stdpp Require Import gmap.
From S2P Require Import Prelude Bits Capnp StateM IrqArm IrqArmSpec.

#[local] Open Scope Z_scope.
#[local] Opaque WAKE_POLLS.

(** ** Enable bits *)

(** Writing 1s to the register of [id]'s bank at [set] enables them, at
    [clr] disables them; 0s do nothing. *)
Definition enable_step (set clr b id : Z) (on : bool) (e : event) : bool :=
  match e.2 with
  | Wr32 b' o v =>
      if negb (b' =? b) then on
      else if o =? set + 4 * (id / 32) then on || Z.testbit v (id mod 32)
      else if o =? clr + 4 * (id / 32) then on && negb (Z.testbit v (id mod 32))
      else on
  | _ => on
  end.

Definition enabled (set clr b id : Z) (on : bool) (l : list event) : bool := fold_left (enable_step set clr b id) l on.

(** An event that does not enable. *)
Definition noset (e : event) : bool :=
  match e.2 with
  | Wr32 _ o _ => negb (((GICD_ISENABLER <=? o) && (o <? GICD_ISENABLER + 32)) || (o =? GICR_ISENABLER0))
  | _ => true
  end.

Definition set_off (set id o : Z) : Prop :=
  set + 4 * (id / 32) = o -> GICD_ISENABLER <= o < GICD_ISENABLER + 32 \/ o = GICR_ISENABLER0.

Lemma noset_off set clr b id (l : list event) :
  (forall o, set_off set id o) -> forallb noset l = true -> enabled set clr b id false l = false.
Proof.
  intros Hs. induction l as [|[c a] l IH]; [done|]. cbn [forallb]. intros [Hn Hl]%andb_true_iff.
  unfold enabled. cbn [fold_left]. replace (enable_step _ _ _ _ _ _) with false; [by apply IH|].
  unfold enable_step. destruct a as [| |b' o v| | | |]; try done. cbn [snd]. destruct (b' =? b); [cbn [negb]|done].
  destruct (o =? set + 4 * (id / 32)) eqn:E; [|by destruct (o =? clr + _)]. bool_simp.
  unfold noset in Hn. cbn [snd] in Hn. destruct (Hs o (eq_sym E)) as [?|?]; bool_simp; [|done].
  destruct ((_ <=? o) && (o <? _)) eqn:X; bool_simp; [done|]. apply andb_false_iff in X as [X|X]; bool_simp; lia.
Qed.

Lemma gicd_set_off id : 0 <= id < 256 -> forall o, set_off GICD_ISENABLER id o.
Proof. intros H o <-. left. pose proof (Z.div_pos id 32 ltac:(lia) ltac:(lia)). pose proof (Z.div_lt_upper_bound id 32 8 ltac:(lia) ltac:(lia)). lia. Qed.

Lemma gicr_set_off id : 0 <= id < 32 -> forall o, set_off GICR_ISENABLER0 id o.
Proof. intros H o <-. right. rewrite Z.div_small by lia. lia. Qed.

Lemma enabled_app set clr b id on l1 l2 : enabled set clr b id on (l1 ++ l2) = enabled set clr b id (enabled set clr b id on l1) l2.
Proof. apply fold_left_app. Qed.

Lemma off_after_clear set clr b c id on l1 l2 :
  (forall o, set_off set id o) -> clr <> set -> forallb noset l2 = true ->
  enabled set clr b id on (l1 ++ (c, Wr32 b (clr + 4 * (id / 32)) 0xffffffff) :: l2) = false.
Proof.
  intros Hs Hne Hl. rewrite enabled_app. unfold enabled at 1. cbn [fold_left].
  replace (enable_step _ _ _ _ _ _) with false; [by apply noset_off|].
  unfold enable_step. cbn [snd]. rewrite Z.eqb_refl. cbn [negb].
  replace (clr + _ =? set + _) with false by (symmetry; apply Z.eqb_neq; lia). rewrite Z.eqb_refl.
  pose proof (Z.mod_pos_bound id 32 ltac:(lia)). change 0xffffffff with (Z.ones 32).
  by rewrite Z.ones_spec_low, andb_false_r by lia.
Qed.

(** A run of registers. *)
Fixpoint regs (n : nat) (c b o v : Z) : list event :=
  match n with
  | O => []
  | S n => (c, Wr32 b o (u32 v)) :: regs n c b (o + 4) v
  end.

Lemma write_regs_log n c b o v s s' a : write_regs n c b o v s = Some (s', a) -> log s' = log s ++ regs n c b o v.
Proof.
  induction n as [|n IH] in o, s |- *; intros E; cbn [write_regs regs] in *.
  - injection E as <- _. by rewrite app_nil_r.
  - unfold mbind, M_bind in E. cbn [mmio_write32 emit modify] in E. apply IH in E. rewrite E. cbn [log add_log]. by rewrite <- app_assoc.
Qed.

Lemma regs_at n c b o v k : 0 <= k < Z.of_nat n -> exists l1 l2, regs n c b o v = l1 ++ (c, Wr32 b (o + 4 * k) (u32 v)) :: l2.
Proof.
  induction n as [|n IH] in o, k |- *; intros Hk; [lia|]. cbn [regs]. destruct (decide (k = 0)) as [->|N].
  - exists [], (regs n c b (o + 4) v). by rewrite Z.add_0_r.
  - destruct (IH (o + 4) (k - 1)) as (l1 & l2 & E); [lia|]. exists ((c, Wr32 b o (u32 v)) :: l1), l2. rewrite E.
    by replace (o + 4 + 4 * (k - 1)) with (o + 4 * k) by lia.
Qed.

(** The code that does not enable, and what it leaves disabled. *)
Definition tame (e : event) : bool := noset e && negb (bool_decide (e.2 = Msr DAIFCLR 2)).

Lemma tame_regs n c b o v : o + 4 * Z.of_nat n <= GICD_ISENABLER \/ GICD_ISENABLER + 32 <= o /\ o + 4 * Z.of_nat n <= GICR_ISENABLER0 \/ GICR_ISENABLER0 < o ->
  steps (ext tame) (write_regs n c b o v).
Proof.
  intros H. apply steps_regs. intros i Hi. unfold tame, noset. cbn [snd].
  rewrite bool_decide_eq_false_2, andb_true_r by done. apply negb_true_iff, orb_false_iff.
  split; [|apply Z.eqb_neq; unfold GICD_ISENABLER, GICR_ISENABLER0, GICR_SGI_BASE in *; lia].
  apply andb_false_iff. destruct (Z.leb_spec GICD_ISENABLER (o + i)); [right|by left]. apply Z.ltb_ge.
  unfold GICD_ISENABLER, GICR_ISENABLER0, GICR_SGI_BASE in *. lia.
Qed.

Lemma tame_ext s s' : ext tame s s' -> ext noset s s'.
Proof.
  intros (G & S & l & L & F). split; [done|]. split; [done|]. exists l. split; [done|].
  apply forallb_forall. intros e He. apply (proj1 (forallb_forall _ _) F) in He. by apply andb_true_iff in He as [? _].
Qed.

Lemma tame_noset {A} (m : M A) : steps (ext tame) m -> steps (ext noset) m.
Proof. apply steps_mono, tame_ext. Qed.

Section gate.
Context (dev : devices) (run : Z -> Z -> M unit) (kernel_invoke : Z -> Z -> Z -> list Z -> M unit) `{!Handlers run kernel_invoke}.
Context (vectors isr_addr : Z) (typer mpidr : Z -> Z).
Context (typer_fixed : forall l c b, dev_rd64 dev l c b GICR_TYPER = typer b).
Context (mpidr_fixed : forall l c, dev_mrs dev l c MPIDR_EL1 = mpidr c).

(** One core, its frame, and what firmware left enabled. *)
Context (c home : Z) (fw : Z -> Z -> bool) (g : gic_bases).
Context (home_own : forall b, own_frame typer mpidr g c b -> b = home).

Definition gicd_on (s : state) (id : Z) : bool := enabled GICD_ISENABLER GICD_ICENABLER (gicd_base g) id (fw (gicd_base g) id) (log s).
Definition home_on (s : state) (id : Z) : bool := enabled GICR_ISENABLER0 GICR_ICENABLER0 home id (fw home id) (log s).

(** The interrupts that reach the core: on GICv3 the private ones through its
    redistributor. *)
Definition delivered (s : state) (id : Z) : bool :=
  if (gicc_base g =? 0) && (id <? 32) then home_on s id else gicd_on s id.

Definition unmasked (s : state) : Prop := (c, Msr DAIFCLR 2) ∈ log s.

(** The interrupts the code configures. *)
Definition silent (s : state) : Prop := forall id, 0 <= id < 256 -> delivered s id = false.

Definition gicd_silent (s : state) : Prop := forall id, 0 <= id < 256 -> gicd_on s id = false.
Definition home_silent (s : state) : Prop := forall id, 0 <= id < 32 -> home_on s id = false.

Lemma noset_gicd s s' : ext noset s s' -> gicd_silent s -> gicd_silent s'.
Proof.
  intros (_ & _ & l & L & F) H id Hid. specialize (H id Hid). unfold gicd_on in *. rewrite L, enabled_app, H.
  apply noset_off; [by apply gicd_set_off|done].
Qed.
Lemma noset_home s s' : ext noset s s' -> home_silent s -> home_silent s'.
Proof.
  intros (_ & _ & l & L & F) H id Hid. specialize (H id Hid). unfold home_on in *. rewrite L, enabled_app, H.
  apply noset_off; [by apply gicr_set_off|done].
Qed.
Lemma noset_silent s s' : ext noset s s' -> silent s -> silent s'.
Proof.
  intros (_ & _ & l & L & F) H id Hid. specialize (H id Hid). unfold delivered, home_on, gicd_on in *.
  destruct ((gicc_base g =? 0) && (id <? 32)) eqn:C; rewrite L, enabled_app, H; apply noset_off; try done.
  - bool_simp. apply gicr_set_off. lia.
  - by apply gicd_set_off.
Qed.

Lemma both_silent s : gicd_silent s -> (gicc_base g = 0 -> home_silent s) -> silent s.
Proof.
  intros Hd Hh id Hid. unfold delivered. destruct (_ && _) eqn:C; bool_simp; [|by apply Hd]. apply Hh; [done|lia].
Qed.

Lemma tame_masked s s' : ext tame s s' -> unmasked s' -> unmasked s.
Proof.
  intros (_ & _ & l & L & F). unfold unmasked. rewrite L. intros [H|H]%elem_of_app; [done|].
  apply list_elem_of_In, (proj1 (forallb_forall _ _) F) in H. unfold tame in H. bool_simp. done.
Qed.

Lemma tame_frame_init b : steps (ext tame) (frame_init dev c b).
Proof.
  unfold frame_init. accesses; [|apply tame_regs; unfold GICR_IPRIORITYR, GICR_ISENABLER0; lia].
  generalize (Z.to_nat WAKE_POLLS). intros n. induction n; cbn [wait_awake]; accesses.
Qed.

Lemma tame_redistributor cs : steps (ext tame) (redistributor_init dev c cs).
Proof.
  unfold redistributor_init. accesses; [|apply tame_frame_init].
  generalize (frame_fuel (gicr_region_size a1)) 0. intros n. induction n; intros z; cbn [find_frame]; accesses.
Qed.

Lemma tame_distributor : steps (ext tame) (gic_distributor_init c).
Proof.
  unfold gic_distributor_init.
  accesses; apply tame_regs; unfold GICD_ICENABLER, GICD_IGROUPR, GICD_IPRIORITYR, GICD_ISENABLER, GICR_ISENABLER0, GICR_SGI_BASE; lia.
Qed.

Lemma tame_interface : steps (ext tame) (gic_cpu_interface_init c).
Proof. unfold gic_cpu_interface_init. accesses. Qed.

Lemma noset_core_init k : steps (ext noset) (irq_core_init dev vectors c k).
Proof.
  unfold irq_core_init. accesses; apply tame_noset; [apply tame_distributor|apply tame_redistributor|apply tame_interface].
Qed.

(** The distributor's banks are cleared. *)
Lemma distributor_silent s s' : gic s = g -> gicd_base g <> 0 -> gic_distributor_init c s = Some (s', tt) -> gicd_silent s'.
Proof.
  intros Hg Hd E id Hid. unfold gic_distributor_init, mbind at 1, M_bind at 1, get at 1 in E. rewrite Hg in E.
  apply Z.eqb_neq in Hd. rewrite Hd in E. cbv zeta in E. unfold mbind at 1, M_bind at 1 in E.
  cbn [mmio_write32 emit modify] in E. set (s1 := add_log _ s) in E. unfold mbind at 1, M_bind at 1 in E.
  destruct (write_regs 8 c _ GICD_ICENABLER _ s1) as [[s2 []]|] eqn:E2; [|done]. apply write_regs_log in E2.
  assert (ext noset s2 s') as (_ & _ & l & L & F).
  { revert E. refine (tame_noset _ _ _ _ _). accesses; apply tame_regs; unfold GICD_IGROUPR, GICD_IPRIORITYR, GICD_ISENABLER, GICR_ISENABLER0, GICR_SGI_BASE; lia. }
  pose proof (Z.div_pos id 32 ltac:(lia) ltac:(lia)). pose proof (Z.div_lt_upper_bound id 32 8 ltac:(lia) ltac:(lia)).
  destruct (regs_at 8 c (gicd_base g) GICD_ICENABLER 0xffffffff (id / 32)) as (l1 & l2 & E3); [lia|].
  unfold gicd_on. rewrite L, E2, E3, <- !app_assoc, app_assoc. cbn [app].
  apply off_after_clear; [by apply gicd_set_off|done|].
  assert (forallb noset (regs 8 c (gicd_base g) GICD_ICENABLER 4294967295) = true) as Hr by reflexivity.
  rewrite E3, forallb_app in Hr. cbn [forallb] in Hr. bool_simp. rewrite forallb_app. by apply andb_true_iff.
Qed.

(** The frame's private interrupts are cleared, when it wakes. *)
Lemma frame_silent s s' : frame_init dev c home s = Some (s', true) -> home_silent s'.
Proof.
  intros E id Hid. unfold frame_init in E. unfold mbind at 1, M_bind at 1 in E.
  destruct (mmio_read32 dev c home GICR_WAKER s) as [[s1 w]|] eqn:E1; [|done]. unfold mbind at 1, M_bind at 1 in E.
  destruct (mmio_write32 _ _ _ _ s1) as [[s2 []]|] eqn:E2; [|done]. unfold mbind at 1, M_bind at 1 in E.
  destruct (wait_awake dev _ c home s2) as [[s3 []]|] eqn:E3; [|done|done]. cbn [negb] in E. unfold mbind at 1, M_bind at 1 in E.
  destruct (mmio_write32 c home GICR_ICENABLER0 _ s3) as [[s4 []]|] eqn:E4; [|done]. injection E4 as E4.
  assert (ext noset s4 s') as (_ & _ & l & L & F).
  { revert E. refine (tame_noset _ _ _ _ _). accesses. apply tame_regs; unfold GICR_IPRIORITYR, GICR_ISENABLER0; lia. }
  unfold home_on. rewrite L, <- E4. cbn [log add_log]. change (u32 0xffffffff) with 0xffffffff. rewrite <- app_assoc. cbn [app].
  replace GICR_ICENABLER0 with (GICR_ICENABLER0 + 4 * (id / 32)) at 2 by (rewrite Z.div_small by lia; lia).
  apply off_after_clear; [by apply gicr_set_off|done|done].
Qed.

Lemma redistributor_silent cs s s' : frames_inv typer mpidr s -> gic s = g ->
  redistributor_init dev c cs s = Some (s', true) -> home_silent s'.
Proof.
  intros I Hg E. unfold redistributor_init in E.
  pose proof (keeps_core typer mpidr g c (set_gicr_base 0 cs) 0 ltac:(done) eq_refl) as Kc.
  unfold mbind at 1, M_bind at 1 in E. destruct (read_sysreg dev c MPIDR_EL1 s) as [[s1 m]|] eqn:E1; [|done].
  pose proof (keeps_readonly typer mpidr g _ (readonly_mrs dev c MPIDR_EL1) s (conj I Hg) _ _ E1) as H1. injection E1 as _ <-.
  unfold mbind at 1, M_bind at 1 in E. cbn [modify] in E. apply (fun H => Kc _ H _ _ eq_refl) in H1 as [I1 G1].
  set (s2 := set_core c _ s1) in *. unfold mbind at 1, M_bind at 1, get at 1 in E. unfold mbind at 1, M_bind at 1 in E.
  destruct (find_frame_spec typer mpidr dev typer_fixed (frame_fuel (gicr_region_size (gic s2))) c s2 0) as (s3 & b & E2 & _ & Hb).
  - apply I1.
  - pose proof (proj1 (proj1 I1)). lia.
  - by exists 0.
  - unfold frame_fuel. rewrite Z.sub_0_r. lia.
  - rewrite mpidr_fixed, E2 in E. unfold mbind at 1, M_bind at 1 in E. cbn [modify] in E.
    destruct (b =? 0) eqn:B; [done|]. bool_simp. rewrite G1 in Hb. rewrite (home_own b (Hb B)) in E. by apply frame_silent in E.
Qed.

Lemma core_init_silent k s s' : frames_inv typer mpidr s -> gic s = g ->
  irq_core_init dev vectors c k s = Some (s', tt) -> (unmasked s -> silent s) -> unmasked s' -> silent s'.
Proof.
  intros I Hg E Hs. destruct (decide (unmasked s)) as [U|U].
  { intros _. apply (noset_silent s); [by apply (noset_core_init k _ _ _ E)|by apply Hs]. }
  unfold irq_core_init in E. unfold mbind at 1, M_bind at 1 in E. cbn [modify] in E. set (s1 := set_tables _ _ k s) in E.
  assert (frames_inv typer mpidr s1 /\ gic s1 = g) as H1 by (by apply (keeps_tables typer mpidr g (set_tables (replicate (Z.to_nat MAX_IRQ_HANDLERS) 0) (replicate (Z.to_nat MAX_IRQ_HANDLERS) 0) k) ltac:(done) s (conj I Hg) s1 tt)).
  unfold mbind at 1, M_bind at 1, get at 1 in E. rewrite (proj2 H1) in E.
  destruct (gicd_base g =? 0) eqn:D; [injection E as <-; by intros ?%U|]. bool_simp.
  unfold core_state_get, mbind at 1, M_bind at 1, get at 1 in E.
  destruct (cores s1 !! c) as [cs|]; [|injection E as <-; by intros ?%U].
  unfold mbind at 1, M_bind at 1 in E. destruct (write_sysreg c VBAR_EL1 vectors s1) as [[s2 []]|] eqn:E2; [|done].
  pose proof (keeps_sysreg typer mpidr g c VBAR_EL1 vectors s1 H1 _ _ E2) as H2.
  assert (~ unmasked s2) as U2. { injection E2 as <-. intros [H|H]%elem_of_app; [by apply U|]. by apply list_elem_of_singleton in H. }
  unfold mbind at 1, M_bind at 1 in E. destruct (gic_distributor_init c s2) as [[s3 []]|] eqn:E3; [|done].
  pose proof (keeps_distributor typer mpidr g c s2 H2 _ _ E3) as H3.
  pose proof (distributor_silent s2 s3 (proj2 H2) D E3) as Q3. apply tame_distributor in E3.
  assert (~ unmasked s3) as U3 by (by intros ?%(tame_masked _ _ E3)).
  unfold mbind at 1, M_bind at 1 in E. destruct ((if gicc_base g =? 0 then redistributor_init dev c cs else mret true) s3) as [[s4 ok]|] eqn:E4; [|done].
  destruct ok; cbn [negb] in E.
  - assert (ext tame s3 s4 /\ (gicc_base g = 0 -> home_silent s4)) as [T4 Q4].
    { destruct (gicc_base g =? 0) eqn:V; bool_simp.
      - split; [by apply (tame_redistributor cs _ _ _ E4)|]. intros _. by apply (redistributor_silent cs s3); [apply H3..|].
      - injection E4 as <-. split; [reflexivity|done]. }
    assert (ext noset s4 s') as N4 by (revert E; apply steps_bind; [apply _|apply tame_noset, tame_interface|intros _; by apply steps_emit]).
    intros _. apply (noset_silent _ _ N4), both_silent; [|done]. revert Q3. apply noset_gicd. by apply tame_ext.
  - injection E as <-. destruct (gicc_base g =? 0); [|done]. apply tame_redistributor in E4. intros ?%(tame_masked _ _ E4). done.
Qed.

(** *** Handlers *)

Definition gate_inv (s : state) : Prop :=
  frames_inv typer mpidr s /\ gic s = g /\ length (g_irq_handlers s) = 32%nat /\
  (unmasked s -> forall id, 0 <= id < 256 -> delivered s id = true -> id < 32 /\ g_irq_handlers s !!? Z.to_nat id <> 0).

(** The core is masked or its interrupts are silent when it initialises;
    handlers are functions. *)
Definition ready (o : op) (s : state) : Prop :=
  match o with
  | CoreInit _ => unmasked s -> silent s
  | InstallHandler _ h | TimerIsr h | SignalHandler h => h <> 0
  | TimerRestore => g_normal_isr s <> 0
  | _ => True
  end.

Inductive alone (s0 : state) : state -> Prop :=
| alone_start : alone s0 s0
| alone_step s s' o : alone s0 s -> ready o s -> exec dev run kernel_invoke vectors isr_addr c o s = Some (s', tt) -> alone s0 s'.

Lemma tame_delivered s s' id : ext tame s s' -> 0 <= id < 256 -> delivered s' id = true -> delivered s id = true.
Proof.
  intros (_ & _ & l & L & F)%tame_ext Hid. unfold delivered, home_on, gicd_on. rewrite L, !enabled_app.
  destruct ((gicc_base g =? 0) && (id <? 32)) eqn:C; destruct (enabled _ _ _ _ _ (log s)); try done; rewrite noset_off; try done.
  - bool_simp. apply gicr_set_off. lia.
  - by apply gicd_set_off.
Qed.

(** Steps that touch neither the enables nor the handlers. *)
Lemma gate_tame s s' : ext tame s s' -> g_irq_handlers s' = g_irq_handlers s -> frames_inv typer mpidr s' -> gate_inv s -> gate_inv s'.
Proof.
  intros T H I (_ & G & Len & D). split; [done|]. rewrite H. split; [by rewrite (proj1 T)|]. split; [done|].
  intros U id Hid Hd. apply D; [by apply (tame_masked _ _ T)|done|]. by apply (tame_delivered _ _ _ T).
Qed.

(** Enabling one line that has a handler. *)
Lemma enabled_one set clr b id on l d b' o v : enabled set clr b id on (l ++ [(d, Wr32 b' o v)]) = true ->
  enabled set clr b id on l = true \/ (o = set + 4 * (id / 32) /\ Z.testbit v (id mod 32) = true).
Proof.
  rewrite enabled_app. destruct (enabled set clr b id on l); [by left|]. unfold enabled. cbn [fold_left]. unfold enable_step. cbn [snd].
  destruct (negb _); [done|]. destruct (_ =? _) eqn:E; bool_simp; [by right|]. by destruct (_ =? _).
Qed.

Lemma one_bit v i : 0 <= v < 32 -> 0 <= i < 32 -> Z.testbit (u32 (Z.shiftl 1 v)) i = true -> i = v.
Proof.
  intros Hv Hi. unfold u32. change 4294967296 with (2 ^ 32). rewrite Z.mod_pow2_bits_low, Z.shiftl_mul_pow2, Z.mul_1_l by lia.
  destruct (decide (i = v)) as [->|N]; [done|]. by rewrite Z.pow2_bits_false by lia.
Qed.

Lemma one_delivered s d b o v id : o = GICR_ISENABLER0 \/ o = GICD_ISENABLER -> 0 <= v < 32 -> 0 <= id < 256 ->
  delivered (add_log (d, Wr32 b o (u32 (Z.shiftl 1 v))) s) id = true -> delivered s id = true \/ id = v.
Proof.
  intros Ho Hv Hid. pose proof (Z.div_pos id 32 ltac:(lia) ltac:(lia)) as Hq. pose proof (Z.mod_pos_bound id 32 ltac:(lia)) as Hm.
  pose proof (Z.div_mod id 32 ltac:(lia)) as Hdm. pose proof (Z.div_lt_upper_bound id 32 8 ltac:(lia) ltac:(lia)) as Hq8.
  unfold delivered, home_on, gicd_on. cbn [log add_log].
  destruct (_ && _); intros [H|[E H]]%enabled_one; try (by left); right; apply one_bit in H; [|lia|lia| |lia|lia];
    unfold GICR_ISENABLER0, GICR_SGI_BASE, GICD_ISENABLER in *; lia.
Qed.

Lemma gate_one s d b o v : o = GICR_ISENABLER0 \/ o = GICD_ISENABLER -> 0 <= v < 32 -> g_irq_handlers s !!? Z.to_nat v <> 0 ->
  frames_inv typer mpidr (add_log (d, Wr32 b o (u32 (Z.shiftl 1 v))) s) -> gate_inv s -> gate_inv (add_log (d, Wr32 b o (u32 (Z.shiftl 1 v))) s).
Proof.
  intros Ho Hv Hh I (_ & G & Len & D). split; [done|]. split; [done|]. split; [done|]. intros U id Hid Hd.
  apply one_delivered in Hd; [|done..]. destruct Hd as [Hd| ->]; [|split; [lia|done]]. apply D; [|done..].
  unfold unmasked in *. cbn [log add_log] in U. apply elem_of_app in U as [U|U]; [done|]. by apply list_elem_of_singleton in U.
Qed.

Lemma gate_handler s v h : 0 <= v < 32 -> h <> 0 -> gate_inv s ->
  let s' := set_tables (<[Z.to_nat v := h]> (g_irq_handlers s)) (g_irq_targets s) (g_kernel_invoke s) s in
  gate_inv s' /\ g_irq_handlers s' !!? Z.to_nat v <> 0.
Proof.
  intros Hv Hh (I & G & Len & D). cbn [g_irq_handlers set_tables]. split; [|by rewrite nth_insert_eq by lia].
  split; [by apply (keeps_tables typer mpidr g (fun s => set_tables (<[Z.to_nat v := h]> (g_irq_handlers s)) (g_irq_targets s) (g_kernel_invoke s) s) ltac:(done) s (conj I G) _ tt)|].
  split; [done|]. cbn [g_irq_handlers set_tables]. split; [by rewrite length_insert|].
  intros U id Hid Hd. destruct (D U id Hid Hd) as [Hl Hn]. split; [done|].
  destruct (decide (id = v)) as [->|N]; [by rewrite nth_insert_eq by lia|]. rewrite nth_insert_ne by lia. done.
Qed.

Lemma gate_install v h s s' : h <> 0 -> gate_inv s -> irq_install_handler c v h s = Some (s', tt) ->
  gate_inv s' /\ (0 <= v < 32 -> g_irq_handlers s' !!? Z.to_nat v <> 0).
Proof.
  intros Hh HI E.
  assert (frames_inv typer mpidr s') as I' by (by apply (keeps_install typer mpidr g c v h s (conj (proj1 HI) (proj1 (proj2 HI))) s' tt)).
  unfold irq_install_handler in E. destruct ((v <? 0) || (MAX_IRQ_HANDLERS <=? v)) eqn:V.
  { injection E as <-. split; [done|]. apply orb_true_iff in V as [V|V]; bool_simp; unfold MAX_IRQ_HANDLERS in *; lia. }
  bool_simp. unfold MAX_IRQ_HANDLERS in *. unfold mbind at 1, M_bind at 1 in E. cbn [modify] in E.
  destruct (gate_handler s v h ltac:(lia) Hh HI) as [HI1 Hv]. set (s1 := set_tables _ _ _ s) in *.
  unfold core_state_get, mbind, M_bind, get in E. cbv zeta in E. rewrite (Z.div_small v 32), (Z.mod_small v 32) in E by lia.
  destruct (negb _ && _); [|destruct (negb _)]; injection E as <-; (split; [|done]); [| |done].
  - apply gate_one; auto; lia.
  - apply gate_one; auto; lia.
Qed.

(** After initialising, the table is the cleared one. *)
Definition same_handlers (s s' : state) : Prop := g_irq_handlers s' = g_irq_handlers s.

#[local] Instance same_handlers_preorder : PreOrder same_handlers.
Proof. split; [done|]. intros s1 s2 s3. unfold same_handlers. congruence. Qed.

Lemma same_emit d a : steps same_handlers (emit d a).
Proof. by intros s s' x [= <- _]. Qed.
Lemma same_regs n b o v : steps same_handlers (write_regs n c b o v).
Proof. induction n in o |- *; cbn [write_regs]; steps_auto. apply same_emit. Qed.
Lemma same_find n aff off : steps same_handlers (find_frame dev n c aff off).
Proof. induction n in off |- *; cbn [find_frame]; unfold mmio_read64; steps_auto. apply same_emit. Qed.
Lemma same_wait n b : steps same_handlers (wait_awake dev n c b).
Proof. induction n; cbn [wait_awake]; unfold mmio_read32; steps_auto. apply same_emit. Qed.

Lemma core_init_handlers k s s' : irq_core_init dev vectors c k s = Some (s', tt) -> length (g_irq_handlers s') = 32%nat.
Proof.
  unfold irq_core_init. unfold mbind at 1, M_bind at 1. cbn [modify]. set (s1 := set_tables _ _ k s). intros E.
  change 32%nat with (length (g_irq_handlers s1)). f_equal. revert E.
  refine ((_ : steps same_handlers _) s1 s' tt).
  unfold gic_distributor_init, redistributor_init, frame_init, gic_cpu_interface_init, write_sysreg, mmio_write32, read_sysreg, mmio_read32.
  steps_auto;
    lazymatch goal with
    | |- steps _ (emit _ _) => apply same_emit
    | |- steps _ (write_regs _ _ _ _ _) => apply same_regs
    | |- steps _ (find_frame _ _ _ _ _) => apply same_find
    | |- steps _ (wait_awake _ _ _ _) => apply same_wait
    | |- steps _ (modify _) => by apply steps_modify
    end.
Qed.

Lemma harmless_tame e : harmless e = true -> tame e = true.
Proof. destruct e as [d [b o v|b o v|b o v|r v|r v|h|t m msg]]; try done; destruct r; done. Qed.

Lemma gate_benign s s' : benign s s' -> gate_inv s -> gate_inv s'.
Proof.
  intros B HI. apply (gate_tame s); [|apply B|by apply (frames_benign _ _ s), HI|done].
  apply (benign_ext tame _ _ harmless_tame B).
Qed.

Context (isr_fun : isr_addr <> 0).

Lemma gate_emit d a s : tame (d, a) = true -> is_write (d, a) = false -> gate_inv s -> gate_inv (add_log (d, a) s).
Proof.
  intros T W HI. apply (gate_tame s); [by apply (steps_emit tame d a T s _ tt)|done| |done].
  apply (frames_readonly _ _ s); [|apply HI]. by apply (readonly_emit d a W s _ tt).
Qed.

Lemma gate_timer_init hint s s' z : gate_inv s -> timer_core_init dev isr_addr c hint s = Some (s', z) -> gate_inv s'.
Proof.
  intros HI. unfold timer_core_init, core_state_get. unfold mbind at 1, M_bind at 1, get at 1.
  destruct (cores s !! c) as [cs|] eqn:Hc; [|done].
  unfold mbind at 1, M_bind at 1. destruct ((if hint =? 0 then read_sysreg dev c CNTFRQ_EL0 else mret hint) s) as [[s1 f]|] eqn:E1; [|done].
  assert (gate_inv s1 /\ cores s1 !! c = Some cs) as [H1 Hc1].
  { destruct (hint =? 0); injection E1 as <- _; [|done]. split; [|done]. by apply gate_emit. }
  unfold mbind at 1, M_bind at 1. cbn [modify]. unfold mbind at 1, M_bind at 1. cbn [modify].
  pose proof (gate_benign _ _ (benign_core c cs (set_timer 0 0 f cs) eq_refl s1 Hc1) H1) as H2.
  assert (gate_inv (set_normal_isr isr_addr (set_core c (set_timer 0 0 f cs) s1))) as H3 by exact H2.
  clear H2. revert H3. generalize (set_normal_isr isr_addr (set_core c (set_timer 0 0 f cs) s1)). intros s3 H3 E.
  unfold mbind at 1, M_bind at 1 in E. destruct (irq_install_handler c TIMER_VECTOR isr_addr s3) as [[s4 []]|] eqn:E4; [|done].
  apply gate_install in E4 as [H4 _]; [|done..]. injection E as <- _. do 2 (apply gate_emit; [done|done|]). done.
Qed.

Lemma gate_dispatch s s' : gate_inv s -> irq_aarch64_dispatch dev run kernel_invoke c s = Some (s', tt) -> gate_inv s'.
Proof.
  intros HI E. pose proof (keeps_dispatch typer mpidr dev run kernel_invoke g c s (conj (proj1 HI) (proj1 (proj2 HI))) s' tt E) as [I' _].
  apply dispatch_cases in E as (raw & a & Ha & Hr & E).
  assert (gate_inv (add_log (c, a) s)) as H1.
  { destruct a as [b o v| | |r v| | |]; try done; [by apply gate_emit|]. destruct r; try done. by apply gate_emit. }
  destruct (irq_is_spurious _); [by subst s'|]. destruct E as (s2 & E2 & E3).
  apply benign_line in E2; [|done]. apply (gate_benign _ _ E2) in H1.
  apply (gate_tame s2); [| |done|done].
  - revert E3. unfold irq_aarch64_eoi. refine ((_ : steps (ext tame) _) s2 s' tt). accesses.
  - revert E3. unfold irq_aarch64_eoi, write_sysreg, mmio_write32. refine ((_ : steps same_handlers _) s2 s' tt).
    steps_auto; apply same_emit.
Qed.

Lemma gate_exec o s s' : gate_inv s -> ready o s -> exec dev run kernel_invoke vectors isr_addr c o s = Some (s', tt) -> gate_inv s'.
Proof.
  intros HI R E. pose proof HI as (I & G & Len & D).
  pose proof (keeps_exec typer mpidr dev typer_fixed mpidr_fixed run kernel_invoke vectors isr_addr g c o s (conj I G) s' tt E) as [I' G'].
  destruct o as [k|v h|msg|hint|t|isr| |h|t|]; cbn [exec ready] in *.
  - split; [done|]. split; [done|]. split; [by apply (core_init_handlers k s)|]. intros U id Hid Hd.
    pose proof (core_init_silent k s s' I G E R U id Hid) as X. congruence.
  - by apply (gate_install v h s).
  - revert E. unfold irq_manager_handler. cbv zeta. destruct (_ <=? _); injection 1 as <-; done.
  - unfold mbind, M_bind in E. destruct (timer_core_init dev isr_addr c hint s) as [[s1 z]|] eqn:E1; [|done].
    injection E as <-. by apply (gate_timer_init hint s s1 z).
  - revert E. unfold timer_bind, core_state_get, mbind, M_bind, get. destruct (cores s !! c) as [cs|] eqn:Hc; injection 1 as <-; [|done].
    apply (gate_benign s); [|done]. by apply (benign_core c cs).
  - by apply (gate_install TIMER_VECTOR isr s).
  - by apply (gate_install TIMER_VECTOR (g_normal_isr s) s).
  - unfold cross_core_signal_install_handler in E. unfold mbind at 1, M_bind at 1 in E.
    destruct (irq_install_handler c CROSS_CORE_SIGNAL_SGI h s) as [[s1 []]|] eqn:E1; [|done].
    apply gate_install in E1 as [H1 Hv]; [|done..]. unfold mbind, M_bind, get in E.
    destruct (_ && _); injection E as <-; [|done]. apply gate_one; [by right|done| |done|done]. by apply Hv.
  - revert E. unfold cross_core_signal_send. cbv zeta. unfold mbind, M_bind, get.
    destruct (signal_v2 _); [destruct (_ && _)|destruct (16 <=? _)]; injection 1 as <-; try done.
    + apply (gate_tame s); [|done..]. eapply (steps_emit tame); [|reflexivity]. done.
    + by apply gate_emit.
  - by apply (gate_dispatch s).
Qed.

Lemma alone_gate s0 s : gate_inv s0 -> alone s0 s -> gate_inv s.
Proof. intros H0. induction 1 as [|s s' o Ha IH R E]; [done|]. by apply (gate_exec o s). Qed.
End gate.

(** C26: a core whose image no other core shares, from the start of its
    interrupt set-up, with whatever firmware left enabled: whenever it takes
    interrupts, each of the first 256 that can reach it (on GICv3 through its
    own redistributor for the private ones) has a handler; so none is
    completed while nobody silenced its source.  The core initialises while
    it is masked or while nothing reaches it, as at boot. *)
Theorem arm_enabled_handled dev run kernel_invoke `{!Handlers run kernel_invoke} vectors isr_addr typer mpidr c home fw s0 s :
  (forall l d b, dev_rd64 dev l d b GICR_TYPER = typer b) -> (forall l d, dev_mrs dev l d MPIDR_EL1 = mpidr d) ->
  (forall b, own_frame typer mpidr (gic s0) c b -> b = home) -> isr_addr <> 0 ->
  apart s0 -> log s0 = [] -> (forall d cs, cores s0 !! d = Some cs -> irq_gicr_base cs = 0) -> length (g_irq_handlers s0) = 32%nat ->
  alone dev run kernel_invoke vectors isr_addr c home fw (gic s0) s0 s ->
  unmasked c s -> forall id, 0 <= id < 256 -> delivered home fw (gic s0) s id = true ->
  id < 32 /\ g_irq_handlers s !!? Z.to_nat id <> 0.
Proof.
  intros Ht Hm Hh Hi Ha Hl Hc Hlen Hr.
  eapply (alone_gate dev run kernel_invoke vectors isr_addr typer mpidr Ht Hm c home fw (gic s0) Hh Hi s0 s); [|done].
  split; [|split; [done|split; [done|]]].
  - split; [done|]. split; [|by rewrite Hl; intros ? ? ? ? ?%not_elem_of_nil]. intros d cs E N. by apply Hc in E.
  - unfold unmasked. rewrite Hl. by intros ?%not_elem_of_nil.
Qed.

(** Firmware may have left anything enabled. *)
Definition all_on (b id : Z) : bool := true.

Lemma arm_enabled_handled_witness :
  exists s, run_ops two_cores installed no_invoke 0x1000 ISR [(0, CoreInit true); (0, TimerInit 62500000)] boot_state = Some s /\
    delivered REGION all_on (gic boot_state) s 30 = true /\ delivered REGION all_on (gic boot_state) s 29 = false /\
    (30 < 32 /\ g_irq_handlers s !!? 30%nat <> 0).
Proof.
  cbn [run_ops]. set (x := exec two_cores installed no_invoke 0x1000 ISR 0 (CoreInit true) boot_state).
  destruct x as [[s1 []]|] eqn:E1; [|vm_compute in E1; discriminate E1]. unfold x in E1.
  destruct (exec two_cores installed no_invoke 0x1000 ISR 0 (TimerInit 62500000) s1) as [[s []]|] eqn:E2;
    [|vm_compute in E1; injection E1 as <-; vm_compute in E2; discriminate E2].
  exists s. split; [reflexivity|].
  assert (delivered REGION all_on (gic boot_state) s 30 = true /\ delivered REGION all_on (gic boot_state) s 29 = false /\
          existsb (fun e => bool_decide (e = (0, Msr DAIFCLR 2))) (log s) = true) as (Hd & Hd' & Hu).
  { vm_compute in E1. injection E1 as <-. vm_compute in E2. injection E2 as <-. vm_compute. repeat split; reflexivity. }
  split; [exact Hd|]. split; [exact Hd'|].
  apply (arm_enabled_handled two_cores installed no_invoke 0x1000 ISR two_typers (fun c => c) 0 REGION all_on boot_state s);
    try reflexivity; try discriminate; try exact Hd; try (split; [discriminate|reflexivity]).
  - intros b ([i [Hi ->]] & Hb & Ha). cbn [gic boot_state gicr_region gicr_region_size] in *. unfold GICR_FRAME_SIZE in *.
    assert (i = 0 \/ i = 1) as [-> | ->] by lia; [reflexivity|]. vm_compute in Ha. discriminate Ha.
  - split_and!; unfold in_region; cbn; unfold REGION, GICR_FRAME_SIZE, W64; lia.
  - intros c cs. cbn [cores boot_state]. intros [[_ <-]|[_ H]]%lookup_insert_Some; [reflexivity|].
    apply lookup_singleton_Some in H as [_ <-]. reflexivity.
  - apply (alone_step _ _ _ _ _ _ _ _ _ _ s1 s (TimerInit 62500000)); [|exact I|exact E2].
    apply (alone_step _ _ _ _ _ _ _ _ _ _ boot_state s1 (CoreInit true)); [constructor| |exact E1].
    intros H. apply not_elem_of_nil in H. destruct H.
  - unfold unmasked. apply existsb_exists in Hu as (e & He & Hb). apply bool_decide_eq_true in Hb. subst e. by apply list_elem_of_In.
Defined.

(** ** Where the guarantee ends *)

(** Two cores of one image: the second core's [irq_core_init] clears the
    handlers (and the bound targets) of the first, which still takes the
    timer's interrupt; the dispatcher then completes it without re-arming. *)
Theorem another_core_clears_handlers :
  exists s, run_ops two_cores installed no_invoke 0x1000 ISR
      [(0, CoreInit true); (0, TimerInit 62500000); (0, BindTarget (capnp_build_flat 32 [5; 77])); (1, CoreInit true)] boot_state = Some s /\
    existsb (fun e => bool_decide (e = (0, Msr DAIFCLR 2))) (log s) = true /\
    delivered REGION all_on (gic boot_state) s 30 = true /\
    g_irq_handlers s !!? 30%nat = 0 /\ g_irq_targets s !!? 5%nat = 0.
Proof. eexists. split; [vm_compute; reflexivity|]. by repeat split. Qed.

(** The banks from interrupt 256 on are not cleared: one that firmware left
    enabled stays so, and has no handler. *)
Theorem high_banks_left_enabled :
  exists s, run_ops two_cores installed no_invoke 0x1000 ISR [(0, CoreInit true)] boot_state = Some s /\
    existsb (fun e => bool_decide (e = (0, Msr DAIFCLR 2))) (log s) = true /\
    delivered REGION all_on (gic boot_state) s 256 = true /\ delivered REGION all_on (gic boot_state) s 255 = false.
Proof. eexists. split; [vm_compute; reflexivity|]. by repeat split. Qed.

(** A timer slower than 100 Hz is programmed to fire at once, again and
    again, which the interrupt handler's own comment calls a storm. *)
Theorem slow_timer_interval_zero :
  exists s, run_ops two_cores installed no_invoke 0x1000 ISR [(0, CoreInit true); (0, TimerInit 99); (0, Dispatch)] boot_state = Some s /\
    List.filter (fun e => match e.2 with Msr CNTP_TVAL_EL0 _ => true | _ => false end) (log s) = [(0, Msr CNTP_TVAL_EL0 0); (0, Msr CNTP_TVAL_EL0 0)].
Proof. eexists. split; [vm_compute; reflexivity|]. done. Qed.

(** ** Signals *)

(** The affinity levels of an [MPIDR_EL1]. *)
Definition affs (m : Z) : list Z := [field m 0 8; field m 8 8; field m 16 8; field m 32 8].

(** GICv3: the cores that a write of [w] to [ICC_SGI1R_EL1] interrupts, and
    with which interrupt.  Bit 40 would be all cores but this one; bits 44-47
    select which 16 of the level-0 affinities the target list names. *)
Definition sgi1r_reaches (w m : Z) : bool :=
  (field w 40 1 =? 0) && (field m 32 8 =? field w 48 8) && (field m 16 8 =? field w 32 8) && (field m 8 8 =? field w 16 8) &&
  (field m 0 8 / 16 =? field w 44 4) && Z.testbit (field w 0 16) (field m 0 8 mod 16).
Definition sgi1r_intid (w : Z) : Z := field w 24 4.

(** GICv2: [GICD_SGIR] names CPU interfaces in bits 16-23, when bits 24-25
    are 0. *)
Definition sgir_reaches (w i : Z) : bool := (field w 24 2 =? 0) && Z.testbit (field w 16 8) i.
Definition sgir_intid (w : Z) : Z := field w 0 4.

Lemma sgi1r_word a0 a1 a2 a3 : 0 <= a0 < 16 -> 0 <= a1 < 256 -> 0 <= a2 < 256 -> 0 <= a3 < 256 ->
  let w := Z.lor (Z.lor (Z.lor (Z.shiftl a3 48) (Z.shiftl a2 32)) (Z.shiftl a1 16)) (Z.shiftl 1 a0) in
  field w 48 8 = a3 /\ field w 32 8 = a2 /\ field w 16 8 = a1 /\ field w 0 16 = Z.shiftl 1 a0 /\
  field w 40 1 = 0 /\ field w 44 4 = 0 /\ field w 24 4 = 0.
Proof.
  intros H0 H1 H2 H3. cbv zeta. rewrite !field_lor.
  assert (0 <= Z.shiftl 1 a0 < 2 ^ 16) as Hb.
  { rewrite Z.shiftl_mul_pow2, Z.mul_1_l by lia. split; [apply Z.pow_nonneg; lia|apply Z.pow_lt_mono_r; lia]. }
  assert (forall lo w, 16 <= lo -> field (Z.shiftl 1 a0) lo w = 0) as Hlow.
  { intros lo w Hlo. rewrite <- (Z.shiftl_0_r (Z.shiftl 1 a0)). by apply (field_below _ _ 16). }
  assert (field (Z.shiftl 1 a0) 0 16 = Z.shiftl 1 a0) as Hall by (by apply field_all).
  rewrite Hall, !Hlow, !Z.lor_0_r by lia.
  split_and!;
    repeat first [rewrite (field_hit a3) by lia|rewrite (field_hit a2) by lia|rewrite (field_hit a1) by lia
      |rewrite (field_below a2 32 8) by lia|rewrite (field_below a1 16 8) by lia
      |rewrite (field_above a3) by lia|rewrite (field_above a2) by lia|rewrite (field_above a1) by lia];
    rewrite ?Z.lor_0_r, ?Z.lor_0_l; done.
Qed.

Lemma testbit_one a i : 0 <= a -> 0 <= i -> Z.testbit (Z.shiftl 1 a) i = (i =? a).
Proof.
  intros Ha Hi. rewrite Z.shiftl_mul_pow2, Z.mul_1_l by done. destruct (Z.eqb_spec i a) as [->|N].
  - by apply Z.pow2_bits_true.
  - by apply Z.pow2_bits_false.
Qed.

(** signalling a core, named by its [MPIDR_EL1], makes at most one access.
    On GICv3 this is a write that raises interrupt 0 on exactly the cores
    with that affinity, and nothing for a target whose level-0 affinity the
    list has no bit for; on GICv2 a write that raises it on exactly that CPU
    interface, and nothing for a target that is none of the eight. *)
Theorem arm_signal_reaches c t s s' : cross_core_signal_send c t s = Some (s', tt) ->
  if signal_v2 (signal s) then
    if bool_decide (signal_gicd (signal s) <> 0 /\ field t 0 8 < 8 /\ field t 8 8 = 0 /\ field t 16 8 = 0 /\ field t 32 8 = 0) then
      exists w, s' = add_log (c, Wr32 (signal_gicd (signal s)) GICD_SGIR w) s /\ sgir_intid w = 0 /\
        forall i, 0 <= i -> sgir_reaches w i = (i =? field t 0 8)
    else s' = s
  else if bool_decide (field t 0 8 < 16) then
    exists w, s' = add_log (c, Msr ICC_SGI1R_EL1 w) s /\ sgi1r_intid w = 0 /\
      forall m, sgi1r_reaches w m = bool_decide (affs m = affs t)
  else s' = s.
Proof.
  unfold cross_core_signal_send. cbv zeta. unfold mbind, M_bind, get.
  change (Z.land (Z.shiftr t 0) 255) with (field t 0 8). change (Z.land (Z.shiftr t 8) 255) with (field t 8 8).
  change (Z.land (Z.shiftr t 16) 255) with (field t 16 8). change (Z.land (Z.shiftr t 32) 255) with (field t 32 8).
  pose proof (field_range t 0 8 ltac:(lia)) as R0. pose proof (field_range t 8 8 ltac:(lia)) as R1.
  pose proof (field_range t 16 8 ltac:(lia)) as R2. pose proof (field_range t 32 8 ltac:(lia)) as R3.
  destruct (signal_v2 (signal s)).
  - destruct (_ && _ && _ && _ && _) eqn:C; intros [= <-].
    + bool_simp. rewrite bool_decide_eq_true_2 by done. eexists. split; [reflexivity|].
      assert (u32 (Z.shiftl (Z.shiftl 1 (field t 0 8)) 16) = Z.shiftl (Z.shiftl 1 (field t 0 8)) 16) as ->.
      { apply Z.mod_small. rewrite Z.shiftl_shiftl, Z.shiftl_mul_pow2, Z.mul_1_l by lia.
        split; [apply Z.pow_nonneg; lia|change 4294967296 with (2 ^ 32); apply Z.pow_lt_mono_r; lia]. }
      assert (0 <= Z.shiftl 1 (field t 0 8) < 2 ^ 8) as Hb.
      { rewrite Z.shiftl_mul_pow2, Z.mul_1_l by lia. split; [apply Z.pow_nonneg; lia|apply Z.pow_lt_mono_r; lia]. }
      unfold sgir_intid, sgir_reaches. rewrite (field_above _ 16 0 4), (field_below _ 16 8 24 2), (field_hit _ 16 8) by lia.
      split; [done|]. intros i Hi. apply testbit_one; lia.
    + rewrite bool_decide_eq_false_2; [done|]. intros (A & B & D & F & G). rewrite D, F, G in C. apply Z.eqb_neq in A. rewrite A in C.
      apply Z.ltb_lt in B. by rewrite B in C.
  - destruct (16 <=? field t 0 8) eqn:C; bool_simp; intros [= <-]; [by rewrite bool_decide_eq_false_2 by lia|].
    rewrite bool_decide_eq_true_2 by lia. eexists. split; [reflexivity|].
    destruct (sgi1r_word (field t 0 8) (field t 8 8) (field t 16 8) (field t 32 8)) as (E3 & E2 & E1 & E0 & Ei & Er & En); try lia.
    split; [exact En|]. intros m. unfold sgi1r_reaches. rewrite E3, E2, E1, E0, Ei, Er. cbn [Z.eqb andb].
    pose proof (field_range m 0 8 ltac:(lia)) as Rm. rewrite testbit_one by (try apply Z.mod_pos_bound; lia).
    symmetry. destruct (bool_decide (affs m = affs t)) eqn:B.
    + apply bool_decide_eq_true in B. injection B as B0 B1 B2 B3. rewrite B0, B1, B2, B3, !Z.eqb_refl. cbn [andb].
      rewrite Z.div_small, Z.mod_small by lia. by rewrite !Z.eqb_refl.
    + apply bool_decide_eq_false in B. symmetry. apply not_true_iff_false. intros X. apply B. bool_simp.
      unfold affs. pose proof (Z.div_mod (field m 0 8) 16 ltac:(lia)).
      assert (field m 0 8 = field t 0 8) as -> by lia. congruence.
Qed.

Lemma arm_signal_reaches_witness :
  let t := 0x80000103 in
  exists w, cross_core_signal_send 0 t boot_state = Some (add_log (0, Msr ICC_SGI1R_EL1 w) boot_state, tt) /\
    sgi1r_intid w = 0 /\ sgi1r_reaches w 0x103 = true /\ sgi1r_reaches w 3 = false.
Proof.
  destruct (cross_core_signal_send 0 0x80000103 boot_state) as [[s []]|] eqn:E; [|discriminate E].
  pose proof (arm_signal_reaches 0 0x80000103 boot_state s E) as (w & -> & Hi & Hr).
  exists w. split; [exact E|]. split; [exact Hi|]. rewrite !Hr. by split.
Defined.

(** ** Ticks *)

(** The accesses of one tick. *)
Definition tick_log (c isr bound : Z) (k : bool) (cs : core_state) : list event :=
  [(c, Call isr)] ++
  (if timer_target cs =? 0 then [] else [(c, Invoke (timer_target cs) 0 (capnp_build_flat 24 [timer_ticks cs +64 1]))]) ++
  [(c, Msr CNTP_TVAL_EL0 (u32 (timer_freq_hz cs / 100)))] ++
  (if negb (bound =? 0) && k then [(c, Invoke bound 0 (capnp_build_flat 24 [ARM_TIMER_IRQ]))] else []).

(** A timer interrupt whose handler is installed is counted by both counters,
    sent to the timer's target with its count, re-armed, sent to the target
    bound to the line, and only then completed. *)
Theorem arm_tick dev c raw s cs :
  u32 (dev_mrs dev (log s) c ICC_IAR1_EL1) = raw -> gicc_base (gic s) = 0 -> Z.land raw 0x3ff = ARM_TIMER_IRQ ->
  cores s !! c = Some cs -> g_irq_handlers s !!? 30%nat = ISR ->
  exists s', irq_aarch64_dispatch dev installed no_invoke c s = Some (s', tt) /\
    cores s' = <[c := set_timer (timer_ticks cs +64 1) (timer_target cs) (timer_freq_hz cs) (set_tick_count (irq_tick_count cs +64 1) cs)]> (cores s) /\
    log s' = log s ++ [(c, Mrs ICC_IAR1_EL1 (u64 (dev_mrs dev (log s) c ICC_IAR1_EL1)))] ++
      tick_log c ISR (g_irq_targets s !!? 30%nat) (g_kernel_invoke s) cs ++ [(c, Msr ICC_EOIR1_EL1 raw)].
Proof.
  intros Hr Hg Hid Hc Hh.
  assert (u32 (u64 (dev_mrs dev (log s) c ICC_IAR1_EL1)) = raw) as Hr'.
  { rewrite <- Hr. unfold u32, u64, W64. apply Z.mod_mod_divide. by exists 4294967296. }
  unfold irq_aarch64_dispatch, irq_aarch64_acknowledge, mbind, M_bind, get. rewrite Hg. cbn [Z.eqb negb].
  unfold read_sysreg, mbind, M_bind, get. cbn [emit modify mret M_ret]. rewrite Hr', Hid.
  change (irq_is_spurious ARM_TIMER_IRQ) with false. cbn iota. unfold dispatch_line, mbind, M_bind, get, core_state_get.
  change (ARM_TIMER_IRQ =? ARM_TIMER_IRQ) with true. change (ARM_TIMER_IRQ <? MAX_IRQ_HANDLERS) with true.
  change (Z.to_nat ARM_TIMER_IRQ) with 30%nat. cbn [get cores add_log]. rewrite Hc. cbn [modify].
  cbn [g_irq_handlers set_core add_log]. rewrite Hh.
  change (negb (ISR =? 0)) with true. cbn iota. unfold call, installed, mbind, M_bind. cbn [emit modify].
  change (ISR =? ISR) with true. cbn iota. unfold isr_arm_timer, core_state_get, mbind, M_bind, get.
  cbn [cores set_core add_log]. rewrite lookup_insert_eq. cbn [modify timer_target set_tick_count timer_ticks timer_freq_hz].
  unfold tick_log, invoke_word, no_invoke, write_sysreg, mbind, M_bind. 
  destruct (timer_target cs =? 0) eqn:T; cbn [negb emit modify mret M_ret cores set_core add_log];
    rewrite lookup_insert_eq; cbn [emit modify mret M_ret g_irq_targets set_core add_log g_kernel_invoke timer_freq_hz set_timer];
    destruct (negb _ && _); unfold irq_aarch64_eoi, mbind, M_bind, get; cbn [emit modify mret M_ret gic set_core add_log];
    rewrite Hg; cbn [Z.eqb negb write_sysreg emit modify];
    (eexists; split; [reflexivity|]; cbn [cores set_core add_log log]; rewrite insert_insert_eq; split; [done|by rewrite <- !app_assoc]).
Qed.
