(* ===== verification/IrqX86.v ===== *)
(** * Interrupts and the timer on x86-64 (coreinit/irq_x86_64.c,
      lapic_timer_x86_64.c, cross_core_signal_x86_64.c)

    One core: its interrupt descriptor table, task state and GDT (in its
    [core_state]), the globals of its image, and the events so far.  An entry
    of the IDT is stored field by field, so an interrupt between two stores
    sees a part of it: each store is an event, as are port accesses,
    accesses of the local APIC and the instructions that load a table or
    enable interrupts.  What a read answers is a function of the events
    before it.  [None]: the code does not return, or goes through a NULL
    [core_state] or outside of the IDT. *)

From S2P Require Import Prelude Bits Capnp StateM.

(** ** Data *)

(** [core_irq_idt_entry_t] *)
Record gate := {
  offset_low : Z;
  selector : Z;
  ist : Z;
  type_attr : Z;
  offset_mid : Z;
  offset_high : Z;
  reserved : Z
}.

#[global] Instance gate_inhabited : Inhabited gate :=
  populate {| offset_low := 0; selector := 0; ist := 0; type_attr := 0; offset_mid := 0; offset_high := 0; reserved := 0 |}.
#[global] Instance gate_eq_dec : EqDecision gate.
Proof. solve_decision. Defined.

(** [core_irq_tss64_t] *)
Record tss64 := {
  reserved0 : Z; rsp0 : Z; rsp1 : Z; rsp2 : Z; reserved1 : Z;
  ist1 : Z; ist2 : Z; ist3 : Z; ist4 : Z; ist5 : Z; ist6 : Z; ist7 : Z;
  reserved2 : Z; reserved3 : Z; iopb_offset : Z
}.

Definition tss_zero : tss64 :=
  {| reserved0 := 0; rsp0 := 0; rsp1 := 0; rsp2 := 0; reserved1 := 0; ist1 := 0; ist2 := 0; ist3 := 0; ist4 := 0; ist5 := 0;
     ist6 := 0; ist7 := 0; reserved2 := 0; reserved3 := 0; iopb_offset := 0 |}.
Definition set_rsp0 (v : Z) (t : tss64) : tss64 :=
  {| reserved0 := reserved0 t; rsp0 := v; rsp1 := rsp1 t; rsp2 := rsp2 t; reserved1 := reserved1 t; ist1 := ist1 t; ist2 := ist2 t;
     ist3 := ist3 t; ist4 := ist4 t; ist5 := ist5 t; ist6 := ist6 t; ist7 := ist7 t; reserved2 := reserved2 t;
     reserved3 := reserved3 t; iopb_offset := iopb_offset t |}.
Definition set_ist1_iopb (i o : Z) (t : tss64) : tss64 :=
  {| reserved0 := reserved0 t; rsp0 := rsp0 t; rsp1 := rsp1 t; rsp2 := rsp2 t; reserved1 := reserved1 t; ist1 := i; ist2 := ist2 t;
     ist3 := ist3 t; ist4 := ist4 t; ist5 := ist5 t; ist6 := ist6 t; ist7 := ist7 t; reserved2 := reserved2 t;
     reserved3 := reserved3 t; iopb_offset := o |}.

(** [sizeof(core_irq_tss64_t)], which the header asserts. *)
Definition TSS_SIZE : Z := 104.
Definition CORE_IRQ_IDT_ENTRIES : Z := 256.
Definition CORE_FAULT_IST_STACK_SIZE : Z := 8192.
Definition KERNEL_CODE_SELECTOR : Z := 0x08.
Definition LAPIC_TIMER_VECTOR : Z := 0x22.
Definition CROSS_CORE_SIGNAL_VECTOR : Z := 0xF0.

(** The fields of [struct core_state] these files use. *)
Record core_state := {
  irq_idt : list gate;
  irq_fault_ist_stack : list Z;
  irq_tss : tss64;
  irq_gdt_with_tss : list Z;
  timer_ticks : Z;
  timer_target : Z
}.

(** Where they lie, and where the handlers are. *)
Record layout := {
  idt_addr : Z; ist_stack_addr : Z; tss_addr : Z; gdt_addr : Z;
  isr_irq0_addr : Z; isr_irq1_addr : Z; isr_double_fault_addr : Z; isr_general_protection_addr : Z;
  isr_lapic_timer_addr : Z; isr_cross_core_signal_addr : Z
}.

Inductive event :=
| Outb (port val : Z)
| Inb (port val : Z)
| Store (vector : Z) (g : gate)          (* the entry after a store to one of its fields *)
| Lidt (limit base : Z)
| Lgdt (limit base : Z)
| LoadSegs (sel : Z)
| Ltr (sel : Z)
| Sti
| Mfence
| LapicRd (addr val : Z)
| LapicWr (addr val : Z)
| Polled (ticks : Z)                     (* a look at the tick count while waiting *)
| Call (handler : Z)
| Invoke (target method_id : Z) (msg : list Z).

#[global] Instance event_eq_dec : EqDecision event.
Proof. solve_decision. Defined.

Record state := {
  cs : option core_state;
  g_irq_targets : list Z;
  g_tick_count : Z;
  g_lapic_base : Z;
  g_handler : Z;                         (* of cross_core_signal_x86_64.c *)
  log : list event
}.

(** What the ports and the APIC answer, and how many timer interrupts have
    come in since the last look. *)
Record devices := {
  dev_inb : list event -> Z -> Z;
  dev_lapic : list event -> Z -> Z;
  dev_irq0 : list event -> nat
}.

Definition set_cs (c : option core_state) (s : state) : state :=
  {| cs := c; g_irq_targets := g_irq_targets s; g_tick_count := g_tick_count s; g_lapic_base := g_lapic_base s;
     g_handler := g_handler s; log := log s |}.
Definition set_targets (l : list Z) (s : state) : state :=
  {| cs := cs s; g_irq_targets := l; g_tick_count := g_tick_count s; g_lapic_base := g_lapic_base s;
     g_handler := g_handler s; log := log s |}.
Definition set_tick_count (n : Z) (s : state) : state :=
  {| cs := cs s; g_irq_targets := g_irq_targets s; g_tick_count := n; g_lapic_base := g_lapic_base s;
     g_handler := g_handler s; log := log s |}.
Definition set_lapic_base (b : Z) (s : state) : state :=
  {| cs := cs s; g_irq_targets := g_irq_targets s; g_tick_count := g_tick_count s; g_lapic_base := b;
     g_handler := g_handler s; log := log s |}.
Definition set_handler (h : Z) (s : state) : state :=
  {| cs := cs s; g_irq_targets := g_irq_targets s; g_tick_count := g_tick_count s; g_lapic_base := g_lapic_base s;
     g_handler := h; log := log s |}.
Definition add_log (e : event) (s : state) : state :=
  {| cs := cs s; g_irq_targets := g_irq_targets s; g_tick_count := g_tick_count s; g_lapic_base := g_lapic_base s;
     g_handler := g_handler s; log := log s ++ [e] |}.

Definition set_idt (l : list gate) (c : core_state) : core_state :=
  {| irq_idt := l; irq_fault_ist_stack := irq_fault_ist_stack c; irq_tss := irq_tss c; irq_gdt_with_tss := irq_gdt_with_tss c;
     timer_ticks := timer_ticks c; timer_target := timer_target c |}.
Definition set_tss (t : tss64) (c : core_state) : core_state :=
  {| irq_idt := irq_idt c; irq_fault_ist_stack := irq_fault_ist_stack c; irq_tss := t; irq_gdt_with_tss := irq_gdt_with_tss c;
     timer_ticks := timer_ticks c; timer_target := timer_target c |}.
Definition set_fault_tables (stack : list Z) (t : tss64) (g : list Z) (c : core_state) : core_state :=
  {| irq_idt := irq_idt c; irq_fault_ist_stack := stack; irq_tss := t; irq_gdt_with_tss := g;
     timer_ticks := timer_ticks c; timer_target := timer_target c |}.
Definition set_timer (n t : Z) (c : core_state) : core_state :=
  {| irq_idt := irq_idt c; irq_fault_ist_stack := irq_fault_ist_stack c; irq_tss := irq_tss c; irq_gdt_with_tss := irq_gdt_with_tss c;
     timer_ticks := n; timer_target := t |}.

(** ** Code *)

Abbreviation M := (StateM.M state).

Definition emit (e : event) : M unit := modify (add_log e).

(** [core_state_get()] of code that does not check it for NULL. *)
Definition the_cs : M core_state := fun s => match cs s with Some c => Some (s, c) | None => None end.

Section code.
Context (dev : devices) (lay : layout).

(** A handler and the kernel's [invoke]. *)
Context (run : Z -> M unit) (kernel_invoke : Z -> Z -> list Z -> M unit).

Definition outb (port val : Z) : M unit := emit (Outb port val).
Definition inb (port : Z) : M Z := v ← get (fun s => dev_inb dev (log s) port `mod` 256); _ ← emit (Inb port v); mret v.

(** One store of [idt_set_gate_ist]. *)
Definition store_gate (vector : Z) (f : gate -> gate) : M unit :=
  c ← the_cs;
  match irq_idt c !! Z.to_nat vector with
  | Some g =>
      _ ← modify (set_cs (Some (set_idt (<[Z.to_nat vector := f g]> (irq_idt c)) c)));
      emit (Store vector (f g))
  | None => never
  end.

Definition with_offset_low v g := {| offset_low := v; selector := selector g; ist := ist g; type_attr := type_attr g; offset_mid := offset_mid g; offset_high := offset_high g; reserved := reserved g |}.
Definition with_selector v g := {| offset_low := offset_low g; selector := v; ist := ist g; type_attr := type_attr g; offset_mid := offset_mid g; offset_high := offset_high g; reserved := reserved g |}.
Definition with_ist v g := {| offset_low := offset_low g; selector := selector g; ist := v; type_attr := type_attr g; offset_mid := offset_mid g; offset_high := offset_high g; reserved := reserved g |}.
Definition with_type_attr v g := {| offset_low := offset_low g; selector := selector g; ist := ist g; type_attr := v; offset_mid := offset_mid g; offset_high := offset_high g; reserved := reserved g |}.
Definition with_offset_mid v g := {| offset_low := offset_low g; selector := selector g; ist := ist g; type_attr := type_attr g; offset_mid := v; offset_high := offset_high g; reserved := reserved g |}.
Definition with_offset_high v g := {| offset_low := offset_low g; selector := selector g; ist := ist g; type_attr := type_attr g; offset_mid := offset_mid g; offset_high := v; reserved := reserved g |}.
Definition with_reserved v g := {| offset_low := offset_low g; selector := selector g; ist := ist g; type_attr := type_attr g; offset_mid := offset_mid g; offset_high := offset_high g; reserved := v |}.

Definition idt_set_gate_ist (vector handler sel attr i : Z) : M unit :=
  if (vector <? 0) || (CORE_IRQ_IDT_ENTRIES <=? vector) then never
  else
    _ ← store_gate vector (with_offset_low (Z.land handler 0xFFFF));
    _ ← store_gate vector (with_selector sel);
    _ ← store_gate vector (with_ist i);
    _ ← store_gate vector (with_type_attr attr);
    _ ← store_gate vector (with_offset_mid (Z.land (Z.shiftr handler 16) 0xFFFF));
    _ ← store_gate vector (with_offset_high (Z.land (Z.shiftr handler 32) 0xFFFFFFFF));
    store_gate vector (with_reserved 0).

Definition idt_set_gate (vector handler sel attr : Z) : M unit := idt_set_gate_ist vector handler sel attr 0.

Definition load_idt (limit base : Z) : M unit := emit (Lidt (u16 limit) base).

Definition pic_remap : M unit :=
  _ ← outb 0x20 0x11; _ ← outb 0xA0 0x11;
  _ ← outb 0x21 0x20; _ ← outb 0xA1 0x28;
  _ ← outb 0x21 0x04; _ ← outb 0xA1 0x02;
  _ ← outb 0x21 0x01; _ ← outb 0xA1 0x01;
  _ ← outb 0x21 0xFF; outb 0xA1 0xFF.

Definition pit_init (hz : Z) : M unit :=
  let divisor := 1193182 / hz in
  _ ← outb 0x43 0x36;
  _ ← outb 0x40 (Z.land divisor 0xFF);
  outb 0x40 (Z.land (Z.shiftr divisor 8) 0xFF).

(** The descriptor of the task state, in two words of the GDT. *)
Definition tss_desc_low (tss_base tss_limit : Z) : Z :=
  Z.lor (Z.lor (Z.lor (Z.lor (Z.land tss_limit 0xFFFF) (Z.shiftl (Z.land tss_base 0xFFFFFF) 16)) (Z.shiftl 0x89 40))
               (Z.shiftl (Z.land (Z.shiftr tss_limit 16) 0xF) 48))
        (Z.shiftl (Z.land (Z.shiftr tss_base 24) 0xFF) 56).
Definition tss_desc_high (tss_base : Z) : Z := Z.land (Z.shiftr tss_base 32) 0xFFFFFFFF.

Definition setup_tss_and_ist : M unit :=
  c ← the_cs;
  let ist_top := Z.land (ist_stack_addr lay +64 CORE_FAULT_IST_STACK_SIZE) (u64 (Z.lnot 0xF)) in
  let tss_limit := TSS_SIZE - 1 in
  let gdt := [0; 0x00AF9A000000FFFF; 0x00AF92000000FFFF; tss_desc_low (tss_addr lay) tss_limit; tss_desc_high (tss_addr lay);
              0x00AFF2000000FFFF; 0x00AFFA000000FFFF] in
  _ ← modify (set_cs (Some (set_fault_tables (replicate (Z.to_nat CORE_FAULT_IST_STACK_SIZE) 0)
                              (set_ist1_iopb ist_top TSS_SIZE tss_zero) gdt c)));
  _ ← emit (Lgdt (7 * 8 - 1) (gdt_addr lay));
  _ ← emit (LoadSegs 0x10);
  _ ← emit (Ltr 0x18);
  _ ← idt_set_gate_ist 8 (isr_double_fault_addr lay) KERNEL_CODE_SELECTOR 0x8E 1;
  idt_set_gate_ist 13 (isr_general_protection_addr lay) KERNEL_CODE_SELECTOR 0x8E 1.

(** [g_kernel_invoke] with a one-word message. *)
Definition invoke_word (target w : Z) : M unit :=
  let msg := capnp_build_flat 24 [w] in
  _ ← emit (Invoke target 0 msg); kernel_invoke target 0 msg.

Definition dispatch_irq (irq : Z) : M unit :=
  target ← get (fun s => g_irq_targets s !!? Z.to_nat irq);
  if target =? 0 then mret tt else invoke_word target irq.

Definition isr_irq0 : M unit :=
  _ ← modify (fun s => set_tick_count (g_tick_count s +64 1) s);
  _ ← dispatch_irq 0;
  outb 0x20 0x20.

Definition isr_irq1 : M unit :=
  _ ← inb 0x60;
  _ ← dispatch_irq 1;
  outb 0x20 0x20.

(** The two fault handlers print and halt. *)
Definition isr_double_fault : M unit := never.
Definition isr_general_protection : M unit := never.

(** [for (i = 0; i < 256; i++) idt_set_gate(i, 0, 0, 0);] *)
Fixpoint clear_gates (n : nat) (i : Z) : M unit :=
  match n with
  | O => mret tt
  | S n => _ ← idt_set_gate i 0 0 0; clear_gates n (i + 1)
  end.

Definition irq_setup_idt_only : M unit :=
  _ ← clear_gates (Z.to_nat CORE_IRQ_IDT_ENTRIES) 0;
  _ ← load_idt (CORE_IRQ_IDT_ENTRIES * 16 - 1) (idt_addr lay);
  setup_tss_and_ist.

(** [irq_core_init] before it turns to the controller. *)
Definition irq_tables_init : M unit :=
  _ ← modify (set_targets (replicate 16 0));
  _ ← clear_gates (Z.to_nat CORE_IRQ_IDT_ENTRIES) 0;
  _ ← idt_set_gate 0x20 (isr_irq0_addr lay) KERNEL_CODE_SELECTOR 0x8E;
  _ ← idt_set_gate 0x21 (isr_irq1_addr lay) KERNEL_CODE_SELECTOR 0x8E;
  _ ← load_idt (CORE_IRQ_IDT_ENTRIES * 16 - 1) (idt_addr lay);
  setup_tss_and_ist.

Definition irq_core_init : M unit :=
  _ ← irq_tables_init;
  _ ← pic_remap;
  _ ← pit_init 100;
  _ ← outb 0x21 0xFC;
  emit Sti.

(** [*out_response_len] is 0 on every path. *)
Definition irq_manager_handler (msg : list Z) : M unit :=
  let words := capnp_read_flat 2 msg in
  let irq := word words 0 in
  if 16 <=? irq then mret tt
  else modify (fun s => set_targets (<[Z.to_nat irq := word words 1]> (g_irq_targets s)) s).

Definition irq_get_tick_count : M Z := get g_tick_count.

Definition irq_mask_irq0 : M unit :=
  mask ← inb 0x21;
  outb 0x21 (Z.lor mask 0x01).

Definition irq_install_handler (vector handler_addr : Z) : M unit :=
  idt_set_gate vector handler_addr KERNEL_CODE_SELECTOR 0x8E.

Definition irq_x86_64_install_wrapper (invoke_handler exit_handler ring0_stack_top : Z) : M bool :=
  if (invoke_handler =? 0) || (exit_handler =? 0) || (ring0_stack_top =? 0) || negb (Z.land ring0_stack_top 0xf =? 0) then mret false
  else
    c ← the_cs;
    _ ← modify (set_cs (Some (set_tss (set_rsp0 ring0_stack_top (irq_tss c)) c)));
    _ ← idt_set_gate 0x80 invoke_handler KERNEL_CODE_SELECTOR 0xEE;
    _ ← idt_set_gate 3 exit_handler KERNEL_CODE_SELECTOR 0xEE;
    _ ← emit Mfence;
    mret true.

(** ** The local APIC's timer *)

Definition LAPIC_REG_EOI : Z := 0x0B0.
Definition LAPIC_REG_SVR : Z := 0x0F0.
Definition LAPIC_REG_LVT_TIMER : Z := 0x320.
Definition LAPIC_REG_INITIAL_COUNT : Z := 0x380.
Definition LAPIC_REG_CURRENT_COUNT : Z := 0x390.
Definition LAPIC_REG_DIVIDE_CONFIG : Z := 0x3E0.
Definition LVT_MASKED : Z := Z.shiftl 1 16.
Definition LVT_MODE_PERIODIC : Z := Z.shiftl 1 17.
Definition SVR_APIC_SOFTWARE_ENABLE : Z := Z.shiftl 1 8.
Definition SVR_SPURIOUS_VECTOR : Z := 0xFF.
Definition DIVIDE_BY_16 : Z := 0x3.

Definition lapic_read_at (base reg : Z) : M Z :=
  v ← get (fun s => u32 (dev_lapic dev (log s) (u32 (base + reg)))); _ ← emit (LapicRd (u32 (base + reg)) v); mret v.
Definition lapic_write_at (base reg val : Z) : M unit := emit (LapicWr (u32 (base + reg)) (u32 val)).

(** [lapic_read] and [lapic_write] of lapic_timer_x86_64.c. *)
Definition lapic_read (reg : Z) : M Z := base ← get g_lapic_base; lapic_read_at base reg.
Definition lapic_write (reg val : Z) : M unit := base ← get g_lapic_base; lapic_write_at base reg val.

(** The tick of a core that has its [core_state]. *)
Definition lapic_tick : M unit :=
  c ← get cs;
  match c with
  | Some c =>
      let ticks := timer_ticks c +64 1 in
      _ ← modify (set_cs (Some (set_timer ticks (timer_target c) c)));
      if timer_target c =? 0 then mret tt else invoke_word (timer_target c) ticks
  | None => mret tt
  end.

Definition isr_lapic_timer : M unit := _ ← lapic_tick; lapic_write LAPIC_REG_EOI 0.

(** A look at the tick count while waiting for it: the timer's interrupts
    that came in are taken first. *)
Fixpoint irq0_times (n : nat) : M unit :=
  match n with
  | O => mret tt
  | S n => _ ← isr_irq0; irq0_times n
  end.

Definition poll_tick_count : M Z :=
  n ← get (fun s => dev_irq0 dev (log s));
  _ ← irq0_times n;
  t ← irq_get_tick_count;
  _ ← emit (Polled t);
  mret t.

Fixpoint wait_until (fuel : nat) (stop : Z -> bool) : M unit :=
  match fuel with
  | O => never
  | S fuel => t ← poll_tick_count; if stop t then mret tt else wait_until fuel stop
  end.

(** [lapic_timer_calibrate] up to its result. *)
Definition calibrate_count (fuel : nat) (lapic_base : Z) : M Z :=
  _ ← modify (set_lapic_base lapic_base);
  _ ← lapic_write LAPIC_REG_DIVIDE_CONFIG DIVIDE_BY_16;
  _ ← lapic_write LAPIC_REG_LVT_TIMER LVT_MASKED;
  start ← poll_tick_count;
  _ ← wait_until fuel (fun t => negb (t =? start));
  _ ← lapic_write LAPIC_REG_INITIAL_COUNT 0xFFFFFFFF;
  now ← poll_tick_count;
  let measure_until := now +64 5 in
  _ ← wait_until fuel (fun t => negb (t <? measure_until));
  remaining ← lapic_read LAPIC_REG_CURRENT_COUNT;
  let elapsed := u32 (0xFFFFFFFF - remaining) in
  let count_per_10ms := elapsed / 5 in
  mret count_per_10ms.

(** It ends with what [irq_mask_irq0] does. *)
Definition lapic_timer_calibrate (fuel : nat) (lapic_base : Z) : M Z :=
  count_per_10ms ← calibrate_count fuel lapic_base;
  _ ← irq_mask_irq0;
  mret count_per_10ms.

Definition lapic_timer_start (lapic_base count_per_10ms : Z) : M unit :=
  _ ← modify (set_lapic_base lapic_base);
  _ ← modify (fun s => set_cs (match cs s with Some c => Some (set_timer (timer_ticks c) 0 c) | None => None end) s);
  _ ← irq_install_handler LAPIC_TIMER_VECTOR (isr_lapic_timer_addr lay);
  _ ← lapic_write LAPIC_REG_SVR (Z.lor SVR_SPURIOUS_VECTOR SVR_APIC_SOFTWARE_ENABLE);
  _ ← lapic_write LAPIC_REG_DIVIDE_CONFIG DIVIDE_BY_16;
  _ ← lapic_write LAPIC_REG_INITIAL_COUNT count_per_10ms;
  _ ← lapic_write LAPIC_REG_LVT_TIMER (Z.lor LAPIC_TIMER_VECTOR LVT_MODE_PERIODIC);
  emit Sti.

Definition lapic_timer_calibrate_and_start (fuel : nat) (lapic_base : Z) : M unit :=
  count ← lapic_timer_calibrate fuel lapic_base;
  lapic_timer_start lapic_base count.

Definition lapic_timer_bind (target : Z) : M unit :=
  modify (fun s => set_cs (match cs s with Some c => Some (set_timer (timer_ticks c) target c) | None => None end) s).

Definition lapic_timer_get_ticks : M Z :=
  c ← get cs; mret (match c with Some c => timer_ticks c | None => 0 end).

Definition lapic_timer_eoi : M unit := lapic_write LAPIC_REG_EOI 0.
Definition lapic_timer_install_isr (isr : Z) : M unit := irq_install_handler LAPIC_TIMER_VECTOR isr.
Definition lapic_timer_restore_normal_isr : M unit := irq_install_handler LAPIC_TIMER_VECTOR (isr_lapic_timer_addr lay).

Definition timer_core_init (fuel : nat) (base_or_calibration calibration_hint : Z) : M Z :=
  let lapic_base := u32 base_or_calibration in
  if calibration_hint =? 0 then
    count ← lapic_timer_calibrate fuel lapic_base;
    _ ← lapic_timer_start lapic_base count;
    mret count
  else
    let count := u32 calibration_hint in
    _ ← lapic_timer_start lapic_base count;
    mret count.

Definition timer_bind (target : Z) : M unit := lapic_timer_bind target.
Definition timer_get_ticks : M Z := lapic_timer_get_ticks.
Definition timer_eoi : M unit := lapic_timer_eoi.
Definition timer_install_isr (isr : Z) : M unit := lapic_timer_install_isr isr.
Definition timer_restore_normal_isr : M unit := lapic_timer_restore_normal_isr.

(** ** Signals between cores *)

Definition LAPIC_BASE : Z := 0xFEE00000.
Definition LAPIC_REG_ID : Z := 0x020.
Definition LAPIC_REG_ICR_LOW : Z := 0x300.
Definition LAPIC_REG_ICR_HIGH : Z := 0x310.

Definition isr_cross_core_signal : M unit :=
  h ← get g_handler;
  _ ← (if negb (h =? 0) then _ ← emit (Call h); run h else mret tt);
  lapic_write_at LAPIC_BASE LAPIC_REG_EOI 0.

Definition cross_core_signal_install_handler (handler : Z) : M unit :=
  _ ← modify (set_handler handler);
  irq_install_handler CROSS_CORE_SIGNAL_VECTOR (isr_cross_core_signal_addr lay).

Definition cross_core_signal_my_target : M Z :=
  v ← lapic_read_at LAPIC_BASE LAPIC_REG_ID; mret (Z.land (Z.shiftr v 24) 0xFF).

Fixpoint wait_idle (fuel : nat) : M unit :=
  match fuel with
  | O => never
  | S fuel => v ← lapic_read_at LAPIC_BASE LAPIC_REG_ICR_LOW; if Z.testbit v 12 then wait_idle fuel else mret tt
  end.

Definition cross_core_signal_send (fuel : nat) (target : Z) : M unit :=
  _ ← wait_idle fuel;
  _ ← lapic_write_at LAPIC_BASE LAPIC_REG_ICR_HIGH (Z.shiftl (Z.land target 0xFF) 24);
  lapic_write_at LAPIC_BASE LAPIC_REG_ICR_LOW CROSS_CORE_SIGNAL_VECTOR.
End code.
