(* ===== verification/IrqX86Spec.v ===== *)
(** * Interrupts on x86-64: what the code guarantees

    The CPU reads from the IDT exactly the handlers that were installed, with
    their privilege and stack ([x86_idt_refines]), and the task state where
    it is.  From the first [irq_core_init] on, at every moment, a line of the
    interrupt controller that can interrupt the core has its handler in the
    IDT ([x86_lines_vectored]) -- until [irq_core_init] runs again. *)

From stdpp Require Import gmap.
From S2P Require Import Prelude Bits Capnp StateM IrqX86.

#[local] Open Scope Z_scope.

Lemma steps_the_cs R `{!PreOrder R} : steps R the_cs.
Proof. intros s s' a E. unfold the_cs in E. destruct (cs s); [|done]. injection E as <- _. reflexivity. Qed.
#[local] Hint Extern 0 (steps _ the_cs) => apply steps_the_cs; apply _ : steps.

(** ** Storing an entry *)

Definition new_gate (h sel attr i : Z) : gate :=
  {| offset_low := field h 0 16; selector := sel; ist := i; type_attr := attr; offset_mid := field h 16 16;
     offset_high := field h 32 32; reserved := 0 |}.

Definition stores (v : Z) (g : gate) (h sel attr i : Z) : list event :=
  let g1 := with_offset_low (field h 0 16) g in
  let g2 := with_selector sel g1 in
  let g3 := with_ist i g2 in
  let g4 := with_type_attr attr g3 in
  let g5 := with_offset_mid (field h 16 16) g4 in
  let g6 := with_offset_high (field h 32 32) g5 in
  map (Store v) [g1; g2; g3; g4; g5; g6; new_gate h sel attr i].

Definition with_idt (l : list gate) (c : core_state) (es : list event) (s : state) : state :=
  {| cs := Some (set_idt l c); g_irq_targets := g_irq_targets s; g_tick_count := g_tick_count s; g_lapic_base := g_lapic_base s;
     g_handler := g_handler s; log := log s ++ es |}.

Lemma store_gate_run v f c es l g s : l !! Z.to_nat v = Some g ->
  store_gate v f (with_idt l c es s) = Some (with_idt (<[Z.to_nat v := f g]> l) c (es ++ [Store v (f g)]) s, tt).
Proof.
  intros Hg. unfold store_gate, mbind, M_bind, the_cs. cbn [cs with_idt irq_idt set_idt]. rewrite Hg.
  unfold modify, emit, modify, add_log, set_cs, with_idt. cbn. by rewrite <- app_assoc.
Qed.

Lemma set_gate_run v h sel attr i c es l g s : l !! Z.to_nat v = Some g -> 0 <= v < 256 ->
  idt_set_gate_ist v h sel attr i (with_idt l c es s) =
    Some (with_idt (<[Z.to_nat v := new_gate h sel attr i]> l) c (es ++ stores v g h sel attr i) s, tt).
Proof.
  intros Hg Hv. unfold idt_set_gate_ist, CORE_IRQ_IDT_ENTRIES.
  replace ((v <? 0) || (256 <=? v)) with false by (symmetry; apply orb_false_iff; split; [apply Z.ltb_ge|apply Z.leb_gt]; lia).
  pose proof (lookup_lt_Some _ _ _ Hg) as Hlen.
  unfold mbind, M_bind. rewrite (store_gate_run _ _ _ _ _ _ _ Hg).
  do 6 (erewrite store_gate_run by (by apply list_lookup_insert_eq; rewrite ?length_insert)).
  rewrite !list_insert_insert_eq. unfold stores. cbv zeta. cbn [map]. rewrite <- !app_assoc. done.
Qed.

(** A state with its own entries. *)
Lemma with_idt_id c s : cs s = Some c -> with_idt (irq_idt c) c [] s = s.
Proof. intros E. unfold with_idt. rewrite app_nil_r. destruct s, c. cbn in *. by subst. Qed.

(** ** What the CPU reads *)

Record entry := { e_handler : Z; e_dpl : Z; e_ist : Z }.

(** A present interrupt gate of the kernel's code segment. *)
Definition decode (g : gate) : option entry :=
  if Z.testbit (type_attr g) 7 && (field (type_attr g) 0 4 =? 0xE) && (selector g =? KERNEL_CODE_SELECTOR) then
    Some {| e_handler := Z.lor (Z.lor (offset_low g) (Z.shiftl (offset_mid g) 16)) (Z.shiftl (offset_high g) 32);
            e_dpl := field (type_attr g) 5 2; e_ist := field (ist g) 0 3 |}
  else None.

(** The fields have the widths of the entry's. *)
Definition gate_typed (g : gate) : Prop :=
  0 <= offset_low g < 2 ^ 16 /\ 0 <= selector g < 2 ^ 16 /\ 0 <= ist g < 2 ^ 8 /\ 0 <= type_attr g < 2 ^ 8 /\
  0 <= offset_mid g < 2 ^ 16 /\ 0 <= offset_high g < 2 ^ 32 /\ reserved g = 0.

Lemma gate_address h : is_u64 h -> Z.lor (Z.lor (field h 0 16) (Z.shiftl (field h 16 16) 16)) (Z.shiftl (field h 32 32) 32) = h.
Proof.
  intros H. pose proof (field_split h 0 16 16 ltac:(lia) ltac:(lia) ltac:(lia)) as E1.
  pose proof (field_split h 0 32 32 ltac:(lia) ltac:(lia) ltac:(lia)) as E2. rewrite Z.add_0_l in E1, E2.
  rewrite <- E1. change (16 + 16) with 32. rewrite <- E2. apply field_all; [lia|exact H].
Qed.

Lemma decode_new h d i : is_u64 h -> 0 <= i < 8 -> d = 0 \/ d = 3 ->
  decode (new_gate h KERNEL_CODE_SELECTOR (0x8E + 32 * d) i) = Some {| e_handler := h; e_dpl := d; e_ist := i |}.
Proof.
  intros Hh Hi Hd. unfold decode, new_gate. cbn [offset_low selector ist type_attr offset_mid offset_high]. rewrite gate_address by done.
  rewrite (field_all i) by (change (2 ^ 3) with 8; lia). by destruct Hd as [-> | ->].
Qed.

Lemma new_gate_typed h sel attr i : 0 <= sel < 2 ^ 16 -> 0 <= attr < 2 ^ 8 -> 0 <= i < 2 ^ 8 -> gate_typed (new_gate h sel attr i).
Proof. intros. split_and!; cbn; try lia; by apply field_range. Qed.

(** [d] is the table the CPU sees. *)
Definition idt_is (d : gmap Z entry) (s : state) : Prop :=
  exists c, cs s = Some c /\ length (irq_idt c) = 256%nat /\ Forall gate_typed (irq_idt c) /\
    forall v, 0 <= v < 256 -> decode (irq_idt c !!? Z.to_nat v) = d !! v.

Lemma idt_set d s s' v h dpl i u : idt_is d s -> is_u64 h -> 0 <= i < 8 -> dpl = 0 \/ dpl = 3 ->
  idt_set_gate_ist v h KERNEL_CODE_SELECTOR (0x8E + 32 * dpl) i s = Some (s', u) ->
  idt_is (<[v := {| e_handler := h; e_dpl := dpl; e_ist := i |}]> d) s'.
Proof.
  intros (c & Hc & Hl & Ht & Hd) Hh Hi Hp E.
  assert (0 <= v < 256) as Hv.
  { revert E. unfold idt_set_gate_ist, CORE_IRQ_IDT_ENTRIES. destruct ((v <? 0) || (256 <=? v)) eqn:V; [done|]. intros _. bool_simp. lia. }
  destruct (lookup_lt_is_Some_2 (irq_idt c) (Z.to_nat v)) as [g Hg]; [lia|].
  rewrite <- (with_idt_id c s Hc), (set_gate_run _ _ _ _ _ _ _ _ g) in E by done. injection E as <- _.
  eexists. split; [reflexivity|]. cbn [irq_idt set_idt]. rewrite length_insert. split; [done|]. split.
  - apply Forall_insert; [done|]. apply new_gate_typed; unfold KERNEL_CODE_SELECTOR; destruct Hp as [-> | ->]; lia.
  - intros w Hw. destruct (decide (w = v)) as [->|N].
    + rewrite nth_insert_eq, lookup_insert_eq by lia. by apply decode_new.
    + rewrite nth_insert_ne, lookup_insert_ne by lia. by apply Hd.
Qed.

(** Clearing a run of entries. *)
Lemma clear_run n i c es l s : length l = 256%nat -> 0 <= i -> i + Z.of_nat n <= 256 ->
  exists l' es', clear_gates n i (with_idt l c es s) = Some (with_idt l' c es' s, tt) /\ length l' = 256%nat /\
    (forall j, (j < Z.to_nat i)%nat -> l' !! j = l !! j) /\
    (forall j, (Z.to_nat i <= j < Z.to_nat i + n)%nat -> l' !! j = Some (new_gate 0 0 0 0)).
Proof.
  induction n as [|n IH] in i, l, es |- *; intros Hl Hi Hn; cbn [clear_gates].
  { exists l, es. split; [done|]. split; [done|]. split; [done|lia]. }
  destruct (lookup_lt_is_Some_2 l (Z.to_nat i)) as [g Hg]; [lia|].
  unfold mbind, M_bind, idt_set_gate. rewrite (set_gate_run i 0 0 0 0 _ _ _ g) by (done || lia).
  destruct (IH (i + 1) (es ++ stores i g 0 0 0 0) (<[Z.to_nat i := new_gate 0 0 0 0]> l)) as (l' & es' & E & Hl' & Hlo & Hhi);
    [by rewrite length_insert|lia|lia|].
  exists l', es'. split; [done|]. split; [done|]. split.
  - intros j Hj. rewrite Hlo by lia. apply list_lookup_insert_ne. lia.
  - intros j Hj. destruct (decide (j = Z.to_nat i)) as [->|N]; [|apply Hhi; lia].
    rewrite Hlo by lia. apply list_lookup_insert_eq. lia.
Qed.

Definition idt_same (s s' : state) : Prop := irq_idt <$> cs s' = irq_idt <$> cs s.

#[global] Instance idt_same_preorder : PreOrder idt_same.
Proof. split; [done|]. intros s1 s2 s3. unfold idt_same. congruence. Qed.

Lemma idt_is_same d s s' : idt_same s s' -> idt_is d s -> idt_is d s'.
Proof.
  intros E (c & Hc & H). unfold idt_same in E. rewrite Hc in E. destruct (cs s') as [c'|] eqn:E'; [|done].
  exists c'. split; [done|]. injection E as ->. done.
Qed.

Lemma idt_same_emit e : steps idt_same (emit e).
Proof. by intros s s' a [= <- _]. Qed.

Lemma idt_cleared s s' u : (exists c, cs s = Some c /\ length (irq_idt c) = 256%nat) ->
  clear_gates (Z.to_nat CORE_IRQ_IDT_ENTRIES) 0 s = Some (s', u) -> idt_is ∅ s'.
Proof.
  intros (c & Hc & Hl) E. destruct (clear_run (Z.to_nat CORE_IRQ_IDT_ENTRIES) 0 c [] (irq_idt c) s Hl) as (l & es & E' & Hl' & _ & Hz);
    [lia|unfold CORE_IRQ_IDT_ENTRIES; lia|].
  rewrite (with_idt_id c s Hc) in E'. rewrite E' in E. injection E as <- _.
  assert (l = replicate 256 (new_gate 0 0 0 0)) as ->.
  { symmetry. apply replicate_as_elem_of. split; [done|]. intros g [j Hj]%list_elem_of_lookup. apply lookup_lt_Some in Hj as Hlt.
    rewrite Hz in Hj; [congruence|]. unfold CORE_IRQ_IDT_ENTRIES. lia. }
  eexists. split; [reflexivity|]. cbn [irq_idt set_idt]. split; [done|]. split.
  - apply Forall_replicate. by apply new_gate_typed.
  - intros v Hv. rewrite lookup_empty. replace (replicate 256 (new_gate 0 0 0 0) !!? Z.to_nat v) with (new_gate 0 0 0 0); [done|].
    symmetry. apply nth_lookup_Some_inh, lookup_replicate_2. lia.
Qed.

(** ** Events that leave the lines alone *)

(** Not a command or a mask for the master controller, and not one of its
    lines' entries. *)
Definition calm (e : event) : bool :=
  match e with
  | Outb p v => negb (p =? 0x21) && negb ((p =? 0x20) && Z.testbit v 4)
  | Store v _ => negb ((v =? 0x20) || (v =? 0x21))
  | _ => true
  end.

Definition ext (P : event -> bool) (s s' : state) : Prop := exists l, log s' = log s ++ l /\ forallb P l = true.

#[global] Instance ext_preorder P : PreOrder (ext P).
Proof.
  split.
  - intros s. exists []. by rewrite app_nil_r.
  - intros s1 s2 s3 (l1 & L1 & F1) (l2 & L2 & F2). exists (l1 ++ l2). split; [by rewrite L2, L1, app_assoc|].
    by rewrite forallb_app, F1, F2.
Qed.

Lemma x86_steps_emit P e : P e = true -> steps (ext P) (emit e).
Proof. intros H s s' a [= <- _]. exists [e]. split; [done|]. cbn. by rewrite H. Qed.

Lemma x86_steps_local P f : (forall s, log (f s) = log s) -> steps (ext P) (modify f).
Proof. intros H s s' a [= <- _]. exists []. by rewrite H, app_nil_r. Qed.

(** What the handlers and the kernel's [invoke] may do. *)
Definition benign (s s' : state) : Prop := idt_same s s' /\ ext calm s s'.

#[global] Instance benign_preorder : PreOrder benign.
Proof.
  split; [intros s; split; reflexivity|]. intros s1 s2 s3 [A1 B1] [A2 B2]. split; [by transitivity s2|by transitivity s2].
Qed.

Class Handlers (run : Z -> M unit) (kernel_invoke : Z -> Z -> list Z -> M unit) : Prop := {
  run_benign h : steps benign (run h);
  invoke_benign t m msg : steps benign (kernel_invoke t m msg)
}.

Lemma x86_benign_emit e : calm e = true -> steps benign (emit e).
Proof. intros H s s' a E. split; [by apply (idt_same_emit e s s' a)|by apply (x86_steps_emit calm e H s s' a)]. Qed.

Lemma benign_local f : (forall s, log (f s) = log s) -> (forall s, irq_idt <$> cs (f s) = irq_idt <$> cs s) -> steps benign (modify f).
Proof. intros H1 H2 s s' a E. split; [injection E as <- _; apply H2|by apply (x86_steps_local calm f H1 s s' a)]. Qed.

Section idt.
Context (lay : layout).

(** The addresses of functions and of the core's fields. *)
Definition layout_ok : Prop :=
  Forall is_u64 [idt_addr lay; ist_stack_addr lay; tss_addr lay; gdt_addr lay; isr_irq0_addr lay; isr_irq1_addr lay;
    isr_double_fault_addr lay; isr_general_protection_addr lay; isr_lapic_timer_addr lay; isr_cross_core_signal_addr lay].
Context (Hlay : layout_ok).

Definition kernel_gate (h : Z) : entry := {| e_handler := h; e_dpl := 0; e_ist := 0 |}.
Definition user_gate (h : Z) : entry := {| e_handler := h; e_dpl := 3; e_ist := 0 |}.
Definition fault_gate (h : Z) : entry := {| e_handler := h; e_dpl := 0; e_ist := 1 |}.

Definition add_faults (d : gmap Z entry) : gmap Z entry :=
  <[13 := fault_gate (isr_general_protection_addr lay)]> (<[8 := fault_gate (isr_double_fault_addr lay)]> d).

Definition boot_idt : gmap Z entry :=
  add_faults (<[0x21 := kernel_gate (isr_irq1_addr lay)]> (<[0x20 := kernel_gate (isr_irq0_addr lay)]> ∅)).

Lemma idt_install d s s' v h u : idt_is d s -> is_u64 h -> irq_install_handler v h s = Some (s', u) -> idt_is (<[v := kernel_gate h]> d) s'.
Proof. intros. by apply (idt_set d s s' v h 0 0 u); [done..|lia|left|]. Qed.

Lemma idt_faults d s s' u : idt_is d s -> setup_tss_and_ist lay s = Some (s', u) -> idt_is (add_faults d) s'.
Proof.
  unfold setup_tss_and_ist. intros Hd E. pose proof Hd as (c & Hc & _). unfold mbind at 1, M_bind at 1 in E.
  unfold the_cs in E. rewrite Hc in E. cbv zeta in E. unfold mbind at 1, M_bind at 1 in E. cbn [modify] in E.
  set (s1 := set_cs _ s) in E.
  assert (idt_is d s1) as Hd1. { revert Hd. apply idt_is_same. unfold idt_same, s1. cbn [cs set_cs]. by rewrite Hc. }
  unfold mbind in E. do 3 (unfold M_bind at 1 in E; cbn [emit modify] in E). unfold M_bind in E.
  set (s2 := add_log (Ltr 24) _) in E. assert (idt_is d s2) as Hd2 by (revert Hd1; by apply idt_is_same).
  destruct (idt_set_gate_ist 8 _ _ _ _ s2) as [[s3 []]|] eqn:E3; [|done].
  pose proof Hlay as HL. unfold layout_ok in HL. rewrite !Forall_cons in HL.
  apply (idt_set d s2 s3 8 _ 0 1) in E3; [|done|apply HL|lia|by left].
  eapply (idt_set _ s3 s' 13 _ 0 1) in E; [exact E|exact E3|apply HL|lia|by left].
Qed.

Lemma idt_tables s s' u : (exists c, cs s = Some c /\ length (irq_idt c) = 256%nat) -> irq_tables_init lay s = Some (s', u) -> idt_is boot_idt s'.
Proof.
  intros Hs E. unfold irq_tables_init in E. unfold mbind at 1, M_bind at 1 in E. cbn [modify] in E. set (s1 := set_targets _ s) in E.
  unfold mbind at 1, M_bind at 1 in E. destruct (clear_gates _ 0 s1) as [[s2 []]|] eqn:E2; [|done].
  apply idt_cleared in E2; [|exact Hs].
  pose proof Hlay as HL. unfold layout_ok in HL. rewrite !Forall_cons in HL.
  unfold mbind at 1, M_bind at 1 in E. destruct (idt_set_gate 0x20 _ _ _ s2) as [[s3 []]|] eqn:E3; [|done].
  eapply (idt_install _ s2 s3) in E3; [|exact E2|apply HL].
  unfold mbind at 1, M_bind at 1 in E. destruct (idt_set_gate 0x21 _ _ _ s3) as [[s4 []]|] eqn:E4; [|done].
  eapply (idt_install _ s3 s4) in E4; [|exact E3|apply HL].
  unfold mbind at 1, M_bind at 1 in E. destruct (load_idt _ _ s4) as [[s5 []]|] eqn:E5; [|done].
  apply (idt_is_same _ _ _ (idt_same_emit _ _ _ _ E5)) in E4.
  by eapply (idt_faults _ s5 s') in E; [|exact E4].
Qed.

Lemma idt_boot s s' u : (exists c, cs s = Some c /\ length (irq_idt c) = 256%nat) -> irq_core_init lay s = Some (s', u) -> idt_is boot_idt s'.
Proof.
  intros Hs E. unfold irq_core_init in E. unfold mbind at 1, M_bind at 1 in E. destruct (irq_tables_init lay s) as [[s6 []]|] eqn:E6; [|done].
  apply (idt_tables _ _ _ Hs) in E6.
  revert E6. apply idt_is_same. revert E. unfold pic_remap, pit_init, outb. refine ((_ : steps idt_same _) s6 s' u).
  steps_auto; apply idt_same_emit.
Qed.

(** ** Runs *)

Inductive op :=
| CoreInit
| IdtOnly
| Install (vector handler : Z)
| Bind (msg : list Z)
| MaskIrq0
| Wrapper (invoke_handler exit_handler ring0_stack_top : Z)
| TimerInit (fuel : nat) (base hint : Z)
| TimerBind (target : Z)
| TimerIsr (isr : Z)
| TimerRestore
| SignalHandler (handler : Z)
| SignalSend (fuel : nat) (target : Z)
| Irq0
| Irq1
| LapicTick
| SignalTick.

Context (dev : devices) (run : Z -> M unit) (kernel_invoke : Z -> Z -> list Z -> M unit) `{!Handlers run kernel_invoke}.

Definition exec (o : op) : M unit :=
  match o with
  | CoreInit => irq_core_init lay
  | IdtOnly => irq_setup_idt_only lay
  | Install v h => irq_install_handler v h
  | Bind msg => irq_manager_handler msg
  | MaskIrq0 => irq_mask_irq0 dev
  | Wrapper i e t => _ ← irq_x86_64_install_wrapper i e t; mret tt
  | TimerInit fuel b h => _ ← timer_core_init dev lay kernel_invoke fuel b h; mret tt
  | TimerBind t => timer_bind t
  | TimerIsr isr => timer_install_isr isr
  | TimerRestore => timer_restore_normal_isr lay
  | SignalHandler h => cross_core_signal_install_handler lay h
  | SignalSend fuel t => cross_core_signal_send dev fuel t
  | Irq0 => isr_irq0 kernel_invoke
  | Irq1 => isr_irq1 dev kernel_invoke
  | LapicTick => isr_lapic_timer kernel_invoke
  | SignalTick => isr_cross_core_signal run
  end.

Fixpoint run_ops (ops : list op) (s : state) : option state :=
  match ops with
  | [] => Some s
  | o :: ops => match exec o s with Some (s, _) => run_ops ops s | None => None end
  end.

Lemma run_ops_boot ops s :
  run_ops (CoreInit :: ops) s = match irq_core_init lay s with Some (s, _) => run_ops ops s | None => None end.
Proof. reflexivity. Qed.

Lemma x86_benign_invoke_word t w : steps benign (invoke_word kernel_invoke t w).
Proof. unfold invoke_word. steps_auto; [by apply x86_benign_emit|apply invoke_benign]. Qed.

Lemma benign_lapic_write r v : steps benign (lapic_write r v).
Proof. unfold lapic_write, lapic_write_at. steps_auto. by apply x86_benign_emit. Qed.

Lemma benign_irq0 : steps benign (isr_irq0 kernel_invoke).
Proof.
  unfold isr_irq0, dispatch_irq, outb. steps_auto; [by apply benign_local|apply x86_benign_invoke_word|by apply x86_benign_emit].
Qed.

Lemma benign_irq1 : steps benign (isr_irq1 dev kernel_invoke).
Proof.
  unfold isr_irq1, dispatch_irq, outb, inb. steps_auto; [by apply x86_benign_emit|apply x86_benign_invoke_word|by apply x86_benign_emit].
Qed.

(** The core's own fields, other than the IDT. *)
Lemma benign_fields c c' s : cs s = Some c -> irq_idt c' = irq_idt c -> benign s (set_cs (Some c') s).
Proof.
  intros Hc E. split; [unfold idt_same; cbn [cs set_cs]; rewrite Hc; cbn; by rewrite E|]. exists []. by rewrite app_nil_r.
Qed.

Lemma benign_tick : steps benign (lapic_tick kernel_invoke).
Proof.
  intros s s' a E. unfold lapic_tick in E. unfold mbind at 1, M_bind at 1, get at 1 in E.
  destruct (cs s) as [c|] eqn:Hc; [|injection E as <- _; reflexivity].
  cbv zeta in E. unfold mbind, M_bind in E. cbn [modify] in E.
  etransitivity; [apply (benign_fields c (set_timer (timer_ticks c +64 1) (timer_target c) c)); done|].
  revert E. generalize (set_cs (Some (set_timer (timer_ticks c +64 1) (timer_target c) c)) s). intros s1.
  destruct (timer_target c =? 0); [intros [= <- _]; reflexivity|]. intros E. exact (x86_benign_invoke_word _ _ _ _ _ E).
Qed.

Lemma benign_lapic_tick : steps benign (isr_lapic_timer kernel_invoke).
Proof. unfold isr_lapic_timer. steps_auto; [apply benign_tick|apply benign_lapic_write]. Qed.

Lemma benign_poll : steps benign (poll_tick_count dev kernel_invoke).
Proof.
  unfold poll_tick_count, irq_get_tick_count. steps_auto; [|by apply x86_benign_emit].
  generalize a. intros n. induction n; cbn [irq0_times]; steps_auto. apply benign_irq0.
Qed.

Lemma benign_wait fuel stop : steps benign (wait_until dev kernel_invoke fuel stop).
Proof. induction fuel; cbn [wait_until]; steps_auto. apply benign_poll. Qed.

Lemma benign_send fuel t : steps benign (cross_core_signal_send dev fuel t).
Proof.
  unfold cross_core_signal_send, lapic_write_at. steps_auto; [|by apply x86_benign_emit..].
  induction fuel; cbn [wait_idle]; unfold lapic_read_at; steps_auto. by apply x86_benign_emit.
Qed.

Lemma benign_calibrate fuel b : steps benign (calibrate_count dev kernel_invoke fuel b).
Proof.
  unfold calibrate_count, lapic_read, lapic_read_at. steps_auto;
    lazymatch goal with
    | |- steps _ (modify _) => by apply benign_local
    | |- steps _ (emit _) => by apply x86_benign_emit
    | |- steps _ (lapic_write _ _) => apply benign_lapic_write
    | |- steps _ (poll_tick_count _ _) => apply benign_poll
    | |- steps _ (wait_until _ _ _ _) => apply benign_wait
    end.
Qed.

(** *** The table of handlers *)

Definition wrapper_refused (i e t : Z) : bool := (i =? 0) || (e =? 0) || (t =? 0) || negb (Z.land t 0xf =? 0).

(** What each operation means for the table. *)
Definition abstract (d : gmap Z entry) (o : op) : gmap Z entry :=
  match o with
  | CoreInit => boot_idt
  | IdtOnly => add_faults ∅
  | Install v h => <[v := kernel_gate h]> d
  | Wrapper i e t => if wrapper_refused i e t then d else <[3 := user_gate e]> (<[0x80 := user_gate i]> d)
  | TimerInit _ _ _ | TimerRestore => <[LAPIC_TIMER_VECTOR := kernel_gate (isr_lapic_timer_addr lay)]> d
  | TimerIsr isr => <[LAPIC_TIMER_VECTOR := kernel_gate isr]> d
  | SignalHandler _ => <[CROSS_CORE_SIGNAL_VECTOR := kernel_gate (isr_cross_core_signal_addr lay)]> d
  | _ => d
  end.

(** Handlers are addresses. *)
Definition op_ok (o : op) : Prop :=
  match o with
  | Install _ h | TimerIsr h => is_u64 h
  | Wrapper i e _ => is_u64 i /\ is_u64 e
  | _ => True
  end.

Lemma idt_benign {A} d (m : M A) s s' a : steps benign m -> m s = Some (s', a) -> idt_is d s -> idt_is d s'.
Proof. intros Hm E. apply idt_is_same. by apply (Hm s s' a E). Qed.

Lemma idt_start b n d s s' u : idt_is d s -> lapic_timer_start lay b n s = Some (s', u) ->
  idt_is (<[LAPIC_TIMER_VECTOR := kernel_gate (isr_lapic_timer_addr lay)]> d) s'.
Proof.
  intros Hd E. pose proof Hlay as HL. unfold layout_ok in HL. rewrite !Forall_cons in HL.
  unfold lapic_timer_start in E. unfold mbind at 1, M_bind at 1 in E. cbn [modify] in E.
  unfold mbind at 1, M_bind at 1 in E. cbn [modify] in E. set (s1 := set_cs _ _) in E.
  assert (idt_is d s1) as Hd1 by (revert Hd; apply idt_is_same; unfold idt_same, s1; cbn; by destruct (cs s)).
  unfold mbind at 1, M_bind at 1 in E. destruct (irq_install_handler _ _ s1) as [[s2 []]|] eqn:E2; [|done].
  eapply (idt_install _ s1 s2) in E2; [|exact Hd1|apply HL]. revert E2.
  refine (idt_benign _ _ _ _ _ _ E). steps_auto; [apply benign_lapic_write..|by apply x86_benign_emit].
Qed.

Lemma same_mask : steps idt_same (irq_mask_irq0 dev).
Proof. unfold irq_mask_irq0, outb, inb. steps_auto; apply idt_same_emit. Qed.

Lemma idt_timer_init fuel b h d s s' n : idt_is d s -> timer_core_init dev lay kernel_invoke fuel b h s = Some (s', n) ->
  idt_is (<[LAPIC_TIMER_VECTOR := kernel_gate (isr_lapic_timer_addr lay)]> d) s'.
Proof.
  intros Hd E. unfold timer_core_init in E. cbv zeta in E. destruct (h =? 0).
  - unfold lapic_timer_calibrate in E. unfold mbind in E. do 2 unfold M_bind at 1 in E.
    destruct (calibrate_count dev kernel_invoke fuel (u32 b) s) as [[s1 k]|] eqn:E1; [|done].
    apply (idt_benign d _ _ _ _ (benign_calibrate _ _) E1) in Hd. unfold M_bind at 1 in E.
    destruct (irq_mask_irq0 dev s1) as [[s2 []]|] eqn:E2; [|done].
    apply (idt_is_same d _ _ (same_mask _ _ _ E2)) in Hd. cbn [mret M_ret] in E. unfold M_bind at 1 in E.
    destruct (lapic_timer_start lay (u32 b) k s2) as [[s3 []]|] eqn:E3; [|done]. injection E as <- _.
    by apply (idt_start _ _ _ _ _ _ Hd E3).
  - unfold mbind, M_bind in E. destruct (lapic_timer_start lay (u32 b) (u32 h) s) as [[s3 []]|] eqn:E3; [|done]. injection E as <- _.
    by apply (idt_start _ _ _ _ _ _ Hd E3).
Qed.

Lemma idt_wrapper i e t d s s' b : is_u64 i -> is_u64 e -> idt_is d s -> irq_x86_64_install_wrapper i e t s = Some (s', b) ->
  idt_is (abstract d (Wrapper i e t)) s' /\ b = negb (wrapper_refused i e t) /\
  (b = true -> exists c, cs s' = Some c /\ rsp0 (irq_tss c) = t).
Proof.
  intros Hi He Hd E. unfold irq_x86_64_install_wrapper in E. cbn [abstract]. unfold wrapper_refused.
  destruct (_ || _) eqn:R; [injection E as <- <-; done|].
  pose proof Hd as (c & Hc & Hl & _). unfold mbind at 1, M_bind at 1, the_cs in E. rewrite Hc in E.
  unfold mbind at 1, M_bind at 1 in E. cbn [modify] in E. set (c1 := set_tss _ c) in E. set (s1 := set_cs _ s) in E.
  assert (idt_is d s1) as Hd1 by (revert Hd; apply idt_is_same; unfold idt_same, s1; cbn [cs set_cs]; by rewrite Hc).
  destruct (lookup_lt_is_Some_2 (irq_idt c) (Z.to_nat 0x80)) as [g Hg]; [lia|].
  destruct (lookup_lt_is_Some_2 (irq_idt c) (Z.to_nat 3)) as [g' Hg']; [lia|].
  assert (with_idt (irq_idt c1) c1 [] s1 = s1) as Ew by (by apply with_idt_id).
  unfold mbind in E. do 3 unfold M_bind at 1 in E. unfold idt_set_gate in E.
  assert (Hs := set_gate_run 0x80 i KERNEL_CODE_SELECTOR 0xEE 0 c1 [] (irq_idt c1) g s1 Hg ltac:(lia)). rewrite Ew in Hs.
  rewrite Hs in E. apply (idt_set d s1 _ 0x80 i 3 0) in Hs; [|done|done|lia|by right].
  assert (Hs' := set_gate_run 3 e KERNEL_CODE_SELECTOR 0xEE 0 c1 (stores 0x80 g i KERNEL_CODE_SELECTOR 0xEE 0)
    (<[Z.to_nat 0x80 := new_gate i KERNEL_CODE_SELECTOR 0xEE 0]> (irq_idt c1)) g' s1
    ltac:(rewrite list_lookup_insert_ne by lia; exact Hg') ltac:(lia)).
  cbn [app] in E. rewrite Hs' in E. eapply (idt_set _ _ _ 3 e 3 0) in Hs'; [|exact Hs|done|lia|by right].
  injection E as <- <-. split; [exact Hs'|]. split; [done|]. intros _. by eexists.
Qed.

Lemma idt_exec d o s s' u : op_ok o -> idt_is d s -> exec o s = Some (s', u) -> idt_is (abstract d o) s'.
Proof.
  intros Ho Hd E. pose proof Hlay as HL. unfold layout_ok in HL. rewrite !Forall_cons in HL.
  assert (exists c, cs s = Some c /\ length (irq_idt c) = 256%nat) as Hc by (destruct Hd as (c & ? & ? & _); by exists c).
  destruct o as [| |v h|msg| |i e t|fuel b h|t|isr| |h|fuel t| | | |]; cbn [exec op_ok abstract] in *.
  - by apply (idt_boot s s' u).
  - unfold irq_setup_idt_only in E. unfold mbind at 1, M_bind at 1 in E. destruct (clear_gates _ 0 s) as [[s1 []]|] eqn:E1; [|done].
    apply (idt_cleared _ _ _ Hc) in E1. unfold mbind, M_bind in E. cbn [load_idt emit modify] in E.
    refine (idt_faults _ _ _ _ _ E). revert E1. by apply idt_is_same.
  - by apply (idt_install d s s' v h u).
  - revert Hd. refine (idt_benign _ _ _ _ _ _ E). unfold irq_manager_handler. steps_auto. by apply benign_local.
  - revert Hd. apply idt_is_same, (same_mask _ _ _ E).
  - unfold mbind, M_bind in E. destruct (irq_x86_64_install_wrapper i e t s) as [[s1 b]|] eqn:E1; [|done]. injection E as <- _.
    by apply (idt_wrapper i e t d s s1 b); [apply Ho..| |].
  - unfold mbind, M_bind in E. destruct (timer_core_init dev lay kernel_invoke fuel b h s) as [[s1 n]|] eqn:E1; [|done]. injection E as <- _.
    by apply (idt_timer_init fuel b h d s s1 n).
  - revert Hd. apply idt_is_same. injection E as <- _. unfold idt_same. cbn. by destruct (cs s).
  - by apply (idt_install d s s' _ _ u).
  - apply (idt_install d s s' _ _ u); [done|apply HL|done].
  - unfold cross_core_signal_install_handler, mbind, M_bind in E. cbn [modify] in E. eapply idt_install; [|apply HL|exact E].
    revert Hd. by apply idt_is_same.
  - by apply (idt_benign _ _ _ _ _ (benign_send fuel t) E).
  - by apply (idt_benign _ _ _ _ _ benign_irq0 E).
  - by apply (idt_benign _ _ _ _ _ benign_irq1 E).
  - by apply (idt_benign _ _ _ _ _ benign_lapic_tick E).
  - revert Hd. refine (idt_benign _ _ _ _ _ _ E). unfold isr_cross_core_signal, lapic_write_at.
    steps_auto; [by apply x86_benign_emit|apply run_benign|by apply x86_benign_emit].
Qed.

Lemma idt_runs ops d s s' : Forall op_ok ops -> idt_is d s -> run_ops ops s = Some s' -> idt_is (fold_left abstract ops d) s'.
Proof.
  induction ops as [|o ops IH] in d, s |- *; intros Hf Hd E; cbn [run_ops fold_left] in *; [by injection E as <-|].
  apply Forall_cons in Hf as [Ho Hf]. destruct (exec o s) as [[s1 u]|] eqn:E1; [|done]. apply (IH _ s1); [done| |done].
  by apply (idt_exec d o s s1 u).
Qed.
End idt.

(** Only the breakpoint's and the system call's entries can be entered from
    user code. *)
Definition user_entries (d : gmap Z entry) : Prop := forall v e, d !! v = Some e -> e_dpl e <> 0 -> v = 3 \/ v = 0x80.

Lemma user_kernel_gate d v h : user_entries d -> user_entries (<[v := kernel_gate h]> d).
Proof. intros H w e. intros [[_ <-]|[_ X]]%lookup_insert_Some; [done|by apply H]. Qed.
Lemma user_fault_gate d v h : user_entries d -> user_entries (<[v := fault_gate h]> d).
Proof. intros H w e. intros [[_ <-]|[_ X]]%lookup_insert_Some; [done|by apply H]. Qed.
Lemma user_empty : user_entries ∅.
Proof. intros v e. by rewrite lookup_empty. Qed.

Lemma user_abstract lay d o : user_entries d -> user_entries (abstract lay d o).
Proof.
  intros Hd. destruct o as [| |v h|msg| |i e t|fuel b h|t|isr| |h|fuel t| | | |]; cbn [abstract]; try done; try (by apply user_kernel_gate).
  - by repeat first [apply user_fault_gate|apply user_kernel_gate|apply user_empty].
  - by repeat first [apply user_fault_gate|apply user_empty].
  - destruct (wrapper_refused i e t); [done|]. intros v e'. intros [[<- _]|[_ X]]%lookup_insert_Some; [by left|].
    revert X. intros [[<- _]|[_ X]]%lookup_insert_Some; [by right|]. by apply (Hd v e').
Qed.

(** C27: for every sequence of operations of a core, from any table the CPU
    reads as [d] (in particular one that starts with [irq_core_init]), the
    CPU then reads exactly the table that the operations mean: each vector's
    last handler, its whole address from the three parts of the entry, its
    privilege and its stack; every field keeps the entry's widths.  And only
    the breakpoint's and the system call's entries can be entered from user
    code, if that was so before. *)
Theorem x86_idt_refines lay dev run kernel_invoke `{!Handlers run kernel_invoke} ops d s s' :
  layout_ok lay -> Forall op_ok ops -> idt_is d s -> run_ops lay dev run kernel_invoke ops s = Some s' ->
  idt_is (fold_left (abstract lay) ops d) s' /\
  (user_entries d -> user_entries (fold_left (abstract lay) ops d)).
Proof.
  intros Hlay Hf Hd E. split; [by apply (idt_runs lay Hlay dev run kernel_invoke ops d s)|].
  clear Hf Hd E. induction ops as [|o ops IH] in d |- *; [done|]. cbn [fold_left]. intros Hd. by apply IH, user_abstract.
Qed.

(** ** The task state *)

(** What the CPU reads from a descriptor of two words. *)
Definition desc_base (low high : Z) : Z := Z.lor (Z.lor (field low 16 24) (Z.shiftl (field low 56 8) 24)) (Z.shiftl (field high 0 32) 32).
Definition desc_limit (low : Z) : Z := Z.lor (field low 0 16) (Z.shiftl (field low 48 4) 16).
Definition desc_access (low : Z) : Z := field low 40 8.
Definition desc_dpl (low : Z) : Z := field low 45 2.

Lemma tss_desc_fields b l : is_u64 b -> 0 <= l < 2 ^ 20 ->
  desc_base (tss_desc_low b l) (tss_desc_high b) = b /\ desc_limit (tss_desc_low b l) = l /\ desc_access (tss_desc_low b l) = 0x89.
Proof.
  intros Hb Hl. unfold desc_base, desc_limit, desc_access, tss_desc_low, tss_desc_high.
  change (Z.land (Z.shiftr b 32) 0xFFFFFFFF) with (field b 32 32). change (Z.land (Z.shiftr b 24) 0xFF) with (field b 24 8).
  change (Z.land (Z.shiftr l 16) 0xF) with (field l 16 4).
  replace (Z.land b 0xFFFFFF) with (field b 0 24) by (unfold field; by rewrite Z.shiftr_0_r).
  replace (Z.land l 0xFFFF) with (Z.shiftl (field l 0 16) 0) by (rewrite Z.shiftl_0_r; unfold field; by rewrite Z.shiftr_0_r).
  pose proof (field_range b 0 24 ltac:(lia)). pose proof (field_range b 24 8 ltac:(lia)).
  pose proof (field_range l 0 16 ltac:(lia)). pose proof (field_range l 16 4 ltac:(lia)).
  rewrite !field_lor.
  repeat first [rewrite (field_hit (field b 0 24)) by lia|rewrite (field_hit (field b 24 8)) by lia|rewrite (field_hit (field l 0 16)) by lia
    |rewrite (field_hit (field l 16 4)) by lia|rewrite (field_hit 0x89) by lia
    |rewrite (field_below (field l 0 16) 0 16) by lia|rewrite (field_below (field b 0 24) 16 24) by lia
    |rewrite (field_below 0x89 40 8) by lia|rewrite (field_below (field l 16 4) 48 4) by lia
    |rewrite (field_above (field b 0 24)) by lia|rewrite (field_above 0x89) by lia
    |rewrite (field_above (field l 16 4)) by lia|rewrite (field_above (field b 24 8)) by lia].
  rewrite ?Z.lor_0_l, ?Z.lor_0_r. rewrite (field_all (field b 32 32)) by (apply field_range || lia; lia).
  pose proof (field_split b 0 24 8 ltac:(lia) ltac:(lia) ltac:(lia)) as E1. pose proof (field_split b 0 32 32 ltac:(lia) ltac:(lia) ltac:(lia)) as E2.
  pose proof (field_split l 0 16 4 ltac:(lia) ltac:(lia) ltac:(lia)) as E3. rewrite Z.add_0_l in E1, E2, E3.
  rewrite <- E1. change (24 + 8) with 32. rewrite <- E2, <- E3. split_and!; [by apply field_all|by apply field_all|done].
Qed.

(** C29: after the task state is set up, the CPU finds it: its descriptor's
    parts give the address and the size of the core's own [irq_tss], an
    available 64-bit task state of the kernel's; the stack for the two faults
    is aligned and lies in the core's buffer; kernel descriptors have
    privilege 0, and the two user ones 3. *)
Theorem x86_task_state_found lay s s' d u :
  layout_ok lay -> ist_stack_addr lay + CORE_FAULT_IST_STACK_SIZE < W64 -> idt_is d s -> setup_tss_and_ist lay s = Some (s', u) ->
  exists c, cs s' = Some c /\ irq_tss c = set_ist1_iopb (ist1 (irq_tss c)) TSS_SIZE tss_zero /\
    ist1 (irq_tss c) mod 16 = 0 /\ ist_stack_addr lay < ist1 (irq_tss c) <= ist_stack_addr lay + CORE_FAULT_IST_STACK_SIZE /\
    exists null code data low high udata ucode, irq_gdt_with_tss c = [null; code; data; low; high; udata; ucode] /\
      desc_base low high = tss_addr lay /\ desc_limit low = TSS_SIZE - 1 /\ desc_access low = 0x89 /\
      desc_dpl code = 0 /\ desc_dpl data = 0 /\ desc_dpl udata = 3 /\ desc_dpl ucode = 3.
Proof.
  intros HL Hst Hd E. unfold layout_ok in HL. rewrite !Forall_cons in HL.
  pose proof Hd as (c & Hc & Hl & _). unfold setup_tss_and_ist in E. unfold mbind at 1, M_bind at 1, the_cs in E. rewrite Hc in E.
  cbv zeta in E. unfold mbind at 1, M_bind at 1 in E. cbn [modify] in E. set (c1 := set_fault_tables _ _ _ c) in E.
  unfold mbind in E. do 3 (unfold M_bind at 1 in E; cbn [emit modify] in E). unfold M_bind in E. set (s2 := add_log (Ltr 24) _) in E.
  destruct (lookup_lt_is_Some_2 (irq_idt c) (Z.to_nat 8)) as [g Hg]; [lia|].
  destruct (lookup_lt_is_Some_2 (irq_idt c) (Z.to_nat 13)) as [g' Hg']; [lia|].
  rewrite <- (with_idt_id c1 s2 eq_refl), (set_gate_run 8 _ _ _ _ _ _ _ g) in E by (done || lia).
  rewrite (set_gate_run 13 _ _ _ _ _ _ _ g') in E by (lia || (rewrite list_lookup_insert_ne by lia; done)).
  injection E as <- _. eexists. split; [reflexivity|]. cbn [irq_tss irq_gdt_with_tss set_idt c1 set_fault_tables ist1 set_ist1_iopb].
  split; [done|].
  assert (0 <= ist_stack_addr lay) as H0 by apply HL.
  assert (u64 (ist_stack_addr lay + CORE_FAULT_IST_STACK_SIZE) = ist_stack_addr lay + CORE_FAULT_IST_STACK_SIZE) as ->
    by (apply u64_small; unfold is_u64, CORE_FAULT_IST_STACK_SIZE in *; lia).
  change (u64 (Z.lnot 15)) with (Z.shiftl (Z.ones 60) 4). rewrite align_down by (unfold W64, CORE_FAULT_IST_STACK_SIZE in *; lia).
  change (2 ^ 4) with 16. set (x := ist_stack_addr lay + CORE_FAULT_IST_STACK_SIZE) in *.
  pose proof (Z.div_mod x 16 ltac:(lia)). pose proof (Z.mod_pos_bound x 16 ltac:(lia)).
  split; [rewrite Z.mul_comm; by apply Z.mod_mul|]. split; [unfold CORE_FAULT_IST_STACK_SIZE in x; lia|].
  do 7 eexists. split; [reflexivity|].
  destruct (tss_desc_fields (tss_addr lay) (TSS_SIZE - 1)) as (-> & -> & ->); [apply HL|done|]. by repeat split.
Qed.

(** ** The interrupt controller *)

(** The master 8259, the core's interrupt flag and the IDT, as the events
    set them.  A command with bit 4 starts the controller's initialisation:
    the mask is cleared, and the next three data bytes are the vector
    offset, the cascade and the mode; otherwise a data byte is the mask. *)
Record hw := { hw_gates : list gate; hw_phase : Z; hw_off : Z; hw_mask : Z; hw_if : bool }.

Definition hw_step (h : hw) (e : event) : hw :=
  match e with
  | Outb p v =>
      if (p =? 0x20) && Z.testbit v 4 then {| hw_gates := hw_gates h; hw_phase := 1; hw_off := hw_off h; hw_mask := 0; hw_if := hw_if h |}
      else if p =? 0x21 then
        if hw_phase h =? 1 then {| hw_gates := hw_gates h; hw_phase := 2; hw_off := Z.land v 0xf8; hw_mask := hw_mask h; hw_if := hw_if h |}
        else if hw_phase h =? 2 then {| hw_gates := hw_gates h; hw_phase := 3; hw_off := hw_off h; hw_mask := hw_mask h; hw_if := hw_if h |}
        else if hw_phase h =? 3 then {| hw_gates := hw_gates h; hw_phase := 0; hw_off := hw_off h; hw_mask := hw_mask h; hw_if := hw_if h |}
        else {| hw_gates := hw_gates h; hw_phase := 0; hw_off := hw_off h; hw_mask := v; hw_if := hw_if h |}
      else h
  | Store v g => {| hw_gates := <[Z.to_nat v := g]> (hw_gates h); hw_phase := hw_phase h; hw_off := hw_off h; hw_mask := hw_mask h; hw_if := hw_if h |}
  | Sti => {| hw_gates := hw_gates h; hw_phase := hw_phase h; hw_off := hw_off h; hw_mask := hw_mask h; hw_if := true |}
  | _ => h
  end.

Definition replay (h : hw) (l : list event) : hw := fold_left hw_step l h.

(** A line of the controller that can interrupt the core. *)
Definition line_open (h : hw) (i : Z) : bool := hw_if h && (hw_phase h =? 0) && negb (Z.testbit (hw_mask h) i).

(** The handlers of the lines. *)
Definition line_isr (lay : layout) (i : Z) : option Z :=
  if i =? 0 then Some (isr_irq0_addr lay) else if i =? 1 then Some (isr_irq1_addr lay) else None.

(** Every open line has its handler in the IDT. *)
Definition lines_ok (lay : layout) (h : hw) : Prop :=
  forall i, 0 <= i < 8 -> line_open h i = true ->
    exists a, line_isr lay i = Some a /\ decode (hw_gates h !!? Z.to_nat (hw_off h + i)) = Some (kernel_gate a).

Section lines.
Context (lay : layout) (Hlay : layout_ok lay).

(** From the end of the first initialisation on. *)
Definition settled (h : hw) : Prop :=
  hw_phase h = 0 /\ hw_off h = 0x20 /\ 0 <= hw_mask h < 256 /\ (forall i, 2 <= i < 8 -> Z.testbit (hw_mask h) i = true) /\
  length (hw_gates h) = 256%nat /\
  decode (hw_gates h !!? 0x20%nat) = Some (kernel_gate (isr_irq0_addr lay)) /\
  decode (hw_gates h !!? 0x21%nat) = Some (kernel_gate (isr_irq1_addr lay)).

Lemma settled_ok h : settled h -> lines_ok lay h.
Proof.
  intros (Hp & Ho & _ & Hm & _ & H0 & H1) i Hi Hopen. unfold line_open in Hopen. bool_simp. rewrite Ho. unfold line_isr.
  destruct (Z.eqb_spec i 0) as [->|N0]; [by eexists|]. destruct (Z.eqb_spec i 1) as [->|N1]; [by eexists|].
  rewrite Hm in * by lia. done.
Qed.

Lemma settled_calm h e : calm e = true -> settled h -> settled (hw_step h e).
Proof.
  intros C H. destruct e as [p v|p v|v g| | | | | | | | | | |]; try done; cbn [hw_step calm] in *.
  - bool_simp. destruct ((p =? 0x20) && Z.testbit v 4); [done|]. destruct (p =? 0x21) eqn:P; bool_simp; done.
  - apply negb_true_iff, orb_false_iff in C as [C0 C1]. bool_simp. destruct H as (Hp & Ho & Hr & Hm & Hl & H0 & H1).
    split_and!; cbn [hw_phase hw_off hw_mask hw_gates]; try done; try lia; [by rewrite length_insert|..].
    + by rewrite nth_insert_ne by lia.
    + by rewrite nth_insert_ne by lia.
Qed.

Context (h0 : hw).

Definition hw_of (s : state) : hw := replay h0 (log s).

(** The IDT in memory is the replayed one. *)
Definition synced (s s' : state) : Prop :=
  irq_idt <$> cs s = Some (hw_gates (hw_of s)) -> irq_idt <$> cs s' = Some (hw_gates (hw_of s')).

#[local] Instance synced_preorder : PreOrder synced.
Proof. split; [intros s H; exact H|]. intros s1 s2 s3 H1 H2 H. by apply H2, H1. Qed.

Lemma hw_of_emit e s : hw_of (add_log e s) = hw_step (hw_of s) e.
Proof. unfold hw_of, replay. cbn [log add_log]. by rewrite fold_left_app. Qed.

Definition is_store (e : event) : bool := match e with Store _ _ => true | _ => false end.

Lemma hw_gates_step h e : is_store e = false -> hw_gates (hw_step h e) = hw_gates h.
Proof. destruct e; try done; intros _; cbn [hw_step]; by repeat case_match. Qed.

Lemma synced_emit e : is_store e = false -> steps synced (emit e).
Proof. intros H s s' a [= <- _] E. cbn [cs add_log]. by rewrite hw_of_emit, hw_gates_step. Qed.

Lemma synced_store v f : steps synced (store_gate v f).
Proof.
  intros s s' a E H. unfold store_gate, mbind, M_bind, the_cs in E. destruct (cs s) as [c|]; [|done].
  destruct (irq_idt c !! Z.to_nat v) as [g|]; [|done]. cbn [modify emit] in E. injection E as <- _.
  rewrite hw_of_emit. cbn in *. injection H as ->. done.
Qed.

Lemma synced_gate v h sel attr i : steps synced (idt_set_gate_ist v h sel attr i).
Proof. unfold idt_set_gate_ist. steps_auto; apply synced_store. Qed.

Lemma synced_clear n i : steps synced (clear_gates n i).
Proof. induction n in i |- *; cbn [clear_gates]; unfold idt_set_gate; steps_auto. apply synced_gate. Qed.

Lemma synced_tss : steps synced (setup_tss_and_ist lay).
Proof.
  intros s s' a E H. unfold setup_tss_and_ist in E. unfold mbind at 1, M_bind at 1, the_cs in E. destruct (cs s) as [c|] eqn:Hc; [|done].
  cbv zeta in E. unfold mbind at 1, M_bind at 1 in E. cbn [modify] in E. set (s1 := set_cs _ s) in E.
  assert (irq_idt <$> cs s1 = Some (hw_gates (hw_of s1))) as H1 by exact H. revert E H1.
  refine ((_ : steps synced _) s1 s' a). steps_auto; try apply synced_gate; by apply synced_emit.
Qed.

Lemma synced_tables : steps synced (irq_tables_init lay).
Proof.
  unfold irq_tables_init, idt_set_gate, load_idt. steps_auto; [|apply synced_clear|apply synced_gate..|by apply synced_emit|apply synced_tss].
  apply steps_modify. by intros s H.
Qed.

(** No interrupt comes in before interrupts are enabled. *)
Definition nosti (e : event) : bool := match e with Sti => false | _ => true end.

Lemma nosti_replay h l : forallb nosti l = true -> hw_if (replay h l) = hw_if h.
Proof.
  induction l as [|e l IH] in h |- *; [done|]. cbn [forallb]. intros [He Hl]%andb_true_iff. unfold replay. cbn [fold_left].
  unfold replay in IH. rewrite IH by done. destruct e; try done; cbn [hw_step]; by repeat case_match.
Qed.

Lemma masked_ok h : hw_if h = false -> lines_ok lay h.
Proof. intros H i _. unfold line_open. by rewrite H. Qed.

Lemma nosti_store v f : steps (ext nosti) (store_gate v f).
Proof. unfold store_gate. steps_auto; [by apply x86_steps_local|by apply x86_steps_emit]. Qed.

Lemma nosti_gate v h sel attr i : steps (ext nosti) (idt_set_gate_ist v h sel attr i).
Proof. unfold idt_set_gate_ist. steps_auto; apply nosti_store. Qed.

Lemma nosti_tables : steps (ext nosti) (irq_tables_init lay).
Proof.
  unfold irq_tables_init, setup_tss_and_ist, idt_set_gate, load_idt. steps_auto;
    lazymatch goal with
    | |- steps _ (modify _) => by apply x86_steps_local
    | |- steps _ (emit _) => by apply x86_steps_emit
    | |- steps _ (idt_set_gate_ist _ _ _ _ _) => apply nosti_gate
    | _ => idtac
    end.
  generalize (Z.to_nat CORE_IRQ_IDT_ENTRIES) 0. intros n. induction n; intros i; cbn [clear_gates]; unfold idt_set_gate; steps_auto.
  apply nosti_gate.
Qed.

(** The controller's part of [irq_core_init]. *)
Definition pic_events : list event :=
  [Outb 0x20 0x11; Outb 0xA0 0x11; Outb 0x21 0x20; Outb 0xA1 0x28; Outb 0x21 0x04; Outb 0xA1 0x02; Outb 0x21 0x01; Outb 0xA1 0x01;
   Outb 0x21 0xFF; Outb 0xA1 0xFF; Outb 0x43 0x36; Outb 0x40 155; Outb 0x40 46; Outb 0x21 0xFC].

Lemma boot_settled s s' u : hw_if (hw_of s) = false -> irq_idt <$> cs s = Some (hw_gates (hw_of s)) -> length (hw_gates (hw_of s)) = 256%nat ->
  irq_core_init lay s = Some (s', u) ->
  settled (hw_of s') /\ exists l, log s' = log s ++ l ++ [Sti] /\ forallb nosti l = true.
Proof.
  intros Hif Hsync Hlen E. unfold irq_core_init in E. unfold mbind at 1, M_bind at 1 in E.
  destruct (irq_tables_init lay s) as [[s1 []]|] eqn:E1; [|done].
  pose proof (synced_tables _ _ _ E1 Hsync) as H1. pose proof (nosti_tables _ _ _ E1) as (l & L & F).
  destruct (cs s) as [c0|] eqn:Hc0; [|done]. cbn in Hsync. injection Hsync as Hs0.
  apply (idt_tables lay Hlay) in E1; [|exists c0; split; [done|by rewrite Hs0]].
  destruct E1 as (c & Hc & Hl & _ & Hd). rewrite Hc in H1. cbn in H1. injection H1 as H1.
  assert (log s' = log s1 ++ pic_events ++ [Sti]) as L'.
  { injection E as <- _. cbn [log add_log emit]. rewrite <- !app_assoc. reflexivity. }
  split; [|exists (l ++ pic_events); split; [by rewrite L', L, <- !app_assoc|by rewrite forallb_app, F]].
  unfold hw_of, replay. rewrite L', fold_left_app. fold (replay h0 (log s1)). fold (hw_of s1).
  revert H1. generalize (hw_of s1). intros h H1.
  assert (fold_left hw_step (pic_events ++ [Sti]) h =
    {| hw_gates := hw_gates h; hw_phase := 0; hw_off := 0x20; hw_mask := 0xFC; hw_if := true |}) as -> by (by destruct h).
  unfold settled. cbn [hw_gates hw_phase hw_off hw_mask]. rewrite <- H1. split_and!; try done; try lia.
  - intros i Hi. assert (i = 2 \/ i = 3 \/ i = 4 \/ i = 5 \/ i = 6 \/ i = 7) as Hcases by lia. by destruct_or! Hcases; subst i.
  - exact (Hd 0x20 ltac:(lia)).
  - exact (Hd 0x21 ltac:(lia)).
Qed.

(** *** After that *)

(** [l0] is what came before. *)
Definition good (l0 : list event) (s : state) : Prop :=
  exists l, log s = l0 ++ l /\ forall l1 l2, l = l1 ++ l2 -> settled (replay h0 (l0 ++ l1)).

Definition keep (l0 : list event) (s s' : state) : Prop := good l0 s -> good l0 s'.

#[local] Instance keep_preorder n : PreOrder (keep n).
Proof. split; [intros s H; exact H|]. intros s1 s2 s3 H1 H2 H. by apply H2, H1. Qed.

Lemma good_last n s : good n s -> settled (hw_of s).
Proof. intros (l & L & H). unfold hw_of. rewrite L. apply (H l []). by rewrite app_nil_r. Qed.

Lemma good_emit n e s : good n s -> settled (hw_step (hw_of s) e) -> good n (add_log e s).
Proof.
  intros (l & L & H) He. exists (l ++ [e]). cbn [log add_log]. split; [by rewrite L, app_assoc|]. intros l1 l2 E.
  destruct l2 as [|x l2 _] using rev_ind.
  - rewrite app_nil_r in E. subst l1. rewrite app_assoc, <- L. by rewrite <- hw_of_emit in He.
  - rewrite app_assoc in E. apply app_inj_tail in E as [E _]. by apply (H l1 l2).
Qed.

Lemma ext_keep n s s' : ext calm s s' -> keep n s s'.
Proof.
  intros (l & L & F). induction l as [|e l IH] in s, s', L, F |- * using rev_ind; intros Hg.
  - rewrite app_nil_r in L. destruct Hg as (l & L' & H). exists l. by rewrite L.
  - rewrite forallb_app in F. apply andb_true_iff in F as [F Fe]. cbn in Fe. rewrite andb_true_r in Fe.
    set (s1 := {| cs := cs s'; g_irq_targets := g_irq_targets s'; g_tick_count := g_tick_count s'; g_lapic_base := g_lapic_base s';
                  g_handler := g_handler s'; log := log s ++ l |}).
    assert (good n s1) as H1 by (by apply (IH s s1)).
    assert (add_log e s1 = s') as Es. { unfold add_log, s1. cbn. rewrite <- app_assoc, <- L. by destruct s'. }
    rewrite <- Es. apply good_emit; [done|]. apply settled_calm; [done|]. by apply (good_last n).
Qed.

Lemma keep_benign {A} n (m : M A) : steps benign m -> steps (keep n) m.
Proof. apply steps_mono. intros s s' [_ E]. by apply ext_keep. Qed.

Lemma keep_store n v f : v <> 0x20 -> v <> 0x21 -> steps (keep n) (store_gate v f).
Proof.
  intros N0 N1. apply (steps_mono (ext calm)); [apply ext_keep|]. unfold store_gate. steps_auto; [by apply x86_steps_local|].
  apply x86_steps_emit. cbn. apply negb_true_iff, orb_false_iff. split; by apply Z.eqb_neq.
Qed.

Lemma keep_install n v h sel attr i : v <> 0x20 -> v <> 0x21 -> steps (keep n) (idt_set_gate_ist v h sel attr i).
Proof. intros N0 N1. unfold idt_set_gate_ist. steps_auto; by apply keep_store. Qed.

Context (dev : devices) (run : Z -> M unit) (kernel_invoke : Z -> Z -> list Z -> M unit) `{!Handlers run kernel_invoke}.

(** Reading the data port answers the mask. *)
Context (Hmask : forall l, dev_inb dev l 0x21 = hw_mask (replay h0 l)).

Lemma lor_one_byte m : 0 <= m < 256 -> Z.lor m 1 < 256.
Proof.
  intros H. destruct (Z.eq_dec m 0) as [->|N]; [done|].
  assert (0 < Z.lor m 1) as Hp.
  { pose proof (Z.lor_nonneg m 1). pose proof (Z.lor_eq_0_iff m 1). lia. }
  change 256 with (2 ^ 8). apply Z.log2_lt_pow2; [done|]. rewrite Z.log2_lor by lia.
  apply Z.max_lub_lt; [|done]. apply Z.log2_lt_pow2; lia.
Qed.

Lemma keep_mask n : steps (keep n) (irq_mask_irq0 dev).
Proof.
  intros s s' a E Hg. injection E as <- _. rewrite Hmask. pose proof (good_last n s Hg) as Hs. pose proof Hs as (Hp & Ho & Hr & Hm & Hrest).
  fold (hw_of s). rewrite (Z.mod_small (hw_mask (hw_of s))) by lia.
  apply good_emit; [apply good_emit; [done|by apply settled_calm]|].
  rewrite hw_of_emit. cbn [hw_step Z.eqb Pos.eqb andb]. rewrite Hp. cbn [Z.eqb]. split_and!; cbn [hw_phase hw_off hw_mask hw_gates]; try apply Hrest; try done.
  - apply Z.lor_nonneg. lia.
  - by apply lor_one_byte.
  - intros i Hi. rewrite Z.lor_spec, Hm by done. done.
Qed.

Definition later (o : op) : Prop :=
  match o with
  | CoreInit | IdtOnly => False
  | Install v _ => v <> 0x20 /\ v <> 0x21
  | _ => True
  end.

Lemma keep_start n b k : steps (keep n) (lapic_timer_start lay b k).
Proof.
  unfold lapic_timer_start, irq_install_handler, idt_set_gate. steps_auto;
    lazymatch goal with
    | |- steps _ (idt_set_gate_ist _ _ _ _ _) => by apply keep_install
    | |- steps _ (modify _) => apply (steps_mono (ext calm)); [apply ext_keep|by apply x86_steps_local]
    | |- steps _ (lapic_write _ _) => apply keep_benign, benign_lapic_write
    | |- steps _ (emit _) => by apply keep_benign, x86_benign_emit
    end.
Qed.

Lemma keep_exec n o : later o -> steps (keep n) (exec lay dev run kernel_invoke o).
Proof.
  intros Hl. destruct o as [| |v h|msg| |i e t|fuel b h|t|isr| |h|fuel t| | | |]; cbn [exec later] in *; try done.
  - destruct Hl. by apply keep_install.
  - apply keep_benign. unfold irq_manager_handler. steps_auto. by apply benign_local.
  - apply keep_mask.
  - unfold irq_x86_64_install_wrapper, idt_set_gate. steps_auto; [|by apply keep_install..|by apply keep_benign, x86_benign_emit].
    apply (steps_mono (ext calm)); [apply ext_keep|by apply x86_steps_local].
  - unfold timer_core_init, lapic_timer_calibrate. steps_auto; [|apply keep_mask|apply keep_start..].
    by apply keep_benign, (benign_calibrate dev run kernel_invoke).
  - apply (steps_mono (ext calm)); [apply ext_keep|by apply x86_steps_local].
  - unfold timer_install_isr, lapic_timer_install_isr, irq_install_handler, idt_set_gate. by apply keep_install.
  - unfold timer_restore_normal_isr, lapic_timer_restore_normal_isr, irq_install_handler, idt_set_gate. by apply keep_install.
  - unfold cross_core_signal_install_handler, irq_install_handler, idt_set_gate. steps_auto; [|by apply keep_install].
    apply (steps_mono (ext calm)); [apply ext_keep|by apply x86_steps_local].
  - apply keep_benign, benign_send.
  - by apply keep_benign, (benign_irq0 run kernel_invoke).
  - by apply keep_benign, (benign_irq1 dev run kernel_invoke).
  - by apply keep_benign, (benign_lapic_tick run kernel_invoke).
  - apply keep_benign. unfold isr_cross_core_signal, lapic_write_at.
    steps_auto; [by apply x86_benign_emit|apply run_benign|by apply x86_benign_emit].
Qed.

Lemma keep_runs n ops s s' : Forall later ops -> good n s -> run_ops lay dev run kernel_invoke ops s = Some s' -> good n s'.
Proof.
  induction ops as [|o ops IH] in s |- *; intros Hf Hg E; cbn [run_ops] in E; [by injection E as <-|].
  apply Forall_cons in Hf as [Ho Hf]. destruct (exec _ _ _ _ o s) as [[s1 u]|] eqn:E1; [|done].
  apply (IH s1); [done| |done]. by apply (keep_exec n o Ho s s1 u).
Qed.
End lines.

(** C28: from the first [irq_core_init] of a core with interrupts disabled,
    whatever its IDT and the controller held, and through every later
    operation up to the next initialisation: at every moment, between any two accesses, each line of the
    interrupt controller that can interrupt the core is one of the two the
    code uses, and its entry of the IDT holds that line's handler.  The later
    operations do not initialise again and install on other vectors; reading
    the controller's data port answers the mask. *)
Theorem x86_lines_vectored lay dev run kernel_invoke `{!Handlers run kernel_invoke} h0 ops s0 s :
  layout_ok lay -> (forall l, dev_inb dev l 0x21 = hw_mask (replay h0 l)) -> Forall later ops ->
  log s0 = [] -> hw_if h0 = false -> irq_idt <$> cs s0 = Some (hw_gates h0) -> length (hw_gates h0) = 256%nat ->
  run_ops lay dev run kernel_invoke (CoreInit :: ops) s0 = Some s ->
  forall l1 l2, log s = l1 ++ l2 -> lines_ok lay (replay h0 l1).
Proof.
  intros Hlay Hm Hf Hl0 Hif Hsync Hlen E. cbn [run_ops exec] in E. destruct (irq_core_init lay s0) as [[s1 []]|] eqn:E1; [|done].
  destruct (boot_settled lay Hlay h0 s0 s1 tt) as (Hs & l & L & F); [by unfold hw_of; rewrite Hl0..|done|].
  rewrite Hl0 in L. cbn [app] in L.
  assert (good lay h0 (log s1) s1) as Hg.
  { exists []. rewrite app_nil_r. split; [done|]. intros l1 l2 [-> _]%eq_sym%app_nil. by rewrite app_nil_r. }
  destruct (keep_runs lay h0 dev run kernel_invoke Hm (log s1) ops s1 s Hf Hg E) as (l' & L' & Hall).
  intros l1 l2 Hsplit. rewrite L', L in Hsplit. rewrite L in Hall. apply app_eq_inv in Hsplit as [(k & Ek & _)|(k & -> & ->)].
  - destruct k as [|x k _] using rev_ind.
    + rewrite app_nil_r in Ek. subst l1. apply settled_ok. rewrite <- (app_nil_r (l ++ [Sti])). by apply (Hall [] l').
    + rewrite app_assoc in Ek. apply app_inj_tail in Ek as [-> _]. apply masked_ok. rewrite nosti_replay; [done|].
      rewrite forallb_app in F. by apply andb_true_iff in F as [F _].
  - apply settled_ok. by apply (Hall k l2).
Qed.

(** ** A machine *)

Definition hi (x : Z) : Z := 0xFFFFFFFF80000000 + x.

Definition a_layout : layout := {|
  idt_addr := 0x200000; ist_stack_addr := 0x201000; tss_addr := 0x1_2345_6780; gdt_addr := 0x204000;
  isr_irq0_addr := hi 0x1110; isr_irq1_addr := hi 0x1220; isr_double_fault_addr := hi 0x1330; isr_general_protection_addr := hi 0x1440;
  isr_lapic_timer_addr := hi 0x1550; isr_cross_core_signal_addr := hi 0x1660
|}.

(** Firmware's leftovers: an IDT that points nowhere, every line open. *)
Definition stale_gate : gate := new_gate 0xdead KERNEL_CODE_SELECTOR 0x8E 0.
Definition firmware_hw : hw := {| hw_gates := replicate 256 stale_gate; hw_phase := 0; hw_off := 8; hw_mask := 0; hw_if := false |}.

Definition a_core : core_state := {|
  irq_idt := replicate 256 stale_gate; irq_fault_ist_stack := []; irq_tss := tss_zero; irq_gdt_with_tss := replicate 7 0;
  timer_ticks := 0; timer_target := 0
|}.
Definition a_state : state := {|
  cs := Some a_core; g_irq_targets := replicate 16 0; g_tick_count := 0; g_lapic_base := 0; g_handler := 0; log := []
|}.

(** One tick between two looks; the APIC has counted 2500000 down. *)
Definition a_dev : devices := {|
  dev_inb := fun l p => if p =? 0x21 then hw_mask (replay firmware_hw l) else 0;
  dev_lapic := fun _ a => if a =? LAPIC_BASE + LAPIC_REG_CURRENT_COUNT then 0xFFFFFFFF - 2500000 else 0;
  dev_irq0 := fun _ => 1%nat
|}.

Definition no_run (h : Z) : M unit := mret tt.
Definition no_invoke (t m : Z) (msg : list Z) : M unit := mret tt.
#[global] Instance no_handlers : Handlers no_run no_invoke.
Proof. split; intros; apply steps_ret; apply _. Qed.

Lemma a_layout_ok : layout_ok a_layout.
Proof. unfold layout_ok, a_layout, hi, is_u64, W64. repeat constructor; cbn; lia. Qed.

Abbreviation a_run ops := (run_ops a_layout a_dev no_run no_invoke ops a_state).
Definition later_ops : list op :=
  [TimerInit 20 LAPIC_BASE 0; SignalHandler 0x7000; Wrapper (hi 0x2000) (hi 0x3000) 0x90000; Install 14 (hi 0x4000)].

Lemma x86_idt_refines_witness :
  exists s, let d := fold_left (abstract a_layout) later_ops (boot_idt a_layout) in
    a_run (CoreInit :: later_ops) = Some s /\ idt_is d s /\
    d !! 0x80 = Some (user_gate (hi 0x2000)) /\ d !! 0x20 = Some (kernel_gate (hi 0x1110)) /\ d !! 0x21 <> None /\ d !! 0x40 = None.
Proof.
  assert (match a_run (CoreInit :: later_ops) with Some _ => true | None => false end = true) as H by (vm_compute; reflexivity).
  destruct (a_run (CoreInit :: later_ops)) as [s|] eqn:E; [|discriminate H]. exists s. cbv zeta.
  split; [reflexivity|]. split; [|vm_compute; repeat split; discriminate].
  rewrite run_ops_boot in E.
  destruct (irq_core_init a_layout a_state) as [[s1 []]|] eqn:E1; [|discriminate E].
  assert (idt_is (boot_idt a_layout) s1) as H1.
  { apply (idt_boot a_layout a_layout_ok a_state s1 tt); [|exact E1]. exists a_core. split; reflexivity. }
  refine (proj1 (x86_idt_refines a_layout a_dev no_run no_invoke later_ops (boot_idt a_layout) s1 s a_layout_ok _ H1 E)).
  unfold later_ops. rewrite !Forall_cons. cbn [op_ok]. unfold is_u64, W64, hi. split_and!; first [exact I|lia|constructor].
Defined.

Lemma x86_lines_vectored_witness :
  exists s, a_run (CoreInit :: later_ops) = Some s /\ line_open (replay firmware_hw (log s)) 1 = true /\
    lines_ok a_layout (replay firmware_hw (log s)).
Proof.
  assert (match a_run (CoreInit :: later_ops) with Some s => line_open (replay firmware_hw (log s)) 1 | None => false end = true) as H
    by (vm_compute; reflexivity).
  destruct (a_run (CoreInit :: later_ops)) as [s|] eqn:E; [|discriminate H]. exists s. split; [reflexivity|]. split.
  - exact H.
  - apply (x86_lines_vectored a_layout a_dev no_run no_invoke firmware_hw later_ops a_state s) with (l2 := []).
    + exact a_layout_ok.
    + reflexivity.
    + unfold later_ops. rewrite !Forall_cons. cbn [later]. split_and!; first [exact I|lia|constructor].
    + reflexivity.
    + reflexivity.
    + reflexivity.
    + reflexivity.
    + exact E.
    + symmetry. apply app_nil_r.
Defined.

Lemma x86_task_state_found_witness :
  exists s s' c, irq_core_init a_layout a_state = Some (s, tt) /\ setup_tss_and_ist a_layout s = Some (s', tt) /\ cs s' = Some c /\
    ist1 (irq_tss c) mod 16 = 0.
Proof.
  assert (match irq_core_init a_layout a_state with
          | Some (s, _) => match setup_tss_and_ist a_layout s with Some _ => true | None => false end
          | None => false end = true) as H by (vm_compute; reflexivity).
  destruct (irq_core_init a_layout a_state) as [[s []]|] eqn:E; [|discriminate H].
  destruct (setup_tss_and_ist a_layout s) as [[s' []]|] eqn:E'; [|discriminate H].
  destruct (x86_task_state_found a_layout s s' (boot_idt a_layout) tt) as (c & Hc & _ & Hm & _).
  - exact a_layout_ok.
  - vm_compute. reflexivity.
  - apply (idt_boot a_layout a_layout_ok a_state s tt); [|exact E]. exists a_core. split; reflexivity.
  - exact E'.
  - exists s, s', c. split; [reflexivity|]. split; [exact E'|]. split; [exact Hc|exact Hm].
Defined.

(** ** Signals *)

(** The interrupt command register: destination, vector, and the bits of the
    delivery mode, destination mode and shorthand. *)
Definition icr_destination (high : Z) : Z := field high 24 8.
Definition icr_vector (low : Z) : Z := field low 0 8.
Definition icr_plain (low : Z) : bool := field low 8 12 =? 0.

Lemma wait_idle_spec dev fuel s s' u : wait_idle dev fuel s = Some (s', u) ->
  exists l v, log s' = log s ++ l ++ [LapicRd (LAPIC_BASE + LAPIC_REG_ICR_LOW) v] /\ Z.testbit v 12 = false /\
    forallb (fun e => match e with LapicRd _ v => Z.testbit v 12 | _ => false end) l = true.
Proof.
  induction fuel as [|fuel IH] in s |- *; cbn [wait_idle]; [done|]. intros E. unfold mbind, M_bind in E.
  unfold lapic_read_at, mbind, M_bind, get in E. cbn [emit modify mret M_ret] in E.
  set (v := u32 (dev_lapic dev (log s) _)) in E. destruct (Z.testbit v 12) eqn:B.
  - apply IH in E as (l & w & L & Hw & Hl). exists (LapicRd (LAPIC_BASE + LAPIC_REG_ICR_LOW) v :: l), w.
    split; [rewrite L; cbn [log add_log]; by rewrite <- !app_assoc|]. split; [done|]. cbn [forallb]. by rewrite B.
  - injection E as <- _. by exists [], v.
Qed.

(** A signal waits until the previous command is delivered, then names
    exactly the core of that APIC id, with the signal's vector, as a plain
    interrupt. *)
Theorem x86_signal_sent dev fuel t s s' u : cross_core_signal_send dev fuel t s = Some (s', u) ->
  exists l v high low, log s' = log s ++ l ++ [LapicRd (LAPIC_BASE + LAPIC_REG_ICR_LOW) v;
      LapicWr (LAPIC_BASE + LAPIC_REG_ICR_HIGH) high; LapicWr (LAPIC_BASE + LAPIC_REG_ICR_LOW) low] /\
    Z.testbit v 12 = false /\ icr_destination high = field t 0 8 /\ icr_vector low = CROSS_CORE_SIGNAL_VECTOR /\ icr_plain low = true.
Proof.
  unfold cross_core_signal_send. intros E. unfold mbind at 1, M_bind at 1 in E.
  destruct (wait_idle dev fuel s) as [[s1 []]|] eqn:E1; [|done]. apply wait_idle_spec in E1 as (l & v & L & Hv & _).
  injection E as <- _. exists l, v. do 2 eexists. split; [cbn [log add_log]; rewrite L, <- !app_assoc; reflexivity|].
  split; [done|]. split; [|done]. replace (Z.land t 255) with (field t 0 8) by (unfold field; by rewrite Z.shiftr_0_r).
  pose proof (field_range t 0 8 ltac:(lia)). unfold icr_destination.
  assert (u32 (Z.shiftl (field t 0 8) 24) = Z.shiftl (field t 0 8) 24) as ->.
  { apply Z.mod_small. rewrite Z.shiftl_mul_pow2 by lia. lia. }
  by apply field_hit.
Qed.

(** ** Where the guarantees end *)

(** Initialising a second time, as the boot core does, clears the table while
    interrupts are enabled and line 0 is open: for a while the line's vector
    and the two faults that would follow have no entry at all. *)
Theorem second_init_opens_gap :
  exists s, a_run [CoreInit; CoreInit] = Some s /\
    let h := replay firmware_hw (take 2070 (log s)) in
    line_open h 0 = true /\ hw_off h = 0x20 /\ decode (hw_gates h !!? 0x20%nat) = None /\ decode (hw_gates h !!? 13%nat) = None /\
    decode (hw_gates h !!? 8%nat) = None.
Proof. eexists. split; [vm_compute; reflexivity|]. vm_compute. by repeat split. Qed.

(** The boot core masks line 0 once it has calibrated; another core's
    [irq_core_init] unmasks it at the same controller. *)
Theorem another_core_reopens_line :
  exists boot other, a_run [CoreInit; TimerInit 20 LAPIC_BASE 0] = Some boot /\ a_run [CoreInit] = Some other /\
    line_open (replay firmware_hw (log boot)) 0 = false /\ line_open (replay firmware_hw (log boot ++ log other)) 0 = true.
Proof. eexists. eexists. split; [vm_compute; reflexivity|]. split; [vm_compute; reflexivity|]. vm_compute. by split. Qed.
