(* ===== verification/Serial.v ===== *)
(** * Serial output (coreinit/serial_x86_64.c, coreinit/serial_aarch64.c)

    The formatter [kvprintf], which the two files share word for word, over a
    [putc] that writes to some state [S], and what the transmitters of all
    UARTs have in common.  SerialArm and SerialX86 are the drivers.

    A [const char *] is the list of bytes from where it points to the end of
    the object it points into: reading beyond is undefined, and the whole
    operation is then [None].  So is a [va_arg] of another type than the
    argument's, and the overflow of a signed negation. *)

From Stdlib Require Import Ascii String.
From S2P Require Import Prelude StateM.

(** The characters of a string literal. *)
Definition str (s : string) : list Z := map (fun a => Z.of_nat (nat_of_ascii a)) (list_ascii_of_string s).

Abbreviation chr c := (Z.of_nat (nat_of_ascii c%char)).

(** A [va_list]: the arguments still to come.  An [int] and an [unsigned int]
    are their 32 bits, a [long long] and an [unsigned long long] their 64. *)
Inductive va_arg := VaInt (bits : Z) | VaLong (bits : Z) | VaPtr (p : Z) | VaStr (mem : list Z).

(** Conversion to [long long]. *)
Definition to_long (x : Z) : Z := let y := u64 x in if y <? 9223372036854775808 then y else y - W64.

Section kvprintf.
Context {S : Type} (putc : Z -> M S unit).

Fixpoint put_all (cs : list Z) : M S unit :=
  match cs with [] => mret tt | c :: cs => _ ← putc c; put_all cs end.

(** The characters up to the terminator. *)
Fixpoint puts_raw (s : list Z) : M S unit :=
  match s with
  | [] => never
  | c :: s =>
      if c =? 0 then mret tt
      else _ ← (if c =? 10 then putc 13 else mret tt); _ ← putc c; puts_raw s
  end.

Definition digit_char (upper : bool) (d : Z) : Z :=
  nth (Z.to_nat d) (if upper then str "0123456789ABCDEF" else str "0123456789abcdef") 0.

(** The loop that fills [buf]: [room] is [sizeof(buf) - i]; the result is
    [buf[i..]], least significant digit first. *)
Fixpoint uint_digits (room : nat) (v base : Z) (upper : bool) : list Z :=
  match room with
  | O => []
  | Datatypes.S room => if v >? 0 then digit_char upper (v mod base) :: uint_digits room (v / base) base upper else []
  end.

Definition put_uint (v base : Z) (upper : bool) : M S unit :=
  if v =? 0 then putc 48 else put_all (rev (uint_digits 32 v base upper)).

Definition put_int (v : Z) : M S unit :=
  if v <? 0 then
    _ ← putc 45;
    if v =? -9223372036854775808 then never else put_uint (u64 (- v)) 10 false
  else put_uint (u64 v) 10 false.

(** [va_arg(ap, ...)] for each type the formatter asks for, and what it does
    with the argument. *)
Definition conversion (c : Z) (ap : list va_arg) : option (M S unit * list va_arg) :=
  if c =? chr "s" then match ap with VaStr s :: ap => Some (puts_raw s, ap) | _ => None end
  else if c =? chr "d" then match ap with VaInt i :: ap => Some (put_int (to_int i), ap) | _ => None end
  else if c =? chr "u" then match ap with VaInt i :: ap => Some (put_uint (u32 i) 10 false, ap) | _ => None end
  else if c =? chr "x" then match ap with VaInt i :: ap => Some (put_uint (u32 i) 16 false, ap) | _ => None end
  else if c =? chr "X" then match ap with VaInt i :: ap => Some (put_uint (u32 i) 16 true, ap) | _ => None end
  else if c =? chr "c" then match ap with VaInt i :: ap => Some (putc (i mod 256), ap) | _ => None end
  else if c =? chr "p" then
    match ap with
    | VaPtr p :: ap => Some (_ ← putc 48; _ ← putc (chr "x"); put_uint (u64 p) 16 false, ap)
    | _ => None
    end
  else if c =? chr "%" then Some (putc 37, ap)
  else Some (_ ← putc 37; putc c, ap).

Definition ll_conversion (c : Z) (ap : list va_arg) : option (M S unit * list va_arg) :=
  if c =? chr "u" then match ap with VaLong i :: ap => Some (put_uint (u64 i) 10 false, ap) | _ => None end
  else if (c =? chr "x") || (c =? chr "X") then
    match ap with VaLong i :: ap => Some (put_uint (u64 i) 16 (c =? chr "X"), ap) | _ => None end
  else if c =? chr "d" then match ap with VaLong i :: ap => Some (put_int (to_long i), ap) | _ => None end
  else Some (_ ← putc 37; _ ← putc (chr "l"); _ ← putc (chr "l"); putc c, ap).

(** The loop over the format.  After a conversion the loop moves on past its
    character, whatever that is. *)
Fixpoint format_loop (p : list Z) (ap : list va_arg) : M S unit :=
  match p with
  | [] => never
  | c :: p =>
      if c =? 0 then mret tt
      else if negb (c =? 37) then
        _ ← (if c =? 10 then putc 13 else mret tt); _ ← putc c; format_loop p ap
      else
        match p with
        | [] => never
        | c1 :: p1 =>
            let simple :=
              match conversion c1 ap with Some (m, ap) => _ ← m; format_loop p1 ap | None => never end in
            if c1 =? chr "l" then
              match p1 with
              | [] => never
              | c2 :: p2 =>
                  if c2 =? chr "l" then
                    match p2 with
                    | [] => never
                    | c3 :: p3 =>
                        match ll_conversion c3 ap with
                        | Some (m, ap) => _ ← m; format_loop p3 ap
                        | None => never
                        end
                    end
                  else simple
              end
            else simple
        end
  end.

(** [core_tag]: the tag of this core, [None] without a [core_state]. *)
Definition kvprintf (core_tag : option Z) (fmt : list Z) (ap : list va_arg) : M S unit :=
  _ ← match core_tag with
      | Some tag =>
          if tag >=? 0 then _ ← putc 91; _ ← put_uint (u64 tag) 10 false; _ ← putc 93; putc 32 else mret tt
      | None => mret tt
      end;
  format_loop fmt ap.
End kvprintf.

(** [void serial_set_core_tag(int core_id)]: the tag of a core that has a
    [core_state]. *)
Definition serial_set_core_tag (core_id : Z) (core_tag : option Z) : option Z :=
  match core_tag with Some _ => Some core_id | None => None end.

(** [while (!look()) {}], at most [n] times around the loop. *)
Fixpoint poll_until {S} (look : M S bool) (n : nat) : M S unit :=
  match n with
  | O => never
  | Datatypes.S n => r ← look; if r : bool then mret tt else poll_until look n
  end.

(** ** The line

    What the hardware decides: how many bytes the transmitter of a UART has
    shifted out by its [t]-th access since the one before, and the bits of a
    status register that the drivers do not look at. *)
Class Line := { shifted : nat -> nat; noise : nat -> Z }.

(** The queue of a transmitter: bytes waiting, and bytes sent on the wire. *)
Record transmitter := { t_clock : nat; t_fifo : list Z; t_wire : list Z }.

Definition sent (t : transmitter) : list Z := t_wire t ++ t_fifo t.

(** Time passes until the next access. *)
Definition elapse `{Line} (t : transmitter) : transmitter :=
  let k := shifted (t_clock t) in
  {| t_clock := Datatypes.S (t_clock t); t_fifo := drop k (t_fifo t); t_wire := t_wire t ++ take k (t_fifo t) |}.

(** A byte written to a full queue is lost. *)
Definition enqueue (depth : nat) (b : Z) (t : transmitter) : transmitter :=
  if bool_decide (length (t_fifo t) < depth)%nat
  then {| t_clock := t_clock t; t_fifo := t_fifo t ++ [b]; t_wire := t_wire t |}
  else t.

(** A status register in which one bit means something. *)
Definition status_bit (bit : Z) (b : bool) (others : Z) : Z :=
  if b then Z.lor others (Z.shiftl 1 bit) else Z.land others (Z.lnot (Z.shiftl 1 bit)).
