(* ===== verification/SerialSpec.v ===== *)
(** * What serial output prints

    The formatter against a reading of its formats as a list of pieces; what
    a driver promises ([Transmits]), and that over a driver which keeps the
    promise what reaches the line is the text, whole and in order. *)

From Stdlib Require Import Ascii String.
From S2P Require Import Prelude StateM Serial.

(** ** Numerals *)

Definition digit_value (c : Z) : Z :=
  if (48 <=? c) && (c <=? 57) then c - 48
  else if (65 <=? c) && (c <=? 70) then c - 55
  else if (97 <=? c) && (c <=? 102) then c - 87
  else 99.

Definition value (base : Z) (cs : list Z) : Z := fold_left (fun acc c => acc * base + digit_value c) cs 0.

(** [cs] is the numeral of [v]: digits of the base, in the given case, that
    read as [v], with no leading zero. *)
Definition numeral (base : Z) (upper : bool) (v : Z) (cs : list Z) : Prop :=
  value base cs = v /\
  Forall (fun c => 0 <= digit_value c < base /\ (if upper then c < 97 else c < 65 \/ 97 <= c)) cs /\
  (cs = [48] \/ exists c cs', cs = c :: cs' /\ c <> 48).

Lemma value_app base cs c : value base (cs ++ [c]) = value base cs * base + digit_value c.
Proof. unfold value. by rewrite fold_left_app. Qed.

Lemma digit_char_ok upper base d :
  base = 10 \/ base = 16 -> 0 <= d < base ->
  let c := digit_char upper d in
  digit_value c = d /\ (if upper then c < 97 else c < 65 \/ 97 <= c) /\ 0 <= c < 256 /\ (c = 48 -> d = 0).
Proof.
  intros Hb Hd. assert (In d (map Z.of_nat (seq 0 16))) as Hin.
  { apply in_map_iff. exists (Z.to_nat d). rewrite in_seq. lia. }
  clear Hb Hd. cbv in Hin. repeat destruct Hin as [<-|Hin]; [..|done]; destruct upper; cbv; intuition (try done; try lia).
Qed.

Section digits.
Context (base : Z) (upper : bool) (Hbase : base = 10 \/ base = 16).

(** [room] is large enough for the digits of a 64-bit number. *)
Lemma uint_digits_ok room v :
  0 < v < base ^ Z.of_nat room ->
  let cs := rev (uint_digits room v base upper) in
  value base cs = v /\
  Forall (fun c => 0 <= digit_value c < base /\ (if upper then c < 97 else c < 65 \/ 97 <= c)) cs /\
  (exists c cs', cs = c :: cs' /\ c <> 48) /\ Forall (fun c => 0 <= c < 256) cs.
Proof.
  revert v. induction room as [|room IH]; intros v Hv; [cbn in Hv; lia|].
  rewrite Nat2Z.inj_succ, Z.pow_succ_r in Hv by lia. cbn [uint_digits].
  rewrite (proj2 (Z.gtb_lt _ _)) by lia. cbn [rev].
  pose proof (Z.mod_pos_bound v base ltac:(lia)) as Hm. pose proof (Z.div_mod v base ltac:(lia)) as Hdm.
  destruct (digit_char_ok upper base (v mod base) Hbase Hm) as (Hd & Hcase & Hbyte & Hz).
  assert (0 <= v / base) as Hq by (apply Z.div_pos; lia).
  destruct (decide (v / base = 0)) as [E|NE].
  - rewrite E. destruct room as [|room]; cbn [uint_digits rev app Z.gtb Z.compare];
      (split_and!; [unfold value; cbn [fold_left]; lia|by rewrite Forall_singleton, Hd| |by apply Forall_singleton];
       eexists _, []; split; [done|]; intros H48; apply Hz in H48; lia).
  - assert (v / base < base ^ Z.of_nat room) by (apply Z.div_lt_upper_bound; lia).
    destruct (IH (v / base) ltac:(lia)) as (Hv' & Hf & (c & cs' & Hc & Hne) & Hb).
    split_and!.
    + rewrite value_app, Hv', Hd. lia.
    + apply Forall_app_2; [done|]. apply Forall_singleton. by rewrite Hd.
    + eexists c, _. rewrite Hc. by split.
    + apply Forall_app_2; [done|]. by apply Forall_singleton.
Qed.
End digits.

(** What [put_uint] hands to [putc]. *)
Definition uint_text (v base : Z) (upper : bool) : list Z :=
  if v =? 0 then [48] else rev (uint_digits 32 v base upper).

Lemma uint_text_numeral v base upper :
  base = 10 \/ base = 16 -> 0 <= v < W64 ->
  numeral base upper v (uint_text v base upper) /\ Forall (fun c => 0 <= c < 256) (uint_text v base upper).
Proof.
  intros Hb Hv. unfold uint_text. destruct (Z.eqb_spec v 0) as [->|NE].
  - split; [|by apply Forall_singleton]. split_and!; [done| |by left]. apply Forall_singleton.
    change (digit_value 48) with 0. split; [lia|]. destruct upper; lia.
  - destruct (uint_digits_ok base upper Hb 32 v) as (H1 & H2 & H3 & H4).
    { split; [lia|]. unfold W64 in Hv. destruct Hb as [->| ->]; (etransitivity; [apply Hv|reflexivity]). }
    unfold numeral. auto.
Qed.

(** ** Formats

    A format as a list of pieces: the text between the conversions, and the
    conversions with their arguments. *)
Inductive piece :=
  | Lit (l : list Z)
  | Str (l beyond : list Z)            (* %s; [beyond] is what lies behind the terminator *)
  | Dec (bits : Z) | LDec (bits : Z)   (* %d %lld *)
  | Uns (bits : Z) | LUns (bits : Z)   (* %u %llu *)
  | Hex (upper : bool) (bits : Z) | LHex (upper : bool) (bits : Z)
  | Chr (bits : Z) | Ptr (p : Z).

Definition x_char (upper : bool) : Z := if upper then chr "X" else chr "x".

Definition piece_format (p : piece) : list Z :=
  match p with
  | Lit l => flat_map (fun c => if c =? 37 then [37; 37] else [c]) l
  | Str _ _ => str "%s" | Dec _ => str "%d" | LDec _ => str "%lld" | Uns _ => str "%u" | LUns _ => str "%llu"
  | Hex up _ => 37 :: [x_char up] | LHex up _ => str "%ll" ++ [x_char up]
  | Chr _ => str "%c" | Ptr _ => str "%p"
  end.

Definition piece_args (p : piece) : list va_arg :=
  match p with
  | Lit _ => []
  | Str l beyond => [VaStr (l ++ 0 :: beyond)]
  | Dec i | Uns i | Hex _ i | Chr i => [VaInt i]
  | LDec i | LUns i | LHex _ i => [VaLong i]
  | Ptr p => [VaPtr p]
  end.

Definition text_ok (l : list Z) : Prop := Forall (fun c => 0 < c < 256) l.

Definition piece_ok (p : piece) : Prop :=
  match p with
  | Lit l | Str l _ => text_ok l
  | LDec i => to_long i <> -9223372036854775808
  | _ => True
  end.

(** A line feed is sent as a carriage return and a line feed. *)
Definition crlf (l : list Z) : list Z := flat_map (fun c => if c =? 10 then [13; 10] else [c]) l.

Definition signed_numeral (v : Z) (cs : list Z) : Prop :=
  if v <? 0 then exists ds, cs = 45 :: ds /\ numeral 10 false (- v) ds else numeral 10 false v cs.

(** What a piece prints. *)
Definition piece_prints (p : piece) (out : list Z) : Prop :=
  match p with
  | Lit l | Str l _ => out = crlf l
  | Dec i => signed_numeral (to_int i) out
  | LDec i => signed_numeral (to_long i) out
  | Uns i => numeral 10 false (u32 i) out
  | LUns i => numeral 10 false (u64 i) out
  | Hex up i => numeral 16 up (u32 i) out
  | LHex up i => numeral 16 up (u64 i) out
  | Chr i => out = [i mod 256]
  | Ptr p => exists ds, out = str "0x" ++ ds /\ numeral 16 false (u64 p) ds
  end.

Definition prints (ps : list piece) (out : list Z) : Prop :=
  exists outs, Forall2 piece_prints ps outs /\ out = concat outs.

Definition formats (ps : list piece) : list Z := flat_map piece_format ps.
Definition arguments (ps : list piece) : list va_arg := flat_map piece_args ps.

(** The same as a function. *)
Definition int_text (v : Z) : list Z :=
  if v <? 0 then 45 :: uint_text (u64 (- v)) 10 false else uint_text (u64 v) 10 false.

Definition piece_text (p : piece) : list Z :=
  match p with
  | Lit l | Str l _ => crlf l
  | Dec i => int_text (to_int i)
  | LDec i => int_text (to_long i)
  | Uns i => uint_text (u32 i) 10 false
  | LUns i => uint_text (u64 i) 10 false
  | Hex up i => uint_text (u32 i) 16 up
  | LHex up i => uint_text (u64 i) 16 up
  | Chr i => [i mod 256]
  | Ptr p => str "0x" ++ uint_text (u64 p) 16 false
  end.

Definition is_byte (c : Z) : Prop := 0 <= c < 256.

Lemma to_long_range x : -9223372036854775808 <= to_long x < 9223372036854775808.
Proof.
  unfold to_long. pose proof (u64_range x) as H. unfold is_u64, W64 in *.
  case_match eqn:E; bool_simp; lia.
Qed.

Lemma u32_in_u64 x : 0 <= u32 x < W64.
Proof. unfold u32, W64. pose proof (Z.mod_pos_bound x 4294967296). lia. Qed.

Lemma int_text_ok v :
  -9223372036854775808 < v < 9223372036854775808 -> signed_numeral v (int_text v) /\ Forall is_byte (int_text v).
Proof.
  intros Hv. unfold signed_numeral, int_text. destruct (Z.ltb_spec v 0).
  - rewrite u64_small by (unfold is_u64, W64; lia).
    destruct (uint_text_numeral (- v) 10 false) as [Hn Hb]; [by left|unfold W64; lia|].
    split; [by eexists|]. constructor; [by unfold is_byte|done].
  - rewrite u64_small by (unfold is_u64, W64; lia). apply uint_text_numeral; [by left|unfold W64; lia].
Qed.

Lemma crlf_bytes l : text_ok l -> Forall is_byte (crlf l).
Proof.
  induction 1 as [|c l Hc _ IH]; [constructor|]. cbn [crlf flat_map]. fold (crlf l).
  apply Forall_app_2; [|done]. unfold is_byte. destruct (Z.eqb_spec c 10); repeat constructor; lia.
Qed.

Lemma piece_text_ok p : piece_ok p -> piece_prints p (piece_text p) /\ Forall is_byte (piece_text p).
Proof.
  pose proof u64_range as Hu. unfold is_u64 in Hu. pose proof u32_in_u64 as H32.
  destruct p; cbn [piece_ok piece_prints piece_text]; intros Hok;
    try (split; [done|by apply crlf_bytes]); try (apply uint_text_numeral; [lia|auto]; fail).
  - apply int_text_ok. pose proof (to_int_range bits). unfold is_int in *. lia.
  - apply int_text_ok. pose proof (to_long_range bits). lia.
  - split; [done|]. apply Forall_singleton. unfold is_byte. by apply Z.mod_pos_bound.
  - destruct (uint_text_numeral (u64 p) 16 false) as [Hn Hb]; [by right|auto|].
    split; [by eexists|]. repeat (constructor; [by unfold is_byte|]). done.
Qed.

(** ** The formatter prints its pieces *)

Section formatter.
Context {S : Type} (putc : Z -> M S unit).
Implicit Types (m k : M S unit) (s : S).

Abbreviation put_all := (put_all putc).

Lemma bind_assoc {A B} (m : M S A) (f : A -> M S B) (g : B -> M S unit) s :
  ((m ≫= f) ≫= g) s = (m ≫= fun a => f a ≫= g) s.
Proof. unfold mbind, M_bind. by destruct (m s) as [[??]|]. Qed.

Lemma put_one c s : put_all [c] s = putc c s.
Proof. cbn. unfold mbind, M_bind, mret, M_ret. by destruct (putc c s) as [[? []]|]. Qed.

(** Two pieces of code do the same after the same output. *)
Lemma put_all_app cs cs' s : put_all (cs ++ cs') s = (_ ← put_all cs; put_all cs') s.
Proof.
  revert s. induction cs as [|c cs IH]; intros s; [done|]. cbn [app Serial.put_all]. rewrite bind_assoc.
  unfold mbind, M_bind. destruct (putc c s) as [[s' []]|]; [|done]. apply IH.
Qed.

Lemma bind_ext {A B} (m m' : M S A) (f f' : A -> M S B) s :
  m s = m' s -> (forall a s, f a s = f' a s) -> (m ≫= f) s = (m' ≫= f') s.
Proof. intros Hm Hf. unfold mbind, M_bind. rewrite Hm. destruct (m' s) as [[??]|]; [apply Hf|done]. Qed.

(** [m] is the output of [cs]. *)
Definition outputs m (cs : list Z) : Prop := forall s, m s = put_all cs s.

Lemma outputs_ret : outputs (mret tt) [].
Proof. done. Qed.

Lemma outputs_putc c : outputs (putc c) [c].
Proof. intros s. by rewrite put_one. Qed.

Lemma outputs_then m cs k cs' : outputs m cs -> outputs k cs' -> outputs (_ ← m; k) (cs ++ cs').
Proof. intros Hm Hk s. rewrite put_all_app. by apply bind_ext. Qed.

Lemma outputs_crlf c k cs :
  outputs k cs ->
  outputs (_ ← (if c =? 10 then putc 13 else mret tt); _ ← putc c; k)
    ((if c =? 10 then [13; 10] else [c]) ++ cs).
Proof.
  intros Hk. destruct (Z.eqb_spec c 10) as [->|NE].
  - apply (outputs_then _ [13] _ (10 :: cs)); [apply outputs_putc|]. apply (outputs_then _ [10]); [apply outputs_putc|done].
  - apply (outputs_then _ [] _ (c :: cs)); [apply outputs_ret|]. apply (outputs_then _ [c]); [apply outputs_putc|done].
Qed.

Lemma outputs_puts_raw l beyond : text_ok l -> outputs (puts_raw putc (l ++ 0 :: beyond)) (crlf l).
Proof.
  induction 1 as [|c l Hc _ IH]; [done|]. cbn [app puts_raw]. rewrite (proj2 (Z.eqb_neq c 0)) by lia.
  by apply outputs_crlf.
Qed.

Lemma outputs_put_uint v base upper : outputs (put_uint putc v base upper) (uint_text v base upper).
Proof. unfold put_uint, uint_text. destruct (v =? 0); [apply outputs_putc|done]. Qed.

Lemma outputs_put_int v : v <> -9223372036854775808 -> outputs (put_int putc v) (int_text v).
Proof.
  intros Hv. unfold put_int, int_text. rewrite (proj2 (Z.eqb_neq v _)) by done.
  destruct (v <? 0); [|apply outputs_put_uint].
  apply (outputs_then _ [45]); [apply outputs_putc|apply outputs_put_uint].
Qed.

(** The loop at a conversion. *)
Lemma loop_simple c rest ap m ap' s :
  c <> chr "l" -> conversion putc c ap = Some (m, ap') ->
  format_loop putc (37 :: c :: rest) ap s = (_ ← m; format_loop putc rest ap') s.
Proof. intros Hc Hm. cbn -[conversion chr]. by rewrite (proj2 (Z.eqb_neq c _)), Hm by done. Qed.

Lemma loop_ll c rest ap m ap' s :
  ll_conversion putc c ap = Some (m, ap') ->
  format_loop putc (37 :: 108 :: 108 :: c :: rest) ap s = (_ ← m; format_loop putc rest ap') s.
Proof. intros Hm. cbn -[ll_conversion]. by rewrite Hm. Qed.

Lemma loop_literal l rest ap cs :
  text_ok l -> outputs (format_loop putc rest ap) cs ->
  outputs (format_loop putc (piece_format (Lit l) ++ rest) ap) (crlf l ++ cs).
Proof.
  intros Hl Hr. cbn [piece_format]. induction Hl as [|c l Hc _ IH]; [done|].
  cbn [crlf flat_map]. fold (crlf l). rewrite <- app_assoc. destruct (Z.eqb_spec c 37) as [->|NE].
  - cbn [app Z.eqb Pos.eqb]. intros s. rewrite (loop_simple 37 _ ap (putc 37) ap) by done.
    by apply (outputs_then _ [37]); [apply outputs_putc|].
  - cbn [app format_loop]. rewrite (proj2 (Z.eqb_neq c 0)), (proj2 (Z.eqb_neq c 37)) by lia. cbn [negb].
    rewrite <- app_assoc. by apply outputs_crlf.
Qed.

Lemma loop_piece p rest ap cs :
  piece_ok p -> outputs (format_loop putc rest ap) cs ->
  outputs (format_loop putc (piece_format p ++ rest) (piece_args p ++ ap)) (piece_text p ++ cs).
Proof.
  intros Hok Hr. destruct p as [l|l beyond|i|i|i|i|up i|up i|i|p]; cbn [piece_text piece_args app].
  1: by apply loop_literal.
  all: try (destruct up).
  all: match goal with |- context [piece_format ?q] => let f := eval cbv in (piece_format q) in change (piece_format q) with f end.
  all: cbn [app]; intros s.
  all: try (erewrite loop_ll by reflexivity; apply outputs_then; [|done]; auto using outputs_put_uint, outputs_put_int; fail).
  all: erewrite loop_simple by done; first [apply outputs_then|apply (outputs_then _ [_])]; [|done]; auto using outputs_put_uint, outputs_puts_raw, outputs_putc.
  - apply outputs_put_int. pose proof (to_int_range i). unfold is_int in *. lia.
  - apply (outputs_then _ [48] _ (120 :: _)); [apply outputs_putc|].
    apply (outputs_then _ [120]); [apply outputs_putc|apply outputs_put_uint].
Qed.

Lemma loop_pieces ps beyond ap :
  Forall piece_ok ps ->
  outputs (format_loop putc (formats ps ++ 0 :: beyond) (arguments ps ++ ap)) (concat (map piece_text ps)).
Proof.
  induction 1 as [|p ps Hp _ IH]; [done|]. cbn [formats arguments flat_map map concat].
  rewrite <- !app_assoc. by apply loop_piece.
Qed.

(** The tag that opens every line of a core. *)
Definition tag_text (core_tag : option Z) : list Z :=
  match core_tag with
  | Some tag => if tag >=? 0 then 91 :: uint_text (u64 tag) 10 false ++ [93; 32] else []
  | None => []
  end.

Lemma outputs_kvprintf core_tag ps beyond ap :
  Forall piece_ok ps ->
  outputs (kvprintf putc core_tag (formats ps ++ 0 :: beyond) (arguments ps ++ ap))
          (tag_text core_tag ++ concat (map piece_text ps)).
Proof.
  intros Hps. apply outputs_then; [|by apply loop_pieces]. unfold tag_text. destruct core_tag as [tag|]; [|done].
  destruct (tag >=? 0); [|done]. apply (outputs_then _ [91]); [apply outputs_putc|].
  apply outputs_then; [apply outputs_put_uint|]. apply (outputs_then _ [93]); apply outputs_putc.
Qed.
End formatter.

Lemma pieces_print ps :
  Forall piece_ok ps -> prints ps (concat (map piece_text ps)) /\ Forall is_byte (concat (map piece_text ps)).
Proof.
  intros Hps. split.
  - exists (map piece_text ps). split; [|done]. induction Hps as [|p ps Hp _ IH]; constructor; [|done].
    by apply piece_text_ok.
  - induction Hps as [|p ps Hp _ IH]; [constructor|]. cbn. apply Forall_app_2; [|done]. by apply piece_text_ok.
Qed.

Lemma tag_bytes core_tag : Forall is_byte (tag_text core_tag).
Proof.
  destruct core_tag as [tag|]; [|constructor]. cbn. destruct (tag >=? 0); [|constructor].
  constructor; [by unfold is_byte|]. apply Forall_app_2.
  - apply uint_text_numeral; [by left|apply u64_range].
  - repeat (constructor; [by unfold is_byte|]). constructor.
Qed.

(** ** The line moves on *)

(** The transmitter keeps on shifting bytes out. *)
Class LiveLine `{Line} : Prop := live : forall t, exists t', (t <= t')%nat /\ (0 < shifted t')%nat.

Section line.
Context `{LiveLine}.

Lemma elapse_sent t : sent (elapse t) = sent t.
Proof. unfold sent, elapse. cbn. by rewrite <- app_assoc, take_drop. Qed.

Lemma enqueue_sent depth b t : (length (t_fifo t) < depth)%nat -> sent (enqueue depth b t) = sent t ++ [b].
Proof. intros Hl. unfold enqueue. rewrite bool_decide_eq_true_2 by done. unfold sent. cbn. by rewrite app_assoc. Qed.

Lemma iter_elapse k t :
  t_clock (Nat.iter k elapse t) = (t_clock t + k)%nat /\
  (length (t_fifo (Nat.iter k elapse t)) <= length (t_fifo t))%nat.
Proof.
  induction k as [|k [IHc IHl]]; cbn [Nat.iter nat_rect]; [lia|]. unfold elapse at 1 3. cbn [t_clock t_fifo].
  fold (Nat.iter k elapse t). rewrite length_drop. lia.
Qed.

Lemma line_drains t : exists k, t_fifo (Nat.iter (Datatypes.S k) elapse t) = [].
Proof.
  remember (length (t_fifo t)) as n eqn:Hn. revert t Hn.
  induction n as [n IH] using lt_wf_ind. intros t Hn.
  destruct (live (t_clock t)) as (t' & Ht' & Hs). set (k := (t' - t_clock t)%nat).
  destruct (iter_elapse k t) as [Hc Hl]. set (t1 := Nat.iter (Datatypes.S k) elapse t).
  assert (t_fifo t1 = drop (shifted t') (t_fifo (Nat.iter k elapse t))) as Hf.
  { unfold t1. cbn [Nat.iter nat_rect]. fold (Nat.iter k elapse t). unfold elapse at 1. cbn [t_fifo]. rewrite Hc. do 2 f_equal. lia. }
  destruct (t_fifo t1) as [|b l] eqn:E; [by exists k|].
  assert (length (t_fifo t1) < n)%nat as Hlt.
  { rewrite E, Hf, length_drop. apply (f_equal length) in Hf. cbn in Hf. rewrite length_drop in Hf. lia. }
  destruct (IH _ Hlt t1 eq_refl) as [k' Hk']. exists (Datatypes.S k' + k)%nat.
  rewrite <- Hk'. unfold t1. rewrite <- Nat.iter_add. do 2 f_equal. lia.
Qed.
End line.

(** A loop that looks until it finds a state it likes. *)
Section poll.
Context {S : Type} (look : M S bool) (tick : S -> S) (ready : S -> bool) (P : S -> Prop).
Hypothesis Htick : forall s, P s -> P (tick s).
Hypothesis Hlook : forall s, P s -> look s = Some (tick s, ready (tick s)).

Lemma poll_until_returns k s :
  P s -> ready (Nat.iter (Datatypes.S k) tick s) = true ->
  exists j, ready (Nat.iter j tick s) = true /\
    forall n, (Datatypes.S k <= n)%nat -> poll_until look n s = Some (Nat.iter j tick s, tt).
Proof.
  revert s. induction k as [|k IH]; intros s Hs Hr.
  - exists 1%nat. split; [done|]. intros [|n] Hn; [lia|]. cbn [poll_until]. unfold mbind, M_bind.
    rewrite Hlook by done. change (tick s) with (Nat.iter 1 tick s). by rewrite Hr.
  - destruct (ready (tick s)) eqn:E.
    + exists 1%nat. split; [done|]. intros [|n] Hn; [lia|]. cbn [poll_until]. unfold mbind, M_bind.
      rewrite Hlook by done. by rewrite E.
    + rewrite Nat.iter_succ_r in Hr. destruct (IH (tick s) (Htick s Hs) Hr) as (j & Hj & Hp).
      exists (Datatypes.S j). rewrite Nat.iter_succ_r. split; [done|]. intros [|n] Hn; [lia|].
      cbn [poll_until]. unfold mbind, M_bind. rewrite Hlook, E by done. apply Hp. lia.
Qed.
End poll.

(** ** What a driver promises

    [putc n] waits at most [n] times around its loop.  In a state that is
    [ok], a large enough [n] sends the byte. *)
Class Transmits {S : Type} (putc : nat -> Z -> M S unit) (ok : S -> Prop) (out : S -> list Z) : Prop :=
  transmits_byte : forall s c, ok s -> is_byte c ->
    exists n s', ok s' /\ out s' = out s ++ [c] /\ forall n', (n <= n')%nat -> putc n' c s = Some (s', tt).

Lemma transmits_all {T} `{Transmits T putc ok out} cs s :
  ok s -> Forall is_byte cs ->
  exists n s', ok s' /\ out s' = out s ++ cs /\ forall n', (n <= n')%nat -> put_all (putc n') cs s = Some (s', tt).
Proof.
  intros Hs Hcs. revert s Hs. induction Hcs as [|c cs Hc _ IH]; intros s Hs.
  - exists 0%nat, s. by rewrite app_nil_r.
  - destruct (transmits_byte s c Hs Hc) as (n1 & s1 & Hs1 & Ho1 & Hp1).
    destruct (IH s1 Hs1) as (n2 & s2 & Hs2 & Ho2 & Hp2). exists (Nat.max n1 n2), s2. split_and!; [done| |].
    + by rewrite Ho2, Ho1, <- app_assoc.
    + intros n' Hn'. cbn [put_all]. unfold mbind, M_bind. rewrite Hp1 by lia. apply Hp2. lia.
Qed.

Lemma transmits_text {T} `{Transmits T putc ok out} core_tag ps beyond ap s :
  ok s -> Forall piece_ok ps ->
  exists text n s', prints ps text /\ ok s' /\ out s' = out s ++ tag_text core_tag ++ text /\
    forall n', (n <= n')%nat -> kvprintf (putc n') core_tag (formats ps ++ 0 :: beyond) (arguments ps ++ ap) s = Some (s', tt).
Proof.
  intros Hs Hps. destruct (pieces_print ps Hps) as [Hp Hb].
  destruct (transmits_all (tag_text core_tag ++ concat (map piece_text ps)) s Hs) as (n & s' & Hs' & Ho & Hn).
  { apply Forall_app_2; [apply tag_bytes|done]. }
  exists (concat (map piece_text ps)), n, s'. split_and!; [done..|]. intros n' Hn'.
  rewrite (outputs_kvprintf (putc n') core_tag ps beyond ap Hps s). by apply Hn.
Qed.
