(* ===== verification/SerialArm.v ===== *)
(** * Serial output on AArch64 (coreinit/serial_aarch64.c)

    The driver of the PL011 and of the Cadence UART, over a model of the UART
    the machine has. *)

From S2P Require Import Prelude StateM Serial.

Definition PL011_DR : Z := 0x00.
Definition PL011_FR : Z := 0x18.
Definition PL011_IBRD : Z := 0x24.
Definition PL011_FBRD : Z := 0x28.
Definition PL011_LCR_H : Z := 0x2C.
Definition PL011_CR : Z := 0x30.
Definition PL011_IMSC : Z := 0x38.
Definition PL011_FR_TXFF : Z := Z.shiftl 1 5.
Definition PL011_LCR_H_FEN : Z := Z.shiftl 1 4.
Definition PL011_LCR_H_WLEN_8 : Z := Z.shiftl 3 5.
Definition PL011_CR_UARTEN : Z := Z.shiftl 1 0.
Definition PL011_CR_TXE : Z := Z.shiftl 1 8.
Definition PL011_CR_RXE : Z := Z.shiftl 1 9.

Definition CADENCE_CR : Z := 0x00.
Definition CADENCE_CR_RX_DIS : Z := Z.shiftl 1 3.
Definition CADENCE_CR_TX_EN : Z := Z.shiftl 1 4.
Definition CADENCE_CR_TX_DIS : Z := Z.shiftl 1 5.
Definition CADENCE_SR : Z := 0x2C.
Definition CADENCE_FIFO : Z := 0x30.
Definition CADENCE_SR_TXFULL : Z := Z.shiftl 1 4.

(** The UART the machine has: where, which, how deep its queue is, and its
    registers. *)
Record uart := { u_base : Z; u_cadence : bool; u_depth : nat; u_regs : Z -> Z; u_tx : transmitter }.

Definition set_tx (t : transmitter) (u : uart) : uart :=
  {| u_base := u_base u; u_cadence := u_cadence u; u_depth := u_depth u; u_regs := u_regs u; u_tx := t |}.
Definition set_reg (r v : Z) (u : uart) : uart :=
  {| u_base := u_base u; u_cadence := u_cadence u; u_depth := u_depth u;
     u_regs := fun x => if x =? r then v else u_regs u x; u_tx := u_tx u |}.

Record serial := { g_pl011_base : Z; g_is_cadence : bool; g_ready : bool; dev : uart }.

Definition set_driver (base : Z) (cadence ready : bool) (s : serial) : serial :=
  {| g_pl011_base := base; g_is_cadence := cadence; g_ready := ready; dev := dev s |}.
Definition set_dev (u : uart) (s : serial) : serial :=
  {| g_pl011_base := g_pl011_base s; g_is_cadence := g_is_cadence s; g_ready := g_ready s; dev := u |}.

(** A queue takes bytes while its transmitter is enabled. *)
Definition transmits (u : uart) : bool :=
  if u_cadence u
  then Z.testbit (u_regs u CADENCE_CR) 4 && negb (Z.testbit (u_regs u CADENCE_CR) 5)
  else Z.testbit (u_regs u PL011_CR) 0 && Z.testbit (u_regs u PL011_CR) 8.

Section driver.
Context `{Line}.

Definition full (u : uart) : bool := negb (bool_decide (length (t_fifo (u_tx u)) < u_depth u)%nat).

(** An access outside of the UART is undefined. *)
Definition mmio_read32 (a : Z) : M serial Z := fun s =>
  let u := set_tx (elapse (u_tx (dev s))) (dev s) in
  let r := a - u_base u in
  let others := noise (t_clock (u_tx (dev s))) in
  if (0 <=? r) && (r <? 0x1000) then
    Some (set_dev u s,
      if negb (u_cadence u) && (r =? PL011_FR) then status_bit 5 (full u) others
      else if u_cadence u && (r =? CADENCE_SR) then status_bit 4 (full u) others
      else u_regs u r)
  else None.

(** The PL011 does not take a divisor or a line format while it is enabled. *)
Definition mmio_write32 (a v : Z) : M serial unit := fun s =>
  let u := set_tx (elapse (u_tx (dev s))) (dev s) in
  let r := a - u_base u in
  if (0 <=? r) && (r <? 0x1000) then
    Some (set_dev
      (if r =? (if u_cadence u then CADENCE_FIFO else PL011_DR) then
         if transmits u then set_tx (enqueue (u_depth u) (v mod 256) (u_tx u)) u else u
       else if negb (u_cadence u) && Z.testbit (u_regs u PL011_CR) 0 &&
               ((r =? PL011_IBRD) || (r =? PL011_FBRD) || (r =? PL011_LCR_H)) then u
       else set_reg r v u) s, tt)
  else None.

Definition serial_aarch64_set_base (base : Z) : M serial unit :=
  _ ← modify (fun s => set_driver base false (g_ready s) s);
  _ ← mmio_write32 (base + PL011_CR) 0;
  _ ← mmio_write32 (base + PL011_IBRD) 13;
  _ ← mmio_write32 (base + PL011_FBRD) 1;
  _ ← mmio_write32 (base + PL011_LCR_H) (Z.lor PL011_LCR_H_WLEN_8 PL011_LCR_H_FEN);
  _ ← mmio_write32 (base + PL011_IMSC) 0;
  _ ← mmio_write32 (base + PL011_CR) (Z.lor (Z.lor PL011_CR_UARTEN PL011_CR_TXE) PL011_CR_RXE);
  modify (fun s => set_driver (g_pl011_base s) (g_is_cadence s) true s).

Definition serial_aarch64_set_cadence_base (base : Z) : M serial unit :=
  _ ← modify (fun s => set_driver base true (g_ready s) s);
  control ← mmio_read32 (base + CADENCE_CR);
  let control := Z.land control (u32 (Z.lnot (Z.lor CADENCE_CR_TX_DIS CADENCE_CR_RX_DIS))) in
  let control := Z.lor control CADENCE_CR_TX_EN in
  _ ← mmio_write32 (base + CADENCE_CR) control;
  modify (fun s => set_driver (g_pl011_base s) (g_is_cadence s) true s).

Definition serial_init : M serial unit :=
  base ← get g_pl011_base;
  if base =? 0 then modify (fun s => set_driver (g_pl011_base s) (g_is_cadence s) false s)
  else serial_aarch64_set_base base.

Definition transmit_ready : M serial bool :=
  base ← get g_pl011_base;
  cadence ← get g_is_cadence;
  let status := if cadence : bool then CADENCE_SR else PL011_FR in
  let full := if cadence then CADENCE_SR_TXFULL else PL011_FR_TXFF in
  value ← mmio_read32 (base + status);
  mret (Z.land value full =? 0).

(** [c] is a byte; the [char] is sign-extended on its way to the register. *)
Definition putc (n : nat) (c : Z) : M serial unit :=
  ready ← get g_ready;
  if negb ready then mret tt else
  _ ← poll_until transmit_ready n;
  base ← get g_pl011_base;
  cadence ← get g_is_cadence;
  mmio_write32 (base + (if cadence : bool then CADENCE_FIFO else PL011_DR))
               (u32 (if c <? 128 then c else c - 256)).
End driver.
