(* ===== verification/SerialX86.v ===== *)
(** * Serial output on x86-64 (coreinit/serial_x86_64.c)

    The driver of the 16550 at COM1, over a model of that UART. *)

From S2P Require Import Prelude StateM Serial.

Definition COM1 : Z := 0x3F8.

Record uart := { ier : Z; fcr : Z; lcr : Z; mcr : Z; divisor_low : Z; divisor_high : Z; tx : transmitter }.

Definition dlab (u : uart) : bool := Z.testbit (lcr u) 7.
Definition depth (u : uart) : nat := if Z.testbit (fcr u) 0 then 16%nat else 1%nat.

Definition set_tx (t : transmitter) (u : uart) : uart :=
  {| ier := ier u; fcr := fcr u; lcr := lcr u; mcr := mcr u; divisor_low := divisor_low u;
     divisor_high := divisor_high u; tx := t |}.

(** A byte written to register [r]: with DLAB set the first two are the
    divisor; bit 2 of the FIFO control register empties the queue. *)
Definition write_reg (r v : Z) (u : uart) : uart :=
  let t := tx u in
  match r with
  | 0 => if dlab u then {| ier := ier u; fcr := fcr u; lcr := lcr u; mcr := mcr u; divisor_low := v;
                           divisor_high := divisor_high u; tx := t |}
         else set_tx (enqueue (depth u) v t) u
  | 1 => if dlab u then {| ier := ier u; fcr := fcr u; lcr := lcr u; mcr := mcr u; divisor_low := divisor_low u;
                           divisor_high := v; tx := t |}
         else {| ier := v; fcr := fcr u; lcr := lcr u; mcr := mcr u; divisor_low := divisor_low u;
                 divisor_high := divisor_high u; tx := t |}
  | 2 => {| ier := ier u; fcr := v; lcr := lcr u; mcr := mcr u; divisor_low := divisor_low u;
            divisor_high := divisor_high u;
            tx := if Z.testbit v 2 then {| t_clock := t_clock t; t_fifo := []; t_wire := t_wire t |} else t |}
  | 3 => {| ier := ier u; fcr := fcr u; lcr := v; mcr := mcr u; divisor_low := divisor_low u;
            divisor_high := divisor_high u; tx := t |}
  | 4 => {| ier := ier u; fcr := fcr u; lcr := lcr u; mcr := v; divisor_low := divisor_low u;
            divisor_high := divisor_high u; tx := t |}
  | _ => u
  end.

Section driver.
Context `{Line}.

Definition outb (port v : Z) : M uart unit :=
  modify (fun u => write_reg (port - COM1) (v mod 256) (set_tx (elapse (tx u)) u)).

(** Of the registers, the driver reads the line status only: bit 5 says that
    the queue is empty. *)
Definition inb (port : Z) : M uart Z := fun u =>
  let others := noise (t_clock (tx u)) mod 256 in
  let u := set_tx (elapse (tx u)) u in
  if port - COM1 =? 5 then Some (u, status_bit 5 (bool_decide (t_fifo (tx u) = [])) others) else None.

Definition serial_init : M uart unit :=
  _ ← outb (COM1 + 1) 0x00;
  _ ← outb (COM1 + 3) 0x80;
  _ ← outb (COM1 + 0) 0x01;
  _ ← outb (COM1 + 1) 0x00;
  _ ← outb (COM1 + 3) 0x03;
  _ ← outb (COM1 + 2) 0xC7;
  outb (COM1 + 4) 0x0B.

Definition transmit_empty : M uart Z := v ← inb (COM1 + 5); mret (Z.land v 0x20).

Definition putc (n : nat) (c : Z) : M uart unit :=
  _ ← poll_until (r ← transmit_empty; mret (negb (r =? 0))) n; outb COM1 (c mod 256).
End driver.
