(* ===== verification/SerialLine.v ===== *)
(** * The serial drivers send what they are given

    The drivers of AArch64 and of x86-64 keep the promise of [Transmits]. *)

From Stdlib Require Import String.
From S2P Require Import Prelude Bits StateM Serial SerialSpec SerialArm SerialX86.

(** ** The drivers *)

Lemma status_bit_clear bit b others : 0 <= bit -> (Z.land (status_bit bit b others) (Z.shiftl 1 bit) =? 0) = negb b.
Proof.
  intros Hbit. rewrite Z.shiftl_1_l, land_bit_zero by done. f_equal. unfold status_bit. rewrite Z.shiftl_1_l.
  destruct b; [by rewrite Z.lor_spec, Z.pow2_bits_true, orb_true_r|].
  by rewrite Z.land_spec, Z.lnot_spec, Z.pow2_bits_true, andb_false_r by done.
Qed.

Section arm.
Context `{LiveLine}.
Import SerialArm.

(** The driver was told of the machine's UART, which was enabled. *)
Record arm_ready (s : serial) : Prop := {
  ar_ready : g_ready s = true;
  ar_base : g_pl011_base s = u_base (dev s);
  ar_kind : g_is_cadence s = u_cadence (dev s);
  ar_on : SerialArm.transmits (dev s) = true;
  ar_depth : (0 < u_depth (dev s))%nat
}.

Definition arm_out (s : serial) : list Z := sent (u_tx (dev s)).
Definition arm_tick (s : serial) : serial := set_dev (set_tx (elapse (u_tx (dev s))) (dev s)) s.

Lemma arm_tick_ready s : arm_ready s -> arm_ready (arm_tick s).
Proof. by intros [? ? ? ? ?]. Qed.

Lemma arm_iter_ready j s : arm_ready s -> arm_ready (Nat.iter j arm_tick s) /\
  arm_out (Nat.iter j arm_tick s) = arm_out s /\
  u_tx (dev (Nat.iter j arm_tick s)) = Nat.iter j elapse (u_tx (dev s)).
Proof.
  intros Hs. induction j as [|j (IH1 & IH2 & IH3)]; [done|]. cbn [Nat.iter nat_rect].
  fold (Nat.iter j arm_tick s) (Nat.iter j elapse (u_tx (dev s))). split_and!; [by apply arm_tick_ready| |].
  - rewrite <- IH2. unfold arm_out, arm_tick. cbn. apply elapse_sent.
  - rewrite <- IH3. done.
Qed.

Lemma arm_look s : arm_ready s -> transmit_ready s = Some (arm_tick s, negb (full (dev (arm_tick s)))).
Proof.
  intros [Hr Hb Hk _ _]. unfold transmit_ready, mbind, M_bind, get, mmio_read32. rewrite Hb, Hk. cbn [u_base set_tx].
  destruct (u_cadence (dev s)) eqn:E; cbn [CADENCE_SR PL011_FR]; rewrite Z.add_simpl_l; cbn -[status_bit full];
    rewrite E; cbn -[status_bit full]; unfold mret, M_ret; fold (arm_tick s); do 2 f_equal.
  - by apply (status_bit_clear 4).
  - by apply (status_bit_clear 5).
Qed.

Definition arm_push (c : Z) (s : serial) : serial :=
  set_dev (set_tx (enqueue (u_depth (dev s)) c (elapse (u_tx (dev s)))) (dev s)) s.

(** A write to the data register, of a byte that was sign-extended. *)
Lemma arm_write s c :
  arm_ready s -> is_byte c ->
  mmio_write32 (g_pl011_base s + (if g_is_cadence s then CADENCE_FIFO else PL011_DR))
    (u32 (if c <? 128 then c else c - 256)) s = Some (arm_push c s, tt).
Proof.
  intros [Hr Hb Hk Hon _] Hc. rewrite Hb, Hk. unfold mmio_write32, arm_push. cbv zeta. cbn [u_base set_tx u_cadence].
  rewrite Z.add_simpl_l, Z.eqb_refl.
  assert (u32 (if c <? 128 then c else c - 256) mod 256 = c) as Ec.
  { unfold u32. rewrite Z.mod_mod_divide by (by exists 16777216). unfold is_byte in Hc.
    destruct (c <? 128); [by apply Z.mod_small|]. rewrite <- (Z.mod_add (c - 256) 1) by lia. rewrite Z.mod_small; lia. }
  rewrite Ec. change (SerialArm.transmits (set_tx (elapse (u_tx (dev s))) (dev s))) with (SerialArm.transmits (dev s)).
  rewrite Hon. destruct (u_cadence (dev s)); reflexivity.
Qed.

#[export] Instance arm_transmits : Transmits SerialArm.putc arm_ready arm_out.
Proof.
  intros s c Hs Hc. destruct (line_drains (u_tx (dev s))) as [k Hk].
  destruct (poll_until_returns transmit_ready arm_tick (fun s => negb (full (dev s))) arm_ready
              arm_tick_ready arm_look k s Hs) as (j & Hj & Hp).
  { destruct (arm_iter_ready (Datatypes.S k) s Hs) as (Hr & _ & E). unfold full. rewrite E, Hk.
    rewrite negb_involutive, bool_decide_eq_true. exact (ar_depth _ Hr). }
  destruct (arm_iter_ready j s Hs) as (Hs1 & Ho1 & _). set (s1 := Nat.iter j arm_tick s) in *.
  exists (Datatypes.S k), (arm_push c s1). split_and!.
  - by destruct Hs1.
  - unfold arm_out at 1, arm_push. cbn [dev u_tx set_dev set_tx]. rewrite enqueue_sent.
    + rewrite elapse_sent, <- Ho1. done.
    + unfold full in Hj. rewrite negb_involutive, bool_decide_eq_true in Hj. unfold elapse.
      cbn [t_fifo]. rewrite length_drop. lia.
  - intros n' Hn'. unfold SerialArm.putc, mbind, M_bind, get. rewrite (ar_ready s Hs). cbn [negb].
    rewrite (Hp n' Hn'). by apply arm_write.
Qed.
End arm.

Section x86.
Context `{LiveLine}.
Import SerialX86.

Definition x86_ready (u : uart) : Prop := dlab u = false.
Definition x86_out (u : uart) : list Z := sent (tx u).
Definition x86_tick (u : uart) : uart := set_tx (elapse (tx u)) u.

Lemma x86_iter_ready j u : x86_ready u -> x86_ready (Nat.iter j x86_tick u) /\
  x86_out (Nat.iter j x86_tick u) = x86_out u /\ tx (Nat.iter j x86_tick u) = Nat.iter j elapse (tx u).
Proof.
  intros Hu. induction j as [|j (IH1 & IH2 & IH3)]; [done|]. cbn [Nat.iter nat_rect].
  fold (Nat.iter j x86_tick u) (Nat.iter j elapse (tx u)). split_and!; [done| |by rewrite <- IH3].
  rewrite <- IH2. unfold x86_out, x86_tick. cbn. apply elapse_sent.
Qed.

Lemma x86_look u :
  (r ← transmit_empty; mret (negb (r =? 0))) u = Some (x86_tick u, bool_decide (t_fifo (tx (x86_tick u)) = [])).
Proof.
  unfold transmit_empty, inb, mbind, M_bind, mret, M_ret. rewrite Z.add_simpl_l. cbn [Z.eqb Pos.eqb].
  fold (x86_tick u). rewrite (status_bit_clear 5) by lia. by rewrite negb_involutive.
Qed.

#[export] Instance x86_transmits : Transmits SerialX86.putc x86_ready x86_out.
Proof.
  intros u c Hu Hc. destruct (line_drains (tx u)) as [k Hk].
  destruct (poll_until_returns (r ← transmit_empty; mret (negb (r =? 0))) x86_tick
              (fun u => bool_decide (t_fifo (tx u) = [])) x86_ready (fun u Hu => Hu) (fun u _ => x86_look u) k u Hu) as (j & Hj & Hp).
  { destruct (x86_iter_ready (Datatypes.S k) u Hu) as (_ & _ & E). by rewrite E, bool_decide_eq_true. }
  destruct (x86_iter_ready j u Hu) as (Hu1 & Ho1 & _). set (u1 := Nat.iter j x86_tick u) in *.
  exists (Datatypes.S k), (set_tx (enqueue (depth u1) c (elapse (tx u1))) u1). split_and!.
  - done.
  - unfold x86_out at 1. cbn [tx set_tx]. rewrite enqueue_sent; [by rewrite elapse_sent, <- Ho1|].
    rewrite bool_decide_eq_true in Hj. unfold elapse. cbn [t_fifo]. rewrite Hj, drop_nil. unfold depth. cbn.
    case_match; lia.
  - intros n' Hn'. unfold SerialX86.putc. unfold mbind at 1, M_bind at 1. rewrite (Hp n' Hn').
    unfold outb, modify. rewrite Z.sub_diag, Z.mod_mod, (Z.mod_small c) by done. unfold write_reg. cbv zeta.
    change (dlab (set_tx (elapse (tx u1)) u1)) with (dlab u1). rewrite Hu1. done.
Qed.
End x86.

(** ** Set-up *)

Section init.
Context `{LiveLine}.

Import SerialArm.

(** The driver writes a register that is not the data register. *)
Definition arm_set (r v : Z) (s : serial) : serial := set_dev (set_reg r v (set_tx (elapse (u_tx (dev s))) (dev s))) s.

Lemma arm_set_reg r v s :
  0 <= r < 0x1000 -> r <> (if u_cadence (dev s) then CADENCE_FIFO else PL011_DR) ->
  u_cadence (dev s) = true \/ Z.testbit (u_regs (dev s) PL011_CR) 0 = false \/ r = PL011_CR \/ r = PL011_IMSC ->
  mmio_write32 (u_base (dev s) + r) v s = Some (arm_set r v s, tt).
Proof.
  intros Hr Hne Hc. unfold mmio_write32, arm_set. cbv zeta. cbn [u_base set_tx u_cadence u_regs u_depth].
  rewrite Z.add_simpl_l, (proj2 (Z.leb_le _ _)), (proj2 (Z.ltb_lt _ _)) by lia. cbn [andb].
  rewrite (proj2 (Z.eqb_neq _ _)) by done.
  destruct Hc as [->|[->|[->| ->]]]; cbn [negb andb]; rewrite ?andb_false_r; done.
Qed.

Lemma arm_set_out r v s : arm_out (arm_set r v s) = arm_out s.
Proof. unfold arm_out. apply elapse_sent. Qed.

(** A PL011 is set to 115200 baud at 24 MHz, eight bits, no interrupts, with
    its queues, and enabled last. *)
Lemma pl011_configured s :
  u_cadence (dev s) = false -> (0 < u_depth (dev s))%nat ->
  exists s', serial_aarch64_set_base (u_base (dev s)) s = Some (s', tt) /\ arm_ready s' /\ arm_out s' = arm_out s /\
    map (u_regs (dev s')) [PL011_IBRD; PL011_FBRD; PL011_LCR_H; PL011_IMSC] = [13; 1; 0x70; 0].
Proof.
  intros Hk Hd. unfold serial_aarch64_set_base, mbind, M_bind, modify at 1. set (s0 := set_driver _ _ _ s).
  change (u_base (dev s)) with (u_base (dev s0)).
  rewrite (arm_set_reg PL011_CR) by (cbn; rewrite ?Hk; auto; done). set (s1 := arm_set PL011_CR 0 s0).
  change (u_base (dev s0)) with (u_base (dev s1)). rewrite (arm_set_reg PL011_IBRD) by (cbn; rewrite ?Hk; auto; done).
  set (s2 := arm_set PL011_IBRD _ s1).
  change (u_base (dev s1)) with (u_base (dev s2)). rewrite (arm_set_reg PL011_FBRD) by (cbn; rewrite ?Hk; auto; done).
  set (s3 := arm_set PL011_FBRD _ s2).
  change (u_base (dev s2)) with (u_base (dev s3)). rewrite (arm_set_reg PL011_LCR_H) by (cbn; rewrite ?Hk; auto; done).
  set (s4 := arm_set PL011_LCR_H _ s3).
  change (u_base (dev s3)) with (u_base (dev s4)). rewrite (arm_set_reg PL011_IMSC) by (cbn; rewrite ?Hk; auto; done).
  set (s5 := arm_set PL011_IMSC _ s4).
  change (u_base (dev s4)) with (u_base (dev s5)). rewrite (arm_set_reg PL011_CR) by (cbn; rewrite ?Hk; auto; done).
  set (s6 := arm_set PL011_CR _ s5).
  eexists. split; [reflexivity|]. split_and!.
  - split; [done|done|by cbn; rewrite Hk| |done]. unfold SerialArm.transmits. cbn. by rewrite Hk.
  - change (arm_out (set_driver ?a ?b ?c s6)) with (arm_out s6).
    unfold s6, s5, s4, s3, s2, s1. by rewrite !arm_set_out.
  - done.
Qed.

Lemma cadence_control v : let c := Z.lor (Z.land v (u32 (Z.lnot 40))) 16 in Z.testbit c 4 && negb (Z.testbit c 5) = true.
Proof.
  cbv zeta. rewrite !Z.lor_spec, !Z.land_spec. change (Z.testbit 16 4) with true. change (Z.testbit 16 5) with false.
  change (Z.testbit (u32 (Z.lnot 40)) 5) with false. by rewrite andb_false_r, orb_true_r.
Qed.

(** A Cadence UART has its transmitter enabled. *)
Lemma cadence_configured s :
  u_cadence (dev s) = true -> (0 < u_depth (dev s))%nat ->
  exists s', serial_aarch64_set_cadence_base (u_base (dev s)) s = Some (s', tt) /\ arm_ready s' /\ arm_out s' = arm_out s.
Proof.
  intros Hk Hd. unfold serial_aarch64_set_cadence_base, mbind, M_bind, modify at 1. set (s0 := set_driver _ _ _ s).
  unfold mmio_read32. cbn [u_base set_tx dev s0 set_driver]. rewrite Z.add_simpl_l. cbn -[arm_set elapse Z.land Z.lor mmio_write32 Z.add].
  rewrite Hk. cbn -[arm_set elapse Z.land Z.lor mmio_write32 Z.add].
  set (s1 := set_dev _ s0). change (u_base (dev s)) with (u_base (dev s1)).
  rewrite (arm_set_reg CADENCE_CR) by (cbn; rewrite ?Hk; auto; done). eexists. split; [reflexivity|]. split.
  - split; [done|done|by cbn; rewrite Hk| |done]. unfold SerialArm.transmits. cbn -[Z.land Z.lor Z.testbit]. rewrite Hk.
    apply cadence_control.
  - unfold arm_out. cbn -[elapse]. by rewrite !elapse_sent.
Qed.

Import SerialX86.

(** The 16550 is set to 115200 baud, eight bits, with its queues; no byte of
    the set-up is taken for data. *)
Lemma ns16550_configured u :
  exists u', serial_init u = Some (u', tt) /\ x86_ready u' /\
    [divisor_low u'; divisor_high u'; lcr u'] = [1; 0; 3] /\ depth u' = 16%nat /\
    x86_out u' = t_wire (Nat.iter 6 elapse (tx u)).
Proof.
  assert (exists a b c, write_reg (COM1 + 1 - COM1) (0 mod 256) (set_tx (elapse (tx u)) u) =
    {| ier := a; fcr := fcr u; lcr := lcr u; mcr := mcr u; divisor_low := b; divisor_high := c; tx := elapse (tx u) |})
    as (a & b & c & E) by (unfold write_reg; cbn -[elapse dlab]; destruct (dlab _); by repeat eexists).
  unfold serial_init, mbind, M_bind, outb, modify. rewrite E. eexists. split; [reflexivity|].
  split_and!; [done..|]. unfold x86_out. cbv -[elapse sent t_wire t_clock t_fifo]. rewrite elapse_sent.
  unfold sent. by rewrite app_nil_r.
Qed.
End init.

(** ** A line is printed *)

(** C15: The text that a driver which has just been set up is given to print goes
    out whole and in order: from any state of a PL011 or Cadence UART, and
    of the 16550, when the transmitter keeps on shifting bytes out, setting
    the UART up and printing a format with its arguments ends after finitely
    many looks at the status, and has added to what was sent exactly the
    core's tag and a text that spells the pieces of the format: its literal
    text with CR LF line ends and every number as its numeral. *)
Theorem kprintf_printed `{LiveLine} core_tag ps beyond ap :
  Forall piece_ok ps ->
  (forall s, (0 < SerialArm.u_depth (SerialArm.dev s))%nat ->
    exists text n s', prints ps text /\ arm_out s' = arm_out s ++ tag_text core_tag ++ text /\
      forall n', (n <= n')%nat ->
        (_ ← (if SerialArm.u_cadence (SerialArm.dev s)
              then SerialArm.serial_aarch64_set_cadence_base (SerialArm.u_base (SerialArm.dev s))
              else SerialArm.serial_aarch64_set_base (SerialArm.u_base (SerialArm.dev s)));
         kvprintf (SerialArm.putc n') core_tag (formats ps ++ 0 :: beyond) (arguments ps ++ ap)) s = Some (s', tt)) /\
  (forall u, exists text n u', prints ps text /\
      x86_out u' = t_wire (Nat.iter 6 elapse (SerialX86.tx u)) ++ tag_text core_tag ++ text /\
      forall n', (n <= n')%nat ->
        (_ ← SerialX86.serial_init;
         kvprintf (SerialX86.putc n') core_tag (formats ps ++ 0 :: beyond) (arguments ps ++ ap)) u = Some (u', tt)).
Proof.
  intros Hps. split.
  - intros s Hd.
    assert (exists s1, (if SerialArm.u_cadence (SerialArm.dev s)
        then SerialArm.serial_aarch64_set_cadence_base (SerialArm.u_base (SerialArm.dev s))
        else SerialArm.serial_aarch64_set_base (SerialArm.u_base (SerialArm.dev s))) s = Some (s1, tt) /\
        arm_ready s1 /\ arm_out s1 = arm_out s) as (s1 & E1 & Hs1 & Ho1).
    { destruct (SerialArm.u_cadence (SerialArm.dev s)) eqn:E; [by apply cadence_configured|].
      destruct (pl011_configured s E Hd) as (s1 & ? & ? & ? & _). by exists s1. }
    destruct (transmits_text core_tag ps beyond ap s1 Hs1 Hps) as (text & n & s' & Hp & _ & Ho & Hn).
    exists text, n, s'. rewrite <- Ho1. split_and!; [done..|]. intros n' Hn'. unfold mbind, M_bind. rewrite E1. by apply Hn.
  - intros u. destruct (ns16550_configured u) as (u1 & E1 & Hu1 & _ & _ & Ho1).
    destruct (transmits_text core_tag ps beyond ap u1 Hu1 Hps) as (text & n & u' & Hp & _ & Ho & Hn).
    exists text, n, u'. rewrite <- Ho1. split_and!; [done..|]. intros n' Hn'. unfold mbind, M_bind. rewrite E1. by apply Hn.
Qed.

Definition slow_line : Line := {| shifted := fun t => if Nat.even t then 1%nat else 0%nat; noise := fun t => Z.of_nat t |}.

#[export] Instance slow_line_live : @LiveLine slow_line.
Proof.
  intros t. destruct (Nat.even t) eqn:E; [exists t|exists (S t)]; cbn -[Nat.even]; rewrite ?Nat.even_succ, <- ?Nat.negb_even, E; cbn; lia.
Qed.

Lemma kprintf_printed_witness :
  let ps := [Lit (str "n="); Uns 42; Lit (str " 0x"); LHex true 3735928559; Lit [10]] in
  Forall piece_ok ps /\
  exists text n u', prints ps text /\
    x86_out u' = str "ok" ++ str "[3] " ++ text /\
    forall n', (n <= n')%nat ->
      (_ ← SerialX86.serial_init (H := slow_line);
       kvprintf (SerialX86.putc (H := slow_line) n') (Some 3) (formats ps ++ 0 :: []) (arguments ps ++ []))
        {| SerialX86.ier := 0; SerialX86.fcr := 0; SerialX86.lcr := 0; SerialX86.mcr := 0; SerialX86.divisor_low := 0;
           SerialX86.divisor_high := 0; SerialX86.tx := {| t_clock := 0; t_fifo := []; t_wire := str "ok" |} |} = Some (u', tt).
Proof.
  intros ps. assert (Forall piece_ok ps) as Hps.
  { unfold ps. repeat constructor; cbn; lia. }
  split; [exact Hps|].
  exact (proj2 (@kprintf_printed slow_line slow_line_live (Some 3) ps [] [] Hps)
    {| SerialX86.ier := 0; SerialX86.fcr := 0; SerialX86.lcr := 0; SerialX86.mcr := 0; SerialX86.divisor_low := 0;
       SerialX86.divisor_high := 0; SerialX86.tx := {| t_clock := 0; t_fifo := []; t_wire := str "ok" |} |}).
Defined.

(** ** Where the code falls short *)

(** A format that ends in a lone [%]: the terminator is taken for the
    conversion and printed, and the loop goes on behind it. *)
Theorem lone_percent_reads_on {S} (putc : Z -> M S unit) beyond ap s :
  format_loop putc (37 :: 0 :: beyond) ap s = (_ ← (_ ← putc 37; putc 0); format_loop putc beyond ap) s.
Proof. reflexivity. Qed.

(** [serial_init] on a UART that is known takes it for a PL011, also when it
    is a Cadence one; its data register is then the control register. *)
Theorem serial_init_forgets_cadence `{Line} s s' :
  SerialArm.g_pl011_base s <> 0 -> SerialArm.serial_init s = Some (s', tt) -> SerialArm.g_is_cadence s' = false.
Proof.
  intros Hb. unfold SerialArm.serial_init, mbind, M_bind, get. rewrite (proj2 (Z.eqb_neq _ _)) by done.
  unfold SerialArm.serial_aarch64_set_base, mbind, M_bind, modify. generalize (SerialArm.g_pl011_base s). intros b.
  assert (forall a v t t', SerialArm.mmio_write32 a v t = Some (t', tt) -> SerialArm.g_is_cadence t' = SerialArm.g_is_cadence t) as Hw.
  { intros a v t t'. unfold SerialArm.mmio_write32. cbv zeta. case_match; [|done]. by intros [= <-]. }
  repeat match goal with |- context [SerialArm.mmio_write32 ?a ?v ?t] =>
    let E := fresh "E" in destruct (SerialArm.mmio_write32 a v t) as [[? []]|] eqn:E; [apply Hw in E|done] end.
  intros [= <-]. cbn in *. congruence.
Qed.
