(* ===== verification/Console.v ===== *)
(** * Printing from jobs (job_kprintf of coreinit/coreinit.c)

    A job prints a line while it holds a reservation of the shared serial
    resource, so that the lines of jobs on several cores do not mix.  The
    operations, and the system of all cores that print, with one step per
    kernel call, per look at the UART's status and per byte written. *)

From S2P Require Import Prelude Capnp Objects Client Serial SerialSpec.

(** ** job_kprintf *)

Section job_kprintf.
Context {W : Type} (g_kernel_invoke : invoke_fn W) (g_serial_resource : Z).

(** The reservation of the serial resource. *)
Definition kprintf_reserve (self_job_id : Z) (w : W) : W * bool :=
  let '(w, (ok, resp)) := g_kernel_invoke g_serial_resource RESOURCE_METHOD_RESERVE (reply 24 [self_job_id]) 24 w in
  (w, ok && (response_len resp >=? 24) && negb (word (response_words resp) 0 =? 0)).

Definition kprintf_release (self_job_id : Z) (w : W) : W :=
  fst (g_kernel_invoke g_serial_resource RESOURCE_METHOD_RELEASE_RESERVATION (reply 24 [self_job_id]) 24 w).

(** [print]: [kvprintf] on the format and the arguments. *)
Definition job_kprintf (self_job_id : Z) (print : M W unit) : M W unit := fun w =>
  if g_serial_resource =? 0 then print w else
  let '(w, reserved) := kprintf_reserve self_job_id w in
  if negb reserved then Some (w, tt) else
  match print w with
  | Some (w, _) => Some (kprintf_release self_job_id w, tt)
  | None => None
  end.
End job_kprintf.

(** ** The resource behind the kernel

    What job_kprintf relies on: a call on the resource's handle with a
    message of one word runs the resource's handler. *)
Class ServesResource {W : Type} (invoke : invoke_fn W) (h : Z)
    (resource : W -> resource_data_t) (put_resource : resource_data_t -> W -> W) : Prop := {
  serves_resource m j cap w :
    invoke h m (Some [j]) cap w =
    (let '(r, a) := resource_handler (resource w) m [j] cap in (put_resource r w, (true, a)));
  get_put r w : resource (put_resource r w) = r
}.

Section served.
Context {W : Type} (invoke : invoke_fn W) (h : Z) `{!ServesResource invoke h resource put_resource}.

Lemma reserve_served j w :
  j <> 0 ->
  let r := resource w in
  kprintf_reserve invoke h j w =
  if r_reserved_by r =? j then (put_resource r w, true)
  else if r_reserved_by r =? 0 then (put_resource (set_reserved_by j r) w, true)
  else (put_resource r w, false).
Proof.
  intros Hj r. unfold kprintf_reserve. change (reply 24 [j]) with (Some [j]). rewrite serves_resource.
  unfold resource_handler. fold r. change (word [j] 0) with j. cbn [Z.eqb Pos.eqb RESOURCE_METHOD_RESERVE RESOURCE_METHOD_GET_INFO].
  destruct (r_reserved_by r =? j); [done|]. by destruct (r_reserved_by r =? 0).
Qed.

Lemma serial_release_served j w :
  let r := resource w in
  kprintf_release invoke h j w = put_resource (if r_reserved_by r =? j then set_reserved_by 0 r else r) w.
Proof.
  intros r. unfold kprintf_release. change (reply 24 [j]) with (Some [j]). rewrite serves_resource.
  unfold resource_handler. fold r. change (word [j] 0) with j.
  change (RESOURCE_METHOD_RELEASE_RESERVATION =? RESOURCE_METHOD_GET_INFO) with false.
  change (RESOURCE_METHOD_RELEASE_RESERVATION =? RESOURCE_METHOD_RESERVE) with false. cbn [Z.eqb Pos.eqb].
  by destruct (r_reserved_by r =? j).
Qed.
End served.

(** ** All cores *)

(** What a core does: nothing, or it is inside [job_kprintf] between its
    reservation and its release, with the first [done] characters of its text
    written; [armed]: the last look at the status said that there is room. *)
Inductive printer := Quiet | Printing (text : list Z) (done : nat) (armed : bool).

Record console := { res : resource_data_t; line : transmitter; cores : list printer }.

Definition set_res (r : resource_data_t) (s : console) : console := {| res := r; line := line s; cores := cores s |}.
Definition set_line (t : transmitter) (s : console) : console := {| res := res s; line := t; cores := cores s |}.
Definition set_core (c : nat) (p : printer) (s : console) : console :=
  {| res := res s; line := line s; cores := <[c := p]> (cores s) |}.

(** [k] bytes are shifted out. *)
Definition shift (k : nat) (t : transmitter) : transmitter :=
  {| t_clock := t_clock t; t_fifo := drop k (t_fifo t); t_wire := t_wire t ++ take k (t_fifo t) |}.

Section system.
Context (invoke : invoke_fn console) (h : Z) `{!ServesResource invoke h res set_res}.
(** The UART: the depth of its queue, and whether its status reports room
    only when the queue is empty (the 16550 does). *)
Context (depth : nat) (only_empty : bool).
(** The job each core runs. *)
Context (jobs : list Z).

Definition has_room (t : transmitter) : bool :=
  if only_empty then bool_decide (t_fifo t = []) else bool_decide (length (t_fifo t) < depth)%nat.

(** A step, with the lines it completes.  The last rule is a request of the
    resource's other users. *)
Inductive console_step : console -> list (list Z) -> console -> Prop :=
  | step_begin c j text s s' :
      cores s !! c = Some Quiet -> jobs !! c = Some j -> kprintf_reserve invoke h j s = (s', true) ->
      console_step s [] (set_core c (Printing text 0 false) s')
  | step_skip c j s s' :
      cores s !! c = Some Quiet -> jobs !! c = Some j -> kprintf_reserve invoke h j s = (s', false) ->
      console_step s [] s'
  | step_look c text done s :
      cores s !! c = Some (Printing text done false) -> (done < length text)%nat ->
      console_step s [] (set_core c (Printing text done (has_room (line s))) s)
  | step_write c text done b s :
      cores s !! c = Some (Printing text done true) -> text !! done = Some b ->
      console_step s [] (set_core c (Printing text (S done) false) (set_line (enqueue depth b (line s)) s))
  | step_end c j text s :
      cores s !! c = Some (Printing text (length text) false) -> jobs !! c = Some j ->
      console_step s [text] (set_core c Quiet (kprintf_release invoke h j s))
  | step_shift k s : console_step s [] (set_line (shift k (line s)) s)
  | step_other m ws cap s :
      (m = RESOURCE_METHOD_RESERVE \/ m = RESOURCE_METHOD_RELEASE_RESERVATION -> word ws 0 ∉ jobs) ->
      console_step s [] (set_res (fst (resource_handler (res s) m ws cap)) s).

(** Executions, with the lines completed so far. *)
Inductive console_runs (s0 : console) : list (list Z) -> console -> Prop :=
  | runs_start : console_runs s0 [] s0
  | runs_step ls s l s' : console_runs s0 ls s -> console_step s l s' -> console_runs s0 (ls ++ l) s'.

Definition is_printing (p : printer) : bool := match p with Printing _ _ _ => true | Quiet => false end.

(** Nobody prints, or one core does and holds the reservation. *)
Inductive console_inv (sent0 : list Z) (ls : list (list Z)) (s : console) : Prop :=
  | inv_quiet :
      (forall c p, cores s !! c = Some p -> p = Quiet) -> r_reserved_by (res s) ∉ jobs ->
      sent (line s) = sent0 ++ concat ls -> console_inv sent0 ls s
  | inv_printing c j text done armed :
      cores s !! c = Some (Printing text done armed) -> jobs !! c = Some j -> r_reserved_by (res s) = j ->
      (forall c' p, c' <> c -> cores s !! c' = Some p -> p = Quiet) ->
      (armed = true -> (length (t_fifo (line s)) < depth)%nat) ->
      sent (line s) = sent0 ++ concat ls ++ take done text -> console_inv sent0 ls s.

Hypothesis Hjobs : NoDup jobs.
Hypothesis Hnz : 0 ∉ jobs.
Hypothesis Hdepth : (0 < depth)%nat.

Lemma shift_sent k t : sent (shift k t) = sent t.
Proof. unfold sent, shift. cbn. by rewrite <- app_assoc, take_drop. Qed.

Lemma has_room_spec t : has_room t = true -> (length (t_fifo t) < depth)%nat.
Proof.
  unfold has_room. destruct only_empty; rewrite bool_decide_eq_true; [|done]. intros ->. by cbn.
Qed.

(** A request of somebody else's job leaves a reservation of ours alone, and
    does not make one. *)
Lemma other_request m ws cap r :
  (m = RESOURCE_METHOD_RESERVE \/ m = RESOURCE_METHOD_RELEASE_RESERVATION -> word ws 0 ∉ jobs) ->
  let r' := fst (resource_handler r m ws cap) in
  (r_reserved_by r ∈ jobs -> r_reserved_by r' = r_reserved_by r) /\ (r_reserved_by r ∉ jobs -> r_reserved_by r' ∉ jobs).
Proof.
  intros Hm r'. unfold r', resource_handler.
  destruct (Z.eqb_spec m RESOURCE_METHOD_GET_INFO) as [->|_]; [done|].
  destruct (Z.eqb_spec m RESOURCE_METHOD_RESERVE) as [->|_].
  { specialize (Hm (or_introl eq_refl)). destruct (r_reserved_by r =? word ws 0); [done|].
    destruct (Z.eqb_spec (r_reserved_by r) 0) as [E|]; [|done]. cbn. split; [|done]. rewrite E. done. }
  destruct (Z.eqb_spec m RESOURCE_METHOD_RELEASE_RESERVATION) as [->|_].
  { specialize (Hm (or_intror eq_refl)). destruct (Z.eqb_spec (r_reserved_by r) (word ws 0)) as [E|]; [|done].
    cbn. split; [|done]. rewrite E. done. }
  destruct (m =? RESOURCE_METHOD_REASSIGN); [|done]. by destruct (r_reserved_by r =? 0).
Qed.

Lemma jobs_distinct c c' j : jobs !! c = Some j -> jobs !! c' = Some j -> c = c'.
Proof. intros H1 H2. exact (NoDup_lookup _ _ _ _ Hjobs H1 H2). Qed.

(** A core other than the one that prints is not printing. *)
Lemma only_printer s c p c' text done armed :
  (forall c' p, c' <> c -> cores s !! c' = Some p -> p = Quiet) -> cores s !! c = Some p ->
  cores s !! c' = Some (Printing text done armed) -> c' = c /\ p = Printing text done armed.
Proof.
  intros Ho Hc Hc'. destruct (decide (c' = c)) as [->|NE]; [split; congruence|]. by apply Ho in Hc'.
Qed.

Lemma quiet_after c p (l : list printer) :
  (forall c' q, c' <> c -> l !! c' = Some q -> q = Quiet) ->
  forall c' q, c' <> c -> <[c := p]> l !! c' = Some q -> q = Quiet.
Proof. intros Hl c' q NE. rewrite list_lookup_insert_ne by done. by apply Hl. Qed.

Lemma job_nz c j : jobs !! c = Some j -> j <> 0.
Proof. intros Hj ->. apply Hnz. by eapply list_elem_of_lookup_2. Qed.

Lemma begin_inv sent0 ls s c j text s' :
  console_inv sent0 ls s -> cores s !! c = Some Quiet -> jobs !! c = Some j ->
  kprintf_reserve invoke h j s = (s', true) -> console_inv sent0 ls (set_core c (Printing text 0 false) s').
Proof.
  intros Hinv Hc Hj Hr. rewrite (reserve_served invoke h) in Hr by by eapply job_nz. cbv zeta in Hr.
  destruct Hinv as [Hq Hn Hs|c0 j0 text0 done0 armed0 Hc0 Hj0 Hres Ho Ha Hs].
  - destruct (Z.eqb_spec (r_reserved_by (res s)) j) as [E|_].
    { destruct Hn. rewrite E. by eapply list_elem_of_lookup_2. }
    destruct (r_reserved_by (res s) =? 0); [|congruence]. injection Hr as <-.
    eapply (inv_printing _ _ _ c j text 0 false); cbn; [|done..| |done|by rewrite take_0, app_nil_r].
    + apply list_lookup_insert_eq. by eapply lookup_lt_Some.
    + apply quiet_after. intros c' q _. apply Hq.
  - assert (c <> c0) by (intros ->; congruence). destruct (Z.eqb_spec (r_reserved_by (res s)) j) as [E|_].
    { assert (c = c0); [|done]. eapply jobs_distinct; [exact Hj|]. congruence. }
    destruct (Z.eqb_spec (r_reserved_by (res s)) 0) as [E|_]; [|congruence].
    destruct (job_nz _ _ Hj0). congruence.
Qed.

Lemma skip_inv sent0 ls s j s' :
  console_inv sent0 ls s -> j <> 0 -> kprintf_reserve invoke h j s = (s', false) -> console_inv sent0 ls s'.
Proof.
  intros Hinv Hj Hr. rewrite (reserve_served invoke h) in Hr by done. cbv zeta in Hr.
  destruct (r_reserved_by (res s) =? j); [done|]. destruct (r_reserved_by (res s) =? 0); [done|].
  injection Hr as <-. destruct Hinv; [by apply inv_quiet|by eapply inv_printing].
Qed.

Lemma look_inv sent0 ls s c text done :
  console_inv sent0 ls s -> cores s !! c = Some (Printing text done false) ->
  console_inv sent0 ls (set_core c (Printing text done (has_room (line s))) s).
Proof.
  intros Hinv Hc. destruct Hinv as [Hq Hn Hs|c0 j0 text0 done0 armed0 Hc0 Hj0 Hres Ho Ha Hs]; [by apply Hq in Hc|].
  destruct (only_printer _ _ _ _ _ _ _ Ho Hc0 Hc) as [-> [= -> -> ->]].
  eapply inv_printing; cbn; [|done..| |apply has_room_spec|done].
  - apply list_lookup_insert_eq. by eapply lookup_lt_Some.
  - by apply quiet_after.
Qed.

Lemma write_inv sent0 ls s c text done b :
  console_inv sent0 ls s -> cores s !! c = Some (Printing text done true) -> text !! done = Some b ->
  console_inv sent0 ls (set_core c (Printing text (S done) false) (set_line (enqueue depth b (line s)) s)).
Proof.
  intros Hinv Hc Hb. destruct Hinv as [Hq Hn Hs|c0 j0 text0 done0 armed0 Hc0 Hj0 Hres Ho Ha Hs]; [by apply Hq in Hc|].
  destruct (only_printer _ _ _ _ _ _ _ Ho Hc0 Hc) as [-> [= -> -> ->]].
  eapply (inv_printing _ _ _ c0 j0 text (S done) false); cbn; [|done..| |done|].
  - apply list_lookup_insert_eq. by eapply lookup_lt_Some.
  - by apply quiet_after.
  - by rewrite enqueue_sent, Hs, (take_S_r _ _ _ Hb), <- !app_assoc by auto.
Qed.

Lemma end_inv sent0 ls s c j text :
  console_inv sent0 ls s -> cores s !! c = Some (Printing text (length text) false) -> jobs !! c = Some j ->
  console_inv sent0 (ls ++ [text]) (set_core c Quiet (kprintf_release invoke h j s)).
Proof.
  intros Hinv Hc Hj. destruct Hinv as [Hq Hn Hs|c0 j0 text0 done0 armed0 Hc0 Hj0 Hres Ho Ha Hs]; [by apply Hq in Hc|].
  destruct (only_printer _ _ _ _ _ _ _ Ho Hc0 Hc) as [-> [= -> -> ->]].
  assert (r_reserved_by (res s) = j) as E by congruence.
  rewrite (serial_release_served invoke h). cbv zeta. rewrite E, Z.eqb_refl. apply inv_quiet; cbn; [|done|].
  - intros c' p. destruct (decide (c' = c0)) as [->|NE].
    + rewrite list_lookup_insert_eq by by eapply lookup_lt_Some. congruence.
    + rewrite list_lookup_insert_ne by done. by apply Ho.
  - rewrite Hs, take_ge, concat_app by done. cbn. by rewrite app_nil_r.
Qed.

Lemma console_step_inv sent0 ls s l s' :
  console_inv sent0 ls s -> console_step s l s' -> console_inv sent0 (ls ++ l) s'.
Proof.
  intros Hinv Hstep. destruct Hstep as [c j text s s1 Hc Hj Hr|c j s s1 Hc Hj Hr|c text done s Hc Hd|c text done b s Hc Hb|c j text s Hc Hj|k s|m ws cap s Hm];
    rewrite ?app_nil_r; eauto using begin_inv, skip_inv, look_inv, write_inv, end_inv, job_nz.
  - destruct Hinv as [Hq Hn Hs|c j text done armed Hc Hj Hres Ho Ha Hs].
    + apply inv_quiet; cbn -[sent shift]; [done..|]. by rewrite shift_sent.
    + eapply inv_printing; cbn -[sent shift]; [done..| |by rewrite shift_sent]. intros E. cbn. rewrite length_drop. specialize (Ha E). lia.
  - destruct (other_request m ws cap (res s) Hm) as [H1 H2].
    destruct Hinv as [Hq Hn Hs|c j text done armed Hc Hj Hres Ho Ha Hs].
    + apply inv_quiet; cbn; auto.
    + eapply inv_printing; cbn; [done..| |done|done|done]. rewrite H1; [done|]. rewrite Hres. by eapply list_elem_of_lookup_2.
Qed.

Lemma console_runs_inv s0 ls s :
  (forall c p, cores s0 !! c = Some p -> p = Quiet) -> r_reserved_by (res s0) ∉ jobs ->
  console_runs s0 ls s -> console_inv (sent (line s0)) ls s.
Proof.
  intros Hq Hr. induction 1 as [|ls s l s' _ IH Hstep]; [|by eapply console_step_inv].
  apply inv_quiet; [done..|]. by rewrite app_nil_r.
Qed.
End system.

(** C14: The lines of [job_kprintf] do not mix and lose no character: take any
    number of cores that each run one job, all different, starting with none
    of them printing, and any interleaving of their calls of [job_kprintf]
    (each a reservation, without which nothing is printed, a look at the
    status before every character, the characters, the release), of
    the UART shifting bytes out, and of requests that other jobs make of the
    resource.  Then at most one core is printing, and what was sent is the
    lines completed so far, whole and one after the other, followed by a
    prefix of the line of the core that is printing.  Prints that take no
    reservation, plain [kprintf], are not among these steps. *)
Theorem lines_do_not_mix invoke h `{!ServesResource invoke h res set_res} depth only_empty jobs s0 ls s :
  NoDup jobs -> 0 ∉ jobs -> (0 < depth)%nat ->
  (forall c p, cores s0 !! c = Some p -> p = Quiet) -> r_reserved_by (res s0) ∉ jobs ->
  console_runs invoke h depth only_empty jobs s0 ls s ->
  exists tail, sent (line s) = sent (line s0) ++ concat ls ++ tail /\
    ((forall c p, cores s !! c = Some p -> p = Quiet) /\ tail = [] \/
     exists c text done armed, cores s !! c = Some (Printing text done armed) /\ tail = take done text /\
       forall c' p, c' <> c -> cores s !! c' = Some p -> p = Quiet).
Proof.
  intros Hd Hz Hdep Hq Hr Hrun.
  destruct (console_runs_inv invoke h depth only_empty jobs Hd Hz Hdep s0 ls s Hq Hr Hrun)
    as [Hq' _ Hs|c j text done armed Hc _ _ Ho _ Hs].
  - exists []. rewrite app_nil_r. auto.
  - exists (take done text). split; [done|]. right. by exists c, text, done, armed.
Qed.

(** ** An instance *)

(** A kernel that knows the resource only, at handle 5. *)
Definition resource_invoke : invoke_fn console := fun target m msg cap s =>
  match msg with
  | Some [j] =>
      if target =? 5 then let '(r, a) := resource_handler (res s) m [j] cap in (set_res r s, (true, a))
      else (s, (false, None))
  | _ => (s, (false, None))
  end.

#[export] Instance resource_invoke_serves : ServesResource resource_invoke 5 res set_res.
Proof. by split. Qed.

Definition free_serial : resource_data_t :=
  {| r_owner_node := 0; r_kind := RESOURCE_KIND_PERIPHERAL; r_descriptor := 0; r_capacity := 0; r_reserved_by := 0;
     r_sync_kind := RESOURCE_SYNC_TRANSFER |}.

Definition demo_console : console :=
  {| res := free_serial; line := {| t_clock := 0; t_fifo := []; t_wire := [] |}; cores := [Quiet; Quiet] |}.

Ltac by_step := cbn; first [reflexivity | lia].
Tactic Notation "forward" hyp(R) uconstr(st) := eapply runs_step in R; [|eapply st; by_step]; cbn in R.

(** Core 0 prints a line of two characters; core 1 finds the resource taken,
    then prints its own. *)
Lemma lines_do_not_mix_witness :
  exists s, console_runs resource_invoke 5 1 true [7; 9] demo_console [[65; 66]; [67]] s /\
  exists tail, sent (line s) = sent (line demo_console) ++ concat [[65; 66]; [67]] ++ tail /\
    ((forall c p, cores s !! c = Some p -> p = Quiet) /\ tail = [] \/
     exists c text done armed, cores s !! c = Some (Printing text done armed) /\ tail = take done text /\
       forall c' p, c' <> c -> cores s !! c' = Some p -> p = Quiet).
Proof.
  assert (exists s, console_runs resource_invoke 5 1 true [7; 9] demo_console [[65; 66]; [67]] s) as [s Hs].
  { pose proof (runs_start resource_invoke 5 1 true [7; 9] demo_console) as R.
    forward R (step_begin _ _ _ _ _ 0 7 [65; 66]).
    forward R (step_look _ _ _ _ _ 0 [65; 66] 0).
    forward R (step_skip _ _ _ _ _ 1 9).
    forward R (step_write _ _ _ _ _ 0 [65; 66] 0 65).
    forward R (step_shift _ _ _ _ _ 1).
    forward R (step_look _ _ _ _ _ 0 [65; 66] 1).
    forward R (step_write _ _ _ _ _ 0 [65; 66] 1 66).
    forward R (step_end _ _ _ _ _ 0 7 [65; 66]).
    forward R (step_begin _ _ _ _ _ 1 9 [67]).
    forward R (step_shift _ _ _ _ _ 1).
    forward R (step_look _ _ _ _ _ 1 [67] 0).
    forward R (step_write _ _ _ _ _ 1 [67] 0 67).
    forward R (step_end _ _ _ _ _ 1 9 [67]).
    eexists. exact R. }
  exists s. split; [exact Hs|].
  apply (lines_do_not_mix resource_invoke 5 1 true [7; 9] demo_console [[65; 66]; [67]] s); [..|exact Hs].
  - refine (bool_decide_unpack _ _). by vm_compute.
  - refine (bool_decide_unpack _ _). by vm_compute.
  - lia.
  - intros [|[|c]] p; [cbn; congruence..|]. by cbn.
  - refine (bool_decide_unpack _ _). by vm_compute.
Defined.

(** ** One call *)

(** What a call of [job_kprintf] does to the resource: when a job other than
    the caller has it, the line is dropped and nothing changes; otherwise the
    line is printed and the resource is free afterwards - also when the
    caller had reserved it before the call, which thus loses it. *)
Theorem job_kprintf_reservation {W} (invoke : invoke_fn W) h resource put_resource
    `{!ServesResource invoke h resource put_resource} j (print : M W unit) w w' :
  h <> 0 -> j <> 0 ->
  (forall w1 w2, print w1 = Some (w2, tt) -> resource w2 = resource w1) ->
  job_kprintf invoke h j print w = Some (w', tt) ->
  if decide (r_reserved_by (resource w) = 0 \/ r_reserved_by (resource w) = j)
  then r_reserved_by (resource w') = 0 /\ exists w1 w2, print w1 = Some (w2, tt) /\ r_reserved_by (resource w1) = j
  else resource w' = resource w.
Proof.
  intros Hh Hj Hp. unfold job_kprintf. rewrite (proj2 (Z.eqb_neq h 0)) by done.
  rewrite (reserve_served invoke h) by done. cbv zeta.
  destruct (Z.eqb_spec (r_reserved_by (resource w)) j) as [E|NE];
    [|destruct (Z.eqb_spec (r_reserved_by (resource w)) 0) as [E0|NE0]].
  1, 2: cbn [negb]; case_match eqn:Epr; [|done]; case_match; destruct u; intros [= <-];
    rewrite decide_True by auto; rewrite (serial_release_served invoke h); cbv zeta;
    rewrite !get_put, (Hp _ _ Epr), get_put; cbn; rewrite ?E, ?Z.eqb_refl; (split; [done|]); eexists _, _; split; [exact Epr|]; by rewrite get_put.
  cbn [negb]. intros [= <-]. rewrite decide_False by tauto. apply get_put.
Qed.
