(* ===== verification/FreestandingMem.v ===== *)
(** * Memory primitives (lib/freestanding_mem.c)

    The four functions the compilers call by themselves, loop by loop on a
    memory of bytes, and what they compute. *)

From S2P Require Import Prelude Bytes.

Definition store (a b : Z) (m : memory) : memory := fun x => if x =? a then b else m x.

(** [for (i = 0; i < count; i++) body(i)] and
    [for (i = count; i > 0; i--) body(i - 1)]. *)
Fixpoint for_up (i : Z) (n : nat) (body : Z -> memory -> memory) (m : memory) : memory :=
  match n with O => m | S n => for_up (i + 1) n body (body i m) end.
Fixpoint for_down (n : nat) (body : Z -> memory -> memory) (m : memory) : memory :=
  match n with O => m | S n => for_down n body (body (Z.of_nat n) m) end.

Definition memset (dst value : Z) (count : nat) (m : memory) : memory :=
  for_up 0 count (fun i => store (dst + i) (value mod 256)) m.

Definition copy_byte (dst src i : Z) (m : memory) : memory := store (dst + i) (m (src + i)) m.

Definition memcpy (dst src : Z) (count : nat) (m : memory) : memory := for_up 0 count (copy_byte dst src) m.

Definition memmove (dst src : Z) (count : nat) (m : memory) : memory :=
  if dst <? src then for_up 0 count (copy_byte dst src) m else for_down count (copy_byte dst src) m.

(** [count] bytes from the [i]-th on. *)
Fixpoint memcmp_from (i : Z) (a b : Z) (count : nat) (m : memory) : Z :=
  match count with
  | O => 0
  | S count =>
      if negb (m (a + i) =? m (b + i)) then m (a + i) - m (b + i) else memcmp_from (i + 1) a b count m
  end.
Definition memcmp (a b : Z) (count : nat) (m : memory) : Z := memcmp_from 0 a b count m.

(** ** Copies *)

(** The bytes [lo <= i < hi] of the source are in place, the rest is as in
    [m0]. *)
Definition moved (dst src lo hi : Z) (m0 m : memory) : Prop :=
  (forall i, lo <= i < hi -> m (dst + i) = m0 (src + i)) /\
  (forall x, ~ (dst + lo <= x < dst + hi) -> m x = m0 x).

Lemma moved_none dst src i m : moved dst src i i m m.
Proof. split; [lia|done]. Qed.

(** One more byte, whose source was not written over. *)
Lemma moved_byte dst src lo hi i m0 m :
  moved dst src lo hi m0 m -> ~ (dst + lo <= src + i < dst + hi) ->
  (i = hi -> lo <= hi -> moved dst src lo (hi + 1) m0 (copy_byte dst src i m)) /\
  (i = lo - 1 -> lo <= hi -> moved dst src i hi m0 (copy_byte dst src i m)).
Proof.
  intros [H1 H2] Hs. unfold copy_byte, store. rewrite (H2 (src + i)) by done.
  split; intros Hi Hle; (split; [intros k Hk|intros x Hx]);
    (destruct (Z.eqb_spec (dst + k) (dst + i)) as [E|NE] || destruct (Z.eqb_spec x (dst + i)) as [E|NE]);
    try lia; try (replace k with i by lia; done); try (apply H1; lia); apply H2; lia.
Qed.

Section copies.
Context (dst src : Z) (count : nat) (m0 : memory).

Lemma for_up_moves n lo hi m :
  moved dst src lo hi m0 m -> lo <= hi ->
  (forall i, hi <= i < hi + Z.of_nat n -> ~ (dst + lo <= src + i < dst + i)) ->
  moved dst src lo (hi + Z.of_nat n) m0 (for_up hi n (copy_byte dst src) m).
Proof.
  revert hi m. induction n as [|n IH]; intros hi m Hm Hle Hs; cbn [for_up].
  - by replace (hi + Z.of_nat 0) with hi by lia.
  - replace (hi + Z.of_nat (S n)) with (hi + 1 + Z.of_nat n) by lia. apply IH; [|lia|].
    + apply moved_byte; [done|apply Hs; lia|done|done].
    + intros i Hi. apply Hs. lia.
Qed.

Lemma for_down_moves n hi m :
  moved dst src (Z.of_nat n) hi m0 m -> Z.of_nat n <= hi -> src <= dst ->
  moved dst src 0 hi m0 (for_down n (copy_byte dst src) m).
Proof.
  revert m. induction n as [|n IH]; intros m Hm Hle Hs; cbn [for_down]; [done|].
  apply IH; [|lia|done]. apply (moved_byte _ _ (Z.of_nat (S n))); [done|lia|lia|done].
Qed.
End copies.

(** After [memmove], whether or not the two regions overlap, the destination
    holds what the source held before, and nothing else has changed; the same
    for [memcpy] when the destination does not begin inside of the source. *)
Theorem memmove_moves dst src count m :
  moved dst src 0 (Z.of_nat count) m (memmove dst src count m) /\
  (dst <= src \/ src + Z.of_nat count <= dst -> moved dst src 0 (Z.of_nat count) m (memcpy dst src count m)).
Proof.
  split.
  - unfold memmove. destruct (Z.ltb_spec dst src).
    + apply (for_up_moves dst src m count 0 0); [apply moved_none|lia|lia].
    + apply for_down_moves; [apply moved_none|lia|lia].
  - intros Hd. apply (for_up_moves dst src m count 0 0); [apply moved_none|lia|]. intros i Hi. lia.
Qed.

(** The witness of the second part: a forward copy over its own source. *)
Lemma memmove_moves_witness :
  let m : memory := fun x => x in
  map (memcpy 10 12 4 m) [10; 11; 12; 13; 14] = [12; 13; 14; 15; 14] /\
  moved 10 12 0 4 m (memcpy 10 12 4 m).
Proof. split; [reflexivity|]. apply (memmove_moves 10 12 4). lia. Defined.

(** [memset] fills its region with the low byte of the value. *)
Theorem memset_fills dst value count m x :
  memset dst value count m x =
  if (dst <=? x) && (x <? dst + Z.of_nat count) then value mod 256 else m x.
Proof.
  unfold memset. set (b := value mod 256).
  assert (forall n i m, for_up i n (fun i => store (dst + i) b) m x =
    if (dst + i <=? x) && (x <? dst + i + Z.of_nat n) then b else m x) as H.
  { induction n as [|n IH]; intros i m'; cbn [for_up].
    - destruct (Z.leb_spec (dst + i) x), (Z.ltb_spec x (dst + i + Z.of_nat 0)); done || lia.
    - rewrite IH. unfold store.
      destruct (Z.eqb_spec x (dst + i)), (Z.leb_spec (dst + (i + 1)) x), (Z.ltb_spec x (dst + (i + 1) + Z.of_nat n)),
        (Z.leb_spec (dst + i) x), (Z.ltb_spec x (dst + i + Z.of_nat (S n))); done || lia. }
  rewrite H. by rewrite Z.add_0_r.
Qed.

(** ** Comparison *)

(** The sign of [memcmp] is that of the first difference: 0 exactly when the
    regions hold the same bytes, negative exactly when the first comes before
    the second in the order of byte strings. *)
Inductive bytes_lt : list Z -> list Z -> Prop :=
  | lt_here x y l l' : x < y -> bytes_lt (x :: l) (y :: l')
  | lt_later x l l' : bytes_lt l l' -> bytes_lt (x :: l) (x :: l').

Lemma memcmp_from_spec i a b count m :
  let r := memcmp_from i a b count m in
  (r = 0 <-> bytes m (a + i) count = bytes m (b + i) count) /\
  (r < 0 <-> bytes_lt (bytes m (a + i) count) (bytes m (b + i) count)).
Proof.
  revert i. induction count as [|count IH]; intros i; cbn [memcmp_from].
  { cbn. split; [done|]. split; [lia|]. inversion 1. }
  assert (forall p, bytes m p (S count) = m p :: bytes m (p + 1) count) as Hb.
  { intros p. unfold bytes. cbn [seq map]. rewrite Z.add_0_r. f_equal.
    rewrite <- seq_shift, map_map. apply map_ext. intros k. f_equal. lia. }
  rewrite !Hb, <- !Z.add_assoc. destruct (IH (i + 1)) as [IH1 IH2]. cbv zeta.
  destruct (Z.eqb_spec (m (a + i)) (m (b + i))) as [E|NE]; cbn [negb].
  - rewrite E, IH1, IH2. split; split; [by intros ->|congruence|by constructor|inversion 1; [lia|done]].
  - split; split; [lia|congruence|intros Hlt; constructor; lia|inversion 1; [lia|congruence]].
Qed.

Theorem memcmp_orders a b count m :
  (memcmp a b count m = 0 <-> bytes m a count = bytes m b count) /\
  (memcmp a b count m < 0 <-> bytes_lt (bytes m a count) (bytes m b count)).
Proof. pose proof (memcmp_from_spec 0 a b count m) as H. by rewrite !Z.add_0_r in H. Qed.
