(* ===== verification/Pci.v ===== *)
(** * PCI discovery (coreinit/pci_x86_64.c)

    The scan of bus 0 through the configuration ports, and the jobs of
    coreinit.c that use it.  The bus is the configuration space of every
    function as bytes; a read of an absent function gives all ones. *)

From S2P Require Import Prelude Bits Bytes StateM.

Record pci_device_info_t := {
  bus : Z; device : Z; function : Z; vendor_id : Z; device_id : Z;
  class_code : Z; subclass : Z; prog_if : Z; revision : Z; header_type : Z }.

Section pci.
(** [config b d f] is the configuration space of a function. *)
Context (config : Z -> Z -> Z -> Z -> Z).
(** [on_found] acts on a state of its own. *)
Context {A : Type} (on_found : pci_device_info_t -> A -> A).

(** The address latched by the last write to CONFIG_ADDRESS, and the state of
    [on_found]. *)
Record pci := { config_address : Z; user : A }.

Definition outl_address (v : Z) : M pci unit := modify (fun s => {| config_address := v; user := user s |}).

(** CONFIG_DATA: four bytes of the function and register that the address
    names. *)
Definition config_data (address : Z) : Z :=
  if Z.testbit address 31 then
    let b := config (field address 16 8) (field address 11 5) (field address 8 3) in
    le_of (map (fun k => b (4 * field address 2 6 + k)) [0; 1; 2; 3])
  else 0xFFFFFFFF.

Definition inl_data : M pci Z := get (fun s => config_data (config_address s)).

Definition pci_config_read32 (bus device function offset : Z) : M pci Z :=
  let address :=
    Z.lor (Z.lor (Z.lor (Z.lor (Z.shiftl 1 31) (Z.shiftl bus 16)) (Z.shiftl device 11)) (Z.shiftl function 8))
          (Z.land offset 0xFC) in
  _ ← outl_address address; inl_data.

Definition pci_config_read16 (bus device function offset : Z) : M pci Z :=
  dword ← pci_config_read32 bus device function offset;
  mret (Z.shiftr dword (Z.land offset 2 * 8) mod 65536).

Definition pci_config_read8 (bus device function offset : Z) : M pci Z :=
  dword ← pci_config_read32 bus device function offset;
  mret (Z.shiftr dword (Z.land offset 3 * 8) mod 256).

(** The loop over the functions of a device: [n] of them from [function]
    on. *)
Fixpoint scan_functions (device : Z) (n : nat) (function : Z) : M pci unit :=
  match n with
  | O => mret tt
  | S n =>
      vendor ← pci_config_read16 0 device function 0x00;
      if vendor =? 0xFFFF then
        if function =? 0 then mret tt else scan_functions device n (function + 1)
      else
        id ← pci_config_read16 0 device function 0x02;
        rev ← pci_config_read8 0 device function 0x08;
        prog ← pci_config_read8 0 device function 0x09;
        sub ← pci_config_read8 0 device function 0x0A;
        class ← pci_config_read8 0 device function 0x0B;
        header ← pci_config_read8 0 device function 0x0E;
        _ ← modify (fun s => {| config_address := config_address s;
              user := on_found {| bus := 0; device := device; function := function; vendor_id := vendor; device_id := id;
                                  class_code := class; subclass := sub; prog_if := prog; revision := rev;
                                  header_type := header |} (user s) |});
        if (function =? 0) && (Z.land header 0x80 =? 0) then mret tt else scan_functions device n (function + 1)
  end.

Fixpoint scan_devices (n : nat) (device : Z) : M pci unit :=
  match n with
  | O => mret tt
  | S n => _ ← scan_functions device 8 0; scan_devices n (device + 1)
  end.

Definition pci_scan : M pci unit := scan_devices 32 0.
End pci.

Arguments pci : clear implicits.

Definition pci_present : bool := true.

(** ** What is on the bus *)

Section spec.
Context (config : Z -> Z -> Z -> Z -> Z).

Definition byte_at (d f k : Z) : Z := config 0 d f k.
Definition half_at (d f k : Z) : Z := byte_at d f k + 256 * byte_at d f (k + 1).

Definition answers (d f : Z) : bool := negb (half_at d f 0 =? 0xFFFF).
Definition multi_function (d : Z) : bool := Z.testbit (byte_at d 0 14) 7.

(** A function is there when it answers, and is function 0 or belongs to a
    device whose function 0 is there and says that it has several. *)
Definition present (d f : Z) : bool :=
  answers d 0 && answers d f && ((f =? 0) || multi_function d).

Definition info_of (d f : Z) : pci_device_info_t :=
  {| bus := 0; device := d; function := f; vendor_id := half_at d f 0; device_id := half_at d f 2;
     class_code := byte_at d f 11; subclass := byte_at d f 10; prog_if := byte_at d f 9;
     revision := byte_at d f 8; header_type := byte_at d f 14 |}.

Definition slots (n m : nat) : list Z := map Z.of_nat (seq n m).

Definition functions_of (d : Z) : list pci_device_info_t :=
  map (info_of d) (List.filter (present d) (slots 0 8)).

Definition bus_contents : list pci_device_info_t := flat_map functions_of (slots 0 32).

Definition config_ok : Prop := forall b d f k, 0 <= config b d f k < 256.
End spec.

Section reads.
Context (config : Z -> Z -> Z -> Z -> Z) (Hok : config_ok config).
Context {A : Type}.

Abbreviation address d f r :=
  (Z.lor (Z.lor (Z.lor (Z.lor (Z.shiftl 1 31) (Z.shiftl 0 16)) (Z.shiftl d 11)) (Z.shiftl f 8)) (Z.shiftl r 2)).

(** The address names the function and the register. *)
Lemma address_decodes d f r :
  0 <= d < 32 -> 0 <= f < 8 -> 0 <= r < 64 ->
  Z.testbit (address d f r) 31 = true /\ field (address d f r) 16 8 = 0 /\ field (address d f r) 11 5 = d /\
  field (address d f r) 8 3 = f /\ field (address d f r) 2 6 = r.
Proof.
  intros Hd Hf Hr. rewrite !field_lor, !Z.lor_spec. split_and!; [done|..].
  - rewrite (field_below d 11 5), (field_below f 8 3), (field_below r 2 6) by lia. done.
  - rewrite (field_hit d 11 5), (field_below f 8 3), (field_below r 2 6) by lia. rewrite !Z.lor_0_r. done.
  - rewrite (field_above d 11 8 3), (field_hit f 8 3), (field_below r 2 6) by lia. rewrite !Z.lor_0_r. done.
  - rewrite (field_above d 11 2 6), (field_above f 8 2 6), (field_hit r 2 6) by lia. done.
Qed.

Lemma read32_value d f off r (s : pci A) :
  0 <= d < 32 -> 0 <= f < 8 -> 0 <= r < 64 -> Z.land off 0xFC = Z.shiftl r 2 ->
  exists s', user s' = user s /\
    pci_config_read32 config 0 d f off s = Some (s', le_of (map (fun k => byte_at config d f (4 * r + k)) [0; 1; 2; 3])).
Proof.
  intros Hd Hf Hr Hoff. unfold pci_config_read32. cbv zeta. rewrite Hoff. eexists. split; [|unfold mbind, M_bind, outl_address, modify, inl_data, get; cbn [config_address]].
  2: { unfold config_data. destruct (address_decodes d f r) as (-> & -> & -> & -> & ->); done. }
  done.
Qed.

Lemma dword_parts b0 b1 b2 b3 :
  0 <= b0 < 256 -> 0 <= b1 < 256 -> 0 <= b2 < 256 -> 0 <= b3 < 256 ->
  let x := le_of [b0; b1; b2; b3] in
  Z.shiftr x 0 mod 256 = b0 /\ Z.shiftr x 8 mod 256 = b1 /\ Z.shiftr x 16 mod 256 = b2 /\ Z.shiftr x 24 mod 256 = b3 /\
  Z.shiftr x 0 mod 65536 = b0 + 256 * b1 /\ Z.shiftr x 16 mod 65536 = b2 + 256 * b3.
Proof.
  intros H0 H1 H2 H3 x. assert (x = b0 + 256 * b1 + 65536 * b2 + 16777216 * b3) as -> by (unfold x; cbn; lia).
  rewrite !Z.shiftr_div_pow2 by lia. change (2 ^ 0) with 1. change (2 ^ 8) with 256. change (2 ^ 16) with 65536. change (2 ^ 24) with 16777216.
  split_and!; Z.to_euclidean_division_equations; lia.
Qed.

(** The reads of the scan. *)
Lemma read8_value d f off r k (s : pci A) :
  0 <= d < 32 -> 0 <= f < 8 -> 0 <= r < 64 -> Z.land off 0xFC = Z.shiftl r 2 -> off = 4 * r + k -> Z.land off 3 = k -> 0 <= k < 4 ->
  exists s', user s' = user s /\ pci_config_read8 config 0 d f off s = Some (s', byte_at config d f off).
Proof.
  intros Hd Hf Hr Hoff -> Hk Hk4. destruct (read32_value d f (4 * r + k) r s Hd Hf Hr Hoff) as (s' & Hu & E).
  exists s'. split; [done|]. unfold pci_config_read8, mbind, M_bind. rewrite E. unfold mret, M_ret. do 2 f_equal. rewrite Hk. cbn [map].
  pose proof (fun j => Hok 0 d f j) as Hb.
  destruct (dword_parts (byte_at config d f (4 * r + 0)) (byte_at config d f (4 * r + 1)) (byte_at config d f (4 * r + 2))
              (byte_at config d f (4 * r + 3))) as (P0 & P1 & P2 & P3 & _); [apply Hb..|].
  assert (k = 0 \/ k = 1 \/ k = 2 \/ k = 3) as [->|[->|[->| ->]]] by lia; done.
Qed.

Lemma read16_value d f off r k (s : pci A) :
  0 <= d < 32 -> 0 <= f < 8 -> 0 <= r < 64 -> Z.land off 0xFC = Z.shiftl r 2 -> off = 4 * r + k -> Z.land off 2 = k -> k = 0 \/ k = 2 ->
  exists s', user s' = user s /\ pci_config_read16 config 0 d f off s = Some (s', half_at config d f off).
Proof.
  intros Hd Hf Hr Hoff -> Hk Hk4. destruct (read32_value d f (4 * r + k) r s Hd Hf Hr Hoff) as (s' & Hu & E).
  exists s'. split; [done|]. unfold pci_config_read16, mbind, M_bind. rewrite E. unfold mret, M_ret. do 2 f_equal. rewrite Hk. cbn [map].
  pose proof (fun j => Hok 0 d f j) as Hb.
  destruct (dword_parts (byte_at config d f (4 * r + 0)) (byte_at config d f (4 * r + 1)) (byte_at config d f (4 * r + 2))
              (byte_at config d f (4 * r + 3))) as (_ & _ & _ & _ & P0 & P2); [apply Hb..|].
  unfold half_at. destruct Hk4 as [->| ->]; [rewrite <- Z.add_assoc; exact P0|rewrite <- Z.add_assoc; exact P2].
Qed.
End reads.

Section scan.
Context (config : Z -> Z -> Z -> Z -> Z) (Hok : config_ok config).
Context {A : Type} (on_found : pci_device_info_t -> A -> A).

Definition report (found : list pci_device_info_t) (a : A) : A := fold_left (fun a i => on_found i a) found a.

(** The body of the loop once the function has answered. *)
Lemma scan_found d f n (s : pci A) :
  0 <= d < 32 -> 0 <= f < 8 -> answers config d f = true ->
  exists s', user s' = on_found (info_of config d f) (user s) /\
    scan_functions config on_found d (S n) f s =
    (if (f =? 0) && negb (Z.testbit (byte_at config d f 14) 7) then Some (s', tt)
     else scan_functions config on_found d n (f + 1) s').
Proof.
  intros Hd Hf Ha. cbn [scan_functions]. unfold answers in Ha. rewrite negb_true_iff in Ha.
  destruct (read16_value config Hok d f 0 0 0 s Hd Hf) as (s0 & U0 & E0); [done..|by left|].
  unfold mbind at 1, M_bind at 1. rewrite E0, Ha.
  destruct (read16_value config Hok d f 2 0 2 s0 Hd Hf) as (s1 & U1 & E1); [done..|by right|].
  unfold mbind at 1, M_bind at 1. rewrite E1.
  destruct (read8_value config Hok d f 8 2 0 s1 Hd Hf) as (s2 & U2 & E2); [done..|]. unfold mbind at 1, M_bind at 1. rewrite E2.
  destruct (read8_value config Hok d f 9 2 1 s2 Hd Hf) as (s3 & U3 & E3); [done..|]. unfold mbind at 1, M_bind at 1. rewrite E3.
  destruct (read8_value config Hok d f 10 2 2 s3 Hd Hf) as (s4 & U4 & E4); [done..|]. unfold mbind at 1, M_bind at 1. rewrite E4.
  destruct (read8_value config Hok d f 11 2 3 s4 Hd Hf) as (s5 & U5 & E5); [done..|]. unfold mbind at 1, M_bind at 1. rewrite E5.
  destruct (read8_value config Hok d f 14 3 2 s5 Hd Hf) as (s6 & U6 & E6); [done..|]. unfold mbind at 1, M_bind at 1. rewrite E6.
  unfold mbind at 1, M_bind at 1, modify. eexists. split; [|].
  2: { assert ((Z.land (byte_at config d f 14) 128 =? 0) = negb (Z.testbit (byte_at config d f 14) 7)) as ->
         by by apply (land_bit_zero _ 7).
       case_match; done. }
  cbn [user]. by rewrite U6, U5, U4, U3, U2, U1, U0.
Qed.

Lemma scan_silent d f n (s : pci A) :
  0 <= d < 32 -> 0 <= f < 8 -> answers config d f = false ->
  exists s', user s' = user s /\
    scan_functions config on_found d (S n) f s =
    (if f =? 0 then Some (s', tt) else scan_functions config on_found d n (f + 1) s').
Proof.
  intros Hd Hf Ha. cbn [scan_functions]. unfold answers in Ha. rewrite negb_false_iff in Ha.
  destruct (read16_value config Hok d f 0 0 0 s Hd Hf) as (s0 & U0 & E0); [done..|by left|].
  exists s0. split; [done|]. unfold mbind at 1, M_bind at 1. rewrite E0, Ha. by destruct (f =? 0).
Qed.

Lemma slots_cons n m : slots n (S m) = Z.of_nat n :: slots (S n) m.
Proof. done. Qed.

(** The functions after the first of a device that has several. *)
Lemma scan_rest d n f (s : pci A) :
  0 <= d < 32 -> (1 <= f)%nat -> (f + n = 8)%nat -> answers config d 0 = true -> multi_function config d = true ->
  exists s', scan_functions config on_found d n (Z.of_nat f) s = Some (s', tt) /\
    user s' = report (map (info_of config d) (List.filter (present config d) (slots f n))) (user s).
Proof.
  intros Hd. revert f s. induction n as [|n IH]; intros f s Hf Hn Ha Hm; [by exists s|].
  rewrite slots_cons. cbn [List.filter]. unfold present at 1. rewrite Ha, Hm, orb_true_r, andb_true_r. cbn [andb].
  destruct (answers config d (Z.of_nat f)) eqn:E.
  - destruct (scan_found d (Z.of_nat f) n s Hd ltac:(lia) E) as (s1 & U1 & ->).
    rewrite (proj2 (Z.eqb_neq _ 0)) by lia. cbn [andb]. replace (Z.of_nat f + 1) with (Z.of_nat (S f)) by lia.
    destruct (IH (S f) s1) as (s' & -> & U'); [lia..|done|done|]. exists s'. split; [done|]. rewrite U', U1. done.
  - destruct (scan_silent d (Z.of_nat f) n s Hd ltac:(lia) E) as (s1 & U1 & ->).
    rewrite (proj2 (Z.eqb_neq _ 0)) by lia. replace (Z.of_nat f + 1) with (Z.of_nat (S f)) by lia.
    destruct (IH (S f) s1) as (s' & -> & U'); [lia..|done|done|]. exists s'. split; [done|]. by rewrite U', U1.
Qed.

Lemma filter_none {B} (p : B -> bool) l : (forall x, In x l -> p x = false) -> List.filter p l = [].
Proof. induction l as [|x l IH]; intros H; [done|]. cbn. rewrite H by by left. apply IH. intros y Hy. apply H. by right. Qed.

Lemma scan_device d (s : pci A) :
  0 <= d < 32 ->
  exists s', scan_functions config on_found d 8 0 s = Some (s', tt) /\ user s' = report (functions_of config d) (user s).
Proof.
  intros Hd. unfold functions_of. rewrite slots_cons. cbn [List.filter]. unfold present at 1.
  change (Z.of_nat 0) with 0. destruct (answers config d 0) eqn:E; cbn [andb Z.eqb orb].
  - destruct (scan_found d 0 7 s Hd ltac:(lia) E) as (s1 & U1 & ->). cbn [Z.eqb andb].
    fold (multi_function config d). destruct (multi_function config d) eqn:Em; cbn [negb].
    + destruct (scan_rest d 7 1 s1) as (s' & E' & U'); [done|lia|lia|done|done|]. exists s'. split; [exact E'|]. rewrite U', U1. done.
    + exists s1. split; [done|]. rewrite filter_none; [done|]. intros f Hf. apply in_map_iff in Hf as (k & <- & Hk).
      apply in_seq in Hk. unfold present. rewrite Em, (proj2 (Z.eqb_neq _ 0)) by lia. by rewrite andb_false_r.
  - destruct (scan_silent d 0 7 s Hd ltac:(lia) E) as (s1 & U1 & ->). exists s1. split; [done|].
    rewrite filter_none; [done|]. intros f _. unfold present. by rewrite E.
Qed.

Lemma report_app l l' a : report (l ++ l') a = report l' (report l a).
Proof. apply fold_left_app. Qed.

Lemma scan_devices_reports n d (s : pci A) :
  (d + n = 32)%nat ->
  exists s', scan_devices config on_found n (Z.of_nat d) s = Some (s', tt) /\
    user s' = report (flat_map (functions_of config) (slots d n)) (user s).
Proof.
  revert d s. induction n as [|n IH]; intros d s Hn; [by exists s|]. cbn [scan_devices]. rewrite slots_cons. cbn [flat_map].
  destruct (scan_device (Z.of_nat d) s ltac:(lia)) as (s1 & E1 & U1). unfold mbind, M_bind. rewrite E1.
  replace (Z.of_nat d + 1) with (Z.of_nat (S d)) by lia.
  destruct (IH (S d) s1 ltac:(lia)) as (s' & -> & U'). exists s'. split; [done|]. by rewrite U', U1, report_app.
Qed.
End scan.

(** C16: The scan reports exactly what is on bus 0: it returns, and has called
    [on_found] once for every function that is present - one that answers and
    is function 0, or belongs to a device whose function 0 is present and
    says it has several - in the order of the bus, with the fields of its
    configuration header; the configuration space is only read. *)
Theorem pci_scan_complete config {A} (on_found : pci_device_info_t -> A -> A) (s : pci A) :
  config_ok config ->
  exists s', pci_scan config on_found s = Some (s', tt) /\
    user s' = fold_left (fun a i => on_found i a) (bus_contents config) (user s).
Proof. intros Hok. exact (scan_devices_reports config Hok on_found 32 0 s eq_refl). Qed.

(** A host bridge at 0.0, and at 3 a device with functions 0 and 2. *)
Definition demo_config (b d f k : Z) : Z :=
  if (d =? 0) && (f =? 0) then nth (Z.to_nat k) [0x86; 0x80; 0x37; 0x12; 0; 0; 0; 0; 2; 0; 0; 6; 0; 0; 0; 0] 0
  else if (d =? 3) && ((f =? 0) || (f =? 2))
  then nth (Z.to_nat k) [0xF4; 0x1A; 0; 0x10; 0; 0; 0; 0; 0; 0; f; 2; 0; 0; 0x80; 0] 0
  else 0xFF.

Lemma pci_scan_complete_witness :
  config_ok demo_config /\
  exists s', pci_scan demo_config (fun i l => l ++ [(device i, function i, vendor_id i, class_code i)])
               {| config_address := 0; user := [] |} = Some (s', tt) /\
    user s' = [(0, 0, 0x8086, 6); (3, 0, 0x1AF4, 2); (3, 2, 0x1AF4, 2)].
Proof.
  assert (config_ok demo_config) as Hok.
  { intros b d f k. unfold demo_config.
    assert (forall l : list Z, Forall (fun x => 0 <= x < 256) l -> 0 <= nth (Z.to_nat k) l 0 < 256) as Hn.
    { intros l Hl. revert Hl. generalize (Z.to_nat k). intros n Hl. revert n. induction Hl as [|x l Hx _ IH]; intros [|n]; cbn; try lia. apply IH. }
    destruct ((d =? 0) && (f =? 0)); [apply Hn; repeat constructor; lia|].
    destruct ((d =? 3) && ((f =? 0) || (f =? 2))) eqn:E; [|lia]. apply Hn.
    apply andb_true_iff in E as [_ E]. apply orb_true_iff in E as [E|E]; bool_simp; subst f; repeat constructor; lia. }
  split; [exact Hok|].
  destruct (pci_scan_complete demo_config (fun i l => l ++ [(device i, function i, vendor_id i, class_code i)])
              {| config_address := 0; user := [] |} Hok) as (s' & E & U).
  exists s'. split; [exact E|]. rewrite U. vm_compute. reflexivity.
Defined.
