(* ===== verification/Ata.v ===== *)
(** * The disk (coreinit/ata_x86_64.c, disk_handler of coreinit/coreinit.c)

    The driver that reads a sector through the ports of the primary ATA
    channel, over a model of the drive behind them, and the object that
    serves its reads. *)

From Stdlib Require Import String.
From S2P Require Import Prelude Bits Bytes Capnp StateM NetworkEther Serial.

Definition ATA_PRIMARY_IO : Z := 0x1F0.
Definition ATA_PRIMARY_CTRL : Z := 0x3F6.
Definition ATA_REG_DATA : Z := ATA_PRIMARY_IO + 0.
Definition ATA_REG_SECCOUNT : Z := ATA_PRIMARY_IO + 2.
Definition ATA_REG_LBA_LOW : Z := ATA_PRIMARY_IO + 3.
Definition ATA_REG_LBA_MID : Z := ATA_PRIMARY_IO + 4.
Definition ATA_REG_LBA_HIGH : Z := ATA_PRIMARY_IO + 5.
Definition ATA_REG_DRIVE_HEAD : Z := ATA_PRIMARY_IO + 6.
Definition ATA_REG_COMMAND : Z := ATA_PRIMARY_IO + 7.
Definition ATA_REG_STATUS : Z := ATA_PRIMARY_IO + 7.
Definition ATA_STATUS_ERR : Z := 0x01.
Definition ATA_STATUS_DRQ : Z := 0x08.
Definition ATA_STATUS_BSY : Z := 0x80.
Definition ATA_CMD_READ_SECTORS : Z := 0x20.

(** ** The drive

    [sector lba]: the 256 words of a sector, [None] when the drive cannot
    read it.  [busy lba]: for how many reads of the status the drive is busy
    with it.  [outcome lba]: the status with which it stops being busy.
    [floating]: the bits of the status that mean nothing while the drive is
    busy. *)
Class Drive := { sector : Z -> option (list Z); busy : Z -> nat; outcome : Z -> Z; floating : nat -> Z }.

Inductive phase := Idle | Working (lba : Z) (left : nat) | Failed (status : Z) | Data (words : list Z).

Record channel := { head : Z; seccount : Z; lba_low : Z; lba_mid : Z; lba_high : Z; state : phase }.

Definition set_state (p : phase) (c : channel) : channel :=
  {| head := head c; seccount := seccount c; lba_low := lba_low c; lba_mid := lba_mid c; lba_high := lba_high c;
     state := p |}.

(** The sector that the registers name. *)
Definition addressed (c : channel) : Z :=
  lba_low c + 256 * lba_mid c + 65536 * lba_high c + 16777216 * (head c mod 16).

Section driver.
Context `{Drive}.

Definition outb (port v : Z) (c : channel) : channel :=
  let v := v mod 256 in
  if port =? ATA_REG_DRIVE_HEAD then
    {| head := v; seccount := seccount c; lba_low := lba_low c; lba_mid := lba_mid c; lba_high := lba_high c; state := state c |}
  else if port =? ATA_REG_SECCOUNT then
    {| head := head c; seccount := v; lba_low := lba_low c; lba_mid := lba_mid c; lba_high := lba_high c; state := state c |}
  else if port =? ATA_REG_LBA_LOW then
    {| head := head c; seccount := seccount c; lba_low := v; lba_mid := lba_mid c; lba_high := lba_high c; state := state c |}
  else if port =? ATA_REG_LBA_MID then
    {| head := head c; seccount := seccount c; lba_low := lba_low c; lba_mid := v; lba_high := lba_high c; state := state c |}
  else if port =? ATA_REG_LBA_HIGH then
    {| head := head c; seccount := seccount c; lba_low := lba_low c; lba_mid := lba_mid c; lba_high := v; state := state c |}
  else if (port =? ATA_REG_COMMAND) && (v =? ATA_CMD_READ_SECTORS) && (seccount c =? 1) && Z.testbit (head c) 6 then
    set_state (Working (addressed c) (busy (addressed c))) c
  else c.

(** A read of the status: busy, then the data or an error. *)
Definition inb_status (c : channel) : channel * Z :=
  match state c with
  | Working lba (S n) => (set_state (Working lba n) c, Z.lor ATA_STATUS_BSY (floating n mod 256))
  | Working lba O =>
      match sector lba with
      | Some words => (set_state (Data words) c, outcome lba)
      | None => (set_state (Failed (outcome lba)) c, outcome lba)
      end
  | Data (_ :: _) => (c, 0x58)
  | Data [] | Idle => (c, 0x50)
  | Failed status => (c, status)
  end.

Definition inw_data (c : channel) : channel * Z :=
  match state c with
  | Data (w :: ws) => (set_state (Data ws) c, w)
  | _ => (c, 0xFFFF)
  end.

(** ** The driver *)

(** Four reads of the alternate status, which change nothing. *)
Definition ata_400ns_delay (c : channel) : channel := c.

(** [for (i = 0; i < n; i++) dst[i] = inw(ATA_REG_DATA)]. *)
Fixpoint read_words (n : nat) (c : channel) : channel * list Z :=
  match n with
  | O => (c, [])
  | S n => let '(c, w) := inw_data c in let '(c, ws) := read_words n c in (c, w :: ws)
  end.

(** A round of the wait loop: the status, once the drive is not busy. *)
Definition poll_status (c : channel) : channel * option Z :=
  let '(c, status) := inb_status c in (c, if Z.land status ATA_STATUS_BSY =? 0 then Some status else None).

(** [Some words]: the return value is 1 and the buffer holds the words.  The
    loop gives up when the counter passes a million, in which case it has
    read the status once more. *)
Definition ata_read_sector (lba : Z) (c : channel) : channel * option (list Z) :=
  let c := outb ATA_REG_DRIVE_HEAD (Z.lor 0xE0 (Z.land (Z.shiftr lba 24) 0x0F)) c in
  let c := ata_400ns_delay c in
  let c := outb ATA_REG_SECCOUNT 1 c in
  let c := outb ATA_REG_LBA_LOW (Z.land lba 0xFF) c in
  let c := outb ATA_REG_LBA_MID (Z.land (Z.shiftr lba 8) 0xFF) c in
  let c := outb ATA_REG_LBA_HIGH (Z.land (Z.shiftr lba 16) 0xFF) c in
  let c := outb ATA_REG_COMMAND ATA_CMD_READ_SECTORS c in
  match spin 1000000 poll_status c with
  | (c, None) => (fst (inb_status c), None)
  | (c, Some status) =>
      if negb (Z.land status ATA_STATUS_ERR =? 0) then (c, None)
      else if Z.land status ATA_STATUS_DRQ =? 0 then (c, None)
      else let '(c, words) := read_words 256 c in (c, Some words)
  end.

(** ** The disk object *)

(** [uint64_t sector_words[64]] as the driver fills it, 16 bits at a time. *)
Fixpoint qwords (ws : list Z) : list Z :=
  match ws with
  | a :: b :: c :: d :: ws => (a + 65536 * b + 4294967296 * c + 281474976710656 * d) :: qwords ws
  | _ => []
  end.

Definition disk_handler (words : list Z) (response_cap : Z) (c : channel) : channel * option (list Z) :=
  let lba := u32 (word words 0) in
  match ata_read_sector lba c with
  | (c, Some sector_words) => (c, reply response_cap (qwords sector_words))
  | (c, None) => (c, None)
  end.
End driver.

Definition ata_present : bool := true.

(** ** What is read *)

Lemma length_qwords ws n : length ws = (4 * n)%nat -> length (qwords ws) = n.
Proof.
  revert ws. induction n as [|n IH]; intros ws Hn; [by destruct ws|].
  destruct ws as [|a [|b [|c [|d ws]]]]; cbn in Hn; try lia. cbn. f_equal. apply IH. lia.
Qed.

Section spec.
Context `{Drive}.

(** A sector has 256 words; once it is not busy, the drive shows DRQ and no ERR
    with a sector it read, and any status but these with one it did not: ERR
    with or without DRQ, or neither. *)
Definition drive_ok : Prop :=
  (forall l ws, sector l = Some ws -> length ws = 256%nat) /\
  forall l, Z.testbit (outcome l) 7 = false /\
    match sector l with
    | Some _ => Z.testbit (outcome l) 3 = true /\ Z.testbit (outcome l) 0 = false
    | None => Z.testbit (outcome l) 3 = false \/ Z.testbit (outcome l) 0 = true
    end.

(** The registers name the low 28 bits of the sector number. *)
Lemma registers_name lba c :
  0 <= lba < 4294967296 ->
  let c1 := outb ATA_REG_LBA_HIGH (Z.land (Z.shiftr lba 16) 0xFF)
    (outb ATA_REG_LBA_MID (Z.land (Z.shiftr lba 8) 0xFF)
    (outb ATA_REG_LBA_LOW (Z.land lba 0xFF)
    (outb ATA_REG_SECCOUNT 1
    (outb ATA_REG_DRIVE_HEAD (Z.lor 0xE0 (Z.land (Z.shiftr lba 24) 0x0F)) c)))) in
  addressed c1 = lba mod 2 ^ 28 /\ seccount c1 = 1 /\ Z.testbit (head c1) 6 = true.
Proof.
  intros Hl c1.
  assert (c1 = {| head := Z.lor 0xE0 (Z.land (Z.shiftr lba 24) 0x0F) mod 256; seccount := 1;
                  lba_low := Z.land lba 0xFF mod 256; lba_mid := Z.land (Z.shiftr lba 8) 0xFF mod 256;
                  lba_high := Z.land (Z.shiftr lba 16) 0xFF mod 256; state := state c |}) as -> by reflexivity.
  unfold addressed. cbn [head seccount lba_low lba_mid lba_high].
  change 0xFF with (Z.ones 8). change 0x0F with (Z.ones 4). rewrite !Z.land_ones by lia.
  set (top := Z.shiftr lba 24 mod 2 ^ 4).
  assert (Z.lor 0xE0 top mod 256 mod 16 = top) as ->.
  { rewrite Z.mod_mod_divide by by exists 16. change 16 with (2 ^ 4). rewrite <- Z.land_ones by lia.
    rewrite Z.land_lor_distr_l. change (Z.land 224 (Z.ones 4)) with 0. rewrite Z.lor_0_l, Z.land_ones by lia.
    apply Z.mod_mod. done. }
  split_and!; [|done|].
  - unfold top. rewrite !Z.shiftr_div_pow2 by lia.
    change (2 ^ 8) with 256. change (2 ^ 16) with 65536. change (2 ^ 24) with 16777216. change (2 ^ 4) with 16. change (2 ^ 28) with 268435456.
    rewrite !Z.mod_mod by done. Z.to_euclidean_division_equations. lia.
  - change 256 with (2 ^ 8). rewrite Z.mod_pow2_bits_low, Z.lor_spec by lia. done.
Qed.

Lemma polls_while_busy c lba n k :
  state c = Working lba n -> (k <= n)%nat ->
  spin_nat k poll_status c = (set_state (Working lba (n - k)) c, None).
Proof.
  intros Hs. revert c n Hs. induction k as [|k IH]; intros c n Hs Hk.
  - cbn [spin_nat]. rewrite Nat.sub_0_r, <- Hs. by destruct c.
  - destruct n as [|n]; [lia|]. cbn [spin_nat]. unfold poll_status at 1, inb_status. rewrite Hs.
    replace (Z.land (Z.lor ATA_STATUS_BSY (floating n mod 256)) ATA_STATUS_BSY =? 0) with false.
    2: { unfold ATA_STATUS_BSY. change 0x80 with (2 ^ 7). by rewrite land_bit_zero, Z.lor_spec, Z.pow2_bits_true by lia. }
    rewrite (IH (set_state (Working lba n) c) n) by (done || lia). done.
Qed.

Lemma read_words_data c ws : state c = Data ws -> read_words (length ws) c = (set_state (Data []) c, ws).
Proof.
  revert c. induction ws as [|w ws IH]; intros c Hs; cbn [length read_words].
  - rewrite <- Hs. by destruct c.
  - unfold inw_data. rewrite Hs. by rewrite (IH (set_state (Data ws) c)).
Qed.

(** The wait ends with the first status that is not busy. *)
Lemma wait_ends c lba n :
  drive_ok -> state c = Working lba n -> Z.of_nat n < 1000000 ->
  spin 1000000 poll_status c =
  (set_state (match sector lba with Some words => Data words | None => Failed (outcome lba) end) c, Some (outcome lba)).
Proof.
  intros [_ Hout] Hs Hn. destruct (Hout lba) as [Hb _].
  assert (Z.land (outcome lba) ATA_STATUS_BSY =? 0 = true) as Hbz
    by (unfold ATA_STATUS_BSY; change 0x80 with (2 ^ 7); by rewrite land_bit_zero, Hb by lia).
  eapply (spin_finds 1000000 n); [by apply polls_while_busy| |lia].
  rewrite Nat.sub_diag. unfold poll_status, inb_status. cbn [state set_state].
  destruct (sector lba); by rewrite Hbz.
Qed.

Lemma wait_gives_up c lba n :
  state c = Working lba n -> 1000000 <= Z.of_nat n -> exists c', spin 1000000 poll_status c = (c', None).
Proof. intros Hs Hn. rewrite spin_eq. rewrite (polls_while_busy c lba n) by (done || lia). by eexists. Qed.
End spec.

Lemma ata_read_result `{Drive} lba c cap :
  drive_ok -> 0 <= lba < 4294967296 -> 528 <= cap ->
  let r := if bool_decide (Z.of_nat (busy (lba mod 2 ^ 28)) < 1000000) then sector (lba mod 2 ^ 28) else None in
  snd (ata_read_sector lba c) = r /\ snd (disk_handler [lba] cap c) = qwords <$> r.
Proof.
  intros Hok Hl Hcap r.
  assert (snd (ata_read_sector lba c) = r) as Hr.
  { unfold ata_read_sector, ata_400ns_delay. cbv zeta. destruct (registers_name lba c Hl) as (Ha & Hc & Hh). cbv zeta in Ha, Hc, Hh.
    match goal with |- context [outb ATA_REG_COMMAND _ ?x] => set (c1 := x) in * end.
    assert (outb ATA_REG_COMMAND ATA_CMD_READ_SECTORS c1 = set_state (Working (addressed c1) (busy (addressed c1))) c1) as ->.
    { unfold outb. cbn -[Z.testbit set_state addressed]. by rewrite Hc, Hh. }
    rewrite Ha. set (c2 := set_state _ c1). unfold r. case_bool_decide as Hb.
    - rewrite (wait_ends c2 (lba mod 2 ^ 28) (busy (lba mod 2 ^ 28))) by done.
      unfold ATA_STATUS_ERR, ATA_STATUS_DRQ. change 0x01 with (2 ^ 0). change 0x08 with (2 ^ 3).
      rewrite !land_bit_zero by lia. destruct Hok as [Hlen Hout]. destruct (Hout (lba mod 2 ^ 28)) as [_ Ho].
      destruct (sector (lba mod 2 ^ 28)) as [ws|] eqn:E.
      + destruct Ho as [-> ->]. pose proof (read_words_data (set_state (Data ws) c2) ws eq_refl) as R.
        rewrite (Hlen _ _ E) in R. cbn [negb]. by rewrite R.
      + rewrite negb_involutive. by destruct Ho as [-> | ->]; [destruct (Z.testbit _ 0)|].
    - destruct (wait_gives_up c2 (lba mod 2 ^ 28) (busy (lba mod 2 ^ 28))) as [c' ->]; [done|lia|done]. }
  split; [done|]. unfold disk_handler. change (word [lba] 0) with lba.
  unfold u32. rewrite Z.mod_small by done. destruct (ata_read_sector lba c) as [c' [ws|]]; cbn [snd] in *; rewrite <- Hr; [|done].
  cbn [fmap option_fmap option_map]. assert (length ws = 256%nat) as Hw.
  { unfold r in Hr. case_bool_decide; [|done]. by apply (proj1 Hok (lba mod 2 ^ 28)). }
  unfold reply. rewrite (length_qwords ws 64) by lia. destruct (Z.ltb_spec cap (flat_total 64)) as [Hlt|]; [|done].
  change (flat_total 64) with 528 in Hlt. lia.
Qed.

(** C17: A read returns the sector or fails: whatever state the channel is in,
    [ata_read_sector] returns the 256 words of sector [lba mod 2^28] when the
    drive can read it and is busy for less than a million looks at its
    status, and fails otherwise: when the drive stays busy, and when it ends
    with ERR set (DRQ set or not) or with DRQ clear.  The disk object answers
    with these words, packed as they lie in memory, or not at all. *)
Theorem ata_reads_sector `{Drive} lba c cap :
  drive_ok -> 0 <= lba < 4294967296 -> 528 <= cap ->
  let r := if bool_decide (Z.of_nat (busy (lba mod 2 ^ 28)) < 1000000) then sector (lba mod 2 ^ 28) else None in
  snd (ata_read_sector lba c) = r /\ snd (disk_handler [lba] cap c) = qwords <$> r.
Proof. apply ata_read_result. Qed.

(** A drive of sixteen sectors that is busy for a while; it ends an odd sector
    it does not have with ERR and DRQ set, an even one with neither. *)
Definition demo_drive : Drive :=
  {| sector := fun l => if (0 <=? l) && (l <? 16) then Some (map (fun k => (l * 256 + Z.of_nat k) mod 65536) (seq 0 256)) else None;
     busy := fun l => Z.to_nat (l mod 7);
     outcome := fun l => if (0 <=? l) && (l <? 16) then 0x58 else if Z.odd l then 0x59 else 0x50; floating := fun n => Z.of_nat n |}.

Lemma demo_drive_ok : @drive_ok demo_drive.
Proof.
  split.
  - intros l ws. cbn -[map seq]. case_match; [|done]. intros [= <-]. reflexivity.
  - intros l. cbn -[map seq Z.testbit]. destruct ((0 <=? l) && (l <? 16)); [done|]. destruct (Z.odd l); auto.
Qed.

Lemma ata_reads_sector_witness :
  let c := {| head := 0; seccount := 0; lba_low := 0; lba_mid := 0; lba_high := 0; state := Idle |} in
  snd (ata_read_sector (H := demo_drive) 3 c) = Some (map (fun k => 768 + Z.of_nat k) (seq 0 256)) /\
  snd (ata_read_sector (H := demo_drive) 16 c) = None /\ snd (ata_read_sector (H := demo_drive) 17 c) = None.
Proof.
  intros c. split_and!.
  - destruct (@ata_reads_sector demo_drive 3 c 528 demo_drive_ok ltac:(lia) ltac:(lia)) as [E _].
    rewrite E. vm_compute. reflexivity.
  - destruct (@ata_reads_sector demo_drive 16 c 528 demo_drive_ok ltac:(lia) ltac:(lia)) as [E _].
    rewrite E. vm_compute. reflexivity.
  - destruct (@ata_reads_sector demo_drive 17 c 528 demo_drive_ok ltac:(lia) ltac:(lia)) as [E _].
    rewrite E. vm_compute. reflexivity.
Defined.

(** The reply holds the bytes of the sector in their order. *)
Lemma qwords_bytes ws n :
  length ws = (4 * n)%nat -> Forall (fun w => 0 <= w < 65536) ws ->
  flat_map (le_bytes 8) (qwords ws) = flat_map (le_bytes 2) ws.
Proof.
  revert ws. induction n as [|n IH]; intros ws Hn Hws; [by destruct ws|].
  destruct ws as [|a [|b [|c [|d ws]]]]; cbn in Hn; try lia.
  do 4 (apply Forall_cons in Hws as [? Hws]). cbn [qwords flat_map]. rewrite IH by (lia || done).
  rewrite !app_assoc. f_equal. cbn [le_bytes app].
  repeat match goal with |- _ :: _ = _ :: _ => f_equal end; Z.to_euclidean_division_equations; lia.
Qed.

(** ** Where the code falls short *)

(** A sector number that needs more than 28 bits is not refused: the request
    is answered with the sector its low bits name. *)
Theorem large_lba_wraps `{Drive} lba c :
  drive_ok -> 0 <= lba < 2 ^ 32 - 2 ^ 28 ->
  snd (disk_handler [lba + 2 ^ 28] 528 c) = snd (disk_handler [lba] 528 c).
Proof.
  intros Hok Hl. change (2 ^ 32 - 2 ^ 28) with 4026531840 in Hl. change (2 ^ 28) with 268435456 in *.
  destruct (ata_read_result lba c 528 Hok ltac:(lia) ltac:(lia)) as [_ ->].
  destruct (ata_read_result (lba + 268435456) c 528 Hok ltac:(lia) ltac:(lia)) as [_ ->].
  change (2 ^ 28) with 268435456. replace (lba + 268435456) with (lba + 1 * 268435456) by lia. by rewrite Z.mod_add by done.
Qed.

(** A sector with no zero byte, printed as a string, is read beyond its end:
    the print has no defined result. *)
Theorem unterminated_sector_overruns {S} (putc : Z -> M S unit) l s :
  Forall (fun b => b <> 0) l -> puts_raw putc l s = None.
Proof.
  intros Hl. revert s. induction Hl as [|b l Hb _ IH]; intros s; [done|]. cbn [puts_raw].
  rewrite (proj2 (Z.eqb_neq b 0)) by done. unfold mbind, M_bind. destruct ((if b =? 10 then putc 13 else mret ()) s) as [[s1 []]|]; [|done].
  destruct (putc b s1) as [[s2 []]|]; [apply IH|done].
Qed.
