(* ===== verification/Services.v ===== *)
(** * The services and jobs of coreinit (coreinit/coreinit.c)

    The objects that coreinit.c itself implements and the jobs it registers,
    each a function on the state [W] that the kernel's invoke acts on.  A job
    returns its result and what it leaves in [*out_block_id]. *)

From S2P Require Import Prelude Capnp Kernel MemMgr Objects Cluster Client JobMemory NetworkRpc NetworkEther.

Definition JOB_TYPE_PCI_SCAN : nat := 0.
Definition JOB_TYPE_DISK_DEMO : nat := 1.
Definition JOB_TYPE_TIMER_BRINGUP : nat := 2.
Definition JOB_TYPE_SMP_BRINGUP : nat := 3.
Definition JOB_TYPE_GREET_FROM_BSP : nat := 4.
Definition JOB_TYPE_RESOURCE_DEMO : nat := 5.
Definition JOB_TYPE_PAGEFAULT_DEMO : nat := 6.
Definition JOB_TYPE_STREAM_SETUP : nat := 7.
Definition JOB_TYPE_STREAM_COW_VERIFY : nat := 8.
Definition JOB_TYPE_SECURINIT_BOOT : nat := 9.
Definition JOB_TYPE_NETWORK_REMOTE_DEMO : nat := 10.
Definition JOB_TYPE_NETWORK_SCHEDULED_ADD : nat := 11.
Definition JOB_TYPE_NETWORK_RESULT_WAITER : nat := 12.

Definition NETWORK_SERVICE_EXECUTOR : Z := 1.
Definition NETWORK_SERVICE_CLUSTER_SCHEDULER : Z := 2.

(** ** Objects *)

Section create_object.
Context {W : Type} (g_kernel_invoke : invoke_fn W) (g_factory : Z).
(** Where [g_bootstrap_records] lies, and CAP_RECORD_SIZE of the kernel's
    cap.h. *)
Context (g_bootstrap_records CAP_RECORD_SIZE : Z).

Definition BOOTSTRAP_RECORD_POOL_SIZE : Z := 32.

(** [g_bootstrap_record_next] and the rest. *)
Definition boot_state : Type := Z * W.

Definition record_storage (i : Z) : Z := g_bootstrap_records + i * CAP_RECORD_SIZE.

Definition create_object (handler data table schema_idx : Z) (s : boot_state) : boot_state * Z :=
  let '(next, w) := s in
  if BOOTSTRAP_RECORD_POOL_SIZE <=? next then (s, 0)
  else
    let '(w, (ok, resp)) :=
      g_kernel_invoke g_factory 0 (reply 64 [handler; data; table; schema_idx; record_storage next]) 24 w in
    (next + 1, w, if negb ok || (response_len resp <? 24) then 0 else word (response_words resp) 0).
End create_object.

(** [g_ticks_seen++], a [uint32_t]. *)
Definition tick_counter_handler (g_ticks_seen : Z) : Z * option (list Z) := (u32 (g_ticks_seen + 1), None).

Definition network_executor_handler (words : list Z) (response_cap : Z) : option (list Z) :=
  let out := if word words 0 =? 1 then [1; u64 (word words 1 + word words 2)] else [0; 0] in
  reply response_cap out.

(** The routers that bind securinit's exception hooks: the hook after the
    call ([set_el0_hook], [set_ring3_hook]) and the reply.  On x86-64,
    [install] is irq_x86_64_install_wrapper. *)
Definition securinit_exception_router (arch_mmu_root_phys : Z) (words : list Z) (response_cap : Z) (hook : Z)
    : Z * option (list Z) :=
  let handler := word words 0 in
  let ok := negb (handler =? 0) && negb (arch_mmu_root_phys =? 0) in
  (if ok then handler else hook, reply response_cap [bool_word ok]).

Definition securinit_ring3_router {S} (install : Z -> Z -> Z -> S -> S * bool) (words : list Z) (response_cap : Z)
    (s : S) (hook : Z) : S * Z * option (list Z) :=
  let '(s, ok) := install (word words 0) (word words 1) (word words 2) s in
  (s, if ok && negb (word words 3 =? 0) then word words 3 else hook, reply response_cap [bool_word ok]).

(** ** The network service *)

Section network_service.
Context {W : Type} (dev : device W) (local_invoke : option (byte_invoke W)).

(** The statics of the service.  [g_network_service_polls] and
    [g_network_announcement] are [uint32_t]. *)
Record network_service := {
  g_network_executor : Z; g_network_scheduler : Z; g_network_machine_node : Z; g_network_owner_core : Z;
  g_network_service_polls : Z; g_network_announcement : Z }.

Definition set_counters (polls announcement : Z) (n : network_service) : network_service :=
  {| g_network_executor := g_network_executor n; g_network_scheduler := g_network_scheduler n;
     g_network_machine_node := g_network_machine_node n; g_network_owner_core := g_network_owner_core n;
     g_network_service_polls := polls; g_network_announcement := announcement |}.

(** The return value: whether to poll on rather than sleep. *)
Definition network_service_poll (topology_self_id : Z) (s : network_service * W) : network_service * W * bool :=
  let '(n, w) := s in
  if negb (g_network_machine_node n =? 1) || (g_network_executor n =? 0) ||
     negb (topology_self_id =? g_network_owner_core n) then (n, w, false)
  else
    let '(w, served) := network_ether_serve_once dev (g_network_machine_node n) local_invoke w in
    if served then (n, w, true)
    else
      let polls := g_network_service_polls n in
      let n := set_counters (u32 (polls + 1)) (g_network_announcement n) n in
      if Z.land polls 0xffff =? 0 then
        let a := g_network_announcement n in
        let n := set_counters (g_network_service_polls n) (u32 (a + 1)) n in
        let '(w, _) :=
          if negb (Z.land a 1 =? 0) && negb (g_network_scheduler n =? 0)
          then network_ether_announce dev (g_network_machine_node n) NETWORK_SERVICE_CLUSTER_SCHEDULER (g_network_scheduler n) w
          else network_ether_announce dev (g_network_machine_node n) NETWORK_SERVICE_EXECUTOR (g_network_executor n) w in
        (n, w, true)
      else (n, w, true).
End network_service.

(** ** Jobs *)

Section jobs.
Context {W : Type} (c : client W).
#[local] Existing Instances M_ret M_bind.

Definition job_network_scheduled_add (left_word right_word self_job_id : Z) : M W (Z * Z) :=
  mret (JOB_FINISHED, u32 (u32 left_word + u32 right_word)).

(** [remote_job_id ctx w]: the field of the [network_result_waiter_t] at
    [ctx]. *)
Definition job_network_result_waiter (remote_job_id : Z -> W -> Z) (ctx self_job_id : Z) : M W (Z * Z) := fun w =>
  let remote := remote_job_id ctx w in
  (value ← scheduler_get_job_result c remote;
   match value with
   | None => mret (JOB_BLOCKED_ON_JOB, remote)
   | Some _ => mret (JOB_FINISHED, 0)
   end) w.

Definition job_greet_from_bsp (ctx self_job_id : Z) : M W (Z * Z) := mret (JOB_FINISHED, 0).

Definition job_resource_demo (ctx self_job_id : Z) : M W (Z * Z) :=
  kb_resource ← scheduler_declare_resource c RESOURCE_KIND_PERIPHERAL 0 0 RESOURCE_SYNC_TRANSFER;
  _ ← scheduler_reassign_resource c kb_resource 1;
  mret (JOB_FINISHED, 0).

Definition STREAM_DEMO_VALUE : Z := 0xCAFEBABE.
Definition COW_DEMO_VALUE : Z := 0xF00DFACE.

(** [store64 a v]: the volatile store of a word; [verify_ctx]: the address of
    the static context. *)
Definition job_stream_setup (pagefault_supported : bool) (store64 : Z -> Z -> W -> W) (verify_ctx : Z)
    (ctx self_job_id : Z) : M W (Z * Z) :=
  if negb pagefault_supported then mret (JOB_FINISHED, 0) else
  got ← scheduler_mutex_try_lock c ALLOCATOR_MUTEX_ID self_job_id;
  if negb got then mret (JOB_BLOCKED_ON_MUTEX, ALLOCATOR_MUTEX_ID) else
  stream ← scheduler_allocate_slice c 4096 RESOURCE_KIND_MEMORY RESOURCE_SYNC_STREAM self_job_id;
  cow ← scheduler_allocate_slice c 4096 RESOURCE_KIND_MEMORY RESOURCE_SYNC_COW self_job_id;
  _ ← scheduler_mutex_unlock c ALLOCATOR_MUTEX_ID self_job_id;
  let '(_, stream_resource_id, stream_base) := stream in
  let '(_, cow_resource_id, cow_base) := cow in
  if (stream_resource_id =? 0) || (cow_resource_id =? 0) then mret (JOB_FINISHED, 0) else
  _ ← (fun w =>
    let w := store64 stream_base STREAM_DEMO_VALUE w in
    let w := store64 cow_base COW_DEMO_VALUE w in
    let w := store64 verify_ctx stream_resource_id w in
    Some (store64 (verify_ctx + 8) cow_resource_id w, tt));
  _ ← scheduler_submit_to_node c (scheduler_node_for_local_core c 1) (Z.of_nat JOB_TYPE_STREAM_COW_VERIFY)
        verify_ctx 5 0 RESOURCE_KIND_NONE 0;
  mret (JOB_FINISHED, 0).

(** ** The second stage *)

(** The regions the second stage gets: its own image's, and the one its
    guests live in. *)
Inductive claimed := Wait (block_id : Z) | NoRegion | Regions (base user_region : Z).

Definition securinit_claim (L : layout) (self_job_id : Z) : M W claimed :=
  got ← scheduler_mutex_try_lock c ALLOCATOR_MUTEX_ID self_job_id;
  if negb got then mret (Wait ALLOCATOR_MUTEX_ID) else
  image ← scheduler_allocate_slice c 0x200000 RESOURCE_KIND_MEMORY RESOURCE_SYNC_TRANSFER self_job_id;
  let '(allocated, resource_id, base) := image in
  let user_region := ALLOC_MIN L + 0x800000 in
  user ← (if allocated : bool
          then scheduler_request_allocation c user_region 0x200000 RESOURCE_KIND_MEMORY RESOURCE_SYNC_TRANSFER
          else mret (false, 0));
  let '(user_allocated, user_resource_id) := user in
  _ ← scheduler_mutex_unlock c ALLOCATOR_MUTEX_ID self_job_id;
  if negb allocated || (resource_id =? 0) then mret NoRegion
  else if negb user_allocated || (user_resource_id =? 0) then mret NoRegion
  else mret (Regions base user_region).

(** [struct securinit_boot_info]. *)
Record securinit_boot_info := {
  h_factory : Z; h_status_sink : Z; h_exception_router : Z; h_bind_method : Z; h_root_phys : Z;
  h_user_region_base : Z; h_user_region_size : Z }.

(** What the rest of the job uses: [stage_load base size] is stage_load_macho
    on the image that is linked in, [create] is create_object on the status
    sink (0) or the exception router (1), [start entry handoff] the call of
    the loaded stage, [stats gate] the Gate's GET_STATS. *)
Record stage_ops := {
  stage_load : Z -> Z -> M W Z;
  create : Z -> M W Z;
  start : Z -> securinit_boot_info -> M W Z;
  stats : Z -> M W unit }.

Definition securinit_launch (st : stage_ops) (g_factory bind_method root_phys base user_region : Z) : M W unit :=
  entry ← stage_load st base 0x200000;
  if entry =? 0 then mret tt else
  sink ← create st 0;
  if sink =? 0 then mret tt else
  router ← create st 1;
  if router =? 0 then mret tt else
  gate_handle ← start st entry
    {| h_factory := g_factory; h_status_sink := sink; h_exception_router := router; h_bind_method := bind_method;
       h_root_phys := root_phys; h_user_region_base := user_region; h_user_region_size := 0x200000 |};
  if gate_handle =? 0 then mret tt else stats st gate_handle.

Definition job_securinit_boot (L : layout) (st : stage_ops) (g_factory bind_method root_phys : Z)
    (ctx self_job_id : Z) : M W (Z * Z) :=
  r ← securinit_claim L self_job_id;
  match r with
  | Wait block_id => mret (JOB_BLOCKED_ON_MUTEX, block_id)
  | NoRegion => mret (JOB_FINISHED, 0)
  | Regions base user_region =>
      _ ← securinit_launch st g_factory bind_method root_phys base user_region; mret (JOB_FINISHED, 0)
  end.
End jobs.

(** ** Registration and submission *)

Section boot.
Context {W : Type}.
#[local] Existing Instances M_ret M_bind.

(** The functions behind the types. *)
Record job_functions := {
  f_pci_scan : @job_fn W; f_disk_demo : @job_fn W; f_timer_bringup : @job_fn W; f_smp_bringup : @job_fn W;
  f_greet : @job_fn W; f_resource_demo : @job_fn W; f_pagefault_demo : @job_fn W; f_stream_setup : @job_fn W;
  f_stream_cow_verify : @job_fn W; f_securinit_boot : @job_fn W; f_network_remote_demo : @job_fn W;
  f_scheduled_add : @job_value_fn W; f_result_waiter : @job_fn W }.

Definition register_job_types (f : job_functions) (t : @job_tables W) : @job_tables W :=
  let t := scheduler_register_job_type JOB_TYPE_PCI_SCAN (f_pci_scan f) t in
  let t := scheduler_register_job_type JOB_TYPE_DISK_DEMO (f_disk_demo f) t in
  let t := scheduler_register_job_type JOB_TYPE_TIMER_BRINGUP (f_timer_bringup f) t in
  let t := scheduler_register_job_type JOB_TYPE_SMP_BRINGUP (f_smp_bringup f) t in
  let t := scheduler_register_job_type JOB_TYPE_GREET_FROM_BSP (f_greet f) t in
  let t := scheduler_register_job_type JOB_TYPE_RESOURCE_DEMO (f_resource_demo f) t in
  let t := scheduler_register_job_type JOB_TYPE_PAGEFAULT_DEMO (f_pagefault_demo f) t in
  let t := scheduler_register_job_type JOB_TYPE_STREAM_SETUP (f_stream_setup f) t in
  let t := scheduler_register_job_type JOB_TYPE_STREAM_COW_VERIFY (f_stream_cow_verify f) t in
  let t := scheduler_register_job_type JOB_TYPE_SECURINIT_BOOT (f_securinit_boot f) t in
  let t := scheduler_register_job_type JOB_TYPE_NETWORK_REMOTE_DEMO (f_network_remote_demo f) t in
  let t := scheduler_register_value_job_type JOB_TYPE_NETWORK_SCHEDULED_ADD (f_scheduled_add f) t in
  scheduler_register_job_type JOB_TYPE_NETWORK_RESULT_WAITER (f_result_waiter f) t.

(** The id a core joins the cluster with. *)
Definition cluster_node_id (g_network_machine_node my_node_id : Z) : Z :=
  if g_network_machine_node =? 0 then my_node_id
  else Z.lor (u64 (Z.shiftl g_network_machine_node 56)) (Z.land my_node_id 0x00ffffffffffffff).

(** What the end of coreinit_main decides by; the contexts are addresses of
    statics. *)
Record boot_facts := {
  is_bsp : bool; have_topo : bool; topo_count : Z; arch_aarch64 : bool; faults_supported : bool;
  network_present : bool; machine_node : Z;
  waiter_ctx : Z; timer_ctx : Z; smp_ctx : Z; pf_ctx : Z }.

(** The jobs coreinit_main submits before it hands over to the scheduler;
    [set_waiter job] is the store to [waiter.remote_job_id]. *)
Definition submit_boot_jobs (c : client W) (set_waiter : Z -> W -> W) (b : boot_facts) : M W unit :=
  let submit type ctx priority := scheduler_submit c (Z.of_nat type) ctx priority 0 RESOURCE_KIND_NONE 0 in
  let skip : M W Z := mret 0 in
  _ ← (if network_present b then
         if machine_node b =? 1 then
           remote_job ← scheduler_submit_values_to_node c (Z.shiftl 2 56) (Z.of_nat JOB_TYPE_NETWORK_SCHEDULED_ADD)
             20 22 210 0 RESOURCE_KIND_NONE 0;
           _ ← (fun w => Some (set_waiter remote_job w, tt));
           if remote_job =? 0 then skip else submit JOB_TYPE_NETWORK_RESULT_WAITER (waiter_ctx b) 209
         else if machine_node b =? 2 then submit JOB_TYPE_NETWORK_REMOTE_DEMO 0 200 else skip
       else skip);
  _ ← (if have_topo b then
         _ ← submit JOB_TYPE_TIMER_BRINGUP (timer_ctx b) 100; submit JOB_TYPE_SMP_BRINGUP (smp_ctx b) 90
       else skip);
  _ ← submit JOB_TYPE_PCI_SCAN 0 50;
  _ ← submit JOB_TYPE_DISK_DEMO 0 50;
  _ ← (if is_bsp b then
         _ ← submit JOB_TYPE_RESOURCE_DEMO 0 10;
         _ ← submit JOB_TYPE_PAGEFAULT_DEMO (pf_ctx b) 5;
         _ ← (if arch_aarch64 b && have_topo b && (topo_count b >? 1) && faults_supported b
              then submit JOB_TYPE_STREAM_SETUP 0 4 else skip);
         submit JOB_TYPE_SECURINIT_BOOT 0 3
       else skip);
  mret tt.
End boot.
