(* ===== verification/ServicesSpec.v ===== *)
(** * What the services and jobs of coreinit guarantee

    The jobs of Services against the cluster scheduler: the regions of the
    second stage, the job that is computed on another machine, the job types,
    and the announcements of the network service. *)

From stdpp Require Import gmap.
From S2P Require Import Prelude Capnp TryLock Kernel MemMgr Objects Cluster ClusterInv ClusterReach.
From S2P Require Import ClusterPick ClusterBind ClusterResults ClusterMembers ClusterMutex ClusterMemory Client ClientSpec JobMemory.
From S2P Require Import NetworkRpc NetworkEther Services.

(** ** The regions of the second stage *)

Definition within (base size a : Z) : Prop := base <= a < base + size.

(** A grant: the bytes were nobody's, and are owned afterwards. *)
Definition granted (m m' : mem_mgr) (base size : Z) : Prop :=
  mem_wf m' /\ (forall a, within base size a -> ~ owned m a) /\
  (forall a, owned m' a <-> owned m a \/ within base size a).

Lemma granted_snoc m m' base size kind :
  mem_wf m' -> fits m base size ->
  claims m' = claims m ++ [{| c_base := base; c_size := size; c_kind := kind; c_used := true |}] ->
  granted m m' base size.
Proof.
  intros Hwf Hf Hc. split; [done|]. split; intros a; [by apply fits_unowned|]. by rewrite (owned_snoc m m' _ a Hc).
Qed.

Lemma alloc_grants L size kind m m' b :
  layout_ok L -> mem_wf m -> is_u64 size ->
  memory_manager_handler L METHOD_ALLOC [size; kind] 40 m = (m', Some [1; b]) -> granted m m' b size.
Proof.
  intros HLo Hwf Hsz. unfold memory_manager_handler. change (METHOD_ALLOC =? METHOD_ALLOC) with true. cbv iota.
  change (word [size; kind] 0) with size. change (word [size; kind] 1) with kind.
  pose proof (alloc_locked_spec L (mem_lock_acquire_wait m) size kind HLo ltac:(by apply mem_wf_lock) Hsz) as Hs.
  destruct (alloc_locked L size kind (mem_lock_acquire_wait m)) as [m1 [b'|]]; [|by intros [= <- ?]].
  change (reply 40 ?ws) with (Some ws). intros [= <- <-]. destruct Hs as (Hwf1 & (_ & _ & Hf) & _ & Hc).
  apply (granted_snoc _ _ _ _ kind); [by apply mem_wf_lock|done|exact Hc].
Qed.

Lemma claim_grants L base size kind m m' :
  mem_wf m -> 0 <= base -> 0 <= size -> base + size < W64 ->
  memory_manager_handler L METHOD_CLAIM [base; size; kind] 24 m = (m', Some [1]) -> granted m m' base size.
Proof.
  intros Hwf Hb Hsz He. unfold memory_manager_handler. change (METHOD_CLAIM =? METHOD_ALLOC) with false.
  change (METHOD_CLAIM =? METHOD_FREE) with false. cbv iota.
  change (word [base; size; kind] 0) with base. change (word [base; size; kind] 1) with size. change (word [base; size; kind] 2) with kind.
  pose proof (claim_locked_spec (mem_lock_acquire_wait m) base size kind ltac:(by apply mem_wf_lock) Hb Hsz He) as Hs.
  destruct (claim_locked base size kind (mem_lock_acquire_wait m)) as [m1 [|]]; [|by intros [= <- ?]].
  change (reply 24 ?ws) with (Some ws). intros [= <-]. destruct Hs as (Hwf1 & _ & Hf & _ & Hc).
  apply (granted_snoc _ _ _ _ kind); [by apply mem_wf_lock|done|exact Hc].
Qed.

Section regions.
Context `{HL : KernelLaws K}.
Context (L : layout) (other : nat -> Z -> list Z -> Z -> option (list Z)).
Implicit Types (st : cstate K).

(** Two creations do not wrap the counters. *)
Definition no_wrap2 st : Prop := g_resource_storage_next st + 2 < W64 /\ g_node_storage_next st + 1 < W64.

Lemma create_next owner kind descr cap sync init st :
  0 <= g_resource_storage_next st -> no_wrap2 st -> no_wrap (fst (create_resource_object owner kind descr cap sync init st)).
Proof.
  intros H0 [H1 H2]. unfold create_resource_object.
  assert (g_resource_storage_next st +64 1 + 1 < W64) by (rewrite u64_small; unfold is_u64; lia).
  case_cond; [by split|]. unfold factory_create. destruct (k_create _ _) as [k' r].
  case_cond; [by split|]. unfold resource_index_claim. by case_match.
Qed.

Lemma allocate_slice_no_wrap words cap st :
  cinv st -> has_memory_manager st -> no_wrap2 st -> no_wrap (fst (handle_allocate_slice L other words cap st)).
Proof.
  intros Hinv Hmm Hw. unfold handle_allocate_slice. change (reply 40 [?a; ?b]) with (Some [a; b]).
  rewrite mm_invoke by done. destruct (memory_manager_handler _ _ _ _ _) as [d a].
  assert (no_wrap2 (set_mem d st)) as Hw' by done. clear Hw.
  case_cond; [|destruct Hw'; split; cbn in *; lia].
  match goal with |- context [create_resource_object ?a ?b ?c ?d ?e ?f ?g] =>
    pose proof (create_next a b c d e f g) as Hn; destruct (create_resource_object a b c d e f g) end.
  apply Hn; [|done]. cbn. destruct (ci_res _ Hinv). tauto.
Qed.

(** REQUEST_ALLOCATION: its answer, what it leaves alone, and the claim behind
    a resource it returns. *)
Lemma request_allocation_result node base size kind sync st :
  cinv st -> no_wrap st -> has_memory_manager st ->
  exists st' ok r, handle_request_allocation L other [node; base; size; kind; sync] 40 st = (st', Some [ok; r]) /\
    cinv st' /\ g_mutex_storage st' = g_mutex_storage st /\ g_mutex_handles st' = g_mutex_handles st /\
    (r <> 0 -> memory_manager_handler L METHOD_CLAIM [base; size; kind] 24 (mem st) = (mem st', Some [1])).
Proof.
  intros Hinv Hw Hmm. pose proof (handle_request_allocation_inv L other [node; base; size; kind; sync] 40 st Hinv Hw) as Hinv'.
  revert Hinv'. unfold handle_request_allocation, word. cbn [nth]. change (reply 48 ?ws) with (Some ws). rewrite mm_invoke by done.
  destruct (memory_manager_handler L 0 [base; size; kind] 24 (mem st)) as [m' a] eqn:Hm. cbn [andb].
  change (reply 40 ?ws) with (Some ws).
  destruct (_ && _) eqn:Hok; [|cbn [fst]; intros Hinv'; do 3 eexists; split_and!; try done].
  apply andb_true_iff in Hok as [_ Hok]. apply negb_true_iff, Z.eqb_neq in Hok.
  assert (a = Some [1]) as ->.
  { unfold memory_manager_handler in Hm. change (0 =? METHOD_ALLOC) with false in Hm. change (0 =? METHOD_FREE) with false in Hm.
    cbv iota in Hm. destruct (claim_locked _ _ _ _) as [m1 [|]]; change (reply 24 ?ws) with (Some ws) in Hm; injection Hm as <- <-; [done|].
    by cbn in Hok. }
  destruct (alloc_record_quiet node base size kind (set_mem m' st)) as [Hinv2 Hw2]; [by destruct Hinv|].
  pose proof (create_resource_object_frame node RESOURCE_KIND_MEMORY base size sync 0 (alloc_record node base size kind (set_mem m' st)) Hinv2) as Hf.
  assert (let st' := fst (create_resource_object node RESOURCE_KIND_MEMORY base size sync 0 (alloc_record node base size kind (set_mem m' st))) in
    g_mutex_storage st' = g_mutex_storage st /\ g_mutex_handles st' = g_mutex_handles st) as [Hms Hmh].
  { unfold create_resource_object, alloc_record, factory_create, resource_index_claim. repeat case_match; by simplify_eq. }
  destruct (create_resource_object _ _ _ _ _ _ _) as [st2 r]. cbn [fst] in *. intros Hinv'.
  exists st2, 1, r. split_and!; [done..|]. intros _. destruct Hf as (-> & _).
  unfold METHOD_CLAIM. rewrite Hm. f_equal. unfold alloc_record. by case_match.
Qed.

Context (c : client (cstate K)) (invoke : invoke_fn (cstate K)) (h node : Z).
Hypothesis Hbound : bound c invoke h node.
Context `{!Serves L other invoke h}.

Lemma request_served base size kind sync st st' ok r :
  handle_request_allocation L other [node; base; size; kind; sync] 40 st = (st', Some [ok; r]) ->
  scheduler_request_allocation c base size kind sync st = Some (st', (negb (ok =? 0), r)).
Proof.
  intros E. unfold scheduler_request_allocation, mbind, M_bind.
  assert (scheduler_node_id c = node) as -> by (unfold scheduler_node_id; by rewrite Hbound).
  change (reply 64 ?ws) with (Some ws).
  by rewrite (asked_served L other c invoke h node METHOD_REQUEST_ALLOCATION [node; base; size; kind; sync] 40 32 st st' [ok; r] Hbound _ eq_refl E).
Qed.

(** The allocator's mutex is held by [job]. *)
Definition held (job : Z) st : Prop :=
  cinv st /\ mutex_known 0 st /\ allocator st = {| m_locked := true; m_holder_job_id := job |}.

Lemma held_give job st :
  held job st ->
  exists st', scheduler_mutex_unlock c ALLOCATOR_MUTEX_ID job st = Some (st', tt) /\
    m_locked (allocator st') = false /\ mem st' = mem st.
Proof.
  intros (Hinv & Hk & Ha). destruct (allocator_give L other job st Hinv Hk) as [Hf Hm]; [by rewrite Ha..|].
  eexists. split; [by apply (unlock_served L other c invoke h node Hbound)|]. destruct Hf as (_ & Hmem & _). split; [|done].
  unfold allocator. rewrite Hm, nth_insert_eq; [done|]. destruct (ci_mutex _ Hinv) as (_ & -> & _). apply Nat.lt_0_succ.
Qed.

Lemma held_taken job st :
  cinv st -> mutex_known 0 st -> m_locked (allocator st) = false ->
  exists st0, scheduler_mutex_try_lock c ALLOCATOR_MUTEX_ID job st = Some (st0, true) /\ held job st0 /\
    mem st0 = mem st /\ k st0 = k st /\ g_memory_manager st0 = g_memory_manager st /\
    g_resource_storage_next st0 = g_resource_storage_next st /\ g_node_storage_next st0 = g_node_storage_next st.
Proof.
  intros Hinv Hk Hl. pose proof (allocator_take L other job st Hinv Hk Hl) as Htake.
  pose proof (handle_mutex_try_lock_inv L other [0; job] 24 st Hinv) as Hinv0. rewrite Htake in Hinv0. cbn [fst] in Hinv0.
  eexists. split; [by apply (try_lock_served L other c invoke h node Hbound job st _ 1 Htake)|].
  split_and!; try done. split_and!; [done|done|]. unfold allocator. cbn. apply nth_insert_eq.
  destruct (ci_mutex _ Hinv) as (_ & -> & _). apply Nat.lt_0_succ.
Qed.

Lemma allocate_keeps_mm size kind sync job st :
  cinv st -> has_memory_manager st ->
  has_memory_manager (fst (handle_allocate_slice L other [node; job; size; kind; sync] 40 st)).
Proof.
  intros Hinv Hmm. unfold handle_allocate_slice, word. cbn [nth]. change (reply 40 [?a; ?b]) with (Some [a; b]). rewrite mm_invoke by done.
  destruct (memory_manager_handler _ _ _ _ _) as [d a]. case_cond; [|done].
  match goal with |- context [create_resource_object ?a ?b ?c ?d ?e ?f ?g] =>
    pose proof (create_resource_object_frame a b c d e f g) as Hf; destruct (create_resource_object a b c d e f g) end.
  destruct Hf as (_ & Hg & Hn & _); [by destruct Hinv|]. unfold has_memory_manager. cbn [fst]. rewrite Hg. by apply Hn.
Qed.
(** ALLOCATE_SLICE through the client, with the mutex held. *)
Lemma held_allocate size kind sync job st :
  held job st -> no_wrap2 st -> has_memory_manager st ->
  exists st1 ok r b, scheduler_allocate_slice c size kind sync job st = Some (st1, (negb (ok =? 0), r, b)) /\
    held job st1 /\ no_wrap st1 /\ has_memory_manager st1 /\
    (r <> 0 -> memory_manager_handler L METHOD_ALLOC [size; kind] 40 (mem st) = (mem st1, Some [1; b])).
Proof.
  intros (Hinv & Hk & Ha) Hw Hmm. assert (no_wrap st) as Hw1 by (destruct Hw; split; lia).
  destruct (allocate_slice_answers L other [node; job; size; kind; sync] st) as (ok & r & b & Han & Hok).
  destruct (handle_allocate_slice L other [node; job; size; kind; sync] 40 st) as [st1 a] eqn:E. cbn [snd] in Han. subst a.
  pose proof (allocate_slice_mutexes L other [node; job; size; kind; sync] 40 st Hmm) as [Hm1 Hh1].
  pose proof (handle_allocate_slice_inv L other [node; job; size; kind; sync] 40 st Hinv Hw1) as Hinv1.
  pose proof (allocate_slice_no_wrap [node; job; size; kind; sync] 40 st Hinv Hmm Hw) as Hw2.
  pose proof (allocate_keeps_mm size kind sync job st Hinv Hmm) as Hmm1. rewrite E in Hm1, Hh1, Hinv1, Hw2, Hmm1. cbn [fst] in *.
  exists st1, ok, r, b. split_and!; [by apply (allocate_served L other c invoke h node Hbound)| |done|done|].
  - split_and!; [done|unfold mutex_known; by rewrite Hh1|unfold allocator; by rewrite Hm1].
  - intros Hr. rewrite (Hok Hr) in E.
    destruct (allocate_slice_ok L other _ _ _ _ _ _ _ _ _ Hinv Hw1 Hmm Hr E) as (Hm & _). done.
Qed.


Lemma securinit_claim_spec job st :
  cinv st -> no_wrap2 st -> has_memory_manager st -> mutex_known 0 st -> layout_ok L -> mem_wf (mem st) ->
  let user_region := ALLOC_MIN L + 0x800000 in
  user_region + 0x200000 < W64 ->
  exists st' r, securinit_claim c L job st = Some (st', r) /\
    if m_locked (allocator st) then r = Wait ALLOCATOR_MUTEX_ID /\ mem st' = mem st
    else m_locked (allocator st') = false /\
      (r = NoRegion \/
       exists base m, r = Regions base user_region /\
         granted (mem st) m base 0x200000 /\ granted m (mem st') user_region 0x200000).
Proof.
  intros Hinv Hw Hmm Hk HLo Hwf user_region Hu. destruct (m_locked (allocator st)) eqn:Hl.
  { destruct (allocator_refuse L other job st Hinv Hk Hl) as (st' & E & (_ & Hm & _) & _).
    exists st', (Wait ALLOCATOR_MUTEX_ID). unfold securinit_claim, mbind, M_bind.
    by rewrite (try_lock_served L other c invoke h node Hbound job st st' 0 E). }
  destruct (held_taken job st Hinv Hk Hl) as (st0 & E0 & Hh0 & Em0 & Ek0 & Eg0 & Er0 & En0).
  assert (no_wrap2 st0) as Hw0 by (destruct Hw; split; lia).
  assert (has_memory_manager st0) as Hmm0 by (unfold has_memory_manager; by rewrite Ek0, Eg0).
  destruct (held_allocate 0x200000 RESOURCE_KIND_MEMORY RESOURCE_SYNC_TRANSFER job st0 Hh0 Hw0 Hmm0)
    as (st1 & ok & r & b & E1 & Hh1 & Hw1 & Hmm1 & Hg1).
  unfold securinit_claim, mbind, M_bind. rewrite E0. cbn [negb]. rewrite E1. cbv beta iota.
  destruct (Z.eqb_spec ok 0) as [->|Hok]; cbn [negb].
  { cbn. destruct (held_give job st1 Hh1) as (st' & E' & Hl' & _). rewrite E'. cbn [orb]. exists st', NoRegion. auto. }
  destruct (request_allocation_result node user_region 0x200000 RESOURCE_KIND_MEMORY RESOURCE_SYNC_TRANSFER st1
    (proj1 Hh1) Hw1 Hmm1) as (st2 & ok2 & r2 & E2 & Hinv2 & Hms2 & Hmh2 & Hg2).
  fold user_region. rewrite (request_served _ _ _ _ _ _ _ _ E2).
  assert (held job st2) as Hh2.
  { destruct Hh1 as (_ & Hk1 & Ha1). split_and!; [done|unfold mutex_known; by rewrite Hmh2|unfold allocator; by rewrite Hms2]. }
  destruct (held_give job st2 Hh2) as (st' & E' & Hl' & Hm'). rewrite E'. cbn [orb].
  destruct (Z.eqb_spec r 0) as [Hr|Hr]; [exists st', NoRegion; auto|].
  destruct (negb (negb (ok2 =? 0)) || (r2 =? 0)) eqn:Hf; [exists st', NoRegion; auto|].
  apply orb_false_iff in Hf as [_ Hr2]. apply Z.eqb_neq in Hr2.
  exists st', (Regions b user_region). split; [done|]. split; [done|]. right. exists b, (mem st1).
  assert (granted (mem st) (mem st1) b 0x200000) as G1.
  { apply (alloc_grants L 0x200000 RESOURCE_KIND_MEMORY); [done|done|by split|]. rewrite <- Em0. by apply Hg1. }
  split; [done|]. split; [done|]. rewrite Hm'. apply (claim_grants L _ _ RESOURCE_KIND_MEMORY); [apply G1| |lia|done|by apply Hg2].
  destruct HLo. unfold user_region. lia.
Qed.
End regions.

(** Two regions of which one is a whole aligned block share no block. *)
Lemma blocks_apart a b n x y :
  0 < n -> b mod n = 0 -> (forall z, within b n z -> ~ within a n z) -> within a n x -> within b n y -> x / n <> y / n.
Proof.
  intros Hn Hb Hd Hx Hy E. apply (Hd x); [|done]. unfold within in *.
  pose proof (Z.div_mod x n ltac:(lia)). pose proof (Z.div_mod y n ltac:(lia)). pose proof (Z.div_mod b n ltac:(lia)).
  pose proof (Z.mod_pos_bound x n Hn). pose proof (Z.mod_pos_bound y n Hn).
  assert (y / n = b / n) as E2 by (symmetry; apply (Z.div_unique_pos y n (b / n) (y - b)); lia).
  rewrite E, E2 in *. lia.
Qed.

(** C21: The second stage and its guests get memory of their own.  The job that
    boots the second stage, run on any state of the cluster, waits when the
    allocator's mutex is taken; otherwise it leaves the mutex free, and goes
    on to load and start the stage only with an image region and the user
    region, both of 2 MiB, which nobody owned before, which are owned
    afterwards along with everything that was, and which have no byte and no
    2 MiB page-table block in common. *)
Theorem securinit_regions_private `{HL : KernelLaws K} L other (c : client (cstate K)) invoke h node job st :
  bound c invoke h node -> Serves L other invoke h ->
  cinv st -> no_wrap2 st -> has_memory_manager st -> mutex_known 0 st -> layout_ok L -> mem_wf (mem st) ->
  ALLOC_MIN L mod 0x200000 = 0 -> ALLOC_MIN L + 0xA00000 < W64 ->
  exists st' r, securinit_claim c L job st = Some (st', r) /\
    if m_locked (allocator st) then r = Wait ALLOCATOR_MUTEX_ID /\ mem st' = mem st
    else m_locked (allocator st') = false /\
      forall base user_region, r = Regions base user_region ->
        (forall a, owned (mem st) a -> ~ within base 0x200000 a /\ ~ within user_region 0x200000 a) /\
        (forall a, owned (mem st') a <-> owned (mem st) a \/ within base 0x200000 a \/ within user_region 0x200000 a) /\
        (forall x y, within base 0x200000 x -> within user_region 0x200000 y -> x / 0x200000 <> y / 0x200000).
Proof.
  intros Hb Hs Hinv Hw Hmm Hk HLo Hwf Hal Hu.
  destruct (securinit_claim_spec L other c invoke h node Hb job st Hinv Hw Hmm Hk HLo Hwf ltac:(lia)) as (st' & r & E & Hr).
  exists st', r. split; [done|]. destruct (m_locked (allocator st)); [done|]. destruct Hr as [Hl Hr]. split; [done|].
  intros base user_region ->. destruct Hr as [?|(b & m & [= -> ->] & (_ & G1 & G2) & (_ & G3 & G4))]; [done|].
  split_and!.
  - intros a Ha. split; intros Hin; [by apply (G1 a Hin)|]. apply (G3 a Hin). apply G2. by left.
  - intros a. rewrite G4, G2. tauto.
  - intros x y. apply blocks_apart; [lia| |].
    + rewrite <- Z.add_mod_idemp_l, Hal by lia. done.
    + intros z Hz Hz'. apply (G3 z Hz). apply G2. by right.
Qed.

Lemma demo_no_wrap2 : no_wrap2 demo_state.
Proof. by vm_compute. Qed.

(** On the demonstration state, job 15 gets the bottom of the window for the
    image and the block at 8 MiB for the guests. *)
Lemma securinit_regions_private_witness :
  exists st', securinit_claim demo_client layout_x86_64 15 demo_state = Some (st', Regions 0x1C00000 0x2400000) /\
    m_locked (allocator st') = false /\
    (forall x y, within 0x1C00000 0x200000 x -> within 0x2400000 0x200000 y -> x / 0x200000 <> y / 0x200000).
Proof.
  assert (snd <$> securinit_claim demo_client layout_x86_64 15 demo_state = Some (Regions 0x1C00000 0x2400000)) as Hs
    by (vm_compute; reflexivity).
  destruct (securinit_regions_private layout_x86_64 no_other demo_client _ 99 1 15 demo_state demo_bound _ demo_inv demo_no_wrap2
    demo_mm demo_allocator x86_layout_ok) as (st' & r & E & Hr).
  - rewrite demo_mem. apply mem_boot_wf.
  - reflexivity.
  - reflexivity.
  - rewrite E in Hs. cbn in Hs. injection Hs as ->. exists st'. split; [exact E|].
    replace (m_locked (allocator demo_state)) with false in Hr by (vm_compute; reflexivity).
    destruct Hr as [Hl Hr]. split; [exact Hl|]. exact (proj2 (proj2 (Hr _ _ eq_refl))).
Defined.

(** ** Job types *)

Section types.
Context {W : Type} (f : @job_functions W).

(** The tables as the image starts with them. *)
Definition no_types : @job_tables W :=
  {| g_job_type_table := replicate JOB_TYPE_COUNT None; g_job_value_type_table := replicate JOB_TYPE_COUNT None |}.

Definition plain_functions : list (@job_fn W) :=
  [f_pci_scan f; f_disk_demo f; f_timer_bringup f; f_smp_bringup f; f_greet f; f_resource_demo f; f_pagefault_demo f;
   f_stream_setup f; f_stream_cow_verify f; f_securinit_boot f; f_network_remote_demo f].

(** Every node resolves every type to its function: the eleven plain jobs in
    the order of the enumeration, the value job, the waiter; any other type
    finishes at once. *)
Lemma registered_types type a0 a1 job w :
  0 <= type ->
  run_job (register_job_types f no_types) type a0 a1 job w =
  match plain_functions !! Z.to_nat type with
  | Some fn => fn a0 job w
  | None => if type =? 11 then f_scheduled_add f a0 a1 job w
            else if type =? 12 then f_result_waiter f a0 job w else Some (w, (JOB_FINISHED, 0))
  end.
Proof.
  intros Ht. destruct (decide (type < 13)) as [Hlt|Hge].
  - assert (In type (map Z.of_nat (seq 0 13))) as Hin.
    { apply in_map_iff. exists (Z.to_nat type). rewrite in_seq. lia. }
    cbn in Hin. repeat destruct Hin as [<-|Hin]; [reflexivity..|done].
  - unfold run_job, table_entry. change (Z.of_nat JOB_TYPE_COUNT) with 13. rewrite (proj2 (Z.ltb_ge _ _)) by lia.
    rewrite (proj2 (Z.eqb_neq type 11)), (proj2 (Z.eqb_neq type 12)) by lia.
    rewrite lookup_ge_None_2 by (cbn; lia). done.
Qed.
End types.

(** ** A job computed on another machine *)

Section remote.
Context `{HL : KernelLaws K}.
Context (L : layout) (other : nat -> Z -> list Z -> Z -> option (list Z)).
Implicit Types (st : cstate K).

Lemma get_result_served c invoke h node job st :
  bound c invoke h node -> Serves L other invoke h ->
  scheduler_get_job_result c job st =
  Some (storage_lock_release (storage_lock_acquire_wait st), completion_find job st).
Proof.
  intros Hb Hs. unfold scheduler_get_job_result, mbind, M_bind. change (reply 24 [job]) with (Some [job]).
  rewrite (asked_served L other c invoke h node METHOD_GET_JOB_RESULT [job] 32 32 st
    (storage_lock_release (storage_lock_acquire_wait st)) [bool_word (bool_decide (is_Some (completion_find job st))); default 0 (completion_find job st)] Hb _ eq_refl);
    [|done|done]. cbn. by destruct (completion_find job st).
Qed.

Lemma stale_free_none job st : stale_free job st -> completion_find job st = None.
Proof.
  intros Hs. unfold completion_find. rewrite (proj2 (first_index_None _ _)); [done|]. intros j e He.
  destruct (cp_used e) eqn:Hu; [|done]. cbn. apply Z.eqb_neq. apply Hs; [by eapply list_elem_of_lookup_2|done].
Qed.
End remote.

(** C10: A sum is computed on another node and comes back.  Two nodes talk to the
    same cluster scheduler, each through an invoke function of its own; the
    second is given a job of the type NETWORK_SCHEDULED_ADD.  Before it runs,
    the waiter on the first node blocks on that job; one round of the second
    node's worker loop then runs the registered function on the job's two
    words, and after it the waiter finishes, and the result the first node
    reads is the 32-bit sum. *)
Theorem remote_sum_returns `{HL : KernelLaws K} L other (c1 c2 : client (cstate K)) invoke1 invoke2 h1 h2 node1 node2
    f remote_job_id hook ctx self st i :
  bound c1 invoke1 h1 node1 -> Serves L other invoke1 h1 ->
  bound c2 invoke2 h2 node2 -> Serves L other invoke2 h2 ->
  f_scheduled_add f = job_network_scheduled_add ->
  cinv st -> chosen other node2 st i -> length (g_completions st) = JOB_POOL_SIZE ->
  let job := g_job_handles st !!? i in
  let j := g_job_storage st !!? i in
  let sum := (j_arg0 j + j_arg1 j) mod 2 ^ 32 in
  j_type j = Z.of_nat JOB_TYPE_NETWORK_SCHEDULED_ADD -> stale_free job st ->
  (forall st', remote_job_id ctx st' = job) ->
  (exists st0, job_network_result_waiter c1 remote_job_id ctx self st = Some (st0, (JOB_BLOCKED_ON_JOB, job))) /\
  exists st1 st2, scheduler_round c2 (register_job_types f no_types) hook st = Some (st1, Ran job JOB_FINISHED sum) /\
    scheduler_get_job_result c1 job st1 = Some (st2, Some sum) /\
    job_network_result_waiter c1 remote_job_id ctx self st1 = Some (st2, (JOB_FINISHED, 0)).
Proof.
  intros Hb1 Hs1 Hb2 Hs2 Hf Hinv Hch Hlen job j sum Hty Hst Hctx. split.
  { unfold job_network_result_waiter, mbind, M_bind. rewrite Hctx, (get_result_served L other c1 invoke1 h1 node1) by done.
    rewrite stale_free_none by done. by eexists. }
  destruct (worker_delivers L other c2 invoke2 h2 node2 Hb2 (register_job_types f no_types) hook st i (f_scheduled_add f) sum
    Hinv Hch Hlen Hst) as (st1 & st2 & E1 & _ & E2).
  { fold j. by rewrite Hty. }
  { intros w. rewrite Hf. fold j job. unfold job_network_scheduled_add, mret, M_ret. do 3 f_equal. unfold sum, u32.
    change (2 ^ 32) with 4294967296. by rewrite <- Zplus_mod. }
  fold job in E1, E2. rewrite (get_result_served L other c2 invoke2 h2 node2) in E2 by done. injection E2 as <- Hc.
  exists st1, (storage_lock_release (storage_lock_acquire_wait st1)). split; [done|].
  unfold job_network_result_waiter, mbind, M_bind. rewrite Hctx, (get_result_served L other c1 invoke1 h1 node1) by done.
  by rewrite Hc.
Qed.

(** The coordinator, machine 1, joins and submits the sum before machine 2
    joins. *)
Definition remote_requests : list (Z * list Z) :=
  [(METHOD_JOIN_NODE, [cluster_node_id 1 0; 0; 5]);
   (METHOD_SUBMIT_JOB, [Z.shiftl 2 56; 11; 20; 22; 210; 0; RESOURCE_KIND_NONE; 0]);
   (METHOD_JOIN_NODE, [cluster_node_id 2 0; 0; 6])].

Definition remote_state : cstate counter_kernel :=
  fst (run_requests layout_x86_64 no_other remote_requests cluster_boot).

Lemma remote_inv : cinv remote_state.
Proof. eapply reachable_cinv. apply run_reachable; [apply boot_reachable|vm_compute; reflexivity]. Qed.

Lemma remote_chosen : chosen no_other (cluster_node_id 2 0) remote_state 0.
Proof.
  left. split_and!; [unfold JOB_POOL_SIZE; lia|vm_compute; reflexivity|].
  assert (forallb (fun i => implb (ready no_other (cluster_node_id 2 0) remote_state i) (i =? 0)%nat) (seq 0 JOB_POOL_SIZE) = true) as Hall
    by (vm_compute; reflexivity).
  rewrite forallb_forall in Hall. intros i Hi Hr. specialize (Hall i). rewrite in_seq in Hall.
  specialize (Hall ltac:(lia)). rewrite Hr in Hall. cbn [implb] in Hall. apply Nat.eqb_eq in Hall as ->. right. lia.
Qed.

Definition node_client (h node : Z) : client (cstate counter_kernel) :=
  scheduler_client_init (local_invoke layout_x86_64 no_other h) h node
    {| core_binding := None; g_binding := {| b_invoke := None; b_cluster := 0; b_node_id := 0 |} |}.

(** Jobs that do nothing, but for the sum. *)
Definition idle_functions {W} : @job_functions W :=
  let idle : @job_fn W := fun _ _ w => Some (w, (JOB_FINISHED, 0)) in
  {| f_pci_scan := idle; f_disk_demo := idle; f_timer_bringup := idle; f_smp_bringup := idle; f_greet := idle;
     f_resource_demo := idle; f_pagefault_demo := idle; f_stream_setup := idle; f_stream_cow_verify := idle;
     f_securinit_boot := idle; f_network_remote_demo := idle; f_scheduled_add := job_network_scheduled_add;
     f_result_waiter := idle |}.

Lemma remote_sum_returns_witness :
  let job := g_job_handles remote_state !!? 0%nat in
  let c1 := node_client 98 (cluster_node_id 1 0) in
  let c2 := node_client 99 (cluster_node_id 2 0) in
  (exists st0, job_network_result_waiter c1 (fun _ _ => job) 0 7 remote_state = Some (st0, (JOB_BLOCKED_ON_JOB, job))) /\
  exists st1 st2, scheduler_round c2 (register_job_types idle_functions no_types) None remote_state = Some (st1, Ran job JOB_FINISHED 42) /\
    scheduler_get_job_result c1 job st1 = Some (st2, Some 42) /\
    job_network_result_waiter c1 (fun _ _ => job) 0 7 st1 = Some (st2, (JOB_FINISHED, 0)).
Proof.
  intros job c1 c2.
  assert ((j_arg0 (g_job_storage remote_state !!? 0%nat) + j_arg1 (g_job_storage remote_state !!? 0%nat)) mod 2 ^ 32 = 42) as E
    by (vm_compute; reflexivity).
  pose proof (remote_sum_returns layout_x86_64 no_other c1 c2 (local_invoke layout_x86_64 no_other 98)
    (local_invoke layout_x86_64 no_other 99) 98 99 (cluster_node_id 1 0) (cluster_node_id 2 0) idle_functions
    (fun _ _ => job) None 0 7 remote_state 0 eq_refl _ eq_refl _ eq_refl remote_inv remote_chosen) as H.
  cbv zeta in H. rewrite E in H. apply H; [vm_compute; reflexivity|vm_compute; reflexivity| |reflexivity].
  apply unused_stale_free. vm_compute. reflexivity.
Defined.

(** ** Node ids *)

Lemma low_high_disjoint a n : 0 <= n < 2 ^ 56 -> Z.land n (Z.shiftl a 56) = 0.
Proof.
  intros Hn. apply Z.bits_inj'. intros k Hk. rewrite Z.land_spec, Z.shiftl_spec, Z.bits_0 by done. destruct (decide (k < 56)).
  - rewrite (Z.testbit_neg_r _ (k - 56)) by lia. apply andb_false_r.
  - rewrite <- (Z.mod_small n (2 ^ 56)) by done. by rewrite Z.mod_pow2_bits_high by lia.
Qed.

(** The id of a core of a machine on the network: the machine above, the core
    below. *)
Lemma node_id_parts m n :
  0 < m < 256 -> 0 <= n < 2 ^ 56 ->
  cluster_node_id m n = Z.lor (Z.shiftl m 56) n /\
  Z.land (cluster_node_id m n) 0xff00000000000000 = Z.shiftl m 56 /\ cluster_node_id m n = m * 2 ^ 56 + n.
Proof.
  intros Hm Hn. assert (cluster_node_id m n = Z.lor (Z.shiftl m 56) n) as E.
  { unfold cluster_node_id. rewrite (proj2 (Z.eqb_neq m 0)) by lia. f_equal.
    - apply u64_small. rewrite Z.shiftl_mul_pow2 by lia. unfold is_u64, W64. lia.
    - change 0x00ffffffffffffff with (Z.ones 56). rewrite Z.land_ones by lia. by apply Z.mod_small. }
  split; [done|]. rewrite E. split.
  - rewrite Z.land_lor_distr_l. change 0xff00000000000000 with (Z.shiftl (Z.ones 8) 56).
    rewrite (low_high_disjoint _ n), Z.lor_0_r, <- Z.shiftl_land, Z.land_ones, (Z.mod_small m) by (lia || done). done.
  - pose proof (Z.add_lor_land (Z.shiftl m 56) n) as Ha. rewrite (Z.land_comm _ n), low_high_disjoint in Ha by done.
    rewrite (Z.shiftl_mul_pow2 m) in * by lia. lia.
Qed.

(** Cores of machines that are on the network get different ids, and the
    client's [scheduler_node_for_local_core] on any core of a machine is the
    id that the machine's core joined with. *)
Theorem node_ids_distinct m1 n1 m2 n2 :
  0 < m1 < 256 -> 0 < m2 < 256 -> 0 <= n1 < 2 ^ 56 -> 0 <= n2 < 2 ^ 56 ->
  (cluster_node_id m1 n1 = cluster_node_id m2 n2 -> m1 = m2 /\ n1 = n2) /\
  forall W (c : client W), scheduler_get_my_node_id c = cluster_node_id m1 n1 ->
    scheduler_node_for_local_core c n2 = cluster_node_id m1 n2.
Proof.
  intros Hm1 Hm2 Hn1 Hn2.
  destruct (node_id_parts m1 n1) as (_ & L1 & V1); [done..|]. destruct (node_id_parts m2 n2) as (_ & _ & V2); [done..|].
  destruct (node_id_parts m1 n2) as (O12 & _ & _); [done..|]. split.
  - rewrite V1, V2. lia.
  - intros W c Hc. unfold scheduler_node_for_local_core. rewrite Hc, L1, O12. f_equal.
    change 0x00ffffffffffffff with (Z.ones 56). rewrite Z.land_ones by lia. by apply Z.mod_small.
Qed.

(** ** Announcements *)

Section announcements.
Context {W : Type} (dev : device W) (local_invoke : option (byte_invoke W)) (self : Z).

(** The service runs on this core, and its polls find no request. *)
Definition serving (n : network_service) : Prop :=
  g_network_machine_node n = 1 /\ g_network_executor n <> 0 /\ g_network_scheduler n <> 0 /\ g_network_owner_core n = self.

Definition announce (n : network_service) (w : W) (i : nat) : W :=
  fst (if Z.odd (Z.of_nat i)
       then network_ether_announce dev 1 NETWORK_SERVICE_CLUSTER_SCHEDULER (g_network_scheduler n) w
       else network_ether_announce dev 1 NETWORK_SERVICE_EXECUTOR (g_network_executor n) w).

Fixpoint polls (k : nat) (s : network_service * W) : network_service * W :=
  match k with O => s | S k => fst (network_service_poll dev local_invoke self (polls k s)) end.

Lemma poll_of_counter k : Z.land (u32 (Z.of_nat k)) 0xffff = Z.of_nat k mod 65536.
Proof.
  change 0xffff with (Z.ones 16). rewrite Z.land_ones by lia. unfold u32. change (2 ^ 16) with 65536.
  apply Z.mod_mod_divide. by exists 65536.
Qed.

Lemma parity_of_counter k : negb (Z.land (u32 (Z.of_nat k)) 1 =? 0) = Z.odd (Z.of_nat k).
Proof.
  change 1 with (Z.ones 1) at 1. rewrite Z.land_ones by lia. unfold u32. change (2 ^ 1) with 2.
  rewrite Z.mod_mod_divide by by exists 2147483648. rewrite Zmod_odd. by destruct (Z.odd _).
Qed.

Lemma u32_succ k : u32 (u32 (Z.of_nat k) + 1) = u32 (Z.of_nat (S k)).
Proof. unfold u32. rewrite Z.add_mod_idemp_l by done. f_equal. lia. Qed.

(** The announcements made in the first [k] polls. *)
Definition announced (k : nat) : nat := Z.to_nat ((Z.of_nat k + 65535) / 65536).

Lemma announced_step k :
  announced (S k) = if Z.of_nat k mod 65536 =? 0 then S (announced k) else announced k.
Proof.
  unfold announced. destruct (Z.eqb_spec (Z.of_nat k mod 65536) 0) as [E|NE].
  - rewrite <- Z2Nat.inj_succ by (apply Z.div_pos; lia). f_equal. Z.to_euclidean_division_equations. lia.
  - f_equal. Z.to_euclidean_division_equations. lia.
Qed.

Lemma polls_announce n0 w0 k :
  serving n0 -> g_network_service_polls n0 = 0 -> g_network_announcement n0 = 0 ->
  (forall w, network_ether_serve_once dev 1 local_invoke w = (w, false)) ->
  polls k (n0, w0) = (set_counters (u32 (Z.of_nat k)) (u32 (Z.of_nat (announced k))) n0,
                      fold_left (announce n0) (seq 0 (announced k)) w0).
Proof.
  intros (Hm & He & Hs & Ho) Hp Ha Hidle. induction k as [|k IH].
  { cbn. f_equal. destruct n0. cbn in *. by subst. }
  cbn [polls]. rewrite IH. unfold network_service_poll. cbn [set_counters g_network_machine_node g_network_executor g_network_owner_core].
  rewrite Hm, Ho, (proj2 (Z.eqb_neq _ _) He), !Z.eqb_refl. cbn [negb orb]. rewrite Hidle.
  unfold set_counters. cbn [g_network_service_polls g_network_announcement g_network_scheduler g_network_machine_node g_network_executor g_network_owner_core].
  rewrite poll_of_counter, announced_step. destruct (Z.of_nat k mod 65536 =? 0).
  - rewrite parity_of_counter, (proj2 (Z.eqb_neq _ _) Hs), !u32_succ. cbn [negb andb]. rewrite andb_true_r.
    rewrite seq_S, fold_left_app. cbn [fold_left Nat.add]. set (w1 := fold_left (announce n0) (seq 0 (announced k)) w0).
    unfold announce. destruct (Z.odd _); by destruct (network_ether_announce _ _ _ _ _).
  - rewrite u32_succ. done.
Qed.
End announcements.

(** Discovery goes on while the link is quiet: on the machine that offers the
    services, the first [k] polls that find no request have sent exactly one
    announcement in every 65536, beginning with the first poll, of the
    executor and of the cluster scheduler in turns, whatever the counters'
    wrap-around. *)
Theorem announcements_alternate {W} (dev : device W) local_invoke self n0 w0 k :
  serving self n0 -> g_network_service_polls n0 = 0 -> g_network_announcement n0 = 0 ->
  (forall w, network_ether_serve_once dev 1 local_invoke w = (w, false)) ->
  snd (polls dev local_invoke self k (n0, w0)) =
  fold_left (announce dev n0) (seq 0 (Z.to_nat ((Z.of_nat k + 65535) / 65536))) w0.
Proof. intros Hn Hp Ha Hidle. by rewrite polls_announce. Qed.

(** A link on which nothing arrives; the frames sent are kept. *)
Definition quiet_link : device (list (list Z)) :=
  {| network_device_mac := [2; 0; 0; 0; 0; 1]; network_device_send := fun f w => (w ++ [f], true);
     network_device_poll := fun _ w => (w, None) |}.

Lemma announcements_alternate_witness :
  let n0 := {| g_network_executor := 21; g_network_scheduler := 34; g_network_machine_node := 1; g_network_owner_core := 0;
               g_network_service_polls := 0; g_network_announcement := 0 |} in
  let payload f := drop 14 f in
  map payload (snd (polls quiet_link None 0 (Z.to_nat 70000) (n0, []))) =
  [capnp_build_flat 48 [ANNOUNCE_MAGIC; 1; NETWORK_SERVICE_EXECUTOR; 21];
   capnp_build_flat 48 [ANNOUNCE_MAGIC; 1; NETWORK_SERVICE_CLUSTER_SCHEDULER; 34]].
Proof.
  intros n0 payload. rewrite (announcements_alternate quiet_link None 0 n0 [] (Z.to_nat 70000)); [|done|done|done|done].
  rewrite Z2Nat.id by lia. vm_compute. reflexivity.
Defined.

(** ** The boot jobs run in the order of their priorities *)

(** Jobs whose value is their type. *)
Definition tagged_functions {W} : @job_functions W :=
  let job (type : Z) : @job_fn W := fun _ _ w => Some (w, (JOB_FINISHED, type)) in
  {| f_pci_scan := job 0; f_disk_demo := job 1; f_timer_bringup := job 2; f_smp_bringup := job 3; f_greet := job 4;
     f_resource_demo := job 5; f_pagefault_demo := job 6; f_stream_setup := job 7; f_stream_cow_verify := job 8;
     f_securinit_boot := job 9; f_network_remote_demo := job 10; f_scheduled_add := fun _ _ _ w => Some (w, (JOB_FINISHED, 11));
     f_result_waiter := job 12 |}.

Definition joined (node : Z) : cstate counter_kernel :=
  fst (run_requests layout_x86_64 no_other [(METHOD_JOIN_NODE, [node; 0; 5])] cluster_boot).

Definition boot_of (bsp aarch64 : bool) : boot_facts :=
  {| is_bsp := bsp; have_topo := true; topo_count := 2; arch_aarch64 := aarch64; faults_supported := true;
     network_present := false; machine_node := 0; waiter_ctx := 100; timer_ctx := 200; smp_ctx := 300; pf_ctx := 400 |}.

(** What ran in each round. *)
Definition ran (r : round) : option Z := match r with Ran _ _ type => Some type | _ => None end.

Definition boot_rounds (n : nat) (bsp aarch64 : bool) : option (list (option Z)) :=
  let c := node_client 99 0 in
  match submit_boot_jobs c (fun _ w => w) (boot_of bsp aarch64) (joined 0) with
  | Some (st, _) => (fun r => map ran (snd r)) <$> scheduler_run n c (register_job_types tagged_functions no_types) None st
  | None => None
  end.

(** From a freshly booted cluster that the core has joined, the jobs that
    coreinit_main submits are run once each by the worker loop, timer before
    SMP bring-up before the devices before the demonstrations before the
    second stage, after which the core sleeps. *)
Theorem boot_jobs_in_order :
  boot_rounds 8 true false = Some [Some 2; Some 3; Some 0; Some 1; Some 5; Some 6; Some 9; None] /\
  boot_rounds 9 true true = Some [Some 2; Some 3; Some 0; Some 1; Some 5; Some 6; Some 7; Some 9; None] /\
  boot_rounds 5 false true = Some [Some 2; Some 3; Some 0; Some 1; None].
Proof. vm_compute. done. Qed.

(** ** Where the code falls short *)

Lemma owned_bool m a :
  owned m a <-> existsb (fun x => c_used x && (c_base x <=? a) && (a <? c_end x)) (claims m) = true.
Proof.
  unfold owned, live. rewrite existsb_exists. split.
  - intros (x & [Hin Hu] & Ha). exists x. rewrite <- list_elem_of_In, Hu, (proj2 (Z.leb_le _ _)), (proj2 (Z.ltb_lt _ _)) by lia. done.
  - intros (x & Hin & Hx). rewrite <- list_elem_of_In in Hin. bool_simp. exists x. done.
Qed.

(** A page of the user region is somebody's already. *)
Definition crowded : cstate counter_kernel :=
  fst (handle_request_allocation layout_x86_64 no_other [1; 0x2400000; 4096; RESOURCE_KIND_MEMORY; 0] 40 demo_state).

(** When the user region cannot be had, the job ends, but the image region it
    had got before stays claimed: nobody owned its first byte before the job
    and the job has not given it back. *)
Theorem failed_boot_keeps_region :
  exists st', securinit_claim demo_client layout_x86_64 15 crowded = Some (st', NoRegion) /\
    ~ owned (mem crowded) 0x1C00000 /\ owned (mem st') 0x1C00000.
Proof.
  assert (match securinit_claim demo_client layout_x86_64 15 crowded with
          | Some (st', NoRegion) =>
              negb (existsb (fun x => c_used x && (c_base x <=? 0x1C00000) && (0x1C00000 <? c_end x)) (claims (mem crowded))) &&
              existsb (fun x => c_used x && (c_base x <=? 0x1C00000) && (0x1C00000 <? c_end x)) (claims (mem st'))
          | _ => false end = true) as H by (vm_compute; reflexivity).
  revert H. generalize (securinit_claim demo_client layout_x86_64 15 crowded) (mem crowded).
  intros [[st' [| |]]|] m H; [discriminate H| |discriminate H|discriminate H]. apply andb_true_iff in H as [H1 H2]. exists st'. split; [done|]. rewrite !owned_bool.
  split; [by apply not_true_iff_false, negb_true_iff|done].
Qed.
