(* ===== verification/SelfTest.v ===== *)
(** * The context-switch self-tests (coreinit/coreinit.c)

    coreinit_main runs two tests of job_exec before it starts the scheduler:
    two jobs that switch to each other, and three jobs of different
    priorities that wait and wake.  Here the test programs run on the model
    of job_exec: a context is what is left of a program, found under the
    stack pointer that was saved for it. *)

From S2P Require Import Prelude JobExec.

(** The statics that hold stack pointers. *)
Inductive var := Driver | JobA | JobB.

#[global] Instance var_eq_dec : EqDecision var.
Proof. solve_decision. Defined.

Inductive instr :=
  | Count                          (* g_test_switch_count++ *)
  | Event (code : Z)               (* record_test_event(code) *)
  | Wait (q : Z)                   (* job_exec_wait(&q) *)
  | Wake (q : Z)                   (* job_exec_wake(&q) *)
  | SwitchVar (save to : var)      (* job_exec_switch(&save, to) *)
  | SwitchOut (to : var)           (* job_exec_switch(job_exec_current_rsp_slot(), to) *)
  | Return.                        (* back in the driver *)

(** What the machine holds: the core, the saved contexts, the next stack
    pointer that a save will produce, and the tests' statics. *)
Record machine := {
  m_core : option core;
  contexts : list (Z * list instr);
  next_sp : Z;
  rsp : var -> Z;
  g_test_switch_count : Z;
  g_test_events : list Z }.

Definition MAX_TEST_EVENTS : nat := 16.

Definition record_test_event (code : Z) (evs : list Z) : list Z :=
  if decide (length evs < MAX_TEST_EVENTS)%nat then evs ++ [code] else evs.

Definition set_core (c : core) (m : machine) : machine :=
  {| m_core := Some c; contexts := contexts m; next_sp := next_sp m; rsp := rsp m;
     g_test_switch_count := g_test_switch_count m; g_test_events := g_test_events m |}.
Definition set_rsp_var (v : var) (x : Z) (m : machine) : machine :=
  {| m_core := m_core m; contexts := contexts m; next_sp := next_sp m; rsp := fun w => if decide (w = v) then x else rsp m w;
     g_test_switch_count := g_test_switch_count m; g_test_events := g_test_events m |}.

(** The rest of a program is pushed: the stack pointer it is found under. *)
Definition save (p : list instr) (m : machine) : machine * Z :=
  ({| m_core := m_core m; contexts := (next_sp m, p) :: contexts m; next_sp := next_sp m + 1; rsp := rsp m;
      g_test_switch_count := g_test_switch_count m; g_test_events := g_test_events m |}, next_sp m).

Definition context_at (sp : Z) (m : machine) : option (list instr) :=
  snd <$> List.find (fun c => fst c =? sp) (contexts m).

(** Runs a program to the driver's return; [None]: it waits for interrupts
    forever, resumes something that is not a context, or the fuel is
    short. *)
Fixpoint execute (fuel : nat) (p : list instr) (m : machine) : option machine :=
  match fuel with
  | O => None
  | S fuel =>
      let resume sp m := match context_at sp m with Some p => execute fuel p m | None => None end in
      match p with
      | [] => None
      | Return :: _ => Some m
      | Count :: p =>
          execute fuel p
            {| m_core := m_core m; contexts := contexts m; next_sp := next_sp m; rsp := rsp m;
               g_test_switch_count := g_test_switch_count m + 1; g_test_events := g_test_events m |}
      | Event code :: p =>
          execute fuel p
            {| m_core := m_core m; contexts := contexts m; next_sp := next_sp m; rsp := rsp m;
               g_test_switch_count := g_test_switch_count m;
               g_test_events := record_test_event code (g_test_events m) |}
      | Wait q :: p =>
          let '(m, sp) := save p m in
          match job_exec_wait q sp (m_core m) with
          | Continue cs => execute fuel p (set_core cs m)
          | Switch cs target => resume target (set_core cs m)
          | Halt | Undefined => None
          end
      | Wake q :: p =>
          let '(m, sp) := save p m in
          match job_exec_wake q sp (m_core m) with
          | Continue cs => execute fuel p (set_core cs m)
          | Switch cs target => resume target (set_core cs m)
          | Halt | Undefined => None
          end
      | SwitchVar from to :: p =>
          let target := rsp m to in
          let '(m, sp) := save p m in
          resume target (set_rsp_var from sp m)
      | SwitchOut to :: p =>
          let '(m, sp) := save p m in
          match m_core m, job_exec_current_rsp_slot (m_core m) with
          | Some cs, Some i =>
              if in_table i then resume (rsp m to) (set_core (update (Z.to_nat i) (set_rsp sp) cs) m) else None
          | _, _ => None
          end
      end
  end.

(** ** Two jobs that switch to each other *)

(** [for (i = 0; i < 3; i++) { g_test_switch_count++; switch }], then back to
    the driver (A) or idle (B). *)
Definition job_exec_test_a : list instr :=
  [Count; SwitchVar JobA JobB; Count; SwitchVar JobA JobB; Count; SwitchVar JobA JobB; SwitchVar JobA Driver].
Definition job_exec_test_b : list instr :=
  [Count; SwitchVar JobB JobA; Count; SwitchVar JobB JobA; Count; SwitchVar JobB JobA].

(** The machine after the test and whether it printed PASS; [None]: it hangs.
    The first contexts of the jobs are where job_exec_init puts them. *)
Definition run_job_exec_test (init : Z -> Z) (m : machine) : option (machine * bool) :=
  let '(cs, stack_a_top, slot_a) := job_exec_alloc_stack (m_core m) in
  let '(cs, stack_b_top, slot_b) := job_exec_alloc_stack cs in
  let m := {| m_core := cs; contexts := contexts m; next_sp := next_sp m; rsp := rsp m;
              g_test_switch_count := g_test_switch_count m; g_test_events := g_test_events m |} in
  if (slot_a <? 0) || (slot_b <? 0) then Some (m, false)
  else
    let m := {| m_core := cs;
                contexts := (init stack_a_top, job_exec_test_a) :: (init stack_b_top, job_exec_test_b) :: contexts m;
                next_sp := next_sp m;
                rsp := fun v => match v with JobA => init stack_a_top | JobB => init stack_b_top | Driver => rsp m Driver end;
                g_test_switch_count := g_test_switch_count m; g_test_events := g_test_events m |} in
    match execute 40 [SwitchVar Driver JobA; Return] m with
    | None => None
    | Some m =>
        let pass := g_test_switch_count m =? 6 in
        let cs := job_exec_free_stack slot_b (job_exec_free_stack slot_a (m_core m)) in
        Some ({| m_core := cs; contexts := contexts m; next_sp := next_sp m; rsp := rsp m;
                 g_test_switch_count := g_test_switch_count m; g_test_events := g_test_events m |}, pass)
    end.

(** ** Three priorities *)

Section priority_test.
(** The addresses of the three queues. *)
Context (g_test_resource_q g_test_med_done_q g_test_high_done_q : Z).

Definition EVT_HIGH_BLOCKED : Z := 1.
Definition EVT_MED_RAN : Z := 2.
Definition EVT_LOW_ABOUT_TO_WAKE : Z := 3.
Definition EVT_HIGH_RESUMED : Z := 4.
Definition EVT_LOW_BACKGROUND : Z := 5.

Definition job_exec_priority_test_high : list instr :=
  [Event EVT_HIGH_BLOCKED; Wait g_test_resource_q; Event EVT_HIGH_RESUMED; Wait g_test_high_done_q].
Definition job_exec_priority_test_med : list instr := [Event EVT_MED_RAN; Wait g_test_med_done_q].
Definition job_exec_priority_test_low : list instr :=
  [Event EVT_LOW_ABOUT_TO_WAKE; Wake g_test_resource_q; Event EVT_LOW_BACKGROUND; SwitchOut Driver].

Definition run_job_exec_priority_test (init : Z -> Z) (m : machine) : option (machine * bool) :=
  let '(cs, stack_high, slot_high) := job_exec_alloc_stack (m_core m) in
  let '(cs, stack_med, slot_med) := job_exec_alloc_stack cs in
  let '(cs, stack_low, slot_low) := job_exec_alloc_stack cs in
  let finish cs evs m pass :=
    Some ({| m_core := cs; contexts := contexts m; next_sp := next_sp m; rsp := rsp m;
             g_test_switch_count := g_test_switch_count m; g_test_events := evs |}, pass) in
  if (slot_high <? 0) || (slot_med <? 0) || (slot_low <? 0) then finish cs [] m false
  else
    let '(cs, slot_high_job) := job_exec_spawn (init stack_high) 10 cs in
    let '(cs, _) := job_exec_spawn (init stack_med) 5 cs in
    let '(cs, _) := job_exec_spawn (init stack_low) 1 cs in
    let m := {| m_core := cs;
                contexts := (init stack_high, job_exec_priority_test_high) :: (init stack_med, job_exec_priority_test_med) ::
                            (init stack_low, job_exec_priority_test_low) :: contexts m;
                next_sp := next_sp m; rsp := rsp m; g_test_switch_count := g_test_switch_count m; g_test_events := [] |} in
    let '(m, sp) := save [Return] m in
    let m := set_rsp_var Driver sp m in
    match job_exec_run slot_high_job (m_core m) with
    | Switch cs target =>
        match context_at target m with
        | None => None
        | Some p =>
            match execute 40 p (set_core cs m) with
            | None => None
            | Some m =>
                let pass := bool_decide (g_test_events m =
                  [EVT_HIGH_BLOCKED; EVT_MED_RAN; EVT_LOW_ABOUT_TO_WAKE; EVT_HIGH_RESUMED; EVT_LOW_BACKGROUND]) in
                let cs := job_exec_free_stack slot_low (job_exec_free_stack slot_med (job_exec_free_stack slot_high (m_core m))) in
                finish cs (g_test_events m) m pass
            end
        end
    | _ => None
    end.
End priority_test.

(** ** The tests pass *)

(** A core as coreinit_main finds it; the contexts saved while a job runs lie
    below its first one. *)
Definition fresh_core : machine :=
  {| m_core := Some (core_start 0x100000); contexts := []; next_sp := 1; rsp := fun _ => 0; g_test_switch_count := 0; g_test_events := [] |}.

Definition init_x86_64 (top : Z) : Z := fst (job_exec_init_x86_64 top 0 0).
Definition init_aarch64 (top : Z) : Z := fst (job_exec_init_aarch64 top 0 0).

(** Both tests, in the order of coreinit_main. *)
Definition self_tests (init : Z -> Z) : option (machine * bool * bool) :=
  match run_job_exec_test init fresh_core with
  | Some (m, pass1) =>
      match run_job_exec_priority_test 0x1000 0x1008 0x1010 init m with
      | Some (m, pass2) => Some (m, pass1, pass2)
      | None => None
      end
  | None => None
  end.

(** On both architectures the two tests run to their end and print PASS: six
    switches between the two jobs, and the three priorities in the order
    HIGH blocks, MED runs, LOW wakes, HIGH resumes before LOW goes on. *)
Theorem self_tests_pass init :
  init = init_x86_64 \/ init = init_aarch64 ->
  exists m, self_tests init = Some (m, true, true) /\ g_test_switch_count m = 6 /\ g_test_events m = [1; 2; 3; 4; 5].
Proof.
  assert (forall o : option (machine * bool * bool),
    match o with Some (m, true, true) => (g_test_switch_count m =? 6) && bool_decide (g_test_events m = [1; 2; 3; 4; 5]) | _ => false end = true ->
    exists m, o = Some (m, true, true) /\ g_test_switch_count m = 6 /\ g_test_events m = [1; 2; 3; 4; 5]) as H.
  { intros [[[m [|]] [|]]|]; try done. intros Ho. exists m. bool_simp. done. }
  intros [->| ->]; apply H; vm_compute; reflexivity.
Qed.

Lemma self_tests_pass_witness :
  exists m, self_tests init_aarch64 = Some (m, true, true) /\ g_test_switch_count m = 6 /\ g_test_events m = [1; 2; 3; 4; 5].
Proof. apply (self_tests_pass init_aarch64). right. reflexivity. Defined.

(** What the tests leave behind: the stacks are free again, but the three
    jobs of the second test are still in the table, two of them blocked and
    one as the running job of the core. *)
Theorem self_tests_leave_jobs :
  match self_tests init_x86_64 with
  | Some (m, _, _) =>
      match m_core m with
      | Some cs =>
          forallb negb (job_stack_used cs) = true /\ current_job cs = 2 /\
          map x_state (take 3 (job_table cs)) = [JOB_EXEC_BLOCKED; JOB_EXEC_BLOCKED; JOB_EXEC_RUNNING]
      | None => False
      end
  | None => False
  end.
Proof. vm_compute. done. Qed.
