(* ===== verification/Boot.v ===== *)
(** * The set-up of coreinit_main (coreinit/coreinit.c)

    What coreinit_main does between finding out which core it runs on and
    submitting the first jobs: it creates the shared services on the boot
    core or reaches them by proxies on another, binds the scheduler client,
    joins the cluster and declares what the core has.  A core that enters has
    joined the one scheduler of its cluster. *)

From stdpp Require Import gmap.
From S2P Require Import ServicesSpec.
From S2P Require Import Prelude Capnp TryLock Kernel MemMgr Objects Cluster ClusterInv ClusterReach.
From S2P Require Import ClusterPick ClusterMembers Client ClientSpec NetworkRpc Proxy StateM Services.

(** A proxy of an object on the same machine: messages are words. *)
Abbreviation proxy_t W := (proxy_data_t W (option (list Z)) (option (list Z))).

(** The fields of [struct core_state] that are set here. *)
Record core_fields := { hw_mutex_manager : Z; hw_mutex_id : Z; my_node : Z; my_pml4_phys : Z }.

(** [struct init_boot_info]; [bsp_kernel_invoke_addr] is 0 on the boot core. *)
Record boot_info (W : Type) := {
  bsp_kernel_invoke : option (invoke_fn W); pml4_phys : Z; fdt_blob_phys : Z;
  mutex_manager_handle : Z; hardware_mutex_id : Z; cluster_scheduler_handle : Z; serial_resource_handle : Z }.
Arguments bsp_kernel_invoke {_}.
Arguments pml4_phys {_}.
Arguments fdt_blob_phys {_}.
Arguments mutex_manager_handle {_}.
Arguments hardware_mutex_id {_}.
Arguments cluster_scheduler_handle {_}.
Arguments serial_resource_handle {_}.

(** The globals of the network service that are set here. *)
Record network_globals := {
  g_network_machine_node : Z; g_network_owner_core : Z; g_network_executor : Z; g_network_scheduler : Z }.

(** The statics of the image, the core's [core_state] (NULL without an
    allocator) and the rest of the world. *)
Record image (W : Type) := {
  g_bootstrap_record_next : Z; g_proxies : list (proxy_t W); core : option core_fields; sched : client W;
  tables : @job_tables W; g_serial_resource : Z; net : network_globals; world : W }.
Arguments g_bootstrap_record_next {_}.
Arguments g_proxies {_}.
Arguments core {_}.
Arguments sched {_}.
Arguments tables {_}.
Arguments g_serial_resource {_}.
Arguments net {_}.
Arguments world {_}.

(** What [scheduler_submit] gives [job_smp_bringup]. *)
Record smp_job_ctx_t := {
  x_memory_manager : Z; x_mutex_manager : Z; x_hw_mutex_id : Z; x_cluster_scheduler : Z; x_serial_resource : Z;
  x_is_bsp : bool }.

(** An object's handler, table and index, as the factory is given them. *)
Record object_class := { handler_addr : Z; table_addr : Z; schema_idx : Z }.

Section main.
Context {W : Type}.
Context (g_kernel_invoke : invoke_fn W) (g_factory : Z).
(** Addresses: the pool of records and its stride, [proxy_handler], a proxy's
    slot and its record. *)
Context (g_bootstrap_records CAP_RECORD_SIZE proxy_handler_addr : Z) (slot_addr storage_addr : nat -> Z).
Context (mutex_manager_class memory_manager_class cluster_scheduler_class resource_class executor_class : object_class).
(** The initialisations of the services, and what a response buffer that
    nothing was written to holds. *)
Context (mutex_manager_init_schema memory_manager_init_schema : W -> W) (cluster_scheduler_init_schema : Z -> W -> W).
Context (unset : Z).
(** The network: network_ether_wait_announcement (the node, the handle and
    the MAC it found), the stores to the scheduler's route and session, and
    network_rpc_invoke over that session. *)
Context (network_ether_wait_announcement : Z -> W -> W * option (Z * Z * list Z)).
Context (open_session : Z -> list Z -> W -> W) (over_session : invoke_fn W).
(** network_device_init, and the MAC address of the device it found. *)
Context (network_device_init : Z -> Z -> W -> W * option (list Z)).
Context (info : boot_info W).

Definition boot_core : bool := match bsp_kernel_invoke info with Some _ => false | None => true end.

Definition with_world (f : W -> W) (s : image W) : image W :=
  {| g_bootstrap_record_next := g_bootstrap_record_next s; g_proxies := g_proxies s; core := core s; sched := sched s;
     tables := tables s; g_serial_resource := g_serial_resource s; net := net s;
     world := f (world s) |}.

(** A store to the core's [core_state], if it has one. *)
Definition with_core (f : core_fields -> core_fields) (s : image W) : image W :=
  {| g_bootstrap_record_next := g_bootstrap_record_next s; g_proxies := g_proxies s; core := f <$> core s; sched := sched s;
     tables := tables s; g_serial_resource := g_serial_resource s; net := net s;
     world := world s |}.

Definition with_sched (f : client W -> client W) (s : image W) : image W :=
  {| g_bootstrap_record_next := g_bootstrap_record_next s; g_proxies := g_proxies s; core := core s; sched := f (sched s);
     tables := tables s; g_serial_resource := g_serial_resource s; net := net s;
     world := world s |}.

Definition with_tables (f : @job_tables W -> @job_tables W) (s : image W) : image W :=
  {| g_bootstrap_record_next := g_bootstrap_record_next s; g_proxies := g_proxies s; core := core s; sched := sched s;
     tables := f (tables s); g_serial_resource := g_serial_resource s; net := net s;
     world := world s |}.

Definition with_proxies (t : list (proxy_t W)) (s : image W) : image W :=
  {| g_bootstrap_record_next := g_bootstrap_record_next s; g_proxies := t; core := core s; sched := sched s;
     tables := tables s; g_serial_resource := g_serial_resource s; net := net s;
     world := world s |}.

Definition with_serial (h : Z) (s : image W) : image W :=
  {| g_bootstrap_record_next := g_bootstrap_record_next s; g_proxies := g_proxies s; core := core s; sched := sched s;
     tables := tables s; g_serial_resource := h; net := net s; world := world s |}.

Definition with_net (f : network_globals -> network_globals) (s : image W) : image W :=
  {| g_bootstrap_record_next := g_bootstrap_record_next s; g_proxies := g_proxies s; core := core s; sched := sched s;
     tables := tables s; g_serial_resource := g_serial_resource s; net := f (net s); world := world s |}.

(** Calls of what the other files model. *)
Definition invoke (target method_id : Z) (msg : option (list Z)) (response_cap : Z) : M (image W) (bool * option (list Z)) := fun s =>
  let '(w, r) := g_kernel_invoke target method_id msg response_cap (world s) in Some (with_world (fun _ => w) s, r).

Definition object (o : object_class) : M (image W) Z := fun s =>
  let '(next, w, h) := create_object g_kernel_invoke g_factory g_bootstrap_records CAP_RECORD_SIZE (handler_addr o) 0
                         (table_addr o) (schema_idx o) (g_bootstrap_record_next s, world s) in
  Some ({| g_bootstrap_record_next := next; g_proxies := g_proxies s; core := core s; sched := sched s; tables := tables s;
           g_serial_resource := g_serial_resource s; net := net s; world := w |}, h).

Definition client_call {A} (f : client W -> Client.M W A) : M (image W) A := fun s =>
  match f (sched s) (world s) with Some (w, a) => Some (with_world (fun _ => w) s, a) | None => None end.

(** CREATE on the local factory for the proxy in a slot. *)
Definition proxy_create (o : object_class) (slot : nat) (w : W) : W * option Z :=
  let '(w, (ok, resp)) := g_kernel_invoke g_factory 0
    (reply 64 [proxy_handler_addr; slot_addr slot; table_addr o; schema_idx o; storage_addr slot]) 24 w in
  (w, if negb ok || (response_len resp <? 24) then None else Some (word (response_words resp) 0)).

Definition proxy (o : object_class) (remote_target : Z) (remote_invoke : invoke_fn W) : M (image W) Z := fun s =>
  let '(t, w, h) := create_proxy (proxy_create o) remote_target remote_invoke (g_proxies s) (world s) in
  Some (with_world (fun _ => w) (with_proxies t s), h).

Definition routed_proxy (o : object_class) (remote_target : Z) (remote_invoke : invoke_fn W) : M (image W) Z := fun s =>
  let '(t, w, h) := create_routed_proxy (proxy_create o) remote_target remote_invoke (g_proxies s) (world s) in
  Some (with_world (fun _ => w) (with_proxies t s), h).

(** The network device, and the executor that the network service offers. *)
Definition network_up (my_node_id : Z) : M (image W) unit :=
  if negb boot_core || (fdt_blob_phys info =? 0) then mret tt
  else
    found ← (fun s => let '(w, mac) := network_device_init (fdt_blob_phys info) my_node_id (world s) in
                      Some (with_world (fun _ => w) s, mac));
    match found with
    | None => mret tt
    | Some mac =>
        _ ← modify (with_net (fun n => {| g_network_machine_node := word mac 5; g_network_owner_core := my_node_id;
              g_network_executor := g_network_executor n; g_network_scheduler := g_network_scheduler n |}));
        h ← object executor_class;
        modify (with_net (fun n => {| g_network_machine_node := g_network_machine_node n;
          g_network_owner_core := g_network_owner_core n; g_network_executor := h; g_network_scheduler := g_network_scheduler n |}))
    end.

(** The mutex manager and the memory manager. *)
Definition shared_services : M (image W) (Z * Z) :=
  match bsp_kernel_invoke info with
  | None =>
      _ ← modify (with_world mutex_manager_init_schema);
      mutex_manager ← object mutex_manager_class;
      _ ← modify (with_world memory_manager_init_schema);
      memory_manager ← object memory_manager_class;
      r ← invoke mutex_manager 0 (reply 24 [0]) 24;
      let id := match snd r with Some out => word out 0 | None => unset end in
      _ ← modify (with_core (fun c => {| hw_mutex_manager := mutex_manager; hw_mutex_id := id; my_node := my_node c;
                                         my_pml4_phys := my_pml4_phys c |}));
      mret (memory_manager, mutex_manager)
  | Some bsp_invoke =>
      local_hw_mutex_manager ← proxy mutex_manager_class (mutex_manager_handle info) bsp_invoke;
      _ ← modify (with_core (fun c => {| hw_mutex_manager := local_hw_mutex_manager;
                                         hw_mutex_id := hardware_mutex_id info; my_node := my_node c;
                                         my_pml4_phys := my_pml4_phys c |}));
      mret (0, 0)
  end.

(** The handle of the cluster scheduler. *)
Definition reach_scheduler (memory_manager : Z) : M (image W) Z :=
  machine ← get (fun s => g_network_machine_node (net s));
  match bsp_kernel_invoke info with
  | None =>
      if machine =? 2 then
        found ← (fun s => let '(w, f) := network_ether_wait_announcement NETWORK_SERVICE_CLUSTER_SCHEDULER (world s) in
                          Some (with_world (fun _ => w) s, f));
        match found with
        | Some (coordinator_node, remote_scheduler, coordinator_mac) =>
            _ ← modify (with_world (open_session coordinator_node coordinator_mac));
            routed_proxy cluster_scheduler_class remote_scheduler over_session
        | None => mret 0
        end
      else
        _ ← modify (with_world (cluster_scheduler_init_schema memory_manager));
        h ← object cluster_scheduler_class;
        _ ← (if machine =? 1 then modify (with_net (fun n => {| g_network_machine_node := g_network_machine_node n;
               g_network_owner_core := g_network_owner_core n; g_network_executor := g_network_executor n; g_network_scheduler := h |}))
             else mret tt);
        mret h
  | Some bsp_invoke => proxy cluster_scheduler_class (cluster_scheduler_handle info) bsp_invoke
  end.

(** Bind the client, join, and declare the CPU core and, when faults can be
    resolved here, the MMU. *)
Definition join_cluster (cluster_scheduler node arch signal_target : Z) (has_mmu faults_supported : bool) : M (image W) unit :=
  _ ← modify (with_sched (scheduler_client_init g_kernel_invoke cluster_scheduler node));
  r ← invoke cluster_scheduler 0 (reply 48 [node; arch; signal_target]) 24;
  _ ← modify (with_core (fun c => if response_len (snd r) >=? 8
        then {| hw_mutex_manager := hw_mutex_manager c; hw_mutex_id := hw_mutex_id c;
                my_node := word (response_words (snd r)) 0; my_pml4_phys := my_pml4_phys c |}
        else c));
  _ ← client_call (fun c => scheduler_declare_resource c RESOURCE_KIND_CPU_CORE arch 0 RESOURCE_SYNC_TRANSFER);
  if has_mmu && faults_supported then
    _ ← client_call (fun c => scheduler_declare_resource c RESOURCE_KIND_MMU arch 0 RESOURCE_SYNC_TRANSFER);
    mret tt
  else mret tt.

(** The serial line all cores print to. *)
Definition reach_serial : M (image W) unit :=
  machine ← get (fun s => g_network_machine_node (net s));
  match bsp_kernel_invoke info with
  | None =>
      declared ← client_call (fun c => scheduler_declare_resource c RESOURCE_KIND_PERIPHERAL 0 0 RESOURCE_SYNC_TRANSFER);
      if machine =? 2 then
        h ← routed_proxy resource_class declared over_session; modify (with_serial h)
      else modify (with_serial declared)
  | Some bsp_invoke =>
      h ← proxy resource_class (serial_resource_handle info) bsp_invoke; modify (with_serial h)
  end.

(** From [proxy_init] to the submission of the jobs, but for the self-tests
    and the discovery of the topology; [my_node_id] is topology_self_id().
    The result is what [smp_ctx] is filled with. *)
Definition coreinit_setup (f : job_functions) (my_node_id arch signal_target : Z) (has_mmu faults_supported : bool)
    : M (image W) smp_job_ctx_t :=
  _ ← modify (fun s => with_proxies (proxy_init (g_proxies s)) s);
  _ ← network_up my_node_id;
  _ ← modify (with_core (fun c => {| hw_mutex_manager := hw_mutex_manager c; hw_mutex_id := hw_mutex_id c; my_node := my_node c;
                                     my_pml4_phys := pml4_phys info |}));   (* job_memory_init *)
  managers ← shared_services;
  cluster_scheduler ← reach_scheduler (fst managers);
  _ ← invoke g_factory 0 None 8;
  _ ← modify (with_tables (register_job_types f));
  machine ← get (fun s => g_network_machine_node (net s));
  _ ← join_cluster cluster_scheduler (cluster_node_id machine my_node_id) arch signal_target
        has_mmu faults_supported;
  _ ← reach_serial;
  c ← get core;
  serial ← get g_serial_resource;
  mret {| x_memory_manager := fst managers; x_mutex_manager := snd managers;
          x_hw_mutex_id := match c with Some c => hw_mutex_id c | None => 0 end;
          x_cluster_scheduler := cluster_scheduler; x_serial_resource := serial; x_is_bsp := boot_core |}.
End main.

(** The job that starts the other cores, which only the boot core does. *)
Definition job_smp_bringup {W} (smp_bring_up_all : smp_job_ctx_t -> W -> W) (c : smp_job_ctx_t) (w : W) : W * Z :=
  (if x_is_bsp c then smp_bring_up_all c w else w, JOB_FINISHED).

(** ** Joining *)

Section join.
Context `{HL : KernelLaws K}.
Context (L : layout) (other : nat -> Z -> list Z -> Z -> option (list Z)).
Implicit Types (st : cstate K).

(** The kernel creates the next [n] objects it is asked for. *)
Fixpoint grants (n : nat) (k : K) : Prop :=
  match n with
  | O => True
  | S n => forall o, exists k' h, k_create o k = (k', Some h) /\ h <> 0 /\ grants n k'
  end.

(** Room in the scheduler's pools for a node and two resources. *)
Record room st : Prop := {
  room_nodes : g_node_storage_next st < Z.of_nat MAX_NODES;
  room_resources : g_resource_storage_next st + 2 <= Z.of_nat RESOURCE_POOL_SIZE;
  room_index : exists i j e f, i <> j /\ g_resource_index st !! i = Some e /\ g_resource_index st !! j = Some f /\
    ri_used e = false /\ ri_used f = false }.

(** The node owns an indexed resource of the kind, with that descriptor. *)
Definition owns (node kind descr : Z) st : Prop :=
  exists i e info, g_resource_index st !! i = Some e /\ ri_used e = true /\ ri_kind e = kind /\
    peek other (ri_handle e) st = Some info /\ i_owner_node info = node /\ i_descriptor info = descr.

Lemma owns_mmu_of node descr st : cinv st -> owns node RESOURCE_KIND_MMU descr st -> owns_mmu other node st = true.
Proof.
  intros Hinv (i & e & info & Hi & Hu & Hk & Hp & Ho & _). unfold owns_mmu. apply existsb_exists. exists i. split.
  - apply in_seq. destruct (ci_res _ Hinv) as (_ & <- & _). apply lookup_lt_Some in Hi. lia.
  - rewrite (nth_lookup_Some_inh _ _ _ Hi), Hu, Hk, Hp, Ho. by rewrite !Z.eqb_refl.
Qed.

(** What creating a resource leaves as it was. *)
Definition nodes_kept st st' : Prop :=
  g_node_index st' = g_node_index st /\ g_node_storage st' = g_node_storage st /\
  g_node_storage_next st' = g_node_storage_next st /\
  (forall h o, names (k st) h o -> names (k st') h o).

Lemma create_owned node kind descr cap sync st i0 e0 k' h :
  cinv st -> no_wrap st -> g_resource_storage_next st < Z.of_nat RESOURCE_POOL_SIZE ->
  g_resource_index st !! i0 = Some e0 -> ri_used e0 = false ->
  k_create (OResource (Z.to_nat (g_resource_storage_next st))) (k st) = (k', Some h) -> h <> 0 ->
  exists st' i, create_resource_object node kind descr cap sync 0 st = (st', h) /\ k st' = k' /\
    g_resource_storage_next st' = g_resource_storage_next st + 1 /\
    first_index (fun e => negb (ri_used e)) (g_resource_index st) = Some i /\
    (forall j, j <> i -> g_resource_index st' !! j = g_resource_index st !! j) /\
    nodes_kept st st' /\ owns node kind descr st' /\
    forall node' kind' descr', owns node' kind' descr' st -> owns node' kind' descr' st'.
Proof.
  intros Hinv Hw Hroom Hi0 Hu0 Hc Hh. pose proof (create_resource_object_spec other node kind descr cap sync 0 st Hinv Hw) as Hspec.
  destruct (ci_res _ Hinv) as (Hl & Hli & H0 & Hidx & _). destruct (k_create_fresh _ _ _ _ Hc Hh) as (_ & Hfresh & Hnew).
  assert (forall h o, names (k st) h o -> names k' h o) as Hkeep.
  { intros h1 o Hn. destruct (request_words_0 o) as [n Hr]. by eapply names_create. }
  destruct (first_index_exists (fun e => negb (ri_used e)) _ i0 e0 Hi0) as (i & Hi & _); [by rewrite Hu0|].
  pose proof (first_index_lt _ _ _ Hi) as Hlt.
  revert Hspec. unfold create_resource_object. rewrite (proj2 (Z.leb_gt _ _) Hroom). unfold factory_create.
  cbn [k set_g_resource_storage set_g_resource_storage_next]. rewrite Hc. change (default 0 (Some h)) with h. cbn [snd fst].
  rewrite (proj2 (Z.eqb_neq h 0) Hh).
  unfold resource_index_claim.
  cbn [g_resource_index set_k set_g_resource_storage set_g_resource_storage_next]. rewrite Hi. intros (_ & _ & Hp). specialize (Hp Hh).
  eexists _, i. split_and!; [reflexivity|done| |done| | | |]; cbn.
  - rewrite u64_small; [done|]. destruct Hw. unfold is_u64. lia.
  - intros j Hj. by apply list_lookup_insert_ne.
  - by split_and!.
  - exists i. eexists _, _. split_and!; [by apply list_lookup_insert_eq|done..| | |]; [exact Hp|done..].
  - intros n' k1 d' (j & e & info & Hj & Hu & Hk & Hpe & Ho & Hd). exists j, e, info.
    assert (j <> i) as Hji.
    { intros ->. apply first_index_Some in Hi as (e1 & He1 & Hn1 & _). rewrite Hj in He1. injection He1 as <-. by rewrite Hu in Hn1. }
    split_and!; [by cbn; rewrite list_lookup_insert_ne|done..| |done|done].
    destruct (Hidx j e Hj Hu) as (s & Hs & _ & Hlt' & _). rewrite <- Hpe. unfold peek. cbn.
    rewrite (proj1 (Hkeep _ _ Hs) RESOURCE_METHOD_GET_INFO 1%nat eq_refl), (proj1 Hs RESOURCE_METHOD_GET_INFO 1%nat eq_refl).
    by rewrite nth_insert_ne by lia.
Qed.

Lemma joined_kept node arch target h slot st st1 st2 :
  joined node arch target h slot st st1 -> nodes_kept st1 st2 -> joined node arch target h slot st st2.
Proof.
  intros (Hf & Hn & Hk & Hs) (Hi & Hst & _ & Hnames). split_and!; [|done|by apply Hnames|by rewrite Hst].
  rewrite <- Hf. unfold node_find_by_id, node_index_of. by rewrite Hi.
Qed.

(** A new node is given a handle; no resource is touched. *)
Lemma join_done node arch target st n :
  cinv st -> no_wrap st -> node_find_by_id node st = 0 -> g_node_storage_next st < Z.of_nat MAX_NODES -> grants (S n) (k st) ->
  exists st' h slot, handle_join_node [node; arch; target] 24 st = (st', Some [h]) /\ h <> 0 /\
    joined node arch target h slot st st' /\ grants n (k st') /\
    g_resource_index st' = g_resource_index st /\ g_resource_storage_next st' = g_resource_storage_next st /\
    g_node_storage_next st' = g_node_storage_next st + 1.
Proof.
  intros Hinv Hw Hnew Hroom Hg. pose proof (join_node_spec [node; arch; target] 24 st Hinv Hw) as Hs. cbv zeta in Hs.
  destruct (Hg (ONode (Z.to_nat (g_node_storage_next st)))) as (k' & h & Hc & Hh & Hg').
  change (word [node; arch; target] 0) with node in Hs. rewrite Hnew, Hc in Hs. cbn [snd default] in Hs.
  rewrite (proj2 (Z.leb_gt _ _) Hroom) in Hs. change (default 0 (Some h)) with h in Hs.
  assert (let st' := fst (handle_join_node [node; arch; target] 24 st) in
    k st' = k' /\ g_resource_storage_next st' = g_resource_storage_next st /\
    g_node_storage_next st' = g_node_storage_next st +64 1) as (Hk & Hn & Hn1).
  { unfold handle_join_node. change (word [node; arch; target] 0) with node. rewrite Hnew. cbn [Z.eqb negb].
    unfold create_node_object. rewrite (proj2 (Z.leb_gt _ _) Hroom). unfold factory_create.
    cbn [k set_g_node_storage set_g_node_storage_next]. rewrite Hc. change (default 0 (Some h)) with h. cbn [fst snd].
    rewrite (proj2 (Z.eqb_neq h 0) Hh). unfold node_index_claim.
    rewrite (proj2 (Z.eqb_neq h 0) Hh). cbn zeta. rewrite ?(proj2 (Z.eqb_neq h 0) Hh). cbn [fst].
    match goal with |- context [match ?m with Some _ => _ | None => _ end] => by destruct m end. }
  destruct (ci_node _ Hinv) as (_ & _ & H0 & _). rewrite u64_small in Hn1 by (unfold is_u64, W64, MAX_NODES in *; lia).
  destruct (handle_join_node _ _ _) as [st' answer]. cbn [fst] in *. subst k'.
  destruct Hs as [Hi Hs]. exists st', h, (Z.to_nat (g_node_storage_next st)). change (reply 24 [h]) with (Some [h]) in Hs.
  destruct h as [|q|q]; [done| |]; destruct Hs as [-> Hj]; by split_and!.
Qed.

Context (invoke : invoke_fn (cstate K)) (h node : Z).
Context `{!Serves L other invoke h}.

(** A resource declared through the client is created, and the node's. *)
Lemma declare_done c kind descr st n i0 e0 :
  bound c invoke h node -> cinv st -> no_wrap st -> g_resource_storage_next st < Z.of_nat RESOURCE_POOL_SIZE ->
  g_resource_index st !! i0 = Some e0 -> ri_used e0 = false -> grants (S n) (k st) ->
  exists st' r i, scheduler_declare_resource c kind descr 0 RESOURCE_SYNC_TRANSFER st = Some (st', r) /\ cinv st' /\ grants n (k st') /\
    g_resource_storage_next st' = g_resource_storage_next st + 1 /\
    first_index (fun e => negb (ri_used e)) (g_resource_index st) = Some i /\
    (forall j, j <> i -> g_resource_index st' !! j = g_resource_index st !! j) /\
    nodes_kept st st' /\ owns node kind descr st' /\
    forall node' kind' descr', owns node' kind' descr' st -> owns node' kind' descr' st'.
Proof.
  intros Hb Hinv Hw Hroom Hi0 Hu0 Hg.
  destruct (Hg (OResource (Z.to_nat (g_resource_storage_next st)))) as (k' & r & Hc & Hr & Hg').
  destruct (create_owned node kind descr 0 RESOURCE_SYNC_TRANSFER st i0 e0 k' r) as (st' & i & Ec & Hk & Hrest); [done..|].
  pose proof (handle_declare_resource_inv L other [node; kind; descr; 0; RESOURCE_SYNC_TRANSFER] 24 st Hinv Hw) as Hinv'.
  assert (handle_declare_resource L other [node; kind; descr; 0; RESOURCE_SYNC_TRANSFER] 24 st = (st', Some [r])) as E.
  { unfold handle_declare_resource, word. cbn [nth]. change (RESOURCE_SYNC_TRANSFER =? RESOURCE_SYNC_STREAM) with false.
    change (RESOURCE_SYNC_TRANSFER =? RESOURCE_SYNC_COW) with false. cbn [orb andb negb]. by rewrite Ec. }
  rewrite E in Hinv'. exists st', r, i. subst k'. split; [|split; [done|split; [done|exact Hrest]]].
  unfold scheduler_declare_resource, mbind, Client.M_bind.
  assert (scheduler_node_id c = node) as -> by (unfold scheduler_node_id; by rewrite Hb).
  change (reply 64 ?ws) with (Some ws).
  by rewrite (asked_served L other c invoke h node METHOD_DECLARE_RESOURCE [node; kind; descr; 0; RESOURCE_SYNC_TRANSFER] 24 24 st st' [r] Hb _ eq_refl E).
Qed.

Lemma client_bound invoke' h' node' (c : client (cstate K)) : bound (scheduler_client_init invoke' h' node' c) invoke' h' node'.
Proof. unfold bound, scheduler_client_init, scheduler_client. by destruct (core_binding c). Qed.

(** What a core has after it joined: it is a member under the handle in its
    [core_state], it owns its CPU core and, if it can resolve faults, its
    MMU, by which it may then declare streamed and copy-on-write resources. *)
Definition member (arch target : Z) (mmu : bool) (node_handle : Z) (st st' : cstate K) : Prop :=
  cinv st' /\ node_handle <> 0 /\ (exists slot, joined node arch target node_handle slot st st') /\
  owns node RESOURCE_KIND_CPU_CORE arch st' /\ (mmu = true -> owns node RESOURCE_KIND_MMU arch st' /\ owns_mmu other node st' = true).

Lemma join_cluster_member arch target has_mmu faults (s : image (cstate K)) c0 :
  let st := world s in
  cinv st -> room st -> grants 3 (k st) -> node_find_by_id node st = 0 -> core s = Some c0 ->
  exists s' c', join_cluster invoke h node arch target has_mmu faults s = Some (s', tt) /\
    core s' = Some c' /\ hw_mutex_manager c' = hw_mutex_manager c0 /\ hw_mutex_id c' = hw_mutex_id c0 /\
    my_pml4_phys c' = my_pml4_phys c0 /\ bound (sched s') invoke h node /\ g_proxies s' = g_proxies s /\
    member arch target (has_mmu && faults) (my_node c') st (world s').
Proof.
  intros st Hinv [Hn Hr (i & j & e & f & Hij & Hi & Hj & He & Hf)] Hg Hnew Hcore.
  unfold MAX_NODES, RESOURCE_POOL_SIZE in Hn, Hr.
  assert (no_wrap st) as Hw by (split; unfold W64; lia).
  destruct (join_done node arch target st 2 Hinv Hw Hnew Hn Hg) as (st1 & nh & slot & Ej & Hnh & Hjoin & Hg1 & Hidx1 & Hnext1 & Hnn1).
  pose proof (handle_join_node_inv [node; arch; target] 24 st Hinv Hw) as Hinv1. rewrite Ej in Hinv1. cbn [fst] in Hinv1.
  set (c := scheduler_client_init invoke h node (sched s)). pose proof (client_bound invoke h node (sched s)) as Hb. fold c in Hb.
  destruct (declare_done c RESOURCE_KIND_CPU_CORE arch st1 1 i e) as
    (st2 & r2 & p & E2 & Hinv2 & Hg2 & Hnext2 & Hp & Hsame & Hkept2 & Hown2 & _); [done|done|split; unfold W64; lia|unfold RESOURCE_POOL_SIZE; lia|by rewrite Hidx1|done|done|].
  unfold join_cluster, mbind, M_bind, modify, Boot.invoke, client_call. cbn [with_sched world sched].
  change (reply 48 ?ws) with (Some ws). rewrite (serves L other 0 [node; arch; target] 24 st eq_refl).
  change (cluster_scheduler_handler L other 0 ?ws ?cap ?st) with (handle_join_node ws cap st). rewrite Ej.
  cbn [with_world with_core with_sched world sched core snd fst response_words default]. fold c. rewrite E2. cbv beta iota.
  set (c1 := {| hw_mutex_manager := hw_mutex_manager c0; hw_mutex_id := hw_mutex_id c0; my_node := nh; my_pml4_phys := my_pml4_phys c0 |}).
  match goal with |- context [(if has_mmu && faults then _ else _) ?x] => assert (core x = Some c1) as Hc1 by (cbn; by rewrite Hcore); set (s2 := x) in * end.
  assert (world s2 = st2 /\ sched s2 = c /\ g_proxies s2 = g_proxies s) as (Hws & Hss & Hps) by done. clearbody s2.
  pose proof (joined_kept _ _ _ _ _ _ _ _ Hjoin Hkept2) as Hjoin2.
  destruct (has_mmu && faults).
  - assert (exists i' e', g_resource_index st2 !! i' = Some e' /\ ri_used e' = false) as (i' & e' & Hi' & He').
    { destruct (decide (i = p)) as [->|]; [exists j, f|exists i, e]; (split; [|done]); rewrite Hsame by done; by rewrite Hidx1. }
    destruct (declare_done c RESOURCE_KIND_MMU arch st2 0 i' e') as
      (st3 & r3 & p3 & E3 & Hinv3 & _ & _ & _ & _ & Hkept3 & Hown3 & Hkeep3);
      [done|done|split; [|destruct Hkept2 as (_ & _ & -> & _)]; unfold W64; lia|unfold RESOURCE_POOL_SIZE; lia|done..|].
    rewrite Hss, Hws, E3. eexists _, c1. split; [reflexivity|]. cbn. split_and!; try done; [by rewrite Hss|].
    split_and!; [done|done|eexists; by eapply joined_kept|by apply Hkeep3|]. intros _. split; [done|by eapply owns_mmu_of].
  - eexists _, c1. split; [reflexivity|]. split_and!; try done; [by rewrite Hss|]. rewrite Hws. split_and!; [done|done|by eexists|done|done].
Qed.
End join.

(** ** A core that is not the boot core *)

Section other_core.
Context `{HL : KernelLaws K}.
Context (L : layout) (other : nat -> Z -> list Z -> Z -> option (list Z)).

Definition to_boot_core (target : Z) (bsp : invoke_fn (cstate K)) : proxy_t (cstate K) :=
  {| p_remote_target := target; p_remote_invoke := Some bsp; p_remote_invoke_ctx := None; p_used := true |}.

(** The core's kernel runs [proxy_handler] for a request of the schema's shape
    on the proxy of the scheduler. *)
Definition forwards (invoke : invoke_fn (cstate K)) (h : Z) (p : proxy_t (cstate K)) : Prop :=
  forall m ws cap st, cluster_request_words m = Some (length ws) ->
    invoke h m (Some ws) cap st =
    match proxy_handler p m (Some ws) cap st with Some (st', a) => (st', (true, a)) | None => (st, (false, None)) end.

(** Through its proxy the core is served by the boot core's scheduler. *)
Lemma proxy_serves bsp target invoke h :
  Serves L other bsp target -> forwards invoke h (to_boot_core target bsp) -> Serves L other invoke h.
Proof.
  intros Hs Hf m ws cap st Hw. rewrite (Hf _ _ _ _ Hw). cbn. rewrite (serves L other _ _ _ _ Hw).
  by destruct (cluster_scheduler_handler _ _ _ _ _ _).
Qed.

Context (invoke : invoke_fn (cstate K)) (g_factory g_bootstrap_records CAP_RECORD_SIZE proxy_handler_addr : Z).
Context (slot_addr storage_addr : nat -> Z) (handle : nat -> Z).

Abbreviation create o := (proxy_create invoke g_factory proxy_handler_addr slot_addr storage_addr o).

(** The core's own kernel creates the object of each proxy; its table is no
    part of the scheduler's state. *)
Hypothesis Hcreate : forall o slot st, create o slot st = (st, Some (handle slot)).
Hypothesis Hfactory : forall cap st, fst (invoke g_factory 0 None cap st) = st.

Definition free_from (n : nat) (t : list (proxy_t (cstate K))) : Prop :=
  length t = MAX_PROXIES /\ forall i p, t !! i = Some p -> p_used p = negb (n <=? i)%nat.

Lemma init_free t : length t = MAX_PROXIES -> free_from 0 (proxy_init t).
Proof.
  intros Hl. unfold proxy_init. split; [by rewrite length_fmap|]. intros i p Hp.
  apply list_lookup_fmap_Some in Hp as (q & -> & _). done.
Qed.

(** The next proxy goes to the next slot. *)
Lemma proxy_next o target bsp n (s : image (cstate K)) :
  free_from n (g_proxies s) -> (n < MAX_PROXIES)%nat ->
  exists s', proxy invoke g_factory proxy_handler_addr slot_addr storage_addr o target bsp s = Some (s', handle n) /\
    g_proxies s' = <[n := to_boot_core target bsp]> (g_proxies s) /\ free_from (S n) (g_proxies s') /\
    core s' = core s /\ sched s' = sched s /\ net s' = net s /\ world s' = world s.
Proof.
  intros [Hl Hf] Hn. destruct (lookup_lt_is_Some_2 (g_proxies s) n) as [p Hp]; [lia|].
  assert (first_index (fun p => negb (p_used p)) (g_proxies s) = Some n) as Hi.
  { destruct (first_index_exists (fun p => negb (p_used p)) _ n p Hp) as (i & Hi & Hle); [by rewrite (Hf n p Hp), Nat.leb_refl|].
    rewrite Hi. f_equal. apply first_index_Some in Hi as (q & Hq & Hu & _). rewrite (Hf i q Hq), negb_involutive in Hu.
    apply Nat.leb_le in Hu. lia. }
  unfold proxy, create_proxy, create_proxy_common. rewrite Hi, Hcreate. eexists. split; [reflexivity|]. cbn. split_and!; try done.
  split; [by rewrite length_insert|]. intros i q Hq. apply lookup_insert_cases in Hq as [(-> & -> & _)|[Hne Hq]].
  - symmetry. apply negb_true_iff, Nat.leb_gt. lia.
  - rewrite (Hf i q Hq). f_equal. destruct (Nat.leb_spec n i), (Nat.leb_spec (S n) i); (done || lia).
Qed.

Context (mutex_manager_class memory_manager_class cluster_scheduler_class resource_class executor_class : object_class).
Context (mutex_init memory_init : cstate K -> cstate K) (cluster_init : Z -> cstate K -> cstate K) (unset : Z).
Context (wait : Z -> cstate K -> cstate K * option (Z * Z * list Z)) (open_session : Z -> list Z -> cstate K -> cstate K).
Context (over_session : invoke_fn (cstate K)) (network_device_init : Z -> Z -> cstate K -> cstate K * option (list Z)).
Context (info : boot_info (cstate K)).

Abbreviation setup := (coreinit_setup invoke g_factory g_bootstrap_records CAP_RECORD_SIZE proxy_handler_addr slot_addr storage_addr
  mutex_manager_class memory_manager_class cluster_scheduler_class resource_class executor_class mutex_init memory_init cluster_init unset
  wait open_session over_session network_device_init info).

End other_core.

(** A second core, 3, of a machine that is not on the network: its kernel's
    factory is 7, and answers 100 + the slot. *)
Definition demo_bsp : invoke_fn (cstate counter_kernel) := local_invoke layout_x86_64 no_other 50.

Definition demo_ap : invoke_fn (cstate counter_kernel) := fun target m msg cap st =>
  if target =? 7 then (st, (true, (fun ws => [100 + word ws 1]) <$> msg))
  else if target =? 101 then
    match proxy_handler (to_boot_core 50 demo_bsp) m msg cap st with Some (st', a) => (st', (true, a)) | None => (st, (false, None)) end
  else (st, (false, None)).

Definition demo_info : boot_info (cstate counter_kernel) :=
  {| bsp_kernel_invoke := Some demo_bsp; pml4_phys := 0x1000; fdt_blob_phys := 0; mutex_manager_handle := 48; hardware_mutex_id := 0; cluster_scheduler_handle := 50;
     serial_resource_handle := 51 |}.

Definition demo_class : object_class := {| handler_addr := 1; table_addr := 2; schema_idx := 0 |}.

Definition demo_image : image (cstate counter_kernel) :=
  {| g_bootstrap_record_next := 0; g_proxies := replicate MAX_PROXIES inhabitant;
     core := Some {| hw_mutex_manager := 0; hw_mutex_id := 0; my_node := 0; my_pml4_phys := 0 |};
     sched := {| core_binding := Some {| b_invoke := None; b_cluster := 0; b_node_id := 0 |};
                 g_binding := {| b_invoke := None; b_cluster := 0; b_node_id := 0 |} |};
     tables := demo_tables; g_serial_resource := 0;
     net := {| g_network_machine_node := 0; g_network_owner_core := 0; g_network_executor := 0; g_network_scheduler := 0 |};
     world := demo_state |}.

Definition demo_functions : job_functions (W := cstate counter_kernel) :=
  let fn : job_fn := fun _ _ w => Some (w, (JOB_FINISHED, 0)) in
  {| f_pci_scan := fn; f_disk_demo := fn; f_timer_bringup := fn; f_smp_bringup := fn; f_greet := fn; f_resource_demo := fn;
     f_pagefault_demo := fn; f_stream_setup := fn; f_stream_cow_verify := fn; f_securinit_boot := fn; f_network_remote_demo := fn;
     f_scheduled_add := add_fn; f_result_waiter := fn |}.

Lemma demo_room : room demo_state.
Proof.
  split; [vm_compute; reflexivity|vm_compute; discriminate|].
  exists 120%nat, 121%nat. do 2 eexists. split_and!; [discriminate|vm_compute; reflexivity..].
Qed.

Lemma demo_grants : grants 3 (k demo_state).
Proof. repeat (intros ?; do 2 eexists; split; [vm_compute; reflexivity|split; [discriminate|]]). exact I. Qed.


(** ** Where the namespaces fall short *)

(** Only the boot core reads the machine's number off the network device.  A
    core that runs on an image of its own has 0 there: it joins under its
    plain id, which is not the id that the boot core addresses it by, and the
    core with the same id of another such machine is refused. *)
Theorem own_image_core_misnamed `{HL : KernelLaws K} m n (c : client (cstate K)) b :
  0 < m < 256 -> 0 <= n < 2 ^ 56 -> 0 <= b < 2 ^ 56 -> scheduler_get_my_node_id c = cluster_node_id m b ->
  scheduler_node_for_local_core c n <> cluster_node_id 0 n /\
  forall arch target cap (st : cstate K), node_find_by_id (cluster_node_id 0 n) st <> 0 ->
    handle_join_node [cluster_node_id 0 n; arch; target] cap st = (st, reply cap [0]).
Proof.
  intros Hm Hn Hb Hc. destruct (node_id_parts m n) as (E & _ & V); [done..|]. destruct (node_id_parts m b) as (_ & Hi & _); [done..|]. split.
  - unfold scheduler_node_for_local_core. rewrite Hc, Hi. change 0x00ffffffffffffff with (Z.ones 56).
    rewrite Z.land_ones, Z.mod_small by lia. rewrite <- E, V. unfold cluster_node_id. cbn [Z.eqb]. lia.
  - intros arch target cap st Hf. unfold handle_join_node. cbn [word nth].
    by rewrite (proj2 (Z.eqb_neq _ _) Hf).
Qed.
