(* ===== verification/Demos.v ===== *)
(** * Demonstration jobs (coreinit/coreinit.c)

    coreinit runs jobs that exercise its own parts and print what they saw.
    Here a job returns what it would print: the values read by the
    demonstration of page faults, on the AArch64 backend, and the answers of
    the executor on another machine. *)

From S2P Require Import Prelude Capnp NetworkRpc Proxy Services.
From S2P Require PageTable PageFaultArm JobFault StateM.

(** ** Page faults *)

Module Faults.
Import PageTable PageFaultArm.

Definition PF_DEMO_REGION : Z := 0x53000000.
Definition PF_STREAM_PAGE : Z := PF_DEMO_REGION + 0x1000.
Definition PF_COW_PAGE : Z := PF_DEMO_REGION + 0x2000.

(** The syndromes of a data abort at EL1: a missing translation, and a write
    to a page that is read-only. *)
Definition TRANSLATION_FAULT : Z := 0x96000007.
Definition WRITE_BIT : Z := 0x40.
Definition PERMISSION_FAULT : Z := 0x9600004F.

(** An access as the processor runs it: translate, and on a fault enter the
    handler and try again, [fuel] times at most. *)
Fixpoint load (fuel : nat) (v : Z) (x : machine) : option (machine * Z) :=
  match translate (arch_mmu_root_phys x) v (mem x) with
  | Some (pa, _, _) => Some (x, mem x pa)
  | None =>
      match fuel, pagefault_aarch64_handle None TRANSLATION_FAULT v x with
      | S fuel, Retry x => load fuel v x
      | _, _ => None
      end
  end.

Fixpoint write (fuel : nat) (v value : Z) (x : machine) : option machine :=
  match translate (arch_mmu_root_phys x) v (mem x) with
  | Some (pa, true, _) => Some {| cs := cs x; mmu_on := mmu_on x; mem := store pa value (mem x) |}
  | t =>
      let esr := match t with Some _ => PERMISSION_FAULT | None => Z.lor TRANSLATION_FAULT WRITE_BIT end in
      match fuel, pagefault_aarch64_handle None esr v x with
      | S fuel, Retry x => write fuel v value x
      | _, _ => None
      end
  end.

(** What the two messages print. *)
Record report := {
  val : Z; val2 : Z; stream_faults : Z; cow_read : Z; faults_before_write : Z; faults_after_write : Z; copies : Z; private_copy : Z }.

(** [None]: the core halts in a fault; no report: the job ended early. *)
Definition job_pagefault_demo (ram_base : Z) (x : machine) : option (machine * option report) :=
  if negb (pagefault_supported x) then Some (x, None)
  else
    let x := pagefault_init x in
    let '(x, split) := pagefault_split_region ram_base PF_DEMO_REGION x in
    if negb split then Some (x, None)
    else
      x ← write 2 PF_STREAM_PAGE 0x1111 x;
      let x := fst (pagefault_mark_absent PF_STREAM_PAGE x) in
      '(x, val) ← load 2 PF_STREAM_PAGE x;
      '(x, val2) ← load 2 PF_STREAM_PAGE x;
      let stream_faults := pagefault_get_count x in
      x ← write 2 PF_COW_PAGE 0x2222 x;
      let x := fst (pagefault_mark_cow PF_COW_PAGE x) in
      '(x, cow_read) ← load 2 PF_COW_PAGE x;
      let faults_before_write := pagefault_get_count x in
      x ← write 2 PF_COW_PAGE 0x3333 x;
      let faults := pagefault_get_count x in
      let copies := pagefault_get_cow_copy_count x in
      '(x, copy) ← load 2 PF_COW_PAGE x;
      Some (x, Some {| val := val; val2 := val2; stream_faults := stream_faults; cow_read := cow_read;
                       faults_before_write := faults_before_write; faults_after_write := faults; copies := copies;
                       private_copy := copy |}).

(** On a core that has just enabled its MMU the demonstration prints what its
    messages expect: one fault for the streamed page, none for the reads
    after it, one for the write to the shared page, whose copy alone is
    written (the page itself keeps its value). *)
Theorem pagefault_demo_passes :
  exists x, job_pagefault_demo RAM_BASE JobFault.demo_boot = Some (x, Some
      {| val := 0x1111; val2 := 0x1111; stream_faults := 1; cow_read := 0x2222; faults_before_write := 1; faults_after_write := 2;
         copies := 1; private_copy := 0x3333 |}) /\
    mem x PF_COW_PAGE = 0x2222 /\ mem x PF_STREAM_PAGE = 0x1111.
Proof.
  assert (match job_pagefault_demo RAM_BASE JobFault.demo_boot with
          | Some (x, Some r) => (r, mem x PF_COW_PAGE, mem x PF_STREAM_PAGE) =
              ({| val := 0x1111; val2 := 0x1111; stream_faults := 1; cow_read := 0x2222; faults_before_write := 1;
                  faults_after_write := 2; copies := 1; private_copy := 0x3333 |}, 0x2222, 0x1111)
          | _ => False end) as H by (vm_compute; reflexivity).
  revert H. generalize (job_pagefault_demo RAM_BASE JobFault.demo_boot).
  intros [[x [r|]]|]; [|done|done]. intros [= -> ? ?]. by exists x.
Qed.

End Faults.

(** ** The executor of another machine *)

Section remote.
Context {W : Type}.
Context (g_kernel_invoke : byte_invoke W).
(** network_ether_wait_announcement for the executor, the stores to the
    static route and session, and CREATE on the local factory. *)
Context (wait_announcement : W -> W * option (Z * Z * list Z)) (open_session : Z -> list Z -> W -> W).
Context (put : network_rpc_session_t W -> W -> W) (get : W -> network_rpc_session_t W) (create : nat -> W -> W * option Z).

(** A call of the proxy: the two words of the answer. *)
Definition executor_call (proxy : Z) (call : list Z) (w : W) : W * option (Z * Z) :=
  if proxy =? 0 then (w, None)
  else
    let '(w, (ok, resp)) := g_kernel_invoke proxy 0 (capnp_build_flat 40 call) 32 w in
    (w, if ok && (32 <=? Z.of_nat (length resp))
        then let out := capnp_read_flat 2 resp in Some (word out 0, word out 1) else None).

(** The answers of the two calls; none when no executor was found. *)
Definition job_network_remote_demo (t : list (proxy_data_t W (list Z) (list Z))) (w : W)
    : list (proxy_data_t W (list Z) (list Z)) * W * list (option (Z * Z)) :=
  match wait_announcement w with
  | (w, None) => (t, w, [])
  | (w, Some (remote_node, remote, remote_mac)) =>
      let w := open_session remote_node remote_mac w in
      let '(t, w, proxy) := create_routed_proxy create remote (session_invoke put get) t w in
      let '(w, first) := executor_call proxy [1; 20; 22] w in
      let '(w, second) := executor_call proxy [1; 58; 42] w in
      (t, w, [first; second])
  end.
End remote.

(** The kernel of a machine whose object [h] is the executor. *)
Definition executor_kernel {W} (h : Z) : byte_invoke W := fun target _ msg cap w =>
  if target =? h
  then (w, (true, match network_executor_handler (capnp_read_flat 3 msg) cap with
                  | Some out => capnp_build_flat cap out | None => [] end))
  else (w, (false, [])).

Section executed.
Context {W : Type} (g_kernel_invoke : byte_invoke W).
Context (wait_announcement : W -> W * option (Z * Z * list Z)) (open_session : Z -> list Z -> W -> W).
Context (put : network_rpc_session_t W -> W -> W) (get : W -> network_rpc_session_t W) (create : nat -> W -> W * option Z).
Context (f : exchange_fn W) (node remote : Z) `{!Delivers f node (executor_kernel remote)}.
Definition session_to (w : W) : Prop := session_ok (get w) /\ exchange (get w) = Some f /\ remote_node (get w) = node.

(** The session's next id is kept. *)
Hypothesis Hget : forall w, session_to w -> get (put (next_id (get w)) w) = next_id (get w).

Lemma next_id_to w s' : session_to w -> s' = next_id (get w) -> session_ok s' /\ exchange s' = Some f /\ remote_node s' = node.
Proof. intros ([H1 H2 _] & Hf & Hn) ->. split_and!; [|done..]. split; [done|done|apply u64_range]. Qed.

Lemma u64_words x y : is_u64 x -> is_u64 y -> Forall is_u64 [1; x; y] /\ Forall is_u64 [1; x].
Proof. intros Hx Hy. assert (is_u64 1) by (unfold is_u64, W64; lia). split; by repeat apply Forall_cons_2. Qed.

(** A call of the proxy is answered with the sum. *)
Lemma executor_answers proxy (p : proxy_data_t W (list Z) (list Z)) x y w :
  proxy <> 0 -> is_u64 remote -> p_remote_target p = remote -> p_remote_invoke_ctx p = Some (session_invoke put get) ->
  (forall m msg cap w, g_kernel_invoke proxy m msg cap w =
     match proxy_handler p m msg cap w with Some (w, r) => (w, (true, r)) | None => (w, (false, [])) end) ->
  session_to w -> is_u64 x -> is_u64 y ->
  exists w', executor_call g_kernel_invoke proxy [1; x; y] w = (w', Some (1, x +64 y)) /\ session_to w'.
Proof.
  intros Hp Hr Ht Hc Hk Hs Hx Hy. pose proof Hs as (Hok & Hf & Hn).
  destruct (reply_build_read 40 [1; x; y]) as [Hq Hlq]; [done|by apply (u64_words x y)|].
  destruct (reply_build_read 32 [1; x +64 y]) as [Ha Hla]; [done|apply (u64_words _ 0); [apply u64_range|by split]|].
  change (length [1; x; y]) with 3%nat in Hq. change (length [1; x +64 y]) with 2%nat in Ha.
  change (response_len (reply 40 [1; x; y])) with 40 in Hlq. change (response_len (reply 32 [1; x +64 y])) with 32 in Hla.
  unfold executor_call. rewrite (proj2 (Z.eqb_neq _ _) Hp), Hk. unfold proxy_handler. rewrite Hc, Ht. unfold session_invoke.
  rewrite (remote_call_served (get w) f (executor_kernel remote)); [|done| |done|by rewrite Hn].
  - unfold executor_kernel. rewrite Z.eqb_refl, Hq.
    change (network_executor_handler [1; x; y] 32) with (Some [1; x +64 y]). cbn [andb]. rewrite Hla. cbn [Z.leb Z.compare].
    change (32 <=? 32) with true. cbv iota. rewrite Hla. change (32 <=? 32) with true. cbn [andb]. rewrite Ha.
    eexists. split; [reflexivity|]. unfold session_to. rewrite Hget by done. by eapply next_id_to.
  - split; [done|by split|rewrite Hlq; vm_compute; discriminate|by split].
Qed.

(** A machine that finds an executor announced on the network gets both its
    answers: the job's two calls, through a new proxy, a session and the
    other machine's kernel, come back as 42 and 100, which the job prints
    as passed. *)
Theorem remote_demo_passes t w w1 mac w2 :
  is_u64 remote -> wait_announcement w = (w1, Some (node, remote, mac)) ->
  (forall slot, exists h, create slot (open_session node mac w1) = (w2, Some h) /\ h <> 0 /\
     forall m msg cap w, g_kernel_invoke h m msg cap w =
       match proxy_handler {| p_remote_target := remote; p_remote_invoke := None;
                              p_remote_invoke_ctx := Some (session_invoke put get); p_used := true |} m msg cap w with
       | Some (w, r) => (w, (true, r)) | None => (w, (false, [])) end) ->
  session_to w2 -> (exists p, p ∈ t /\ p_used p = false) ->
  snd (job_network_remote_demo g_kernel_invoke wait_announcement open_session put get create t w) = [Some (1, 42); Some (1, 100)].
Proof.
  intros Hr Hwait Hcreate Hs2 (p & Hp & Hu). unfold job_network_remote_demo. rewrite Hwait.
  apply list_elem_of_lookup in Hp as [i Hi].
  destruct (first_index_exists (fun p => negb (p_used p)) t i p Hi) as (slot & Hslot & _); [by rewrite Hu|].
  destruct (Hcreate slot) as (h & Hc & Hh & Hk). unfold create_routed_proxy, create_proxy_common. rewrite Hslot, Hc.
  set (q := {| p_remote_target := remote; p_remote_invoke := None; p_remote_invoke_ctx := Some (session_invoke put get);
               p_used := true |}) in Hk.
  destruct (executor_answers h q 20 22 w2) as (w3 & -> & Hs3); try done.
  destruct (executor_answers h q 58 42 w3) as (w4 & -> & Hs4); try done.
Qed.
End executed.

(** Two machines side by side: the world is the session's next id. *)
Definition beside : exchange_fn Z := fun request cap => network_rpc_serve 2 (Some (executor_kernel 7)) (Bytes request) false cap.
Definition beside_get (n : Z) : network_rpc_session_t Z :=
  {| local_node := 1; remote_node := 2; next_request_id := u64 n; exchange := Some beside |}.
Definition beside_put (s : network_rpc_session_t Z) (_ : Z) : Z := next_request_id s.
Definition beside_proxy : proxy_data_t Z (list Z) (list Z) :=
  {| p_remote_target := 7; p_remote_invoke := None; p_remote_invoke_ctx := Some (session_invoke beside_put beside_get); p_used := true |}.
Definition beside_invoke : byte_invoke Z := fun _ m msg cap w =>
  match proxy_handler beside_proxy m msg cap w with Some (w, r) => (w, (true, r)) | None => (w, (false, [])) end.

#[local] Instance beside_delivers : Delivers beside 2 (executor_kernel 7).
Proof. intros request cap w. reflexivity. Qed.

Lemma remote_demo_passes_witness :
  snd (job_network_remote_demo beside_invoke (fun w => (w, Some (2, 7, [2; 0; 0; 0; 0; 2]))) (fun _ _ _ => 1) beside_put beside_get
    (fun _ w => (w, Some 40)) (replicate MAX_PROXIES inhabitant) 0) = [Some (1, 42); Some (1, 100)].
Proof.
  apply (remote_demo_passes beside_invoke _ _ beside_put beside_get _ beside 2 7) with (w1 := 0) (mac := [2; 0; 0; 0; 0; 2]) (w2 := 1).
  - intros w _. unfold beside_get, beside_put, next_id. cbn. by rewrite u64_idem.
  - by split.
  - done.
  - intros slot. exists 40. by split_and!.
  - split_and!; [|done|done]. split; by split.
  - exists inhabitant. split; [|done]. by apply list_elem_of_here.
Defined.

(** ** Timer bring-up *)

Module Timer.
Import StateM.

(** What the job does, in order. *)
Inductive event :=
| HwLock | HwUnlock
| IrqCoreInit
| TimerCoreInit (hint calibration : Z)
| InstallHandler
| Send (target : Z)
| WaitForInterrupt
| CreateIrqManager | CreateTickCounter
| TimerBind (tick_counter : Z).

(** [core]: [cross_core_signal_test_seen] of the core's [core_state], if it
    has one. *)
Record timer_state := { log : list event; core : option bool; g_timer_calibration : Z }.

Record timer_job_ctx_t := { timer_hint : Z; is_bsp : bool; discovered_calibration : Z }.

Section job.
(** What timer_core_init measures, the core's own signal target, the handle
    of the tick counter, and whether the signal has arrived, given what was
    done before. *)
Context (measured my_target tick_counter : Z) (arrives : list event -> bool).

Definition emit (e : event) : M timer_state unit :=
  modify (fun s => {| log := log s ++ [e]; core := core s; g_timer_calibration := g_timer_calibration s |}).

Definition set_core (b : bool) : M timer_state unit :=
  modify (fun s => {| log := log s; core := (fun _ => b) <$> core s; g_timer_calibration := g_timer_calibration s |}).

Definition set_calibration (v : Z) : M timer_state unit :=
  modify (fun s => {| log := log s; core := core s; g_timer_calibration := v |}).

(** [cross_core_signal_test_handler]. *)
Definition cross_core_signal_test_handler : M timer_state unit := set_core true.

(** The handler runs if the signal is there. *)
Definition deliver : M timer_state unit :=
  l ← get log;
  if arrives l then cross_core_signal_test_handler else mret tt.

(** A wait returns after an interrupt: the signal's or another. *)
Definition wait_for_interrupt : M timer_state unit := _ ← emit WaitForInterrupt; deliver.

Definition test_seen : M timer_state bool := get (fun s => bool_decide (core s = Some true)).

Fixpoint wait_signal (spins : nat) : M timer_state unit :=
  match spins with
  | O => mret tt
  | S spins => seen ← test_seen; if seen : bool then mret tt else _ ← wait_for_interrupt; wait_signal spins
  end.

(** The result: whether the self-test passed. *)
Definition job_timer_bringup (c : timer_job_ctx_t) : M timer_state bool :=
  _ ← (if is_bsp c then
         _ ← emit HwLock; _ ← emit IrqCoreInit; _ ← emit (TimerCoreInit (timer_hint c) 0);
         _ ← set_calibration (u32 measured); emit HwUnlock
       else
         _ ← emit HwLock; _ ← emit IrqCoreInit; _ ← emit HwUnlock;
         emit (TimerCoreInit (timer_hint c) (u32 (discovered_calibration c))));
  _ ← emit InstallHandler;
  _ ← set_core false;
  _ ← emit (Send my_target);
  _ ← deliver;
  _ ← wait_signal 1000;
  passed ← test_seen;
  _ ← emit CreateIrqManager;
  _ ← emit CreateTickCounter;
  _ ← emit (TimerBind tick_counter);
  mret passed.

Lemma bool_decide_some_true (b : bool) : bool_decide (Some b = Some true) = b.
Proof. destruct b; [by apply bool_decide_eq_true_2|by apply bool_decide_eq_false_2]. Qed.

Lemma test_seen_run s : test_seen s = Some (s, bool_decide (core s = Some true)).
Proof. done. Qed.

(** The signal arrives in one of the first [n] waits after [l]. *)
Definition arrives_within (n : nat) (l : list event) : bool :=
  existsb (fun i => arrives (l ++ replicate (S i) WaitForInterrupt)) (seq 0 n).

Lemma arrives_within_S n l : arrives_within (S n) l = arrives (l ++ [WaitForInterrupt]) || arrives_within n (l ++ [WaitForInterrupt]).
Proof.
  unfold arrives_within. cbn [seq existsb]. f_equal. rewrite <- seq_shift. generalize (seq 0 n) as l0. intros l0.
  induction l0 as [|i l0 IH]; [done|]. cbn [map existsb]. rewrite IH. f_equal. by rewrite <- (assoc_L app).
Qed.

(** The rest of the loop, by the induction hypothesis. *)
Ltac rest_waits IH :=
  unfold mret, M_ret; cbv beta iota;
  match goal with |- context [wait_signal _ ?x] =>
    let k := fresh "k" in let s' := fresh "s" in let Hl := fresh "Hl" in let Hg := fresh "Hg" in let Hs := fresh "Hs" in
    destruct (IH x) as (k & s' & -> & ? & Hl & Hg & Hs); exists (S k), s'; cbn in Hl, Hg, Hs;
    rewrite Hl, Hg, Hs, <- (assoc_L app); split_and!; (done || lia || by simplify_option_eq)
  end.

Lemma wait_signal_run n s :
  exists k s', wait_signal n s = Some (s', tt) /\ (k <= n)%nat /\ log s' = log s ++ replicate k WaitForInterrupt /\
    g_timer_calibration s' = g_timer_calibration s /\
    core s' = match core s with Some false => Some (arrives_within n (log s)) | c => c end.
Proof.
  revert s. induction n as [|n IH]; intros s; cbn [wait_signal].
  { exists 0%nat, s. rewrite app_nil_r. split_and!; try done. by destruct (core s) as [[]|]. }
  unfold mbind at 1, M_bind at 1. rewrite test_seen_run. destruct (core s) as [[]|] eqn:Hc.
  1: { exists 0%nat, s. rewrite app_nil_r, Hc. split_and!; try done. lia. }
  all: rewrite bool_decide_eq_false_2 by done; unfold wait_for_interrupt, deliver, mbind, M_bind, emit, modify, get; cbn [log core g_timer_calibration].
  - rewrite arrives_within_S. destruct (arrives _) eqn:Ha; cbn [orb].
    + unfold cross_core_signal_test_handler, set_core, modify. cbn [log core g_timer_calibration]. rewrite Hc. rest_waits IH.
    + rest_waits IH.
  - destruct (arrives _); unfold cross_core_signal_test_handler, set_core, modify; cbn [log core g_timer_calibration];
      rewrite ?Hc; rest_waits IH.
Qed.

(** What the job does before the self-test. *)
Definition bring_up (c : timer_job_ctx_t) : list event :=
  (if is_bsp c then [HwLock; IrqCoreInit; TimerCoreInit (timer_hint c) 0; HwUnlock]
   else [HwLock; IrqCoreInit; HwUnlock; TimerCoreInit (timer_hint c) (u32 (discovered_calibration c))]) ++
  [InstallHandler; Send my_target].

(** The job always ends, after at most a thousand waits.  On every core the
    interrupt hardware is set up under the hardware mutex, and the boot core
    measures its timer there too; the signal handler is installed before the
    signal is sent, and the timer is bound to the tick counter last.  The test
    passes exactly when the core has a [core_state] and the signal arrives in
    that time. *)
Theorem timer_bringup_runs c s :
  exists k s' passed, job_timer_bringup c s = Some (s', passed) /\ (k <= 1000)%nat /\
    log s' = log s ++ bring_up c ++ replicate k WaitForInterrupt ++ [CreateIrqManager; CreateTickCounter; TimerBind tick_counter] /\
    passed = match core s with
             | Some _ => arrives (log s ++ bring_up c) || arrives_within 1000 (log s ++ bring_up c) | None => false end /\
    g_timer_calibration s' = (if is_bsp c then u32 measured else g_timer_calibration s).
Proof.
  unfold job_timer_bringup. unfold bring_up. destruct (is_bsp c).
  all: unfold mbind, M_bind, deliver, emit, set_calibration, set_core, modify, get; cbn [log core g_timer_calibration].
  all: rewrite <- !(assoc_L app); cbn [app]; unfold cross_core_signal_test_handler, set_core, modify, mret, M_ret, mbind, M_bind.
  all: destruct (arrives _) eqn:Ha; cbn [log core g_timer_calibration orb].
  all: match goal with |- context [wait_signal 1000 ?x] => destruct (wait_signal_run 1000 x) as (k & s' & -> & Hk & Hl & Hg & Hs) end.
  all: cbn [log core g_timer_calibration] in Hl, Hg, Hs; rewrite test_seen_run.
  all: exists k; do 2 eexists; split; [reflexivity|]; cbn [log core g_timer_calibration]; rewrite Hl, Hg, Hs.
  all: rewrite <- !(assoc_L app); cbn [app]; split_and!; try done; destruct (core s); try done; cbn [fmap option_fmap option_map].
  all: apply bool_decide_some_true.
Qed.
End job.
End Timer.
